(* ===== verification/_CoqProject ===== *)
-Q . S2P
Prelude.v
Php.v
InvDb.v
InvApp.v
MyBit.v
Bitmap.v
ByteOrder.v
LifoBuffer.v
TypeInt.v
Privilege.v
SqlList.v
PList.v
IList.v
ErrorMsg.v
SqlString.v
SelArg.v
ILink.v
BasicTypes.v
ThreadCache.v
TranxAlloc.v
HashFilo.v
MyTime.v
Sec6.v
Temporal.v
Doubles.v
Mbr.v
LexStream.v
BoundedQueue.v
Arrays.v
Xid.v
Handler.v
WindowFunc.v
Mdl.v
QueryTables.v
Session.v
JsonWriter.v
AutoInc.v
Diagnostics.v
CommitOrder.v
FixedBin.v
Filesort.v
Statistics.v
Decimal.v
LexTypes.v
TypeAttrs.v
JoinCache.v
