(* ===== verification/Prelude.v ===== *)
(** * The inventory system and the server library it ships: verification

    The repository is an asset inventory: PHP pages under [src/www] on top of a
    MariaDB server, which it ships as binaries together with the server's C and
    C++ headers under [src/mariadb/include/mysql/server] (written [server/]
    below).  The pages and the inline code of the headers are the code that can
    be read, and they are what this library models.  The development has two
    halves that share this file only:

    - the application: [Php] (values and library functions of PHP), [InvDb]
      (the database) and [InvApp] (the pages);
    - the server library: the other files, one per header, family of headers or
      class, in four groups: integers and bytes ([MyBit], [Bitmap], [ByteOrder],
      [TypeInt], [Privilege], [BasicTypes], [ErrorMsg]), containers and memory
      ([LifoBuffer], [SqlList], [PList], [IList], [ILink], [SqlString],
      [TranxAlloc], [HashFilo], [BoundedQueue], [Arrays]), values and expressions
      ([MyTime], [Sec6], [Temporal], [Doubles], [Mbr], [SelArg], [WindowFunc], [FixedBin],
      [Decimal], [LexTypes], [TypeAttrs]), and
      sessions ([ThreadCache], [LexStream], [QueryTables], [Xid], [Handler], [Mdl],
      [Session], [JsonWriter], [AutoInc], [Diagnostics], [CommitOrder], [Filesort],
      [Statistics], [JoinCache]).

    ** Files

    - [Prelude] (this file): machine integers ([wrapU], [wrapS], [in_u]), bits
      (the rewriting database [zbits], the tactics [bits] and [bits_split]),
      words as lists of digits ([from_digits], [to_digits]), the state monad [ST]
      whose [None] is undefined behaviour, exhaustive checks ([all_below]), and
      list lemmas.
    - [Php]: [empty], [trim], [implode], the conversion of strings to integers,
      decoded JSON.  What goes through the C library ([strtod]) and
      [json_decode] are the classes [Strtod] and [Json].
    - [InvDb]: the schema of [www/inventory_db.sql], the texts of the statements
      the pages send, the interface [Database] of the connection
      ([www/config.php]) with the documented effect of each statement as its
      laws, and the in-memory implementation [Mem] that satisfies the laws.
    - [InvApp]: [login.php], [index.php], [logout.php], [dashboard.php],
      [masterlist.php], [new_entry.php], [add_asset.php], [edit_asset.php],
      [delete_selected.php], [undo_delete.php] and [export_excel.php] as
      functions of request, session and database ([serve]); a sequence of
      requests is the relation [step] with its closure [reachable].
    - [MyBit]: [server/private/my_bit.h].
    - [Bitmap]: [server/private/sql_bitmap.h].
    - [ByteOrder]: [server/my_byteorder.h], its three platform variants
      [byte_order_generic.h], [byte_order_generic_x86.h] and
      [byte_order_generic_x86_64.h] (one Module each, behind the record
      [byte_order] and the class [ByteOrderLaws]), the machine formats
      [little_endian.h] and [big_endian.h], and [server/private/myisampack.h]
      (Module [Mi]).
    - [LifoBuffer]: [server/private/sql_lifo_buffer.h]; the virtual methods are
      the class [LifoImpl] with the Modules [Forward] and [Backward].
    - [TypeInt]: [server/private/sql_type_int.h].
    - [Privilege]: [server/private/privilege.h].
    - [SqlList]: [server/private/sql_list.h], the part on [base_list], [List] and
      [bubble_sort], over a store of nodes and list objects.
    - [PList]: [server/private/sql_plist.h], over a store of link fields.
    - [IList]: [server/private/ilist.h], over a store of sentinels and elements.
    - [ErrorMsg]: [server/mysqld_error.h], [server/sql_state.h] and the message
      index of [server/private/unireg.h].
    - [SqlString]: [Binary_string] of [server/private/sql_string.h], over a store of
      buffers in which a string owns its buffer, borrows it or has none.
    - [SelArg]: the intervals ([SEL_ARG]) of [server/private/opt_range.h]; the field
      of an interval is the class with the comparison of its values.
    - [ILink]: [SQL_I_List], [ilink], [base_ilist] and [I_List] of
      [server/private/sql_list.h].
    - [BasicTypes]: the date mode flags of [server/private/sql_basic_types.h] and the
      LIMIT counters of [server/private/sql_limit.h].
    - [ThreadCache]: [server/private/thread_cache.h] as a transition system of the
      threads that park, connect and flush.
    - [TranxAlloc]: the node allocator and the transaction list of
      [server/private/semisync_master.h].
    - [HashFilo]: [server/private/hash_filo.h].
    - [MyTime], [Sec6], [Temporal]: [server/private/my_time.h] and the temporal value
      classes of [server/private/sql_type.h]; what they call in code outside the
      repository is the class [TimeLib] with its laws.
    - [Doubles]: the type [double] of C.
    - [Mbr]: the rectangles and the bounds checks of [server/private/spatial.h].
    - [LexStream]: [Lex_input_stream] of [server/private/sql_lex.h].
    - [BoundedQueue]: [server/private/bounded_queue.h]; the queue below it is the class
      [QueueLib] with its laws.
    - [Arrays]: [server/private/mem_root_array.h] and [server/private/sql_array.h].
    - [Xid]: the transaction identifiers of [server/private/handler.h].
    - [Handler]: the scans of a table handle and the transaction records of
      [server/private/handler.h]; the engine is the class [Engine].
    - [WindowFunc]: [server/private/item_windowfunc.h].
    - [Mdl]: the keys, requests and contexts of [server/private/mdl.h].
    - [QueryTables]: [Query_tables_list] of [server/private/sql_lex.h].
    - [Session]: the clock, the pending operations, the kill state and the statement
      settings of [THD] in [server/private/sql_class.h].
    - [JsonWriter]: [server/private/my_json_writer.h].
    - [AutoInc]: the auto-increment intervals and DDL options of
      [server/private/structs.h].
    - [Diagnostics]: [server/private/sql_error.h]; its stack of condition lists is
      an [I_P_List] of [PList].
    - [CommitOrder]: [wait_for_commit] of [server/private/sql_class.h].
    - [FixedBin]: the types of a fixed number of bytes of
      [server/private/sql_type_fixedbin.h] and [sql_type_fixedbin_storage.h]; a concrete
      type is the class [FbtImpl] with the laws [FbtLaws].
    - [Filesort]: the sort buffer of [server/private/filesort_utils.h], and the merge
      chunks and record formats of [server/private/sql_sort.h].
    - [JoinCache]: the references of the join buffer,
      [server/private/sql_join_cache.h].
    - [Decimal]: [server/private/my_decimal.h] with the pointers to decimals of
      [server/private/sql_type.h]; the arithmetic is the class [DecimalLib].
    - [LexTypes]: the clauses of [server/private/lex_charset.h] and the lengths, field
      types and block counters of [server/private/structs.h].
    - [TypeAttrs]: collations with derivations, lengths and decimals of expressions,
      hashes and type names of [server/private/sql_type.h].
    - [Statistics]: histograms, counters and column characteristics of
      [server/private/sql_statistics.h].

    ** What the theorems show

    - The pages.  Without a session nothing of the protected pages is shown or
      changed; a complete new entry adds exactly the entered asset and logs it,
      and an incomplete one adds nothing; a trimmed log keeps the fifteen newest
      entries; submitting the edit form walks through the edit queue to its end;
      deletion removes exactly the selected rows, and an update changes no other
      row; login succeeds exactly with the stored password; the export lists
      every asset.  Some theorems state behaviour that is not intended and say
      so: the undo page never restores anything, an id without an asset blocks
      the edit queue, and [index.php] never opens the application.
    - Integers and words.  The bit tricks compute logarithm, population count,
      next power of two and lowest bit; the word-wise bitmap loops are the set
      operations, and the iterator enumerates the set; the hybrid integers
      compare and convert as mathematical integers and detect overflow;
      privilege masks survive the stored formats; error codes, message slots and
      SQLSTATEs are consistent; the flags of the date modes stay in their types.
    - Byte buffers.  Stores and reads are inverse in all variants, the variants
      are interchangeable, and keys stored high byte first sort by [memcmp] as
      numbers.  Both LIFO buffers are stacks, and two of them can share one
      area.  A string is a sequence of bytes under every operation, and no buffer
      is freed twice, used after it was freed, or lost, however two strings pass
      theirs to each other.
    - Linked structures.  [base_list], [I_P_List], [ilist], [SQL_I_List] and [I_List]
      refine sequences, with count and last pointer, under removal during
      iteration; joining and splitting; [bubble_sort] sorts and stops.  The node
      allocator is a queue, the hash cache keeps the elements used last, the
      bounded queue keeps the best elements, [Mem_root_array] is a list that grows.
    - Values.  TIME, DATE and DATETIME values stay valid through every constructor;
      truncation, rounding, addition of intervals, EXTRACT and the order of
      timestamps are arithmetic on microseconds; rectangles compare as sets of
      points; the operations on key ranges are operations on sets of keys (where
      [copy_min] and [copy_max] make the hull of two ranges); NTILE deals out rows
      evenly and refuses an argument that is not positive or changes, and the
      percentiles pick or interpolate the rows that their definition names.  Values of a fixed binary form have one order in
      records, memory, IN lists and sort keys, and columns give back what they store.
      A decimal operation stores the result the library generated for its operands, the
      greatest number of the right sign after an overflow, and completes by the error
      mask; a field type of the parser gives back the character set clauses it was
      given.
    - Sessions.  In every interleaving the thread cache keeps its counts, serves
      every connection and ends every flush, with one lost wakeup when two flushes
      meet; the pending operations of a session are waited for without a lost
      wakeup, and exactly one thread resumes a suspended session.  Statement times
      strictly increase.  The character stream gives back what it read; the list of
      tables is the own tables and the prelocked ones; transaction identifiers and
      lock keys are equal exactly when their parts are; an engine sees scans only
      in their order; a mixed statement is unsafe exactly as documented.  The trace
      writer produces well formed JSON however its scopes end, within its size
      limit; nested condition lists do not reach into each other; merged
      auto-increment intervals have the values of both; a waiter that gives up
      leaves the commit list and nothing else.  A sort buffer keeps the records put
      into it, and records in every packed format are found again one after the other;
      the search in a histogram ends at the bucket of the position.
    - Defects.  Some lemmas state what the code does against its own documentation:
      the list that [push_back] leaves when allocation fails, [ilist::pop_back] that
      unlinks the sentinel, the asymmetric [touches] of rectangles, the fraction
      of a replicated time that reaches a million, the overload of the trace writer
      that follows a null pointer, the space left in a join buffer that wraps, and
      others that the manifest lists as findings.

    Abstract views: the list of rows and the log of [Database]; the membership
    function of a bitmap; the integer that a hybrid stands for; the digits of a
    word; the sequence or stack that [rep] and [holds] relate to a store; the
    microseconds of a time; the rank of a double on a line of integers.

    Assumptions: the classes named above ([Database], [TimeLib], [QueueLib], [Engine],
    [MdlLib], [CachedItems], [Commits], [FbtImpl], [DecimalLib], [RangeField], [CharsetLib]
    and so on) stand for code that is not in the repository; where they have laws, these
    state its documented behaviour, and an instance that satisfies them is part of the file.  [long]
    has 64 bits in the temporal files (the days of fewer than 2^63 microseconds fit 32
    bits too, the size it has on Windows) and is a parameter in [Session], [Xid] and [ThreadCache].

    ** Bounds and fuel

    Loops of the source that are not structural take a [nat] of fuel and give
    [None] when it runs out; every theorem about such a loop assumes fuel above
    the length of the structure it walks (or above the 64 bits of a word; for
    [bubble_sort] at least the length) and concludes that the loop returns.  Counters keep their 32 bits; a theorem
    whose conclusion needs the counter not to wrap says so.  Machine integers
    are [Z] with the wrap of their type written where the source converts.

    ** Not modelled

    The MariaDB server, PHP and the desktop browser themselves (binaries); HTML
    layout and the browser-side script of the pages; code that the headers only
    declare ([base_list::copy], [my_qsort2], [longlong2str] and so on: parameters
    where they are used); and the headers that hold declarations only.  The manifest lists them.  What is left
    with inline code worth a model: the accessors of [item.h] and [field.h], the
    events of [log_event.h] and the string helpers of [m_string.h]. *)

From stdpp Require Export base tactics option list gmap strings.
From Stdlib Require Export ZArith Lia Bool.
From Stdlib Require Export Btauto Sorted.

#[global] Open Scope Z_scope.

(** ** Machine integers

    A w-bit unsigned integer is a [Z] in [0, 2^w); arithmetic of the source is
    followed by the wrap of its type.  [wrapU] is the conversion to an unsigned
    type, [wrapS] the (two's complement) conversion to a signed one. *)

Definition wrapU (w z : Z) : Z := z mod 2 ^ w.
Definition wrapS (w z : Z) : Z := (z + 2 ^ (w - 1)) mod 2 ^ w - 2 ^ (w - 1).

Abbreviation u8 := (wrapU 8).
Abbreviation u16 := (wrapU 16).
Abbreviation u32 := (wrapU 32).
Abbreviation u64 := (wrapU 64).
Abbreviation s32 := (wrapS 32).
Abbreviation s64 := (wrapS 64).

(** The C operators whose result leaves the unsigned range before the wrap. *)
Definition bnot (w z : Z) : Z := wrapU w (Z.lnot z).
Definition shl (w z n : Z) : Z := wrapU w (Z.shiftl z n).

Definition in_u (w z : Z) : Prop := 0 <= z < 2 ^ w.
Definition in_s (w z : Z) : Prop := - 2 ^ (w - 1) <= z < 2 ^ (w - 1).

#[export] Instance in_u_dec w z : Decision (in_u w z).
Proof. unfold in_u. apply _. Defined.
#[export] Instance in_s_dec w z : Decision (in_s w z).
Proof. unfold in_s. apply _. Defined.

(** A C value used as a condition. *)
Definition nz (z : Z) : bool := negb (z =? 0).

Lemma nz_true z : nz z = true <-> z <> 0.
Proof. unfold nz. destruct (Z.eqb_spec z 0); simpl; split; intros; done || congruence. Qed.
Lemma nz_false z : nz z = false <-> z = 0.
Proof. unfold nz. destruct (Z.eqb_spec z 0); simpl; split; intros; done || congruence. Qed.

Lemma wrapU_range w z : 0 <= w -> in_u w (wrapU w z).
Proof. intros. apply Z.mod_pos_bound. apply Z.pow_pos_nonneg; lia. Qed.

Lemma wrapU_small w z : in_u w z -> wrapU w z = z.
Proof. intros. by apply Z.mod_small. Qed.

Lemma wrapU_idemp w z : 0 <= w -> wrapU w (wrapU w z) = wrapU w z.
Proof. intros. apply wrapU_small, wrapU_range. lia. Qed.

Lemma wrapS_range w z : 0 < w -> in_s w (wrapS w z).
Proof.
  intros Hw. unfold in_s, wrapS.
  assert (2 ^ w = 2 * 2 ^ (w - 1)) as E.
  { rewrite <- Z.pow_succ_r by lia. f_equal. lia. }
  pose proof (Z.mod_pos_bound (z + 2 ^ (w - 1)) (2 ^ w)) as B.
  assert (0 < 2 ^ w) by (apply Z.pow_pos_nonneg; lia). lia.
Qed.

Lemma wrapS_small w z : 0 < w -> in_s w z -> wrapS w z = z.
Proof.
  intros Hw [H1 H2]. unfold wrapS.
  assert (2 ^ w = 2 * 2 ^ (w - 1)) as E.
  { rewrite <- Z.pow_succ_r by lia. f_equal. lia. }
  rewrite Z.mod_small; lia.
Qed.

(** Reinterpreting a signed value as unsigned and back loses nothing. *)
Lemma wrapS_wrapU w z : 0 < w -> wrapS w (wrapU w z) = wrapS w z.
Proof.
  intros Hw. unfold wrapS, wrapU. f_equal.
  rewrite Zplus_mod_idemp_l. done.
Qed.

Lemma wrapU_wrapS w z : 0 < w -> wrapU w (wrapS w z) = wrapU w z.
Proof.
  intros Hw. unfold wrapS, wrapU.
  rewrite Zminus_mod_idemp_l. f_equal. lia.
Qed.

(** The unsigned view of a signed value: add the modulus to the negatives. *)
Lemma wrapU_signed w z :
  0 < w -> in_s w z -> wrapU w z = if z <? 0 then z + 2 ^ w else z.
Proof.
  intros Hw [H1 H2]. unfold wrapU.
  assert (2 ^ w = 2 * 2 ^ (w - 1)) as E.
  { rewrite <- Z.pow_succ_r by lia. f_equal. lia. }
  destruct (Z.ltb_spec z 0).
  - rewrite <- (Z.mod_small (z + 2 ^ w) (2 ^ w)) by lia.
    rewrite <- Z.add_mod_idemp_r by lia. rewrite Z.mod_same by lia.
    by rewrite Z.add_0_r.
  - apply Z.mod_small. lia.
Qed.

(** ** Bits *)

Lemma testbit_wrapU w z i :
  0 <= w -> 0 <= i -> Z.testbit (wrapU w z) i = (i <? w) && Z.testbit z i.
Proof.
  intros Hw Hi. unfold wrapU. destruct (Z.ltb_spec i w); simpl.
  - apply Z.mod_pow2_bits_low. lia.
  - apply Z.mod_pow2_bits_high. lia.
Qed.

Lemma testbit_above w z i : 0 <= w -> in_u w z -> w <= i -> Z.testbit z i = false.
Proof.
  intros Hw Hz Hi. rewrite <- (wrapU_small w z) by done.
  rewrite testbit_wrapU by lia. by destruct (Z.ltb_spec i w); [lia|].
Qed.

(** A number is a w-bit one when no bit at or above w is set. *)
Lemma in_u_bits w z :
  0 <= w -> (forall i, w <= i -> Z.testbit z i = false) -> 0 <= z -> in_u w z.
Proof.
  intros Hw Hb Hz. rewrite <- (Z.mod_small z (2 ^ (Z.log2 z + 1))).
  - assert (z mod 2 ^ w = z) as E.
    { apply Z.bits_inj'. intros i Hi. destruct (Z.lt_ge_cases i w).
      - by rewrite Z.mod_pow2_bits_low by lia.
      - rewrite Z.mod_pow2_bits_high by lia. by rewrite Hb by lia. }
    rewrite Z.mod_small.
    + rewrite <- E. apply Z.mod_pos_bound. apply Z.pow_pos_nonneg; lia.
    + split; [done|]. destruct (Z.eq_dec z 0) as [->|]; [reflexivity|].
      apply Z.log2_spec. lia.
  - split; [done|]. destruct (Z.eq_dec z 0) as [->|]; [reflexivity|].
    apply Z.log2_spec. lia.
Qed.

Lemma in_u_nonneg w z : in_u w z -> 0 <= z.
Proof. intros []. done. Qed.

Lemma in_u_mono w w' z : w <= w' -> in_u w z -> in_u w' z.
Proof.
  intros Hle [H1 H2]. split; [done|].
  apply Z.lt_le_trans with (2 ^ w); [done|]. by apply Z.pow_le_mono_r.
Qed.

Lemma land_in_u w a b : 0 <= w -> in_u w a -> 0 <= b -> in_u w (Z.land a b).
Proof.
  intros Hw Ha Hb. apply in_u_bits; [done| |apply Z.land_nonneg; left; apply Ha].
  intros i Hi. rewrite Z.land_spec. by rewrite (testbit_above w) by done.
Qed.
Lemma land_in_u_r w a b : 0 <= w -> in_u w b -> 0 <= a -> in_u w (Z.land a b).
Proof. intros. rewrite Z.land_comm. by apply land_in_u. Qed.
Lemma lor_in_u w a b : 0 <= w -> in_u w a -> in_u w b -> in_u w (Z.lor a b).
Proof.
  intros Hw Ha Hb. apply in_u_bits; [done| |].
  - intros i Hi. rewrite Z.lor_spec. by rewrite !(testbit_above w) by done.
  - apply Z.lor_nonneg; split; [apply Ha|apply Hb].
Qed.
Lemma lxor_in_u w a b : 0 <= w -> in_u w a -> in_u w b -> in_u w (Z.lxor a b).
Proof.
  intros Hw Ha Hb. apply in_u_bits; [done| |].
  - intros i Hi. rewrite Z.lxor_spec. by rewrite !(testbit_above w) by done.
  - apply Z.lxor_nonneg; split; intros _; [apply Hb|apply Ha].
Qed.
Lemma shiftr_in_u w a n : 0 <= w -> 0 <= n -> in_u w a -> in_u w (Z.shiftr a n).
Proof.
  intros Hw Hn Ha. apply in_u_bits; [done| |].
  - intros i Hi. rewrite Z.shiftr_spec by lia.
    apply (testbit_above w); [done..|lia].
  - apply Z.shiftr_nonneg, Ha.
Qed.
Lemma shiftr_in_u_sub w a n : 0 <= n <= w -> in_u w a -> in_u (w - n) (Z.shiftr a n).
Proof.
  intros Hn Ha. apply in_u_bits; [lia| |].
  - intros i Hi. rewrite Z.shiftr_spec by lia.
    apply (testbit_above w); [lia|done|lia].
  - apply Z.shiftr_nonneg, Ha.
Qed.

Lemma testbit_pow2 n i : 0 <= n -> Z.testbit (2 ^ n) i = (n =? i).
Proof.
  intros Hn. destruct (Z.eqb_spec n i) as [<-|].
  - by apply Z.pow2_bits_true.
  - by apply Z.pow2_bits_false.
Qed.

Lemma testbit_1 i : Z.testbit 1 i = (i =? 0).
Proof. change 1 with (2 ^ 0). rewrite testbit_pow2 by lia. apply Z.eqb_sym. Qed.

Lemma testbit_ones w i : 0 <= w -> 0 <= i -> Z.testbit (2 ^ w - 1) i = (i <? w).
Proof.
  intros Hw Hi. replace (2 ^ w - 1) with (Z.ones w) by (rewrite Z.ones_equiv; lia).
  destruct (Z.ltb_spec i w); [apply Z.ones_spec_low; lia|apply Z.ones_spec_high; lia].
Qed.

Lemma Z_neq_0_bit z : 0 <= z -> z <> 0 -> exists i, 0 <= i /\ Z.testbit z i = true.
Proof. intros. exists (Z.log2 z). split; [apply Z.log2_nonneg|]. apply Z.bit_log2. lia. Qed.

(** Rewriting of bit tests, with the nonnegativity and range side conditions
    left to [lia]. *)
Create Rewrite HintDb zbits.
#[export] Hint Rewrite Z.land_spec Z.lor_spec Z.lxor_spec Z.ldiff_spec
  Z.testbit_0_l : zbits.
#[export] Hint Rewrite Z.shiftr_spec Z.shiftl_spec Z.lnot_spec testbit_wrapU
  testbit_pow2 testbit_1 testbit_ones using lia : zbits.

Ltac bits_simpl := unfold bnot, shl; autorewrite with zbits.

(** Decide the comparisons of bit positions that occur in the goal. *)
Ltac bits_split :=
  repeat match goal with
  | |- context [?a <? ?b] => destruct (Z.ltb_spec a b); try lia
  | |- context [?a =? ?b] => destruct (Z.eqb_spec a b); try lia
  end.

Ltac bits := apply Z.bits_inj'; intros ?i ?Hi; bits_simpl; try btauto;
             bits_split; try btauto.

(** A single bit tested with a mask. *)
Lemma nz_land_pow2 x k : 0 <= k -> nz (Z.land x (2 ^ k)) = Z.testbit x k.
Proof.
  intros Hk. destruct (Z.testbit x k) eqn:E.
  - apply nz_true. intros H. apply (f_equal (fun z => Z.testbit z k)) in H.
    rewrite Z.land_spec, testbit_pow2, E, Z.testbit_0_l, Z.eqb_refl in H by lia. done.
  - apply nz_false. bits_simpl. apply Z.bits_inj'. intros i Hi.
    rewrite Z.land_spec, testbit_pow2, Z.testbit_0_l by lia.
    destruct (Z.eqb_spec k i) as [<-|]; [by rewrite E|btauto].
Qed.

(** Enumerate the values of a bounded integer. *)
Ltac z_cases i n :=
  let rec go k :=
    match k with
    | 0 => exfalso; lia
    | _ => let k' := eval vm_compute in (k - 1) in
           destruct (Z.eq_dec i k') as [->|]; [| go k']
    end in go n.

(** ** A state monad with undefined behaviour

    Code that works on a mutable store is a [ST S A]: [None] is undefined
    behaviour of the source (a null or dangling pointer dereferenced). *)

Definition ST (S A : Type) : Type := S -> option (A * S).

Definition st_ret {S A} (a : A) : ST S A := fun s => Some (a, s).
Definition st_bind {S A B} (m : ST S A) (f : A -> ST S B) : ST S B :=
  fun s => match m s with Some (a, s') => f a s' | None => None end.
Definition st_fail {S A} : ST S A := fun _ => None.
Definition st_get {S} : ST S S := fun s => Some (s, s).
Definition st_put {S} (s : S) : ST S unit := fun _ => Some (tt, s).
Definition st_gets {S A} (f : S -> A) : ST S A := fun s => Some (f s, s).
Definition st_opt {S A} (o : option A) : ST S A :=
  match o with Some a => st_ret a | None => st_fail end.
Definition st_modify {S} (f : S -> S) : ST S unit := fun s => Some (tt, f s).

Declare Scope st_scope.
Delimit Scope st_scope with st.
Notation "'let*' x := m 'in' k" := (st_bind m (fun x => k))
  (at level 10, x pattern, m at level 200, k at level 200) : st_scope.
Notation "m ;;; k" := (st_bind m (fun _ => k))
  (at level 100, right associativity) : st_scope.

Lemma st_bind_Some {S A B} (m : ST S A) (f : A -> ST S B) s a s' :
  m s = Some (a, s') -> st_bind m f s = f a s'.
Proof. unfold st_bind. by intros ->. Qed.

(** ** Lists *)

Lemma list_snoc_inv {A} (l : list A) : l = [] \/ exists l' x, l = l' ++ [x].
Proof. induction l using rev_ind; [by left|right; eauto]. Qed.

Lemma NoDup_snoc {A} (l : list A) x : NoDup (l ++ [x]) <-> NoDup l /\ x ∉ l.
Proof.
  rewrite NoDup_app. split.
  - intros (H1 & H2 & _). split; [done|]. intros Hx. apply (H2 x Hx). set_solver.
  - intros [H1 H2]. split; [done|]. split; [|apply NoDup_singleton].
    intros y Hy Hy'. apply list_elem_of_singleton in Hy'. by subst.
Qed.

Lemma filter_all {A} (P : A -> Prop) `{!forall x, Decision (P x)} l : Forall P l -> filter P l = l.
Proof. induction 1 as [|x l Hx _ IH]; [done|]. rewrite filter_cons_True by done. by rewrite IH. Qed.

Lemma filter_none {A} (P : A -> Prop) `{!forall x, Decision (P x)} l :
  Forall (fun x => ~ P x) l -> filter P l = [].
Proof. induction 1 as [|x l Hx _ IH]; [done|]. by rewrite filter_cons_False. Qed.

Lemma StronglySorted_filter {A} (R : A -> A -> Prop) (P : A -> Prop) `{!forall x, Decision (P x)} l :
  StronglySorted R l -> StronglySorted R (filter P l).
Proof.
  induction 1 as [|x l Hl IH Hx]; [constructor|]. rewrite filter_cons. case_decide; [|done].
  constructor; [done|]. apply Forall_forall. intros y [_ Hy]%list_elem_of_filter.
  by eapply Forall_forall in Hx.
Qed.

Lemma StronglySorted_seqZ m n : StronglySorted Z.lt (seqZ m n).
Proof.
  revert m. induction n as [|n ? IH|n] using (Z.succ_pred_induction 0); intros m.
  - rewrite seqZ_nil by lia. constructor.
  - rewrite seqZ_cons by lia. replace (Z.pred (Z.succ n)) with n by lia.
    constructor; [done|]. apply Forall_forall. intros y Hy%elem_of_seqZ. lia.
  - rewrite seqZ_nil by lia. constructor.
Qed.

(** ** Digits

    A word read as a little-endian list of k-bit digits: the setting in which
    masked parallel sums are computed digit by digit. *)

Fixpoint from_digits (k : Z) (ds : list Z) : Z :=
  match ds with
  | [] => 0
  | d :: ds => Z.lor d (Z.shiftl (from_digits k ds) k)
  end.

Fixpoint to_digits (k : Z) (n : nat) (v : Z) : list Z :=
  match n with
  | O => []
  | S n => wrapU k v :: to_digits k n (Z.shiftr v k)
  end.

Lemma length_to_digits k n v : length (to_digits k n v) = n.
Proof. revert v. induction n as [|n IH]; intros v; simpl; [done|]. by rewrite IH. Qed.

Lemma to_digits_range k n v : 0 <= k -> Forall (in_u k) (to_digits k n v).
Proof.
  intros Hk. revert v. induction n; intros v; simpl; constructor; [|done].
  by apply wrapU_range.
Qed.

Lemma from_to_digits k n v :
  0 <= k -> from_digits k (to_digits k n v) = wrapU (k * Z.of_nat n) v.
Proof.
  intros Hk. revert v. induction n as [|n IH]; intros v; cbn [from_digits to_digits].
  - replace (k * Z.of_nat 0) with 0 by lia. unfold wrapU. by rewrite Z.mod_1_r.
  - rewrite IH. apply Z.bits_inj'. intros i Hi. autorewrite with zbits.
    destruct (Z.ltb_spec i k).
    + rewrite (Z.testbit_neg_r _ (i - k)) by lia.
      destruct (Z.ltb_spec i (k * Z.of_nat (S n))); [btauto|nia].
    + rewrite testbit_wrapU by nia. rewrite Z.shiftr_spec by lia.
      replace (i - k + k) with i by lia.
      destruct (Z.ltb_spec (i - k) (k * Z.of_nat n)), (Z.ltb_spec i (k * Z.of_nat (S n)));
        simpl; done || nia.
Qed.

Lemma testbit_from_digits_cons k d ds i :
  0 <= k -> in_u k d -> 0 <= i ->
  Z.testbit (from_digits k (d :: ds)) i =
  if i <? k then Z.testbit d i else Z.testbit (from_digits k ds) (i - k).
Proof.
  intros Hk Hd Hi. cbn [from_digits]. autorewrite with zbits.
  destruct (Z.ltb_spec i k).
  - rewrite (Z.testbit_neg_r _ (i - k)) by lia. btauto.
  - by rewrite (testbit_above k d) by done.
Qed.

Lemma from_digits_nonneg k ds : Forall (in_u k) ds -> 0 <= from_digits k ds.
Proof.
  induction 1 as [|d ds Hd _ IH]; simpl; [done|].
  apply Z.lor_nonneg. split; [apply Hd|]. by apply Z.shiftl_nonneg.
Qed.

Lemma from_digits_cons k d ds :
  0 <= k -> in_u k d -> from_digits k (d :: ds) = d + 2 ^ k * from_digits k ds.
Proof.
  intros Hk Hd. cbn [from_digits].
  assert (Z.land d (Z.shiftl (from_digits k ds) k) = 0) as Hl.
  { apply Z.bits_inj'. intros i Hi. autorewrite with zbits. destruct (Z.ltb_spec i k).
    - rewrite (Z.testbit_neg_r _ (i - k)) by lia. btauto.
    - by rewrite (testbit_above k d) by done. }
  rewrite <- Z.lxor_lor by done. rewrite <- Z.add_nocarry_lxor by done.
  rewrite Z.shiftl_mul_pow2 by done. lia.
Qed.

(** Masking acts on each digit. *)
Lemma land_from_digits k ds ms :
  0 <= k -> Forall (in_u k) ds -> Forall (in_u k) ms -> length ds = length ms ->
  Z.land (from_digits k ds) (from_digits k ms) = from_digits k (zip_with Z.land ds ms).
Proof.
  intros Hk Hds. revert ms. induction Hds as [|d ds Hd Hds IH]; intros ms Hms Hl.
  { destruct ms; done. }
  destruct Hms as [|m ms Hm Hms]; [done|]. simpl in Hl. cbn [zip_with].
  apply Z.bits_inj'. intros i Hi. rewrite Z.land_spec.
  rewrite !testbit_from_digits_cons; try done; [|apply land_in_u; [done..|apply Hm]].
  destruct (Z.ltb_spec i k); [by rewrite Z.land_spec|].
  rewrite <- Z.land_spec. by rewrite IH by (done || lia).
Qed.

(** A right shift by less than the digit leaks into the digit below only bits
    that a low mask removes. *)
Lemma shiftr_land_from_digits k s ds ms :
  0 <= s <= k -> Forall (in_u k) ds -> Forall (in_u (k - s)) ms -> length ds = length ms ->
  Z.land (Z.shiftr (from_digits k ds) s) (from_digits k ms) =
  from_digits k (zip_with (fun d m => Z.land (Z.shiftr d s) m) ds ms).
Proof.
  intros Hs Hds. revert ms. induction Hds as [|d ds Hd Hds IH]; intros ms Hms Hl.
  { destruct ms; [|done]. by rewrite Z.land_0_r. }
  destruct Hms as [|m ms Hm Hms]; [done|]. simpl in Hl. cbn [zip_with].
  assert (in_u k m) as Hm' by (apply (in_u_mono (k - s)); [lia|done]).
  apply Z.bits_inj'. intros i Hi. rewrite Z.land_spec.
  rewrite Z.shiftr_spec by lia.
  rewrite (testbit_from_digits_cons k m), (testbit_from_digits_cons k d) by (done || lia).
  rewrite testbit_from_digits_cons; [| lia | | lia].
  2: { apply land_in_u_r; [lia|done|]. apply Z.shiftr_nonneg, Hd. }
  destruct (Z.ltb_spec i k).
  - rewrite Z.land_spec, Z.shiftr_spec by lia. destruct (Z.ltb_spec (i + s) k); [done|].
    rewrite (testbit_above (k - s) m) by (done || lia). btauto.
  - destruct (Z.ltb_spec (i + s) k); [lia|].
    rewrite <- IH by (done || lia). rewrite Z.land_spec, Z.shiftr_spec by lia.
    by replace (i - k + s) with (i + s - k) by lia.
Qed.

(** ** Exhaustive checks over small ranges *)

Fixpoint all_below (n : nat) (P : Z -> bool) : bool :=
  match n with
  | O => true
  | S n => P (Z.of_nat n) && all_below n P
  end.

Lemma all_below_spec n P v :
  all_below n P = true -> 0 <= v < Z.of_nat n -> P v = true.
Proof.
  induction n as [|n IH]; intros Hall Hv; [lia|].
  cbn [all_below] in Hall. apply andb_true_iff in Hall as [H1 H2].
  destruct (Z.eq_dec v (Z.of_nat n)) as [->|]; [done|]. apply IH; [done|lia].
Qed.
