(* ===== verification/Php.v ===== *)
(** The PHP values and library functions that the pages of [www/] use.

    [$_POST] values are strings; decoded JSON is a [jval].  PHP's conversions
    between strings and integers are written out for strings in integer form;
    the conversions that go through [strtod] (fractions, exponents, overflow)
    are the parameter [Strtod]. *)

From stdpp Require Export pretty.
From S2P Require Import Prelude.

#[global] Open Scope Z_scope.

(** ** Characters and strings *)

Definition ascii_is (c : Ascii.ascii) (n : nat) : bool := Nat.eqb (Ascii.nat_of_ascii c) n.

(** The characters [trim] strips: space, tab, newline, return, NUL, vertical tab. *)
Definition trim_char (c : Ascii.ascii) : bool :=
  existsb (ascii_is c) [32; 9; 10; 13; 0; 11]%nat.

Fixpoint ltrim (s : string) : string :=
  match s with
  | EmptyString => EmptyString
  | String c s' => if trim_char c then ltrim s' else s
  end.

(** Strips the right end: a character goes when it is strippable and nothing
    but strippable characters follow. *)
Fixpoint rtrim (s : string) : string :=
  match s with
  | EmptyString => EmptyString
  | String c s' =>
      match rtrim s' with
      | EmptyString => if trim_char c then EmptyString else String c EmptyString
      | r => String c r
      end
  end.

Definition trim (s : string) : string := rtrim (ltrim s).

(** [empty($x)] of a string or of an unset variable: the empty string and
    ["0"] count as empty. *)
Definition php_empty (o : option string) : bool :=
  match o with
  | None => true
  | Some s => bool_decide (s = "") || bool_decide (s = "0")
  end.

(** [implode] *)
Fixpoint implode (sep : string) (l : list string) : string :=
  match l with
  | [] => ""
  | [s] => s
  | s :: l => s +:+ sep +:+ implode sep l
  end.

Definition digit_val (c : Ascii.ascii) : option Z :=
  let n := Z.of_nat (Ascii.nat_of_ascii c) in
  if bool_decide (48 <= n <= 57) then Some (n - 48) else None.

(** Whitespace that may precede a number: space, tab, newline, return,
    vertical tab, form feed. *)
Definition num_space (c : Ascii.ascii) : bool := existsb (ascii_is c) [32; 9; 10; 13; 11; 12]%nat.

Fixpoint skip_space (s : string) : string :=
  match s with
  | String c s' => if num_space c then skip_space s' else s
  | EmptyString => s
  end.

(** The digits at the front: how many, their value, and what follows. *)
Fixpoint take_digits (s : string) (acc : Z) (n : nat) : nat * Z * string :=
  match s with
  | String c s' => match digit_val c with
                   | Some d => take_digits s' (10 * acc + d) (S n)
                   | None => (n, acc, s)
                   end
  | EmptyString => (n, acc, s)
  end.

Definition take_sign (s : string) : bool * string :=
  match s with
  | String c s' => if ascii_is c 45 then (true, s') else if ascii_is c 43 then (false, s') else (false, s)
  | EmptyString => (false, s)
  end.

(** The integer at the front of a string, and what follows it; [None] when
    there is no digit. *)
Definition int_prefix (s : string) : option (Z * string) :=
  let '(neg, s1) := take_sign (skip_space s) in
  let '(n, v, rest) := take_digits s1 0 0 in
  if Nat.eqb n 0 then None else Some (if neg then - v else v, rest).

(** A string that is an integer from its start to its end and fits 64 bits. *)
Definition int_form (s : string) : option Z :=
  match int_prefix s with
  | Some (v, EmptyString) => if bool_decide (in_s 64 v) then Some v else None
  | _ => None
  end.

(** Whether the number at the front of [s] continues as a floating-point one:
    a dot or an exponent letter follows, or there are no digits before a dot. *)
Definition float_follows (rest : string) : bool :=
  match rest with
  | String c _ => existsb (ascii_is c) [46; 101; 69]%nat
  | EmptyString => false
  end.
Definition starts_with_dot (s : string) : bool :=
  match snd (take_sign (skip_space s)) with
  | String c _ => ascii_is c 46
  | EmptyString => false
  end.

(** ** Conversions through [strtod] *)

Class Strtod := {
  (** the integer a string with a floating-point or overlong number converts to *)
  float_long : string -> Z;
  (** comparison of two strings at least one of which is not in integer form:
      [None] when one of them is not numeric *)
  float_cmp : string -> string -> option bool;
  (** comparison of an integer with such a string *)
  float_eq : Z -> string -> bool;
}.

(** Decoded JSON, without floating-point numbers and objects. *)
Inductive jval := JNull | JBool (b : bool) | JInt (n : Z) | JStr (s : string) | JArr (l : list jval).

(** [json_decode($s, true)]; [None] stands for a value that contains a
    floating-point number or an object. *)
Class Json := { json_decode : string -> option jval }.

Section conversions.
Context `{Strtod}.

(** Conversion of a string to an integer, as for a bound ["i"] parameter. *)
Definition str_long (s : string) : Z :=
  match int_prefix s with
  | Some (v, rest) =>
      if float_follows rest || negb (bool_decide (in_s 64 v)) then float_long s else v
  | None => if starts_with_dot s then float_long s else 0
  end.

Definition to_long (v : jval) : Z :=
  match v with
  | JNull => 0
  | JBool b => Z.b2z b
  | JInt n => n
  | JStr s => str_long s
  | JArr [] => 0
  | JArr _ => 1
  end.

(** [$a == $b] for two strings: numbers when both are numeric. *)
Definition loose_eq_str (a b : string) : bool :=
  match int_form a, int_form b with
  | Some x, Some y => x =? y
  | _, _ => match float_cmp a b with
            | Some r => r
            | None => bool_decide (a = b)
            end
  end.

(** [$v == $s] for a decoded value and a string. *)
Definition loose_eq (v : jval) (s : string) : bool :=
  match v with
  | JNull => bool_decide (s = "")
  | JBool b => eqb b (negb (php_empty (Some s)))
  | JInt n =>
      match int_prefix s with
      | Some (x, rest) =>
          if float_follows rest || negb (bool_decide (in_s 64 x)) then float_eq n s else n =? x
      | None => if starts_with_dot s then float_eq n s else n =? 0
      end
  | JStr t => loose_eq_str t s
  | JArr _ => false
  end.

(** [array_search($needle, $haystack)]: the first position. *)
Fixpoint array_search (needle : string) (l : list jval) : option nat :=
  match l with
  | [] => None
  | v :: l => if loose_eq v needle then Some 0%nat else S <$> array_search needle l
  end.

End conversions.

(** Truth of a decoded value used as a condition. *)
Definition truthy (v : jval) : bool :=
  match v with
  | JNull => false
  | JBool b => b
  | JInt n => nz n
  | JStr s => negb (php_empty (Some s))
  | JArr l => negb (bool_decide (length l = 0%nat))
  end.

(** Conversion to a string; an array gives ["Array"]. *)
Definition to_str (v : jval) : string :=
  match v with
  | JNull => ""
  | JBool b => if b then "1" else ""
  | JInt n => pretty n
  | JStr s => s
  | JArr _ => "Array"
  end.

(** ** A small decoder

    The texts [JSON.stringify] makes of a list of ids: a list of quoted strings
    without escapes.  It instantiates [Json] in the examples. *)

Fixpoint until_char (n : nat) (s : string) : string * string :=
  match s with
  | EmptyString => (EmptyString, EmptyString)
  | String c s' => if ascii_is c n then (EmptyString, s')
                   else let '(a, b) := until_char n s' in (String c a, b)
  end.

Fixpoint decode_items (fuel : nat) (s : string) : option (list jval) :=
  match fuel, s with
  | S fuel, String c s =>
      if ascii_is c 34 then
        let '(item, s) := until_char 34 s in
        match s with
        | String c s =>
            if ascii_is c 93 then Some [JStr item]
            else if ascii_is c 44 then l ← decode_items fuel s; Some (JStr item :: l)
            else None
        | EmptyString => None
        end
      else None
  | _, _ => None
  end.

Definition decode_list (s : string) : option jval :=
  match s with
  | String c s' => if ascii_is c 91 then JArr <$> decode_items (String.length s) s' else Some JNull
  | EmptyString => Some JNull
  end.

(** The text of a list of strings. *)
Definition encode_list (l : list string) : string :=
  let q := String (Ascii.ascii_of_nat 34) "" in
  "[" +:+ implode "," ((fun s => q +:+ s +:+ q) <$> l) +:+ "]".

(** ** Canonical decimal strings *)

Definition canonical (s : string) (n : Z) : Prop := int_form s = Some n.

Lemma int_form_prefix s n : int_form s = Some n -> int_prefix s = Some (n, "") /\ in_s 64 n.
Proof.
  unfold int_form. destruct (int_prefix s) as [[v [|c r]]|]; try done.
  case_bool_decide; [|done]. by intros [= ->].
Qed.

Section canonical.
Context `{Strtod}.

Lemma str_long_int s n : int_form s = Some n -> str_long s = n.
Proof.
  intros [Hp Hs]%int_form_prefix. unfold str_long. rewrite Hp. simpl.
  by rewrite bool_decide_true.
Qed.

Lemma loose_eq_str_int a b x y :
  int_form a = Some x -> int_form b = Some y -> loose_eq_str a b = (x =? y).
Proof. intros Ha Hb. unfold loose_eq_str. by rewrite Ha, Hb. Qed.

Lemma loose_eq_int n s y : int_form s = Some y -> loose_eq (JInt n) s = (n =? y).
Proof.
  intros [Hp Hs]%int_form_prefix. cbn [loose_eq]. rewrite Hp. simpl. by rewrite bool_decide_true.
Qed.

End canonical.
