(* ===== verification/InvDb.v ===== *)
(** The inventory database as the pages see it: the schema of
    [www/inventory_db.sql], the texts of the statements the pages send, the
    interface [Database] of the MariaDB connection with the documented effect of
    each of those statements as laws, and an in-memory implementation of the
    interface, [Mem], which satisfies the laws.

    The database server is not part of the sources: the pages' theorems are
    proved against the interface. *)

From stdpp Require Import sorting.
From S2P Require Import Prelude Php.

(** ** Schema *)

Definition asset_columns : list string :=
  ["id"; "asset_tag"; "tag_number"; "brand_model"; "serial_number"; "type_os_type"; "processor";
   "type_of_hard_disk"; "size_of_disk"; "memory"; "office_version"; "ip_address"; "section";
   "type_of_user"; "user"; "email_address"; "email_password"; "date_purchased"; "ups";
   "recovery_type"; "unit_type"; "timestamp"].

Inductive sqlval := VNull | VStr (s : string) | VInt (n : Z).

#[export] Instance sqlval_eq_dec : EqDecision sqlval.
Proof. solve_decision. Defined.

(** A row of [history_log]. *)
Record log := Log { log_id : Z; log_username : string; log_action : string; log_time : Z }.

#[export] Instance log_eq_dec : EqDecision log.
Proof. solve_decision. Defined.

(** A row of [users]. *)
Record user := User { user_id : Z; user_name : string; user_password : string }.

(** What a statement gives: an error text, the rows of a [SELECT], or the
    insert id of a statement that writes. *)
Inductive outcome := Failed (error : string) | Rows (rs : list (list sqlval)) | Written (insert_id : Z).

(** ** The statements of the pages *)

Definition select_user_sql : string := "SELECT * FROM users WHERE username = ?".

Definition index_sql (username password : string) : string :=
  "SELECT * FROM users WHERE username='" +:+ username +:+ "' AND password='" +:+ password +:+ "'".

Definition insert_asset_sql : string :=
"INSERT INTO assets (
      asset_tag, tag_number, brand_model, serial_number,
      type_os_type, processor, type_of_hard_disk, size_of_disk, memory,
      office_version, ip_address, section, type_of_user, user,
      email_address, email_password, date_purchased, ups,
      recovery_type, unit_type
    ) VALUES (?, ?, ?, ?, ?, ?, ?, ?, ?, ?, ?, ?, ?, ?, ?, ?, ?, ?, ?, ?)".

Definition update_asset_sql : string :=
  "UPDATE assets SET asset_tag=?, tag_number=?, brand_model=?, serial_number=?, type_os_type=?, processor=?, type_of_hard_disk=?, size_of_disk=?, memory=?, office_version=?, ip_address=?, section=?, type_of_user=?, user=?, email_address=?, email_password=?, date_purchased=?, ups=?, recovery_type=?, unit_type=?, timestamp=CURRENT_TIMESTAMP WHERE id=?".

Definition select_asset_sql : string := "SELECT * FROM assets WHERE id = ?".
Definition list_assets_sql : string := "SELECT * FROM assets ORDER BY id ASC".

Definition distinct_sql (column : string) : string :=
  "SELECT DISTINCT `" +:+ column +:+ "` FROM assets ORDER BY `" +:+ column +:+ "` ASC".
Definition dashboard_sql : string := "SELECT * FROM history_log ORDER BY timestamp DESC LIMIT 5".

Definition add_asset_columns : list string :=
  ["asset_tag"; "tag_number"; "brand_model"; "serial_number"; "processor"; "hdd_ssd_size";
   "recovery_tape"; "office_version"; "memory"; "ip_address"; "user"; "email_address"].

Definition newline : string := String (Ascii.ascii_of_nat 10) "".

(** The statement of [add_asset.php], its values in the order of the columns. *)
Definition add_asset_sql (v : string -> string) : string :=
  let q c := "'" +:+ v c +:+ "'" in
"INSERT INTO assets (
      asset_tag, tag_number, brand_model, serial_number, processor,
      hdd_ssd_size, recovery_tape, office_version, memory,
      ip_address, user, email_address
    ) VALUES (
      " +:+ implode ", " (q <$> take 5 add_asset_columns) +:+ "," +:+ newline +:+
  "      " +:+ implode ", " (q <$> take 4 (drop 5 add_asset_columns)) +:+ "," +:+ newline +:+
  "      " +:+ implode ", " (q <$> drop 9 add_asset_columns) +:+ newline +:+ "    )".

Definition delete_assets_sql (n : nat) : string :=
  "DELETE FROM assets WHERE id IN (" +:+ implode "," (replicate n "?") +:+ ")".

Definition insert_log_sql (username action : string) : string :=
  "INSERT INTO history_log (username, action) VALUES ('" +:+ username +:+ "', '" +:+ action +:+ "')".

Definition new_entry_trim_sql : string :=
  "DELETE FROM history_log WHERE id NOT IN (SELECT id FROM (SELECT id FROM history_log ORDER BY timestamp DESC LIMIT 15) AS temp)".
Definition delete_trim_sql : string :=
  "DELETE FROM history_log WHERE id NOT IN (SELECT id FROM (SELECT id FROM history_log ORDER BY timestamp DESC LIMIT 15) AS t)".
Definition edit_trim_sql : string :=
"
    DELETE FROM history_log 
    WHERE id NOT IN (
      SELECT id FROM (
        SELECT id FROM history_log ORDER BY timestamp DESC LIMIT 15
      ) AS keep_ids
    )
  ".
Definition trim_sqls : list string := [new_entry_trim_sql; edit_trim_sql; delete_trim_sql].

(** ** The connection *)

(** [connect]: whether [new mysqli(...)] succeeds; [prepare]: whether the server accepts the text; [execute]: a prepared
    statement with its bound values; [query]: a statement text. *)
Class Database (D : Type) := {
  connect : D -> bool;
  prepare : string -> D -> bool;
  execute : string -> list sqlval -> D -> outcome * D;
  query : string -> D -> outcome * D;
  assets : D -> gmap Z (list sqlval);
  history : D -> list log;
  users : D -> gmap string user;
  (** the sort key of the column collation, by which names compare *)
  coll_key : string -> string;
  (** the conversion of the twenty inserted values to the column types;
      [None]: rejected *)
  store : list sqlval -> option (list sqlval);
}.

(** Text that can stand between single quotes in a statement as it is. *)
Fixpoint plain (s : string) : bool :=
  match s with
  | EmptyString => true
  | String c s => negb (ascii_is c 39) && negb (ascii_is c 92) && plain s
  end.

(** The three tables are as before. *)
Definition same_tables `{Database D} (d d' : D) : Prop :=
  assets d' = assets d /\ history d' = history d /\ users d' = users d.

Definition newer (a b : log) : Prop := log_time b <= log_time a.
#[export] Instance newer_dec a b : Decision (newer a b).
Proof. unfold newer. apply _. Defined.

(** The log after a trim: the rows of the first fifteen of some listing by
    descending timestamp; rows with equal timestamps may be listed either way. *)
Definition trimmed (h h' : list log) : Prop :=
  exists order, order ≡ₚ h /\ StronglySorted newer order /\
    h' = filter (fun l => log_id l ∈ log_id <$> take 15 order) h.

Definition user_row (u : user) : list sqlval :=
  [VInt (user_id u); VStr (user_name u); VStr (user_password u)].

Definition log_row (l : log) : list sqlval :=
  [VInt (log_id l); VStr (log_username l); VStr (log_action l); VInt (log_time l)].

(** The effect of each statement on the tables: it fails and changes nothing,
    or it has its documented effect. *)
Class DatabaseLaws (D : Type) `{Database D} := {
  insert_asset_law d vs : length vs = 20%nat ->
    match execute insert_asset_sql vs d with
    | (Written n, d') => exists cells ts, store vs = Some cells /\ 0 < n /\ assets d !! n = None /\
        assets d' = <[n := cells ++ [ts]]> (assets d) /\ history d' = history d /\ users d' = users d
    | (Failed _, d') => same_tables d d'
    | _ => False
    end;
  update_asset_law d vs k : length vs = 20%nat -> k = VNull \/ (exists n, k = VInt n) ->
    match execute update_asset_sql (vs ++ [k]) d with
    | (Written _, d') => exists cells ts, store vs = Some cells /\
        assets d' = match k with
                    | VInt n => alter (fun _ => cells ++ [ts]) n (assets d)
                    | _ => assets d
                    end /\ history d' = history d /\ users d' = users d
    | (Failed _, d') => same_tables d d'
    | _ => False
    end;
  delete_assets_law d (ns : list Z) : ns <> [] ->
    match execute (delete_assets_sql (length ns)) (VInt <$> ns) d with
    | (Written _, d') => assets d' = filter (fun kv => kv.1 ∉ ns) (assets d) /\
        history d' = history d /\ users d' = users d
    | (Failed _, d') => same_tables d d'
    | _ => False
    end;
  select_asset_law d n :
    match execute select_asset_sql [VInt n] d with
    | (Rows rs, d') => same_tables d d' /\
        rs = match assets d !! n with Some c => [VInt n :: c] | None => [] end
    | (Failed _, d') => same_tables d d'
    | _ => False
    end;
  list_assets_law d :
    match query list_assets_sql d with
    | (Rows rs, d') => same_tables d d' /\ exists kvs, kvs ≡ₚ map_to_list (assets d) /\
        StronglySorted (fun a b => a.1 <= b.1) kvs /\ rs = (fun kv => VInt kv.1 :: kv.2) <$> kvs
    | (Failed _, d') => same_tables d d'
    | _ => False
    end;
  insert_log_law d u a : plain u = true -> plain a = true ->
    match query (insert_log_sql u a) d with
    | (Written _, d') => exists i t, (forall l, l ∈ history d -> log_id l < i) /\
        history d' = history d ++ [Log i u a t] /\ assets d' = assets d /\ users d' = users d
    | (Failed _, d') => same_tables d d'
    | _ => False
    end;
  trim_law d sql : sql ∈ trim_sqls ->
    match query sql d with
    | (Written _, d') => trimmed (history d) (history d') /\ assets d' = assets d /\ users d' = users d
    | (Failed _, d') => same_tables d d'
    | _ => False
    end;
  distinct_law d c : c ∈ asset_columns -> same_tables d (query (distinct_sql c) d).2;
  dashboard_law d :
    match query dashboard_sql d with
    | (Rows rs, d') => same_tables d d' /\ exists order, order ≡ₚ history d /\
        StronglySorted newer order /\ rs = log_row <$> take 5 order
    | (Failed _, d') => same_tables d d'
    | _ => False
    end;
  add_asset_law d v : (forall c, plain (v c) = true) -> (exists c, c ∈ add_asset_columns /\ c ∉ asset_columns) ->
    exists e d', query (add_asset_sql v) d = (Failed e, d') /\ same_tables d d';
  select_user_law d u :
    match execute select_user_sql [VStr u] d with
    | (Rows rs, d') => same_tables d d' /\
        rs = match users d !! coll_key u with Some x => [user_row x] | None => [] end
    | (Failed _, d') => same_tables d d'
    | _ => False
    end;
  index_law d u p : plain u = true -> plain p = true ->
    match query (index_sql u p) d with
    | (Rows rs, d') => same_tables d d' /\
        rs = match users d !! coll_key u with
             | Some x => if decide (coll_key (user_password x) = coll_key p) then [user_row x] else []
             | None => []
             end
    | (Failed _, d') => same_tables d d'
    | _ => False
    end;
}.

(** ** An in-memory database *)

Module Mem.

Record mem := Mk {
  m_assets : gmap Z (list sqlval);
  m_next : Z;
  m_history : list log;
  m_users : list user;
  m_clock : Z;
}.

Abbreviation quote := (Ascii.Ascii true true true false false true false false).

(** The literal [p] at the front of [s]. *)
Fixpoint strip_prefix (p s : string) : option string :=
  match p, s with
  | EmptyString, _ => Some s
  | String a p, String b s => if decide (a = b) then strip_prefix p s else None
  | _, _ => None
  end.

(** A quoted text without escapes, up to its closing quote. *)
Fixpoint until_quote (s : string) : string * string :=
  match s with
  | EmptyString => (EmptyString, EmptyString)
  | String c s' => if ascii_is c 39 then (EmptyString, s)
                   else let '(a, b) := until_quote s' in (String c a, b)
  end.

(** [<p1>'<a>'<p2>'<b>'<p3>] with the quotes in the literals. *)
Definition parse2 (p1 p2 p3 s : string) : option (string * string) :=
  s ← strip_prefix p1 s;
  let '(a, s) := until_quote s in
  s ← strip_prefix p2 s;
  let '(b, s) := until_quote s in
  if decide (s = p3) then Some (a, b) else None.

Definition parse_log : string -> option (string * string) :=
  parse2 "INSERT INTO history_log (username, action) VALUES ('" "', '" "')".
Definition parse_index : string -> option (string * string) :=
  parse2 "SELECT * FROM users WHERE username='" "' AND password='" "'".

Definition max_of (l : list Z) : Z := foldr Z.max 0 l.

Definition user_map (us : list user) : gmap string user :=
  list_to_map ((fun u => (user_name u, u)) <$> us).

Definition by_id (a b : Z * list sqlval) : Prop := a.1 <= b.1.
#[export] Instance by_id_dec a b : Decision (by_id a b).
Proof. unfold by_id. apply _. Defined.

Definition to_int (v : sqlval) : option Z := match v with VInt n => Some n | _ => None end.

Definition set_assets (d : mem) (a : gmap Z (list sqlval)) (next : Z) : mem :=
  Mk a next (m_history d) (m_users d) (m_clock d).
Definition set_history (d : mem) (h : list log) : mem :=
  Mk (m_assets d) (m_next d) h (m_users d) (m_clock d + 1).

Definition mem_execute (sql : string) (vs : list sqlval) (d : mem) : outcome * mem :=
  if decide (sql = insert_asset_sql) then
    let n := Z.max (m_next d) (1 + max_of (map_to_list (m_assets d)).*1) in
    if decide (0 < n) then
      (Written n, set_assets d (<[n := vs ++ [VInt (m_clock d)]]> (m_assets d)) (n + 1))
    else (Failed "", d)
  else if decide (sql = update_asset_sql) then
    match last vs ≫= to_int with
    | Some n => (Written 0, set_assets d (alter (fun _ => take 20 vs ++ [VInt (m_clock d)]) n (m_assets d)) (m_next d))
    | None => (Written 0, d)
    end
  else if decide (sql = select_asset_sql) then
    match vs with
    | [VInt n] => (Rows match m_assets d !! n with Some c => [VInt n :: c] | None => [] end, d)
    | _ => (Rows [], d)
    end
  else if decide (sql = select_user_sql) then
    match vs with
    | [VStr u] => (Rows match user_map (m_users d) !! u with Some x => [user_row x] | None => [] end, d)
    | _ => (Rows [], d)
    end
  else if decide (sql = delete_assets_sql (length vs)) then
    (Written 0, set_assets d (filter (fun kv => kv.1 ∉ omap to_int vs) (m_assets d)) (m_next d))
  else (Failed "unknown statement", d).

Definition mem_query (sql : string) (d : mem) : outcome * mem :=
  if decide (sql ∈ trim_sqls) then
    (Written 0, set_history d
       (filter (fun l => log_id l ∈ log_id <$> take 15 (merge_sort newer (m_history d))) (m_history d)))
  else if decide (sql = list_assets_sql) then
    (Rows ((fun kv => VInt kv.1 :: kv.2) <$> merge_sort by_id (map_to_list (m_assets d))), d)
  else if decide (sql = dashboard_sql) then
    (Rows (log_row <$> take 5 (merge_sort newer (m_history d))), d)
  else match parse_log sql with
  | Some (u, a) =>
      let i := 1 + max_of (log_id <$> m_history d) in
      (Written i, set_history d (m_history d ++ [Log i u a (m_clock d)]))
  | None =>
      match parse_index sql with
      | Some (u, p) =>
          (Rows match user_map (m_users d) !! u with
                | Some x => if decide (user_password x = p) then [user_row x] else []
                | None => []
                end, d)
      | None => (Failed "unknown statement", d)
      end
  end.

#[export] Instance mem_database : Database mem := {
  connect _ := true;
  prepare _ _ := true;
  execute := mem_execute;
  query := mem_query;
  assets := m_assets;
  history := m_history;
  users d := user_map (m_users d);
  coll_key s := s;
  store vs := Some vs;
}.

Lemma strip_prefix_app p s : strip_prefix p (p +:+ s) = Some s.
Proof. induction p as [|a p IH]; [done|]. simpl. by rewrite decide_True. Qed.

Lemma until_quote_plain u r : plain u = true -> until_quote (u +:+ String quote r) = (u, String quote r).
Proof.
  induction u as [|c u IH]; simpl; [done|]. rewrite !andb_true_iff, !negb_true_iff.
  intros [[Hc _] Hu]. by rewrite Hc, (IH Hu).
Qed.

Lemma parse2_ok p1 p2 p3 u a :
  plain u = true -> plain a = true ->
  parse2 p1 (String quote p2) (String quote p3) (p1 +:+ u +:+ String quote p2 +:+ a +:+ String quote p3) = Some (u, a).
Proof.
  intros Hu Ha. unfold parse2. rewrite strip_prefix_app. cbn [mbind option_bind].
  change (String quote p2 +:+ a +:+ String quote p3) with (String quote (p2 +:+ a +:+ String quote p3)).
  rewrite until_quote_plain by done.
  change (String quote (p2 +:+ a +:+ String quote p3)) with (String quote p2 +:+ (a +:+ String quote p3)).
  rewrite strip_prefix_app. cbn [mbind option_bind]. rewrite until_quote_plain by done.
  by rewrite decide_True.
Qed.

Lemma parse_log_ok u a : plain u = true -> plain a = true -> parse_log (insert_log_sql u a) = Some (u, a).
Proof. apply parse2_ok. Qed.
Lemma parse_index_ok u p : plain u = true -> plain p = true -> parse_index (index_sql u p) = Some (u, p).
Proof. apply parse2_ok. Qed.
Lemma parse_log_index u p : parse_log (index_sql u p) = None.
Proof. reflexivity. Qed.

(** The texts are told apart by their first letters. *)
Ltac sql_neq := let H := fresh in intros H; discriminate H.

Lemma insert_log_not_trim u a : insert_log_sql u a ∉ trim_sqls.
Proof.
  intros H. unfold trim_sqls in H. rewrite !elem_of_cons, elem_of_nil in H.
  destruct H as [H|[H|[H|H]]]; [discriminate H..|done].
Qed.
Lemma index_not_trim u p : index_sql u p ∉ trim_sqls.
Proof.
  intros H. unfold trim_sqls in H. rewrite !elem_of_cons, elem_of_nil in H.
  destruct H as [H|[H|[H|H]]]; [discriminate H..|done].
Qed.

Lemma max_of_spec l n : n ∈ l -> n <= max_of l.
Proof.
  induction l as [|m l IH]; [by intros ?%elem_of_nil|]. simpl.
  intros [->|Hn]%elem_of_cons; [lia|]. specialize (IH Hn). lia.
Qed.

#[export] Instance newer_total : Total newer.
Proof. intros a b. unfold newer. lia. Qed.
#[export] Instance newer_trans : Transitive newer.
Proof. intros a b c. unfold newer. lia. Qed.
#[export] Instance by_id_total : Total by_id.
Proof. intros a b. unfold by_id. lia. Qed.
#[export] Instance by_id_trans : Transitive by_id.
Proof. intros a b c. unfold by_id. lia. Qed.

#[export] Instance mem_laws : DatabaseLaws mem.
Proof.
  split.
  - intros d vs Hl. cbn [execute mem_database]. unfold mem_execute.
    rewrite decide_True by done. case_decide as Hn; [|done].
    exists vs, (VInt (m_clock d)). split; [done|]. split; [done|]. split; [|done].
    apply eq_None_not_Some. intros [c Hc]. apply elem_of_map_to_list in Hc.
    assert (Z.max (m_next d) (1 + max_of (map_to_list (m_assets d)).*1) ∈ (map_to_list (m_assets d)).*1) as Hin.
    { apply list_elem_of_fmap. by eexists (_, _). }
    apply max_of_spec in Hin. lia.
  - intros d vs k Hl Hk. cbn [execute mem_database]. unfold mem_execute.
    rewrite decide_False by sql_neq. rewrite decide_True by done.
    rewrite last_snoc. destruct Hk as [->|[n ->]]; simpl.
    + exists vs, VNull. done.
    + exists vs, (VInt (m_clock d)). rewrite take_app_le by lia. by rewrite take_ge by lia.
  - intros d ns Hns. cbn [execute mem_database]. unfold mem_execute.
    do 4 (rewrite decide_False by sql_neq). rewrite length_fmap, decide_True by done. simpl.
    assert (omap to_int (VInt <$> ns) = ns) as ->; [|done].
    clear Hns. induction ns as [|n ns IH]; [done|]. simpl. by f_equal.
  - intros d n. cbn [execute mem_database]. unfold mem_execute.
    do 2 (rewrite decide_False by sql_neq). by rewrite decide_True by done.
  - intros d. cbn [query mem_database]. unfold mem_query.
    rewrite decide_False by (apply (bool_decide_unpack _); vm_compute; exact I). rewrite decide_True by done.
    split; [done|]. exists (merge_sort by_id (map_to_list (m_assets d))).
    split; [apply merge_sort_Permutation|]. split; [|done]. apply (StronglySorted_merge_sort by_id).
  - intros d u a Hu Ha. cbn [query mem_database]. unfold mem_query.
    rewrite decide_False by apply insert_log_not_trim. do 2 (rewrite decide_False by sql_neq).
    rewrite parse_log_ok by done. exists (1 + max_of (log_id <$> m_history d)), (m_clock d).
    split; [|done]. intros l Hl. cbn [history mem_database] in Hl.
    apply (list_elem_of_fmap_2 log_id), max_of_spec in Hl. lia.
  - intros d sql Hs. cbn [query mem_database]. unfold mem_query.
    rewrite decide_True by done. split; [|done]. exists (merge_sort newer (m_history d)).
    split; [apply merge_sort_Permutation|]. split; [|done]. apply (StronglySorted_merge_sort newer).
  - intros d c Hc. unfold asset_columns in Hc.
    repeat (apply elem_of_cons in Hc as [->|Hc]; [done|]). by apply elem_of_nil in Hc.
  - intros d. cbn [query mem_database]. unfold mem_query.
    rewrite decide_False by (apply (bool_decide_unpack _); vm_compute; exact I).
    rewrite decide_False by sql_neq. rewrite decide_True by done.
    split; [done|]. exists (merge_sort newer (m_history d)).
    split; [apply merge_sort_Permutation|]. split; [|done]. apply (StronglySorted_merge_sort newer).
  - intros d v _ _. exists "unknown statement", d. split; [|done].
    cbn [query mem_database]. unfold mem_query. rewrite decide_False.
    + do 2 (rewrite decide_False by sql_neq). reflexivity.
    + intros H. unfold trim_sqls in H. rewrite !elem_of_cons, elem_of_nil in H.
      destruct H as [H|[H|[H|H]]]; [discriminate H..|done].
  - intros d u. cbn [execute mem_database]. unfold mem_execute.
    do 3 (rewrite decide_False by sql_neq). by rewrite decide_True by done.
  - intros d u p Hu Hp. cbn [query mem_database]. unfold mem_query.
    rewrite decide_False by apply index_not_trim. do 2 (rewrite decide_False by sql_neq).
    rewrite parse_log_index, parse_index_ok by done. done.
Qed.

End Mem.

(** ** What a trim keeps *)

(** With distinct ids, the kept rows are the first fifteen of the listing. *)
Lemma trimmed_take (h order : list log) k :
  NoDup (log_id <$> h) -> order ≡ₚ h ->
  filter (fun l => log_id l ∈ log_id <$> take k order) h ≡ₚ take k order.
Proof.
  intros Hn Hp. rewrite <- Hp. assert (NoDup (log_id <$> order)) as Hno by (by rewrite Hp).
  set (P := fun l => log_id l ∈ log_id <$> take k order).
  assert (filter P order = filter P (take k order) ++ filter P (drop k order)) as ->.
  { by rewrite <- filter_app, take_drop. }
  unfold P. rewrite filter_all, filter_none, app_nil_r; [done| |].
  - apply Forall_forall. intros l Hl Hk. rewrite <- (take_drop k order), fmap_app, NoDup_app in Hno.
    destruct Hno as (_ & Hno & _). apply (Hno (log_id l) Hk), list_elem_of_fmap_2, Hl.
  - apply Forall_forall. intros l Hl. by apply list_elem_of_fmap_2.
Qed.

Lemma trimmed_length h h' :
  NoDup (log_id <$> h) -> trimmed h h' -> length h' = Nat.min 15 (length h).
Proof.
  intros Hn (order & Hp & _ & ->). rewrite (trimmed_take h order 15 Hn Hp), length_take.
  by rewrite Hp.
Qed.

Lemma trimmed_sublist h h' : trimmed h h' -> h' `sublist_of` h.
Proof. intros (order & _ & _ & ->). apply sublist_filter. Qed.

Lemma trimmed_NoDup h h' : NoDup (log_id <$> h) -> trimmed h h' -> NoDup (log_id <$> h').
Proof.
  intros Hn Ht. apply (sublist_NoDup _ (log_id <$> h)); [done|]. apply fmap_sublist, trimmed_sublist, Ht.
Qed.

(** A dropped row is no newer than any kept one. *)
Lemma trimmed_newest h h' a b :
  NoDup (log_id <$> h) -> trimmed h h' -> a ∈ h' -> b ∈ h -> b ∉ h' -> newer a b.
Proof.
  intros Hn (order & Hp & Hs & ->) Ha Hb Hb'.
  rewrite (trimmed_take h order 15 Hn Hp) in Ha, Hb'.
  rewrite <- Hp, <- (take_drop 15 order), elem_of_app in Hb. destruct Hb as [Hb|Hb]; [done|].
  rewrite <- (take_drop 15 order) in Hs. by eapply StronglySorted_app_1_elem_of.
Qed.

(** The strictly newest row is kept. *)
Lemma trimmed_keeps_newest h h' l :
  NoDup (log_id <$> h) -> trimmed h h' -> l ∈ h ->
  (forall x, x ∈ h -> x <> l -> log_time x < log_time l) -> l ∈ h'.
Proof.
  intros Hn Ht Hl Hnew. destruct (decide (l ∈ h')) as [|Hd]; [done|]. exfalso.
  destruct h' as [|x h'].
  - pose proof (trimmed_length h [] Hn Ht) as Hlen. destruct h; [by apply elem_of_nil in Hl|done].
  - assert (x ∈ x :: h') as Hx by apply list_elem_of_here.
    pose proof (trimmed_newest h _ x l Hn Ht Hx Hl Hd) as Hnl. unfold newer in Hnl.
    assert (x ∈ h) as Hxh by (eapply elem_of_sublist; [done|by apply trimmed_sublist]).
    assert (x <> l) as Hxl by (intros ->; done). specialize (Hnew x Hxh Hxl). lia.
Qed.
