(* ===== verification/InvApp.v ===== *)
(** The pages of the inventory application, [www/*.php].

    A page is a function of the request, the session and the database to a
    response and the new session and database, with the statements, guards and
    early exits of the source in their order.  [None] is a request outside the
    model: a [selected_ids] field that decodes to a fractional number, an object
    or (for the edit page) a scalar.  Form fields are strings; a field that was
    not sent is [None], PHP's unset. *)

From S2P Require Import Prelude Php InvDb.

(** ** Requests, sessions, responses *)

Record request := Request { method : string; post : gmap string string }.

(** The keys of [$_SESSION] that the pages read or write. *)
Record session := Session {
  s_user : option string;
  s_username : option string;
  s_edit_queue : option (list jval);
  s_deleted_records : option (list (list (string * string)));
}.
Definition empty_session : session := Session None None None None.

Definition set_user (u : string) (s : session) : session :=
  Session (Some u) (s_username s) (s_edit_queue s) (s_deleted_records s).
Definition set_username (u : string) (s : session) : session :=
  Session (s_user s) (Some u) (s_edit_queue s) (s_deleted_records s).
Definition set_queue (q : option (list jval)) (s : session) : session :=
  Session (s_user s) (s_username s) q (s_deleted_records s).
Definition unset_deleted (s : session) : session :=
  Session (s_user s) (s_username s) (s_edit_queue s) None.

Inductive response :=
| Redirect (location : string)
| Echo (text : string)
| Die                                   (* config.php: connection failed *)
| FatalError                            (* an uncaught PHP error *)
| LoginForm (username username_error password_error : string)
| IndexForm (error : option string)
| NewEntryForm (error : string)
| EditPage (asset : option (list sqlval)) (error : string) (success : option string)
| MasterList (options : list (list (list sqlval))) (rows : list (list sqlval))
| ExportTable (header : list string) (rows : list (list sqlval))
| Dashboard (logs : list (list sqlval))
| AddAssetForm (message : option string).

(** [hash('sha256', $s)] *)
Class Sha256 := { sha256 : string -> string }.

Definition succeeded (o : outcome) : bool := match o with Failed _ => false | _ => true end.
Definition result_rows (o : outcome) : list (list sqlval) := match o with Rows rs => rs | _ => [] end.
Definition insert_id (o : outcome) : Z := match o with Written n => n | _ => 0 end.

(** A form field bound as a string, or interpolated into one. *)
Definition bind_s (o : option string) : sqlval := match o with Some s => VStr s | None => VNull end.
Definition text (o : option string) : string := match o with Some s => s | None => "" end.

(** [array_search(null, ...)]: what equals [null] loosely. *)
Definition loose_eq_null (v : jval) : bool :=
  match v with
  | JNull => true
  | JBool b => negb b
  | JInt n => n =? 0
  | JStr s => bool_decide (s = "")
  | JArr l => bool_decide (length l = 0%nat)
  end.

Definition find_index (p : jval -> bool) : list jval -> option nat :=
  fix go l := match l with
              | [] => None
              | v :: l => if p v then Some 0%nat else S <$> go l
              end.

Section pages.

Context {D : Type} `{Database D, Strtod, Json, Sha256}.

Definition result : Type := response * session * D.

(** ** login.php *)

Definition login_page (rq : request) (s : session) (d : D) : result :=
  if connect d then
    if bool_decide (method rq = "POST") then
      let username := trim (text (post rq !! "username")) in
      let password := post rq !! "password" in
      if prepare select_user_sql d then
        let '(o, d) := execute select_user_sql [VStr username] d in
        match result_rows o with
        | [[_; VStr name; VStr pw]] =>
            if bool_decide (password = Some pw)
            then (Redirect "dashboard.php", set_user name s, d)
            else (LoginForm username "" "❌ Incorrect password.", s, d)
        | _ => (LoginForm username "❌ Username not found." "", s, d)
        end
      else (FatalError, s, d)
    else (LoginForm "" "" "", s, d)
  else (Die, s, d).

(** ** index.php *)

Definition index_page (rq : request) (s : session) (d : D) : result :=
  if connect d then
    if bool_decide (method rq = "POST") then
      let username := text (post rq !! "username") in
      let password := sha256 (text (post rq !! "password")) in
      let '(o, d) := query (index_sql username password) d in
      if Nat.eqb (length (result_rows o)) 1
      then (Redirect "dashboard.php", set_username username s, d)
      else (IndexForm (Some "Invalid username or password!"), s, d)
    else (IndexForm None, s, d)
  else (Die, s, d).

(** ** The guard of the pages that require a login *)

Definition guarded (s : session) (d : D) (page : string -> option result) : option result :=
  match s_user s with
  | None => Some (Redirect "login.php", s, d)
  | Some u => page u
  end.

(** The log entry and the trim that follow every change of an asset; both
    results are ignored. *)
Definition log_action_then_trim (trim_sql u a : string) (d : D) : D :=
  let '(_, d) := query (insert_log_sql u a) d in
  let '(_, d) := query trim_sql d in
  d.

(** ** new_entry.php *)

Definition required_fields : list string :=
  ["asset_tag"; "tag_number"; "brand_model"; "serial_number";
   "type_os_type"; "processor"; "type_of_hard_disk"; "size_of_disk"; "memory";
   "office_version"; "ip_address"; "section"; "type_of_user"; "user";
   "email_password"; "date_purchased"; "ups"; "recovery_type"; "unit_type"].

Definition missing_fields (p : gmap string string) : list string :=
  filter (fun f => php_empty (p !! f) = true) required_fields.

(** The twenty bound values; the email address is replaced when empty. *)
Definition bound_values (email : string) (p : gmap string string) : list sqlval :=
  ((fun f => bind_s (p !! f)) <$>
    ["asset_tag"; "tag_number"; "brand_model"; "serial_number";
     "type_os_type"; "processor"; "type_of_hard_disk"; "size_of_disk"; "memory";
     "office_version"; "ip_address"; "section"; "type_of_user"; "user"])
  ++ [VStr email] ++
  ((fun f => bind_s (p !! f)) <$>
    ["email_password"; "date_purchased"; "ups"; "recovery_type"; "unit_type"]).

Definition new_entry_email (p : gmap string string) : string :=
  if php_empty (p !! "email_address") then "n/a" else text (p !! "email_address").

Definition new_entry_page (rq : request) (s : session) (d : D) : option result :=
  guarded s d (fun u => Some (
    if connect d then
      if bool_decide (method rq = "POST") then
        let missing := missing_fields (post rq) in
        if negb (bool_decide (missing = [])) then
          (NewEntryForm ("⚠️ Missing fields: " +:+ implode ", " missing), s, d)
        else if prepare insert_asset_sql d then
          let '(o, d) := execute insert_asset_sql (bound_values (new_entry_email (post rq)) (post rq)) d in
          match o with
          | Failed e => (NewEntryForm ("❌ Database error: " +:+ e), s, d)
          | _ =>
              let action := "Added new asset ID " +:+ pretty (insert_id o) in
              let d := log_action_then_trim new_entry_trim_sql u action d in
              (Redirect "masterlist.php", s, d)
          end
        else (FatalError, s, d)
      else (NewEntryForm "", s, d)
    else (Die, s, d))).

(** ** edit_asset.php *)

Definition edit_email (p : gmap string string) : string :=
  if php_empty (Some (trim (text (p !! "email_address")))) then "n/a" else text (p !! "email_address").

Definition bind_i (o : option string) : sqlval :=
  match o with Some x => VInt (str_long x) | None => VNull end.

(** The batch posted by the master list. *)
Definition take_batch (p : gmap string string) (s : session) : option session :=
  match p !! "selected_ids" with
  | None => Some s
  | Some t => match json_decode t with
              | Some (JArr l) => Some (set_queue (Some l) s)
              | Some JNull => Some (set_queue None s)
              | _ => None
              end
  end.

(** Position of the updated asset in the queue. *)
Definition queue_search (id : option string) (q : list jval) : option nat :=
  match id with
  | Some x => array_search x q
  | None => find_index loose_eq_null q
  end.

(** [unset($queue[$key])] and [array_values]. *)
Definition dequeue (id : option string) (q : option (list jval)) : option (list jval) :=
  match q with
  | None => None
  | Some l => match queue_search id l with
              | Some k => Some (delete k l)
              | None => Some l
              end
  end.

(** The [update] block: [None] when preparing the statement failed. *)
Definition edit_update (u : string) (p : gmap string string) (s : session) (d : D)
  : option (string * session * D) :=
  if prepare update_asset_sql d then
    let '(_, d) := execute update_asset_sql
                     (bound_values (edit_email p) p ++ [bind_i (p !! "id")]) d in
    let asset_id := text (p !! "id") in
    let d := log_action_then_trim edit_trim_sql u ("Edited asset ID " +:+ asset_id) d in
    Some ("✅ Asset ID " +:+ asset_id +:+ " successfully updated.",
          set_queue (dequeue (p !! "id") (s_edit_queue s)) s, d)
  else None.

Definition next_id (p : gmap string string) (s : session) : jval :=
  match s_edit_queue s with
  | Some (v :: _) => v
  | _ => match p !! "manual_id" with Some m => JStr m | None => JNull end
  end.

(** The asset to show. *)
Definition edit_show (p : gmap string string) (success : option string) (s : session) (d : D) : result :=
  let nid := next_id p s in
  if truthy nid then
    if prepare select_asset_sql d then
      let '(o, d) := execute select_asset_sql [VInt (to_long nid)] d in
      match result_rows o with
      | row :: _ => (EditPage (Some row) "" success, s, d)
      | [] => (EditPage None ("❌ Asset with ID " +:+ to_str nid +:+ " not found.") success, s, d)
      end
    else (FatalError, s, d)
  else match success with
       | Some _ => (EditPage None "" success, s, d)
       | None => (EditPage None "ℹ️ No asset selected. Enter an ID below." success, s, d)
       end.

Definition edit_page (rq : request) (s : session) (d : D) : option result :=
  if connect d then
    guarded s d (fun u =>
      s ← take_batch (post rq) s;
      match post rq !! "update" with
      | Some _ =>
          match edit_update u (post rq) s d with
          | Some (msg, s, d) => Some (edit_show (post rq) (Some msg) s d)
          | None => Some (FatalError, s, d)
          end
      | None => Some (edit_show (post rq) None s d)
      end)
  else Some (Die, s, d).

(** ** delete_selected.php *)

Definition delete_page (rq : request) (s : session) (d : D) : option result :=
  if connect d then
    if php_empty (s_user s) then Some (Echo "unauthorized", s, d)
    else if bool_decide (method rq = "POST") then
      ids ← json_decode (text (post rq !! "selected_ids"));
      match ids with
      | JArr ((_ :: _) as l) =>
          let sql := delete_assets_sql (length l) in
          if prepare sql d then
            let '(o, d) := execute sql ((fun v => VInt (to_long v)) <$> l) d in
            if succeeded o then
              let action := "Deleted asset ID: " +:+ implode ", " (to_str <$> l) in
              Some (Echo "success", s, log_action_then_trim delete_trim_sql (text (s_user s)) action d)
            else Some (Echo "exec_error", s, d)
          else Some (Echo "prep_error", s, d)
      | _ => Some (Echo "invalid_input", s, d)
      end
    else Some (Echo "bad_method", s, d)
  else Some (Die, s, d).

(** ** undo_delete.php *)

Definition undo_insert_sql (row : list (string * string)) : string :=
  "INSERT INTO assets (" +:+ implode ", " row.*1 +:+ ") VALUES (" +:+
  implode ", " (replicate (length row) "?") +:+ ")".

(** The value of [$success] after the loop ([None]: a [prepare] failed and the
    call of [bind_param] on its result ends the script), and the database with
    the rows inserted so far. *)
Fixpoint undo_loop (records : list (list (string * string))) (d : D) : option bool * D :=
  match records with
  | [] => (Some true, d)
  | row :: records =>
      if prepare (undo_insert_sql row) d then
        let '(o, d) := execute (undo_insert_sql row) (VStr <$> row.*2) d in
        if succeeded o then undo_loop records d else (Some false, d)
      else (None, d)
  end.

Definition undo_page (rq : request) (s : session) (d : D) : result :=
  if connect d then
    match s_deleted_records s with
    | None => (Echo "⚠️ No records to undo.", s, d)
    | Some records =>
        match undo_loop records d with
        | (Some true, d) => (Echo "success", unset_deleted s, d)
        | (Some false, d) => (Echo "❌ Failed to undo.", s, d)
        | (None, d) => (FatalError, s, d)
        end
    end
  else (Die, s, d).

(** ** logout.php *)

Definition logout_page (rq : request) (s : session) (d : D) : result :=
  (Redirect "login.php", empty_session, d).

(** ** masterlist.php, export_excel.php, dashboard.php *)

Definition filter_columns : list string :=
  ["type_os_type"; "processor"; "type_of_hard_disk"; "size_of_disk"; "memory"; "office_version";
   "type_of_user"; "ups"; "recovery_type"; "unit_type"].

(** [getDistinctValues] for each column; [None] when a query failed, whose
    result is used unchecked. *)
Fixpoint distinct_values (cs : list string) (d : D) : option (list (list (list sqlval))) * D :=
  match cs with
  | [] => (Some [], d)
  | c :: cs =>
      match query (distinct_sql c) d with
      | (Rows rs, d) => let '(os, d) := distinct_values cs d in ((fun os => rs :: os) <$> os, d)
      | (_, d) => (None, d)
      end
  end.

Definition masterlist_page (rq : request) (s : session) (d : D) : option result :=
  guarded s d (fun _ => Some (
    if connect d then
      let '(o, d) := query list_assets_sql d in
      match distinct_values filter_columns d with
      | (Some os, d) => (MasterList os (result_rows o), s, d)
      | (None, d) => (FatalError, s, d)
      end
    else (Die, s, d))).

Definition export_header : list string :=
  ["ID"; "Asset Tag"; "Tag Number"; "Brand Model"; "Serial Number"; "Type of OS"; "Processor";
   "Type of Hard Disk"; "Size of Disk"; "Office Version"; "IP Address"; "Section"; "Type of User";
   "User"; "Email Address"; "Email Password"; "Date Purchased"; "UPS"; "Recovery Type"; "Unit Type";
   "Timestamp"].

Definition export_page (rq : request) (s : session) (d : D) : option result :=
  guarded s d (fun _ => Some (
    if connect d then
      let '(o, d) := query list_assets_sql d in (ExportTable export_header (result_rows o), s, d)
    else (Die, s, d))).

Definition dashboard_page (rq : request) (s : session) (d : D) : option result :=
  guarded s d (fun _ => Some (
    if connect d then
      let '(o, d) := query dashboard_sql d in (Dashboard (result_rows o), s, d)
    else (Die, s, d))).

(** ** add_asset.php, which has no guard *)

Definition add_asset_page (rq : request) (s : session) (d : D) : result :=
  if connect d then
    if bool_decide (method rq = "POST") then
      match query (add_asset_sql (fun c => text (post rq !! c))) d with
      | (Failed e, d) => (AddAssetForm (Some ("❌ Error: " +:+ e)), s, d)
      | (Rows _, d) => (AddAssetForm (Some "❌ Error: "), s, d)
      | (Written _, d) => (AddAssetForm (Some "✅ Asset added successfully!"), s, d)
      end
    else (AddAssetForm None, s, d)
  else (Die, s, d).

(** ** The application: requests of one browser session *)

Inductive page :=
| PLogin | PIndex | PNewEntry | PEdit | PDelete | PUndo | PLogout | PMasterList | PExport
| PDashboard | PAddAsset.

Definition serve (pg : page) (rq : request) (s : session) (d : D) : option result :=
  match pg with
  | PLogin => Some (login_page rq s d)
  | PIndex => Some (index_page rq s d)
  | PNewEntry => new_entry_page rq s d
  | PEdit => edit_page rq s d
  | PDelete => delete_page rq s d
  | PUndo => Some (undo_page rq s d)
  | PLogout => Some (logout_page rq s d)
  | PMasterList => masterlist_page rq s d
  | PExport => export_page rq s d
  | PDashboard => dashboard_page rq s d
  | PAddAsset => Some (add_asset_page rq s d)
  end.

(** One request of this browser, or a change of the database by another one. *)
Inductive step : session * D -> session * D -> Prop :=
| step_request pg rq s d r s' d' : serve pg rq s d = Some (r, s', d') -> step (s, d) (s', d')
| step_other s d d' : step (s, d) (s, d').

Definition reachable (s : session) (d : D) : Prop := exists d0, rtc step (empty_session, d0) (s, d).

End pages.

(** ** The history log *)

Section facts.

Context {D : Type} `{DatabaseLaws D, Strtod, Json, Sha256}.
Implicit Types (s : session) (d : D).

(** [d'] is the database after the action [a] of [u] was logged in [d] and the
    log trimmed by [sql]: both statements were executed, in this order; the
    entry was appended unless its statement failed, the log trimmed unless that
    statement failed, and nothing else changed. *)
Definition logged (sql u a : string) (d d' : D) : Prop :=
  let '(o1, d1) := query (insert_log_sql u a) d in
  let '(o2, d2) := query sql d1 in
  d' = d2 /\ assets d' = assets d /\ users d' = users d /\
  (if succeeded o1
   then exists i t, (forall l, l ∈ history d -> log_id l < i) /\ history d1 = history d ++ [Log i u a t]
   else history d1 = history d) /\
  (if succeeded o2 then trimmed (history d1) (history d') else history d' = history d1).

Lemma log_action_spec sql u a d :
  sql ∈ trim_sqls -> plain u = true -> plain a = true ->
  logged sql u a d (log_action_then_trim sql u a d).
Proof.
  intros Hs Hu Ha. unfold logged, log_action_then_trim.
  pose proof (insert_log_law d u a Hu Ha) as Hi.
  destruct (query (insert_log_sql u a) d) as [o1 d1].
  pose proof (trim_law d1 sql Hs) as Ht. destruct (query sql d1) as [o2 d2]. split; [done|].
  destruct o1; [destruct Hi as (A1 & L1 & U1)|done|destruct Hi as (i & t & Hf & L1 & A1 & U1)];
    (destruct o2; [|done|]); destruct Ht as (X & Y & Z); simpl;
    (split; [congruence|]); (split; [congruence|]); split; eauto; congruence.
Qed.

(** The tables besides the log. *)
Lemma logged_keeps sql u a d d' : logged sql u a d d' -> assets d' = assets d /\ users d' = users d.
Proof.
  unfold logged. destruct (query _ d) as [o1 d1]. destruct (query _ d1) as [o2 d2]. tauto.
Qed.

Lemma new_entry_trim_in : new_entry_trim_sql ∈ trim_sqls.
Proof. apply list_elem_of_here. Qed.
Lemma edit_trim_in : edit_trim_sql ∈ trim_sqls.
Proof. apply list_elem_of_further, list_elem_of_here. Qed.
Lemma delete_trim_in : delete_trim_sql ∈ trim_sqls.
Proof. do 2 apply list_elem_of_further. apply list_elem_of_here. Qed.

(** *** Plain texts *)

Lemma plain_app a b : plain (a +:+ b) = plain a && plain b.
Proof. induction a as [|c a IH]; [done|]. simpl. by rewrite IH, !andb_assoc. Qed.

Lemma plain_pretty_N_char x : plain (String (pretty_N_char x) "") = true.
Proof. unfold pretty_N_char. repeat case_match; reflexivity. Qed.

Lemma plain_pretty_N_go x t : plain t = true -> plain (pretty_N_go x t) = true.
Proof.
  revert t. induction (N.lt_wf_0 x) as [x _ IH]. intros t Ht.
  destruct (decide (x = 0%N)) as [->|Hx]; [done|].
  rewrite pretty_N_go_step by lia. apply IH; [apply N.div_lt; lia|].
  change (plain (String (pretty_N_char (x `mod` 10)) "" +:+ t) = true).
  by rewrite plain_app, plain_pretty_N_char, Ht.
Qed.

Lemma plain_pretty (n : Z) : plain (pretty n) = true.
Proof.
  assert (forall x : N, plain (pretty x) = true) as HN.
  { intros x. unfold pretty, pretty_N. case_decide; [done|]. by apply plain_pretty_N_go. }
  destruct n; unfold pretty, pretty_Z; [done| |]; [|rewrite plain_app, andb_true_iff; split; [done|]];
    exact (HN (Npos _)).
Qed.

Lemma plain_implode sep l :
  plain sep = true -> Forall (fun x => plain x = true) l -> plain (implode sep l) = true.
Proof.
  intros Hs Hl. induction Hl as [|x l Hx Hl IH]; [done|]. destruct l as [|y l]; [done|].
  change (plain (x +:+ sep +:+ implode sep (y :: l)) = true).
  by rewrite !plain_app, Hx, Hs, IH.
Qed.

(** ** Sessions *)

Lemma guarded_Some s d (f : string -> option (result (D := D))) r :
  guarded s d f = Some r ->
  (s_user s = None /\ r = (Redirect "login.php", s, d)) \/ exists u, s_user s = Some u /\ f u = Some r.
Proof. unfold guarded. destruct (s_user s); intros Hr; [right; eauto|left; by injection Hr]. Qed.

Lemma undo_nothing rq s d :
  s_deleted_records s = None ->
  undo_page rq s d = (if connect d then Echo "⚠️ No records to undo." else Die, s, d).
Proof. intros Hn. unfold undo_page. rewrite Hn. by destruct (connect d). Qed.

(** The rows are restored in order: what a failure further on leaves is the
    database with all rows before it inserted. *)
Lemma undo_loop_app l1 l2 d :
  undo_loop (l1 ++ l2) d =
    match undo_loop l1 d with
    | (Some true, d1) => undo_loop l2 d1
    | stopped => stopped
    end.
Proof.
  revert d. induction l1 as [|row l1 IH]; intros d; simpl; [by destruct (undo_loop l2 d)|].
  destruct (prepare _ d); [|done]. destruct (execute _ _ d) as [o d1]. destruct (succeeded o); [apply IH|done].
Qed.

Lemma take_batch_keeps p s s' :
  take_batch p s = Some s' -> s_user s' = s_user s /\ s_deleted_records s' = s_deleted_records s.
Proof.
  unfold take_batch. destruct (p !! "selected_ids"); [|by intros [= ->]].
  destruct (json_decode _) as [[]|]; try done; by intros [= <-].
Qed.

(** No page sets [deleted_records]. *)
Lemma serve_deleted pg rq s d r s' d' :
  serve pg rq s d = Some (r, s', d') -> s_deleted_records s = None -> s_deleted_records s' = None.
Proof.
  intros Hs Hn. destruct pg; cbn [serve] in Hs.
  - injection Hs as Hs. unfold login_page in Hs.
    repeat (case_match; simplify_eq; try done).
  - injection Hs as Hs. unfold index_page in Hs. repeat (case_match; simplify_eq; try done).
  - apply guarded_Some in Hs as [[_ Hs]|(u & _ & Hs)]; [by simplify_eq|].
    injection Hs as Hs. repeat (case_match; simplify_eq; try done).
  - unfold edit_page in Hs. destruct (connect d); [|by simplify_eq].
    apply guarded_Some in Hs as [[_ Hs]|(u & _ & Hs)]; [by simplify_eq|].
    destruct (take_batch (post rq) s) as [s1|] eqn:Eb; [|done]. simpl in Hs.
    apply take_batch_keeps in Eb as [_ Eb]. rewrite Hn in Eb.
    unfold edit_update, edit_show in Hs. repeat (case_match; simplify_eq; try done).
  - unfold delete_page in Hs. destruct (connect d); [|by simplify_eq].
    destruct (php_empty (s_user s)); [by simplify_eq|].
    destruct (bool_decide (method rq = "POST")); [|by simplify_eq].
    destruct (json_decode _) as [ids|]; [|done]. simpl in Hs. repeat (case_match; simplify_eq; try done).
  - injection Hs as Hs. rewrite undo_nothing in Hs by done. by simplify_eq.
  - injection Hs as Hs. unfold logout_page in Hs. by simplify_eq.
  - apply guarded_Some in Hs as [[_ Hs]|(u & _ & Hs)]; [by simplify_eq|].
    injection Hs as Hs. repeat (case_match; simplify_eq; try done).
  - apply guarded_Some in Hs as [[_ Hs]|(u & _ & Hs)]; [by simplify_eq|].
    injection Hs as Hs. repeat (case_match; simplify_eq; try done).
  - apply guarded_Some in Hs as [[_ Hs]|(u & _ & Hs)]; [by simplify_eq|].
    injection Hs as Hs. repeat (case_match; simplify_eq; try done).
  - injection Hs as Hs. unfold add_asset_page in Hs. repeat (case_match; simplify_eq; try done).
Qed.

Lemma reachable_deleted s d : reachable s d -> s_deleted_records s = None.
Proof.
  intros [d0 Hr]. remember (empty_session, d0) as x eqn:Ex. remember (s, d) as y eqn:Ey.
  assert (s_deleted_records y.1 = None) as Hy; [|by rewrite Ey in Hy].
  assert (s_deleted_records x.1 = None) as Hx by (by rewrite Ex). clear Ex Ey.
  induction Hr as [|x y z Hxy _ IH]; [done|]. apply IH.
  destruct Hxy as [pg rq s1 d1 r s2 d2 Hs|]; simpl in *; [by eapply serve_deleted|done].
Qed.

(** ** The edit queue *)

Lemma dequeue_head id v q : loose_eq v id = true -> dequeue (Some id) (Some (v :: q)) = Some q.
Proof. intros Hv. unfold dequeue, queue_search. simpl. by rewrite Hv. Qed.

Lemma loose_eq_canonical t x n :
  int_form t = Some n -> int_form x = Some n -> loose_eq (JStr t) x = true.
Proof. intros Ht Hx. simpl. rewrite (loose_eq_str_int _ _ _ _ Ht Hx). apply Z.eqb_refl. Qed.

Lemma edit_update_queue u p s d msg s' d' :
  edit_update u p s d = Some (msg, s', d') ->
  s_edit_queue s' = dequeue (p !! "id") (s_edit_queue s) /\ s_user s' = s_user s.
Proof.
  unfold edit_update. destruct (prepare _ d); [|done].
  destruct (execute _ _ d) as [o d1]. by intros [= _ <- _].
Qed.

Lemma edit_show_session p su s d : exists r d', edit_show p su s d = (r, s, d').
Proof. unfold edit_show. repeat case_match; eauto. Qed.

End facts.

(** ** Properties *)

Section properties.

Context {D : Type} `{DatabaseLaws D, Strtod, Json, Sha256}.
Implicit Types (s : session) (d : D).

(** Pages that answer a browser without a logged-in user before doing anything. *)
Definition protected (pg : page) : bool :=
  match pg with
  | PNewEntry | PEdit | PDelete | PMasterList | PExport | PDashboard => true
  | _ => false
  end.

(** C1 : access control.  A browser without a logged-in user gets nothing from
    the pages that list, add, edit, delete or export assets: the answer is the
    redirect to the login page (or the refusal texts), and neither its session
    nor the database changes.  No other page gives it a user but [login.php],
    and that one only for the name and the exact stored password of a row of
    [users]. *)
Theorem access_control pg rq s d r s' d' :
  s_user s = None -> serve pg rq s d = Some (r, s', d') ->
  (protected pg = true ->
     s' = s /\ d' = d /\ (r = Redirect "login.php" \/ r = Die \/ r = Echo "unauthorized")) /\
  (forall u, s_user s' = Some u -> pg = PLogin /\
     exists x, users d !! coll_key (trim (text (post rq !! "username"))) = Some x /\
       user_name x = u /\ post rq !! "password" = Some (user_password x)).
Proof.
  intros Hu Hs. split.
  - intros Hp. destruct pg; try done; cbn [serve] in Hs;
      unfold new_entry_page, edit_page, delete_page, masterlist_page, export_page, dashboard_page,
        guarded in Hs; rewrite Hu in Hs; simpl in Hs; repeat case_match; simplify_eq; auto.
  - intros u Hu'. destruct pg; cbn [serve] in Hs;
      try (unfold new_entry_page, edit_page, delete_page, masterlist_page, export_page, dashboard_page,
        guarded in Hs; rewrite Hu in Hs; simpl in Hs; repeat case_match; simplify_eq; congruence).
    + split; [done|]. injection Hs as Hs. unfold login_page in Hs.
      destruct (connect d); [|simplify_eq; congruence].
      destruct (bool_decide _); [|simplify_eq; congruence].
      destruct (prepare _ d); [|simplify_eq; congruence].
      pose proof (select_user_law d (trim (text (post rq !! "username")))) as Hlaw.
      destruct (execute _ _ d) as [[e|rs|n] d1]; simpl in Hs; [simplify_eq; congruence| |done].
      destruct Hlaw as [_ ->]. destruct (users d !! _) as [x|]; simpl in Hs; [|simplify_eq; congruence].
      case_bool_decide as Epw; simplify_eq. simpl in Hu'. simplify_eq. eauto.
    + injection Hs as Hs. unfold index_page in Hs.
      repeat (case_match; simplify_eq; try congruence); simpl in *; congruence.
    + injection Hs as Hs. unfold undo_page in Hs.
      repeat (case_match; simplify_eq; try congruence); simpl in *; congruence.
    + injection Hs as Hs. unfold logout_page in Hs. by simplify_eq.
    + injection Hs as Hs. unfold add_asset_page in Hs. repeat (case_match; simplify_eq; try congruence).
Qed.

(** C2 : the new-entry form.  For a logged-in user and a [POST]: when any of
    the nineteen required fields is unset, empty or ["0"], the form reports
    exactly those fields and the database is not touched; otherwise the INSERT
    is executed.  When it fails, the form reports its error and all tables are
    as they were; when it succeeds, exactly one asset is added, under an id that
    was free, with the values of the form in the order of the columns (and
    [n/a] for an empty email address), every other asset is as before, the
    action with that id is logged, the log is trimmed, and the master list
    follows. *)
Theorem new_entry_correct rq u s d :
  s_user s = Some u -> plain u = true -> method rq = "POST" ->
  connect d = true -> prepare insert_asset_sql d = true ->
  let m := missing_fields (post rq) in
  let vs := bound_values (new_entry_email (post rq)) (post rq) in
  (forall f, f ∈ m <-> f ∈ required_fields /\ php_empty (post rq !! f) = true) /\
  if bool_decide (m = []) then
    let '(o, d1) := execute insert_asset_sql vs d in
    match o with
    | Failed e =>
        new_entry_page rq s d = Some (NewEntryForm ("❌ Database error: " +:+ e), s, d1) /\ same_tables d d1
    | _ => exists n cells ts d', o = Written n /\
        new_entry_page rq s d = Some (Redirect "masterlist.php", s, d') /\
        store vs = Some cells /\ assets d !! n = None /\
        assets d' = <[n := cells ++ [ts]]> (assets d) /\ users d' = users d /\ history d1 = history d /\
        logged new_entry_trim_sql u ("Added new asset ID " +:+ pretty n) d1 d'
    end
  else new_entry_page rq s d = Some (NewEntryForm ("⚠️ Missing fields: " +:+ implode ", " m), s, d).
Proof.
  intros Hu Hpl Hm Hc Hp m vs. split.
  { intros f. unfold m, missing_fields. rewrite list_elem_of_filter. tauto. }
  unfold new_entry_page, guarded. rewrite Hu, Hc, Hm. simpl bool_decide. fold m vs. cbv zeta.
  destruct (bool_decide (m = [])); [simpl negb|done].
  rewrite Hp. pose proof (insert_asset_law d vs eq_refl) as Hlaw.
  destruct (execute insert_asset_sql vs d) as [[e|rs|n] d1]; [done..|].
  destruct Hlaw as (cells & ts & Hst & Hn & Hfree & Ha & Hh & Hus).
  set (a := "Added new asset ID " +:+ pretty n).
  assert (logged new_entry_trim_sql u a d1 (log_action_then_trim new_entry_trim_sql u a d1)) as L.
  { apply (log_action_spec _ _ _ _ new_entry_trim_in Hpl). unfold a. by rewrite plain_app, plain_pretty. }
  destruct (logged_keeps _ _ _ _ _ L) as [A U].
  exists n, cells, ts, (log_action_then_trim new_entry_trim_sql u a d1).
  repeat split; try done; congruence.
Qed.

(** C3 : the history log.  With distinct log ids and texts free of quotes and
    backslashes, logging an action and trimming keeps the ids distinct; once
    the trim statement succeeds at most fifteen entries are left, all of them
    entries that were there or the new one; the new entry survives when it is
    strictly newer than the others; and an entry that is dropped is no newer
    than any that is kept. *)
Theorem history_bounded sql u a d :
  sql ∈ trim_sqls -> plain u = true -> plain a = true -> NoDup (log_id <$> history d) ->
  let '(o1, d1) := query (insert_log_sql u a) d in
  let '(o2, d2) := query sql d1 in
  log_action_then_trim sql u a d = d2 /\ NoDup (log_id <$> history d2) /\
     (succeeded o2 = true ->
     length (history d2) = Nat.min 15 (length (history d1)) /\
     (forall l, l ∈ history d2 -> l ∈ history d \/ log_username l = u /\ log_action l = a) /\
     (forall x y, x ∈ history d2 -> y ∈ history d -> y ∉ history d2 -> newer x y) /\
     (succeeded o1 = true ->
        exists l, log_username l = u /\ log_action l = a /\ history d1 = history d ++ [l] /\
     ((forall x, x ∈ history d -> log_time x < log_time l) -> l ∈ history d2))).
Proof.
  intros Hs Hu Ha Hn. unfold log_action_then_trim.
  pose proof (insert_log_law d u a Hu Ha) as L1.
  destruct (query (insert_log_sql u a) d) as [o1 d1].
  pose proof (trim_law d1 sql Hs) as L2. destruct (query sql d1) as [o2 d2]. split; [done|].
  assert (NoDup (log_id <$> history d1) /\
     (forall l, l ∈ history d1 -> l ∈ history d \/ log_username l = u /\ log_action l = a) /\
     (forall l, l ∈ history d -> l ∈ history d1)) as (Hn1 & Hin & Hin').
  { destruct o1; [destruct L1 as (_ & -> & _); auto|done|].
    destruct L1 as (i & t & Hf & -> & _). split; [|split].
    - rewrite fmap_app. apply NoDup_snoc. split; [done|]. simpl.
      intros (l & Hl & Hin)%list_elem_of_fmap_1. specialize (Hf l Hin). lia.
    - intros l [Hl|Hl%list_elem_of_singleton]%elem_of_app; [by left|subst; by right].
    - intros l Hl. apply elem_of_app. by left. }
  destruct o2; [destruct L2 as (_ & -> & _); done|done|]. destruct L2 as (Ht & _ & _).
  split; [by eapply trimmed_NoDup|]. intros _. split; [by apply trimmed_length|].
  split; [intros l Hl; apply Hin, (elem_of_sublist _ _ _ Hl), trimmed_sublist, Ht|].
  split; [intros x y Hx Hy; apply (trimmed_newest _ _ _ _ Hn1 Ht Hx); auto|].
  intros Ho1. destruct o1; [done|done|]. destruct L1 as (i & t & Hf & Hh & _).
  exists (Log i u a t). split; [done|]. split; [done|]. split; [done|]. intros Hnew.
  apply (trimmed_keeps_newest (history d1)); [done|done|rewrite Hh; apply elem_of_app; right; apply list_elem_of_here|].
  intros x Hx Hne. rewrite Hh in Hx. apply elem_of_app in Hx as [Hx|Hx%list_elem_of_singleton]; auto.
  by subst.
Qed.

(** A request that submits the edit form for the asset [id]. *)
Definition update_request (rq : request) (id : string) : Prop :=
  post rq !! "selected_ids" = None /\ is_Some (post rq !! "update") /\ post rq !! "id" = Some id.

(** Editing one asset.  A logged-in user's update request changes no asset
    but the one whose id it carries (and no row at all when its statement
    fails), to the values of the form; the action is logged; the id leaves the
    edit queue; and the page confirms the update whether or not it happened. *)
Lemma edit_update_correct rq u s d id n :
  s_user s = Some u -> plain u = true -> plain id = true -> int_form id = Some n ->
  update_request rq id -> connect d = true -> prepare update_asset_sql d = true ->
  let vs := bound_values (edit_email (post rq)) (post rq) in
  let '(o, d1) := execute update_asset_sql (vs ++ [VInt n]) d in
  exists s' d', edit_page rq s d =
      Some (edit_show (post rq) (Some ("✅ Asset ID " +:+ id +:+ " successfully updated.")) s' d') /\
    s' = set_queue (dequeue (Some id) (s_edit_queue s)) s /\
    users d' = users d /\ history d1 = history d /\
    logged edit_trim_sql u ("Edited asset ID " +:+ id) d1 d' /\
    (if succeeded o
     then exists cells ts, store vs = Some cells /\ assets d' = alter (fun _ => cells ++ [ts]) n (assets d)
     else assets d' = assets d).
Proof.
  intros Hu Hpl Hpi Hn (Hb & [up Hup] & Hid) Hc Hp vs.
  unfold edit_page. rewrite Hc. unfold guarded. rewrite Hu. unfold take_batch. rewrite Hb. cbn [mbind option_bind].
  rewrite Hup. unfold edit_update. rewrite Hp, Hid. simpl bind_i.
  rewrite (str_long_int _ _ Hn). fold vs.
  pose proof (update_asset_law d vs (VInt n) eq_refl (or_intror (ex_intro _ n eq_refl))) as Hlaw.
  destruct (execute update_asset_sql (vs ++ [VInt n]) d) as [o d1].
  assert (plain ("Edited asset ID " +:+ id) = true) as Ha by (by rewrite plain_app, Hpi).
  pose proof (log_action_spec edit_trim_sql u _ d1 edit_trim_in Hpl Ha) as L.
  destruct (logged_keeps _ _ _ _ _ L) as [A U].
  exists (set_queue (dequeue (Some id) (s_edit_queue s)) s),
    (log_action_then_trim edit_trim_sql u ("Edited asset ID " +:+ id) d1).
  split; [done|]. split; [done|]. destruct o; [|done|].
  - destruct Hlaw as (Ha' & Hh & Hus). repeat split; try done; congruence.
  - destruct Hlaw as (cells & ts & Hst & Ha' & Hh & Hus). split; [congruence|]. split; [done|].
    split; [done|]. exists cells, ts. split; [done|congruence].
Qed.

(** The requests of one browser, one after the other. *)
Fixpoint serve_all (rqs : list request) (s : session) (d : D) : option (list response * session * D) :=
  match rqs with
  | [] => Some ([], s, d)
  | rq :: rqs =>
      match edit_page rq s d with
      | None => None
      | Some (r, s, d) =>
          match serve_all rqs s d with
          | None => None
          | Some (rs, s, d) => Some (r :: rs, s, d)
          end
      end
  end.

(** C4 : the batch edit.  As long as the server accepts the connections and
    the update statement, submitting the edit form for each asset of the batch
    in turn walks through the edit queue in its order, one id per request, and
    ends with the ids that are left; a batch of [k] ids is finished by [k]
    requests. *)
Theorem edit_queue_walk s d u batch rest rqs :
  (forall d, connect d = true) -> (forall d, prepare update_asset_sql d = true) ->
  s_user s = Some u -> s_edit_queue s = Some ((JStr <$> batch) ++ rest) ->
  Forall2 (fun t rq => exists id n, update_request rq id /\ int_form t = Some n /\ int_form id = Some n)
          batch rqs ->
  exists rs s' d', serve_all rqs s d = Some (rs, s', d') /\ s_edit_queue s' = Some rest /\
    s_user s' = Some u.
Proof.
  intros Hc Hp Hu Hq Hf. revert s d Hu Hq.
  induction Hf as [|t rq batch rqs (id & n & (Hb & [up Hup] & Hid) & Ht & Hn) Hf IH]; intros s d Hu Hq.
  - exists [], s, d. done.
  - cbn [serve_all]. unfold edit_page. rewrite Hc. unfold guarded. rewrite Hu. unfold take_batch.
    rewrite Hb. cbn [mbind option_bind]. rewrite Hup.
    destruct (edit_update u (post rq) s d) as [[[msg s1] d1]|] eqn:Eu.
    2:{ unfold edit_update in Eu. rewrite Hp in Eu. by destruct (execute _ _ d). }
    apply edit_update_queue in Eu as [Eq Eus].
    destruct (edit_show_session (post rq) (Some msg) s1 d1) as (r & d2 & ->).
    rewrite Hid, Hq in Eq. cbn [fmap list_fmap app] in Eq.
    rewrite (dequeue_head _ _ _ (loose_eq_canonical t id n Ht Hn)) in Eq.
    destruct (IH s1 d2) as (rs & s' & d' & -> & Hq' & Hu'); [congruence|done|].
    exists (r :: rs), s', d'. done.
Qed.

(** A batch whose first asset is gone blocks the page.  While the queue's
    first id has no row, every request that neither posts a new batch nor
    updates gets "not found" for that id and leaves the session as it was: the
    id entered in the form ([manual_id]) is never looked at, and the edit form
    whose submission would advance the queue is not shown. *)
Lemma edit_queue_blocked rq u s d v q :
  s_user s = Some u -> s_edit_queue s = Some (v :: q) -> truthy v = true ->
  assets d !! to_long v = None ->
  connect d = true -> prepare select_asset_sql d = true ->
  post rq !! "selected_ids" = None -> post rq !! "update" = None ->
  exists d', edit_page rq s d =
    Some (EditPage None ("❌ Asset with ID " +:+ to_str v +:+ " not found.") None, s, d') /\ same_tables d d'.
Proof.
  intros Hu Hq Ht Ha Hc Hp Hb Hup. unfold edit_page. rewrite Hc. unfold guarded. rewrite Hu.
  unfold take_batch. rewrite Hb. cbn [mbind option_bind]. rewrite Hup.
  unfold edit_show, next_id. rewrite Hq, Ht, Hp.
  pose proof (select_asset_law d (to_long v)) as Hlaw.
  destruct (execute select_asset_sql [VInt (to_long v)] d) as [[e|rs|n] d1]; simpl.
  - exists d1. done.
  - destruct Hlaw as [Hs ->]. rewrite Ha. exists d1. done.
  - done.
Qed.

(** C5 : deleting the selected assets.  For a logged-in user and a list of
    decoded ids, the DELETE is executed with these ids.  When it succeeds the
    answer is "success", the assets with those ids are gone, all others are as
    before, the action, which lists the ids, is logged and the log trimmed;
    when it fails the answer is "exec_error" and all tables are as before. *)
Theorem delete_selected_correct rq u s d l :
  s_user s = Some u -> php_empty (Some u) = false -> plain u = true -> method rq = "POST" ->
  json_decode (text (post rq !! "selected_ids")) = Some (JArr l) -> l <> [] ->
  Forall (fun v => plain (to_str v) = true) l ->
  connect d = true -> prepare (delete_assets_sql (length l)) d = true ->
  let '(o, d1) := execute (delete_assets_sql (length l)) (VInt ∘ to_long <$> l) d in
  if succeeded o then
    exists d', delete_page rq s d = Some (Echo "success", s, d') /\ users d' = users d /\
      (forall n, assets d' !! n = if decide (n ∈ to_long <$> l) then None else assets d !! n) /\
      history d1 = history d /\
      logged delete_trim_sql u ("Deleted asset ID: " +:+ implode ", " (to_str <$> l)) d1 d'
  else delete_page rq s d = Some (Echo "exec_error", s, d1) /\ same_tables d d1.
Proof.
  intros Hu Hne Hpl Hm Hj Hl Hf Hc Hp. unfold delete_page. rewrite Hc, Hu, Hne, Hm. simpl bool_decide.
  rewrite Hj. cbn [mbind option_bind]. destruct l as [|v l]; [done|]. rewrite Hp.
  pose proof (delete_assets_law d (to_long <$> v :: l)) as Hlaw. rewrite length_fmap in Hlaw.
  rewrite <- list_fmap_compose in Hlaw.
  assert (execute (delete_assets_sql (length (v :: l))) ((fun v => VInt (to_long v)) <$> v :: l) d =
          execute (delete_assets_sql (length (v :: l))) (VInt ∘ to_long <$> v :: l) d) as -> by done.
  destruct (execute _ _ d) as [[e|rs|n] d1]; simpl succeeded; [|by destruct Hlaw|];
    specialize (Hlaw ltac:(done)); [done|]. destruct Hlaw as (Ha & Hh & Hus).
  set (a := "Deleted asset ID: " +:+ implode ", " (to_str <$> v :: l)).
  assert (logged delete_trim_sql u a d1 (log_action_then_trim delete_trim_sql u a d1)) as L.
  { apply (log_action_spec _ _ _ _ delete_trim_in Hpl). unfold a. rewrite plain_app. apply andb_true_iff.
    split; [done|]. apply plain_implode; [done|]. by apply Forall_fmap. }
  destruct (logged_keeps _ _ _ _ _ L) as [A U].
  exists (log_action_then_trim delete_trim_sql u a d1).
  split; [done|]. split; [congruence|]. split; [|done]. intros k. rewrite A, Ha, map_lookup_filter.
  destruct (assets d !! k) as [c|]; simpl; [|by case_decide]. case_guard; case_decide; done.
Qed.

(** Undo is dead.  In every state that requests and other users can
    reach, no session holds [deleted_records] (no page stores what it deletes),
    so [undo_delete.php] only ever answers that there is nothing to undo, and
    changes nothing. *)
Lemma undo_never_restores rq s d :
  reachable s d ->
  undo_page rq s d = (if connect d then Echo "⚠️ No records to undo." else Die, s, d).
Proof. intros Hr. apply undo_nothing, (reachable_deleted s d Hr). Qed.

(** C10 : logging in.  When the user query gives an answer, [login.php] admits
    exactly the user whose name has the collation key of the trimmed name sent,
    when the password sent is the stored one byte for byte, and stores the name
    as in the table; otherwise it tells which of the two was wrong.  The tables
    stay as they are. *)
Theorem login_correct rq s d :
  method rq = "POST" -> connect d = true -> prepare select_user_sql d = true ->
  let username := trim (text (post rq !! "username")) in
  succeeded (execute select_user_sql [VStr username] d).1 = true ->
  exists d', same_tables d d' /\ login_page rq s d =
    match users d !! coll_key username with
    | Some x => if decide (post rq !! "password" = Some (user_password x))
                then (Redirect "dashboard.php", set_user (user_name x) s, d')
                else (LoginForm username "" "❌ Incorrect password.", s, d')
    | None => (LoginForm username "❌ Username not found." "", s, d')
    end.
Proof.
  intros Hm Hc Hp username Ho. unfold login_page. rewrite Hc, Hm, Hp. simpl bool_decide. fold username. cbv zeta.
  pose proof (select_user_law d username) as Hlaw.
  destruct (execute select_user_sql [VStr username] d) as [[e|rs|n] d1]; [done| |done].
  destruct Hlaw as [Hs ->]. exists d1. split; [done|]. simpl.
  destruct (users d !! coll_key username) as [x|]; [|done]. simpl.
  case_bool_decide; case_decide; done.
Qed.

(** [index.php] logs nobody in.  Even when it redirects to the dashboard
    it has set the session key [username], while every page asks for [user]:
    a browser that was not logged in is sent back to the login page.  And it
    only redirects when the stored password equals the SHA-256 text of the one
    sent, while [login.php] compares the stored password with the one sent. *)
Lemma index_never_authenticates rq s d r s' d' :
  index_page rq s d = (r, s', d') ->
  s_user s' = s_user s /\
  (s_user s = None -> forall rq' d2, dashboard_page rq' s' d2 = Some (Redirect "login.php", s', d2)) /\
  (plain (text (post rq !! "username")) = true -> plain (sha256 (text (post rq !! "password"))) = true ->
   r = Redirect "dashboard.php" ->
   exists x, users d !! coll_key (text (post rq !! "username")) = Some x /\
     coll_key (user_password x) = coll_key (sha256 (text (post rq !! "password")))).
Proof.
  intros Hs. unfold index_page in Hs.
  assert (s_user s' = s_user s) as Hu.
  { destruct (connect d); [|by simplify_eq]. destruct (bool_decide _); [|by simplify_eq].
    destruct (query _ d) as [o d1]. by destruct (Nat.eqb _ _); simplify_eq. }
  split; [done|]. split.
  - intros Hn rq' d2. unfold dashboard_page, guarded. by rewrite Hu, Hn.
  - intros H1' H2' ->. destruct (connect d); [|by simplify_eq].
    destruct (bool_decide _); [|by simplify_eq].
    pose proof (index_law d _ _ H1' H2') as Hlaw.
    destruct (query _ d) as [[e|rs|n] d1]; simpl in Hs; [done| |done].
    destruct Hlaw as [_ ->]. destruct (users d !! _) as [x|]; [|done].
    case_decide as E; [|done]. eauto.
Qed.

(** The export.  For a logged-in user whose listing succeeds, the table
    has one row per asset, in ascending order of the ids, each row the id
    followed by its stored columns.  The heading has one name less than the
    schema has columns: the column [memory] has no heading, and from it on every
    heading stands over the column before its own. *)
Lemma export_lists_assets rq u s d :
  s_user s = Some u -> connect d = true -> succeeded (query list_assets_sql d).1 = true ->
  exists kvs d', export_page rq s d =
      Some (ExportTable export_header ((fun kv => VInt kv.1 :: kv.2) <$> kvs), s, d') /\
    same_tables d d' /\ kvs ≡ₚ map_to_list (assets d) /\ StronglySorted Z.lt kvs.*1 /\
    S (length export_header) = length asset_columns /\
    export_header !! 9%nat = Some "Office Version" /\ asset_columns !! 9%nat = Some "memory".
Proof.
  intros Hu Hc Ho. unfold export_page, guarded. rewrite Hu, Hc.
  pose proof (list_assets_law d) as Hlaw. destruct (query list_assets_sql d) as [[e|rs|n] d1]; [done| |done].
  destruct Hlaw as (Hs & kvs & Hp & Hsort & ->). exists kvs, d1.
  do 3 (split; [done|]). split; [|done].
  assert (NoDup kvs.*1) as Hn by (rewrite Hp; apply NoDup_fst_map_to_list).
  clear Hp. induction Hsort as [|kv kvs Hsort IH Hle]; [constructor|].
  rewrite fmap_cons in Hn |- *. apply NoDup_cons in Hn as [Hni Hn]. constructor; [by apply IH|].
  apply Forall_fmap. apply Forall_forall. intros kv' Hkv'. simpl.
  rewrite Forall_forall in Hle. specialize (Hle kv' Hkv').
  assert (kv.1 <> kv'.1); [|lia]. intros E. apply Hni. rewrite E. by apply list_elem_of_fmap_2.
Qed.

End properties.

(** ** The in-memory database at work *)

Module Example.

Import Mem.

#[local] Instance ex_strtod : Strtod := {
  float_long _ := 0; float_cmp _ _ := None; float_eq _ _ := false }.
#[local] Instance ex_json : Json := { json_decode := decode_list }.
#[local] Instance ex_sha256 : Sha256 := { sha256 s := "sha256:" +:+ s }.

Definition row (tag : string) : list sqlval := VStr tag :: replicate 19 (VStr "x") ++ [VInt 1].

Definition db : Mem.mem :=
  Mem.Mk {[ 35 := row "A"; 36 := row "B" ]} 37
    [Log 93 "admin" "Edited asset ID 35" 10; Log 94 "admin" "Edited asset ID 36" 11]
    [User 2 "admin" "1234"; User 3 "admin1" "sha256:allan"] 100.

Definition logged_in : session := set_user "admin" empty_session.

Definition form (fields : list (string * string)) : request := Request "POST" (list_to_map fields).

Definition full_form : list (string * string) := (fun f => (f, "2025-06-30")) <$> required_fields.

Lemma access_control_witness :
  serve PDelete (form [("selected_ids", encode_list ["35"])]) empty_session db =
    Some (Echo "unauthorized", empty_session, db) /\
  (forall u, s_user empty_session = Some u -> False).
Proof.
  split; [vm_compute; reflexivity|]. intros u Hu.
  destruct (access_control PDelete (form [("selected_ids", encode_list ["35"])]) empty_session db
              (Echo "unauthorized") empty_session db) as [_ Hx]; [reflexivity|vm_compute; reflexivity|].
  destruct (Hx u Hu) as [Hp _]. discriminate Hp.
Defined.

Lemma new_entry_correct_witness :
  new_entry_page (form [("asset_tag", "0")]) logged_in db =
    Some (NewEntryForm ("⚠️ Missing fields: " +:+ implode ", " required_fields), logged_in, db) /\
  exists r d', new_entry_page (form full_form) logged_in db = Some (r, logged_in, d').
Proof.
  split; [vm_compute; reflexivity|].
  destruct (new_entry_correct (form full_form) "admin" logged_in db) as [_ Hx];
    [reflexivity..|].
  rewrite bool_decide_true in Hx by (apply (bool_decide_unpack _); vm_compute; exact I).
  destruct (execute insert_asset_sql _ db) as [[e|rs|n] d1];
    [destruct Hx as [Hx _]|destruct Hx as (k & cells & ts & d2 & _ & Hx & _)..]; eauto.
Defined.

Lemma history_bounded_witness :
  log_id <$> history (log_action_then_trim edit_trim_sql "admin" "Edited asset ID 36" db) = [93; 94; 95] /\
  let '(_, d1) := query (insert_log_sql "admin" "Edited asset ID 36") db in
  let '(_, d2) := query edit_trim_sql d1 in
  log_action_then_trim edit_trim_sql "admin" "Edited asset ID 36" db = d2.
Proof.
  split; [vm_compute; reflexivity|].
  pose proof (history_bounded edit_trim_sql "admin" "Edited asset ID 36" db edit_trim_in eq_refl eq_refl) as Hx.
  destruct (query (insert_log_sql "admin" "Edited asset ID 36") db) as [o1 d1].
  destruct (query edit_trim_sql d1) as [o2 d2]. refine (proj1 (Hx _)).
  apply (bool_decide_unpack _). vm_compute. exact I.
Defined.

Definition batch_session : session := set_queue (Some [JStr "35"; JStr "36"]) logged_in.
Definition update_form (id : string) : request := form (("id", id) :: ("update", "") :: full_form).

Lemma edit_queue_walk_witness :
  exists rs s' d', serve_all [update_form "35"; update_form "36"] batch_session db = Some (rs, s', d') /\
    s_edit_queue s' = Some [] /\ s_user s' = Some "admin".
Proof.
  apply (edit_queue_walk batch_session db "admin" ["35"; "36"] []); try reflexivity.
  constructor; [|constructor; [|constructor]].
  - exists "35", 35. split; [|done]. split; [reflexivity|]. split; [by eexists|reflexivity].
  - exists "36", 36. split; [|done]. split; [reflexivity|]. split; [by eexists|reflexivity].
Defined.

Lemma delete_selected_correct_witness :
  exists d', delete_page (form [("selected_ids", encode_list ["35"; "99"])]) logged_in db =
    Some (Echo "success", logged_in, d') /\ assets d' !! 35 = None.
Proof.
  pose proof (delete_selected_correct (form [("selected_ids", encode_list ["35"; "99"])]) "admin" logged_in db
    [JStr "35"; JStr "99"]) as Hx. do 6 (specialize (Hx ltac:(first [reflexivity|discriminate]))).
  specialize (Hx ltac:(by repeat constructor) eq_refl eq_refl).
  destruct (execute _ _ db) as [o d1] eqn:E. destruct (succeeded o) eqn:Eo.
  - destruct Hx as (d' & Hx & _ & Ha & _). exists d'. split; [exact Hx|]. rewrite Ha. reflexivity.
  - exfalso. vm_compute in E. injection E as <- _. discriminate Eo.
Defined.

Lemma login_correct_witness :
  exists d', same_tables db d' /\
    login_page (form [("username", " admin "); ("password", "1234")]) empty_session db =
      (Redirect "dashboard.php", set_user "admin" empty_session, d').
Proof.
  pose proof (login_correct (form [("username", " admin "); ("password", "1234")]) empty_session db) as Hx.
  destruct Hx as (d' & Hd & Hx); [reflexivity..|]. exists d'. split; [exact Hd|].
  etransitivity; [exact Hx|]. vm_compute. reflexivity.
Defined.

End Example.
