(* ===== verification/MyBit.v ===== *)
(** Bit functions: [mariadb/include/mysql/server/private/my_bit.h].

    Every function is translated with the casts of the source written out as
    wraps of [Prelude].  The specifications are the logarithm, the number of
    set bits, the next power of two and the lowest set bit of the argument. *)

From S2P Require Import Prelude.

(** ** Definitions *)

Definition my_bit_log2_hex_digit (value : Z) : Z :=
  if nz (Z.land value 0x0C) then (if nz (Z.land value 0x08) then 3 else 2)
  else (if nz (Z.land value 0x02) then 1 else 0).

Definition my_bit_log2_uint8 (value : Z) : Z :=
  if nz (Z.land value 0xF0) then my_bit_log2_hex_digit (u8 (Z.shiftr value 4)) + 4
  else my_bit_log2_hex_digit value.

Definition my_bit_log2_uint16 (value : Z) : Z :=
  if nz (Z.land value 0xFF00) then my_bit_log2_uint8 (u8 (Z.shiftr value 8)) + 8
  else my_bit_log2_uint8 (u8 value).

Definition my_bit_log2_uint32 (value : Z) : Z :=
  if nz (Z.land value 0xFFFF0000) then my_bit_log2_uint16 (u16 (Z.shiftr value 16)) + 16
  else my_bit_log2_uint16 (u16 value).

Definition my_bit_log2_uint64 (value : Z) : Z :=
  if nz (Z.land value 0xFFFFFFFF00000000)
  then my_bit_log2_uint32 (u32 (Z.shiftr value 32)) + 32
  else my_bit_log2_uint32 (u32 value).

(** [size_t] is 64 bits wide in the shipped (x64) build; the assertion of the
    source, [sizeof(size_t) <= sizeof(ulonglong)], holds there. *)
Definition my_bit_log2_size_t (value : Z) : Z := my_bit_log2_uint64 (u64 value).

Definition my_count_bits_uint32 (v : Z) : Z :=
  let v := u32 (v - Z.land (Z.shiftr v 1) 0x55555555) in
  let v := u32 (Z.land v 0x33333333 + Z.land (Z.shiftr v 2) 0x33333333) in
  Z.shiftr (u32 (Z.land (u32 (v + Z.shiftr v 4)) 0x0F0F0F0F * 0x1010101)) 24.

Definition my_count_bits (x : Z) : Z :=
  my_count_bits_uint32 (u32 x) + my_count_bits_uint32 (u32 (Z.shiftr x 32)).

Definition my_round_up_to_next_power (v : Z) : Z :=
  let v := u32 (v - 1) in
  let v := Z.lor v (Z.shiftr v 1) in
  let v := Z.lor v (Z.shiftr v 2) in
  let v := Z.lor v (Z.shiftr v 4) in
  let v := Z.lor v (Z.shiftr v 8) in
  let v := Z.lor v (Z.shiftr v 16) in
  u32 (v + 1).

Definition my_clear_highest_bit (v : Z) : Z :=
  let w := Z.shiftr v 1 in
  let w := Z.lor w (Z.shiftr w 1) in
  let w := Z.lor w (Z.shiftr w 2) in
  let w := Z.lor w (Z.shiftr w 4) in
  let w := Z.lor w (Z.shiftr w 8) in
  let w := Z.lor w (Z.shiftr w 16) in
  Z.land v w.

(** [_my_bits_reverse_table] is defined in a file that is not part of the
    repository: it is an argument. *)
Definition my_reverse_bits (_my_bits_reverse_table : Z -> Z) (key : Z) : Z :=
  Z.lor (Z.lor (Z.lor
    (shl 32 (_my_bits_reverse_table (Z.land key 255)) 24)
    (shl 32 (_my_bits_reverse_table (Z.land (Z.shiftr key 8) 255)) 16))
    (shl 32 (_my_bits_reverse_table (Z.land (Z.shiftr key 16) 255)) 8))
    (_my_bits_reverse_table (Z.shiftr key 24)).

(** A shift by a negative amount or by the width is undefined: [None]. *)
Definition my_set_bits (n : Z) : option Z :=
  if bool_decide (0 <= n - 1 < 64)
  then Some (Z.lor (shl 64 (u64 (shl 64 1 (n - 1) - 1)) 1) 1)
  else None.

Definition last_byte_mask (bits : Z) : Z :=
  let used := Z.land (u32 (bits - 1)) 7 in
  u8 (u32 (shl 32 2 used - 1)).

Definition my_bits_in_bytes (n : Z) : Z := u32 (n + 7) / 8.

Definition last_bit : list Z := [32; 0; 1; 0; 2; 0; 1; 0; 3; 0; 1; 0; 2; 0; 1; 0].

(** The loop of the generic case; [fuel] bounds its iterations. *)
Fixpoint first_bit_loop (fuel : nat) (n shift : Z) : option Z :=
  match fuel with
  | O => None
  | S fuel =>
      match last_bit !! Z.to_nat (Z.land (Z.shiftr n shift) 0xF) with
      | None => None
      | Some bit => if bit =? 32 then first_bit_loop fuel n (u32 (shift + 4))
                    else Some (u32 (shift + bit))
      end
  end.

(** Sixteen nibbles of a 64-bit value: sixteen iterations are enough. *)
Definition my_find_first_bit (n : Z) : option Z :=
  if n =? 0 then Some 64 else first_bit_loop 16 n 0.

(** ** Specifications *)

(** The number of set bits among the lowest [n]. *)
Fixpoint popcount (n : nat) (v : Z) : Z :=
  match n with
  | O => 0
  | S n => Z.b2z (Z.testbit v (Z.of_nat n)) + popcount n v
  end.

(** [b] is the lowest set bit of [v]. *)
Definition is_first_bit (v b : Z) : Prop :=
  0 <= b /\ Z.testbit v b = true /\ forall i, 0 <= i < b -> Z.testbit v i = false.

(** ** Logarithm *)

Lemma hex_digit_log2 v : 0 <= v < 16 -> my_bit_log2_hex_digit v = Z.log2 v.
Proof.
  intros Hv. apply Z.eqb_eq.
  exact (all_below_spec 16 (fun v => my_bit_log2_hex_digit v =? Z.log2 v) v eq_refl Hv).
Qed.

Lemma uint8_log2 v : 0 <= v < 256 -> my_bit_log2_uint8 v = Z.log2 v.
Proof.
  intros Hv. apply Z.eqb_eq.
  refine (all_below_spec 256 (fun v => my_bit_log2_uint8 v =? Z.log2 v) v _ Hv).
  by vm_compute.
Qed.

(** The test of the upper half of a word, and what it says. *)
Lemma upper_half_test k v :
  0 <= k -> in_u (k + k) v ->
  nz (Z.land v (Z.shiftl (Z.ones k) k)) = negb (Z.shiftr v k =? 0).
Proof.
  intros Hk Hv. unfold nz. f_equal.
  replace (Z.land v (Z.shiftl (Z.ones k) k)) with (Z.shiftl (Z.shiftr v k) k).
  - rewrite Z.shiftl_mul_pow2 by done.
    assert (0 < 2 ^ k) by (apply Z.pow_pos_nonneg; lia).
    destruct (Z.eqb_spec (Z.shiftr v k) 0) as [->|Hn]; [done|].
    apply Z.eqb_neq. nia.
  - apply Z.bits_inj'. intros i Hi. rewrite Z.shiftl_spec, Z.land_spec, Z.shiftl_spec by lia.
    destruct (Z.ltb_spec i k).
    + rewrite !(Z.testbit_neg_r _ (i - k)) by lia. btauto.
    + rewrite Z.shiftr_spec by lia. replace (i - k + k) with i by lia.
      destruct (Z.ltb_spec (i - k) k).
      * rewrite Z.ones_spec_low by lia. btauto.
      * rewrite Z.ones_spec_high by lia. rewrite (testbit_above (k + k)) by (done || lia).
        btauto.
Qed.

(** One level of the recursion: from the logarithm of half words to whole words. *)
Lemma log2_halves k (f : Z -> Z) v :
  0 < k -> (forall x, in_u k x -> f x = Z.log2 x) -> in_u (k + k) v ->
  (if nz (Z.land v (Z.shiftl (Z.ones k) k)) then f (wrapU k (Z.shiftr v k)) + k
   else f (wrapU k v)) = Z.log2 v.
Proof.
  intros Hk Hf Hv. rewrite upper_half_test by (done || lia).
  pose proof (shiftr_in_u_sub (k + k) v k ltac:(lia) Hv) as Hr.
  replace (k + k - k) with k in Hr by lia.
  destruct (Z.eqb_spec (Z.shiftr v k) 0) as [E|E]; simpl.
  - assert (in_u k v) as Hv'.
    { rewrite Z.shiftr_div_pow2 in E by lia. apply Z.div_small_iff in E; [|].
      - destruct Hv. unfold in_u. lia.
      - assert (0 < 2 ^ k) by (apply Z.pow_pos_nonneg; lia). lia. }
    rewrite wrapU_small by done. by apply Hf.
  - rewrite wrapU_small by done. rewrite Hf by done.
    assert (0 < v).
    { destruct (Z.eq_dec v 0) as [->|]; [by rewrite Z.shiftr_0_l in E|]. destruct Hv. lia. }
    rewrite Z.log2_shiftr by done.
    assert (k <= Z.log2 v); [|lia].
    destruct (Z.lt_ge_cases (Z.log2 v) k); [|done]. exfalso. apply E.
    by apply Z.shiftr_eq_0; [apply Hv|].
Qed.

Lemma uint16_log2 v : in_u 16 v -> my_bit_log2_uint16 v = Z.log2 v.
Proof. apply (log2_halves 8 my_bit_log2_uint8); [lia|]. intros x Hx. by apply uint8_log2. Qed.

Lemma uint32_log2 v : in_u 32 v -> my_bit_log2_uint32 v = Z.log2 v.
Proof. apply (log2_halves 16 my_bit_log2_uint16); [lia|]. apply uint16_log2. Qed.

(** The logarithm of any 64-bit word is the position of its highest bit, and 0
    for the word 0. *)
Lemma uint64_log2 v : in_u 64 v -> my_bit_log2_uint64 v = Z.log2 v.
Proof. apply (log2_halves 32 my_bit_log2_uint32); [lia|]. apply uint32_log2. Qed.

(** [my_bit_log2_uint64] (and [my_bit_log2_size_t]) returns the position of
    the highest set bit of a nonzero word, hence inverts [1 << X], and 0 for 0. *)
Theorem my_bit_log2_uint64_correct v :
  in_u 64 v ->
  (v <> 0 -> 2 ^ my_bit_log2_uint64 v <= v < 2 ^ (my_bit_log2_uint64 v + 1)) /\
  (v = 0 -> my_bit_log2_uint64 v = 0) /\
  my_bit_log2_size_t v = my_bit_log2_uint64 v /\
  (forall x, 0 <= x < 64 -> v = 2 ^ x -> my_bit_log2_uint64 v = x).
Proof.
  intros Hv. unfold my_bit_log2_size_t. rewrite (wrapU_small 64) by done.
  rewrite uint64_log2 by done. repeat split.
  - apply Z.log2_spec. destruct Hv. lia.
  - rewrite Z.add_1_r. apply Z.log2_spec. destruct Hv. lia.
  - intros ->. done.
  - intros x Hx ->. apply Z.log2_pow2. lia.
Qed.

Lemma my_bit_log2_uint64_correct_witness :
  my_bit_log2_uint64 0x4000000000 = 38 /\
  2 ^ my_bit_log2_uint64 0x5000000001 <= 0x5000000001.
Proof.
  split; [reflexivity|].
  apply (my_bit_log2_uint64_correct 0x5000000001); [split; [lia|reflexivity]|lia].
Defined.

(** ** Counting bits *)

Definition nib_step (n : Z) : Z := n - Z.land (Z.shiftr n 1) 5.
Definition nib_step2 (n : Z) : Z := Z.land n 3 + Z.land (Z.shiftr n 2) 3.

Lemma nib_step_range n : in_u 4 n -> 0 <= nib_step n < 16.
Proof.
  intros Hn.
  assert ((0 <=? nib_step n) && (nib_step n <? 16) = true); [|lia].
  exact (all_below_spec 16 (fun n => (0 <=? nib_step n) && (nib_step n <? 16)) n eq_refl Hn).
Qed.

Lemma nib_popcount n : in_u 4 n -> nib_step2 (nib_step n) = popcount 4 n.
Proof.
  intros Hn. apply Z.eqb_eq.
  exact (all_below_spec 16 (fun n => nib_step2 (nib_step n) =? popcount 4 n) n eq_refl Hn).
Qed.

Lemma popcount_range n v : 0 <= popcount n v <= Z.of_nat n.
Proof.
  induction n as [|n IH]; cbn [popcount]; [lia|].
  destruct (Z.testbit v (Z.of_nat n)); simpl Z.b2z; lia.
Qed.

(** Two words that agree on their low bits have the same count. *)
Lemma popcount_ext n v w :
  (forall i, 0 <= i < Z.of_nat n -> Z.testbit v i = Z.testbit w i) ->
  popcount n v = popcount n w.
Proof.
  induction n as [|n IH]; intros Hvw; cbn [popcount]; [done|].
  rewrite Hvw by lia. rewrite IH; [done|]. intros. apply Hvw. lia.
Qed.

(** The count of a word is the sum of the counts of its two parts. *)
Lemma popcount_split a b v :
  popcount (a + b) v = popcount a v + popcount b (Z.shiftr v (Z.of_nat a)).
Proof.
  induction b as [|b IH]; cbn [popcount]; [rewrite Nat.add_0_r; lia|].
  rewrite Nat.add_succ_r. cbn [popcount]. rewrite IH.
  rewrite Z.shiftr_spec by lia.
  replace (Z.of_nat (a + b)) with (Z.of_nat b + Z.of_nat a) by lia. lia.
Qed.

Lemma popcount_digits n v :
  popcount (4 * n) v = foldr (fun d s => popcount 4 d + s) 0 (to_digits 4 n v).
Proof.
  revert v. induction n as [|n IH]; intros v; [done|].
  replace (4 * S n)%nat with (4 + 4 * n)%nat by lia.
  rewrite popcount_split, IH. cbn [to_digits foldr]. f_equal.
  apply popcount_ext. intros i Hi. rewrite testbit_wrapU by lia.
  by destruct (Z.ltb_spec i 4); [|lia].
Qed.

(** Eight nibbles, written out. *)
Lemma digits8 (P : list Z -> Prop) v :
  (forall a b c d e f g h, to_digits 4 8 v = [a; b; c; d; e; f; g; h] ->
    Forall (in_u 4) [a; b; c; d; e; f; g; h] -> P [a; b; c; d; e; f; g; h]) ->
  P (to_digits 4 8 v).
Proof.
  intros HP. pose proof (to_digits_range 4 8 v ltac:(lia)) as Hr.
  cbn [to_digits] in *. by apply HP.
Qed.

Lemma from_digits_sum (ds : list Z) :
  Forall (in_u 4) ds ->
  from_digits 4 ds = foldr (fun d s => d + 16 * s) 0 ds.
Proof.
  induction 1 as [|d ds Hd Hds IH]; [done|].
  rewrite from_digits_cons by (lia || done). cbn [foldr]. by rewrite IH.
Qed.

Lemma mask_digits :
  0x55555555 = from_digits 4 (replicate 8 5) /\ 0x33333333 = from_digits 4 (replicate 8 3) /\
  0x0F0F0F0F = from_digits 4 [15; 0; 15; 0; 15; 0; 15; 0].
Proof. by vm_compute. Qed.

Ltac pose_nib_steps :=
  repeat match goal with H : in_u 4 ?x |- _ =>
    lazymatch goal with H' : 0 <= nib_step x < 16 |- _ => fail
    | _ => pose proof (nib_step_range x H) end end.

(** A list of nibbles, each one a given, a stepped or a masked nibble. *)
Ltac forall_nib :=
  repeat (apply Forall_cons; split);
  try apply Forall_nil; auto;
  repeat match goal with
  | H : 0 <= nib_step ?x < 16 |- in_u 4 (nib_step ?x) => exact H
  | H : 0 <= nib_step ?x < 16 |- 0 <= nib_step ?x => exact (proj1 H)
  | H : in_u 4 ?x |- 0 <= ?x => exact (proj1 H)
  | |- 0 <= Z.shiftr _ _ => apply Z.shiftr_nonneg
  | |- in_u 4 (Z.land _ _) => apply land_in_u_r; [lia|split; [lia|reflexivity]|]
  end.

Lemma land_3_range a : 0 <= Z.land a 3 <= 3.
Proof.
  assert (Z.land a 3 = a mod 4) as -> by (apply (Z.land_ones a 2); lia).
  pose proof (Z.mod_pos_bound a 4). lia.
Qed.

(** The first two steps work nibble by nibble. *)
Lemma count_steps ds :
  length ds = 8%nat -> Forall (in_u 4) ds ->
  let v1 := u32 (from_digits 4 ds - Z.land (Z.shiftr (from_digits 4 ds) 1) 0x55555555) in
  u32 (Z.land v1 0x33333333 + Z.land (Z.shiftr v1 2) 0x33333333) =
  foldr (fun d s => d + 16 * s) 0 (map (popcount 4) ds).
Proof.
  intros Hl Hds v1.
  destruct mask_digits as (M5 & M3 & _).
  assert (v1 = from_digits 4 (map nib_step ds)) as ->.
  { unfold v1. rewrite M5.
    rewrite shiftr_land_from_digits; [|lia|done| |by rewrite Hl].
    2: { apply Forall_replicate. split; [lia|reflexivity]. }
    do 9 (destruct ds as [|? ds]; try done).
    repeat match goal with H : Forall _ (_ :: _) |- _ => apply Forall_cons in H as [? H] end.
    pose_nib_steps.
    rewrite !from_digits_sum; cbn [map replicate zip_with foldr].
    all: try by forall_nib.
    unfold nib_step in *. rewrite wrapU_small; [ring|]. split; lia. }
  rewrite M3.
  assert (Forall (in_u 4) (map nib_step ds)) as Hn.
  { apply Forall_fmap. eapply Forall_impl; [done|]. apply nib_step_range. }
  assert (length (map nib_step ds) = 8%nat) as Hl' by (by rewrite length_map).
  rewrite shiftr_land_from_digits; [|lia|done| |by rewrite Hl'].
  2: { apply Forall_replicate. split; [lia|reflexivity]. }
  rewrite land_from_digits; [|lia|done| |by rewrite Hl'].
  2: { apply Forall_replicate. split; [lia|reflexivity]. }
  do 9 (destruct ds as [|? ds]; try done).
  repeat match goal with H : Forall _ (_ :: _) |- _ => apply Forall_cons in H as [? H] end.
  pose_nib_steps.
  rewrite !from_digits_sum; cbn [map replicate zip_with foldr].
  all: try by forall_nib.
  repeat match goal with H : in_u 4 ?x |- context [popcount 4 ?x] =>
    rewrite <- (nib_popcount x H) end.
  unfold nib_step2. rewrite wrapU_small; [ring|].
  repeat match goal with |- context [Z.land ?a 3] =>
    lazymatch goal with H : 0 <= Z.land a 3 <= 3 |- _ => fail
    | _ => pose proof (land_3_range a) end end.
  split; lia.
Qed.

(** The last step adds the nibble counts by one multiplication. *)
Lemma count_sum ps :
  length ps = 8%nat -> Forall (fun p => 0 <= p <= 4) ps ->
  let v := foldr (fun d s => d + 16 * s) 0 ps in
  Z.shiftr (u32 (Z.land (u32 (v + Z.shiftr v 4)) 0x0F0F0F0F * 0x1010101)) 24 =
  foldr Z.add 0 ps.
Proof.
  intros Hl Hps v.
  do 9 (destruct ps as [|? ps]; try done).
  repeat match goal with H : Forall _ (_ :: _) |- _ => apply Forall_cons in H as [? H] end.
  subst v. cbn [foldr].
  rename z into a, z0 into b, z1 into c, z2 into d, z3 into e, z4 into f, z5 into g, z6 into h.
  set (ds := [a + b; b + c; c + d; d + e; e + f; f + g; g + h; h]).
  match goal with |- context [u32 (?v + Z.shiftr ?v 4)] =>
    assert (u32 (v + Z.shiftr v 4) = from_digits 4 ds) as -> end.
  { rewrite from_digits_sum by (repeat constructor; lia).
    rewrite Z.shiftr_div_pow2 by lia. change (2 ^ 4) with 16. unfold ds. cbn [foldr].
    rewrite wrapU_small; [|split; change (2 ^ 32) with 4294967296]; Z.div_mod_to_equations; lia. }
  destruct mask_digits as (_ & _ & ->).
  rewrite land_from_digits; [|lia|repeat constructor; lia|forall_nib|done].
  2-9: by split; [lia|reflexivity].
  unfold ds. cbn [zip_with]. rewrite !Z.land_0_r.
  repeat match goal with |- context [Z.land ?x 15] =>
    replace (Z.land x 15) with x by
      (symmetry; etransitivity; [apply (Z.land_ones x 4); lia|apply Z.mod_small; lia]) end.
  rewrite from_digits_sum by (repeat constructor; lia). cbn [foldr].
  (* the bytes of the sums are s, t, u and w *)
  set (s := a + b). set (t := c + d). set (u := e + f). set (w := g + h).
  assert (0 <= s <= 8 /\ 0 <= t <= 8 /\ 0 <= u <= 8 /\ 0 <= w <= 8) as R by lia.
  replace (a + (b + (c + (d + (e + (f + (g + (h + 0)))))))) with (s + t + u + w) by lia.
  clearbody s t u w.
  rewrite Z.shiftr_div_pow2 by lia. unfold wrapU.
  change (2 ^ 32) with 4294967296. change (2 ^ 24) with 16777216.
  symmetry. apply Z.div_unique with (s + 256 * (s + t) + 65536 * (s + t + u)); [lia|].
  symmetry. apply Z.mod_unique with (t + u + w + 256 * (u + w) + 65536 * w); lia.
Qed.

Lemma count_uint32 v : in_u 32 v -> my_count_bits_uint32 v = popcount 32 v.
Proof.
  intros Hv. unfold my_count_bits_uint32.
  assert (v = from_digits 4 (to_digits 4 8 v)) as E.
  { rewrite from_to_digits by lia. symmetry. by apply wrapU_small. }
  pose proof (count_steps (to_digits 4 8 v) eq_refl (to_digits_range 4 8 v ltac:(lia))) as H1.
  cbv zeta in H1. rewrite <- E in H1. cbv zeta. rewrite H1.
  rewrite (count_sum (map (popcount 4) (to_digits 4 8 v))).
  - change 32%nat with (4 * 8)%nat. rewrite popcount_digits. reflexivity.
  - reflexivity.
  - apply Forall_fmap, Forall_true. intros x. apply popcount_range.
Qed.

Lemma my_count_bits_popcount x : in_u 64 x -> my_count_bits x = popcount 64 x.
Proof.
  intros Hx. unfold my_count_bits.
  rewrite !count_uint32 by (apply wrapU_range; lia).
  change 64%nat with (32 + 32)%nat. rewrite popcount_split.
  rewrite (popcount_ext 32 (u32 x) x), (popcount_ext 32 (u32 (Z.shiftr x 32)) (Z.shiftr x 32)).
  - pose proof (popcount_range 32 x). pose proof (popcount_range 32 (Z.shiftr x 32)).
    change (Z.of_nat 32) with 32 in *. lia.
  - intros i Hi. rewrite testbit_wrapU by lia. by destruct (Z.ltb_spec i 32); [|lia].
  - intros i Hi. rewrite testbit_wrapU by lia. by destruct (Z.ltb_spec i 32); [|lia].
Qed.

(** [my_count_bits] returns the number of one bits of the 64-bit word. *)
Lemma my_count_bits_correct x :
  in_u 64 x -> my_count_bits x = popcount 64 x /\ 0 <= my_count_bits x <= 64.
Proof.
  intros Hx. rewrite my_count_bits_popcount by done. pose proof (popcount_range 64 x). lia.
Qed.

(** ** Smearing: rounding up to a power of two, clearing the highest bit *)

(** [u] has bit [i] iff one of the bits [i, i+k) of [v] is set. *)
Definition smeared (k v u : Z) : Prop :=
  forall i, 0 <= i ->
    Z.testbit u i = true <-> exists j, 0 <= j < k /\ Z.testbit v (i + j) = true.

Lemma smeared_1 v : smeared 1 v v.
Proof.
  intros i Hi. split.
  - intros H. exists 0. rewrite Z.add_0_r. split; [lia|done].
  - intros (j & Hj & H). replace j with 0 in H by lia. by rewrite Z.add_0_r in H.
Qed.

Lemma smeared_double k v u :
  0 < k -> smeared k v u -> smeared (k + k) v (Z.lor u (Z.shiftr u k)).
Proof.
  intros Hk Hs i Hi. rewrite Z.lor_spec, Z.shiftr_spec, orb_true_iff by done.
  rewrite (Hs i), (Hs (i + k)) by lia. split.
  - intros [(j & Hj & H)|(j & Hj & H)]; [exists j|exists (k + j)].
    + split; [lia|done].
    + split; [lia|]. by rewrite Z.add_assoc.
  - intros (j & Hj & H). destruct (Z.lt_ge_cases j k); [left; exists j; split; [lia|done]|].
    right. exists (j - k). split; [lia|]. by replace (i + k + (j - k)) with (i + j) by lia.
Qed.

Definition smear (v : Z) : Z :=
  let v := Z.lor v (Z.shiftr v 1) in
  let v := Z.lor v (Z.shiftr v 2) in
  let v := Z.lor v (Z.shiftr v 4) in
  let v := Z.lor v (Z.shiftr v 8) in
  Z.lor v (Z.shiftr v 16).

Lemma smear_smeared v : smeared 32 v (smear v).
Proof.
  unfold smear. cbv zeta.
  apply (smeared_double 16 v); [lia|]. apply (smeared_double 8 v); [lia|].
  apply (smeared_double 4 v); [lia|]. apply (smeared_double 2 v); [lia|].
  apply (smeared_double 1 v); [lia|]. apply smeared_1.
Qed.

(** Smearing fills every bit up to the highest one. *)
Lemma smear_ones v : in_u 32 v -> v <> 0 -> smear v = 2 ^ (Z.log2 v + 1) - 1.
Proof.
  intros Hv Hnz. pose proof (Z.log2_nonneg v).
  assert (0 < v) as Hpos by (destruct Hv; lia).
  assert (Z.log2 v < 32) as Hlog by (apply Z.log2_lt_pow2; [done|apply Hv]).
  apply Z.bits_inj'. intros i Hi. rewrite testbit_ones by lia.
  apply eq_bool_prop_intro. rewrite !Is_true_true, (smear_smeared v i) by done.
  rewrite Z.ltb_lt. split.
  - intros (j & Hj & Hb). destruct (Z.lt_ge_cases (Z.log2 v) (i + j)); [|lia].
    by rewrite Z.bits_above_log2 in Hb by lia.
  - intros Hle. exists (Z.log2 v - i). split; [lia|].
    replace (i + (Z.log2 v - i)) with (Z.log2 v) by lia. by apply Z.bit_log2.
Qed.

Lemma smear_0 : smear 0 = 0.
Proof. done. Qed.

(** [my_round_up_to_next_power v] is the least power of two that is not
    below [v], for every [v] up to 2^31; 0 gives 0, and above 2^31, where no
    32-bit power of two exists, the sum wraps to 0. *)
Lemma my_round_up_to_next_power_correct v :
  in_u 32 v ->
  (1 <= v <= 2 ^ 31 -> my_round_up_to_next_power v = 2 ^ Z.log2_up v /\
     v <= my_round_up_to_next_power v < 2 * v) /\
  (v = 0 \/ 2 ^ 31 < v -> my_round_up_to_next_power v = 0).
Proof.
  intros Hv. unfold my_round_up_to_next_power.
  fold (smear (u32 (v - 1))). split.
  - intros [H1 H2].
    assert (u32 (smear (u32 (v - 1)) + 1) = 2 ^ Z.log2_up v) as ->.
    { destruct (Z.eq_dec v 1) as [->|]; [done|].
      rewrite (wrapU_small 32 (v - 1)) by (unfold in_u; lia).
      rewrite smear_ones by (unfold in_u; lia).
      rewrite Z.log2_up_eqn by lia. replace (Z.pred v) with (v - 1) by lia.
      rewrite Z.sub_add, wrapU_small; [by rewrite Z.add_1_r|].
      assert (Z.log2 (v - 1) < 31) by (apply Z.log2_lt_pow2; lia).
      split; [apply Z.pow_nonneg; lia|]. apply Z.pow_lt_mono_r; lia. }
    split; [done|]. destruct (Z.eq_dec v 1) as [->|]; [done|].
    pose proof (Z.log2_up_spec v ltac:(lia)) as [Hl Hu]. split; [done|].
    assert (2 ^ Z.log2_up v = 2 * 2 ^ Z.pred (Z.log2_up v)); [|lia].
    rewrite <- Z.pow_succ_r; [f_equal; lia|].
    pose proof (Z.log2_up_pos v ltac:(lia)). lia.
  - intros [->|Hgt]; [by vm_compute|].
    rewrite (wrapU_small 32 (v - 1)) by (unfold in_u in *; lia).
    rewrite smear_ones by (unfold in_u in *; lia).
    assert (Z.log2 (v - 1) = 31) as ->; [|done].
    apply Z.log2_unique'  with (v - 1 - 2 ^ 31); unfold in_u in *; lia.
Qed.

(** Clearing the highest bit subtracts it. *)
Lemma clear_highest_bit v :
  in_u 32 v -> v <> 0 -> my_clear_highest_bit v = v - 2 ^ Z.log2 v.
Proof.
  intros Hv Hnz. unfold my_clear_highest_bit. fold (smear (Z.shiftr v 1)).
  pose proof (Z.log2_nonneg v). assert (0 < v) as Hpos by (destruct Hv; lia).
  pose proof (Z.log2_spec v Hpos) as [Hlo Hhi].
  assert (smear (Z.shiftr v 1) = 2 ^ Z.log2 v - 1) as ->.
  { rewrite Z.shiftr_div_pow2 by lia. change (2 ^ 1) with 2.
    destruct (Z.eq_dec v 1) as [->|]; [done|].
    rewrite smear_ones.
    - rewrite <- Z.div2_div, Z.div2_spec, Z.log2_shiftr by done.
      f_equal. f_equal. pose proof (Z.log2_pos v ltac:(lia)). lia.
    - destruct Hv. split; [Z.div_mod_to_equations; lia|].
      change (2 ^ 32) with 4294967296 in *. Z.div_mod_to_equations; lia.
    - Z.div_mod_to_equations; lia. }
  replace (2 ^ Z.log2 v - 1) with (Z.ones (Z.log2 v)) by (rewrite Z.ones_equiv; lia).
  rewrite Z.land_ones by done. rewrite Z.pow_succ_r in Hhi by done.
  symmetry. apply Z.mod_unique with 1; lia.
Qed.

(** [my_clear_highest_bit] subtracts the highest power of two: the result
    is below it, and the two recombine to the argument. *)
Theorem my_clear_highest_bit_correct v :
  in_u 32 v ->
  (v = 0 -> my_clear_highest_bit v = 0) /\
  (v <> 0 -> v = 2 ^ Z.log2 v + my_clear_highest_bit v /\
             0 <= my_clear_highest_bit v < 2 ^ Z.log2 v).
Proof.
  intros Hv. split; [intros ->; done|]. intros Hnz.
  rewrite clear_highest_bit by done.
  assert (0 < v) as Hpos by (destruct Hv; lia).
  pose proof (Z.log2_spec v Hpos) as [Hlo Hhi].
  rewrite Z.pow_succ_r in Hhi by apply Z.log2_nonneg. lia.
Qed.

Lemma my_clear_highest_bit_correct_witness :
  my_clear_highest_bit 13 = 5 /\ 13 = 2 ^ Z.log2 13 + my_clear_highest_bit 13.
Proof.
  split; [reflexivity|].
  apply (my_clear_highest_bit_correct 13); [split; [lia|reflexivity]|lia].
Defined.

(** ** Reversal *)

(** What the name of the table promises: entry [b] is [b] with its eight bits
    in the reverse order. *)
Definition reverse_table_ok (t : Z -> Z) : Prop :=
  forall b, 0 <= b < 256 -> in_u 8 (t b) /\
    forall i, 0 <= i < 8 -> Z.testbit (t b) i = Z.testbit b (7 - i).

Lemma reverse_bits_spec t key :
  reverse_table_ok t -> in_u 32 key ->
  in_u 32 (my_reverse_bits t key) /\
  forall i, 0 <= i < 32 -> Z.testbit (my_reverse_bits t key) i = Z.testbit key (31 - i).
Proof.
  intros Ht Hk.
  assert (forall n, 0 <= n -> 0 <= Z.land (Z.shiftr key n) 255 < 256) as Hr.
  { intros n Hn. assert (Z.land (Z.shiftr key n) 255 = Z.shiftr key n mod 256) as ->
      by (apply (Z.land_ones _ 8); lia). by apply Z.mod_pos_bound. }
  pose proof (Hr 0 ltac:(lia)) as H0. rewrite Z.shiftr_0_r in H0.
  pose proof (shiftr_in_u_sub 32 key 24 ltac:(lia) Hk) as H24.
  assert (forall n i, 0 <= n -> 0 <= i < 8 ->
            Z.testbit (Z.land (Z.shiftr key n) 255) i = Z.testbit key (i + n)) as Hb.
  { intros n i Hn Hi. change 255 with (2 ^ 8 - 1). rewrite Z.land_spec, Z.shiftr_spec, testbit_ones by lia.
    destruct (Z.ltb_spec i 8); [btauto|lia]. }
  pose proof (Hb 0) as Hb0. rewrite Z.shiftr_0_r in Hb0.
  destruct (Ht _ H0) as [R0 B0], (Ht _ (Hr 8 ltac:(lia))) as [R1 B1],
    (Ht _ (Hr 16 ltac:(lia))) as [R2 B2], (Ht _ H24) as [R3 B3].
  unfold my_reverse_bits. split.
  { repeat apply lor_in_u; try lia; try (apply wrapU_range; lia).
    by apply (in_u_mono 8). }
  intros i Hi. rewrite !Z.lor_spec. unfold shl. rewrite !testbit_wrapU, !Z.shiftl_spec by lia.
  assert ((i <? 32) = true) as -> by (apply Z.ltb_lt; lia). rewrite !andb_true_l.
  assert (0 <= i < 8 \/ 8 <= i < 16 \/ 16 <= i < 24 \/ 24 <= i < 32) as [C|[C|[C|C]]] by lia.
  - rewrite !(Z.testbit_neg_r _ (i - _)) by lia. rewrite B3 by lia.
    rewrite Z.shiftr_spec by lia. simpl. f_equal. lia.
  - rewrite (Z.testbit_neg_r _ (i - 24)), (Z.testbit_neg_r _ (i - 16)) by lia.
    rewrite (testbit_above 8 (t (Z.shiftr key 24))) by (done || lia).
    rewrite B2, Hb by lia. rewrite !orb_false_r. simpl. f_equal. lia.
  - rewrite (Z.testbit_neg_r _ (i - 24)) by lia.
    rewrite (testbit_above 8 (t (Z.shiftr key 24))) by (done || lia).
    rewrite (testbit_above 8 _ (i - 8)) by (done || lia).
    rewrite B1, Hb by lia. rewrite !orb_false_r. simpl. f_equal. lia.
  - rewrite (testbit_above 8 (t (Z.shiftr key 24))) by (done || lia).
    rewrite (testbit_above 8 _ (i - 8)), (testbit_above 8 _ (i - 16)) by (done || lia).
    rewrite B0, Hb0 by lia. rewrite !orb_false_r. f_equal. lia.
Qed.

(** Given a byte reversal table, [my_reverse_bits] reverses the 32 bits of
    its argument, and is its own inverse. *)
Theorem my_reverse_bits_correct t key :
  reverse_table_ok t -> in_u 32 key ->
  (forall i, 0 <= i < 32 -> Z.testbit (my_reverse_bits t key) i = Z.testbit key (31 - i)) /\
  my_reverse_bits t (my_reverse_bits t key) = key.
Proof.
  intros Ht Hk. destruct (reverse_bits_spec t key Ht Hk) as [Hr Hb]. split; [done|].
  destruct (reverse_bits_spec t _ Ht Hr) as [Hr' Hb'].
  apply Z.bits_inj'. intros i Hi. destruct (Z.lt_ge_cases i 32).
  - rewrite Hb' by lia. rewrite Hb by lia. f_equal. lia.
  - by rewrite !(testbit_above 32) by (done || lia).
Qed.

(** A concrete byte reversal. *)
Definition reverse_byte (b : Z) : Z :=
  foldr (fun i a => Z.b2z (Z.testbit b (7 - i)) + 2 * a) 0 [0; 1; 2; 3; 4; 5; 6; 7].

Lemma reverse_byte_ok : reverse_table_ok reverse_byte.
Proof.
  intros b Hb.
  assert ((0 <=? reverse_byte b) && (reverse_byte b <? 256) &&
          all_below 8 (fun i => eqb (Z.testbit (reverse_byte b) i) (Z.testbit b (7 - i))) = true) as H.
  { refine (all_below_spec 256 (fun b => (0 <=? reverse_byte b) && (reverse_byte b <? 256) &&
      all_below 8 (fun i => eqb (Z.testbit (reverse_byte b) i) (Z.testbit b (7 - i)))) b _ Hb).
    by vm_compute. }
  rewrite !andb_true_iff in H. destruct H as [[H1 H2] H3].
  split; [split; [lia|change (2 ^ 8) with 256; lia]|].
  intros i Hi. apply eqb_prop. exact (all_below_spec 8 _ i H3 Hi).
Qed.

Lemma my_reverse_bits_correct_witness :
  my_reverse_bits reverse_byte 0x0000000D = 0xB0000000 /\
  my_reverse_bits reverse_byte (my_reverse_bits reverse_byte 0x0000000D) = 0x0000000D.
Proof.
  split; [reflexivity|].
  apply (my_reverse_bits_correct reverse_byte 0x0000000D reverse_byte_ok).
  split; [lia|reflexivity].
Defined.

(** ** Masks and the lowest bit *)

(** [my_set_bits n] is the overflow-safe [2^n - 1], 64 included. *)
Lemma my_set_bits_spec n :
  my_set_bits n = if bool_decide (1 <= n <= 64) then Some (2 ^ n - 1) else None.
Proof.
  unfold my_set_bits. do 2 case_bool_decide; try lia; [|done]. f_equal.
  unfold shl. rewrite Z.shiftl_1_l.
  assert (1 <= 2 ^ (n - 1) < 2 ^ 64) as Hp.
  { split; [pose proof (Z.pow_pos_nonneg 2 (n - 1)); lia|apply Z.pow_lt_mono_r; lia]. }
  rewrite (wrapU_small 64 (2 ^ (n - 1))) by (unfold in_u; lia).
  rewrite (wrapU_small 64 (2 ^ (n - 1) - 1)) by (unfold in_u; lia).
  apply Z.bits_inj'. intros i Hi. rewrite Z.lor_spec, testbit_wrapU, Z.shiftl_spec by lia.
  rewrite testbit_1, (testbit_ones n) by lia. destruct (Z.eqb_spec i 0) as [->|].
  - destruct (Z.ltb_spec 0 n); [btauto|lia].
  - rewrite testbit_ones by lia. bits_split; done.
Qed.

Lemma last_byte_mask_spec bits :
  1 <= bits < 2 ^ 32 -> last_byte_mask bits = 2 ^ ((bits - 1) mod 8 + 1) - 1.
Proof.
  intros Hb. unfold last_byte_mask. rewrite (wrapU_small 32 (bits - 1)) by (unfold in_u; lia).
  assert (Z.land (bits - 1) 7 = (bits - 1) mod 8) as -> by (apply (Z.land_ones _ 3); lia).
  pose proof (Z.mod_pos_bound (bits - 1) 8 ltac:(lia)) as Hm.
  set (u := (bits - 1) mod 8) in *. clearbody u. z_cases u 8; done.
Qed.

(** The table entry of a nibble is its lowest bit, or 32 for 0. *)
Definition nib_ok (n : Z) : bool :=
  match last_bit !! Z.to_nat n with
  | Some 32 => n =? 0
  | Some b => (0 <=? b) && (b <? 4) && Z.testbit n b &&
              all_below (Z.to_nat b) (fun i => negb (Z.testbit n i))
  | None => false
  end.

Lemma last_bit_spec n :
  0 <= n < 16 ->
  (n = 0 /\ last_bit !! Z.to_nat n = Some 32) \/
  exists b, last_bit !! Z.to_nat n = Some b /\ b <> 32 /\ 0 <= b < 4 /\ is_first_bit n b.
Proof.
  intros Hn. pose proof (all_below_spec 16 nib_ok n eq_refl Hn) as H. unfold nib_ok in H.
  destruct (last_bit !! Z.to_nat n) as [b|]; [|done].
  destruct (Z.eq_dec b 32) as [->|Hb]; [left; split; [lia|done]|].
  right. exists b. split; [done|]. split; [done|].
  assert ((0 <=? b) && (b <? 4) && Z.testbit n b &&
              all_below (Z.to_nat b) (fun i => negb (Z.testbit n i)) = true) as H'.
  { repeat (case_match; try done). }
  rewrite !andb_true_iff in H'. destruct H' as [[[H1 H2] H3] H4].
  split; [lia|]. split; [lia|]. split; [done|]. intros i Hi. apply negb_true_iff.
  apply (all_below_spec _ (fun i => negb (Z.testbit n i)) i H4). lia.
Qed.

Lemma first_bit_loop_spec fuel n shift :
  in_u 64 n -> n <> 0 -> 0 <= shift -> shift + 4 * Z.of_nat fuel = 64 ->
  (forall i, 0 <= i < shift -> Z.testbit n i = false) ->
  exists b, first_bit_loop fuel n shift = Some b /\ is_first_bit n b /\ b < 64.
Proof.
  revert shift. induction fuel as [|fuel IH]; intros shift Hn Hnz Hs Hf Hlow.
  { exfalso. destruct (Z_neq_0_bit n ltac:(apply Hn) Hnz) as (i & Hi & Hb).
    destruct (Z.lt_ge_cases i 64); [rewrite Hlow in Hb by lia; done|].
    by rewrite (testbit_above 64) in Hb by done. }
  cbn [first_bit_loop].
  assert (forall i, 0 <= i < 4 -> Z.testbit (Z.land (Z.shiftr n shift) 0xF) i = Z.testbit n (i + shift)) as Hb.
  { intros i Hi. change 0xF with (2 ^ 4 - 1). rewrite Z.land_spec, Z.shiftr_spec, testbit_ones by lia.
    destruct (Z.ltb_spec i 4); [btauto|lia]. }
  assert (0 <= Z.land (Z.shiftr n shift) 0xF < 16) as Hr.
  { assert (Z.land (Z.shiftr n shift) 0xF = Z.shiftr n shift mod 16) as ->
      by (apply (Z.land_ones _ 4); lia). by apply Z.mod_pos_bound. }
  destruct (last_bit_spec _ Hr) as [[E ->]|(b & -> & Hb32 & Hb4 & Hb0 & Hb1 & Hb2)].
  - rewrite Z.eqb_refl. rewrite wrapU_small by (split; lia). apply IH; try done; [lia..|].
    intros i Hi. destruct (Z.lt_ge_cases i shift); [apply Hlow; lia|].
    replace i with (i - shift + shift) by lia. rewrite <- Hb by lia. rewrite E.
    apply Z.testbit_0_l.
  - destruct (Z.eqb_spec b 32); [done|]. rewrite wrapU_small by (split; lia).
    exists (shift + b). split; [done|]. split; [|lia]. split; [lia|].
    rewrite Hb in Hb1 by lia. split; [by rewrite Z.add_comm|].
    intros i Hi. destruct (Z.lt_ge_cases i shift); [apply Hlow; lia|].
    replace i with (i - shift + shift) by lia. rewrite <- Hb by lia. apply Hb2. lia.
Qed.

Lemma find_first_bit_nz n :
  in_u 64 n -> n <> 0 ->
  exists b, my_find_first_bit n = Some b /\ is_first_bit n b /\ b < 64.
Proof.
  intros Hn Hnz. unfold my_find_first_bit. destruct (Z.eqb_spec n 0); [done|].
  apply first_bit_loop_spec; try done; lia.
Qed.

Lemma is_first_bit_unique n b c : is_first_bit n b -> is_first_bit n c -> b = c.
Proof.
  intros (B0 & B1 & B2) (C0 & C1 & C2). destruct (Z.lt_trichotomy b c) as [H|[H|H]]; [|done|].
  - rewrite C2 in B1 by lia. done.
  - rewrite B2 in C1 by lia. done.
Qed.

(** The scan of [my_find_first_bit] always ends, with the lowest set bit of
    a nonzero word and 64 for 0. *)
Lemma my_find_first_bit_correct n :
  in_u 64 n ->
  (n = 0 /\ my_find_first_bit n = Some 64) \/
  (exists b, my_find_first_bit n = Some b /\ b < 64 /\ is_first_bit n b /\
             forall c, is_first_bit n c -> c = b).
Proof.
  intros Hn. destruct (Z.eq_dec n 0) as [->|Hnz]; [by left|right].
  destruct (find_first_bit_nz n Hn Hnz) as (b & -> & Hb & Hlt).
  exists b. repeat split; try done; try apply Hb.
  intros c Hc. by eapply is_first_bit_unique.
Qed.

(** The bit functions compute what they are named after.  [my_count_bits]
    counts the one bits of the word; [my_find_first_bit] always ends its scan, with
    the only lowest set bit of a nonzero word and 64 for 0; and
    [my_round_up_to_next_power] gives the least power of two that is not below its
    argument up to 2^31, 0 for 0, and 0 above 2^31, where no 32-bit power of two
    exists and the sum wraps. *)
Lemma my_bit_functions x v :
  in_u 64 x -> in_u 32 v ->
  (my_count_bits x = popcount 64 x /\ 0 <= my_count_bits x <= 64) /\
  ((x = 0 /\ my_find_first_bit x = Some 64) \/
   (exists b, my_find_first_bit x = Some b /\ b < 64 /\ is_first_bit x b /\
              forall c, is_first_bit x c -> c = b)) /\
  (1 <= v <= 2 ^ 31 -> my_round_up_to_next_power v = 2 ^ Z.log2_up v /\
     v <= my_round_up_to_next_power v < 2 * v) /\
  (v = 0 \/ 2 ^ 31 < v -> my_round_up_to_next_power v = 0).
Proof.
  intros Hx Hv. split; [by apply my_count_bits_correct|]. split; [by apply my_find_first_bit_correct|].
  by apply my_round_up_to_next_power_correct.
Qed.
