(* ===== verification/Bitmap.v ===== *)
(** Fixed-width bitmaps: [mariadb/include/mysql/server/private/sql_bitmap.h].

    [Bitmap<width>] is a section over [width]; its state is the array [buffer]
    of 64-bit words.  A shift by 64 or more, an access outside the array and,
    when [debug] is set, a failed [DBUG_ASSERT] give [None].  The abstract view
    of a bitmap is its membership function [bm_mem]. *)

From S2P Require Import Prelude MyBit.

(** ** Table_map_iterator *)

Definition BITMAP_END : Z := 64.

(** [next_bit]: the lowest remaining bit, which is removed, or [BITMAP_END]. *)
Definition next_bit (bmp : Z) : option (Z * Z) :=
  if bmp =? 0 then Some (BITMAP_END, bmp)
  else match my_find_first_bit bmp with
       | None => None
       | Some bit => Some (bit, Z.land bmp (bnot 64 (shl 64 1 bit)))
       end.

Section Bitmap.

Context (debug : bool) (width : Z).

Definition dassert (P : bool) : option unit :=
  if debug && negb P then None else Some tt.

Definition BITS_PER_ELEMENT : Z := 64.
Definition ARRAY_ELEMENTS : nat := Z.to_nat ((width + BITS_PER_ELEMENT - 1) / BITS_PER_ELEMENT).
Definition ALL_BITS_SET : Z := 2 ^ 64 - 1.

(** [1ULL << n]: undefined unless [0 <= n < 64]. *)
Definition one_shl (n : Z) : option Z :=
  if bool_decide (0 <= n < 64) then Some (shl 64 1 n) else None.

Definition bit_index (n : Z) : option nat :=
  dassert (n <? width) ≫= fun _ =>
  Some (if Nat.eqb ARRAY_ELEMENTS 1 then 0%nat else Z.to_nat (n / BITS_PER_ELEMENT)).

Definition bit_mask (n : Z) : option Z :=
  dassert (n <? width) ≫= fun _ =>
  if Nat.eqb ARRAY_ELEMENTS 1 then one_shl n else one_shl (n mod BITS_PER_ELEMENT).

Definition last_element_mask (n : Z) : option Z :=
  dassert (negb (n mod BITS_PER_ELEMENT =? 0)) ≫= fun _ =>
  m ← bit_mask n; Some (u64 (m - 1)).

(** [buffer[i] = f(buffer[i])], undefined outside the array. *)
Definition upd (i : nat) (f : Z -> Z) (buffer : list Z) : option (list Z) :=
  x ← buffer !! i; Some (<[i := f x]> buffer).

Definition set_bit (n : Z) (buffer : list Z) : option (list Z) :=
  i ← bit_index n; m ← bit_mask n; upd i (fun x => Z.lor x m) buffer.

Definition clear_bit (n : Z) (buffer : list Z) : option (list Z) :=
  i ← bit_index n; m ← bit_mask n; upd i (fun x => Z.land x (bnot 64 m)) buffer.

Definition is_set (n : Z) (buffer : list Z) : option bool :=
  i ← bit_index n; m ← bit_mask n; x ← buffer !! i; Some (nz (Z.land x m)).

(** [for (i = lo; i < hi; i++) buffer[i] = v] for [hi] at most the array's size. *)
Definition fill (lo hi : nat) (v : Z) (buffer : list Z) : list Z :=
  imap (fun i x => if Nat.leb lo i && Nat.ltb i hi then v else x) buffer.

(** [for (i = lo; i < hi; i++) if (!p(buffer[i])) return false] *)
Definition check (lo hi : nat) (p : Z -> bool) (buffer : list Z) : bool :=
  forallb id (imap (fun i x => if Nat.leb lo i && Nat.ltb i hi then p x else true) buffer).

Definition set_prefix (prefix_size : Z) (buffer : list Z) : option (list Z) :=
  let prefix_size := if width <? prefix_size then width else prefix_size in
  let idx := Z.to_nat (prefix_size / BITS_PER_ELEMENT) in
  let buffer := fill 0 idx ALL_BITS_SET buffer in
  if nz (prefix_size mod BITS_PER_ELEMENT) then
    m ← last_element_mask prefix_size;
    buffer ← upd idx (fun _ => m) buffer;
    Some (fill (S idx) ARRAY_ELEMENTS 0 buffer)
  else Some (fill idx ARRAY_ELEMENTS 0 buffer).

(** [init] and the constructor from a prefix. *)
Definition bm_init (prefix : Z) (buffer : list Z) : option (list Z) := set_prefix prefix buffer.

Definition is_prefix (prefix_size : Z) (buffer : list Z) : option bool :=
  dassert (prefix_size <=? width) ≫= fun _ =>
  let idx := Z.to_nat (prefix_size / BITS_PER_ELEMENT) in
  if check 0 idx (fun x => x =? ALL_BITS_SET) buffer then
    if nz (prefix_size mod BITS_PER_ELEMENT) then
      m ← last_element_mask prefix_size;
      x ← buffer !! idx;
      if x =? m then Some (check (S idx) ARRAY_ELEMENTS (fun x => x =? 0) buffer)
      else Some false
    else Some (check idx ARRAY_ELEMENTS (fun x => x =? 0) buffer)
  else Some false.

Definition set_all (buffer : list Z) : option (list Z) :=
  if nz (width mod BITS_PER_ELEMENT) then set_prefix width buffer
  else if Nat.ltb 1 ARRAY_ELEMENTS then Some (fill 0 ARRAY_ELEMENTS ALL_BITS_SET buffer)
  else upd 0 (fun _ => ALL_BITS_SET) buffer.

Definition clear_all (buffer : list Z) : option (list Z) :=
  if Nat.ltb 1 ARRAY_ELEMENTS then Some (fill 0 ARRAY_ELEMENTS 0 buffer)
  else upd 0 (fun _ => 0) buffer.

Definition intersect (buffer map2 : list Z) : list Z := zip_with Z.land buffer map2.
Definition subtract (buffer map2 : list Z) : list Z :=
  zip_with (fun x y => Z.land x (bnot 64 y)) buffer map2.
Definition merge (buffer map2 : list Z) : list Z := zip_with Z.lor buffer map2.

Definition intersect_and_pad (map2buff : Z) (pad_with_ones : bool) (buffer : list Z)
  : option (list Z) :=
  buffer ← upd 0 (fun x => Z.land x map2buff) buffer;
  let buffer := fill 1 ARRAY_ELEMENTS (if pad_with_ones then ALL_BITS_SET else 0) buffer in
  if Nat.ltb 1 ARRAY_ELEMENTS && nz (width mod BITS_PER_ELEMENT) && pad_with_ones then
    m ← last_element_mask width; upd (ARRAY_ELEMENTS - 1) (fun _ => m) buffer
  else Some buffer.

Definition intersect_word (map2buff : Z) (buffer : list Z) : option (list Z) :=
  intersect_and_pad map2buff false buffer.
Definition intersect_extended (map2buff : Z) (buffer : list Z) : option (list Z) :=
  intersect_and_pad map2buff (nz (Z.land map2buff (shl 64 1 63))) buffer.

Definition is_clear_all (buffer : list Z) : bool := check 0 ARRAY_ELEMENTS (fun x => negb (nz x)) buffer.
Definition is_subset (buffer map2 : list Z) : bool :=
  forallb id (zip_with (fun x y => negb (nz (Z.land x (bnot 64 y)))) buffer map2).
Definition is_overlapping (buffer map2 : list Z) : bool :=
  existsb id (zip_with (fun x y => nz (Z.land x y)) buffer map2).
Definition bm_eq (buffer map2 : list Z) : bool :=
  if Nat.ltb 1 ARRAY_ELEMENTS then bool_decide (buffer = map2)
  else bool_decide (buffer !! 0%nat = map2 !! 0%nat).
Definition bm_ne (buffer map2 : list Z) : bool := negb (bm_eq buffer map2).

Definition to_ulonglong (buffer : list Z) : option Z := buffer !! 0%nat.
Definition bits_set (buffer : list Z) : Z :=
  foldl (fun res x => u32 (res + my_count_bits x)) 0 buffer.

(** *** The iterator *)

Record iterator := Iterator { offset : Z; tmi : Z }.

Definition iter_init (map : list Z) : option iterator :=
  x ← map !! 0%nat; Some (Iterator 0 x).

(** [operator++]: each turn of the loop moves to the next element, so
    [ARRAY_ELEMENTS] turns are enough. *)
Fixpoint iter_next (fuel : nat) (map : list Z) (it : iterator) : option (Z * iterator) :=
  match fuel with
  | O => None
  | S fuel =>
      match next_bit (tmi it) with
      | None => None
      | Some (nextbit, bmp) =>
          if negb (nextbit =? BITMAP_END) then Some (offset it + nextbit, Iterator (offset it) bmp)
          else if width <=? offset it + BITS_PER_ELEMENT then Some (width, Iterator (offset it) bmp)
          else
            let off := offset it + BITS_PER_ELEMENT in
            match map !! Z.to_nat (off / BITS_PER_ELEMENT) with
            | None => None
            | Some x => iter_next fuel map (Iterator off x)
            end
      end
  end.

(** The caller's loop [while ((n = it++) != Bitmap::Iterator::BITMAP_END)]. *)
Fixpoint iter_collect (fuel : nat) (map : list Z) (it : iterator) : option (list Z) :=
  match fuel with
  | O => None
  | S fuel =>
      match iter_next ARRAY_ELEMENTS map it with
      | None => None
      | Some (n, it') => if n =? width then Some []
                         else ns ← iter_collect fuel map it'; Some (n :: ns)
      end
  end.

Definition iter_all (map : list Z) : option (list Z) :=
  it ← iter_init map; iter_collect (S (Z.to_nat width)) map it.

(** *** Printing *)

(** The sixteen digits of an element: [shift] starts at 60 and grows. *)
Fixpoint print_digits (j : nat) (num shift : Z) : option (list Z) :=
  match j with
  | O => Some []
  | S j =>
      if bool_decide (0 <= shift < 64) then
        ds ← print_digits j num (u32 (shift + 4)); Some (Z.land (Z.shiftr num shift) 0xf :: ds)
      else None
  end.

(** The index of the last non-zero element, or 0. *)
Fixpoint last_nonzero (last : nat) (buffer : list Z) : nat :=
  match last with
  | O => O
  | S k => match buffer !! last with
           | Some x => if nz x then last else last_nonzero k buffer
           | None => last_nonzero k buffer
           end
  end.

(** [print]: the digits written at [i * 16] for each element below the last,
    then [longlong2str(buffer[last], buf, 16)], which starts at [buf] again. *)
Definition print (longlong2str : Z -> list Z) (buffer : list Z) : option (list Z) :=
  let last := last_nonzero (ARRAY_ELEMENTS - 1) buffer in
  ds ← foldr (fun x acc => d ← print_digits 16 x (BITS_PER_ELEMENT - 4);
                           ds ← acc; Some (d ++ ds)) (Some []) (take last buffer);
  x ← buffer !! last;
  let s := longlong2str x in
  Some (s ++ drop (length s) ds).

End Bitmap.

(** ** Representation of a set *)

Definition bm_mem (b : list Z) (n : Z) : bool :=
  match b !! Z.to_nat (n / 64) with
  | Some e => Z.testbit e (n mod 64)
  | None => false
  end.

(** [rep width b s]: the array [b] of a [Bitmap<width>] stands for the set [s];
    in particular no bit at or above [width] is set. *)
Record rep (width : Z) (b : list Z) (s : gset Z) : Prop := {
  rep_len : length b = ARRAY_ELEMENTS width;
  rep_words : Forall (in_u 64) b;
  rep_dom : forall n, n ∈ s -> 0 <= n < width;
  rep_mem : forall n, 0 <= n -> bm_mem b n = bool_decide (n ∈ s);
}.

(** The first [k] positions. *)
Definition upto (k : Z) : gset Z := list_to_set (seqZ 0 k).

(** Every array without bits at or above [width] stands for a set; checked by
    evaluation. *)
Definition members (width : Z) (b : list Z) : gset Z :=
  list_to_set (filter (fun n => bm_mem b n = true) (seqZ 0 width)).

Definition rep_check (width : Z) (b : list Z) : bool :=
  bool_decide (length b = ARRAY_ELEMENTS width) && bool_decide (Forall (in_u 64) b) &&
  forallb (fun n => negb (bm_mem b n)) (seqZ width (64 * Z.of_nat (length b) - width)).

(** The iterator stands at position [p]: its word holds the bits of the
    current element from [p] on. *)
Definition iter_at (b : list Z) (it : iterator) (p : Z) : Prop :=
  exists j x, offset it = 64 * Z.of_nat j /\ b !! j = Some x /\
    offset it <= p <= offset it + 64 /\ in_u 64 (tmi it) /\
    forall k, 0 <= k < 64 -> Z.testbit (tmi it) k = Z.testbit x k && (p <=? offset it + k).

Lemma elem_of_upto n k : n ∈ upto k <-> 0 <= n < k.
Proof. unfold upto. rewrite elem_of_list_to_set, elem_of_seqZ. lia. Qed.

Section rep.

Context (debug : bool) (width : Z).
Hypothesis Hwidth : 0 < width.
Implicit Types (b : list Z) (s : gset Z) (n : Z).

Lemma elements_bounds : 64 * (Z.of_nat (ARRAY_ELEMENTS width) - 1) < width <= 64 * Z.of_nat (ARRAY_ELEMENTS width).
Proof. unfold ARRAY_ELEMENTS, BITS_PER_ELEMENT. rewrite Z2Nat.id; Z.div_mod_to_equations; lia. Qed.

Lemma elements_pos : (0 < ARRAY_ELEMENTS width)%nat.
Proof. pose proof elements_bounds. lia. Qed.

Lemma index_lt n : 0 <= n < width -> (Z.to_nat (n / 64) < ARRAY_ELEMENTS width)%nat.
Proof. pose proof elements_bounds. intros. apply Nat2Z.inj_lt. rewrite Z2Nat.id; Z.div_mod_to_equations; lia. Qed.

Lemma one_shl_spec n : 0 <= n < 64 -> one_shl n = Some (2 ^ n).
Proof.
  intros Hn. unfold one_shl. rewrite bool_decide_true by done.
  unfold shl. rewrite Z.shiftl_1_l, wrapU_small; [done|].
  split; [apply Z.pow_nonneg; lia|apply Z.pow_lt_mono_r; lia].
Qed.

(** A single element: [width] is at most 64. *)
Lemma one_element : Nat.eqb (ARRAY_ELEMENTS width) 1 = true -> width <= 64.
Proof. rewrite Nat.eqb_eq. intros E. pose proof elements_bounds. lia. Qed.

Lemma bit_index_spec n : 0 <= n < width -> bit_index debug width n = Some (Z.to_nat (n / 64)).
Proof.
  intros Hn. unfold bit_index, dassert. rewrite (proj2 (Z.ltb_lt _ _)) by lia.
  rewrite andb_false_r. simpl. destruct (Nat.eqb _ 1) eqn:E; [|done].
  apply one_element in E. f_equal. rewrite Z.div_small by lia. done.
Qed.

Lemma mask_at n :
  0 <= n <= width -> (n = width -> debug = false /\ n mod 64 <> 0) ->
  bit_mask debug width n = Some (2 ^ (n mod 64)).
Proof.
  intros Hn Hd. unfold bit_mask, dassert.
  assert (debug && negb (n <? width) = false) as ->.
  { destruct (Z.ltb_spec n width); [by rewrite andb_false_r|].
    destruct Hd as [-> _]; [lia|done]. }
  simpl. pose proof (Z.mod_pos_bound n 64 ltac:(lia)).
  destruct (Nat.eqb _ 1) eqn:E; [|by apply one_shl_spec].
  apply one_element in E.
  assert (n <> 64). { intros ->. destruct Hd as [_ Hd]; [lia|done]. }
  rewrite (Z.mod_small n 64) by lia. apply one_shl_spec. lia.
Qed.

Lemma bit_mask_spec n : 0 <= n < width -> bit_mask debug width n = Some (2 ^ (n mod 64)).
Proof. intros. apply mask_at; lia. Qed.

Lemma last_mask_spec n :
  0 <= n <= width -> n mod 64 <> 0 -> (n = width -> debug = false) ->
  last_element_mask debug width n = Some (2 ^ (n mod 64) - 1).
Proof.
  intros Hn Hm Hd. unfold last_element_mask, dassert.
  rewrite (proj2 (Z.eqb_neq _ _)) by done. rewrite andb_false_r. simpl.
  rewrite mask_at by (done || auto). simpl. f_equal.
  pose proof (Z.mod_pos_bound n 64 ltac:(lia)).
  pose proof (Z.pow_pos_nonneg 2 (n mod 64) ltac:(lia) ltac:(lia)).
  pose proof (Z.pow_lt_mono_r 2 (n mod 64) 64 ltac:(lia) ltac:(lia) ltac:(lia)).
  apply wrapU_small. split; lia.
Qed.

(** *** Membership after each array operation *)

Lemma mem_split n : 0 <= n -> n = 64 * Z.of_nat (Z.to_nat (n / 64)) + n mod 64.
Proof. intros. rewrite Z2Nat.id; Z.div_mod_to_equations; lia. Qed.

Lemma upd_spec i f b x :
  b !! i = Some x -> upd i f b = Some (<[i := f x]> b).
Proof. unfold upd. by intros ->. Qed.

Lemma mem_insert b i y n :
  (i < length b)%nat ->
  bm_mem (<[i := y]> b) n = if decide (Z.to_nat (n / 64) = i) then Z.testbit y (n mod 64) else bm_mem b n.
Proof.
  intros Hi. unfold bm_mem. case_decide as E.
  - subst i. by rewrite list_lookup_insert_eq.
  - by rewrite list_lookup_insert_ne.
Qed.

Lemma length_fill lo hi v b : length (fill lo hi v b) = length b.
Proof. apply length_imap. Qed.

Lemma fill_words lo hi v b : in_u 64 v -> Forall (in_u 64) b -> Forall (in_u 64) (fill lo hi v b).
Proof.
  intros Hv Hb. apply Forall_lookup_2. intros i x. unfold fill. rewrite list_lookup_imap.
  intros (y & Hy & ->)%fmap_Some. case_match; [done|]. by eapply Forall_lookup_1.
Qed.

Lemma mem_fill lo hi v b n :
  bm_mem (fill lo hi v b) n =
  if Nat.leb lo (Z.to_nat (n / 64)) && Nat.ltb (Z.to_nat (n / 64)) hi &&
     Nat.ltb (Z.to_nat (n / 64)) (length b)
  then Z.testbit v (n mod 64) else bm_mem b n.
Proof.
  unfold bm_mem, fill. rewrite list_lookup_imap.
  destruct (b !! _) as [x|] eqn:E; simpl.
  - apply lookup_lt_Some in E. rewrite (proj2 (Nat.ltb_lt _ _) E), andb_true_r.
    by destruct (_ && _).
  - apply lookup_ge_None in E. assert (Nat.ltb (Z.to_nat (n / 64)) (length b) = false) as ->.
    { apply Nat.ltb_ge. lia. } by rewrite andb_false_r.
Qed.

Lemma check_spec lo hi p b :
  check lo hi p b = true <-> forall i x, (lo <= i < hi)%nat -> b !! i = Some x -> p x = true.
Proof.
  unfold check. rewrite forallb_forall. split.
  - intros H i x Hi Hx. specialize (H (if Nat.leb lo i && Nat.ltb i hi then p x else true)).
    rewrite (proj2 (Nat.leb_le _ _)), (proj2 (Nat.ltb_lt _ _)) in H by lia. apply H.
    apply list_elem_of_In, list_elem_of_lookup. exists i. rewrite list_lookup_imap, Hx. simpl.
    by rewrite (proj2 (Nat.leb_le _ _)), (proj2 (Nat.ltb_lt _ _)) by lia.
  - intros H y Hy. apply list_elem_of_In, list_elem_of_lookup in Hy as [i Hy].
    rewrite list_lookup_imap in Hy. apply fmap_Some in Hy as (x & Hx & ->). unfold id.
    destruct (_ && _) eqn:E; [|done]. apply andb_true_iff in E as [E1 E2].
    apply (H i); [|done]. apply Nat.leb_le in E1. apply Nat.ltb_lt in E2. lia.
Qed.

Lemma ALL_in_u : in_u 64 ALL_BITS_SET.
Proof. split; [by vm_compute|reflexivity]. Qed.
Lemma zero_in_u : in_u 64 0.
Proof. split; [lia|reflexivity]. Qed.
Lemma mask_in_u k : 0 <= k <= 64 -> in_u 64 (2 ^ k - 1).
Proof.
  intros Hk. pose proof (Z.pow_pos_nonneg 2 k ltac:(lia) ltac:(lia)).
  pose proof (Z.pow_le_mono_r 2 k 64 ltac:(lia) ltac:(lia)). split; lia.
Qed.
Lemma pow_in_u k : 0 <= k < 64 -> in_u 64 (2 ^ k).
Proof.
  intros Hk. split; [apply Z.pow_nonneg; lia|apply Z.pow_lt_mono_r; lia].
Qed.
Lemma bnot_in_u x : in_u 64 (bnot 64 x).
Proof. apply wrapU_range. lia. Qed.

(** The element that holds a position of the bitmap. *)
Lemma rep_lookup b s n :
  rep width b s -> 0 <= n < width -> exists x, b !! Z.to_nat (n / 64) = Some x /\ in_u 64 x.
Proof.
  intros Hr Hn. destruct (lookup_lt_is_Some_2 b (Z.to_nat (n / 64))) as [x Hx].
  { rewrite (rep_len _ _ _ Hr). by apply index_lt. }
  exists x. split; [done|]. eapply Forall_lookup_1; [apply (rep_words _ _ _ Hr)|done].
Qed.

(** Positions in the same element are equal when their remainders are. *)
Lemma same_position n m :
  0 <= n -> 0 <= m -> Z.to_nat (m / 64) = Z.to_nat (n / 64) ->
  (n mod 64 =? m mod 64) = (m =? n).
Proof.
  intros Hn Hm E. destruct (Z.eqb_spec m n) as [->|Hne]; [apply Z.eqb_refl|].
  apply Z.eqb_neq. intros E'. apply Hne. rewrite (mem_split n), (mem_split m) by done. lia.
Qed.

Lemma bool_decide_add m n s : bool_decide (m ∈ {[n]} ∪ s) = (m =? n) || bool_decide (m ∈ s).
Proof.
  destruct (Z.eqb_spec m n) as [->|]; [apply bool_decide_true; set_solver|].
  apply bool_decide_ext. set_solver.
Qed.
Lemma bool_decide_del m n s : bool_decide (m ∈ s ∖ {[n]}) = negb (m =? n) && bool_decide (m ∈ s).
Proof.
  destruct (Z.eqb_spec m n) as [->|]; [apply bool_decide_false; set_solver|].
  apply bool_decide_ext. set_solver.
Qed.

Lemma set_bit_rep b s n :
  rep width b s -> 0 <= n < width ->
  exists b', set_bit debug width n b = Some b' /\ rep width b' ({[n]} ∪ s).
Proof.
  intros Hr Hn. destruct (rep_lookup b s n Hr Hn) as (x & Hx & Hxu).
  unfold set_bit. rewrite bit_index_spec, bit_mask_spec by done. simpl.
  rewrite (upd_spec _ _ _ x) by done. eexists. split; [done|].
  pose proof (Z.mod_pos_bound n 64 ltac:(lia)) as Hm.
  pose proof (lookup_lt_Some _ _ _ Hx) as Hlt.
  split.
  - rewrite length_insert. apply Hr.
  - apply Forall_insert; [apply Hr|]. apply lor_in_u; [lia|done|]. by apply pow_in_u.
  - intros m Hm'. apply elem_of_union in Hm' as [->%elem_of_singleton|Hm']; [done|by apply Hr].
  - intros m Hm0. rewrite mem_insert by done.
    rewrite bool_decide_add.
    rewrite <- (rep_mem _ _ _ Hr m Hm0).
    case_decide as E.
    + rewrite Z.lor_spec, testbit_pow2 by lia. unfold bm_mem. rewrite E, Hx, orb_comm. f_equal.
      apply same_position; lia.
    + destruct (Z.eqb_spec m n) as [->|]; done.
Qed.

Lemma clear_bit_rep b s n :
  rep width b s -> 0 <= n < width ->
  exists b', clear_bit debug width n b = Some b' /\ rep width b' (s ∖ {[n]}).
Proof.
  intros Hr Hn. destruct (rep_lookup b s n Hr Hn) as (x & Hx & Hxu).
  unfold clear_bit. rewrite bit_index_spec, bit_mask_spec by done. simpl.
  rewrite (upd_spec _ _ _ x) by done. eexists. split; [done|].
  pose proof (Z.mod_pos_bound n 64 ltac:(lia)) as Hm.
  pose proof (lookup_lt_Some _ _ _ Hx) as Hlt.
  split.
  - rewrite length_insert. apply Hr.
  - apply Forall_insert; [apply Hr|]. apply land_in_u; [lia|done|]. apply bnot_in_u.
  - intros m [Hm' _]%elem_of_difference. by apply Hr.
  - intros m Hm0. rewrite mem_insert by done.
    rewrite bool_decide_del.
    rewrite <- (rep_mem _ _ _ Hr m Hm0). pose proof (Z.mod_pos_bound m 64 ltac:(lia)) as Hmm.
    case_decide as E.
    + rewrite Z.land_spec. unfold bnot. rewrite testbit_wrapU, Z.lnot_spec, testbit_pow2 by lia.
      unfold bm_mem. rewrite E, Hx, andb_comm. destruct (Z.ltb_spec (m mod 64) 64); [|lia].
      f_equal. simpl. f_equal. apply same_position; lia.
    + destruct (Z.eqb_spec m n) as [->|]; done.
Qed.

Lemma is_set_rep b s n :
  rep width b s -> 0 <= n < width -> is_set debug width n b = Some (bool_decide (n ∈ s)).
Proof.
  intros Hr Hn. destruct (rep_lookup b s n Hr Hn) as (x & Hx & Hxu).
  unfold is_set. rewrite bit_index_spec, bit_mask_spec by done. simpl. rewrite Hx. simpl.
  pose proof (Z.mod_pos_bound n 64 ltac:(lia)).
  rewrite nz_land_pow2 by lia. rewrite <- (rep_mem _ _ _ Hr n) by lia. unfold bm_mem.
  by rewrite Hx.
Qed.

(** *** Prefixes *)

(** Build a representation from the length, the words and the members. *)
Lemma rep_intro b s :
  length b = ARRAY_ELEMENTS width -> Forall (in_u 64) b ->
  (forall n, n ∈ s -> 0 <= n < width) ->
  (forall n, 0 <= n < 64 * Z.of_nat (ARRAY_ELEMENTS width) -> bm_mem b n = bool_decide (n ∈ s)) ->
  rep width b s.
Proof.
  intros Hl Hw Hd Hm. split; try done. intros n Hn.
  destruct (Z.lt_ge_cases n (64 * Z.of_nat (ARRAY_ELEMENTS width))); [by apply Hm|].
  rewrite bool_decide_false.
  - unfold bm_mem. rewrite lookup_ge_None_2; [done|]. rewrite Hl.
    apply Nat2Z.inj_le. rewrite Z2Nat.id; Z.div_mod_to_equations; lia.
  - intros Hs. apply Hd in Hs. pose proof elements_bounds. lia.
Qed.

Lemma nat_idx_ltb n k : 0 <= n -> Nat.ltb (Z.to_nat (n / 64)) k = (n <? 64 * Z.of_nat k).
Proof.
  intros Hn. apply eq_bool_prop_intro. rewrite !Is_true_true, Nat.ltb_lt, Z.ltb_lt.
  rewrite Nat2Z.inj_lt, Z2Nat.id; Z.div_mod_to_equations; lia.
Qed.
Lemma nat_idx_leb n k : 0 <= n -> Nat.leb k (Z.to_nat (n / 64)) = (64 * Z.of_nat k <=? n).
Proof.
  intros Hn. apply eq_bool_prop_intro. rewrite !Is_true_true, Nat.leb_le, Z.leb_le.
  rewrite Nat2Z.inj_le, Z2Nat.id; Z.div_mod_to_equations; lia.
Qed.

Lemma bool_decide_upto n k : 0 <= n -> bool_decide (n ∈ upto k) = (n <? k).
Proof.
  intros Hn. apply eq_bool_prop_intro. rewrite !Is_true_true, bool_decide_eq_true, elem_of_upto, Z.ltb_lt.
  lia.
Qed.

Lemma fill_all_upto lo v k b :
  length b = ARRAY_ELEMENTS width -> Forall (in_u 64) b -> 0 <= k <= width -> in_u 64 v ->
  (forall n, 0 <= n < 64 * Z.of_nat lo -> n < 64 * Z.of_nat (ARRAY_ELEMENTS width) ->
             bm_mem b n = (n <? k)) ->
  (forall n, 64 * Z.of_nat lo <= n -> n < 64 * Z.of_nat (ARRAY_ELEMENTS width) ->
             Z.testbit v (n mod 64) = (n <? k)) ->
  rep width (fill lo (ARRAY_ELEMENTS width) v b) (upto k).
Proof.
  intros Hl Hw Hk Hv Hlo Hhi. apply rep_intro.
  - by rewrite length_fill.
  - by apply fill_words.
  - intros n Hn. apply elem_of_upto in Hn. lia.
  - intros n Hn. rewrite mem_fill, Hl, bool_decide_upto by lia.
    rewrite nat_idx_ltb, nat_idx_leb by lia.
    rewrite (proj2 (Z.ltb_lt n _)), !andb_true_r by lia.
    destruct (Z.leb_spec (64 * Z.of_nat lo) n); [apply Hhi; lia|apply Hlo; lia].
Qed.

Lemma all_set_bit k : 0 <= k < 64 -> Z.testbit ALL_BITS_SET k = true.
Proof. intros. unfold ALL_BITS_SET. rewrite testbit_ones by lia. apply Z.ltb_lt. lia. Qed.

(** [set_prefix] keeps the first [prefix_size] positions, whatever the array
    held: with assertions on, a prefix of the whole width needs a width that
    fills its last element. *)
Lemma set_prefix_rep b p :
  length b = ARRAY_ELEMENTS width -> Forall (in_u 64) b -> 0 <= p ->
  (debug = true -> p < width \/ width mod 64 = 0) ->
  exists b', set_prefix debug width p b = Some b' /\ rep width b' (upto (Z.min p width)).
Proof.
  intros Hl Hw Hp Hd. unfold set_prefix.
  assert ((if width <? p then width else p) = Z.min p width) as -> by (bits_split; lia).
  set (q := Z.min p width). assert (0 <= q <= width) as Hq by lia.
  assert (debug = true -> q < width \/ q mod 64 = 0) as Hd'.
  { intros H. destruct (Hd H); [left; lia|].
    destruct (Z.eq_dec q width) as [->|]; [by right|left; lia]. }
  clearbody q. clear Hd Hp. pose proof elements_bounds as He.
  set (i := Z.to_nat (q / BITS_PER_ELEMENT)). unfold BITS_PER_ELEMENT in *.
  assert (Z.of_nat i = q / 64) as Hi by (unfold i; rewrite Z2Nat.id; Z.div_mod_to_equations; lia).
  assert (forall n, 0 <= n < 64 * Z.of_nat (ARRAY_ELEMENTS width) -> n < 64 * Z.of_nat i ->
            bm_mem (fill 0 i ALL_BITS_SET b) n = true) as Hfull.
  { intros n Hn Hni. rewrite mem_fill, nat_idx_ltb, nat_idx_ltb, Hl by lia.
    rewrite (proj2 (Z.ltb_lt n _)) by lia. rewrite (proj2 (Z.ltb_lt n _)) by lia. simpl.
    apply all_set_bit. by apply Z.mod_pos_bound. }
  destruct (nz (q mod 64)) eqn:Em; [apply nz_true in Em|apply nz_false in Em].
  - rewrite last_mask_spec; [|lia|done|].
    2: { intros Hqw. destruct debug; [|done]. exfalso. destruct Hd' as [?|?]; [done|lia..]. }
    simpl. destruct (lookup_lt_is_Some_2 (fill 0 i ALL_BITS_SET b) i) as [x Hx].
    { rewrite length_fill, Hl. apply Nat2Z.inj_lt. rewrite Hi. Z.div_mod_to_equations. lia. }
    rewrite (upd_spec _ _ _ x) by done. simpl. eexists. split; [done|].
    pose proof (Z.mod_pos_bound q 64 ltac:(lia)) as Hqm.
    apply fill_all_upto; try lia.
    + by rewrite length_insert, length_fill.
    + apply Forall_insert; [apply fill_words; [apply ALL_in_u|done]|]. apply mask_in_u. lia.
    + apply zero_in_u.
    + intros n Hn1 Hn2. rewrite mem_insert by (by eapply lookup_lt_Some).
      case_decide as E.
      * rewrite testbit_ones by (try lia; by apply Z.mod_pos_bound). bits_split; try done;
          exfalso; pose proof (mem_split n ltac:(lia)); rewrite E, Hi in *;
          Z.div_mod_to_equations; lia.
      * assert (n < 64 * Z.of_nat i).
        { destruct (Z.lt_ge_cases n (64 * Z.of_nat i)); [done|]. exfalso. apply E.
          apply Nat2Z.inj. rewrite Z2Nat.id; Z.div_mod_to_equations; lia. }
        rewrite Hfull by lia. symmetry. apply Z.ltb_lt. rewrite Hi in *. Z.div_mod_to_equations. lia.
    + intros n Hn1 Hn2. rewrite Z.testbit_0_l. symmetry. apply Z.ltb_ge.
      rewrite Nat2Z.inj_succ, Hi in Hn1. Z.div_mod_to_equations. lia.
  - eexists. split; [done|]. apply fill_all_upto; try lia.
    + by rewrite length_fill.
    + apply fill_words; [apply ALL_in_u|done].
    + apply zero_in_u.
    + intros n Hn1 Hn2. rewrite Hfull by lia. symmetry. apply Z.ltb_lt.
      rewrite Hi in *. Z.div_mod_to_equations. lia.
    + intros n Hn1 Hn2. rewrite Z.testbit_0_l. symmetry. apply Z.ltb_ge.
      rewrite Hi in Hn1. Z.div_mod_to_equations. lia.
Qed.

(** Two arrays for the same set are equal. *)
Lemma rep_inj b1 b2 s : rep width b1 s -> rep width b2 s -> b1 = b2.
Proof.
  intros H1 H2. apply list_eq_same_length with (ARRAY_ELEMENTS width); [apply H2|apply H1|].
  intros i x y Hi Hx Hy. apply Z.bits_inj'. intros k Hk.
  destruct (Z.lt_ge_cases k 64).
  - pose proof (rep_mem _ _ _ H1 (64 * Z.of_nat i + k) ltac:(lia)) as E1.
    rewrite <- (rep_mem _ _ _ H2 (64 * Z.of_nat i + k)) in E1 by lia. unfold bm_mem in E1.
    replace (Z.to_nat ((64 * Z.of_nat i + k) / 64)) with i in E1 by
      (apply Nat2Z.inj; rewrite Z2Nat.id; Z.div_mod_to_equations; lia).
    replace ((64 * Z.of_nat i + k) mod 64) with k in E1 by (Z.div_mod_to_equations; lia).
    by rewrite Hx, Hy in E1.
  - rewrite !(testbit_above 64); try done; try lia.
    + exact (Forall_lookup_1 _ _ _ _ (rep_words _ _ _ H2) Hy).
    + exact (Forall_lookup_1 _ _ _ _ (rep_words _ _ _ H1) Hx).
Qed.

Lemma rep_ext b s s' : rep width b s -> (forall n, n ∈ s <-> n ∈ s') -> rep width b s'.
Proof. intros H E. assert (s = s') as <-; [|done]. apply set_eq. done. Qed.

Lemma set_all_rep b :
  length b = ARRAY_ELEMENTS width -> Forall (in_u 64) b ->
  (debug = true -> width mod 64 = 0) ->
  exists b', set_all debug width b = Some b' /\ rep width b' (upto width).
Proof.
  intros Hl Hw Hd. unfold set_all, BITS_PER_ELEMENT. pose proof elements_bounds as He.
  destruct (nz (width mod 64)) eqn:Em; [|apply nz_false in Em].
  - destruct (set_prefix_rep b width Hl Hw ltac:(lia)) as (b' & ? & ?).
    { intros. right. auto. }
    exists b'. split; [done|]. by rewrite Z.min_id in *.
  - assert (rep width (fill 0 (ARRAY_ELEMENTS width) ALL_BITS_SET b) (upto width)) as Hr.
    { apply fill_all_upto; try done; try lia. intros n Hn1 Hn2.
      rewrite all_set_bit by (by apply Z.mod_pos_bound). symmetry. apply Z.ltb_lt.
      Z.div_mod_to_equations. lia. }
    destruct (Nat.ltb_spec 1 (ARRAY_ELEMENTS width)); [eauto|].
    destruct b as [|x [|y b]]; simpl in Hl; try (pose proof elements_pos; lia).
    exists [ALL_BITS_SET]. split; [done|]. by rewrite <- Hl in Hr.
Qed.

Lemma clear_all_rep b :
  length b = ARRAY_ELEMENTS width -> Forall (in_u 64) b ->
  exists b', clear_all width b = Some b' /\ rep width b' ∅.
Proof.
  intros Hl Hw. unfold clear_all. pose proof elements_bounds as He.
  assert (rep width (fill 0 (ARRAY_ELEMENTS width) 0 b) ∅) as Hr.
  { apply (rep_ext _ (upto 0)).
    - apply fill_all_upto; try done; try lia. intros n Hn1 Hn2.
      rewrite Z.testbit_0_l. symmetry. apply Z.ltb_ge. lia.
    - intros n. rewrite elem_of_upto. split; [lia|set_solver]. }
  destruct (Nat.ltb_spec 1 (ARRAY_ELEMENTS width)); [eauto|].
  destruct b as [|x [|y b]]; simpl in Hl; try (pose proof elements_pos; lia).
  exists [0]. split; [done|]. by rewrite <- Hl in Hr.
Qed.

(** What a word of the array says about the set. *)
Lemma word_mem b s i x w :
  rep width b s -> b !! i = Some x -> in_u 64 w ->
  x = w <-> forall k, 0 <= k < 64 -> bool_decide (64 * Z.of_nat i + k ∈ s) = Z.testbit w k.
Proof.
  intros Hr Hx Hw.
  assert (forall k, 0 <= k < 64 -> bool_decide (64 * Z.of_nat i + k ∈ s) = Z.testbit x k) as Hk.
  { intros k Hk. rewrite <- (rep_mem _ _ _ Hr) by lia. unfold bm_mem.
    replace (Z.to_nat ((64 * Z.of_nat i + k) / 64)) with i by
      (apply Nat2Z.inj; rewrite Z2Nat.id; Z.div_mod_to_equations; lia).
    replace ((64 * Z.of_nat i + k) mod 64) with k by (Z.div_mod_to_equations; lia).
    by rewrite Hx. }
  split; [by intros <-|]. intros H. apply Z.bits_inj'. intros k Hk0.
  destruct (Z.lt_ge_cases k 64); [rewrite <- Hk, <- H by lia; done|].
  rewrite !(testbit_above 64); try done; try lia.
  exact (Forall_lookup_1 _ _ _ _ (rep_words _ _ _ Hr) Hx).
Qed.

(** A range of words all equal to [w]. *)
Lemma check_mem b s lo hi w :
  rep width b s -> in_u 64 w -> (hi <= ARRAY_ELEMENTS width)%nat ->
  check lo hi (fun x => x =? w) b = true <->
  forall i k, (lo <= i < hi)%nat -> 0 <= k < 64 ->
              bool_decide (64 * Z.of_nat i + k ∈ s) = Z.testbit w k.
Proof.
  intros Hr Hw Hhi. rewrite check_spec. split.
  - intros H i k Hi. destruct (lookup_lt_is_Some_2 b i) as [x Hx].
    { rewrite (rep_len _ _ _ Hr). lia. }
    apply (word_mem b s i x w Hr Hx Hw). apply Z.eqb_eq. by apply (H i).
  - intros H i x Hi Hx. apply Z.eqb_eq, (word_mem b s i x w Hr Hx Hw). intros k. by apply H.
Qed.

(** [is_prefix] decides whether the set is exactly the first [p] positions. *)
Lemma is_prefix_rep b s p :
  rep width b s -> 0 <= p <= width -> (debug = true -> p < width \/ width mod 64 = 0) ->
  is_prefix debug width p b = Some (bool_decide (s = upto p)).
Proof.
  intros Hr Hp Hd. unfold is_prefix, dassert, BITS_PER_ELEMENT. pose proof elements_bounds as He.
  rewrite (proj2 (Z.leb_le _ _)) by lia. rewrite andb_false_r. simpl.
  set (i := Z.to_nat (p / 64)).
  assert (Z.of_nat i = p / 64) as Hi by (unfold i; rewrite Z2Nat.id; Z.div_mod_to_equations; lia).
  pose proof (Z.mod_pos_bound p 64 ltac:(lia)) as Hpm.
  assert (p = 64 * Z.of_nat i + p mod 64) as Hps by (rewrite Hi; Z.div_mod_to_equations; lia).
  assert (i <= ARRAY_ELEMENTS width)%nat as Hie by lia.
  assert (s = upto p <-> forall j k, (j < ARRAY_ELEMENTS width)%nat -> 0 <= k < 64 ->
            bool_decide (64 * Z.of_nat j + k ∈ s) = (64 * Z.of_nat j + k <? p)) as Hs.
  { split; [intros -> j k Hj Hk; apply bool_decide_upto; lia|]. intros H. apply set_eq. intros n.
    rewrite elem_of_upto. split.
    - intros Hn. pose proof (rep_dom _ _ _ Hr n Hn).
      specialize (H (Z.to_nat (n / 64)) (n mod 64)). rewrite <- mem_split in H by lia.
      rewrite (bool_decide_true _ Hn) in H. split; [lia|]. apply Z.ltb_lt. symmetry. apply H.
      + apply index_lt. lia.
      + by apply Z.mod_pos_bound.
    - intros Hn. specialize (H (Z.to_nat (n / 64)) (n mod 64)). rewrite <- mem_split in H by lia.
      rewrite (proj2 (Z.ltb_lt _ _)) in H by lia. apply (proj1 (bool_decide_eq_true _)), H.
      + apply index_lt. lia.
      + by apply Z.mod_pos_bound. }
  pose proof (check_mem b s 0 i ALL_BITS_SET Hr ALL_in_u Hie) as C1.
  destruct (check 0 i _ b) eqn:E1.
  2: { symmetry. f_equal. apply bool_decide_false. intros Heq. apply (eq_true_false_abs false); [|done].
       apply C1. intros j k Hj Hk. rewrite (proj1 Hs Heq), all_set_bit by lia. by apply Z.ltb_lt; lia. }
  pose proof (proj1 C1 eq_refl) as F1. clear C1 E1.
  destruct (nz (p mod 64)) eqn:Em; [apply nz_true in Em|apply nz_false in Em].
  - rewrite last_mask_spec; [|lia|done|].
    2: { intros ->. destruct debug; [|done]. destruct Hd as [?|?]; [done|lia..]. }
    simpl. destruct (lookup_lt_is_Some_2 b i) as [x Hx]; [rewrite (rep_len _ _ _ Hr); lia|].
    rewrite Hx. simpl.
    pose proof (word_mem b s i x (2 ^ (p mod 64) - 1) Hr Hx (mask_in_u (p mod 64) ltac:(lia))) as W.
    pose proof (check_mem b s (S i) (ARRAY_ELEMENTS width) 0 Hr zero_in_u ltac:(lia)) as C2.
    destruct (Z.eqb_spec x (2 ^ (p mod 64) - 1)) as [Ex|Ex].
    + f_equal. apply eq_bool_prop_intro. rewrite !Is_true_true, bool_decide_eq_true, C2, Hs.
      pose proof (proj1 W Ex) as F2. split.
      * intros F3 j k Hj Hk. destruct (Nat.lt_trichotomy j i) as [Hlt|[->|Hgt]].
        -- rewrite F1, all_set_bit by lia. symmetry. apply Z.ltb_lt. lia.
        -- rewrite F2, testbit_ones by lia. bits_split; done.
        -- rewrite F3, Z.testbit_0_l by lia. symmetry. apply Z.ltb_ge. lia.
      * intros F j k Hj Hk. rewrite F, Z.testbit_0_l by lia. apply Z.ltb_ge. lia.
    + f_equal. symmetry. apply bool_decide_false. intros Heq. apply Ex, W. intros k Hk.
      rewrite (proj1 Hs Heq), testbit_ones by lia. bits_split; done.
  - pose proof (check_mem b s i (ARRAY_ELEMENTS width) 0 Hr zero_in_u ltac:(lia)) as C2.
    f_equal. apply eq_bool_prop_intro. rewrite !Is_true_true, bool_decide_eq_true, C2, Hs. split.
    + intros F3 j k Hj Hk. destruct (Nat.lt_ge_cases j i).
      * rewrite F1, all_set_bit by lia. symmetry. apply Z.ltb_lt. lia.
      * rewrite F3, Z.testbit_0_l by lia. symmetry. apply Z.ltb_ge. lia.
    + intros F j k Hj Hk. rewrite F, Z.testbit_0_l by lia. apply Z.ltb_ge. lia.
Qed.

(** *** Set algebra *)

Lemma rep_zip f g b1 b2 s1 s2 s :
  rep width b1 s1 -> rep width b2 s2 ->
  (forall x y, in_u 64 x -> in_u 64 y -> in_u 64 (f x y)) ->
  (forall x y k, in_u 64 x -> in_u 64 y -> 0 <= k < 64 ->
     Z.testbit (f x y) k = g (Z.testbit x k) (Z.testbit y k)) ->
  (forall n, n ∈ s -> 0 <= n < width) ->
  (forall n, 0 <= n -> bool_decide (n ∈ s) = g (bool_decide (n ∈ s1)) (bool_decide (n ∈ s2))) ->
  rep width (zip_with f b1 b2) s.
Proof.
  intros H1 H2 Hf Hg Hd Hs. apply rep_intro.
  - rewrite length_zip_with, (rep_len _ _ _ H1), (rep_len _ _ _ H2). lia.
  - apply Forall_lookup_2. intros i z Hz. apply lookup_zip_with_Some in Hz as (x & y & -> & Hx & Hy).
    apply Hf; [exact (Forall_lookup_1 _ _ _ _ (rep_words _ _ _ H1) Hx)|
               exact (Forall_lookup_1 _ _ _ _ (rep_words _ _ _ H2) Hy)].
  - done.
  - intros n Hn. rewrite Hs, <- (rep_mem _ _ _ H1), <- (rep_mem _ _ _ H2) by lia.
    assert (Z.to_nat (n / 64) < ARRAY_ELEMENTS width)%nat as Hi.
    { apply Nat2Z.inj_lt. rewrite Z2Nat.id; Z.div_mod_to_equations; lia. }
    destruct (lookup_lt_is_Some_2 b1 (Z.to_nat (n / 64))) as [x Hx]; [rewrite (rep_len _ _ _ H1); lia|].
    destruct (lookup_lt_is_Some_2 b2 (Z.to_nat (n / 64))) as [y Hy]; [rewrite (rep_len _ _ _ H2); lia|].
    unfold bm_mem. rewrite lookup_zip_with, Hx, Hy. simpl. apply Hg.
    + exact (Forall_lookup_1 _ _ _ _ (rep_words _ _ _ H1) Hx).
    + exact (Forall_lookup_1 _ _ _ _ (rep_words _ _ _ H2) Hy).
    + by apply Z.mod_pos_bound.
Qed.

Lemma testbit_bnot64 y k : 0 <= k < 64 -> Z.testbit (bnot 64 y) k = negb (Z.testbit y k).
Proof.
  intros Hk. unfold bnot. rewrite testbit_wrapU, Z.lnot_spec by lia.
  by destruct (Z.ltb_spec k 64); [|lia].
Qed.

Ltac decide_mem :=
  intros; repeat case_bool_decide; simpl; try done; exfalso; set_solver.

Lemma intersect_rep b1 b2 s1 s2 :
  rep width b1 s1 -> rep width b2 s2 -> rep width (intersect b1 b2) (s1 ∩ s2).
Proof.
  intros H1 H2. apply (rep_zip _ andb b1 b2 s1 s2); try done.
  - intros x y Hx Hy. apply land_in_u; [lia|done|apply Hy].
  - intros. apply Z.land_spec.
  - intros n [Hn _]%elem_of_intersection. by apply H1.
  - clear. decide_mem.
Qed.

Lemma subtract_rep b1 b2 s1 s2 :
  rep width b1 s1 -> rep width b2 s2 -> rep width (subtract b1 b2) (s1 ∖ s2).
Proof.
  intros H1 H2. apply (rep_zip _ (fun x y => x && negb y) b1 b2 s1 s2); try done.
  - intros x y Hx Hy. apply land_in_u; [lia|done|apply bnot_in_u].
  - intros x y k _ _ Hk. by rewrite Z.land_spec, testbit_bnot64.
  - intros n [Hn _]%elem_of_difference. by apply H1.
  - clear. decide_mem.
Qed.

Lemma merge_rep b1 b2 s1 s2 :
  rep width b1 s1 -> rep width b2 s2 -> rep width (merge b1 b2) (s1 ∪ s2).
Proof.
  intros H1 H2. apply (rep_zip _ orb b1 b2 s1 s2); try done.
  - intros x y Hx Hy. apply lor_in_u; [lia|done|done].
  - intros. apply Z.lor_spec.
  - intros n [Hn|Hn]%elem_of_union; [by apply H1|by apply H2].
  - clear. decide_mem.
Qed.

(** The set is empty exactly when every word is 0. *)
Lemma rep_empty b s : rep width b s -> (forall i x, b !! i = Some x -> x = 0) <-> s = ∅.
Proof.
  intros Hr. split.
  - intros H. apply set_eq. intros n. split; [|set_solver]. intros Hn. exfalso.
    pose proof (rep_dom _ _ _ Hr n Hn) as Hd. pose proof (rep_mem _ _ _ Hr n ltac:(lia)) as Hm.
    rewrite (bool_decide_true _ Hn) in Hm. unfold bm_mem in Hm.
    destruct (b !! _) as [x|] eqn:E; [|done]. by rewrite (H _ _ E), Z.testbit_0_l in Hm.
  - intros -> i x Hx. apply (word_mem b ∅ i x 0 Hr Hx zero_in_u). intros k Hk.
    rewrite Z.testbit_0_l. apply bool_decide_false. set_solver.
Qed.

Lemma is_clear_all_rep b s : rep width b s -> is_clear_all width b = bool_decide (s = ∅).
Proof.
  intros Hr. apply eq_bool_prop_intro. unfold is_clear_all.
  rewrite !Is_true_true, check_spec, bool_decide_eq_true, <- (rep_empty b s Hr). split.
  - intros H i x Hx. specialize (H i x). apply nz_false. destruct (nz x); [|done]. simpl in H.
    symmetry. apply H; [|done]. apply lookup_lt_Some in Hx. rewrite (rep_len _ _ _ Hr) in Hx. lia.
  - intros H i x _ Hx. apply negb_true_iff, nz_false. by apply (H i).
Qed.

Lemma zip_all f b1 b2 :
  forallb id (zip_with (fun x y => negb (nz (f x y))) b1 b2) = true <->
  forall i x, zip_with f b1 b2 !! i = Some x -> x = 0.
Proof.
  rewrite forallb_forall. split.
  - intros H i z Hz. apply lookup_zip_with_Some in Hz as (x & y & -> & Hx & Hy).
    apply nz_false, negb_true_iff. apply (H (negb (nz (f x y)))).
    apply list_elem_of_In, list_elem_of_lookup. exists i.
    apply lookup_zip_with_Some. eauto.
  - intros H z Hz. apply list_elem_of_In, list_elem_of_lookup in Hz as [i Hz].
    apply lookup_zip_with_Some in Hz as (x & y & -> & Hx & Hy). unfold id.
    apply negb_true_iff, nz_false. apply (H i). apply lookup_zip_with_Some. eauto.
Qed.

Lemma is_subset_rep b1 b2 s1 s2 :
  rep width b1 s1 -> rep width b2 s2 -> is_subset b1 b2 = bool_decide (s1 ⊆ s2).
Proof.
  intros H1 H2. apply eq_bool_prop_intro. unfold is_subset.
  rewrite !Is_true_true, zip_all, bool_decide_eq_true.
  change (zip_with (fun x y => Z.land x (bnot 64 y)) b1 b2) with (subtract b1 b2).
  rewrite (rep_empty _ _ (subtract_rep _ _ _ _ H1 H2)). clear.
  split; [|set_solver]. intros E n Hn. destruct (decide (n ∈ s2)); [done|]. exfalso.
  assert (n ∈ s1 ∖ s2) as H by set_solver. rewrite E in H. set_solver.
Qed.

Lemma is_overlapping_rep b1 b2 s1 s2 :
  rep width b1 s1 -> rep width b2 s2 -> is_overlapping b1 b2 = negb (bool_decide (s1 ∩ s2 = ∅)).
Proof.
  intros H1 H2. rewrite <- (negb_involutive (is_overlapping b1 b2)). f_equal.
  assert (negb (is_overlapping b1 b2) =
          forallb id (zip_with (fun x y => negb (nz (Z.land x y))) b1 b2)) as ->.
  { unfold is_overlapping. clear. revert b2. induction b1 as [|x b1 IH]; intros [|y b2]; try done.
    simpl. by rewrite negb_orb, IH. }
  apply eq_bool_prop_intro. rewrite !Is_true_true, zip_all, bool_decide_eq_true.
  change (zip_with (fun x y => Z.land x y) b1 b2) with (intersect b1 b2).
  by apply rep_empty, intersect_rep.
Qed.

Lemma bm_eq_rep b1 b2 s1 s2 :
  rep width b1 s1 -> rep width b2 s2 -> bm_eq width b1 b2 = bool_decide (s1 = s2).
Proof.
  intros H1 H2. assert (b1 = b2 <-> s1 = s2) as E.
  { split; [|intros <-; by eapply rep_inj]. intros <-. apply set_eq. intros n.
    destruct (Z.lt_ge_cases n 0).
    - split; intros Hn; [apply H1 in Hn|apply H2 in Hn]; lia.
    - rewrite <- (bool_decide_eq_true (n ∈ s1)), <- (bool_decide_eq_true (n ∈ s2)).
      by rewrite <- (rep_mem _ _ _ H1), <- (rep_mem _ _ _ H2). }
  unfold bm_eq. destruct (Nat.ltb_spec 1 (ARRAY_ELEMENTS width)); [by apply bool_decide_ext|].
  apply bool_decide_ext. rewrite <- E.
  pose proof (rep_len _ _ _ H1) as L1. pose proof (rep_len _ _ _ H2) as L2. pose proof elements_pos.
  destruct b1 as [|x [|? b1]], b2 as [|y [|? b2]]; simpl in *; try lia. split; congruence.
Qed.

Lemma intersect_and_pad_rep b s m pad :
  rep width b s -> in_u 64 m -> (debug = true -> width mod 64 = 0) ->
  exists b' s', intersect_and_pad debug width m pad b = Some b' /\ rep width b' s' /\
    forall n, n ∈ s' <->
      (n < 64 /\ n ∈ s /\ Z.testbit m n = true) \/ (64 <= n < width /\ pad = true).
Proof.
  intros Hr Hm Hd. pose proof elements_bounds as He. pose proof elements_pos as Hpos.
  set (P := fun n => (n < 64 /\ n ∈ s /\ Z.testbit m n = true) \/ (64 <= n < width /\ pad = true)).
  assert (exists s' : gset Z, forall n, n ∈ s' <-> P n) as [s' Hs'].
  { exists (filter P (upto width)). intros n. rewrite elem_of_filter, elem_of_upto. split; [tauto|].
    intros H. split; [done|]. destruct H as [(?&?&?)|[? _]]; [|lia]. by apply Hr. }
  destruct b as [|x0 bs]; [pose proof (rep_len _ _ _ Hr); simpl in *; lia|].
  assert (length bs = ARRAY_ELEMENTS width - 1)%nat as Hl by (pose proof (rep_len _ _ _ Hr); simpl in *; lia).
  pose proof (rep_words _ _ _ Hr) as Hw. apply Forall_cons in Hw as [Hx0 Hbs].
  set (v := if pad then ALL_BITS_SET else 0).
  assert (in_u 64 v) as Hv by (unfold v; destruct pad; [apply ALL_in_u|apply zero_in_u]).
  assert (forall k, 0 <= k < 64 -> Z.testbit v k = pad) as Hvb.
  { intros k Hk. unfold v. destruct pad; [by apply all_set_bit|apply Z.testbit_0_l]. }
  set (b1 := fill 1 (ARRAY_ELEMENTS width) v (Z.land x0 m :: bs)).
  assert (length b1 = ARRAY_ELEMENTS width) as Hl1 by (unfold b1; rewrite length_fill; simpl; lia).
  assert (Forall (in_u 64) b1) as Hw1.
  { apply fill_words; [done|]. constructor; [|done]. apply land_in_u; [lia|done|apply Hm]. }
  assert (forall n, 0 <= n < 64 * Z.of_nat (ARRAY_ELEMENTS width) ->
     bm_mem b1 n = if n <? 64 then Z.testbit x0 n && Z.testbit m n else pad) as Hb1.
  { intros n Hn. unfold b1. rewrite mem_fill. simpl length. rewrite Hl.
    rewrite !nat_idx_ltb, nat_idx_leb by lia.
    rewrite (proj2 (Z.ltb_lt n _)), (proj2 (Z.ltb_lt n (64 * Z.of_nat (S _)))) by lia.
    rewrite !andb_true_r. destruct (Z.leb_spec (64 * Z.of_nat 1) n), (Z.ltb_spec n 64); try lia.
    - rewrite Hvb; [done|]. by apply Z.mod_pos_bound.
    - unfold bm_mem. rewrite (Z.div_small n 64), (Z.mod_small n 64) by lia. simpl.
      apply Z.land_spec. }
  assert (forall n, 0 <= n < 64 -> Z.testbit x0 n = bool_decide (n ∈ s)) as Hx0s.
  { intros n Hn. rewrite <- (rep_mem _ _ _ Hr n) by lia. unfold bm_mem.
    by rewrite (Z.div_small n 64), (Z.mod_small n 64) by lia. }
  assert (forall n, 0 <= n -> bool_decide (n ∈ s') = if n <? 64 then bool_decide (n ∈ s) && Z.testbit m n
             else (n <? width) && pad) as Hdec.
  { intros n Hn. apply eq_bool_prop_intro. rewrite Is_true_true, bool_decide_eq_true, Hs'. unfold P.
    rewrite Is_true_true.
    destruct (Z.ltb_spec n 64); rewrite andb_true_iff, ?bool_decide_eq_true, ?Z.ltb_lt; intuition lia. }
  assert (forall n, n ∈ s' -> 0 <= n < width) as Hdom.
  { intros n Hn. apply Hs' in Hn as [(_&Hn&_)|[Hn _]]; [by apply Hr|lia]. }
  unfold intersect_and_pad. rewrite (upd_spec _ _ _ x0) by done. simpl. fold v. fold b1.
  destruct (Nat.ltb 1 (ARRAY_ELEMENTS width) && nz (width mod BITS_PER_ELEMENT) && pad) eqn:Ec.
  - apply andb_true_iff in Ec as [Ec Hpad]. apply andb_true_iff in Ec as [Ec Hnz].
    apply Nat.ltb_lt in Ec. apply nz_true in Hnz. unfold BITS_PER_ELEMENT in *.
    assert (debug = false) as Hdf by (destruct debug; [exfalso; auto|done]).
    pose proof (Z.mod_pos_bound width 64 ltac:(lia)) as Hmw.
    rewrite last_mask_spec by (done || lia). simpl.
    destruct (lookup_lt_is_Some_2 b1 (ARRAY_ELEMENTS width - 1)) as [y Hy]; [lia|].
    rewrite (upd_spec _ _ _ y) by done. eexists _, s'. split; [done|]. split; [|done].
    apply rep_intro; [by rewrite length_insert|apply Forall_insert; [done|apply mask_in_u; lia]|done|].
    intros n Hn. rewrite mem_insert, Hdec by lia. rewrite Hpad, andb_true_r in *.
    case_decide as E.
    + pose proof (mem_split n ltac:(lia)) as Hsp. rewrite E in Hsp.
      rewrite testbit_ones by (try lia; apply Z.mod_pos_bound; lia).
      pose proof (Z.mod_pos_bound n 64 ltac:(lia)).
      assert (n mod 64 < width mod 64 <-> n < width) as Hlt by (Z.div_mod_to_equations; lia).
      destruct (Z.ltb_spec n 64); [lia|].
      destruct (Z.ltb_spec (n mod 64) (width mod 64)), (Z.ltb_spec n width); done || lia.
    + rewrite Hb1 by lia. destruct (Z.ltb_spec n 64); [by rewrite Hx0s by lia|]. symmetry. apply Z.ltb_lt.
      assert (n < 64 * Z.of_nat (ARRAY_ELEMENTS width - 1)); [|lia].
      destruct (Z.lt_ge_cases n (64 * Z.of_nat (ARRAY_ELEMENTS width - 1))); [done|].
      exfalso. apply E. apply Nat2Z.inj. rewrite Z2Nat.id; Z.div_mod_to_equations; lia.
  - eexists _, s'. split; [done|]. split; [|done]. apply rep_intro; try done.
    intros n Hn. rewrite Hb1, Hdec by lia. destruct (Z.ltb_spec n 64); [by rewrite Hx0s by lia|].
    destruct pad; [|by rewrite andb_false_r]. rewrite !andb_true_r in *.
    symmetry. apply Z.ltb_lt. apply andb_false_iff in Ec as [Ec|Ec].
    + apply Nat.ltb_ge in Ec. lia.
    + apply nz_false in Ec. unfold BITS_PER_ELEMENT in Ec. Z.div_mod_to_equations. lia.
Qed.

(** *** Iteration *)

Lemma next_bit_spec x :
  in_u 64 x ->
  (x = 0 /\ next_bit x = Some (64, 0)) \/
  exists k x', next_bit x = Some (k, x') /\ is_first_bit x k /\ k < 64 /\ in_u 64 x' /\
    forall i, 0 <= i < 64 -> Z.testbit x' i = Z.testbit x i && negb (i =? k).
Proof.
  intros Hx. unfold next_bit. destruct (Z.eqb_spec x 0) as [->|Hnz]; [by left|right].
  destruct (find_first_bit_nz x Hx Hnz) as (k & -> & Hk & Hlt).
  exists k, (Z.land x (bnot 64 (shl 64 1 k))). split; [done|]. split; [done|]. split; [done|].
  split; [apply land_in_u; [lia|done|apply bnot_in_u]|]. intros i Hi.
  rewrite Z.land_spec, testbit_bnot64 by lia. f_equal. f_equal.
  unfold shl. rewrite testbit_wrapU, Z.shiftl_1_l, testbit_pow2 by (try lia; apply Hk).
  rewrite (proj2 (Z.ltb_lt i 64)) by lia. apply Z.eqb_sym.
Qed.

Lemma iter_next_spec b s it p fuel :
  rep width b s -> iter_at b it p ->
  64 * Z.of_nat (ARRAY_ELEMENTS width) <= offset it + 64 * Z.of_nat fuel ->
  exists n it', iter_next width fuel b it = Some (n, it') /\
    ((n ∈ s /\ p <= n /\ (forall m, p <= m < n -> m ∉ s) /\ iter_at b it' (n + 1)) \/
     (n = width /\ forall m, p <= m -> m ∉ s)).
Proof.
  intros Hr. revert it p. pose proof elements_bounds as He.
  induction fuel as [|fuel IH]; intros it p (j & x & Ho & Hx & Hp & Ht & Hb) Hf.
  { apply lookup_lt_Some in Hx. rewrite (rep_len _ _ _ Hr) in Hx. lia. }
  cbn [iter_next].
  assert (forall k, 0 <= k < 64 -> Z.testbit x k = bool_decide (offset it + k ∈ s)) as Hxs.
  { intros k Hk. rewrite Ho.
    exact (eq_sym (proj1 (word_mem b s j x x Hr Hx
             (Forall_lookup_1 _ _ _ _ (rep_words _ _ _ Hr) Hx)) eq_refl k Hk)). }
  destruct (next_bit_spec (tmi it) Ht) as [[E0 ->]|(k & x' & -> & (Hk0 & Hk1 & Hk2) & Hk & Hx' & Hb')].
  - (* the element is exhausted *)
    simpl. assert (forall m, p <= m < offset it + 64 -> m ∉ s) as Hno.
    { intros m Hm Hs. specialize (Hb (m - offset it) ltac:(lia)).
      rewrite E0, Z.testbit_0_l, Hxs in Hb by lia.
      replace (offset it + (m - offset it)) with m in Hb by lia.
      rewrite (bool_decide_true _ Hs), (proj2 (Z.leb_le p m)) in Hb by lia. done. }
    unfold BITS_PER_ELEMENT. destruct (Z.leb_spec width (offset it + 64)) as [Hw|Hw].
    + eexists _, _. split; [done|]. right. split; [done|]. intros m Hm Hs.
      apply (Hno m); [|done]. apply Hr in Hs. lia.
    + assert (Z.to_nat ((offset it + 64) / 64) = S j) as ->.
      { rewrite Ho. apply Nat2Z.inj. rewrite Z2Nat.id; Z.div_mod_to_equations; lia. }
      destruct (lookup_lt_is_Some_2 b (S j)) as [y Hy].
      { rewrite (rep_len _ _ _ Hr). lia. }
      rewrite Hy. destruct (IH (Iterator (offset it + 64) y) (offset it + 64)) as (n & it' & Hn & Hc).
      * exists (S j), y. simpl. split; [lia|]. split; [done|]. split; [lia|].
        split; [exact (Forall_lookup_1 _ _ _ _ (rep_words _ _ _ Hr) Hy)|].
        intros k Hk. rewrite (proj2 (Z.leb_le _ _)) by lia. btauto.
      * simpl. lia.
      * exists n, it'. split; [done|]. destruct Hc as [(H1 & H2 & H3 & H4)|(H1 & H2)]; [left|right].
        -- split; [done|]. split; [lia|]. split; [|done]. intros m Hm.
           destruct (Z.lt_ge_cases m (offset it + 64)); [apply Hno; lia|apply H3; lia].
        -- split; [done|]. intros m Hm.
           destruct (Z.lt_ge_cases m (offset it + 64)); [apply Hno; lia|apply H2; lia].
  - (* a bit of the current element *)
    rewrite (proj2 (Z.eqb_neq k BITMAP_END)) by (unfold BITMAP_END; lia). simpl.
    eexists _, _. split; [done|]. left.
    rewrite Hb, Hxs, andb_true_iff, bool_decide_eq_true, Z.leb_le in Hk1 by lia.
    destruct Hk1 as [Hks Hpk]. split; [done|]. split; [done|]. split.
    + intros m Hm Hs. specialize (Hk2 (m - offset it) ltac:(lia)).
      rewrite Hb, Hxs in Hk2 by lia. replace (offset it + (m - offset it)) with m in Hk2 by lia.
      rewrite (bool_decide_true _ Hs), (proj2 (Z.leb_le p m)) in Hk2 by lia. done.
    + exists j, x. simpl. split; [done|]. split; [done|]. split; [lia|]. split; [done|].
      intros i Hi. rewrite Hb', Hb by done. destruct (Z.lt_trichotomy i k) as [Hl|[->|Hg]].
      * specialize (Hk2 i ltac:(lia)). rewrite Hb in Hk2 by lia. rewrite Hk2.
        rewrite (proj2 (Z.leb_gt (offset it + k + 1) _)) by lia. by rewrite andb_false_r.
      * rewrite Z.eqb_refl, (proj2 (Z.leb_gt (offset it + k + 1) _)) by lia. btauto.
      * rewrite (proj2 (Z.eqb_neq _ _)), !(proj2 (Z.leb_le _ _)) by lia. btauto.
Qed.

(** Cutting an ascending range at the least member. *)
Lemma filter_seqZ_none s p n :
  (forall m, p <= m < p + n -> m ∉ s) -> filter (fun m => m ∈ s) (seqZ p n) = [].
Proof.
  intros H.
  destruct (filter _ _) as [|y l] eqn:E; [done|]. exfalso.
  assert (y ∈ filter (fun m => m ∈ s) (seqZ p n)) as Hy by (rewrite E; apply list_elem_of_here).
  apply list_elem_of_filter in Hy as [Hy Hy']. apply elem_of_seqZ in Hy'. by apply (H y).
Qed.

Lemma filter_seqZ_least s p n w :
  p <= n < w -> n ∈ s -> (forall m, p <= m < n -> m ∉ s) ->
  filter (fun m => m ∈ s) (seqZ p (w - p)) = n :: filter (fun m => m ∈ s) (seqZ (n + 1) (w - (n + 1))).
Proof.
  intros Hn Hs Hm. replace (w - p) with ((n - p) + (1 + (w - (n + 1)))) by lia.
  rewrite seqZ_app, filter_app by lia. rewrite filter_seqZ_none; [|intros m ?; apply Hm; lia].
  replace (p + (n - p)) with n by lia. rewrite seqZ_app by lia. simpl.
  rewrite filter_cons_True by done. done.
Qed.

Lemma iter_collect_spec b s it p fuel :
  rep width b s -> iter_at b it p -> p <= width -> width - p < Z.of_nat fuel ->
  iter_collect width fuel b it = Some (filter (fun m => m ∈ s) (seqZ p (width - p))).
Proof.
  intros Hr. revert it p. induction fuel as [|fuel IH]; intros it p Hi Hp Hf; [lia|].
  cbn [iter_collect].
  destruct (iter_next_spec b s it p (ARRAY_ELEMENTS width) Hr Hi) as (n & it' & -> & Hc).
  { destruct Hi as (j & x & Ho & _). lia. }
  destruct Hc as [(Hs & Hle & Hno & Hi')|(-> & Hno)].
  - pose proof (rep_dom _ _ _ Hr n Hs). rewrite (proj2 (Z.eqb_neq n width)) by lia.
    rewrite (IH it' (n + 1)) by (done || lia). simpl.
    by rewrite (filter_seqZ_least s p n width) by (done || lia).
  - rewrite Z.eqb_refl. rewrite filter_seqZ_none; [done|]. intros m Hm. apply Hno. lia.
Qed.

Lemma iter_all_rep b s :
  rep width b s -> iter_all width b = Some (filter (fun m => m ∈ s) (seqZ 0 width)).
Proof.
  intros Hr. unfold iter_all, iter_init.
  destruct (lookup_lt_is_Some_2 b 0) as [x Hx]; [rewrite (rep_len _ _ _ Hr); apply elements_pos|].
  rewrite Hx. change (iter_collect width (S (Z.to_nat width)) b (Iterator 0 x) =
                Some (filter (fun m => m ∈ s) (seqZ 0 width))).
  rewrite (iter_collect_spec b s _ 0); [by rewrite Z.sub_0_r|done| |lia|lia].
  exists 0%nat, x. simpl. split; [done|]. split; [done|]. split; [lia|].
  split; [exact (Forall_lookup_1 _ _ _ _ (rep_words _ _ _ Hr) Hx)|].
  intros k Hk. rewrite (proj2 (Z.leb_le _ _)) by lia. btauto.
Qed.

(** *** Counting *)

Lemma popcount_filter (k : nat) x :
  popcount k x = Z.of_nat (length (filter (fun i => Z.testbit x i = true) (seqZ 0 (Z.of_nat k)))).
Proof.
  induction k as [|k IH]; [done|]. cbn [popcount]. rewrite IH.
  replace (Z.of_nat (S k)) with (Z.of_nat k + 1) by lia.
  rewrite seqZ_app, filter_app, length_app by lia.
  rewrite (seqZ_cons _ 1), (seqZ_nil _ (Z.pred 1)) by lia.
  replace (0 + Z.of_nat k) with (Z.of_nat k) by lia.
  destruct (Z.testbit x (Z.of_nat k)) eqn:E.
  - rewrite filter_cons_True by done. simpl. lia.
  - rewrite filter_cons_False by (rewrite E; done). simpl. lia.
Qed.

Lemma length_filter_fmap (f : Z -> Z) (P Q : Z -> Prop) `{!forall n, Decision (P n)}
    `{!forall n, Decision (Q n)} l :
  (forall n, n ∈ l -> P n <-> Q (f n)) -> length (filter P l) = length (filter Q (f <$> l)).
Proof.
  induction l as [|n l IH]; intros HPQ; [done|]. rewrite fmap_cons, !filter_cons.
  assert (P n <-> Q (f n)) as Hn by (apply HPQ, list_elem_of_here).
  rewrite (decide_ext _ _ _ _ Hn). case_decide; simpl; rewrite IH; try done;
    intros m Hm; apply HPQ; by right.
Qed.

Lemma bm_mem_cons x b n :
  0 <= n -> bm_mem (x :: b) n = if n <? 64 then Z.testbit x n else bm_mem b (n - 64).
Proof.
  intros Hn. unfold bm_mem. destruct (Z.ltb_spec n 64).
  - by rewrite (Z.div_small n 64), (Z.mod_small n 64) by lia.
  - assert (n / 64 = Z.succ ((n - 64) / 64)) as -> by (Z.div_mod_to_equations; lia).
    rewrite Z2Nat.inj_succ by (Z.div_mod_to_equations; lia). simpl.
    assert (n mod 64 = (n - 64) mod 64) as -> by (Z.div_mod_to_equations; lia). done.
Qed.

Lemma popcount_sum b :
  foldr (fun x a => popcount 64 x + a) 0 b =
  Z.of_nat (length (filter (fun n => bm_mem b n = true) (seqZ 0 (64 * Z.of_nat (length b))))).
Proof.
  induction b as [|x b IH]; [done|]. cbn [foldr length]. rewrite IH, popcount_filter.
  replace (64 * Z.of_nat (S (length b))) with (64 + 64 * Z.of_nat (length b)) by lia.
  rewrite seqZ_app, filter_app, length_app by lia. rewrite Nat2Z.inj_add.
  replace (0 + 64) with (64 + 0) by lia. rewrite <- fmap_add_seqZ. change (Z.of_nat 64) with 64.
  pose proof (length_filter_fmap (fun n => n) (fun n => Z.testbit x n = true)
                (fun n => bm_mem (x :: b) n = true) (seqZ 0 64)) as Hlow.
  rewrite list_fmap_id in Hlow. rewrite <- Hlow.
  - f_equal. f_equal. apply (length_filter_fmap (Z.add 64) (fun n => bm_mem b n = true)).
    intros n Hn%elem_of_seqZ. rewrite bm_mem_cons by lia.
    rewrite (proj2 (Z.ltb_ge _ 64)) by lia. by replace (64 + n - 64) with n by lia.
  - intros n Hn%elem_of_seqZ. rewrite bm_mem_cons by lia. by rewrite (proj2 (Z.ltb_lt n 64)) by lia.
Qed.

Lemma fold_u32_sum (f : Z -> Z) b acc :
  foldl (fun res x => u32 (res + f x)) (u32 acc) b = u32 (acc + foldr (fun x a => f x + a) 0 b).
Proof.
  revert acc. induction b as [|x b IH]; intros acc; cbn [foldl foldr].
  - by rewrite Z.add_0_r.
  - replace (u32 (u32 acc + f x)) with (u32 (acc + f x)).
    + rewrite IH. f_equal. lia.
    + unfold wrapU. by rewrite Z.add_mod_idemp_l by lia.
Qed.

Lemma bits_set_rep b s : rep width b s -> bits_set b = u32 (Z.of_nat (size s)).
Proof.
  intros Hr. unfold bits_set. change 0 with (u32 0). rewrite fold_u32_sum. f_equal. rewrite Z.add_0_l.
  transitivity (foldr (fun x a => popcount 64 x + a) 0 b).
  - pose proof (rep_words _ _ _ Hr) as Hw. clear Hr. induction Hw as [|x b Hx Hb IH]; [done|].
    cbn [foldr]. rewrite IH. f_equal. by apply my_count_bits_popcount.
  - rewrite popcount_sum. f_equal.
    assert (s = list_to_set (filter (fun n => bm_mem b n = true) (seqZ 0 (64 * Z.of_nat (length b))))) as E.
    { apply set_eq. intros n. rewrite elem_of_list_to_set, list_elem_of_filter, elem_of_seqZ.
      rewrite (rep_len _ _ _ Hr). pose proof elements_bounds. split.
      - intros Hn. pose proof (rep_dom _ _ _ Hr n Hn). split; [|lia].
        rewrite (rep_mem _ _ _ Hr) by lia. by apply bool_decide_true.
      - intros [Hm Hn]. rewrite (rep_mem _ _ _ Hr) in Hm by lia. by apply bool_decide_eq_true in Hm. }
    rewrite E, size_list_to_set; [done|]. apply NoDup_filter, NoDup_seqZ.
Qed.

(** *** Printing and the debug assertions *)

(** The digit loop starts at shift 60 and adds 4: its second turn shifts a
    64-bit word by 64. *)
Lemma print_digits_undefined num j : print_digits (S (S j)) num (BITS_PER_ELEMENT - 4) = None.
Proof. reflexivity. Qed.

Lemma last_nonzero_pos b k i x :
  b !! i = Some x -> x <> 0 -> (0 < i <= k)%nat -> (0 < last_nonzero k b)%nat.
Proof.
  intros Hx Hnz. induction k as [|k IH]; [lia|]. intros Hi. cbn [last_nonzero].
  destruct (decide (i = S k)) as [->|Hne].
  - rewrite Hx. rewrite (proj2 (nz_true x)) by done. lia.
  - destruct (b !! S k); [case_match; [lia|]|]; apply IH; lia.
Qed.

Lemma mask_at_width : bit_mask true width width = None.
Proof. unfold bit_mask, dassert. by rewrite Z.ltb_irrefl. Qed.

Lemma mask_width_assert : width mod 64 <> 0 -> last_element_mask true width width = None.
Proof.
  intros Hw. unfold last_element_mask, dassert, BITS_PER_ELEMENT.
  rewrite (proj2 (Z.eqb_neq _ _)) by done. simpl. by rewrite mask_at_width.
Qed.

End rep.

(** ** Properties of [Bitmap<width>] *)

(** [Bitmap] point operations.  On an array that stands for the set [s]
    and a position below [width], [set_bit] and [clear_bit] never leave the
    array nor shift by 64 or more, give an array that stands for [s] with the
    position added or removed, and [is_set] tells membership. *)
Lemma bitmap_point_ops debug width b s n :
  0 < width -> rep width b s -> 0 <= n < width ->
  (exists b', set_bit debug width n b = Some b' /\ rep width b' ({[n]} ∪ s)) /\
  (exists b', clear_bit debug width n b = Some b' /\ rep width b' (s ∖ {[n]})) /\
  is_set debug width n b = Some (bool_decide (n ∈ s)).
Proof.
  intros. split; [by apply set_bit_rep|]. split; [by apply clear_bit_rep|by apply is_set_rep].
Qed.

(** [Bitmap] prefixes.  In a release build, from any contents of the
    array [set_prefix(p)] gives the bitmap of the positions below
    [min(p, width)], [set_all] the full and [clear_all] the empty one, and
    [is_prefix(p)] on a bitmap decides whether its set is exactly the positions
    below [p]; so it accepts what [set_prefix(p)] built. *)
Lemma bitmap_prefix width b s junk p :
  0 < width -> length junk = ARRAY_ELEMENTS width -> Forall (in_u 64) junk ->
  rep width b s -> 0 <= p ->
  (exists b', set_prefix false width p junk = Some b' /\ rep width b' (upto (Z.min p width))) /\
  (exists b', set_all false width junk = Some b' /\ rep width b' (upto width)) /\
  (exists b', clear_all width junk = Some b' /\ rep width b' ∅) /\
  (p <= width -> is_prefix false width p b = Some (bool_decide (s = upto p))).
Proof.
  intros. split; [by apply set_prefix_rep|]. split; [by apply set_all_rep|].
  split; [by apply clear_all_rep|]. intros. by apply is_prefix_rep.
Qed.

(** C35 : [Bitmap] set algebra.  The word-wise loops compute the set
    operations: [merge] union, [intersect] intersection, [subtract] difference,
    [is_subset] inclusion, [is_overlapping] a common element, [operator==]
    equality of the sets, [is_clear_all] emptiness and [bits_set] the
    cardinality (modulo 2^32, its type). *)
Theorem bitmap_set_algebra width b1 b2 s1 s2 :
  0 < width -> rep width b1 s1 -> rep width b2 s2 ->
  rep width (merge b1 b2) (s1 ∪ s2) /\ rep width (intersect b1 b2) (s1 ∩ s2) /\
  rep width (subtract b1 b2) (s1 ∖ s2) /\
  is_subset b1 b2 = bool_decide (s1 ⊆ s2) /\
  is_overlapping b1 b2 = negb (bool_decide (s1 ∩ s2 = ∅)) /\
  bm_eq width b1 b2 = bool_decide (s1 = s2) /\
  is_clear_all width b1 = bool_decide (s1 = ∅) /\
  bits_set b1 = u32 (Z.of_nat (size s1)).
Proof.
  intros Hw H1 H2. split; [by apply merge_rep|]. split; [by apply intersect_rep|].
  split; [by apply subtract_rep|]. split; [by eapply is_subset_rep|].
  split; [by eapply is_overlapping_rep|]. split; [by apply bm_eq_rep|].
  split; [by apply is_clear_all_rep|by apply (bits_set_rep width)].
Qed.

(** C36 : the [Bitmap::Iterator] loop [while ((n= it++) != end)] terminates
    and visits exactly the members of the set, each once, in ascending order. *)
Theorem bitmap_iterator width b s :
  0 < width -> rep width b s ->
  exists ns, iter_all width b = Some ns /\ (forall n, n ∈ ns <-> n ∈ s) /\ StronglySorted Z.lt ns.
Proof.
  intros Hw Hr. exists (filter (fun m => m ∈ s) (seqZ 0 width)).
  split; [by apply iter_all_rep|]. split.
  - intros n. rewrite list_elem_of_filter, elem_of_seqZ. split; [tauto|].
    intros Hn. split; [done|]. apply Hr in Hn. lia.
  - apply StronglySorted_filter, StronglySorted_seqZ.
Qed.

(** [intersect(ulonglong)] keeps the members below 64 that the word has
    and drops all others; [intersect_extended] treats the word's highest bit as
    standing for every position of the later elements. *)
Lemma bitmap_intersect_word width b s m :
  0 < width -> rep width b s -> in_u 64 m ->
  (exists b' s', intersect_word false width m b = Some b' /\ rep width b' s' /\
     forall n, n ∈ s' <-> n < 64 /\ n ∈ s /\ Z.testbit m n = true) /\
  (exists b' s', intersect_extended false width m b = Some b' /\ rep width b' s' /\
     forall n, n ∈ s' <-> (n < 64 /\ n ∈ s /\ Z.testbit m n = true) \/
                          (64 <= n < width /\ Z.testbit m 63 = true)).
Proof.
  intros Hw Hr Hm. split.
  - destruct (intersect_and_pad_rep false width Hw b s m false Hr Hm) as (b' & s' & H1 & H2 & H3); [done|].
    exists b', s'. split; [done|]. split; [done|]. intros n. rewrite H3. intuition congruence.
  - destruct (intersect_and_pad_rep false width Hw b s m (nz (Z.land m (shl 64 1 63))) Hr Hm)
      as (b' & s' & H1 & H2 & H3); [done|].
    exists b', s'. split; [done|]. split; [done|]. intros n. rewrite H3.
    assert (shl 64 1 63 = 2 ^ 63) as -> by reflexivity.
    rewrite nz_land_pow2 by lia. done.
Qed.

(** [Bitmap::print] of a bitmap with a member at or above position 64
    is undefined: its digit loop shifts a 64-bit element by 64, because
    [shift] grows from 60 where it has to shrink to 0. *)
Lemma print_undefined longlong2str width b s n :
  0 < width -> rep width b s -> n ∈ s -> 64 <= n -> print width longlong2str b = None.
Proof.
  intros Hw Hr Hn Hge. pose proof (rep_dom _ _ _ Hr n Hn) as Hd.
  destruct (rep_lookup width Hw b s n Hr Hd) as (x & Hx & _).
  assert (x <> 0) as Hx0.
  { intros ->. pose proof (rep_mem _ _ _ Hr n ltac:(lia)) as Hm. unfold bm_mem in Hm.
    rewrite Hx, Z.testbit_0_l, bool_decide_true in Hm by done. done. }
  pose proof (lookup_lt_Some _ _ _ Hx) as Hlt. rewrite (rep_len _ _ _ Hr) in Hlt.
  pose proof (last_nonzero_pos b (ARRAY_ELEMENTS width - 1) _ x Hx Hx0) as Hl.
  unfold print. destruct (last_nonzero _ b) as [|k] eqn:E.
  { exfalso. apply (Nat.lt_irrefl 0), Hl. split; [|lia].
    apply Nat2Z.inj_lt. rewrite Z2Nat.id; Z.div_mod_to_equations; lia. }
  destruct b as [|y b]; [done|]. cbn [take foldr]. by rewrite print_digits_undefined.
Qed.

(** In a debug build, [set_all] and [set_prefix(width)] abort whenever
    [width] is not a multiple of 64: [last_element_mask(width)] goes through
    [bit_mask], which asserts [n < width]. *)
Lemma debug_assertion_fails width b p :
  0 < width -> width mod 64 <> 0 -> width <= p ->
  set_all true width b = None /\ set_prefix true width p b = None.
Proof.
  intros Hw Hm Hp. assert (set_prefix true width p b = None) as H.
  { unfold set_prefix. assert ((if width <? p then width else p) = width) as ->.
    { destruct (Z.ltb_spec width p); lia. }
    unfold BITS_PER_ELEMENT at 2. rewrite (proj2 (nz_true _)) by done.
    by rewrite (mask_width_assert width). }
  split; [|done]. unfold set_all. unfold BITS_PER_ELEMENT. rewrite (proj2 (nz_true _)) by done.
  unfold set_prefix. rewrite Z.ltb_irrefl. unfold BITS_PER_ELEMENT at 2.
  rewrite (proj2 (nz_true _)) by done. by rewrite (mask_width_assert width).
Qed.

(** Two defects, on every bitmap.  [print] with a member at or above
    position 64 is undefined: its digit loop shifts a 64-bit element by 64,
    because [shift] grows from 60 where it has to shrink to 0.  And in a debug
    build [set_all] and [set_prefix] of the whole width abort whenever [width] is
    not a multiple of 64: [last_element_mask(width)] goes through [bit_mask],
    which asserts [n < width]. *)
Lemma bitmap_undefined_behaviour longlong2str width b :
  0 < width ->
  (forall s n, rep width b s -> n ∈ s -> 64 <= n -> print width longlong2str b = None) /\
  (width mod 64 <> 0 ->
   set_all true width b = None /\ forall p, width <= p -> set_prefix true width p b = None).
Proof.
  intros Hw. split; [intros s n; by apply print_undefined|]. intros Hm. split.
  - exact (proj1 (debug_assertion_fails width b width Hw Hm ltac:(lia))).
  - intros p Hp. exact (proj2 (debug_assertion_fails width b p Hw Hm Hp)).
Qed.

(** *** Concrete bitmaps *)

Lemma rep_check_rep width b : 0 < width -> rep_check width b = true -> rep width b (members width b).
Proof.
  intros Hw. unfold rep_check. rewrite !andb_true_iff, !bool_decide_eq_true, forallb_forall.
  intros [[Hl Hf] Hb]. pose proof (elements_bounds width Hw).
  assert (forall n, n ∈ members width b <-> bm_mem b n = true /\ 0 <= n < width) as Hm.
  { intros n. unfold members. rewrite elem_of_list_to_set, list_elem_of_filter, elem_of_seqZ.
    by rewrite Z.add_0_l. }
  apply rep_intro; [done|done|done| |].
  - intros n Hn. apply Hm in Hn as [_ Hn]. exact Hn.
  - intros n Hn. apply eq_bool_prop_intro. rewrite !Is_true_true, bool_decide_eq_true, Hm.
    split; [|tauto]. intros Hn'. split; [done|]. split; [lia|].
    destruct (Z.lt_ge_cases n width); [done|]. exfalso.
    specialize (Hb n). rewrite Hn' in Hb. apply diff_false_true, Hb.
    apply list_elem_of_In, elem_of_seqZ. lia.
Qed.

Lemma bitmap_set_algebra_witness :
  merge [1; 2] [4; 2] = [5; 2] /\ bits_set [5; 2] = 3 /\
  is_subset [1; 2] [4; 2] = bool_decide (members 70 [1; 2] ⊆ members 70 [4; 2]).
Proof.
  split; [reflexivity|]. split; [vm_compute; reflexivity|].
  apply (bitmap_set_algebra 70 [1; 2] [4; 2]); [lia| |];
    (apply rep_check_rep; [lia|vm_compute; reflexivity]).
Defined.

Lemma bitmap_iterator_witness :
  iter_all 70 [0x9; 0x4] = Some [0; 3; 66] /\
  exists ns, iter_all 70 [0x9; 0x4] = Some ns /\
    (forall n, n ∈ ns <-> n ∈ members 70 [0x9; 0x4]) /\ StronglySorted Z.lt ns.
Proof.
  split; [vm_compute; reflexivity|]. apply bitmap_iterator; [lia|].
  apply rep_check_rep; [lia|vm_compute; reflexivity].
Defined.

(** The operations of [Bitmap] on single positions, on prefixes and with a
    word.  On an array that stands for the set [s], [set_bit] and [clear_bit] never
    leave the array nor shift by 64 or more and add or remove their position;
    [is_set] tells membership.  In a release build, from any contents of the array,
    [set_prefix(p)] gives the bitmap of the positions below [min(p, width)],
    [set_all] the full and [clear_all] the empty one, and [is_prefix(p)] decides
    whether the set is exactly the positions below [p].  [intersect(ulonglong)]
    keeps the members below 64 that the word has and drops all others;
    [intersect_extended] treats the word's highest bit as standing for every
    position of the later elements. *)
Lemma bitmap_operations debug width b s junk n p m :
  0 < width -> rep width b s -> length junk = ARRAY_ELEMENTS width -> Forall (in_u 64) junk ->
  0 <= n < width -> 0 <= p -> in_u 64 m ->
  ((exists b', set_bit debug width n b = Some b' /\ rep width b' ({[n]} ∪ s)) /\
   (exists b', clear_bit debug width n b = Some b' /\ rep width b' (s ∖ {[n]})) /\
   is_set debug width n b = Some (bool_decide (n ∈ s))) /\
  ((exists b', set_prefix false width p junk = Some b' /\ rep width b' (upto (Z.min p width))) /\
   (exists b', set_all false width junk = Some b' /\ rep width b' (upto width)) /\
   (exists b', clear_all width junk = Some b' /\ rep width b' ∅) /\
   (p <= width -> is_prefix false width p b = Some (bool_decide (s = upto p)))) /\
  (exists b' s', intersect_word false width m b = Some b' /\ rep width b' s' /\
     forall n, n ∈ s' <-> n < 64 /\ n ∈ s /\ Z.testbit m n = true) /\
  (exists b' s', intersect_extended false width m b = Some b' /\ rep width b' s' /\
     forall n, n ∈ s' <-> (n < 64 /\ n ∈ s /\ Z.testbit m n = true) \/
                          (64 <= n < width /\ Z.testbit m 63 = true)).
Proof.
  intros. split; [by apply bitmap_point_ops|]. split; [by apply bitmap_prefix|by apply bitmap_intersect_word].
Qed.
