(* ===== verification/ByteOrder.v ===== *)
(** Integers in byte buffers: [mariadb/include/mysql/server/my_byteorder.h], its
    three variants [byte_order_generic.h] (any machine), [byte_order_generic_x86.h]
    and [byte_order_generic_x86_64.h], the machine's own format and floating point
    values ([little_endian.h], [big_endian.h], and for i386 the variant's own), and
    the high-byte-first forms of [private/myisampack.h].

    Memory is a function from addresses to bytes, and [ix m A i] is [(A)[i]] for
    an [A] that points to [uchar].  The macros take their value argument as the
    integer it is, signed or not: [>>] of a negative value is the arithmetic
    shift of the compilers the server is built with.  Words that the x86
    variants load or store at once are little-endian; [ulong] has the width of
    the platform ([abi]).  *)

From S2P Require Import Prelude.

(** ** Memory *)

Definition mem := Z -> Z.
Definition ix (m : mem) (A i : Z) : Z := m (A + i).
Definition put (m : mem) (T i v : Z) : mem := fun x => if x =? T + i then u8 v else m x.

(** A buffer that holds bytes. *)
Definition bytes_ok (m : mem) : Prop := forall x, in_u 8 (m x).

Fixpoint bytes_from (n : nat) (m : mem) (A i : Z) : list Z :=
  match n with
  | O => []
  | S n => ix m A i :: bytes_from n m A (i + 1)
  end.
(** The [n] bytes at [A]. *)
Definition bytes_at (n : nat) (m : mem) (A : Z) : list Z := bytes_from n m A 0.

(** Loads and stores of a whole little-endian word of [n] bytes. *)
Definition load (n : nat) (m : mem) (A : Z) : Z := from_digits 8 (bytes_at n m A).
Fixpoint store_from (n : nat) (m : mem) (T i v : Z) : mem :=
  match n with
  | O => m
  | S n => store_from n (put m T i v) T (i + 1) (Z.shiftr v 8)
  end.
Definition store (n : nat) (m : mem) (T v : Z) : mem := store_from n m T 0 v.

Abbreviation s8 := (wrapS 8).
Abbreviation s16 := (wrapS 16).
Notation "a .|| b" := (Z.lor a b) (at level 50, left associativity) : c_scope.
Notation "a << k" := (Z.shiftl a k) (at level 35) : c_scope.
Notation "a >> k" := (Z.shiftr a k) (at level 35) : c_scope.
Open Scope c_scope.

(** The interface: one record of operations per variant. *)
Record byte_order := ByteOrder {
  bo_sint2korr : mem -> Z -> Z; bo_sint3korr : mem -> Z -> Z;
  bo_sint4korr : mem -> Z -> Z; bo_sint8korr : mem -> Z -> Z;
  bo_uint2korr : mem -> Z -> Z; bo_uint3korr : mem -> Z -> Z;
  bo_uint4korr : mem -> Z -> Z; bo_uint5korr : mem -> Z -> Z;
  bo_uint6korr : mem -> Z -> Z; bo_uint8korr : mem -> Z -> Z;
  bo_int2store : mem -> Z -> Z -> mem; bo_int3store : mem -> Z -> Z -> mem;
  bo_int4store : mem -> Z -> Z -> mem; bo_int5store : mem -> Z -> Z -> mem;
  bo_int6store : mem -> Z -> Z -> mem; bo_int8store : mem -> Z -> Z -> mem
}.

(** ** byte_order_generic.h *)

Module Generic.

Definition sint2korr m A := s16 (ix m A 0 .|| (ix m A 1 << 8)).
Definition sint3korr m A :=
  s32 (if nz (Z.land (ix m A 2) 128)
       then u32 (255 << 24) .|| u32 (ix m A 2 << 16) .|| u32 (ix m A 1 << 8) .|| ix m A 0
       else u32 (ix m A 2 << 16) .|| u32 (ix m A 1 << 8) .|| ix m A 0).
Definition sint4korr m A :=
  s32 (ix m A 0 .|| u32 (ix m A 1 << 8) .|| u32 (ix m A 2 << 16) .|| u32 (ix m A 3 << 24)).
Definition uint2korr m A := u16 (ix m A 0 .|| (ix m A 1 << 8)).
Definition uint3korr m A := u32 (ix m A 0 .|| u32 (ix m A 1 << 8) .|| u32 (ix m A 2 << 16)).
Definition uint4korr m A :=
  u32 (ix m A 0 .|| u32 (ix m A 1 << 8) .|| u32 (ix m A 2 << 16) .|| u32 (ix m A 3 << 24)).
Definition uint5korr m A :=
  u64 (ix m A 0 .|| u32 (ix m A 1 << 8) .|| u32 (ix m A 2 << 16) .|| u32 (ix m A 3 << 24)) .||
  u64 (ix m A 4 << 32).
Definition uint6korr m A :=
  u64 (ix m A 0 .|| u32 (ix m A 1 << 8) .|| u32 (ix m A 2 << 16) .|| u32 (ix m A 3 << 24)) .||
  u64 (ix m A 4 << 32) .|| u64 (ix m A 5 << 40).
Definition uint8korr m A :=
  u64 (ix m A 0 .|| u32 (ix m A 1 << 8) .|| u32 (ix m A 2 << 16) .|| u32 (ix m A 3 << 24)) .||
  u64 (u64 (ix m A 4 .|| u32 (ix m A 5 << 8) .|| u32 (ix m A 6 << 16) .|| u32 (ix m A 7 << 24)) << 32).
Definition sint8korr m A := s64 (uint8korr m A).

Definition int2store m T A :=
  let def_temp := u32 A in
  let m := put m T 0 def_temp in
  put m T 1 (def_temp >> 8).
Definition int3store m T A :=
  let m := put m T 0 A in
  let m := put m T 1 (A >> 8) in
  put m T 2 (A >> 16).
Definition int4store m T A :=
  let m := put m T 0 A in
  let m := put m T 1 (A >> 8) in
  let m := put m T 2 (A >> 16) in
  put m T 3 (A >> 24).
Definition int5store m T A :=
  let m := put m T 0 A in
  let m := put m T 1 (A >> 8) in
  let m := put m T 2 (A >> 16) in
  let m := put m T 3 (A >> 24) in
  put m T 4 (A >> 32).
Definition int6store m T A :=
  let m := put m T 0 A in
  let m := put m T 1 (A >> 8) in
  let m := put m T 2 (A >> 16) in
  let m := put m T 3 (A >> 24) in
  let m := put m T 4 (A >> 32) in
  put m T 5 (A >> 40).
Definition int8store m T A :=
  let def_temp := u32 A in
  let def_temp2 := u32 (A >> 32) in
  let m := int4store m T def_temp in
  int4store m (T + 4) def_temp2.

Definition ops : byte_order :=
  ByteOrder sint2korr sint3korr sint4korr sint8korr uint2korr uint3korr uint4korr uint5korr
    uint6korr uint8korr int2store int3store int4store int5store int6store int8store.

End Generic.

(** ** byte_order_generic_x86.h *)

Module X86.

Definition sint2korr m A := s16 (load 2 m A).
Definition sint3korr m A :=
  s32 (if nz (Z.land (ix m A 2) 128)
       then u32 (255 << 24) .|| u32 (ix m A 2 << 16) .|| u32 (ix m A 1 << 8) .|| ix m A 0
       else u32 (ix m A 2 << 16) .|| u32 (ix m A 1 << 8) .|| ix m A 0).
(** [long] has 32 bits on this platform. *)
Definition sint4korr m A := s32 (load 4 m A).
Definition uint2korr m A := u16 (load 2 m A).
Definition uint3korr m A := u32 (ix m A 0 .|| u32 (ix m A 1 << 8) .|| u32 (ix m A 2 << 16)).
Definition uint4korr m A := u32 (load 4 m A).
Definition uint5korr m A :=
  u64 (ix m A 0 .|| u32 (ix m A 1 << 8) .|| u32 (ix m A 2 << 16) .|| u32 (ix m A 3 << 24)) .||
  u64 (ix m A 4 << 32).
Definition uint6korr m A :=
  u64 (ix m A 0 .|| u32 (ix m A 1 << 8) .|| u32 (ix m A 2 << 16) .|| u32 (ix m A 3 << 24)) .||
  u64 (ix m A 4 << 32) .|| u64 (ix m A 5 << 40).
Definition uint8korr m A := u64 (load 8 m A).
Definition sint8korr m A := s64 (load 8 m A).

Definition int2store m T A := store 2 m T (u16 A).
Definition int3store m T A :=
  let m := put m T 0 A in
  let m := put m T 1 (u32 A >> 8) in
  put m T 2 (A >> 16).
Definition int4store m T A := store 4 m T (s32 A).
Definition int5store m T A :=
  let m := put m T 0 A in
  let m := put m T 1 (A >> 8) in
  let m := put m T 2 (A >> 16) in
  let m := put m T 3 (A >> 24) in
  put m T 4 (A >> 32).
Definition int6store m T A :=
  let m := put m T 0 A in
  let m := put m T 1 (A >> 8) in
  let m := put m T 2 (A >> 16) in
  let m := put m T 3 (A >> 24) in
  let m := put m T 4 (A >> 32) in
  put m T 5 (A >> 40).
Definition int8store m T A := store 8 m T (u64 A).

Definition ops : byte_order :=
  ByteOrder sint2korr sint3korr sint4korr sint8korr uint2korr uint3korr uint4korr uint5korr
    uint6korr uint8korr int2store int3store int4store int5store int6store int8store.

End X86.

(** ** byte_order_generic_x86_64.h *)

Module X86_64.

Definition sint2korr m A := s16 (load 2 m A).
Definition sint3korr m A :=
  s32 (if nz (Z.land (ix m A 2) 128)
       then u32 (255 << 24) .|| u32 (ix m A 2 << 16) .|| u32 (ix m A 1 << 8) .|| ix m A 0
       else u32 (ix m A 2 << 16) .|| u32 (ix m A 1 << 8) .|| ix m A 0).
Definition sint4korr m A := s32 (load 4 m A).
Definition uint2korr m A := u16 (load 2 m A).
Definition uint3korr m A := u32 (ix m A 0 .|| u32 (ix m A 1 << 8) .|| u32 (ix m A 2 << 16)).
Definition uint4korr m A := u32 (load 4 m A).
Definition uint5korr m p :=
  let a := load 4 m p in
  let b := m (4 + p) in
  a .|| u64 (b << 32).
Definition uint6korr m p :=
  let a := load 4 m p in
  let b := load 2 m (4 + p) in
  a .|| u64 (b << 32).
Definition uint8korr m A := u64 (load 8 m A).
Definition sint8korr m A := s64 (load 8 m A).

Definition int2store m T A := store 2 m T (u16 A).
Definition int3store m T A :=
  let m := put m T 0 A in
  let m := put m T 1 (u32 A >> 8) in
  put m T 2 (A >> 16).
Definition int4store m T A := store 4 m T (u32 A).
Definition int5store m T A :=
  let m := store 4 m T (u32 A) in
  put m T 4 (A >> 32).
Definition int6store m T A :=
  let m := store 4 m T (u32 A) in
  store 2 m (T + 4) (u16 (A >> 32)).
Definition int8store m T A := store 8 m T (u64 A).

Definition ops : byte_order :=
  ByteOrder sint2korr sint3korr sint4korr sint8korr uint2korr uint3korr uint4korr uint5korr
    uint6korr uint8korr int2store int3store int4store int5store int6store int8store.

(** The [bswapq] instruction: the eight bytes of the register in reverse. *)
Definition bswapq (v : Z) : Z := from_digits 8 (rev (to_digits 8 8 v)).

Definition mi_uint5korr m p :=
  let a := load 4 m p in
  let b := m (4 + p) in
  let v := u64 ((a .|| u64 (b << 32)) << 24) in
  bswapq v.
Definition mi_uint6korr m p :=
  let a := load 4 m p in
  let b := load 2 m (4 + p) in
  let v := u64 ((a .|| u64 (b << 32)) << 16) in
  bswapq v.
Definition mi_uint7korr m p :=
  let a := load 4 m p in
  let b := load 2 m (4 + p) in
  let c := m (6 + p) in
  let v := u64 ((a .|| u64 (b << 32) .|| u64 (c << 48)) << 8) in
  bswapq v.
Definition mi_uint8korr m p := bswapq (load 8 m p).

End X86_64.

(** ** my_byteorder.h

    The variant is chosen at compile time; the sanitizer build takes the
    generic one. *)

Inductive arch := i386 | x86_64 | other_arch.

Definition arch_ops (a : arch) (WITH_UBSAN : bool) : byte_order :=
  match a with
  | i386 => if WITH_UBSAN then Generic.ops else X86.ops
  | x86_64 => if WITH_UBSAN then Generic.ops else X86_64.ops
  | other_arch => Generic.ops
  end.

Definition int4net m A :=
  s32 (ix m A 3 .|| u32 (ix m A 2 << 8) .|| u32 (ix m A 1 << 16) .|| u32 (ix m A 0 << 24)).

(** ** Floating point values and the machine's own format

    A [float] or [double] variable is the four or eight bytes at its address.
    The macros copy bytes one by one ([copy_bytes]) or through a temporary
    ([get_bytes]), in an order that depends on the platform: big-endian words,
    or little-endian ones with the halves of a [double] in the same or in the
    other order ([__FLOAT_WORD_ORDER]). *)

Inductive word_order := big_words | little_words (float_big : bool).

(** [T[0]= A[j0]; T[1]= A[j1]; ...] *)
Fixpoint copy_from (m : mem) (T A i : Z) (js : list Z) : mem :=
  match js with
  | [] => m
  | j :: js => copy_from (put m T i (ix m A j)) T A (i + 1) js
  end.
Definition copy_bytes (m : mem) (T A : Z) (js : list Z) : mem := copy_from m T A 0 js.

Fixpoint put_list (m : mem) (V i : Z) (vs : list Z) : mem :=
  match vs with
  | [] => m
  | v :: vs => put_list (put m V i v) V (i + 1) vs
  end.
(** [tmp[0]= M[j0]; tmp[1]= M[j1]; ...; V= tmp], and [memcpy] into [V]. *)
Definition get_bytes (m : mem) (V M : Z) (js : list Z) : mem := put_list m V 0 (map (ix m M) js).

Definition same4 : list Z := [0; 1; 2; 3].
Definition rev4 : list Z := [3; 2; 1; 0].
Definition same8 : list Z := [0; 1; 2; 3; 4; 5; 6; 7].
Definition rev8 : list Z := [7; 6; 5; 4; 3; 2; 1; 0].

(** *** little_endian.h and big_endian.h *)

Definition float4store (w : word_order) m (V M : Z) : mem :=
  match w with big_words => copy_bytes m V M rev4 | little_words _ => get_bytes m V M same4 end.
Definition float4get (w : word_order) m (V M : Z) : mem :=
  match w with big_words => get_bytes m V M rev4 | little_words _ => get_bytes m V M same4 end.

Definition doublestore (w : word_order) m (T V : Z) : mem :=
  match w with
  | little_words true => copy_bytes m T V [4; 5; 6; 7; 0; 1; 2; 3]
  | _ => get_bytes m T V same8
  end.
Definition doubleget (w : word_order) m (V M : Z) : mem :=
  match w with
  | little_words true => get_bytes m V M [4; 5; 6; 7; 0; 1; 2; 3]
  | _ => get_bytes m V M same8
  end.
Definition float8store (w : word_order) m (T V : Z) : mem :=
  match w with big_words => copy_bytes m T V rev8 | little_words _ => doublestore w m T V end.
Definition float8get (w : word_order) m (V M : Z) : mem :=
  match w with big_words => get_bytes m V M rev8 | little_words _ => doubleget w m V M end.

Definition floatstore (m : mem) (T V : Z) : mem := get_bytes m T V same4.
Definition floatget (m : mem) (V M : Z) : mem := get_bytes m V M same4.
Definition longlongget (m : mem) (V M : Z) : mem := get_bytes m V M same8.
Definition longlongstore (m : mem) (T V : Z) : mem := get_bytes m T V same8.

(** *** The floating point macros of byte_order_generic_x86.h

    [doubleget] reads two [long]s (of 32 bits) into the union [_tmp] and copies its
    [double] into the variable; [doublestore] writes one [long] of the variable after
    the other; [float4get] assigns the [float] at [M].  An assignment of a floating point
    value is taken to move its bytes. *)
Module X86Float.

Definition doubleget (m : mem) (V M : Z) : mem :=
  let m0 := s32 (load 4 m M) in
  let m1 := s32 (load 4 m (M + 4)) in
  put_list m V 0 (to_digits 8 4 m0 ++ to_digits 8 4 m1).
Definition doublestore (m : mem) (T V : Z) : mem :=
  let m := store 4 m T (s32 (load 4 m V)) in
  store 4 m (T + 4) (s32 (load 4 m (V + 4))).
Definition float4get (m : mem) (V M : Z) : mem := store 4 m V (load 4 m M).
Definition float8get : mem -> Z -> Z -> mem := doubleget.
Definition float4store (m : mem) (V M : Z) : mem := get_bytes m V M same4.
Definition floatstore (m : mem) (T V : Z) : mem := get_bytes m T V same4.
Definition floatget (m : mem) (V M : Z) : mem := get_bytes m V M same4.
Definition float8store : mem -> Z -> Z -> mem := doublestore.

End X86Float.

(** The macros that a build uses: those of the x86 variant where it is chosen
    ([MY_BYTE_ORDER_ARCH_OPTIMIZED]), which [little_endian.h] then leaves alone and
    [big_endian.h] would replace. *)
Definition x86_floats (a : arch) (WITH_UBSAN : bool) (w : word_order) : bool :=
  match a, WITH_UBSAN, w with i386, false, little_words _ => true | _, _, _ => false end.

Section Platform.
Context (a : arch) (WITH_UBSAN : bool) (w : word_order).
Definition my_float4store := if x86_floats a WITH_UBSAN w then X86Float.float4store else float4store w.
Definition my_float4get := if x86_floats a WITH_UBSAN w then X86Float.float4get else float4get w.
Definition my_float8store := if x86_floats a WITH_UBSAN w then X86Float.float8store else float8store w.
Definition my_float8get := if x86_floats a WITH_UBSAN w then X86Float.float8get else float8get w.
Definition my_doublestore := if x86_floats a WITH_UBSAN w then X86Float.doublestore else doublestore w.
Definition my_doubleget := if x86_floats a WITH_UBSAN w then X86Float.doubleget else doubleget w.
Definition my_floatstore := if x86_floats a WITH_UBSAN w then X86Float.floatstore else floatstore.
Definition my_floatget := if x86_floats a WITH_UBSAN w then X86Float.floatget else floatget.
End Platform.

(** The integers of the machine's own format; little-endian platforms use the
    reads and stores of the variant [bo]. *)
Section Machine.
Context (bo : byte_order).
Definition ushortget (w : word_order) m M : Z :=
  match w with
  | big_words => u16 (ix m M 1 + (ix m M 0 << 8))
  | little_words _ => bo_uint2korr bo m M
  end.
Definition shortget (w : word_order) m M : Z :=
  match w with
  | big_words => s16 (ix m M 1 + (ix m M 0 << 8))
  | little_words _ => bo_sint2korr bo m M
  end.
(** On a big-endian machine the four bytes become a word as they are. *)
Definition longget (w : word_order) m M : Z :=
  match w with
  | big_words => s32 (from_digits 8 [ix m M 3; ix m M 2; ix m M 1; ix m M 0])
  | little_words _ => bo_sint4korr bo m M
  end.
Definition ulongget (w : word_order) m M : Z :=
  match w with
  | big_words => u32 (from_digits 8 [ix m M 3; ix m M 2; ix m M 1; ix m M 0])
  | little_words _ => bo_uint4korr bo m M
  end.
Definition shortstore (w : word_order) m T A : mem :=
  match w with
  | big_words =>
    let def_temp := u32 A in
    let m := put m T 1 def_temp in
    put m T 0 (def_temp >> 8)
  | little_words _ => bo_int2store bo m T A
  end.
Definition longstore (w : word_order) m T A : mem :=
  match w with
  | big_words =>
    let m := put m T 3 A in
    let m := put m T 2 (A >> 8) in
    let m := put m T 1 (A >> 16) in
    put m T 0 (A >> 24)
  | little_words _ => bo_int4store bo m T A
  end.
End Machine.

(** ** myisampack.h *)

Inductive abi := LLP64 | LP64.
Definition ulong_bits (p : abi) : Z := match p with LLP64 => 32 | LP64 => 64 end.

Module Mi.

Definition mi_sint1korr m A := s8 (ix m A 0).
Definition mi_uint1korr m A := u8 (ix m A 0).
Definition mi_sint2korr m A := s16 (ix m A 1 .|| (ix m A 0 << 8)).
Definition mi_sint3korr m A :=
  s32 (if nz (Z.land (ix m A 0) 128)
       then u32 (255 << 24) .|| u32 (ix m A 0 << 16) .|| u32 (ix m A 1 << 8) .|| ix m A 2
       else u32 (ix m A 0 << 16) .|| u32 (ix m A 1 << 8) .|| ix m A 2).
Definition mi_sint4korr m A :=
  s32 (ix m A 3 .|| u32 (ix m A 2 << 8) .|| u32 (ix m A 1 << 16) .|| u32 (ix m A 0 << 24)).
Definition mi_uint2korr m A := u16 (ix m A 1 .|| (ix m A 0 << 8)).
Definition mi_uint3korr m A := u32 (ix m A 2 .|| u32 (ix m A 1 << 8) .|| u32 (ix m A 0 << 16)).
Definition mi_uint4korr m A :=
  u32 (ix m A 3 .|| u32 (ix m A 2 << 8) .|| u32 (ix m A 1 << 16) .|| u32 (ix m A 0 << 24)).
Definition mi_uint5korr m A :=
  u64 (ix m A 4 .|| u32 (ix m A 3 << 8) .|| u32 (ix m A 2 << 16) .|| u32 (ix m A 1 << 24)) .||
  u64 (ix m A 0 << 32).
Definition mi_uint6korr m A :=
  u64 (ix m A 5 .|| u32 (ix m A 4 << 8) .|| u32 (ix m A 3 << 16) .|| u32 (ix m A 2 << 24)) .||
  u64 (u64 (ix m A 1 .|| u32 (ix m A 0 << 8)) << 32).
Definition mi_uint7korr m A :=
  u64 (ix m A 6 .|| u32 (ix m A 5 << 8) .|| u32 (ix m A 4 << 16) .|| u32 (ix m A 3 << 24)) .||
  u64 (u64 (ix m A 2 .|| u32 (ix m A 1 << 8) .|| u32 (ix m A 0 << 16)) << 32).
Definition mi_uint8korr m A :=
  u64 (ix m A 7 .|| u32 (ix m A 6 << 8) .|| u32 (ix m A 5 << 16) .|| u32 (ix m A 4 << 24)) .||
  u64 (u64 (ix m A 3 .|| u32 (ix m A 2 << 8) .|| u32 (ix m A 1 << 16) .|| u32 (ix m A 0 << 24)) << 32).
Definition mi_sint8korr m A := s64 (mi_uint8korr m A).

Section Stores.
Context (p : abi).
Definition ulong (v : Z) : Z := wrapU (ulong_bits p) v.

Definition mi_int1store m T A := put m T 0 A.
Definition mi_int2store m T A :=
  let def_temp := u32 A in
  let m := put m T 1 def_temp in
  put m T 0 (def_temp >> 8).
Definition mi_int3store m T A :=
  let def_temp := ulong A in
  let m := put m T 2 def_temp in
  let m := put m T 1 (def_temp >> 8) in
  put m T 0 (def_temp >> 16).
Definition mi_int4store m T A :=
  let def_temp := ulong A in
  let m := put m T 3 def_temp in
  let m := put m T 2 (def_temp >> 8) in
  let m := put m T 1 (def_temp >> 16) in
  put m T 0 (def_temp >> 24).
Definition mi_int5store m T A :=
  let def_temp := ulong A in
  let def_temp2 := ulong (A >> 32) in
  let m := put m T 4 def_temp in
  let m := put m T 3 (def_temp >> 8) in
  let m := put m T 2 (def_temp >> 16) in
  let m := put m T 1 (def_temp >> 24) in
  put m T 0 def_temp2.
Definition mi_int6store m T A :=
  let def_temp := ulong A in
  let def_temp2 := ulong (A >> 32) in
  let m := put m T 5 def_temp in
  let m := put m T 4 (def_temp >> 8) in
  let m := put m T 3 (def_temp >> 16) in
  let m := put m T 2 (def_temp >> 24) in
  let m := put m T 1 def_temp2 in
  put m T 0 (def_temp2 >> 8).
Definition mi_int7store m T A :=
  let def_temp := ulong A in
  let def_temp2 := ulong (A >> 32) in
  let m := put m T 6 def_temp in
  let m := put m T 5 (def_temp >> 8) in
  let m := put m T 4 (def_temp >> 16) in
  let m := put m T 3 (def_temp >> 24) in
  let m := put m T 2 def_temp2 in
  let m := put m T 1 (def_temp2 >> 8) in
  put m T 0 (def_temp2 >> 16).
Definition mi_int8store m T A :=
  let def_temp3 := ulong A in
  let def_temp4 := ulong (A >> 32) in
  let m := mi_int4store m (T + 0) def_temp4 in
  mi_int4store m (T + 4) def_temp3.

(** Row numbers and file offsets occupy eight bytes, whatever the width of
    [ha_rows] and [my_off_t]. *)
Definition HA_OFFSET_ERROR (off_t_bits : Z) : Z := bnot off_t_bits 0.
Definition bfill (m : mem) (A : Z) (len : nat) (fill : Z) : mem :=
  foldr (fun i m => put m A i fill) m (seqZ 0 (Z.of_nat len)).

Definition mi_rowstore (BIG_TABLES : bool) m T A :=
  if BIG_TABLES then mi_int8store m T A
  else let m := mi_int4store m T 0 in mi_int4store m (T + 4) A.
Definition mi_sizestore (off_t_bits : Z) m T A :=
  if 32 <? off_t_bits then mi_int8store m T A
  else if A =? HA_OFFSET_ERROR off_t_bits then bfill m T 8 255
  else let m := mi_int4store m T 0 in mi_int4store m (T + 4) A.
End Stores.

Definition mi_rowkorr (BIG_TABLES : bool) m T :=
  if BIG_TABLES then mi_uint8korr m T else mi_uint4korr m (T + 4).
Definition mi_sizekorr (off_t_bits : Z) m T :=
  if 32 <? off_t_bits then mi_uint8korr m T else mi_uint4korr m (T + 4).

(** The value's most significant byte comes first. *)
Definition mi_float4store (w : word_order) m T A : mem :=
  match w with big_words => copy_bytes m T A same4 | little_words _ => copy_bytes m T A rev4 end.
Definition mi_float4get (w : word_order) m V M : mem :=
  match w with big_words => get_bytes m V M same4 | little_words _ => get_bytes m V M rev4 end.
Definition mi_float8store (w : word_order) m T V : mem :=
  match w with
  | big_words => copy_bytes m T V same8
  | little_words true => copy_bytes m T V [3; 2; 1; 0; 7; 6; 5; 4]
  | little_words false => copy_bytes m T V rev8
  end.
Definition mi_float8get (w : word_order) m V M : mem :=
  match w with
  | big_words => get_bytes m V M same8
  | little_words true => get_bytes m V M [3; 2; 1; 0; 7; 6; 5; 4]
  | little_words false => get_bytes m V M rev8
  end.

End Mi.

(** ** What loads and stores do *)

(** The high-byte-first number of [n] bytes. *)
Definition load_be (n : nat) (m : mem) (A : Z) : Z := from_digits 8 (rev (bytes_at n m A)).

Lemma bytes_at_ok n m A : bytes_ok m -> Forall (in_u 8) (bytes_at n m A).
Proof.
  intros Hm. unfold bytes_at. generalize 0. induction n as [|n IH]; intros i; simpl; constructor; [apply Hm|apply IH].
Qed.

Lemma length_bytes_from n m A i : length (bytes_from n m A i) = n.
Proof. revert i. induction n as [|n IH]; intros i; simpl; [done|]. by rewrite IH. Qed.

Lemma from_digits_range k ds :
  0 <= k -> Forall (in_u k) ds -> in_u (k * Z.of_nat (length ds)) (from_digits k ds).
Proof.
  intros Hk. induction 1 as [|d ds Hd Hds IH]; [split; [done|]; simpl; apply Z.pow_pos_nonneg; lia|].
  rewrite from_digits_cons by done. cbn [length]. unfold in_u in *.
  replace (k * Z.of_nat (S (length ds))) with (k + k * Z.of_nat (length ds)) by lia.
  rewrite Z.pow_add_r by lia. assert (0 < 2 ^ k) by (apply Z.pow_pos_nonneg; lia). nia.
Qed.

Lemma load_range n m A : bytes_ok m -> in_u (8 * Z.of_nat n) (load n m A).
Proof.
  intros Hm. unfold load. pose proof (from_digits_range 8 (bytes_at n m A)) as Hr.
  unfold bytes_at in *. rewrite length_bytes_from in Hr. apply Hr; [lia|by apply bytes_at_ok].
Qed.

(** [m'] is [m] with the bytes [ds] written at [T]. *)
Definition written (m m' : mem) (T : Z) (ds : list Z) : Prop :=
  bytes_at (length ds) m' T = ds /\
  forall x, x < T \/ T + Z.of_nat (length ds) <= x -> m' x = m x.

Lemma bytes_from_ext n m m' A i j :
  (forall x, A + i <= x < A + i + Z.of_nat n -> m' (x + j) = m x) ->
  bytes_from n m' (A + j) i = bytes_from n m A i.
Proof.
  revert i. induction n as [|n IH]; intros i Hx; simpl; [done|]. unfold ix. f_equal.
  - replace (A + j + i) with (A + i + j) by lia. apply Hx. lia.
  - apply IH. intros x Hr. apply Hx. lia.
Qed.

Lemma bytes_from_shift n m A i j : bytes_from n m A (i + j) = bytes_from n m (A + i) j.
Proof.
  revert j. induction n as [|n IH]; intros j; simpl; [done|]. unfold ix.
  rewrite <- IH. f_equal; f_equal; lia.
Qed.

Lemma bytes_at_app n1 n2 m A :
  bytes_at (n1 + n2) m A = bytes_at n1 m A ++ bytes_at n2 m (A + Z.of_nat n1).
Proof.
  revert A. induction n1 as [|n1 IH]; intros A; [simpl; unfold bytes_at; f_equal; lia|].
  unfold bytes_at in *. simpl. f_equal. change 1 with (1 + 0). rewrite !bytes_from_shift, IH. do 2 f_equal. lia.
Qed.

Lemma bytes_at_same n m m' A :
  (forall x, A <= x < A + Z.of_nat n -> m' x = m x) -> bytes_at n m' A = bytes_at n m A.
Proof.
  intros Hx. unfold bytes_at. replace A with (A + 0) at 1 by lia. apply bytes_from_ext.
  intros x Hr. rewrite Z.add_0_r. apply Hx. lia.
Qed.

Lemma written_app m m1 m2 T ds1 ds2 :
  written m m1 T ds1 -> written m1 m2 (T + Z.of_nat (length ds1)) ds2 ->
  written m m2 T (ds1 ++ ds2).
Proof.
  intros [H1 F1] [H2 F2]. split.
  - rewrite length_app, bytes_at_app, H2. f_equal. rewrite <- H1 at 2. apply bytes_at_same.
    intros x Hx. apply F2. lia.
  - intros x Hx. rewrite length_app in Hx. rewrite F2 by lia. apply F1. lia.
Qed.

Lemma written_put m T v : written m (put m T 0 v) T [u8 v].
Proof.
  split; unfold put.
  - cbn. unfold ix. by rewrite Z.eqb_refl.
  - intros x Hx. cbn in Hx. destruct (Z.eqb_spec x (T + 0)); [lia|done].
Qed.

Lemma put_shift m T i v : put m T i v = put m (T + i) 0 v.
Proof. unfold put. by rewrite Z.add_0_r. Qed.

Lemma store_from_shift n m T i j v : store_from n m T (i + j) v = store_from n m (T + i) j v.
Proof.
  revert m j v. induction n as [|n IH]; intros m j v; simpl; [done|].
  rewrite put_shift, (put_shift m (T + i)), <- IH, !Z.add_assoc. reflexivity.
Qed.

Lemma store_written n m T v : written m (store n m T v) T (to_digits 8 n v).
Proof.
  revert m T v. induction n as [|n IH]; intros m T v; [by split|].
  cbn [to_digits]. apply (written_app m (put m T 0 v) _ T [u8 v]); [apply written_put|].
  unfold store. cbn [store_from]. change (0 + 1) with (1 + 0). rewrite store_from_shift. apply IH.
Qed.

Lemma to_digits_app k n1 n2 v :
  0 <= k -> to_digits k (n1 + n2) v = to_digits k n1 v ++ to_digits k n2 (Z.shiftr v (k * Z.of_nat n1)).
Proof.
  intros Hk. revert v. induction n1 as [|n1 IH]; intros v; [by rewrite Z.mul_0_r|].
  cbn [Nat.add to_digits app]. rewrite IH, Z.shiftr_shiftr by lia. do 4 f_equal. lia.
Qed.

Lemma to_digits_wrapU k n w v :
  0 <= k -> k * Z.of_nat n <= w -> to_digits k n (wrapU w v) = to_digits k n v.
Proof.
  intros Hk. revert w v. induction n as [|n IH]; intros w v Hw; cbn [to_digits]; [done|]. f_equal.
  - apply Z.bits_inj'. intros i Hi. rewrite !testbit_wrapU by nia.
    destruct (Z.ltb_spec i k), (Z.ltb_spec i w); simpl; done || nia.
  - rewrite <- (IH (w - k) (Z.shiftr v k)) by lia. f_equal. apply Z.bits_inj'. intros i Hi.
    rewrite testbit_wrapU, !Z.shiftr_spec, testbit_wrapU by nia.
    destruct (Z.ltb_spec (i + k) w), (Z.ltb_spec i (w - k)); simpl; done || lia.
Qed.

Lemma to_digits_wrapS k n w v :
  0 <= k -> 0 < w -> k * Z.of_nat n <= w -> to_digits k n (wrapS w v) = to_digits k n v.
Proof.
  intros Hk Hw Hn. rewrite <- (to_digits_wrapU k n w), wrapU_wrapS, to_digits_wrapU by done. done.
Qed.

Lemma written_unique m m1 m2 T ds x : written m m1 T ds -> written m m2 T ds -> m1 x = m2 x.
Proof.
  intros [H1 F1] [H2 F2]. destruct (decide (x < T \/ T + Z.of_nat (length ds) <= x)) as [|Hx].
  - by rewrite F1, F2.
  - rewrite <- H2 in H1 at 2. clear F1 F2 H2. unfold bytes_at in H1.
    assert (exists k, x = T + 0 + Z.of_nat k /\ (k < length ds)%nat) as (k & -> & Hk)
      by (exists (Z.to_nat (x - T)); split; lia).
    clear Hx. revert H1 k Hk. generalize 0 as i. induction (length ds) as [|n IH]; intros i He k Hk; [lia|].
    cbn [bytes_from] in He. injection He as He1 He2. destruct k as [|k].
    + unfold ix in He1. by rewrite Z.add_0_r.
    + replace (T + i + Z.of_nat (S k)) with (T + (i + 1) + Z.of_nat k) by lia. apply IH; [done|lia].
Qed.

Lemma written_get_le m m' T n v :
  written m m' T (to_digits 8 n v) -> load n m' T = wrapU (8 * Z.of_nat n) v.
Proof.
  intros [H _]. rewrite length_to_digits in H. unfold load. rewrite H. by apply from_to_digits.
Qed.

Lemma written_ok m m' T n v : bytes_ok m -> written m m' T (to_digits 8 n v) -> bytes_ok m'.
Proof.
  intros Hm [H F] x. rewrite length_to_digits in *.
  destruct (decide (x < T \/ T + Z.of_nat n <= x)); [rewrite F by done; apply Hm|].
  pose proof (to_digits_range 8 n v) as Hr. rewrite <- H in Hr. clear H F.
  assert (forall i, 0 <= x - T - i < Z.of_nat n -> Forall (in_u 8) (bytes_from n m' T i) -> in_u 8 (m' x)) as Hg.
  { clear. induction n as [|n IH]; intros i Hi Hf; [lia|]. cbn [bytes_from] in Hf.
    inversion Hf as [|? ? H1 H2]; subst. destruct (decide (x = T + i)) as [->|]; [done|].
    apply (IH (i + 1)); [lia|done]. }
  apply (Hg 0); [lia|]. apply Hr. lia.
Qed.

(** ** The reads of each variant *)

Lemma ix_in_u w m A i : bytes_ok m -> 8 <= w -> in_u w (ix m A i).
Proof. intros Hm Hw. apply (in_u_mono 8); [done|apply Hm]. Qed.

Lemma byte_shl_in_u w m A i k : bytes_ok m -> 0 <= k -> k + 8 <= w -> in_u w (ix m A i << k).
Proof.
  intros Hm Hk Hw. apply (in_u_mono (k + 8)); [done|]. destruct (Hm (A + i)) as [H1 H2]. unfold ix.
  rewrite Z.shiftl_mul_pow2 by done. unfold in_u. rewrite Z.pow_add_r by lia.
  assert (0 < 2 ^ k) by (apply Z.pow_pos_nonneg; lia). nia.
Qed.

Ltac byte_range :=
  repeat (apply lor_in_u; [lia| |]);
  first [apply byte_shl_in_u; [assumption|lia|lia] | apply ix_in_u; [assumption|lia]].

(** Shift counts are numerals. *)
Ltac norm_add :=
  repeat match goal with
  | |- context [Z.add (Zpos ?a) (Zpos ?b)] =>
    let r := eval vm_compute in (Z.add (Zpos a) (Zpos b)) in change (Z.add (Zpos a) (Zpos b)) with r
  end.

(** Remove the conversions that change nothing, from the inside out. *)
Ltac unwrap :=
  repeat first
    [ progress rewrite ?Z.shiftl_lor, ?Z.shiftl_shiftl by lia; norm_add
    | match goal with
      | |- context [wrapU ?w ?e] =>
        lazymatch e with context [wrapU _ _] => fail | context [load _ _ _] => fail | context [load_be _ _ _] => fail | _ => idtac end;
        rewrite (wrapU_small w e) by byte_range
      end ].

(** The word as the disjunction of its shifted bytes. *)
Ltac expand_load :=
  repeat match goal with
  | |- context [load ?n ?m ?A] =>
    let r := eval cbv [load bytes_at bytes_from from_digits Z.add Pos.add Pos.succ] in (load n m A) in
    change (load n m A) with r
  | |- context [load_be ?n ?m ?A] =>
    let r := eval cbv [load_be bytes_at bytes_from rev app from_digits Z.add Pos.add Pos.succ]
      in (load_be n m A) in
    change (load_be n m A) with r
  end;
  rewrite ?Z.shiftl_lor, ?Z.shiftl_shiftl, ?Z.shiftl_0_l, ?Z.lor_0_r by lia;
  norm_add.

Ltac lor_ac := apply Z.bits_inj'; intros ?i _; rewrite ?Z.lor_spec; btauto.

(** The sign test of the three byte forms. *)
Lemma sint3_sign (b : Z) : in_u 8 b -> nz (Z.land b 128) = (128 <=? b).
Proof.
  intros Hb. apply (all_below_spec 256 (fun b => Bool.eqb (nz (Z.land b 128)) (128 <=? b))) in Hb.
  - by apply Bool.eqb_prop in Hb.
  - vm_compute. reflexivity.
Qed.

Lemma sint3_value b0 b1 b2 :
  in_u 8 b0 -> in_u 8 b1 -> in_u 8 b2 ->
  s32 (if nz (Z.land b2 128)
       then u32 (255 << 24) .|| u32 (b2 << 16) .|| u32 (b1 << 8) .|| b0
       else u32 (b2 << 16) .|| u32 (b1 << 8) .|| b0) = wrapS 24 (from_digits 8 [b0; b1; b2]).
Proof.
  intros H0 H1 H2. rewrite sint3_sign by done.
  assert (from_digits 8 [b0; b1; b2; 255] = u32 (255 << 24) .|| u32 (b2 << 16) .|| u32 (b1 << 8) .|| b0) as <-.
  { set (m := fun x => if x =? 0 then b0 else if x =? 1 then b1 else if x =? 2 then b2 else 255).
    assert (bytes_ok m) as Hm by (intros x; unfold m; repeat case_match; try done; by apply (bool_decide_unpack _)).
    change b0 with (ix m 0 0). change b1 with (ix m 0 1). change b2 with (ix m 0 2).
    change (255 << 24) with (ix m 0 3 << 24). change 255 with (ix m 0 3) at 1. unwrap.
    cbn [from_digits]. rewrite ?Z.shiftl_lor, ?Z.shiftl_shiftl, ?Z.shiftl_0_l, ?Z.lor_0_r by lia.
    norm_add. lor_ac. }
  assert (from_digits 8 [b0; b1; b2] = u32 (b2 << 16) .|| u32 (b1 << 8) .|| b0) as <-.
  { set (m := fun x => if x =? 0 then b0 else if x =? 1 then b1 else if x =? 2 then b2 else 255).
    assert (bytes_ok m) as Hm by (intros x; unfold m; repeat case_match; try done; by apply (bool_decide_unpack _)).
    change b0 with (ix m 0 0). change b1 with (ix m 0 1). change b2 with (ix m 0 2). unwrap.
    cbn [from_digits]. rewrite ?Z.shiftl_lor, ?Z.shiftl_shiftl, ?Z.shiftl_0_l, ?Z.lor_0_r by lia.
    norm_add. lor_ac. }
  rewrite !from_digits_cons by (done || by apply (bool_decide_unpack _)). cbn [from_digits].
  unfold in_u in *. unfold wrapS.
  change (2 ^ 8) with 256 in *. change (2 ^ (32 - 1)) with 2147483648. change (2 ^ 32) with 4294967296.
  change (2 ^ (24 - 1)) with 8388608. change (2 ^ 24) with 16777216.
  destruct (Z.leb_spec 128 b2).
  - replace (b0 + 256 * (b1 + 256 * (b2 + 256 * (255 + 256 * 0))) + 2147483648)
      with (b0 + 256 * (b1 + 256 * b2) + 2130706432 + 1 * 4294967296) by lia.
    rewrite Z.mod_add, Z.mod_small by lia.
    replace (b0 + 256 * (b1 + 256 * (b2 + 256 * 0)) + 8388608)
      with (b0 + 256 * (b1 + 256 * b2) - 8388608 + 1 * 16777216) by lia.
    rewrite Z.mod_add, Z.mod_small by lia. lia.
  - rewrite !Z.mod_small by lia. lia.
Qed.

(** ** The laws of a variant

    Reading [n] bytes gives the little-endian number of those bytes (signed or
    not); storing [v] writes the [n] low bytes of [v]. *)
Class ByteOrderLaws (bo : byte_order) : Prop := {
  law_sint2 m A : bytes_ok m -> bo_sint2korr bo m A = wrapS 16 (load 2 m A);
  law_sint3 m A : bytes_ok m -> bo_sint3korr bo m A = wrapS 24 (load 3 m A);
  law_sint4 m A : bytes_ok m -> bo_sint4korr bo m A = wrapS 32 (load 4 m A);
  law_sint8 m A : bytes_ok m -> bo_sint8korr bo m A = wrapS 64 (load 8 m A);
  law_uint2 m A : bytes_ok m -> bo_uint2korr bo m A = load 2 m A;
  law_uint3 m A : bytes_ok m -> bo_uint3korr bo m A = load 3 m A;
  law_uint4 m A : bytes_ok m -> bo_uint4korr bo m A = load 4 m A;
  law_uint5 m A : bytes_ok m -> bo_uint5korr bo m A = load 5 m A;
  law_uint6 m A : bytes_ok m -> bo_uint6korr bo m A = load 6 m A;
  law_uint8 m A : bytes_ok m -> bo_uint8korr bo m A = load 8 m A;
  law_store2 m T v : written m (bo_int2store bo m T v) T (to_digits 8 2 v);
  law_store3 m T v : written m (bo_int3store bo m T v) T (to_digits 8 3 v);
  law_store4 m T v : written m (bo_int4store bo m T v) T (to_digits 8 4 v);
  law_store5 m T v : written m (bo_int5store bo m T v) T (to_digits 8 5 v);
  law_store6 m T v : written m (bo_int6store bo m T v) T (to_digits 8 6 v);
  law_store8 m T v : written m (bo_int8store bo m T v) T (to_digits 8 8 v)
}.

Lemma load_wrapU n w m A : bytes_ok m -> 8 * Z.of_nat n <= w -> wrapU w (load n m A) = load n m A.
Proof. intros Hm Hw. apply wrapU_small. eapply in_u_mono; [exact Hw|by apply load_range]. Qed.

Lemma from_digits_app k ds es :
  0 <= k ->
  from_digits k (ds ++ es) = from_digits k ds .|| (from_digits k es << (k * Z.of_nat (length ds))).
Proof.
  intros Hk. induction ds as [|d ds IH].
  - cbn [app from_digits length]. by rewrite Z.mul_0_r, Z.shiftl_0_r, Z.lor_0_l.
  - cbn [app from_digits length]. rewrite IH, Z.shiftl_lor, Z.shiftl_shiftl by lia. rewrite Z.lor_assoc.
    do 2 f_equal. lia.
Qed.

Lemma load_app n1 n2 m A :
  load (n1 + n2) m A = load n1 m A .|| (load n2 m (A + Z.of_nat n1) << (8 * Z.of_nat n1)).
Proof.
  unfold load. rewrite bytes_at_app, from_digits_app by done. unfold bytes_at. by rewrite length_bytes_from.
Qed.

Lemma load_1 m A : load 1 m A = m A.
Proof. unfold load. cbn. rewrite Z.lor_0_r. unfold ix. f_equal. lia. Qed.

Ltac read_le := intros Hm; cbv beta zeta delta
    [Generic.sint2korr Generic.sint4korr Generic.sint8korr Generic.uint2korr Generic.uint3korr
     Generic.uint4korr Generic.uint5korr Generic.uint6korr Generic.uint8korr
     X86.uint3korr X86.uint5korr X86.uint6korr X86_64.uint3korr int4net
     Mi.mi_sint2korr Mi.mi_sint4korr Mi.mi_uint2korr Mi.mi_uint3korr Mi.mi_uint4korr Mi.mi_uint5korr
     Mi.mi_uint6korr Mi.mi_uint7korr Mi.mi_uint8korr];
  unwrap; try f_equal; expand_load; lor_ac.

(** A sequence of [put]s, byte by byte. *)
Ltac eval_put :=
  unfold put; repeat match goal with
  | |- context [?a =? ?b] => destruct (Z.eqb_spec a b); [try lia|try lia]
  end.

Lemma u8_shiftr_wrapU w v k : 0 <= k -> k + 8 <= w -> u8 (Z.shiftr (wrapU w v) k) = u8 (Z.shiftr v k).
Proof.
  intros Hk Hw. apply Z.bits_inj'. intros i Hi. rewrite !testbit_wrapU, !Z.shiftr_spec, testbit_wrapU by lia.
  destruct (Z.ltb_spec i 8), (Z.ltb_spec (i + k) w); simpl; done || lia.
Qed.
Lemma u8_wrapU w v : 8 <= w -> u8 (wrapU w v) = u8 v.
Proof. intros Hw. rewrite <- (Z.shiftr_0_r (wrapU w v)), u8_shiftr_wrapU by lia. by rewrite Z.shiftr_0_r. Qed.

(** Bytes that a sequence of [put]s leaves. *)
Lemma ix_put_eq m T i v : ix (put m T i v) T i = u8 v.
Proof. unfold ix, put. by rewrite Z.eqb_refl. Qed.
Lemma ix_put_ne m T i j v : i <> j -> ix (put m T i v) T j = ix m T j.
Proof. intros. unfold ix, put. destruct (Z.eqb_spec (T + j) (T + i)); [lia|done]. Qed.
Lemma put_frame m T i v x : x <> T + i -> put m T i v x = m x.
Proof. intros. unfold put. by destruct (Z.eqb_spec x (T + i)). Qed.

Ltac store_le :=
  split;
  [ rewrite length_to_digits; unfold bytes_at; cbn [bytes_from to_digits]; norm_add;
    change (0 + 1) with 1; norm_add;
    repeat first [rewrite ix_put_eq | rewrite ix_put_ne by lia];
    rewrite ?Z.shiftr_shiftr, ?u8_shiftr_wrapU, ?u8_wrapU by lia; norm_add; reflexivity
  | intros x Hx; rewrite length_to_digits in Hx; cbn in Hx; rewrite ?put_frame by lia; reflexivity ].

#[export] Instance generic_laws : ByteOrderLaws Generic.ops.
Proof.
  split; cbn [bo_sint2korr bo_sint3korr bo_sint4korr bo_sint8korr bo_uint2korr bo_uint3korr bo_uint4korr
    bo_uint5korr bo_uint6korr bo_uint8korr bo_int2store bo_int3store bo_int4store bo_int5store bo_int6store
    bo_int8store Generic.ops]; intros m A.
  1,3: read_le.
  1: intros Hm; unfold Generic.sint3korr; rewrite sint3_value by apply Hm; reflexivity.
  1-7: read_le.
  all: intros v.
  - unfold Generic.int2store. store_le.
  - unfold Generic.int3store. store_le.
  - unfold Generic.int4store. store_le.
  - unfold Generic.int5store. store_le.
  - unfold Generic.int6store. store_le.
  - unfold Generic.int8store. rewrite (to_digits_app 8 4 4) by lia.
    rewrite <- (to_digits_wrapU 8 4 32 v), <- (to_digits_wrapU 8 4 32 (Z.shiftr v _)) by lia.
    apply (written_app _ (Generic.int4store m A (u32 v))); [|rewrite length_to_digits];
      unfold Generic.int4store; store_le.
Qed.

Ltac word := intros Hm; cbv beta zeta delta
    [X86.sint2korr X86.sint4korr X86.sint8korr X86.uint2korr X86.uint4korr X86.uint8korr
     X86_64.sint2korr X86_64.sint4korr X86_64.sint8korr X86_64.uint2korr X86_64.uint4korr X86_64.uint8korr];
  rewrite ?load_wrapU by (done || lia); reflexivity.

#[export] Instance x86_laws : ByteOrderLaws X86.ops.
Proof.
  split; cbn [bo_sint2korr bo_sint3korr bo_sint4korr bo_sint8korr bo_uint2korr bo_uint3korr bo_uint4korr
    bo_uint5korr bo_uint6korr bo_uint8korr bo_int2store bo_int3store bo_int4store bo_int5store bo_int6store
    bo_int8store X86.ops]; intros m A.
  1,3,4,5,7,10: word.
  1: intros Hm; unfold X86.sint3korr; rewrite sint3_value by apply Hm; reflexivity.
  1-3: read_le.
  all: intros v.
  - unfold X86.int2store. rewrite <- (to_digits_wrapU 8 2 16) by lia. apply store_written.
  - unfold X86.int3store. store_le.
  - unfold X86.int4store. rewrite <- (to_digits_wrapS 8 4 32) by lia. apply store_written.
  - unfold X86.int5store. store_le.
  - unfold X86.int6store. store_le.
  - unfold X86.int8store. rewrite <- (to_digits_wrapU 8 8 64) by lia. apply store_written.
Qed.

Lemma load_high n1 n2 w m A :
  bytes_ok m -> 8 * Z.of_nat (n1 + n2) <= w ->
  wrapU w (load n2 m (Z.of_nat n1 + A) << (8 * Z.of_nat n1)) = load n2 m (A + Z.of_nat n1) << (8 * Z.of_nat n1).
Proof.
  intros Hm Hw. rewrite (Z.add_comm _ A). apply wrapU_small.
  destruct (load_range n2 m (A + Z.of_nat n1) Hm) as [H1 H2]. unfold in_u.
  rewrite Z.shiftl_mul_pow2 by lia. assert (0 < 2 ^ (8 * Z.of_nat n1)) as Hp by (apply Z.pow_pos_nonneg; lia).
  split; [nia|]. apply Z.lt_le_trans with (2 ^ (8 * Z.of_nat n2) * 2 ^ (8 * Z.of_nat n1)); [nia|].
  rewrite <- Z.pow_add_r by lia. apply Z.pow_le_mono_r; lia.
Qed.

#[export] Instance x86_64_laws : ByteOrderLaws X86_64.ops.
Proof.
  split; cbn [bo_sint2korr bo_sint3korr bo_sint4korr bo_sint8korr bo_uint2korr bo_uint3korr bo_uint4korr
    bo_uint5korr bo_uint6korr bo_uint8korr bo_int2store bo_int3store bo_int4store bo_int5store bo_int6store
    bo_int8store X86_64.ops]; intros m A.
  1,3,4,5,7,10: word.
  1: intros Hm; unfold X86_64.sint3korr; rewrite sint3_value by apply Hm; reflexivity.
  1: read_le.
  - intros Hm. unfold X86_64.uint5korr. rewrite <- (load_1 m (4 + A)), (load_app 4 1). cbv zeta. f_equal.
    by apply (load_high 4 1 64).
  - intros Hm. unfold X86_64.uint6korr. rewrite (load_app 4 2). cbv zeta. f_equal. by apply (load_high 4 2 64).
  - intros v. unfold X86_64.int2store. rewrite <- (to_digits_wrapU 8 2 16) by lia. apply store_written.
  - intros v. unfold X86_64.int3store. store_le.
  - intros v. unfold X86_64.int4store. rewrite <- (to_digits_wrapU 8 4 32) by lia. apply store_written.
  - intros v. unfold X86_64.int5store. rewrite (to_digits_app 8 4 1) by lia.
    rewrite <- (to_digits_wrapU 8 4 32 v) by lia. eapply written_app; [apply store_written|].
    rewrite length_to_digits, put_shift. apply written_put.
  - intros v. unfold X86_64.int6store. rewrite (to_digits_app 8 4 2) by lia.
    rewrite <- (to_digits_wrapU 8 4 32 v), <- (to_digits_wrapU 8 2 16 (Z.shiftr v _)) by lia.
    eapply written_app; [apply store_written|]. rewrite length_to_digits. apply store_written.
  - intros v. unfold X86_64.int8store. rewrite <- (to_digits_wrapU 8 8 64) by lia. apply store_written.
Qed.

#[export] Instance arch_laws a u : ByteOrderLaws (arch_ops a u).
Proof. destruct a, u; apply _. Qed.

(** ** High byte first *)

Lemma mi_sint2_be m A : bytes_ok m -> Mi.mi_sint2korr m A = wrapS 16 (load_be 2 m A).
Proof. read_le. Qed.
Lemma mi_sint3_be m A : bytes_ok m -> Mi.mi_sint3korr m A = wrapS 24 (load_be 3 m A).
Proof. intros Hm. unfold Mi.mi_sint3korr. rewrite sint3_value by apply Hm. reflexivity. Qed.
Lemma mi_sint4_be m A : bytes_ok m -> Mi.mi_sint4korr m A = wrapS 32 (load_be 4 m A).
Proof. read_le. Qed.
Lemma mi_uint2_be m A : bytes_ok m -> Mi.mi_uint2korr m A = load_be 2 m A.
Proof. read_le. Qed.
Lemma mi_uint3_be m A : bytes_ok m -> Mi.mi_uint3korr m A = load_be 3 m A.
Proof. read_le. Qed.
Lemma mi_uint4_be m A : bytes_ok m -> Mi.mi_uint4korr m A = load_be 4 m A.
Proof. read_le. Qed.
Lemma mi_uint5_be m A : bytes_ok m -> Mi.mi_uint5korr m A = load_be 5 m A.
Proof. read_le. Qed.
Lemma mi_uint6_be m A : bytes_ok m -> Mi.mi_uint6korr m A = load_be 6 m A.
Proof. read_le. Qed.
Lemma mi_uint7_be m A : bytes_ok m -> Mi.mi_uint7korr m A = load_be 7 m A.
Proof. read_le. Qed.
Lemma mi_uint8_be m A : bytes_ok m -> Mi.mi_uint8korr m A = load_be 8 m A.
Proof. read_le. Qed.
Lemma int4net_be m A : bytes_ok m -> int4net m A = wrapS 32 (load_be 4 m A).
Proof. read_le. Qed.

(** *** The [bswapq] forms *)

Lemma to_from_digits k ds :
  0 <= k -> Forall (in_u k) ds -> to_digits k (length ds) (from_digits k ds) = ds.
Proof.
  intros Hk. induction 1 as [|d ds Hd Hds IH]; [done|]. cbn [length to_digits]. f_equal.
  - rewrite from_digits_cons by done. unfold wrapU. rewrite Z.mul_comm, Z.mod_add by (apply Z.pow_nonzero; lia).
    by apply Z.mod_small.
  - etransitivity; [|exact IH]. f_equal. apply Z.bits_inj'. intros i Hi. rewrite Z.shiftr_spec by done.
    rewrite testbit_from_digits_cons by (done || lia). destruct (Z.ltb_spec (i + k) k); [lia|].
    by replace (i + k - k) with i by lia.
Qed.

Lemma from_digits_zeros k ds n : 0 <= k -> from_digits k (ds ++ replicate n 0) = from_digits k ds.
Proof.
  intros Hk. rewrite from_digits_app by done.
  assert (from_digits k (replicate n 0) = 0) as ->; [|by rewrite Z.shiftl_0_l, Z.lor_0_r].
  induction n as [|n IH]; [done|]. cbn. by rewrite IH, Z.shiftl_0_l.
Qed.

Lemma from_digits_pad k n ds : 0 <= k -> from_digits k (replicate n 0 ++ ds) = from_digits k ds << (k * Z.of_nat n).
Proof.
  intros Hk. rewrite from_digits_app, length_replicate by done.
  assert (from_digits k (replicate n 0) = 0) as ->; [|by rewrite Z.lor_0_l].
  induction n as [|n IH]; [done|]. cbn. by rewrite IH, Z.shiftl_0_l.
Qed.

Lemma bswapq_load n k m A :
  bytes_ok m -> (n + k = 8)%nat -> X86_64.bswapq (u64 (load n m A << (8 * Z.of_nat k))) = load_be n m A.
Proof.
  intros Hm Hn. unfold load. rewrite <- from_digits_pad by done.
  set (ds := replicate k 0 ++ bytes_at n m A).
  assert (length ds = 8%nat) as Hl.
  { unfold ds. rewrite length_app, length_replicate. unfold bytes_at. rewrite length_bytes_from. lia. }
  assert (Forall (in_u 8) ds) as Hf.
  { apply Forall_app. split; [apply Forall_replicate; by apply (bool_decide_unpack _)|by apply bytes_at_ok]. }
  pose proof (from_digits_range 8 ds ltac:(lia) Hf) as Hr. rewrite Hl in Hr.
  rewrite wrapU_small by exact Hr. unfold X86_64.bswapq. rewrite <- Hl, to_from_digits by done.
  unfold ds. rewrite rev_app_distr.
  unfold load_be. replace (rev (replicate k 0)) with (replicate k 0).
  - by rewrite from_digits_zeros.
  - clear. rewrite rev_alt. symmetry. apply reverse_replicate.
Qed.

Lemma x86_64_mi_uint5 m p : bytes_ok m -> X86_64.mi_uint5korr m p = load_be 5 m p.
Proof.
  intros Hm. unfold X86_64.mi_uint5korr. cbv zeta. rewrite <- (load_1 m (4 + p)).
  rewrite (load_high 4 1 64) by (done || lia). rewrite <- (load_app 4 1). by apply (bswapq_load 5 3).
Qed.
Lemma x86_64_mi_uint6 m p : bytes_ok m -> X86_64.mi_uint6korr m p = load_be 6 m p.
Proof.
  intros Hm. unfold X86_64.mi_uint6korr. cbv zeta.
  rewrite (load_high 4 2 64) by (done || lia). rewrite <- (load_app 4 2). by apply (bswapq_load 6 2).
Qed.
Lemma x86_64_mi_uint7 m p : bytes_ok m -> X86_64.mi_uint7korr m p = load_be 7 m p.
Proof.
  intros Hm. unfold X86_64.mi_uint7korr. cbv zeta. rewrite <- (load_1 m (6 + p)).
  rewrite (load_high 4 2 64) by (done || lia). rewrite <- (load_app 4 2).
  rewrite (load_high 6 1 64) by (done || lia). rewrite <- (load_app 6 1). by apply (bswapq_load 7 1).
Qed.
Lemma x86_64_mi_uint8 m p : bytes_ok m -> X86_64.mi_uint8korr m p = load_be 8 m p.
Proof.
  intros Hm. unfold X86_64.mi_uint8korr. rewrite <- (bswapq_load 8 0) by done.
  change (8 * Z.of_nat 0) with 0. by rewrite Z.shiftl_0_r, load_wrapU.
Qed.

(** *** Stores *)

Ltac store_be p :=
  destruct p; (unfold Mi.ulong; cbn [ulong_bits]; split;
  [ rewrite length_rev, length_to_digits; unfold bytes_at; cbn [bytes_from to_digits rev app]; norm_add;
    change (0 + 1) with 1; norm_add;
    repeat first [rewrite ix_put_eq | rewrite ix_put_ne by lia];
    rewrite ?Z.shiftr_shiftr, ?u8_shiftr_wrapU, ?u8_wrapU by lia;
    rewrite ?Z.shiftr_shiftr by lia; norm_add; reflexivity
  | intros x Hx; rewrite length_rev, length_to_digits in Hx; cbn in Hx; rewrite ?put_frame by lia; reflexivity ]).

Definition stores_be (n : nat) (st : mem -> Z -> Z -> mem) : Prop :=
  forall m T v, written m (st m T v) T (rev (to_digits 8 n v)).

Lemma mi_store1 : stores_be 1 Mi.mi_int1store.
Proof. intros m T v. apply written_put. Qed.
Lemma mi_store2 : stores_be 2 Mi.mi_int2store.
Proof. intros m T v. unfold Mi.mi_int2store. store_be LLP64. Qed.
Lemma mi_store3 p : stores_be 3 (Mi.mi_int3store p).
Proof. intros m T v. unfold Mi.mi_int3store. store_be p. Qed.
Lemma mi_store4 p : stores_be 4 (Mi.mi_int4store p).
Proof. intros m T v. unfold Mi.mi_int4store. store_be p. Qed.
Lemma mi_store5 p : stores_be 5 (Mi.mi_int5store p).
Proof. intros m T v. unfold Mi.mi_int5store. store_be p. Qed.
Lemma mi_store6 p : stores_be 6 (Mi.mi_int6store p).
Proof. intros m T v. unfold Mi.mi_int6store. store_be p. Qed.
Lemma mi_store7 p : stores_be 7 (Mi.mi_int7store p).
Proof. intros m T v. unfold Mi.mi_int7store. store_be p. Qed.
Lemma mi_store8 p : stores_be 8 (Mi.mi_int8store p).
Proof.
  intros m T v. unfold Mi.mi_int8store. rewrite (to_digits_app 8 4 4) by lia. rewrite rev_app_distr.
  rewrite Z.add_0_r. cbv zeta.
  rewrite <- (to_digits_wrapU 8 4 (ulong_bits p) v), <- (to_digits_wrapU 8 4 (ulong_bits p) (Z.shiftr v _))
    by (destruct p; simpl; lia).
  eapply written_app; [apply mi_store4|]. rewrite length_rev, length_to_digits. apply mi_store4.
Qed.

Lemma written_get_be m m' T n v :
  written m m' T (rev (to_digits 8 n v)) -> load_be n m' T = wrapU (8 * Z.of_nat n) v.
Proof.
  intros [H _]. rewrite length_rev, length_to_digits in H. unfold load_be. rewrite H, rev_involutive.
  by apply from_to_digits.
Qed.

Lemma Forall_rev_in (w : Z) ds : Forall (in_u w) ds -> Forall (in_u w) (rev ds).
Proof. apply Forall_rev. Qed.

Lemma written_ok_gen m m' T ds : bytes_ok m -> Forall (in_u 8) ds -> written m m' T ds -> bytes_ok m'.
Proof.
  intros Hm Hds Hw. rewrite <- (to_from_digits 8 ds) in Hw by done. by apply written_ok in Hw.
Qed.

Lemma stores_be_ok n st m T v : stores_be n st -> bytes_ok m -> bytes_ok (st m T v).
Proof.
  intros Hs Hm. eapply written_ok_gen; [done| |apply Hs]. by apply Forall_rev_in, to_digits_range.
Qed.

(** *** Byte order and numeric order *)

(** [memcmp] of two areas of [n] bytes. *)
Fixpoint memcmp (n : nat) (m1 : mem) (A : Z) (m2 : mem) (B : Z) : comparison :=
  match n with
  | O => Eq
  | S n => match m1 A ?= m2 B with Eq => memcmp n m1 (A + 1) m2 (B + 1) | c => c end
  end.

Lemma bytes_at_cons n m A : bytes_at (S n) m A = m A :: bytes_at n m (A + 1).
Proof. change (S n) with (1 + n)%nat. rewrite bytes_at_app. unfold bytes_at at 1. cbn [bytes_from app]. unfold ix. by rewrite Z.add_0_r. Qed.

Lemma load_be_cons n m A :
  bytes_ok m -> load_be (S n) m A = m A * 2 ^ (8 * Z.of_nat n) + load_be n m (A + 1) /\
  in_u (8 * Z.of_nat n) (load_be n m (A + 1)).
Proof.
  intros Hm. unfold load_be. rewrite bytes_at_cons. cbn [rev].
  set (ds := rev (bytes_at n m (A + 1))).
  assert (length ds = n) as Hl by (unfold ds; rewrite length_rev; apply length_bytes_from).
  assert (Forall (in_u 8) ds) as Hf by (by apply Forall_rev_in, bytes_at_ok).
  pose proof (from_digits_range 8 ds ltac:(lia) Hf) as Hr. rewrite Hl in Hr. split; [|done].
  clearbody ds. subst n. clear Hr. induction Hf as [|d ds Hd Hds IH].
  - cbn. rewrite Z.lor_0_r. lia.
  - cbn [app length]. rewrite !from_digits_cons, IH by (lia || done).
    replace (8 * Z.of_nat (S (length ds))) with (8 + 8 * Z.of_nat (length ds)) by lia.
    rewrite Z.pow_add_r by lia. lia.
Qed.

Lemma memcmp_load_be n m1 A m2 B :
  bytes_ok m1 -> bytes_ok m2 -> memcmp n m1 A m2 B = (load_be n m1 A ?= load_be n m2 B).
Proof.
  intros H1 H2. revert A B. induction n as [|n IH]; intros A B; [done|]. cbn [memcmp].
  destruct (load_be_cons n m1 A H1) as [-> R1]. destruct (load_be_cons n m2 B H2) as [-> R2].
  unfold in_u in *. set (P := 2 ^ (8 * Z.of_nat n)) in *.
  destruct (Z.compare_spec (m1 A) (m2 B)) as [E|L|G].
  - rewrite IH, E. destruct (Z.compare_spec (load_be n m1 (A + 1)) (load_be n m2 (B + 1))) as [E'|L'|G'];
      symmetry; [rewrite E'; apply Z.compare_refl|apply Z.compare_lt_iff; lia|apply Z.compare_gt_iff; lia].
  - symmetry. apply Z.compare_lt_iff. nia.
  - symmetry. apply Z.compare_gt_iff. nia.
Qed.

Lemma bfill_written m T : written m (Mi.bfill m T 8 255) T (replicate 8 255).
Proof.
  split.
  - unfold Mi.bfill. cbn [foldr seqZ]. change (seqZ 0 (Z.of_nat 8)) with [0; 1; 2; 3; 4; 5; 6; 7].
    cbn [foldr length replicate]. unfold bytes_at. cbn [bytes_from]. change (0 + 1) with 1. norm_add.
    repeat first [rewrite ix_put_eq | rewrite ix_put_ne by lia]. reflexivity.
  - intros x Hx. rewrite length_replicate in Hx. unfold Mi.bfill.
    change (seqZ 0 (Z.of_nat 8)) with [0; 1; 2; 3; 4; 5; 6; 7]. cbn [foldr]. by rewrite !put_frame by lia.
Qed.

Lemma bytes_at_bfill m T : bytes_at 4 (Mi.bfill m T 8 255) (T + 4) = replicate 4 255.
Proof.
  destruct (bfill_written m T) as [H _]. change (length (replicate 8 255)) with (4 + 4)%nat in H.
  rewrite bytes_at_app in H. change (replicate 8 255) with (replicate 4 255 ++ replicate 4 255) in H.
  apply app_inj_1 in H as [_ H]; [exact H|]. unfold bytes_at. by rewrite length_bytes_from.
Qed.

Lemma mi_uint4_of m T v st : stores_be 4 st -> bytes_ok m -> Mi.mi_uint4korr (st m T v) T = wrapU 32 v.
Proof.
  intros Hs Hm. rewrite mi_uint4_be by (by eapply stores_be_ok). exact (written_get_be _ _ _ 4 v (Hs m T v)).
Qed.
Lemma mi_uint8_of m T v st : stores_be 8 st -> bytes_ok m -> Mi.mi_uint8korr (st m T v) T = wrapU 64 v.
Proof.
  intros Hs Hm. rewrite mi_uint8_be by (by eapply stores_be_ok). exact (written_get_be _ _ _ 8 v (Hs m T v)).
Qed.

Lemma mi_rowstore_korr p big m T v :
  bytes_ok m -> in_u (if big : bool then 64 else 32) v ->
  Mi.mi_rowkorr big (Mi.mi_rowstore p big m T v) T = v.
Proof.
  intros Hm Hv. unfold Mi.mi_rowkorr, Mi.mi_rowstore. cbv zeta. destruct big.
  - rewrite mi_uint8_of by (done || apply mi_store8). by apply wrapU_small.
  - rewrite mi_uint4_of; [by apply wrapU_small|apply mi_store4|].
    eapply stores_be_ok; [apply mi_store4|done].
Qed.

Lemma mi_sizestore_korr p off_t_bits m T v :
  bytes_ok m -> off_t_bits = 32 \/ off_t_bits = 64 -> in_u off_t_bits v ->
  Mi.mi_sizekorr off_t_bits (Mi.mi_sizestore p off_t_bits m T v) T = v.
Proof.
  intros Hm Ho Hv. unfold Mi.mi_sizekorr, Mi.mi_sizestore. cbv zeta. destruct Ho as [-> | ->]; cbn [Z.ltb Z.compare].
  - change (32 <? 32) with false. cbv iota. destruct (Z.eqb_spec v (Mi.HA_OFFSET_ERROR 32)) as [->|].
    + rewrite mi_uint4_be.
      * unfold load_be. rewrite bytes_at_bfill. reflexivity.
      * apply (written_ok_gen m _ T (replicate 8 255)); [done| |apply bfill_written].
        apply (bool_decide_unpack _). vm_compute. exact I.
    + rewrite mi_uint4_of; [by apply wrapU_small|apply mi_store4|].
      eapply stores_be_ok; [apply mi_store4|done].
  - change (32 <? 64) with true. cbv iota. rewrite mi_uint8_of by (done || apply mi_store8). by apply wrapU_small.
Qed.

(** ** Floating point values *)

Lemma copy_from_spec js : forall m T A i,
  (forall j k, In j js -> i <= k < i + Z.of_nat (length js) -> A + j <> T + k) ->
  bytes_from (length js) (copy_from m T A i js) T i = map (fun j => u8 (ix m A j)) js /\
  forall x, x < T + i \/ T + i + Z.of_nat (length js) <= x -> copy_from m T A i js x = m x.
Proof.
  induction js as [|j js IH]; intros m T A i Hd; [done|]. cbn [copy_from length bytes_from map].
  destruct (IH (put m T i (ix m A j)) T A (i + 1)) as [IH1 IH2].
  { intros j' k Hj Hk. apply Hd; [by right|]. cbn [length]. lia. }
  split.
  - f_equal.
    + unfold ix at 1. rewrite IH2 by lia. unfold put. by rewrite Z.eqb_refl.
    + rewrite IH1. apply map_ext_in. intros j' Hj. f_equal. unfold ix. rewrite put_frame; [done|].
      apply (Hd j' i); [by right|]. cbn [length]. lia.
  - intros x Hx. rewrite IH2 by lia. apply put_frame. lia.
Qed.

Lemma put_list_spec vs : forall m V i,
  bytes_from (length vs) (put_list m V i vs) V i = map u8 vs /\
  forall x, x < V + i \/ V + i + Z.of_nat (length vs) <= x -> put_list m V i vs x = m x.
Proof.
  induction vs as [|v vs IH]; intros m V i; [done|]. cbn [put_list length bytes_from map].
  destruct (IH (put m V i v) V (i + 1)) as [IH1 IH2]. split.
  - f_equal; [|exact IH1]. unfold ix. rewrite IH2 by lia. unfold put. by rewrite Z.eqb_refl.
  - intros x Hx. rewrite IH2 by lia. apply put_frame. lia.
Qed.

Lemma nth_bytes_from n m T i j : (j < n)%nat -> nth j (bytes_from n m T i) 0 = ix m T (i + Z.of_nat j).
Proof.
  revert i j. induction n as [|n IH]; intros i j Hj; [lia|]. destruct j as [|j]; cbn [bytes_from nth].
  - f_equal. lia.
  - rewrite IH by lia. f_equal. lia.
Qed.

Lemma ix_bytes n m T k : 0 <= k < Z.of_nat n -> ix m T k = nth (Z.to_nat k) (bytes_at n m T) 0.
Proof. intros Hk. unfold bytes_at. rewrite nth_bytes_from by lia. f_equal. lia. Qed.

Lemma bytes_ix n m A : bytes_at n m A = map (ix m A) (seqZ 0 (Z.of_nat n)).
Proof.
  unfold bytes_at. generalize 0 as i. induction n as [|n IH]; intros i; [by rewrite seqZ_nil by lia|].
  rewrite seqZ_cons by lia. cbn [bytes_from map]. f_equal. rewrite IH. do 2 f_equal; lia.
Qed.

(** A way of storing [n] bytes that puts byte [nth i js] of the source at [i]. *)
Definition moves (n : nat) (js : list Z) (m m' : mem) (T A : Z) : Prop :=
  bytes_at n m' T = map (ix m A) js /\ forall x, x < T \/ T + Z.of_nat n <= x -> m' x = m x.

Lemma copy_moves m T A js :
  bytes_ok m -> (forall j, In j js -> 0 <= j < Z.of_nat (length js)) ->
  T + Z.of_nat (length js) <= A \/ A + Z.of_nat (length js) <= T ->
  moves (length js) js m (copy_bytes m T A js) T A.
Proof.
  intros Hm Hj Hd. destruct (copy_from_spec js m T A 0) as [H1 H2].
  { intros j k Hi Hk. specialize (Hj j Hi). lia. }
  split; [|intros x Hx; apply H2; lia]. etransitivity; [exact H1|]. apply map_ext. intros j.
  apply wrapU_small. apply Hm.
Qed.

Lemma get_moves m V M js : bytes_ok m -> moves (length js) js m (get_bytes m V M js) V M.
Proof.
  intros Hm. destruct (put_list_spec (map (ix m M) js) m V 0) as [H1 H2]. rewrite length_map in H1, H2.
  split; [|intros x Hx; apply H2; lia]. etransitivity; [exact H1|]. rewrite map_map. apply map_ext. intros j.
  apply wrapU_small. apply Hm.
Qed.

(** Moving there and back. *)
Lemma moves_back n js js' m m1 m2 T A V :
  map (fun j => nth (Z.to_nat j) js 0) js' = seqZ 0 (Z.of_nat n) -> length js = n ->
  (forall j, In j js' -> 0 <= j < Z.of_nat n) ->
  moves n js m m1 T A -> moves n js' m1 m2 V T -> bytes_at n m2 V = bytes_at n m A.
Proof.
  intros Hp Hl Hj [H1 _] [H2 _]. rewrite H2, (bytes_ix n m A), <- Hp, map_map. apply map_ext_in. intros j Hi.
  rewrite (ix_bytes n) by auto. rewrite H1.
  rewrite (nth_indep _ 0 (ix m A 0)) by (rewrite length_map, Hl; specialize (Hj j Hi); lia). apply map_nth.
Qed.

Lemma moves_ok n js m m' T A : bytes_ok m -> length js = n -> moves n js m m' T A -> bytes_ok m'.
Proof.
  intros Hm Hl [H F]. apply (written_ok_gen m m' T (map (ix m A) js)); [done| |].
  - apply Forall_forall. intros v Hv. apply list_elem_of_In, in_map_iff in Hv as (j & <- & _). apply Hm.
  - split; rewrite length_map, Hl; [exact H|exact F].
Qed.

(** Storing a value of [n] bytes and reading it into another variable gives the
    same bytes, whatever the two orders in use, as long as they are inverse. *)
Definition float_pair (n : nat) (store get : mem -> Z -> Z -> mem) : Prop :=
  forall m T A V, bytes_ok m -> T + Z.of_nat n <= A \/ A + Z.of_nat n <= T ->
  bytes_at n (get (store m T A) V T) V = bytes_at n m A /\
  forall x, x < T \/ T + Z.of_nat n <= x -> store m T A x = m x.

Ltac in_range := intros ?j Hj; simpl in Hj; repeat destruct Hj as [<-|Hj]; simpl; first [lia|done].

Lemma copy_get_pair js js' :
  map (fun j => nth (Z.to_nat j) js 0) js' = seqZ 0 (Z.of_nat (length js)) ->
  length js = length js' ->
  (forall j, In j js -> 0 <= j < Z.of_nat (length js)) -> (forall j, In j js' -> 0 <= j < Z.of_nat (length js)) ->
  float_pair (length js) (fun m T A => copy_bytes m T A js) (fun m V M => get_bytes m V M js').
Proof.
  intros Hp Hl Hj Hj' m T A V Hm Hd. pose proof (copy_moves m T A js Hm Hj Hd) as M1.
  split; [|apply M1]. eapply moves_back; [exact Hp|done|done|exact M1|]. rewrite Hl.
  apply get_moves. by apply (moves_ok _ js m _ _ _ Hm eq_refl M1).
Qed.

Lemma get_get_pair js js' :
  map (fun j => nth (Z.to_nat j) js 0) js' = seqZ 0 (Z.of_nat (length js)) ->
  length js = length js' -> (forall j, In j js' -> 0 <= j < Z.of_nat (length js)) ->
  float_pair (length js) (fun m T A => get_bytes m T A js) (fun m V M => get_bytes m V M js').
Proof.
  intros Hp Hl Hj' m T A V Hm Hd. pose proof (get_moves m T A js Hm) as M1.
  split; [|apply M1]. eapply moves_back; [exact Hp|done|done|exact M1|]. rewrite Hl.
  apply get_moves. by apply (moves_ok _ js m _ _ _ Hm eq_refl M1).
Qed.

Ltac float_solve :=
  first [ apply (copy_get_pair same4 same4) | apply (copy_get_pair rev4 rev4)
        | apply (get_get_pair same4 same4) | apply (copy_get_pair same8 same8)
        | apply (copy_get_pair rev8 rev8) | apply (get_get_pair same8 same8)
        | apply (copy_get_pair [4; 5; 6; 7; 0; 1; 2; 3] [4; 5; 6; 7; 0; 1; 2; 3])
        | apply (copy_get_pair [3; 2; 1; 0; 7; 6; 5; 4] [3; 2; 1; 0; 7; 6; 5; 4]) ];
  first [reflexivity | in_range].

Lemma machine_floats w :
  float_pair 4 (float4store w) (float4get w) /\ float_pair 8 (float8store w) (float8get w) /\
  float_pair 8 (doublestore w) (doubleget w) /\ float_pair 4 floatstore floatget /\
  float_pair 8 longlongstore longlongget.
Proof. destruct w as [|[]]; split_and!; float_solve. Qed.

(** The bytes of a word that is loaded and stored as a number. *)
Lemma digits_of_load n m A : bytes_ok m -> to_digits 8 n (load n m A) = bytes_at n m A.
Proof.
  intros Hm. unfold load. rewrite <- (length_bytes_from n m A 0) at 1. fold (bytes_at n m A).
  apply to_from_digits; [lia|by apply bytes_at_ok].
Qed.
Lemma digits_of_long m A : bytes_ok m -> to_digits 8 4 (s32 (load 4 m A)) = bytes_at 4 m A.
Proof. intros Hm. rewrite to_digits_wrapS by lia. by apply digits_of_load. Qed.

Lemma put_list_written m V vs : Forall (in_u 8) vs -> written m (put_list m V 0 vs) V vs.
Proof.
  intros Hv. destruct (put_list_spec vs m V 0) as [H1 H2]. split; [|intros x Hx; apply H2; lia].
  etransitivity; [exact H1|]. clear -Hv. induction Hv as [|v vs Hv _ IH]; [done|]. cbn [map]. rewrite IH.
  f_equal. by apply wrapU_small.
Qed.

(** Storing and reading that move the bytes as they are. *)
Lemma pair_of_written n st get :
  (forall m T A, bytes_ok m -> T + Z.of_nat n <= A \/ A + Z.of_nat n <= T -> written m (st m T A) T (bytes_at n m A)) ->
  (forall m V M, bytes_ok m -> written m (get m V M) V (bytes_at n m M)) ->
  float_pair n st get.
Proof.
  intros Hs Hg m T A V Hm Hd. destruct (Hs m T A Hm Hd) as [H1 F1].
  assert (length (bytes_at n m A) = n) as Hl by apply length_bytes_from. rewrite Hl in H1, F1. split; [|exact F1].
  assert (bytes_ok (st m T A)) as Hm1.
  { apply (written_ok_gen m _ T (bytes_at n m A)); [done|by apply bytes_at_ok|by apply Hs]. }
  destruct (Hg (st m T A) V T Hm1) as [H2 _]. unfold bytes_at in H2 at 2.
  rewrite length_bytes_from in H2. by rewrite H2, H1.
Qed.

Lemma x86_doublestore_written m T A :
  bytes_ok m -> T + 8 <= A \/ A + 8 <= T -> written m (X86Float.doublestore m T A) T (bytes_at 8 m A).
Proof.
  intros Hm Hd. unfold X86Float.doublestore. cbv zeta. set (m1 := store 4 m T _).
  assert (written m m1 T (bytes_at 4 m A)) as W1 by (rewrite <- (digits_of_long m A Hm); apply store_written).
  assert (bytes_ok m1) as Hm1 by (apply (written_ok_gen m m1 T (bytes_at 4 m A)); [done|by apply bytes_at_ok|done]).
  assert (bytes_at 4 m1 (A + 4) = bytes_at 4 m (A + 4)) as E.
  { apply bytes_at_same. intros x Hx. apply W1. unfold bytes_at. rewrite length_bytes_from. lia. }
  change 8%nat with (4 + 4)%nat. rewrite bytes_at_app. change (Z.of_nat 4) with 4. rewrite <- E.
  apply (written_app m m1); [exact W1|]. unfold bytes_at at 1. rewrite length_bytes_from. change (Z.of_nat 4) with 4.
  rewrite <- (digits_of_long m1 (A + 4) Hm1). apply store_written.
Qed.

Lemma x86_doubleget_written m V M : bytes_ok m -> written m (X86Float.doubleget m V M) V (bytes_at 8 m M).
Proof.
  intros Hm. unfold X86Float.doubleget. cbv zeta. rewrite !digits_of_long by done.
  change (M + 4) with (M + Z.of_nat 4). rewrite <- bytes_at_app. apply put_list_written. by apply bytes_at_ok.
Qed.

Lemma x86_float_pairs :
  float_pair 4 X86Float.float4store X86Float.float4get /\ float_pair 8 X86Float.float8store X86Float.float8get /\
  float_pair 8 X86Float.doublestore X86Float.doubleget /\ float_pair 4 X86Float.floatstore X86Float.floatget.
Proof.
  assert (float_pair 8 X86Float.doublestore X86Float.doubleget) as D.
  { apply pair_of_written; [intros m T A; apply x86_doublestore_written|intros m V M; apply x86_doubleget_written]. }
  split_and!; [|exact D|exact D|float_solve]. apply pair_of_written.
  - intros m T A Hm _. unfold X86Float.float4store, get_bytes. change same4 with (seqZ 0 (Z.of_nat 4)). rewrite <- bytes_ix.
    apply put_list_written. by apply bytes_at_ok.
  - intros m V M Hm. rewrite <- (digits_of_load 4 m M Hm). apply store_written.
Qed.

(** The macros of every build. *)
Lemma platform_floats a u w :
  float_pair 4 (my_float4store a u w) (my_float4get a u w) /\ float_pair 8 (my_float8store a u w) (my_float8get a u w) /\
  float_pair 8 (my_doublestore a u w) (my_doubleget a u w) /\ float_pair 4 (my_floatstore a u w) (my_floatget a u w) /\
  float_pair 8 longlongstore longlongget.
Proof.
  unfold my_float4store, my_float4get, my_float8store, my_float8get, my_doublestore, my_doubleget, my_floatstore, my_floatget.
  destruct (machine_floats w) as (M1 & M2 & M3 & M4 & M5), x86_float_pairs as (X1 & X2 & X3 & X4).
  by destruct (x86_floats a u w).
Qed.

Lemma mi_floats w :
  float_pair 4 (Mi.mi_float4store w) (Mi.mi_float4get w) /\ float_pair 8 (Mi.mi_float8store w) (Mi.mi_float8get w).
Proof. destruct w as [|[]]; split; float_solve. Qed.

(** The integers of the machine's own format. *)
Lemma machine_integers bo w m T v :
  ByteOrderLaws bo -> bytes_ok m ->
  ushortget bo w (shortstore bo w m T v) T = wrapU 16 v /\ shortget bo w (shortstore bo w m T v) T = wrapS 16 v /\
  ulongget bo w (longstore bo w m T v) T = wrapU 32 v /\ longget bo w (longstore bo w m T v) T = wrapS 32 v.
Proof.
  intros L Hm. destruct w as [|fb].
  - assert (stores_be 2 (shortstore bo big_words)) as S2 by exact mi_store2.
    assert (stores_be 4 (longstore bo big_words)) as S4.
    { intros m0 T0 v0. unfold longstore. store_be LLP64. }
    pose proof (stores_be_ok 2 _ m T v S2 Hm) as K2.
    pose proof (written_get_be _ _ _ _ _ (S2 m T v)) as E2. pose proof (written_get_be _ _ _ _ _ (S4 m T v)) as E4.
    assert (forall m', bytes_ok m' -> ix m' T 1 + (ix m' T 0 << 8) = load_be 2 m' T) as Hadd.
    { intros m' Hm'. unfold load_be. cbn [bytes_at bytes_from rev app]. change (0 + 1) with 1.
      rewrite from_digits_cons, from_digits_cons by (lia || apply Hm'). cbn [from_digits].
      rewrite Z.shiftl_mul_pow2 by lia. lia. }
    unfold ushortget, shortget, ulongget, longget. rewrite !Hadd by done.
    change (from_digits 8 _) with (load_be 4 (longstore bo big_words m T v) T). rewrite E2, E4.
    rewrite !wrapS_wrapU by lia. rewrite !wrapU_idemp by lia. done.
  - unfold ushortget, shortget, ulongget, longget, shortstore, longstore.
    pose proof (law_store2 m T v) as S2. pose proof (law_store4 m T v) as S4.
    rewrite law_uint2, law_sint2, law_uint4, law_sint4 by (by eapply written_ok).
    rewrite (written_get_le _ _ _ _ _ S2), (written_get_le _ _ _ _ _ S4). by rewrite !wrapS_wrapU by lia.
Qed.

(** ** Properties *)

(** C37 : what is stored is read back.  In every variant, after [intNstore] of
    any integer [v] the reads of the same width give [v] modulo [2^(8 N)],
    unsigned or signed, and the bytes outside of the [N] are what they were.  The
    same holds of the machine's own format, and with the macros that the build
    uses, those of the x86 variant included, a [float], [double] or [longlong]
    variable is read back byte for byte from a place apart from it, on every word
    order. *)
Theorem byte_order_roundtrip a u m T v :
  bytes_ok m ->
  let bo := arch_ops a u in
  bo_uint2korr bo (bo_int2store bo m T v) T = wrapU 16 v /\
  bo_sint2korr bo (bo_int2store bo m T v) T = wrapS 16 v /\
  bo_uint3korr bo (bo_int3store bo m T v) T = wrapU 24 v /\
  bo_sint3korr bo (bo_int3store bo m T v) T = wrapS 24 v /\
  bo_uint4korr bo (bo_int4store bo m T v) T = wrapU 32 v /\
  bo_sint4korr bo (bo_int4store bo m T v) T = wrapS 32 v /\
  bo_uint5korr bo (bo_int5store bo m T v) T = wrapU 40 v /\
  bo_uint6korr bo (bo_int6store bo m T v) T = wrapU 48 v /\
  bo_uint8korr bo (bo_int8store bo m T v) T = wrapU 64 v /\
  bo_sint8korr bo (bo_int8store bo m T v) T = wrapS 64 v /\
  (forall n st, In (n, st) [(2, bo_int2store bo); (3, bo_int3store bo); (4, bo_int4store bo);
                            (5, bo_int5store bo); (6, bo_int6store bo); (8, bo_int8store bo)] ->
   forall x, x < T \/ T + n <= x -> st m T v x = m x) /\
  (forall w, ushortget bo w (shortstore bo w m T v) T = wrapU 16 v /\
     shortget bo w (shortstore bo w m T v) T = wrapS 16 v /\
     ulongget bo w (longstore bo w m T v) T = wrapU 32 v /\ longget bo w (longstore bo w m T v) T = wrapS 32 v) /\
  (forall w, float_pair 4 (my_float4store a u w) (my_float4get a u w) /\
     float_pair 8 (my_float8store a u w) (my_float8get a u w) /\
     float_pair 8 (my_doublestore a u w) (my_doubleget a u w) /\
     float_pair 4 (my_floatstore a u w) (my_floatget a u w) /\ float_pair 8 longlongstore longlongget).
Proof.
  intros Hm bo. pose proof (arch_laws a u) as L. fold bo in L. clearbody bo.
  pose proof (law_store2 m T v) as S2. pose proof (law_store3 m T v) as S3.
  pose proof (law_store4 m T v) as S4. pose proof (law_store5 m T v) as S5.
  pose proof (law_store6 m T v) as S6. pose proof (law_store8 m T v) as S8.
  assert (forall n m', written m m' T (to_digits 8 n v) -> bytes_ok m') as Hok by (intros n m'; by apply written_ok).
  rewrite law_uint2, law_sint2, law_uint3, law_sint3, law_uint4, law_sint4, law_uint5, law_uint6, law_uint8,
    law_sint8 by (by eapply Hok).
  rewrite (written_get_le _ _ _ _ _ S2), (written_get_le _ _ _ _ _ S3), (written_get_le _ _ _ _ _ S4),
    (written_get_le _ _ _ _ _ S5), (written_get_le _ _ _ _ _ S6), (written_get_le _ _ _ _ _ S8).
  split_and!; try done; try (by apply wrapS_wrapU);
    [|intros w; by apply machine_integers|intros w; apply platform_floats].
  intros n st Hin x Hx. simpl in Hin. destruct Hin as [[= <- <-]|[[= <- <-]|[[= <- <-]|[[= <- <-]|[[= <- <-]|[[= <- <-]|[]]]]]]];
    [apply S2|apply S3|apply S4|apply S5|apply S6|apply S8]; by rewrite length_to_digits.
Qed.

(** The variants are interchangeable.  On every buffer all three variants
    of each read agree, all three variants of each store leave the same memory,
    and the [bswapq] forms of [mi_uint5korr] to [mi_uint8korr] agree with the
    portable ones. *)
Lemma byte_order_variants_agree a u m A v :
  bytes_ok m ->
  let bo := arch_ops a u in
  let g := Generic.ops in
  (bo_sint2korr bo m A = bo_sint2korr g m A /\ bo_sint3korr bo m A = bo_sint3korr g m A /\
   bo_sint4korr bo m A = bo_sint4korr g m A /\ bo_sint8korr bo m A = bo_sint8korr g m A /\
   bo_uint2korr bo m A = bo_uint2korr g m A /\ bo_uint3korr bo m A = bo_uint3korr g m A /\
   bo_uint4korr bo m A = bo_uint4korr g m A /\ bo_uint5korr bo m A = bo_uint5korr g m A /\
   bo_uint6korr bo m A = bo_uint6korr g m A /\ bo_uint8korr bo m A = bo_uint8korr g m A) /\
  (forall x, bo_int2store bo m A v x = bo_int2store g m A v x /\ bo_int3store bo m A v x = bo_int3store g m A v x /\
   bo_int4store bo m A v x = bo_int4store g m A v x /\ bo_int5store bo m A v x = bo_int5store g m A v x /\
   bo_int6store bo m A v x = bo_int6store g m A v x /\ bo_int8store bo m A v x = bo_int8store g m A v x) /\
  (X86_64.mi_uint5korr m A = Mi.mi_uint5korr m A /\ X86_64.mi_uint6korr m A = Mi.mi_uint6korr m A /\
   X86_64.mi_uint7korr m A = Mi.mi_uint7korr m A /\ X86_64.mi_uint8korr m A = Mi.mi_uint8korr m A).
Proof.
  intros Hm bo g. pose proof (arch_laws a u) as L. fold bo in L. pose proof generic_laws as Lg. fold g in Lg.
  clearbody bo g. split; [|split].
  - by rewrite !law_sint2, !law_sint3, !law_sint4, !law_sint8, !law_uint2, !law_uint3, !law_uint4, !law_uint5,
      !law_uint6, !law_uint8 by done.
  - intros x. assert (forall m1 m2 ds, written m m1 A ds -> written m m2 A ds -> m1 x = m2 x) as Hu
      by (intros; by eapply written_unique).
    repeat split; eapply Hu; solve [apply law_store2|apply law_store3|apply law_store4|apply law_store5|
                                    apply law_store6|apply law_store8].
  - by rewrite x86_64_mi_uint5, x86_64_mi_uint6, x86_64_mi_uint7, x86_64_mi_uint8, mi_uint5_be, mi_uint6_be,
      mi_uint7_be, mi_uint8_be by done.
Qed.

(** The high-byte-first forms lose nothing.  Reading back what
    [mi_intNstore] stored gives the value modulo [2^(8 N)], on platforms with a
    32-bit and with a 64-bit [ulong]; row numbers and file offsets (the
    [HA_OFFSET_ERROR] mark included) come back in every configuration, and so do
    the bytes of a [float] or [double] variable. *)
Lemma mi_store_roundtrip p m T v :
  bytes_ok m ->
  Mi.mi_uint1korr (Mi.mi_int1store m T v) T = wrapU 8 v /\
  Mi.mi_sint1korr (Mi.mi_int1store m T v) T = wrapS 8 v /\
  Mi.mi_uint2korr (Mi.mi_int2store m T v) T = wrapU 16 v /\
  Mi.mi_sint2korr (Mi.mi_int2store m T v) T = wrapS 16 v /\
  Mi.mi_uint3korr (Mi.mi_int3store p m T v) T = wrapU 24 v /\
  Mi.mi_sint3korr (Mi.mi_int3store p m T v) T = wrapS 24 v /\
  Mi.mi_uint4korr (Mi.mi_int4store p m T v) T = wrapU 32 v /\
  Mi.mi_sint4korr (Mi.mi_int4store p m T v) T = wrapS 32 v /\
  Mi.mi_uint5korr (Mi.mi_int5store p m T v) T = wrapU 40 v /\
  Mi.mi_uint6korr (Mi.mi_int6store p m T v) T = wrapU 48 v /\
  Mi.mi_uint7korr (Mi.mi_int7store p m T v) T = wrapU 56 v /\
  Mi.mi_uint8korr (Mi.mi_int8store p m T v) T = wrapU 64 v /\
  Mi.mi_sint8korr (Mi.mi_int8store p m T v) T = wrapS 64 v /\
  (forall big : bool, in_u (if big then 64 else 32) v ->
   Mi.mi_rowkorr big (Mi.mi_rowstore p big m T v) T = v) /\
  (forall off_t_bits, off_t_bits = 32 \/ off_t_bits = 64 -> in_u off_t_bits v ->
   Mi.mi_sizekorr off_t_bits (Mi.mi_sizestore p off_t_bits m T v) T = v) /\
  (forall w, float_pair 4 (Mi.mi_float4store w) (Mi.mi_float4get w) /\
     float_pair 8 (Mi.mi_float8store w) (Mi.mi_float8get w)).
Proof.
  intros Hm.
  assert (forall n st, stores_be n st -> bytes_ok (st m T v)) as Hok by (intros; by eapply stores_be_ok).
  pose proof (Hok _ _ mi_store2) as K2. pose proof (Hok _ _ (mi_store3 p)) as K3.
  pose proof (Hok _ _ (mi_store4 p)) as K4. pose proof (Hok _ _ (mi_store5 p)) as K5.
  pose proof (Hok _ _ (mi_store6 p)) as K6. pose proof (Hok _ _ (mi_store7 p)) as K7.
  pose proof (Hok _ _ (mi_store8 p)) as K8. unfold Mi.mi_sint8korr.
  rewrite mi_uint2_be, mi_sint2_be, mi_uint3_be, mi_sint3_be, mi_uint4_be, mi_sint4_be, mi_uint5_be,
    mi_uint6_be, mi_uint7_be, mi_uint8_be by done.
  rewrite (written_get_be _ _ _ _ _ (mi_store2 m T v)), (written_get_be _ _ _ _ _ (mi_store3 p m T v)),
    (written_get_be _ _ _ _ _ (mi_store4 p m T v)), (written_get_be _ _ _ _ _ (mi_store5 p m T v)),
    (written_get_be _ _ _ _ _ (mi_store6 p m T v)), (written_get_be _ _ _ _ _ (mi_store7 p m T v)),
    (written_get_be _ _ _ _ _ (mi_store8 p m T v)).
  assert (ix (Mi.mi_int1store m T v) T 0 = u8 v) as E1 by apply ix_put_eq.
  unfold Mi.mi_uint1korr, Mi.mi_sint1korr. rewrite E1.
  split_and!; try done; try (by apply wrapS_wrapU); [by apply wrapU_idemp|..|apply mi_floats].
  - intros big. by apply mi_rowstore_korr.
  - intros o. by apply mi_sizestore_korr.
Qed.

(** Keys stored high byte first sort as numbers: for every width from 1
    to 8 and values that fit, [memcmp] of the stored bytes is the comparison of
    the values, and a store changes no byte outside of its own. *)
Lemma mi_store_sorts p n st m T v m' T' v' :
  In (n, st) [(1, Mi.mi_int1store); (2, Mi.mi_int2store); (3, Mi.mi_int3store p); (4, Mi.mi_int4store p);
              (5, Mi.mi_int5store p); (6, Mi.mi_int6store p); (7, Mi.mi_int7store p); (8, Mi.mi_int8store p)] ->
  bytes_ok m -> bytes_ok m' -> in_u (8 * n) v -> in_u (8 * n) v' ->
  memcmp (Z.to_nat n) (st m T v) T (st m' T' v') T' = (v ?= v') /\
  forall x, x < T \/ T + n <= x -> st m T v x = m x.
Proof.
  intros Hin Hm Hm' Hv Hv'.
  assert (0 <= n /\ stores_be (Z.to_nat n) st) as [Hn Hs].
  { simpl in Hin.
    destruct Hin as [[= <- <-]|[[= <- <-]|[[= <- <-]|[[= <- <-]|[[= <- <-]|[[= <- <-]|[[= <- <-]|[[= <- <-]|[]]]]]]]]];
      (split; [lia|]); [apply mi_store1|apply mi_store2|apply mi_store3|apply mi_store4|apply mi_store5|
                        apply mi_store6|apply mi_store7|apply mi_store8]. }
  split.
  - rewrite memcmp_load_be by (by eapply stores_be_ok).
    rewrite (written_get_be _ _ _ _ _ (Hs m T v)), (written_get_be _ _ _ _ _ (Hs m' T' v')).
    rewrite Z2Nat.id by done. by rewrite !wrapU_small by done.
  - intros x Hx. apply (Hs m T v). rewrite length_rev, length_to_digits, Z2Nat.id by done. done.
Qed.

(** *** At concrete buffers *)

Lemma zero_ok : bytes_ok (fun _ => 0).
Proof. intros x. by apply (bool_decide_unpack _). Qed.

Lemma byte_order_roundtrip_witness :
  bo_sint3korr (arch_ops x86_64 false) (bo_int3store (arch_ops x86_64 false) (fun _ => 0) 10 (-2)) 10 = -2.
Proof.
  destruct (byte_order_roundtrip x86_64 false (fun _ => 0) 10 (-2) zero_ok) as (_ & _ & _ & H & _). exact H.
Defined.

(** The high-byte-first forms lose nothing and sort.  For every width from 1
    to 8 bytes, [memcmp] of two values stored by [mi_intNstore] is the comparison
    of the values (those that fit), and a store changes no byte outside of its
    own.  Reading a store back gives the value modulo [2^(8 N)], on platforms with
    a 32-bit and with a 64-bit [ulong]; row numbers and file offsets (the
    [HA_OFFSET_ERROR] mark included) come back in every configuration, and so do
    the bytes of a [float] or [double] variable. *)
Lemma mi_store_correct p n st m T v m' T' v' :
  In (n, st) [(1, Mi.mi_int1store); (2, Mi.mi_int2store); (3, Mi.mi_int3store p); (4, Mi.mi_int4store p);
              (5, Mi.mi_int5store p); (6, Mi.mi_int6store p); (7, Mi.mi_int7store p); (8, Mi.mi_int8store p)] ->
  bytes_ok m -> bytes_ok m' ->
  (in_u (8 * n) v -> in_u (8 * n) v' ->
   memcmp (Z.to_nat n) (st m T v) T (st m' T' v') T' = (v ?= v') /\
   forall x, x < T \/ T + n <= x -> st m T v x = m x) /\
  Mi.mi_uint1korr (Mi.mi_int1store m T v) T = wrapU 8 v /\
  Mi.mi_sint1korr (Mi.mi_int1store m T v) T = wrapS 8 v /\
  Mi.mi_uint2korr (Mi.mi_int2store m T v) T = wrapU 16 v /\
  Mi.mi_sint2korr (Mi.mi_int2store m T v) T = wrapS 16 v /\
  Mi.mi_uint3korr (Mi.mi_int3store p m T v) T = wrapU 24 v /\
  Mi.mi_sint3korr (Mi.mi_int3store p m T v) T = wrapS 24 v /\
  Mi.mi_uint4korr (Mi.mi_int4store p m T v) T = wrapU 32 v /\
  Mi.mi_sint4korr (Mi.mi_int4store p m T v) T = wrapS 32 v /\
  Mi.mi_uint5korr (Mi.mi_int5store p m T v) T = wrapU 40 v /\
  Mi.mi_uint6korr (Mi.mi_int6store p m T v) T = wrapU 48 v /\
  Mi.mi_uint7korr (Mi.mi_int7store p m T v) T = wrapU 56 v /\
  Mi.mi_uint8korr (Mi.mi_int8store p m T v) T = wrapU 64 v /\
  Mi.mi_sint8korr (Mi.mi_int8store p m T v) T = wrapS 64 v /\
  (forall big : bool, in_u (if big then 64 else 32) v ->
   Mi.mi_rowkorr big (Mi.mi_rowstore p big m T v) T = v) /\
  (forall off_t_bits, off_t_bits = 32 \/ off_t_bits = 64 -> in_u off_t_bits v ->
   Mi.mi_sizekorr off_t_bits (Mi.mi_sizestore p off_t_bits m T v) T = v) /\
  (forall w, float_pair 4 (Mi.mi_float4store w) (Mi.mi_float4get w) /\
     float_pair 8 (Mi.mi_float8store w) (Mi.mi_float8get w)).
Proof.
  intros Hin Hm Hm'. split; [|by apply mi_store_roundtrip].
  intros Hv Hv'. by apply (mi_store_sorts p).
Qed.
