(* ===== verification/LifoBuffer.v ===== *)
(** The LIFO buffers of the disk-sweep multi-range read,
    [mariadb/include/mysql/server/private/sql_lifo_buffer.h]: [Lifo_buffer], its
    two implementations [Forward_lifo_buffer] and [Backward_lifo_buffer], and
    [Lifo_buffer_iterator].

    Pointers are addresses of the byte memory of [ByteOrder]; a failed
    [DBUG_ASSERT] is [None].  The virtual methods are the two instances of the
    class [LifoImpl]. *)

From S2P Require Import Prelude ByteOrder.

(** [size_t] quantities are non-negative integers, 0 stands for a null
    pointer. *)
Record lifo := Lifo {
  size1 : Z; size2 : Z;
  write_ptr1 : Z; write_ptr2 : Z;
  read_ptr1 : Z; read_ptr2 : Z;
  start : Z; end_ : Z; pos : Z
}.

Definition set_pos (b : lifo) (p : Z) : lifo :=
  Lifo (size1 b) (size2 b) (write_ptr1 b) (write_ptr2 b) (read_ptr1 b) (read_ptr2 b) (start b) (end_ b) p.
Definition set_space (b : lifo) (s e : Z) : lifo :=
  Lifo (size1 b) (size2 b) (write_ptr1 b) (write_ptr2 b) (read_ptr1 b) (read_ptr2 b) s e (pos b).
Definition set_read (b : lifo) (p p1 p2 : Z) : lifo :=
  Lifo (size1 b) (size2 b) (write_ptr1 b) (write_ptr2 b) p1 p2 (start b) (end_ b) p.

(** [memcpy] of [n] bytes. *)
Definition memcpy (m : mem) (dst src n : Z) : mem :=
  fun x => if (dst <=? x) && (x <? dst + n) then m (x - dst + src) else m x.

Definition assert (c : bool) : option unit := if c then Some tt else None.

(** The outcome of the protected [read]: [None] of the inner option is the end
    of the buffer, otherwise the new position and the two pointers ([ptr2] is
    left alone when the elements are single). *)
Definition read_result : Type := option (Z * Z * option Z).

Inductive enum_direction := BACKWARD | FORWARD.

(** What the two buffers implement. *)
Class LifoImpl (d : enum_direction) := {
  used_size : lifo -> Z;
  reset : lifo -> lifo;
  end_of_space : lifo -> Z;
  have_space_for : lifo -> Z -> bool;
  write : mem -> lifo -> option (mem * lifo);
  read_at : lifo -> Z -> option read_result;
  remove_unused_space : lifo -> option (Z * Z * lifo);
  grow : lifo -> Z -> Z -> option lifo;
  used_area : lifo -> Z;
  get_pos : lifo -> Z
}.

(** ** Forward_lifo_buffer *)

Module Forward.

Definition used_size (b : lifo) : Z := pos b - start b.
Definition reset (b : lifo) : lifo := set_pos b (start b).
Definition end_of_space (b : lifo) : Z := pos b.
Definition have_space_for (b : lifo) (bytes : Z) : bool := pos b + bytes <? end_ b.

Definition write_bytes (m : mem) (b : lifo) (data bytes : Z) : option (mem * lifo) :=
  _ ← assert (have_space_for b bytes);
  Some (memcpy m (pos b) data bytes, set_pos b (pos b + bytes)).

Definition write (m : mem) (b : lifo) : option (mem * lifo) :=
  '(m, b) ← write_bytes m b (write_ptr1 b) (size1 b);
  if nz (size2 b) then write_bytes m b (write_ptr2 b) (size2 b) else Some (m, b).

Definition have_data (b : lifo) (position bytes : Z) : bool := bytes <=? position - start b.

Definition read_bytes (b : lifo) (position bytes : Z) : option Z :=
  _ ← assert (have_data b position bytes);
  Some (position - bytes).

Definition read_at (b : lifo) (position : Z) : option read_result :=
  if negb (have_data b position (size1 b + size2 b)) then Some None
  else
    if nz (size2 b) then
      ptr2 ← read_bytes b position (size2 b);
      ptr1 ← read_bytes b ptr2 (size1 b);
      Some (Some (ptr1, ptr1, Some ptr2))
    else
      ptr1 ← read_bytes b position (size1 b);
      Some (Some (ptr1, ptr1, None)).

Definition remove_unused_space (b : lifo) : option (Z * Z * lifo) := None.

Definition grow (b : lifo) (unused_start unused_end : Z) : option lifo :=
  _ ← assert (unused_start <=? unused_end);
  _ ← assert (end_ b =? unused_start);
  Some (set_space b (start b) unused_end).

Definition used_area (b : lifo) : Z := start b.
Definition get_pos (b : lifo) : Z := pos b.

End Forward.

#[export] Instance forward_impl : LifoImpl FORWARD := {
  used_size := Forward.used_size; reset := Forward.reset; end_of_space := Forward.end_of_space;
  have_space_for := Forward.have_space_for; write := Forward.write; read_at := Forward.read_at;
  remove_unused_space := Forward.remove_unused_space; grow := Forward.grow;
  used_area := Forward.used_area; get_pos := Forward.get_pos
}.

(** ** Backward_lifo_buffer *)

Module Backward.

Definition used_size (b : lifo) : Z := end_ b - pos b.
Definition reset (b : lifo) : lifo := set_pos b (end_ b).
Definition end_of_space (b : lifo) : Z := end_ b.
Definition have_space_for (b : lifo) (bytes : Z) : bool := start b <=? pos b - bytes.

Definition write_bytes (m : mem) (b : lifo) (data bytes : Z) : option (mem * lifo) :=
  _ ← assert (have_space_for b bytes);
  let b := set_pos b (pos b - bytes) in
  Some (memcpy m (pos b) data bytes, b).

Definition write (m : mem) (b : lifo) : option (mem * lifo) :=
  '(m, b) ← (if nz (write_ptr2 b) then write_bytes m b (write_ptr2 b) (size2 b) else Some (m, b));
  write_bytes m b (write_ptr1 b) (size1 b).

Definition have_data (b : lifo) (position bytes : Z) : bool := bytes <=? end_ b - position.

(** Returns the old position, and the new one. *)
Definition read_bytes (b : lifo) (position bytes : Z) : option (Z * Z) :=
  _ ← assert (have_data b position bytes);
  Some (position, position + bytes).

Definition read_at (b : lifo) (position : Z) : option read_result :=
  if negb (have_data b position (size1 b + size2 b)) then Some None
  else
    '(ptr1, position) ← read_bytes b position (size1 b);
    if nz (size2 b) then
      '(ptr2, position) ← read_bytes b position (size2 b);
      Some (Some (position, ptr1, Some ptr2))
    else Some (Some (position, ptr1, None)).

Definition remove_unused_space (b : lifo) : option (Z * Z * lifo) :=
  Some (start b, pos b, set_space b (pos b) (end_ b)).

Definition grow (b : lifo) (unused_start unused_end : Z) : option lifo := None.

Definition used_area (b : lifo) : Z := pos b.
Definition get_pos (b : lifo) : Z := pos b.

End Backward.

#[export] Instance backward_impl : LifoImpl BACKWARD := {
  used_size := Backward.used_size; reset := Backward.reset; end_of_space := Backward.end_of_space;
  have_space_for := Backward.have_space_for; write := Backward.write; read_at := Backward.read_at;
  remove_unused_space := Backward.remove_unused_space; grow := Backward.grow;
  used_area := Backward.used_area; get_pos := Backward.get_pos
}.

#[export] Instance lifo_impl d : LifoImpl d := match d with BACKWARD => backward_impl | FORWARD => forward_impl end.

(** ** Lifo_buffer: the methods shared by both *)

Section Shared.
Context (d : enum_direction).

(** [TRASH_ALLOC] marks the area as undefined in debug builds only. *)
Definition set_buffer_space (b : lifo) (start_arg end_arg : Z) : lifo :=
  reset (LifoImpl := lifo_impl d) (set_space b start_arg end_arg).

Definition setup_writing (b : lifo) (len1 len2 : Z) : lifo :=
  Lifo len1 len2 (write_ptr1 b) (write_ptr2 b) (read_ptr1 b) (read_ptr2 b) (start b) (end_ b) (pos b).

Definition setup_reading (b : lifo) (len1 len2 : Z) : option unit :=
  _ ← assert (len1 =? size1 b);
  assert (len2 =? size2 b).

Definition can_write (b : lifo) : bool := have_space_for (LifoImpl := lifo_impl d) b (size1 b + size2 b).
Definition is_empty (b : lifo) : bool := used_size (LifoImpl := lifo_impl d) b =? 0.

(** [TRUE] at the end of the buffer. *)
Definition read (b : lifo) : option (bool * lifo) :=
  r ← read_at (LifoImpl := lifo_impl d) b (pos b);
  match r with
  | None => Some (true, b)
  | Some (p, p1, p2) => Some (false, set_read b p p1 (default (read_ptr2 b) p2))
  end.

(** ** Lifo_buffer_iterator *)

Record iterator := Iter { it_pos : Z; it_read_ptr1 : Z; it_read_ptr2 : Z }.

Definition it_init (it : iterator) (b : lifo) : iterator :=
  Iter (get_pos (LifoImpl := lifo_impl d) b) (it_read_ptr1 it) (it_read_ptr2 it).

Definition it_read (b : lifo) (it : iterator) : option (bool * iterator) :=
  r ← read_at (LifoImpl := lifo_impl d) b (it_pos it);
  match r with
  | None => Some (true, it)
  | Some (p, p1, p2) => Some (false, Iter p p1 (default (it_read_ptr2 it) p2))
  end.

(** The loop [while (!it.read()) ...] of a reader that looks at the elements. *)
Fixpoint walk (fuel : nat) (m : mem) (b : lifo) (it : iterator) : option (list (list Z * list Z)) :=
  match fuel with
  | O => None
  | S fuel =>
    '(eof, it) ← it_read b it;
    if eof : bool then Some []
    else l ← walk fuel m b it;
         Some ((bytes_at (Z.to_nat (size1 b)) m (it_read_ptr1 it),
                bytes_at (Z.to_nat (size2 b)) m (it_read_ptr2 it)) :: l)
  end.

End Shared.

(** [sort] gives the used area to the server's [my_qsort2]. *)
Section Sort.
Context (my_qsort2 : mem -> Z -> Z -> Z -> mem).
Definition sort (d : enum_direction) (m : mem) (b : lifo) : mem :=
  let elem_size := size1 b + size2 b in
  let n_elements := used_size (LifoImpl := lifo_impl d) b / elem_size in
  my_qsort2 m (used_area (LifoImpl := lifo_impl d) b) n_elements elem_size.
End Sort.

(** ** What a buffer holds *)

Definition elem : Type := list Z * list Z.
Abbreviation sz b := (size1 b + size2 b).

(** [els] lie one after the other from address [a], each as its first and its
    second part. *)
Fixpoint laid (s1 s2 : Z) (m : mem) (a : Z) (els : list elem) : Prop :=
  match els with
  | [] => True
  | (d1, d2) :: els =>
    bytes_at (Z.to_nat s1) m a = d1 /\ bytes_at (Z.to_nat s2) m (a + s1) = d2 /\ laid s1 s2 m (a + (s1 + s2)) els
  end.

Abbreviation bytes_of b st := (sz b * Z.of_nat (length st)).

(** Buffer [b] holds the stack [st], the element written last first. *)
Definition holds (d : enum_direction) (m : mem) (b : lifo) (st : list elem) : Prop :=
  0 <= size1 b /\ 0 <= size2 b /\ 0 < sz b /\
  match d with
  | FORWARD => pos b = start b + bytes_of b st /\ pos b <= end_ b /\
               laid (size1 b) (size2 b) m (start b) (rev st)
  | BACKWARD => pos b = end_ b - bytes_of b st /\ start b <= pos b /\
                laid (size1 b) (size2 b) m (pos b) st
  end.

Lemma memcpy_frame m dst src n x : x < dst \/ dst + n <= x -> memcpy m dst src n x = m x.
Proof.
  intros Hx. unfold memcpy. destruct (Z.leb_spec dst x), (Z.ltb_spec x (dst + n)); simpl; done || lia.
Qed.

Lemma bytes_at_memcpy m dst src n : bytes_at (Z.to_nat n) (memcpy m dst src n) dst = bytes_at (Z.to_nat n) m src.
Proof.
  unfold bytes_at. replace dst with (src + (dst - src)) at 2 by lia. apply bytes_from_ext.
  intros x Hx. unfold memcpy. rewrite Z.add_0_r in Hx.
  destruct (Z.leb_spec dst (x + (dst - src))), (Z.ltb_spec (x + (dst - src)) (dst + n)); simpl; try lia.
  f_equal. lia.
Qed.

Lemma laid_app s1 s2 m a xs ys :
  laid s1 s2 m a (xs ++ ys) <-> laid s1 s2 m a xs /\ laid s1 s2 m (a + (s1 + s2) * Z.of_nat (length xs)) ys.
Proof.
  revert a. induction xs as [|[d1 d2] xs IH]; intros a; simpl.
  - change (Z.of_nat 0) with 0. rewrite Z.mul_0_r, Z.add_0_r. tauto.
  - rewrite IH. replace (a + (s1 + s2) * Z.of_nat (S (length xs)))
      with (a + (s1 + s2) + (s1 + s2) * Z.of_nat (length xs)) by lia. tauto.
Qed.

(** The elements depend on their own bytes only. *)
Lemma laid_frame s1 s2 m m' a els :
  0 <= s1 -> 0 <= s2 ->
  (forall x, a <= x < a + (s1 + s2) * Z.of_nat (length els) -> m' x = m x) ->
  laid s1 s2 m a els -> laid s1 s2 m' a els.
Proof.
  intros H1 H2. revert a. induction els as [|[d1 d2] els IH]; intros a Hx; simpl; [done|].
  cbn [length] in Hx. intros (<- & <- & Hl). split; [|split].
  - apply bytes_at_same. intros x Hr. apply Hx. nia.
  - apply bytes_at_same. intros x Hr. apply Hx. nia.
  - apply IH; [|done]. intros x Hr. apply Hx. nia.
Qed.

(** *** Writing *)

(** The two source areas are outside of the buffer's space, and there is a
    second one when elements are pairs. *)
Definition sources_ok (b : lifo) : Prop :=
  (write_ptr1 b + size1 b <= start b \/ end_ b <= write_ptr1 b) /\
  (write_ptr2 b + size2 b <= start b \/ end_ b <= write_ptr2 b) /\
  (write_ptr2 b = 0 -> size2 b = 0).

Definition to_write (m : mem) (b : lifo) : elem :=
  (bytes_at (Z.to_nat (size1 b)) m (write_ptr1 b), bytes_at (Z.to_nat (size2 b)) m (write_ptr2 b)).

(** [m'] holds the bytes of an element at [a], and is [m] elsewhere. *)
Definition placed (m m' : mem) (s1 s2 a : Z) (e : elem) : Prop :=
  bytes_at (Z.to_nat s1) m' a = e.1 /\ bytes_at (Z.to_nat s2) m' (a + s1) = e.2 /\
  forall x, x < a \/ a + (s1 + s2) <= x -> m' x = m x.

Lemma assert_true (c : bool) : c = true -> assert c = Some tt.
Proof. by intros ->. Qed.
Lemma assert_false (c : bool) : c = false -> assert c = None.
Proof. by intros ->. Qed.

Lemma forward_write m b st :
  holds FORWARD m b st -> sources_ok b -> can_write FORWARD b = true ->
  exists m', Forward.write m b = Some (m', set_pos b (pos b + sz b)) /\
    placed m m' (size1 b) (size2 b) (pos b) (to_write m b).
Proof.
  intros (H1 & H2 & H3 & Hp & _) (O1 & O2 & _) Hc.
  assert (start b <= pos b) as Hsp by nia. clear Hp.
  unfold can_write in Hc. simpl in Hc. unfold Forward.have_space_for in Hc. apply Z.ltb_lt in Hc.
  unfold Forward.write, Forward.write_bytes, Forward.have_space_for.
  rewrite assert_true by (apply Z.ltb_lt; lia).
  cbn [mbind option_bind set_pos size1 size2 write_ptr1 write_ptr2 pos end_].
  destruct (nz (size2 b)) eqn:Hn.
  - rewrite assert_true by (apply Z.ltb_lt; lia). cbn [mbind option_bind].
    eexists. split; [unfold set_pos; simpl; rewrite Z.add_assoc; reflexivity|]. split; [|split].
    + simpl. rewrite <- (bytes_at_memcpy m (pos b)). apply bytes_at_same. intros x Hx. apply memcpy_frame. lia.
    + simpl. rewrite bytes_at_memcpy. apply bytes_at_same. intros x Hx. apply memcpy_frame. lia.
    + intros x Hx. rewrite !memcpy_frame by lia. done.
  - apply nz_false in Hn. eexists. split; [unfold set_pos; simpl; rewrite Hn, Z.add_0_r; reflexivity|]. unfold to_write.
    rewrite !Hn. split; [|split]; simpl.
    + apply bytes_at_memcpy.
    + done.
    + intros x Hx. rewrite memcpy_frame by lia. done.
Qed.

Lemma backward_write m b st :
  holds BACKWARD m b st -> sources_ok b -> can_write BACKWARD b = true ->
  exists m', Backward.write m b = Some (m', set_pos b (pos b - sz b)) /\
    placed m m' (size1 b) (size2 b) (pos b - sz b) (to_write m b).
Proof.
  intros (H1 & H2 & H3 & Hp & _) (O1 & O2 & O3) Hc.
  assert (pos b <= end_ b) as Hsp by nia. clear Hp.
  unfold can_write in Hc. simpl in Hc. unfold Backward.have_space_for in Hc. apply Z.leb_le in Hc.
  unfold Backward.write, Backward.write_bytes, Backward.have_space_for.
  destruct (nz (write_ptr2 b)) eqn:Hn.
  - rewrite assert_true by (apply Z.leb_le; lia). cbn [mbind option_bind set_pos size1 size2 write_ptr1 pos start].
    rewrite assert_true by (apply Z.leb_le; lia). cbn [mbind option_bind].
    eexists. split; [unfold set_pos; simpl; rewrite (Z.add_comm (size1 b)), Z.sub_add_distr; reflexivity|]. unfold to_write. split; [|split]; simpl.
    + replace (pos b - sz b) with (pos b - size2 b - size1 b) by lia. rewrite bytes_at_memcpy.
      apply bytes_at_same. intros x Hx. apply memcpy_frame. lia.
    + replace (pos b - sz b + size1 b) with (pos b - size2 b) by lia. rewrite <- (bytes_at_memcpy m (pos b - size2 b)).
      apply bytes_at_same. intros x Hx. apply memcpy_frame. lia.
    + intros x Hx. rewrite !memcpy_frame by lia. done.
  - apply nz_false in Hn. specialize (O3 Hn). cbn [mbind option_bind].
    rewrite assert_true by (apply Z.leb_le; lia). cbn [mbind option_bind].
    eexists. split; [unfold set_pos; simpl; rewrite O3, Z.add_0_r; reflexivity|]. unfold to_write. rewrite !O3.
    replace (pos b - (size1 b + 0)) with (pos b - size1 b) by lia. split; [|split]; simpl.
    + apply bytes_at_memcpy.
    + done.
    + intros x Hx. rewrite memcpy_frame by lia. done.
Qed.

Lemma holds_placed_forward m m' b st e :
  holds FORWARD m b st -> pos b + sz b <= end_ b -> placed m m' (size1 b) (size2 b) (pos b) e ->
  holds FORWARD m' (set_pos b (pos b + sz b)) (e :: st).
Proof.
  intros (H1 & H2 & H3 & Hp & He & Hl) Hr (P1 & P2 & P3). repeat (split; [done|]). cbn [set_pos pos size1 size2 start end_].
  split; [cbn [length]; lia|]. split; [lia|]. cbn [rev]. rewrite laid_app, length_rev, <- Hp. split.
  - apply (laid_frame _ _ m); [done..| |done]. intros x Hx. rewrite length_rev in Hx. apply P3. lia.
  - destruct e. simpl. done.
Qed.

Lemma holds_placed_backward m m' b st e :
  holds BACKWARD m b st -> start b <= pos b - sz b -> placed m m' (size1 b) (size2 b) (pos b - sz b) e ->
  holds BACKWARD m' (set_pos b (pos b - sz b)) (e :: st).
Proof.
  intros (H1 & H2 & H3 & Hp & He & Hl) Hr (P1 & P2 & P3). repeat (split; [done|]). cbn [set_pos pos size1 size2 start end_].
  split; [cbn [length]; lia|]. split; [lia|]. destruct e. simpl. split; [done|]. split; [done|].
  replace (pos b - sz b + sz b) with (pos b) by lia.
  apply (laid_frame _ _ m); [done..| |done]. intros x Hx. apply P3. lia.
Qed.

(** *** Reading *)

Lemma read_at_set_pos d b p q : read_at (LifoImpl := lifo_impl d) (set_pos b p) q = read_at (LifoImpl := lifo_impl d) b q.
Proof. by destruct d. Qed.

Lemma holds_read_nil d m b :
  holds d m b [] -> read_at (LifoImpl := lifo_impl d) b (pos b) = Some None.
Proof.
  intros (H1 & H2 & H3 & Hd). destruct d; simpl; unfold Backward.read_at, Forward.read_at,
    Backward.have_data, Forward.have_data; destruct Hd as (Hp & _); cbn [length] in Hp;
    destruct (Z.leb_spec (sz b) (end_ b - pos b)); destruct (Z.leb_spec (sz b) (pos b - start b)); simpl; done || lia.
Qed.

(** What the pointers of a read point at. *)
Definition points (m : mem) (b : lifo) (p1 : Z) (p2 : option Z) (e : elem) : Prop :=
  bytes_at (Z.to_nat (size1 b)) m p1 = e.1 /\
  match p2 with Some p2 => bytes_at (Z.to_nat (size2 b)) m p2 = e.2 | None => e.2 = [] /\ size2 b = 0 end.

Lemma forward_read_cons m b e st :
  holds FORWARD m b (e :: st) ->
  exists p2, Forward.read_at b (pos b) = Some (Some (pos b - sz b, pos b - sz b, p2)) /\
    points m b (pos b - sz b) p2 e /\ holds FORWARD m (set_pos b (pos b - sz b)) st.
Proof.
  intros (H1 & H2 & H3 & Hp & He & Hl). cbn [rev] in Hl. rewrite laid_app, length_rev in Hl.
  destruct Hl as [Hl Hx]. destruct e as [d1 d2]. cbn [laid] in Hx. destruct Hx as (E1 & E2 & _).
  cbn [length] in Hp. assert (start b + sz b * Z.of_nat (length st) = pos b - sz b) as Ep by lia. rewrite Ep in E1, E2.
  unfold Forward.read_at, Forward.read_bytes, Forward.have_data.
  rewrite (proj2 (Z.leb_le _ _)) by nia. cbn [negb].
  assert (holds FORWARD m (set_pos b (pos b - sz b)) st) as Hh.
  { unfold holds. cbn [set_pos pos start end_ size1 size2]. split_and!; first [done|lia]. }
  destruct (nz (size2 b)) eqn:Hn.
  - rewrite assert_true by (apply Z.leb_le; nia). cbn [mbind option_bind].
    rewrite assert_true by (apply Z.leb_le; nia). cbn [mbind option_bind].
    exists (Some (pos b - size2 b)). replace (pos b - size2 b - size1 b) with (pos b - sz b) by lia. split; [done|]. split; [|done]. split; [done|].
    cbn [snd]. rewrite <- E2. f_equal. lia.
  - apply nz_false in Hn. rewrite assert_true by (apply Z.leb_le; nia). cbn [mbind option_bind].
    exists None. replace (pos b - size1 b) with (pos b - sz b) by lia. split; [done|]. split; [|done].
    split; [done|]. cbn [snd]. split; [|done]. rewrite <- E2, Hn. done.
Qed.

Lemma backward_read_cons m b e st :
  holds BACKWARD m b (e :: st) ->
  exists p2, Backward.read_at b (pos b) = Some (Some (pos b + sz b, pos b, p2)) /\
    points m b (pos b) p2 e /\ holds BACKWARD m (set_pos b (pos b + sz b)) st.
Proof.
  intros (H1 & H2 & H3 & Hp & He & Hl). destruct e as [d1 d2]. cbn [laid] in Hl. destruct Hl as (E1 & E2 & Hl).
  cbn [length] in Hp. unfold Backward.read_at, Backward.read_bytes, Backward.have_data.
  rewrite (proj2 (Z.leb_le _ _)) by nia. cbn [negb].
  assert (holds BACKWARD m (set_pos b (pos b + sz b)) st) as Hh.
  { unfold holds. cbn [set_pos pos start end_ size1 size2]. split_and!; first [done|lia]. }
  rewrite assert_true by (apply Z.leb_le; nia). cbn [mbind option_bind].
  destruct (nz (size2 b)) eqn:Hn.
  - rewrite assert_true by (apply Z.leb_le; nia). cbn [mbind option_bind].
    exists (Some (pos b + size1 b)). replace (pos b + size1 b + size2 b) with (pos b + sz b) by lia. done.
  - apply nz_false in Hn. exists None. replace (pos b + size1 b) with (pos b + sz b) by lia. split; [done|]. split; [|done]. split; [done|]. cbn [snd].
    split; [|done]. rewrite <- E2, Hn. done.
Qed.

Lemma holds_read_cons d m b e st :
  holds d m b (e :: st) ->
  exists p p1 p2, read_at (LifoImpl := lifo_impl d) b (pos b) = Some (Some (p, p1, p2)) /\
    points m b p1 p2 e /\ holds d m (set_pos b p) st.
Proof.
  intros Hh. destruct d.
  - destruct (backward_read_cons m b e st Hh) as (p2 & H). by eexists _, _, p2.
  - destruct (forward_read_cons m b e st Hh) as (p2 & H). by eexists _, _, p2.
Qed.

(** The read pointers are not part of what a buffer holds. *)
Lemma holds_set_read d m b p p1 p2 st : holds d m (set_pos b p) st -> holds d m (set_read b p p1 p2) st.
Proof. by destruct d. Qed.

Lemma points_default m b p1 p2 p2' e :
  points m b p1 p2 e -> bytes_at (Z.to_nat (size2 b)) m (default p2' p2) = e.2.
Proof. intros [_ H2]. destruct p2 as [p2|]; simpl; [done|]. by destruct H2 as [-> ->]. Qed.

Lemma walk_holds d m b st it fuel :
  holds d m (set_pos b (it_pos it)) st -> (length st < fuel)%nat -> walk d fuel m b it = Some st.
Proof.
  revert it fuel. induction st as [|e st IH]; intros it fuel Hh Hf; (destruct fuel as [|fuel]; [simpl in Hf; lia|]);
    cbn [walk]; unfold it_read; rewrite <- (read_at_set_pos d b (it_pos it)).
  - pose proof (holds_read_nil d m _ Hh) as Hn. change (pos (set_pos b (it_pos it))) with (it_pos it) in Hn.
    by rewrite Hn.
  - destruct (holds_read_cons d m _ e st Hh) as (p & p1 & p2 & Hr & Hpt & Hh').
    change (pos (set_pos b (it_pos it))) with (it_pos it) in Hr. rewrite Hr. cbn [mbind option_bind].
    rewrite IH; [|exact Hh'|simpl in Hf; lia]. cbn [mbind option_bind it_read_ptr1 it_read_ptr2]. do 2 f_equal.
    rewrite (points_default m _ p1 p2 _ e Hpt : bytes_at (Z.to_nat (size2 b)) m _ = e.2).
    destruct Hpt as [Hp1 _]. cbn [set_pos size1] in Hp1. rewrite Hp1. by destruct e.
Qed.

Lemma write_full d m b :
  0 <= size1 b -> 0 <= size2 b -> sources_ok b -> can_write d b = false ->
  write (LifoImpl := lifo_impl d) m b = None.
Proof.
  intros H1 H2 (_ & _ & H3) Hc. unfold can_write in Hc. destruct d; simpl in Hc |- *.
  - unfold Backward.have_space_for in Hc. apply Z.leb_gt in Hc. unfold Backward.write, Backward.write_bytes,
      Backward.have_space_for. destruct (nz (write_ptr2 b)) eqn:Hn.
    + destruct (start b <=? pos b - size2 b); cbn [assert mbind option_bind]; [|done].
      cbn [set_pos size1 size2 write_ptr1 pos start]. by rewrite assert_false by (apply Z.leb_gt; lia).
    + apply nz_false in Hn. rewrite (H3 Hn) in Hc. cbn [mbind option_bind].
      by rewrite assert_false by (apply Z.leb_gt; lia).
  - unfold Forward.have_space_for in Hc. apply Z.ltb_ge in Hc. unfold Forward.write, Forward.write_bytes,
      Forward.have_space_for. destruct (pos b + size1 b <? end_ b) eqn:Ht; cbn [assert mbind option_bind]; [|done].
    apply Z.ltb_lt in Ht. cbn [set_pos size1 size2 write_ptr2 pos end_].
    destruct (nz (size2 b)) eqn:Hn; [by rewrite assert_false by (apply Z.ltb_ge; lia)|].
    apply nz_false in Hn. lia.
Qed.

Lemma is_empty_holds d m b st : holds d m b st -> is_empty d b = bool_decide (st = []).
Proof.
  intros (H1 & H2 & H3 & Hd). unfold is_empty.
  assert (used_size (LifoImpl := lifo_impl d) b = bytes_of b st) as ->.
  { destruct d; simpl; unfold Forward.used_size, Backward.used_size; lia. }
  destruct st as [|e st]; [by rewrite Z.mul_0_r|]. cbn [length]. rewrite (proj2 (Z.eqb_neq _ _)) by nia. done.
Qed.

Lemma holds_space d m b s e :
  0 <= size1 b -> 0 <= size2 b -> 0 < sz b -> s <= e -> holds d m (set_buffer_space d b s e) [].
Proof.
  intros H1 H2 H3 Hse. destruct d; cbn; repeat (split; [done|]);
    unfold Backward.reset, Forward.reset, set_pos, set_space; cbn; (split; [lia|done]).
Qed.

Lemma holds_write d m b st :
  holds d m b st -> sources_ok b -> can_write d b = true ->
  exists m' b', write (LifoImpl := lifo_impl d) m b = Some (m', b') /\ holds d m' b' (to_write m b :: st) /\
    (forall x, x < start b \/ end_ b <= x -> m' x = m x) /\ start b' = start b /\ end_ b' = end_ b.
Proof.
  intros Hh Hs Hc. destruct d.
  - destruct (backward_write m b st Hh Hs Hc) as (m' & Hw & Hpl).
    unfold can_write in Hc. simpl in Hc. apply Z.leb_le in Hc.
    exists m', (set_pos b (pos b - sz b)). split; [done|]. split; [by apply holds_placed_backward with m|].
    split; [|done]. intros x Hx. apply Hpl. destruct Hh as (H1 & H2 & H3 & Hp & _). nia.
  - destruct (forward_write m b st Hh Hs Hc) as (m' & Hw & Hpl).
    unfold can_write in Hc. simpl in Hc. apply Z.ltb_lt in Hc.
    exists m', (set_pos b (pos b + sz b)). split; [done|]. split; [apply holds_placed_forward with m; [done|lia|done]|].
    split; [|done]. intros x Hx. apply Hpl. destruct Hh as (H1 & H2 & H3 & Hp & _). nia.
Qed.

(** ** Properties *)

(** Both buffers are stacks.  A fresh space is the empty stack.  When
    [can_write] holds, [write] pushes the element that the write pointers point
    at and changes no byte outside of the buffer; when it does not, [write]
    fails its assertion.  [read] reports the end exactly on the empty stack and
    otherwise pops the element written last, which its pointers point at.  The
    iterator's loop terminates and sees all elements, last written first,
    without changing the buffer. *)
Lemma lifo_refines_stack d m b st fuel :
  holds d m b st -> (length st < fuel)%nat ->
  (forall s e, s <= e -> holds d m (set_buffer_space d b s e) []) /\
  is_empty d b = bool_decide (st = []) /\
  (sources_ok b -> can_write d b = true ->
   exists m' b', write (LifoImpl := lifo_impl d) m b = Some (m', b') /\ holds d m' b' (to_write m b :: st) /\
     (forall x, x < start b \/ end_ b <= x -> m' x = m x)) /\
  (sources_ok b -> can_write d b = false -> write (LifoImpl := lifo_impl d) m b = None) /\
  match st with
  | [] => read d b = Some (true, b)
  | e :: st' => exists b', read d b = Some (false, b') /\ holds d m b' st' /\
      bytes_at (Z.to_nat (size1 b)) m (read_ptr1 b') = e.1 /\ bytes_at (Z.to_nat (size2 b)) m (read_ptr2 b') = e.2
  end /\
  (forall it, walk d fuel m b (it_init d it b) = Some st).
Proof.
  intros Hh Hf. pose proof Hh as (H1 & H2 & H3 & _). split; [|split; [|split; [|split; [|split]]]].
  - intros s e. by apply holds_space.
  - by eapply is_empty_holds.
  - intros Hs Hc. destruct (holds_write d m b st Hh Hs Hc) as (m' & b' & Hw & Hh' & Hx & _). by exists m', b'.
  - intros. by apply write_full.
  - unfold read. destruct st as [|e st].
    + pose proof (holds_read_nil d m b Hh) as Hr. by rewrite Hr.
    + destruct (holds_read_cons d m b e st Hh) as (p & p1 & p2 & Hr & Hpt & Hh'). rewrite Hr.
      eexists. split; [reflexivity|]. split; [by apply holds_set_read|].
      split; [apply Hpt|]. exact (points_default m b p1 p2 _ e Hpt).
  - intros it. apply walk_holds; [|done]. destruct d; by destruct b.
Qed.

(** Two buffers share one area.  Let a forward buffer end where a backward
    buffer starts.  The backward buffer's unused space can be moved to the
    forward buffer ([remove_unused_space], then [grow], whose assertions hold):
    no element of either is lost and the buffers are adjacent again, whether or
    not elements of the backward one have been read; and an element then written
    to the forward buffer leaves the backward buffer's elements intact.  (The
    forward buffer takes everything that fits but the very last byte.) *)
Lemma lifo_adjacent_buffers m f g stf stg :
  holds FORWARD m f stf -> holds BACKWARD m g stg -> end_ f = start g ->
  exists us ue g' f',
    Backward.remove_unused_space g = Some (us, ue, g') /\ Forward.grow f us ue = Some f' /\
    end_ f' = start g' /\ holds FORWARD m f' stf /\ holds BACKWARD m g' stg /\
    Forward.have_space_for f' (end_ f' - pos f' - 1) = true /\ Forward.have_space_for f' (end_ f' - pos f') = false /\
    (sources_ok f' -> can_write FORWARD f' = true ->
     exists m' f'', Forward.write m f' = Some (m', f'') /\ holds FORWARD m' f'' (to_write m f' :: stf) /\
       holds BACKWARD m' g' stg /\ end_ f'' = start g').
Proof.
  intros Hf Hg Hadj. pose proof Hf as (F1 & F2 & F3 & Fp & Fe & Fl). pose proof Hg as (G1 & G2 & G3 & Gp & Gs & Gl).
  exists (start g), (pos g), (set_space g (pos g) (end_ g)), (set_space f (start f) (pos g)).
  assert (holds FORWARD m (set_space f (start f) (pos g)) stf) as Hf'.
  { unfold holds. cbn [set_space pos start end_ size1 size2]. split_and!; first [done|lia]. }
  assert (holds BACKWARD m (set_space g (pos g) (end_ g)) stg) as Hg'.
  { unfold holds. cbn [set_space pos start end_ size1 size2]. split_and!; first [done|lia]. }
  split; [done|]. split.
  { unfold Forward.grow. rewrite (assert_true (_ <=? _)) by (apply Z.leb_le; lia). cbn [mbind option_bind].
    by rewrite assert_true by (apply Z.eqb_eq; lia). }
  split; [done|]. split; [done|]. split; [done|]. split; [unfold Forward.have_space_for; apply Z.ltb_lt; lia|].
  split; [unfold Forward.have_space_for; apply Z.ltb_ge; lia|].
  intros Hs Hc. destruct (holds_write FORWARD m _ stf Hf' Hs Hc) as (m' & f'' & Hw & Hh' & Hx & Hst & Hen).
  exists m', f''. split; [exact Hw|]. split; [done|]. split; [|by rewrite Hen].
  destruct Hg' as (_ & _ & _ & Gp' & Gs' & Gl'). unfold holds. split_and!; try done.
  apply (laid_frame _ _ m); [done..| |done]. intros x Hr. apply Hx. cbn [set_space end_ pos] in *. lia.
Qed.

(** *** At a concrete pair of buffers *)

(** Byte [x] of the sample memory is [x]; the forward buffer occupies 0 to 16
    and the backward one 16 to 32; elements are pairs of 2 and 1 bytes that are
    taken from address 40. *)
Definition ex_mem : mem := fun x => x mod 256.
Definition ex_fwd : lifo := Lifo 2 1 40 50 0 0 0 16 3.
Definition ex_bwd : lifo := Lifo 2 1 40 50 0 0 16 32 26.

Lemma ex_fwd_holds : holds FORWARD ex_mem ex_fwd [([0; 1], [2])].
Proof. unfold holds. simpl. split_and!; lia || reflexivity || exact I. Qed.
Lemma ex_bwd_holds : holds BACKWARD ex_mem ex_bwd [([26; 27], [28]); ([29; 30], [31])].
Proof. unfold holds. simpl. split_and!; lia || reflexivity || exact I. Qed.
