(* ===== verification/TypeInt.v ===== *)
(** Integer values with a null flag or a signedness flag:
    [mariadb/include/mysql/server/private/sql_type_int.h].

    A [longlong] is a [Z] in the signed, a [ulonglong] one in the unsigned 64-bit
    range; conversions between them are the wraps of [Prelude].  The
    specification of a hybrid is the mathematical integer it stands for. *)

From S2P Require Import Prelude MyBit.

Definition LONGLONG_MIN : Z := - 2 ^ 63.
Definition LONGLONG_MAX : Z := 2 ^ 63 - 1.
Definition ULONGLONG_MAX : Z := 2 ^ 64 - 1.

(** ** Longlong and Longlong_null *)

Record Longlong_null := LLN { ll_value : Z; ll_is_null : bool }.

(** The two constructors without an explicit flag. *)
Definition ll_null : Longlong_null := LLN 0 true.
Definition ll_some (nr : Z) : Longlong_null := LLN nr false.

Definition longlong_abs (m_value : Z) : Z :=
  if m_value =? LONGLONG_MIN then u64 LONGLONG_MAX + 1
  else u64 (if m_value <? 0 then - m_value else m_value).

Definition ll_or (a b : Longlong_null) : Longlong_null :=
  if ll_is_null a || ll_is_null b then ll_null else ll_some (Z.lor (ll_value a) (ll_value b)).
Definition ll_and (a b : Longlong_null) : Longlong_null :=
  if ll_is_null a || ll_is_null b then ll_null else ll_some (Z.land (ll_value a) (ll_value b)).
Definition ll_xor (a b : Longlong_null) : Longlong_null :=
  if ll_is_null a || ll_is_null b then ll_null else ll_some (Z.lxor (ll_value a) (ll_value b)).
Definition ll_not (a : Longlong_null) : Longlong_null :=
  if ll_is_null a then a else ll_some (s64 (bnot 64 (u64 (ll_value a)))).

(** The shift count is converted to a 32-bit [uint]. *)
Definition ll_shl (a llshift : Longlong_null) : Longlong_null :=
  if ll_is_null a || ll_is_null llshift then ll_null else
  let shift := u32 (ll_value llshift) in
  let res := if shift <? 64 then shl 64 (u64 (ll_value a)) shift else 0 in
  ll_some (s64 res).
Definition ll_shr (a llshift : Longlong_null) : Longlong_null :=
  if ll_is_null a || ll_is_null llshift then ll_null else
  let shift := u32 (ll_value llshift) in
  let res := if shift <? 64 then Z.shiftr (u64 (ll_value a)) shift else 0 in
  ll_some (s64 res).
Definition ll_bit_count (a : Longlong_null) : Longlong_null :=
  if ll_is_null a then a else ll_some (my_count_bits (u64 (ll_value a))).

(** ** ULonglong and ULonglong_null *)

Definition test_if_sum_overflows_ull (arg1 arg2 : Z) : bool := u64 (ULONGLONG_MAX - arg1) <? arg2.

Definition ull_neg (m_value : Z) : Longlong_null :=
  if LONGLONG_MAX <? m_value then
    if m_value =? LONGLONG_MAX + 1 then LLN LONGLONG_MIN false else LLN 0 true
  else LLN (- s64 m_value) false.

Definition to_longlong_null (m_value : Z) : Longlong_null :=
  if LONGLONG_MAX <? m_value then LLN 0 true else LLN (s64 m_value) false.

Record ULonglong_null := ULLN { ull_value : Z; ull_is_null : bool }.

(** [w] is the width of [ulong]: 32 or 64 with the platform. *)
Definition ullmul (w a b : Z) : ULonglong_null :=
  let a1 := wrapU w (Z.shiftr a 32) in
  let b1 := wrapU w (Z.shiftr b 32) in
  if nz a1 && nz b1 then ULLN 0 true else
  let a0 := wrapU w (Z.land 0xFFFFFFFF a) in
  let b0 := wrapU w (Z.land 0xFFFFFFFF b) in
  let res1 := u64 (u64 (a1 * b0) + u64 (a0 * b1)) in
  if 0xFFFFFFFF <? res1 then ULLN 0 true else
  let res1 := shl 64 res1 32 in
  let res0 := u64 (a0 * b0) in
  if test_if_sum_overflows_ull res1 res0 then ULLN 0 true
  else ULLN (u64 (res1 + res0)) false.

(** ** Longlong_hybrid *)

Record Longlong_hybrid := LLH { h_value : Z; h_unsigned : bool }.

Definition cmp_signed (a other : Longlong_hybrid) : Z :=
  if h_value a <? h_value other then -1 else if h_value a =? h_value other then 0 else 1.
Definition cmp_unsigned (a other : Longlong_hybrid) : Z :=
  if u64 (h_value a) <? u64 (h_value other) then -1
  else if h_value a =? h_value other then 0 else 1.
Definition is_unsigned_outside_of_signed_range (a : Longlong_hybrid) : bool :=
  h_unsigned a && (LONGLONG_MAX <? u64 (h_value a)).
Definition h_neg (a : Longlong_hybrid) : bool := (h_value a <? 0) && negb (h_unsigned a).
Definition h_abs (a : Longlong_hybrid) : Z :=
  if h_unsigned a then u64 (h_value a) else longlong_abs (h_value a).
Definition to_ulonglong (a : Longlong_hybrid) (upper_bound : Z) : Z :=
  if h_neg a then 0 else if upper_bound <? u64 (h_value a) then upper_bound else u64 (h_value a).
Definition to_uint (a : Longlong_hybrid) (upper_bound : Z) : Z := u32 (to_ulonglong a upper_bound).
Definition val_int_signed (a : Longlong_hybrid) : Longlong_null :=
  if h_unsigned a then to_longlong_null (u64 (h_value a)) else LLN (h_value a) false.
Definition val_int_unsigned (a : Longlong_hybrid) : Longlong_null :=
  if negb (h_unsigned a) && (h_value a <? 0) then LLN 0 true else LLN (h_value a) false.
Definition val_int (a : Longlong_hybrid) (want_unsigned_value : bool) : Longlong_null :=
  if want_unsigned_value then val_int_unsigned a else val_int_signed a.

Definition h_cmp (a other : Longlong_hybrid) : Z :=
  if eqb (h_unsigned a) (h_unsigned other) then
    if h_unsigned a then cmp_unsigned a other else cmp_signed a other
  else if is_unsigned_outside_of_signed_range a then 1
  else if is_unsigned_outside_of_signed_range other then -1
  else cmp_signed a other.

Definition h_eq (a other : Longlong_hybrid) : bool := h_cmp a other =? 0.
(** [operator==] with a [ulonglong] and with a [longlong]. *)
Definition h_eq_ulonglong (a : Longlong_hybrid) (nr : Z) : bool := h_cmp a (LLH (s64 nr) true) =? 0.
Definition h_eq_longlong (a : Longlong_hybrid) (nr : Z) : bool := h_cmp a (LLH nr false) =? 0.

(** [Longlong_hybrid_null] *)
Definition hybrid_null (nr : Longlong_null) (unsigned_flag : bool) : Longlong_hybrid * bool :=
  (LLH (ll_value nr) unsigned_flag, ll_is_null nr).

(** ** ULonglong_hybrid: absolute value and sign *)

Record ULonglong_hybrid := ULLH { uh_value : Z; uh_neg : bool }.

(** The constructor makes -0 a +0. *)
Definition ull_hybrid (value : Z) (neg : bool) : ULonglong_hybrid :=
  ULLH value (if neg && (value =? 0) then false else neg).
Definition uh_val_int_unsigned (a : ULonglong_hybrid) : Longlong_null :=
  if uh_neg a then LLN 0 true else LLN (s64 (uh_value a)) false.
Definition uh_val_int_signed (a : ULonglong_hybrid) : Longlong_null :=
  if uh_neg a then ull_neg (uh_value a) else to_longlong_null (uh_value a).
Definition uh_val_int (a : ULonglong_hybrid) (want_unsigned_value : bool) : Longlong_null :=
  if want_unsigned_value then uh_val_int_unsigned a else uh_val_int_signed a.

(** ** The integers they stand for *)

Definition h_sem (a : Longlong_hybrid) : Z := if h_unsigned a then u64 (h_value a) else h_value a.
Definition uh_sem (a : ULonglong_hybrid) : Z := if uh_neg a then - uh_value a else uh_value a.

(** A result in the format of [val_int]: an integer in the range of the
    wanted type, as a [longlong], or null. *)
Definition fits (want_unsigned : bool) (z : Z) : bool :=
  if want_unsigned then bool_decide (in_u 64 z) else bool_decide (in_s 64 z).
Definition as_longlong (want_unsigned : bool) (z : Z) : Longlong_null :=
  if fits want_unsigned z then LLN (if want_unsigned then s64 z else z) false else LLN 0 true.

(** ** Proofs *)

Ltac unfold_bounds :=
  unfold LONGLONG_MIN, LONGLONG_MAX, ULONGLONG_MAX, in_u, in_s in *;
  change (2 ^ (64 - 1)) with 9223372036854775808 in *;
  change (2 ^ 63) with 9223372036854775808 in *;
  change (2 ^ 64) with 18446744073709551616 in *.

(** Decide the integer comparisons of the goal. *)
Ltac cmp_split :=
  repeat match goal with
  | |- context [?a <? ?b] => destruct (Z.ltb_spec a b)
  | |- context [?a =? ?b] => destruct (Z.eqb_spec a b)
  end.

Lemma u64_signed z : in_s 64 z -> u64 z = if z <? 0 then z + 2 ^ 64 else z.
Proof. apply wrapU_signed. lia. Qed.

Lemma s64_unsigned z : in_u 64 z -> s64 z = if z <? 2 ^ 63 then z else z - 2 ^ 64.
Proof.
  intros Hz. unfold wrapS. change (64 - 1) with 63. unfold_bounds.
  destruct (Z.ltb_spec z 9223372036854775808).
  - rewrite Z.mod_small; lia.
  - rewrite <- (Z.mod_unique (z + 9223372036854775808) 18446744073709551616 1 (z - 9223372036854775808)); lia.
Qed.

Lemma h_sem_cases a :
  in_s 64 (h_value a) ->
  h_sem a = if h_unsigned a && (h_value a <? 0) then h_value a + 2 ^ 64 else h_value a.
Proof.
  intros Ha. unfold h_sem. destruct (h_unsigned a); simpl; [|done]. by apply u64_signed.
Qed.

(** Comparing hybrids.  [Longlong_hybrid::cmp] of any two values, signed
    or unsigned, is the comparison of the integers they stand for, and the
    equality operators are equality of those. *)
Lemma hybrid_cmp_correct a b nr unr :
  in_s 64 (h_value a) -> in_s 64 (h_value b) -> in_s 64 nr -> in_u 64 unr ->
  h_cmp a b = match h_sem a ?= h_sem b with Lt => -1 | Eq => 0 | Gt => 1 end /\
  h_eq a b = (h_sem a =? h_sem b) /\
  h_eq_longlong a nr = (h_sem a =? nr) /\ h_eq_ulonglong a unr = (h_sem a =? unr).
Proof.
  intros Ha Hb Hnr Hunr.
  assert (forall a b, in_s 64 (h_value a) -> in_s 64 (h_value b) ->
    h_cmp a b = match h_sem a ?= h_sem b with Lt => -1 | Eq => 0 | Gt => 1 end) as Hcmp.
  { clear. intros [x []] [y []] Hx Hy; simpl in Hx, Hy;
      unfold h_cmp, cmp_unsigned, cmp_signed, is_unsigned_outside_of_signed_range, h_sem;
      simpl; rewrite ?u64_signed by done; unfold_bounds;
      destruct (Z.ltb_spec x 0), (Z.ltb_spec y 0);
      repeat match goal with
      | |- context [?a ?= ?b] => destruct (Z.compare_spec a b)
      | |- context [?a <? ?b] => destruct (Z.ltb_spec a b)
      | |- context [?a =? ?b] => destruct (Z.eqb_spec a b)
      end; simpl in *; try done; try lia. }
  assert (forall a b, in_s 64 (h_value a) -> in_s 64 (h_value b) ->
    (h_cmp a b =? 0) = (h_sem a =? h_sem b)) as Heq.
  { intros x y Hx Hy. rewrite Hcmp by done.
    destruct (Z.compare_spec (h_sem x) (h_sem y)) as [E|E|E]; symmetry;
      [by apply Z.eqb_eq|apply Z.eqb_neq; lia..]. }
  split; [by apply Hcmp|]. split; [by apply Heq|]. split; [by apply (Heq a (LLH nr false))|].
  unfold h_eq_ulonglong. rewrite Heq; [|done|apply wrapS_range; lia]. f_equal.
  unfold h_sem. simpl. rewrite wrapU_wrapS by lia. by apply wrapU_small.
Qed.

Lemma s64_small z : 0 <= z < 2 ^ 63 -> s64 z = z.
Proof. intros Hz. apply wrapS_small; [lia|]. unfold in_s. unfold_bounds. lia. Qed.

Lemma s64_back x : in_s 64 x -> s64 (x + 2 ^ 64) = x.
Proof.
  intros Hx. unfold wrapS.
  replace (x + 2 ^ 64 + 2 ^ (64 - 1)) with (x + 2 ^ (64 - 1) + 1 * 2 ^ 64) by lia.
  rewrite Z.mod_add by lia. by apply wrapS_small.
Qed.

Lemma h_abs_sem a : in_s 64 (h_value a) -> h_abs a = Z.abs (h_sem a).
Proof.
  destruct a as [x []]; simpl; intros Hx; unfold h_abs, h_sem, longlong_abs; simpl.
  - pose proof (wrapU_range 64 x ltac:(lia)) as [? ?]. lia.
  - change (u64 LONGLONG_MAX) with LONGLONG_MAX.
    destruct (Z.eqb_spec x LONGLONG_MIN); unfold_bounds; [lia|].
    rewrite wrapU_small; destruct (Z.ltb_spec x 0); unfold_bounds; lia.
Qed.

Lemma to_ulonglong_sem a bound :
  in_s 64 (h_value a) -> in_u 64 bound -> to_ulonglong a bound = Z.max 0 (Z.min (h_sem a) bound).
Proof.
  destruct a as [x s]; simpl; intros Hx Hb. unfold to_ulonglong, h_neg, h_sem. simpl.
  pose proof (wrapU_range 64 x ltac:(lia)) as Hr. pose proof (u64_signed x Hx) as Hu.
  unfold_bounds. destruct s; simpl; rewrite ?andb_false_r, ?andb_true_r;
    destruct (Z.ltb_spec x 0); destruct (Z.ltb_spec bound (u64 x)); lia.
Qed.

Lemma val_int_sem a want : in_s 64 (h_value a) -> val_int a want = as_longlong want (h_sem a).
Proof.
  destruct a as [x s]; simpl; intros Hx. pose proof (u64_signed x Hx) as Hu.
  pose proof (s64_back x Hx) as Hback. pose proof (s64_small x) as Hsmall.
  unfold val_int, val_int_unsigned, val_int_signed, to_longlong_null, as_longlong, fits, h_sem; simpl.
  destruct want, s; simpl; rewrite ?Hu; unfold_bounds; destruct (Z.ltb_spec x 0); simpl;
    repeat case_bool_decide; try lia; try done;
    try (f_equal; rewrite ?Hback, ?Hsmall by lia; done); cmp_split; try lia; try done;
    f_equal; apply Hsmall; lia.
Qed.

Lemma ull_hybrid_sem v g : uh_sem (ull_hybrid v g) = uh_sem (ULLH v g).
Proof. unfold ull_hybrid, uh_sem. simpl. destruct g; simpl; [|done]. destruct (Z.eqb_spec v 0); simpl; lia. Qed.

Lemma uh_val_int_sem v g want :
  in_u 64 v -> uh_val_int (ull_hybrid v g) want = as_longlong want (uh_sem (ULLH v g)).
Proof.
  intros Hv. pose proof (s64_unsigned v Hv) as Hs.
  unfold uh_val_int, uh_val_int_unsigned, uh_val_int_signed, ull_neg, to_longlong_null, ull_hybrid,
    as_longlong, fits, uh_sem. simpl. rewrite Hs.
  destruct want, g; simpl; unfold_bounds; destruct (Z.eqb_spec v 0); simpl;
    destruct (Z.ltb_spec v 9223372036854775808); repeat case_bool_decide; try lia; try done;
    cmp_split; try lia; try done; try (subst v; reflexivity); f_equal; lia.
Qed.

(** Converting hybrids.  [abs] is the absolute value; [to_ulonglong]
    clamps the integer to [0..upper_bound]; [val_int] gives the integer when
    it fits the wanted type and null otherwise, for hybrids and for
    sign-and-magnitude values, whose range is twice as wide. *)
Lemma hybrid_convert_correct a u bound want :
  in_s 64 (h_value a) -> in_u 64 (uh_value u) -> in_u 64 bound ->
  h_abs a = Z.abs (h_sem a) /\
  to_ulonglong a bound = Z.max 0 (Z.min (h_sem a) bound) /\
  val_int a want = as_longlong want (h_sem a) /\
  uh_sem (ull_hybrid (uh_value u) (uh_neg u)) = uh_sem u /\
  uh_val_int (ull_hybrid (uh_value u) (uh_neg u)) want = as_longlong want (uh_sem u).
Proof.
  intros Ha Hu Hb. split; [by apply h_abs_sem|]. split; [by apply to_ulonglong_sem|].
  split; [by apply val_int_sem|]. destruct u as [v g]. split; [apply ull_hybrid_sem|by apply uh_val_int_sem].
Qed.

(** Multiplying.  [ullmul] gives the exact product of two 64-bit numbers
    when it fits 64 bits and null otherwise, with a 32-bit or a 64-bit
    [ulong]. *)
Lemma ullmul_correct w a b :
  w = 32 \/ w = 64 -> in_u 64 a -> in_u 64 b ->
  ullmul w a b = if a * b <? 2 ^ 64 then ULLN (a * b) false else ULLN 0 true.
Proof.
  intros Hw Ha Hb. unfold ullmul.
  set (ah := Z.shiftr a 32). set (bh := Z.shiftr b 32).
  assert (in_u 32 ah) as Hah by (apply (shiftr_in_u_sub 64 a 32); [lia|done]).
  assert (in_u 32 bh) as Hbh by (apply (shiftr_in_u_sub 64 b 32); [lia|done]).
  assert (forall z, in_u 32 z -> wrapU w z = z) as Hwr.
  { intros z Hz. apply wrapU_small, (in_u_mono 32); [lia|done]. }
  assert (forall z, Z.land 0xFFFFFFFF z = z mod 2 ^ 32) as Hlow.
  { intros z. rewrite Z.land_comm. apply (Z.land_ones z 32). lia. }
  rewrite !Hlow. set (al := a mod 2 ^ 32). set (bl := b mod 2 ^ 32).
  assert (in_u 32 al) as Hal by (apply Z.mod_pos_bound; lia).
  assert (in_u 32 bl) as Hbl by (apply Z.mod_pos_bound; lia).
  assert (a = ah * 2 ^ 32 + al) as Ea.
  { unfold ah, al. rewrite Z.shiftr_div_pow2 by lia. rewrite Z.mul_comm. apply Z.div_mod. lia. }
  assert (b = bh * 2 ^ 32 + bl) as Eb.
  { unfold bh, bl. rewrite Z.shiftr_div_pow2 by lia. rewrite Z.mul_comm. apply Z.div_mod. lia. }
  rewrite !Hwr by done. clearbody ah bh al bl. unfold test_if_sum_overflows_ull, shl.
  unfold in_u in *. change (2 ^ 32) with 4294967296 in *. change (2 ^ 64) with 18446744073709551616 in *.
  assert (forall z, 0 <= z < 18446744073709551616 -> u64 z = z) as Hu by (intros; by apply wrapU_small).
  destruct (nz ah && nz bh) eqn:E.
  { apply andb_true_iff in E as [E1%nz_true E2%nz_true].
    destruct (Z.ltb_spec (a * b) 18446744073709551616); [nia|done]. }
  assert (ah * bh = 0) as H0.
  { apply andb_false_iff in E as [E|E]; apply nz_false in E; rewrite E; lia. }
  assert (a * b = (ah * bl + al * bh) * 4294967296 + al * bl) as Eab.
  { transitivity (ah * bh * 18446744073709551616 + (ah * bl + al * bh) * 4294967296 + al * bl);
      [subst; ring|lia]. }
  rewrite Eab. set (m := ah * bl + al * bh) in *.
  assert (0 <= m < 18446744073709551616) as Hm by (unfold m; nia).
  rewrite (Hu (ah * bl)), (Hu (al * bh)) by nia. fold m. rewrite (Hu m) by done.
  assert (0 <= al * bl < 18446744073709551616) as Hl by nia. clearbody m.
  rewrite (Hu (al * bl)) by done.
  destruct (Z.ltb_spec 0xFFFFFFFF m).
  { destruct (Z.ltb_spec (m * 4294967296 + al * bl) 18446744073709551616); [lia|done]. }
  rewrite Z.shiftl_mul_pow2 by lia. change (2 ^ 32) with 4294967296. rewrite (Hu (m * 4294967296)) by lia.
  unfold ULONGLONG_MAX. change (2 ^ 64) with 18446744073709551616.
  rewrite (Hu (18446744073709551616 - 1 - m * 4294967296)) by lia.
  cmp_split; [lia|done| |lia]. by rewrite Hu by lia.
Qed.

(** Shifting.  For counts below 2^32 the shift operators of
    [Longlong_null] shift the 64-bit pattern, giving 0 from 64 on; larger
    counts are truncated to 32 bits first, so that a shift by 2^32 leaves the
    value as it is instead of giving 0.  The bit operations and [bit_count] act
    on the 64-bit pattern, and a null operand makes each result null. *)
Lemma longlong_bit_ops_correct x y n :
  in_s 64 x -> in_s 64 y -> 0 <= n < 2 ^ 32 ->
  ll_shl (ll_some x) (ll_some n) = ll_some (s64 (x * 2 ^ n)) /\
  ll_shr (ll_some x) (ll_some n) = ll_some (s64 (u64 x / 2 ^ n)) /\
  ll_shl (ll_some x) (ll_some (2 ^ 32)) = ll_some x /\
  ll_not (ll_some x) = ll_some (- x - 1) /\
  (forall i, 0 <= i < 64 -> Z.testbit (ll_value (ll_xor (ll_some x) (ll_some y))) i =
                            xorb (Z.testbit x i) (Z.testbit y i)) /\
  ll_bit_count (ll_some x) = ll_some (popcount 64 (u64 x)) /\
  (forall o, ll_shl ll_null o = ll_null /\ ll_shl o ll_null = ll_null /\ ll_shr o ll_null = ll_null /\
             ll_or o ll_null = ll_null /\ ll_and ll_null o = ll_null).
Proof.
  intros Hx Hy Hn. assert (s64 (u64 x) = x) as Hback.
  { rewrite wrapS_wrapU by lia. by apply wrapS_small. }
  pose proof (wrapU_range 64 x ltac:(lia)) as Hux.
  split; [|split; [|split; [|split; [|split; [|split]]]]].
  - unfold ll_shl. simpl. rewrite (wrapU_small 32 n) by done. f_equal.
    rewrite <- (wrapS_wrapU 64 (x * 2 ^ n)) by lia. destruct (Z.ltb_spec n 64) as [H|H].
    + unfold shl. rewrite !wrapS_wrapU by lia. rewrite Z.shiftl_mul_pow2 by lia.
      rewrite <- (wrapS_wrapU 64 (u64 x * 2 ^ n)), <- (wrapS_wrapU 64 (x * 2 ^ n)) by lia. f_equal.
      unfold wrapU. by rewrite Z.mul_mod_idemp_l by lia.
    + assert (u64 (x * 2 ^ n) = 0) as ->; [|done]. unfold wrapU.
      replace n with ((n - 64) + 64) by lia. rewrite Z.pow_add_r by lia.
      rewrite Z.mul_assoc. apply Z.mod_mul. lia.
  - unfold ll_shr. simpl. rewrite (wrapU_small 32 n) by done. f_equal.
    destruct (Z.ltb_spec n 64) as [H|H]; [by rewrite Z.shiftr_div_pow2 by lia|].
    rewrite Z.div_small; [done|]. split; [apply Hux|]. destruct Hux as [_ Hux].
    apply Z.lt_le_trans with (2 ^ 64); [done|]. apply Z.pow_le_mono_r; lia.
  - unfold ll_shl. simpl. f_equal. change (u32 4294967296) with 0. simpl.
    unfold shl. rewrite Z.shiftl_0_r, wrapU_idemp by lia. done.
  - unfold ll_not. simpl. f_equal. unfold bnot. rewrite wrapS_wrapU by lia.
    rewrite <- (wrapS_wrapU 64 (Z.lnot _)) by lia.
    assert (u64 (Z.lnot (u64 x)) = u64 (Z.lnot x)) as ->.
    { apply Z.bits_inj'. intros i Hi. rewrite !testbit_wrapU by lia.
      destruct (Z.ltb_spec i 64); [|done]. rewrite !Z.lnot_spec, testbit_wrapU by lia.
      by rewrite (proj2 (Z.ltb_lt i 64)). }
    rewrite wrapS_wrapU by lia. unfold Z.lnot. replace (Z.pred (- x)) with (- x - 1) by lia.
    apply wrapS_small; [lia|]. unfold_bounds. lia.
  - intros i Hi. unfold ll_xor. simpl. apply Z.lxor_spec.
  - unfold ll_bit_count. simpl. by rewrite my_count_bits_popcount.
  - intros o. unfold ll_shl, ll_shr, ll_or, ll_and. simpl. by rewrite !orb_true_r.
Qed.

(** Hybrids behave as the integers they stand for.  [Longlong_hybrid::cmp]
    of any two values, signed or unsigned, is the comparison of these integers and
    the equality operators are their equality; [abs] is the absolute value;
    [to_ulonglong] clamps the integer to [0..upper_bound]; [val_int] gives the
    integer when it fits the wanted type and null otherwise, for hybrids and for
    sign-and-magnitude values, whose range is twice as wide. *)
Lemma hybrid_integers a b u bound want nr unr :
  in_s 64 (h_value a) -> in_s 64 (h_value b) -> in_u 64 (uh_value u) -> in_u 64 bound -> in_s 64 nr -> in_u 64 unr ->
  (h_cmp a b = match h_sem a ?= h_sem b with Lt => -1 | Eq => 0 | Gt => 1 end /\
   h_eq a b = (h_sem a =? h_sem b) /\
   h_eq_longlong a nr = (h_sem a =? nr) /\ h_eq_ulonglong a unr = (h_sem a =? unr)) /\
  h_abs a = Z.abs (h_sem a) /\
  to_ulonglong a bound = Z.max 0 (Z.min (h_sem a) bound) /\
  val_int a want = as_longlong want (h_sem a) /\
  uh_sem (ull_hybrid (uh_value u) (uh_neg u)) = uh_sem u /\
  uh_val_int (ull_hybrid (uh_value u) (uh_neg u)) want = as_longlong want (uh_sem u).
Proof. intros. split; [by apply hybrid_cmp_correct|by apply hybrid_convert_correct]. Qed.
