(* ===== verification/Privilege.v ===== *)
(** Privilege masks: [mariadb/include/mysql/server/private/privilege.h].

    A [privilege_t] is a 64-bit mask.  Every enumerator and named combination is
    a definition with the name and the expression of the source.  The grant
    tables [mysql.db], [tables_priv], [columns_priv] and [procs_priv] store
    compacted masks; the [fix_rights] and [get_rights] functions convert. *)

From S2P Require Import Prelude MyBit.

(** ** The enumeration *)

Definition NO_ACL : Z := 0.
Definition SELECT_ACL : Z := 2 ^ 0.
Definition INSERT_ACL : Z := 2 ^ 1.
Definition UPDATE_ACL : Z := 2 ^ 2.
Definition DELETE_ACL : Z := 2 ^ 3.
Definition CREATE_ACL : Z := 2 ^ 4.
Definition DROP_ACL : Z := 2 ^ 5.
Definition RELOAD_ACL : Z := 2 ^ 6.
Definition SHUTDOWN_ACL : Z := 2 ^ 7.
Definition PROCESS_ACL : Z := 2 ^ 8.
Definition FILE_ACL : Z := 2 ^ 9.
Definition GRANT_ACL : Z := 2 ^ 10.
Definition REFERENCES_ACL : Z := 2 ^ 11.
Definition INDEX_ACL : Z := 2 ^ 12.
Definition ALTER_ACL : Z := 2 ^ 13.
Definition SHOW_DB_ACL : Z := 2 ^ 14.
Definition SUPER_ACL : Z := 2 ^ 15.
Definition CREATE_TMP_ACL : Z := 2 ^ 16.
Definition LOCK_TABLES_ACL : Z := 2 ^ 17.
Definition EXECUTE_ACL : Z := 2 ^ 18.
Definition REPL_SLAVE_ACL : Z := 2 ^ 19.
Definition BINLOG_MONITOR_ACL : Z := 2 ^ 20.
Definition CREATE_VIEW_ACL : Z := 2 ^ 21.
Definition SHOW_VIEW_ACL : Z := 2 ^ 22.
Definition CREATE_PROC_ACL : Z := 2 ^ 23.
Definition ALTER_PROC_ACL : Z := 2 ^ 24.
Definition CREATE_USER_ACL : Z := 2 ^ 25.
Definition EVENT_ACL : Z := 2 ^ 26.
Definition TRIGGER_ACL : Z := 2 ^ 27.
Definition CREATE_TABLESPACE_ACL : Z := 2 ^ 28.
Definition DELETE_HISTORY_ACL : Z := 2 ^ 29.
Definition SET_USER_ACL : Z := 2 ^ 30.
Definition FEDERATED_ADMIN_ACL : Z := 2 ^ 31.
Definition CONNECTION_ADMIN_ACL : Z := 2 ^ 32.
Definition READ_ONLY_ADMIN_ACL : Z := 2 ^ 33.
Definition REPL_SLAVE_ADMIN_ACL : Z := 2 ^ 34.
Definition REPL_MASTER_ADMIN_ACL : Z := 2 ^ 35.
Definition BINLOG_ADMIN_ACL : Z := 2 ^ 36.
Definition BINLOG_REPLAY_ACL : Z := 2 ^ 37.
Definition SLAVE_MONITOR_ACL : Z := 2 ^ 38.

(** The enumerators with a bit, in their order. *)
Definition privilege_bits : list Z := [SELECT_ACL; INSERT_ACL; UPDATE_ACL; DELETE_ACL; CREATE_ACL;
  DROP_ACL; RELOAD_ACL; SHUTDOWN_ACL; PROCESS_ACL; FILE_ACL; GRANT_ACL; REFERENCES_ACL; INDEX_ACL;
  ALTER_ACL; SHOW_DB_ACL; SUPER_ACL; CREATE_TMP_ACL; LOCK_TABLES_ACL; EXECUTE_ACL; REPL_SLAVE_ACL;
  BINLOG_MONITOR_ACL; CREATE_VIEW_ACL; SHOW_VIEW_ACL; CREATE_PROC_ACL; ALTER_PROC_ACL;
  CREATE_USER_ACL; EVENT_ACL; TRIGGER_ACL; CREATE_TABLESPACE_ACL; DELETE_HISTORY_ACL; SET_USER_ACL;
  FEDERATED_ADMIN_ACL; CONNECTION_ADMIN_ACL; READ_ONLY_ADMIN_ACL; REPL_SLAVE_ADMIN_ACL;
  REPL_MASTER_ADMIN_ACL; BINLOG_ADMIN_ACL; BINLOG_REPLAY_ACL; SLAVE_MONITOR_ACL].

(** [x | (x-1)] on 64-bit unsigned numbers. *)
Definition ALL_KNOWN_BITS (x : Z) : Z := Z.lor x (u64 (x - 1)).

(** ** Operators *)

Definition priv_not (access : Z) : Z := bnot 64 access.
Definition priv_and (a b : Z) : Z := Z.land a b.
Definition priv_or (a b : Z) : Z := Z.lor a b.
#[local] Infix ".|" := priv_or (at level 50, left associativity).

(** ** Versions *)

Definition LAST_100304_ACL : Z := DELETE_HISTORY_ACL.
Definition LAST_100502_ACL : Z := BINLOG_REPLAY_ACL.
Definition LAST_100508_ACL : Z := SLAVE_MONITOR_ACL.
Definition LAST_CURRENT_ACL : Z := LAST_100508_ACL.
Definition PRIVILEGE_T_MAX_BIT : Z := my_bit_log2_uint64 LAST_CURRENT_ACL.
Definition ALL_KNOWN_ACL_100304 : Z := ALL_KNOWN_BITS LAST_100304_ACL.
Definition ALL_KNOWN_ACL_100502 : Z := ALL_KNOWN_BITS LAST_100502_ACL.
Definition ALL_KNOWN_ACL_100508 : Z := ALL_KNOWN_BITS LAST_100508_ACL.
Definition ALL_KNOWN_ACL_100509 : Z := ALL_KNOWN_ACL_100508.
Definition ALL_KNOWN_ACL : Z := ALL_KNOWN_BITS LAST_CURRENT_ACL.

(** ** Combinations *)

Definition GLOBAL_SUPER_ADDED_SINCE_USER_TABLE_ACLS : Z := SET_USER_ACL .| FEDERATED_ADMIN_ACL .|
  CONNECTION_ADMIN_ACL .| READ_ONLY_ADMIN_ACL .| REPL_SLAVE_ADMIN_ACL .| BINLOG_ADMIN_ACL .|
  BINLOG_REPLAY_ACL.
Definition COL_DML_ACLS : Z := SELECT_ACL .| INSERT_ACL .| UPDATE_ACL .| DELETE_ACL.
Definition VIEW_ACLS : Z := CREATE_VIEW_ACL .| SHOW_VIEW_ACL.
Definition STD_TABLE_DDL_ACLS : Z := CREATE_ACL .| DROP_ACL .| ALTER_ACL.
Definition ALL_TABLE_DDL_ACLS : Z := STD_TABLE_DDL_ACLS .| INDEX_ACL.
Definition COL_ACLS : Z := SELECT_ACL .| INSERT_ACL .| UPDATE_ACL .| REFERENCES_ACL.
Definition PROC_DDL_ACLS : Z := CREATE_PROC_ACL .| ALTER_PROC_ACL.
Definition SHOW_PROC_ACLS : Z := PROC_DDL_ACLS .| EXECUTE_ACL.
Definition TABLE_ACLS : Z := COL_DML_ACLS .| ALL_TABLE_DDL_ACLS .| VIEW_ACLS .| GRANT_ACL .|
  REFERENCES_ACL .| TRIGGER_ACL .| DELETE_HISTORY_ACL.
Definition DB_ACLS : Z := TABLE_ACLS .| PROC_DDL_ACLS .| EXECUTE_ACL .| CREATE_TMP_ACL .|
  LOCK_TABLES_ACL .| EVENT_ACL.
Definition PROC_ACLS : Z := ALTER_PROC_ACL .| EXECUTE_ACL .| GRANT_ACL.
Definition GLOBAL_ACLS : Z := DB_ACLS .| SHOW_DB_ACL .| CREATE_USER_ACL .| CREATE_TABLESPACE_ACL .|
  SUPER_ACL .| RELOAD_ACL .| SHUTDOWN_ACL .| PROCESS_ACL .| FILE_ACL .| REPL_SLAVE_ACL .|
  BINLOG_MONITOR_ACL .| GLOBAL_SUPER_ADDED_SINCE_USER_TABLE_ACLS .| REPL_MASTER_ADMIN_ACL .|
  SLAVE_MONITOR_ACL.
Definition DEFAULT_CREATE_PROC_ACLS : Z := ALTER_PROC_ACL .| EXECUTE_ACL.
Definition SHOW_CREATE_TABLE_ACLS : Z := COL_DML_ACLS .| ALL_TABLE_DDL_ACLS .| TRIGGER_ACL .|
  REFERENCES_ACL .| GRANT_ACL .| VIEW_ACLS.
Definition TMP_TABLE_ACLS : Z := COL_DML_ACLS .| ALL_TABLE_DDL_ACLS .| REFERENCES_ACL.
Definition PRIV_LOCK_TABLES : Z := SELECT_ACL .| LOCK_TABLES_ACL.
Definition PRIV_DEFINER_CLAUSE : Z := SET_USER_ACL .| SUPER_ACL.
Definition PRIV_REVEAL_MISSING_DEFINER : Z := SET_USER_ACL .| SUPER_ACL.
Definition PRIV_DES_DECRYPT_ONE_ARG : Z := SUPER_ACL.
Definition PRIV_LOG_BIN_TRUSTED_SP_CREATOR : Z := SUPER_ACL.
Definition PRIV_DEBUG : Z := SUPER_ACL.
Definition PRIV_SET_GLOBAL_SYSTEM_VARIABLE : Z := SUPER_ACL.
Definition PRIV_SET_RESTRICTED_SESSION_SYSTEM_VARIABLE : Z := SUPER_ACL.
Definition PRIV_SET_SYSTEM_VAR_BINLOG_FORMAT : Z := SUPER_ACL .| BINLOG_ADMIN_ACL.
Definition PRIV_SET_SYSTEM_VAR_BINLOG_DIRECT_NON_TRANSACTIONAL_UPDATES : Z := SUPER_ACL .|
  BINLOG_ADMIN_ACL.
Definition PRIV_SET_SYSTEM_VAR_BINLOG_ANNOTATE_ROW_EVENTS : Z := SUPER_ACL .| BINLOG_ADMIN_ACL.
Definition PRIV_SET_SYSTEM_VAR_BINLOG_ROW_IMAGE : Z := SUPER_ACL .| BINLOG_ADMIN_ACL.
Definition PRIV_SET_SYSTEM_VAR_SQL_LOG_BIN : Z := SUPER_ACL .| BINLOG_ADMIN_ACL.
Definition PRIV_SET_SYSTEM_GLOBAL_VAR_BINLOG_CACHE_SIZE : Z := SUPER_ACL .| BINLOG_ADMIN_ACL.
Definition PRIV_SET_SYSTEM_GLOBAL_VAR_BINLOG_FILE_CACHE_SIZE : Z := SUPER_ACL .| BINLOG_ADMIN_ACL.
Definition PRIV_SET_SYSTEM_GLOBAL_VAR_BINLOG_STMT_CACHE_SIZE : Z := SUPER_ACL .| BINLOG_ADMIN_ACL.
Definition PRIV_SET_SYSTEM_GLOBAL_VAR_BINLOG_COMMIT_WAIT_COUNT : Z := SUPER_ACL .| BINLOG_ADMIN_ACL.
Definition PRIV_SET_SYSTEM_GLOBAL_VAR_BINLOG_COMMIT_WAIT_USEC : Z := SUPER_ACL .| BINLOG_ADMIN_ACL.
Definition PRIV_SET_SYSTEM_GLOBAL_VAR_BINLOG_ROW_METADATA : Z := SUPER_ACL .| BINLOG_ADMIN_ACL.
Definition PRIV_SET_SYSTEM_GLOBAL_VAR_EXPIRE_LOGS_DAYS : Z := SUPER_ACL .| BINLOG_ADMIN_ACL.
Definition PRIV_SET_SYSTEM_GLOBAL_VAR_LOG_BIN_COMPRESS : Z := SUPER_ACL .| BINLOG_ADMIN_ACL.
Definition PRIV_SET_SYSTEM_GLOBAL_VAR_LOG_BIN_COMPRESS_MIN_LEN : Z := SUPER_ACL .| BINLOG_ADMIN_ACL.
Definition PRIV_SET_SYSTEM_GLOBAL_VAR_LOG_BIN_TRUST_FUNCTION_CREATORS : Z := SUPER_ACL .|
  BINLOG_ADMIN_ACL.
Definition PRIV_SET_SYSTEM_GLOBAL_VAR_MAX_BINLOG_CACHE_SIZE : Z := SUPER_ACL .| BINLOG_ADMIN_ACL.
Definition PRIV_SET_SYSTEM_GLOBAL_VAR_MAX_BINLOG_STMT_CACHE_SIZE : Z := SUPER_ACL .|
  BINLOG_ADMIN_ACL.
Definition PRIV_SET_SYSTEM_GLOBAL_VAR_MAX_BINLOG_SIZE : Z := SUPER_ACL .| BINLOG_ADMIN_ACL.
Definition PRIV_SET_SYSTEM_GLOBAL_VAR_SYNC_BINLOG : Z := SUPER_ACL .| BINLOG_ADMIN_ACL.
Definition PRIV_IGNORE_READ_ONLY : Z := READ_ONLY_ADMIN_ACL.
Definition PRIV_SET_SYSTEM_GLOBAL_VAR_READ_ONLY : Z := READ_ONLY_ADMIN_ACL.
Definition PRIV_IGNORE_INIT_CONNECT : Z := CONNECTION_ADMIN_ACL .| SUPER_ACL.
Definition PRIV_IGNORE_MAX_USER_CONNECTIONS : Z := CONNECTION_ADMIN_ACL .| SUPER_ACL.
Definition PRIV_IGNORE_MAX_CONNECTIONS : Z := CONNECTION_ADMIN_ACL .| SUPER_ACL.
Definition PRIV_IGNORE_MAX_PASSWORD_ERRORS : Z := CONNECTION_ADMIN_ACL .| SUPER_ACL.
Definition PRIV_KILL_OTHER_USER_PROCESS : Z := CONNECTION_ADMIN_ACL .| SUPER_ACL.
Definition PRIV_SET_SYSTEM_GLOBAL_VAR_CONNECT_TIMEOUT : Z := CONNECTION_ADMIN_ACL .| SUPER_ACL.
Definition PRIV_SET_SYSTEM_GLOBAL_VAR_DISCONNECT_ON_EXPIRED_PASSWORD : Z := CONNECTION_ADMIN_ACL .|
  SUPER_ACL.
Definition PRIV_SET_SYSTEM_GLOBAL_VAR_EXTRA_MAX_CONNECTIONS : Z := CONNECTION_ADMIN_ACL .|
  SUPER_ACL.
Definition PRIV_SET_SYSTEM_GLOBAL_VAR_INIT_CONNECT : Z := CONNECTION_ADMIN_ACL .| SUPER_ACL.
Definition PRIV_SET_SYSTEM_GLOBAL_VAR_MAX_CONNECTIONS : Z := CONNECTION_ADMIN_ACL .| SUPER_ACL.
Definition PRIV_SET_SYSTEM_GLOBAL_VAR_MAX_CONNECT_ERRORS : Z := CONNECTION_ADMIN_ACL .| SUPER_ACL.
Definition PRIV_SET_SYSTEM_GLOBAL_VAR_MAX_PASSWORD_ERRORS : Z := CONNECTION_ADMIN_ACL .| SUPER_ACL.
Definition PRIV_SET_SYSTEM_GLOBAL_VAR_PROXY_PROTOCOL_NETWORKS : Z := CONNECTION_ADMIN_ACL .|
  SUPER_ACL.
Definition PRIV_SET_SYSTEM_GLOBAL_VAR_SECURE_AUTH : Z := CONNECTION_ADMIN_ACL .| SUPER_ACL.
Definition PRIV_SET_SYSTEM_GLOBAL_VAR_SLOW_LAUNCH_TIME : Z := CONNECTION_ADMIN_ACL .| SUPER_ACL.
Definition PRIV_SET_SYSTEM_GLOBAL_VAR_THREAD_POOL : Z := CONNECTION_ADMIN_ACL .| SUPER_ACL.
Definition PRIV_STMT_SHOW_BINLOG_STATUS : Z := BINLOG_MONITOR_ACL .| SUPER_ACL.
Definition PRIV_STMT_SHOW_BINARY_LOGS : Z := BINLOG_MONITOR_ACL .| SUPER_ACL.
Definition PRIV_STMT_PURGE_BINLOG : Z := BINLOG_ADMIN_ACL .| SUPER_ACL.
Definition PRIV_STMT_SHOW_BINLOG_EVENTS : Z := BINLOG_MONITOR_ACL.
Definition PRIV_COM_REGISTER_SLAVE : Z := REPL_SLAVE_ACL.
Definition PRIV_COM_BINLOG_DUMP : Z := REPL_SLAVE_ACL.
Definition PRIV_STMT_SHOW_SLAVE_HOSTS : Z := REPL_MASTER_ADMIN_ACL.
Definition PRIV_SET_SYSTEM_GLOBAL_VAR_RPL_SEMI_SYNC_MASTER_ENABLED : Z := REPL_MASTER_ADMIN_ACL .|
  SUPER_ACL.
Definition PRIV_SET_SYSTEM_GLOBAL_VAR_RPL_SEMI_SYNC_MASTER_TIMEOUT : Z := REPL_MASTER_ADMIN_ACL .|
  SUPER_ACL.
Definition PRIV_SET_SYSTEM_GLOBAL_VAR_RPL_SEMI_SYNC_MASTER_WAIT_NO_SLAVE : Z :=
  REPL_MASTER_ADMIN_ACL .| SUPER_ACL.
Definition PRIV_SET_SYSTEM_GLOBAL_VAR_RPL_SEMI_SYNC_MASTER_TRACE_LEVEL : Z := REPL_MASTER_ADMIN_ACL
  .| SUPER_ACL.
Definition PRIV_SET_SYSTEM_GLOBAL_VAR_RPL_SEMI_SYNC_MASTER_WAIT_POINT : Z := REPL_MASTER_ADMIN_ACL
  .| SUPER_ACL.
Definition PRIV_SET_SYSTEM_GLOBAL_VAR_MASTER_VERIFY_CHECKSUM : Z := REPL_MASTER_ADMIN_ACL .|
  SUPER_ACL.
Definition PRIV_SET_SYSTEM_GLOBAL_VAR_GTID_BINLOG_STATE : Z := REPL_MASTER_ADMIN_ACL .| SUPER_ACL.
Definition PRIV_SET_SYSTEM_GLOBAL_VAR_SERVER_ID : Z := REPL_MASTER_ADMIN_ACL .| SUPER_ACL.
Definition PRIV_SET_SYSTEM_GLOBAL_VAR_GTID_DOMAIN_ID : Z := REPL_MASTER_ADMIN_ACL .| SUPER_ACL.
Definition PRIV_STMT_START_SLAVE : Z := REPL_SLAVE_ADMIN_ACL .| SUPER_ACL.
Definition PRIV_STMT_STOP_SLAVE : Z := REPL_SLAVE_ADMIN_ACL .| SUPER_ACL.
Definition PRIV_STMT_CHANGE_MASTER : Z := REPL_SLAVE_ADMIN_ACL .| SUPER_ACL.
Definition PRIV_STMT_SHOW_SLAVE_STATUS : Z := SLAVE_MONITOR_ACL .| SUPER_ACL.
Definition PRIV_STMT_SHOW_RELAYLOG_EVENTS : Z := SLAVE_MONITOR_ACL.
Definition PRIV_STMT_BINLOG : Z := BINLOG_REPLAY_ACL .| SUPER_ACL.
Definition PRIV_SET_SYSTEM_SESSION_VAR_GTID_SEQ_NO : Z := BINLOG_REPLAY_ACL .| SUPER_ACL.
Definition PRIV_SET_SYSTEM_SESSION_VAR_PSEUDO_THREAD_ID : Z := BINLOG_REPLAY_ACL .| SUPER_ACL.
Definition PRIV_SET_SYSTEM_SESSION_VAR_SERVER_ID : Z := BINLOG_REPLAY_ACL .| SUPER_ACL.
Definition PRIV_SET_SYSTEM_SESSION_VAR_GTID_DOMAIN_ID : Z := BINLOG_REPLAY_ACL .| SUPER_ACL.
Definition PRIV_SET_SYSTEM_GLOBAL_VAR_REPLICATE_EVENTS_MARKED_FOR_SKIP : Z := REPL_SLAVE_ADMIN_ACL
  .| SUPER_ACL.
Definition PRIV_SET_SYSTEM_GLOBAL_VAR_REPLICATE_REWRITE_DB : Z := REPL_SLAVE_ADMIN_ACL .| SUPER_ACL.
Definition PRIV_SET_SYSTEM_GLOBAL_VAR_REPLICATE_DO_DB : Z := REPL_SLAVE_ADMIN_ACL .| SUPER_ACL.
Definition PRIV_SET_SYSTEM_GLOBAL_VAR_REPLICATE_DO_TABLE : Z := REPL_SLAVE_ADMIN_ACL .| SUPER_ACL.
Definition PRIV_SET_SYSTEM_GLOBAL_VAR_REPLICATE_IGNORE_DB : Z := REPL_SLAVE_ADMIN_ACL .| SUPER_ACL.
Definition PRIV_SET_SYSTEM_GLOBAL_VAR_REPLICATE_IGNORE_TABLE : Z := REPL_SLAVE_ADMIN_ACL .|
  SUPER_ACL.
Definition PRIV_SET_SYSTEM_GLOBAL_VAR_REPLICATE_WILD_DO_TABLE : Z := REPL_SLAVE_ADMIN_ACL .|
  SUPER_ACL.
Definition PRIV_SET_SYSTEM_GLOBAL_VAR_REPLICATE_WILD_IGNORE_TABLE : Z := REPL_SLAVE_ADMIN_ACL .|
  SUPER_ACL.
Definition PRIV_SET_SYSTEM_GLOBAL_VAR_READ_BINLOG_SPEED_LIMIT : Z := REPL_SLAVE_ADMIN_ACL .|
  SUPER_ACL.
Definition PRIV_SET_SYSTEM_GLOBAL_VAR_SLAVE_COMPRESSED_PROTOCOL : Z := REPL_SLAVE_ADMIN_ACL .|
  SUPER_ACL.
Definition PRIV_SET_SYSTEM_GLOBAL_VAR_SLAVE_DDL_EXEC_MODE : Z := REPL_SLAVE_ADMIN_ACL .| SUPER_ACL.
Definition PRIV_SET_SYSTEM_GLOBAL_VAR_SLAVE_DOMAIN_PARALLEL_THREADS : Z := REPL_SLAVE_ADMIN_ACL .|
  SUPER_ACL.
Definition PRIV_SET_SYSTEM_GLOBAL_VAR_SLAVE_EXEC_MODE : Z := REPL_SLAVE_ADMIN_ACL .| SUPER_ACL.
Definition PRIV_SET_SYSTEM_GLOBAL_VAR_SLAVE_MAX_ALLOWED_PACKET : Z := REPL_SLAVE_ADMIN_ACL .|
  SUPER_ACL.
Definition PRIV_SET_SYSTEM_GLOBAL_VAR_SLAVE_MAX_STATEMENT_TIME : Z := REPL_SLAVE_ADMIN_ACL.
Definition PRIV_SET_SYSTEM_GLOBAL_VAR_SLAVE_NET_TIMEOUT : Z := REPL_SLAVE_ADMIN_ACL .| SUPER_ACL.
Definition PRIV_SET_SYSTEM_GLOBAL_VAR_SLAVE_PARALLEL_MAX_QUEUED : Z := REPL_SLAVE_ADMIN_ACL .|
  SUPER_ACL.
Definition PRIV_SET_SYSTEM_GLOBAL_VAR_SLAVE_PARALLEL_MODE : Z := REPL_SLAVE_ADMIN_ACL .| SUPER_ACL.
Definition PRIV_SET_SYSTEM_GLOBAL_VAR_SLAVE_PARALLEL_THREADS : Z := REPL_SLAVE_ADMIN_ACL .|
  SUPER_ACL.
Definition PRIV_SET_SYSTEM_GLOBAL_VAR_SLAVE_PARALLEL_WORKERS : Z := REPL_SLAVE_ADMIN_ACL .|
  SUPER_ACL.
Definition PRIV_SET_SYSTEM_GLOBAL_VAR_SLAVE_RUN_TRIGGERS_FOR_RBR : Z := REPL_SLAVE_ADMIN_ACL .|
  SUPER_ACL.
Definition PRIV_SET_SYSTEM_GLOBAL_VAR_SLAVE_SQL_VERIFY_CHECKSUM : Z := REPL_SLAVE_ADMIN_ACL .|
  SUPER_ACL.
Definition PRIV_SET_SYSTEM_GLOBAL_VAR_SLAVE_TRANSACTION_RETRY_INTERVAL : Z := REPL_SLAVE_ADMIN_ACL
  .| SUPER_ACL.
Definition PRIV_SET_SYSTEM_GLOBAL_VAR_SLAVE_TYPE_CONVERSIONS : Z := REPL_SLAVE_ADMIN_ACL .|
  SUPER_ACL.
Definition PRIV_SET_SYSTEM_GLOBAL_VAR_INIT_SLAVE : Z := REPL_SLAVE_ADMIN_ACL .| SUPER_ACL.
Definition PRIV_SET_SYSTEM_GLOBAL_VAR_RPL_SEMI_SYNC_SLAVE_ENABLED : Z := REPL_SLAVE_ADMIN_ACL .|
  SUPER_ACL.
Definition PRIV_SET_SYSTEM_GLOBAL_VAR_RPL_SEMI_SYNC_SLAVE_TRACE_LEVEL : Z := REPL_SLAVE_ADMIN_ACL .|
  SUPER_ACL.
Definition PRIV_SET_SYSTEM_GLOBAL_VAR_RPL_SEMI_SYNC_SLAVE_DELAY_MASTER : Z := REPL_SLAVE_ADMIN_ACL
  .| SUPER_ACL.
Definition PRIV_SET_SYSTEM_GLOBAL_VAR_RPL_SEMI_SYNC_SLAVE_KILL_CONN_TIMEOUT : Z :=
  REPL_SLAVE_ADMIN_ACL .| SUPER_ACL.
Definition PRIV_SET_SYSTEM_GLOBAL_VAR_RELAY_LOG_PURGE : Z := REPL_SLAVE_ADMIN_ACL .| SUPER_ACL.
Definition PRIV_SET_SYSTEM_GLOBAL_VAR_RELAY_LOG_RECOVERY : Z := REPL_SLAVE_ADMIN_ACL .| SUPER_ACL.
Definition PRIV_SET_SYSTEM_GLOBAL_VAR_SYNC_MASTER_INFO : Z := REPL_SLAVE_ADMIN_ACL .| SUPER_ACL.
Definition PRIV_SET_SYSTEM_GLOBAL_VAR_SYNC_RELAY_LOG : Z := REPL_SLAVE_ADMIN_ACL .| SUPER_ACL.
Definition PRIV_SET_SYSTEM_GLOBAL_VAR_SYNC_RELAY_LOG_INFO : Z := REPL_SLAVE_ADMIN_ACL .| SUPER_ACL.
Definition PRIV_SET_SYSTEM_GLOBAL_VAR_GTID_CLEANUP_BATCH_SIZE : Z := REPL_SLAVE_ADMIN_ACL .|
  SUPER_ACL.
Definition PRIV_SET_SYSTEM_GLOBAL_VAR_GTID_IGNORE_DUPLICATES : Z := REPL_SLAVE_ADMIN_ACL .|
  SUPER_ACL.
Definition PRIV_SET_SYSTEM_GLOBAL_VAR_GTID_POS_AUTO_ENGINES : Z := REPL_SLAVE_ADMIN_ACL .|
  SUPER_ACL.
Definition PRIV_SET_SYSTEM_GLOBAL_VAR_GTID_SLAVE_POS : Z := REPL_SLAVE_ADMIN_ACL .| SUPER_ACL.
Definition PRIV_SET_SYSTEM_GLOBAL_VAR_GTID_STRICT_MODE : Z := REPL_SLAVE_ADMIN_ACL .| SUPER_ACL.
Definition PRIV_STMT_CREATE_SERVER : Z := FEDERATED_ADMIN_ACL .| SUPER_ACL.
Definition PRIV_STMT_ALTER_SERVER : Z := FEDERATED_ADMIN_ACL .| SUPER_ACL.
Definition PRIV_STMT_DROP_SERVER : Z := FEDERATED_ADMIN_ACL .| SUPER_ACL.
Definition PRIV_COM_PROCESS_INFO : Z := PROCESS_ACL.
Definition PRIV_STMT_SHOW_EXPLAIN : Z := PROCESS_ACL.
Definition PRIV_STMT_SHOW_ENGINE_STATUS : Z := PROCESS_ACL.
Definition PRIV_STMT_SHOW_ENGINE_MUTEX : Z := PROCESS_ACL.
Definition PRIV_STMT_SHOW_PROCESSLIST : Z := PROCESS_ACL.

(** ** Storage formats *)

Definition DB_CHUNK0 : Z := COL_DML_ACLS .| CREATE_ACL .| DROP_ACL.
Definition DB_CHUNK1 : Z := GRANT_ACL .| REFERENCES_ACL .| INDEX_ACL .| ALTER_ACL.
Definition DB_CHUNK2 : Z := CREATE_TMP_ACL .| LOCK_TABLES_ACL.
Definition DB_CHUNK3 : Z := VIEW_ACLS .| PROC_DDL_ACLS.
Definition DB_CHUNK4 : Z := EXECUTE_ACL.
Definition DB_CHUNK5 : Z := EVENT_ACL .| TRIGGER_ACL.
Definition DB_CHUNK6 : Z := DELETE_HISTORY_ACL.

Definition TBL_CHUNK0 : Z := DB_CHUNK0.
Definition TBL_CHUNK1 : Z := DB_CHUNK1.
Definition TBL_CHUNK2 : Z := CREATE_VIEW_ACL .| SHOW_VIEW_ACL.
Definition TBL_CHUNK3 : Z := TRIGGER_ACL.
Definition TBL_CHUNK4 : Z := DELETE_HISTORY_ACL.

Definition fix_rights_for_db (access : Z) : Z :=
  Z.lor (Z.lor (Z.lor (Z.lor (Z.lor (Z.lor
    (Z.land access DB_CHUNK0)
    (Z.land (shl 64 access 4) DB_CHUNK1))
    (Z.land (shl 64 access 6) DB_CHUNK2))
    (Z.land (shl 64 access 9) DB_CHUNK3))
    (Z.land (shl 64 access 2) DB_CHUNK4))
    (Z.land (shl 64 access 9) DB_CHUNK5))
    (Z.land (shl 64 access 10) DB_CHUNK6).

Definition get_rights_for_db (access : Z) : Z :=
  Z.lor (Z.lor (Z.lor (Z.lor (Z.lor (Z.lor
    (Z.land access DB_CHUNK0)
    (Z.shiftr (Z.land access DB_CHUNK1) 4))
    (Z.shiftr (Z.land access DB_CHUNK2) 6))
    (Z.shiftr (Z.land access DB_CHUNK3) 9))
    (Z.shiftr (Z.land access DB_CHUNK4) 2))
    (Z.shiftr (Z.land access DB_CHUNK5) 9))
    (Z.shiftr (Z.land access DB_CHUNK6) 10).

Definition fix_rights_for_table (access : Z) : Z :=
  Z.lor (Z.lor (Z.lor (Z.lor
    (Z.land access TBL_CHUNK0)
    (Z.land (shl 64 access 4) TBL_CHUNK1))
    (Z.land (shl 64 access 11) TBL_CHUNK2))
    (Z.land (shl 64 access 15) TBL_CHUNK3))
    (Z.land (shl 64 access 16) TBL_CHUNK4).

Definition get_rights_for_table (access : Z) : Z :=
  Z.lor (Z.lor (Z.lor (Z.lor
    (Z.land access TBL_CHUNK0)
    (Z.shiftr (Z.land access TBL_CHUNK1) 4))
    (Z.shiftr (Z.land access TBL_CHUNK2) 11))
    (Z.shiftr (Z.land access TBL_CHUNK3) 15))
    (Z.shiftr (Z.land access TBL_CHUNK4) 16).

Definition column_mask : Z := SELECT_ACL .| INSERT_ACL .| UPDATE_ACL.

Definition fix_rights_for_column (A : Z) : Z :=
  Z.lor (Z.land A column_mask) (shl 64 (Z.land A (bnot 64 column_mask)) 8).

Definition get_rights_for_column (A : Z) : Z :=
  Z.lor (Z.land A column_mask) (Z.shiftr A 8).

Definition fix_rights_for_procedure (access : Z) : Z :=
  Z.lor (Z.lor
    (Z.land (shl 64 access 18) EXECUTE_ACL)
    (Z.land (shl 64 access 23) ALTER_PROC_ACL))
    (Z.land (shl 64 access 8) GRANT_ACL).

Definition get_rights_for_procedure (access : Z) : Z :=
  Z.lor (Z.lor
    (Z.shiftr (Z.land access EXECUTE_ACL) 18)
    (Z.shiftr (Z.land access ALTER_PROC_ACL) 23))
    (Z.shiftr (Z.land access GRANT_ACL) 8).

(** ** Collections used in the statements *)

Definition combinations : list Z := [GLOBAL_SUPER_ADDED_SINCE_USER_TABLE_ACLS; COL_DML_ACLS;
  VIEW_ACLS; STD_TABLE_DDL_ACLS; ALL_TABLE_DDL_ACLS; COL_ACLS; PROC_DDL_ACLS; SHOW_PROC_ACLS;
  TABLE_ACLS; DB_ACLS; PROC_ACLS; GLOBAL_ACLS; DEFAULT_CREATE_PROC_ACLS; SHOW_CREATE_TABLE_ACLS;
  TMP_TABLE_ACLS].
(** The privileges that the statements and variables require. *)
Definition required_privileges : list Z := [PRIV_LOCK_TABLES; PRIV_DEFINER_CLAUSE;
  PRIV_REVEAL_MISSING_DEFINER; PRIV_DES_DECRYPT_ONE_ARG; PRIV_LOG_BIN_TRUSTED_SP_CREATOR;
  PRIV_DEBUG; PRIV_SET_GLOBAL_SYSTEM_VARIABLE; PRIV_SET_RESTRICTED_SESSION_SYSTEM_VARIABLE;
  PRIV_SET_SYSTEM_VAR_BINLOG_FORMAT; PRIV_SET_SYSTEM_VAR_BINLOG_DIRECT_NON_TRANSACTIONAL_UPDATES;
  PRIV_SET_SYSTEM_VAR_BINLOG_ANNOTATE_ROW_EVENTS; PRIV_SET_SYSTEM_VAR_BINLOG_ROW_IMAGE;
  PRIV_SET_SYSTEM_VAR_SQL_LOG_BIN; PRIV_SET_SYSTEM_GLOBAL_VAR_BINLOG_CACHE_SIZE;
  PRIV_SET_SYSTEM_GLOBAL_VAR_BINLOG_FILE_CACHE_SIZE;
  PRIV_SET_SYSTEM_GLOBAL_VAR_BINLOG_STMT_CACHE_SIZE;
  PRIV_SET_SYSTEM_GLOBAL_VAR_BINLOG_COMMIT_WAIT_COUNT;
  PRIV_SET_SYSTEM_GLOBAL_VAR_BINLOG_COMMIT_WAIT_USEC;
  PRIV_SET_SYSTEM_GLOBAL_VAR_BINLOG_ROW_METADATA; PRIV_SET_SYSTEM_GLOBAL_VAR_EXPIRE_LOGS_DAYS;
  PRIV_SET_SYSTEM_GLOBAL_VAR_LOG_BIN_COMPRESS; PRIV_SET_SYSTEM_GLOBAL_VAR_LOG_BIN_COMPRESS_MIN_LEN;
  PRIV_SET_SYSTEM_GLOBAL_VAR_LOG_BIN_TRUST_FUNCTION_CREATORS;
  PRIV_SET_SYSTEM_GLOBAL_VAR_MAX_BINLOG_CACHE_SIZE;
  PRIV_SET_SYSTEM_GLOBAL_VAR_MAX_BINLOG_STMT_CACHE_SIZE; PRIV_SET_SYSTEM_GLOBAL_VAR_MAX_BINLOG_SIZE;
  PRIV_SET_SYSTEM_GLOBAL_VAR_SYNC_BINLOG; PRIV_IGNORE_READ_ONLY;
  PRIV_SET_SYSTEM_GLOBAL_VAR_READ_ONLY; PRIV_IGNORE_INIT_CONNECT; PRIV_IGNORE_MAX_USER_CONNECTIONS;
  PRIV_IGNORE_MAX_CONNECTIONS; PRIV_IGNORE_MAX_PASSWORD_ERRORS; PRIV_KILL_OTHER_USER_PROCESS;
  PRIV_SET_SYSTEM_GLOBAL_VAR_CONNECT_TIMEOUT;
  PRIV_SET_SYSTEM_GLOBAL_VAR_DISCONNECT_ON_EXPIRED_PASSWORD;
  PRIV_SET_SYSTEM_GLOBAL_VAR_EXTRA_MAX_CONNECTIONS; PRIV_SET_SYSTEM_GLOBAL_VAR_INIT_CONNECT;
  PRIV_SET_SYSTEM_GLOBAL_VAR_MAX_CONNECTIONS; PRIV_SET_SYSTEM_GLOBAL_VAR_MAX_CONNECT_ERRORS;
  PRIV_SET_SYSTEM_GLOBAL_VAR_MAX_PASSWORD_ERRORS;
  PRIV_SET_SYSTEM_GLOBAL_VAR_PROXY_PROTOCOL_NETWORKS; PRIV_SET_SYSTEM_GLOBAL_VAR_SECURE_AUTH;
  PRIV_SET_SYSTEM_GLOBAL_VAR_SLOW_LAUNCH_TIME; PRIV_SET_SYSTEM_GLOBAL_VAR_THREAD_POOL;
  PRIV_STMT_SHOW_BINLOG_STATUS; PRIV_STMT_SHOW_BINARY_LOGS; PRIV_STMT_PURGE_BINLOG;
  PRIV_STMT_SHOW_BINLOG_EVENTS; PRIV_COM_REGISTER_SLAVE; PRIV_COM_BINLOG_DUMP;
  PRIV_STMT_SHOW_SLAVE_HOSTS; PRIV_SET_SYSTEM_GLOBAL_VAR_RPL_SEMI_SYNC_MASTER_ENABLED;
  PRIV_SET_SYSTEM_GLOBAL_VAR_RPL_SEMI_SYNC_MASTER_TIMEOUT;
  PRIV_SET_SYSTEM_GLOBAL_VAR_RPL_SEMI_SYNC_MASTER_WAIT_NO_SLAVE;
  PRIV_SET_SYSTEM_GLOBAL_VAR_RPL_SEMI_SYNC_MASTER_TRACE_LEVEL;
  PRIV_SET_SYSTEM_GLOBAL_VAR_RPL_SEMI_SYNC_MASTER_WAIT_POINT;
  PRIV_SET_SYSTEM_GLOBAL_VAR_MASTER_VERIFY_CHECKSUM; PRIV_SET_SYSTEM_GLOBAL_VAR_GTID_BINLOG_STATE;
  PRIV_SET_SYSTEM_GLOBAL_VAR_SERVER_ID; PRIV_SET_SYSTEM_GLOBAL_VAR_GTID_DOMAIN_ID;
  PRIV_STMT_START_SLAVE; PRIV_STMT_STOP_SLAVE; PRIV_STMT_CHANGE_MASTER; PRIV_STMT_SHOW_SLAVE_STATUS;
  PRIV_STMT_SHOW_RELAYLOG_EVENTS; PRIV_STMT_BINLOG; PRIV_SET_SYSTEM_SESSION_VAR_GTID_SEQ_NO;
  PRIV_SET_SYSTEM_SESSION_VAR_PSEUDO_THREAD_ID; PRIV_SET_SYSTEM_SESSION_VAR_SERVER_ID;
  PRIV_SET_SYSTEM_SESSION_VAR_GTID_DOMAIN_ID;
  PRIV_SET_SYSTEM_GLOBAL_VAR_REPLICATE_EVENTS_MARKED_FOR_SKIP;
  PRIV_SET_SYSTEM_GLOBAL_VAR_REPLICATE_REWRITE_DB; PRIV_SET_SYSTEM_GLOBAL_VAR_REPLICATE_DO_DB;
  PRIV_SET_SYSTEM_GLOBAL_VAR_REPLICATE_DO_TABLE; PRIV_SET_SYSTEM_GLOBAL_VAR_REPLICATE_IGNORE_DB;
  PRIV_SET_SYSTEM_GLOBAL_VAR_REPLICATE_IGNORE_TABLE;
  PRIV_SET_SYSTEM_GLOBAL_VAR_REPLICATE_WILD_DO_TABLE;
  PRIV_SET_SYSTEM_GLOBAL_VAR_REPLICATE_WILD_IGNORE_TABLE;
  PRIV_SET_SYSTEM_GLOBAL_VAR_READ_BINLOG_SPEED_LIMIT;
  PRIV_SET_SYSTEM_GLOBAL_VAR_SLAVE_COMPRESSED_PROTOCOL;
  PRIV_SET_SYSTEM_GLOBAL_VAR_SLAVE_DDL_EXEC_MODE;
  PRIV_SET_SYSTEM_GLOBAL_VAR_SLAVE_DOMAIN_PARALLEL_THREADS;
  PRIV_SET_SYSTEM_GLOBAL_VAR_SLAVE_EXEC_MODE; PRIV_SET_SYSTEM_GLOBAL_VAR_SLAVE_MAX_ALLOWED_PACKET;
  PRIV_SET_SYSTEM_GLOBAL_VAR_SLAVE_MAX_STATEMENT_TIME; PRIV_SET_SYSTEM_GLOBAL_VAR_SLAVE_NET_TIMEOUT;
  PRIV_SET_SYSTEM_GLOBAL_VAR_SLAVE_PARALLEL_MAX_QUEUED;
  PRIV_SET_SYSTEM_GLOBAL_VAR_SLAVE_PARALLEL_MODE; PRIV_SET_SYSTEM_GLOBAL_VAR_SLAVE_PARALLEL_THREADS;
  PRIV_SET_SYSTEM_GLOBAL_VAR_SLAVE_PARALLEL_WORKERS;
  PRIV_SET_SYSTEM_GLOBAL_VAR_SLAVE_RUN_TRIGGERS_FOR_RBR;
  PRIV_SET_SYSTEM_GLOBAL_VAR_SLAVE_SQL_VERIFY_CHECKSUM;
  PRIV_SET_SYSTEM_GLOBAL_VAR_SLAVE_TRANSACTION_RETRY_INTERVAL;
  PRIV_SET_SYSTEM_GLOBAL_VAR_SLAVE_TYPE_CONVERSIONS; PRIV_SET_SYSTEM_GLOBAL_VAR_INIT_SLAVE;
  PRIV_SET_SYSTEM_GLOBAL_VAR_RPL_SEMI_SYNC_SLAVE_ENABLED;
  PRIV_SET_SYSTEM_GLOBAL_VAR_RPL_SEMI_SYNC_SLAVE_TRACE_LEVEL;
  PRIV_SET_SYSTEM_GLOBAL_VAR_RPL_SEMI_SYNC_SLAVE_DELAY_MASTER;
  PRIV_SET_SYSTEM_GLOBAL_VAR_RPL_SEMI_SYNC_SLAVE_KILL_CONN_TIMEOUT;
  PRIV_SET_SYSTEM_GLOBAL_VAR_RELAY_LOG_PURGE; PRIV_SET_SYSTEM_GLOBAL_VAR_RELAY_LOG_RECOVERY;
  PRIV_SET_SYSTEM_GLOBAL_VAR_SYNC_MASTER_INFO; PRIV_SET_SYSTEM_GLOBAL_VAR_SYNC_RELAY_LOG;
  PRIV_SET_SYSTEM_GLOBAL_VAR_SYNC_RELAY_LOG_INFO;
  PRIV_SET_SYSTEM_GLOBAL_VAR_GTID_CLEANUP_BATCH_SIZE;
  PRIV_SET_SYSTEM_GLOBAL_VAR_GTID_IGNORE_DUPLICATES;
  PRIV_SET_SYSTEM_GLOBAL_VAR_GTID_POS_AUTO_ENGINES; PRIV_SET_SYSTEM_GLOBAL_VAR_GTID_SLAVE_POS;
  PRIV_SET_SYSTEM_GLOBAL_VAR_GTID_STRICT_MODE; PRIV_STMT_CREATE_SERVER; PRIV_STMT_ALTER_SERVER;
  PRIV_STMT_DROP_SERVER; PRIV_COM_PROCESS_INFO; PRIV_STMT_SHOW_EXPLAIN;
  PRIV_STMT_SHOW_ENGINE_STATUS; PRIV_STMT_SHOW_ENGINE_MUTEX; PRIV_STMT_SHOW_PROCESSLIST].

(** [a] has all privileges of [b]. *)
Definition includes (a b : Z) : bool := Z.land a b =? b.

(** ** Proofs *)

(** A mask position of a word is in range or clear. *)
Lemma mask_bits_eq x y :
  in_u 64 x -> in_u 64 y -> (forall i, 0 <= i < 64 -> Z.testbit x i = Z.testbit y i) -> x = y.
Proof.
  intros Hx Hy Hb. apply Z.bits_inj'. intros i Hi. destruct (Z.lt_ge_cases i 64); [by apply Hb|].
  by rewrite !(testbit_above 64) by (done || lia).
Qed.

Lemma shl_in_u x n : in_u 64 (shl 64 x n).
Proof. apply wrapU_range. lia. Qed.

(** The bits of a masked left shift and of a masked right shift. *)
Lemma testbit_move_up x n m i :
  0 <= i < 64 -> 0 <= n -> Z.testbit (Z.land (shl 64 x n) m) i = Z.testbit x (i - n) && Z.testbit m i.
Proof.
  intros Hi Hn. rewrite Z.land_spec. unfold shl. rewrite testbit_wrapU, Z.shiftl_spec by lia.
  by rewrite (proj2 (Z.ltb_lt i 64)) by lia.
Qed.
Lemma testbit_move_down x n m i :
  0 <= i -> 0 <= n -> Z.testbit (Z.shiftr (Z.land x m) n) i = Z.testbit x (i + n) && Z.testbit m (i + n).
Proof. intros Hi Hn. by rewrite Z.shiftr_spec, Z.land_spec by lia. Qed.

(** *** Each conversion as a list of chunk moves

    A chunk is a mask in the expanded form and the distance by which it is
    shifted down in the stored form. *)
Definition expand (chunks : list (Z * Z)) (x : Z) : Z :=
  foldr (fun c acc => Z.lor (Z.land (shl 64 x c.2) c.1) acc) 0 chunks.
Definition compact (chunks : list (Z * Z)) (x : Z) : Z :=
  foldr (fun c acc => Z.lor (Z.shiftr (Z.land x c.1) c.2) acc) 0 chunks.

Lemma testbit_expand chunks x i :
  0 <= i < 64 -> Forall (fun c => 0 <= c.2) chunks ->
  Z.testbit (expand chunks x) i = existsb (fun c => Z.testbit c.1 i && Z.testbit x (i - c.2)) chunks.
Proof.
  intros Hi. induction 1 as [|c chunks Hc _ IH]; [apply Z.testbit_0_l|]. cbn [expand foldr existsb].
  fold (expand chunks x). rewrite Z.lor_spec, testbit_move_up, IH by lia. by rewrite andb_comm.
Qed.
Lemma testbit_compact chunks x i :
  0 <= i -> Forall (fun c => 0 <= c.2) chunks ->
  Z.testbit (compact chunks x) i = existsb (fun c => Z.testbit c.1 (i + c.2) && Z.testbit x (i + c.2)) chunks.
Proof.
  intros Hi. induction 1 as [|c chunks Hc _ IH]; [apply Z.testbit_0_l|]. cbn [compact foldr existsb].
  fold (compact chunks x). rewrite Z.lor_spec, testbit_move_down, IH by lia. by rewrite andb_comm.
Qed.

(** Whether the chunks are a bijection between the positions below [k] and the
    bits of [m]: checked position by position. *)
Definition source_of (chunks : list (Z * Z)) (i : Z) : list Z :=
  (fun c => i - c.2) <$> filter (fun c => Z.testbit c.1 i = true) chunks.
Definition target_of (chunks : list (Z * Z)) (i : Z) : list Z :=
  (fun c => i + c.2) <$> filter (fun c => Z.testbit c.1 (i + c.2) = true) chunks.

Definition chunks_ok (chunks : list (Z * Z)) (k m : Z) : bool :=
  bool_decide (Forall (fun c => 0 <= c.2) chunks) &&
  all_below 64 (fun i =>
    (if Z.testbit m i then
       match source_of chunks i with
       | [j] => (0 <=? j) && (j <? k) && bool_decide (target_of chunks j = [i])
       | _ => false
       end
     else bool_decide (source_of chunks i = [])) &&
    (if i <? k then
       match target_of chunks i with
       | [j] => (j <? 64) && Z.testbit m j && bool_decide (source_of chunks j = [i])
       | _ => false
       end
     else bool_decide (target_of chunks i = []))).

Lemma existsb_source chunks x i :
  existsb (fun c => Z.testbit c.1 i && Z.testbit x (i - c.2)) chunks =
  existsb (Z.testbit x) (source_of chunks i).
Proof.
  unfold source_of. induction chunks as [|c chunks IH]; [done|]. cbn [existsb]. rewrite IH, filter_cons.
  case_decide as E; [by rewrite E|]. by destruct (Z.testbit c.1 i).
Qed.
Lemma existsb_target chunks x i :
  existsb (fun c => Z.testbit c.1 (i + c.2) && Z.testbit x (i + c.2)) chunks =
  existsb (Z.testbit x) (target_of chunks i).
Proof.
  unfold target_of. induction chunks as [|c chunks IH]; [done|]. cbn [existsb]. rewrite IH, filter_cons.
  case_decide as E; [by rewrite E|]. by destruct (Z.testbit c.1 _).
Qed.

Lemma chunks_ok_spec chunks k m :
  chunks_ok chunks k m = true -> 0 <= k <= 64 ->
  forall x, in_u 64 x -> 
  (forall i, 0 <= i < 64 -> Z.testbit (expand chunks (compact chunks x)) i = Z.testbit m i && Z.testbit x i) /\
  (forall i, 0 <= i < 64 -> Z.testbit (compact chunks (expand chunks x)) i = (i <? k) && Z.testbit x i).
Proof.
  intros Hok Hk x Hx. unfold chunks_ok in Hok. apply andb_true_iff in Hok as [Hc Hall].
  apply bool_decide_eq_true in Hc.
  split; intros i Hi; pose proof (all_below_spec _ _ i Hall ltac:(lia)) as Hi';
    cbv beta in Hi'; apply andb_true_iff in Hi' as [Hm Ht].
  - rewrite testbit_expand, existsb_source by (done || lia). destruct (Z.testbit m i).
    + destruct (source_of chunks i) as [|j [|]]; try done. simpl. rewrite orb_false_r.
      apply andb_true_iff in Hm as [Hj Hm]. apply andb_true_iff in Hj as [Hj _]. apply Z.leb_le in Hj.
      apply bool_decide_eq_true in Hm.
      rewrite testbit_compact, existsb_target, Hm by (done || lia). simpl. by rewrite orb_false_r.
    + apply bool_decide_eq_true in Hm. by rewrite Hm.
  - rewrite testbit_compact, existsb_target by (done || lia). destruct (i <? k).
    + destruct (target_of chunks i) as [|j [|]] eqn:Et; try done. simpl. rewrite orb_false_r.
      apply andb_true_iff in Ht as [Hj Ht]. apply andb_true_iff in Hj as [Hj _]. apply Z.ltb_lt in Hj.
      apply bool_decide_eq_true in Ht.
      assert (0 <= j).
      { assert (j ∈ target_of chunks i) as Hin by (rewrite Et; apply list_elem_of_here).
        apply list_elem_of_fmap in Hin as (c & -> & Hin). apply list_elem_of_filter in Hin as [_ Hin].
        rewrite Forall_forall in Hc. specialize (Hc c Hin). lia. }
      rewrite testbit_expand, existsb_source, Ht by (done || lia). simpl. by rewrite orb_false_r.
    + apply bool_decide_eq_true in Ht. by rewrite Ht.
Qed.

Lemma expand_in_u chunks x : Forall (fun c => 0 <= c.1) chunks -> in_u 64 (expand chunks x).
Proof.
  induction 1 as [|c chunks Hc _ IH]; [by split|]. apply lor_in_u; [lia| |done].
  apply land_in_u; [lia|apply shl_in_u|done].
Qed.
Lemma compact_in_u chunks x :
  in_u 64 x -> Forall (fun c => 0 <= c.1 /\ 0 <= c.2) chunks -> in_u 64 (compact chunks x).
Proof.
  intros Hx. induction 1 as [|c chunks [Hc1 Hc2] _ IH]; [by split|]. apply lor_in_u; [lia| |done].
  apply shiftr_in_u; [lia|done|]. by apply land_in_u; [lia| |].
Qed.

Definition db_chunks : list (Z * Z) :=
  [(DB_CHUNK0, 0); (DB_CHUNK1, 4); (DB_CHUNK2, 6); (DB_CHUNK3, 9); (DB_CHUNK4, 2); (DB_CHUNK5, 9);
   (DB_CHUNK6, 10)].
Definition table_chunks : list (Z * Z) :=
  [(TBL_CHUNK0, 0); (TBL_CHUNK1, 4); (TBL_CHUNK2, 11); (TBL_CHUNK3, 15); (TBL_CHUNK4, 16)].
Definition procedure_chunks : list (Z * Z) := [(EXECUTE_ACL, 18); (ALTER_PROC_ACL, 23); (GRANT_ACL, 8)].

(** A pair of conversions given by chunks is a bijection between the masks
    within [m] and the [k]-bit numbers. *)
Lemma chunks_codec chunks k m (fix_r get_r : Z -> Z) :
  chunks_ok chunks k m = true -> 0 <= k <= 64 -> in_u 64 m ->
  Forall (fun c => 0 <= c.1 /\ 0 <= c.2) chunks ->
  (forall x, in_u 64 x -> fix_r x = expand chunks x) -> (forall x, in_u 64 x -> get_r x = compact chunks x) ->
  forall x, in_u 64 x -> fix_r (get_r x) = Z.land x m /\ get_r (fix_r x) = x mod 2 ^ k.
Proof.
  intros Hok Hk Hm Hc Hf Hg x Hx. destruct (chunks_ok_spec chunks k m Hok Hk x Hx) as [H1 H2].
  assert (Forall (fun c => 0 <= c.1) chunks) as Hc1 by (eapply Forall_impl; [exact Hc|]; by intros ? []).
  pose proof (compact_in_u chunks x Hx Hc) as Hcx. pose proof (expand_in_u chunks x Hc1) as Hex.
  rewrite (Hg x), (Hf x), Hf, Hg by done. split; apply mask_bits_eq.
  - by apply expand_in_u.
  - by apply land_in_u; [lia| |apply Hm].
  - intros i Hi. rewrite H1, Z.land_spec by done. apply andb_comm.
  - by apply compact_in_u.
  - apply (in_u_mono k); [lia|]. apply wrapU_range. lia.
  - intros i Hi. rewrite H2 by done. symmetry. by apply testbit_wrapU; lia.
Qed.

Lemma shl_0 x : in_u 64 x -> shl 64 x 0 = x.
Proof. intros Hx. unfold shl. rewrite Z.shiftl_0_r. by apply wrapU_small. Qed.

Ltac chunk_form :=
  let y := fresh in let Hy := fresh in intros y Hy;
  unfold db_chunks, table_chunks, procedure_chunks, fix_rights_for_db, get_rights_for_db,
    fix_rights_for_table, get_rights_for_table, fix_rights_for_procedure, get_rights_for_procedure;
  cbn [expand compact foldr fst snd]; rewrite ?shl_0, ?Z.shiftr_0_r, ?Z.lor_0_r by done;
  rewrite ?Z.lor_assoc; reflexivity.

Lemma chunk_range (chunks : list (Z * Z)) :
  forallb (fun c => (0 <=? c.1) && (0 <=? c.2)) chunks = true -> Forall (fun c => 0 <= c.1 /\ 0 <= c.2) chunks.
Proof.
  rewrite forallb_forall. intros H. apply Forall_forall. intros c Hc.
  apply list_elem_of_In, H, andb_true_iff in Hc as [H1 H2]. by split; apply Z.leb_le.
Qed.

(** The positions that a mask within [COL_ACLS] can have. *)
Lemma column_fix_get x :
  in_u 64 x -> Z.land COL_ACLS x = x -> fix_rights_for_column (get_rights_for_column x) = x.
Proof.
  intros Hx Hin. assert (forall i, 0 <= i -> Z.testbit x i = Z.testbit COL_ACLS i && Z.testbit x i) as Hb.
  { intros i Hi. rewrite <- Z.land_spec. by rewrite Hin. }
  unfold fix_rights_for_column, get_rights_for_column. apply mask_bits_eq; [|done|].
  { apply lor_in_u; [lia| |apply shl_in_u]. apply land_in_u_r; [lia|by split|].
    apply Z.lor_nonneg. split; [apply Z.land_nonneg; left|apply Z.shiftr_nonneg]; apply Hx. }
  intros i Hi. unfold shl, bnot.
  rewrite !Z.lor_spec, !Z.land_spec, testbit_wrapU, Z.lor_spec, Z.land_spec, Z.shiftr_spec by lia.
  rewrite Z.shiftl_spec by lia.
  destruct (Z.lt_ge_cases i 8).
  { rewrite (Z.testbit_neg_r _ (i - 8)) by lia. rewrite (Hb (i + 8)), (Hb i) by lia.
    z_cases i 8; simpl; btauto. }
  rewrite Z.land_spec, Z.lor_spec, Z.land_spec, Z.shiftr_spec, testbit_wrapU, Z.lnot_spec by lia.
  replace (i - 8 + 8) with i by lia. rewrite (Hb (i + 8)), (Hb i), (Hb (i - 8)) by lia.
  z_cases i 64; simpl; btauto.
Qed.

(** ** Properties *)

(** The grant tables' storage formats.  For each of [mysql.db],
    [tables_priv] and [procs_priv], storing a mask and reading it back gives
    exactly its part within the privileges of that level, and reading and
    storing again gives the stored number: the two functions are a bijection
    between the sets of the level's privileges and the numbers of 20, 14 and 3
    bits.  For [columns_priv] the same holds of masks within [COL_ACLS] and of
    4-bit numbers. *)
Lemma privilege_codec x :
  in_u 64 x ->
  fix_rights_for_db (get_rights_for_db x) = Z.land x DB_ACLS /\
  get_rights_for_db (fix_rights_for_db x) = x mod 2 ^ 20 /\
  fix_rights_for_table (get_rights_for_table x) = Z.land x TABLE_ACLS /\
  get_rights_for_table (fix_rights_for_table x) = x mod 2 ^ 14 /\
  fix_rights_for_procedure (get_rights_for_procedure x) = Z.land x PROC_ACLS /\
  get_rights_for_procedure (fix_rights_for_procedure x) = x mod 2 ^ 3 /\
  (includes COL_ACLS x = true -> fix_rights_for_column (get_rights_for_column x) = x) /\
  (x < 2 ^ 4 -> get_rights_for_column (fix_rights_for_column x) = x).
Proof.
  intros Hx.
  destruct (chunks_codec db_chunks 20 DB_ACLS fix_rights_for_db get_rights_for_db eq_refl ltac:(lia))
    with (x := x) as [D1 D2]; [split; vm_compute; congruence|by apply chunk_range|chunk_form|chunk_form|done|].
  destruct (chunks_codec table_chunks 14 TABLE_ACLS fix_rights_for_table get_rights_for_table eq_refl ltac:(lia))
    with (x := x) as [T1 T2]; [split; vm_compute; congruence|by apply chunk_range|chunk_form|chunk_form|done|].
  destruct (chunks_codec procedure_chunks 3 PROC_ACLS fix_rights_for_procedure get_rights_for_procedure
    eq_refl ltac:(lia)) with (x := x) as [P1 P2];
    [split; vm_compute; congruence|by apply chunk_range|chunk_form|chunk_form|done|].
  do 6 (split; [done|]). split.
  - intros Hin%Z.eqb_eq. by apply column_fix_get.
  - intros Hlt. apply Z.eqb_eq.
    apply (all_below_spec 16 (fun c => get_rights_for_column (fix_rights_for_column c) =? c) x eq_refl).
    destruct Hx. change (2 ^ 4) with 16 in Hlt. lia.
Qed.

(** Every position of a word at which [b] is set is set in [a]. *)
Lemma includes_spec a b : includes a b = true <-> forall i, 0 <= i -> Z.testbit b i = true -> Z.testbit a i = true.
Proof.
  unfold includes. rewrite Z.eqb_eq. split.
  - intros E i Hi Hb. rewrite <- E, Z.land_spec in Hb. by apply andb_true_iff in Hb as [? _].
  - intros H. apply Z.bits_inj'. intros i Hi. rewrite Z.land_spec.
    destruct (Z.testbit b i) eqn:E; [by rewrite (H i Hi E)|apply andb_false_r].
Qed.

(** The privilege masks.  The enumerators are the single bits from 0 to
    [PRIVILEGE_T_MAX_BIT]; [ALL_KNOWN_BITS] of a single bit has exactly that
    bit and all below, so each version's known bits contain those of the version
    before; every enumerated privilege can be granted globally, the masks of the
    column, table, database and global levels contain one another in this
    order, and every combination and requirement consists of global
    privileges. *)
Lemma privilege_masks n p :
  0 <= n < 64 -> p ∈ combinations ++ required_privileges ->
  privilege_bits = (fun i => 2 ^ i) <$> seqZ 0 (PRIVILEGE_T_MAX_BIT + 1) /\
  foldr priv_or NO_ACL privilege_bits = ALL_KNOWN_ACL /\ ALL_KNOWN_ACL = GLOBAL_ACLS /\
  2 ^ PRIVILEGE_T_MAX_BIT = LAST_CURRENT_ACL /\
  ALL_KNOWN_BITS (2 ^ n) = 2 ^ (n + 1) - 1 /\
  includes ALL_KNOWN_ACL_100502 ALL_KNOWN_ACL_100304 = true /\
  includes ALL_KNOWN_ACL_100508 ALL_KNOWN_ACL_100502 = true /\
  includes TABLE_ACLS COL_ACLS = true /\ includes DB_ACLS TABLE_ACLS = true /\
  includes DB_ACLS PROC_ACLS = true /\ includes GLOBAL_ACLS DB_ACLS = true /\
  includes GLOBAL_ACLS p = true.
Proof.
  intros Hn Hp. split; [reflexivity|]. do 3 (split; [vm_compute; reflexivity|]). split.
  - assert (0 < 2 ^ n < 2 ^ 64) as Hb.
    { split; [apply Z.pow_pos_nonneg; lia|apply Z.pow_lt_mono_r; lia]. }
    unfold ALL_KNOWN_BITS. rewrite wrapU_small by (split; lia).
    rewrite Z.pow_add_r by lia. change (2 ^ 1) with 2.
    assert (Z.land (2 ^ n) (2 ^ n - 1) = 0) as H0.
    { apply Z.bits_inj'. intros i Hi. rewrite Z.land_spec, testbit_pow2, testbit_ones, Z.testbit_0_l by lia.
      bits_split; done. }
    rewrite <- Z.lxor_lor, <- Z.add_nocarry_lxor by done. lia.
  - do 6 (split; [vm_compute; reflexivity|]).
    assert (forallb (includes GLOBAL_ACLS) (combinations ++ required_privileges) = true) as Hall
      by (vm_compute; reflexivity).
    rewrite forallb_forall in Hall. apply Hall. by apply list_elem_of_In.
Qed.
