(* ===== verification/SqlList.v ===== *)
(** The server's singly linked list: [base_list], its iterator, [List<T>] and
    [bubble_sort] of [mariadb/include/mysql/server/private/sql_list.h].

    The store maps node addresses to nodes and list objects to their three
    fields.  A [slot] is the address of a [list_node *]: the [first] field of a
    list, the [next] field of a node, or that of [end_of_list].  Null and
    dangling dereferences, and writes to the shared [end_of_list], are [None].
    The result of [operator new] is an argument ([None]: out of memory). *)

From S2P Require Import Prelude.

Open Scope st_scope.

(** ** The store *)

Inductive ptr := Null | End | Node (p : positive).
Inductive slot := First (l : nat) | Next (p : positive) | EndNext.

#[export] Instance ptr_eq_dec : EqDecision ptr.
Proof. solve_decision. Defined.
#[export] Instance slot_eq_dec : EqDecision slot.
Proof. solve_decision. Defined.

(** [info] is the address of the element, 0 for a null pointer. *)
Record list_node := LNode { n_next : ptr; n_info : Z }.
Record base_list := BList { first : ptr; last : slot; elements : Z }.
Record heap := Heap { nodes : gmap positive list_node; lists : gmap nat base_list }.

Definition get_list (l : nat) : ST heap base_list := fun h => b ← lists h !! l; Some (b, h).
Definition set_list (l : nat) (b : base_list) : ST heap unit :=
  fun h => Some (tt, Heap (nodes h) (<[l := b]> (lists h))).
Definition get_node (p : positive) : ST heap list_node := fun h => n ← nodes h !! p; Some (n, h).
Definition set_node (p : positive) (n : list_node) : ST heap unit :=
  fun h => Some (tt, Heap (<[p := n]> (nodes h)) (lists h)).

Definition set_first l v : ST heap unit :=
  let* b := get_list l in set_list l (BList v (last b) (elements b)).
Definition set_last l s : ST heap unit :=
  let* b := get_list l in set_list l (BList (first b) s (elements b)).
Definition set_elements l n : ST heap unit :=
  let* b := get_list l in set_list l (BList (first b) (last b) (u32 n)).

(** [*s] and [*s = v] *)
Definition read_slot (s : slot) : ST heap ptr :=
  match s with
  | First l => let* b := get_list l in st_ret (first b)
  | Next p => let* n := get_node p in st_ret (n_next n)
  | EndNext => st_ret End
  end.
Definition write_slot (s : slot) (v : ptr) : ST heap unit :=
  match s with
  | First l => set_first l v
  | Next p => let* n := get_node p in set_node p (LNode v (n_info n))
  | EndNext => st_fail
  end.

(** [v->next], [v->info], [&v->next], [v->info = x] *)
Definition next_of (v : ptr) : ST heap ptr :=
  match v with
  | Null => st_fail
  | End => st_ret End
  | Node p => let* n := get_node p in st_ret (n_next n)
  end.
Definition info_of (v : ptr) : ST heap Z :=
  match v with
  | Null => st_fail
  | End => st_ret 0
  | Node p => let* n := get_node p in st_ret (n_info n)
  end.
Definition next_slot (v : ptr) : ST heap slot :=
  match v with Null => st_fail | End => st_ret EndNext | Node p => st_ret (Next p) end.
Definition set_info (v : ptr) (x : Z) : ST heap unit :=
  match v with
  | Node p => let* n := get_node p in set_node p (LNode (n_next n) x)
  | _ => st_fail
  end.

(** [new list_node(info, next)]: a fresh node or null. *)
Definition new_node (alloc : option positive) (info : Z) (next : ptr) : ST heap ptr :=
  match alloc with
  | None => st_ret Null
  | Some p => fun h => match nodes h !! p with
                       | None => (set_node p (LNode next info) ;;; st_ret (Node p)) h
                       | Some _ => None
                       end
  end.

(** [delete v] *)
Definition delete_node (v : ptr) : ST heap unit :=
  match v with
  | Null => st_ret tt
  | End => st_fail
  | Node p => let* _ := get_node p in fun h => Some (tt, Heap (delete p (nodes h)) (lists h))
  end.

(** ** base_list *)

Definition list_empty (l : nat) : ST heap unit := set_list l (BList End (First l) 0).

(** [operator=]; the copy constructor is the same on a new object. *)
Definition list_assign (l rhs : nat) : ST heap unit :=
  let* r := get_list rhs in
  set_list l (BList (first r) (if nz (elements r) then last r else First l) (elements r)).

Definition list_eq (l rhs : nat) : ST heap bool :=
  let* a := get_list l in let* b := get_list rhs in
  st_ret ((elements a =? elements b) && bool_decide (first a = first b) && bool_decide (last a = last b)).

Definition is_empty (l : nat) : ST heap bool :=
  let* b := get_list l in st_ret (bool_decide (first b = End)).

Definition push_back (l : nat) (info : Z) (alloc : option positive) : ST heap bool :=
  let* n := new_node alloc info End in
  let* b := get_list l in
  write_slot (last b) n ;;;
  match n with
  | Null => st_ret true
  | _ =>
      let* v := read_slot (last b) in
      let* s := next_slot v in
      set_last l s ;;;
      let* b := get_list l in
      set_elements l (elements b + 1) ;;;
      st_ret false
  end.

Definition push_front_impl (l : nat) (node : ptr) : ST heap bool :=
  match node with
  | Null => st_ret true
  | _ =>
      let* b := get_list l in
      (if decide (last b = First l) then let* s := next_slot node in set_last l s else st_ret tt) ;;;
      set_first l node ;;;
      set_elements l (elements b + 1) ;;;
      st_ret false
  end.

Definition push_front (l : nat) (info : Z) (alloc : option positive) : ST heap bool :=
  let* b := get_list l in
  let* n := new_node alloc info (first b) in
  push_front_impl l n.

Definition list_remove (l : nat) (prev : slot) : ST heap unit :=
  let* v := read_slot prev in
  let* node := next_of v in
  let* b := get_list l in
  set_elements l (elements b - 1) ;;;
  (if u32 (elements b - 1) =? 0 then set_last l (First l)
   else let* s := next_slot v in
        if decide (last b = s) then set_last l prev else st_ret tt) ;;;
  delete_node v ;;;
  write_slot prev node.

Definition append (l list : nat) : ST heap unit :=
  let* e := is_empty list in
  if e then st_ret tt else
  let* e := is_empty l in
  if e then list_assign l list else
  let* b := get_list l in
  let* b2 := get_list list in
  write_slot (last b) (first b2) ;;;
  set_last l (last b2) ;;;
  set_elements l (elements b + elements b2).

Definition pop (l : nat) : ST heap Z :=
  let* b := get_list l in
  if decide (first b = End) then st_ret 0 else
  let tmp := first b in
  let* n := next_of tmp in
  set_first l n ;;;
  set_elements l (elements b - 1) ;;;
  (if u32 (elements b - 1) =? 0 then set_last l (First l) else st_ret tt) ;;;
  info_of tmp.

(** The [while] of [disjoin]: [true] when it returned from within. *)
Fixpoint disjoin_loop (fuel : nat) (l : nat) (list_first : ptr) (prev : slot) (node : ptr)
  : ST heap (bool * slot) :=
  match fuel with
  | O => st_fail
  | S fuel =>
      if decide (node = End \/ node = list_first) then st_ret (false, prev) else
      let* prev := next_slot node in
      let* node := next_of node in
      let* b := get_list l in
      set_elements l (elements b + 1) ;;;
      if decide (node = End) then st_ret (true, prev)
      else disjoin_loop fuel l list_first prev node
  end.

Definition disjoin (fuel : nat) (l list : nat) : ST heap unit :=
  let* b := get_list l in
  let* b2 := get_list list in
  set_elements l 0 ;;;
  let* r := disjoin_loop fuel l (first b2) (First l) (first b) in
  if fst r then st_ret tt
  else write_slot (snd r) End ;;; set_last l (snd r).

Definition prepend (l list : nat) : ST heap unit :=
  let* e := is_empty list in
  if e then st_ret tt else
  let* b2 := get_list list in
  let* e := is_empty l in
  (if e then set_last l (last b2) else st_ret tt) ;;;
  let* b := get_list l in
  write_slot (last b2) (first b) ;;;
  let* b2 := get_list list in
  set_first l (first b2) ;;;
  set_elements l (elements b + elements b2).

Definition list_swap (l rhs : nat) : ST heap unit :=
  let* a := get_list l in
  let* b := get_list rhs in
  set_list l (BList (first b) (if decide (last b = First rhs) then First l else last b) (elements b)) ;;;
  set_list rhs (BList (first a) (if decide (last a = First l) then First rhs else last a) (elements a)).

Definition last_node (l : nat) : ST heap ptr := let* b := get_list l in read_slot (last b).
Definition head (l : nat) : ST heap Z := let* b := get_list l in info_of (first b).

(** The search loop of [add_unique]: the node it stops at. *)
Fixpoint find_eq (fuel : nat) (eq : Z -> Z -> bool) (info : Z) (node : ptr) : ST heap ptr :=
  match fuel with
  | O => st_fail
  | S fuel =>
      if decide (node = End) then st_ret node else
      let* i := info_of node in
      if eq i info then st_ret node else
      let* n := next_of node in find_eq fuel eq info n
  end.

Definition add_unique (fuel : nat) (l : nat) (info : Z) (eq : Z -> Z -> bool) (alloc : option positive)
  : ST heap bool :=
  let* b := get_list l in
  let* node := find_eq fuel eq info (first b) in
  if decide (node = End) then push_back l info alloc else st_ret true.

(** [elem(n)]: the loop runs at most [n + 1] times. *)
Fixpoint elem_loop (n : nat) (node : ptr) : ST heap Z :=
  if decide (node = End) then st_ret 0 else
  let* data := info_of node in
  match n with
  | O => st_ret data
  | S n => let* node := next_of node in elem_loop n node
  end.
Definition elem (l : nat) (n : nat) : ST heap Z := let* b := get_list l in elem_loop n (first b).

Definition after (l : nat) (info : Z) (node : ptr) (alloc : option positive) : ST heap unit :=
  let* nx := next_of node in
  let* new_node := new_node alloc info nx in
  let* s := next_slot node in
  write_slot s new_node ;;;
  let* b := get_list l in
  set_elements l (elements b + 1) ;;;
  let* b := get_list l in
  if decide (last b = s) then let* s' := next_slot new_node in set_last l s' else st_ret tt.

(** [check_list]: the walk to the last node, counting. *)
Fixpoint check_loop (fuel : nat) (node : ptr) (cnt : Z) : ST heap (option (ptr * Z)) :=
  match fuel with
  | O => st_fail
  | S fuel =>
      let* n := next_of node in
      if decide (n = End) then st_ret (Some (node, cnt)) else
      let* i := info_of node in
      if i =? 0 then st_ret None else check_loop fuel n (u32 (cnt + 1))
  end.
Definition check_list (fuel : nat) (l : nat) : ST heap bool :=
  let* b := get_list l in
  let* r := check_loop fuel (first b) 0 in
  match r with
  | None => st_ret false
  | Some (node, cnt) =>
      let* s := next_slot node in
      st_ret (bool_decide (last b = s) && (u32 (cnt + 1) =? elements b))
  end.

(** ** base_list_iterator *)

Record iterator := Iter { it_list : nat; it_el : slot; it_prev : option slot; it_current : ptr }.

Definition it_init (l : nat) : iterator := Iter l (First l) None Null.

Definition it_next (it : iterator) : ST heap (Z * iterator) :=
  let* current := read_slot (it_el it) in
  let* el := next_slot current in
  let* i := info_of current in
  st_ret (i, Iter (it_list it) el (Some (it_el it)) current).

Definition it_peek (it : iterator) : ST heap Z := let* v := read_slot (it_el it) in info_of v.

Definition it_next_fast (it : iterator) : ST heap (Z * iterator) :=
  let* tmp := read_slot (it_el it) in
  let* el := next_slot tmp in
  let* i := info_of tmp in
  st_ret (i, Iter (it_list it) el (it_prev it) (it_current it)).

Definition it_rewind (it : iterator) : iterator :=
  Iter (it_list it) (First (it_list it)) (it_prev it) (it_current it).

Definition it_replace (it : iterator) (element : Z) : ST heap Z :=
  let* tmp := info_of (it_current it) in
  set_info (it_current it) element ;;;
  st_ret tmp.

Definition it_replace_list (it : iterator) (new_list : nat) : ST heap Z :=
  let* ret_value := info_of (it_current it) in
  let* e := is_empty new_list in
  (if e then st_ret tt else
   let* nl := get_list new_list in
   let* nx := next_of (it_current it) in
   write_slot (last nl) nx ;;;
   let* nl := get_list new_list in
   let* i := info_of (first nl) in
   set_info (it_current it) i ;;;
   let* n := next_of (first nl) in
   let* s := next_slot (it_current it) in
   write_slot s n ;;;
   let* b := get_list (it_list it) in
   (if decide (last b = s /\ 1 < elements nl) then set_last (it_list it) (last nl) else st_ret tt) ;;;
   set_elements (it_list it) (elements b + (elements nl - 1))) ;;;
  st_ret ret_value.

Definition it_remove (it : iterator) : ST heap iterator :=
  match it_prev it with
  | None => st_fail
  | Some prev =>
      list_remove (it_list it) prev ;;;
      st_ret (Iter (it_list it) prev (Some prev) Null)
  end.

Definition it_after (it : iterator) (element : Z) (alloc : option positive) : ST heap iterator :=
  after (it_list it) element (it_current it) alloc ;;;
  let* current := next_of (it_current it) in
  let* el := next_slot current in
  st_ret (Iter (it_list it) el (it_prev it) current).

Definition it_is_last (it : iterator) : bool := bool_decide (it_el it = EndNext).
Definition it_at_end (it : iterator) : bool := bool_decide (it_current it = End).

(** ** List<T> *)

(** [delete_elements]: the elements deleted, in order. *)
Fixpoint delete_loop (fuel : nat) (element : ptr) : ST heap (list Z) :=
  match fuel with
  | O => st_fail
  | S fuel =>
      if decide (element = End) then st_ret [] else
      let* n := next_of element in
      let* i := info_of element in
      let* infos := delete_loop fuel n in
      st_ret (i :: infos)
  end.
Definition delete_elements (fuel : nat) (l : nat) : ST heap (list Z) :=
  let* b := get_list l in
  let* infos := delete_loop fuel (first b) in
  list_empty l ;;; st_ret infos.

(** [List<T>::make]: [new List<T>] gave the object [res]. *)
Definition list_make (res : option nat) (info : Z) (alloc : option positive) : ST heap (option nat) :=
  match res with
  | None => st_ret None
  | Some l =>
      list_empty l ;;;
      let* failed := push_back l info alloc in
      st_ret (if failed : bool then None else Some l)
  end.

(** The range-based loop over [begin() .. end()]: the elements visited. *)
Fixpoint range_loop (fuel : nat) (node : ptr) : ST heap (list Z) :=
  match fuel with
  | O => st_fail
  | S fuel =>
      if decide (node = End) then st_ret [] else
      let* i := info_of node in
      let* n := next_of node in
      let* infos := range_loop fuel n in
      st_ret (i :: infos)
  end.
Definition range_for (fuel : nat) (l : nat) : ST heap (list Z) :=
  let* b := get_list l in range_loop fuel (first b).

(** ** bubble_sort

    A reference [T **] is [it.ref()], the address of the [info] field of the
    iterator's current node: it is the node; [None] is the null reference. *)

Section bubble_sort.
Context (sort_func : Z -> Z -> Z).

Fixpoint bubble_pass (fuel : nat) (it : iterator) (item1 : Z) (ref1 : ptr) (last_ref : option ptr)
    (swap : bool) : ST heap (ptr * bool) :=
  match fuel with
  | O => st_fail
  | S fuel =>
      let* r := it_next it in
      let item2 := fst r in let it := snd r in
      if item2 =? 0 then st_ret (ref1, swap) else
      let ref2 := it_current it in
      if decide (Some ref2 = last_ref) then st_ret (ref1, swap) else
      if 0 <? sort_func item1 item2 then
        set_info ref1 item2 ;;;
        set_info ref2 item1 ;;;
        bubble_pass fuel it item1 ref2 last_ref true
      else bubble_pass fuel it item2 ref2 last_ref swap
  end.

Fixpoint bubble_loop (pass_fuel fuel : nat) (l : nat) (last_ref : option ptr) : ST heap unit :=
  match fuel with
  | O => st_fail
  | S fuel =>
      let* r := it_next (it_init l) in
      let item1 := fst r in let it := snd r in
      let* q := bubble_pass pass_fuel it item1 (it_current it) last_ref false in
      if snd q : bool then bubble_loop pass_fuel fuel l (Some (fst q)) else st_ret tt
  end.

Definition bubble_sort (fuel : nat) (l : nat) : ST heap unit := bubble_loop fuel fuel l None.

End bubble_sort.

(** ** Representation *)

Implicit Types (m : gmap positive list_node) (ps qs : list (positive * Z)).

(** A segment: from the pointer [s] along the nodes [ps] (address and element)
    to the pointer [e]. *)
Fixpoint lseg m (s : ptr) ps (e : ptr) : Prop :=
  match ps with
  | [] => s = e
  | (p, i) :: ps => s = Node p /\ exists n, m !! p = Some (LNode n i) /\ lseg m n ps e
  end.

(** The slot that holds the pointer behind the last of [ps]. *)
Definition end_slot (s : slot) ps : slot :=
  match list.last ps with Some (p, _) => Next p | None => s end.

(** List [l] holds the nodes [ps], fewer than its 32-bit counter can count. *)
Definition rep (h : heap) (l : nat) ps : Prop :=
  exists b, lists h !! l = Some b /\ lseg (nodes h) (first b) ps End /\ NoDup ps.*1 /\
    last b = end_slot (First l) ps /\ elements b = Z.of_nat (length ps) /\
    Z.of_nat (length ps) < 2 ^ 32.

(** [h'] differs from [h] at most in list [l] and in the nodes of [dom]. *)
Definition only (l : nat) (dom : list positive) (h h' : heap) : Prop :=
  (forall l', l' <> l -> lists h' !! l' = lists h !! l') /\
  (forall p, p ∉ dom -> nodes h' !! p = nodes h !! p).

(** ** Running the operations *)

Ltac st_unfold :=
  repeat progress (
    unfold set_first, set_last, set_elements, set_info, st_bind, st_ret, st_fail, get_list, set_list,
      get_node, set_node;
    cbn [read_slot write_slot next_of info_of next_slot nodes lists first last elements n_next n_info
         mbind option_bind fst snd]).

Ltac st_step :=
  match goal with
  | H : ?m !! ?k = Some _ |- context [?m !! ?k] => rewrite H
  | |- context [<[?k := _]> _ !! ?k] => rewrite lookup_insert_eq
  | |- context [<[?k := ?x]> (<[?k := _]> ?m)] => rewrite (insert_insert_eq m k)
  end; st_unfold.

Ltac st_run := st_unfold; repeat st_step.

(** *** Segments *)

Lemma lseg_app m s ps qs e :
  lseg m s (ps ++ qs) e <-> exists mid, lseg m s ps mid /\ lseg m mid qs e.
Proof.
  revert s. induction ps as [|[p i] ps IH]; intros s; simpl.
  - split; [intros H; by exists s|by intros (mid & -> & H)].
  - split.
    + intros (-> & n & Hn & H). apply IH in H as (mid & H1 & H2). exists mid. split; [|done]. eauto.
    + intros (mid & (-> & n & Hn & H1) & H2). split; [done|]. exists n. split; [done|].
      apply IH. eauto.
Qed.

Lemma lseg_frame m m' s ps e :
  (forall p, p ∈ ps.*1 -> m' !! p = m !! p) -> lseg m s ps e -> lseg m' s ps e.
Proof.
  revert s. induction ps as [|[p i] ps IH]; intros s Hm; simpl; [done|].
  intros (-> & n & Hn & H). split; [done|]. exists n. split.
  - rewrite Hm; [done|]. simpl. apply list_elem_of_here.
  - apply IH; [|done]. intros q Hq. apply Hm. simpl. by right.
Qed.

Lemma lseg_insert m p n s ps e : p ∉ ps.*1 -> lseg m s ps e -> lseg (<[p := n]> m) s ps e.
Proof.
  intros Hp. apply lseg_frame. intros q Hq. apply lookup_insert_ne. by intros ->.
Qed.

Lemma lseg_delete m p s ps e : p ∉ ps.*1 -> lseg m s ps e -> lseg (delete p m) s ps e.
Proof.
  intros Hp. apply lseg_frame. intros q Hq. apply lookup_delete_ne. by intros ->.
Qed.

Lemma lseg_lookup m s ps e p : lseg m s ps e -> p ∈ ps.*1 -> is_Some (m !! p).
Proof.
  revert s. induction ps as [|[q i] ps IH]; intros s; simpl; [by intros _ ?%elem_of_nil|].
  intros (-> & n & Hn & H) [->|Hp]%elem_of_cons; [eauto|by eapply IH].
Qed.

Lemma end_slot_nil s : end_slot s [] = s.
Proof. done. Qed.

Lemma end_slot_snoc s ps p i : end_slot s (ps ++ [(p, i)]) = Next p.
Proof. unfold end_slot. by rewrite last_snoc. Qed.

Lemma end_slot_cons s ps p i : end_slot s ((p, i) :: ps) = end_slot (Next p) ps.
Proof. unfold end_slot. rewrite last_cons. by destruct (list.last ps) as [[]|]. Qed.

Lemma end_slot_app s ps qs : end_slot s (ps ++ qs) = end_slot (end_slot s ps) qs.
Proof.
  unfold end_slot. rewrite last_app. destruct (list.last qs) as [[]|]; [done|].
  by destruct (list.last ps) as [[]|].
Qed.

(** Redirecting the end of a segment: the write through its end slot. *)
Lemma lseg_redirect m s ps p i e e' :
  NoDup (ps ++ [(p, i)]).*1 -> lseg m s (ps ++ [(p, i)]) e ->
  lseg (<[p := LNode e' i]> m) s (ps ++ [(p, i)]) e'.
Proof.
  intros Hn. rewrite fmap_app in Hn. apply NoDup_snoc in Hn as [_ Hp].
  rewrite !lseg_app. intros (mid & H1 & H2). exists mid. split; [by apply lseg_insert|].
  simpl in *. destruct H2 as (-> & n & _ & _). split; [done|]. exists e'.
  by rewrite lookup_insert_eq.
Qed.

Lemma rep_frame h h' l l' dom ps :
  only l dom h h' -> l' <> l -> (forall p, p ∈ ps.*1 -> p ∉ dom) -> rep h l' ps -> rep h' l' ps.
Proof.
  intros [Hl Hn] Hne Hd (b & Hb & Hs & Hnd & Hla & He). exists b. split; [by rewrite Hl|].
  split; [|done]. eapply lseg_frame; [|exact Hs]. intros p Hp. by apply Hn, Hd.
Qed.

Lemma u32_len {A} (l : list A) : Z.of_nat (length l) < 2 ^ 32 -> u32 (Z.of_nat (length l)) = Z.of_nat (length l).
Proof. intros. apply wrapU_small. split; lia. Qed.

Lemma only_refl l dom h : only l dom h h.
Proof. by split. Qed.
Lemma only_trans l dom1 dom2 h1 h2 h3 :
  only l dom1 h1 h2 -> only l dom2 h2 h3 -> only l (dom1 ++ dom2) h1 h3.
Proof.
  intros [A1 B1] [A2 B2]. split.
  - intros l' Hl. rewrite A2, A1 by done. done.
  - intros p Hp. rewrite elem_of_app in Hp. rewrite B2, B1 by tauto. done.
Qed.
Lemma only_mono l dom dom' h h' : (forall p, p ∈ dom -> p ∈ dom') -> only l dom h h' -> only l dom' h h'.
Proof. intros Hd [A B]. split; [done|]. intros p Hp. apply B. intros H. by apply Hp, Hd. Qed.
Lemma only_list l b dom h : only l dom h (Heap (nodes h) (<[l := b]> (lists h))).
Proof. split; simpl; intros; [by rewrite lookup_insert_ne|done]. Qed.

Lemma read_end h l b ps mid :
  lists h !! l = Some b -> lseg (nodes h) (first b) ps mid ->
  read_slot (end_slot (First l) ps) h = Some (mid, h).
Proof.
  intros Hb Hs. destruct (list_snoc_inv ps) as [->|(ps' & [q j] & ->)].
  - rewrite end_slot_nil. st_run. by rewrite <- Hs.
  - rewrite end_slot_snoc. apply lseg_app in Hs as (mid' & _ & Hs). simpl in Hs.
    destruct Hs as (-> & n & Hq & ->). by st_run.
Qed.

Lemma write_end h l b ps mid v :
  lists h !! l = Some b -> lseg (nodes h) (first b) ps mid -> NoDup ps.*1 ->
  exists h' f, write_slot (end_slot (First l) ps) v h = Some (tt, h') /\
    lists h' !! l = Some (BList f (last b) (elements b)) /\ lseg (nodes h') f ps v /\ only l ps.*1 h h'.
Proof.
  intros Hb Hs Hn. destruct (list_snoc_inv ps) as [->|(ps' & [q j] & ->)].
  - rewrite end_slot_nil. st_run. eexists _, _. split; [reflexivity|]. simpl.
    rewrite lookup_insert_eq. split; [done|]. split; [done|]. apply only_list.
  - rewrite end_slot_snoc. apply lseg_app in Hs as Hs'. destruct Hs' as (mid' & _ & Hs').
    simpl in Hs'. destruct Hs' as (-> & n & Hq & ->). st_run.
    eexists _, (first b). split; [reflexivity|]. simpl. split; [by destruct b|].
    split; [by apply lseg_redirect with mid|]. split; simpl; [done|]. intros p Hp.
    apply lookup_insert_ne. intros ->. apply Hp. rewrite fmap_app. set_solver.
Qed.

(** *** base_list *)

Lemma list_empty_rep h l :
  exists h', list_empty l h = Some (tt, h') /\ rep h' l [] /\ only l [] h h'.
Proof.
  eexists. split; [reflexivity|]. split.
  - exists (BList End (First l) 0). simpl. rewrite lookup_insert_eq.
    split; [done|]. split; [done|]. split; [constructor|]. split; [done|]. split; [done|]. lia.
  - split; simpl; intros; [by rewrite lookup_insert_ne|done].
Qed.

Lemma is_empty_rep h l ps : rep h l ps -> is_empty l h = Some (bool_decide (ps = []), h).
Proof.
  intros (b & Hb & Hs & _). unfold is_empty. st_run. do 3 f_equal.
  apply bool_decide_ext. destruct ps as [|[p i] ps]; simpl in Hs; [done|].
  destruct Hs as (-> & _). done.
Qed.

Lemma fresh_not_in h s ps e p : lseg (nodes h) s ps e -> nodes h !! p = None -> p ∉ ps.*1.
Proof. intros Hs Hp Hin. eapply lseg_lookup in Hin as [n Hin]; [|exact Hs]. by rewrite Hp in Hin. Qed.

Lemma push_back_rep h l ps p info :
  rep h l ps -> nodes h !! p = None -> Z.of_nat (length ps) + 1 < 2 ^ 32 ->
  exists h', push_back l info (Some p) h = Some (false, h') /\ rep h' l (ps ++ [(p, info)]) /\
    only l (p :: ps.*1) h h'.
Proof.
  intros (b & Hb & Hs & Hnd & Hla & He & Hlt) Hp Hroom.
  pose proof (fresh_not_in h _ _ _ p Hs Hp) as Hfresh.
  unfold push_back, new_node. st_unfold. rewrite Hp. st_run. rewrite Hla.
  set (h1 := Heap (<[p := LNode End info]> (nodes h)) (lists h)).
  destruct (write_end h1 l b ps End (Node p)) as (h2 & f & -> & Hb2 & Hs2 & Ho); [done| |done|].
  { by apply lseg_insert. }
  rewrite (read_end h2 l _ ps (Node p) Hb2 Hs2). st_run.
  eexists. split; [reflexivity|]. split.
  - eexists. simpl. rewrite lookup_insert_eq. split; [done|]. simpl. split; [|split; [|split; [|split]]].
    + apply lseg_app. exists (Node p). split; [done|]. split; [done|]. exists End. split; [|done].
      rewrite (proj2 Ho) by done. unfold h1. simpl. by rewrite lookup_insert_eq.
    + rewrite fmap_app. by apply NoDup_snoc.
    + by rewrite end_slot_snoc.
    + rewrite He, length_app, wrapU_small; simpl; [lia|]. split; lia.
    + rewrite length_app. simpl. lia.
  - destruct Ho as [Ho1 Ho2]. split; simpl.
    + intros l' Hl. rewrite lookup_insert_ne by done. by apply Ho1.
    + intros q Hq. rewrite Ho2 by (intros ?; apply Hq; by right). unfold h1. simpl.
      apply lookup_insert_ne. intros ->. apply Hq, list_elem_of_here.
Qed.

Lemma push_back_oom h l ps info :
  rep h l ps ->
  exists h', push_back l info None h = Some (true, h') /\
    exists f, lists h' !! l = Some (BList f (end_slot (First l) ps) (Z.of_nat (length ps))) /\
      lseg (nodes h') f ps Null.
Proof.
  intros (b & Hb & Hs & Hnd & Hla & He & Hlt). unfold push_back, new_node. st_run. rewrite Hla.
  destruct (write_end h l b ps End Null Hb Hs Hnd) as (h2 & f & -> & Hb2 & Hs2 & Ho).
  exists h2. split; [done|]. exists f. by rewrite <- Hla, <- He.
Qed.

Lemma push_front_rep h l ps p info :
  rep h l ps -> nodes h !! p = None -> Z.of_nat (length ps) + 1 < 2 ^ 32 ->
  exists h', push_front l info (Some p) h = Some (false, h') /\ rep h' l ((p, info) :: ps) /\
    only l [p] h h'.
Proof.
  intros (b & Hb & Hs & Hnd & Hla & He & Hlt) Hp Hroom.
  pose proof (fresh_not_in h _ _ _ p Hs Hp) as Hfresh.
  unfold push_front, push_front_impl, new_node. st_run. rewrite Hp. st_run.
  assert (forall b', lists (Heap (<[p := LNode (first b) info]> (nodes h)) (<[l := b']> (lists h))) !! l = Some b') as Hl.
  { intros. simpl. by rewrite lookup_insert_eq. }
  assert ((last b = First l <-> ps = [])) as Hcase.
  { rewrite Hla. destruct (list_snoc_inv ps) as [->|(ps' & [q j] & ->)]; [done|].
    rewrite end_slot_snoc. split; [done|]. by intros [_ ?]%app_nil. }
  assert (lseg (<[p := LNode (first b) info]> (nodes h)) (Node p) ((p, info) :: ps) End) as Hseg.
  { split; [done|]. exists (first b). rewrite lookup_insert_eq. split; [done|]. by apply lseg_insert. }
  assert (u32 (Z.of_nat (length ps) + 1) = Z.of_nat (length ((p, info) :: ps))) as Hlen.
  { simpl. rewrite wrapU_small; [lia|]. split; lia. }
  case_decide as E; st_run.
  - eexists. split; [reflexivity|]. split.
    + eexists. simpl. rewrite lookup_insert_eq. split; [done|]. split; [done|].
      split; [by constructor|]. apply Hcase in E as ->. split; [done|]. simpl. rewrite He, Hlen.
      split; [done|]. simpl. lia.
    + split; simpl; intros; apply lookup_insert_ne; [done|]. set_solver.
  - eexists. split; [reflexivity|]. split.
    + eexists. simpl. rewrite lookup_insert_eq. split; [done|]. split; [done|].
      split; [by constructor|]. simpl. rewrite He, Hlen. split; [|split; [done|simpl; lia]].
      rewrite Hla, end_slot_cons. destruct (list_snoc_inv ps) as [->|(ps' & [q j] & ->)]; [tauto|].
      by rewrite !end_slot_snoc.
    + split; simpl; intros; apply lookup_insert_ne; [done|]. set_solver.
Qed.

Lemma pop_nil_rep h l : rep h l [] -> pop l h = Some (0, h).
Proof.
  intros (b & Hb & Hs & _). simpl in Hs. unfold pop. st_run. rewrite decide_True by done. done.
Qed.

Lemma pop_cons_rep h l p info ps :
  rep h l ((p, info) :: ps) ->
  exists h', pop l h = Some (info, h') /\ rep h' l ps /\ only l [] h h'.
Proof.
  intros (b & Hb & (Hf & n & Hp & Hs) & Hnd & Hla & He & Hlt). unfold pop. st_run.
  rewrite Hf, decide_False by done. st_run. simpl length in *.
  assert (u32 (elements b - 1) = Z.of_nat (length ps)) as Hlen.
  { rewrite He, wrapU_small; [lia|]. split; lia. }
  rewrite Hlen. apply NoDup_cons in Hnd as [_ Hnd].
  destruct (Z.eqb_spec (Z.of_nat (length ps)) 0) as [E|E]; st_run.
  - eexists. split; [reflexivity|]. split; [|apply only_list].
    eexists. simpl. rewrite lookup_insert_eq. split; [done|]. split; [done|]. split; [done|].
    destruct ps; [|done]. split; [done|]. split; [done|]. simpl. lia.
  - eexists. split; [reflexivity|]. split; [|apply only_list].
    eexists. simpl. rewrite lookup_insert_eq. split; [done|]. split; [done|]. split; [done|].
    rewrite Hla, end_slot_cons. split; [|split; [done|lia]].
    destruct (list_snoc_inv ps) as [->|(ps' & [q j] & ->)]; [done|]. by rewrite !end_slot_snoc.
Qed.

(** *** Removing, joining, splitting *)

(** Take one step of a bind whose first part is known to run. *)
Ltac st_next H := rewrite (st_bind_Some _ _ _ _ _ H).

Lemma get_list_Some h l b : lists h !! l = Some b -> get_list l h = Some (b, h).
Proof. intros Hb. unfold get_list. by rewrite Hb. Qed.
Lemma set_elements_Some h l b n :
  lists h !! l = Some b ->
  set_elements l n h = Some (tt, Heap (nodes h) (<[l := BList (first b) (last b) (u32 n)]> (lists h))).
Proof. intros Hb. by st_run. Qed.
Lemma set_last_Some h l b s :
  lists h !! l = Some b ->
  set_last l s h = Some (tt, Heap (nodes h) (<[l := BList (first b) s (elements b)]> (lists h))).
Proof. intros Hb. by st_run. Qed.
Lemma set_first_Some h l b v :
  lists h !! l = Some b ->
  set_first l v h = Some (tt, Heap (nodes h) (<[l := BList v (last b) (elements b)]> (lists h))).
Proof. intros Hb. by st_run. Qed.
Lemma next_of_Some h p n i : nodes h !! p = Some (LNode n i) -> next_of (Node p) h = Some (n, h).
Proof. intros Hp. by st_run. Qed.
Lemma info_of_Some h p n i : nodes h !! p = Some (LNode n i) -> info_of (Node p) h = Some (i, h).
Proof. intros Hp. by st_run. Qed.

Lemma delete_node_Some h p x :
  nodes h !! p = Some x -> delete_node (Node p) h = Some (tt, Heap (delete p (nodes h)) (lists h)).
Proof. intros Hp. unfold delete_node. by st_run. Qed.

Lemma NoDup_mid (ps qs : list (positive * Z)) p i :
  NoDup (ps ++ (p, i) :: qs).*1 -> NoDup (ps ++ qs).*1 /\ p ∉ (ps ++ qs).*1.
Proof.
  rewrite !fmap_app, fmap_cons. simpl. rewrite <- (Permutation_middle ps.*1 qs.*1 p).
  rewrite NoDup_cons. tauto.
Qed.

Lemma end_slot_not_mid s ps p i qs :
  NoDup (ps ++ (p, i) :: qs).*1 -> qs <> [] -> end_slot s (ps ++ (p, i) :: qs) <> Next p.
Proof.
  intros Hnd Hq. apply NoDup_mid in Hnd as [_ Hp].
  destruct (list_snoc_inv qs) as [->|(qs' & [q j] & ->)]; [done|].
  rewrite app_comm_cons, app_assoc, end_slot_snoc. intros [= ->]. apply Hp.
  rewrite app_assoc, fmap_app, elem_of_app. right. apply list_elem_of_here.
Qed.

(** The adjustment of [last] in [remove]. *)
Lemma remove_last h l b ps p i qs :
  lists h !! l = Some b -> last b = end_slot (First l) (ps ++ (p, i) :: qs) ->
  NoDup (ps ++ (p, i) :: qs).*1 ->
  (if Z.of_nat (length (ps ++ qs)) =? 0 then set_last l (First l)
   else st_bind (next_slot (Node p)) (fun s =>
          if decide (last b = s) then set_last l (end_slot (First l) ps) else st_ret tt)) h =
  Some (tt, Heap (nodes h) (<[l := BList (first b) (end_slot (First l) (ps ++ qs)) (elements b)]> (lists h))).
Proof.
  intros Hb Hla Hnd. destruct (Z.eqb_spec (Z.of_nat (length (ps ++ qs))) 0) as [E|E].
  - assert (ps ++ qs = []) as Hnil by (destruct (ps ++ qs); [done|simpl in E; lia]).
    apply app_nil in Hnil as [-> ->]. by apply set_last_Some.
  - simpl next_slot. unfold st_bind, st_ret at 1. case_decide as El.
    + assert (qs = []) as ->.
      { destruct (decide (qs = [])) as [|Hq]; [done|]. exfalso. by eapply end_slot_not_mid, eq_trans, El. }
      rewrite app_nil_r. by apply set_last_Some.
    + assert (end_slot (First l) (ps ++ qs) = last b) as ->.
      { rewrite Hla, !end_slot_app, end_slot_cons.
        destruct (list_snoc_inv qs) as [->|(qs' & [q j] & ->)]; [|by rewrite !end_slot_snoc].
        exfalso. apply El. by rewrite Hla, end_slot_snoc. }
      unfold st_ret. do 2 f_equal. destruct h as [m ls], b as [f la e]. simpl in *. by rewrite insert_id.
Qed.

Lemma remove_rep h l ps p i qs :
  rep h l (ps ++ (p, i) :: qs) ->
  exists h', list_remove l (end_slot (First l) ps) h = Some (tt, h') /\ rep h' l (ps ++ qs) /\
    nodes h' !! p = None /\ only l (p :: ps.*1) h h'.
Proof.
  intros (b & Hb & Hs & Hnd & Hla & He & Hlt).
  apply lseg_app in Hs as (mid & Hs1 & -> & n & Hp & Hs2).
  destruct (NoDup_mid _ _ _ _ Hnd) as [Hnd' Hpn].
  assert (NoDup ps.*1) as Hnd1 by (rewrite fmap_app, NoDup_app in Hnd'; apply Hnd').
  assert (p ∉ ps.*1 /\ p ∉ qs.*1) as [Hp1 Hp2] by (rewrite fmap_app, elem_of_app in Hpn; tauto).
  assert (forall x, x ∈ qs.*1 -> x ∉ ps.*1) as Hdisj.
  { rewrite fmap_app, NoDup_app in Hnd'. intros x H1 H2. by apply (proj1 (proj2 Hnd') x). }
  unfold list_remove. st_next (read_end h l b ps (Node p) Hb Hs1). st_next (next_of_Some h p n i Hp).
  st_next (get_list_Some h l b Hb). st_next (set_elements_Some h l b (elements b - 1) Hb).
  assert (u32 (elements b - 1) = Z.of_nat (length (ps ++ qs))) as Hlen.
  { rewrite He, !length_app in *. simpl in *. rewrite wrapU_small; [lia|]. split; lia. }
  rewrite Hlen. set (h1 := Heap _ _).
  assert (lists h1 !! l = Some (BList (first b) (last b) (Z.of_nat (length (ps ++ qs))))) as Hb1
    by (simpl; by rewrite lookup_insert_eq).
  pose proof (remove_last h1 l _ ps p i qs Hb1 Hla Hnd) as Hrl. cbn [last first elements] in Hrl.
  st_next Hrl. clear Hrl Hb1. subst h1. cbn [nodes lists]. rewrite insert_insert_eq.
  match goal with |- context [st_bind (delete_node _) _ ?h] => st_next (delete_node_Some h p _ Hp) end.
  cbn [nodes lists]. set (h2 := Heap _ _).
  destruct (write_end h2 l (BList (first b) (end_slot (First l) (ps ++ qs)) (Z.of_nat (length (ps ++ qs))))
    ps (Node p) n) as (h3 & f & Hw & Hb3 & Hs3 & [Ho1 Ho2]);
    [simpl; by rewrite lookup_insert_eq|by apply lseg_delete|done|].
  exists h3. split; [exact Hw|]. split; [|split].
  - eexists. split; [exact Hb3|]. simpl. split; [|split; [done|split; [done|split; [done|]]]].
    + apply lseg_app. exists n. split; [done|]. eapply lseg_frame; [|exact Hs2].
      intros x Hx. rewrite Ho2 by (by apply Hdisj). simpl. apply lookup_delete_ne. by intros ->.
    + rewrite !length_app in *. simpl in *. lia.
  - rewrite Ho2 by done. simpl. apply lookup_delete_eq.
  - split.
    + intros l' Hl. rewrite Ho1 by done. simpl. by apply lookup_insert_ne.
    + intros x Hx. rewrite Ho2 by (intros ?; apply Hx; by right). simpl. apply lookup_delete_ne.
      intros ->. apply Hx, list_elem_of_here.
Qed.

Lemma NoDup_fst_app ps qs :
  NoDup ps.*1 -> NoDup qs.*1 -> (forall p, p ∈ ps.*1 -> p ∉ qs.*1) -> NoDup (ps ++ qs).*1.
Proof. intros. rewrite fmap_app, NoDup_app. split; [done|]. split; [|done]. intros p Hp Hq. by eapply H1. Qed.

Lemma is_empty_Some h l ps b :
  lists h !! l = Some b -> lseg (nodes h) (first b) ps End -> is_empty l h = Some (bool_decide (ps = []), h).
Proof.
  intros Hb Hs. unfold is_empty. st_next (get_list_Some h l b Hb). unfold st_ret. do 3 f_equal.
  apply bool_decide_ext. destruct ps as [|[p i] ps]; simpl in Hs; [done|]. destruct Hs as (-> & _). done.
Qed.

Lemma list_assign_rep h l l2 qs b :
  lists h !! l = Some b -> l <> l2 -> rep h l2 qs ->
  exists h', list_assign l l2 h = Some (tt, h') /\ rep h' l qs /\ rep h' l2 qs /\ only l [] h h'.
Proof.
  intros Hb Hne (b2 & Hb2 & Hs & Hnd & Hla & He & Hlt). unfold list_assign.
  st_next (get_list_Some h l2 b2 Hb2). unfold set_list. eexists. split; [reflexivity|].
  split; [|split; [|apply only_list]].
  - eexists. simpl. rewrite lookup_insert_eq. split; [done|]. simpl. split; [done|]. split; [done|].
    split; [|done]. rewrite He, Hla. destruct qs as [|[q j] qs]; [done|].
    by rewrite !end_slot_cons.
  - exists b2. simpl. by rewrite lookup_insert_ne.
Qed.

Lemma append_rep h l l2 ps qs :
  rep h l ps -> rep h l2 qs -> l <> l2 -> (forall p, p ∈ ps.*1 -> p ∉ qs.*1) ->
  Z.of_nat (length ps + length qs) < 2 ^ 32 ->
  exists h', append l l2 h = Some (tt, h') /\ rep h' l (ps ++ qs) /\ rep h' l2 qs /\ only l ps.*1 h h'.
Proof.
  intros Hr1 Hr2 Hne Hdisj Hroom.
  pose proof Hr1 as (b & Hb & Hs & Hnd & Hla & He & Hlt).
  pose proof Hr2 as (b2 & Hb2 & Hs2 & Hnd2 & Hla2 & He2 & Hlt2).
  unfold append. st_next (is_empty_Some h l2 qs b2 Hb2 Hs2). case_bool_decide as E2.
  { subst qs. rewrite app_nil_r. exists h. split; [done|]. split; [done|]. split; [done|]. apply only_refl. }
  st_next (is_empty_Some h l ps b Hb Hs). case_bool_decide as E1.
  { subst ps. destruct (list_assign_rep h l l2 qs b Hb Hne Hr2) as (h' & ? & ? & ? & ?). by exists h'. }
  st_next (get_list_Some h l b Hb). st_next (get_list_Some h l2 b2 Hb2). rewrite Hla.
  destruct (write_end h l b ps End (first b2) Hb Hs Hnd) as (h1 & f & Hw & Hb1 & Hs1 & Ho). st_next Hw.
  st_next (set_last_Some h1 l _ (last b2) Hb1). cbn [first last elements].
  match goal with |- context [set_elements l ?n ?hh] =>
    rewrite (set_elements_Some hh l (BList f (last b2) (elements b)) n) by (simpl; by rewrite lookup_insert_eq) end.
  cbn [nodes lists first last elements]. rewrite insert_insert_eq.
  assert (lseg (nodes h1) (first b2) qs End) as Hs2'.
  { eapply lseg_frame; [|exact Hs2]. intros p Hp. apply (proj2 Ho). intros Hp'. by eapply Hdisj. }
  eexists. split; [reflexivity|]. split; [|split].
  - eexists. simpl. rewrite lookup_insert_eq. split; [done|]. simpl. split; [|split; [|split; [|split]]].
    + apply lseg_app. eauto.
    + by apply NoDup_fst_app.
    + rewrite Hla2, !end_slot_app. destruct (list_snoc_inv qs) as [->|(qs' & [q j] & ->)]; [done|].
      by rewrite !end_slot_snoc.
    + rewrite He, He2, length_app, wrapU_small; [lia|]. split; lia.
    + rewrite length_app. lia.
  - exists b2. simpl. rewrite lookup_insert_ne by done. rewrite (proj1 Ho) by done. done.
  - eapply only_mono; [|eapply only_trans; [exact Ho|apply (only_list _ _ [])]].
    intros p. rewrite app_nil_r. done.
Qed.

Lemma prepend_rep h l l2 ps qs :
  rep h l ps -> rep h l2 qs -> l <> l2 -> (forall p, p ∈ ps.*1 -> p ∉ qs.*1) ->
  Z.of_nat (length ps + length qs) < 2 ^ 32 ->
  exists h', prepend l l2 h = Some (tt, h') /\ rep h' l (qs ++ ps) /\ 
    (forall l', l' <> l -> l' <> l2 -> lists h' !! l' = lists h !! l') /\
    (forall p, p ∉ qs.*1 -> nodes h' !! p = nodes h !! p).
Proof.
  intros Hr1 Hr2 Hne Hdisj Hroom.
  pose proof Hr1 as (b & Hb & Hs & Hnd & Hla & He & Hlt).
  pose proof Hr2 as (b2 & Hb2 & Hs2 & Hnd2 & Hla2 & He2 & Hlt2).
  assert (forall h', only l2 qs.*1 h h' -> lists h' !! l = Some b) as Hkeep.
  { intros h' [Ho _]. by rewrite Ho. }
  unfold prepend. st_next (is_empty_Some h l2 qs b2 Hb2 Hs2). case_bool_decide as E2.
  { subst qs. by exists h. }
  st_next (get_list_Some h l2 b2 Hb2). st_next (is_empty_Some h l ps b Hb Hs).
  set (lst := if bool_decide (ps = []) then last b2 else last b).
  set (h0 := Heap (nodes h) (<[l := BList (first b) lst (elements b)]> (lists h))).
  assert ((if bool_decide (ps = []) then set_last l (last b2) else st_ret tt) h = Some (tt, h0)) as Hl0.
  { unfold h0, lst. case_bool_decide; [by apply set_last_Some|]. unfold st_ret. do 2 f_equal.
    destruct h as [m ls], b as [? ? ?]. simpl in *. by rewrite insert_id. }
  st_next Hl0.
  assert (lists h0 !! l = Some (BList (first b) lst (elements b))) as Hb0 by (simpl; by rewrite lookup_insert_eq).
  assert (lists h0 !! l2 = Some b2) as Hb20 by (simpl; by rewrite lookup_insert_ne).
  st_next (get_list_Some h0 l _ Hb0). cbn [first last elements]. rewrite Hla2.
  destruct (write_end h0 l2 b2 qs End (first b) Hb20 Hs2 Hnd2) as (h1 & f & Hw & Hb1 & Hs1 & Ho). st_next Hw.
  st_next (get_list_Some h1 l2 _ Hb1). cbn [first last elements].
  assert (lists h1 !! l = Some (BList (first b) lst (elements b))) as Hbl by (by rewrite (proj1 Ho)).
  st_next (set_first_Some h1 l _ f Hbl). cbn [first last elements].
  match goal with |- context [set_elements l ?n ?hh] =>
    rewrite (set_elements_Some hh l (BList f lst (elements b)) n) by (simpl; by rewrite lookup_insert_eq) end.
  cbn [nodes lists first last elements]. rewrite insert_insert_eq.
  eexists. split; [reflexivity|]. split.
  - eexists. simpl. rewrite lookup_insert_eq. split; [done|]. simpl. split; [|split; [|split; [|split]]].
    + apply lseg_app. exists (first b). split; [done|]. eapply lseg_frame; [|exact Hs].
      intros p Hp. rewrite (proj2 Ho) by (by apply Hdisj). done.
    + apply NoDup_fst_app; [done..|]. intros p Hp Hp'. by eapply Hdisj.
    + unfold lst. rewrite Hla2, Hla, !end_slot_app. case_bool_decide as E1; [subst ps|].
      * rewrite end_slot_nil. destruct (list_snoc_inv qs) as [->|(qs' & [q j] & ->)]; [done|].
        by rewrite !end_slot_snoc.
      * destruct (list_snoc_inv ps) as [->|(ps' & [q j] & ->)]; [done|]. by rewrite !end_slot_snoc.
    + rewrite He, He2, length_app, wrapU_small; [lia|]. split; lia.
    + rewrite length_app. lia.
  - split; simpl.
    + intros l' H1 H2. rewrite !lookup_insert_ne by done. rewrite (proj1 Ho) by done. simpl.
      by rewrite lookup_insert_ne.
    + intros p Hp. by rewrite (proj2 Ho).
Qed.

(** [disjoin] with a list that is a tail of this one cuts this one before it. *)
Lemma disjoin_loop_spec h l ps x qs b fuel prev :
  lists h !! l = Some b -> lseg (nodes h) (Node x) qs End -> NoDup ps.*1 -> x ∉ ps.*1 ->
  forall start, lseg (nodes h) start ps (Node x) -> (length ps < fuel)%nat ->
  Z.of_nat (length ps) + elements b < 2 ^ 32 -> 0 <= elements b ->
  disjoin_loop fuel l (Node x) prev start h =
    Some ((false, end_slot prev ps),
          Heap (nodes h) (<[l := BList (first b) (last b) (elements b + Z.of_nat (length ps))]> (lists h))).
Proof.
  intros Hb Hq Hnd Hx. revert h b fuel prev Hb Hq.
  induction ps as [|[p i] ps IH]; intros h b fuel prev Hb Hq start Hs Hf Hlt Hpos;
    (destruct fuel as [|fuel]; [simpl in Hf; lia|]); cbn [disjoin_loop].
  - simpl in Hs. subst start. rewrite decide_True by (by right). unfold st_ret. do 2 f_equal.
    rewrite Z.add_0_r. destruct h as [m ls], b as [? ? ?]. simpl in *. by rewrite insert_id.
  - destruct Hs as (-> & n & Hp & Hs). simpl in Hnd, Hx, Hf.
    apply NoDup_cons in Hnd as [Hpn Hnd]. rewrite elem_of_cons in Hx.
    rewrite decide_False by (intros [?|[= ->]]; [done|tauto]).
    change (next_slot (Node p)) with (@st_ret heap slot (Next p)). unfold st_bind at 1. unfold st_ret at 1.
    st_next (next_of_Some h p n i Hp). st_next (get_list_Some h l b Hb).
    st_next (set_elements_Some h l b (elements b + 1) Hb).
    cbn [length] in *. rewrite wrapU_small by (split; lia).
    assert (n <> End) as Hne.
    { destruct ps as [|[p' i'] ps]; simpl in Hs; [by subst|]. by destruct Hs as (-> & _). }
    rewrite decide_False by done.
    set (b' := BList (first b) (last b) (elements b + 1)).
    rewrite (IH ltac:(done) ltac:(tauto) _ b'); cbn [nodes lists first last elements]; try done.
    + rewrite insert_insert_eq, end_slot_cons. unfold b'. cbn [first last elements length].
      replace (elements b + 1 + Z.of_nat (length ps)) with (elements b + Z.of_nat (S (length ps))) by lia. done.
    + by rewrite lookup_insert_eq.
    + lia.
    + simpl. lia.
    + simpl. lia.
Qed.

Lemma disjoin_rep h l l2 ps qs fuel :
  rep h l (ps ++ qs) -> rep h l2 qs -> l <> l2 -> qs <> [] -> (length ps < fuel)%nat ->
  exists h', disjoin fuel l l2 h = Some (tt, h') /\ rep h' l ps /\ rep h' l2 qs /\ only l ps.*1 h h'.
Proof.
  intros (b & Hb & Hs & Hnd & Hla & He & Hlt) Hr2 Hne Hq Hf.
  pose proof Hr2 as (b2 & Hb2 & Hs2 & Hnd2 & Hla2 & He2 & Hlt2).
  apply lseg_app in Hs as (mid & Hs1 & Hsq). destruct qs as [|[x j] qs]; [done|].
  pose proof Hs2 as (Hf2 & _). pose proof Hsq as (-> & _).
  destruct (NoDup_mid _ _ _ _ Hnd) as [Hnd' Hxn].
  assert (NoDup ps.*1) as Hnd1 by (rewrite fmap_app, NoDup_app in Hnd'; apply Hnd').
  assert (forall p, p ∈ ((x, j) :: qs).*1 -> p ∉ ps.*1) as Hdisj.
  { rewrite fmap_app, NoDup_app in Hnd. intros p H1 H2. by apply (proj1 (proj2 Hnd) p). }
  unfold disjoin. st_next (get_list_Some h l b Hb). st_next (get_list_Some h l2 b2 Hb2).
  st_next (set_elements_Some h l b 0 Hb). rewrite Hf2.
  set (h0 := Heap (nodes h) (<[l := BList (first b) (last b) (u32 0)]> (lists h))).
  assert (lists h0 !! l = Some (BList (first b) (last b) 0)) as Hb0 by (simpl; by rewrite lookup_insert_eq).
  rewrite length_app in Hlt. simpl in Hlt.
  pose proof (disjoin_loop_spec h0 l ps x ((x, j) :: qs) _ fuel (First l) Hb0 Hsq Hnd1
    ltac:(apply Hdisj, list_elem_of_here) (first b) Hs1 Hf ltac:(simpl; lia) ltac:(simpl; lia)) as Hloop.
  st_next Hloop. clear Hloop. cbn [fst snd first last elements nodes lists].
  unfold h0. cbn [nodes lists]. rewrite insert_insert_eq. set (h1 := Heap _ _).
  destruct (write_end h1 l (BList (first b) (last b) (0 + Z.of_nat (length ps))) ps (Node x) End)
    as (h2 & f & Hw & Hb2' & Hs2' & Ho); [simpl; by rewrite lookup_insert_eq|done|done|].
  st_next Hw. rewrite (set_last_Some h2 l _ _ Hb2'). cbn [first last elements].
  eexists. split; [reflexivity|]. split; [|split].
  - eexists. simpl. rewrite lookup_insert_eq. split; [done|]. simpl. repeat (split; [done|]). lia.
  - exists b2. simpl. rewrite lookup_insert_ne by done. rewrite (proj1 Ho) by done. simpl.
    rewrite lookup_insert_ne by done. split; [done|]. split; [|done].
    apply (lseg_frame (nodes h) (nodes h2) _ ((x, j) :: qs)); [|exact Hs2].
    intros p Hp. by rewrite (proj2 Ho) by (by apply Hdisj).
  - destruct Ho as [Ho1 Ho2]. split; simpl; intros k Hk.
    + rewrite lookup_insert_ne by done. rewrite Ho1 by done. simpl. by rewrite lookup_insert_ne.
    + by rewrite Ho2.
Qed.

Lemma swap_rep h l l2 ps qs :
  rep h l ps -> rep h l2 qs -> l <> l2 ->
  exists h', list_swap l l2 h = Some (tt, h') /\ rep h' l qs /\ rep h' l2 ps /\ nodes h' = nodes h /\
    forall l', l' <> l -> l' <> l2 -> lists h' !! l' = lists h !! l'.
Proof.
  intros (b & Hb & Hs & Hnd & Hla & He & Hlt) (b2 & Hb2 & Hs2 & Hnd2 & Hla2 & He2 & Hlt2) Hne.
  unfold list_swap. st_next (get_list_Some h l b Hb). st_next (get_list_Some h l2 b2 Hb2).
  unfold st_bind, set_list. cbn [nodes lists]. eexists. split; [reflexivity|].
  assert (forall a c ps, (if decide (end_slot (First a) ps = First a) then First c else end_slot (First a) ps)
                     = end_slot (First c) ps) as Hsw.
  { intros a c rs. destruct (list_snoc_inv rs) as [->|(rs' & [q j] & ->)].
    - rewrite !end_slot_nil. by rewrite decide_True.
    - by rewrite !end_slot_snoc. }
  split; [|split; [|split; [done|]]].
  - eexists. simpl. rewrite lookup_insert_ne, lookup_insert_eq by done. split; [done|]. simpl.
    rewrite Hla2, Hsw. done.
  - eexists. simpl. rewrite lookup_insert_eq by done. split; [done|]. simpl. rewrite Hla, Hsw. done.
  - intros l' H1 H2. simpl. by rewrite !lookup_insert_ne.
Qed.

(** *** Walking *)

Lemma elem_loop_spec h ps n s :
  lseg (nodes h) s ps End -> elem_loop n s h = Some (default 0 (ps.*2 !! n), h).
Proof.
  revert s n. induction ps as [|[p i] ps IH]; intros s n; simpl.
  - intros ->. by destruct n.
  - intros (-> & nx & Hp & Hs). destruct n as [|n]; cbn [elem_loop]; rewrite decide_False by done;
      st_next (info_of_Some h p nx i Hp); [done|]. st_next (next_of_Some h p nx i Hp). by apply IH.
Qed.

Lemma range_loop_spec h ps s fuel :
  lseg (nodes h) s ps End -> (length ps < fuel)%nat -> range_loop fuel s h = Some (ps.*2, h).
Proof.
  revert s fuel. induction ps as [|[p i] ps IH]; intros s fuel; simpl.
  - intros -> Hf. destruct fuel; [lia|]. done.
  - intros (-> & nx & Hp & Hs) Hf. destruct fuel as [|fuel]; [lia|]. cbn [range_loop].
    rewrite decide_False by done. st_next (info_of_Some h p nx i Hp). st_next (next_of_Some h p nx i Hp).
    assert (range_loop fuel nx h = Some (ps.*2, h)) as Hr by (apply IH; [done|lia]). by st_next Hr.
Qed.

Lemma elem_rep h l ps n : rep h l ps -> elem l n h = Some (default 0 (ps.*2 !! n), h).
Proof.
  intros (b & Hb & Hs & _). unfold elem. st_next (get_list_Some h l b Hb). by apply elem_loop_spec.
Qed.

Lemma range_for_rep h l ps fuel :
  rep h l ps -> (length ps < fuel)%nat -> range_for fuel l h = Some (ps.*2, h).
Proof.
  intros (b & Hb & Hs & _) Hf. unfold range_for. st_next (get_list_Some h l b Hb). by apply range_loop_spec.
Qed.

Lemma head_rep h l ps : rep h l ps -> head l h = Some (default 0 (ps.*2 !! 0%nat), h).
Proof.
  intros (b & Hb & Hs & _). unfold head. st_next (get_list_Some h l b Hb).
  destruct ps as [|[p i] ps]; simpl in Hs; [by rewrite Hs|]. destruct Hs as (-> & n & Hp & _).
  by rewrite (info_of_Some h p n i Hp).
Qed.

Lemma find_eq_spec h ps s fuel eq info :
  lseg (nodes h) s ps End -> (length ps < fuel)%nat ->
  exists v, find_eq fuel eq info s h = Some (v, h) /\
    (v = End <-> existsb (fun i => eq i info) ps.*2 = false).
Proof.
  revert s fuel. induction ps as [|[p i] ps IH]; intros s fuel; simpl.
  - intros -> Hf. destruct fuel; [lia|]. by exists End.
  - intros (-> & nx & Hp & Hs) Hf. destruct fuel as [|fuel]; [lia|]. cbn [find_eq].
    rewrite decide_False by done. st_next (info_of_Some h p nx i Hp).
    destruct (eq i info); [by exists (Node p)|]. st_next (next_of_Some h p nx i Hp).
    apply IH; [done|lia].
Qed.

Lemma add_unique_rep h l ps fuel info eq p :
  rep h l ps -> (length ps < fuel)%nat -> nodes h !! p = None -> Z.of_nat (length ps) + 1 < 2 ^ 32 ->
  if existsb (fun i => eq i info) ps.*2
  then add_unique fuel l info eq (Some p) h = Some (true, h)
  else exists h', add_unique fuel l info eq (Some p) h = Some (false, h') /\ rep h' l (ps ++ [(p, info)]).
Proof.
  intros Hr Hf Hp Hroom. pose proof Hr as (b & Hb & Hs & _). unfold add_unique.
  st_next (get_list_Some h l b Hb).
  destruct (find_eq_spec h ps (first b) fuel eq info Hs Hf) as (v & Hv & Hiff).
  destruct (existsb (fun i => eq i info) ps.*2).
  - st_next Hv. rewrite decide_False; [done|]. by intros Hx%Hiff.
  - st_next Hv. rewrite decide_True by (by apply Hiff).
    destruct (push_back_rep h l ps p info Hr Hp Hroom) as (h' & ? & ? & ?). by exists h'.
Qed.

(** The iterator before the nodes [qs]. *)
Definition it_at (l : nat) ps (it : iterator) : Prop :=
  it_list it = l /\ it_el it = end_slot (First l) ps.

Lemma it_next_cons h l ps p i qs it :
  rep h l (ps ++ (p, i) :: qs) -> it_at l ps it ->
  it_next it h = Some ((i, Iter l (Next p) (Some (end_slot (First l) ps)) (Node p)), h).
Proof.
  intros (b & Hb & Hs & _) [Hl He]. apply lseg_app in Hs as (mid & Hs & -> & n & Hp & _).
  unfold it_next. rewrite He. st_next (read_end h l b ps (Node p) Hb Hs).
  change (next_slot (Node p)) with (@st_ret heap slot (Next p)). unfold st_bind at 1. unfold st_ret at 1.
  st_next (info_of_Some h p n i Hp). by rewrite Hl.
Qed.

Lemma it_next_nil h l ps it :
  rep h l ps -> it_at l ps it -> exists it', it_next it h = Some ((0, it'), h) /\ it_current it' = End.
Proof.
  intros (b & Hb & Hs & _) [Hl He]. unfold it_next. rewrite He. st_next (read_end h l b ps End Hb Hs).
  by eexists.
Qed.

(** The loop [while ((x= it++)) if (drop(x)) it.remove();]. *)
Fixpoint drop_loop (fuel : nat) (drop : Z -> bool) (it : iterator) : ST heap unit :=
  match fuel with
  | O => st_fail
  | S fuel =>
      let* r := it_next it in
      if fst r =? 0 then st_ret tt else
      if drop (fst r) then let* it := it_remove (snd r) in drop_loop fuel drop it
      else drop_loop fuel drop (snd r)
  end.

Lemma drop_loop_spec h l ps qs it fuel drop :
  rep h l (ps ++ qs) -> it_at l ps it -> Forall (fun i => i <> 0) qs.*2 -> (length qs < fuel)%nat ->
  exists h', drop_loop fuel drop it h = Some (tt, h') /\
    rep h' l (ps ++ filter (fun q => drop q.2 = false) qs).
Proof.
  revert h ps it fuel. induction qs as [|[p i] qs IH]; intros h ps it fuel Hr Hit Hnz Hf;
    (destruct fuel as [|fuel]; [simpl in Hf; lia|]); cbn [drop_loop].
  - rewrite app_nil_r in Hr. destruct (it_next_nil h l ps it Hr Hit) as (it' & Hn & _). st_next Hn.
    exists h. split; [done|]. by rewrite app_nil_r.
  - st_next (it_next_cons h l ps p i qs it Hr Hit). cbn [fst snd]. simpl in Hnz.
    apply Forall_cons in Hnz as [Hi Hnz]. rewrite (proj2 (Z.eqb_neq i 0)) by done. simpl in Hf.
    rewrite filter_cons. cbn [snd]. destruct (drop i) eqn:Ed.
    + rewrite decide_False by done. unfold it_remove. cbn [it_prev it_list].
      destruct (remove_rep h l ps p i qs Hr) as (h' & Hrm & Hr' & _ & _).
      assert ((list_remove l (end_slot (First l) ps) ;;;
               st_ret (Iter l (end_slot (First l) ps) (Some (end_slot (First l) ps)) Null)) h =
              Some (Iter l (end_slot (First l) ps) (Some (end_slot (First l) ps)) Null, h')) as Hb.
      { by st_next Hrm. }
      st_next Hb. apply (IH h' ps); [done|done|done|lia].
    + rewrite decide_True by done.
      change ((p, i) :: qs) with ([(p, i)] ++ qs) in Hr. rewrite app_assoc in Hr.
      change ((p, i) :: filter (fun q => drop q.2 = false) qs) with ([(p, i)] ++ filter (fun q => drop q.2 = false) qs).
      rewrite app_assoc. apply (IH h (ps ++ [(p, i)])); [done| |done|lia].
      split; [done|]. simpl. by rewrite end_slot_snoc.
Qed.

(** [check_list] accepts exactly the non-empty well-formed lists without null
    elements; the empty list fails it. *)
Lemma check_loop_spec h ps p i fuel cnt :
  lseg (nodes h) (Node p) ((p, i) :: ps) End -> (length ps < fuel)%nat ->
  0 <= cnt -> cnt + Z.of_nat (length ps) < 2 ^ 32 ->
  Forall (fun i => i <> 0) (i :: ps.*2) ->
  check_loop fuel (Node p) cnt h =
    Some (Some (Node (default (p, i) (list.last ps)).1, cnt + Z.of_nat (length ps)), h).
Proof.
  revert p i fuel cnt. induction ps as [|[q j] ps IH]; intros p i fuel cnt Hs Hf Hc Hlt Hnz;
    (destruct fuel as [|fuel]; [simpl in Hf; lia|]); cbn [check_loop]; destruct Hs as (_ & n & Hp & Hs).
  - st_next (next_of_Some h p n i Hp). simpl in Hs. rewrite decide_True by done. unfold st_ret.
    simpl. by rewrite Z.add_0_r.
  - pose proof Hs as (Hn & _). rewrite Hn in Hp, Hs. st_next (next_of_Some h p _ i Hp).
    rewrite decide_False by done. st_next (info_of_Some h p _ i Hp). simpl in Hnz.
    apply Forall_cons in Hnz as [Hi Hnz]. rewrite (proj2 (Z.eqb_neq i 0)) by done.
    cbn [length] in *. rewrite wrapU_small by (split; lia).
    rewrite (IH q j) by (done || lia). rewrite last_cons. do 3 f_equal.
    destruct (list.last ps) as [[]|]; simpl; f_equal; lia.
Qed.

(** *** bubble_sort *)

Lemma lseg_set_info m s ps p x y qs e :
  lseg m s (ps ++ (p, x) :: qs) e -> NoDup (ps ++ (p, x) :: qs).*1 ->
  exists n, m !! p = Some (LNode n x) /\ lseg (<[p := LNode n y]> m) s (ps ++ (p, y) :: qs) e.
Proof.
  rewrite lseg_app. intros (mid & H1 & -> & n & Hp & H2) Hnd.
  apply NoDup_mid in Hnd as [_ Hpn]. rewrite fmap_app, elem_of_app in Hpn.
  exists n. split; [done|]. apply lseg_app. exists (Node p). split; [apply lseg_insert; tauto|].
  split; [done|]. exists n. rewrite lookup_insert_eq. split; [done|]. apply lseg_insert; tauto.
Qed.

Lemma set_info_rep h l ps p x y qs :
  rep h l (ps ++ (p, x) :: qs) ->
  exists h', set_info (Node p) y h = Some (tt, h') /\ rep h' l (ps ++ (p, y) :: qs).
Proof.
  intros (b & Hb & Hs & Hnd & Hla & He & Hlt).
  destruct (lseg_set_info _ _ _ _ _ y _ _ Hs Hnd) as (n & Hp & Hs').
  st_run. eexists. split; [reflexivity|]. exists b. simpl. split; [done|]. split; [done|].
  rewrite fmap_app, fmap_cons in *. simpl in *. split; [done|].
  rewrite !length_app in *. simpl in *. split; [|done].
  rewrite Hla, !end_slot_app, !end_slot_cons. done.
Qed.

Section sort.
Context (sort_func : Z -> Z -> Z).

(** One pass over the elements [x :: c]: the elements behind which the greatest
    so far was carried, that one, and whether there was a swap. *)
Fixpoint bub (x : Z) (c : list Z) : list Z * Z * bool :=
  match c with
  | [] => ([], x, false)
  | y :: c =>
      if 0 <? sort_func x y then let '(a, m, _) := bub x c in (y :: a, m, true)
      else let '(a, m, s) := bub y c in (x :: a, m, s)
  end.

Lemma bub_length x c : length (bub x c).1.1 = length c.
Proof.
  revert x. induction c as [|y c IH]; intros x; [done|]. simpl.
  destruct (0 <? _).
  - specialize (IH x). destruct (bub x c) as [[a m] s]. simpl in *. lia.
  - specialize (IH y). destruct (bub y c) as [[a m] s]. simpl in *. lia.
Qed.

Lemma bub_perm x c : (bub x c).1.1 ++ [(bub x c).1.2] ≡ₚ x :: c.
Proof.
  revert x. induction c as [|y c IH]; intros x; [done|]. simpl. destruct (0 <? _).
  - specialize (IH x). destruct (bub x c) as [[a m] s]. simpl in *. rewrite IH. constructor.
  - specialize (IH y). destruct (bub y c) as [[a m] s]. simpl in *. by rewrite IH.
Qed.

(** The part of the chain that a pass rewrites. *)
Definition relabel (addrs : list positive) (infos : list Z) : list (positive * Z) := zip addrs infos.

(** Where the pass stops: behind the last node, or at the node that the pass
    before ended on. *)
Definition stops_at (ds : list (positive * Z)) (last_ref : option ptr) : Prop :=
  match ds with
  | [] => last_ref = None
  | (q, _) :: _ => last_ref = Some (Node q)
  end.

Lemma bubble_pass_spec l last_ref ds cs :
  forall h ps p x it fuel sw,
  rep h l (ps ++ (p, x) :: cs ++ ds) -> it_at l (ps ++ [(p, x)]) it -> stops_at ds last_ref ->
  Forall (fun q => q.2 <> 0) (cs ++ ds) -> (length cs < fuel)%nat ->
  let '(a, m, s) := bub x cs.*2 in
  exists h', bubble_pass sort_func fuel it x (Node p) last_ref sw h =
      Some ((Node (default p (list.last cs.*1)), sw || s), h') /\
    rep h' l (ps ++ zip (p :: cs.*1) (a ++ [m]) ++ ds).
Proof.
  induction cs as [|[q y] cs IH]; intros h ps p x it fuel sw Hr Hit Hst Hnz Hf;
    (destruct fuel as [|fuel]; [simpl in Hf; lia|]); cbn [bubble_pass fmap list_fmap bub fst snd].
  - exists h. split; [|done]. simpl in Hr. change ((p, x) :: ds) with ([(p, x)] ++ ds) in Hr.
    rewrite app_assoc in Hr. destruct ds as [|[q z] ds]; simpl in Hst; subst last_ref.
    + rewrite app_nil_r in Hr. destruct (it_next_nil h l _ it Hr Hit) as (it' & Hn & _). st_next Hn.
      simpl. by rewrite orb_false_r.
    + st_next (it_next_cons h l _ q z ds it Hr Hit). cbn [fst snd it_current].
      simpl in Hnz. apply Forall_cons in Hnz as [Hz _]. simpl in Hz.
      rewrite (proj2 (Z.eqb_neq z 0)), decide_True by done. simpl. by rewrite orb_false_r.
  - simpl in Hr, Hnz, Hf. apply Forall_cons in Hnz as [Hy Hnz]. simpl in Hy.
    assert (rep h l ((ps ++ [(p, x)]) ++ (q, y) :: cs ++ ds)) as Hr1 by (by rewrite <- app_assoc).
    st_next (it_next_cons h l _ q y (cs ++ ds) it Hr1 Hit). cbn [fst snd it_current].
    rewrite (proj2 (Z.eqb_neq y 0)) by done. rewrite decide_False.
    2:{ intros Hq. destruct ds as [|[q' z] ds]; simpl in Hst; rewrite Hst in Hq; [done|]. simplify_eq.
        destruct Hr1 as (b & _ & _ & Hnd & _). apply NoDup_mid in Hnd as [_ Hnd]. apply Hnd.
        rewrite !fmap_app, !elem_of_app. right. right. apply list_elem_of_here. }
    destruct (0 <? sort_func x y) eqn:Es.
    + destruct (set_info_rep h l ps p x y _ Hr) as (h1 & Hs1 & Hr1'). st_next Hs1.
      assert (rep h1 l ((ps ++ [(p, y)]) ++ (q, y) :: cs ++ ds)) as Hr2 by (by rewrite <- app_assoc).
      destruct (set_info_rep h1 l _ q y x _ Hr2) as (h2 & Hs2 & Hr3). st_next Hs2.
      specialize (IH h2 (ps ++ [(p, y)]) q x (Iter l (Next q) (Some (end_slot (First l) (ps ++ [(p, x)]))) (Node q))
        fuel true Hr3).
      destruct (bub x cs.*2) as [[a m] s]. destruct IH as (h' & Hb & Hr'); [|done|done|lia|].
      { split; [done|]. simpl. by rewrite end_slot_snoc. }
      exists h'. split.
      * rewrite Hb, orb_true_r. simpl. rewrite last_cons. by destruct (list.last cs.*1).
      * rewrite <- app_assoc in Hr'. exact Hr'.
    + specialize (IH h (ps ++ [(p, x)]) q y (Iter l (Next q) (Some (end_slot (First l) (ps ++ [(p, x)]))) (Node q))
        fuel sw Hr1).
      destruct (bub y cs.*2) as [[a m] s]. destruct IH as (h' & Hb & Hr'); [|done|done|lia|].
      { split; [done|]. simpl. by rewrite end_slot_snoc. }
      exists h'. split.
      * rewrite Hb. simpl. rewrite last_cons. by destruct (list.last cs.*1).
      * rewrite <- app_assoc in Hr'. exact Hr'.
Qed.

(** The comparison is a total preorder. *)
Definition before (a b : Z) : Prop := sort_func a b <= 0.
Context (Htotal : forall a b, 0 < sort_func a b -> before b a).
Context (Htrans : forall a b c, before a b -> before b c -> before a c).

Lemma before_refl a : before a a.
Proof.
  destruct (Z.le_gt_cases (sort_func a a) 0) as [H|H]; [done|]. apply Htotal. lia.
Qed.

Lemma bub_max x c : Forall (fun y => before y (bub x c).1.2) (x :: c).
Proof.
  revert x. induction c as [|y c IH]; intros x.
  - constructor; [apply before_refl|constructor].
  - simpl. destruct (Z.ltb_spec 0 (sort_func x y)) as [E|E].
    + specialize (IH x). destruct (bub x c) as [[a m] s]. simpl in *.
      apply Forall_cons in IH as [H1 H2]. constructor; [done|]. constructor; [|done].
      apply Htrans with x; [by apply Htotal|done].
    + specialize (IH y). destruct (bub y c) as [[a m] s]. simpl in *.
      apply Forall_cons in IH as [H1 H2]. constructor; [|by constructor].
      by apply Htrans with y.
Qed.

Lemma bub_sorted x c : (bub x c).2 = false -> (bub x c).1.1 ++ [(bub x c).1.2] = x :: c /\ Sorted before (x :: c).
Proof.
  revert x. induction c as [|y c IH]; intros x; simpl; [intros _; split; [done|repeat constructor]|].
  destruct (Z.ltb_spec 0 (sort_func x y)) as [E|E].
  - by destruct (bub x c) as [[a m] s].
  - specialize (IH y). destruct (bub y c) as [[a m] s]. simpl in *. intros Hs.
    destruct (IH Hs) as [-> Hso]. split; [done|]. constructor; [done|]. by constructor.
Qed.

Lemma Sorted_join (a d : list Z) :
  Sorted before a -> Sorted before d -> (forall x y, x ∈ a -> y ∈ d -> before x y) -> Sorted before (a ++ d).
Proof.
  intros Ha Hd Hb. induction Ha as [|x a Ha IH Hx]; [done|]. simpl. constructor.
  - apply IH. intros y z Hy Hz. apply Hb; [by right|done].
  - destruct Hx as [|y a Hxy]; simpl; [|by constructor].
    destruct d as [|z d]; constructor. apply Hb; apply list_elem_of_here.
Qed.

Lemma zip_fst {A B} (a : list A) (b : list B) : length a = length b -> (zip a b).*1 = a /\ (zip a b).*2 = b.
Proof. intros H. split; [apply fst_zip|apply snd_zip]; lia. Qed.

Lemma Forall_nz_perm (a b : list Z) : a ≡ₚ b -> Forall (fun x => x <> 0) b -> Forall (fun x => x <> 0) a.
Proof. intros Hp. by rewrite Hp. Qed.

(** The outer loop: the elements from [ds] on are in their final places. *)
Lemma bubble_loop_spec l pass_fuel :
  forall fuel h cs ds last_ref,
  rep h l (cs ++ ds) -> stops_at ds last_ref -> Forall (fun q => q.2 <> 0) (cs ++ ds) ->
  Sorted before ds.*2 -> (forall x y, x ∈ cs.*2 -> y ∈ ds.*2 -> before x y) ->
  (ds = [] \/ cs <> []) -> (1 `max` length cs <= fuel)%nat -> (1 `max` length cs <= pass_fuel)%nat ->
  exists h' rs, bubble_loop sort_func pass_fuel fuel l last_ref h = Some (tt, h') /\ rep h' l rs /\
    rs.*1 = (cs ++ ds).*1 /\ rs.*2 ≡ₚ (cs ++ ds).*2 /\ Sorted before rs.*2.
Proof.
  induction fuel as [|fuel IH]; intros h cs ds last_ref Hr Hst Hnz Hso Hle Hne Hf Hpf; [lia|].
  cbn [bubble_loop]. destruct cs as [|[p x] cs].
  - destruct Hne as [->|]; [|done]. simpl in Hr. destruct (it_next_nil h l [] (it_init l) Hr) as (it' & Hn & Hcur); [done|].
    st_next Hn. cbn [fst snd]. rewrite Hcur.
    assert (exists pf, pass_fuel = S pf) as [pf Hpf'] by (exists (pred pass_fuel); simpl in Hpf; lia).
    assert (it_next it' h = Some ((0, Iter l EndNext (Some EndNext) End), h)) as Hn2.
    { unfold it_next in Hn. destruct Hr as (b & Hb & Hs & _). simpl in Hs.
      unfold st_bind, it_init in Hn. cbn [it_el read_slot] in Hn. unfold st_bind, get_list in Hn.
      rewrite Hb in Hn. cbn [mbind option_bind] in Hn. unfold st_ret in Hn at 1. rewrite Hs in Hn.
      cbn in Hn. unfold st_ret in Hn. injection Hn as <-. done. }
    assert (bubble_pass sort_func pass_fuel it' 0 End last_ref false h = Some ((End, false), h)) as Hp.
    { rewrite Hpf'. cbn [bubble_pass]. by st_next Hn2. }
    st_next Hp. exists h, []. split; [done|]. split; [done|]. by repeat split.
  - simpl in Hr, Hnz. pose proof (Forall_cons_1 _ _ _ Hnz) as [Hx Hnz']. simpl in Hx.
    st_next (it_next_cons h l [] p x (cs ++ ds) (it_init l) Hr ltac:(done)). cbn [fst snd it_current].
    pose proof (bubble_pass_spec l last_ref ds cs h [] p x (Iter l (Next p) (Some (end_slot (First l) [])) (Node p))
      pass_fuel false Hr ltac:(done) Hst Hnz' ltac:(simpl in Hpf; lia)) as Hpass.
    pose proof (bub_length x cs.*2) as Hlen. pose proof (bub_perm x cs.*2) as Hperm.
    pose proof (bub_max x cs.*2) as Hmax. pose proof (bub_sorted x cs.*2) as Hsorted.
    destruct (bub x cs.*2) as [[a m] s] eqn:Eb. cbn [fst snd] in *. destruct Hpass as (h1 & Hb & Hr1). st_next Hb.
    cbn [fst snd orb]. rewrite app_nil_l in Hr1. rewrite length_fmap in Hlen.
    assert (length (p :: cs.*1) = length (a ++ [m])) as Hzl by (rewrite length_app; simpl; rewrite length_fmap; lia).
    destruct (zip_fst (p :: cs.*1) (a ++ [m]) Hzl) as [Hz1 Hz2].
    assert (forall y z, y ∈ a ++ [m] -> z ∈ ds.*2 -> before y z) as Hle'.
    { intros y z Hy Hz. apply Hle; [|done]. simpl. by rewrite <- Hperm. }
    destruct s.
    + (* another pass: the last of the part joins the sorted end *)
      destruct (list_snoc_inv (p :: cs.*1)) as [|(addrs & q & Hq)]; [done|].
      assert (default p (list.last cs.*1) = q) as Hlast.
      { assert (list.last (p :: cs.*1) = Some q) as Hl by (rewrite Hq; apply last_snoc).
        rewrite last_cons in Hl. destruct (list.last cs.*1); by injection Hl. }
      rewrite Hlast. rewrite Hq in Hr1, Hz1, Hzl. rewrite !length_app in Hzl. simpl in Hzl.
      rewrite zip_with_app in Hr1 by lia. simpl in Hr1. rewrite <- app_assoc in Hr1. simpl in Hr1.
      destruct (zip_fst addrs a ltac:(lia)) as [Hza1 Hza2].
      assert (a <> []) as Hane.
      { intros ->. simpl in Hlen. destruct cs; [|done]. by simpl in Eb. }
      destruct (IH h1 (zip addrs a) ((q, m) :: ds) (Some (Node q)) Hr1) as (h' & rs & Hl & Hr' & Hrs1 & Hrs2 & Hrs3).
      * done.
      * change (Forall ((fun x => x <> 0) ∘ snd) (zip addrs a ++ (q, m) :: ds)).
        apply Forall_fmap. rewrite fmap_app, Hza2. simpl.
        apply Forall_nz_perm with ((p, x) :: cs ++ ds).*2; [|by apply Forall_fmap].
        rewrite !fmap_cons, fmap_app. simpl. rewrite app_comm_cons, <- Hperm. by rewrite <- app_assoc.
      * simpl. apply Sorted_cons; [done|]. destruct ds as [|[d z] ds]; constructor.
        apply Hle'; [rewrite elem_of_app; right; apply list_elem_of_here|apply list_elem_of_here].
      * rewrite Hza2. simpl. intros y z Hy [->|Hz]%elem_of_cons.
        -- rewrite <- Hperm in Hmax. rewrite Forall_app, Forall_forall in Hmax. by apply Hmax.
        -- apply Hle'; [|done]. rewrite elem_of_app. by left.
      * right. destruct a; [done|]. destruct addrs; [simpl in Hzl; lia|done].
      * rewrite length_zip. cbn [length] in Hf. destruct a; [done|]. simpl in Hlen |- *. lia.
      * rewrite length_zip. cbn [length] in Hpf. destruct a; [done|]. simpl in Hlen |- *. lia.
      * exists h', rs. split; [done|]. split; [done|].
        rewrite fmap_app, Hza1 in Hrs1. rewrite fmap_app, Hza2 in Hrs2. simpl in Hrs1, Hrs2.
        rewrite !fmap_app, !fmap_cons. simpl. rewrite app_comm_cons, Hq.
        split; [by rewrite Hrs1, <- app_assoc|]. split; [|done].
        rewrite Hrs2, app_comm_cons, <- Hperm. by rewrite <- app_assoc.
    + destruct (Hsorted eq_refl) as [He Hsx].
      exists h1, (zip (p :: cs.*1) (a ++ [m]) ++ ds). split; [done|]. split; [done|].
      rewrite !fmap_app, Hz1, Hz2, He. split; [by rewrite fmap_cons|]. split; [done|].
      apply Sorted_join; [done|done|]. intros y z Hy Hz. apply Hle'; [by rewrite He|done].
Qed.
End sort.

(** ** Properties *)

(** [base_list] is a sequence.  On a list that holds the nodes [ps] and
    with memory for a fresh node: [push_back] and [push_front] add the element
    at that end and touch no other list and no node but the former last one;
    [pop] takes the first element off (and gives null on the empty list);
    [head], [elem] and the range loop read the elements in order; [add_unique]
    adds the element exactly when no element equals it. *)
Lemma base_list_refines_sequence h l ps p info n fuel eq :
  rep h l ps -> nodes h !! p = None -> Z.of_nat (length ps) + 1 < 2 ^ 32 -> (length ps < fuel)%nat ->
  (exists h', push_back l info (Some p) h = Some (false, h') /\ rep h' l (ps ++ [(p, info)]) /\
     only l (p :: ps.*1) h h') /\
  (exists h', push_front l info (Some p) h = Some (false, h') /\ rep h' l ((p, info) :: ps) /\
     only l [p] h h') /\
  match ps with
  | [] => pop l h = Some (0, h)
  | (_, i) :: ps' => exists h', pop l h = Some (i, h') /\ rep h' l ps' /\ only l [] h h'
  end /\
  is_empty l h = Some (bool_decide (ps = []), h) /\
  head l h = Some (default 0 (ps.*2 !! 0%nat), h) /\
  elem l n h = Some (default 0 (ps.*2 !! n), h) /\
  range_for fuel l h = Some (ps.*2, h) /\
  (if existsb (fun i => eq i info) ps.*2
   then add_unique fuel l info eq (Some p) h = Some (true, h)
   else exists h', add_unique fuel l info eq (Some p) h = Some (false, h') /\ rep h' l (ps ++ [(p, info)])).
Proof.
  intros Hr Hp Hroom Hf. split; [by apply push_back_rep|]. split; [by apply push_front_rep|].
  split; [destruct ps as [|[q i] ps]; [by apply pop_nil_rep|exact (pop_cons_rep h l q i ps Hr)]|].
  split; [by apply is_empty_rep|]. split; [by apply head_rep|]. split; [by apply elem_rep|].
  split; [by apply range_for_rep|by apply add_unique_rep].
Qed.

(** Joining and splitting lists.  For lists without common nodes,
    [append] and [prepend] put the elements of the second list behind or before
    those of the first, and [swap] exchanges the two; [disjoin] with a list that
    shares the tail of this one leaves this one the part before it and the
    other one the tail. *)
Lemma base_list_join_split h l l2 ps qs fuel :
  rep h l2 qs -> l <> l2 -> (length ps < fuel)%nat ->
  (rep h l ps -> (forall p, p ∈ ps.*1 -> p ∉ qs.*1) -> Z.of_nat (length ps + length qs) < 2 ^ 32 ->
   (exists h', append l l2 h = Some (tt, h') /\ rep h' l (ps ++ qs) /\ rep h' l2 qs /\ only l ps.*1 h h') /\
   (exists h', prepend l l2 h = Some (tt, h') /\ rep h' l (qs ++ ps)) /\
   (exists h', list_swap l l2 h = Some (tt, h') /\ rep h' l qs /\ rep h' l2 ps /\ nodes h' = nodes h)) /\
  (rep h l (ps ++ qs) -> qs <> [] ->
   exists h', disjoin fuel l l2 h = Some (tt, h') /\ rep h' l ps /\ rep h' l2 qs /\ only l ps.*1 h h').
Proof.
  intros Hr2 Hne Hf. split.
  - intros Hr Hd Hroom. split; [by apply append_rep|]. split.
    + destruct (prepend_rep h l l2 ps qs Hr Hr2 Hne Hd Hroom) as (h' & ? & ? & _). by exists h'.
    + destruct (swap_rep h l l2 ps qs Hr Hr2 Hne) as (h' & ? & ? & ? & ? & _). by exists h'.
  - intros Hr Hq. by apply disjoin_rep.
Qed.

(** Removing while iterating.  A loop over the list that calls the
    iterator's [remove] on the elements that a test selects terminates and
    leaves exactly the other elements, in their order, with the list's count and
    last pointer right; each [remove] frees its node. *)
Lemma list_iterator_remove h l ps drop fuel :
  rep h l ps -> Forall (fun i => i <> 0) ps.*2 -> (length ps < fuel)%nat ->
  (exists h', drop_loop fuel drop (it_init l) h = Some (tt, h') /\
     rep h' l (filter (fun q => drop q.2 = false) ps)) /\
  (forall ps1 p i ps2, ps = ps1 ++ (p, i) :: ps2 ->
     exists h', list_remove l (end_slot (First l) ps1) h = Some (tt, h') /\ rep h' l (ps1 ++ ps2) /\
       nodes h' !! p = None).
Proof.
  intros Hr Hnz Hf. split.
  - by apply (drop_loop_spec h l [] ps (it_init l) fuel drop Hr).
  - intros ps1 p i ps2 ->. destruct (remove_rep h l ps1 p i ps2 Hr) as (h' & ? & ? & ? & _). by exists h'.
Qed.

(** C39 : [bubble_sort].  For a comparison function that is a total preorder
    and a list of [n] non-null elements, the sort terminates within [n] passes (one
    on the empty list), each of at most [n] steps of the iterator (one on the empty
    list), and leaves the same nodes in place with their elements permuted into
    order.  (The fuel bounds both, the passes and the steps of each; a pass stops at
    the node where the pass before ended.) *)
Theorem bubble_sort_correct sort_func h l ps fuel :
  (forall a b, 0 < sort_func a b -> before sort_func b a) ->
  (forall a b c, before sort_func a b -> before sort_func b c -> before sort_func a c) ->
  rep h l ps -> Forall (fun i => i <> 0) ps.*2 -> (1 `max` length ps <= fuel)%nat ->
  exists h' rs, bubble_sort sort_func fuel l h = Some (tt, h') /\ rep h' l rs /\
    rs.*1 = ps.*1 /\ rs.*2 ≡ₚ ps.*2 /\ Sorted (before sort_func) rs.*2.
Proof.
  intros Ht Htr Hr Hnz Hf. unfold bubble_sort.
  destruct (bubble_loop_spec sort_func Ht Htr l fuel fuel h ps [] None) as (h' & rs & Hl & Hr' & H1 & H2 & H3).
  - by rewrite app_nil_r.
  - done.
  - rewrite app_nil_r. exact (proj1 (Forall_fmap _ _ _) Hnz).
  - constructor.
  - intros x y _ Hy. by apply elem_of_nil in Hy.
  - by left.
  - done.
  - done.
  - rewrite app_nil_r in H1, H2. by exists h', rs.
Qed.

(** Running out of memory.  When [operator new] fails, [push_back]
    reports it, but it has stored the null pointer over the list's end: the list
    is no longer terminated by [end_of_list], so that reading it to its end
    dereferences null, and the empty list is no longer empty to [is_empty]. *)
Lemma push_back_out_of_memory h l ps info :
  rep h l ps ->
  exists h', push_back l info None h = Some (true, h') /\
    (forall fuel, range_for fuel l h' = None) /\ is_empty l h' = Some (false, h').
Proof.
  intros Hr. destruct (push_back_oom h l ps info Hr) as (h' & Hp & f & Hb & Hs).
  exists h'. split; [done|]. split.
  - intros fuel. unfold range_for. st_next (get_list_Some h' l _ Hb). cbn [first]. clear Hb Hr Hp.
    revert f fuel Hs. induction ps as [|[q i] ps IH]; intros f fuel; simpl.
    + intros ->. by destruct fuel.
    + intros (-> & n & Hq & Hs). destruct fuel as [|fuel]; [done|]. cbn [range_loop].
      rewrite decide_False by done. st_next (info_of_Some h' q n i Hq). st_next (next_of_Some h' q n i Hq).
      unfold st_bind. by rewrite IH.
  - unfold is_empty. st_next (get_list_Some h' l _ Hb). unfold st_ret. do 2 f_equal. cbn [first].
    apply bool_decide_eq_false. intros ->. destruct ps as [|[q i] ps]; simpl in Hs; [done|].
    by destruct Hs.
Qed.

(** *** At a concrete store *)

Definition ex_heap : heap :=
  Heap {[ 1%positive := LNode (Node 2) 30; 2%positive := LNode (Node 3) 10; 3%positive := LNode End 20;
          4%positive := LNode End 40 ]}
       {[ 0%nat := BList (Node 1) (Next 3) 3; 1%nat := BList (Node 4) (Next 4) 1 ]}.

Lemma ex_rep0 : rep ex_heap 0 [(1%positive, 30); (2%positive, 10); (3%positive, 20)].
Proof.
  exists (BList (Node 1) (Next 3) 3). split; [reflexivity|]. split.
  - split; [done|]. exists (Node 2). split; [reflexivity|]. split; [done|]. exists (Node 3).
    split; [reflexivity|]. split; [done|]. exists End. done.
  - split; [|done]. apply (bool_decide_unpack _). vm_compute. exact I.
Qed.

Lemma ex_rep1 : rep ex_heap 1 [(4%positive, 40)].
Proof.
  exists (BList (Node 4) (Next 4) 1). split; [reflexivity|]. split.
  - split; [done|]. exists End. done.
  - split; [|done]. apply (bool_decide_unpack _). vm_compute. exact I.
Qed.

Lemma bubble_sort_correct_witness :
  exists h' rs, bubble_sort Z.sub 3 0 ex_heap = Some (tt, h') /\ rep h' 0 rs /\
    rs.*1 = [1%positive; 2%positive; 3%positive] /\ rs.*2 ≡ₚ [30; 10; 20] /\
    Sorted (before Z.sub) rs.*2.
Proof.
  apply (bubble_sort_correct Z.sub ex_heap 0 [(1%positive, 30); (2%positive, 10); (3%positive, 20)] 3); [unfold before; lia|unfold before; lia|exact ex_rep0| |simpl; lia].
  apply (bool_decide_unpack _); vm_compute; exact I.
Defined.
