(* ===== verification/PList.v ===== *)
(** The server's intrusive doubly linked list:
    [mariadb/include/mysql/server/private/sql_plist.h] ([I_P_List], its iterator,
    its counting and insertion policies).

    The elements live in the store and carry the two link fields that the
    adapter [B] selects; a [slot] is the address of a [T *]: the [m_first] of a
    list or the [next] field of an element.  A dereference of null or of an
    element that is not in the store is [None]. *)

From S2P Require Import Prelude.

Open Scope st_scope.

(** ** The store *)

Inductive slot := First (l : nat) | Next (p : positive).

#[export] Instance slot_eq_dec : EqDecision slot.
Proof. solve_decision. Defined.

(** The link fields of an element, and the object of a list: [m_first], the
    [m_last] of the insertion policy and the [m_counter] of the counting one. *)
Record link := Link { l_next : option positive; l_prev : slot }.
Record plist := PList { m_first : option positive; m_last : slot; m_counter : Z }.
Record store := Store { links : gmap positive link; lists : gmap nat plist }.

Definition get_list (l : nat) : ST store plist := fun h => b ← lists h !! l; Some (b, h).
Definition set_list (l : nat) (b : plist) : ST store unit :=
  fun h => Some (tt, Store (links h) (<[l := b]> (lists h))).
Definition get_link (p : positive) : ST store link := fun h => n ← links h !! p; Some (n, h).
Definition set_link (p : positive) (n : link) : ST store unit :=
  fun h => Some (tt, Store (<[p := n]> (links h)) (lists h)).

(** [*B::next_ptr(p)], [*B::prev_ptr(p)] and their assignments *)
Definition get_next (p : positive) : ST store (option positive) :=
  let* n := get_link p in st_ret (l_next n).
Definition get_prev (p : positive) : ST store slot :=
  let* n := get_link p in st_ret (l_prev n).
Definition set_next (p : positive) (v : option positive) : ST store unit :=
  let* n := get_link p in set_link p (Link v (l_prev n)).
Definition set_prev (p : positive) (s : slot) : ST store unit :=
  let* n := get_link p in set_link p (Link (l_next n) s).

Definition set_first (l : nat) (v : option positive) : ST store unit :=
  let* b := get_list l in set_list l (PList v (m_last b) (m_counter b)).

(** [*s] and [*s = v] *)
Definition read_slot (s : slot) : ST store (option positive) :=
  match s with
  | First l => let* b := get_list l in st_ret (m_first b)
  | Next p => get_next p
  end.
Definition write_slot (s : slot) (v : option positive) : ST store unit :=
  match s with
  | First l => set_first l v
  | Next p => set_next p v
  end.

(** ** The policies *)

(** [I_P_List_null_counter] or [I_P_List_counter]; [I_P_List_no_push_back] or
    [I_P_List_fast_push_back]. *)
Inductive counting := null_counter | counter.
Inductive insertion := no_push_back | fast_push_back.

Section Policies.
Context (C : counting) (I : insertion).

Definition upd_counter (l : nat) (f : Z -> Z) : ST store unit :=
  match C with
  | null_counter => st_ret tt
  | counter => let* b := get_list l in set_list l (PList (m_first b) (m_last b) (u32 (f (m_counter b))))
  end.
Definition c_reset (l : nat) : ST store unit := upd_counter l (fun _ => 0).
Definition c_inc (l : nat) : ST store unit := upd_counter l (fun c => c + 1).
Definition c_dec (l : nat) : ST store unit := upd_counter l (fun c => c - 1).
Definition c_swap (l rhs : nat) : ST store unit :=
  match C with
  | null_counter => st_ret tt
  | counter =>
    let* b := get_list l in
    let* r := get_list rhs in
    set_list l (PList (m_first b) (m_last b) (m_counter r)) ;;;
    let* r := get_list rhs in
    set_list rhs (PList (m_first r) (m_last r) (m_counter b))
  end.

Definition set_last (l : nat) (s : slot) : ST store unit :=
  match I with
  | no_push_back => st_ret tt
  | fast_push_back => let* b := get_list l in set_list l (PList (m_first b) s (m_counter b))
  end.
(** Left unimplemented by the policy without [push_back]. *)
Definition get_last (l : nat) : ST store slot :=
  match I with
  | no_push_back => st_fail
  | fast_push_back => let* b := get_list l in st_ret (m_last b)
  end.
Definition i_swap (l rhs : nat) : ST store unit :=
  match I with
  | no_push_back => st_ret tt
  | fast_push_back =>
    let* b := get_list l in
    let* r := get_list rhs in
    set_list l (PList (m_first b) (m_last r) (m_counter b)) ;;;
    let* r := get_list rhs in
    set_list rhs (PList (m_first r) (m_last b) (m_counter r))
  end.

(** ** I_P_List *)

Definition list_empty (l : nat) : ST store unit :=
  set_first l None ;;; c_reset l ;;; set_last l (First l).

Definition is_empty (l : nat) : ST store bool :=
  let* b := get_list l in st_ret (bool_decide (m_first b = None)).

Definition push_front (l : nat) (a : positive) : ST store unit :=
  let* b := get_list l in
  set_next a (m_first b) ;;;
  match m_first b with
  | Some f => set_prev f (Next a)
  | None => set_last l (Next a)
  end ;;;
  set_first l (Some a) ;;;
  set_prev a (First l) ;;;
  c_inc l.

Definition push_back (l : nat) (a : positive) : ST store unit :=
  let* last := get_last l in
  let* v := read_slot last in
  set_next a v ;;;
  write_slot last (Some a) ;;;
  set_prev a last ;;;
  set_last l (Next a) ;;;
  c_inc l.

Definition insert_after (l : nat) (pos : option positive) (a : positive) : ST store unit :=
  match pos with
  | None => push_front l a
  | Some pos =>
    let* nx := get_next pos in
    set_next a nx ;;;
    set_prev a (Next pos) ;;;
    set_next pos (Some a) ;;;
    let* nx := get_next a in
    match nx with
    | Some old_next => set_prev old_next (Next a)
    | None => set_last l (Next a)
    end ;;;
    c_inc l
  end.

Definition remove (l : nat) (a : positive) : ST store unit :=
  let* next := get_next a in
  match next with
  | Some n => let* pa := get_prev a in set_prev n pa
  | None => let* pa := get_prev a in set_last l pa
  end ;;;
  let* pa := get_prev a in
  write_slot pa next ;;;
  c_dec l.

Definition front (l : nat) : ST store (option positive) :=
  let* b := get_list l in st_ret (m_first b).

Definition pop_front (l : nat) : ST store (option positive) :=
  let* result := front l in
  match result with
  | Some a => remove l a ;;; st_ret result
  | None => st_ret result
  end.

(** [swap] sets the last pointer of this list in both of its tests. *)
Definition list_swap (l rhs : nat) : ST store unit :=
  let* b := get_list l in
  let* r := get_list rhs in
  set_first l (m_first r) ;;;
  set_first rhs (m_first b) ;;;
  i_swap l rhs ;;;
  let* b := get_list l in
  match m_first b with
  | Some f => set_prev f (First l)
  | None => set_last l (First l)
  end ;;;
  let* r := get_list rhs in
  match m_first r with
  | Some f => set_prev f (First rhs)
  | None => set_last l (First rhs)
  end ;;;
  c_swap l rhs.

Definition elements (l : nat) : ST store Z :=
  let* b := get_list l in st_ret (m_counter b).

(** ** I_P_List_iterator *)

Record iterator := Iter { it_list : nat; it_current : option positive }.

Definition it_init (l : nat) : ST store iterator :=
  let* b := get_list l in st_ret (Iter l (m_first b)).

(** [it++] *)
Definition it_post (it : iterator) : ST store (option positive * iterator) :=
  match it_current it with
  | Some p => let* n := get_next p in st_ret (Some p, Iter (it_list it) n)
  | None => st_ret (None, it)
  end.

(** [++it] *)
Definition it_pre (it : iterator) : ST store (option positive * iterator) :=
  match it_current it with
  | Some p => let* n := get_next p in st_ret (n, Iter (it_list it) n)
  | None => st_fail
  end.

Definition it_rewind (it : iterator) : ST store iterator :=
  let* b := get_list (it_list it) in st_ret (Iter (it_list it) (m_first b)).

(** The loop [while ((a= it++)) if (drop(a)) list.remove(a);], which returns the
    elements it visits. *)
Fixpoint drop_loop (fuel : nat) (drop : positive -> bool) (it : iterator) : ST store (list positive) :=
  match fuel with
  | O => st_fail
  | S fuel =>
    let* r := it_post it in
    match r.1 with
    | None => st_ret []
    | Some a =>
      (if drop a then remove (it_list it) a else st_ret tt) ;;;
      let* visited := drop_loop fuel drop r.2 in
      st_ret (a :: visited)
    end
  end.

End Policies.

(** ** Representation *)

Implicit Types (m : gmap positive link) (ps qs : list positive).

(** The slot that holds the pointer behind the last of [ps]. *)
Definition end_slot (s : slot) ps : slot := match list.last ps with Some p => Next p | None => s end.

(** From the slot [s], which holds [v], along [ps] to the value [w]. *)
Fixpoint seg m (s : slot) (v : option positive) ps (w : option positive) : Prop :=
  match ps with
  | [] => v = w
  | p :: ps => v = Some p /\ exists n, m !! p = Some (Link n s) /\ seg m (Next p) n ps w
  end.

(** List [l] links [ps]; the last pointer and the counter are right if the
    policies keep them. *)
Definition rep (C : counting) (I : insertion) (h : store) (l : nat) ps : Prop :=
  exists b, lists h !! l = Some b /\ seg (links h) (First l) (m_first b) ps None /\ NoDup ps /\
    (I = fast_push_back -> m_last b = end_slot (First l) ps) /\
    (C = counter -> m_counter b = u32 (Z.of_nat (length ps))).

(** [h'] differs from [h] at most in list [l] and in the elements of [dom]. *)
Definition only (l : nat) (dom : list positive) (h h' : store) : Prop :=
  (forall l', l' <> l -> lists h' !! l' = lists h !! l') /\
  (forall p, p ∉ dom -> links h' !! p = links h !! p).

Lemma pl_end_slot_snoc s ps p : end_slot s (ps ++ [p]) = Next p.
Proof. unfold end_slot. by rewrite last_snoc. Qed.

Lemma pl_end_slot_app s ps qs : end_slot s (ps ++ qs) = end_slot (end_slot s ps) qs.
Proof.
  destruct (list_snoc_inv qs) as [->|(qs' & q & ->)]; [by rewrite app_nil_r|].
  by rewrite app_assoc, !pl_end_slot_snoc.
Qed.

Lemma pl_end_slot_cons s p ps : end_slot s (p :: ps) = end_slot (Next p) ps.
Proof. change (p :: ps) with ([p] ++ ps). by rewrite pl_end_slot_app. Qed.

Lemma seg_app m s v ps qs w :
  seg m s v (ps ++ qs) w <-> exists x, seg m s v ps x /\ seg m (end_slot s ps) x qs w.
Proof.
  revert s v. induction ps as [|p ps IH]; intros s v; simpl.
  - split; [intros H; by exists v|by intros (x & -> & H)].
  - split.
    + intros (-> & n & Hn & H). apply IH in H as (x & H1 & H2). exists x. rewrite pl_end_slot_cons. eauto 10.
    + intros (x & (-> & n & Hn & H1) & H2). rewrite pl_end_slot_cons in H2. split; [done|].
      exists n. split; [done|]. apply IH. eauto.
Qed.

Lemma seg_frame m m' s v ps w :
  (forall p, p ∈ ps -> m' !! p = m !! p) -> seg m s v ps w -> seg m' s v ps w.
Proof.
  revert s v. induction ps as [|p ps IH]; intros s v Hm; simpl; [done|].
  intros (-> & n & Hn & H). split; [done|]. exists n. split.
  - rewrite Hm; [done|]. apply list_elem_of_here.
  - apply IH; [|done]. intros q Hq. apply Hm. by right.
Qed.

Lemma seg_lookup m s v ps w p : seg m s v ps w -> p ∈ ps -> is_Some (m !! p).
Proof.
  revert s v. induction ps as [|q ps IH]; intros s v; simpl; [by intros _ ?%elem_of_nil|].
  intros (-> & n & Hn & H) [->|Hp]%elem_of_cons; [by rewrite Hn|by eapply IH].
Qed.

(** Two disjoint pieces whose junction is rewired: the last of the first one then
    points to [y], and the first of the second one points back to [s2]. *)
Lemma seg_rewire m m' s s0 s2 v ps1 x0 x y ps2 w :
  seg m s v ps1 x0 -> seg m s0 x ps2 w -> NoDup (ps1 ++ ps2) ->
  (forall q n t, list.last ps1 = Some q -> m !! q = Some (Link n t) -> m' !! q = Some (Link y t)) ->
  (forall q n t, list.head ps2 = Some q -> m !! q = Some (Link n t) -> m' !! q = Some (Link n s2)) ->
  (forall q, q ∈ ps1 ++ ps2 -> list.last ps1 <> Some q -> list.head ps2 <> Some q -> m' !! q = m !! q) ->
  seg m' s (if decide (ps1 = []) then y else v) ps1 y /\ seg m' s2 x ps2 w.
Proof.
  intros H1 H2 Hnd HL HH HF. split.
  - destruct (list_snoc_inv ps1) as [->|(qs & q & ->)]; [done|].
    rewrite decide_False by (by destruct qs). apply seg_app in H1 as (z & Ha & (-> & n & Hn & _)).
    rewrite !last_snoc in HL, HF. rewrite <- app_assoc in Hnd, HF.
    apply seg_app. exists (Some q). split.
    + apply (seg_frame m); [|done]. intros r Hr. apply HF; [set_solver|..].
      * intros [= ->]. apply NoDup_app in Hnd as (_ & Hd & _). apply (Hd r Hr). set_solver.
      * intros Hh. apply NoDup_app in Hnd as (_ & Hd & _). apply (Hd r Hr).
        destruct ps2; [done|]. injection Hh as ->. set_solver.
    + split; [done|]. exists y. split; [|done]. by eapply HL.
  - destruct ps2 as [|p ps2]; [done|]. destruct H2 as (-> & n & Hn & H2). split; [done|]. exists n.
    split; [by eapply HH|]. apply (seg_frame m); [|done]. intros r Hr. apply HF; [set_solver|..].
    + intros Hl. apply NoDup_app in Hnd as (_ & Hd & _). apply (Hd r); [|set_solver].
      by apply last_Some_elem_of.
    + intros [= ->]. apply NoDup_app in Hnd as (_ & _ & Hd). by apply NoDup_cons in Hd as [? _].
Qed.

Lemma seg_insert_between m m' s v ps1 x ps2 a :
  seg m s v ps1 x -> seg m (end_slot s ps1) x ps2 None -> NoDup (ps1 ++ ps2) -> a ∉ ps1 ++ ps2 ->
  m' !! a = Some (Link x (end_slot s ps1)) ->
  (forall q n t, list.last ps1 = Some q -> m !! q = Some (Link n t) -> m' !! q = Some (Link (Some a) t)) ->
  (forall q n t, list.head ps2 = Some q -> m !! q = Some (Link n t) -> m' !! q = Some (Link n (Next a))) ->
  (forall q, q <> a -> list.last ps1 <> Some q -> list.head ps2 <> Some q -> m' !! q = m !! q) ->
  seg m' s (if decide (ps1 = []) then Some a else v) (ps1 ++ a :: ps2) None.
Proof.
  intros H1 H2 Hnd Ha Hma HL HH HF.
  destruct (seg_rewire m m' s _ (Next a) v ps1 x x (Some a) ps2 None H1 H2 Hnd HL HH) as [R1 R2].
  { intros q Hq. apply HF. by intros ->. }
  apply seg_app. exists (Some a). split; [done|]. split; [done|]. by exists x.
Qed.

Lemma NoDup_insert_between ps1 ps2 (a : positive) : NoDup (ps1 ++ ps2) -> a ∉ ps1 ++ ps2 -> NoDup (ps1 ++ a :: ps2).
Proof. intros Hnd Ha. rewrite <- Permutation_middle. by constructor. Qed.

(** ** Running the operations *)

Lemma get_list_run h l b : lists h !! l = Some b -> get_list l h = Some (b, h).
Proof. unfold get_list. by intros ->. Qed.
Lemma set_first_run h l b v :
  lists h !! l = Some b -> set_first l v h = Some (tt, Store (links h) (<[l := PList v (m_last b) (m_counter b)]> (lists h))).
Proof. intros Hb. unfold set_first. by rewrite (st_bind_Some _ _ _ _ _ (get_list_run h l b Hb)). Qed.
Lemma get_link_run h p n : links h !! p = Some n -> get_link p h = Some (n, h).
Proof. unfold get_link. by intros ->. Qed.
Lemma get_next_run h p n : links h !! p = Some n -> get_next p h = Some (l_next n, h).
Proof. intros Hn. unfold get_next. by rewrite (st_bind_Some _ _ _ _ _ (get_link_run h p n Hn)). Qed.
Lemma get_prev_run h p n : links h !! p = Some n -> get_prev p h = Some (l_prev n, h).
Proof. intros Hn. unfold get_prev. by rewrite (st_bind_Some _ _ _ _ _ (get_link_run h p n Hn)). Qed.
Lemma set_next_run h p n v :
  links h !! p = Some n -> set_next p v h = Some (tt, Store (<[p := Link v (l_prev n)]> (links h)) (lists h)).
Proof. intros Hn. unfold set_next. by rewrite (st_bind_Some _ _ _ _ _ (get_link_run h p n Hn)). Qed.
Lemma set_prev_run h p n s :
  links h !! p = Some n -> set_prev p s h = Some (tt, Store (<[p := Link (l_next n) s]> (links h)) (lists h)).
Proof. intros Hn. unfold set_prev. by rewrite (st_bind_Some _ _ _ _ _ (get_link_run h p n Hn)). Qed.

Lemma st_assoc {A B D} (x : ST store A) (f : A -> ST store B) (g : B -> ST store D) h :
  st_bind (st_bind x f) g h = st_bind x (fun a => st_bind (f a) g) h.
Proof. unfold st_bind. by destruct (x h) as [[a h']|]. Qed.

Section Run.
Context (C : counting) (I : insertion).

Definition with_last (b : plist) (s : slot) : plist :=
  match I with no_push_back => b | fast_push_back => PList (m_first b) s (m_counter b) end.
Definition with_counter (b : plist) (f : Z -> Z) : plist :=
  match C with null_counter => b | counter => PList (m_first b) (m_last b) (u32 (f (m_counter b))) end.

Lemma set_last_run h l b s :
  lists h !! l = Some b -> set_last I l s h = Some (tt, Store (links h) (<[l := with_last b s]> (lists h))).
Proof.
  intros Hb. unfold set_last, with_last. destruct I.
  - rewrite insert_id by done. by destruct h.
  - by rewrite (st_bind_Some _ _ _ _ _ (get_list_run h l b Hb)).
Qed.
Lemma upd_counter_run h l b f :
  lists h !! l = Some b -> upd_counter C l f h = Some (tt, Store (links h) (<[l := with_counter b f]> (lists h))).
Proof.
  intros Hb. unfold upd_counter, with_counter. destruct C.
  - rewrite insert_id by done. by destruct h.
  - by rewrite (st_bind_Some _ _ _ _ _ (get_list_run h l b Hb)).
Qed.

Lemma first_with_last b s : m_first (with_last b s) = m_first b.
Proof. unfold with_last. by destruct I. Qed.
Lemma first_with_counter b f : m_first (with_counter b f) = m_first b.
Proof. unfold with_counter. by destruct C. Qed.
Lemma last_with_counter b f : m_last (with_counter b f) = m_last b.
Proof. unfold with_counter. by destruct C. Qed.
Lemma last_with_last b s : I = fast_push_back -> m_last (with_last b s) = s.
Proof. unfold with_last. by intros ->. Qed.
Lemma counter_with_last b s : m_counter (with_last b s) = m_counter b.
Proof. unfold with_last. by destruct I. Qed.
Lemma counter_with_counter b f : C = counter -> m_counter (with_counter b f) = u32 (f (m_counter b)).
Proof. unfold with_counter. by intros ->. Qed.

Lemma u32_inc n : u32 (u32 (Z.of_nat n) + 1) = u32 (Z.of_nat (S n)).
Proof. unfold wrapU. rewrite Zplus_mod_idemp_l. f_equal. lia. Qed.
Lemma u32_dec n : u32 (u32 (Z.of_nat (S n)) - 1) = u32 (Z.of_nat n).
Proof. unfold wrapU. rewrite Zminus_mod_idemp_l. f_equal. lia. Qed.

(** Close a [rep] goal: the new list object has the first pointer, last pointer
    and count of the new sequence. *)
Lemma pl_rep_intro h l b ps :
  lists h !! l = Some b -> seg (links h) (First l) (m_first b) ps None -> NoDup ps ->
  (I = fast_push_back -> m_last b = end_slot (First l) ps) ->
  (C = counter -> m_counter b = u32 (Z.of_nat (length ps))) -> rep C I h l ps.
Proof. intros. by exists b. Qed.

End Run.

Ltac st_go H := rewrite (st_bind_Some _ _ _ _ _ H); cbn [links lists l_next l_prev m_first m_last m_counter].

(** Look a key up through updates of other keys. *)
Ltac look :=
  cbn [links lists];
  repeat first
    [ rewrite lookup_insert_eq
    | rewrite lookup_insert_ne by (first [congruence | intros ->; set_solver | intros <-; set_solver]) ];
  first [eassumption | reflexivity].

Section Ops.
Context (C : counting) (I : insertion).

(** What adding one element between two halves needs of the final store. *)
Lemma rep_insert_between h h' l b b' ps1 x ps2 a :
  lists h' !! l = Some (with_counter C b' (fun c => c + 1)) ->
  lists h !! l = Some b -> seg (links h) (First l) (m_first b) ps1 x ->
  seg (links h) (end_slot (First l) ps1) x ps2 None -> NoDup (ps1 ++ ps2) -> a ∉ ps1 ++ ps2 ->
  (C = counter -> m_counter b = u32 (Z.of_nat (length (ps1 ++ ps2)))) ->
  m_first b' = (if decide (ps1 = []) then Some a else m_first b) -> m_counter b' = m_counter b ->
  (I = fast_push_back -> m_last b' = end_slot (First l) (ps1 ++ a :: ps2)) ->
  links h' !! a = Some (Link x (end_slot (First l) ps1)) ->
  (forall q n t, list.last ps1 = Some q -> links h !! q = Some (Link n t) -> links h' !! q = Some (Link (Some a) t)) ->
  (forall q n t, list.head ps2 = Some q -> links h !! q = Some (Link n t) -> links h' !! q = Some (Link n (Next a))) ->
  (forall q, q <> a -> list.last ps1 <> Some q -> list.head ps2 <> Some q -> links h' !! q = links h !! q) ->
  rep C I h' l (ps1 ++ a :: ps2).
Proof.
  intros Hb' Hb H1 H2 Hnd Ha Hc Hf Hcb Hl Hma HL HH HF.
  eapply pl_rep_intro; [exact Hb'|..].
  - rewrite first_with_counter, Hf. by apply (seg_insert_between (links h) (links h') _ _ _ x).
  - by apply NoDup_insert_between.
  - intros HI. rewrite last_with_counter. by apply Hl.
  - intros HC. rewrite counter_with_counter, Hcb, Hc by done. rewrite u32_inc. do 2 f_equal.
    rewrite !length_app. simpl. lia.
Qed.

Lemma pl_push_front_rep h l ps a :
  rep C I h l ps -> a ∉ ps -> is_Some (links h !! a) ->
  exists h', push_front C I l a h = Some (tt, h') /\ rep C I h' l (a :: ps) /\ only l (a :: ps) h h'.
Proof.
  intros (b & Hb & Hs & Hnd & Hl & Hc) Ha ([na sa] & Hna). unfold push_front.
  st_go (get_list_run h l b Hb). st_go (set_next_run h a _ (m_first b) Hna).
  destruct ps as [|f ps].
  - simpl in Hs. rewrite Hs.
    erewrite st_bind_Some by (apply set_last_run; look). erewrite st_bind_Some by (apply set_first_run; look).
    erewrite st_bind_Some by (apply set_prev_run; look). unfold c_inc.
    eexists. split; [apply upd_counter_run; look|]. split.
    + eapply (rep_insert_between h _ l b _ [] None [] a); [look|..]; try done; cbn [links lists].
      * simpl. by rewrite counter_with_last.
      * intros HI. simpl. by rewrite last_with_last.
      * by look.
      * intros q Hq _ _. by look.
    + split; [intros l' Hl'; by look|intros p Hp; by look].
  - destruct Hs as (Hf & n & Hn & Hs). rewrite Hf.
    erewrite st_bind_Some by (apply set_prev_run; look). erewrite st_bind_Some by (apply set_first_run; look).
    erewrite st_bind_Some by (apply set_prev_run; look). unfold c_inc.
    eexists. split; [apply upd_counter_run; look|]. split.
    + eapply (rep_insert_between h _ l b _ [] (Some f) (f :: ps) a); [look|..]; try done; cbn [links lists].
      * simpl. by eauto.
      * by look.
      * intros q n' t [= <-] Hq. rewrite Hn in Hq. injection Hq as -> ->. by look.
      * intros q Hq _ Hh. by look.
    + split; [intros l' Hl'; by look|intros p Hp; by look].
Qed.

Lemma insert_after_rep h l ps1 p ps2 a :
  rep C I h l (ps1 ++ p :: ps2) -> a ∉ ps1 ++ p :: ps2 -> is_Some (links h !! a) ->
  exists h', insert_after C I l (Some p) a h = Some (tt, h') /\ rep C I h' l (ps1 ++ p :: a :: ps2) /\
    only l (a :: ps1 ++ p :: ps2) h h'.
Proof.
  intros (b & Hb & Hs & Hnd & Hl & Hc) Ha ([na sa] & Hna). unfold insert_after.
  assert (a <> p) as Hap by set_solver.
  change (p :: ps2) with ([p] ++ ps2) in *. change (p :: a :: ps2) with ([p] ++ a :: ps2). rewrite !app_assoc in *.
  pose proof Hs as Hs'. apply seg_app in Hs as (x & H1 & H2). rewrite pl_end_slot_snoc in H2.
  pose proof H1 as H1'. apply seg_app in H1' as (y & _ & (_ & n & Hn & Hnx)). simpl in Hnx. subst n.
  st_go (get_next_run h p _ Hn). st_go (set_next_run h a _ x Hna).
  erewrite st_bind_Some by (apply set_prev_run; look). erewrite st_bind_Some by (apply set_next_run; look).
  erewrite st_bind_Some by (apply get_next_run; look). cbn [l_next].
  assert (p ∉ ps2) as Hp2 by (apply NoDup_app in Hnd as (_ & Hd & _); apply Hd; set_solver).
  destruct ps2 as [|f ps2].
  - simpl in H2. subst x. erewrite st_bind_Some by (apply set_last_run; look). unfold c_inc.
    eexists. split; [apply upd_counter_run; look|]. split.
    + eapply (rep_insert_between h _ l b _ (ps1 ++ [p]) None [] a); [look|..]; try done; cbn [links lists].
      * rewrite decide_False by (by destruct ps1). apply first_with_last.
      * apply counter_with_last.
      * intros HI. rewrite last_with_last, pl_end_slot_snoc by done. done.
      * rewrite pl_end_slot_snoc. by look.
      * intros q n t. rewrite last_snoc. intros [= <-] Hq. rewrite Hn in Hq. injection Hq as <- <-. by look.
      * intros q Hq Hla _. rewrite last_snoc in Hla. by look.
    + split; [intros l' Hl'; by look|intros q Hq; by look].
  - destruct H2 as (-> & n & Hn2 & H2). erewrite st_bind_Some by (apply set_prev_run; look). unfold c_inc.
    eexists. split; [apply upd_counter_run; look|]. split.
    + eapply (rep_insert_between h _ l b _ (ps1 ++ [p]) (Some f) (f :: ps2) a); [look|..]; try done; cbn [links lists].
      * rewrite pl_end_slot_snoc. simpl. by eauto.
      * by rewrite decide_False by (by destruct ps1).
      * intros HI. rewrite Hl by done. by rewrite !pl_end_slot_app, !pl_end_slot_cons.
      * rewrite pl_end_slot_snoc. by look.
      * intros q n' t. rewrite last_snoc. intros [= <-] Hq. rewrite Hn in Hq. injection Hq as <- <-. by look.
      * intros q n' t [= <-] Hq. rewrite Hn2 in Hq. injection Hq as <- <-. by look.
      * intros q Hq Hla Hh. rewrite last_snoc in Hla. by look.
    + split; [intros l' Hl'; by look|intros q Hq; by look].
Qed.

Lemma pl_push_back_rep h l ps a :
  I = fast_push_back -> rep C I h l ps -> a ∉ ps -> is_Some (links h !! a) ->
  exists h', push_back C I l a h = Some (tt, h') /\ rep C I h' l (ps ++ [a]) /\ only l (a :: ps) h h'.
Proof.
  intros HI (b & Hb & Hs & Hnd & Hl & Hc) Ha ([na sa] & Hna). unfold push_back.
  assert (get_last I l h = Some (m_last b, h)) as Hg.
  { unfold get_last. rewrite HI. by rewrite (st_bind_Some _ _ _ _ _ (get_list_run h l b Hb)). }
  rewrite (st_bind_Some _ _ _ _ _ Hg), (Hl HI). clear Hg.
  destruct (list_snoc_inv ps) as [->|(ps' & p & ->)].
  - simpl in Hs. change (end_slot (First l) []) with (First l).
    assert (read_slot (First l) h = Some (None, h)) as Hr.
    { simpl. rewrite (st_bind_Some _ _ _ _ _ (get_list_run h l b Hb)). by rewrite Hs. }
    st_go Hr. st_go (set_next_run h a _ None Hna). cbn [write_slot].
    erewrite st_bind_Some by (apply set_first_run; look). erewrite st_bind_Some by (apply set_prev_run; look).
    erewrite st_bind_Some by (apply set_last_run; look). unfold c_inc.
    eexists. split; [apply upd_counter_run; look|]. split.
    + eapply (rep_insert_between h _ l b _ [] None [] a); [look|..]; try done; cbn [links lists].
      * by rewrite first_with_last.
      * by rewrite counter_with_last.
      * intros _. by rewrite last_with_last.
      * by look.
      * intros q Hq _ _. by look.
    + split; [intros l' Hl'; by look|intros q Hq; by look].
  - rewrite pl_end_slot_snoc. pose proof Hs as Hs'. apply seg_app in Hs' as (y & _ & (_ & n & Hn & Hnx)).
    simpl in Hnx. subst n. assert (a <> p) as Hap by set_solver.
    assert (read_slot (Next p) h = Some (None, h)) as Hr by apply (get_next_run h p _ Hn).
    st_go Hr. st_go (set_next_run h a _ None Hna). cbn [write_slot].
    erewrite st_bind_Some by (apply set_next_run; look). erewrite st_bind_Some by (apply set_prev_run; look).
    erewrite st_bind_Some by (apply set_last_run; look). unfold c_inc.
    eexists. split; [apply upd_counter_run; look|]. split.
    + eapply (rep_insert_between h _ l b _ (ps' ++ [p]) None [] a); [look|..]; try done; cbn [links lists].
      * by rewrite app_nil_r.
      * by rewrite app_nil_r.
      * by rewrite app_nil_r.
      * rewrite decide_False by (by destruct ps'). apply first_with_last.
      * apply counter_with_last.
      * intros _. rewrite last_with_last, pl_end_slot_snoc by done. done.
      * rewrite pl_end_slot_snoc. by look.
      * intros q n t. rewrite last_snoc. intros [= <-] Hq. rewrite Hn in Hq. injection Hq as <- <-. by look.
      * intros q Hq Hla _. rewrite last_snoc in Hla. by look.
    + split; [intros l' Hl'; by look|intros q Hq; by look].
Qed.

Lemma rep_delete h h' l b b' ps1 a x ps2 :
  lists h' !! l = Some (with_counter C b' (fun c => c - 1)) ->
  lists h !! l = Some b -> seg (links h) (First l) (m_first b) ps1 (Some a) ->
  seg (links h) (Next a) x ps2 None -> NoDup (ps1 ++ a :: ps2) ->
  (C = counter -> m_counter b = u32 (Z.of_nat (length (ps1 ++ a :: ps2)))) ->
  m_first b' = (if decide (ps1 = []) then x else m_first b) -> m_counter b' = m_counter b ->
  (I = fast_push_back -> m_last b' = end_slot (First l) (ps1 ++ ps2)) ->
  (forall q n t, list.last ps1 = Some q -> links h !! q = Some (Link n t) -> links h' !! q = Some (Link x t)) ->
  (forall q n t, list.head ps2 = Some q -> links h !! q = Some (Link n t) ->
                 links h' !! q = Some (Link n (end_slot (First l) ps1))) ->
  (forall q, list.last ps1 <> Some q -> list.head ps2 <> Some q -> links h' !! q = links h !! q) ->
  rep C I h' l (ps1 ++ ps2).
Proof.
  intros Hb' Hb H1 H2 Hnd Hc Hf Hcb Hl HL HH HF.
  assert (NoDup (ps1 ++ ps2)) as Hnd' by (rewrite <- Permutation_middle in Hnd; by apply NoDup_cons in Hnd as [_ ?]).
  eapply pl_rep_intro; [exact Hb'|..].
  - rewrite first_with_counter, Hf.
    destruct (seg_rewire (links h) (links h') (First l) (Next a) (end_slot (First l) ps1) (m_first b) ps1 (Some a)
                x x ps2 None H1 H2 Hnd' HL HH) as [R1 R2]; [intros q _; apply HF|].
    apply seg_app. by exists x.
  - done.
  - intros HI. rewrite last_with_counter. by apply Hl.
  - intros HC. rewrite counter_with_counter, Hcb, Hc by done.
    replace (length (ps1 ++ a :: ps2)) with (S (length (ps1 ++ ps2))) by (rewrite !length_app; simpl; lia).
    apply u32_dec.
Qed.

Lemma pl_remove_rep h l ps1 a ps2 :
  rep C I h l (ps1 ++ a :: ps2) ->
  exists h', remove C I l a h = Some (tt, h') /\ rep C I h' l (ps1 ++ ps2) /\ only l (ps1 ++ ps2) h h' /\ links h' !! a = links h !! a.
Proof.
  intros (b & Hb & Hs & Hnd & Hl & Hc). unfold remove.
  pose proof Hs as Hs'. apply seg_app in Hs' as (y & H1 & (-> & x & Hna & H2)).
  assert (a ∉ ps1) as Ha1 by (apply NoDup_app in Hnd as (_ & Hd & _); intros Hx; apply (Hd a Hx); set_solver).
  assert (a ∉ ps2) as Ha2 by (apply NoDup_app in Hnd as (_ & _ & Hd); by apply NoDup_cons in Hd as [? _]).
  assert (forall q, q ∈ ps1 -> q ∉ ps2) as Hdis.
  { apply NoDup_app in Hnd as (_ & Hd & _). intros q Hq Hq'. apply (Hd q Hq). set_solver. }
  st_go (get_next_run h a _ Hna).
  destruct ps2 as [|f ps2].
  - simpl in H2. subst x. rewrite st_assoc. st_go (get_prev_run h a _ Hna).
    erewrite st_bind_Some by (apply set_last_run; look). erewrite st_bind_Some by (apply get_prev_run; look).
    cbn [l_prev]. destruct (list_snoc_inv ps1) as [->|(ps & p & ->)].
    + cbn [write_slot]. change (end_slot (First l) []) with (First l) in *. cbn [write_slot].
      erewrite st_bind_Some by (apply set_first_run; look). unfold c_dec.
      eexists. split; [apply upd_counter_run; look|]. split; [|split].
      * eapply (rep_delete h _ l b _ [] a None []); [look|..]; try done; cbn [links lists].
        -- by rewrite counter_with_last.
        -- intros HI. by rewrite last_with_last.
      * split; [intros l' Hl'; by look|intros q Hq; by look].
      * by look.
    + rewrite pl_end_slot_snoc in *. cbn [write_slot].
      pose proof H1 as H1'. apply seg_app in H1' as (y & _ & (_ & n & Hn & Hnx)). simpl in Hnx. subst n.
      erewrite st_bind_Some by (apply set_next_run; look). unfold c_dec.
      eexists. split; [apply upd_counter_run; look|]. split; [|split].
      * eapply (rep_delete h _ l b _ (ps ++ [p]) a None []); [look|..]; try done; cbn [links lists].
        -- rewrite decide_False by (by destruct ps). apply first_with_last.
        -- apply counter_with_last.
        -- intros HI. rewrite last_with_last, app_nil_r, pl_end_slot_snoc by done. done.
        -- intros q n t. rewrite last_snoc. intros [= <-] Hq. rewrite Hn in Hq. injection Hq as <- <-. by look.
        -- intros q Hla _. rewrite last_snoc in Hla. by look.
      * split; [intros l' Hl'; by look|intros q Hq; by look].
      * by look.
  - destruct H2 as (-> & n & Hnf & H2). rewrite st_assoc. st_go (get_prev_run h a _ Hna).
    erewrite st_bind_Some by (apply set_prev_run; look). erewrite st_bind_Some by (apply get_prev_run; look).
    cbn [l_prev]. destruct (list_snoc_inv ps1) as [->|(ps & p & ->)].
    + change (end_slot (First l) []) with (First l) in *. cbn [write_slot].
      erewrite st_bind_Some by (apply set_first_run; look). unfold c_dec.
      eexists. split; [apply upd_counter_run; look|]. split; [|split].
      * eapply (rep_delete h _ l b _ [] a (Some f) (f :: ps2)); [look|..]; try done; cbn [links lists].
        -- simpl. by eauto.
        -- intros q n' t [= <-] Hq. rewrite Hnf in Hq. injection Hq as <- <-. by look.
        -- intros q _ Hh. by look.
      * split; [intros l' Hl'; by look|intros q Hq; by look].
      * by look.
    + rewrite pl_end_slot_snoc in *. cbn [write_slot].
      pose proof H1 as H1'. apply seg_app in H1' as (y & _ & (_ & n2 & Hn & Hnx)). simpl in Hnx. subst n2.
      assert (p <> f) as Hpf by (intros ->; apply (Hdis f); set_solver).
      erewrite st_bind_Some by (apply set_next_run; look). unfold c_dec.
      eexists. split; [apply upd_counter_run; look|]. split; [|split].
      * eapply (rep_delete h _ l b _ (ps ++ [p]) a (Some f) (f :: ps2)); [look|..]; try done; cbn [links lists].
        -- simpl. by eauto.
        -- by rewrite decide_False by (by destruct ps).
        -- intros HI. rewrite Hl by done. by rewrite !pl_end_slot_app, !pl_end_slot_cons.
        -- intros q n' t. rewrite last_snoc. intros [= <-] Hq. rewrite Hn in Hq. injection Hq as <- <-. by look.
        -- intros q n' t [= <-] Hq. rewrite Hnf in Hq. injection Hq as <- <-. rewrite pl_end_slot_snoc. by look.
        -- intros q Hla Hh. rewrite last_snoc in Hla. by look.
      * split; [intros l' Hl'; by look|intros q Hq; by look].
      * by look.
Qed.

Lemma pl_list_empty_rep h l : is_Some (lists h !! l) -> exists h', list_empty C I l h = Some (tt, h') /\ rep C I h' l [].
Proof.
  intros [b Hb]. unfold list_empty. erewrite st_bind_Some by (apply set_first_run; look). unfold c_reset.
  erewrite st_bind_Some by (apply upd_counter_run; look).
  eexists. split; [apply set_last_run; look|]. eapply pl_rep_intro; [look|..].
  - by rewrite first_with_last, first_with_counter.
  - constructor.
  - intros HI. by rewrite last_with_last.
  - intros HC. rewrite counter_with_last, counter_with_counter by done. done.
Qed.

Lemma rep_first h l ps : rep C I h l ps -> exists b, lists h !! l = Some b /\ m_first b = list.head ps.
Proof.
  intros (b & Hb & Hs & _). exists b. split; [done|]. destruct ps as [|p ps]; simpl in Hs; [done|].
  by destruct Hs as [-> _].
Qed.

Lemma rep_next h l ks r rs : rep C I h l (ks ++ r :: rs) -> exists t, links h !! r = Some (Link (list.head rs) t).
Proof.
  intros (b & _ & Hs & _). apply seg_app in Hs as (x & _ & (_ & n & Hn & Hs)). exists (end_slot (First l) ks).
  rewrite Hn. do 2 f_equal. destruct rs as [|q rs]; simpl in Hs; [done|]. by destruct Hs as [-> _].
Qed.

Lemma pop_front_rep h l ps :
  rep C I h l ps ->
  match ps with
  | [] => pop_front C I l h = Some (None, h)
  | p :: ps' => exists h', pop_front C I l h = Some (Some p, h') /\ rep C I h' l ps' /\ only l ps' h h'
  end.
Proof.
  intros Hr. destruct (rep_first h l ps Hr) as (b & Hb & Hf). unfold pop_front, front.
  rewrite st_assoc. st_go (get_list_run h l b Hb). rewrite Hf. destruct ps as [|p ps]; [done|].
  destruct (pl_remove_rep h l [] p ps Hr) as (h' & Hrm & Hr' & Ho & _). exists h'. split; [|done]. simpl.
  unfold st_bind, st_ret in *. by rewrite Hrm.
Qed.

(** The loop that removes the elements that a test selects. *)
Lemma pl_drop_loop_spec drop l rs :
  forall ks h it fuel,
  rep C I h l (ks ++ rs) -> it_list it = l -> it_current it = list.head rs -> (length rs < fuel)%nat ->
  exists h', drop_loop C I fuel drop it h = Some (rs, h') /\
    rep C I h' l (ks ++ filter (fun q => drop q = false) rs) /\ only l (ks ++ rs) h h'.
Proof.
  induction rs as [|r rs IH]; intros ks h it fuel Hr Hl Hcur Hf;
    (destruct fuel as [|fuel]; [simpl in Hf; lia|]); cbn [drop_loop]; unfold it_post; rewrite Hcur.
  - exists h. split; [done|]. split; [done|]. done.
  - destruct (rep_next h l ks r rs Hr) as [t Ht]. cbn [list.head]. rewrite st_assoc. st_go (get_next_run h r _ Ht).
    unfold st_bind at 1, st_ret at 1. cbn [fst snd]. rewrite Hl. rewrite filter_cons. destruct (drop r) eqn:Hd.
    + destruct (pl_remove_rep h l ks r rs Hr) as (h1 & Hrm & Hr1 & Ho1 & _). rewrite (st_bind_Some _ _ _ _ _ Hrm).
      destruct (IH ks h1 (Iter l (list.head rs)) fuel Hr1 eq_refl eq_refl) as (h2 & Hlp & Hr2 & Ho2); [simpl in Hf; lia|].
      rewrite (st_bind_Some _ _ _ _ _ Hlp). exists h2. split; [done|]. split.
      * by rewrite decide_False by done.
      * destruct Ho1 as [A1 B1], Ho2 as [A2 B2]. split; [intros l' Hl'; by rewrite A2, A1|].
        intros p Hp. rewrite B2, B1 by set_solver. done.
    + unfold st_bind at 1, st_ret at 1.
      change (r :: rs) with ([r] ++ rs) in Hr. rewrite app_assoc in Hr.
      destruct (IH (ks ++ [r]) h (Iter l (list.head rs)) fuel Hr eq_refl eq_refl) as (h2 & Hlp & Hr2 & Ho2);
        [simpl in Hf; lia|].
      rewrite (st_bind_Some _ _ _ _ _ Hlp). exists h2. split; [done|]. rewrite decide_True by done. split.
      * by rewrite <- app_assoc in Hr2.
      * by rewrite <- app_assoc in Ho2.
Qed.

End Ops.

Definition relinked (ps : list positive) (l : nat) (m : gmap positive link) : gmap positive link :=
  match ps with
  | [] => m
  | p :: _ => match m !! p with Some n => <[p := Link (l_next n) (First l)]> m | None => m end
  end.

Lemma relink_run h l s v ps :
  seg (links h) s v ps None ->
  match v with Some f => set_prev f (First l) | None => set_last no_push_back l (First l) end h =
  Some (tt, Store (relinked ps l (links h)) (lists h)).
Proof.
  destruct ps as [|p ps]; simpl; [intros ->; by destruct h|].
  intros (-> & n & Hn & _). rewrite Hn. by rewrite (set_prev_run h p _ _ Hn).
Qed.

Lemma relinked_frame ps l m p : p ∉ ps -> relinked ps l m !! p = m !! p.
Proof.
  intros Hp. destruct ps as [|q ps]; [done|]. simpl. destruct (m !! q) as [n|]; [|done].
  apply lookup_insert_ne. set_solver.
Qed.

Lemma seg_relinked m s l v ps : seg m s v ps None -> NoDup ps -> seg (relinked ps l m) (First l) v ps None.
Proof.
  intros Hs Hnd. destruct ps as [|p ps]; [done|]. destruct Hs as (-> & n & Hn & Hs). split; [done|].
  exists n. simpl. rewrite Hn. split; [by rewrite lookup_insert_eq|].
  apply (seg_frame m); [|done]. intros q Hq. apply lookup_insert_ne. apply NoDup_cons in Hnd as [? _].
  by intros ->.
Qed.

Lemma c_swap_run C h l rhs b r :
  lists h !! l = Some b -> lists h !! rhs = Some r -> l <> rhs ->
  exists h' b' r', c_swap C l rhs h = Some (tt, h') /\ links h' = links h /\
    lists h' !! l = Some b' /\ m_first b' = m_first b /\ (C = counter -> m_counter b' = m_counter r) /\
    lists h' !! rhs = Some r' /\ m_first r' = m_first r /\ (C = counter -> m_counter r' = m_counter b).
Proof.
  intros Hb Hr Hne. unfold c_swap. destruct C; [by exists h, b, r|].
  st_go (get_list_run h l b Hb). st_go (get_list_run h rhs r Hr).
  unfold set_list at 1, st_bind at 1. erewrite st_bind_Some by (apply get_list_run; look). unfold set_list.
  do 3 eexists. split; [reflexivity|]. split; [done|]. split; [look|]. split; [done|]. split; [done|].
  split; [look|]. done.
Qed.

(** [swap] of lists whose policy has no last pointer. *)
Lemma list_swap_rep C h l rhs ps qs :
  rep C no_push_back h l ps -> rep C no_push_back h rhs qs -> l <> rhs -> (forall p, p ∈ ps -> p ∉ qs) ->
  exists h', list_swap C no_push_back l rhs h = Some (tt, h') /\
    rep C no_push_back h' l qs /\ rep C no_push_back h' rhs ps.
Proof.
  intros (b & Hb & Hs & Hnd & _ & Hc) (r & Hr & Hs2 & Hnd2 & _ & Hc2) Hne Hd. unfold list_swap.
  st_go (get_list_run h l b Hb). st_go (get_list_run h rhs r Hr).
  erewrite st_bind_Some by (apply set_first_run; look). erewrite st_bind_Some by (apply set_first_run; look).
  unfold i_swap. unfold st_bind at 1, st_ret at 1.
  erewrite st_bind_Some by (apply get_list_run; look). cbn [m_first].
  erewrite st_bind_Some by (apply (relink_run _ l (First rhs) (m_first r) qs); exact Hs2).
  cbn [links lists]. erewrite st_bind_Some by (apply get_list_run; look). cbn [m_first].
  assert (seg (relinked qs l (links h)) (First l) (m_first b) ps None) as Hs'.
  { apply (seg_frame (links h)); [|done]. intros p Hp. apply relinked_frame. by apply Hd. }
  erewrite st_bind_Some by (apply (relink_run _ rhs (First l) (m_first b) ps); exact Hs').
  cbn [links lists].
  edestruct (c_swap_run C) as (h' & b' & r' & Hrun & Hlk & Hb' & F1 & C1 & Hr' & F2 & C2); [| |exact Hne|].
  3: exists h'; split; [exact Hrun|]; cbn [links lists] in *.
  - look.
  - look.
  - split.
    + eapply pl_rep_intro; [exact Hb'|..]; try done.
      * rewrite F1, Hlk. cbn [m_first]. apply (seg_frame (relinked qs l (links h))).
        -- intros p Hp. apply relinked_frame. intros Hp'. by apply (Hd p).
        -- by apply seg_relinked with (First rhs).
      * intros HC. by rewrite C1, Hc2.
    + eapply pl_rep_intro; [exact Hr'|..]; try done.
      * rewrite F2, Hlk. cbn [m_first]. by apply seg_relinked with (First l).
      * intros HC. by rewrite C2, Hc.
Qed.

(** ** Properties *)

(** C40 : [I_P_List] is a sequence of the linked elements, with either counting
    and either insertion policy.  For an element [a] that is not in the list:
    [push_front], [push_back] and [insert_after] put it in its place, touching
    only the list's elements; [remove] unlinks any element without a search and
    leaves its link fields alone; [pop_front] takes the first one (null when
    empty); [empty] empties; a loop over the iterator that removes elements as
    it meets them terminates, visits every element once and keeps exactly the
    others; and [swap] exchanges two lists (for the policy without [push_back],
    the only one it compiles for). *)
Theorem plist_refines_sequence C I h l ps a drop fuel :
  rep C I h l ps -> a ∉ ps -> is_Some (links h !! a) -> (length ps < fuel)%nat ->
  (exists h', list_empty C I l h = Some (tt, h') /\ rep C I h' l []) /\
  (exists h', push_front C I l a h = Some (tt, h') /\ rep C I h' l (a :: ps) /\ only l (a :: ps) h h') /\
  (I = fast_push_back ->
   exists h', push_back C I l a h = Some (tt, h') /\ rep C I h' l (ps ++ [a]) /\ only l (a :: ps) h h') /\
  (forall ps1 p ps2, ps = ps1 ++ p :: ps2 ->
   (exists h', insert_after C I l (Some p) a h = Some (tt, h') /\ rep C I h' l (ps1 ++ p :: a :: ps2) /\
      only l (a :: ps) h h') /\
   (exists h', remove C I l p h = Some (tt, h') /\ rep C I h' l (ps1 ++ ps2) /\ only l (ps1 ++ ps2) h h' /\
      links h' !! p = links h !! p)) /\
  match ps with
  | [] => pop_front C I l h = Some (None, h)
  | p :: ps' => exists h', pop_front C I l h = Some (Some p, h') /\ rep C I h' l ps' /\ only l ps' h h'
  end /\
  (exists it h', it_init l h = Some (it, h) /\ drop_loop C I fuel drop it h = Some (ps, h') /\
     rep C I h' l (filter (fun q => drop q = false) ps) /\ only l ps h h') /\
  (forall rhs qs, I = no_push_back -> rep C I h rhs qs -> l <> rhs -> (forall p, p ∈ ps -> p ∉ qs) ->
   exists h', list_swap C I l rhs h = Some (tt, h') /\ rep C I h' l qs /\ rep C I h' rhs ps).
Proof.
  intros Hr Ha Hna Hf. split; [|split; [|split; [|split; [|split; [|split]]]]].
  - apply pl_list_empty_rep. destruct Hr as (b & Hb & _). by exists b.
  - by apply pl_push_front_rep.
  - intros HI. by apply pl_push_back_rep.
  - intros ps1 p ps2 ->. split; [by apply insert_after_rep|by apply pl_remove_rep].
  - by apply pop_front_rep.
  - destruct (rep_first C I h l ps Hr) as (b & Hb & Hfi).
    destruct (pl_drop_loop_spec C I drop l ps [] h (Iter l (list.head ps)) fuel Hr eq_refl eq_refl Hf) as (h' & Hl & Hr' & Ho).
    exists (Iter l (list.head ps)), h'. split; [|done].
    unfold it_init. st_go (get_list_run h l b Hb). by rewrite Hfi.
  - intros rhs qs -> Hq Hne Hd. by apply list_swap_rep.
Qed.

(** *** At a concrete store *)

Definition ex_store : store :=
  Store {[ 1%positive := Link (Some 2%positive) (First 0); 2%positive := Link (Some 3%positive) (Next 1);
           3%positive := Link None (Next 2); 9%positive := Link None (First 7) ]}
        {[ 0%nat := PList (Some 1%positive) (Next 3) 3 ]}.

Lemma ex_rep : rep counter fast_push_back ex_store 0 [1%positive; 2%positive; 3%positive].
Proof.
  exists (PList (Some 1%positive) (Next 3) 3). split; [reflexivity|]. split.
  - split; [done|]. exists (Some 2%positive). split; [reflexivity|]. split; [done|]. exists (Some 3%positive).
    split; [reflexivity|]. split; [done|]. exists None. done.
  - split; [|done]. apply (bool_decide_unpack _). vm_compute. exact I.
Qed.

Lemma plist_refines_sequence_witness :
  exists it h', it_init 0 ex_store = Some (it, ex_store) /\
    drop_loop counter fast_push_back 4 (Pos.eqb 2) it ex_store = Some ([1; 2; 3]%positive, h') /\
    rep counter fast_push_back h' 0 [1%positive; 3%positive].
Proof.
  destruct (plist_refines_sequence counter fast_push_back ex_store 0 [1%positive; 2%positive; 3%positive] 9
              (Pos.eqb 2) 4 ex_rep) as (_ & _ & _ & _ & _ & (it & h' & H1 & H2 & H3 & _) & _).
  - apply (bool_decide_unpack _). vm_compute. exact I.
  - exists (Link None (First 7)). reflexivity.
  - simpl. lia.
  - exists it, h'. split; [exact H1|]. split; [exact H2|exact H3].
Defined.
