(* ===== verification/IList.v ===== *)
(** The intrusive circular list of the server,
    [mariadb/include/mysql/server/private/ilist.h]: [ilist], its iterator and
    [sized_ilist].

    The store maps the addresses of nodes, the sentinels of the list objects and
    the elements, to their two link fields; null links and nodes that are not in
    the store are [None] when they are dereferenced.  [debug] is the build with
    [DBUG_ASSERT]; a failed assertion is [None]. *)

From S2P Require Import Prelude.

Open Scope st_scope.

(** ** The store *)

(** [Sent l] is the [sentinel_] of list [l], [Elem p] an element. *)
Inductive addr := Sent (l : nat) | Elem (p : positive).

#[export] Instance addr_eq_dec : EqDecision addr.
Proof. solve_decision. Defined.
#[export] Instance addr_countable : Countable addr.
Proof.
  apply (inj_countable' (fun a => match a with Sent l => inl l | Elem p => inr p end)
                        (fun s => match s with inl l => Sent l | inr p => Elem p end)).
  by intros [].
Defined.

Record ilist_node := INode { i_next : option addr; i_prev : option addr }.
Record store := Store { nodes : gmap addr ilist_node; sizes : gmap nat Z }.

Definition get_node (a : addr) : ST store ilist_node := fun h => n ← nodes h !! a; Some (n, h).
Definition set_node (a : addr) (n : ilist_node) : ST store unit :=
  fun h => Some (tt, Store (<[a := n]> (nodes h)) (sizes h)).
Definition get_next (a : addr) : ST store (option addr) := let* n := get_node a in st_ret (i_next n).
Definition get_prev (a : addr) : ST store (option addr) := let* n := get_node a in st_ret (i_prev n).
Definition set_next (a : addr) (v : option addr) : ST store unit :=
  let* n := get_node a in set_node a (INode v (i_prev n)).
Definition set_prev (a : addr) (v : option addr) : ST store unit :=
  let* n := get_node a in set_node a (INode (i_next n) v).

(** Dereference of a link. *)
Definition deref (v : option addr) : ST store addr := st_opt v.

Section Build.
Context (debug : bool).

(** ** ilist::Iterator *)

Abbreviation iterator := (option addr).

(** The constructor and the increments assert that the node is not null. *)
Definition it_make (v : option addr) : ST store iterator :=
  if debug && bool_decide (v = None) then st_fail else st_ret v.
Definition it_incr (it : iterator) : ST store iterator :=
  let* a := deref it in
  let* n := get_next a in
  it_make n.
Definition it_decr (it : iterator) : ST store iterator :=
  let* a := deref it in
  let* n := get_prev a in
  it_make n.
Definition it_eq (lhs rhs : iterator) : bool := bool_decide (lhs = rhs).

(** ** ilist *)

Definition ilist_init (l : nat) : ST store unit :=
  set_node (Sent l) (INode (Some (Sent l)) (Some (Sent l))).

Definition begin (l : nat) : ST store iterator :=
  let* n := get_next (Sent l) in it_make n.
Definition end_ (l : nat) : ST store iterator := it_make (Some (Sent l)).

Definition front (l : nat) : ST store iterator := begin l.
Definition back (l : nat) : ST store iterator := let* e := end_ l in it_decr e.

Definition empty (l : nat) : ST store bool :=
  let* n := get_next (Sent l) in st_ret (bool_decide (n = Some (Sent l))).

Definition clear (l : nat) : ST store unit :=
  set_next (Sent l) (Some (Sent l)) ;;;
  set_prev (Sent l) (Some (Sent l)).

Definition insert (pos : iterator) (value : addr) : ST store iterator :=
  let* curr := deref pos in
  let* prev := get_prev curr in
  let* p := deref prev in
  set_next p (Some value) ;;;
  set_prev curr (Some value) ;;;
  set_prev value prev ;;;
  set_next value (Some curr) ;;;
  it_make (Some value).

Definition erase (pos : iterator) : ST store iterator :=
  let* curr := deref pos in
  let* prev := get_prev curr in
  let* next := get_next curr in
  let* p := deref prev in
  set_next p next ;;;
  let* n := deref next in
  set_prev n prev ;;;
  (if debug then set_prev curr None ;;; set_next curr None else st_ret tt) ;;;
  it_make next.

Definition push_back (l : nat) (value : addr) : ST store unit :=
  let* e := end_ l in insert e value ;;; st_ret tt.
(** Erases the node [end()] stands for. *)
Definition pop_back (l : nat) : ST store unit :=
  let* e := end_ l in erase e ;;; st_ret tt.
Definition push_front (l : nat) (value : addr) : ST store unit :=
  let* b := begin l in insert b value ;;; st_ret tt.
Definition pop_front (l : nat) : ST store unit :=
  let* b := begin l in erase b ;;; st_ret tt.
Definition remove (value : addr) : ST store unit :=
  let* it := it_make (Some value) in erase it ;;; st_ret tt.

(** The loop [for (it= begin(); it != end(); ++it)], and the same backwards
    from [end()]. *)
Fixpoint walk (fuel : nat) (step : iterator -> ST store iterator) (it stop : iterator) : ST store (list addr) :=
  match fuel with
  | O => st_fail
  | S fuel =>
    if it_eq it stop then st_ret []
    else
      let* a := deref it in
      let* it := step it in
      let* rest := walk fuel step it stop in
      st_ret (a :: rest)
  end.

Definition forward (fuel : nat) (l : nat) : ST store (list addr) :=
  let* b := begin l in
  let* e := end_ l in
  walk fuel it_incr b e.
Definition backward (fuel : nat) (l : nat) : ST store (list addr) :=
  let* e := end_ l in
  let* b := it_decr e in
  walk fuel it_decr b e.

(** ** sized_ilist *)

Definition upd_size (l : nat) (f : Z -> Z) : ST store unit :=
  fun h => n ← sizes h !! l; Some (tt, Store (nodes h) (<[l := u64 (f n)]> (sizes h))).

Definition sized_init (l : nat) : ST store unit :=
  ilist_init l ;;; (fun h => Some (tt, Store (nodes h) (<[l := 0]> (sizes h)))).
Definition size (l : nat) : ST store Z := fun h => n ← sizes h !! l; Some (n, h).
Definition sized_clear (l : nat) : ST store unit := clear l ;;; upd_size l (fun _ => 0).
Definition sized_insert (l : nat) (pos : iterator) (value : addr) : ST store iterator :=
  upd_size l (fun n => n + 1) ;;; insert pos value.
Definition sized_erase (l : nat) (pos : iterator) : ST store iterator :=
  upd_size l (fun n => n - 1) ;;; erase pos.
Definition sized_push_back (l : nat) (value : addr) : ST store unit :=
  let* e := end_ l in sized_insert l e value ;;; st_ret tt.
Definition sized_pop_back (l : nat) : ST store unit :=
  let* e := end_ l in sized_erase l e ;;; st_ret tt.
Definition sized_push_front (l : nat) (value : addr) : ST store unit :=
  let* b := begin l in sized_insert l b value ;;; st_ret tt.
Definition sized_pop_front (l : nat) : ST store unit :=
  let* b := begin l in sized_erase l b ;;; st_ret tt.
Definition sized_remove (l : nat) (value : addr) : ST store unit :=
  let* it := it_make (Some value) in sized_erase l it ;;; st_ret tt.

End Build.

(** ** Representation *)

Implicit Types (h : store) (qs : list addr).

Definition nxt h (a : addr) : option addr := nodes h !! a ≫= i_next.
Definition prv h (a : addr) : option addr := nodes h !! a ≫= i_prev.

(** Two neighbours. *)
Definition joined h (a b : addr) : Prop := nxt h a = Some b /\ prv h b = Some a.

(** From [a] along [qs] to [z]. *)
Fixpoint chain h (a : addr) qs (z : addr) : Prop :=
  match qs with
  | [] => joined h a z
  | q :: qs => joined h a q /\ chain h q qs z
  end.

(** List [l] links [ps]. *)
Definition rep h (l : nat) (ps : list positive) : Prop :=
  NoDup ps /\ chain h (Sent l) (Elem <$> ps) (Sent l).

Definition lastof (a : addr) qs : addr := default a (list.last qs).
Definition headof qs (z : addr) : addr := default z (list.head qs).

(** The joints within [a :: qs], and those of [qs] up to [z]. *)
Fixpoint inner h (a : addr) qs : Prop :=
  match qs with
  | [] => True
  | q :: qs => joined h a q /\ inner h q qs
  end.
Definition tail_chain h qs (z : addr) : Prop :=
  match qs with [] => True | q :: qs => chain h q qs z end.

Lemma lastof_cons a q qs : lastof a (q :: qs) = lastof q qs.
Proof.
  unfold lastof. destruct (list_snoc_inv qs) as [->|(qs' & x & ->)]; [done|].
  by rewrite app_comm_cons, !last_snoc.
Qed.

Lemma lastof_snoc a qs q : lastof a (qs ++ [q]) = q.
Proof. unfold lastof. by rewrite last_snoc. Qed.

Lemma lastof_in a qs : lastof a qs ∈ a :: qs.
Proof.
  destruct (list_snoc_inv qs) as [->|(qs' & x & ->)]; [by left|]. rewrite lastof_snoc. set_solver.
Qed.

Lemma chain_tail h a qs z : chain h a qs z <-> joined h a (headof qs z) /\ tail_chain h qs z.
Proof. destruct qs as [|q qs]; simpl; [tauto|done]. Qed.

(** A list cut at the joint between [qs1] and [qs2]. *)
Lemma chain_cut h a qs1 qs2 z :
  chain h a (qs1 ++ qs2) z <->
  inner h a qs1 /\ joined h (lastof a qs1) (headof qs2 z) /\ tail_chain h qs2 z.
Proof.
  revert a. induction qs1 as [|q qs1 IH]; intros a; simpl.
  - rewrite chain_tail. tauto.
  - rewrite IH, lastof_cons. tauto.
Qed.

Lemma chain_end h a qs z : chain h a qs z -> prv h z = Some (lastof a qs).
Proof. intros Hc. rewrite <- (app_nil_r qs) in Hc. apply chain_cut in Hc as (_ & [_ H2] & _). done. Qed.
Lemma chain_begin h a qs z : chain h a qs z -> nxt h a = Some (headof qs z).
Proof. intros [[H1 _] _]%chain_tail. done. Qed.

Lemma inner_frame h h' a qs :
  NoDup (a :: qs) ->
  (forall x, x ∈ a :: qs -> x <> lastof a qs -> nxt h' x = nxt h x) -> (forall x, x ∈ qs -> prv h' x = prv h x) ->
  inner h a qs -> inner h' a qs.
Proof.
  revert a. induction qs as [|q qs IH]; intros a Hnd Hn Hp; [done|]. intros [[H1 H2] H3].
  rewrite lastof_cons in Hn. split; [split|].
  - rewrite Hn; [done|by left|]. intros ->. apply NoDup_cons in Hnd as [Hnd _]. apply Hnd, lastof_in.
  - rewrite Hp; [done|by left].
  - apply IH; [by apply NoDup_cons in Hnd as [_ ?]| | |done].
    + intros x Hx. apply Hn. by right.
    + intros x Hx. apply Hp. by right.
Qed.

Lemma chain_frame h h' a qs z :
  (forall x, x ∈ a :: qs -> nxt h' x = nxt h x) -> (forall x, x ∈ qs ++ [z] -> prv h' x = prv h x) ->
  chain h a qs z -> chain h' a qs z.
Proof.
  revert a. induction qs as [|q qs IH]; intros a Hn Hp; simpl.
  - intros [H1 H2]. split; [rewrite Hn by set_solver; done|rewrite Hp by set_solver; done].
  - intros [[H1 H2] H3]. split; [split|].
    + rewrite Hn by set_solver. done.
    + rewrite Hp by set_solver. done.
    + apply IH; [|intros x Hx; apply Hp; set_solver|done]. intros x Hx. apply Hn. set_solver.
Qed.

Lemma tail_frame h h' qs z :
  NoDup (qs ++ [z]) ->
  (forall x, x ∈ qs -> nxt h' x = nxt h x) ->
  (forall x, x ∈ qs ++ [z] -> x <> headof qs z -> prv h' x = prv h x) ->
  tail_chain h qs z -> tail_chain h' qs z.
Proof.
  intros Hnd Hn Hp. destruct qs as [|q qs]; [done|]. simpl. apply chain_frame; [done|].
  intros x Hx. apply Hp; [set_solver|]. cbn. intros ->. simpl in Hnd. apply NoDup_cons in Hnd as [Hq _]. done.
Qed.

(** Cutting a list at a joint and putting something else there: the two sides
    survive when only the links at the joint change. *)
Lemma sides_frame h h' l qs1 qs2 :
  NoDup (Sent l :: qs1 ++ qs2) ->
  (forall x, x ∈ Sent l :: qs1 ++ qs2 -> x <> lastof (Sent l) qs1 -> nxt h' x = nxt h x) ->
  (forall x, x ∈ Sent l :: qs1 ++ qs2 -> x <> headof qs2 (Sent l) -> prv h' x = prv h x) ->
  inner h (Sent l) qs1 -> tail_chain h qs2 (Sent l) ->
  inner h' (Sent l) qs1 /\ tail_chain h' qs2 (Sent l).
Proof.
  intros Hnd Hn Hp H1 H2. rewrite app_comm_cons in Hnd.
  apply NoDup_app in Hnd as (Hnd1 & Hd & Hnd2). apply NoDup_cons in Hnd1 as Hs. destruct Hs as [Hs _].
  split.
  - apply (inner_frame h); [done| | |done].
    + intros x Hx. apply Hn. set_solver.
    + intros x Hx. apply Hp; [set_solver|]. intros ->. destruct qs2 as [|q qs2]; cbn in Hx; [done|].
      apply (Hd q); set_solver.
  - apply (tail_frame h); [| | |done].
    + apply NoDup_snoc. split; [done|]. apply Hd. by left.
    + intros x Hx. apply Hn; [set_solver|]. intros ->. apply (Hd _ (lastof_in (Sent l) qs1) Hx).
    + intros x Hx. apply Hp. set_solver.
Qed.

(** ** Running the operations *)

Lemma nxt_node h a b : nxt h a = Some b -> is_Some (nodes h !! a).
Proof. unfold nxt. by destruct (nodes h !! a). Qed.
Lemma prv_node h a b : prv h a = Some b -> is_Some (nodes h !! a).
Proof. unfold prv. by destruct (nodes h !! a). Qed.

Lemma il_get_next_run h a : is_Some (nodes h !! a) -> get_next a h = Some (nxt h a, h).
Proof. intros [n Hn]. unfold get_next, get_node, st_bind, nxt. by rewrite Hn. Qed.
Lemma il_get_prev_run h a : is_Some (nodes h !! a) -> get_prev a h = Some (prv h a, h).
Proof. intros [n Hn]. unfold get_prev, get_node, st_bind, prv. by rewrite Hn. Qed.

Definition alloc h (x : addr) : Prop := is_Some (nodes h !! x).

Lemma il_set_next_run h a v :
  alloc h a -> exists h', set_next a v h = Some (tt, h') /\ sizes h' = sizes h /\
    (forall x, nxt h' x = if decide (x = a) then v else nxt h x) /\ (forall x, prv h' x = prv h x) /\
    (forall x, alloc h x -> alloc h' x).
Proof.
  intros [n Hn]. unfold set_next, get_node, st_bind. rewrite Hn. eexists. split; [reflexivity|]. split; [done|].
  unfold nxt, prv, alloc. cbn [nodes]. split; [|split]; intros x.
  - case_decide as Hd; [subst; by rewrite lookup_insert_eq|by rewrite lookup_insert_ne].
  - destruct (decide (x = a)) as [->|]; [rewrite lookup_insert_eq, Hn; done|by rewrite lookup_insert_ne].
  - intros Hx. destruct (decide (x = a)) as [->|]; [by rewrite lookup_insert_eq|by rewrite lookup_insert_ne].
Qed.

Lemma il_set_prev_run h a v :
  alloc h a -> exists h', set_prev a v h = Some (tt, h') /\ sizes h' = sizes h /\
    (forall x, nxt h' x = nxt h x) /\ (forall x, prv h' x = if decide (x = a) then v else prv h x) /\
    (forall x, alloc h x -> alloc h' x).
Proof.
  intros [n Hn]. unfold set_prev, get_node, st_bind. rewrite Hn. eexists. split; [reflexivity|]. split; [done|].
  unfold nxt, prv, alloc. cbn [nodes]. split; [|split]; intros x.
  - destruct (decide (x = a)) as [->|]; [rewrite lookup_insert_eq, Hn; done|by rewrite lookup_insert_ne].
  - case_decide as Hd; [subst; by rewrite lookup_insert_eq|by rewrite lookup_insert_ne].
  - intros Hx. destruct (decide (x = a)) as [->|]; [by rewrite lookup_insert_eq|by rewrite lookup_insert_ne].
Qed.

Lemma it_make_run debug a h : it_make debug (Some a) h = Some (Some a, h).
Proof. unfold it_make. by rewrite andb_false_r. Qed.

Lemma insert_run debug h curr p v :
  prv h curr = Some p -> alloc h p -> alloc h v ->
  exists h', insert debug (Some curr) v h = Some (Some v, h') /\ sizes h' = sizes h /\
    (forall x, nxt h' x = if decide (x = v) then Some curr else if decide (x = p) then Some v else nxt h x) /\
    (forall x, prv h' x = if decide (x = v) then Some p else if decide (x = curr) then Some v else prv h x) /\
    (forall x, alloc h x -> alloc h' x).
Proof.
  intros Hp Ap Av. unfold insert. change (deref (Some curr) h) with (Some (curr, h)).
  rewrite (st_bind_Some (deref (Some curr)) _ h curr h) by done.
  rewrite (st_bind_Some _ _ _ _ _ (il_get_prev_run h curr (prv_node _ _ _ Hp))), Hp.
  rewrite (st_bind_Some (deref (Some p)) _ h p h) by done.
  destruct (il_set_next_run h p (Some v) Ap) as (h1 & R1 & S1 & N1 & P1 & A1). rewrite (st_bind_Some _ _ _ _ _ R1).
  destruct (il_set_prev_run h1 curr (Some v) (A1 _ (prv_node _ _ _ Hp))) as (h2 & R2 & S2 & N2 & P2 & A2).
  rewrite (st_bind_Some _ _ _ _ _ R2).
  destruct (il_set_prev_run h2 v (Some p)) as (h3 & R3 & S3 & N3 & P3 & A3); [by apply A2, A1|].
  rewrite (st_bind_Some _ _ _ _ _ R3).
  destruct (il_set_next_run h3 v (Some curr)) as (h4 & R4 & S4 & N4 & P4 & A4); [by apply A3, A2, A1|].
  rewrite (st_bind_Some _ _ _ _ _ R4). exists h4. split; [apply it_make_run|]. split; [congruence|]. split; [|split].
  - intros x. rewrite N4, N3, N2, N1. done.
  - intros x. rewrite P4, P3, P2, P1. done.
  - intros x Hx. by apply A4, A3, A2, A1.
Qed.

(** Erasing a node; the debug build also clears its links. *)
Lemma erase_run debug h curr p n :
  joined h p curr -> joined h curr n ->
  exists h', erase debug (Some curr) h = Some (Some n, h') /\ sizes h' = sizes h /\
    (forall x, nxt h' x = if decide (debug = true /\ x = curr) then None
                          else if decide (x = p) then Some n else nxt h x) /\
    (forall x, prv h' x = if decide (debug = true /\ x = curr) then None
                          else if decide (x = n) then Some p else prv h x) /\
    (forall x, alloc h x -> alloc h' x).
Proof.
  intros [Hp1 Hp2] [Hn1 Hn2]. unfold erase.
  rewrite (st_bind_Some (deref (Some curr)) _ h curr h) by done.
  rewrite (st_bind_Some _ _ _ _ _ (il_get_prev_run h curr (prv_node _ _ _ Hp2))), Hp2.
  rewrite (st_bind_Some _ _ _ _ _ (il_get_next_run h curr (nxt_node _ _ _ Hn1))), Hn1.
  rewrite (st_bind_Some (deref (Some p)) _ h p h) by done.
  destruct (il_set_next_run h p (Some n) (nxt_node _ _ _ Hp1)) as (h1 & R1 & S1 & N1 & P1 & A1).
  rewrite (st_bind_Some _ _ _ _ _ R1). rewrite (st_bind_Some (deref (Some n)) _ h1 n h1) by done.
  destruct (il_set_prev_run h1 n (Some p) (A1 _ (prv_node _ _ _ Hn2))) as (h2 & R2 & S2 & N2 & P2 & A2).
  rewrite (st_bind_Some _ _ _ _ _ R2). destruct debug.
  - destruct (il_set_prev_run h2 curr None (A2 _ (A1 _ (nxt_node _ _ _ Hn1)))) as (h3 & R3 & S3 & N3 & P3 & A3).
    destruct (il_set_next_run h3 curr None (A3 _ (A2 _ (A1 _ (nxt_node _ _ _ Hn1))))) as (h4 & R4 & S4 & N4 & P4 & A4).
    exists h4. split.
    { unfold st_bind at 1. rewrite (st_bind_Some _ _ _ _ _ R3), R4. apply it_make_run. }
    split; [congruence|]. split; [|split].
    + intros x. rewrite N4, N3, N2, N1. repeat case_decide; try done; tauto.
    + intros x. rewrite P4, P3, P2, P1. repeat case_decide; try done; tauto.
    + intros x Hx. by apply A4, A3, A2, A1.
  - exists h2. split; [unfold st_bind at 1, st_ret at 1; apply it_make_run|]. split; [congruence|]. split; [|split].
    + intros x. rewrite N2, N1. rewrite (decide_False (P := false = true /\ _)) by naive_solver. done.
    + intros x. rewrite P2, P1. rewrite (decide_False (P := false = true /\ _)) by naive_solver. done.
    + intros x Hx. by apply A2, A1.
Qed.

(** ** The operations on a list *)

Abbreviation els ps := (Elem <$> (ps : list positive)).

(** [h'] differs from [h] at most in the sentinel of [l] and in the links of
    [dom]. *)
Definition only (l : nat) (dom : list positive) h h' : Prop :=
  forall x, x ∉ Sent l :: els dom -> nxt h' x = nxt h x /\ prv h' x = prv h x.

Lemma els_nodup l ps : NoDup ps -> NoDup (Sent l :: els ps).
Proof.
  intros Hnd. apply NoDup_cons. split.
  - intros (p & Hp & _)%list_elem_of_fmap. done.
  - apply NoDup_fmap_2; [by intros ? ? [= ->]|done].
Qed.

Lemma elem_of_els p ps : Elem p ∈ els ps <-> p ∈ ps.
Proof. rewrite list_elem_of_fmap. split; [by intros (q & [= ->] & Hq)|intros Hp; by exists p]. Qed.

Lemma headof_in qs z : headof qs z ∈ qs ++ [z].
Proof. destruct qs; [by left|]. cbn. by left. Qed.

Lemma insert_rep debug h l ps1 ps2 v :
  rep h l (ps1 ++ ps2) -> v ∉ ps1 ++ ps2 -> alloc h (Elem v) ->
  exists h', insert debug (Some (headof (els ps2) (Sent l))) (Elem v) h = Some (Some (Elem v), h') /\
    rep h' l (ps1 ++ v :: ps2) /\ only l (v :: ps1 ++ ps2) h h' /\ sizes h' = sizes h.
Proof.
  intros [Hnd Hc] Hv Av. rewrite fmap_app in Hc. apply chain_cut in Hc as (Hi & [Hj1 Hj2] & Ht).
  pose proof (els_nodup l _ Hnd) as Hnd'. rewrite fmap_app in Hnd'.
  set (p := lastof (Sent l) (els ps1)) in *. set (c := headof (els ps2) (Sent l)) in *.
  assert (p ∈ Sent l :: els ps1) as Hpin by apply lastof_in.
  assert (c ∈ els ps2 ++ [Sent l]) as Hcin by apply headof_in.
  assert (Elem v ∉ Sent l :: els ps1 ++ els ps2) as Hve.
  { intros [Hx|Hx]%elem_of_cons; [done|]. rewrite <- fmap_app in Hx. by apply elem_of_els in Hx. }
  assert (p <> Elem v) as Hpv by (intros Hx; apply Hve; rewrite <- Hx; set_solver).
  assert (c <> Elem v) as Hcv by (intros Hx; apply Hve; rewrite <- Hx; set_solver).
  destruct (insert_run debug h c p (Elem v) Hj2 (nxt_node _ _ _ Hj1) Av) as (h' & R & S & N & P & _).
  exists h'. split; [done|]. split; [|split; [|done]].
  - split; [rewrite <- Permutation_middle; by constructor|].
    rewrite fmap_app, fmap_cons. apply chain_cut. cbn [tail_chain]. rewrite chain_tail. fold p c.
    destruct (sides_frame h h' l (els ps1) (els ps2)) as [F1 F2]; [done| | |done|done|].
    + intros x Hx Hxp. rewrite N. rewrite !decide_False; [done|done|]. by intros ->.
    + intros x Hx Hxp. rewrite P. rewrite !decide_False; [done|done|]. by intros ->.
    + split; [done|]. split; [|split; [|done]]; split; rewrite ?N, ?P.
      * by rewrite decide_False, decide_True.
      * by rewrite decide_True.
      * by rewrite decide_True.
      * by rewrite decide_False, decide_True.
  - intros x Hx. rewrite fmap_cons, fmap_app in Hx. rewrite N, P.
    assert (x <> Elem v) by (intros ->; set_solver). assert (x <> p) by (intros ->; set_solver).
    assert (x <> c) by (intros ->; set_solver). by rewrite !decide_False.
Qed.

Lemma erase_rep debug h l ps1 c ps2 :
  rep h l (ps1 ++ c :: ps2) ->
  exists h', erase debug (Some (Elem c)) h = Some (Some (headof (els ps2) (Sent l)), h') /\
    rep h' l (ps1 ++ ps2) /\ only l (ps1 ++ c :: ps2) h h' /\ sizes h' = sizes h.
Proof.
  intros [Hnd Hc]. rewrite fmap_app, fmap_cons in Hc. apply chain_cut in Hc as (Hi & Hj & Ht).
  cbn [tail_chain] in Ht. apply chain_tail in Ht as [Hj2 Ht]. cbn [headof list.head default] in Hj.
  change (headof (Elem c :: els ps2) (Sent l)) with (Elem c) in Hj.
  assert (NoDup (ps1 ++ ps2) /\ c ∉ ps1 ++ ps2) as [Hnd2 Hcn].
  { rewrite <- Permutation_middle in Hnd. apply NoDup_cons in Hnd as [? ?]. done. }
  pose proof (els_nodup l _ Hnd2) as Hnd'. rewrite fmap_app in Hnd'.
  set (p := lastof (Sent l) (els ps1)) in *. set (n := headof (els ps2) (Sent l)) in *.
  assert (p ∈ Sent l :: els ps1) as Hpin by apply lastof_in.
  assert (n ∈ els ps2 ++ [Sent l]) as Hnin by apply headof_in.
  assert (Elem c ∉ Sent l :: els ps1 ++ els ps2) as Hce.
  { intros [Hx|Hx]%elem_of_cons; [done|]. rewrite <- fmap_app in Hx. by apply elem_of_els in Hx. }
  assert (p <> Elem c) as Hpc by (intros Hx; apply Hce; rewrite <- Hx; set_solver).
  assert (n <> Elem c) as Hnc by (intros Hx; apply Hce; rewrite <- Hx; set_solver).
  destruct (erase_run debug h (Elem c) p n Hj Hj2) as (h' & R & S & N & P & _).
  exists h'. split; [done|]. split; [|split; [|done]].
  - split; [done|]. rewrite fmap_app. apply chain_cut. fold p n.
    destruct (sides_frame h h' l (els ps1) (els ps2)) as [F1 F2]; [done| | |done|done|].
    + intros x Hx Hxp. rewrite N. rewrite !decide_False; [done|done|]. by intros [_ ->].
    + intros x Hx Hxp. rewrite P. rewrite !decide_False; [done|done|]. by intros [_ ->].
    + split; [done|]. split; [|done]. split; rewrite ?N, ?P; rewrite decide_False by naive_solver; by rewrite decide_True.
  - intros x Hx. rewrite fmap_app, fmap_cons in Hx. rewrite N, P.
    assert (x <> Elem c) by (intros ->; set_solver). assert (x <> p) by (intros ->; set_solver).
    assert (x <> n) by (intros ->; set_solver). rewrite !(decide_False (P := debug = true /\ _)) by naive_solver.
    by rewrite !decide_False.
Qed.

Lemma begin_rep debug h l ps : rep h l ps -> begin debug l h = Some (Some (headof (els ps) (Sent l)), h).
Proof.
  intros [_ Hc]. apply chain_begin in Hc. unfold begin.
  rewrite (st_bind_Some _ _ _ _ _ (il_get_next_run h _ (nxt_node _ _ _ Hc))), Hc. apply it_make_run.
Qed.

Lemma end_run debug l h : end_ debug l h = Some (Some (Sent l), h).
Proof. apply it_make_run. Qed.

Lemma back_rep debug h l ps : rep h l ps -> back debug l h = Some (Some (lastof (Sent l) (els ps)), h).
Proof.
  intros [_ Hc]. apply chain_end in Hc. unfold back. rewrite (st_bind_Some _ _ _ _ _ (end_run debug l h)).
  unfold it_decr. rewrite (st_bind_Some (deref (Some (Sent l))) _ h (Sent l) h) by done.
  rewrite (st_bind_Some _ _ _ _ _ (il_get_prev_run h _ (prv_node _ _ _ Hc))), Hc. apply it_make_run.
Qed.

Lemma empty_rep h l ps : rep h l ps -> empty l h = Some (bool_decide (ps = []), h).
Proof.
  intros [_ Hc]. apply chain_begin in Hc. unfold empty.
  rewrite (st_bind_Some _ _ _ _ _ (il_get_next_run h _ (nxt_node _ _ _ Hc))), Hc. unfold st_ret. do 2 f_equal.
  apply bool_decide_ext. destruct ps; [done|]. cbn. naive_solver.
Qed.

Lemma walk_forward debug h qs z fuel :
  tail_chain h qs z -> z ∉ qs -> (length qs < fuel)%nat ->
  walk fuel (it_incr debug) (Some (headof qs z)) (Some z) h = Some (qs, h).
Proof.
  revert fuel. induction qs as [|q qs IH]; intros fuel Ht Hz Hf; (destruct fuel as [|fuel]; [simpl in Hf; lia|]);
    cbn [walk]; unfold it_eq.
  - by rewrite bool_decide_true.
  - change (headof (q :: qs) z) with q. apply not_elem_of_cons in Hz as [Hzq Hz].
    rewrite bool_decide_false by congruence. cbn [tail_chain] in Ht. apply chain_tail in Ht as [[Hn _] Ht].
    rewrite (st_bind_Some (deref (Some q)) _ h q h) by done.
    assert (it_incr debug (Some q) h = Some (Some (headof qs z), h)) as Hi.
    { unfold it_incr. rewrite (st_bind_Some (deref (Some q)) _ h q h) by done.
      rewrite (st_bind_Some _ _ _ _ _ (il_get_next_run h _ (nxt_node _ _ _ Hn))), Hn. apply it_make_run. }
    rewrite (st_bind_Some _ _ _ _ _ Hi).
    rewrite (st_bind_Some _ _ _ _ _ (IH fuel Ht Hz ltac:(simpl in Hf; lia))). done.
Qed.

Lemma walk_backward debug h a qs z fuel :
  chain h a qs z -> a ∉ qs -> (length qs < fuel)%nat ->
  walk fuel (it_decr debug) (Some (lastof a qs)) (Some a) h = Some (rev qs, h).
Proof.
  revert z fuel. induction qs as [|q qs IH] using rev_ind; intros z fuel Hc Ha Hf;
    (destruct fuel as [|fuel]; [lia|]); cbn [walk]; unfold it_eq.
  - by rewrite bool_decide_true.
  - rewrite length_app in Hf. simpl in Hf. rewrite lastof_snoc.
    apply not_elem_of_app in Ha as [Ha Haq]. rewrite bool_decide_false by set_solver.
    apply chain_cut in Hc as (Hi & [Hj1 Hj2] & _). change (headof [q] z) with q in *.
    rewrite (st_bind_Some (deref (Some q)) _ h q h) by done.
    assert (it_decr debug (Some q) h = Some (Some (lastof a qs), h)) as Hd.
    { unfold it_decr. rewrite (st_bind_Some (deref (Some q)) _ h q h) by done.
      rewrite (st_bind_Some _ _ _ _ _ (il_get_prev_run h _ (prv_node _ _ _ Hj2))), Hj2. apply it_make_run. }
    rewrite (st_bind_Some _ _ _ _ _ Hd).
    assert (chain h a qs q) as Hc' by (rewrite <- (app_nil_r qs); apply chain_cut; done).
    rewrite (st_bind_Some _ _ _ _ _ (IH q fuel Hc' Ha ltac:(lia))). unfold st_ret. by rewrite rev_app_distr.
Qed.

Lemma sent_not_in l ps : Sent l ∉ els ps.
Proof. by intros (p & Hp & _)%list_elem_of_fmap. Qed.

Lemma forward_rep debug h l ps fuel :
  rep h l ps -> (length ps < fuel)%nat -> forward debug fuel l h = Some (els ps, h).
Proof.
  intros Hr Hf. unfold forward. rewrite (st_bind_Some _ _ _ _ _ (begin_rep debug h l ps Hr)).
  rewrite (st_bind_Some _ _ _ _ _ (end_run debug l h)). destruct Hr as [_ Hc]. apply chain_tail in Hc as [_ Hc].
  apply walk_forward; [done|apply sent_not_in|by rewrite length_fmap].
Qed.

Lemma backward_rep debug h l ps fuel :
  rep h l ps -> (length ps < fuel)%nat -> backward debug fuel l h = Some (rev (els ps), h).
Proof.
  intros Hr Hf. pose proof (back_rep debug h l ps Hr) as Hb. unfold back, backward in *.
  rewrite (st_bind_Some _ _ _ _ _ (end_run debug l h)) in Hb.
  rewrite (st_bind_Some _ _ _ _ _ (end_run debug l h)), (st_bind_Some _ _ _ _ _ Hb). destruct Hr as [_ Hc].
  apply (walk_backward debug h _ _ (Sent l)); [done|apply sent_not_in|by rewrite length_fmap].
Qed.

Lemma clear_rep h l : alloc h (Sent l) -> exists h', clear l h = Some (tt, h') /\ rep h' l [] /\ sizes h' = sizes h.
Proof.
  intros Ha. destruct (il_set_next_run h (Sent l) (Some (Sent l)) Ha) as (h1 & R1 & S1 & N1 & P1 & A1).
  destruct (il_set_prev_run h1 (Sent l) (Some (Sent l)) (A1 _ Ha)) as (h2 & R2 & S2 & N2 & P2 & A2).
  exists h2. unfold clear. rewrite (st_bind_Some _ _ _ _ _ R1). split; [done|]. split; [|congruence].
  split; [constructor|]. simpl. split; [by rewrite N2, N1, decide_True|by rewrite P2, decide_True].
Qed.

Lemma rep_sent h l ps : rep h l ps -> alloc h (Sent l).
Proof. intros [_ Hc]. by apply chain_begin, nxt_node in Hc. Qed.

Section Rep_ops.
Context (debug : bool).

Lemma push_back_run h l ps v :
  rep h l ps -> v ∉ ps -> alloc h (Elem v) ->
  exists h', push_back debug l (Elem v) h = Some (tt, h') /\ rep h' l (ps ++ [v]) /\ only l (v :: ps) h h' /\
    sizes h' = sizes h.
Proof.
  intros Hr Hv Av. rewrite <- (app_nil_r ps) in Hr, Hv.
  destruct (insert_rep debug h l ps [] v Hr Hv Av) as (h' & R & Hr' & Ho & S). rewrite app_nil_r in Ho.
  exists h'. split; [|done]. unfold push_back. rewrite (st_bind_Some _ _ _ _ _ (end_run debug l h)).
  by rewrite (st_bind_Some _ _ _ _ _ R).
Qed.

Lemma push_front_run h l ps v :
  rep h l ps -> v ∉ ps -> alloc h (Elem v) ->
  exists h', push_front debug l (Elem v) h = Some (tt, h') /\ rep h' l (v :: ps) /\ only l (v :: ps) h h' /\
    sizes h' = sizes h.
Proof.
  intros Hr Hv Av. destruct (insert_rep debug h l [] ps v Hr Hv Av) as (h' & R & Hr' & Ho & S).
  exists h'. split; [|done]. unfold push_front. rewrite (st_bind_Some _ _ _ _ _ (begin_rep debug h l ps Hr)).
  by rewrite (st_bind_Some _ _ _ _ _ R).
Qed.

Lemma pop_front_run h l p ps :
  rep h l (p :: ps) ->
  exists h', pop_front debug l h = Some (tt, h') /\ rep h' l ps /\ only l (p :: ps) h h' /\ sizes h' = sizes h.
Proof.
  intros Hr. destruct (erase_rep debug h l [] p ps Hr) as (h' & R & Hr' & Ho & S).
  exists h'. split; [|done]. unfold pop_front. rewrite (st_bind_Some _ _ _ _ _ (begin_rep debug h l _ Hr)).
  by rewrite (st_bind_Some _ _ _ _ _ R).
Qed.

Lemma remove_run h l ps1 p ps2 :
  rep h l (ps1 ++ p :: ps2) ->
  exists h', remove debug (Elem p) h = Some (tt, h') /\ rep h' l (ps1 ++ ps2) /\
    only l (ps1 ++ p :: ps2) h h' /\ sizes h' = sizes h.
Proof.
  intros Hr. destruct (erase_rep debug h l ps1 p ps2 Hr) as (h' & R & Hr' & Ho & S).
  exists h'. split; [|done]. unfold remove. rewrite (st_bind_Some _ _ _ _ _ (it_make_run debug (Elem p) h)).
  by rewrite (st_bind_Some _ _ _ _ _ R).
Qed.

End Rep_ops.

(** *** pop_back *)

Lemma chain_next h a qs z x :
  chain h a qs z -> x ∈ qs -> x <> lastof a qs -> exists y, y ∈ qs /\ nxt h x = Some y.
Proof.
  revert a. induction qs as [|q qs IH]; intros a Hc Hx Hl; [by apply elem_of_nil in Hx|].
  destruct Hc as [_ Hc]. rewrite lastof_cons in Hl. apply elem_of_cons in Hx as [->|Hx].
  - destruct qs as [|r qs]; [done|]. destruct Hc as [[Hn _] _]. exists r. split; [set_solver|done].
  - destruct (IH q Hc Hx Hl) as (y & Hy & Hn). exists y. split; [by right|done].
Qed.

(** A walk that stays among some nodes never reaches a node outside of them. *)
Lemma walk_forever debug h (qs : list addr) z it fuel :
  (forall x, x ∈ qs -> exists y, y ∈ qs /\ nxt h x = Some y) -> z ∉ qs -> it ∈ qs ->
  walk fuel (it_incr debug) (Some it) (Some z) h = None.
Proof.
  intros Hcl Hz. revert it. induction fuel as [|fuel IH]; intros it Hit; [done|]. cbn [walk]. unfold it_eq.
  rewrite bool_decide_false by (intros [= ->]; done).
  rewrite (st_bind_Some (deref (Some it)) _ h it h) by done. destruct (Hcl it Hit) as (y & Hy & Hn).
  assert (it_incr debug (Some it) h = Some (Some y, h)) as Hi.
  { unfold it_incr. rewrite (st_bind_Some (deref (Some it)) _ h it h) by done.
    rewrite (st_bind_Some _ _ _ _ _ (il_get_next_run h _ (nxt_node _ _ _ Hn))), Hn. apply it_make_run. }
  rewrite (st_bind_Some _ _ _ _ _ Hi). unfold st_bind. by rewrite (IH y Hy).
Qed.

Lemma pop_back_run debug h l ps :
  rep h l ps -> ps <> [] ->
  exists h', pop_back debug l h = Some (tt, h') /\ forall fuel, forward debug fuel l h' = None.
Proof.
  intros [Hnd Hc] Hne. assert (els ps <> []) as Hne' by (by destruct ps).
  pose proof (chain_begin _ _ _ _ Hc) as Hb. pose proof (chain_end _ _ _ _ Hc) as He.
  set (p := lastof (Sent l) (els ps)) in *. set (n := headof (els ps) (Sent l)) in *.
  assert (p ∈ els ps) as Hpin.
  { unfold p. destruct (list_snoc_inv (els ps)) as [Hx|(qs & q & ->)]; [done|]. rewrite lastof_snoc. set_solver. }
  assert (n ∈ els ps) as Hnin by (unfold n; destruct (els ps); [done|by left]).
  assert (joined h p (Sent l)) as Hj1.
  { rewrite <- (app_nil_r (els ps)) in Hc. by apply chain_cut in Hc as (_ & Hj & _). }
  assert (joined h (Sent l) n) as Hj2 by (by apply chain_tail in Hc as [Hj _]).
  destruct (erase_run debug h (Sent l) p n Hj1 Hj2) as (h' & R & _ & N & P & A).
  exists h'. split.
  { unfold pop_back. rewrite (st_bind_Some _ _ _ _ _ (end_run debug l h)). by rewrite (st_bind_Some _ _ _ _ _ R). }
  intros fuel. unfold forward, begin. destruct debug.
  - unfold st_bind at 1. unfold st_bind at 1.
    rewrite (il_get_next_run h' (Sent l)) by (apply A; by apply nxt_node with n; destruct Hj2).
    by rewrite N, decide_True by done.
  - assert (nxt h' (Sent l) = Some n) as Hn'.
    { rewrite N, decide_False by naive_solver. rewrite decide_False; [by destruct Hj2|].
      intros Hx. apply (sent_not_in l ps). by rewrite Hx. }
    unfold st_bind at 1. unfold st_bind at 1. rewrite (il_get_next_run h' _ (nxt_node _ _ _ Hn')), Hn'.
    rewrite it_make_run. rewrite (st_bind_Some _ _ _ _ _ (end_run _ l h')).
    apply (walk_forever _ h' (els ps)); [|apply sent_not_in|done].
    intros x Hx. rewrite N, (decide_False (P := false = true /\ _)) by naive_solver.
    destruct (decide (x = p)) as [|Hxp]; [by exists n|]. by apply (chain_next h (Sent l) (els ps) (Sent l)).
Qed.

(** *** sized_ilist *)

Definition srep h l ps : Prop := rep h l ps /\ sizes h !! l = Some (u64 (Z.of_nat (length ps))).

Lemma upd_size_run h l n f :
  sizes h !! l = Some n -> upd_size l f h = Some (tt, Store (nodes h) (<[l := u64 (f n)]> (sizes h))).
Proof. unfold upd_size. by intros ->. Qed.

Lemma u64_succ n : u64 (u64 (Z.of_nat n) + 1) = u64 (Z.of_nat (S n)).
Proof. unfold wrapU. rewrite Zplus_mod_idemp_l. f_equal. lia. Qed.
Lemma u64_pred n : u64 (u64 (Z.of_nat (S n)) - 1) = u64 (Z.of_nat n).
Proof. unfold wrapU. rewrite Zminus_mod_idemp_l. f_equal. lia. Qed.

Lemma rep_nodes h h' l ps : nodes h' = nodes h -> rep h l ps -> rep h' l ps.
Proof.
  intros E [Hnd Hc]. split; [done|]. apply (chain_frame h); [..|done]; intros x _; unfold nxt, prv; by rewrite E.
Qed.

Lemma sized_insert_run debug h l ps1 ps2 v :
  srep h l (ps1 ++ ps2) -> v ∉ ps1 ++ ps2 -> alloc h (Elem v) ->
  exists h', sized_insert debug l (Some (headof (els ps2) (Sent l))) (Elem v) h = Some (Some (Elem v), h') /\
    srep h' l (ps1 ++ v :: ps2) /\ only l (v :: ps1 ++ ps2) h h'.
Proof.
  intros [Hr Hs] Hv Av. unfold sized_insert. rewrite (st_bind_Some _ _ _ _ _ (upd_size_run h l _ _ Hs)).
  set (h0 := Store (nodes h) _).
  destruct (insert_rep debug h0 l ps1 ps2 v (rep_nodes h h0 _ _ eq_refl Hr) Hv Av) as (h' & R & Hr' & Ho & Sz).
  exists h'. split; [done|]. split; [|done]. split; [done|]. rewrite Sz. unfold h0. cbn [sizes].
  rewrite lookup_insert_eq, u64_succ. do 3 f_equal. rewrite !length_app. simpl. lia.
Qed.

Lemma sized_erase_run debug h l ps1 c ps2 :
  srep h l (ps1 ++ c :: ps2) ->
  exists h', sized_erase debug l (Some (Elem c)) h = Some (Some (headof (els ps2) (Sent l)), h') /\
    srep h' l (ps1 ++ ps2) /\ only l (ps1 ++ c :: ps2) h h'.
Proof.
  intros [Hr Hs]. unfold sized_erase. rewrite (st_bind_Some _ _ _ _ _ (upd_size_run h l _ _ Hs)).
  set (h0 := Store (nodes h) _).
  destruct (erase_rep debug h0 l ps1 c ps2 (rep_nodes h h0 _ _ eq_refl Hr)) as (h' & R & Hr' & Ho & Sz).
  exists h'. split; [done|]. split; [|done]. split; [done|]. rewrite Sz. unfold h0. cbn [sizes].
  rewrite lookup_insert_eq.
  replace (length (ps1 ++ c :: ps2)) with (S (length (ps1 ++ ps2))) by (rewrite !length_app; simpl; lia).
  by rewrite u64_pred.
Qed.

(** ** Properties *)

(** [ilist] is a sequence that can be walked both ways, in release and in
    debug builds.  On a list that holds [ps] and for an element [v] that is not
    in it: [insert] puts [v] in front of the position it is given, [erase] takes
    the element at its position out and returns the next position, [push_back],
    [push_front], [pop_front] and [remove] do what they say, and no operation
    touches the links of nodes outside of the list; the loops from [begin] to
    [end] and back return and see the elements in order; [sized_ilist] keeps
    their number. *)
Lemma ilist_refines_sequence debug h l ps v fuel :
  rep h l ps -> v ∉ ps -> alloc h (Elem v) -> (length ps < fuel)%nat ->
  (exists h', clear l h = Some (tt, h') /\ rep h' l []) /\
  empty l h = Some (bool_decide (ps = []), h) /\
  forward debug fuel l h = Some (els ps, h) /\ backward debug fuel l h = Some (rev (els ps), h) /\
  back debug l h = Some (Some (lastof (Sent l) (els ps)), h) /\
  (exists h', push_back debug l (Elem v) h = Some (tt, h') /\ rep h' l (ps ++ [v]) /\ only l (v :: ps) h h') /\
  (exists h', push_front debug l (Elem v) h = Some (tt, h') /\ rep h' l (v :: ps) /\ only l (v :: ps) h h') /\
  (forall ps1 ps2, ps = ps1 ++ ps2 ->
   exists h', insert debug (Some (headof (els ps2) (Sent l))) (Elem v) h = Some (Some (Elem v), h') /\
     rep h' l (ps1 ++ v :: ps2) /\ only l (v :: ps) h h') /\
  (forall ps1 p ps2, ps = ps1 ++ p :: ps2 ->
   (exists h', erase debug (Some (Elem p)) h = Some (Some (headof (els ps2) (Sent l)), h') /\
      rep h' l (ps1 ++ ps2) /\ only l ps h h') /\
   (exists h', remove debug (Elem p) h = Some (tt, h') /\ rep h' l (ps1 ++ ps2) /\ only l ps h h') /\
   (ps1 = [] -> exists h', pop_front debug l h = Some (tt, h') /\ rep h' l ps2 /\ only l ps h h')) /\
  (srep h l ps ->
   (forall ps1 ps2, ps = ps1 ++ ps2 ->
    exists h', sized_insert debug l (Some (headof (els ps2) (Sent l))) (Elem v) h = Some (Some (Elem v), h') /\
      srep h' l (ps1 ++ v :: ps2)) /\
   (forall ps1 p ps2, ps = ps1 ++ p :: ps2 ->
    exists h', sized_erase debug l (Some (Elem p)) h = Some (Some (headof (els ps2) (Sent l)), h') /\
      srep h' l (ps1 ++ ps2))).
Proof.
  intros Hr Hv Av Hf. split; [|split; [|split; [|split; [|split; [|split; [|split; [|split; [|split]]]]]]]].
  - destruct (clear_rep h l (rep_sent h l ps Hr)) as (h' & R & Hr' & _). by exists h'.
  - by apply empty_rep.
  - by apply forward_rep.
  - by apply backward_rep.
  - by apply back_rep.
  - destruct (push_back_run debug h l ps v Hr Hv Av) as (h' & R & Hr' & Ho & _). by exists h'.
  - destruct (push_front_run debug h l ps v Hr Hv Av) as (h' & R & Hr' & Ho & _). by exists h'.
  - intros ps1 ps2 ->. destruct (insert_rep debug h l ps1 ps2 v Hr Hv Av) as (h' & R & Hr' & Ho & _). by exists h'.
  - intros ps1 p ps2 ->. split; [|split].
    + destruct (erase_rep debug h l ps1 p ps2 Hr) as (h' & R & Hr' & Ho & _). by exists h'.
    + destruct (remove_run debug h l ps1 p ps2 Hr) as (h' & R & Hr' & Ho & _). by exists h'.
    + intros ->. destruct (pop_front_run debug h l p ps2 Hr) as (h' & R & Hr' & Ho & _). by exists h'.
  - intros Hs. split.
    + intros ps1 ps2 ->. destruct (sized_insert_run debug h l ps1 ps2 v Hs Hv Av) as (h' & R & Hr' & _). by exists h'.
    + intros ps1 p ps2 ->. destruct (sized_erase_run debug h l ps1 p ps2 Hs) as (h' & R & Hr' & _). by exists h'.
Qed.

(** [pop_back] does not take the last element off.  It erases the node of
    [end()], which is the list's sentinel: on a list that is not empty it
    returns normally and leaves the elements linked in a circle without a
    sentinel, so that no loop from [begin] ever reaches [end] (and in a debug
    build [begin] fails its assertion). *)
Lemma ilist_pop_back_drops_sentinel debug h l ps :
  rep h l ps -> ps <> [] ->
  exists h', pop_back debug l h = Some (tt, h') /\ forall fuel, forward debug fuel l h' = None.
Proof. apply pop_back_run. Qed.

(** *** At a concrete store *)

Definition ex_store : store :=
  Store {[ Sent 0 := INode (Some (Elem 1)) (Some (Elem 2)); Elem 1 := INode (Some (Elem 2)) (Some (Sent 0));
           Elem 2 := INode (Some (Sent 0)) (Some (Elem 1)); Elem 3 := INode None None ]}
        {[ 0%nat := 2 ]}.

Lemma il_ex_rep : rep ex_store 0 [1%positive; 2%positive].
Proof.
  split; [apply (bool_decide_unpack _); vm_compute; exact I|]. simpl.
  split; [split; reflexivity|]. split; split; reflexivity.
Qed.
