(* ===== verification/ErrorMsg.v ===== *)
(** The server's error numbers and SQLSTATEs:
    [mariadb/include/mysql/server/mysqld_error.h], [sql_state.h], and the layout
    of the message arrays in [private/unireg.h].

    The tables are the source's rows, in order; a row of [sql_state.h] names its
    error, the value comes from [mysqld_error.h].  The arrays of message texts
    are read from a file at run time and are a parameter. *)

From S2P Require Import Prelude.
From Stdlib Require Import Ascii String.

(** ** mysqld_error.h and sql_state.h *)

Definition error_codes_1 : list (string * Z) := [
  ("ER_ERROR_FIRST", 1000);
  ("ER_HASHCHK", 1000);
  ("ER_NISAMCHK", 1001);
  ("ER_NO", 1002);
  ("ER_YES", 1003);
  ("ER_CANT_CREATE_FILE", 1004);
  ("ER_CANT_CREATE_TABLE", 1005);
  ("ER_CANT_CREATE_DB", 1006);
  ("ER_DB_CREATE_EXISTS", 1007);
  ("ER_DB_DROP_EXISTS", 1008);
  ("ER_DB_DROP_DELETE", 1009);
  ("ER_DB_DROP_RMDIR", 1010);
  ("ER_CANT_DELETE_FILE", 1011);
  ("ER_CANT_FIND_SYSTEM_REC", 1012);
  ("ER_CANT_GET_STAT", 1013);
  ("ER_CANT_GET_WD", 1014);
  ("ER_CANT_LOCK", 1015);
  ("ER_CANT_OPEN_FILE", 1016);
  ("ER_FILE_NOT_FOUND", 1017);
  ("ER_CANT_READ_DIR", 1018);
  ("ER_CANT_SET_WD", 1019);
  ("ER_CHECKREAD", 1020);
  ("ER_DISK_FULL", 1021);
  ("ER_DUP_KEY", 1022);
  ("ER_ERROR_ON_CLOSE", 1023);
  ("ER_ERROR_ON_READ", 1024);
  ("ER_ERROR_ON_RENAME", 1025);
  ("ER_ERROR_ON_WRITE", 1026);
  ("ER_FILE_USED", 1027);
  ("ER_FILSORT_ABORT", 1028);
  ("ER_FORM_NOT_FOUND", 1029);
  ("ER_GET_ERRNO", 1030);
  ("ER_ILLEGAL_HA", 1031);
  ("ER_KEY_NOT_FOUND", 1032);
  ("ER_NOT_FORM_FILE", 1033);
  ("ER_NOT_KEYFILE", 1034);
  ("ER_OLD_KEYFILE", 1035);
  ("ER_OPEN_AS_READONLY", 1036);
  ("ER_OUTOFMEMORY", 1037);
  ("ER_OUT_OF_SORTMEMORY", 1038);
  ("ER_UNEXPECTED_EOF", 1039);
  ("ER_CON_COUNT_ERROR", 1040);
  ("ER_OUT_OF_RESOURCES", 1041);
  ("ER_BAD_HOST_ERROR", 1042);
  ("ER_HANDSHAKE_ERROR", 1043);
  ("ER_DBACCESS_DENIED_ERROR", 1044);
  ("ER_ACCESS_DENIED_ERROR", 1045);
  ("ER_NO_DB_ERROR", 1046);
  ("ER_UNKNOWN_COM_ERROR", 1047);
  ("ER_BAD_NULL_ERROR", 1048);
  ("ER_BAD_DB_ERROR", 1049);
  ("ER_TABLE_EXISTS_ERROR", 1050);
  ("ER_BAD_TABLE_ERROR", 1051);
  ("ER_NON_UNIQ_ERROR", 1052);
  ("ER_SERVER_SHUTDOWN", 1053);
  ("ER_BAD_FIELD_ERROR", 1054);
  ("ER_WRONG_FIELD_WITH_GROUP", 1055);
  ("ER_WRONG_GROUP_FIELD", 1056);
  ("ER_WRONG_SUM_SELECT", 1057);
  ("ER_WRONG_VALUE_COUNT", 1058);
  ("ER_TOO_LONG_IDENT", 1059);
  ("ER_DUP_FIELDNAME", 1060);
  ("ER_DUP_KEYNAME", 1061);
  ("ER_DUP_ENTRY", 1062);
  ("ER_WRONG_FIELD_SPEC", 1063);
  ("ER_PARSE_ERROR", 1064);
  ("ER_EMPTY_QUERY", 1065);
  ("ER_NONUNIQ_TABLE", 1066);
  ("ER_INVALID_DEFAULT", 1067);
  ("ER_MULTIPLE_PRI_KEY", 1068);
  ("ER_TOO_MANY_KEYS", 1069);
  ("ER_TOO_MANY_KEY_PARTS", 1070);
  ("ER_TOO_LONG_KEY", 1071);
  ("ER_KEY_COLUMN_DOES_NOT_EXIST", 1072);
  ("ER_BLOB_USED_AS_KEY", 1073);
  ("ER_TOO_BIG_FIELDLENGTH", 1074);
  ("ER_WRONG_AUTO_KEY", 1075);
  ("ER_BINLOG_CANT_DELETE_GTID_DOMAIN", 1076);
  ("ER_NORMAL_SHUTDOWN", 1077);
  ("ER_GOT_SIGNAL", 1078);
  ("ER_SHUTDOWN_COMPLETE", 1079);
  ("ER_FORCING_CLOSE", 1080);
  ("ER_IPSOCK_ERROR", 1081);
  ("ER_NO_SUCH_INDEX", 1082);
  ("ER_WRONG_FIELD_TERMINATORS", 1083);
  ("ER_BLOBS_AND_NO_TERMINATED", 1084);
  ("ER_TEXTFILE_NOT_READABLE", 1085);
  ("ER_FILE_EXISTS_ERROR", 1086);
  ("ER_LOAD_INFO", 1087);
  ("ER_ALTER_INFO", 1088);
  ("ER_WRONG_SUB_KEY", 1089);
  ("ER_CANT_REMOVE_ALL_FIELDS", 1090);
  ("ER_CANT_DROP_FIELD_OR_KEY", 1091);
  ("ER_INSERT_INFO", 1092);
  ("ER_UPDATE_TABLE_USED", 1093);
  ("ER_NO_SUCH_THREAD", 1094);
  ("ER_KILL_DENIED_ERROR", 1095);
  ("ER_NO_TABLES_USED", 1096);
  ("ER_TOO_BIG_SET", 1097);
  ("ER_NO_UNIQUE_LOGFILE", 1098);
  ("ER_TABLE_NOT_LOCKED_FOR_WRITE", 1099);
  ("ER_TABLE_NOT_LOCKED", 1100);
  ("ER_UNUSED_17", 1101);
  ("ER_WRONG_DB_NAME", 1102);
  ("ER_WRONG_TABLE_NAME", 1103);
  ("ER_TOO_BIG_SELECT", 1104);
  ("ER_UNKNOWN_ERROR", 1105);
  ("ER_UNKNOWN_PROCEDURE", 1106);
  ("ER_WRONG_PARAMCOUNT_TO_PROCEDURE", 1107);
  ("ER_WRONG_PARAMETERS_TO_PROCEDURE", 1108);
  ("ER_UNKNOWN_TABLE", 1109);
  ("ER_FIELD_SPECIFIED_TWICE", 1110);
  ("ER_INVALID_GROUP_FUNC_USE", 1111);
  ("ER_UNSUPPORTED_EXTENSION", 1112);
  ("ER_TABLE_MUST_HAVE_COLUMNS", 1113);
  ("ER_RECORD_FILE_FULL", 1114);
  ("ER_UNKNOWN_CHARACTER_SET", 1115);
  ("ER_TOO_MANY_TABLES", 1116);
  ("ER_TOO_MANY_FIELDS", 1117);
  ("ER_TOO_BIG_ROWSIZE", 1118);
  ("ER_STACK_OVERRUN", 1119);
  ("ER_WRONG_OUTER_JOIN", 1120);
  ("ER_NULL_COLUMN_IN_INDEX", 1121);
  ("ER_CANT_FIND_UDF", 1122);
  ("ER_CANT_INITIALIZE_UDF", 1123);
  ("ER_UDF_NO_PATHS", 1124);
  ("ER_UDF_EXISTS", 1125);
  ("ER_CANT_OPEN_LIBRARY", 1126);
  ("ER_CANT_FIND_DL_ENTRY", 1127);
  ("ER_FUNCTION_NOT_DEFINED", 1128);
  ("ER_HOST_IS_BLOCKED", 1129);
  ("ER_HOST_NOT_PRIVILEGED", 1130);
  ("ER_PASSWORD_ANONYMOUS_USER", 1131);
  ("ER_PASSWORD_NOT_ALLOWED", 1132);
  ("ER_PASSWORD_NO_MATCH", 1133);
  ("ER_UPDATE_INFO", 1134);
  ("ER_CANT_CREATE_THREAD", 1135);
  ("ER_WRONG_VALUE_COUNT_ON_ROW", 1136);
  ("ER_CANT_REOPEN_TABLE", 1137);
  ("ER_INVALID_USE_OF_NULL", 1138);
  ("ER_REGEXP_ERROR", 1139);
  ("ER_MIX_OF_GROUP_FUNC_AND_FIELDS", 1140);
  ("ER_NONEXISTING_GRANT", 1141);
  ("ER_TABLEACCESS_DENIED_ERROR", 1142);
  ("ER_COLUMNACCESS_DENIED_ERROR", 1143);
  ("ER_ILLEGAL_GRANT_FOR_TABLE", 1144);
  ("ER_GRANT_WRONG_HOST_OR_USER", 1145)].

Definition error_codes_2 : list (string * Z) := [
  ("ER_NO_SUCH_TABLE", 1146);
  ("ER_NONEXISTING_TABLE_GRANT", 1147);
  ("ER_NOT_ALLOWED_COMMAND", 1148);
  ("ER_SYNTAX_ERROR", 1149);
  ("ER_DELAYED_CANT_CHANGE_LOCK", 1150);
  ("ER_TOO_MANY_DELAYED_THREADS", 1151);
  ("ER_ABORTING_CONNECTION", 1152);
  ("ER_NET_PACKET_TOO_LARGE", 1153);
  ("ER_NET_READ_ERROR_FROM_PIPE", 1154);
  ("ER_NET_FCNTL_ERROR", 1155);
  ("ER_NET_PACKETS_OUT_OF_ORDER", 1156);
  ("ER_NET_UNCOMPRESS_ERROR", 1157);
  ("ER_NET_READ_ERROR", 1158);
  ("ER_NET_READ_INTERRUPTED", 1159);
  ("ER_NET_ERROR_ON_WRITE", 1160);
  ("ER_NET_WRITE_INTERRUPTED", 1161);
  ("ER_TOO_LONG_STRING", 1162);
  ("ER_TABLE_CANT_HANDLE_BLOB", 1163);
  ("ER_TABLE_CANT_HANDLE_AUTO_INCREMENT", 1164);
  ("ER_DELAYED_INSERT_TABLE_LOCKED", 1165);
  ("ER_WRONG_COLUMN_NAME", 1166);
  ("ER_WRONG_KEY_COLUMN", 1167);
  ("ER_WRONG_MRG_TABLE", 1168);
  ("ER_DUP_UNIQUE", 1169);
  ("ER_BLOB_KEY_WITHOUT_LENGTH", 1170);
  ("ER_PRIMARY_CANT_HAVE_NULL", 1171);
  ("ER_TOO_MANY_ROWS", 1172);
  ("ER_REQUIRES_PRIMARY_KEY", 1173);
  ("ER_NO_RAID_COMPILED", 1174);
  ("ER_UPDATE_WITHOUT_KEY_IN_SAFE_MODE", 1175);
  ("ER_KEY_DOES_NOT_EXISTS", 1176);
  ("ER_CHECK_NO_SUCH_TABLE", 1177);
  ("ER_CHECK_NOT_IMPLEMENTED", 1178);
  ("ER_CANT_DO_THIS_DURING_AN_TRANSACTION", 1179);
  ("ER_ERROR_DURING_COMMIT", 1180);
  ("ER_ERROR_DURING_ROLLBACK", 1181);
  ("ER_ERROR_DURING_FLUSH_LOGS", 1182);
  ("ER_ERROR_DURING_CHECKPOINT", 1183);
  ("ER_NEW_ABORTING_CONNECTION", 1184);
  ("ER_UNUSED_10", 1185);
  ("ER_FLUSH_MASTER_BINLOG_CLOSED", 1186);
  ("ER_INDEX_REBUILD", 1187);
  ("ER_MASTER", 1188);
  ("ER_MASTER_NET_READ", 1189);
  ("ER_MASTER_NET_WRITE", 1190);
  ("ER_FT_MATCHING_KEY_NOT_FOUND", 1191);
  ("ER_LOCK_OR_ACTIVE_TRANSACTION", 1192);
  ("ER_UNKNOWN_SYSTEM_VARIABLE", 1193);
  ("ER_CRASHED_ON_USAGE", 1194);
  ("ER_CRASHED_ON_REPAIR", 1195);
  ("ER_WARNING_NOT_COMPLETE_ROLLBACK", 1196);
  ("ER_TRANS_CACHE_FULL", 1197);
  ("ER_SLAVE_MUST_STOP", 1198);
  ("ER_SLAVE_NOT_RUNNING", 1199);
  ("ER_BAD_SLAVE", 1200);
  ("ER_MASTER_INFO", 1201);
  ("ER_SLAVE_THREAD", 1202);
  ("ER_TOO_MANY_USER_CONNECTIONS", 1203);
  ("ER_SET_CONSTANTS_ONLY", 1204);
  ("ER_LOCK_WAIT_TIMEOUT", 1205);
  ("ER_LOCK_TABLE_FULL", 1206);
  ("ER_READ_ONLY_TRANSACTION", 1207);
  ("ER_DROP_DB_WITH_READ_LOCK", 1208);
  ("ER_CREATE_DB_WITH_READ_LOCK", 1209);
  ("ER_WRONG_ARGUMENTS", 1210);
  ("ER_NO_PERMISSION_TO_CREATE_USER", 1211);
  ("ER_UNION_TABLES_IN_DIFFERENT_DIR", 1212);
  ("ER_LOCK_DEADLOCK", 1213);
  ("ER_TABLE_CANT_HANDLE_FT", 1214);
  ("ER_CANNOT_ADD_FOREIGN", 1215);
  ("ER_NO_REFERENCED_ROW", 1216);
  ("ER_ROW_IS_REFERENCED", 1217);
  ("ER_CONNECT_TO_MASTER", 1218);
  ("ER_QUERY_ON_MASTER", 1219);
  ("ER_ERROR_WHEN_EXECUTING_COMMAND", 1220);
  ("ER_WRONG_USAGE", 1221);
  ("ER_WRONG_NUMBER_OF_COLUMNS_IN_SELECT", 1222);
  ("ER_CANT_UPDATE_WITH_READLOCK", 1223);
  ("ER_MIXING_NOT_ALLOWED", 1224);
  ("ER_DUP_ARGUMENT", 1225);
  ("ER_USER_LIMIT_REACHED", 1226);
  ("ER_SPECIFIC_ACCESS_DENIED_ERROR", 1227);
  ("ER_LOCAL_VARIABLE", 1228);
  ("ER_GLOBAL_VARIABLE", 1229);
  ("ER_NO_DEFAULT", 1230);
  ("ER_WRONG_VALUE_FOR_VAR", 1231);
  ("ER_WRONG_TYPE_FOR_VAR", 1232);
  ("ER_VAR_CANT_BE_READ", 1233);
  ("ER_CANT_USE_OPTION_HERE", 1234);
  ("ER_NOT_SUPPORTED_YET", 1235);
  ("ER_MASTER_FATAL_ERROR_READING_BINLOG", 1236);
  ("ER_SLAVE_IGNORED_TABLE", 1237);
  ("ER_INCORRECT_GLOBAL_LOCAL_VAR", 1238);
  ("ER_WRONG_FK_DEF", 1239);
  ("ER_KEY_REF_DO_NOT_MATCH_TABLE_REF", 1240);
  ("ER_OPERAND_COLUMNS", 1241);
  ("ER_SUBQUERY_NO_1_ROW", 1242);
  ("ER_UNKNOWN_STMT_HANDLER", 1243);
  ("ER_CORRUPT_HELP_DB", 1244);
  ("ER_CYCLIC_REFERENCE", 1245);
  ("ER_AUTO_CONVERT", 1246);
  ("ER_ILLEGAL_REFERENCE", 1247);
  ("ER_DERIVED_MUST_HAVE_ALIAS", 1248);
  ("ER_SELECT_REDUCED", 1249);
  ("ER_TABLENAME_NOT_ALLOWED_HERE", 1250);
  ("ER_NOT_SUPPORTED_AUTH_MODE", 1251);
  ("ER_SPATIAL_CANT_HAVE_NULL", 1252);
  ("ER_COLLATION_CHARSET_MISMATCH", 1253);
  ("ER_SLAVE_WAS_RUNNING", 1254);
  ("ER_SLAVE_WAS_NOT_RUNNING", 1255);
  ("ER_TOO_BIG_FOR_UNCOMPRESS", 1256);
  ("ER_ZLIB_Z_MEM_ERROR", 1257);
  ("ER_ZLIB_Z_BUF_ERROR", 1258);
  ("ER_ZLIB_Z_DATA_ERROR", 1259);
  ("ER_CUT_VALUE_GROUP_CONCAT", 1260);
  ("ER_WARN_TOO_FEW_RECORDS", 1261);
  ("ER_WARN_TOO_MANY_RECORDS", 1262);
  ("ER_WARN_NULL_TO_NOTNULL", 1263);
  ("ER_WARN_DATA_OUT_OF_RANGE", 1264);
  ("WARN_DATA_TRUNCATED", 1265);
  ("ER_WARN_USING_OTHER_HANDLER", 1266);
  ("ER_CANT_AGGREGATE_2COLLATIONS", 1267);
  ("ER_DROP_USER", 1268);
  ("ER_REVOKE_GRANTS", 1269);
  ("ER_CANT_AGGREGATE_3COLLATIONS", 1270);
  ("ER_CANT_AGGREGATE_NCOLLATIONS", 1271);
  ("ER_VARIABLE_IS_NOT_STRUCT", 1272);
  ("ER_UNKNOWN_COLLATION", 1273);
  ("ER_SLAVE_IGNORED_SSL_PARAMS", 1274);
  ("ER_SERVER_IS_IN_SECURE_AUTH_MODE", 1275);
  ("ER_WARN_FIELD_RESOLVED", 1276);
  ("ER_BAD_SLAVE_UNTIL_COND", 1277);
  ("ER_MISSING_SKIP_SLAVE", 1278);
  ("ER_UNTIL_COND_IGNORED", 1279);
  ("ER_WRONG_NAME_FOR_INDEX", 1280);
  ("ER_WRONG_NAME_FOR_CATALOG", 1281);
  ("ER_WARN_QC_RESIZE", 1282);
  ("ER_BAD_FT_COLUMN", 1283);
  ("ER_UNKNOWN_KEY_CACHE", 1284);
  ("ER_WARN_HOSTNAME_WONT_WORK", 1285);
  ("ER_UNKNOWN_STORAGE_ENGINE", 1286);
  ("ER_WARN_DEPRECATED_SYNTAX", 1287);
  ("ER_NON_UPDATABLE_TABLE", 1288);
  ("ER_FEATURE_DISABLED", 1289);
  ("ER_OPTION_PREVENTS_STATEMENT", 1290);
  ("ER_DUPLICATED_VALUE_IN_TYPE", 1291);
  ("ER_TRUNCATED_WRONG_VALUE", 1292);
  ("ER_TOO_MUCH_AUTO_TIMESTAMP_COLS", 1293);
  ("ER_INVALID_ON_UPDATE", 1294);
  ("ER_UNSUPPORTED_PS", 1295)].

Definition error_codes_3 : list (string * Z) := [
  ("ER_GET_ERRMSG", 1296);
  ("ER_GET_TEMPORARY_ERRMSG", 1297);
  ("ER_UNKNOWN_TIME_ZONE", 1298);
  ("ER_WARN_INVALID_TIMESTAMP", 1299);
  ("ER_INVALID_CHARACTER_STRING", 1300);
  ("ER_WARN_ALLOWED_PACKET_OVERFLOWED", 1301);
  ("ER_CONFLICTING_DECLARATIONS", 1302);
  ("ER_SP_NO_RECURSIVE_CREATE", 1303);
  ("ER_SP_ALREADY_EXISTS", 1304);
  ("ER_SP_DOES_NOT_EXIST", 1305);
  ("ER_SP_DROP_FAILED", 1306);
  ("ER_SP_STORE_FAILED", 1307);
  ("ER_SP_LILABEL_MISMATCH", 1308);
  ("ER_SP_LABEL_REDEFINE", 1309);
  ("ER_SP_LABEL_MISMATCH", 1310);
  ("ER_SP_UNINIT_VAR", 1311);
  ("ER_SP_BADSELECT", 1312);
  ("ER_SP_BADRETURN", 1313);
  ("ER_SP_BADSTATEMENT", 1314);
  ("ER_UPDATE_LOG_DEPRECATED_IGNORED", 1315);
  ("ER_UPDATE_LOG_DEPRECATED_TRANSLATED", 1316);
  ("ER_QUERY_INTERRUPTED", 1317);
  ("ER_SP_WRONG_NO_OF_ARGS", 1318);
  ("ER_SP_COND_MISMATCH", 1319);
  ("ER_SP_NORETURN", 1320);
  ("ER_SP_NORETURNEND", 1321);
  ("ER_SP_BAD_CURSOR_QUERY", 1322);
  ("ER_SP_BAD_CURSOR_SELECT", 1323);
  ("ER_SP_CURSOR_MISMATCH", 1324);
  ("ER_SP_CURSOR_ALREADY_OPEN", 1325);
  ("ER_SP_CURSOR_NOT_OPEN", 1326);
  ("ER_SP_UNDECLARED_VAR", 1327);
  ("ER_SP_WRONG_NO_OF_FETCH_ARGS", 1328);
  ("ER_SP_FETCH_NO_DATA", 1329);
  ("ER_SP_DUP_PARAM", 1330);
  ("ER_SP_DUP_VAR", 1331);
  ("ER_SP_DUP_COND", 1332);
  ("ER_SP_DUP_CURS", 1333);
  ("ER_SP_CANT_ALTER", 1334);
  ("ER_SP_SUBSELECT_NYI", 1335);
  ("ER_STMT_NOT_ALLOWED_IN_SF_OR_TRG", 1336);
  ("ER_SP_VARCOND_AFTER_CURSHNDLR", 1337);
  ("ER_SP_CURSOR_AFTER_HANDLER", 1338);
  ("ER_SP_CASE_NOT_FOUND", 1339);
  ("ER_FPARSER_TOO_BIG_FILE", 1340);
  ("ER_FPARSER_BAD_HEADER", 1341);
  ("ER_FPARSER_EOF_IN_COMMENT", 1342);
  ("ER_FPARSER_ERROR_IN_PARAMETER", 1343);
  ("ER_FPARSER_EOF_IN_UNKNOWN_PARAMETER", 1344);
  ("ER_VIEW_NO_EXPLAIN", 1345);
  ("ER_FRM_UNKNOWN_TYPE", 1346);
  ("ER_WRONG_OBJECT", 1347);
  ("ER_NONUPDATEABLE_COLUMN", 1348);
  ("ER_VIEW_SELECT_DERIVED", 1349);
  ("ER_VIEW_SELECT_CLAUSE", 1350);
  ("ER_VIEW_SELECT_VARIABLE", 1351);
  ("ER_VIEW_SELECT_TMPTABLE", 1352);
  ("ER_VIEW_WRONG_LIST", 1353);
  ("ER_WARN_VIEW_MERGE", 1354);
  ("ER_WARN_VIEW_WITHOUT_KEY", 1355);
  ("ER_VIEW_INVALID", 1356);
  ("ER_SP_NO_DROP_SP", 1357);
  ("ER_SP_GOTO_IN_HNDLR", 1358);
  ("ER_TRG_ALREADY_EXISTS", 1359);
  ("ER_TRG_DOES_NOT_EXIST", 1360);
  ("ER_TRG_ON_VIEW_OR_TEMP_TABLE", 1361);
  ("ER_TRG_CANT_CHANGE_ROW", 1362);
  ("ER_TRG_NO_SUCH_ROW_IN_TRG", 1363);
  ("ER_NO_DEFAULT_FOR_FIELD", 1364);
  ("ER_DIVISION_BY_ZERO", 1365);
  ("ER_TRUNCATED_WRONG_VALUE_FOR_FIELD", 1366);
  ("ER_ILLEGAL_VALUE_FOR_TYPE", 1367);
  ("ER_VIEW_NONUPD_CHECK", 1368);
  ("ER_VIEW_CHECK_FAILED", 1369);
  ("ER_PROCACCESS_DENIED_ERROR", 1370);
  ("ER_RELAY_LOG_FAIL", 1371);
  ("ER_PASSWD_LENGTH", 1372);
  ("ER_UNKNOWN_TARGET_BINLOG", 1373);
  ("ER_IO_ERR_LOG_INDEX_READ", 1374);
  ("ER_BINLOG_PURGE_PROHIBITED", 1375);
  ("ER_FSEEK_FAIL", 1376);
  ("ER_BINLOG_PURGE_FATAL_ERR", 1377);
  ("ER_LOG_IN_USE", 1378);
  ("ER_LOG_PURGE_UNKNOWN_ERR", 1379);
  ("ER_RELAY_LOG_INIT", 1380);
  ("ER_NO_BINARY_LOGGING", 1381);
  ("ER_RESERVED_SYNTAX", 1382);
  ("ER_WSAS_FAILED", 1383);
  ("ER_DIFF_GROUPS_PROC", 1384);
  ("ER_NO_GROUP_FOR_PROC", 1385);
  ("ER_ORDER_WITH_PROC", 1386);
  ("ER_LOGGING_PROHIBIT_CHANGING_OF", 1387);
  ("ER_NO_FILE_MAPPING", 1388);
  ("ER_WRONG_MAGIC", 1389);
  ("ER_PS_MANY_PARAM", 1390);
  ("ER_KEY_PART_0", 1391);
  ("ER_VIEW_CHECKSUM", 1392);
  ("ER_VIEW_MULTIUPDATE", 1393);
  ("ER_VIEW_NO_INSERT_FIELD_LIST", 1394);
  ("ER_VIEW_DELETE_MERGE_VIEW", 1395);
  ("ER_CANNOT_USER", 1396);
  ("ER_XAER_NOTA", 1397);
  ("ER_XAER_INVAL", 1398);
  ("ER_XAER_RMFAIL", 1399);
  ("ER_XAER_OUTSIDE", 1400);
  ("ER_XAER_RMERR", 1401);
  ("ER_XA_RBROLLBACK", 1402);
  ("ER_NONEXISTING_PROC_GRANT", 1403);
  ("ER_PROC_AUTO_GRANT_FAIL", 1404);
  ("ER_PROC_AUTO_REVOKE_FAIL", 1405);
  ("ER_DATA_TOO_LONG", 1406);
  ("ER_SP_BAD_SQLSTATE", 1407);
  ("ER_STARTUP", 1408);
  ("ER_LOAD_FROM_FIXED_SIZE_ROWS_TO_VAR", 1409);
  ("ER_CANT_CREATE_USER_WITH_GRANT", 1410);
  ("ER_WRONG_VALUE_FOR_TYPE", 1411);
  ("ER_TABLE_DEF_CHANGED", 1412);
  ("ER_SP_DUP_HANDLER", 1413);
  ("ER_SP_NOT_VAR_ARG", 1414);
  ("ER_SP_NO_RETSET", 1415);
  ("ER_CANT_CREATE_GEOMETRY_OBJECT", 1416);
  ("ER_FAILED_ROUTINE_BREAK_BINLOG", 1417);
  ("ER_BINLOG_UNSAFE_ROUTINE", 1418);
  ("ER_BINLOG_CREATE_ROUTINE_NEED_SUPER", 1419);
  ("ER_EXEC_STMT_WITH_OPEN_CURSOR", 1420);
  ("ER_STMT_HAS_NO_OPEN_CURSOR", 1421);
  ("ER_COMMIT_NOT_ALLOWED_IN_SF_OR_TRG", 1422);
  ("ER_NO_DEFAULT_FOR_VIEW_FIELD", 1423);
  ("ER_SP_NO_RECURSION", 1424);
  ("ER_TOO_BIG_SCALE", 1425);
  ("ER_TOO_BIG_PRECISION", 1426);
  ("ER_M_BIGGER_THAN_D", 1427);
  ("ER_WRONG_LOCK_OF_SYSTEM_TABLE", 1428);
  ("ER_CONNECT_TO_FOREIGN_DATA_SOURCE", 1429);
  ("ER_QUERY_ON_FOREIGN_DATA_SOURCE", 1430);
  ("ER_FOREIGN_DATA_SOURCE_DOESNT_EXIST", 1431);
  ("ER_FOREIGN_DATA_STRING_INVALID_CANT_CREATE", 1432);
  ("ER_FOREIGN_DATA_STRING_INVALID", 1433);
  ("ER_CANT_CREATE_FEDERATED_TABLE", 1434);
  ("ER_TRG_IN_WRONG_SCHEMA", 1435);
  ("ER_STACK_OVERRUN_NEED_MORE", 1436);
  ("ER_TOO_LONG_BODY", 1437);
  ("ER_WARN_CANT_DROP_DEFAULT_KEYCACHE", 1438);
  ("ER_TOO_BIG_DISPLAYWIDTH", 1439);
  ("ER_XAER_DUPID", 1440);
  ("ER_DATETIME_FUNCTION_OVERFLOW", 1441);
  ("ER_CANT_UPDATE_USED_TABLE_IN_SF_OR_TRG", 1442);
  ("ER_VIEW_PREVENT_UPDATE", 1443);
  ("ER_PS_NO_RECURSION", 1444);
  ("ER_SP_CANT_SET_AUTOCOMMIT", 1445)].

Definition error_codes_4 : list (string * Z) := [
  ("ER_MALFORMED_DEFINER", 1446);
  ("ER_VIEW_FRM_NO_USER", 1447);
  ("ER_VIEW_OTHER_USER", 1448);
  ("ER_NO_SUCH_USER", 1449);
  ("ER_FORBID_SCHEMA_CHANGE", 1450);
  ("ER_ROW_IS_REFERENCED_2", 1451);
  ("ER_NO_REFERENCED_ROW_2", 1452);
  ("ER_SP_BAD_VAR_SHADOW", 1453);
  ("ER_TRG_NO_DEFINER", 1454);
  ("ER_OLD_FILE_FORMAT", 1455);
  ("ER_SP_RECURSION_LIMIT", 1456);
  ("ER_SP_PROC_TABLE_CORRUPT", 1457);
  ("ER_SP_WRONG_NAME", 1458);
  ("ER_TABLE_NEEDS_UPGRADE", 1459);
  ("ER_SP_NO_AGGREGATE", 1460);
  ("ER_MAX_PREPARED_STMT_COUNT_REACHED", 1461);
  ("ER_VIEW_RECURSIVE", 1462);
  ("ER_NON_GROUPING_FIELD_USED", 1463);
  ("ER_TABLE_CANT_HANDLE_SPKEYS", 1464);
  ("ER_NO_TRIGGERS_ON_SYSTEM_SCHEMA", 1465);
  ("ER_REMOVED_SPACES", 1466);
  ("ER_AUTOINC_READ_FAILED", 1467);
  ("ER_USERNAME", 1468);
  ("ER_HOSTNAME", 1469);
  ("ER_WRONG_STRING_LENGTH", 1470);
  ("ER_NON_INSERTABLE_TABLE", 1471);
  ("ER_ADMIN_WRONG_MRG_TABLE", 1472);
  ("ER_TOO_HIGH_LEVEL_OF_NESTING_FOR_SELECT", 1473);
  ("ER_NAME_BECOMES_EMPTY", 1474);
  ("ER_AMBIGUOUS_FIELD_TERM", 1475);
  ("ER_FOREIGN_SERVER_EXISTS", 1476);
  ("ER_FOREIGN_SERVER_DOESNT_EXIST", 1477);
  ("ER_ILLEGAL_HA_CREATE_OPTION", 1478);
  ("ER_PARTITION_REQUIRES_VALUES_ERROR", 1479);
  ("ER_PARTITION_WRONG_VALUES_ERROR", 1480);
  ("ER_PARTITION_MAXVALUE_ERROR", 1481);
  ("ER_PARTITION_SUBPARTITION_ERROR", 1482);
  ("ER_PARTITION_SUBPART_MIX_ERROR", 1483);
  ("ER_PARTITION_WRONG_NO_PART_ERROR", 1484);
  ("ER_PARTITION_WRONG_NO_SUBPART_ERROR", 1485);
  ("ER_WRONG_EXPR_IN_PARTITION_FUNC_ERROR", 1486);
  ("ER_NOT_CONSTANT_EXPRESSION", 1487);
  ("ER_FIELD_NOT_FOUND_PART_ERROR", 1488);
  ("ER_LIST_OF_FIELDS_ONLY_IN_HASH_ERROR", 1489);
  ("ER_INCONSISTENT_PARTITION_INFO_ERROR", 1490);
  ("ER_PARTITION_FUNC_NOT_ALLOWED_ERROR", 1491);
  ("ER_PARTITIONS_MUST_BE_DEFINED_ERROR", 1492);
  ("ER_RANGE_NOT_INCREASING_ERROR", 1493);
  ("ER_INCONSISTENT_TYPE_OF_FUNCTIONS_ERROR", 1494);
  ("ER_MULTIPLE_DEF_CONST_IN_LIST_PART_ERROR", 1495);
  ("ER_PARTITION_ENTRY_ERROR", 1496);
  ("ER_MIX_HANDLER_ERROR", 1497);
  ("ER_PARTITION_NOT_DEFINED_ERROR", 1498);
  ("ER_TOO_MANY_PARTITIONS_ERROR", 1499);
  ("ER_SUBPARTITION_ERROR", 1500);
  ("ER_CANT_CREATE_HANDLER_FILE", 1501);
  ("ER_BLOB_FIELD_IN_PART_FUNC_ERROR", 1502);
  ("ER_UNIQUE_KEY_NEED_ALL_FIELDS_IN_PF", 1503);
  ("ER_NO_PARTS_ERROR", 1504);
  ("ER_PARTITION_MGMT_ON_NONPARTITIONED", 1505);
  ("ER_FEATURE_NOT_SUPPORTED_WITH_PARTITIONING", 1506);
  ("ER_PARTITION_DOES_NOT_EXIST", 1507);
  ("ER_DROP_LAST_PARTITION", 1508);
  ("ER_COALESCE_ONLY_ON_HASH_PARTITION", 1509);
  ("ER_REORG_HASH_ONLY_ON_SAME_NO", 1510);
  ("ER_REORG_NO_PARAM_ERROR", 1511);
  ("ER_ONLY_ON_RANGE_LIST_PARTITION", 1512);
  ("ER_ADD_PARTITION_SUBPART_ERROR", 1513);
  ("ER_ADD_PARTITION_NO_NEW_PARTITION", 1514);
  ("ER_COALESCE_PARTITION_NO_PARTITION", 1515);
  ("ER_REORG_PARTITION_NOT_EXIST", 1516);
  ("ER_SAME_NAME_PARTITION", 1517);
  ("ER_NO_BINLOG_ERROR", 1518);
  ("ER_CONSECUTIVE_REORG_PARTITIONS", 1519);
  ("ER_REORG_OUTSIDE_RANGE", 1520);
  ("ER_PARTITION_FUNCTION_FAILURE", 1521);
  ("ER_PART_STATE_ERROR", 1522);
  ("ER_LIMITED_PART_RANGE", 1523);
  ("ER_PLUGIN_IS_NOT_LOADED", 1524);
  ("ER_WRONG_VALUE", 1525);
  ("ER_NO_PARTITION_FOR_GIVEN_VALUE", 1526);
  ("ER_FILEGROUP_OPTION_ONLY_ONCE", 1527);
  ("ER_CREATE_FILEGROUP_FAILED", 1528);
  ("ER_DROP_FILEGROUP_FAILED", 1529);
  ("ER_TABLESPACE_AUTO_EXTEND_ERROR", 1530);
  ("ER_WRONG_SIZE_NUMBER", 1531);
  ("ER_SIZE_OVERFLOW_ERROR", 1532);
  ("ER_ALTER_FILEGROUP_FAILED", 1533);
  ("ER_BINLOG_ROW_LOGGING_FAILED", 1534);
  ("ER_BINLOG_ROW_WRONG_TABLE_DEF", 1535);
  ("ER_BINLOG_ROW_RBR_TO_SBR", 1536);
  ("ER_EVENT_ALREADY_EXISTS", 1537);
  ("ER_EVENT_STORE_FAILED", 1538);
  ("ER_EVENT_DOES_NOT_EXIST", 1539);
  ("ER_EVENT_CANT_ALTER", 1540);
  ("ER_EVENT_DROP_FAILED", 1541);
  ("ER_EVENT_INTERVAL_NOT_POSITIVE_OR_TOO_BIG", 1542);
  ("ER_EVENT_ENDS_BEFORE_STARTS", 1543);
  ("ER_EVENT_EXEC_TIME_IN_THE_PAST", 1544);
  ("ER_EVENT_OPEN_TABLE_FAILED", 1545);
  ("ER_EVENT_NEITHER_M_EXPR_NOR_M_AT", 1546);
  ("ER_UNUSED_2", 1547);
  ("ER_UNUSED_3", 1548);
  ("ER_EVENT_CANNOT_DELETE", 1549);
  ("ER_EVENT_COMPILE_ERROR", 1550);
  ("ER_EVENT_SAME_NAME", 1551);
  ("ER_EVENT_DATA_TOO_LONG", 1552);
  ("ER_DROP_INDEX_FK", 1553);
  ("ER_WARN_DEPRECATED_SYNTAX_WITH_VER", 1554);
  ("ER_CANT_WRITE_LOCK_LOG_TABLE", 1555);
  ("ER_CANT_LOCK_LOG_TABLE", 1556);
  ("ER_UNUSED_4", 1557);
  ("ER_COL_COUNT_DOESNT_MATCH_PLEASE_UPDATE", 1558);
  ("ER_TEMP_TABLE_PREVENTS_SWITCH_OUT_OF_RBR", 1559);
  ("ER_STORED_FUNCTION_PREVENTS_SWITCH_BINLOG_FORMAT", 1560);
  ("ER_UNUSED_13", 1561);
  ("ER_PARTITION_NO_TEMPORARY", 1562);
  ("ER_PARTITION_CONST_DOMAIN_ERROR", 1563);
  ("ER_PARTITION_FUNCTION_IS_NOT_ALLOWED", 1564);
  ("ER_DDL_LOG_ERROR", 1565);
  ("ER_NULL_IN_VALUES_LESS_THAN", 1566);
  ("ER_WRONG_PARTITION_NAME", 1567);
  ("ER_CANT_CHANGE_TX_CHARACTERISTICS", 1568);
  ("ER_DUP_ENTRY_AUTOINCREMENT_CASE", 1569);
  ("ER_EVENT_MODIFY_QUEUE_ERROR", 1570);
  ("ER_EVENT_SET_VAR_ERROR", 1571);
  ("ER_PARTITION_MERGE_ERROR", 1572);
  ("ER_CANT_ACTIVATE_LOG", 1573);
  ("ER_RBR_NOT_AVAILABLE", 1574);
  ("ER_BASE64_DECODE_ERROR", 1575);
  ("ER_EVENT_RECURSION_FORBIDDEN", 1576);
  ("ER_EVENTS_DB_ERROR", 1577);
  ("ER_ONLY_INTEGERS_ALLOWED", 1578);
  ("ER_UNSUPORTED_LOG_ENGINE", 1579);
  ("ER_BAD_LOG_STATEMENT", 1580);
  ("ER_CANT_RENAME_LOG_TABLE", 1581);
  ("ER_WRONG_PARAMCOUNT_TO_NATIVE_FCT", 1582);
  ("ER_WRONG_PARAMETERS_TO_NATIVE_FCT", 1583);
  ("ER_WRONG_PARAMETERS_TO_STORED_FCT", 1584);
  ("ER_NATIVE_FCT_NAME_COLLISION", 1585);
  ("ER_DUP_ENTRY_WITH_KEY_NAME", 1586);
  ("ER_BINLOG_PURGE_EMFILE", 1587);
  ("ER_EVENT_CANNOT_CREATE_IN_THE_PAST", 1588);
  ("ER_EVENT_CANNOT_ALTER_IN_THE_PAST", 1589);
  ("ER_SLAVE_INCIDENT", 1590);
  ("ER_NO_PARTITION_FOR_GIVEN_VALUE_SILENT", 1591);
  ("ER_BINLOG_UNSAFE_STATEMENT", 1592);
  ("ER_SLAVE_FATAL_ERROR", 1593);
  ("ER_SLAVE_RELAY_LOG_READ_FAILURE", 1594);
  ("ER_SLAVE_RELAY_LOG_WRITE_FAILURE", 1595)].

Definition error_codes_5 : list (string * Z) := [
  ("ER_SLAVE_CREATE_EVENT_FAILURE", 1596);
  ("ER_SLAVE_MASTER_COM_FAILURE", 1597);
  ("ER_BINLOG_LOGGING_IMPOSSIBLE", 1598);
  ("ER_VIEW_NO_CREATION_CTX", 1599);
  ("ER_VIEW_INVALID_CREATION_CTX", 1600);
  ("ER_SR_INVALID_CREATION_CTX", 1601);
  ("ER_TRG_CORRUPTED_FILE", 1602);
  ("ER_TRG_NO_CREATION_CTX", 1603);
  ("ER_TRG_INVALID_CREATION_CTX", 1604);
  ("ER_EVENT_INVALID_CREATION_CTX", 1605);
  ("ER_TRG_CANT_OPEN_TABLE", 1606);
  ("ER_CANT_CREATE_SROUTINE", 1607);
  ("ER_UNUSED_11", 1608);
  ("ER_NO_FORMAT_DESCRIPTION_EVENT_BEFORE_BINLOG_STATEMENT", 1609);
  ("ER_SLAVE_CORRUPT_EVENT", 1610);
  ("ER_LOAD_DATA_INVALID_COLUMN", 1611);
  ("ER_LOG_PURGE_NO_FILE", 1612);
  ("ER_XA_RBTIMEOUT", 1613);
  ("ER_XA_RBDEADLOCK", 1614);
  ("ER_NEED_REPREPARE", 1615);
  ("ER_DELAYED_NOT_SUPPORTED", 1616);
  ("WARN_NO_MASTER_INFO", 1617);
  ("WARN_OPTION_IGNORED", 1618);
  ("ER_PLUGIN_DELETE_BUILTIN", 1619);
  ("WARN_PLUGIN_BUSY", 1620);
  ("ER_VARIABLE_IS_READONLY", 1621);
  ("ER_WARN_ENGINE_TRANSACTION_ROLLBACK", 1622);
  ("ER_SLAVE_HEARTBEAT_FAILURE", 1623);
  ("ER_SLAVE_HEARTBEAT_VALUE_OUT_OF_RANGE", 1624);
  ("ER_UNUSED_14", 1625);
  ("ER_CONFLICT_FN_PARSE_ERROR", 1626);
  ("ER_EXCEPTIONS_WRITE_ERROR", 1627);
  ("ER_TOO_LONG_TABLE_COMMENT", 1628);
  ("ER_TOO_LONG_FIELD_COMMENT", 1629);
  ("ER_FUNC_INEXISTENT_NAME_COLLISION", 1630);
  ("ER_DATABASE_NAME", 1631);
  ("ER_TABLE_NAME", 1632);
  ("ER_PARTITION_NAME", 1633);
  ("ER_SUBPARTITION_NAME", 1634);
  ("ER_TEMPORARY_NAME", 1635);
  ("ER_RENAMED_NAME", 1636);
  ("ER_TOO_MANY_CONCURRENT_TRXS", 1637);
  ("WARN_NON_ASCII_SEPARATOR_NOT_IMPLEMENTED", 1638);
  ("ER_DEBUG_SYNC_TIMEOUT", 1639);
  ("ER_DEBUG_SYNC_HIT_LIMIT", 1640);
  ("ER_DUP_SIGNAL_SET", 1641);
  ("ER_SIGNAL_WARN", 1642);
  ("ER_SIGNAL_NOT_FOUND", 1643);
  ("ER_SIGNAL_EXCEPTION", 1644);
  ("ER_RESIGNAL_WITHOUT_ACTIVE_HANDLER", 1645);
  ("ER_SIGNAL_BAD_CONDITION_TYPE", 1646);
  ("WARN_COND_ITEM_TRUNCATED", 1647);
  ("ER_COND_ITEM_TOO_LONG", 1648);
  ("ER_UNKNOWN_LOCALE", 1649);
  ("ER_SLAVE_IGNORE_SERVER_IDS", 1650);
  ("ER_QUERY_CACHE_DISABLED", 1651);
  ("ER_SAME_NAME_PARTITION_FIELD", 1652);
  ("ER_PARTITION_COLUMN_LIST_ERROR", 1653);
  ("ER_WRONG_TYPE_COLUMN_VALUE_ERROR", 1654);
  ("ER_TOO_MANY_PARTITION_FUNC_FIELDS_ERROR", 1655);
  ("ER_MAXVALUE_IN_VALUES_IN", 1656);
  ("ER_TOO_MANY_VALUES_ERROR", 1657);
  ("ER_ROW_SINGLE_PARTITION_FIELD_ERROR", 1658);
  ("ER_FIELD_TYPE_NOT_ALLOWED_AS_PARTITION_FIELD", 1659);
  ("ER_PARTITION_FIELDS_TOO_LONG", 1660);
  ("ER_BINLOG_ROW_ENGINE_AND_STMT_ENGINE", 1661);
  ("ER_BINLOG_ROW_MODE_AND_STMT_ENGINE", 1662);
  ("ER_BINLOG_UNSAFE_AND_STMT_ENGINE", 1663);
  ("ER_BINLOG_ROW_INJECTION_AND_STMT_ENGINE", 1664);
  ("ER_BINLOG_STMT_MODE_AND_ROW_ENGINE", 1665);
  ("ER_BINLOG_ROW_INJECTION_AND_STMT_MODE", 1666);
  ("ER_BINLOG_MULTIPLE_ENGINES_AND_SELF_LOGGING_ENGINE", 1667);
  ("ER_BINLOG_UNSAFE_LIMIT", 1668);
  ("ER_BINLOG_UNSAFE_INSERT_DELAYED", 1669);
  ("ER_BINLOG_UNSAFE_SYSTEM_TABLE", 1670);
  ("ER_BINLOG_UNSAFE_AUTOINC_COLUMNS", 1671);
  ("ER_BINLOG_UNSAFE_UDF", 1672);
  ("ER_BINLOG_UNSAFE_SYSTEM_VARIABLE", 1673);
  ("ER_BINLOG_UNSAFE_SYSTEM_FUNCTION", 1674);
  ("ER_BINLOG_UNSAFE_NONTRANS_AFTER_TRANS", 1675);
  ("ER_MESSAGE_AND_STATEMENT", 1676);
  ("ER_SLAVE_CONVERSION_FAILED", 1677);
  ("ER_SLAVE_CANT_CREATE_CONVERSION", 1678);
  ("ER_INSIDE_TRANSACTION_PREVENTS_SWITCH_BINLOG_FORMAT", 1679);
  ("ER_PATH_LENGTH", 1680);
  ("ER_WARN_DEPRECATED_SYNTAX_NO_REPLACEMENT", 1681);
  ("ER_WRONG_NATIVE_TABLE_STRUCTURE", 1682);
  ("ER_WRONG_PERFSCHEMA_USAGE", 1683);
  ("ER_WARN_I_S_SKIPPED_TABLE", 1684);
  ("ER_INSIDE_TRANSACTION_PREVENTS_SWITCH_BINLOG_DIRECT", 1685);
  ("ER_STORED_FUNCTION_PREVENTS_SWITCH_BINLOG_DIRECT", 1686);
  ("ER_SPATIAL_MUST_HAVE_GEOM_COL", 1687);
  ("ER_TOO_LONG_INDEX_COMMENT", 1688);
  ("ER_LOCK_ABORTED", 1689);
  ("ER_DATA_OUT_OF_RANGE", 1690);
  ("ER_WRONG_SPVAR_TYPE_IN_LIMIT", 1691);
  ("ER_BINLOG_UNSAFE_MULTIPLE_ENGINES_AND_SELF_LOGGING_ENGINE", 1692);
  ("ER_BINLOG_UNSAFE_MIXED_STATEMENT", 1693);
  ("ER_INSIDE_TRANSACTION_PREVENTS_SWITCH_SQL_LOG_BIN", 1694);
  ("ER_STORED_FUNCTION_PREVENTS_SWITCH_SQL_LOG_BIN", 1695);
  ("ER_FAILED_READ_FROM_PAR_FILE", 1696);
  ("ER_VALUES_IS_NOT_INT_TYPE_ERROR", 1697);
  ("ER_ACCESS_DENIED_NO_PASSWORD_ERROR", 1698);
  ("ER_SET_PASSWORD_AUTH_PLUGIN", 1699);
  ("ER_GRANT_PLUGIN_USER_EXISTS", 1700);
  ("ER_TRUNCATE_ILLEGAL_FK", 1701);
  ("ER_PLUGIN_IS_PERMANENT", 1702);
  ("ER_SLAVE_HEARTBEAT_VALUE_OUT_OF_RANGE_MIN", 1703);
  ("ER_SLAVE_HEARTBEAT_VALUE_OUT_OF_RANGE_MAX", 1704);
  ("ER_STMT_CACHE_FULL", 1705);
  ("ER_MULTI_UPDATE_KEY_CONFLICT", 1706);
  ("ER_TABLE_NEEDS_REBUILD", 1707);
  ("WARN_OPTION_BELOW_LIMIT", 1708);
  ("ER_INDEX_COLUMN_TOO_LONG", 1709);
  ("ER_ERROR_IN_TRIGGER_BODY", 1710);
  ("ER_ERROR_IN_UNKNOWN_TRIGGER_BODY", 1711);
  ("ER_INDEX_CORRUPT", 1712);
  ("ER_UNDO_RECORD_TOO_BIG", 1713);
  ("ER_BINLOG_UNSAFE_INSERT_IGNORE_SELECT", 1714);
  ("ER_BINLOG_UNSAFE_INSERT_SELECT_UPDATE", 1715);
  ("ER_BINLOG_UNSAFE_REPLACE_SELECT", 1716);
  ("ER_BINLOG_UNSAFE_CREATE_IGNORE_SELECT", 1717);
  ("ER_BINLOG_UNSAFE_CREATE_REPLACE_SELECT", 1718);
  ("ER_BINLOG_UNSAFE_UPDATE_IGNORE", 1719);
  ("ER_UNUSED_15", 1720);
  ("ER_UNUSED_16", 1721);
  ("ER_BINLOG_UNSAFE_WRITE_AUTOINC_SELECT", 1722);
  ("ER_BINLOG_UNSAFE_CREATE_SELECT_AUTOINC", 1723);
  ("ER_BINLOG_UNSAFE_INSERT_TWO_KEYS", 1724);
  ("ER_UNUSED_28", 1725);
  ("ER_VERS_NOT_ALLOWED", 1726);
  ("ER_BINLOG_UNSAFE_AUTOINC_NOT_FIRST", 1727);
  ("ER_CANNOT_LOAD_FROM_TABLE_V2", 1728);
  ("ER_MASTER_DELAY_VALUE_OUT_OF_RANGE", 1729);
  ("ER_ONLY_FD_AND_RBR_EVENTS_ALLOWED_IN_BINLOG_STATEMENT", 1730);
  ("ER_PARTITION_EXCHANGE_DIFFERENT_OPTION", 1731);
  ("ER_PARTITION_EXCHANGE_PART_TABLE", 1732);
  ("ER_PARTITION_EXCHANGE_TEMP_TABLE", 1733);
  ("ER_PARTITION_INSTEAD_OF_SUBPARTITION", 1734);
  ("ER_UNKNOWN_PARTITION", 1735);
  ("ER_TABLES_DIFFERENT_METADATA", 1736);
  ("ER_ROW_DOES_NOT_MATCH_PARTITION", 1737);
  ("ER_BINLOG_CACHE_SIZE_GREATER_THAN_MAX", 1738);
  ("ER_WARN_INDEX_NOT_APPLICABLE", 1739);
  ("ER_PARTITION_EXCHANGE_FOREIGN_KEY", 1740);
  ("ER_NO_SUCH_KEY_VALUE", 1741);
  ("ER_VALUE_TOO_LONG", 1742);
  ("ER_NETWORK_READ_EVENT_CHECKSUM_FAILURE", 1743);
  ("ER_BINLOG_READ_EVENT_CHECKSUM_FAILURE", 1744);
  ("ER_BINLOG_STMT_CACHE_SIZE_GREATER_THAN_MAX", 1745)].

Definition error_codes_6 : list (string * Z) := [
  ("ER_CANT_UPDATE_TABLE_IN_CREATE_TABLE_SELECT", 1746);
  ("ER_PARTITION_CLAUSE_ON_NONPARTITIONED", 1747);
  ("ER_ROW_DOES_NOT_MATCH_GIVEN_PARTITION_SET", 1748);
  ("ER_UNUSED_5", 1749);
  ("ER_CHANGE_RPL_INFO_REPOSITORY_FAILURE", 1750);
  ("ER_WARNING_NOT_COMPLETE_ROLLBACK_WITH_CREATED_TEMP_TABLE", 1751);
  ("ER_WARNING_NOT_COMPLETE_ROLLBACK_WITH_DROPPED_TEMP_TABLE", 1752);
  ("ER_MTS_FEATURE_IS_NOT_SUPPORTED", 1753);
  ("ER_MTS_UPDATED_DBS_GREATER_MAX", 1754);
  ("ER_MTS_CANT_PARALLEL", 1755);
  ("ER_MTS_INCONSISTENT_DATA", 1756);
  ("ER_FULLTEXT_NOT_SUPPORTED_WITH_PARTITIONING", 1757);
  ("ER_DA_INVALID_CONDITION_NUMBER", 1758);
  ("ER_INSECURE_PLAIN_TEXT", 1759);
  ("ER_INSECURE_CHANGE_MASTER", 1760);
  ("ER_FOREIGN_DUPLICATE_KEY_WITH_CHILD_INFO", 1761);
  ("ER_FOREIGN_DUPLICATE_KEY_WITHOUT_CHILD_INFO", 1762);
  ("ER_SQLTHREAD_WITH_SECURE_SLAVE", 1763);
  ("ER_TABLE_HAS_NO_FT", 1764);
  ("ER_VARIABLE_NOT_SETTABLE_IN_SF_OR_TRIGGER", 1765);
  ("ER_VARIABLE_NOT_SETTABLE_IN_TRANSACTION", 1766);
  ("ER_GTID_NEXT_IS_NOT_IN_GTID_NEXT_LIST", 1767);
  ("ER_CANT_CHANGE_GTID_NEXT_IN_TRANSACTION_WHEN_GTID_NEXT_LIST_IS_NULL", 1768);
  ("ER_SET_STATEMENT_CANNOT_INVOKE_FUNCTION", 1769);
  ("ER_GTID_NEXT_CANT_BE_AUTOMATIC_IF_GTID_NEXT_LIST_IS_NON_NULL", 1770);
  ("ER_SKIPPING_LOGGED_TRANSACTION", 1771);
  ("ER_MALFORMED_GTID_SET_SPECIFICATION", 1772);
  ("ER_MALFORMED_GTID_SET_ENCODING", 1773);
  ("ER_MALFORMED_GTID_SPECIFICATION", 1774);
  ("ER_GNO_EXHAUSTED", 1775);
  ("ER_BAD_SLAVE_AUTO_POSITION", 1776);
  ("ER_AUTO_POSITION_REQUIRES_GTID_MODE_ON", 1777);
  ("ER_CANT_DO_IMPLICIT_COMMIT_IN_TRX_WHEN_GTID_NEXT_IS_SET", 1778);
  ("ER_GTID_MODE_2_OR_3_REQUIRES_ENFORCE_GTID_CONSISTENCY_ON", 1779);
  ("ER_GTID_MODE_REQUIRES_BINLOG", 1780);
  ("ER_CANT_SET_GTID_NEXT_TO_GTID_WHEN_GTID_MODE_IS_OFF", 1781);
  ("ER_CANT_SET_GTID_NEXT_TO_ANONYMOUS_WHEN_GTID_MODE_IS_ON", 1782);
  ("ER_CANT_SET_GTID_NEXT_LIST_TO_NON_NULL_WHEN_GTID_MODE_IS_OFF", 1783);
  ("ER_FOUND_GTID_EVENT_WHEN_GTID_MODE_IS_OFF", 1784);
  ("ER_GTID_UNSAFE_NON_TRANSACTIONAL_TABLE", 1785);
  ("ER_GTID_UNSAFE_CREATE_SELECT", 1786);
  ("ER_GTID_UNSAFE_CREATE_DROP_TEMPORARY_TABLE_IN_TRANSACTION", 1787);
  ("ER_GTID_MODE_CAN_ONLY_CHANGE_ONE_STEP_AT_A_TIME", 1788);
  ("ER_MASTER_HAS_PURGED_REQUIRED_GTIDS", 1789);
  ("ER_CANT_SET_GTID_NEXT_WHEN_OWNING_GTID", 1790);
  ("ER_UNKNOWN_EXPLAIN_FORMAT", 1791);
  ("ER_CANT_EXECUTE_IN_READ_ONLY_TRANSACTION", 1792);
  ("ER_TOO_LONG_TABLE_PARTITION_COMMENT", 1793);
  ("ER_SLAVE_CONFIGURATION", 1794);
  ("ER_INNODB_FT_LIMIT", 1795);
  ("ER_INNODB_NO_FT_TEMP_TABLE", 1796);
  ("ER_INNODB_FT_WRONG_DOCID_COLUMN", 1797);
  ("ER_INNODB_FT_WRONG_DOCID_INDEX", 1798);
  ("ER_INNODB_ONLINE_LOG_TOO_BIG", 1799);
  ("ER_UNKNOWN_ALTER_ALGORITHM", 1800);
  ("ER_UNKNOWN_ALTER_LOCK", 1801);
  ("ER_MTS_CHANGE_MASTER_CANT_RUN_WITH_GAPS", 1802);
  ("ER_MTS_RECOVERY_FAILURE", 1803);
  ("ER_MTS_RESET_WORKERS", 1804);
  ("ER_COL_COUNT_DOESNT_MATCH_CORRUPTED_V2", 1805);
  ("ER_SLAVE_SILENT_RETRY_TRANSACTION", 1806);
  ("ER_UNUSED_22", 1807);
  ("ER_TABLE_SCHEMA_MISMATCH", 1808);
  ("ER_TABLE_IN_SYSTEM_TABLESPACE", 1809);
  ("ER_IO_READ_ERROR", 1810);
  ("ER_IO_WRITE_ERROR", 1811);
  ("ER_TABLESPACE_MISSING", 1812);
  ("ER_TABLESPACE_EXISTS", 1813);
  ("ER_TABLESPACE_DISCARDED", 1814);
  ("ER_INTERNAL_ERROR", 1815);
  ("ER_INNODB_IMPORT_ERROR", 1816);
  ("ER_INNODB_INDEX_CORRUPT", 1817);
  ("ER_INVALID_YEAR_COLUMN_LENGTH", 1818);
  ("ER_NOT_VALID_PASSWORD", 1819);
  ("ER_MUST_CHANGE_PASSWORD", 1820);
  ("ER_FK_NO_INDEX_CHILD", 1821);
  ("ER_FK_NO_INDEX_PARENT", 1822);
  ("ER_FK_FAIL_ADD_SYSTEM", 1823);
  ("ER_FK_CANNOT_OPEN_PARENT", 1824);
  ("ER_FK_INCORRECT_OPTION", 1825);
  ("ER_DUP_CONSTRAINT_NAME", 1826);
  ("ER_PASSWORD_FORMAT", 1827);
  ("ER_FK_COLUMN_CANNOT_DROP", 1828);
  ("ER_FK_COLUMN_CANNOT_DROP_CHILD", 1829);
  ("ER_FK_COLUMN_NOT_NULL", 1830);
  ("ER_DUP_INDEX", 1831);
  ("ER_FK_COLUMN_CANNOT_CHANGE", 1832);
  ("ER_FK_COLUMN_CANNOT_CHANGE_CHILD", 1833);
  ("ER_FK_CANNOT_DELETE_PARENT", 1834);
  ("ER_MALFORMED_PACKET", 1835);
  ("ER_READ_ONLY_MODE", 1836);
  ("ER_GTID_NEXT_TYPE_UNDEFINED_GROUP", 1837);
  ("ER_VARIABLE_NOT_SETTABLE_IN_SP", 1838);
  ("ER_CANT_SET_GTID_PURGED_WHEN_GTID_MODE_IS_OFF", 1839);
  ("ER_CANT_SET_GTID_PURGED_WHEN_GTID_EXECUTED_IS_NOT_EMPTY", 1840);
  ("ER_CANT_SET_GTID_PURGED_WHEN_OWNED_GTIDS_IS_NOT_EMPTY", 1841);
  ("ER_GTID_PURGED_WAS_CHANGED", 1842);
  ("ER_GTID_EXECUTED_WAS_CHANGED", 1843);
  ("ER_BINLOG_STMT_MODE_AND_NO_REPL_TABLES", 1844);
  ("ER_ALTER_OPERATION_NOT_SUPPORTED", 1845);
  ("ER_ALTER_OPERATION_NOT_SUPPORTED_REASON", 1846);
  ("ER_ALTER_OPERATION_NOT_SUPPORTED_REASON_COPY", 1847);
  ("ER_ALTER_OPERATION_NOT_SUPPORTED_REASON_PARTITION", 1848);
  ("ER_ALTER_OPERATION_NOT_SUPPORTED_REASON_FK_RENAME", 1849);
  ("ER_ALTER_OPERATION_NOT_SUPPORTED_REASON_COLUMN_TYPE", 1850);
  ("ER_ALTER_OPERATION_NOT_SUPPORTED_REASON_FK_CHECK", 1851);
  ("ER_ALTER_OPERATION_NOT_SUPPORTED_REASON_IGNORE", 1852);
  ("ER_ALTER_OPERATION_NOT_SUPPORTED_REASON_NOPK", 1853);
  ("ER_ALTER_OPERATION_NOT_SUPPORTED_REASON_AUTOINC", 1854);
  ("ER_ALTER_OPERATION_NOT_SUPPORTED_REASON_HIDDEN_FTS", 1855);
  ("ER_ALTER_OPERATION_NOT_SUPPORTED_REASON_CHANGE_FTS", 1856);
  ("ER_ALTER_OPERATION_NOT_SUPPORTED_REASON_FTS", 1857);
  ("ER_SQL_SLAVE_SKIP_COUNTER_NOT_SETTABLE_IN_GTID_MODE", 1858);
  ("ER_DUP_UNKNOWN_IN_INDEX", 1859);
  ("ER_IDENT_CAUSES_TOO_LONG_PATH", 1860);
  ("ER_ALTER_OPERATION_NOT_SUPPORTED_REASON_NOT_NULL", 1861);
  ("ER_MUST_CHANGE_PASSWORD_LOGIN", 1862);
  ("ER_ROW_IN_WRONG_PARTITION", 1863);
  ("ER_MTS_EVENT_BIGGER_PENDING_JOBS_SIZE_MAX", 1864);
  ("ER_INNODB_NO_FT_USES_PARSER", 1865);
  ("ER_BINLOG_LOGICAL_CORRUPTION", 1866);
  ("ER_WARN_PURGE_LOG_IN_USE", 1867);
  ("ER_WARN_PURGE_LOG_IS_ACTIVE", 1868);
  ("ER_AUTO_INCREMENT_CONFLICT", 1869);
  ("WARN_ON_BLOCKHOLE_IN_RBR", 1870);
  ("ER_SLAVE_MI_INIT_REPOSITORY", 1871);
  ("ER_SLAVE_RLI_INIT_REPOSITORY", 1872);
  ("ER_ACCESS_DENIED_CHANGE_USER_ERROR", 1873);
  ("ER_INNODB_READ_ONLY", 1874);
  ("ER_STOP_SLAVE_SQL_THREAD_TIMEOUT", 1875);
  ("ER_STOP_SLAVE_IO_THREAD_TIMEOUT", 1876);
  ("ER_TABLE_CORRUPT", 1877);
  ("ER_TEMP_FILE_WRITE_FAILURE", 1878);
  ("ER_INNODB_FT_AUX_NOT_HEX_ID", 1879);
  ("ER_LAST_MYSQL_ERROR_MESSAGE", 1880);
  ("ER_ERROR_LAST_SECTION_1", 1880)].

Definition error_codes_7 : list (string * Z) := [
  ("ER_ERROR_FIRST_SECTION_2", 1900);
  ("ER_UNUSED_18", 1900);
  ("ER_GENERATED_COLUMN_FUNCTION_IS_NOT_ALLOWED", 1901);
  ("ER_UNUSED_19", 1902);
  ("ER_PRIMARY_KEY_BASED_ON_GENERATED_COLUMN", 1903);
  ("ER_KEY_BASED_ON_GENERATED_VIRTUAL_COLUMN", 1904);
  ("ER_WRONG_FK_OPTION_FOR_GENERATED_COLUMN", 1905);
  ("ER_WARNING_NON_DEFAULT_VALUE_FOR_GENERATED_COLUMN", 1906);
  ("ER_UNSUPPORTED_ACTION_ON_GENERATED_COLUMN", 1907);
  ("ER_UNUSED_20", 1908);
  ("ER_UNUSED_21", 1909);
  ("ER_UNSUPPORTED_ENGINE_FOR_GENERATED_COLUMNS", 1910);
  ("ER_UNKNOWN_OPTION", 1911);
  ("ER_BAD_OPTION_VALUE", 1912);
  ("ER_UNUSED_6", 1913);
  ("ER_UNUSED_7", 1914);
  ("ER_UNUSED_8", 1915);
  ("ER_DATA_OVERFLOW", 1916);
  ("ER_DATA_TRUNCATED", 1917);
  ("ER_BAD_DATA", 1918);
  ("ER_DYN_COL_WRONG_FORMAT", 1919);
  ("ER_DYN_COL_IMPLEMENTATION_LIMIT", 1920);
  ("ER_DYN_COL_DATA", 1921);
  ("ER_DYN_COL_WRONG_CHARSET", 1922);
  ("ER_ILLEGAL_SUBQUERY_OPTIMIZER_SWITCHES", 1923);
  ("ER_QUERY_CACHE_IS_DISABLED", 1924);
  ("ER_QUERY_CACHE_IS_GLOBALY_DISABLED", 1925);
  ("ER_VIEW_ORDERBY_IGNORED", 1926);
  ("ER_CONNECTION_KILLED", 1927);
  ("ER_UNUSED_12", 1928);
  ("ER_INSIDE_TRANSACTION_PREVENTS_SWITCH_SKIP_REPLICATION", 1929);
  ("ER_STORED_FUNCTION_PREVENTS_SWITCH_SKIP_REPLICATION", 1930);
  ("ER_QUERY_RESULT_INCOMPLETE", 1931);
  ("ER_NO_SUCH_TABLE_IN_ENGINE", 1932);
  ("ER_TARGET_NOT_EXPLAINABLE", 1933);
  ("ER_CONNECTION_ALREADY_EXISTS", 1934);
  ("ER_MASTER_LOG_PREFIX", 1935);
  ("ER_CANT_START_STOP_SLAVE", 1936);
  ("ER_SLAVE_STARTED", 1937);
  ("ER_SLAVE_STOPPED", 1938);
  ("ER_SQL_DISCOVER_ERROR", 1939);
  ("ER_FAILED_GTID_STATE_INIT", 1940);
  ("ER_INCORRECT_GTID_STATE", 1941);
  ("ER_CANNOT_UPDATE_GTID_STATE", 1942);
  ("ER_DUPLICATE_GTID_DOMAIN", 1943);
  ("ER_GTID_OPEN_TABLE_FAILED", 1944);
  ("ER_GTID_POSITION_NOT_FOUND_IN_BINLOG", 1945);
  ("ER_CANNOT_LOAD_SLAVE_GTID_STATE", 1946);
  ("ER_MASTER_GTID_POS_CONFLICTS_WITH_BINLOG", 1947);
  ("ER_MASTER_GTID_POS_MISSING_DOMAIN", 1948);
  ("ER_UNTIL_REQUIRES_USING_GTID", 1949);
  ("ER_GTID_STRICT_OUT_OF_ORDER", 1950);
  ("ER_GTID_START_FROM_BINLOG_HOLE", 1951);
  ("ER_SLAVE_UNEXPECTED_MASTER_SWITCH", 1952);
  ("ER_INSIDE_TRANSACTION_PREVENTS_SWITCH_GTID_DOMAIN_ID_SEQ_NO", 1953);
  ("ER_STORED_FUNCTION_PREVENTS_SWITCH_GTID_DOMAIN_ID_SEQ_NO", 1954);
  ("ER_GTID_POSITION_NOT_FOUND_IN_BINLOG2", 1955);
  ("ER_BINLOG_MUST_BE_EMPTY", 1956);
  ("ER_NO_SUCH_QUERY", 1957);
  ("ER_BAD_BASE64_DATA", 1958);
  ("ER_INVALID_ROLE", 1959);
  ("ER_INVALID_CURRENT_USER", 1960);
  ("ER_CANNOT_GRANT_ROLE", 1961);
  ("ER_CANNOT_REVOKE_ROLE", 1962);
  ("ER_CHANGE_SLAVE_PARALLEL_THREADS_ACTIVE", 1963);
  ("ER_PRIOR_COMMIT_FAILED", 1964);
  ("ER_IT_IS_A_VIEW", 1965);
  ("ER_SLAVE_SKIP_NOT_IN_GTID", 1966);
  ("ER_TABLE_DEFINITION_TOO_BIG", 1967);
  ("ER_PLUGIN_INSTALLED", 1968);
  ("ER_STATEMENT_TIMEOUT", 1969);
  ("ER_SUBQUERIES_NOT_SUPPORTED", 1970);
  ("ER_SET_STATEMENT_NOT_SUPPORTED", 1971);
  ("ER_UNUSED_9", 1972);
  ("ER_USER_CREATE_EXISTS", 1973);
  ("ER_USER_DROP_EXISTS", 1974);
  ("ER_ROLE_CREATE_EXISTS", 1975);
  ("ER_ROLE_DROP_EXISTS", 1976);
  ("ER_CANNOT_CONVERT_CHARACTER", 1977);
  ("ER_INVALID_DEFAULT_VALUE_FOR_FIELD", 1978);
  ("ER_KILL_QUERY_DENIED_ERROR", 1979);
  ("ER_NO_EIS_FOR_FIELD", 1980);
  ("ER_WARN_AGGFUNC_DEPENDENCE", 1981);
  ("WARN_INNODB_PARTITION_OPTION_IGNORED", 1982);
  ("ER_ERROR_LAST_SECTION_2", 1982)].

Definition error_codes_8 : list (string * Z) := [
  ("ER_ERROR_FIRST_SECTION_3", 2000);
  ("ER_ERROR_LAST_SECTION_3", 2000);
  ("ER_ERROR_FIRST_SECTION_4", 3000);
  ("ER_FILE_CORRUPT", 3000);
  ("ER_ERROR_ON_MASTER", 3001);
  ("ER_INCONSISTENT_ERROR", 3002);
  ("ER_STORAGE_ENGINE_NOT_LOADED", 3003);
  ("ER_GET_STACKED_DA_WITHOUT_ACTIVE_HANDLER", 3004);
  ("ER_WARN_LEGACY_SYNTAX_CONVERTED", 3005);
  ("ER_BINLOG_UNSAFE_FULLTEXT_PLUGIN", 3006);
  ("ER_CANNOT_DISCARD_TEMPORARY_TABLE", 3007);
  ("ER_FK_DEPTH_EXCEEDED", 3008);
  ("ER_COL_COUNT_DOESNT_MATCH_PLEASE_UPDATE_V2", 3009);
  ("ER_WARN_TRIGGER_DOESNT_HAVE_CREATED", 3010);
  ("ER_REFERENCED_TRG_DOES_NOT_EXIST_MYSQL", 3011);
  ("ER_EXPLAIN_NOT_SUPPORTED", 3012);
  ("ER_INVALID_FIELD_SIZE", 3013);
  ("ER_MISSING_HA_CREATE_OPTION", 3014);
  ("ER_ENGINE_OUT_OF_MEMORY", 3015);
  ("ER_PASSWORD_EXPIRE_ANONYMOUS_USER", 3016);
  ("ER_SLAVE_SQL_THREAD_MUST_STOP", 3017);
  ("ER_NO_FT_MATERIALIZED_SUBQUERY", 3018);
  ("ER_INNODB_UNDO_LOG_FULL", 3019);
  ("ER_INVALID_ARGUMENT_FOR_LOGARITHM", 3020);
  ("ER_SLAVE_CHANNEL_IO_THREAD_MUST_STOP", 3021);
  ("ER_WARN_OPEN_TEMP_TABLES_MUST_BE_ZERO", 3022);
  ("ER_WARN_ONLY_MASTER_LOG_FILE_NO_POS", 3023);
  ("ER_UNUSED_1", 3024);
  ("ER_NON_RO_SELECT_DISABLE_TIMER", 3025);
  ("ER_DUP_LIST_ENTRY", 3026);
  ("ER_SQL_MODE_NO_EFFECT", 3027);
  ("ER_AGGREGATE_ORDER_FOR_UNION", 3028);
  ("ER_AGGREGATE_ORDER_NON_AGG_QUERY", 3029);
  ("ER_SLAVE_WORKER_STOPPED_PREVIOUS_THD_ERROR", 3030);
  ("ER_DONT_SUPPORT_SLAVE_PRESERVE_COMMIT_ORDER", 3031);
  ("ER_SERVER_OFFLINE_MODE", 3032);
  ("ER_GIS_DIFFERENT_SRIDS", 3033);
  ("ER_GIS_UNSUPPORTED_ARGUMENT", 3034);
  ("ER_GIS_UNKNOWN_ERROR", 3035);
  ("ER_GIS_UNKNOWN_EXCEPTION", 3036);
  ("ER_GIS_INVALID_DATA", 3037);
  ("ER_BOOST_GEOMETRY_EMPTY_INPUT_EXCEPTION", 3038);
  ("ER_BOOST_GEOMETRY_CENTROID_EXCEPTION", 3039);
  ("ER_BOOST_GEOMETRY_OVERLAY_INVALID_INPUT_EXCEPTION", 3040);
  ("ER_BOOST_GEOMETRY_TURN_INFO_EXCEPTION", 3041);
  ("ER_BOOST_GEOMETRY_SELF_INTERSECTION_POINT_EXCEPTION", 3042);
  ("ER_BOOST_GEOMETRY_UNKNOWN_EXCEPTION", 3043);
  ("ER_STD_BAD_ALLOC_ERROR", 3044);
  ("ER_STD_DOMAIN_ERROR", 3045);
  ("ER_STD_LENGTH_ERROR", 3046);
  ("ER_STD_INVALID_ARGUMENT", 3047);
  ("ER_STD_OUT_OF_RANGE_ERROR", 3048);
  ("ER_STD_OVERFLOW_ERROR", 3049);
  ("ER_STD_RANGE_ERROR", 3050);
  ("ER_STD_UNDERFLOW_ERROR", 3051);
  ("ER_STD_LOGIC_ERROR", 3052);
  ("ER_STD_RUNTIME_ERROR", 3053);
  ("ER_STD_UNKNOWN_EXCEPTION", 3054);
  ("ER_GIS_DATA_WRONG_ENDIANESS", 3055);
  ("ER_CHANGE_MASTER_PASSWORD_LENGTH", 3056);
  ("ER_USER_LOCK_WRONG_NAME", 3057);
  ("ER_USER_LOCK_DEADLOCK", 3058);
  ("ER_REPLACE_INACCESSIBLE_ROWS", 3059);
  ("ER_ALTER_OPERATION_NOT_SUPPORTED_REASON_GIS", 3060);
  ("ER_ERROR_LAST_SECTION_4", 3060)].

Definition error_codes_9 : list (string * Z) := [
  ("ER_ERROR_FIRST_SECTION_5", 4000);
  ("ER_UNUSED_26", 4000);
  ("ER_UNUSED_27", 4001);
  ("ER_WITH_COL_WRONG_LIST", 4002);
  ("ER_TOO_MANY_DEFINITIONS_IN_WITH_CLAUSE", 4003);
  ("ER_DUP_QUERY_NAME", 4004);
  ("ER_RECURSIVE_WITHOUT_ANCHORS", 4005);
  ("ER_UNACCEPTABLE_MUTUAL_RECURSION", 4006);
  ("ER_REF_TO_RECURSIVE_WITH_TABLE_IN_DERIVED", 4007);
  ("ER_NOT_STANDARD_COMPLIANT_RECURSIVE", 4008);
  ("ER_WRONG_WINDOW_SPEC_NAME", 4009);
  ("ER_DUP_WINDOW_NAME", 4010);
  ("ER_PARTITION_LIST_IN_REFERENCING_WINDOW_SPEC", 4011);
  ("ER_ORDER_LIST_IN_REFERENCING_WINDOW_SPEC", 4012);
  ("ER_WINDOW_FRAME_IN_REFERENCED_WINDOW_SPEC", 4013);
  ("ER_BAD_COMBINATION_OF_WINDOW_FRAME_BOUND_SPECS", 4014);
  ("ER_WRONG_PLACEMENT_OF_WINDOW_FUNCTION", 4015);
  ("ER_WINDOW_FUNCTION_IN_WINDOW_SPEC", 4016);
  ("ER_NOT_ALLOWED_WINDOW_FRAME", 4017);
  ("ER_NO_ORDER_LIST_IN_WINDOW_SPEC", 4018);
  ("ER_RANGE_FRAME_NEEDS_SIMPLE_ORDERBY", 4019);
  ("ER_WRONG_TYPE_FOR_ROWS_FRAME", 4020);
  ("ER_WRONG_TYPE_FOR_RANGE_FRAME", 4021);
  ("ER_FRAME_EXCLUSION_NOT_SUPPORTED", 4022);
  ("ER_WINDOW_FUNCTION_DONT_HAVE_FRAME", 4023);
  ("ER_INVALID_NTILE_ARGUMENT", 4024);
  ("ER_CONSTRAINT_FAILED", 4025);
  ("ER_EXPRESSION_IS_TOO_BIG", 4026);
  ("ER_ERROR_EVALUATING_EXPRESSION", 4027);
  ("ER_CALCULATING_DEFAULT_VALUE", 4028);
  ("ER_EXPRESSION_REFERS_TO_UNINIT_FIELD", 4029);
  ("ER_PARTITION_DEFAULT_ERROR", 4030);
  ("ER_REFERENCED_TRG_DOES_NOT_EXIST", 4031);
  ("ER_INVALID_DEFAULT_PARAM", 4032);
  ("ER_BINLOG_NON_SUPPORTED_BULK", 4033);
  ("ER_BINLOG_UNCOMPRESS_ERROR", 4034);
  ("ER_JSON_BAD_CHR", 4035);
  ("ER_JSON_NOT_JSON_CHR", 4036);
  ("ER_JSON_EOS", 4037);
  ("ER_JSON_SYNTAX", 4038);
  ("ER_JSON_ESCAPING", 4039);
  ("ER_JSON_DEPTH", 4040);
  ("ER_JSON_PATH_EOS", 4041);
  ("ER_JSON_PATH_SYNTAX", 4042);
  ("ER_JSON_PATH_DEPTH", 4043);
  ("ER_JSON_PATH_NO_WILDCARD", 4044);
  ("ER_JSON_PATH_ARRAY", 4045);
  ("ER_JSON_ONE_OR_ALL", 4046);
  ("ER_UNSUPPORTED_COMPRESSED_TABLE", 4047);
  ("ER_GEOJSON_INCORRECT", 4048);
  ("ER_GEOJSON_TOO_FEW_POINTS", 4049);
  ("ER_GEOJSON_NOT_CLOSED", 4050);
  ("ER_JSON_PATH_EMPTY", 4051);
  ("ER_SLAVE_SAME_ID", 4052);
  ("ER_FLASHBACK_NOT_SUPPORTED", 4053);
  ("ER_KEYS_OUT_OF_ORDER", 4054);
  ("ER_OVERLAPPING_KEYS", 4055);
  ("ER_REQUIRE_ROW_BINLOG_FORMAT", 4056);
  ("ER_ISOLATION_MODE_NOT_SUPPORTED", 4057);
  ("ER_ON_DUPLICATE_DISABLED", 4058);
  ("ER_UPDATES_WITH_CONSISTENT_SNAPSHOT", 4059);
  ("ER_ROLLBACK_ONLY", 4060);
  ("ER_ROLLBACK_TO_SAVEPOINT", 4061);
  ("ER_ISOLATION_LEVEL_WITH_CONSISTENT_SNAPSHOT", 4062);
  ("ER_UNSUPPORTED_COLLATION", 4063);
  ("ER_METADATA_INCONSISTENCY", 4064);
  ("ER_CF_DIFFERENT", 4065);
  ("ER_RDB_TTL_DURATION_FORMAT", 4066);
  ("ER_RDB_STATUS_GENERAL", 4067);
  ("ER_RDB_STATUS_MSG", 4068);
  ("ER_RDB_TTL_UNSUPPORTED", 4069);
  ("ER_RDB_TTL_COL_FORMAT", 4070);
  ("ER_PER_INDEX_CF_DEPRECATED", 4071);
  ("ER_KEY_CREATE_DURING_ALTER", 4072);
  ("ER_SK_POPULATE_DURING_ALTER", 4073);
  ("ER_SUM_FUNC_WITH_WINDOW_FUNC_AS_ARG", 4074);
  ("ER_NET_OK_PACKET_TOO_LARGE", 4075);
  ("ER_GEOJSON_EMPTY_COORDINATES", 4076);
  ("ER_MYROCKS_CANT_NOPAD_COLLATION", 4077);
  ("ER_ILLEGAL_PARAMETER_DATA_TYPES2_FOR_OPERATION", 4078);
  ("ER_ILLEGAL_PARAMETER_DATA_TYPE_FOR_OPERATION", 4079);
  ("ER_WRONG_PARAMCOUNT_TO_CURSOR", 4080);
  ("ER_UNKNOWN_STRUCTURED_VARIABLE", 4081);
  ("ER_ROW_VARIABLE_DOES_NOT_HAVE_FIELD", 4082);
  ("ER_END_IDENTIFIER_DOES_NOT_MATCH", 4083);
  ("ER_SEQUENCE_RUN_OUT", 4084);
  ("ER_SEQUENCE_INVALID_DATA", 4085);
  ("ER_SEQUENCE_INVALID_TABLE_STRUCTURE", 4086);
  ("ER_SEQUENCE_ACCESS_ERROR", 4087);
  ("ER_SEQUENCE_BINLOG_FORMAT", 4088);
  ("ER_NOT_SEQUENCE", 4089);
  ("ER_NOT_SEQUENCE2", 4090);
  ("ER_UNKNOWN_SEQUENCES", 4091);
  ("ER_UNKNOWN_VIEW", 4092);
  ("ER_WRONG_INSERT_INTO_SEQUENCE", 4093);
  ("ER_SP_STACK_TRACE", 4094);
  ("ER_PACKAGE_ROUTINE_IN_SPEC_NOT_DEFINED_IN_BODY", 4095)].

Definition error_codes_10 : list (string * Z) := [
  ("ER_PACKAGE_ROUTINE_FORWARD_DECLARATION_NOT_DEFINED", 4096);
  ("ER_COMPRESSED_COLUMN_USED_AS_KEY", 4097);
  ("ER_UNKNOWN_COMPRESSION_METHOD", 4098);
  ("ER_WRONG_NUMBER_OF_VALUES_IN_TVC", 4099);
  ("ER_FIELD_REFERENCE_IN_TVC", 4100);
  ("ER_WRONG_TYPE_FOR_PERCENTILE_FUNC", 4101);
  ("ER_ARGUMENT_NOT_CONSTANT", 4102);
  ("ER_ARGUMENT_OUT_OF_RANGE", 4103);
  ("ER_WRONG_TYPE_OF_ARGUMENT", 4104);
  ("ER_NOT_AGGREGATE_FUNCTION", 4105);
  ("ER_INVALID_AGGREGATE_FUNCTION", 4106);
  ("ER_INVALID_VALUE_TO_LIMIT", 4107);
  ("ER_INVISIBLE_NOT_NULL_WITHOUT_DEFAULT", 4108);
  ("ER_UPDATE_INFO_WITH_SYSTEM_VERSIONING", 4109);
  ("ER_VERS_FIELD_WRONG_TYPE", 4110);
  ("ER_VERS_ENGINE_UNSUPPORTED", 4111);
  ("ER_UNUSED_23", 4112);
  ("ER_PARTITION_WRONG_TYPE", 4113);
  ("WARN_VERS_PART_FULL", 4114);
  ("WARN_VERS_PARAMETERS", 4115);
  ("ER_VERS_DROP_PARTITION_INTERVAL", 4116);
  ("ER_UNUSED_25", 4117);
  ("WARN_VERS_PART_NON_HISTORICAL", 4118);
  ("ER_VERS_ALTER_NOT_ALLOWED", 4119);
  ("ER_VERS_ALTER_ENGINE_PROHIBITED", 4120);
  ("ER_VERS_RANGE_PROHIBITED", 4121);
  ("ER_CONFLICTING_FOR_SYSTEM_TIME", 4122);
  ("ER_VERS_TABLE_MUST_HAVE_COLUMNS", 4123);
  ("ER_VERS_NOT_VERSIONED", 4124);
  ("ER_MISSING", 4125);
  ("ER_VERS_PERIOD_COLUMNS", 4126);
  ("ER_PART_WRONG_VALUE", 4127);
  ("ER_VERS_WRONG_PARTS", 4128);
  ("ER_VERS_NO_TRX_ID", 4129);
  ("ER_VERS_ALTER_SYSTEM_FIELD", 4130);
  ("ER_DROP_VERSIONING_SYSTEM_TIME_PARTITION", 4131);
  ("ER_VERS_DB_NOT_SUPPORTED", 4132);
  ("ER_VERS_TRT_IS_DISABLED", 4133);
  ("ER_VERS_DUPLICATE_ROW_START_END", 4134);
  ("ER_VERS_ALREADY_VERSIONED", 4135);
  ("ER_UNUSED_24", 4136);
  ("ER_VERS_NOT_SUPPORTED", 4137);
  ("ER_VERS_TRX_PART_HISTORIC_ROW_NOT_SUPPORTED", 4138);
  ("ER_INDEX_FILE_FULL", 4139);
  ("ER_UPDATED_COLUMN_ONLY_ONCE", 4140);
  ("ER_EMPTY_ROW_IN_TVC", 4141);
  ("ER_VERS_QUERY_IN_PARTITION", 4142);
  ("ER_KEY_DOESNT_SUPPORT", 4143);
  ("ER_ALTER_OPERATION_TABLE_OPTIONS_NEED_REBUILD", 4144);
  ("ER_BACKUP_LOCK_IS_ACTIVE", 4145);
  ("ER_BACKUP_NOT_RUNNING", 4146);
  ("ER_BACKUP_WRONG_STAGE", 4147);
  ("ER_BACKUP_STAGE_FAILED", 4148);
  ("ER_BACKUP_UNKNOWN_STAGE", 4149);
  ("ER_USER_IS_BLOCKED", 4150);
  ("ER_ACCOUNT_HAS_BEEN_LOCKED", 4151);
  ("ER_PERIOD_TEMPORARY_NOT_ALLOWED", 4152);
  ("ER_PERIOD_TYPES_MISMATCH", 4153);
  ("ER_MORE_THAN_ONE_PERIOD", 4154);
  ("ER_PERIOD_FIELD_WRONG_ATTRIBUTES", 4155);
  ("ER_PERIOD_NOT_FOUND", 4156);
  ("ER_PERIOD_COLUMNS_UPDATED", 4157);
  ("ER_PERIOD_CONSTRAINT_DROP", 4158);
  ("ER_TOO_LONG_KEYPART", 4159);
  ("ER_TOO_LONG_DATABASE_COMMENT", 4160);
  ("ER_UNKNOWN_DATA_TYPE", 4161);
  ("ER_UNKNOWN_OPERATOR", 4162);
  ("ER_UNUSED_29", 4163);
  ("ER_PART_STARTS_BEYOND_INTERVAL", 4164);
  ("ER_GALERA_REPLICATION_NOT_SUPPORTED", 4165);
  ("ER_LOAD_INFILE_CAPABILITY_DISABLED", 4166);
  ("ER_NO_SECURE_TRANSPORTS_CONFIGURED", 4167);
  ("ER_SLAVE_IGNORED_SHARED_TABLE", 4168);
  ("ER_NO_AUTOINCREMENT_WITH_UNIQUE", 4169);
  ("ER_KEY_CONTAINS_PERIOD_FIELDS", 4170);
  ("ER_KEY_CANT_HAVE_WITHOUT_OVERLAPS", 4171);
  ("ER_NOT_ALLOWED_IN_THIS_CONTEXT", 4172);
  ("ER_DATA_WAS_COMMITED_UNDER_ROLLBACK", 4173);
  ("ER_PK_INDEX_CANT_BE_IGNORED", 4174);
  ("ER_BINLOG_UNSAFE_SKIP_LOCKED", 4175);
  ("ER_JSON_TABLE_ERROR_ON_FIELD", 4176);
  ("ER_JSON_TABLE_ALIAS_REQUIRED", 4177);
  ("ER_JSON_TABLE_SCALAR_EXPECTED", 4178);
  ("ER_JSON_TABLE_MULTIPLE_MATCHES", 4179);
  ("ER_WITH_TIES_NEEDS_ORDER", 4180);
  ("ER_REMOVED_ORPHAN_TRIGGER", 4181);
  ("ER_STORAGE_ENGINE_DISABLED", 4182);
  ("WARN_SFORMAT_ERROR", 4183);
  ("ER_PARTITION_CONVERT_SUBPARTITIONED", 4184);
  ("ER_PROVIDER_NOT_LOADED", 4185);
  ("ER_JSON_HISTOGRAM_PARSE_FAILED", 4186);
  ("ER_SF_OUT_INOUT_ARG_NOT_ALLOWED", 4187);
  ("ER_INCONSISTENT_SLAVE_TEMP_TABLE", 4188);
  ("ER_VERS_HIST_PART_FAILED", 4189);
  ("WARN_OPTION_CHANGING", 4190);
  ("ER_CM_OPTION_MISSING_REQUIREMENT", 4191);
  ("ER_SLAVE_STATEMENT_TIMEOUT", 4192);
  ("ER_ERROR_LAST", 4192)].

Definition error_codes : list (string * Z) :=
  error_codes_1 ++
  error_codes_2 ++
  error_codes_3 ++
  error_codes_4 ++
  error_codes_5 ++
  error_codes_6 ++
  error_codes_7 ++
  error_codes_8 ++
  error_codes_9 ++
  error_codes_10.

Definition sql_states_1 : list (string * string * string) := [
  ("ER_DUP_KEY", "23000", "");
  ("ER_OUTOFMEMORY", "HY001", "S1001");
  ("ER_OUT_OF_SORTMEMORY", "HY001", "S1001");
  ("ER_CON_COUNT_ERROR", "08004", "");
  ("ER_BAD_HOST_ERROR", "08S01", "");
  ("ER_HANDSHAKE_ERROR", "08S01", "");
  ("ER_DBACCESS_DENIED_ERROR", "42000", "");
  ("ER_ACCESS_DENIED_ERROR", "28000", "");
  ("ER_NO_DB_ERROR", "3D000", "");
  ("ER_UNKNOWN_COM_ERROR", "08S01", "");
  ("ER_BAD_NULL_ERROR", "23000", "");
  ("ER_BAD_DB_ERROR", "42000", "");
  ("ER_TABLE_EXISTS_ERROR", "42S01", "");
  ("ER_BAD_TABLE_ERROR", "42S02", "");
  ("ER_NON_UNIQ_ERROR", "23000", "");
  ("ER_SERVER_SHUTDOWN", "08S01", "");
  ("ER_BAD_FIELD_ERROR", "42S22", "S0022");
  ("ER_WRONG_FIELD_WITH_GROUP", "42000", "S1009");
  ("ER_WRONG_GROUP_FIELD", "42000", "S1009");
  ("ER_WRONG_SUM_SELECT", "42000", "S1009");
  ("ER_WRONG_VALUE_COUNT", "21S01", "");
  ("ER_TOO_LONG_IDENT", "42000", "S1009");
  ("ER_DUP_FIELDNAME", "42S21", "S1009");
  ("ER_DUP_KEYNAME", "42000", "S1009");
  ("ER_DUP_ENTRY", "23000", "S1009");
  ("ER_WRONG_FIELD_SPEC", "42000", "S1009");
  ("ER_PARSE_ERROR", "42000", "s1009");
  ("ER_EMPTY_QUERY", "42000", "");
  ("ER_NONUNIQ_TABLE", "42000", "S1009");
  ("ER_INVALID_DEFAULT", "42000", "S1009");
  ("ER_MULTIPLE_PRI_KEY", "42000", "S1009");
  ("ER_TOO_MANY_KEYS", "42000", "S1009");
  ("ER_TOO_MANY_KEY_PARTS", "42000", "S1009");
  ("ER_TOO_LONG_KEY", "42000", "S1009");
  ("ER_KEY_COLUMN_DOES_NOT_EXIST", "42000", "S1009");
  ("ER_BLOB_USED_AS_KEY", "42000", "S1009");
  ("ER_TOO_BIG_FIELDLENGTH", "42000", "S1009");
  ("ER_WRONG_AUTO_KEY", "42000", "S1009");
  ("ER_FORCING_CLOSE", "08S01", "");
  ("ER_IPSOCK_ERROR", "08S01", "");
  ("ER_NO_SUCH_INDEX", "42S12", "S1009");
  ("ER_WRONG_FIELD_TERMINATORS", "42000", "S1009");
  ("ER_BLOBS_AND_NO_TERMINATED", "42000", "S1009");
  ("ER_CANT_REMOVE_ALL_FIELDS", "42000", "");
  ("ER_CANT_DROP_FIELD_OR_KEY", "42000", "");
  ("ER_WRONG_DB_NAME", "42000", "");
  ("ER_WRONG_TABLE_NAME", "42000", "");
  ("ER_TOO_BIG_SELECT", "42000", "");
  ("ER_UNKNOWN_PROCEDURE", "42000", "");
  ("ER_WRONG_PARAMCOUNT_TO_PROCEDURE", "42000", "");
  ("ER_UNKNOWN_TABLE", "42S02", "");
  ("ER_FIELD_SPECIFIED_TWICE", "42000", "");
  ("ER_UNSUPPORTED_EXTENSION", "42000", "");
  ("ER_TABLE_MUST_HAVE_COLUMNS", "42000", "");
  ("ER_UNKNOWN_CHARACTER_SET", "42000", "");
  ("ER_TOO_BIG_ROWSIZE", "42000", "");
  ("ER_WRONG_OUTER_JOIN", "42000", "");
  ("ER_NULL_COLUMN_IN_INDEX", "42000", "");
  ("ER_PASSWORD_ANONYMOUS_USER", "42000", "");
  ("ER_PASSWORD_NOT_ALLOWED", "42000", "");
  ("ER_PASSWORD_NO_MATCH", "28000", "");
  ("ER_WRONG_VALUE_COUNT_ON_ROW", "21S01", "");
  ("ER_INVALID_USE_OF_NULL", "22004", "");
  ("ER_REGEXP_ERROR", "42000", "");
  ("ER_MIX_OF_GROUP_FUNC_AND_FIELDS", "42000", "");
  ("ER_NONEXISTING_GRANT", "42000", "");
  ("ER_TABLEACCESS_DENIED_ERROR", "42000", "");
  ("ER_COLUMNACCESS_DENIED_ERROR", "42000", "");
  ("ER_ILLEGAL_GRANT_FOR_TABLE", "42000", "");
  ("ER_GRANT_WRONG_HOST_OR_USER", "42000", "");
  ("ER_NO_SUCH_TABLE", "42S02", "");
  ("ER_NONEXISTING_TABLE_GRANT", "42000", "");
  ("ER_NOT_ALLOWED_COMMAND", "42000", "");
  ("ER_SYNTAX_ERROR", "42000", "");
  ("ER_ABORTING_CONNECTION", "08S01", "");
  ("ER_NET_PACKET_TOO_LARGE", "08S01", "");
  ("ER_NET_READ_ERROR_FROM_PIPE", "08S01", "");
  ("ER_NET_FCNTL_ERROR", "08S01", "");
  ("ER_NET_PACKETS_OUT_OF_ORDER", "08S01", "");
  ("ER_NET_UNCOMPRESS_ERROR", "08S01", "");
  ("ER_NET_READ_ERROR", "08S01", "");
  ("ER_NET_READ_INTERRUPTED", "08S01", "");
  ("ER_NET_ERROR_ON_WRITE", "08S01", "");
  ("ER_NET_WRITE_INTERRUPTED", "08S01", "");
  ("ER_TOO_LONG_STRING", "42000", "");
  ("ER_TABLE_CANT_HANDLE_BLOB", "42000", "");
  ("ER_TABLE_CANT_HANDLE_AUTO_INCREMENT", "42000", "");
  ("ER_WRONG_COLUMN_NAME", "42000", "");
  ("ER_WRONG_KEY_COLUMN", "42000", "");
  ("ER_DUP_UNIQUE", "23000", "");
  ("ER_BLOB_KEY_WITHOUT_LENGTH", "42000", "");
  ("ER_PRIMARY_CANT_HAVE_NULL", "42000", "");
  ("ER_TOO_MANY_ROWS", "42000", "");
  ("ER_REQUIRES_PRIMARY_KEY", "42000", "");
  ("ER_KEY_DOES_NOT_EXISTS", "42000", "S1009");
  ("ER_CHECK_NO_SUCH_TABLE", "42000", "");
  ("ER_CHECK_NOT_IMPLEMENTED", "42000", "");
  ("ER_CANT_DO_THIS_DURING_AN_TRANSACTION", "25000", "");
  ("ER_NEW_ABORTING_CONNECTION", "08S01", "");
  ("ER_MASTER_NET_READ", "08S01", "");
  ("ER_MASTER_NET_WRITE", "08S01", "");
  ("ER_TOO_MANY_USER_CONNECTIONS", "42000", "");
  ("ER_READ_ONLY_TRANSACTION", "25000", "");
  ("ER_NO_PERMISSION_TO_CREATE_USER", "42000", "");
  ("ER_LOCK_DEADLOCK", "40001", "");
  ("ER_NO_REFERENCED_ROW", "23000", "");
  ("ER_ROW_IS_REFERENCED", "23000", "");
  ("ER_CONNECT_TO_MASTER", "08S01", "");
  ("ER_WRONG_NUMBER_OF_COLUMNS_IN_SELECT", "21000", "");
  ("ER_USER_LIMIT_REACHED", "42000", "");
  ("ER_SPECIFIC_ACCESS_DENIED_ERROR", "42000", "");
  ("ER_NO_DEFAULT", "42000", "");
  ("ER_WRONG_VALUE_FOR_VAR", "42000", "");
  ("ER_WRONG_TYPE_FOR_VAR", "42000", "");
  ("ER_CANT_USE_OPTION_HERE", "42000", "");
  ("ER_NOT_SUPPORTED_YET", "42000", "");
  ("ER_WRONG_FK_DEF", "42000", "");
  ("ER_OPERAND_COLUMNS", "21000", "");
  ("ER_SUBQUERY_NO_1_ROW", "21000", "");
  ("ER_ILLEGAL_REFERENCE", "42S22", "");
  ("ER_DERIVED_MUST_HAVE_ALIAS", "42000", "");
  ("ER_SELECT_REDUCED", "01000", "");
  ("ER_TABLENAME_NOT_ALLOWED_HERE", "42000", "");
  ("ER_NOT_SUPPORTED_AUTH_MODE", "08004", "");
  ("ER_SPATIAL_CANT_HAVE_NULL", "42000", "");
  ("ER_COLLATION_CHARSET_MISMATCH", "42000", "");
  ("ER_WARN_TOO_FEW_RECORDS", "01000", "");
  ("ER_WARN_TOO_MANY_RECORDS", "01000", "")].

Definition sql_states_2 : list (string * string * string) := [
  ("ER_WARN_NULL_TO_NOTNULL", "22004", "");
  ("ER_WARN_DATA_OUT_OF_RANGE", "22003", "");
  ("WARN_DATA_TRUNCATED", "01000", "");
  ("ER_WRONG_NAME_FOR_INDEX", "42000", "");
  ("ER_WRONG_NAME_FOR_CATALOG", "42000", "");
  ("ER_UNKNOWN_STORAGE_ENGINE", "42000", "");
  ("ER_TRUNCATED_WRONG_VALUE", "22007", "");
  ("ER_SP_NO_RECURSIVE_CREATE", "2F003", "");
  ("ER_SP_ALREADY_EXISTS", "42000", "");
  ("ER_SP_DOES_NOT_EXIST", "42000", "");
  ("ER_SP_LILABEL_MISMATCH", "42000", "");
  ("ER_SP_LABEL_REDEFINE", "42000", "");
  ("ER_SP_LABEL_MISMATCH", "42000", "");
  ("ER_SP_UNINIT_VAR", "01000", "");
  ("ER_SP_BADSELECT", "0A000", "");
  ("ER_SP_BADRETURN", "42000", "");
  ("ER_SP_BADSTATEMENT", "0A000", "");
  ("ER_UPDATE_LOG_DEPRECATED_IGNORED", "42000", "");
  ("ER_UPDATE_LOG_DEPRECATED_TRANSLATED", "42000", "");
  ("ER_QUERY_INTERRUPTED", "70100", "");
  ("ER_SP_WRONG_NO_OF_ARGS", "42000", "");
  ("ER_SP_COND_MISMATCH", "42000", "");
  ("ER_SP_NORETURN", "42000", "");
  ("ER_SP_NORETURNEND", "2F005", "");
  ("ER_SP_BAD_CURSOR_QUERY", "42000", "");
  ("ER_SP_BAD_CURSOR_SELECT", "42000", "");
  ("ER_SP_CURSOR_MISMATCH", "42000", "");
  ("ER_SP_CURSOR_ALREADY_OPEN", "24000", "");
  ("ER_SP_CURSOR_NOT_OPEN", "24000", "");
  ("ER_SP_UNDECLARED_VAR", "42000", "");
  ("ER_SP_FETCH_NO_DATA", "02000", "");
  ("ER_SP_DUP_PARAM", "42000", "");
  ("ER_SP_DUP_VAR", "42000", "");
  ("ER_SP_DUP_COND", "42000", "");
  ("ER_SP_DUP_CURS", "42000", "");
  ("ER_SP_SUBSELECT_NYI", "0A000", "");
  ("ER_STMT_NOT_ALLOWED_IN_SF_OR_TRG", "0A000", "");
  ("ER_SP_VARCOND_AFTER_CURSHNDLR", "42000", "");
  ("ER_SP_CURSOR_AFTER_HANDLER", "42000", "");
  ("ER_SP_CASE_NOT_FOUND", "20000", "");
  ("ER_DIVISION_BY_ZERO", "22012", "");
  ("ER_TRUNCATED_WRONG_VALUE_FOR_FIELD", "22007", "");
  ("ER_ILLEGAL_VALUE_FOR_TYPE", "22007", "");
  ("ER_VIEW_CHECK_FAILED", "44000", "");
  ("ER_PROCACCESS_DENIED_ERROR", "42000", "");
  ("ER_XAER_NOTA", "XAE04", "");
  ("ER_XAER_INVAL", "XAE05", "");
  ("ER_XAER_RMFAIL", "XAE07", "");
  ("ER_XAER_OUTSIDE", "XAE09", "");
  ("ER_XAER_RMERR", "XAE03", "");
  ("ER_XA_RBROLLBACK", "XA100", "");
  ("ER_NONEXISTING_PROC_GRANT", "42000", "");
  ("ER_DATA_TOO_LONG", "22001", "");
  ("ER_SP_BAD_SQLSTATE", "42000", "");
  ("ER_CANT_CREATE_USER_WITH_GRANT", "42000", "");
  ("ER_SP_DUP_HANDLER", "42000", "");
  ("ER_SP_NOT_VAR_ARG", "42000", "");
  ("ER_SP_NO_RETSET", "0A000", "");
  ("ER_CANT_CREATE_GEOMETRY_OBJECT", "22003", "");
  ("ER_TOO_BIG_SCALE", "42000", "S1009");
  ("ER_TOO_BIG_PRECISION", "42000", "S1009");
  ("ER_M_BIGGER_THAN_D", "42000", "S1009");
  ("ER_TOO_LONG_BODY", "42000", "S1009");
  ("ER_TOO_BIG_DISPLAYWIDTH", "42000", "S1009");
  ("ER_XAER_DUPID", "XAE08", "");
  ("ER_DATETIME_FUNCTION_OVERFLOW", "22008", "");
  ("ER_MALFORMED_DEFINER", "0L000", "");
  ("ER_ROW_IS_REFERENCED_2", "23000", "");
  ("ER_NO_REFERENCED_ROW_2", "23000", "");
  ("ER_SP_BAD_VAR_SHADOW", "42000", "");
  ("ER_SP_WRONG_NAME", "42000", "");
  ("ER_SP_NO_AGGREGATE", "42000", "");
  ("ER_MAX_PREPARED_STMT_COUNT_REACHED", "42000", "");
  ("ER_NON_GROUPING_FIELD_USED", "42000", "");
  ("ER_CANT_CHANGE_TX_CHARACTERISTICS", "25001", "");
  ("ER_WRONG_PARAMCOUNT_TO_NATIVE_FCT", "42000", "");
  ("ER_WRONG_PARAMETERS_TO_NATIVE_FCT", "42000", "");
  ("ER_WRONG_PARAMETERS_TO_STORED_FCT", "42000", "");
  ("ER_DUP_ENTRY_WITH_KEY_NAME", "23000", "S1009");
  ("ER_XA_RBTIMEOUT", "XA106", "");
  ("ER_XA_RBDEADLOCK", "XA102", "");
  ("ER_FUNC_INEXISTENT_NAME_COLLISION", "42000", "");
  ("ER_DUP_SIGNAL_SET", "42000", "");
  ("ER_SIGNAL_WARN", "01000", "");
  ("ER_SIGNAL_NOT_FOUND", "02000", "");
  ("ER_SIGNAL_EXCEPTION", "HY000", "");
  ("ER_RESIGNAL_WITHOUT_ACTIVE_HANDLER", "0K000", "");
  ("ER_SPATIAL_MUST_HAVE_GEOM_COL", "42000", "");
  ("ER_DATA_OUT_OF_RANGE", "22003", "");
  ("ER_ACCESS_DENIED_NO_PASSWORD_ERROR", "28000", "");
  ("ER_TRUNCATE_ILLEGAL_FK", "42000", "");
  ("ER_DA_INVALID_CONDITION_NUMBER", "35000", "");
  ("ER_FOREIGN_DUPLICATE_KEY_WITH_CHILD_INFO", "23000", "S1009");
  ("ER_FOREIGN_DUPLICATE_KEY_WITHOUT_CHILD_INFO", "23000", "S1009");
  ("ER_CANT_EXECUTE_IN_READ_ONLY_TRANSACTION", "25006", "");
  ("ER_ALTER_OPERATION_NOT_SUPPORTED", "0A000", "");
  ("ER_ALTER_OPERATION_NOT_SUPPORTED_REASON", "0A000", "");
  ("ER_DUP_UNKNOWN_IN_INDEX", "23000", "");
  ("ER_ACCESS_DENIED_CHANGE_USER_ERROR", "28000", "");
  ("ER_DATA_OVERFLOW", "22003", "");
  ("ER_DATA_TRUNCATED", "22003", "");
  ("ER_BAD_DATA", "22007", "");
  ("ER_DYN_COL_DATA", "22007", "");
  ("ER_CONNECTION_KILLED", "70100", "");
  ("ER_NO_SUCH_TABLE_IN_ENGINE", "42S02", "");
  ("ER_INVALID_ROLE", "OP000", "");
  ("ER_INVALID_CURRENT_USER", "0L000", "");
  ("ER_IT_IS_A_VIEW", "42S02", "");
  ("ER_STATEMENT_TIMEOUT", "70100", "");
  ("ER_SUBQUERIES_NOT_SUPPORTED", "42000", "");
  ("ER_SET_STATEMENT_NOT_SUPPORTED", "42000", "");
  ("ER_INVALID_DEFAULT_VALUE_FOR_FIELD", "22007", "");
  ("ER_GET_STACKED_DA_WITHOUT_ACTIVE_HANDLER", "0Z002", "");
  ("ER_INVALID_ARGUMENT_FOR_LOGARITHM", "2201E", "");
  ("ER_GIS_INVALID_DATA", "22023", "");
  ("ER_USER_LOCK_WRONG_NAME", "42000", "");
  ("ER_UNUSED_26", "0A000", "");
  ("ER_CONSTRAINT_FAILED", "23000", "");
  ("ER_EXPRESSION_REFERS_TO_UNINIT_FIELD", "01000", "");
  ("ER_WRONG_PARAMCOUNT_TO_CURSOR", "42000", "");
  ("ER_NOT_SEQUENCE", "42S02", "");
  ("ER_NOT_SEQUENCE2", "42S02", "");
  ("ER_UNKNOWN_SEQUENCES", "42S02", "");
  ("ER_UNKNOWN_VIEW", "42S02", "");
  ("ER_TOO_LONG_KEYPART", "42000", "S1009");
  ("ER_SLAVE_STATEMENT_TIMEOUT", "70100", "")].

Definition sql_states : list (string * string * string) := sql_states_1 ++ sql_states_2.
(** ** unireg.h: where a message is found *)

Definition MAX_ERROR_RANGES : Z := 4.
Definition ERRORS_PER_RANGE : Z := 1000.
Definition ER_ERROR_FIRST : Z := 1000.

Section Messages.
Context (errmsgs : Z -> Z -> option string).
Definition ER_DEFAULT (X : Z) : option string :=
  errmsgs (Z.quot (X - ER_ERROR_FIRST) ERRORS_PER_RANGE) (Z.rem X ERRORS_PER_RANGE).
End Messages.

(** ** Reading the tables *)

(** The rows that bound the sections are not errors. *)
Definition marker (name : string) : bool :=
  String.prefix "ER_ERROR_FIRST" name || String.prefix "ER_ERROR_LAST" name.

Definition errors : list (string * Z) := List.filter (fun e => negb (marker e.1)) error_codes.

Fixpoint code_of (name : string) (l : list (string * Z)) : option Z :=
  match l with
  | [] => None
  | (n, v) :: l => if String.eqb n name then Some v else code_of name l
  end.

(** The preprocessor's value of the name in the first column. *)
Definition state_codes : option (list Z) := mapM (fun r => code_of r.1.1 error_codes) sql_states.

Fixpoint ascending (l : list Z) : bool :=
  match l with
  | x :: (y :: _) as l' => (x <? y) && ascending l'
  | _ => true
  end.

Lemma ascending_sorted l : ascending l = true -> StronglySorted Z.lt l.
Proof.
  intros Ha. apply Sorted_StronglySorted; [intros x y z; lia|].
  induction l as [|x [|y l] IH]; [constructor|repeat constructor|].
  cbn in Ha. apply andb_true_iff in Ha as [H1 H2]. constructor; [by apply IH|].
  constructor. by apply Z.ltb_lt.
Qed.

Definition state_char (c : Ascii.ascii) : bool :=
  let n := Ascii.N_of_ascii c in ((48 <=? n) && (n <=? 57) || (65 <=? n) && (n <=? 90))%N.
(** Five digits or capital letters. *)
Definition sqlstate_ok (s : string) : bool :=
  Nat.eqb (String.length s) 5 && forallb state_char (list_ascii_of_string s).

Lemma errors_codes : map snd errors = seqZ 1000 881 ++ seqZ 1900 83 ++ seqZ 3000 61 ++ seqZ 4000 193.
Proof. vm_compute. reflexivity. Qed.

Lemma error_code_bounds name X : In (name, X) errors -> 1000 <= X < 5000.
Proof.
  intros Hin. assert (In X (map snd errors)) as Hx by (by apply (in_map snd) in Hin).
  rewrite errors_codes in Hx. apply list_elem_of_In in Hx. rewrite !elem_of_app, !elem_of_seqZ in Hx. lia.
Qed.

(** The slot of a message determines its error. *)
Lemma slot_of_code X :
  1000 <= X < 5000 ->
  0 <= Z.quot (X - ER_ERROR_FIRST) ERRORS_PER_RANGE < MAX_ERROR_RANGES /\
  0 <= Z.rem X ERRORS_PER_RANGE < ERRORS_PER_RANGE /\
  X = ERRORS_PER_RANGE * (Z.quot (X - ER_ERROR_FIRST) ERRORS_PER_RANGE + 1) + Z.rem X ERRORS_PER_RANGE.
Proof.
  intros HX. unfold ER_ERROR_FIRST, ERRORS_PER_RANGE, MAX_ERROR_RANGES.
  rewrite Z.quot_div_nonneg, Z.rem_mod_nonneg by lia.
  pose proof (Z.div_mod (X - 1000) 1000 ltac:(lia)). pose proof (Z.mod_pos_bound (X - 1000) 1000 ltac:(lia)).
  assert (X mod 1000 = (X - 1000) mod 1000) as -> by (rewrite <- (Z.mod_add (X - 1000) 1 1000) by lia; f_equal; lia).
  lia.
Qed.

(** ** Properties *)

(** The error tables are consistent.  The errors are numbered without gaps
    or repetitions within the sections 1000-1880, 1900-1982, 3000-3060 and
    4000-4192; any assignment of texts to errors fits the message arrays so that
    [ER_DEFAULT] finds the text of each error within the declared ranges; every
    row of [sql_state.h] names an error, in strictly ascending order of code, and
    consists of well-formed SQLSTATEs (or an empty ODBC state), with the single
    exception of [ER_PARSE_ERROR], whose second state is in lower case. *)
Lemma error_tables_consistent :
  map snd errors = seqZ 1000 881 ++ seqZ 1900 83 ++ seqZ 3000 61 ++ seqZ 4000 193 /\
  (forall text : Z -> option string, exists errmsgs,
     (forall name X, In (name, X) errors -> ER_DEFAULT errmsgs X = text X) /\
     (forall r o, errmsgs r o <> None -> 0 <= r < MAX_ERROR_RANGES /\ 0 <= o < ERRORS_PER_RANGE)) /\
  (exists codes, state_codes = Some codes /\ StronglySorted Z.lt codes) /\
  List.filter (fun r => negb (sqlstate_ok r.1.2 && (String.eqb r.2 "" || sqlstate_ok r.2))) sql_states =
    [("ER_PARSE_ERROR", "42000", "s1009")].
Proof.
  split; [exact errors_codes|]. split; [|split].
  - intros text.
    exists (fun r o => if (0 <=? r) && (r <? MAX_ERROR_RANGES) && (0 <=? o) && (o <? ERRORS_PER_RANGE)
                       then text (ERRORS_PER_RANGE * (r + 1) + o) else None). split.
    + intros name X Hin. apply error_code_bounds, slot_of_code in Hin as (Hr & Ho & HX).
      unfold ER_DEFAULT. rewrite <- HX.
      destruct (Z.leb_spec 0 (Z.quot (X - ER_ERROR_FIRST) ERRORS_PER_RANGE)),
        (Z.ltb_spec (Z.quot (X - ER_ERROR_FIRST) ERRORS_PER_RANGE) MAX_ERROR_RANGES),
        (Z.leb_spec 0 (Z.rem X ERRORS_PER_RANGE)), (Z.ltb_spec (Z.rem X ERRORS_PER_RANGE) ERRORS_PER_RANGE); lia || done.
    + intros r o. destruct (Z.leb_spec 0 r), (Z.ltb_spec r MAX_ERROR_RANGES), (Z.leb_spec 0 o),
        (Z.ltb_spec o ERRORS_PER_RANGE); simpl; try done.
  - destruct state_codes as [codes|] eqn:Hc; [|exfalso; revert Hc; by vm_compute].
    exists codes. split; [done|]. apply ascending_sorted.
    assert (match state_codes with Some l => ascending l | None => false end = true) as Ha by (vm_compute; reflexivity).
    by rewrite Hc in Ha.
  - vm_compute. reflexivity.
Qed.
