(* ===== verification/SqlString.v ===== *)
(** The growing byte strings of the server, class [Binary_string] of
    [mariadb/include/mysql/server/private/sql_string.h], with the buffer helpers
    of [String] that need no character set.

    Memory is a heap of blocks; a pointer is a block and an offset, or null.
    Every access names the bytes it touches and is undefined ([None]) outside a
    live block, or when it writes to a block that is not writable; so is a failed
    [DBUG_ASSERT].  A method is a computation of [ST world], whose state is the
    object the method is called on and the heap.  Lengths are [uint32], sizes
    [size_t] of 64 bits, and each sum wraps where the source computes it.

    [realloc_raw] and [real_alloc] are defined in [sql_string.cc], which the
    repository does not hold: they are the class [StringAlloc], with what the
    inline code relies on in [StringAllocLaws]. *)

From S2P Require Import Prelude ByteOrder.

Open Scope st_scope.

(** ** Memory *)

Record block := Block { blk_size : Z; data : mem; writable : bool; malloced : bool }.
Abbreviation heap := (gmap nat block).
(** [None] is the null pointer. *)
Abbreviation ptr := (option (nat * Z)).

Definition ptr_add (p : ptr) (n : Z) : ptr :=
  match p with Some (b, o) => Some (b, o + n) | None => None end.

(** The bytes and offset behind [p] when [n] bytes can be read there. *)
Definition readable (h : heap) (p : ptr) (n : Z) : option (mem * Z) :=
  '(b, o) ← p;
  blk ← h !! b;
  if (0 <=? o) && (o + n <=? blk_size blk) then Some (data blk, o) else None.

(** Change the [n] writable bytes at [p]; [f] gets the bytes and the offset. *)
Definition update (h : heap) (p : ptr) (n : Z) (f : mem -> Z -> mem) : option heap :=
  '(b, o) ← p;
  blk ← h !! b;
  if writable blk && ((0 <=? o) && (o + n <=? blk_size blk))
  then Some (<[b := Block (blk_size blk) (f (data blk) o) true (malloced blk)]> h) else None.

Definition blit (md : mem) (od : Z) (ms : mem) (os n : Z) : mem :=
  fun x => if (od <=? x) && (x <? od + n) then ms (x - od + os) else md x.

(** [memcpy]: undefined when the areas overlap. *)
Definition overlap (p q : ptr) (n : Z) : bool :=
  match p, q with
  | Some (b, o), Some (b', o') => bool_decide (b = b') && ((o <? o' + n) && (o' <? o + n))
  | _, _ => false
  end.
Definition memcpy (h : heap) (dst src : ptr) (n : Z) : option heap :=
  '(ms, os) ← readable h src n;
  if overlap dst src n then None else update h dst n (fun md od => blit md od ms os n).

(** [my_free]: of a null pointer, or of the start of a block of [my_malloc]. *)
Definition my_free (h : heap) (p : ptr) : option heap :=
  match p with
  | None => Some h
  | Some (b, o) =>
      blk ← h !! b;
      if malloced blk && (o =? 0) then Some (delete b h) else None
  end.

(** ** The object *)

Record Binary_string := BinaryString {
  Ptr : ptr;
  str_length : Z; Alloced_length : Z; extra_alloc : Z;
  alloced : bool; thread_specific : bool
}.

Record world := World { this : Binary_string; hp : heap }.
Abbreviation M := (ST world).

Definition set_Ptr (p : ptr) (s : Binary_string) : Binary_string :=
  BinaryString p (str_length s) (Alloced_length s) (extra_alloc s) (alloced s) (thread_specific s).
Definition set_str_length (n : Z) (s : Binary_string) : Binary_string :=
  BinaryString (Ptr s) n (Alloced_length s) (extra_alloc s) (alloced s) (thread_specific s).
Definition set_Alloced_length (n : Z) (s : Binary_string) : Binary_string :=
  BinaryString (Ptr s) (str_length s) n (extra_alloc s) (alloced s) (thread_specific s).
Definition set_extra_alloc (n : Z) (s : Binary_string) : Binary_string :=
  BinaryString (Ptr s) (str_length s) (Alloced_length s) n (alloced s) (thread_specific s).
Definition set_alloced_flag (c : bool) (s : Binary_string) : Binary_string :=
  BinaryString (Ptr s) (str_length s) (Alloced_length s) (extra_alloc s) c (thread_specific s).
Definition set_thread_flag (c : bool) (s : Binary_string) : Binary_string :=
  BinaryString (Ptr s) (str_length s) (Alloced_length s) (extra_alloc s) (alloced s) c.

Definition self : M Binary_string := st_gets this.
Definition assign (f : Binary_string -> Binary_string) : M unit :=
  st_modify (fun w => World (f (this w)) (hp w)).
(** An operation on the heap alone. *)
Definition on_heap (f : heap -> option heap) : M unit :=
  fun w => match f (hp w) with Some h => Some (tt, World (this w) h) | None => None end.
Definition dbug_assert (c : bool) : M unit := if c then st_ret tt else st_fail.
Definition when (c : bool) (m : M unit) : M unit := if c then m else st_ret tt.

(** [Ptr[i]= v] and [Ptr[i]]. *)
Definition store_at (i v : Z) : M unit :=
  let* s := self in
  on_heap (fun h => update h (ptr_add (Ptr s) i) 1 (fun m o => put m o 0 v)).
Definition byte_at (p : ptr) (i : Z) : M Z :=
  fun w => match readable (hp w) (ptr_add p i) 1 with
           | Some (m, o) => Some (ix m o 0, w)
           | None => None
           end.

(** ** Construction and ownership *)

Definition init_private_data (s : Binary_string) : Binary_string :=
  BinaryString None 0 0 0 false false.
Definition free_buffer : M unit :=
  let* s := self in
  if alloced s then
    assign (set_alloced_flag false);;;
    on_heap (fun h => my_free h (Ptr s))
  else st_ret tt.

Definition Binary_string_default : Binary_string := BinaryString None 0 0 0 false false.
(** [Binary_string(const char *, size_t)]: the memory cannot be written to. *)
Definition Binary_string_const (str : ptr) (len : Z) : Binary_string :=
  BinaryString str (u32 len) 0 0 false false.
(** [Binary_string(char *, size_t)] *)
Definition Binary_string_buffer (str : ptr) (len : Z) : Binary_string :=
  BinaryString str (u32 len) (u32 len) 0 false false.
(** The copy constructor shares the buffer and does not own it. *)
Definition Binary_string_copy (str : Binary_string) : Binary_string :=
  BinaryString (Ptr str) (str_length str) (Alloced_length str) 0 false false.

Definition length_ (s : Binary_string) : Z := str_length s.
Definition set_length (len : Z) : M unit := assign (set_str_length (u32 len)).
Definition is_empty (s : Binary_string) : bool := str_length s =? 0.
Definition end_ (s : Binary_string) : ptr := ptr_add (Ptr s) (str_length s).
Definition is_alloced (s : Binary_string) : bool := alloced s.
Definition set_thread_specific : M unit :=
  let* s := self in when (negb (alloced s)) (assign (set_thread_flag true)).
Definition extra_allocation (len : Z) : M unit := assign (set_extra_alloc (u32 len)).
Definition mark_as_const : M unit := assign (set_Alloced_length 0).

Definition ptr_in (p q : ptr) (n : Z) : bool :=
  match p, q with
  | Some (b, o), Some (b', o') => bool_decide (b = b') && ((o' <=? o) && (o <? o' + n))
  | _, _ => false
  end.
Definition uses_buffer_owned_by (t s : Binary_string) : bool :=
  alloced s && ptr_in (Ptr t) (Ptr s) (Alloced_length s).

(** [free], also the destructor. *)
Definition free : M unit :=
  free_buffer;;;
  assign (set_Ptr None);;;
  assign (set_str_length 0);;;
  assign (set_extra_alloc 0);;; assign (set_Alloced_length 0).

Definition set_alloced (str : ptr) (length alloced_length : Z) : M unit :=
  free_buffer;;;
  assign (set_Ptr str);;;
  assign (set_str_length (u32 length));;;
  dbug_assert (alloced_length <? 2 ^ 32 - 1);;;
  assign (set_Alloced_length (u32 alloced_length)).
Definition set_buffer (str : ptr) (arg_length : Z) : M unit := set_alloced str arg_length arg_length.
Definition set_const (str : ptr) (length : Z) : M unit :=
  free_buffer;;;
  assign (set_Ptr str);;;
  assign (set_str_length (u32 length));;;
  assign (set_Alloced_length 0).
(** [set(Binary_string &, offset, length)] with another object. *)
Definition set_substring (str : Binary_string) (offset length : Z) : M unit :=
  free_buffer;;;
  assign (set_Ptr (ptr_add (Ptr str) offset));;;
  assign (set_str_length (u32 length));;;
  assign (set_Alloced_length 0);;;
  when (nz (Alloced_length str)) (assign (set_Alloced_length (u32 (u64 (Alloced_length str - offset))))).

Definition reset (ptr_arg : ptr) (length_arg alloced_length_arg : Z) : M unit :=
  set_alloced ptr_arg length_arg alloced_length_arg;;;
  assign (set_alloced_flag (bool_decide (ptr_arg <> None))).
Definition release : M ptr :=
  let* s := self in
  assign init_private_data;;;
  st_ret (Ptr s).
(** The new [str_length] is marked undefined; callers set it before use. *)
Definition set_buffer_if_not_allocated (str : ptr) (arg_length : Z) : M unit :=
  let* s := self in
  when (negb (alloced s))
    (assign (set_Ptr str);;; assign (fun s => set_Alloced_length (u32 arg_length) (set_str_length (u32 arg_length) s))).
(** [swap] leaves [extra_alloc] and [thread_specific] where they are.  The second
    object is passed by value and returned. *)
Definition swap (s : Binary_string) : M Binary_string :=
  let* t := self in
  assign (fun t => set_alloced_flag (alloced s) (set_Alloced_length (Alloced_length s)
                     (set_str_length (str_length s) (set_Ptr (Ptr s) t))));;;
  st_ret (set_alloced_flag (alloced t) (set_Alloced_length (Alloced_length t)
            (set_str_length (str_length t) (set_Ptr (Ptr t) s)))).

(** [operator=]; [same] is [&s == this]. *)
Definition op_assign (same : bool) (s : Binary_string) : M unit :=
  if negb same then
    let* t := self in
    dbug_assert (negb (uses_buffer_owned_by s t));;;
    set_alloced (Ptr s) (str_length s) (Alloced_length s)
  else st_ret tt.

(** [move] from another object, which is returned without its ownership. *)
Definition move (s : Binary_string) : M Binary_string :=
  set_alloced (Ptr s) (str_length s) (Alloced_length s);;;
  assign (set_extra_alloc (extra_alloc s));;;
  assign (set_alloced_flag (alloced s));;;
  assign (set_thread_flag (thread_specific s));;;
  st_ret (set_alloced_flag false s).

(** Is one of the [n] bytes at [o] zero?  [strlen] stops at the first. *)
Fixpoint has_zero (m : mem) (o : Z) (n : nat) : bool :=
  match n with
  | O => false
  | S n => (ix m o 0 =? 0) || has_zero m (o + 1) n
  end.
(** [strlen(Ptr) == str_length], once [Ptr[str_length]] is zero. *)
Definition strlen_is_length : M bool :=
  fun w => match readable (hp w) (Ptr (this w)) (str_length (this w)) with
           | Some (m, o) => Some (negb (has_zero m o (Z.to_nat (str_length (this w)))), w)
           | None => None
           end.
Definition chop : M unit :=
  let* s := self in
  if nz (str_length s) then
    assign (set_str_length (str_length s - 1));;;
    store_at (str_length s - 1) 0;;;
    let* b := strlen_is_length in dbug_assert b
  else st_ret tt.

(** ** Appending without a check of the space *)

Definition assert_length (A : Z) : M unit :=
  let* s := self in dbug_assert (u32 (str_length s + u32 A) <=? Alloced_length s).

Definition add_length (n : Z) : M unit :=
  assign (fun s => set_str_length (u32 (str_length s + u32 n)) s).

Definition q_append_char (c : Z) : M unit :=
  assert_length 1;;;
  let* s := self in
  assign (fun s => set_str_length (u32 (str_length s + 1)) s);;;
  store_at (str_length s) c.
Definition qs_append_char (c : Z) : M unit :=
  assert_length 1;;;
  let* s := self in
  store_at (str_length s) c;;;
  add_length 1.

(** [int2store] and [int4store] of [ByteOrder], at [Ptr + i]. *)
Section stores.
Context (bo : byte_order).

Definition q_append2b (n : Z) : M unit :=
  assert_length 2;;;
  let* s := self in
  on_heap (fun h => update h (end_ s) 2 (fun m o => bo_int2store bo m o n));;;
  add_length 2.
Definition q_append_uint32 (n : Z) : M unit :=
  assert_length 4;;;
  let* s := self in
  on_heap (fun h => update h (end_ s) 4 (fun m o => bo_int4store bo m o n));;;
  add_length 4.
Definition write_at_position (position value : Z) : M unit :=
  let* s := self in
  dbug_assert (u32 (position + 4) <=? str_length s);;;
  on_heap (fun h => update h (ptr_add (Ptr s) position) 4 (fun m o => bo_int4store bo m o value)).

End stores.

Definition q_append (data : ptr) (data_len : Z) : M unit :=
  assert_length data_len;;;
  let* s := self in
  when (nz data_len) (on_heap (fun h => memcpy h (end_ s) data data_len));;;
  dbug_assert (str_length s <=? u64 (2 ^ 32 - 1 - data_len));;;
  add_length data_len.

(** ** Growing *)

(** The two functions of [sql_string.cc].  [true] is failure, as in the source. *)
Class StringAlloc := {
  realloc_raw : Z -> M bool;
  real_alloc : Z -> M bool
}.

Section growing.
Context `{StringAlloc}.

Definition realloc (arg_length : Z) : M bool :=
  let* r := realloc_raw (u64 (arg_length + 1)) in
  if r then st_ret true
  else store_at arg_length 0;;; st_ret false.

Definition realloc_with_extra (arg_length : Z) : M bool :=
  let* s := self in
  when (extra_alloc s <? 4096)
    (assign (set_extra_alloc (u32 (u32 (extra_alloc s * 2) + 128))));;;
  let* s := self in
  let* r := realloc_raw (u64 (arg_length + extra_alloc s)) in
  if r then st_ret true
  else store_at arg_length 0;;; st_ret false.

Definition realloc_with_extra_if_needed (arg_length : Z) : M bool :=
  let* s := self in
  if arg_length <? Alloced_length s then
    store_at arg_length 0;;; st_ret false
  else realloc_with_extra arg_length.

Definition alloc (arg_length : Z) : M bool :=
  let* s := self in
  if (arg_length <=? Alloced_length s) && nz (Alloced_length s) then st_ret false
  else real_alloc arg_length.

Definition reserve (space_needed : Z) : M bool :=
  let* s := self in
  dbug_assert (u64 (str_length s + space_needed) <? 2 ^ 32 - 1);;;
  realloc (u64 (str_length s + space_needed)).

Definition append (s : ptr) (size : Z) : M bool :=
  if size =? 0 then st_ret false
  else
    let* t := self in
    let* r := realloc_with_extra_if_needed (u64 (str_length t + size)) in
    if r then st_ret true
    else q_append s size;;; st_ret false.
Definition append_string (s : Binary_string) : M bool := append (Ptr s) (str_length s).
(** [s.append(s)] *)
Definition append_self : M bool := let* t := self in append_string t.

Definition append_char (chr : Z) : M bool :=
  let* s := self in
  if str_length s <? Alloced_length s then
    assign (fun s => set_str_length (u32 (str_length s + 1)) s);;;
    store_at (str_length s) chr;;; st_ret false
  else
    let* r := realloc_with_extra (u32 (str_length s + 1)) in
    if r then st_ret true
    else
      let* s := self in
      assign (fun s => set_str_length (u32 (str_length s + 1)) s);;;
      store_at (str_length s) chr;;; st_ret false.

(** [_dig_vec_lower], a table of the string library. *)
Section hex.
Context (dig_vec_lower : Z -> Z).

Fixpoint append_hex (src : ptr) (i : Z) (srclen : nat) : M bool :=
  match srclen with
  | O => st_ret false
  | S n =>
      let* c := byte_at src i in
      let* r := append_char (dig_vec_lower (Z.shiftr c 4)) in
      if r then st_ret true
      else
        let* r := append_char (dig_vec_lower (Z.land c 15)) in
        if r then st_ret true else append_hex src (i + 1) n
  end.

End hex.

Definition append_with_step (s : ptr) (arg_length step_alloc : Z) : M bool :=
  let* t := self in
  let new_length := u32 (arg_length + str_length t) in
  let* r := (if Alloced_length t <? new_length
             then realloc (u32 (new_length + step_alloc)) else st_ret false) in
  if r then st_ret true
  else q_append s arg_length;;; st_ret false.

(** [None] inside is the null pointer of a failure. *)
Definition prep_append (arg_length step_alloc : Z) : M ptr :=
  let* t := self in
  let new_length := u32 (arg_length + str_length t) in
  let* r := (if Alloced_length t <? new_length
             then realloc (u32 (new_length + step_alloc)) else st_ret false) in
  if r then st_ret None
  else
    let* t := self in
    let old_length := str_length t in
    add_length arg_length;;;
    st_ret (ptr_add (Ptr t) old_length).

(** [None] is the static empty string that [c_ptr] returns for a null [Ptr]. *)
Definition c_ptr : M ptr :=
  let* s := self in
  match Ptr s with
  | None => st_ret None
  | Some _ =>
      let* terminated := (if negb (alloced s)
                          then let* c := byte_at (Ptr s) (str_length s) in st_ret (c =? 0)
                          else st_ret false) in
      if terminated : bool then st_ret (Ptr s)
      else if str_length s <? Alloced_length s then
        store_at (str_length s) 0;;; st_ret (Ptr s)
      else
        realloc (str_length s);;;
        let* s := self in st_ret (Ptr s)
  end.
Definition c_ptr_safe : M ptr :=
  let* s := self in
  (if bool_decide (Ptr s <> None) && (str_length s <? Alloced_length s)
   then store_at (str_length s) 0
   else realloc (str_length s);;; st_ret tt);;;
  let* s := self in st_ret (Ptr s).
Definition c_ptr_quick : M ptr := c_ptr_safe.

End growing.

(** ** Reading *)

Fixpoint has_8bit_from (c : ptr) (i : Z) (n : nat) : M bool :=
  match n with
  | O => st_ret false
  | S n =>
      let* v := byte_at c i in
      if negb (v <? 128) then st_ret true else has_8bit_from c (i + 1) n
  end.
Definition has_8bit_bytes : M bool :=
  let* s := self in has_8bit_from (Ptr s) 0 (Z.to_nat (str_length s)).

(** [memcmp] = 0, both areas read in full. *)
Definition memcmp_eq (p q : ptr) (n : Z) : M bool :=
  fun w => match readable (hp w) p n, readable (hp w) q n with
           | Some (m, o), Some (m', o') =>
               Some (bool_decide (bytes_at (Z.to_nat n) m o = bytes_at (Z.to_nat n) m' o'), w)
           | _, _ => None
           end.
Definition bin_eq (other : Binary_string) : M bool :=
  let* s := self in
  if str_length s =? str_length other then memcmp_eq (Ptr s) (Ptr other) (str_length s)
  else st_ret false.

(** ** Reasoning

    [wp m Q w]: [m] run in [w] is defined, and its result and new state satisfy
    [Q]. *)

Section wp.
Context {S : Type}.
Implicit Types (s : S).

Definition wp {A} (m : ST S A) (Q : A -> S -> Prop) (s : S) : Prop :=
  match m s with Some (a, s') => Q a s' | None => False end.

Lemma wp_ret {A} (a : A) (Q : A -> S -> Prop) s : Q a s -> wp (st_ret a) Q s.
Proof. done. Qed.

Lemma wp_bind {A B} (m : ST S A) (f : A -> ST S B) (Q : B -> S -> Prop) s :
  wp m (fun a => wp (f a) Q) s -> wp (st_bind m f) Q s.
Proof. unfold wp, st_bind. by destruct (m s) as [[a s']|]. Qed.

Lemma wp_mono {A} (m : ST S A) (P Q : A -> S -> Prop) s :
  wp m P s -> (forall a s', P a s' -> Q a s') -> wp m Q s.
Proof. unfold wp. destruct (m s) as [[a s']|]; eauto. Qed.

Lemma wp_inv {A} (m : ST S A) (Q : A -> S -> Prop) s :
  wp m Q s <-> exists a s', m s = Some (a, s') /\ Q a s'.
Proof.
  unfold wp. destruct (m s) as [[a s']|]; split.
  - eauto.
  - intros (? & ? & [= <- <-] & HQ). done.
  - done.
  - intros (? & ? & ? & _). done.
Qed.

End wp.

(** The bytes of a string, and the rest of memory [F] that it does not own. *)
Inductive buffer_ok (F h : heap) (s : Binary_string) (l : list Z) : Prop :=
  | buffer_null :
      Ptr s = None -> str_length s = 0 -> Alloced_length s = 0 -> alloced s = false -> l = [] ->
      buffer_ok F h s l
  | buffer_block b o blk :
      Ptr s = Some (b, o) -> h !! b = Some blk -> 0 <= o ->
      o + str_length s <= blk_size blk -> o + Alloced_length s <= blk_size blk ->
      (0 < Alloced_length s -> writable blk = true) ->
      (0 < Alloced_length s \/ alloced s = true -> F !! b = None) ->
      (alloced s = true -> o = 0 /\ malloced blk = true) ->
      bytes_at (Z.to_nat (str_length s)) (data blk) o = l ->
      buffer_ok F h s l.

(** The string is well formed and holds [l], and [F] is as it was. *)
Record holds (F : heap) (w : world) (l : list Z) : Prop := Holds {
  holds_frame : F ⊆ hp w;
  holds_length : in_u 32 (str_length (this w));
  holds_alloced : in_u 32 (Alloced_length (this w));
  holds_extra : in_u 32 (extra_alloc (this w));
  holds_buffer : buffer_ok F (hp w) (this w) l
}.

Lemma holds_len F w l : holds F w l -> Z.of_nat (List.length l) = str_length (this w).
Proof.
  intros [_ [Hl _] _ _ Hb]. destruct Hb as [_ -> _ _ ->|b o blk _ _ _ _ _ _ _ _ <-]; [done|].
  unfold bytes_at. rewrite length_bytes_from. lia.
Qed.

Lemma blit_written md od ms os n :
  written md (blit md od ms os (Z.of_nat n)) od (bytes_at n ms os).
Proof.
  unfold bytes_at at 1. split.
  - rewrite length_bytes_from. unfold bytes_at. replace od with (os + (od - os)) by lia.
    apply bytes_from_ext. intros x Hx. unfold blit.
    rewrite (proj2 (Z.leb_le _ _)), (proj2 (Z.ltb_lt _ _)) by lia. cbn. f_equal. lia.
  - intros x Hx. rewrite length_bytes_from in Hx. unfold blit.
    destruct (Z.leb_spec od x), (Z.ltb_spec x (od + Z.of_nat n)); done || lia.
Qed.

(** Writing [ds] at offset [k] of the allocated area, and then any length that
    keeps or extends the contents. *)
Lemma update_run F w l k ds f :
  holds F w l -> 0 <= k -> (0 < List.length ds)%nat ->
  k + Z.of_nat (List.length ds) <= Alloced_length (this w) ->
  (forall m T, written m (f m T) T ds) ->
  exists h', update (hp w) (ptr_add (Ptr (this w)) k) (Z.of_nat (List.length ds)) f = Some h' /\
    (str_length (this w) <= k -> holds F (World (this w) h') l) /\
    (k = str_length (this w) ->
     holds F (World (set_str_length (k + Z.of_nat (List.length ds)) (this w)) h') (l ++ ds)) /\
    (k + Z.of_nat (List.length ds) <= str_length (this w) ->
     holds F (World (this w) h')
       (take (Z.to_nat k) l ++ ds ++ drop (Z.to_nat k + List.length ds) l)).
Proof.
  intros [HF Hlen Hal Hex Hb] Hk Hds Hle Hf.
  destruct Hb as [Hp|b o blk Hp Hblk Ho Hs Ha Hw Hfr Hown Hl]; [lia|].
  rewrite Hp. cbn [ptr_add]. unfold update. cbn. rewrite Hblk. cbn.
  rewrite Hw by lia. rewrite (proj2 (Z.leb_le _ _)), (proj2 (Z.leb_le _ _)) by lia. cbn.
  eexists. split; [done|].
  destruct (Hf (data blk) (o + k)) as [W1 W2].
  assert (F ⊆ <[b:=Block (blk_size blk) (f (data blk) (o + k)) true (malloced blk)]> (hp w)) as HF'.
  { apply insert_subseteq_r; [|done]. apply Hfr. lia. }
  assert (0 <= str_length (this w)) as H0 by apply Hlen.
  split_and!; intros Hc; split; cbn [this hp set_str_length str_length Alloced_length extra_alloc]; try done.
  - apply (buffer_block _ _ _ _ b o (Block (blk_size blk) (f (data blk) (o + k)) true (malloced blk))); cbn;
      try done; [apply lookup_insert_eq|].
    rewrite <- Hl. apply bytes_at_same. intros x Hx. apply W2. lia.
  - unfold in_u in *. lia.
  - apply (buffer_block _ _ _ _ b o (Block (blk_size blk) (f (data blk) (o + k)) true (malloced blk))); cbn;
      try done; [apply lookup_insert_eq|lia|].
    rewrite Z2Nat.inj_add, Nat2Z.id by lia. rewrite bytes_at_app. f_equal.
    + rewrite <- Hl, <- Hc. apply bytes_at_same. intros x Hx. apply W2. lia.
    + rewrite Z2Nat.id by lia. done.
  - apply (buffer_block _ _ _ _ b o (Block (blk_size blk) (f (data blk) (o + k)) true (malloced blk))); cbn;
      try done; [apply lookup_insert_eq|].
    set (n := List.length ds) in *.
    assert (Z.to_nat (str_length (this w)) =
            (Z.to_nat k + (n + (Z.to_nat (str_length (this w)) - Z.to_nat k - n)))%nat) as E by lia.
    rewrite <- Hl. rewrite E. rewrite !bytes_at_app.
    assert (forall j m A, List.length (bytes_at j m A) = j) as Hlb
      by (intros; unfold bytes_at; apply length_bytes_from).
    rewrite take_app_length' by (symmetry; apply Hlb). f_equal.
    { apply bytes_at_same. intros x Hx. apply W2. lia. }
    f_equal; [rewrite Z2Nat.id by lia; done|].
    rewrite drop_app_ge by (rewrite Hlb; lia). rewrite Hlb.
    replace (Z.to_nat k + n - Z.to_nat k)%nat with n by lia.
    rewrite drop_app_length' by (symmetry; apply Hlb).
    apply bytes_at_same. intros x Hx. apply W2. lia.
Qed.

(** ** What the code relies on in [realloc_raw] and [real_alloc]

    A request that is not below [str_length] either fails and changes nothing, or
    is covered by the buffer as it is, or gets a new block that starts with the
    contents; the old block is freed when the string owned it.  [real_alloc]
    empties the string (its comment) and, when it succeeds, leaves room for the
    request and a terminating zero. *)

Definition moved (w w' : world) (len : Z) (l : list Z) : Prop :=
  exists nb m,
    hp w !! nb = None /\
    this w' = set_Ptr (Some (nb, 0)) (set_Alloced_length len (set_alloced_flag true (this w))) /\
    bytes_at (List.length l) m 0 = l /\
    hp w' = <[nb := Block len m true true]>
              match Ptr (this w), alloced (this w) with
              | Some (b, _), true => delete b (hp w)
              | _, _ => hp w
              end.

Class StringAllocLaws (A : StringAlloc) : Prop := {
  realloc_raw_law F w l n :
    holds F w l -> str_length (this w) <= n ->
    realloc_raw n w = Some (true, w) \/
    (n <= Alloced_length (this w) /\ realloc_raw n w = Some (false, w)) \/
    (Alloced_length (this w) < n /\
     exists len w', realloc_raw n w = Some (false, w') /\ n <= len < 2 ^ 32 /\ moved w w' len l);
  real_alloc_law F w l n :
    holds F w l -> 0 <= n ->
    wp (real_alloc n) (fun r w' => r = false -> holds F w' [] /\ n < Alloced_length (this w')) w
}.

Lemma moved_holds F w w' len l :
  holds F w l -> moved w w' len l -> str_length (this w) <= len -> len < 2 ^ 32 ->
  holds F w' l /\ str_length (this w') = str_length (this w) /\
  Alloced_length (this w') = len /\ extra_alloc (this w') = extra_alloc (this w).
Proof.
  intros HH (nb & m & Hnb & Ht & Hm & Hh) Hs Hlen. pose proof (holds_len _ _ _ HH) as Hll.
  destruct HH as [HF Hl Ha He Hb]. rewrite Ht. cbn. split; [|done].
  destruct w' as [t' h']. cbn in Ht, Hh. subst t' h'.
  assert (F !! nb = None) as HFn.
  { destruct (F !! nb) as [x|] eqn:E; [|done]. pose proof (lookup_weaken _ _ _ _ E HF) as E2. congruence. }
  split; cbn [this hp set_Ptr set_Alloced_length set_alloced_flag str_length Alloced_length extra_alloc];
    try done.
  - apply insert_subseteq_r; [done|].
    destruct (Ptr (this w)) as [[b o]|] eqn:Hp; [|done]. destruct (alloced (this w)) eqn:Hown; [|done].
    destruct Hb as [?|b' o' blk Hp' ? ? ? ? ? Hfr ? ?]; [congruence|].
    rewrite Hp in Hp'. injection Hp' as <- <-.
    apply map_subseteq_spec. intros i x Hi. rewrite lookup_delete_ne.
    + by eapply lookup_weaken.
    + intros <-. rewrite Hfr in Hi by (by right). done.
  - unfold in_u in *. lia.
  - apply (buffer_block _ _ _ _ nb 0 (Block len m true true)); cbn; try done; [apply lookup_insert_eq|].
    rewrite <- Hll, Nat2Z.id. done.
Qed.

Section laws.
Context `{L : StringAllocLaws}.

(** Success makes room for [n] bytes; failure leaves the string alone. *)
Lemma realloc_raw_run F w l n :
  holds F w l -> str_length (this w) <= n ->
  wp (realloc_raw n)
    (fun r w' => holds F w' l /\ extra_alloc (this w') = extra_alloc (this w) /\
       str_length (this w') = str_length (this w) /\
       (if r then w' = w else n <= Alloced_length (this w'))) w.
Proof.
  intros HH Hn. unfold wp.
  destruct (realloc_raw_law F w l n HH Hn) as [->|[[Hle ->]|(Hgt & len & w' & -> & Hlen & Hm)]]; [done..|].
  destruct (moved_holds F w w' len l HH Hm) as (H1 & H2 & H3 & H4); [lia|lia|].
  rewrite H3. split_and!; done || lia.
Qed.

Lemma store_at_run F w l k v :
  holds F w l -> str_length (this w) <= k < Alloced_length (this w) ->
  wp (store_at k v)
    (fun _ w' => this w' = this w /\ holds F w' l /\
       (k = str_length (this w) -> u32 (k + 1) = k + 1 ->
        holds F (World (set_str_length (k + 1) (this w)) (hp w')) (l ++ [u8 v]))) w.
Proof.
  intros HH Hk. assert (0 <= str_length (this w)) by apply HH.
  destruct (update_run F w l k [u8 v] (fun m o => put m o 0 v) HH) as (h' & Hu & H1 & H2 & _);
    [lia|simpl; lia|simpl; lia|intros m T; apply written_put|].
  unfold wp, store_at, st_bind, self, st_gets, on_heap. cbn [List.length] in Hu.
  change (Z.of_nat 1) with 1 in Hu. rewrite Hu. cbn. split; [done|]. split; [apply H1; lia|].
  intros Hks _. by apply H2.
Qed.

Lemma realloc_run F w l n :
  holds F w l -> str_length (this w) <= n < 2 ^ 64 - 1 ->
  wp (realloc n)
    (fun r w' => holds F w' l /\ extra_alloc (this w') = extra_alloc (this w) /\
       str_length (this w') = str_length (this w) /\
       (if r then w' = w else n < Alloced_length (this w'))) w.
Proof.
  intros HH Hn. assert (0 <= str_length (this w)) by apply HH.
  unfold realloc. apply wp_bind.
  assert (u64 (n + 1) = n + 1) as -> by (apply wrapU_small; unfold in_u; lia).
  eapply wp_mono; [apply (realloc_raw_run F w l); [done|lia]|].
  intros r w' (H1 & H2 & H3 & H4). destruct r; [done|]. apply wp_bind.
  eapply wp_mono; [apply (store_at_run F w' l); [done|lia]|].
  intros _ w'' (E & Hh & _). apply wp_ret. rewrite E. split_and!; done || lia.
Qed.

(** The growth step: at least 128 bytes, doubling until 4096. *)
Definition grow_extra (e : Z) : Z := if e <? 4096 then e * 2 + 128 else e.

Lemma grow_extra_bounds e : in_u 32 e -> 128 <= grow_extra e /\ in_u 32 (grow_extra e) /\ e <= grow_extra e.
Proof. unfold grow_extra, in_u. intros. destruct (Z.ltb_spec e 4096); lia. Qed.

Lemma assign_extra_holds F w l n :
  holds F w l -> in_u 32 n -> holds F (World (set_extra_alloc n (this w)) (hp w)) l.
Proof.
  intros [? ? ? ? Hb] Hn. split; try done. cbn.
  destruct Hb; [by apply buffer_null|eapply buffer_block; try done].
Qed.

Lemma realloc_with_extra_run F w l n :
  holds F w l -> str_length (this w) <= n < 2 ^ 63 ->
  wp (realloc_with_extra n)
    (fun r w' => holds F w' l /\ extra_alloc (this w') = grow_extra (extra_alloc (this w)) /\
       str_length (this w') = str_length (this w) /\
       (if r then hp w' = hp w else n + grow_extra (extra_alloc (this w)) <= Alloced_length (this w'))) w.
Proof.
  intros HH Hn. assert (0 <= str_length (this w)) by apply HH.
  pose proof (grow_extra_bounds _ (holds_extra _ _ _ HH)) as (G1 & G2 & G3). unfold in_u in G2.
  set (w1 := World (set_extra_alloc (grow_extra (extra_alloc (this w))) (this w)) (hp w)).
  assert (holds F w1 l) as HH1 by (apply assign_extra_holds; done).
  unfold realloc_with_extra. apply wp_bind. cbn [wp self st_gets].
  apply wp_bind. assert (wp (when (extra_alloc (this w) <? 4096)
     (assign (set_extra_alloc (u32 (u32 (extra_alloc (this w) * 2) + 128))))) (fun _ w' => w' = w1) w) as Hw.
  { subst w1. unfold grow_extra in *. pose proof (holds_extra _ _ _ HH) as He.
    destruct (Z.ltb_spec (extra_alloc (this w)) 4096); cbn.
    - unfold in_u in He. rewrite (wrapU_small 32 (extra_alloc (this w) * 2)) by (unfold in_u; lia).
      by rewrite wrapU_small by (unfold in_u; lia).
    - by destruct w as [[] ?]. }
  eapply wp_mono; [exact Hw|]. intros _ w' ->. clear Hw.
  apply wp_bind. cbn [wp self st_gets]. apply wp_bind.
  change (extra_alloc (this w1)) with (grow_extra (extra_alloc (this w))).
  rewrite wrapU_small by (unfold in_u; lia).
  eapply wp_mono; [apply (realloc_raw_run F w1 l); [done|cbn; lia]|].
  intros r w' (H1 & H2 & H3 & H4). destruct r; [subst w'; done|]. apply wp_bind.
  eapply wp_mono; [apply (store_at_run F w' l); [done|cbn in H3; lia]|].
  intros _ w'' (E & Hh & _). apply wp_ret. rewrite E. split_and!; done || lia.
Qed.

Lemma realloc_with_extra_if_needed_run F w l n :
  holds F w l -> str_length (this w) <= n < 2 ^ 63 ->
  wp (realloc_with_extra_if_needed n)
    (fun r w' => holds F w' l /\ str_length (this w') = str_length (this w) /\
       extra_alloc (this w') = (if n <? Alloced_length (this w) then extra_alloc (this w)
                                else grow_extra (extra_alloc (this w))) /\
       (if r then hp w' = hp w else n < Alloced_length (this w'))) w.
Proof.
  intros HH Hn. unfold realloc_with_extra_if_needed. apply wp_bind. cbn [wp self st_gets].
  pose proof (grow_extra_bounds _ (holds_extra _ _ _ HH)) as (G1 & G2 & G3).
  destruct (Z.ltb_spec n (Alloced_length (this w))).
  - apply wp_bind. eapply wp_mono; [apply (store_at_run F w l); [done|lia]|].
    intros _ w'' (E & Hh & _). apply wp_ret. rewrite E. split_and!; done || lia.
  - eapply wp_mono; [by apply (realloc_with_extra_run F w l)|].
    cbn. intros r w' (H1 & H2 & H3 & H4). destruct r; split_and!; done || lia.
Qed.

End laws.

(** ** Appending *)

(** [n] bytes [d] of memory that the string does not own. *)
Definition source (F : heap) (p : ptr) (n : Z) (d : list Z) : Prop :=
  exists m o, readable F p n = Some (m, o) /\ d = bytes_at (Z.to_nat n) m o.

Lemma readable_weaken F h p n m o : F ⊆ h -> readable F p n = Some (m, o) -> readable h p n = Some (m, o).
Proof.
  intros HF. unfold readable. destruct p as [[b o']|]; cbn; [|done].
  destruct (F !! b) as [blk|] eqn:E; cbn; [|done].
  by rewrite (lookup_weaken _ _ _ _ E HF).
Qed.

Lemma source_foreign F w l k p n m o :
  holds F w l -> 0 < Alloced_length (this w) -> readable F p n = Some (m, o) ->
  overlap (ptr_add (Ptr (this w)) k) p n = false.
Proof.
  intros [_ _ _ _ Hb] Ha. unfold readable, overlap.
  destruct Hb as [->|b ob blk Hp ? ? ? ? ? Hfr _ _]; [done|]. rewrite Hp. cbn.
  destruct p as [[b' o']|]; cbn; [|done]. intros Hr. rewrite bool_decide_false; [done|].
  intros <-. rewrite Hfr in Hr by auto. done.
Qed.

Lemma add_length_holds F w l h n :
  holds F (World (set_str_length (str_length (this w) + n) (this w)) h) l ->
  0 <= n -> in_u 32 (str_length (this w)) ->
  wp (add_length n) (fun _ w' => holds F w' l /\ this w' = set_str_length (str_length (this w) + n) (this w))
    (World (this w) h).
Proof.
  intros HH Hn Hs. pose proof (holds_length _ _ _ HH) as Hr. cbn in Hr. unfold in_u in *.
  unfold add_length, wp. cbn. rewrite (wrapU_small 32 n) by (unfold in_u; lia).
  rewrite wrapU_small by done. done.
Qed.

Lemma q_append_run F w l src n ms os :
  holds F w l -> 0 < n -> str_length (this w) + n <= Alloced_length (this w) ->
  readable (hp w) src n = Some (ms, os) -> overlap (end_ (this w)) src n = false ->
  wp (q_append src n)
    (fun _ w' => holds F w' (l ++ bytes_at (Z.to_nat n) ms os) /\
       this w' = set_str_length (str_length (this w) + n) (this w)) w.
Proof.
  intros HH Hn Hle Hr Ho. pose proof (holds_length _ _ _ HH) as Hs.
  pose proof (holds_alloced _ _ _ HH) as Ha. unfold in_u in Hs, Ha.
  unfold q_append. apply wp_bind. unfold assert_length. apply wp_bind. cbn [wp self st_gets].
  rewrite (wrapU_small 32 n), wrapU_small by (unfold in_u; lia).
  rewrite (proj2 (Z.leb_le _ _)) by lia. cbn [dbug_assert]. apply wp_ret.
  apply wp_bind. cbn [wp self st_gets]. apply wp_bind.
  rewrite (proj2 (nz_true n)) by lia. cbn [when].
  destruct (update_run F w l (str_length (this w)) (bytes_at (Z.to_nat n) ms os)
              (fun md od => blit md od ms os n) HH) as (h' & Hu & _ & H2 & _).
  { lia. }
  { unfold bytes_at. rewrite length_bytes_from. lia. }
  { unfold bytes_at. rewrite length_bytes_from. lia. }
  { intros m T. rewrite <- (Z2Nat.id n) at 1 by lia. apply blit_written. }
  assert (Z.of_nat (List.length (bytes_at (Z.to_nat n) ms os)) = n) as Hn'
    by (unfold bytes_at; rewrite length_bytes_from; lia).
  rewrite Hn' in *.
  assert (on_heap (fun h => memcpy h (end_ (this w)) src n) w = Some (tt, World (this w) h')) as Hm.
  { unfold on_heap, memcpy. rewrite Hr. cbn. rewrite Ho. unfold end_. by rewrite Hu. }
  unfold wp at 1. rewrite Hm. apply wp_bind.
  rewrite (wrapU_small 64) by (unfold in_u; lia). rewrite (proj2 (Z.leb_le _ _)) by lia.
  cbn [dbug_assert]. apply wp_ret. apply add_length_holds; [by apply H2|lia|done].
Qed.

Section append.
Context `{L : StringAllocLaws}.

(** [append] of foreign bytes. *)
Lemma append_run F w l s n d :
  holds F w l -> 0 <= n < 2 ^ 62 -> source F s n d ->
  wp (append s n)
    (fun r w' => holds F w' (if r then l else l ++ d) /\
       (extra_alloc (this w') = extra_alloc (this w) \/ extra_alloc (this w') = grow_extra (extra_alloc (this w)))) w.
Proof.
  intros HH Hn (m & o & Hr & ->). pose proof (holds_length _ _ _ HH) as Hs. unfold in_u in Hs.
  unfold append. destruct (Z.eqb_spec n 0) as [->|Hn0].
  { apply wp_ret. change (bytes_at (Z.to_nat 0) m o) with (@nil Z). rewrite app_nil_r. auto. }
  apply wp_bind. cbn [wp self st_gets]. rewrite wrapU_small by (unfold in_u; lia).
  apply wp_bind. eapply wp_mono; [apply (realloc_with_extra_if_needed_run F w l); [done|lia]|].
  intros r w' (H1 & H2 & H3 & H4). destruct r.
  - apply wp_ret. split; [done|]. destruct (_ <? _); auto.
  - apply wp_bind. eapply wp_mono.
    + apply (q_append_run F w' l s n m o); [done|lia|lia|..].
      * eapply readable_weaken; [apply H1|done].
      * eapply source_foreign; [done|lia|done].
    + intros _ w'' [Hh E]. apply wp_ret. split; [done|]. rewrite E. cbn. rewrite H3. destruct (_ <? _); auto.
Qed.

Lemma append_char_run F w l c :
  holds F w l -> str_length (this w) < 2 ^ 32 - 1 ->
  wp (append_char c) (fun r w' => holds F w' (if r then l else l ++ [u8 c])) w.
Proof.
  intros HH Hmax. pose proof (holds_length _ _ _ HH) as Hs. unfold in_u in Hs.
  assert (forall w', holds F w' l -> str_length (this w') = str_length (this w) ->
    str_length (this w') < Alloced_length (this w') ->
    wp (let* s := self in
        assign (fun s => set_str_length (u32 (str_length s + 1)) s);;;
        store_at (str_length s) c;;; st_ret false)
      (fun r w'' => holds F w'' (if r then l else l ++ [u8 c])) w') as Hpush.
  { intros w' HH' E Hlt. apply wp_bind. cbn [wp self st_gets]. apply wp_bind. cbn [wp assign st_modify].
    rewrite (wrapU_small 32) by (unfold in_u; lia). apply wp_bind.
    pose proof (store_at_run F w' l (str_length (this w')) c HH') as Hst.
    unfold wp, store_at, self, st_bind, st_gets, on_heap in Hst |- *. cbn [this hp set_str_length Ptr].
    destruct (update (hp w') _ 1 _) as [h'|]; [|apply Hst; lia].
    destruct Hst as (_ & _ & Hst); [lia|]. cbn. apply Hst; [done|].
    apply wrapU_small; unfold in_u; lia. }
  unfold append_char. apply wp_bind. cbn [wp self st_gets].
  destruct (Z.ltb_spec (str_length (this w)) (Alloced_length (this w))).
  - pose proof (Hpush w HH) as Hp. unfold wp, st_bind, self, st_gets in Hp |- *. apply Hp; done.
  - apply wp_bind. rewrite (wrapU_small 32) by (unfold in_u; lia).
    eapply wp_mono; [apply (realloc_with_extra_run F w l); [done|lia]|].
    intros r w' (H1 & H2 & H3 & H4). destruct r; [by apply wp_ret|].
    pose proof (grow_extra_bounds _ (holds_extra _ _ _ HH)) as (G1 & _ & _).
    apply Hpush; [done|done|lia].
Qed.

End append.

(** ** The operations on the contents *)

Lemma set_length_holds F w l n :
  holds F w l -> 0 <= n <= str_length (this w) ->
  holds F (World (set_str_length n (this w)) (hp w)) (take (Z.to_nat n) l).
Proof.
  intros HH Hn. pose proof (holds_len _ _ _ HH) as Hl. destruct HH as [HF Hs Ha He Hb].
  unfold in_u in *. split; cbn; unfold in_u; try done; [lia|].
  destruct Hb as [H1 H2 H3 H4 ->|b o blk ? ? ? ? ? ? ? ? <-].
  - apply buffer_null; cbn; try done; [lia|by rewrite take_nil].
  - eapply buffer_block; cbn; try done; [lia|].
    replace (Z.to_nat (str_length (this w))) with
      (Z.to_nat n + (Z.to_nat (str_length (this w)) - Z.to_nat n))%nat by lia.
    rewrite bytes_at_app. rewrite take_app_length'; [done|]. unfold bytes_at. by rewrite length_bytes_from.
Qed.

Lemma has_zero_false m o n : has_zero m o n = false <-> Forall (fun c => c <> 0) (bytes_at n m o).
Proof.
  revert o. induction n as [|n IH]; intros o; cbn [has_zero].
  { split; [constructor|done]. }
  unfold bytes_at. cbn [bytes_from]. change (0 + 1) with (1 + 0). rewrite bytes_from_shift.
  rewrite orb_false_iff, IH, Forall_cons, Z.eqb_neq. done.
Qed.

Lemma readable_own F w l :
  holds F w l -> Ptr (this w) <> None ->
  exists m o, readable (hp w) (Ptr (this w)) (str_length (this w)) = Some (m, o) /\
    bytes_at (Z.to_nat (str_length (this w))) m o = l.
Proof.
  intros [_ _ _ _ Hb] Hp. destruct Hb as [|b o blk Hpt Hblk ? ? ? ? ? ? Hl]; [done|].
  exists (data blk), o. split; [|done]. unfold readable. rewrite Hpt. cbn. rewrite Hblk. cbn.
  by rewrite (proj2 (Z.leb_le _ _)), (proj2 (Z.leb_le _ _)) by lia.
Qed.

Lemma chop_run F w l :
  holds F w l -> str_length (this w) <= Alloced_length (this w) ->
  Forall (fun c => c <> 0) (take (List.length l - 1) l) ->
  wp chop (fun _ w' => holds F w' (take (List.length l - 1) l)) w.
Proof.
  intros HH Hw Hz. pose proof (holds_len _ _ _ HH) as Hl. pose proof (holds_length _ _ _ HH) as Hs.
  unfold in_u in Hs. unfold chop. apply wp_bind. cbn [wp self st_gets].
  destruct (nz (str_length (this w))) eqn:E; [apply nz_true in E|apply nz_false in E].
  2: { apply wp_ret. replace (List.length l - 1)%nat with O by lia.
       destruct l; [done|]. simpl in Hl. lia. }
  apply wp_bind. cbn [wp assign st_modify]. apply wp_bind.
  assert (holds F (World (set_str_length (str_length (this w) - 1) (this w)) (hp w))
            (take (List.length l - 1) l)) as H1.
  { replace (List.length l - 1)%nat with (Z.to_nat (str_length (this w) - 1)) by lia.
    apply set_length_holds; [done|lia]. }
  eapply wp_mono; [apply (store_at_run _ _ _ _ 0 H1); cbn; lia|].
  cbn. intros _ w' (E' & H2 & _). apply wp_bind.
  assert (Ptr (this w') <> None) as Hp.
  { destruct H2 as [_ _ _ _ Hb]. destruct Hb; [|congruence]. rewrite E' in *. cbn in *. lia. }
  destruct (readable_own _ _ _ H2 Hp) as (m & o & Hr & Hby).
  unfold wp, strlen_is_length. rewrite Hr. assert (has_zero m o (Z.to_nat (str_length (this w'))) = false) as ->.
  { apply has_zero_false. by rewrite Hby. }
  cbn. done.
Qed.

Section contents.
Context `{L : StringAllocLaws}.

Lemma reserve_run F w l n :
  holds F w l -> 0 <= n -> str_length (this w) + n < 2 ^ 32 - 1 ->
  wp (reserve n) (fun r w' => holds F w' l /\ str_length (this w') = str_length (this w) /\
    (r = false -> str_length (this w) + n < Alloced_length (this w'))) w.
Proof.
  intros HH Hn Hle. pose proof (holds_length _ _ _ HH) as Hs. unfold in_u in Hs.
  unfold reserve. apply wp_bind. cbn [wp self st_gets]. rewrite !(wrapU_small 64) by (unfold in_u; lia).
  rewrite (proj2 (Z.ltb_lt _ _)) by lia. cbn [dbug_assert]. apply wp_bind, wp_ret.
  eapply wp_mono; [apply (realloc_run F w l); [done|lia]|].
  intros r w' (H1 & _ & H2 & H3). split_and!; [done|done|]. intros ->. lia.
Qed.

Lemma grow_step_run F w l n step :
  holds F w l -> 0 < n -> 0 <= step -> str_length (this w) + n + step < 2 ^ 32 ->
  wp (if Alloced_length (this w) <? n + str_length (this w)
      then realloc (n + str_length (this w) + step) else st_ret false)
    (fun r w' => holds F w' l /\ str_length (this w') = str_length (this w) /\
       (r = false -> str_length (this w) + n <= Alloced_length (this w'))) w.
Proof.
  intros HH Hn Hst Hle. pose proof (holds_length _ _ _ HH) as Hs. unfold in_u in Hs.
  destruct (Z.ltb_spec (Alloced_length (this w)) (n + str_length (this w))).
  - eapply wp_mono; [apply (realloc_run F w l); [done|lia]|].
    intros r w' (H1 & _ & H2 & H3). split_and!; [done|done|]. intros ->. lia.
  - apply wp_ret. split_and!; [done|done|lia].
Qed.

Lemma append_with_step_run F w l s n step d :
  holds F w l -> 0 < n -> 0 <= step -> str_length (this w) + n + step < 2 ^ 32 -> source F s n d ->
  wp (append_with_step s n step) (fun r w' => holds F w' (if r then l else l ++ d)) w.
Proof.
  intros HH Hn Hst Hle (m & o & Hr & ->). pose proof (holds_length _ _ _ HH) as Hs. unfold in_u in Hs.
  unfold append_with_step. apply wp_bind. cbn [wp self st_gets].
  rewrite !(wrapU_small 32) by (unfold in_u; try rewrite (wrapU_small 32); unfold in_u; lia).
  apply wp_bind.
  eapply wp_mono; [apply (grow_step_run F w l n step); done|]. intros r w' (H1 & H2 & H3). destruct r; [by apply wp_ret|].
  apply wp_bind. specialize (H3 eq_refl). eapply wp_mono.
  - apply (q_append_run F w' l s n m o); [done|lia|lia|..].
    + eapply readable_weaken; [apply H1|done].
    + eapply source_foreign; [done|lia|done].
  - intros _ w'' [Hh _]. by apply wp_ret.
Qed.

(** [prep_append] hands out [n] bytes of the buffer, which become part of the
    contents whatever the caller writes there. *)
Lemma prep_append_run F w l n step :
  holds F w l -> 0 < n -> 0 <= step -> str_length (this w) + n + step < 2 ^ 32 ->
  wp (prep_append n step) (fun r w' =>
    match r with
    | None => holds F w' l
    | Some _ => r = ptr_add (Ptr (this w')) (str_length (this w)) /\
        str_length (this w') = str_length (this w) + n /\ str_length (this w') <= Alloced_length (this w') /\
        exists d, holds F w' (l ++ d)
    end) w.
Proof.
  intros HH Hn Hst Hle. pose proof (holds_length _ _ _ HH) as Hs. unfold in_u in Hs.
  unfold prep_append. apply wp_bind. cbn [wp self st_gets].
  rewrite !(wrapU_small 32) by (unfold in_u; try rewrite (wrapU_small 32); unfold in_u; lia).
  apply wp_bind.
  eapply wp_mono; [apply (grow_step_run F w l n step); done|]. intros r w' (H1 & H2 & H3). destruct r; [by apply wp_ret|].
  specialize (H3 eq_refl). apply wp_bind. cbn [wp self st_gets]. apply wp_bind.
  pose proof (holds_alloced _ _ _ H1) as Ha. unfold in_u in Ha.
  unfold wp, add_length. cbn. rewrite (wrapU_small 32 n), (wrapU_small 32) by (unfold in_u; lia).
  destruct H1 as [HF Hs' Ha' He Hb].
  destruct Hb as [|b o blk Hp Hblk ? ? ? ? ? ? Hl]; [lia|]. rewrite Hp. cbn.
  rewrite H2. split_and!; [done|done|lia|].
  eexists. split; cbn; try done; [unfold in_u; lia|].
  eapply buffer_block; cbn; try done; [lia|]. idtac. rewrite Z2Nat.inj_add by lia. rewrite bytes_at_app.
  by rewrite <- Hl, H2.
Qed.

Lemma c_ptr_safe_run F w l :
  holds F w l ->
  wp c_ptr_safe (fun p w' => holds F w' l /\ p = Ptr (this w') /\ str_length (this w') = str_length (this w)) w.
Proof.
  intros HH. pose proof (holds_length _ _ _ HH) as Hs. unfold in_u in Hs.
  unfold c_ptr_safe. apply wp_bind. cbn [wp self st_gets]. apply wp_bind.
  assert (wp (if bool_decide (Ptr (this w) <> None) && (str_length (this w) <? Alloced_length (this w))
              then store_at (str_length (this w)) 0 else realloc (str_length (this w));;; st_ret tt)
            (fun _ w' => holds F w' l /\ str_length (this w') = str_length (this w)) w) as Hw.
  { destruct (bool_decide _ && _) eqn:E.
    - apply andb_true_iff in E as [_ E%Z.ltb_lt].
      eapply wp_mono; [apply (store_at_run F w l); [done|lia]|]. cbn. intros _ w' (E' & H & _). by rewrite E'.
    - apply wp_bind. eapply wp_mono; [apply (realloc_run F w l); [done|lia]|].
      intros r w' (H1 & _ & H2 & _). by apply wp_ret. }
  eapply wp_mono; [exact Hw|]. intros _ w' [H1 H2]. apply wp_bind. cbn. done.
Qed.

End contents.

(** ** Hexadecimal and binary numbers *)

Definition hex_of (dig : Z -> Z) (d : list Z) : list Z :=
  flat_map (fun c => [u8 (dig (Z.shiftr c 4)); u8 (dig (Z.land c 15))]) d.

(** Reading back two digits per byte. *)
Fixpoint from_hex (val : Z -> Z) (l : list Z) : list Z :=
  match l with
  | hi :: lo :: l => Z.lor (Z.shiftl (val hi) 4) (val lo) :: from_hex val l
  | _ => []
  end.

Lemma from_hex_of dig val d :
  (forall i, 0 <= i < 16 -> val (u8 (dig i)) = i) -> Forall (in_u 8) d -> from_hex val (hex_of dig d) = d.
Proof.
  intros Hv. induction 1 as [|c d Hc _ IH]; [done|].
  change (hex_of dig (c :: d)) with (u8 (dig (Z.shiftr c 4)) :: u8 (dig (Z.land c 15)) :: hex_of dig d).
  cbn [from_hex]. rewrite IH. f_equal. unfold in_u in Hc. rewrite !Hv.
  - change 15 with (Z.ones 4). apply Z.bits_inj'. intros i Hi.
    rewrite Z.lor_spec, Z.shiftl_spec by done. destruct (Z.ltb_spec i 4).
    + rewrite Z.testbit_neg_r by lia. rewrite Z.land_spec, Z.ones_spec_low by lia. btauto.
    + rewrite Z.shiftr_spec by lia. rewrite Z.land_spec, Z.ones_spec_high by lia.
      replace (i - 4 + 4) with i by lia. btauto.
  - change 15 with (Z.ones 4). rewrite Z.land_ones by done. apply Z.mod_pos_bound. done.
  - rewrite Z.shiftr_div_pow2 by done. split; [apply Z.div_pos; lia|]. apply Z.div_lt_upper_bound; lia.
Qed.

Lemma hex_of_length dig d : List.length (hex_of dig d) = (2 * List.length d)%nat.
Proof. unfold hex_of. induction d as [|c d IH]; [done|]. cbn. rewrite IH. lia. Qed.

Lemma readable_byte F h b o n i m o' :
  F ⊆ h -> readable F (Some (b, o)) n = Some (m, o') -> 0 <= i < n ->
  readable h (Some (b, o + i)) 1 = Some (m, o' + i).
Proof.
  intros HF Hr Hi. apply (readable_weaken F); [done|]. unfold readable in *. cbn in *.
  destruct (F !! b) as [blk|]; cbn in *; [|done].
  destruct (Z.leb_spec 0 o), (Z.leb_spec (o + n) (blk_size blk)); cbn in Hr; try done.
  injection Hr as <- <-. by rewrite (proj2 (Z.leb_le _ _)), (proj2 (Z.leb_le _ _)) by lia.
Qed.

Section hex.
Context `{L : StringAllocLaws}.
Context (dig : Z -> Z).

(** On failure a prefix of the digits has been appended. *)
Lemma append_hex_run F n : forall w l s k i m o,
  holds F w l -> readable F s k = Some (m, o) -> 0 <= i -> i + Z.of_nat n <= k ->
  str_length (this w) + 2 * Z.of_nat n < 2 ^ 32 ->
  wp (append_hex dig s i n) (fun r w' =>
    let h := hex_of dig (bytes_at n m (o + i)) in
    if r then exists j, holds F w' (l ++ take j h) else holds F w' (l ++ h)) w.
Proof.
  induction n as [|n IH]; intros w l s k i m o HH Hr Hi Hk Hlen; cbn [append_hex].
  { apply wp_ret. cbn. by rewrite app_nil_r. }
  assert (bytes_at (S n) m (o + i) = m (o + i) :: bytes_at n m (o + (i + 1))) as Hb.
  { change (S n) with (1 + n)%nat. rewrite bytes_at_app. change (Z.of_nat 1) with 1.
    replace (o + i + 1) with (o + (i + 1)) by lia. unfold bytes_at at 1. cbn [bytes_from app]. unfold ix.
    by rewrite Z.add_0_r. }
  destruct s as [[b ob]|]; [|done].
  apply wp_bind. assert (byte_at (Some (b, ob)) i w = Some (m (o + i), w)) as Hc.
  { unfold byte_at. cbn [ptr_add]. pose proof (readable_byte F (hp w) b ob k i m o (holds_frame _ _ _ HH) Hr) as Hrb.
    rewrite Hrb by lia. unfold ix. by rewrite Z.add_0_r. }
  unfold wp at 1. rewrite Hc. apply wp_bind.
  eapply wp_mono; [apply (append_char_run F w l); [done|lia]|].
  intros r1 w1 H1. destruct r1.
  { apply wp_ret. exists O. by rewrite take_0, app_nil_r. }
  pose proof (holds_len _ _ _ H1) as L1. pose proof (holds_len _ _ _ HH) as L0.
  rewrite length_app in L1. cbn in L1.
  apply wp_bind. eapply wp_mono; [apply (append_char_run F w1); [done|lia]|].
  intros r2 w2 H2. destruct r2.
  { apply wp_ret. exists 1%nat. cbv zeta. rewrite Hb. exact H2. }
  pose proof (holds_len _ _ _ H2) as L2. rewrite !length_app in L2. cbn in L2.
  eapply wp_mono; [eapply IH; [exact H2|exact Hr|lia..]|].
  cbv beta zeta. rewrite Hb. intros r w' Hw'. rewrite <- !app_assoc in Hw'. cbn [app] in Hw'.
  destruct r; [|exact Hw']. destruct Hw' as [j Hw']. rewrite <- !app_assoc in Hw'. exists (S (S j)). exact Hw'.
Qed.

End hex.

Section numbers.
Context (bo : byte_order) `{!ByteOrderLaws bo}.

Lemma q_append_store_run F w l ds f :
  holds F w l -> (0 < List.length ds < 256)%nat ->
  str_length (this w) + Z.of_nat (List.length ds) <= Alloced_length (this w) ->
  (forall m T, written m (f m T) T ds) ->
  wp (assert_length (Z.of_nat (List.length ds));;;
      let* s := self in
      on_heap (fun h => update h (end_ s) (Z.of_nat (List.length ds)) f);;;
      add_length (Z.of_nat (List.length ds)))
    (fun _ w' => holds F w' (l ++ ds)) w.
Proof.
  intros HH Hds Hle Hf. pose proof (holds_length _ _ _ HH) as Hs. pose proof (holds_alloced _ _ _ HH) as Ha.
  unfold in_u in Hs, Ha. set (n := Z.of_nat (List.length ds)) in *.
  apply wp_bind. unfold assert_length. apply wp_bind. cbn [wp self st_gets].
  rewrite (wrapU_small 32 n), (wrapU_small 32) by (unfold in_u; lia).
  rewrite (proj2 (Z.leb_le _ _)) by lia. cbn [dbug_assert]. apply wp_ret.
  apply wp_bind. cbn [wp self st_gets]. apply wp_bind.
  destruct (update_run F w l (str_length (this w)) ds f HH) as (h' & Hu & _ & H2 & _);
    [lia|lia|fold n; lia|done|]. fold n in Hu, H2.
  unfold wp at 1, on_heap. unfold end_. rewrite Hu.
  eapply wp_mono; [apply add_length_holds; [by apply H2|lia|done]|]. by intros ? ? [? _].
Qed.

Lemma q_append_uint32_run F w l n :
  holds F w l -> str_length (this w) + 4 <= Alloced_length (this w) ->
  wp (q_append_uint32 bo n) (fun _ w' => holds F w' (l ++ to_digits 8 4 n)) w.
Proof.
  intros HH Hle. apply (q_append_store_run F w l (to_digits 8 4 n) (fun m o => bo_int4store bo m o n));
    [done|cbn; lia|cbn; lia|]. intros. apply law_store4.
Qed.

Lemma q_append2b_run F w l n :
  holds F w l -> str_length (this w) + 2 <= Alloced_length (this w) ->
  wp (q_append2b bo n) (fun _ w' => holds F w' (l ++ to_digits 8 2 n)) w.
Proof.
  intros HH Hle. apply (q_append_store_run F w l (to_digits 8 2 n) (fun m o => bo_int2store bo m o n));
    [done|cbn; lia|cbn; lia|]. intros. apply law_store2.
Qed.

Lemma write_at_position_run F w l pos v :
  holds F w l -> 0 <= pos -> pos + 4 <= str_length (this w) <= Alloced_length (this w) ->
  wp (write_at_position bo pos v) (fun _ w' => this w' = this w /\
    holds F w' (take (Z.to_nat pos) l ++ to_digits 8 4 v ++ drop (Z.to_nat pos + 4) l)) w.
Proof.
  intros HH Hp Hle. pose proof (holds_length _ _ _ HH) as Hs. unfold in_u in Hs.
  unfold write_at_position. apply wp_bind. cbn [wp self st_gets].
  rewrite (wrapU_small 32) by (unfold in_u; lia). rewrite (proj2 (Z.leb_le _ _)) by lia.
  cbn [dbug_assert]. apply wp_bind, wp_ret.
  destruct (update_run F w l pos (to_digits 8 4 v) (fun m o => bo_int4store bo m o v) HH) as (h' & Hu & _ & _ & H3);
    [lia|cbn; lia|cbn; lia|intros; apply law_store4|].
  change (Z.of_nat (List.length (to_digits 8 4 v))) with 4 in *.
  unfold wp, on_heap. rewrite Hu. split; [done|]. apply H3. lia.
Qed.

End numbers.

(** ** An allocator that satisfies the laws

    Used by the witnesses: a request above the buffer gets a block of exactly
    the requested size, one that does not fit [uint32] fails. *)

#[local] Instance malloc : StringAlloc := {
  realloc_raw n := fun w =>
    let s := this w in
    if Alloced_length s <? n then
      if 2 ^ 32 <=? n then Some (true, w)
      else
        let nb := fresh (dom (hp w)) in
        let old := match Ptr s with
                   | Some (b, o) => match hp w !! b with
                                    | Some blk => fun x => data blk (o + x)
                                    | None => fun _ => 0
                                    end
                   | None => fun _ => 0
                   end in
        Some (false, World (set_Ptr (Some (nb, 0)) (set_Alloced_length n (set_alloced_flag true s)))
                (<[nb := Block n old true true]>
                   match Ptr s, alloced s with
                   | Some (b, _), true => delete b (hp w)
                   | _, _ => hp w
                   end))
    else Some (false, w);
  real_alloc n := fun w =>
    let s := this w in
    if 2 ^ 32 - 1 <=? n then Some (true, w)
    else
      let nb := fresh (dom (hp w)) in
      Some (false, World (set_Ptr (Some (nb, 0))
                            (set_str_length 0 (set_Alloced_length (n + 1) (set_alloced_flag true s))))
              (<[nb := Block (n + 1) (fun _ => 0) true true]>
                 match Ptr s, alloced s with
                 | Some (b, _), true => delete b (hp w)
                 | _, _ => hp w
                 end))
}.

#[local] Instance malloc_laws : StringAllocLaws malloc.
Proof.
  split.
  - intros F w l n HH Hn. cbn. destruct (Z.ltb_spec (Alloced_length (this w)) n); [|auto].
    destruct (Z.leb_spec (2 ^ 32) n); [auto|]. right; right. split; [done|].
    exists n. eexists. split; [done|]. split; [lia|].
    exists (fresh (dom (hp w))). eexists. split; [|split; [done|split; [|done]]].
    + apply not_elem_of_dom. apply is_fresh.
    + pose proof (holds_len _ _ _ HH) as Hl. destruct HH as [_ _ _ _ Hb].
      destruct Hb as [Hp ? ? ? ->|b o blk Hp Hblk ? ? ? ? ? ? Hc]; [done|].
      rewrite Hp, Hblk. rewrite <- Hl, Nat2Z.id in Hc. rewrite <- Hc at 2.
      refine (eq_sym (bytes_from_ext (List.length l) (fun x => data blk (o + x)) (data blk) 0 0 o _)).
      intros x Hx. f_equal. lia.
  - intros F w l n HH Hn. unfold wp. cbn. destruct (Z.leb_spec (2 ^ 32 - 1) n); [done|]. intros _.
    set (n1 := n + 1). set (w1 := World (set_str_length 0 (this w)) (hp w)).
    assert (holds F w1 []) as H1.
    { change (@nil Z) with (take 0 l). change 0%nat with (Z.to_nat 0). apply set_length_holds; [done|].
      split; [done|]. apply HH. }
    destruct (moved_holds F w1 (World (set_Ptr (Some (fresh (dom (hp w)), 0))
                (set_str_length 0 (set_Alloced_length n1 (set_alloced_flag true (this w)))))
              (<[fresh (dom (hp w)) := Block n1 (fun _ => 0) true true]>
                 match Ptr (this w), alloced (this w) with
                 | Some (b, _), true => delete b (hp w)
                 | _, _ => hp w
                 end)) n1 []) as (G1 & _ & G2 & _); [done| |cbn; lia|lia|].
    + exists (fresh (dom (hp w))), (fun _ => 0). split_and!; try done.
      apply not_elem_of_dom. apply is_fresh.
    + split; [exact G1|]. cbn. lia.
Qed.

(** ** The operations as one interface *)

Inductive op :=
  | OAppend (s : ptr) (n : Z) | OAppendChar (c : Z) | OStep (s : ptr) (n step : Z)
  | OReserve (n : Z) | OChop | OTruncate (n : Z) | OCPtr
  | OSetConst (s : ptr) (n : Z) | OExtra (n : Z) | OThread | OMarkConst | OFree.

Section ops.
Context `{StringAlloc}.

Definition exec (o : op) : M bool :=
  match o with
  | OAppend s n => append s n
  | OAppendChar c => append_char c
  | OStep s n step => append_with_step s n step
  | OReserve n => reserve n
  | OChop => chop;;; st_ret false
  | OTruncate n => set_length n;;; st_ret false
  | OCPtr => c_ptr_safe;;; st_ret false
  | OSetConst s n => set_const s n;;; st_ret false
  | OExtra n => extra_allocation n;;; st_ret false
  | OThread => set_thread_specific;;; st_ret false
  | OMarkConst => mark_as_const;;; st_ret false
  | OFree => free;;; st_ret false
  end.

Fixpoint exec_all (os : list op) : M (list bool) :=
  match os with
  | [] => st_ret []
  | o :: os => let* r := exec o in let* rs := exec_all os in st_ret (r :: rs)
  end.

End ops.

(** What a caller has to respect: sources that exist and that the string does not
    own, lengths within 32 bits, and [chop] on writable text without zeros. *)
Definition op_ok (F : heap) (w : world) (l : list Z) (o : op) : Prop :=
  match o with
  | OAppend s n => 0 <= n < 2 ^ 62 /\ is_Some (readable F s n)
  | OAppendChar c => Z.of_nat (List.length l) < 2 ^ 32 - 1
  | OStep s n step => 0 < n /\ 0 <= step /\ Z.of_nat (List.length l) + n + step < 2 ^ 32 /\ is_Some (readable F s n)
  | OReserve n => 0 <= n /\ Z.of_nat (List.length l) + n < 2 ^ 32 - 1
  | OChop => str_length (this w) <= Alloced_length (this w) /\
             Forall (fun c => c <> 0) (take (List.length l - 1) l)
  | OTruncate n => 0 <= n <= Z.of_nat (List.length l)
  | OSetConst s n => 0 <= n < 2 ^ 32 /\ is_Some (readable F s n)
  | _ => True
  end.

Definition text_of (F : heap) (s : ptr) (n : Z) : list Z :=
  match readable F s n with Some (m, o) => bytes_at (Z.to_nat n) m o | None => [] end.

(** The sequence of bytes that an operation leaves; [r] is its result, where
    [true] is failure. *)
Definition op_spec (F : heap) (o : op) (r : bool) (l : list Z) : list Z :=
  match o with
  | OAppend s n | OStep s n _ => if r then l else l ++ text_of F s n
  | OAppendChar c => if r then l else l ++ [u8 c]
  | OChop => take (List.length l - 1) l
  | OTruncate n => take (Z.to_nat n) l
  | OSetConst s n => text_of F s n
  | OFree => []
  | _ => l
  end.

Lemma text_source F s n : is_Some (readable F s n) -> source F s n (text_of F s n).
Proof. intros [[m o] E]. exists m, o. unfold text_of. by rewrite E. Qed.

Lemma free_buffer_run F w l :
  holds F w l ->
  wp free_buffer (fun _ w' => F ⊆ hp w' /\ this w' = set_alloced_flag false (this w) /\
    hp w' = match Ptr (this w), alloced (this w) with
            | Some (b, _), true => delete b (hp w)
            | _, _ => hp w
            end) w.
Proof.
  intros [HF Hl Ha He Hb]. unfold free_buffer. apply wp_bind. cbn [wp self st_gets].
  destruct Hb as [Hp ? ? Hal ->|b o blk Hp Hblk ? ? ? ? Hfr Hown ?].
  - rewrite Hal. cbn. rewrite Hp. destruct w as [[] ?]. cbn in *. by subst.
  - destruct (alloced (this w)) eqn:E.
    + destruct Hown as [-> Hm]; [done|]. apply wp_bind. cbn [wp assign st_modify]. unfold wp, on_heap. cbn.
      rewrite Hp. cbn. rewrite Hblk. cbn. rewrite Hm. cbn. split_and!; [|done|done].
      apply map_subseteq_spec. intros i x Hi. rewrite lookup_delete_ne; [by eapply lookup_weaken|].
      intros <-. rewrite Hfr in Hi by auto. done.
    + cbn. rewrite Hp. destruct w as [[] ?]. cbn in *. by subst.
Qed.

Lemma free_run F w l :
  holds F w l -> wp free (fun _ w' => holds F w' [] /\ alloced (this w') = false /\ Ptr (this w') = None) w.
Proof.
  intros HH. unfold free. apply wp_bind. eapply wp_mono; [by apply (free_buffer_run F w l)|].
  intros _ w' (H1 & H2 & _). cbn. split; [|by rewrite H2].
  split; cbn; try done. apply buffer_null; cbn; try done. by rewrite H2.
Qed.

Lemma set_const_run F w l s n :
  holds F w l -> 0 <= n < 2 ^ 32 -> is_Some (readable F s n) ->
  wp (set_const s n) (fun _ w' => holds F w' (text_of F s n) /\ Alloced_length (this w') = 0) w.
Proof.
  intros HH Hn [[m o] Hr]. pose proof (holds_extra _ _ _ HH) as He.
  unfold set_const. apply wp_bind. eapply wp_mono; [by apply (free_buffer_run F w l)|].
  intros _ w' (H1 & H2 & _). cbn. split; [|done]. split; cbn; try done.
  - by apply wrapU_range.
  - by rewrite H2.
  - rewrite wrapU_small by done. unfold text_of. rewrite Hr.
    unfold readable in Hr. destruct s as [[b o']|]; cbn in Hr; [|done].
    destruct (F !! b) as [blk|] eqn:Eb; cbn in Hr; [|done].
    destruct (Z.leb_spec 0 o'), (Z.leb_spec (o' + n) (blk_size blk)); cbn in Hr; try done.
    injection Hr as <- <-.
    eapply (buffer_block _ _ _ _ b o' blk); cbn; try done; try lia.
    + by eapply lookup_weaken.
    + rewrite H2. cbn. intros [?|?]; [lia|done].
    + by rewrite H2.
Qed.

Lemma exec_run `{L : StringAllocLaws} F w l o :
  holds F w l -> op_ok F w l o -> wp (exec o) (fun r w' => holds F w' (op_spec F o r l)) w.
Proof.
  intros HH Hok. pose proof (holds_len _ _ _ HH) as Hl. pose proof (holds_length _ _ _ HH) as Hs.
  destruct o; cbn [exec op_ok op_spec] in *; rewrite ?Hl in Hok.
  - destruct Hok as [Hn Hsrc%text_source]. eapply wp_mono; [by apply (append_run F w l s n (text_of F s n))|].
    intros r w' [H1 _]. by destruct r.
  - by apply append_char_run.
  - destruct Hok as (H1 & H2 & H3 & Hsrc%text_source). by apply append_with_step_run.
  - destruct Hok as [H1 H2]. eapply wp_mono; [by apply (reserve_run F w l)|]. by intros r w' [? _].
  - destruct Hok as [H1 H2]. apply wp_bind. eapply wp_mono; [by apply (chop_run F w l)|]. by intros.
  - apply wp_bind. cbn. rewrite wrapU_small by (unfold in_u in *; lia). by apply set_length_holds.
  - apply wp_bind. eapply wp_mono; [by apply (c_ptr_safe_run F w l)|]. cbn. by intros p w' [? _].
  - destruct Hok as [H1 H2]. apply wp_bind. eapply wp_mono; [by apply (set_const_run F w l s n)|].
    cbn. by intros _ w' [? _].
  - cbn. apply assign_extra_holds; [done|]. by apply wrapU_range.
  - apply wp_bind. cbn [set_thread_specific]. unfold set_thread_specific. apply wp_bind. cbn [wp self st_gets].
    destruct (alloced (this w)) eqn:E; cbn; [done|]. destruct HH as [? ? ? ? Hb]. split; try done. cbn.
    destruct Hb; [by apply buffer_null|by eapply buffer_block].
  - cbn. destruct HH as [? ? ? ? Hb]. split; cbn; try done.
    destruct Hb as [|b o blk]; [by apply buffer_null|]. eapply (buffer_block _ _ _ _ b o blk); cbn; try done; try lia.
    intros [?|?]; [lia|auto].
  - apply wp_bind. eapply wp_mono; [by apply (free_run F w l)|]. cbn. by intros _ w' [? _].
Qed.

Fixpoint ops_ok `{StringAlloc} (F : heap) (w : world) (l : list Z) (os : list op) : Prop :=
  match os with
  | [] => True
  | o :: os => op_ok F w l o /\
      forall r w', exec o w = Some (r, w') -> ops_ok F w' (op_spec F o r l) os
  end.

Fixpoint ops_spec (F : heap) (os : list op) (rs : list bool) (l : list Z) : list Z :=
  match os, rs with
  | o :: os, r :: rs => ops_spec F os rs (op_spec F o r l)
  | _, _ => l
  end.

(** ** Two strings and one heap *)

(** The block that a string will free. *)
Definition owned (s : Binary_string) : gset nat :=
  match Ptr s with Some (b, _) => if alloced s then {[ b ]} else ∅ | None => ∅ end.

Definition owns_well (h : heap) (s : Binary_string) : Prop :=
  alloced s = true -> exists b blk, Ptr s = Some (b, 0) /\ h !! b = Some blk /\ malloced blk = true.

(** Every block outside [F] is freed by exactly one of the two strings. *)
Record owners (F : heap) (w : world) (s : Binary_string) : Prop := Owners {
  owners_frame : F ⊆ hp w;
  owners_dom : dom (hp w) = dom F ∪ owned (this w) ∪ owned s;
  owners_F1 : dom F ## owned (this w);
  owners_F2 : dom F ## owned s;
  owners_disj : owned (this w) ## owned s;
  owners_this : owns_well (hp w) (this w);
  owners_other : owns_well (hp w) s;
  owners_len1 : 0 <= Alloced_length (this w) < 2 ^ 32 - 1;
  owners_len2 : 0 <= Alloced_length s < 2 ^ 32 - 1
}.

(** The ways one string takes the buffer of the other, and a change of roles. *)
Inductive xfer := XSwap | XMove | XAssign | XCopy | XFlip.

Definition exec_x (x : xfer) (s : Binary_string) : M Binary_string :=
  match x with
  | XSwap => swap s
  | XMove => move s
  | XAssign => op_assign false s;;; st_ret s
  | XCopy => free;;; assign (fun _ => Binary_string_copy s);;; st_ret s
  | XFlip => let* t := self in assign (fun _ => s);;; st_ret t
  end.

(** [operator=] asserts that the source does not lie in the target's buffer. *)
Definition x_ok (x : xfer) (w : world) (s : Binary_string) : bool :=
  match x with XAssign => negb (uses_buffer_owned_by s (this w)) | _ => true end.

Fixpoint exec_xs (xs : list xfer) (s : Binary_string) : M Binary_string :=
  match xs with
  | [] => st_ret s
  | x :: xs => fun w => if x_ok x w s then st_bind (exec_x x s) (exec_xs xs) w else Some (s, w)
  end.

(** The destructors of both. *)
Definition free_both (s : Binary_string) : M unit := free;;; assign (fun _ => s);;; free.

Definition drop_owned (h : heap) (s : Binary_string) : heap :=
  match Ptr s, alloced s with Some (b, _), true => delete b h | _, _ => h end.

Lemma drop_owned_dom h s : dom (drop_owned h s) = dom h ∖ owned s.
Proof.
  unfold drop_owned, owned. destruct (Ptr s) as [[b o]|], (alloced s); try set_solver.
Qed.

Lemma drop_owned_lookup h s i : i ∉ owned s -> drop_owned h s !! i = h !! i.
Proof.
  unfold drop_owned, owned. destruct (Ptr s) as [[b o]|], (alloced s); try done.
  intros Hi. apply lookup_delete_ne. set_solver.
Qed.

Lemma drop_owned_frame F h s : F ⊆ h -> dom F ## owned s -> F ⊆ drop_owned h s.
Proof.
  intros HF Hd. apply map_subseteq_spec. intros i x Hi. rewrite drop_owned_lookup.
  - by eapply lookup_weaken.
  - apply elem_of_dom_2 in Hi. set_solver.
Qed.

Lemma free_buffer_owned w :
  owns_well (hp w) (this w) ->
  wp free_buffer (fun _ w' => w' = World (set_alloced_flag false (this w)) (drop_owned (hp w) (this w))) w.
Proof.
  intros Hw. unfold free_buffer. apply wp_bind. cbn [wp self st_gets]. unfold drop_owned.
  destruct (alloced (this w)) eqn:E.
  - destruct (Hw E) as (b & blk & Hp & Hb & Hm). apply wp_bind. cbn [wp assign st_modify]. unfold wp, on_heap. cbn.
    rewrite Hp. cbn. rewrite Hb. cbn. by rewrite Hm.
  - destruct w as [[p] h]. cbn in *. subst. by destruct p as [[]|].
Qed.

Lemma free_owned w :
  owns_well (hp w) (this w) ->
  wp free (fun _ w' => owned (this w') = ∅ /\ hp w' = drop_owned (hp w) (this w)) w.
Proof.
  intros Hw. unfold free. apply wp_bind. eapply wp_mono; [by apply free_buffer_owned|].
  by intros _ w' ->.
Qed.

Lemma set_alloced_owned w p n a :
  owns_well (hp w) (this w) -> 0 <= a < 2 ^ 32 - 1 ->
  wp (set_alloced p n a) (fun _ w' => alloced (this w') = false /\ Ptr (this w') = p /\
    Alloced_length (this w') = a /\ hp w' = drop_owned (hp w) (this w)) w.
Proof.
  intros Hw Ha. unfold set_alloced. apply wp_bind. eapply wp_mono; [by apply free_buffer_owned|].
  intros _ w' ->. apply wp_bind. cbn [wp assign st_modify]. apply wp_bind. cbn [wp assign st_modify].
  rewrite (proj2 (Z.ltb_lt _ _)) by lia. cbn. rewrite wrapU_small by (unfold in_u; lia). done.
Qed.

Lemma owned_unalloced s : alloced s = false -> owned s = ∅.
Proof. unfold owned. intros ->. by destruct (Ptr s) as [[]|]. Qed.

Lemma owns_well_drop h s t : owns_well h s -> owned t ## owned s -> owns_well (drop_owned h t) s.
Proof.
  intros Hw Hd E. destruct (Hw E) as (b & blk & Hp & Hb & Hm). exists b, blk. split_and!; try done.
  rewrite drop_owned_lookup; [done|]. unfold owned in Hd at 2. rewrite Hp, E in Hd. set_solver.
Qed.

Lemma owners_flip F w s : owners F w s -> owners F (World s (hp w)) (this w).
Proof.
  intros [H1 H2 H3 H4 H5 H6 H7 H8 H9]. split; cbn; try done.
  rewrite H2. clear. set_solver.
Qed.

(** Only these three fields matter. *)
Definition same_buffer (s t : Binary_string) : Prop :=
  Ptr s = Ptr t /\ alloced s = alloced t /\ Alloced_length s = Alloced_length t.

Lemma owners_same F t s t' s' h :
  owners F (World t h) s -> same_buffer t' t -> same_buffer s' s -> owners F (World t' h) s'.
Proof.
  intros [H1 H2 H3 H4 H5 H6 H7 H8 H9] (A1 & A2 & A3) (B1 & B2 & B3). cbn in *.
  assert (owned t' = owned t) as Ot by (unfold owned; by rewrite A1, A2).
  assert (owned s' = owned s) as Os by (unfold owned; by rewrite B1, B2).
  split; cbn; rewrite ?Ot, ?Os, ?A3, ?B3; try done; unfold owns_well in *; by rewrite ?A1, ?A2, ?B1, ?B2.
Qed.

(** What remains when the first string has let go of its buffer. *)
Lemma owners_dropped F w s t h :
  owners F w s -> h = drop_owned (hp w) (this w) -> alloced t = false -> 0 <= Alloced_length t < 2 ^ 32 - 1 ->
  owners F (World t h) s.
Proof.
  intros [H1 H2 H3 H4 H5 H6 H7 H8 H9] -> Ht Hl. pose proof (owned_unalloced t Ht) as Ho.
  split; cbn; rewrite ?Ho; try done.
  - by apply drop_owned_frame.
  - rewrite drop_owned_dom, H2. clear - H3 H5. set_solver.
  - unfold owns_well. by rewrite Ht.
  - by apply owns_well_drop.
Qed.

Lemma exec_x_owners F w s x :
  owners F w s -> x_ok x w s = true -> wp (exec_x x s) (fun s' w' => owners F w' s') w.
Proof.
  intros HO Hok. pose proof HO as [H1 H2 H3 H4 H5 H6 H7 H8 H9]. destruct x; cbn [exec_x x_ok] in *.
  - unfold swap. cbn. eapply owners_same; [by apply owners_flip|..]; done.
  - unfold move. apply wp_bind. eapply wp_mono; [by apply (set_alloced_owned w (Ptr s) (str_length s))|].
    intros _ w' (E1 & E2 & E3 & E4). cbn.
    pose proof (owners_flip _ _ _ (owners_dropped F w s (set_alloced_flag false s) (hp w') HO E4 eq_refl H9)) as HO'.
    eapply owners_same; [exact HO'|by split_and!|done].
  - unfold op_assign. cbn [negb]. apply wp_bind, wp_bind. cbn [wp self st_gets]. apply wp_bind.
    rewrite Hok. cbn [dbug_assert]. apply wp_ret.
    eapply wp_mono; [by apply (set_alloced_owned w (Ptr s) (str_length s))|].
    intros _ w' (E1 & E2 & E3 & E4). apply wp_ret. destruct w' as [t' h'].
    eapply owners_dropped; [done|done|done|]. cbn in E3. by rewrite E3.
  - apply wp_bind. eapply wp_mono; [by apply free_owned|]. intros _ w' [_ E]. cbn.
    by eapply owners_dropped.
  - cbn. by apply owners_flip.
Qed.

Lemma exec_xs_owners F xs w s :
  owners F w s -> wp (exec_xs xs s) (fun s' w' => owners F w' s') w.
Proof.
  revert w s. induction xs as [|x xs IH]; intros w s HO; [done|]. cbn [exec_xs].
  unfold wp. destruct (x_ok x w s) eqn:E; [|done].
  apply wp_bind. eapply wp_mono; [by apply (exec_x_owners F)|]. intros s' w' H. by apply IH.
Qed.

Lemma free_both_owners F w s :
  owners F w s -> wp (free_both s) (fun _ w' => hp w' = F) w.
Proof.
  intros HO. pose proof HO as [H1 H2 H3 H4 H5 H6 H7 H8 H9]. unfold free_both.
  apply wp_bind. eapply wp_mono; [by apply free_owned|]. intros _ w1 [_ E].
  apply wp_bind. cbn [wp assign st_modify]. rewrite E.
  assert (owns_well (drop_owned (hp w) (this w)) s) as Hs by (by apply owns_well_drop).
  eapply wp_mono; [apply free_owned; exact Hs|]. intros _ w2 [_ ->]. cbn.
  assert (F ⊆ drop_owned (drop_owned (hp w) (this w)) s) as HF by (apply drop_owned_frame; [by apply drop_owned_frame|done]).
  apply map_eq. intros i. destruct (F !! i) as [x|] eqn:Ei; [by eapply lookup_weaken|].
  apply not_elem_of_dom. apply not_elem_of_dom in Ei. rewrite !drop_owned_dom. set_solver.
Qed.

(** ** Properties *)

(** C17 : A string is a sequence of bytes: from any well-formed string, every
    sequence of the operations whose callers respect [op_ok] runs without
    touching memory outside its own buffer, leaves the string well formed and the
    memory [F] that it does not own as it was, and leaves exactly the bytes that
    the operations append, cut or set; an operation that reports failure leaves
    the bytes unchanged. *)
Theorem string_refines_bytes `{L : StringAllocLaws} F w l os :
  holds F w l -> ops_ok F w l os ->
  wp (exec_all os) (fun rs w' => List.length rs = List.length os /\ holds F w' (ops_spec F os rs l)) w.
Proof.
  revert w l. induction os as [|o os IH]; intros w l HH Hok; [done|]. destruct Hok as [Ho Hok].
  cbn [exec_all]. apply wp_bind.
  pose proof (exec_run F w l o HH Ho) as H1. apply wp_inv in H1 as (r & w1 & E & H1).
  unfold wp at 1. rewrite E. apply wp_bind.
  eapply wp_mono; [apply (IH w1 _ H1); by apply Hok|]. intros rs w2 [H2 H3]. cbn. by rewrite H2.
Qed.

Definition hello : heap := {[ 0%nat := Block 5 (fun x => 65 + x) false false ]}.
Definition empty_in (h : heap) : world := World Binary_string_default h.

Lemma empty_holds F : holds F (empty_in F) [].
Proof. split; cbn; try done. by apply buffer_null. Qed.

Lemma string_refines_bytes_witness :
  wp (exec_all [OSetConst (Some (0%nat, 0)) 3; OAppend (Some (0%nat, 1)) 4; OAppendChar 33; OReserve 100; OTruncate 3])
    (fun rs w' => List.length rs = 5%nat /\
       holds hello w' (ops_spec hello [OSetConst (Some (0%nat, 0)) 3; OAppend (Some (0%nat, 1)) 4; OAppendChar 33;
                         OReserve 100; OTruncate 3] rs [])) (empty_in hello).
Proof.
  apply (string_refines_bytes hello (empty_in hello) []
           [OSetConst (Some (0%nat, 0)) 3; OAppend (Some (0%nat, 1)) 4; OAppendChar 33; OReserve 100; OTruncate 3]);
    [apply empty_holds|].
  cbn [ops_ok]. split; [split; [lia|by eexists]|]. intros r1 w1 _. split; [split; [lia|by eexists]|].
  intros [] w2 _; (split; [vm_compute; reflexivity|]); intros [] w3 _;
    (split; [vm_compute; split; [discriminate|reflexivity]|]); intros [] w4 _;
    (split; [vm_compute; split; discriminate|done]).
Defined.

Lemma update_other h p n f h' b :
  update h p n f = Some h' -> (forall o, p <> Some (b, o)) -> h' !! b = h !! b.
Proof.
  unfold update. destruct p as [[b' o]|]; cbn; [|done]. destruct (h !! b') as [blk|]; cbn; [|done].
  destruct (_ && _); [|done]. intros [= <-] Hne. apply lookup_insert_ne. intros ->. by apply (Hne o).
Qed.

Lemma q_append_undefined w src n : n <> 0 -> readable (hp w) src n = None -> q_append src n w = None.
Proof.
  intros Hn Hr. unfold q_append, assert_length, st_bind, self, st_gets.
  destruct (u32 (str_length (this w) + u32 n) <=? Alloced_length (this w)); cbn; [|done].
  rewrite (proj2 (nz_true n)) by done. unfold when, on_heap, memcpy. by rewrite Hr.
Qed.

(** A successful move of an owned buffer leaves the old block dead, and a later
    [q_append] from it is undefined. *)
Lemma append_self_dangling `{L : StringAllocLaws} F w l :
  holds F w l -> alloced (this w) = true -> 0 < str_length (this w) ->
  Alloced_length (this w) <= 2 * str_length (this w) ->
  append_self w = None \/ exists w', append_self w = Some (true, w') /\ holds F w' l.
Proof.
  intros HH Hal Hpos Hle. pose proof (holds_length _ _ _ HH) as Hs. unfold in_u in Hs.
  pose proof (holds_buffer _ _ _ HH) as Hb. destruct Hb as [_ ? _ _ _|b o blk Hp Hblk _ _ _ _ _ Hown _]; [lia|].
  pose proof (grow_extra_bounds _ (holds_extra _ _ _ HH)) as (G1 & G2 & _). unfold in_u in G2.
  set (e := grow_extra (extra_alloc (this w))) in *.
  set (n := str_length (this w)) in *.
  set (w1 := World (set_extra_alloc e (this w)) (hp w)).
  assert (holds F w1 l) as HH1 by (apply assign_extra_holds; done).
  assert (when (extra_alloc (this w) <? 4096)
            (assign (set_extra_alloc (u32 (u32 (extra_alloc (this w) * 2) + 128)))) w = Some (tt, w1)) as Hw.
  { subst w1 e. unfold grow_extra in *. pose proof (holds_extra _ _ _ HH) as He. unfold in_u in He.
    destruct (Z.ltb_spec (extra_alloc (this w)) 4096); cbn.
    - rewrite (wrapU_small 32 (extra_alloc (this w) * 2)), wrapU_small by (unfold in_u; lia). done.
    - by destruct w as [[] ?]. }
  assert (append_self w =
          st_bind (let* r := realloc_raw (n + n + e) in if r then st_ret true else store_at (n + n) 0;;; st_ret false)
            (fun r => if r : bool then st_ret true else q_append (Ptr (this w)) n;;; st_ret false) w1) as ->.
  { unfold append_self, append_string, append. unfold st_bind at 1, self at 1, st_gets at 1. fold n.
    rewrite (proj2 (Z.eqb_neq n 0)) by lia. unfold st_bind at 1, self at 1, st_gets at 1. fold n.
    rewrite (wrapU_small 64) by (unfold in_u; lia).
    unfold st_bind at 1. unfold realloc_with_extra_if_needed. unfold st_bind at 1, self at 1, st_gets at 1.
    rewrite (proj2 (Z.ltb_ge _ _)) by lia. unfold realloc_with_extra.
    unfold st_bind at 1, self at 1, st_gets at 1. unfold st_bind at 1. rewrite Hw.
    unfold st_bind at 1, self at 1, st_gets at 1. change (extra_alloc (this w1)) with e.
    rewrite (wrapU_small 64) by (unfold in_u; lia). done. }
  destruct (realloc_raw_law F w1 l (n + n + e) HH1) as [E|[[Hlt _]|(_ & len & w' & E & _ & Hm)]]; [cbn; lia|..].
  - right. exists w1. split; [|done]. unfold st_bind. by rewrite E.
  - cbn in Hlt. lia.
  - left. unfold st_bind at 1. unfold st_bind at 1. rewrite E.
    destruct Hm as (nb & m & Hnb & Ht & _ & Hh). cbn in Hnb, Ht, Hh. rewrite Hp, Hal in Hh.
    assert (b <> nb) as Hne by congruence.
    unfold st_bind at 1. destruct (store_at (n + n) 0 w') as [[[] w2]|] eqn:Est; [|done].
    unfold store_at, st_bind, self, st_gets, on_heap in Est. rewrite Ht in Est.
    destruct (update (hp w') _ 1 _) as [h2|] eqn:Eu; [|done]. injection Est as <-.
    assert (h2 !! b = None) as Hdead.
    { rewrite (update_other _ _ _ _ _ b Eu) by (cbn; congruence). rewrite Hh, lookup_insert_ne by done.
      apply lookup_delete_eq. }
    unfold st_ret, st_bind. rewrite q_append_undefined; [done|lia|].
    unfold readable. rewrite Hp. cbn. by rewrite Hdead.
Qed.

(** Appending a string to itself is safe exactly as long as nothing moves.
    With room for both copies and a terminating byte, and also for a constant text,
    the contents double.  When the string owns its buffer and has to grow, the old
    buffer is gone before it is read: the call either reports that no memory was
    left, or is undefined (it reads freed memory). *)
Lemma string_append_self `{L : StringAllocLaws} F w l :
  holds F w l -> 0 < str_length (this w) ->
  (2 * str_length (this w) < Alloced_length (this w) ->
   wp append_self (fun r w' => r = false /\ holds F w' (l ++ l)) w) /\
  (alloced (this w) = false -> Alloced_length (this w) = 0 ->
   wp append_self (fun r w' => holds F w' (if r then l else l ++ l)) w) /\
  (alloced (this w) = true -> Alloced_length (this w) <= 2 * str_length (this w) ->
   append_self w = None \/ exists w', append_self w = Some (true, w') /\ holds F w' l).
Proof.
  intros HH Hpos. pose proof (holds_length _ _ _ HH) as Hs. unfold in_u in Hs.
  split; [|split; [|by intros; apply append_self_dangling]].
  - intros Hroom. unfold append_self, append_string, append. apply wp_bind. cbn [wp self st_gets].
    rewrite (proj2 (Z.eqb_neq _ 0)) by lia. apply wp_bind. cbn [wp self st_gets].
    rewrite wrapU_small by (unfold in_u; lia). apply wp_bind.
    unfold realloc_with_extra_if_needed. apply wp_bind. cbn [wp self st_gets].
    rewrite (proj2 (Z.ltb_lt _ _)) by lia. apply wp_bind.
    eapply wp_mono; [apply (store_at_run F w l); [done|lia]|]. intros _ w' (E & H1 & _). apply wp_ret. apply wp_bind.
    assert (Ptr (this w') <> None) as Hp.
    { destruct (holds_buffer _ _ _ H1); [rewrite E in *; lia|congruence]. }
    destruct (readable_own _ _ _ H1 Hp) as (m & o & Hr & Hby). rewrite E in Hr, Hby, Hp.
    eapply wp_mono; [apply (q_append_run F w' l (Ptr (this w)) (str_length (this w)) m o); rewrite ?E; try done; try lia|].
    + unfold overlap, end_. destruct (Ptr (this w)) as [[b o']|]; cbn; [|done].
      rewrite (proj2 (Z.ltb_ge _ _)) by lia. by rewrite andb_false_r.
    + intros _ w'' [H2 _]. apply wp_ret. rewrite Hby in H2. done.
  - intros Hal Ha0. pose proof (holds_buffer _ _ _ HH) as Hb.
    destruct Hb as [_ ? _ _ _|b o blk Hp Hblk Ho Hsz _ _ _ _ Hc]; [lia|].
    assert (holds (<[b := blk]> F) w l) as HH'.
    { destruct HH as [HF ? ? ? ?]. split; try done; [by apply insert_subseteq_l|].
      eapply (buffer_block _ _ _ _ b o blk); try done; try lia.
      - intros [?|?]; [lia|congruence].
      - congruence. }
    unfold append_self, append_string. apply wp_bind. cbn [wp self st_gets].
    eapply wp_mono; [apply (append_run (<[b := blk]> F) w l _ _ l HH'); [lia|]|].
    + exists (data blk), o. split; [|done]. unfold readable. rewrite Hp. cbn. rewrite lookup_insert_eq. cbn.
      by rewrite (proj2 (Z.leb_le _ _)), (proj2 (Z.leb_le _ _)) by lia.
    + intros r w' [Hh _]. assert (F ⊆ <[b := blk]> F) as Hsub.
      { destruct (F !! b) as [blk'|] eqn:EF; [|by apply insert_subseteq].
        pose proof (lookup_weaken _ _ _ _ EF (holds_frame _ _ _ HH)) as EF'.
        rewrite Hblk in EF'. injection EF' as <-. by rewrite insert_id. }
      destruct Hh as [HF' ? ? ? Hb']. split; try done; [by etrans|].
      destruct Hb' as [|b2 o2 blk2 ? ? ? ? ? ? Hfr ? ?]; [by apply buffer_null|].
      eapply (buffer_block _ _ _ _ b2 o2 blk2); try done. intros Hc'. specialize (Hfr Hc').
      rewrite lookup_insert_None in Hfr. tauto.
Qed.

Definition owned_hello (room : Z) : world :=
  World (BinaryString (Some (0%nat, 0)) 3 room 0 true false)
        {[ 0%nat := Block room (fun x => 65 + x) true true ]}.

Lemma owned_hello_holds room : 3 <= room < 2 ^ 32 -> holds ∅ (owned_hello room) [65; 66; 67].
Proof.
  intros Hr. split; cbn; try done; [apply map_empty_subseteq|unfold in_u; lia|].
  apply (buffer_block _ _ _ _ 0%nat 0 (Block room (fun x => 65 + x) true true)); cbn; try done; lia.
Qed.

(** The lengths are 32-bit and two callers add to them before they compare:
    when [str_length + n] reaches 2^32, [append_with_step] and [prep_append] take
    the wrapped sum for the new length.  If that fits the buffer, nothing is
    allocated; [append_with_step] then writes past its end, which is undefined,
    and [prep_append] returns success with an area outside of the buffer and a
    length that is 2^32 too small.  Below 2^32 both are exact. *)
Lemma string_uint32_length `{L : StringAllocLaws} F w l n step :
  holds F w l -> 0 < n < 2 ^ 32 -> 0 <= step ->
  (str_length (this w) + n + step < 2 ^ 32 ->
   wp (prep_append n step) (fun r w' =>
     match r with
     | None => holds F w' l
     | Some _ => r = ptr_add (Ptr (this w')) (str_length (this w)) /\
         str_length (this w') = str_length (this w) + n /\ str_length (this w') <= Alloced_length (this w') /\
         exists d, holds F w' (l ++ d)
     end) w) /\
  (forall s d, str_length (this w) + n + step < 2 ^ 32 -> source F s n d ->
   wp (append_with_step s n step) (fun r w' => holds F w' (if r then l else l ++ d)) w) /\
  (forall b o blk, 2 ^ 32 <= str_length (this w) + n ->
   u32 (str_length (this w) + n) <= Alloced_length (this w) ->
   Ptr (this w) = Some (b, o) -> hp w !! b = Some blk -> blk_size blk < o + 2 ^ 32 ->
   (forall s, append_with_step s n step w = None) /\
   exists w', prep_append n step w = Some (Some (b, o + str_length (this w)), w') /\
     hp w' = hp w /\ str_length (this w') = str_length (this w) + n - 2 ^ 32 /\
     blk_size blk < o + str_length (this w) + n).
Proof.
  intros HH Hn Hst. pose proof (holds_length _ _ _ HH) as Hs. unfold in_u in Hs.
  split; [intros; apply prep_append_run; done || lia|].
  split; [intros; apply append_with_step_run; done || lia|].
  intros b o blk Hwrap Hfit Hp Hblk Hsz.
  assert (u32 (n + str_length (this w)) = str_length (this w) + n - 2 ^ 32) as E.
  { unfold wrapU. symmetry. apply (Z.mod_unique _ _ 1); lia. }
  assert (u32 (str_length (this w) + n) = str_length (this w) + n - 2 ^ 32) as E' by (rewrite <- E; f_equal; lia).
  rewrite E' in Hfit. split.
  - intros s. unfold append_with_step, st_bind, self, st_gets. rewrite E, (proj2 (Z.ltb_ge _ _)) by lia.
    unfold st_ret. assert (q_append s n w = None) as ->; [|done].
    unfold q_append, assert_length, st_bind, self, st_gets. rewrite (wrapU_small 32 n) by (unfold in_u; lia).
    rewrite E', (proj2 (Z.leb_le _ _)) by lia. cbn. rewrite (proj2 (nz_true n)) by lia. cbn.
    unfold on_heap, memcpy. destruct (readable (hp w) s n) as [[m os]|]; cbn; [|done].
    destruct (overlap _ _ _); [done|]. unfold update, end_. rewrite Hp. cbn. rewrite Hblk. cbn.
    rewrite (proj2 (Z.leb_gt (o + str_length (this w) + n) _)) by lia. rewrite !andb_false_r. done.
  - exists (World (set_str_length (str_length (this w) + n - 2 ^ 32) (this w)) (hp w)). split; [|cbn; split_and!; done || lia].
    unfold prep_append, st_bind, self, st_gets. rewrite E, (proj2 (Z.ltb_ge _ _)) by lia.
    unfold st_ret, add_length, assign, st_modify. rewrite (wrapU_small 32 n) by (unfold in_u; lia).
    rewrite E', Hp. done.
Qed.

(** C18 : Ownership.  However two strings pass their buffers to each other, by
    [swap], [move], [operator=], the copy constructor and with either of them as
    the receiver, every block outside [F] has exactly one owner; so the two
    destructors free every block once, nothing leaks and nothing of [F] is
    touched.  A copy or an assignment never owns. *)
Theorem string_ownership F w s xs :
  owners F w s ->
  wp (exec_xs xs s) (fun s' w' => owners F w' s' /\ wp (free_both s') (fun _ w2 => hp w2 = F) w') w /\
  (forall x, x = XAssign \/ x = XCopy -> x_ok x w s = true ->
   wp (exec_x x s) (fun s' w' => s' = s /\ alloced (this w') = false /\ Ptr (this w') = Ptr s) w).
Proof.
  intros HO. split.
  - eapply wp_mono; [by apply (exec_xs_owners F)|]. intros s' w' H. split; [done|]. by apply free_both_owners.
  - pose proof HO as [_ _ _ _ _ H6 _ _ H9]. intros x [-> | ->] Hok; cbn [exec_x x_ok] in *.
    + unfold op_assign. cbn [negb]. apply wp_bind, wp_bind. cbn [wp self st_gets]. apply wp_bind.
      rewrite Hok. cbn [dbug_assert]. apply wp_ret.
      eapply wp_mono; [by apply (set_alloced_owned w (Ptr s) (str_length s))|].
      intros _ w' (E1 & E2 & _ & _). apply wp_ret. done.
    + apply wp_bind. eapply wp_mono; [by apply free_owned|]. intros _ w' _. done.
Qed.

Definition other_block : Binary_string := BinaryString (Some (1%nat, 0)) 2 20 128 true false.
Definition two_blocks : world :=
  World (BinaryString (Some (0%nat, 0)) 3 10 0 true false)
        {[ 0%nat := Block 10 (fun x => 65 + x) true true; 1%nat := Block 20 (fun x => 97 + x) true true ]}.

Lemma two_blocks_owners : owners ∅ two_blocks other_block.
Proof.
  split; cbn; try lia.
  - apply map_empty_subseteq.
  - unfold owned. cbn. set_solver.
  - set_solver.
  - set_solver.
  - unfold owned. cbn. set_solver.
  - intros _. by eexists 0%nat, _.
  - intros _. by eexists 1%nat, _.
Qed.

Lemma string_ownership_witness :
  wp (exec_xs [XSwap; XMove; XFlip; XCopy; XAssign; XMove] other_block)
    (fun s' w' => owners ∅ w' s' /\ wp (free_both s') (fun _ w2 => hp w2 = ∅) w') two_blocks /\
  wp (exec_x XAssign other_block)
    (fun s' w' => s' = other_block /\ alloced (this w') = false /\ Ptr (this w') = Some (1%nat, 0)) two_blocks.
Proof.
  destruct (string_ownership ∅ two_blocks other_block [XSwap; XMove; XFlip; XCopy; XAssign; XMove] two_blocks_owners)
    as [H1 H2].
  split; [exact H1|]. exact (H2 XAssign (or_introl eq_refl) eq_refl).
Defined.

(** Numbers survive the buffer.  [append_hex] either appends two digits per
    byte, from which the bytes can be read back (it fails with a prefix of the
    digits appended), and [q_append2b], [q_append] of a 32-bit number and
    [write_at_position] store little-endian fields that read back as the number
    reduced to the field's width, the rest of the text unchanged. *)
Lemma string_number_roundtrip `{L : StringAllocLaws} (bo : byte_order) `{!ByteOrderLaws bo}
    (dig val : Z -> Z) F w l :
  (forall i, 0 <= i < 16 -> val (u8 (dig i)) = i) -> holds F w l ->
  (forall s n m o, readable F s (Z.of_nat n) = Some (m, o) -> bytes_ok m ->
   str_length (this w) + 2 * Z.of_nat n < 2 ^ 32 ->
   wp (append_hex dig s 0 n) (fun r w' => exists h, holds F w' (l ++ h) /\
        (List.length h <= 2 * n)%nat /\ (r = false -> from_hex val h = bytes_at n m o)) w) /\
  (forall v, str_length (this w) + 4 <= Alloced_length (this w) ->
   wp (q_append_uint32 bo v) (fun _ w' => exists d, holds F w' (l ++ d) /\ from_digits 8 d = u32 v) w /\
   wp (q_append2b bo v) (fun _ w' => exists d, holds F w' (l ++ d) /\ from_digits 8 d = u16 v) w) /\
  (forall v pos, 0 <= pos -> pos + 4 <= str_length (this w) <= Alloced_length (this w) ->
   wp (write_at_position bo pos v) (fun _ w' => exists d,
     holds F w' (take (Z.to_nat pos) l ++ d ++ drop (Z.to_nat pos + 4) l) /\ from_digits 8 d = u32 v) w).
Proof.
  intros Hv HH. split; [|split].
  - intros s n m o Hr Hm Hlen. eapply wp_mono; [apply (append_hex_run dig F n w l s (Z.of_nat n) 0 m o); done || lia|].
    cbv zeta. rewrite Z.add_0_r. intros r w' Hw'. pose proof (hex_of_length dig (bytes_at n m o)) as Hh.
    unfold bytes_at in Hh at 2. rewrite length_bytes_from in Hh. destruct r.
    + destruct Hw' as [j Hw']. eexists. split; [exact Hw'|]. split; [|done]. rewrite length_take. lia.
    + eexists. split; [exact Hw'|]. split; [lia|]. intros _. apply from_hex_of; [done|by apply bytes_at_ok].
  - intros v Hle. split.
    + eapply wp_mono; [by apply (q_append_uint32_run bo F w l v)|]. intros [] w' Hc. eexists. split; [exact Hc|].
      by rewrite from_to_digits.
    + eapply wp_mono; [apply (q_append2b_run bo F w l v); [done|lia]|]. intros [] w' Hc. eexists. split; [exact Hc|].
      by rewrite from_to_digits.
  - intros v pos Hp Hle. eapply wp_mono; [by apply (write_at_position_run bo F w l pos v)|].
    intros [] w' [_ Hc]. eexists. split; [exact Hc|]. by rewrite from_to_digits.
Qed.

Definition ascii_digit (i : Z) : Z := if i <? 10 then 48 + i else 87 + i.
Definition digit_value (c : Z) : Z := if c <? 58 then c - 48 else c - 87.
Definition bytes_block : heap := {[ 7%nat := Block 2 (fun x => u8 (250 + x)) false false ]}.
