(* ===== verification/SelArg.v ===== *)
(** The intervals of the range optimizer: class [SEL_ARG], [KEY_PART] and the flag
    helpers of [mariadb/include/mysql/server/private/opt_range.h], and the range
    flags of [my_base.h].

    A stored value is the list of its bytes, the null indicator first when the
    field may be null.  An interval list (linked by [next], and the leaves of a
    red-black tree in the source) is the list [sel_tree] of its elements in
    order; each element carries the list behind its [next_key_part], [SNil] for
    null.  The type and part of the tree's root are those of every element.

    [Field::key_cmp] and [SEL_ARG::sel_cmp] are not in the repository: the class
    [RangeField] has them as parameters, [RangeFieldLaws] is the order of [key_cmp],
    and [EndOrder] the comparison of interval ends that the callers of [sel_cmp]
    need. *)

From S2P Require Import Prelude.

(** ** Flags of [my_base.h] *)

Definition NO_MIN_RANGE : Z := 1.
Definition NO_MAX_RANGE : Z := 2.
Definition NEAR_MIN : Z := 4.
Definition NEAR_MAX : Z := 8.
Definition GEOM_FLAG : Z := 128.
Definition HA_REVERSE_SORT : Z := 128.

(** [f & b] as a condition. *)
Definition has (f b : Z) : bool := nz (Z.land f b).

Definition invert_min_flag (min_flag : Z) : Z :=
  let max_flag_out := Z.land min_flag (bnot 32 (Z.lor NEAR_MIN NO_MIN_RANGE)) in
  let max_flag_out := if has min_flag NEAR_MIN then Z.lor max_flag_out NEAR_MAX else max_flag_out in
  if has min_flag NO_MIN_RANGE then Z.lor max_flag_out NO_MAX_RANGE else max_flag_out.
Definition invert_max_flag (max_flag : Z) : Z :=
  let min_flag_out := Z.land max_flag (bnot 32 (Z.lor NEAR_MAX NO_MAX_RANGE)) in
  let min_flag_out := if has max_flag NEAR_MAX then Z.lor min_flag_out NEAR_MIN else min_flag_out in
  if has max_flag NO_MAX_RANGE then Z.lor min_flag_out NO_MIN_RANGE else min_flag_out.

(** ** Data *)

Definition image := list Z.

Record KEY_PART := KeyPart { store_length : nat; kp_flag : Z }.

Inductive Type_ := IMPOSSIBLE | MAYBE | MAYBE_KEY | KEY_RANGE.

#[export] Instance Type_eq_dec : EqDecision Type_.
Proof. solve_decision. Defined.

Record SEL_ARG := SelArg {
  min_flag : Z; max_flag : Z; maybe_flag : Z;
  part : nat; maybe_null : bool;
  field : nat;
  min_value : image; max_value : image;
  type : Type_
}.

(** [SCons a nkp next]: element, its [next_key_part], the rest of its list. *)
Inductive sel_tree :=
  | SNil
  | SCons (a : SEL_ARG) (next_key_part next : sel_tree).

Definition set_min (v : image) (f : Z) (a : SEL_ARG) : SEL_ARG :=
  SelArg f (max_flag a) (maybe_flag a) (part a) (maybe_null a) (field a) v (max_value a) (type a).
Definition set_max (v : image) (f : Z) (a : SEL_ARG) : SEL_ARG :=
  SelArg (min_flag a) f (maybe_flag a) (part a) (maybe_null a) (field a) (min_value a) v (type a).
Definition set_maybe_flag (f : Z) (a : SEL_ARG) : SEL_ARG :=
  SelArg (min_flag a) (max_flag a) f (part a) (maybe_null a) (field a) (min_value a) (max_value a) (type a).

(** The head byte of an image, the null indicator of a nullable field. *)
Definition head_byte (v : image) : Z := match v with b :: _ => b | [] => 0 end.

(** ** What is not in the header *)

Class RangeField := {
  real_maybe_null : nat -> bool;
  (** [field->key_cmp], without the null indicator *)
  key_cmp : nat -> image -> image -> Z;
  sel_cmp : nat -> image -> image -> Z -> Z -> Z
}.

(** The order of stored values: nulls are equal and lowest. *)
Definition value_cmp `{RangeField} (f : nat) (a b : image) : Z :=
  if real_maybe_null f then
    if nz (head_byte a) then (if nz (head_byte b) then 0 else -1)
    else if nz (head_byte b) then 1 else key_cmp f (tail a) (tail b)
  else key_cmp f a b.

(** The end of an interval: just before, at or just after a value. *)
Inductive edge := NegInf | At (v : image) (d : Z) | PosInf.

Definition edge_of (v : image) (flag : Z) : edge :=
  if has flag NO_MIN_RANGE then NegInf
  else if has flag NO_MAX_RANGE then PosInf
  else At v (if has flag NEAR_MIN then 1 else if has flag NEAR_MAX then -1 else 0).

Definition edge_cmp `{RangeField} (f : nat) (p q : edge) : Z :=
  match p, q with
  | NegInf, NegInf | PosInf, PosInf => 0
  | NegInf, _ | _, PosInf => -1
  | _, NegInf | PosInf, _ => 1
  | At v d, At v' d' =>
      let c := value_cmp f v v' in
      if c =? 0 then d - d' else c
  end.

(** The flags an interval end can have. *)
Definition min_flag_ok (f : Z) : Prop := f = 0 \/ f = NO_MIN_RANGE \/ f = NEAR_MIN.
Definition max_flag_ok (f : Z) : Prop := f = 0 \/ f = NO_MAX_RANGE \/ f = NEAR_MAX.

Class RangeFieldLaws `(RF : RangeField) : Prop := {
  key_cmp_refl f a : key_cmp f a a = 0;
  key_cmp_sym f a b : Z.sgn (key_cmp f a b) = - Z.sgn (key_cmp f b a);
  key_cmp_trans f a b c : key_cmp f a b <= 0 -> key_cmp f b c <= 0 -> key_cmp f a c <= 0
}.

(** An end has a value unless its flag says that there is none. *)
Definition bounded (flag : Z) : Prop := has flag (Z.lor NO_MIN_RANGE NO_MAX_RANGE) = false.

(** [sel_cmp] is only declared.  What its callers' comments need of it ("returns true
    if a range predicate is equal", "Get overlapping range"): the sign of its result is
    that of the comparison of the two interval ends, when these have flags of interval
    ends and, where they are bounded, values of the field. *)
Class EndOrder `(RF : RangeField) := {
  is_value : nat -> image -> Prop;
  sel_cmp_edges f a b fa fb :
    min_flag_ok fa \/ max_flag_ok fa -> min_flag_ok fb \/ max_flag_ok fb ->
    (bounded fa -> is_value f a) -> (bounded fb -> is_value f b) ->
    Z.sgn (sel_cmp f a b fa fb) = Z.sgn (edge_cmp f (edge_of a fa) (edge_of b fb))
}.

(** ** The methods of [SEL_ARG] *)

Section methods.
Context `{RF : RangeField}.

Definition cmp_min_to_min (a arg : SEL_ARG) : Z :=
  sel_cmp (field a) (min_value a) (min_value arg) (min_flag a) (min_flag arg).
Definition cmp_min_to_max (a arg : SEL_ARG) : Z :=
  sel_cmp (field a) (min_value a) (max_value arg) (min_flag a) (max_flag arg).
Definition cmp_max_to_max (a arg : SEL_ARG) : Z :=
  sel_cmp (field a) (max_value a) (max_value arg) (max_flag a) (max_flag arg).
Definition cmp_max_to_min (a arg : SEL_ARG) : Z :=
  sel_cmp (field a) (max_value a) (min_value arg) (max_flag a) (min_flag arg).

Definition is_same (a arg : SEL_ARG) : bool :=
  if negb (bool_decide (type a = type arg)) || negb (Nat.eqb (part a) (part arg)) then false
  else if negb (bool_decide (type a = KEY_RANGE)) then true
  else (cmp_min_to_min a arg =? 0) && (cmp_max_to_max a arg =? 0).

(** The loop of [all_same] over both interval lists. *)
Fixpoint all_same_lists (cur cmp : sel_tree) : bool :=
  match cur, cmp with
  | SCons a _ cur', SCons b _ cmp' => if is_same a b then all_same_lists cur' cmp' else false
  | SNil, SNil => true
  | _, _ => false
  end.
Definition root (t : sel_tree) : option SEL_ARG := match t with SNil => None | SCons a _ _ => Some a end.
(** [same] is [arg == this]. *)
Definition all_same (same : bool) (t arg : sel_tree) : bool :=
  match root t, root arg with
  | Some a, Some b =>
      if negb (bool_decide (type a = type b)) || negb (Nat.eqb (part a) (part b)) then false
      else if negb (bool_decide (type a = KEY_RANGE)) then true
      else if same then true
      else all_same_lists t arg
  | _, _ => false
  end.

Definition merge_flags (a arg : SEL_ARG) : SEL_ARG := set_maybe_flag (Z.lor (maybe_flag a) (maybe_flag arg)) a.
Definition maybe_smaller (a : SEL_ARG) : SEL_ARG := set_maybe_flag 1 a.
Definition is_null_interval (a : SEL_ARG) : bool := maybe_null a && (head_byte (max_value a) =? 1).

(** The constructor [SEL_ARG(field, part, min, max, flags)]; [maybe_null] is the
    field's. *)
Definition new_SEL_ARG (f part : nat) (min_value max_value : image) (min_flag max_flag maybe_flag : Z) : SEL_ARG :=
  SelArg min_flag max_flag maybe_flag part (real_maybe_null f) f min_value max_value KEY_RANGE.

Definition clone_and (a arg : SEL_ARG) : SEL_ARG :=
  let '(new_min, flag_min) := if 0 <=? cmp_min_to_min a arg then (min_value a, min_flag a)
                              else (min_value arg, min_flag arg) in
  let '(new_max, flag_max) := if cmp_max_to_max a arg <=? 0 then (max_value a, max_flag a)
                              else (max_value arg, max_flag arg) in
  new_SEL_ARG (field a) (part a) new_min new_max flag_min flag_max
    (if nz (maybe_flag a) && nz (maybe_flag arg) then 1 else 0).
Definition clone_first (a arg : SEL_ARG) : SEL_ARG :=
  new_SEL_ARG (field a) (part a) (min_value a) (min_value arg)
    (min_flag a) (if has (min_flag arg) NEAR_MIN then 0 else NEAR_MAX) (Z.lor (maybe_flag a) (maybe_flag arg)).
Definition clone_last (a arg : SEL_ARG) : SEL_ARG :=
  new_SEL_ARG (field a) (part a) (min_value a) (max_value arg)
    (min_flag a) (max_flag arg) (Z.lor (maybe_flag a) (maybe_flag arg)).

(** The result is true for a full range, and the flags are then not merged. *)
Definition full_range (a : SEL_ARG) : bool :=
  Z.land (max_flag a) (Z.lor NO_MAX_RANGE NO_MIN_RANGE) =? Z.lor NO_MAX_RANGE NO_MIN_RANGE.
Definition copy_min (a arg : SEL_ARG) : bool * SEL_ARG :=
  if 0 <? cmp_min_to_min a arg then
    let a := set_min (min_value arg) (min_flag arg) a in
    if full_range a then (true, a) else (false, merge_flags a arg)
  else (false, merge_flags a arg).
Definition copy_max (a arg : SEL_ARG) : bool * SEL_ARG :=
  if cmp_max_to_max a arg <=? 0 then
    let a := set_max (max_value arg) (max_flag arg) a in
    if full_range a then (true, a) else (false, merge_flags a arg)
  else (false, merge_flags a arg).

Definition copy_min_to_min (a arg : SEL_ARG) : SEL_ARG := set_min (min_value arg) (min_flag arg) a.
Definition copy_min_to_max (a arg : SEL_ARG) : SEL_ARG :=
  set_max (min_value arg) (if has (min_flag arg) NEAR_MIN then 0 else NEAR_MAX) a.
Definition copy_max_to_min (a arg : SEL_ARG) : SEL_ARG :=
  set_min (max_value arg) (if has (max_flag arg) NEAR_MAX then 0 else NEAR_MIN) a.

Definition is_singlepoint (a : SEL_ARG) : bool :=
  if nz (min_flag a) || nz (max_flag a) then false
  else if maybe_null a then
    if negb (head_byte (min_value a) =? head_byte (max_value a)) then false
    else if nz (head_byte (min_value a)) then true
    else key_cmp (field a) (tail (min_value a)) (tail (max_value a)) =? 0
  else key_cmp (field a) (min_value a) (max_value a) =? 0.

End methods.

(** ** Building the ends of a key range

    The bytes written so far stand for the moving pointer [*min_key]; reading
    more bytes of a value than it has is undefined. *)

Definition memcpy_image (v : image) (length : nat) : option image :=
  if (length <=? List.length v)%nat then Some (take length v) else None.

(** The number of values appended, and the key after them. *)
Definition store_value (a : SEL_ARG) (v : image) (length : nat) (key : image) : option (Z * image) :=
  if maybe_null a && nz (head_byte v) then Some (1, key ++ 1 :: replicate (length - 1) 0)
  else b ← memcpy_image v length; Some (1, key ++ b).

Definition store_min (a : SEL_ARG) (length : nat) (key : image) (min_key_flag : Z) : option (Z * image) :=
  if has (min_flag a) GEOM_FLAG ||
     (negb (has (min_flag a) NO_MIN_RANGE) && negb (has min_key_flag (Z.lor NO_MIN_RANGE NEAR_MIN)))
  then store_value a (min_value a) length key
  else Some (0, key).
Definition store_max (a : SEL_ARG) (length : nat) (key : image) (max_key_flag : Z) : option (Z * image) :=
  if negb (has (max_flag a) NO_MAX_RANGE) && negb (has max_key_flag (Z.lor NO_MAX_RANGE NEAR_MAX))
  then store_value a (max_value a) length key
  else Some (0, key).

Definition descending (kp : nat -> KEY_PART) (a : SEL_ARG) : bool := has (kp_flag (kp (part a))) HA_REVERSE_SORT.

(** Minimum and maximum keys, and the parts added to each. *)
Definition store_min_max (kp : nat -> KEY_PART) (a : SEL_ARG) (length : nat)
    (min_key : image) (min_flag : Z) (max_key : image) (max_flag : Z) : option (image * image * Z * Z) :=
  if descending kp a then
    '(max_part, max_key) ← store_min a length max_key min_flag;
    '(min_part, min_key) ← store_max a length min_key max_flag;
    Some (min_key, max_key, min_part, max_part)
  else
    '(min_part, min_key) ← store_min a length min_key min_flag;
    '(max_part, max_key) ← store_max a length max_key max_flag;
    Some (min_key, max_key, min_part, max_part).

Definition get_min_flag (kp : nat -> KEY_PART) (a : SEL_ARG) : Z :=
  if descending kp a then invert_max_flag (max_flag a) else min_flag a.
Definition get_max_flag (kp : nat -> KEY_PART) (a : SEL_ARG) : Z :=
  if descending kp a then invert_min_flag (min_flag a) else max_flag a.

(** The condition under which the next key part is appended. *)
Definition goes_on (a : SEL_ARG) (nkp : sel_tree) (last_part : nat) : bool :=
  match root nkp with
  | Some b => bool_decide (type b = KEY_RANGE) && negb (Nat.eqb (part a) last_part) &&
              Nat.eqb (part b) (part a + 1)
  | None => false
  end.

Fixpoint store_min_key (t : sel_tree) (key : nat -> KEY_PART) (range_key : image) (range_key_flag : Z)
    (last_part : nat) (start_key : bool) {struct t} : option (Z * image * Z) :=
  match t with
  | SNil => None
  | SCons a nkp _ =>
      '(res, range_key) ← store_min a (store_length (key (part a))) range_key range_key_flag;
      if res =? 0 then Some (0, range_key, range_key_flag)
      else
        let range_key_flag := Z.lor range_key_flag (min_flag a) in
        if goes_on a nkp last_part && negb (has range_key_flag (Z.lor NO_MIN_RANGE NEAR_MIN)) then
          let asc := negb (descending key a) in
          if eqb start_key asc then
            '(res', range_key, range_key_flag) ← store_min_key nkp key range_key range_key_flag last_part start_key;
            Some (res + res', range_key, range_key_flag)
          else
            let tmp_flag := invert_min_flag range_key_flag in
            '(res', range_key, tmp_flag) ← store_max_key nkp key range_key tmp_flag last_part start_key;
            Some (res + res', range_key, invert_max_flag tmp_flag)
        else Some (res, range_key, range_key_flag)
  end
with store_max_key (t : sel_tree) (key : nat -> KEY_PART) (range_key : image) (range_key_flag : Z)
    (last_part : nat) (start_key : bool) {struct t} : option (Z * image * Z) :=
  match t with
  | SNil => None
  | SCons _ _ (SCons _ _ _ as next) => store_max_key next key range_key range_key_flag last_part start_key
  | SCons a nkp SNil =>
      '(res, range_key) ← store_max a (store_length (key (part a))) range_key range_key_flag;
      if res =? 0 then Some (0, range_key, range_key_flag)
      else
        let range_key_flag := Z.lor range_key_flag (max_flag a) in
        if goes_on a nkp last_part && negb (has range_key_flag (Z.lor NO_MAX_RANGE NEAR_MAX)) then
          let asc := negb (descending key a) in
          if (negb start_key && asc) || (start_key && negb asc) then
            '(res', range_key, range_key_flag) ← store_max_key nkp key range_key range_key_flag last_part start_key;
            Some (res + res', range_key, range_key_flag)
          else
            let tmp_flag := invert_max_flag range_key_flag in
            '(res', range_key, tmp_flag) ← store_min_key nkp key range_key tmp_flag last_part start_key;
            Some (res + res', range_key, invert_min_flag tmp_flag)
        else Some (res, range_key, range_key_flag)
  end.

(** [simple_key]; [elements] counts the interval list. *)
Fixpoint elements (t : sel_tree) : nat := match t with SNil => O | SCons _ _ n => S (elements n) end.
Definition simple_key (t : sel_tree) : bool :=
  match t with SCons _ SNil n => Nat.eqb (elements t) 1 | _ => false end.

(** ** The order of edges *)

Section order.
Context `{RFL : RangeFieldLaws}.

Lemma value_cmp_refl f a : value_cmp f a a = 0.
Proof. unfold value_cmp. destruct (real_maybe_null f), (nz (head_byte a)); auto using key_cmp_refl. Qed.

Lemma value_cmp_sym f a b : Z.sgn (value_cmp f a b) = - Z.sgn (value_cmp f b a).
Proof.
  unfold value_cmp. destruct (real_maybe_null f), (nz (head_byte a)), (nz (head_byte b)); try done;
    apply key_cmp_sym.
Qed.

Lemma value_cmp_trans f a b c : value_cmp f a b <= 0 -> value_cmp f b c <= 0 -> value_cmp f a c <= 0.
Proof.
  unfold value_cmp.
  destruct (real_maybe_null f), (nz (head_byte a)), (nz (head_byte b)), (nz (head_byte c)); try lia;
    apply key_cmp_trans.
Qed.

Lemma value_cmp_eq_l f a b c : value_cmp f a b = 0 -> Z.sgn (value_cmp f a c) = Z.sgn (value_cmp f b c).
Proof.
  intros E. pose proof (value_cmp_sym f a b) as S1.
  pose proof (value_cmp_sym f a c) as S2. pose proof (value_cmp_sym f b c) as S3.
  pose proof (value_cmp_trans f a b c) as T1. pose proof (value_cmp_trans f b a c) as T2.
  pose proof (value_cmp_trans f c a b) as T3. pose proof (value_cmp_trans f c b a) as T4. lia.
Qed.

Lemma value_cmp_eq_r f a b c : value_cmp f b c = 0 -> Z.sgn (value_cmp f a b) = Z.sgn (value_cmp f a c).
Proof.
  intros E. pose proof (value_cmp_eq_l f b c a E) as H.
  pose proof (value_cmp_sym f a b). pose proof (value_cmp_sym f a c). lia.
Qed.

Lemma edge_cmp_sym f p q : Z.sgn (edge_cmp f p q) = - Z.sgn (edge_cmp f q p).
Proof.
  destruct p as [|v d|], q as [|v' d'|]; cbn; try done.
  pose proof (value_cmp_sym f v v') as S.
  destruct (Z.eqb_spec (value_cmp f v v') 0), (Z.eqb_spec (value_cmp f v' v) 0); lia.
Qed.

Lemma edge_cmp_trans f p q r : edge_cmp f p q <= 0 -> edge_cmp f q r <= 0 -> edge_cmp f p r <= 0.
Proof.
  destruct p as [|v d|], q as [|v' d'|], r as [|v'' d''|]; cbn; try lia.
  pose proof (value_cmp_trans f v v' v'') as T. pose proof (value_cmp_eq_l f v v' v'') as E1.
  pose proof (value_cmp_eq_r f v v' v'') as E2. pose proof (value_cmp_eq_l f v v'' v') as E3.
  pose proof (value_cmp_sym f v' v'') as S.
  destruct (Z.eqb_spec (value_cmp f v v') 0), (Z.eqb_spec (value_cmp f v' v'') 0),
    (Z.eqb_spec (value_cmp f v v'') 0); lia.
Qed.

Lemma edge_cmp_trans_lt_l f p q r : edge_cmp f p q < 0 -> edge_cmp f q r <= 0 -> edge_cmp f p r < 0.
Proof.
  intros H1 H2. destruct (Z.lt_ge_cases (edge_cmp f p r) 0) as [|H3]; [done|].
  pose proof (edge_cmp_sym f p r). pose proof (edge_cmp_sym f p q).
  pose proof (edge_cmp_trans f q r p). lia.
Qed.

Lemma edge_cmp_trans_lt_r f p q r : edge_cmp f p q <= 0 -> edge_cmp f q r < 0 -> edge_cmp f p r < 0.
Proof.
  intros H1 H2. destruct (Z.lt_ge_cases (edge_cmp f p r) 0) as [|H3]; [done|].
  pose proof (edge_cmp_sym f p r). pose proof (edge_cmp_sym f q r).
  pose proof (edge_cmp_trans f r p q). lia.
Qed.

End order.

(** The values of an interval. *)
Definition min_edge (a : SEL_ARG) : edge := edge_of (min_value a) (min_flag a).
Definition max_edge (a : SEL_ARG) : edge := edge_of (max_value a) (max_flag a).
Definition above_min `{RangeField} (a : SEL_ARG) (x : image) : Prop := edge_cmp (field a) (min_edge a) (At x 0) <= 0.
Definition below_max `{RangeField} (a : SEL_ARG) (x : image) : Prop := edge_cmp (field a) (At x 0) (max_edge a) <= 0.
Definition contains `{RangeField} (a : SEL_ARG) (x : image) : Prop := above_min a x /\ below_max a x.

(** The element is well formed: its flags are those of an interval, the null
    indicators 0 or 1, and its [maybe_null] is the field's. *)
Record arg_ok `{RangeField} (a : SEL_ARG) : Prop := ArgOk {
  ok_type : type a = KEY_RANGE;
  ok_min_flag : min_flag_ok (min_flag a);
  ok_max_flag : max_flag_ok (max_flag a);
  ok_maybe_null : maybe_null a = real_maybe_null (field a);
  ok_null_min : maybe_null a = true -> head_byte (min_value a) = 0 \/ head_byte (min_value a) = 1;
  ok_null_max : maybe_null a = true -> head_byte (max_value a) = 0 \/ head_byte (max_value a) = 1
}.

(** The bounded ends of the element are values of its field. *)
Definition ends_ok `{EO : EndOrder} (a : SEL_ARG) : Prop :=
  (bounded (min_flag a) -> is_value (field a) (min_value a)) /\
  (bounded (max_flag a) -> is_value (field a) (max_value a)).

(** Evaluate the tests of constant flags. *)
Ltac has_simpl :=
  unfold edge_of in *;
  repeat match goal with
  | |- context [has ?a ?b] => let v := eval vm_compute in (has a b) in
      lazymatch v with true => change (has a b) with true | false => change (has a b) with false end
  | H : context [has ?a ?b] |- _ => let v := eval vm_compute in (has a b) in
      lazymatch v with true => change (has a b) with true in H | false => change (has a b) with false in H end
  end; cbn [negb orb andb] in *.
Ltac flags H := destruct H as [H | [H | H]]; rewrite ?H in *; has_simpl.

Section sets.
Context `{RFL : RangeFieldLaws}.
Implicit Types (a arg : SEL_ARG).

(** [edge_of] of the flags that the methods compute. *)
Lemma edge_before v f : min_flag_ok f -> has f NO_MIN_RANGE = false ->
  forall fld x, edge_cmp fld (At x 0) (edge_of v (if has f NEAR_MIN then 0 else NEAR_MAX)) <= 0 <->
                ~ edge_cmp fld (edge_of v f) (At x 0) <= 0.
Proof.
  intros Hf Hn fld x. pose proof (value_cmp_sym fld x v) as S.
  flags Hf; try discriminate; cbn [edge_cmp];
    destruct (Z.eqb_spec (value_cmp fld x v) 0), (Z.eqb_spec (value_cmp fld v x) 0); lia.
Qed.

Lemma edge_after v f : max_flag_ok f -> has f NO_MAX_RANGE = false ->
  forall fld x, edge_cmp fld (edge_of v (if has f NEAR_MAX then 0 else NEAR_MIN)) (At x 0) <= 0 <->
                ~ edge_cmp fld (At x 0) (edge_of v f) <= 0.
Proof.
  intros Hf Hn fld x. pose proof (value_cmp_sym fld x v) as S.
  flags Hf; try discriminate; cbn [edge_cmp];
    destruct (Z.eqb_spec (value_cmp fld x v) 0), (Z.eqb_spec (value_cmp fld v x) 0); lia.
Qed.

(** The comparisons, for elements of one field whose ends are values. *)
Section comparisons.
Context {EO : EndOrder RF}.

Lemma cmp_min_to_min_edges a arg : arg_ok a -> arg_ok arg -> ends_ok a -> ends_ok arg -> field a = field arg ->
  Z.sgn (cmp_min_to_min a arg) = Z.sgn (edge_cmp (field a) (min_edge a) (min_edge arg)).
Proof. intros [] [] [] [] Hf. rewrite <- Hf in *. apply sel_cmp_edges; auto. Qed.
Lemma cmp_max_to_max_edges a arg : arg_ok a -> arg_ok arg -> ends_ok a -> ends_ok arg -> field a = field arg ->
  Z.sgn (cmp_max_to_max a arg) = Z.sgn (edge_cmp (field a) (max_edge a) (max_edge arg)).
Proof. intros [] [] [] [] Hf. rewrite <- Hf in *. apply sel_cmp_edges; auto. Qed.
Lemma cmp_min_to_max_edges a arg : arg_ok a -> arg_ok arg -> ends_ok a -> ends_ok arg -> field a = field arg ->
  Z.sgn (cmp_min_to_max a arg) = Z.sgn (edge_cmp (field a) (min_edge a) (max_edge arg)).
Proof. intros [] [] [] [] Hf. rewrite <- Hf in *. apply sel_cmp_edges; auto. Qed.
Lemma cmp_max_to_min_edges a arg : arg_ok a -> arg_ok arg -> ends_ok a -> ends_ok arg -> field a = field arg ->
  Z.sgn (cmp_max_to_min a arg) = Z.sgn (edge_cmp (field a) (max_edge a) (min_edge arg)).
Proof. intros [] [] [] [] Hf. rewrite <- Hf in *. apply sel_cmp_edges; auto. Qed.
End comparisons.

(** The larger of two lower ends, and the smaller one. *)
Lemma above_ge a arg x : field a = field arg -> 0 <= edge_cmp (field a) (min_edge a) (min_edge arg) ->
  above_min a x <-> above_min a x /\ above_min arg x.
Proof.
  intros Hf H. unfold above_min. rewrite <- Hf. split; [|tauto]. intros Ha. split; [done|].
  pose proof (edge_cmp_sym (field a) (min_edge a) (min_edge arg)).
  eapply edge_cmp_trans; [|exact Ha]. lia.
Qed.
Lemma above_le a arg x : field a = field arg -> edge_cmp (field a) (min_edge a) (min_edge arg) <= 0 ->
  above_min arg x <-> above_min a x /\ above_min arg x.
Proof.
  intros Hf H. unfold above_min. rewrite <- Hf. split; [|tauto]. intros Ha. split; [|done].
  eapply edge_cmp_trans; [exact H|exact Ha].
Qed.
Lemma below_le a arg x : field a = field arg -> edge_cmp (field a) (max_edge a) (max_edge arg) <= 0 ->
  below_max a x <-> below_max a x /\ below_max arg x.
Proof.
  intros Hf H. unfold below_max. rewrite <- Hf. split; [|tauto]. intros Ha. split; [done|].
  eapply edge_cmp_trans; [exact Ha|exact H].
Qed.
Lemma below_ge a arg x : field a = field arg -> 0 <= edge_cmp (field a) (max_edge a) (max_edge arg) ->
  below_max arg x <-> below_max a x /\ below_max arg x.
Proof.
  intros Hf H. unfold below_max. rewrite <- Hf. split; [|tauto]. intros Ha. split; [|done].
  pose proof (edge_cmp_sym (field a) (max_edge a) (max_edge arg)).
  eapply edge_cmp_trans; [exact Ha|]. lia.
Qed.

(** The methods on sets of values. *)
Lemma clone_and_contains {EO : EndOrder RF} a arg x :
  arg_ok a -> arg_ok arg -> ends_ok a -> ends_ok arg -> field a = field arg ->
  contains (clone_and a arg) x <-> contains a x /\ contains arg x.
Proof.
  intros Ha Hb Va Vb Hf. pose proof (cmp_min_to_min_edges a arg Ha Hb Va Vb Hf) as E1.
  pose proof (cmp_max_to_max_edges a arg Ha Hb Va Vb Hf) as E2. unfold clone_and.
  assert (forall c fl, contains (let '(m, fm) := if 0 <=? cmp_min_to_min a arg then (min_value a, min_flag a)
                                    else (min_value arg, min_flag arg) in
                          let '(n, fn) := if cmp_max_to_max a arg <=? 0 then (max_value a, max_flag a)
                                          else (max_value arg, max_flag arg) in
                          new_SEL_ARG (field a) c m n fm fn fl) x <->
            (above_min a x /\ above_min arg x) /\ (below_max a x /\ below_max arg x)) as G.
  { intros c fl. destruct (Z.leb_spec 0 (cmp_min_to_min a arg)), (Z.leb_spec (cmp_max_to_max a arg) 0);
      unfold contains; rewrite <- ?(above_ge a arg x), <- ?(above_le a arg x), <- ?(below_le a arg x),
        <- ?(below_ge a arg x) by (done || lia);
      unfold above_min, below_max, min_edge, max_edge; cbn; rewrite ?Hf; done. }
  rewrite G. unfold contains. tauto.
Qed.

Lemma clone_first_contains a arg x : arg_ok a -> arg_ok arg -> field a = field arg ->
  has (min_flag arg) NO_MIN_RANGE = false ->
  contains (clone_first a arg) x <-> above_min a x /\ ~ above_min arg x.
Proof.
  intros Ha Hb Hf Hn. unfold contains, clone_first, above_min, below_max, min_edge, max_edge, new_SEL_ARG, set_min, set_max.
  cbn [min_flag max_flag field min_value max_value].
  rewrite edge_before by (apply Hb || done). by rewrite Hf.
Qed.

Lemma clone_last_contains a arg x : field a = field arg ->
  contains (clone_last a arg) x <-> above_min a x /\ below_max arg x.
Proof. intros Hf. unfold contains, clone_last, above_min, below_max, min_edge, max_edge, new_SEL_ARG, set_min, set_max.
  cbn [min_flag max_flag field min_value max_value]. by rewrite Hf. Qed.

Lemma copy_min_contains {EO : EndOrder RF} a arg x :
  arg_ok a -> arg_ok arg -> ends_ok a -> ends_ok arg -> field a = field arg ->
  contains (copy_min a arg).2 x <-> (above_min a x \/ above_min arg x) /\ below_max a x.
Proof.
  intros Ha Hb Va Vb Hf. pose proof (cmp_min_to_min_edges a arg Ha Hb Va Vb Hf) as E1.
  pose proof (above_ge a arg x Hf) as G1. pose proof (above_le a arg x Hf) as G2.
  unfold copy_min. destruct (Z.ltb_spec 0 (cmp_min_to_min a arg)).
  - specialize (G1 ltac:(lia)).
    assert (contains (copy_min_to_min a arg) x <-> above_min arg x /\ below_max a x) as E.
    { unfold contains, above_min, below_max, min_edge, max_edge. cbn. by rewrite Hf. }
    change (contains (copy_min_to_min a arg) x) with
      (contains (merge_flags (copy_min_to_min a arg) arg) x) in E at 1.
    destruct (full_range _); cbn [snd]; unfold contains in E |- *; cbn in E |- *; tauto.
  - specialize (G2 ltac:(lia)). unfold contains. cbn. change (above_min (merge_flags a arg) x) with (above_min a x).
    change (below_max (merge_flags a arg) x) with (below_max a x). tauto.
Qed.

Lemma copy_max_contains {EO : EndOrder RF} a arg x :
  arg_ok a -> arg_ok arg -> ends_ok a -> ends_ok arg -> field a = field arg ->
  contains (copy_max a arg).2 x <-> above_min a x /\ (below_max a x \/ below_max arg x).
Proof.
  intros Ha Hb Va Vb Hf. pose proof (cmp_max_to_max_edges a arg Ha Hb Va Vb Hf) as E1.
  pose proof (below_ge a arg x Hf) as G1. pose proof (below_le a arg x Hf) as G2.
  unfold copy_max. destruct (Z.leb_spec (cmp_max_to_max a arg) 0).
  - specialize (G2 ltac:(lia)).
    assert (forall b, field b = field a -> min_value b = min_value a -> min_flag b = min_flag a ->
             max_value b = max_value arg -> max_flag b = max_flag arg ->
             contains b x <-> above_min a x /\ below_max arg x) as E.
    { intros b F1 F2 F3 F4 F5. unfold contains, above_min, below_max, min_edge, max_edge.
      by rewrite F2, F3, F4, F5, F1, Hf. }
    destruct (full_range _); cbn [snd]; rewrite E by done; tauto.
  - specialize (G1 ltac:(lia)). unfold contains. cbn. change (above_min (merge_flags a arg) x) with (above_min a x).
    change (below_max (merge_flags a arg) x) with (below_max a x). tauto.
Qed.

Lemma copy_min_to_max_contains a arg x : arg_ok arg -> field a = field arg ->
  has (min_flag arg) NO_MIN_RANGE = false ->
  contains (copy_min_to_max a arg) x <-> above_min a x /\ ~ above_min arg x.
Proof.
  intros Hb Hf Hn. unfold contains, copy_min_to_max, above_min, below_max, min_edge, max_edge, new_SEL_ARG, set_min, set_max.
  cbn [min_flag max_flag field min_value max_value].
  rewrite edge_before by (apply Hb || done). by rewrite Hf.
Qed.

Lemma copy_max_to_min_contains a arg x : arg_ok arg -> field a = field arg ->
  has (max_flag arg) NO_MAX_RANGE = false ->
  contains (copy_max_to_min a arg) x <-> ~ below_max arg x /\ below_max a x.
Proof.
  intros Hb Hf Hn. unfold contains, copy_max_to_min, above_min, below_max, min_edge, max_edge, new_SEL_ARG, set_min, set_max.
  cbn [min_flag max_flag field min_value max_value].
  rewrite edge_after by (apply Hb || done). by rewrite Hf.
Qed.

Lemma full_range_false a : max_flag_ok (max_flag a) -> full_range a = false.
Proof. unfold full_range. intros [H | [H | H]]; rewrite H; reflexivity. Qed.

End sets.

(** ** The condition of a graph, and keys as bounds *)

Section graph.
Context `{RFL : RangeFieldLaws}.
(** The field of a key part. *)
Context (fld : nat -> nat).

(** A tuple of key part values satisfies the graph: [next] is OR,
    [next_key_part] is AND. *)
Fixpoint sat (t : sel_tree) (tup : nat -> image) : Prop :=
  match t with
  | SNil => False
  | SCons a nkp next =>
      (contains a (tup (part a)) /\ match nkp with SNil => True | SCons _ _ _ => sat nkp tup end) \/ sat next tup
  end.

(** Ordered disjoint non-empty intervals over one key part, with values of the
    key part's length, and a later key part behind each. *)
Fixpoint tree_ok (key : nat -> KEY_PART) (t : sel_tree) : Prop :=
  match t with
  | SNil => True
  | SCons a nkp next =>
      arg_ok a /\ field a = fld (part a) /\ edge_cmp (field a) (min_edge a) (max_edge a) <= 0 /\
      List.length (min_value a) = store_length (key (part a)) /\
      List.length (max_value a) = store_length (key (part a)) /\
      tree_ok key nkp /\ tree_ok key next /\
      match next with
      | SNil => True
      | SCons b _ _ => part b = part a /\ edge_cmp (field a) (max_edge a) (min_edge b) < 0
      end
  end.

(** The written values against the tuple, key part by key part. *)
Fixpoint lex_cmp (p : nat) (ks : list image) (tup : nat -> image) : Z :=
  match ks with
  | [] => 0
  | k :: ks => let c := value_cmp (fld p) k (tup p) in if c =? 0 then lex_cmp (S p) ks tup else c
  end.

Lemma tree_ok_cons key a nkp next : tree_ok key (SCons a nkp next) ->
  arg_ok a /\ field a = fld (part a) /\ edge_cmp (field a) (min_edge a) (max_edge a) <= 0 /\
  List.length (min_value a) = store_length (key (part a)) /\
  List.length (max_value a) = store_length (key (part a)) /\
  tree_ok key nkp /\ tree_ok key next /\
  match next with
  | SNil => True
  | SCons b _ _ => part b = part a /\ edge_cmp (field a) (max_edge a) (min_edge b) < 0
  end.
Proof. done. Qed.

(** A tuple that satisfies a later interval lies above the first one. *)
Lemma later_above key a nkp next tup :
  tree_ok key (SCons a nkp next) -> sat next tup ->
  edge_cmp (field a) (min_edge a) (At (tup (part a)) 0) < 0.
Proof.
  revert a nkp. induction next as [|b n1 _ next IH]; intros a nkp Hok Hs; [done|].
  apply tree_ok_cons in Hok as (_ & Hf & Hne & _ & _ & _ & Hok' & Hp & Hlt).
  assert (field b = field a) as Hfb by (apply tree_ok_cons in Hok' as (_ & -> & _); by rewrite Hp, Hf).
  destruct Hs as [[[Hb _] _]|Hs].
  - unfold above_min in Hb. rewrite Hp, Hfb in Hb.
    eapply edge_cmp_trans_lt_r; [exact Hne|]. eapply edge_cmp_trans_lt_l; [exact Hlt|exact Hb].
  - specialize (IH b n1 Hok' Hs). rewrite Hp, Hfb in IH.
    eapply edge_cmp_trans_lt_r; [exact Hne|]. eapply edge_cmp_trans_lt_l; [exact Hlt|]. lia.
Qed.

Fixpoint last_arg (a : SEL_ARG) (t : sel_tree) : SEL_ARG :=
  match t with SNil => a | SCons b _ t => last_arg b t end.

Lemma last_arg_part key a nkp next : tree_ok key (SCons a nkp next) ->
  part (last_arg a next) = part a /\ field (last_arg a next) = field a.
Proof.
  revert a nkp. induction next as [|b n1 _ next IH]; intros a nkp Hok; [done|]. cbn [last_arg].
  apply tree_ok_cons in Hok as (_ & Hf & _ & _ & _ & _ & Hok' & Hp & _).
  destruct (IH b n1 Hok') as [H1 H2]. rewrite H1, H2. apply tree_ok_cons in Hok' as (_ & -> & _).
  by rewrite Hp, Hf.
Qed.

(** A value of any element but the last lies below the last one's end. *)
Lemma earlier_below key a nkp b n2 next x :
  tree_ok key (SCons a nkp (SCons b n2 next)) -> below_max a x ->
  edge_cmp (field a) (At x 0) (max_edge (last_arg b next)) < 0.
Proof.
  revert a nkp b n2. induction next as [|c n3 _ next IH]; intros a nkp b n2 Hok Hx;
    apply tree_ok_cons in Hok as (_ & Hf & _ & _ & _ & _ & Hok' & Hp & Hlt);
    assert (field b = field a) as Hfb by (apply tree_ok_cons in Hok' as (_ & -> & _); by rewrite Hp, Hf);
    apply tree_ok_cons in Hok' as H1; destruct H1 as (_ & _ & Hne & _); rewrite Hfb in Hne.
  - eapply edge_cmp_trans_lt_r; [exact Hx|]. cbn [last_arg].
    eapply edge_cmp_trans_lt_l; [exact Hlt|exact Hne].
  - cbn [last_arg]. rewrite <- Hfb. eapply IH; [exact Hok'|]. unfold below_max. rewrite Hfb.
    assert (edge_cmp (field a) (At x 0) (max_edge b) < 0); [|lia].
    eapply edge_cmp_trans_lt_r; [exact Hx|]. eapply edge_cmp_trans_lt_l; [exact Hlt|exact Hne].
Qed.

(** Writing one value. *)
Lemma store_value_run a v length key :
  maybe_null a = real_maybe_null (field a) -> List.length v = length ->
  exists k, store_value a v length key = Some (1, key ++ k) /\ List.length k = length /\
    forall x, Z.sgn (value_cmp (field a) k x) = Z.sgn (value_cmp (field a) v x).
Proof.
  intros Hn Hl. unfold store_value. destruct (maybe_null a && nz (head_byte v)) eqn:E.
  - apply andb_true_iff in E as [E1 E2]. eexists. split; [done|]. split.
    + cbn. rewrite length_replicate. destruct v; [done|]. cbn in Hl. lia.
    + intros x. apply value_cmp_eq_l. unfold value_cmp. rewrite <- Hn, E1, E2. done.
  - unfold memcpy_image. rewrite Hl, Nat.leb_refl. cbn. eexists. split; [done|].
    rewrite take_ge by lia. done.
Qed.

Lemma has_lor f g b : has (Z.lor f g) b = has f b || has g b.
Proof.
  unfold has. rewrite Z.land_lor_distr_l.
  destruct (nz (Z.land f b)) eqn:E1, (nz (Z.land g b)) eqn:E2; cbn;
    rewrite ?nz_true, ?nz_false in *; rewrite ?Z.lor_eq_0_iff; tauto.
Qed.

Lemma lower_value a x : min_flag_ok (min_flag a) -> has (min_flag a) NO_MIN_RANGE = false ->
  (edge_cmp (field a) (min_edge a) (At x 0) <= 0 ->
   value_cmp (field a) (min_value a) x <= 0 /\
   (has (min_flag a) NEAR_MIN = true -> value_cmp (field a) (min_value a) x < 0)) /\
  (edge_cmp (field a) (min_edge a) (At x 0) < 0 -> value_cmp (field a) (min_value a) x < 0).
Proof.
  intros Hf Hn. unfold min_edge. flags Hf; try discriminate; cbn [edge_cmp];
    destruct (Z.eqb_spec (value_cmp (field a) (min_value a) x) 0); split; intros; try split; intros; lia || done.
Qed.

Lemma upper_value a x : max_flag_ok (max_flag a) -> has (max_flag a) NO_MAX_RANGE = false ->
  (edge_cmp (field a) (At x 0) (max_edge a) <= 0 ->
   0 <= value_cmp (field a) (max_value a) x /\
   (has (max_flag a) NEAR_MAX = true -> 0 < value_cmp (field a) (max_value a) x)) /\
  (edge_cmp (field a) (At x 0) (max_edge a) < 0 -> 0 < value_cmp (field a) (max_value a) x).
Proof.
  intros Hf Hn. pose proof (value_cmp_sym (field a) (max_value a) x) as S.
  unfold max_edge. flags Hf; try discriminate; cbn [edge_cmp];
    destruct (Z.eqb_spec (value_cmp (field a) x (max_value a)) 0); split; intros; try split; intros; lia || done.
Qed.

Lemma has_or_r f b c : has f (Z.lor b c) = has f b || has f c.
Proof. unfold has. rewrite !(Z.land_comm f). apply has_lor. Qed.

(** Every written value has the length of its key part. *)
Definition lengths_ok (key : nat -> KEY_PART) (p : nat) (ks : list image) : Prop :=
  forall i k, ks !! i = Some k -> List.length k = store_length (key (p + i)%nat).

Lemma lengths_ok_cons key p k ks :
  List.length k = store_length (key p) -> lengths_ok key (S p) ks -> lengths_ok key p (k :: ks).
Proof.
  intros Hk Hks [|i] x; cbn; [intros [= <-]; by rewrite Nat.add_0_r|].
  intros Hx. rewrite (Hks i x Hx). f_equal. f_equal. lia.
Qed.

(** What a call of [store_min_key] ([sign] = 1) or [store_max_key] ([sign] = -1)
    promises: the written values bound every tuple of the condition from below
    (above), strictly when the flag says that the end is open. *)
Definition bounds (sign near : Z) (key : nat -> KEY_PART) (p : nat) (P : (nat -> image) -> Prop) (rk : image)
    (r : option (Z * image * Z)) : Prop :=
  exists ks flag', r = Some (Z.of_nat (List.length ks), rk ++ concat ks, flag') /\
    lengths_ok key p ks /\
    forall tup, P tup ->
      sign * lex_cmp p ks tup <= 0 /\ (has flag' near = true -> sign * lex_cmp p ks tup < 0).

Lemma bounds_cons sign near key a P nkp rk k v res' rk' flag flag1 r :
  sign = 1 \/ sign = -1 -> field a = fld (part a) ->
  List.length k = store_length (key (part a)) ->
  (forall x, Z.sgn (value_cmp (field a) k x) = Z.sgn (value_cmp (field a) v x)) ->
  (forall tup, P tup ->
     sign * value_cmp (field a) v (tup (part a)) < 0 \/
     (sign * value_cmp (field a) v (tup (part a)) = 0 /\ match nkp with SNil => True | _ => sat nkp tup end)) ->
  rk' = rk ++ k -> nkp <> SNil ->
  bounds sign near key (S (part a)) (sat nkp) rk' r ->
  r = Some (res', flag, flag1) ->
  bounds sign near key (part a) P rk (Some (1 + res', flag, flag1)).
Proof.
  intros Hsign Hf Hk Hv Hs -> Hnkp (ks & fl & -> & Hl & Hb) [= <- <- <-].
  exists (k :: ks), fl. split; [|split; [by apply lengths_ok_cons|]].
  - cbn [List.length concat]. rewrite <- app_assoc. do 3 f_equal. lia.
  - intros tup Ht. cbn [lex_cmp]. rewrite <- Hf. specialize (Hv (tup (part a))).
    destruct (Hs tup Ht) as [Hlt|[He Hn]].
    + destruct (Z.eqb_spec (value_cmp (field a) k (tup (part a))) 0); destruct Hsign as [-> | ->]; lia.
    + destruct (Z.eqb_spec (value_cmp (field a) k (tup (part a))) 0); [|destruct Hsign as [-> | ->]; lia].
      apply Hb. by destruct nkp.
Qed.

Lemma bounds_one sign near key a P rk k v flag :
  sign = 1 \/ sign = -1 -> field a = fld (part a) ->
  List.length k = store_length (key (part a)) ->
  (forall x, Z.sgn (value_cmp (field a) k x) = Z.sgn (value_cmp (field a) v x)) ->
  (forall tup, P tup ->
     sign * value_cmp (field a) v (tup (part a)) <= 0 /\
     (has flag near = true -> sign * value_cmp (field a) v (tup (part a)) < 0)) ->
  bounds sign near key (part a) P rk (Some (1, rk ++ k, flag)).
Proof.
  intros Hsign Hf Hk Hv Hs. exists [k], flag. cbn [List.length concat]. rewrite app_nil_r.
  split; [done|]. split; [apply lengths_ok_cons; [done|]; by intros [] ?|].
  intros tup Ht. cbn [lex_cmp]. rewrite <- Hf. specialize (Hv (tup (part a))). destruct (Hs tup Ht) as [H1 H2].
  destruct (Z.eqb_spec (value_cmp (field a) k (tup (part a))) 0); destruct Hsign as [-> | ->];
    (split; [lia|intros Hh; specialize (H2 Hh); lia]).
Qed.

Lemma bounds_none sign near key p P rk flag : has flag near = false -> bounds sign near key p P rk (Some (0, rk, flag)).
Proof.
  intros Hh. exists [], flag. cbn. rewrite app_nil_r. split; [done|]. split; [by intros ? ?|].
  intros tup _. split; [lia|congruence].
Qed.

Lemma bounds_mono sign near key p (P Q : (nat -> image) -> Prop) rk r :
  (forall tup, Q tup -> P tup) -> bounds sign near key p P rk r -> bounds sign near key p Q rk r.
Proof. intros HPQ (ks & fl & ? & ? & Hb). exists ks, fl. split_and!; try done. intros tup HQ. by apply Hb, HPQ. Qed.

Lemma store_min_key_bounds key sk t : forall a nkp next rk flag last,
  t = SCons a nkp next -> tree_ok key t ->
  (forall p, has (kp_flag (key p)) HA_REVERSE_SORT = negb sk) ->
  has flag (Z.lor NO_MIN_RANGE NEAR_MIN) = false ->
  bounds 1 NEAR_MIN key (part a) (sat t) rk (store_min_key t key rk flag last sk).
Proof.
  induction t as [|a' nkp' IHn next' _]; intros a nkp next rk flag last [= -> -> ->] Hok Hdir Hflag.
  pose proof Hok as (Ha & Hf & Hne & Hlmin & _ & Hnok & _). cbn [store_min_key].
  unfold store_min. pose proof (ok_min_flag _ Ha) as Hmf.
  assert (has (min_flag a) GEOM_FLAG = false) as -> by (clear - Hmf; by flags Hmf).
  rewrite Hflag, orb_false_l, andb_true_r.
  rewrite has_or_r in Hflag. apply orb_false_iff in Hflag as [Hfl1 Hfl2].
  destruct (has (min_flag a) NO_MIN_RANGE) eqn:Hno; cbn [negb].
  { by apply bounds_none. }
  destruct (store_value_run a (min_value a) (store_length (key (part a))) rk (ok_maybe_null _ Ha) Hlmin)
    as (k & -> & Hk & Hv). cbn [mbind option_bind]. change (1 =? 0) with false. cbv iota.
  pose proof (fun x => lower_value a x Hmf Hno) as Hlow.
  assert (forall tup, sat (SCons a nkp next) tup ->
     1 * value_cmp (field a) (min_value a) (tup (part a)) < 0 \/
     (1 * value_cmp (field a) (min_value a) (tup (part a)) = 0 /\ has (min_flag a) NEAR_MIN = false /\
      match nkp with SNil => True | _ => sat nkp tup end)) as Hsat.
  { intros tup [[[Hab _] Hn]|Hs].
    - destruct (Hlow (tup (part a))) as [Hl _]. destruct (Hl Hab) as [H1 H2].
      destruct (Z.lt_ge_cases (value_cmp (field a) (min_value a) (tup (part a))) 0); [left; lia|].
      right. split; [lia|]. split; [|done]. destruct (has (min_flag a) NEAR_MIN); [specialize (H2 eq_refl); lia|done].
    - left. destruct (Hlow (tup (part a))) as [_ Hl]. pose proof (later_above key a nkp next tup Hok Hs) as Hlt.
      specialize (Hl Hlt). lia. }
  destruct (goes_on a nkp last && _) eqn:Hgo.
  - apply andb_true_iff in Hgo as [Hgo Hfl'%negb_true_iff]. unfold goes_on in Hgo.
    destruct nkp as [|b n2 nx]; [done|]. cbn [root] in Hgo.
    apply andb_true_iff in Hgo as [_ Hp%Nat.eqb_eq].
    unfold descending. rewrite Hdir, negb_involutive, eqb_reflx.
    pose proof (IHn b n2 nx (rk ++ k) _ last eq_refl Hnok Hdir Hfl') as IH.
    replace (part b) with (S (part a)) in IH by lia.
    destruct (store_min_key _ _ _ _ _ _) as [[[res' rk'] fl']|] eqn:Er; [|by destruct IH as (? & ? & ? & _)].
    cbn [mbind option_bind].
    eapply (bounds_cons 1 NEAR_MIN key a _ (SCons b n2 nx) rk k (min_value a)); [by left|done|done|done| |done|done|exact IH|done].
    intros tup Ht. destruct (Hsat tup Ht) as [?|(? & _ & ?)]; [by left|by right].
  - eapply bounds_one; [by left|done|done|exact Hv|]. intros tup Ht. rewrite has_lor, Hfl2, orb_false_l.
    destruct (Hsat tup Ht) as [?|(? & H2 & _)]; (split; [lia|intros; try lia]). congruence.
Qed.

Lemma store_max_key_bounds key sk t : forall a nkp next rk flag last,
  t = SCons a nkp next -> tree_ok key t ->
  (forall p, has (kp_flag (key p)) HA_REVERSE_SORT = sk) ->
  has flag (Z.lor NO_MAX_RANGE NEAR_MAX) = false ->
  bounds (-1) NEAR_MAX key (part a)
    (fun tup => sat t tup \/ edge_cmp (field a) (At (tup (part a)) 0) (max_edge (last_arg a next)) < 0) rk (store_max_key t key rk flag last sk).
Proof.
  induction t as [|a' nkp' IHn next' IHt]; intros a nkp next rk flag last [= -> -> ->] Hok Hdir Hflag.
  destruct next as [|b n2 nx].
  - pose proof Hok as (Ha & Hf & Hne & _ & Hlmax & Hnok & _). cbn [store_max_key].
    unfold store_max. pose proof (ok_max_flag _ Ha) as Hmf.
    rewrite Hflag, andb_true_r.
    rewrite has_or_r in Hflag. apply orb_false_iff in Hflag as [Hfl1 Hfl2].
    destruct (has (max_flag a) NO_MAX_RANGE) eqn:Hno; cbn [negb].
    { by apply bounds_none. }
    destruct (store_value_run a (max_value a) (store_length (key (part a))) rk (ok_maybe_null _ Ha) Hlmax)
      as (k & -> & Hk & Hv). cbn [mbind option_bind]. change (1 =? 0) with false. cbv iota.
    pose proof (fun x => upper_value a x Hmf Hno) as Hup.
    assert (forall tup, sat (SCons a nkp SNil) tup \/
         edge_cmp (field a) (At (tup (part a)) 0) (max_edge (last_arg a SNil)) < 0 ->
       -1 * value_cmp (field a) (max_value a) (tup (part a)) < 0 \/
       (-1 * value_cmp (field a) (max_value a) (tup (part a)) = 0 /\ has (max_flag a) NEAR_MAX = false /\
        match nkp with SNil => True | _ => sat nkp tup end)) as Hsat.
    { intros tup [[[[_ Hab] Hn]|[]]|Hlt].
      2: { left. destruct (Hup (tup (part a))) as [_ Hl]. specialize (Hl Hlt). lia. }
      destruct (Hup (tup (part a))) as [Hl _]. destruct (Hl Hab) as [H1 H2].
      destruct (Z.lt_ge_cases 0 (value_cmp (field a) (max_value a) (tup (part a)))); [left; lia|].
      right. split; [lia|]. split; [|done]. destruct (has (max_flag a) NEAR_MAX); [specialize (H2 eq_refl); lia|done]. }
    destruct (goes_on a nkp last && _) eqn:Hgo.
    + apply andb_true_iff in Hgo as [Hgo Hfl'%negb_true_iff]. unfold goes_on in Hgo.
      destruct nkp as [|b n2 nx]; [done|]. cbn [root] in Hgo.
      apply andb_true_iff in Hgo as [_ Hp%Nat.eqb_eq].
      unfold descending. rewrite Hdir.
      replace (negb sk && negb sk || sk && negb (negb sk)) with true by (by destruct sk).
      pose proof (IHn b n2 nx (rk ++ k) _ last eq_refl Hnok Hdir Hfl') as IH.
      replace (part b) with (S (part a)) in IH by lia.
      apply (bounds_mono _ _ _ _ _ (sat (SCons b n2 nx))) in IH; [|tauto].
      destruct (store_max_key _ _ _ _ _ _) as [[[res' rk'] fl']|] eqn:Er; [|by destruct IH as (? & ? & ? & _)].
      cbn [mbind option_bind].
      eapply (bounds_cons (-1) NEAR_MAX key a _ (SCons b n2 nx) rk k (max_value a)); [by right|done|done|done| |done|done|exact IH|done].
      intros tup Ht. destruct (Hsat tup Ht) as [?|(? & _ & ?)]; [by left|by right].
    + eapply bounds_one; [by right|done|done|exact Hv|]. intros tup Ht. rewrite has_lor, Hfl2, orb_false_l.
      destruct (Hsat tup Ht) as [?|(? & H2 & _)]; (split; [lia|intros; try lia]). congruence.
  - pose proof Hok as (_ & Hf & _ & _ & _ & _ & Hok' & Hp & _).
    pose proof (IHt b n2 nx rk flag last eq_refl Hok' Hdir Hflag) as IH. rewrite Hp in IH.
    change (store_max_key (SCons a nkp (SCons b n2 nx)) key rk flag last sk) with
      (store_max_key (SCons b n2 nx) key rk flag last sk).
    assert (field b = field a) as Hfb by (apply tree_ok_cons in Hok' as (_ & -> & _); by rewrite Hp, Hf).
    rewrite Hfb in IH. eapply bounds_mono; [|exact IH]. cbn [last_arg].
    intros tup [[[[_ Hb] _]|Hs]|Hlt]; [right|by left|by right].
    by apply (earlier_below key a nkp b n2 nx).
Qed.

End graph.

(** ** Equality and points *)

Section points.
Context `{RFL : RangeFieldLaws}.

Definition edge_eq (f : nat) (p q : edge) : Prop := edge_cmp f p q = 0.

Lemma is_same_iff {EO : EndOrder RF} a arg :
  arg_ok a -> arg_ok arg -> ends_ok a -> ends_ok arg -> field a = field arg ->
  is_same a arg = true <->
  part a = part arg /\ edge_eq (field a) (min_edge a) (min_edge arg) /\ edge_eq (field a) (max_edge a) (max_edge arg).
Proof.
  intros Ha Hb Va Vb Hf. unfold is_same, edge_eq. rewrite (ok_type _ Ha), (ok_type _ Hb), !bool_decide_true by done. cbn [negb orb].
  pose proof (cmp_min_to_min_edges a arg Ha Hb Va Vb Hf). pose proof (cmp_max_to_max_edges a arg Ha Hb Va Vb Hf).
  destruct (Nat.eqb_spec (part a) (part arg)); cbn [negb]; [|intuition congruence].
  rewrite andb_true_iff, !Z.eqb_eq. intuition lia.
Qed.

Lemma edge_eq_contains a arg x : field a = field arg ->
  edge_eq (field a) (min_edge a) (min_edge arg) -> edge_eq (field a) (max_edge a) (max_edge arg) ->
  contains a x <-> contains arg x.
Proof.
  intros Hf H1 H2. unfold edge_eq in *.
  pose proof (above_ge a arg x Hf) as G1. pose proof (above_le a arg x Hf) as G2.
  pose proof (below_le a arg x Hf) as G3. pose proof (below_ge a arg x Hf) as G4.
  rewrite H1, H2 in *. specialize (G1 ltac:(done)). specialize (G2 ltac:(done)).
  specialize (G3 ltac:(done)). specialize (G4 ltac:(done)). unfold contains. tauto.
Qed.

(** Two lists of equal intervals hold the same values. *)
Fixpoint some_contains (t : sel_tree) (x : image) : Prop :=
  match t with SNil => False | SCons a _ n => contains a x \/ some_contains n x end.
Fixpoint all_args (P : SEL_ARG -> Prop) (t : sel_tree) : Prop :=
  match t with SNil => True | SCons a _ n => P a /\ all_args P n end.

Lemma all_same_lists_contains {EO : EndOrder RF} f t arg x :
  all_args (fun a => (arg_ok a /\ ends_ok a) /\ field a = f) t ->
  all_args (fun a => (arg_ok a /\ ends_ok a) /\ field a = f) arg ->
  all_same_lists t arg = true -> some_contains t x <-> some_contains arg x.
Proof.
  revert arg. induction t as [|a n _ t IH]; intros [|b m arg]; cbn; try done.
  intros [[[Ha Va] Fa] Ht] [[[Hb Vb] Fb] Harg]. destruct (is_same a b) eqn:E; [|done]. intros Hs.
  apply is_same_iff in E as (_ & E1 & E2); [|done..|congruence].
  rewrite (edge_eq_contains a b x), (IH arg) by (done || congruence). done.
Qed.

(** [is_singlepoint] is the intervals [kp = const] and [kp IS NULL]. *)
Lemma is_singlepoint_iff a : arg_ok a ->
  is_singlepoint a = true <->
  min_flag a = 0 /\ max_flag a = 0 /\ value_cmp (field a) (min_value a) (max_value a) = 0.
Proof.
  intros []. unfold is_singlepoint, value_cmp. rewrite <- ok_maybe_null0.
  destruct (nz (min_flag a)) eqn:E1; [apply nz_true in E1; cbn; intuition congruence|apply nz_false in E1].
  destruct (nz (max_flag a)) eqn:E2; [apply nz_true in E2; cbn; intuition congruence|apply nz_false in E2].
  cbn [orb]. destruct (maybe_null a).
  - destruct (ok_null_min0 eq_refl) as [N1|N1], (ok_null_max0 eq_refl) as [N2|N2]; rewrite N1, N2; cbn;
      rewrite ?Z.eqb_eq; intuition (congruence || lia).
  - rewrite Z.eqb_eq. intuition.
Qed.

End points.

(** ** A field for the examples: bytes compared as by [memcmp] *)

Fixpoint bytes_cmp (a b : image) : Z :=
  match a, b with
  | [], [] => 0
  | [], _ => -1
  | _, [] => 1
  | x :: a, y :: b => if x =? y then bytes_cmp a b else x - y
  end.

Definition null_field (f : nat) : bool := Nat.eqb f 1.
Definition null_cmp (f : nat) (a b : image) : Z :=
  if null_field f then
    if nz (head_byte a) then (if nz (head_byte b) then 0 else -1)
    else if nz (head_byte b) then 1 else bytes_cmp (tail a) (tail b)
  else bytes_cmp a b.
Definition edges_cmp (f : nat) (p q : edge) : Z :=
  match p, q with
  | NegInf, NegInf | PosInf, PosInf => 0
  | NegInf, _ | _, PosInf => -1
  | _, NegInf | PosInf, _ => 1
  | At v d, At v' d' => let c := null_cmp f v v' in if c =? 0 then d - d' else c
  end.

#[local] Instance bytes_field : RangeField := {
  real_maybe_null := null_field;
  key_cmp := fun _ => bytes_cmp;
  sel_cmp := fun f a b fa fb => edges_cmp f (edge_of a fa) (edge_of b fb)
}.

#[local] Instance bytes_field_laws : RangeFieldLaws bytes_field.
Proof.
  split; cbn.
  - intros _ a. induction a as [|x a IH]; cbn; [done|]. by rewrite Z.eqb_refl.
  - intros _ a. induction a as [|x a IH]; intros [|y b]; cbn; try done.
    destruct (Z.eqb_spec x y), (Z.eqb_spec y x); try lia. apply IH.
  - intros _ a. induction a as [|x a IH]; intros [|y b] [|z c]; cbn; try lia.
    destruct (Z.eqb_spec x y), (Z.eqb_spec y z), (Z.eqb_spec x z); try lia. apply IH.
Qed.

(** The values: one byte, or the null indicator and one byte. *)
#[local] Instance bytes_ends : EndOrder bytes_field.
Proof.
  apply (Build_EndOrder bytes_field (fun f v => length v = if null_field f then 2%nat else 1%nat)).
  intros f a b fa fb _ _ _ _. reflexivity.
Defined.

(** ** Properties *)

(** C27 : The interval operations on sets of values, for well-formed elements of one
    field whose bounded ends are values of the field.  [clone_and] is the
    intersection; [clone_first] is "min <= X < arg->min", and [copy_min_to_max] has
    the same values; [clone_last] runs from the lower end to the upper end of the
    other; [copy_max_to_min] keeps what lies beyond the upper end of the other.
    [copy_min] and [copy_max], whose comments say "Get overlapping range", do not
    intersect: they extend the interval down to the lower, respectively up to the
    upper end of the other, so that both together give the hull.  Their report of a
    "full range" never comes. *)
Theorem selarg_interval_algebra `{RFL : RangeFieldLaws} {EO : EndOrder RF} a arg :
  arg_ok a -> arg_ok arg -> ends_ok a -> ends_ok arg -> field a = field arg ->
  (forall x, contains (clone_and a arg) x <-> contains a x /\ contains arg x) /\
  (has (min_flag arg) NO_MIN_RANGE = false ->
   (forall x, contains (clone_first a arg) x <-> above_min a x /\ ~ above_min arg x) /\
   (forall x, contains (copy_min_to_max a arg) x <-> above_min a x /\ ~ above_min arg x)) /\
  (has (max_flag arg) NO_MAX_RANGE = false ->
   forall x, contains (copy_max_to_min a arg) x <-> ~ below_max arg x /\ below_max a x) /\
  (forall x, contains (clone_last a arg) x <-> above_min a x /\ below_max arg x) /\
  (forall x, contains (copy_min a arg).2 x <-> (above_min a x \/ above_min arg x) /\ below_max a x) /\
  (forall x, contains (copy_max a arg).2 x <-> above_min a x /\ (below_max a x \/ below_max arg x)) /\
  (copy_min a arg).1 = false /\ (copy_max a arg).1 = false.
Proof.
  intros Ha Hb Va Vb Hf. split_and!; intros; try split; intros.
  - by apply clone_and_contains.
  - by apply clone_and_contains.
  - by apply clone_first_contains.
  - by apply copy_min_to_max_contains.
  - by apply copy_max_to_min_contains.
  - by apply copy_max_to_min_contains.
  - by apply clone_last_contains.
  - by apply clone_last_contains.
  - by apply copy_min_contains.
  - by apply copy_min_contains.
  - by apply copy_max_contains.
  - by apply copy_max_contains.
  - unfold copy_min. destruct (0 <? _); [|done]. rewrite full_range_false; [done|]. apply Ha.
  - unfold copy_max. destruct (_ <=? 0); [|done]. rewrite full_range_false; [done|]. apply Hb.
Qed.

(** [10 <= kp <= 20] and [15 < kp], one byte each. *)
Definition iv_closed : SEL_ARG := SelArg 0 0 0 0 false 0 [10] [20] KEY_RANGE.
Definition iv_above : SEL_ARG := SelArg NEAR_MIN NO_MAX_RANGE 0 0 false 0 [15] [] KEY_RANGE.

Lemma iv_closed_ok : arg_ok iv_closed.
Proof. split; cbn; try done; by left. Qed.
Lemma iv_above_ok : arg_ok iv_above.
Proof. split; cbn; try done; [by right; right|by right; left]. Qed.

Lemma iv_closed_ends : ends_ok iv_closed.
Proof. done. Qed.
Lemma iv_above_ends : ends_ok iv_above.
Proof. done. Qed.

Lemma selarg_interval_algebra_witness :
  (contains (clone_and iv_closed iv_above) [16] <-> contains iv_closed [16] /\ contains iv_above [16]) /\
  (contains (clone_first iv_closed iv_above) [15] <-> above_min iv_closed [15] /\ ~ above_min iv_above [15]) /\
  contains (clone_first iv_closed iv_above) [15] /\ ~ contains (clone_first iv_closed iv_above) [16].
Proof.
  destruct (selarg_interval_algebra iv_closed iv_above iv_closed_ok iv_above_ok
    iv_closed_ends iv_above_ends eq_refl) as (H1 & H2 & _).
  destruct (H2 eq_refl) as [H3 _]. split; [exact (H1 [16])|]. split; [exact (H3 [15])|].
  split; [|intros [_ H]; vm_compute in H; by apply H].
  split; vm_compute; discriminate.
Defined.

(** Comparison of intervals.  [is_same] holds exactly when the two elements
    belong to the same key part and have equal ends, and then they hold the same
    values; lists that [all_same] accepts hold the same values; and
    [is_singlepoint] recognises exactly the closed intervals whose two ends are
    the same value, null included. *)
Lemma selarg_equality `{RFL : RangeFieldLaws} {EO : EndOrder RF} a arg :
  arg_ok a -> arg_ok arg -> ends_ok a -> ends_ok arg -> field a = field arg ->
  (is_same a arg = true <->
   part a = part arg /\ edge_eq (field a) (min_edge a) (min_edge arg) /\
   edge_eq (field a) (max_edge a) (max_edge arg)) /\
  (is_same a arg = true -> forall x, contains a x <-> contains arg x) /\
  (is_singlepoint a = true <->
   min_flag a = 0 /\ max_flag a = 0 /\ value_cmp (field a) (min_value a) (max_value a) = 0) /\
  (is_singlepoint a = true -> forall x, contains a x <-> value_cmp (field a) (min_value a) x = 0) /\
  (forall t t', all_args (fun b => (arg_ok b /\ ends_ok b) /\ field b = field a) t ->
   all_args (fun b => (arg_ok b /\ ends_ok b) /\ field b = field a) t' ->
   all_same_lists t t' = true -> forall x, some_contains t x <-> some_contains t' x).
Proof.
  intros Ha Hb Va Vb Hf. split; [by apply is_same_iff|]. split.
  { intros (_ & E1 & E2)%is_same_iff x; [|done..]. by apply edge_eq_contains. }
  split; [by apply is_singlepoint_iff|]. split.
  - intros (E1 & E2 & E3)%is_singlepoint_iff x; [|done].
    unfold contains, above_min, below_max, min_edge, max_edge. rewrite E1, E2. has_simpl. cbn [edge_cmp].
    pose proof (value_cmp_eq_r (field a) x (min_value a) (max_value a) E3) as S.
    pose proof (value_cmp_sym (field a) x (min_value a)) as S2.
    destruct (Z.eqb_spec (value_cmp (field a) (min_value a) x) 0),
      (Z.eqb_spec (value_cmp (field a) x (max_value a)) 0); lia.
  - intros t t' Ht Ht' Hs x. by apply (all_same_lists_contains (field a)).
Qed.

(** C25 : The ends of a key range.  On an index whose key parts all have the
    direction that [start_key] asks for (ascending for [store_min_key] of a start
    key and [store_max_key] of an end key, descending the other way round), both
    functions return, append one value per reported key part, of that part's
    length, and the written key bounds every tuple that satisfies the whole
    condition graph, lexicographically from below and from above; the bound is
    strict when the returned flag has [NEAR_MIN], respectively [NEAR_MAX]. *)
Theorem selarg_key_bounds `{RFL : RangeFieldLaws} (fld : nat -> nat) (key : nat -> KEY_PART) a nkp next rk last sk :
  tree_ok fld key (SCons a nkp next) ->
  ((forall p, has (kp_flag (key p)) HA_REVERSE_SORT = negb sk) ->
   exists ks flag, store_min_key (SCons a nkp next) key rk 0 last sk =
       Some (Z.of_nat (List.length ks), rk ++ concat ks, flag) /\
     lengths_ok key (part a) ks /\
     forall tup, sat (SCons a nkp next) tup ->
       lex_cmp fld (part a) ks tup <= 0 /\ (has flag NEAR_MIN = true -> lex_cmp fld (part a) ks tup < 0)) /\
  ((forall p, has (kp_flag (key p)) HA_REVERSE_SORT = sk) ->
   exists ks flag, store_max_key (SCons a nkp next) key rk 0 last sk =
       Some (Z.of_nat (List.length ks), rk ++ concat ks, flag) /\
     lengths_ok key (part a) ks /\
     forall tup, sat (SCons a nkp next) tup ->
       0 <= lex_cmp fld (part a) ks tup /\ (has flag NEAR_MAX = true -> 0 < lex_cmp fld (part a) ks tup)).
Proof.
  intros Hok. split; intros Hdir.
  - destruct (store_min_key_bounds fld key sk (SCons a nkp next) a nkp next rk 0 last eq_refl Hok Hdir eq_refl)
      as (ks & flag & E & Hl & Hb).
    exists ks, flag. split_and!; [done|done|]. intros tup Ht. destruct (Hb tup Ht) as [H1 H2].
    split; [lia|]. intros Hn. specialize (H2 Hn). lia.
  - destruct (store_max_key_bounds fld key sk (SCons a nkp next) a nkp next rk 0 last eq_refl Hok Hdir eq_refl)
      as (ks & flag & E & Hl & Hb).
    exists ks, flag. split_and!; [done|done|]. intros tup Ht. destruct (Hb tup (or_introl Ht)) as [H1 H2].
    split; [lia|]. intros Hn. specialize (H2 Hn). lia.
Qed.

(** [(kp0 = 1 or 2 <= kp0 < 5) and kp1 > 7], where kp1 may be null. *)
Definition kps (desc : bool) (p : nat) : KEY_PART :=
  KeyPart (if Nat.eqb p 1 then 2 else 1) (if desc then HA_REVERSE_SORT else 0).
Definition g_kp1 : sel_tree := SCons (SelArg NEAR_MIN NO_MAX_RANGE 0 1 true 1 [0; 7] [0; 0] KEY_RANGE) SNil SNil.
Definition g_first : SEL_ARG := SelArg 0 0 0 0 false 0 [1] [1] KEY_RANGE.
Definition g_next : sel_tree := SCons (SelArg 0 NEAR_MAX 0 0 false 0 [2] [5] KEY_RANGE) g_kp1 SNil.

Lemma g_ok desc : tree_ok (fun p => p) (kps desc) (SCons g_first g_kp1 g_next).
Proof.
  destruct desc; cbn; unfold min_flag_ok, max_flag_ok;
    split_and!; try done; try (vm_compute; congruence); split; cbn; unfold min_flag_ok, max_flag_ok; try done; auto.
Qed.

Lemma selarg_key_bounds_witness :
  (exists ks flag, store_min_key (SCons g_first g_kp1 g_next) (kps false) [] 0 99 true =
      Some (Z.of_nat (List.length ks), [] ++ concat ks, flag) /\
    lengths_ok (kps false) 0 ks /\
    forall tup, sat (SCons g_first g_kp1 g_next) tup ->
      lex_cmp (fun p => p) 0 ks tup <= 0 /\ (has flag NEAR_MIN = true -> lex_cmp (fun p => p) 0 ks tup < 0)) /\
  store_min_key (SCons g_first g_kp1 g_next) (kps false) [] 0 99 true = Some (2, [1; 0; 7], NEAR_MIN) /\
  store_max_key (SCons g_first g_kp1 g_next) (kps false) [] 0 99 false = Some (1, [5], NEAR_MAX).
Proof.
  destruct (selarg_key_bounds (fun p => p) (kps false) g_first g_kp1 g_next [] 99 true (g_ok false)) as [H1 _].
  split; [apply H1; intros p; reflexivity|]. split; reflexivity.
Defined.

(** The order of the index: descending key parts compare in reverse. *)
Fixpoint index_cmp `{RangeField} (fld : nat -> nat) (key : nat -> KEY_PART) (p : nat) (ks : list image)
    (tup : nat -> image) : Z :=
  match ks with
  | [] => 0
  | k :: ks =>
      let c := value_cmp (fld p) k (tup p) in
      if c =? 0 then index_cmp fld key (S p) ks tup
      else if has (kp_flag (key p)) HA_REVERSE_SORT then - c else c
  end.

Lemma store_min_closed a length key :
  min_flag a = 0 -> store_min a length key 0 = store_value a (min_value a) length key.
Proof. intros H. unfold store_min. rewrite H. done. Qed.

(** On an index with mixed directions the start key is wrong: for an
    ascending key part followed by a descending one, [store_min_key] looks at the
    direction of the part just written, not of the next one, and appends the
    minimum of the descending part.  A tuple with the maximum of that part
    satisfies the condition and comes before the start key in the index, so a scan
    from the start key never sees it. *)
Lemma selarg_mixed_direction `{RFL : RangeFieldLaws} (fld : nat -> nat) (key : nat -> KEY_PART) a b last tup :
  tree_ok fld key (SCons a (SCons b SNil SNil) SNil) ->
  has (kp_flag (key (part a))) HA_REVERSE_SORT = false ->
  has (kp_flag (key (part b))) HA_REVERSE_SORT = true ->
  part b = S (part a) -> part a <> last ->
  min_flag a = 0 -> min_flag b = 0 -> max_flag b = 0 ->
  value_cmp (field b) (min_value b) (max_value b) < 0 ->
  tup (part a) = min_value a -> tup (part b) = max_value b ->
  sat (SCons a (SCons b SNil SNil) SNil) tup /\
  exists k1 k2, store_min_key (SCons a (SCons b SNil SNil) SNil) key [] 0 last true = Some (2, k1 ++ k2, 0) /\
    value_cmp (field a) k1 (min_value a) = 0 /\ value_cmp (field b) k2 (min_value b) = 0 /\
    0 < index_cmp fld key (part a) [k1; k2] tup.
Proof.
  intros Hok Hda Hdb Hp Hlast Hma Hmb Hxb Hlt Hta Htb.
  pose proof Hok as (Ha & Hfa & Hne & Hla & _ & (Hb & Hfb & Hneb & Hlb & _) & _).
  split.
  - left. split; [|left; split; [|done]]; unfold contains, above_min, below_max, min_edge, max_edge in *;
      rewrite ?Hta, ?Htb.
    + split.
      * rewrite Hma. has_simpl. cbn [edge_cmp]. by rewrite value_cmp_refl.
      * rewrite Hma in Hne. has_simpl. exact Hne.
    + rewrite Hmb, Hxb in *. has_simpl. cbn [edge_cmp] in *. rewrite value_cmp_refl. split; [|done].
      destruct (Z.eqb_spec (value_cmp (field b) (min_value b) (max_value b)) 0); lia.
  - destruct (store_value_run a (min_value a) (store_length (key (part a))) [] (ok_maybe_null _ Ha) Hla)
      as (k1 & E1 & L1 & V1).
    destruct (store_value_run b (min_value b) (store_length (key (part b))) k1 (ok_maybe_null _ Hb) Hlb)
      as (k2 & E2 & L2 & V2).
    exists k1, k2. split; [|split; [|split]].
    + cbn [store_min_key]. rewrite (store_min_closed a) by done. rewrite E1. cbn [mbind option_bind app].
      change (1 =? 0) with false. cbv iota. unfold goes_on at 1. cbn [root].
      rewrite (ok_type _ Hb), bool_decide_true by done. rewrite (proj2 (Nat.eqb_neq _ _)) by done.
      rewrite (proj2 (Nat.eqb_eq _ _)) by lia. rewrite Hma, Z.lor_0_l. has_simpl.
      unfold descending at 1. rewrite Hda. cbn [negb eqb].
      rewrite (store_min_closed b) by done. rewrite E2. cbn [mbind option_bind].
      change (1 =? 0) with false. cbv iota. rewrite Hmb. done.
    + specialize (V1 (min_value a)). rewrite value_cmp_refl in V1. lia.
    + specialize (V2 (min_value b)). rewrite value_cmp_refl in V2. lia.
    + cbn [index_cmp]. rewrite <- Hfa, Hta. specialize (V1 (min_value a)). rewrite value_cmp_refl in V1.
      rewrite (proj2 (Z.eqb_eq _ 0)) by lia. rewrite <- Hp, <- Hfb, Htb, Hdb.
      specialize (V2 (max_value b)). rewrite (proj2 (Z.eqb_neq _ 0)) by lia. lia.
Qed.

Definition mixed (p : nat) : KEY_PART := KeyPart 1 (if Nat.eqb p 1 then HA_REVERSE_SORT else 0).
Definition m_a : SEL_ARG := SelArg 0 0 0 0 false 0 [10] [20] KEY_RANGE.
Definition m_b : SEL_ARG := SelArg 0 0 0 1 false 2 [3] [9] KEY_RANGE.

(** Inverting the flags of an end and inverting them back changes nothing, and the
    direction of the key part decides which end is the first one. *)
Lemma invert_flags f : min_flag_ok f -> max_flag_ok (invert_min_flag f) /\ invert_max_flag (invert_min_flag f) = f.
Proof. unfold max_flag_ok. intros [-> | [-> | ->]]; vm_compute; auto. Qed.

Lemma invert_flags' f : max_flag_ok f -> min_flag_ok (invert_max_flag f) /\ invert_min_flag (invert_max_flag f) = f.
Proof. unfold min_flag_ok. intros [-> | [-> | ->]]; vm_compute; auto. Qed.
