(* ===== verification/ILink.v ===== *)
(** The remaining lists of [mariadb/include/mysql/server/private/sql_list.h]: the
    singly linked [SQL_I_List] (Module [SqlIList]), and the intrusive doubly linked
    [ilink], [base_ilist], [base_ilist_iterator] and [I_List] (Module [ILink]).

    Objects are numbers.  A pointer to a pointer is a [slot]: a list's [first]
    field or the [next] field of an element.  The store maps the fields of all
    objects, and a method is a computation of [ST]; a null pointer dereferenced, or
    a failed [DBUG_ASSERT], is [None]. *)

From S2P Require Import Prelude.

Open Scope st_scope.

(** Change a function at one point. *)
Definition upd {A B} `{EqDecision A} (f : A -> B) (a : A) (b : B) : A -> B :=
  fun x => if decide (x = a) then b else f x.

Lemma upd_eq {A B} `{EqDecision A} (f : A -> B) a b : upd f a b a = b.
Proof. unfold upd. by rewrite decide_True. Qed.
Lemma upd_ne {A B} `{EqDecision A} (f : A -> B) a b x : x <> a -> upd f a b x = f x.
Proof. intros. unfold upd. by rewrite decide_False. Qed.

(** Decide the updates that occur in the goal. *)
Ltac upds :=
  repeat first
    [ rewrite upd_eq
    | rewrite upd_ne by (done || congruence || auto) ].

(** ** SQL_I_List *)

Module SqlIList.

Inductive slot := First (l : nat) | Field (a : nat).
#[export] Instance slot_eq_dec : EqDecision slot.
Proof. solve_decision. Defined.

Record store := Store {
  elements : nat -> Z;
  first : nat -> option nat;
  next : nat -> slot;
  field : nat -> option nat
}.
Abbreviation M := (ST store).

Definition set_elements (l : nat) (n : Z) : M unit :=
  st_modify (fun s => Store (upd (elements s) l n) (first s) (next s) (field s)).
Definition set_first (l : nat) (p : option nat) : M unit :=
  st_modify (fun s => Store (elements s) (upd (first s) l p) (next s) (field s)).
Definition set_next (l : nat) (p : slot) : M unit :=
  st_modify (fun s => Store (elements s) (first s) (upd (next s) l p) (field s)).
Definition set_field (a : nat) (p : option nat) : M unit :=
  st_modify (fun s => Store (elements s) (first s) (next s) (upd (field s) a p)).
(** [*p= v] *)
Definition store_slot (p : slot) (v : option nat) : M unit :=
  match p with First l => set_first l v | Field a => set_field a v end.

Definition empty (l : nat) : M unit :=
  set_elements l 0;;; set_first l None;;; set_next l (First l).

(** The copy constructor and [operator=] do the same. *)
Definition assign (l tmp : nat) : M unit :=
  let* e := st_gets (fun s => elements s tmp) in
  set_elements l e;;;
  let* f := st_gets (fun s => first s tmp) in
  set_first l f;;;
  let* e := st_gets (fun s => elements s l) in
  let* n := st_gets (fun s => next s tmp) in
  set_next l (if nz e then n else First l).

(** [next_ptr] is the address of the element's own link field. *)
Definition link_in_list (l element : nat) (next_ptr : slot) : M unit :=
  let* e := st_gets (fun s => elements s l) in
  set_elements l (u32 (e + 1));;;
  let* n := st_gets (fun s => next s l) in
  store_slot n (Some element);;;
  set_next l next_ptr;;;
  let* n := st_gets (fun s => next s l) in
  store_slot n None.

Definition save_and_clear (l save : nat) : M unit := assign save l;;; empty l.

Definition push_front (l save : nat) : M unit :=
  let* n := st_gets (fun s => next s save) in
  let* f := st_gets (fun s => first s l) in
  store_slot n f;;;
  let* f := st_gets (fun s => first s save) in
  set_first l f;;;
  let* e := st_gets (fun s => elements s l) in
  let* e' := st_gets (fun s => elements s save) in
  set_elements l (u32 (e + e')).

Definition push_back (l save : nat) : M unit :=
  let* f := st_gets (fun s => first s save) in
  match f with
  | None => st_ret tt
  | Some _ =>
      let* n := st_gets (fun s => next s l) in
      store_slot n f;;;
      let* n := st_gets (fun s => next s save) in
      set_next l n;;;
      let* e := st_gets (fun s => elements s l) in
      let* e' := st_gets (fun s => elements s save) in
      set_elements l (u32 (e + e'))
  end.

(** [chain f p xs q]: following the fields from pointer [p] visits [xs] and ends
    with [q]. *)
Fixpoint chain (f : nat -> option nat) (p : option nat) (xs : list nat) (q : option nat) : Prop :=
  match xs with
  | [] => p = q
  | x :: xs => p = Some x /\ chain f (f x) xs q
  end.

Definition last_slot (l : nat) (xs : list nat) : slot :=
  match last xs with Some a => Field a | None => First l end.

(** List [l] holds [xs], with its count and the address of its last link. *)
Record holds (s : store) (l : nat) (xs : list nat) : Prop := Holds {
  h_chain : chain (field s) (first s l) xs None;
  h_next : next s l = last_slot l xs;
  h_elements : elements s l = u32 (Z.of_nat (length xs));
  h_nodup : NoDup xs
}.

(** What the source can read off a list: the elements that a walk visits. *)
Fixpoint walk (fuel : nat) (s : store) (p : option nat) : option (list nat) :=
  match p, fuel with
  | None, _ => Some []
  | Some a, O => None
  | Some a, S fuel => xs ← walk fuel s (field s a); Some (a :: xs)
  end.

Lemma chain_walk s p xs fuel : chain (field s) p xs None -> (length xs < fuel)%nat -> walk fuel s p = Some xs.
Proof.
  revert p fuel. induction xs as [|x xs IH]; intros p [|fuel]; cbn; try lia; [by intros -> |].
  intros [-> Hc] Hl. cbn. by rewrite (IH _ fuel Hc) by lia.
Qed.

Lemma chain_ext f g p xs q : (forall x, x ∈ xs -> g x = f x) -> chain f p xs q -> chain g p xs q.
Proof.
  revert p. induction xs as [|x xs IH]; intros p He; cbn; [done|]. intros [-> Hc]. split; [done|].
  rewrite He by set_solver. apply IH; [|done]. intros y Hy. apply He. set_solver.
Qed.

Lemma chain_upd f p xs q a v : a ∉ xs -> chain f p xs q -> chain (upd f a v) p xs q.
Proof. intros Ha. apply chain_ext. intros x Hx. apply upd_ne. congruence. Qed.

(** Redirecting the last link. *)
Lemma chain_last f p xs x q q' : NoDup (xs ++ [x]) ->
  chain f p (xs ++ [x]) q -> chain (upd f x q') p (xs ++ [x]) q'.
Proof.
  revert p. induction xs as [|y xs IH]; intros p Hnd; cbn.
  - intros [-> _]. by rewrite upd_eq.
  - cbn in Hnd. apply NoDup_cons in Hnd as [Hy Hnd]. intros [-> Hc]. split; [done|].
    rewrite upd_ne by set_solver. by apply IH.
Qed.

Lemma chain_app f p xs ys q : chain f p (xs ++ ys) q <-> exists r, chain f p xs r /\ chain f r ys q.
Proof.
  revert p. induction xs as [|x xs IH]; intros p; cbn; [naive_solver|]. rewrite IH. naive_solver.
Qed.

(** A link written through [next] continues the list. *)
Lemma store_last_slot s l xs v :
  holds s l xs ->
  exists s', store_slot (next s l) v s = Some (tt, s') /\
    elements s' = elements s /\ next s' = next s /\
    chain (field s') (first s' l) xs v /\
    (forall l', l' <> l -> first s' l' = first s l') /\
    (forall a, a ∉ xs -> field s' a = field s a).
Proof.
  intros [Hc Hn _ Hnd]. rewrite Hn. unfold last_slot.
  destruct (list_snoc_inv xs) as [-> | (xs' & x & ->)].
  - cbn. eexists. split; [done|]. cbn. split_and!; try done; [by rewrite upd_eq|].
    intros l' Hl. by apply upd_ne.
  - rewrite last_snoc. cbn. eexists. split; [done|]. cbn. split_and!; try done; [by eapply chain_last|].
    intros a Ha. apply upd_ne. set_solver.
Qed.

Lemma chain_nil f p xs : chain f p xs None -> xs = [] -> p = None.
Proof. by intros Hc ->. Qed.

Lemma last_slot_app l xs ys : ys <> [] -> last_slot l (xs ++ ys) = last_slot l ys.
Proof.
  intros Hy. unfold last_slot. destruct (list_snoc_inv ys) as [-> | (ys' & y & ->)]; [done|].
  by rewrite app_assoc, !last_snoc.
Qed.

Lemma last_slot_ne l l' xs : xs <> [] -> last_slot l xs = last_slot l' xs.
Proof.
  intros Hx. unfold last_slot. destruct (list_snoc_inv xs) as [-> | (ys & y & ->)]; [done|]. by rewrite !last_snoc.
Qed.

Lemma empty_run s l : exists s', empty l s = Some (tt, s') /\ holds s' l [] /\
  (forall l' xs, l' <> l -> holds s l' xs -> holds s' l' xs).
Proof.
  eexists. split; [done|]. split.
  - split; cbn; rewrite ?upd_eq; try done. constructor.
  - intros l' xs Hl [H1 H2 H3 H4]. split; cbn; rewrite ?upd_ne by done; done.
Qed.

Lemma assign_run s l tmp xs : l <> tmp -> Z.of_nat (length xs) < 2 ^ 32 -> holds s tmp xs ->
  exists s', assign l tmp s = Some (tt, s') /\ holds s' l xs /\ field s' = field s /\
    (forall l' ys, l' <> l -> holds s l' ys -> holds s' l' ys).
Proof.
  intros Hl Hsz [H1 H2 H3 H4]. eexists. split; [done|]. split; [|split; [done|]].
  - split; cbn; rewrite ?upd_eq; try done. rewrite H3, H2, wrapU_small by (unfold in_u; lia).
    destruct xs as [|x xs]; [done|]. rewrite (proj2 (nz_true _)) by (cbn; lia). by apply last_slot_ne.
  - intros l' ys Hl' [G1 G2 G3 G4]. split; cbn; rewrite ?upd_ne by done; done.
Qed.

Lemma link_in_list_run s l xs a : holds s l xs -> a ∉ xs ->
  exists s', link_in_list l a (Field a) s = Some (tt, s') /\ holds s' l (xs ++ [a]).
Proof.
  intros HH Ha.
  set (s1 := Store (upd (elements s) l (u32 (elements s l + 1))) (first s) (next s) (field s)).
  assert (exists s2, store_slot (next s l) (Some a) s1 = Some (tt, s2) /\ elements s2 = elements s1 /\
            chain (field s2) (first s2 l) xs (Some a)) as (s2 & E2 & El & Hc).
  { destruct (store_last_slot s l xs (Some a) HH) as (s' & E & _ & _ & Hc & _).
    destruct (next s l) as [l0|x]; cbn in E |- *; injection E as <-; cbn in Hc; eexists; (split; [done|]); done. }
  unfold link_in_list. unfold st_bind at 1, st_gets at 1. unfold st_bind at 1. cbn [set_elements st_modify].
  unfold set_elements, st_modify. fold s1. unfold st_bind at 1, st_gets at 1. change (next s1 l) with (next s l).
  unfold st_bind at 1. rewrite E2. unfold st_bind, set_next, st_modify, st_gets. cbn [next]. rewrite upd_eq. cbn.
  eexists. split; [done|]. split; cbn.
  - apply chain_app. exists (Some a). split; [by apply chain_upd|]. cbn. by rewrite upd_eq.
  - rewrite upd_eq. unfold last_slot. by rewrite last_snoc.
  - rewrite El. unfold s1. cbn. rewrite upd_eq, (h_elements _ _ _ HH), length_app. cbn [length]. unfold wrapU.
    rewrite Zplus_mod_idemp_l. f_equal. lia.
  - apply NoDup_snoc. split; [apply HH|done].
Qed.

Lemma sil_push_back_run s l save xs ys : l <> save -> holds s l xs -> holds s save ys -> NoDup (xs ++ ys) ->
  exists s', push_back l save s = Some (tt, s') /\ holds s' l (xs ++ ys) /\ holds s' save ys.
Proof.
  intros Hl HH HS Hnd. pose proof (store_last_slot s l xs (first s save) HH) as (s1 & E & H1 & H2 & H3 & H4 & H5).
  apply NoDup_app in Hnd as Hnd'. destruct Hnd' as (Nx & Nxy & Ny).
  destruct (decide (ys = [])) as [->|Hy].
  { pose proof (h_chain _ _ _ HS) as Hc. cbn in Hc. exists s. unfold push_back, st_bind, st_gets. rewrite Hc.
    rewrite app_nil_r. done. }
  assert (is_Some (first s save)) as [y Hf].
  { pose proof (h_chain _ _ _ HS) as Hc. destruct ys; [done|]. destruct Hc as [-> _]. by eexists. }
  assert (chain (field s1) (first s save) ys None) as Hcy.
  { eapply chain_ext; [|apply HS]. intros x Hx. apply H5. set_solver. }
  unfold push_back. unfold st_bind at 1, st_gets at 1. rewrite Hf. rewrite Hf in E.
  unfold st_bind at 1, st_gets at 1. unfold st_bind at 1. rewrite E.
  unfold st_bind, st_gets, set_next, set_elements, st_modify. cbn. eexists. split; [done|]. split; split; cbn.
  - apply chain_app. eexists. split; [exact H3|]. done.
  - rewrite upd_eq, H2, (h_next _ _ _ HS), last_slot_app by done. by apply last_slot_ne.
  - rewrite upd_eq, H1, (h_elements _ _ _ HH), (h_elements _ _ _ HS), length_app, Nat2Z.inj_add. unfold wrapU.
    by rewrite <- Z.add_mod by lia.
  - done.
  - rewrite H4 by auto. done.
  - rewrite upd_ne by auto. rewrite H2. apply HS.
  - rewrite upd_ne by auto. rewrite H1. apply HS.
  - apply HS.
Qed.

(** [push_front] always prepends the elements, but [next] stays as it was. *)
Lemma sil_push_front_run s l save xs ys : l <> save -> holds s l xs -> holds s save ys -> NoDup (ys ++ xs) ->
  exists s', push_front l save s = Some (tt, s') /\
    chain (field s') (first s' l) (ys ++ xs) None /\ elements s' l = u32 (Z.of_nat (length (ys ++ xs))) /\
    next s' l = last_slot l xs.
Proof.
  intros Hl HH HS Hnd. pose proof (store_last_slot s save ys (first s l) HS) as (s1 & E & H1 & H2 & H3 & H4 & H5).
  apply NoDup_app in Hnd as Hnd'. destruct Hnd' as (Ny & Nyx & Nx).
  unfold push_front. unfold st_bind at 1, st_gets at 1. unfold st_bind at 1, st_gets at 1.
  unfold st_bind at 1. rewrite E.
  unfold st_bind, st_gets, set_first, set_elements, st_modify. cbn. eexists. split; [done|]. cbn.
  rewrite !upd_eq. split; [|split].
  - apply chain_app. exists (first s l). split; [done|]. eapply chain_ext; [|apply HH].
    intros x Hx. apply H5. intros Hy. by apply (Nyx x).
  - rewrite H1, (h_elements _ _ _ HH), (h_elements _ _ _ HS), length_app, Nat2Z.inj_add. unfold wrapU.
    rewrite <- Z.add_mod by lia. f_equal. lia.
  - rewrite H2. apply HH.
Qed.

(** [SQL_I_List] is a sequence with its length modulo 2^32 and the address
    of its last link: [empty], assignment, [save_and_clear], [link_in_list] and
    [push_back] produce the empty sequence, a copy, a move, an appended element and
    a concatenation.  [push_front] concatenates too as long as the receiving list
    has an element or the other one has none; otherwise it leaves [next] at the
    head of the list, and the next [link_in_list] drops everything that was
    pushed while still counting it. *)
Lemma sql_i_list_refines_sequence s l save xs ys :
  l <> save -> holds s l xs -> holds s save ys -> NoDup (xs ++ ys) -> Z.of_nat (length xs) < 2 ^ 32 ->
  (exists s', empty l s = Some (tt, s') /\ holds s' l []) /\
  (exists s', assign save l s = Some (tt, s') /\ holds s' save xs /\ holds s' l xs) /\
  (exists s', save_and_clear l save s = Some (tt, s') /\ holds s' save xs /\ holds s' l []) /\
  (forall a, a ∉ xs -> exists s', link_in_list l a (Field a) s = Some (tt, s') /\ holds s' l (xs ++ [a])) /\
  (exists s', push_back l save s = Some (tt, s') /\ holds s' l (xs ++ ys)) /\
  (exists s', push_front l save s = Some (tt, s') /\
     (xs <> [] \/ ys = [] -> holds s' l (ys ++ xs)) /\
     (xs = [] -> forall a, exists s2, link_in_list l a (Field a) s' = Some (tt, s2) /\
        walk 2 s2 (first s2 l) = Some [a] /\ elements s2 l = u32 (Z.of_nat (length ys) + 1))).
Proof.
  intros Hl HH HS Hnd Hsz. split_and!.
  - destruct (empty_run s l) as (s' & ? & ? & _). eauto.
  - destruct (assign_run s save l xs) as (s' & E & H1 & _ & H2); [done|done|done|]. exists s'. split_and!; auto.
  - destruct (assign_run s save l xs) as (s1 & E1 & H1 & _); [done|done|done|].
    destruct (empty_run s1 l) as (s2 & E2 & H2 & H3). exists s2. split; [|split; auto].
    unfold save_and_clear, st_bind. by rewrite E1.
  - intros a Ha. by apply link_in_list_run.
  - destruct (sil_push_back_run s l save xs ys) as (s' & ? & ? & _); eauto.
  - assert (NoDup (ys ++ xs)) as Hnd' by (by rewrite (Permutation_app_comm ys xs)).
    destruct (sil_push_front_run s l save xs ys) as (s' & E & Hc & He & Hn); [done..|].
    exists s'. split; [done|]. split.
    + intros Hx. split; try done. rewrite Hn. destruct Hx as [Hx | ->]; [|done]. by rewrite last_slot_app.
    + intros -> a. rewrite app_nil_r in He. cbn in Hn. unfold link_in_list, st_bind, st_gets, set_elements, st_modify.
      cbn. rewrite Hn. cbn. rewrite upd_eq. cbn. eexists. split; [done|]. cbn. rewrite !upd_eq, He. cbn.
      split; [done|]. unfold wrapU. by rewrite Zplus_mod_idemp_l.
Qed.

Definition s0 : store := Store (fun _ => 0) (fun _ => None) First (fun _ => None).
(** List 1 holds 7 and 8, list 0 is empty. *)
Definition s1 : store := Store (fun l => if Nat.eqb l 1 then 2 else 0) (fun l => if Nat.eqb l 1 then Some 7%nat else None)
  (fun l => if Nat.eqb l 1 then Field 8 else First l) (fun a => if Nat.eqb a 7 then Some 8%nat else None).

Lemma s1_holds0 : holds s1 0 [].
Proof. split; try done. constructor. Qed.
Lemma s1_holds1 : holds s1 1 [7%nat; 8%nat].
Proof. split; try done. apply (bool_decide_unpack _). vm_compute. exact I. Qed.

End SqlIList.

(** ** ilink and base_ilist *)

Module ILink.

(** A pointer to an [ilink]: an element, or the sentinel [last] of a list. *)
Inductive link := Elt (a : nat) | Last (l : nat).
(** A pointer to a pointer: a list's [first], or the [next] of a link. *)
Inductive slot := First (l : nat) | Next (k : link).

#[export] Instance link_eq_dec : EqDecision link.
Proof. solve_decision. Defined.
#[export] Instance slot_eq_dec : EqDecision slot.
Proof. solve_decision. Defined.

(** [mem] holds the pointer in every slot, [prev] the address in every link. *)
Record store := Store {
  mem : slot -> option link;
  prev : link -> option slot
}.
Abbreviation M := (ST store).

Definition first (s : store) (l : nat) : option link := mem s (First l).
Definition next (s : store) (k : link) : option link := mem s (Next k).

(** [*p= v] *)
Definition store_slot (p : slot) (v : option link) : M unit :=
  st_modify (fun s => Store (upd (mem s) p v) (prev s)).
Definition set_prev (k : link) (p : option slot) : M unit :=
  st_modify (fun s => Store (mem s) (upd (prev s) k p)).
Definition set_first (l : nat) (p : option link) : M unit := store_slot (First l) p.
Definition set_next (k : link) (p : option link) : M unit := store_slot (Next k) p.
Definition load (p : slot) : M (option link) := st_gets (fun s => mem s p).
Definition deref {A} (p : option A) : M A := st_opt p.

Definition unlink (k : link) : M unit :=
  let* p := st_gets (fun s => prev s k) in
  let* n := st_gets (fun s => next s k) in
  match p with Some p => store_slot p n | None => st_ret tt end;;;
  let* n := st_gets (fun s => next s k) in
  let* p := st_gets (fun s => prev s k) in
  match n with Some n => set_prev n p | None => st_ret tt end;;;
  set_prev k None;;; set_next k None.

Definition ilink_init (k : link) : M unit := set_prev k None;;; set_next k None.
Definition assert_linked (k : link) : M unit :=
  let* p := st_gets (fun s => prev s k) in
  let* n := st_gets (fun s => next s k) in
  if bool_decide (p <> None) && bool_decide (n <> None) then st_ret tt else st_fail.
Definition assert_not_linked (k : link) : M unit :=
  let* p := st_gets (fun s => prev s k) in
  let* n := st_gets (fun s => next s k) in
  if bool_decide (p = None) && bool_decide (n = None) then st_ret tt else st_fail.

Definition empty (l : nat) : M unit := set_first l (Some (Last l));;; set_prev (Last l) (Some (First l)).
Definition base_ilist_init (l : nat) : M unit := ilink_init (Last l);;; empty l.
Definition is_empty (l : nat) : M bool := st_gets (fun s => bool_decide (first s l = Some (Last l))).
Definition is_last (l : nat) (p : link) : M bool :=
  st_gets (fun s => bool_decide (next s p = None) || bool_decide (next s p = Some (Last l))).

(** [append] puts the element in front. *)
Definition append (l : nat) (a : link) : M unit :=
  let* f := st_gets (fun s => first s l) in
  let* k := deref f in
  set_prev k (Some (Next a));;;
  let* f := st_gets (fun s => first s l) in
  set_next a f;;;
  set_prev a (Some (First l));;;
  set_first l (Some a).

Definition push_back (l : nat) (a : link) : M unit :=
  let* p := st_gets (fun s => prev s (Last l)) in
  let* p := deref p in
  store_slot p (Some a);;;
  set_next a (Some (Last l));;;
  let* p := st_gets (fun s => prev s (Last l)) in
  set_prev a p;;;
  set_prev (Last l) (Some (Next a)).

Definition get (l : nat) : M (option link) :=
  let* first_link := st_gets (fun s => first s l) in
  if bool_decide (first_link = Some (Last l)) then st_ret None
  else
    let* k := deref first_link in
    unlink k;;;
    st_ret (Some k).

Definition head (l : nat) : M (option link) :=
  st_gets (fun s => if bool_decide (first s l <> Some (Last l)) then first s l else None).

Definition move_elements_to (l new_owner : nat) : M unit :=
  let* e := is_empty new_owner in
  (if e : bool then st_ret tt else st_fail);;;
  let* f := st_gets (fun s => first s l) in
  set_first new_owner f;;;
  let* n := st_gets (fun s => next s (Last l)) in
  let* p := st_gets (fun s => prev s (Last l)) in
  set_prev (Last new_owner) p;;; set_next (Last new_owner) n;;;
  empty l.

(** ** base_ilist_iterator *)

Record iterator := Iterator { list_ : nat; el : slot; current : option link }.

Definition base_ilist_iterator (l : nat) : iterator := Iterator l (First l) None.

(** The result is null at the end of the list. *)
Definition it_next (it : iterator) : M (option link * iterator) :=
  let* c := load (el it) in
  if bool_decide (c = Some (Last (list_ it))) then st_ret (None, Iterator (list_ it) (el it) c)
  else
    let* k := deref c in
    st_ret (Some k, Iterator (list_ it) (Next k) c).

Definition it_unlink (it : iterator) : M iterator :=
  let* k := deref (current it) in
  let* tmp := st_gets (fun s => prev s k) in
  unlink k;;;
  let* tmp := deref tmp in
  st_ret (Iterator (list_ it) tmp (current it)).

(** [I_List_iterator::remove] also deletes the element. *)
Definition remove (it : iterator) : M iterator :=
  let* it := it_unlink it in
  let* k := deref (current it) in
  unlink k;;;
  st_ret (Iterator (list_ it) (el it) None).

(** ** What a list holds

    Slot and link of every pointer of a list, in order: [first] to the first
    element, the [next] of each element to the following one, the last to the
    sentinel [e]. *)

Fixpoint pairs (b : slot) (xs : list nat) (e : link) : list (slot * link) :=
  match xs with
  | [] => [(b, e)]
  | x :: xs => (b, Elt x) :: pairs (Next (Elt x)) xs e
  end.

(** A pointer that points, and the link that knows where. *)
Definition linked (s : store) (p : slot * link) : Prop := mem s p.1 = Some p.2 /\ prev s p.2 = Some p.1.

Record holds (s : store) (l : nat) (xs : list nat) : Prop := Holds {
  h_pairs : Forall (linked s) (pairs (First l) xs (Last l));
  h_nodup : NoDup xs
}.

(** The pairs before a position, the slot and the link at it, the pairs behind. *)
Fixpoint front (b : slot) (xs : list nat) : list (slot * link) :=
  match xs with [] => [] | x :: xs => (b, Elt x) :: front (Next (Elt x)) xs end.
Fixpoint fin (b : slot) (xs : list nat) : slot :=
  match xs with [] => b | x :: xs => fin (Next (Elt x)) xs end.
Definition hd_link (xs : list nat) (e : link) : link := match xs with [] => e | x :: _ => Elt x end.
Definition back (xs : list nat) (e : link) : list (slot * link) :=
  match xs with [] => [] | x :: xs => pairs (Next (Elt x)) xs e end.

Lemma pairs_split b xs ys e :
  pairs b (xs ++ ys) e = front b xs ++ (fin b xs, hd_link ys e) :: back ys e.
Proof. revert b. induction xs as [|x xs IH]; intros b; cbn; [by destruct ys|]. by rewrite IH. Qed.

Lemma fin_snoc b xs a : fin b (xs ++ [a]) = Next (Elt a).
Proof. revert b. induction xs as [|x xs IH]; intros b; cbn; [done|]. apply IH. Qed.

Lemma front_in b xs p : p ∈ front b xs ->
  (exists x, x ∈ xs /\ p.2 = Elt x) /\ (p.1 = b \/ exists x, x ∈ xs /\ p.1 = Next (Elt x)).
Proof.
  revert b. induction xs as [|x xs IH]; intros b; cbn; [by intros ?%elem_of_nil|].
  intros [-> | Hp]%elem_of_cons; cbn; [split; [exists x; set_solver|by left]|].
  destruct (IH _ Hp) as [(y & Hy & Ey) [E | (z & Hz & Ez)]]; (split; [exists y; set_solver|right]).
  - exists x. set_solver.
  - exists z. set_solver.
Qed.

Lemma front_fin b xs p : NoDup xs -> (forall x, x ∈ xs -> b <> Next (Elt x)) -> p ∈ front b xs -> p.1 <> fin b xs.
Proof.
  revert b. induction xs as [|x xs IH]; intros b Hnd Hb; cbn; [by intros ?%elem_of_nil|].
  apply NoDup_cons in Hnd as [Hx Hnd].
  assert (forall y, y ∈ xs -> Next (Elt x) <> Next (Elt y)) as Hn by (intros y Hy [= ->]; done).
  intros [-> | Hp]%elem_of_cons; cbn; [|by apply IH].
  assert (forall c ys, b <> c -> (forall y, y ∈ ys -> b <> Next (Elt y)) -> b <> fin c ys) as G.
  { intros c ys. revert c. induction ys as [|y ys IHy]; intros c Hc Hy; cbn; [done|].
    apply IHy; [apply Hy; set_solver|]. intros z Hz. apply Hy. set_solver. }
  apply G; [apply Hb; set_solver|]. intros y Hy. apply Hb. set_solver.
Qed.

Lemma pairs_in b xs e p : p ∈ pairs b xs e ->
  (p.1 = b \/ exists x, x ∈ xs /\ p.1 = Next (Elt x)) /\ (p.2 = e \/ exists x, x ∈ xs /\ p.2 = Elt x).
Proof.
  revert b. induction xs as [|x xs IH]; intros b; cbn.
  - intros ->%list_elem_of_singleton. auto.
  - intros [-> | Hp]%elem_of_cons; cbn; [split; [by left|right; exists x; set_solver]|].
    destruct (IH _ Hp) as [[E | (z & Hz & Ez)] [E' | (y & Hy & Ey)]]; split;
      first [by left | right; exists x; set_solver | right; exists z; set_solver | right; exists y; set_solver].
Qed.

Lemma back_in xs e p : p ∈ back xs e ->
  (exists x, x ∈ xs /\ p.1 = Next (Elt x)) /\ (p.2 = e \/ exists x, x ∈ tail xs /\ p.2 = Elt x) /\ xs <> [].
Proof.
  destruct xs as [|x xs]; cbn; [by intros ?%elem_of_nil|].
  intros Hp. destruct (pairs_in _ _ _ _ Hp) as [[E | (z & Hz & Ez)] H2]; (split; [|split; [done|done]]).
  - exists x. set_solver.
  - exists z. set_solver.
Qed.

Lemma hd_link_in xs e : hd_link xs e = e \/ exists x, x ∈ xs /\ hd_link xs e = Elt x.
Proof. destruct xs as [|x xs]; [by left|right]. exists x. cbn. set_solver. Qed.

(** Putting [a] between [xs] and [ys], and taking it out. *)
Lemma insert_holds s s' l xs ys a :
  holds s l (xs ++ ys) -> a ∉ xs ++ ys ->
  linked s' (fin (First l) xs, Elt a) -> linked s' (Next (Elt a), hd_link ys (Last l)) ->
  (forall b, b <> fin (First l) xs -> b <> Next (Elt a) -> mem s' b = mem s b) ->
  (forall k, k <> hd_link ys (Last l) -> k <> Elt a -> prev s' k = prev s k) ->
  holds s' l (xs ++ a :: ys).
Proof.
  intros [Hp Hnd] Ha L1 L2 Hm Hv. split.
  - rewrite pairs_split in Hp |- *. apply Forall_app in Hp as [H1 H2%Forall_cons]. destruct H2 as [_ H2].
    apply NoDup_app in Hnd as (Nx & Nxy & Ny).
    apply Forall_app. split; [|apply Forall_cons; split; [exact L1|]].
    + apply Forall_forall. intros p Hp. rewrite Forall_forall in H1. destruct (H1 p Hp) as [E1 E2].
      destruct (front_in _ _ _ Hp) as [(x & Hx & Ex) Hs].
      pose proof (front_fin (First l) xs p Nx ltac:(done) Hp) as Hf. split.
      * rewrite Hm; [done|done|]. intros E. destruct Hs as [Hs | (y & Hy & Hs)]; rewrite Hs in E; [done|].
        injection E as ->. set_solver.
      * rewrite Hv; [done| |]; rewrite Ex.
        -- destruct (hd_link_in ys (Last l)) as [-> | (y & Hy & ->)]; [done|]. intros [= ->]. by apply (Nxy y).
        -- intros [= ->]. set_solver.
    + assert (back (a :: ys) (Last l) = (Next (Elt a), hd_link ys (Last l)) :: back ys (Last l)) as ->
        by (by destruct ys).
      apply Forall_cons. split; [exact L2|].
      apply Forall_forall. intros p Hp. rewrite Forall_forall in H2. destruct (H2 p Hp) as [E1 E2].
      destruct (back_in _ _ _ Hp) as [(x & Hx & Ex) [Hs Hne]]. split.
      * rewrite Hm; [done| |]; rewrite Ex.
        -- destruct (list_snoc_inv xs) as [-> | (xs' & z & ->)]; [done|]. rewrite fin_snoc. intros [= <-].
           apply (Nxy x); [set_solver|done].
        -- intros [= ->]. set_solver.
      * destruct ys as [|y0 ys]; [done|]. cbn in Hs |- *. rewrite Hv; [done| |].
        -- cbn. destruct Hs as [-> | (y & Hy & ->)]; [done|]. intros [= ->]. apply NoDup_cons in Ny. tauto.
        -- destruct Hs as [-> | (y & Hy & ->)]; [done|]. intros [= ->]. set_solver.
  - apply NoDup_app in Hnd as (Nx & Nxy & Ny). apply NoDup_app. split_and!; [done| |].
    + intros x Hx [-> | Hy]%elem_of_cons; [set_solver|]. by apply (Nxy x).
    + apply NoDup_cons. split; [set_solver|done].
Qed.

Lemma remove_holds s s' l xs ys a :
  holds s l (xs ++ a :: ys) ->
  linked s' (fin (First l) xs, hd_link ys (Last l)) ->
  (forall b, b <> fin (First l) xs -> b <> Next (Elt a) -> mem s' b = mem s b) ->
  (forall k, k <> hd_link ys (Last l) -> k <> Elt a -> prev s' k = prev s k) ->
  holds s' l (xs ++ ys).
Proof.
  intros [Hp Hnd] L1 Hm Hv. apply NoDup_app in Hnd as Hnd'. destruct Hnd' as (Nx & Nxy & [Na Ny]%NoDup_cons). split.
  - rewrite pairs_split in Hp |- *. apply Forall_app in Hp as [H1 H2%Forall_cons]. destruct H2 as [_ H2].
    apply Forall_app. split; [|apply Forall_cons; split; [exact L1|]].
    + apply Forall_forall. intros p Hp. rewrite Forall_forall in H1. destruct (H1 p Hp) as [E1 E2].
      destruct (front_in _ _ _ Hp) as [(x & Hx & Ex) Hs].
      pose proof (front_fin (First l) xs p Nx ltac:(done) Hp) as Hf. split.
      * rewrite Hm; [done|done|]. intros E. destruct Hs as [Hs | (y & Hy & Hs)]; rewrite Hs in E; [done|].
        injection E as ->. apply (Nxy a Hy). set_solver.
      * rewrite Hv; [done| |]; rewrite Ex.
        -- destruct (hd_link_in ys (Last l)) as [-> | (y & Hy & ->)]; [done|]. intros [= ->]. apply (Nxy y Hx). set_solver.
        -- intros [= ->]. apply (Nxy a Hx). set_solver.
    + assert (back (a :: ys) (Last l) = (Next (Elt a), hd_link ys (Last l)) :: back ys (Last l)) as Eb
        by (by destruct ys).
      cbn [hd_link] in H2. rewrite Eb in H2. apply Forall_cons in H2 as [_ H2].
      apply Forall_forall. intros p Hp. rewrite Forall_forall in H2. destruct (H2 p Hp) as [E1 E2].
      destruct (back_in _ _ _ Hp) as [(x & Hx & Ex) [Hs Hne]]. split.
      * rewrite Hm; [done| |]; rewrite Ex.
        -- destruct (list_snoc_inv xs) as [-> | (xs' & z & ->)]; [done|]. rewrite fin_snoc. intros [= <-].
           apply (Nxy x); set_solver.
        -- intros [= ->]. done.
      * destruct ys as [|y0 ys]; [done|]. cbn in Hs |- *. rewrite Hv; [done| |].
        -- cbn. destruct Hs as [-> | (y & Hy & ->)]; [done|]. intros [= ->]. apply NoDup_cons in Ny. tauto.
        -- destruct Hs as [-> | (y & Hy & ->)]; [done|]. intros [= ->]. set_solver.
  - apply NoDup_app. split_and!; [done| |done]. intros x Hx Hy. apply (Nxy x Hx). set_solver.
Qed.

Lemma holds_at s l xs ys : holds s l (xs ++ ys) -> linked s (fin (First l) xs, hd_link ys (Last l)).
Proof. intros [Hp _]. rewrite pairs_split in Hp. by apply Forall_app in Hp as [_ [? _]%Forall_cons]. Qed.

Lemma holds_next s l xs a ys : holds s l (xs ++ a :: ys) -> linked s (Next (Elt a), hd_link ys (Last l)).
Proof.
  intros HH. replace (xs ++ a :: ys) with ((xs ++ [a]) ++ ys) in HH by (by rewrite <- app_assoc).
  apply holds_at in HH. by rewrite fin_snoc in HH.
Qed.

Lemma hd_link_ne ys l a : a ∉ ys -> hd_link ys (Last l) <> Elt a.
Proof. intros Ha. destruct (hd_link_in ys (Last l)) as [-> | (y & Hy & ->)]; [done|]. congruence. Qed.

Lemma fin_ne xs l a : a ∉ xs -> fin (First l) xs <> Next (Elt a).
Proof.
  intros Ha. destruct (list_snoc_inv xs) as [-> | (xs' & z & ->)]; [done|]. rewrite fin_snoc. intros [= ->]. set_solver.
Qed.

Lemma ik_append_run s l xs a : holds s l xs -> a ∉ xs ->
  exists s', append l (Elt a) s = Some (tt, s') /\ holds s' l (a :: xs).
Proof.
  intros HH Ha. pose proof (holds_at s l [] xs HH) as [H1 H2]. cbn [fin fst snd] in H1, H2.
  pose proof (hd_link_ne xs l a Ha) as Hne.
  unfold append, st_bind, st_gets, deref, first. rewrite H1. cbn. rewrite H1. cbn. eexists. split; [done|].
  apply (insert_holds s _ l [] xs a HH Ha); cbn.
  - split; cbn; by rewrite upd_eq.
  - split; cbn; [rewrite upd_ne by done; by rewrite upd_eq|]. rewrite upd_ne by done. by rewrite upd_eq.
  - intros b Hb1 Hb2. by rewrite !upd_ne.
  - intros k Hk1 Hk2. by rewrite !upd_ne.
Qed.

Lemma ik_push_back_run s l xs a : holds s l xs -> a ∉ xs ->
  exists s', push_back l (Elt a) s = Some (tt, s') /\ holds s' l (xs ++ [a]).
Proof.
  intros HH Ha. assert (holds s l (xs ++ [])) as HH' by (by rewrite app_nil_r).
  pose proof (holds_at s l xs [] HH') as [H1 H2]. cbn [hd_link fst snd] in H1, H2.
  pose proof (fin_ne xs l a Ha) as Hne.
  unfold push_back, st_bind, st_gets, deref. rewrite H2. cbn. rewrite H2. cbn. eexists. split; [done|].
  apply (insert_holds s _ l xs [] a HH'); [by rewrite app_nil_r|..]; cbn.
  - split; cbn; [rewrite upd_ne by done; by rewrite upd_eq|]. rewrite upd_ne by done. by rewrite upd_eq.
  - split; cbn; by rewrite upd_eq.
  - intros b Hb1 Hb2. by rewrite !upd_ne.
  - intros k Hk1 Hk2. by rewrite !upd_ne.
Qed.

(** What [unlink] of an element leaves. *)
Lemma unlink_run s l xs a ys : holds s l (xs ++ a :: ys) ->
  exists s', unlink (Elt a) s = Some (tt, s') /\ holds s' l (xs ++ ys) /\
    mem s' (Next (Elt a)) = None /\ prev s' (Elt a) = None.
Proof.
  intros HH. pose proof (holds_at s l xs (a :: ys) HH) as [H1 H2]. pose proof (holds_next s l xs a ys HH) as [H3 H4].
  cbn [hd_link fst snd] in H1, H2, H3, H4. pose proof (h_nodup _ _ _ HH) as Hnd.
  apply NoDup_app in Hnd as (_ & Nxy & [Na _]%NoDup_cons).
  assert (a ∉ xs) as Nx by (intros Hx; apply (Nxy a Hx); set_solver).
  pose proof (fin_ne xs l a Nx) as Hne. pose proof (hd_link_ne ys l a Na) as Hne2.
  unfold unlink, st_bind, st_gets, next. rewrite H2, H3. cbn. rewrite (upd_ne _ _ _ (Next (Elt a))) by done.
  rewrite H3, H2. cbn. eexists. split; [done|]. split; [|cbn; by rewrite !upd_eq].
  apply (remove_holds s _ l xs ys a HH); cbn.
  - split; cbn; (rewrite upd_ne by done; by rewrite upd_eq).
  - intros b Hb1 Hb2. by rewrite !upd_ne.
  - intros k Hk1 Hk2. by rewrite !upd_ne.
Qed.

(** [unlink] of an element that is in no list does nothing. *)
Lemma unlink_unlinked s a : mem s (Next a) = None -> prev s a = None ->
  exists s', unlink a s = Some (tt, s') /\ (forall b, mem s' b = mem s b) /\ (forall k, prev s' k = prev s k).
Proof.
  intros H1 H2. unfold unlink, st_bind, st_gets, next. rewrite H1, H2. cbn. rewrite H1. cbn.
  eexists. split; [done|]. cbn. split; intros x; unfold upd; destruct (decide _) as [->|]; done.
Qed.

Lemma holds_ext s s' l xs : (forall b, mem s' b = mem s b) -> (forall k, prev s' k = prev s k) ->
  holds s l xs -> holds s' l xs.
Proof.
  intros Hm Hv [Hp Hnd]. split; [|done]. eapply Forall_impl; [exact Hp|]. intros p [H1 H2].
  split; [by rewrite Hm|by rewrite Hv].
Qed.

Lemma first_of s l xs : holds s l xs -> first s l = Some (hd_link xs (Last l)).
Proof. intros HH. apply (holds_at s l [] xs HH). Qed.

Lemma get_run s l xs : holds s l xs ->
  exists s', get l s = Some (Elt <$> list.head xs, s') /\ holds s' l (tail xs).
Proof.
  intros HH. pose proof (first_of s l xs HH) as Hf. unfold get, st_bind, st_gets, deref. rewrite Hf.
  destruct xs as [|x xs]; cbn [hd_link].
  - rewrite bool_decide_true by done. eauto.
  - rewrite bool_decide_false by done. cbn [st_opt]. unfold st_ret.
    destruct (unlink_run s l [] x xs HH) as (s' & E & H & _). rewrite E. cbn. eauto.
Qed.

(** ** Iterating *)

(** One pass: every element is returned; those that satisfy [P] are removed. *)
Fixpoint purge (fuel : nat) (P : nat -> bool) (it : iterator) : M (list nat) :=
  match fuel with
  | O => st_fail
  | S fuel =>
      let* (r, it) := it_next it in
      match r with
      | None => st_ret []
      | Some (Last _) => st_fail
      | Some (Elt a) =>
          let* it := (if P a then remove it else st_ret it) in
          let* rest := purge fuel P it in
          st_ret (a :: rest)
      end
  end.

Lemma ik_remove_run s l xs a ys l0 e : holds s l (xs ++ a :: ys) ->
  exists s', remove (Iterator l0 e (Some (Elt a))) s = Some (Iterator l0 (fin (First l) xs) None, s') /\
    holds s' l (xs ++ ys).
Proof.
  intros HH. pose proof (holds_at s l xs (a :: ys) HH) as [_ Hv]. cbn [hd_link fst snd] in Hv.
  destruct (unlink_run s l xs a ys HH) as (s1 & E1 & HH1 & Z1 & Z2).
  destruct (unlink_unlinked s1 (Elt a) Z1 Z2) as (s2 & E2 & Hm & Hv2).
  exists s2. split; [|by apply (holds_ext s1)].
  assert (it_unlink (Iterator l0 e (Some (Elt a))) s = Some (Iterator l0 (fin (First l) xs) (Some (Elt a)), s1)) as Hu.
  { unfold it_unlink. cbn [current deref st_opt]. unfold st_bind at 1, st_ret at 1. unfold st_bind at 1, st_gets at 1.
    rewrite Hv. rewrite (st_bind_Some _ _ _ _ _ E1). done. }
  unfold remove. rewrite (st_bind_Some _ _ _ _ _ Hu). cbn [current deref st_opt]. unfold st_bind at 1, st_ret at 1.
  rewrite (st_bind_Some _ _ _ _ _ E2). done.
Qed.

Lemma purge_run (P : nat -> bool) ys : forall s l xs fuel c,
  holds s l (xs ++ ys) -> (length ys < fuel)%nat ->
  exists s', purge fuel P (Iterator l (fin (First l) xs) c) s = Some (ys, s') /\
    holds s' l (xs ++ filter (fun a => P a = false) ys).
Proof.
  induction ys as [|a ys IH]; intros s l xs [|fuel] c HH Hlen; cbn [length] in Hlen; try lia.
  - pose proof (holds_at s l xs [] HH) as [H1 _]. cbn [hd_link fst snd] in H1.
    cbn [purge]. unfold st_bind, it_next, load, st_gets. cbn [el list_]. unfold st_bind. rewrite H1.
    rewrite bool_decide_true by done. cbn. eauto.
  - pose proof (holds_at s l xs (a :: ys) HH) as [H1 _]. cbn [hd_link fst snd] in H1.
    cbn [purge]. unfold st_bind at 1, it_next, load, st_gets. cbn [el list_]. unfold st_bind at 1. rewrite H1.
    rewrite bool_decide_false by done. cbn.
    destruct (P a) eqn:EP.
    + destruct (ik_remove_run s l xs a ys l (Next (Elt a)) HH) as (s2 & E2 & HH2).
      destruct (IH s2 l xs fuel None HH2) as (s' & E' & H'); [lia|].
      exists s'. rewrite decide_False by done. split; [|exact H'].
      rewrite (st_bind_Some _ _ _ _ _ E2). unfold st_bind. rewrite E'. done.
    + replace (xs ++ a :: ys) with ((xs ++ [a]) ++ ys) in HH by (by rewrite <- app_assoc).
      destruct (IH s l (xs ++ [a]) fuel (Some (Elt a)) HH) as (s' & E' & H'); [lia|].
      rewrite fin_snoc in E'. exists s'. rewrite decide_True by done. rewrite <- app_assoc in H'. split; [|exact H'].
      unfold st_bind at 1, st_ret at 1. unfold st_bind. rewrite E'. done.
Qed.

(** [base_ilist] and [I_List] are sequences without duplicates: [append]
    puts an element in front, [push_back] behind, [get] takes the first one off
    ([head] only looks), [unlink] takes an element out of any place and is
    harmless on an element of no list, and one pass of the iterator that removes
    some of the elements it returns visits every element once and keeps exactly
    the others, in order. *)
Lemma ilink_refines_sequence s l xs :
  holds s l xs ->
  is_empty l s = Some (bool_decide (xs = []), s) /\
  head l s = Some (Elt <$> list.head xs, s) /\
  (forall a, a ∉ xs -> exists s', append l (Elt a) s = Some (tt, s') /\ holds s' l (a :: xs)) /\
  (forall a, a ∉ xs -> exists s', push_back l (Elt a) s = Some (tt, s') /\ holds s' l (xs ++ [a])) /\
  (exists s', get l s = Some (Elt <$> list.head xs, s') /\ holds s' l (tail xs)) /\
  (forall x1 a x2, xs = x1 ++ a :: x2 ->
     is_last l (Elt a) s = Some (bool_decide (x2 = []), s) /\
     exists s', unlink (Elt a) s = Some (tt, s') /\ holds s' l (x1 ++ x2) /\
       exists s2, unlink (Elt a) s' = Some (tt, s2) /\ holds s2 l (x1 ++ x2)) /\
  (forall P fuel, (length xs < fuel)%nat -> exists s', purge fuel P (base_ilist_iterator l) s = Some (xs, s') /\
     holds s' l (filter (fun a => P a = false) xs)).
Proof.
  intros HH. pose proof (first_of s l xs HH) as Hf. split_and!.
  - unfold is_empty, st_gets. rewrite Hf. do 2 f_equal. apply bool_decide_ext. destruct xs; cbn; split; congruence.
  - unfold head, st_gets. rewrite Hf. destruct xs; cbn; [by rewrite bool_decide_false by auto|by rewrite bool_decide_true].
  - intros a Ha. by apply ik_append_run.
  - intros a Ha. by apply ik_push_back_run.
  - by apply get_run.
  - intros x1 a x2 ->. split.
    + pose proof (holds_next s l x1 a x2 HH) as [H1 _]. cbn [fst snd] in H1. unfold is_last, st_gets, next. rewrite H1.
      rewrite bool_decide_false by done. cbn. do 2 f_equal. apply bool_decide_ext. destruct x2; cbn; split; congruence.
    + destruct (unlink_run s l x1 a x2 HH) as (s1 & E1 & HH1 & Z1 & Z2).
      destruct (unlink_unlinked s1 (Elt a) Z1 Z2) as (s2 & E2 & Hm & Hv).
      exists s1. split_and!; [done|done|]. exists s2. split; [done|]. by apply (holds_ext s1).
  - intros P fuel Hfuel. apply (purge_run P xs s l [] fuel None HH Hfuel).
Qed.

(** The empty list 0, and one that holds 5 and 6. *)
Definition empty_store : store := Store
  (fun b => match b with First l => Some (Last l) | Next _ => None end)
  (fun k => match k with Last l => Some (First l) | Elt _ => None end).

Lemma empty_store_holds l : holds empty_store l [].
Proof. split; [|constructor]. apply Forall_singleton. done. Qed.

Definition two_store : store := Store
  (fun b => match b with
            | First 0 => Some (Elt 5) | Next (Elt 5) => Some (Elt 6) | Next (Elt 6) => Some (Last 0)
            | First l => Some (Last l) | _ => None end)
  (fun k => match k with
            | Elt 5 => Some (First 0) | Elt 6 => Some (Next (Elt 5)) | Last 0 => Some (Next (Elt 6))
            | Last l => Some (First l) | _ => None end).

Lemma two_store_holds : holds two_store 0 [5%nat; 6%nat].
Proof. split; [repeat constructor|apply (bool_decide_unpack _); vm_compute; exact I]. Qed.

(** [move_elements_to] does not hand the list over.  It copies the sentinel,
    but the last element still points to the old one and the first one still
    names the old list: a walk of the new owner does not stop at its end but
    returns the old sentinel as an element; [get] on the new owner writes to the
    old list, which is no longer empty, and leaves the new owner's first pointer on the element it
    took out.  Moving an empty list makes the new owner look non-empty. *)
Lemma ilink_move_elements s l l' xs :
  l <> l' -> holds s l xs -> holds s l' [] ->
  exists s', move_elements_to l l' s = Some (tt, s') /\ holds s' l [] /\
    is_empty l' s' = Some (false, s') /\
    (forall x1 x2, xs = x1 ++ x2 ->
       it_next (Iterator l' (fin (First l') x1) None) s' =
       Some (Some (hd_link x2 (Last l)), Iterator l' (Next (hd_link x2 (Last l))) (Some (hd_link x2 (Last l))), s')) /\
    (forall x rest, xs = x :: rest -> exists s2, get l' s' = Some (Some (Elt x), s2) /\
       first s2 l' = Some (Elt x) /\ first s2 l = Some (hd_link rest (Last l))).
Proof.
  intros Hl HH HE. pose proof (first_of s l xs HH) as Hf. pose proof (first_of s l' [] HE) as Hf'. cbn [hd_link] in Hf'.
  unfold move_elements_to, is_empty, st_bind, st_gets. rewrite Hf', bool_decide_true by done. cbn. rewrite Hf.
  eexists. split; [done|]. set (s' := Store _ _). unfold first, next.
  assert (forall b, b <> First l -> b <> First l' -> b <> Next (Last l') -> mem s' b = mem s b) as Hm.
  { intros b H1 H2 H3. cbn. by rewrite !upd_ne. }
  assert (forall a, prev s' (Elt a) = prev s (Elt a)) as Hv by (intros; cbn; by rewrite !upd_ne).
  assert (mem s' (First l') = Some (hd_link xs (Last l))) as Hfl'.
  { cbn. rewrite upd_ne by congruence. rewrite upd_ne by congruence. by rewrite upd_eq. }
  assert (mem s' (First l) = Some (Last l)) as Hfl by (cbn; by rewrite upd_eq).
  assert (forall k, hd_link k (Last l) <> Last l') as Hd.
  { intros k. destruct (hd_link_in k (Last l)) as [-> | (y & _ & ->)]; congruence. }
  split_and!.
  - split; [|constructor]. apply Forall_singleton. split; [exact Hfl|]. cbn. by rewrite upd_eq.
  - rewrite Hfl'. rewrite bool_decide_false; [done|]. intros [= E]. by apply (Hd xs).
  - intros x1 x2 ->. unfold it_next, load, st_bind, st_gets. cbn [el list_].
    assert (mem s' (fin (First l') x1) = Some (hd_link x2 (Last l))) as ->.
    { destruct (list_snoc_inv x1) as [-> | (x1' & z & ->)]; [exact Hfl'|]. rewrite fin_snoc, Hm by done.
      rewrite <- app_assoc in HH. cbn [app] in HH. by apply (holds_next s l x1' z x2). }
    rewrite bool_decide_false; [done|]. intros [= E]. by apply (Hd x2).
  - intros x rest ->. pose proof (holds_at s l [] (x :: rest) HH) as [_ H2]. pose proof (holds_next s l [] x rest HH) as [H3 _].
    cbn [hd_link fst snd fin] in H2, H3.
    assert (hd_link rest (Last l) <> Elt x) as Hr.
    { apply hd_link_ne. pose proof (h_nodup _ _ _ HH) as [? _]%NoDup_cons. done. }
    unfold get, st_bind, st_gets, first. rewrite Hfl'. cbn [hd_link]. rewrite bool_decide_false by done. cbn [deref st_opt st_ret].
    unfold unlink, st_bind, st_gets, next. rewrite Hv, H2, Hm, H3 by done. cbn [store_slot st_modify mem prev].
    unfold store_slot, st_modify. cbn [mem prev]. rewrite (upd_ne _ _ _ (Next (Elt x))) by done. rewrite Hm, H3, Hv, H2 by done.
    unfold set_prev, set_next, st_modify. cbn. eexists. split; [done|]. cbn. split.
    + rewrite !upd_ne by congruence. by rewrite upd_eq.
    + rewrite upd_ne by done. by rewrite upd_eq.
Qed.

End ILink.
