(* ===== verification/BasicTypes.v ===== *)
(** Flag types of temporal conversion ([sql_basic_types.h], Module [DateMode]) and
    the LIMIT/OFFSET counters of a query ([sql_limit.h], Module [SelectLimit]),
    both under [mariadb/include/mysql/server/private].

    The value of an unscoped enumeration of these classes takes part in bitwise
    operators as an [int] (every enumerator fits one), so that [~m_mode] is
    sign-extended to [ulonglong]; the cast of a [ulonglong] to the enumeration
    keeps its low 32 bits.  A failed [DBUG_ASSERT] is [None]. *)

From S2P Require Import Prelude.

Module DateMode.

(** [date_conv_mode_t], [time_round_mode_t] and [date_mode_t] hold [m_mode]. *)
Record date_conv_mode_t := DateConvMode { conv_mode : Z }.
Record time_round_mode_t := TimeRoundMode { round_mode : Z }.
Record date_mode_t := DateMode { mode : Z }.

Definition CONV_NONE : Z := 0.
Definition FUZZY_DATES : Z := 1.
Definition TIME_ONLY : Z := 4.
Definition INTERVAL_hhmmssff : Z := 8.
Definition INTERVAL_DAY : Z := 16.
Definition RANGE0_LAST : Z := INTERVAL_DAY.
Definition NO_ZERO_IN_DATE : Z := Z.shiftl 1 23.
Definition NO_ZERO_DATE : Z := Z.shiftl 1 24.
Definition INVALID_DATES : Z := Z.shiftl 1 25.
Definition FRAC_NONE : Z := 0.
Definition FRAC_TRUNCATE : Z := Z.shiftl RANGE0_LAST 1.
Definition FRAC_ROUND : Z := Z.shiftl RANGE0_LAST 2.

Definition conv_KNOWN_MODES : Z :=
  Z.lor FUZZY_DATES (Z.lor TIME_ONLY (Z.lor INTERVAL_hhmmssff (Z.lor INTERVAL_DAY
    (Z.lor NO_ZERO_IN_DATE (Z.lor NO_ZERO_DATE INVALID_DATES))))).
Definition round_KNOWN_MODES : Z := Z.lor FRAC_TRUNCATE FRAC_ROUND.

(** The cast [(value_t) v]. *)
Definition value_t (v : Z) : Z := u32 v.

(** ** date_conv_mode_t *)

Definition conv (fuzzydate : Z) : date_conv_mode_t := DateConvMode (value_t fuzzydate).
Definition conv_ulonglong (a : date_conv_mode_t) : Z := u64 (conv_mode a).
Definition conv_bool (a : date_conv_mode_t) : bool := nz (conv_mode a).
Definition conv_not (a : date_conv_mode_t) : Z := u64 (s32 (Z.lnot (conv_mode a))).
Definition conv_and (a other : date_conv_mode_t) : date_conv_mode_t := conv (Z.land (conv_mode a) (conv_mode other)).
Definition conv_and_ulonglong (a : date_conv_mode_t) (other : Z) : date_conv_mode_t :=
  conv (Z.land (u64 (conv_mode a)) other).
Definition conv_or (a other : date_conv_mode_t) : date_conv_mode_t := conv (Z.lor (conv_mode a) (conv_mode other)).
Definition conv_and_assign (a other : date_conv_mode_t) : date_conv_mode_t :=
  DateConvMode (value_t (Z.land (conv_mode a) (conv_mode other))).
Definition conv_or_assign (a other : date_conv_mode_t) : date_conv_mode_t :=
  DateConvMode (value_t (Z.lor (conv_mode a) (conv_mode other))).

(** ** time_round_mode_t *)

Definition round (m : Z) : option time_round_mode_t :=
  if (m =? FRAC_NONE) || (m =? FRAC_TRUNCATE) || (m =? FRAC_ROUND) then Some (TimeRoundMode (value_t m)) else None.
Definition round_ulonglong (a : time_round_mode_t) : Z := u64 (round_mode a).
Definition round_value (a : time_round_mode_t) : Z := round_mode a.
Definition round_eq (a other : time_round_mode_t) : bool := round_mode a =? round_mode other.

(** ** date_mode_t *)

Definition date (fuzzydate : Z) : date_mode_t := DateMode (value_t fuzzydate).
Definition date_ulonglong (a : date_mode_t) : Z := u64 (mode a).
Definition date_bool (a : date_mode_t) : bool := nz (mode a).
Definition to_conv (a : date_mode_t) : date_conv_mode_t := conv (Z.land (date_ulonglong a) conv_KNOWN_MODES).
Definition to_round (a : date_mode_t) : option time_round_mode_t := round (Z.land (date_ulonglong a) round_KNOWN_MODES).
Definition date_not (a : date_mode_t) : Z := u64 (s32 (Z.lnot (mode a))).
Definition date_lnot (a : date_mode_t) : bool := negb (nz (mode a)).
Definition date_and (a other : date_mode_t) : date_mode_t := date (Z.land (mode a) (mode other)).
Definition date_and_ulonglong (a : date_mode_t) (other : Z) : date_mode_t := date (Z.land (u64 (mode a)) other).
Definition date_or (a other : date_mode_t) : date_mode_t := date (Z.lor (mode a) (mode other)).
Definition date_and_assign (a other : date_mode_t) : date_mode_t := DateMode (value_t (Z.land (mode a) (mode other))).
Definition date_or_assign (a other : date_mode_t) : date_mode_t := DateMode (value_t (Z.lor (mode a) (mode other))).
Definition date_or_assign_conv (a : date_mode_t) (other : date_conv_mode_t) : date_mode_t :=
  DateMode (value_t (Z.lor (u64 (mode a)) (conv_ulonglong other))).

(** ** The operators on mixtures *)

Definition or_date_conv (a : date_mode_t) (b : date_conv_mode_t) : date_mode_t :=
  date (Z.lor (date_ulonglong a) (conv_ulonglong b)).
Definition or_conv_round (a : date_conv_mode_t) (b : time_round_mode_t) : date_mode_t :=
  date (Z.lor (conv_ulonglong a) (round_ulonglong b)).
Definition or_conv_date (a : date_conv_mode_t) (b : date_mode_t) : date_mode_t :=
  date (Z.lor (conv_ulonglong a) (date_ulonglong b)).
Definition and_date_conv (a : date_mode_t) (b : date_conv_mode_t) : date_conv_mode_t :=
  conv (Z.land (date_ulonglong a) (conv_ulonglong b)).
Definition and_conv_date (a : date_conv_mode_t) (b : date_mode_t) : date_conv_mode_t :=
  conv (Z.land (conv_ulonglong a) (date_ulonglong b)).
Definition and_sql_mode_conv (a : Z) (b : date_conv_mode_t) : date_conv_mode_t :=
  conv (Z.land a (conv_ulonglong b)).

Definition TIME_NO_ZEROS : date_conv_mode_t := DateConvMode (Z.lor NO_ZERO_DATE NO_ZERO_IN_DATE).
Definition TIME_MODE_FOR_XXX_TO_DATE : date_conv_mode_t :=
  DateConvMode (Z.lor NO_ZERO_IN_DATE (Z.lor NO_ZERO_DATE INVALID_DATES)).

(** ** Well-formed flags: only known bits *)

Definition within (m known : Z) : Prop := 0 <= m /\ Z.land m known = m.
Definition date_KNOWN_MODES : Z := Z.lor conv_KNOWN_MODES round_KNOWN_MODES.

Definition conv_ok (a : date_conv_mode_t) : Prop := within (conv_mode a) conv_KNOWN_MODES.
Definition round_ok (a : time_round_mode_t) : Prop :=
  round_mode a = FRAC_NONE \/ round_mode a = FRAC_TRUNCATE \/ round_mode a = FRAC_ROUND.
Definition date_ok (a : date_mode_t) : Prop := within (mode a) date_KNOWN_MODES.

Lemma within_bit m known i : within m known -> Z.testbit m i = Z.testbit m i && Z.testbit known i.
Proof. intros [_ <-] . rewrite Z.land_spec. btauto. Qed.

Lemma within_range m known w : 0 <= w -> within m known -> in_u w known -> in_u w m.
Proof. intros Hw [Hm <-] Hk. apply land_in_u_r; done. Qed.

Lemma date_known_range : in_u 32 date_KNOWN_MODES.
Proof. vm_compute. split; [discriminate|reflexivity]. Qed.
Lemma conv_known_range : in_u 32 conv_KNOWN_MODES.
Proof. vm_compute. split; [discriminate|reflexivity]. Qed.

Lemma within_land m known k : within m known -> 0 <= k -> within (Z.land m k) known.
Proof.
  intros [Hm E] Hk. split; [apply Z.land_nonneg; by left|].
  rewrite <- Z.land_assoc, (Z.land_comm k), Z.land_assoc. by rewrite E.
Qed.
Lemma within_lor a b known : within a known -> within b known -> within (Z.lor a b) known.
Proof.
  intros [Ha E1] [Hb E2]. split; [apply Z.lor_nonneg; done|]. by rewrite Z.land_lor_distr_l, E1, E2.
Qed.
Lemma within_mono a k1 k2 : within a k1 -> Z.land k1 k2 = k1 -> within a k2.
Proof. intros [Ha E] Hk. split; [done|]. rewrite <- E at 1. by rewrite <- Z.land_assoc, Hk. Qed.

Lemma value_t_within m known : within m known -> in_u 32 known -> value_t m = m.
Proof. intros Hm Hk. apply wrapU_small. by apply (within_range m known). Qed.
Lemma u64_within m known : within m known -> in_u 32 known -> u64 m = m.
Proof.
  intros Hm Hk. apply wrapU_small. apply (in_u_mono 32); [done|]. by apply (within_range m known).
Qed.

(** The complement keeps the bits of any other mode except those of [m]. *)
Lemma not_bits m known i : within m known -> in_u 32 known -> Z.testbit known 31 = false ->
  0 <= i < 64 -> Z.testbit (u64 (s32 (Z.lnot m))) i = negb (Z.testbit m i).
Proof.
  intros Hm Hk H31 Hi. pose proof (within_range m known 32 ltac:(done) Hm Hk) as Hr.
  assert (Z.testbit m 31 = false) as B by (rewrite (within_bit m known) by done; by rewrite H31, andb_false_r).
  assert (in_u 31 m) as Hlt.
  { apply in_u_bits; [done| |apply Hr]. intros j Hj. destruct (Z.eq_dec j 31) as [->|]; [done|].
    apply (testbit_above 32); [done|done|lia]. }
  rewrite wrapS_small by (unfold in_s, in_u, Z.lnot in *; lia).
  rewrite testbit_wrapU by lia. rewrite (proj2 (Z.ltb_lt i 64)) by lia. cbn [andb].
  by rewrite Z.lnot_spec by lia.
Qed.

Lemma conv_known_in_date : Z.land conv_KNOWN_MODES date_KNOWN_MODES = conv_KNOWN_MODES.
Proof. reflexivity. Qed.

Lemma round_within a : round_ok a -> within (round_mode a) date_KNOWN_MODES.
Proof. intros [-> | [-> | ->]]; split; vm_compute; congruence. Qed.

Lemma within_nonneg m known : within m known -> 0 <= m.
Proof. by intros [? _]. Qed.
Lemma within_self m k : 0 <= m -> 0 <= k -> within (Z.land m k) k.
Proof.
  intros Hm Hk. split; [apply Z.land_nonneg; by left|]. by rewrite <- Z.land_assoc, Z.land_diag.
Qed.
Lemma conv_known_nonneg : 0 <= conv_KNOWN_MODES.
Proof. vm_compute. discriminate. Qed.
Lemma round_known_nonneg : 0 <= round_KNOWN_MODES.
Proof. vm_compute. discriminate. Qed.

(** Values with known bits, in every combination that the operators build. *)
Ltac nonneg :=
  first [ exact conv_known_nonneg | exact round_known_nonneg | apply (in_u_nonneg 64); assumption
        | eapply within_nonneg; eassumption ].
Ltac within_solve :=
  lazymatch goal with
  | |- within (Z.lor _ _) _ => apply within_lor; within_solve
  | |- within (Z.land _ _) _ =>
      first [ apply within_self; nonneg
            | apply within_land; [within_solve|nonneg]
            | rewrite Z.land_comm; apply within_land; [within_solve|nonneg] ]
  | |- within (round_mode _) _ => apply round_within; assumption
  | |- within (conv_mode _) date_KNOWN_MODES =>
      apply (within_mono _ conv_KNOWN_MODES); [assumption|exact conv_known_in_date]
  | |- _ => assumption
  end.

(** Remove the casts that lose nothing. *)
Ltac no_casts :=
  repeat match goal with
  | |- context [value_t ?x] =>
      rewrite (value_t_within x date_KNOWN_MODES) by (first [exact date_known_range | within_solve])
  end.

Lemma in_u_ldiff w a b : 0 <= w -> in_u w a -> in_u w (Z.ldiff a b).
Proof.
  intros Hw Ha. apply in_u_bits; [done| |].
  - intros i Hi. rewrite Z.ldiff_spec. by rewrite (testbit_above w a).
  - apply Z.ldiff_nonneg. left. apply Ha.
Qed.

Lemma land_not a b known : within a known -> within b known -> in_u 32 known -> Z.testbit known 31 = false ->
  Z.land a (u64 (s32 (Z.lnot b))) = Z.ldiff a b.
Proof.
  intros Ha Hb Hk H31. apply Z.bits_inj'. intros i Hi. rewrite Z.land_spec, Z.ldiff_spec.
  destruct (Z.lt_ge_cases i 64); [by rewrite (not_bits b known)|].
  by rewrite (testbit_above 32 a) by (done || lia || by apply (within_range a known)).
Qed.

Lemma land_bit m n : 0 <= n -> Z.land m (2 ^ n) = if Z.testbit m n then 2 ^ n else 0.
Proof.
  intros Hn. apply Z.bits_inj'. intros i Hi. rewrite Z.land_spec, testbit_pow2 by done.
  destruct (Z.eqb_spec n i) as [->|Hne].
  - destruct (Z.testbit m i); [by rewrite testbit_pow2, Z.eqb_refl|by rewrite Z.testbit_0_l].
  - rewrite andb_false_r. destruct (Z.testbit m n); [|by rewrite Z.testbit_0_l].
    rewrite testbit_pow2 by done. by rewrite (proj2 (Z.eqb_neq _ _)).
Qed.

(** The rounding part of a mode. *)
Lemma land_round m : Z.land m round_KNOWN_MODES = FRAC_NONE \/ Z.land m round_KNOWN_MODES = FRAC_TRUNCATE \/
  Z.land m round_KNOWN_MODES = FRAC_ROUND \/ Z.land m round_KNOWN_MODES = Z.lor FRAC_TRUNCATE FRAC_ROUND.
Proof.
  change round_KNOWN_MODES with (Z.lor (2 ^ 5) (2 ^ 6)). rewrite Z.land_lor_distr_r, !land_bit by done.
  destruct (Z.testbit m 5), (Z.testbit m 6); auto.
Qed.

Lemma round_spec m :
  match round m with Some r => round_ok r /\ round_mode r = m | None => ~ round_ok (TimeRoundMode m) end.
Proof.
  unfold round, round_ok.
  destruct (Z.eqb_spec m FRAC_NONE) as [->|]; [by split; [left|]|].
  destruct (Z.eqb_spec m FRAC_TRUNCATE) as [->|]; [by split; [right; left|]|].
  destruct (Z.eqb_spec m FRAC_ROUND) as [->|]; [by split; [right; right|]|]. cbn. tauto.
Qed.

(** Well-formedness of the three flag types: every operator, conversion and
    mixture takes values with known bits only to a value with known bits only, in
    the type it belongs to, and computes the bitwise operation it is named after;
    [&] with the complement [~m] removes exactly the bits of [m].  A mixed mode
    splits into its conversion part and its rounding part and is their union; the
    only mode that does not convert to a rounding mode is the one with both
    rounding flags, where the assertion of the constructor fails. *)
Lemma date_mode_flags (a b : date_mode_t) (c d : date_conv_mode_t) (r : time_round_mode_t) (q : Z) :
  date_ok a -> date_ok b -> conv_ok c -> conv_ok d -> round_ok r -> in_u 64 q ->
  (conv_ok (conv_and c d) /\ conv_ok (conv_or c d) /\ conv_ok (conv_and_assign c d) /\ conv_ok (conv_or_assign c d) /\
   conv_ok (conv_and_ulonglong c q) /\ conv_ok (to_conv a) /\ conv_ok (and_date_conv a c) /\
   conv_ok (and_conv_date c a) /\ conv_ok (and_sql_mode_conv q c)) /\
  (date_ok (date_and a b) /\ date_ok (date_or a b) /\ date_ok (date_and_assign a b) /\ date_ok (date_or_assign a b) /\
   date_ok (date_and_ulonglong a q) /\ date_ok (date_or_assign_conv a c) /\ date_ok (or_date_conv a c) /\
   date_ok (or_conv_round c r) /\ date_ok (or_conv_date c a)) /\
  (mode (date_and a b) = Z.land (mode a) (mode b) /\ mode (date_or a b) = Z.lor (mode a) (mode b) /\
   conv_mode (conv_and c d) = Z.land (conv_mode c) (conv_mode d) /\
   conv_mode (conv_or c d) = Z.lor (conv_mode c) (conv_mode d) /\
   mode (or_conv_round c r) = Z.lor (conv_mode c) (round_mode r) /\
   mode (or_date_conv a c) = Z.lor (mode a) (conv_mode c)) /\
  (mode (date_and_ulonglong a (date_not b)) = Z.ldiff (mode a) (mode b) /\
   conv_mode (conv_and_ulonglong c (conv_not d)) = Z.ldiff (conv_mode c) (conv_mode d)) /\
  (match to_round a with
   | Some rd => round_ok rd /\ mode (or_conv_round (to_conv a) rd) = mode a
   | None => Z.land (mode a) round_KNOWN_MODES = Z.lor FRAC_TRUNCATE FRAC_ROUND
   end).
Proof.
  unfold date_ok, conv_ok. intros Ha Hb Hc Hd Hr Hq.
  pose proof (u64_within _ _ Ha date_known_range) as Ua. pose proof (u64_within _ _ Hb date_known_range) as Ub.
  pose proof (u64_within _ _ Hc conv_known_range) as Uc. pose proof (u64_within _ _ Hd conv_known_range) as Ud.
  pose proof (u64_within _ _ (round_within r Hr) date_known_range) as Ur.
  split; [|split; [|split; [|split]]].
  - unfold conv_and, conv_or, conv_and_assign, conv_or_assign, conv_and_ulonglong, to_conv, and_date_conv, and_conv_date,
      and_sql_mode_conv, conv, conv_ulonglong, date_ulonglong. rewrite Ua, Uc. no_casts.
    cbn [conv_mode]; split_and!; within_solve.
  - unfold date_and, date_or, date_and_assign, date_or_assign, date_and_ulonglong, date_or_assign_conv, or_date_conv,
      or_conv_round, or_conv_date, date, conv_ulonglong, date_ulonglong, round_ulonglong. rewrite Ua, Uc, Ur. no_casts.
    cbn [mode]; split_and!; within_solve.
  - unfold date_and, date_or, conv_and, conv_or, or_conv_round, or_date_conv, conv, date, conv_ulonglong, date_ulonglong,
      round_ulonglong. rewrite Ua, Uc, Ur. no_casts. done.
  - unfold date_and_ulonglong, conv_and_ulonglong, date_not, conv_not, date, conv. rewrite Ua, Uc. cbn [mode conv_mode].
    rewrite (land_not _ _ _ Ha Hb date_known_range eq_refl), (land_not _ _ _ Hc Hd conv_known_range eq_refl).
    split; (apply wrapU_small; apply in_u_ldiff; [done|]; eapply within_range; [done|eassumption|]);
      [exact date_known_range|exact conv_known_range].
  - unfold to_round, date_ulonglong. rewrite Ua. pose proof (round_spec (Z.land (mode a) round_KNOWN_MODES)) as S.
    destruct (round _) as [rd|].
    + destruct S as [S1 S2]. split; [done|]. unfold or_conv_round, conv_ulonglong, round_ulonglong, to_conv, date_ulonglong.
      rewrite Ua, S2. unfold conv, date. cbn [conv_mode mode].
      assert (within (Z.land (mode a) conv_KNOWN_MODES) conv_KNOWN_MODES) as W1 by within_solve.
      assert (within (Z.land (mode a) round_KNOWN_MODES) date_KNOWN_MODES) as W2 by within_solve.
      rewrite (value_t_within _ _ W1 conv_known_range), (u64_within _ _ W1 conv_known_range), (u64_within _ _ W2 date_known_range).
      rewrite <- Z.land_lor_distr_r. change (Z.lor conv_KNOWN_MODES round_KNOWN_MODES) with date_KNOWN_MODES.
      destruct Ha as [Ha1 Ha2]. rewrite Ha2. by apply (value_t_within _ date_KNOWN_MODES); [|exact date_known_range].
    + unfold round_ok in S. cbn [round_mode] in S. destruct (land_round (mode a)) as [E|[E|[E|E]]]; tauto.
Qed.

End DateMode.

(** ** Select_limit_counters *)

Module SelectLimit.

(** [ha_rows] is an unsigned 64-bit number. *)
Definition HA_POS_ERROR : Z := bnot 64 0.

Record counters := Counters { select_limit_cnt : Z; offset_limit_cnt : Z; with_ties : bool }.

Definition init : counters := Counters 0 0 false.
Definition copy (orig : counters) : counters :=
  Counters (select_limit_cnt orig) (offset_limit_cnt orig) (with_ties orig).
Definition set_limit (limit offset : Z) (with_ties_arg : bool) (c : counters) : counters :=
  let offset := if limit =? 0 then 0 else offset in
  let c := Counters limit offset with_ties_arg in
  if select_limit_cnt c <=? u64 (select_limit_cnt c + offset_limit_cnt c)
  then Counters (u64 (select_limit_cnt c + offset_limit_cnt c)) (offset_limit_cnt c) (with_ties c)
  else Counters HA_POS_ERROR (offset_limit_cnt c) (with_ties c).
Definition set_single_row (c : counters) : counters := Counters 1 0 false.
Definition send_first_row (c : counters) : counters :=
  let n := u64 (offset_limit_cnt c + 1) in
  if n =? 0 then Counters (offset_limit_cnt c) (offset_limit_cnt c) (with_ties c)
  else Counters n (offset_limit_cnt c) (with_ties c).
Definition is_unlimited (c : counters) : bool := select_limit_cnt c =? HA_POS_ERROR.
Definition set_unlimited (c : counters) : counters := Counters HA_POS_ERROR (offset_limit_cnt c) (with_ties c).
Definition clear (c : counters) : counters := Counters HA_POS_ERROR 0 false.
Definition check_offset (c : counters) (sent : Z) : bool := sent <? offset_limit_cnt c.
Definition remove_offset (c : counters) : counters := Counters (select_limit_cnt c) 0 (with_ties c).
Definition get_select_limit (c : counters) : Z := select_limit_cnt c.
Definition get_offset_limit (c : counters) : Z := offset_limit_cnt c.
Definition is_with_ties (c : counters) : bool := with_ties c.

(** How the counters are used: row number [i] is sent when it is past the offset
    and below the limit, out of [n] rows. *)
Definition sends (c : counters) (i : Z) : bool := negb (check_offset c i) && (i <? get_select_limit c).

Lemma u64_add a b : in_u 64 a -> in_u 64 b -> u64 (a + b) = if a + b <? 2 ^ 64 then a + b else a + b - 2 ^ 64.
Proof.
  unfold in_u. intros Ha Hb. unfold wrapU. destruct (Z.ltb_spec (a + b) (2 ^ 64)); [apply Z.mod_small; lia|].
  symmetry. apply (Z.mod_unique _ _ 1); lia.
Qed.

Lemma sends_iff n o t i : sends (Counters n o t) i = true <-> o <= i < n.
Proof. unfold sends, check_offset, get_select_limit. cbn [select_limit_cnt offset_limit_cnt]. lia. Qed.

(** What the three operations with a guard leave in the counters. *)
Lemma set_limit_eq limit offset ties c : in_u 64 limit -> in_u 64 offset ->
  set_limit limit offset ties c =
    let o := if limit =? 0 then 0 else offset in Counters (Z.min (limit + o) HA_POS_ERROR) o ties.
Proof.
  intros Hl Ho. unfold set_limit. cbn [select_limit_cnt offset_limit_cnt with_ties].
  set (o := if limit =? 0 then 0 else offset).
  assert (in_u 64 o) as Hr by (subst o; destruct (limit =? 0); [unfold in_u; lia|done]).
  rewrite u64_add by done. change HA_POS_ERROR with (2 ^ 64 - 1). clearbody o. clear Ho. unfold in_u in *.
  cbv zeta. destruct (Z.ltb_spec (limit + o) (2 ^ 64)).
  - rewrite (proj2 (Z.leb_le limit (limit + o))) by lia. by rewrite Z.min_l by lia.
  - rewrite (proj2 (Z.leb_gt limit (limit + o - 2 ^ 64))) by lia. by rewrite Z.min_r by lia.
Qed.

Lemma send_first_row_eq c : in_u 64 (offset_limit_cnt c) ->
  send_first_row c =
    Counters (if offset_limit_cnt c =? HA_POS_ERROR then HA_POS_ERROR else offset_limit_cnt c + 1)
      (offset_limit_cnt c) (with_ties c).
Proof.
  destruct c as [n o t]. unfold send_first_row. cbn [offset_limit_cnt with_ties]. intros Ho.
  rewrite u64_add by (done || (unfold in_u; lia)). change HA_POS_ERROR with (2 ^ 64 - 1). unfold in_u in Ho.
  destruct (Z.eqb_spec o (2 ^ 64 - 1)) as [->|Hne].
  - reflexivity.
  - rewrite (proj2 (Z.ltb_lt (o + 1) (2 ^ 64))) by lia. by rewrite (proj2 (Z.eqb_neq (o + 1) 0)) by lia.
Qed.

(** The counters select the window that LIMIT and OFFSET name.  For every
    limit and offset of 64 bits, also where their sum does not fit 64 bits, the
    rows of any result (fewer than 2^64 - 1) that are sent are those numbered from
    [offset] up to [offset + limit]; LIMIT 0 sends nothing whatever the offset;
    [set_unlimited] keeps the offset, [clear] sends everything, [set_single_row]
    sends row 0, and [send_first_row] sends the first row after the offset. *)
Lemma select_limit_window c limit offset ties :
  in_u 64 limit -> in_u 64 offset -> in_u 64 (offset_limit_cnt c) ->
  forall i, 0 <= i < HA_POS_ERROR ->
  (sends (set_limit limit offset ties c) i = true <-> offset <= i < offset + limit) /\
  (sends (set_unlimited (set_limit limit offset ties c)) i = true <-> (limit = 0 \/ offset <= i)) /\
  sends (clear c) i = true /\ (sends (set_single_row c) i = true <-> i = 0) /\
  (sends (send_first_row c) i = true <-> i = offset_limit_cnt c) /\
  (is_unlimited (set_limit limit offset ties c) = true <-> HA_POS_ERROR <= limit + (if limit =? 0 then 0 else offset)) /\
  is_with_ties (set_limit limit offset ties c) = ties /\ in_u 64 (get_select_limit (set_limit limit offset ties c)).
Proof.
  intros Hl Ho Hc i Hi. rewrite set_limit_eq, send_first_row_eq by done.
  unfold set_unlimited, clear, set_single_row, is_unlimited, is_with_ties, get_select_limit.
  cbn [select_limit_cnt offset_limit_cnt with_ties]. rewrite !sends_iff.
  change HA_POS_ERROR with (2 ^ 64 - 1) in *. unfold in_u in *. cbv zeta.
  destruct (Z.eqb_spec limit 0), (Z.eqb_spec (offset_limit_cnt c) (2 ^ 64 - 1)); rewrite ?Z.eqb_eq; split_and!;
    reflexivity || lia.
Qed.

End SelectLimit.
