(* ===== verification/ThreadCache.v ===== *)
(** The thread cache of the one-thread-per-connection scheduler:
    [mariadb/include/mysql/server/private/thread_cache.h].

    Several threads call the operations of one [Thread_cache].  [LOCK_thread_cache]
    makes the code between two of its lock and unlock (or wait) calls one step, so a
    critical section is a function on the [cache] and a thread is its position
    between two critical sections ([pc]).  A wait on a condition variable is a
    position of its own, which a signal, a broadcast or (for the timed wait) the
    timeout ends; the relations [run_step], [call_step] and [spurious_step] are the
    steps of awake threads, the calls and timeouts from outside, and the wakeups
    without reason that POSIX allows.  The list of connections is the interface
    [ConnectList]; its instance is the [I_List] of [ILink].

    [thread_cache_size] (a system variable) does not change during a run; [ulong] has
    32 or 64 bits ([Ulong]).  The
    increment of [final_flush] runs outside of the mutex; it is one step here. *)

From S2P Require Import Prelude ILink.

(** ** The list of connection requests

    What the cache needs of [I_List<CONNECT>]: a queue that hands out connections
    in the order in which they came.  [None] is undefined behaviour. *)

Class ConnectList := {
  clist : Type;
  cl_empty : clist -> option clist;
  cl_push_back : nat -> clist -> option clist;
  cl_get : clist -> option (option nat * clist);
  cl_is_empty : clist -> bool;
  cl_holds : clist -> list nat -> Prop
}.

Class ConnectListLaws (L : ConnectList) : Prop := {
  law_empty q : exists q', cl_empty q = Some q' /\ cl_holds q' [];
  law_push_back q xs k : cl_holds q xs -> k ∉ xs ->
    exists q', cl_push_back k q = Some q' /\ cl_holds q' (xs ++ [k]);
  law_get q xs : cl_holds q xs -> exists q', cl_get q = Some (head xs, q') /\ cl_holds q' (tail xs);
  law_is_empty q xs : cl_holds q xs -> cl_is_empty q = bool_decide (xs = [])
}.

(** The width of [ulong]: 64 bits, and 32 bits on Windows. *)
Class Ulong := { ulong_bits : Z; ulong_bits_cases : ulong_bits = 32 \/ ulong_bits = 64 }.
Definition lp64 : Ulong := {| ulong_bits := 64; ulong_bits_cases := or_intror eq_refl |}.
Definition llp64 : Ulong := {| ulong_bits := 32; ulong_bits_cases := or_introl eq_refl |}.

(** Conversion to [ulong]. *)
Definition to_ulong {U : Ulong} (z : Z) : Z := wrapU ulong_bits z.
Arguments to_ulong : simpl never.
Lemma to_ulong_small {U : Ulong} z : in_u ulong_bits z -> to_ulong z = z.
Proof. apply wrapU_small. Qed.
Lemma to_ulong_0 {U : Ulong} : to_ulong 0 = 0.
Proof. apply to_ulong_small. unfold in_u. destruct ulong_bits_cases as [-> | ->]; lia. Qed.
Lemma to_ulong_1 {U : Ulong} : to_ulong 1 = 1.
Proof. apply to_ulong_small. unfold in_u. destruct ulong_bits_cases as [-> | ->]; lia. Qed.

Section ThreadCache.
Context {U : Ulong} {L : ConnectList}.
(** The system variable. *)
Context (thread_cache_size : Z).

(** ** The cache and its critical sections *)

Record cache := Cache {
  list_ : clist;
  cached_thread_count : Z;
  kill_cached_threads : Z
}.

Definition init (q : clist) : option cache :=
  q ← cl_empty q; Some (Cache q 0 0).

Definition destroy (c : cache) : option unit :=
  if (cached_thread_count c =? 0) && cl_is_empty (list_ c) then Some tt else None.

(** The result is whether the connection is enqueued. *)
Definition enqueue (connect : nat) (c : cache) : option (bool * cache) :=
  if nz (cached_thread_count c) then
    q ← cl_push_back connect (list_ c);
    Some (true, Cache q (to_ulong (cached_thread_count c - 1)) (kill_cached_threads c))
  else Some (false, c).

(** How a critical section of [park] ends: in the wait, or with the mutex unlocked
    and the values of [connect] and [flushed]. *)
Inductive outcome := Wait | Leave (connect : option nat) (flushed : bool).

(** From the lock to the first wait. *)
Definition park_enter (c : cache) : option (outcome * cache) :=
  '(connect, q) ← cl_get (list_ c);
  match connect with
  | Some k => Some (Leave (Some k) false, Cache q (to_ulong (cached_thread_count c + 1)) (kill_cached_threads c))
  | None =>
      if (cached_thread_count c <? thread_cache_size) && negb (nz (kill_cached_threads c))
      then Some (Wait, Cache q (to_ulong (cached_thread_count c + 1)) (kill_cached_threads c))
      else Some (Leave None false, Cache q (cached_thread_count c) (kill_cached_threads c))
  end.

(** From a wait, which ended with [timeout], to the next one. *)
Definition park_wake (timeout : bool) (c : cache) : option (outcome * cache) :=
  let flushed := nz (kill_cached_threads c) in
  '(connect, q) ← cl_get (list_ c);
  match connect with
  | Some k => Some (Leave (Some k) flushed, Cache q (cached_thread_count c) (kill_cached_threads c))
  | None =>
      if flushed || timeout
      then Some (Leave None flushed, Cache q (to_ulong (cached_thread_count c - 1)) (kill_cached_threads c))
      else Some (Wait, Cache q (cached_thread_count c) (kill_cached_threads c))
  end.

(** The loop of [flush]: the result is whether it broadcasts and waits. *)
Definition flush_loop (c : cache) : bool * cache :=
  if nz (cached_thread_count c) then (true, c)
  else (false, Cache (list_ c) (cached_thread_count c) (u32 (kill_cached_threads c - 1))).
Definition kill (c : cache) : cache :=
  Cache (list_ c) (cached_thread_count c) (u32 (kill_cached_threads c + 1)).
Definition flush (c : cache) : bool * cache := flush_loop (kill c).
Definition final_flush (c : cache) : cache := kill c.

Definition size (c : cache) : Z := cached_thread_count c.

(** ** Threads *)

(** Where a thread is.  A woken thread has still to lock the mutex again. *)
Inductive pc :=
| Idle
| ParkLock | ParkWait | ParkWoken (timeout : bool) | ParkLeave (connect : option nat) (flushed : bool)
| EnqLock (connect : nat) | EnqSignal
| FinalFlush | FlushLock | FlushWait | FlushWoken.

#[export] Instance pc_eq_dec : EqDecision pc.
Proof. solve_decision. Defined.

(** [enqueued] and [served] record the connections for which [enqueue] returned true
    and those that [park] returned; [finals] counts the calls of [final_flush]. *)
Record state := State {
  tc : cache;
  threads : list pc;
  enqueued : list nat;
  served : list nat;
  finals : Z
}.

Definition outcome_pc (o : outcome) : pc :=
  match o with Wait => ParkWait | Leave k f => ParkLeave k f end.
Definition outcome_served (o : outcome) : list nat :=
  match o with Leave (Some k) _ => [k] | _ => [] end.

(** [mysql_cond_signal] wakes one of the waiting threads, if there is one. *)
Definition signal (waits woken : pc) (ts ts' : list pc) : Prop :=
  (exists j, ts !! j = Some waits /\ ts' = <[j := woken]> ts) \/ (waits ∉ ts /\ ts' = ts).
Definition wake (p : pc) : pc := match p with ParkWait => ParkWoken false | _ => p end.
Definition broadcast (ts : list pc) : list pc := wake <$> ts.

(** A thread that is awake goes on. *)
Inductive run_step (s : state) : state -> Prop :=
| run_park_enter i o c : threads s !! i = Some ParkLock -> park_enter (tc s) = Some (o, c) ->
    run_step s (State c (<[i := outcome_pc o]> (threads s)) (enqueued s) (served s ++ outcome_served o) (finals s))
| run_park_wake i t o c : threads s !! i = Some (ParkWoken t) -> park_wake t (tc s) = Some (o, c) ->
    run_step s (State c (<[i := outcome_pc o]> (threads s)) (enqueued s) (served s ++ outcome_served o) (finals s))
| run_park_leave i k (flushed : bool) ts : threads s !! i = Some (ParkLeave k flushed) ->
    (if flushed then signal FlushWait FlushWoken (<[i := Idle]> (threads s)) ts else ts = <[i := Idle]> (threads s)) ->
    run_step s (State (tc s) ts (enqueued s) (served s) (finals s))
| run_enqueue i k (b : bool) c : threads s !! i = Some (EnqLock k) -> enqueue k (tc s) = Some (b, c) ->
    run_step s (State c (<[i := if b then EnqSignal else Idle]> (threads s))
                  (enqueued s ++ if b then [k] else []) (served s) (finals s))
| run_enq_signal i ts : threads s !! i = Some EnqSignal ->
    signal ParkWait (ParkWoken false) (<[i := Idle]> (threads s)) ts ->
    run_step s (State (tc s) ts (enqueued s) (served s) (finals s))
| run_flush i (waits : bool) c : threads s !! i = Some FlushLock -> flush (tc s) = (waits, c) ->
    run_step s (State c (if waits then broadcast (<[i := FlushWait]> (threads s)) else <[i := Idle]> (threads s))
                  (enqueued s) (served s) (finals s))
| run_flush_loop i (waits : bool) c : threads s !! i = Some FlushWoken -> flush_loop (tc s) = (waits, c) ->
    run_step s (State c (if waits then broadcast (<[i := FlushWait]> (threads s)) else <[i := Idle]> (threads s))
                  (enqueued s) (served s) (finals s))
| run_final_flush i : threads s !! i = Some FinalFlush ->
    run_step s (State (final_flush (tc s)) (<[i := FlushLock]> (threads s)) (enqueued s) (served s) (finals s + 1)).

(** A connection request that no thread enqueues or has enqueued. *)
Definition fresh (k : nat) (s : state) : Prop := k ∉ enqueued s /\ EnqLock k ∉ threads s.

Definition with_thread (i : nat) (p : pc) (s : state) : state :=
  State (tc s) (<[i := p]> (threads s)) (enqueued s) (served s) (finals s).

(** A thread calls an operation, or the timed wait of one ends. *)
Inductive call_step (s : state) : state -> Prop :=
| call_park i : threads s !! i = Some Idle -> call_step s (with_thread i ParkLock s)
| call_enqueue i k : threads s !! i = Some Idle -> fresh k s -> call_step s (with_thread i (EnqLock k) s)
| call_flush i : threads s !! i = Some Idle -> call_step s (with_thread i FlushLock s)
| call_final_flush i : threads s !! i = Some Idle -> call_step s (with_thread i FinalFlush s)
| call_timeout i : threads s !! i = Some ParkWait -> call_step s (with_thread i (ParkWoken true) s).

Inductive spurious_step (s : state) : state -> Prop :=
| spurious_park i : threads s !! i = Some ParkWait -> spurious_step s (with_thread i (ParkWoken false) s)
| spurious_flush i : threads s !! i = Some FlushWait -> spurious_step s (with_thread i FlushWoken s).

(** Without and with spurious wakeups. *)
Definition step (s s' : state) : Prop := run_step s s' \/ call_step s s'.
Definition any_step (s s' : state) : Prop := step s s' \/ spurious_step s s'.

(** [n] threads, none of which is in the cache, and the cache after [init]. *)
Definition started (n : nat) (s : state) : Prop :=
  exists q c, init q = Some c /\ s = State c (replicate n Idle) [] [] 0.
Definition reachable (n : nat) (s : state) : Prop := exists s0, started n s0 /\ rtc any_step s0 s.

(** ** Counting threads *)

Fixpoint total (f : pc -> Z) (ts : list pc) : Z :=
  match ts with [] => 0 | p :: ts => f p + total f ts end.

Lemma total_insert f ts i p q : ts !! i = Some p -> total f (<[i := q]> ts) = total f ts - f p + f q.
Proof.
  revert i. induction ts as [|t ts IH]; intros [|i] E; [done..| |]; simpl in *; [injection E as ->; lia|].
  specialize (IH i E). lia.
Qed.
Lemma total_fmap f g ts : total f (g <$> ts) = total (fun p => f (g p)) ts.
Proof. induction ts; cbn; [done|]. by f_equal. Qed.
Lemma total_le f g ts : (forall p, f p <= g p) -> total f ts <= total g ts.
Proof. intros H. induction ts as [|t ts IH]; cbn; [lia|]. specialize (H t). lia. Qed.
Lemma total_plus f g ts : total (fun p => f p + g p) ts = total f ts + total g ts.
Proof. induction ts; cbn; lia. Qed.
Lemma total_ext f g ts : (forall p, f p = g p) -> total f ts = total g ts.
Proof. intros H. induction ts as [|t ts IH]; cbn; [done|]. by rewrite H, IH. Qed.
Lemma total_nonneg f ts : (forall p, 0 <= f p) -> 0 <= total f ts.
Proof. intros H. induction ts as [|t ts IH]; cbn; [lia|]. specialize (H t). lia. Qed.
Lemma total_in f ts i p : (forall p, 0 <= f p) -> ts !! i = Some p -> f p <= total f ts.
Proof.
  intros H. revert i. induction ts as [|t ts IH]; intros [|i] E; [done..| |]; cbn in *.
  - injection E as ->. pose proof (total_nonneg f ts H). lia.
  - specialize (IH i E). specialize (H t). lia.
Qed.
Lemma total_zero f ts : (forall p, p ∈ ts -> f p = 0) -> total f ts = 0.
Proof.
  induction ts as [|t ts IH]; cbn; [done|]. intros H. rewrite (H t) by set_solver. rewrite IH; [done|]. set_solver.
Qed.
Lemma total_upper f c ts : (forall p, f p <= c) -> total f ts <= c * Z.of_nat (length ts).
Proof. intros H. induction ts as [|t ts IH]; cbn [total length]; [lia|]. specialize (H t). lia. Qed.

(** ** The invariant *)

(** In the loop of [park]; in its wait; awake again. *)
Definition in_cache (p : pc) : Z := match p with ParkWait | ParkWoken _ => 1 | _ => 0 end.
Definition waiting (p : pc) : Z := match p with ParkWait => 1 | _ => 0 end.
Definition awake (p : pc) : Z := match p with ParkWoken _ => 1 | _ => 0 end.
(** About to signal a parked thread; about to signal a flush. *)
Definition signalling (p : pc) : Z := match p with EnqSignal => 1 | _ => 0 end.
Definition leaving (p : pc) : Z := match p with ParkLeave _ true => 1 | _ => 0 end.
(** In the loop of [flush]; its wait; in [flush] or [final_flush] at all. *)
Definition flushing (p : pc) : Z := match p with FlushWait | FlushWoken => 1 | _ => 0 end.
Definition flush_wait (p : pc) : Z := match p with FlushWait => 1 | _ => 0 end.
Definition in_flush (p : pc) : Z := match p with FinalFlush | FlushLock | FlushWait | FlushWoken => 1 | _ => 0 end.
Definition final_flushing (p : pc) : Z := match p with FinalFlush => 1 | _ => 0 end.
Definition enqueueing (k : nat) (p : pc) : Z :=
  match p with EnqLock k' => if decide (k' = k) then 1 else 0 | _ => 0 end.

(** What holds of the queue [xs] in every state that [n] threads reach. *)
Record inv (n : nat) (s : state) (xs : list nat) : Prop := Inv {
  i_length : length (threads s) = n;
  i_holds : cl_holds (list_ (tc s)) xs;
  i_fifo : enqueued s = served s ++ xs;
  i_nodup : NoDup (enqueued s);
  i_fresh k : k ∈ enqueued s -> total (enqueueing k) (threads s) = 0;
  i_once k : total (enqueueing k) (threads s) <= 1;
  i_count : cached_thread_count (tc s) = total in_cache (threads s) - Z.of_nat (length xs);
  i_count_nonneg : 0 <= cached_thread_count (tc s);
  i_size : total in_cache (threads s) <= thread_cache_size;
  i_signal : Z.of_nat (length xs) <= total awake (threads s) + total signalling (threads s);
  i_kill : kill_cached_threads (tc s) = u32 (total flushing (threads s) + finals s);
  i_finals : 0 <= finals s
}.

Lemma in_cache_split ts : total in_cache ts = total waiting ts + total awake ts.
Proof. rewrite <- total_plus. apply total_ext. by intros []. Qed.

(** Rewrite every count of a changed thread list. *)
Ltac totals :=
  repeat match goal with
  | H : threads ?s !! _ = Some _ |- context [total _ (<[_ := _]> (threads ?s))] => rewrite !(total_insert _ _ _ _ _ H)
  end.

Context (size_ok : in_u ulong_bits thread_cache_size) {LL : ConnectListLaws L}.

Lemma enqueueing_nonneg k p : 0 <= enqueueing k p.
Proof. destruct p; cbn; try lia. destruct (decide _); lia. Qed.

Lemma enqueueing_le k p : enqueueing k p <= 1.
Proof. destruct p; cbn; try lia. destruct (decide _); lia. Qed.

Lemma fresh_total k s : fresh k s -> total (enqueueing k) (threads s) = 0.
Proof.
  intros [_ H]. apply total_zero. intros p Hp. destruct p as [| | | | |k'| | | | |]; try done.
  cbn. destruct (decide (k' = k)) as [->|]; [done|done].
Qed.

Lemma inv_started n s : started n s -> inv n s [].
Proof.
  intros (q & c & Hi & ->). destruct (law_empty q) as (q' & Hq & Hh). unfold init in Hi. rewrite Hq in Hi.
  injection Hi as <-. cbn.
  assert (forall f, f Idle = 0 -> total f (replicate n Idle) = 0) as H0.
  { intros f Hf. apply total_zero. intros p Hp. by apply elem_of_replicate in Hp as [-> _]. }
  split; cbn; rewrite ?H0 by done; try done; try lia;
    first [apply length_replicate|apply NoDup_nil_2|apply size_ok|intros; by rewrite H0].
Qed.

(** A step that changes one thread and leaves the cache and the records alone. *)
Lemma inv_thread n s xs i p q : inv n s xs -> threads s !! i = Some p ->
  in_cache p = in_cache q -> awake p <= awake q -> signalling p <= signalling q -> flushing p = flushing q ->
  (forall k, enqueueing k q <= enqueueing k p \/ (k ∉ enqueued s /\ total (enqueueing k) (threads s) = 0)) ->
  inv n (with_thread i q s) xs.
Proof.
  intros [] Hi Hc Ha Hs Hf He. split; cbn; totals; try done; try lia; [by rewrite length_insert|..].
  - intros k Hk. totals. destruct (He k) as [H|[H _]]; [|done].
    pose proof (i_fresh0 k Hk) as H0. pose proof (total_in _ _ _ _ (enqueueing_nonneg k) Hi).
    pose proof (enqueueing_nonneg k q). pose proof (enqueueing_nonneg k p). lia.
  - intros k. totals. destruct (He k) as [H|[_ H]]; [specialize (i_once0 k); lia|]. rewrite H.
    pose proof (enqueueing_nonneg k p). pose proof (enqueueing_le k q). lia.
  - rewrite i_kill0. f_equal. lia.
Qed.

Lemma inv_call n s s' xs : inv n s xs -> call_step s s' -> inv n s' xs.
Proof.
  intros HI [i Hi|i k Hi Hf|i Hi|i Hi|i Hi]; apply (inv_thread _ _ _ _ _ _ HI Hi); try done; intros k'; cbn; try (left; lia).
  destruct (decide (k = k')) as [<-|]; [right|by left]. split; [apply Hf|by apply fresh_total].
Qed.
Lemma inv_spurious n s s' xs : inv n s xs -> spurious_step s s' -> inv n s' xs.
Proof.
  intros HI [i Hi|i Hi]; apply (inv_thread _ _ _ _ _ _ HI Hi); try done; intros k'; cbn; left; lia.
Qed.

(** A signal wakes somebody, or nobody waits. *)
Lemma signal_total waits woken ts ts' : signal waits woken ts ts' ->
  length ts' = length ts /\
  ((forall f, total f ts' = total f ts + f woken - f waits) \/ (waits ∉ ts /\ ts' = ts)).
Proof.
  intros [(j & Hj & ->)|H]; [|by destruct H as [? ->]; auto]. split; [by rewrite length_insert|].
  left. intros f. rewrite (total_insert _ _ _ _ _ Hj). lia.
Qed.

Lemma not_waiting ts : ParkWait ∉ ts -> total waiting ts = 0.
Proof. intros H. apply total_zero. intros [] Hp; done. Qed.

(** What a broadcast does to a count. *)
Lemma total_broadcast f ts :
  total f (broadcast ts) = total f ts + (f (ParkWoken false) - f ParkWait) * total waiting ts.
Proof.
  unfold broadcast. rewrite total_fmap. induction ts as [|t ts IH]; cbn [total]; [lia|].
  rewrite IH. destruct t; cbn [wake waiting]; lia.
Qed.

(** The critical sections, with the queue in view. *)
Lemma park_enter_run c xs : cl_holds (list_ c) xs -> exists q,
  cl_holds q (tail xs) /\
  park_enter c = Some (match xs with
    | k :: _ => (Leave (Some k) false, Cache q (to_ulong (cached_thread_count c + 1)) (kill_cached_threads c))
    | [] => if (cached_thread_count c <? thread_cache_size) && negb (nz (kill_cached_threads c))
            then (Wait, Cache q (to_ulong (cached_thread_count c + 1)) (kill_cached_threads c))
            else (Leave None false, Cache q (cached_thread_count c) (kill_cached_threads c))
    end).
Proof.
  intros Hh. destruct (law_get _ _ Hh) as (q & E & Hq). exists q. split; [done|]. unfold park_enter. rewrite E.
  destruct xs; cbn; [|done]. by destruct (_ && _).
Qed.

Lemma park_wake_run t c xs : cl_holds (list_ c) xs -> exists q,
  cl_holds q (tail xs) /\
  park_wake t c = Some (match xs with
    | k :: _ => (Leave (Some k) (nz (kill_cached_threads c)), Cache q (cached_thread_count c) (kill_cached_threads c))
    | [] => if nz (kill_cached_threads c) || t
            then (Leave None (nz (kill_cached_threads c)),
                  Cache q (to_ulong (cached_thread_count c - 1)) (kill_cached_threads c))
            else (Wait, Cache q (cached_thread_count c) (kill_cached_threads c))
    end).
Proof.
  intros Hh. destruct (law_get _ _ Hh) as (q & E & Hq). exists q. split; [done|]. unfold park_wake. rewrite E.
  destruct xs; cbn; [|done]. by destruct (_ || _).
Qed.

Lemma enqueue_run k c xs : cl_holds (list_ c) xs -> k ∉ xs -> exists b c',
  enqueue k c = Some (b, c') /\ b = nz (cached_thread_count c) /\ cl_holds (list_ c') (if b then xs ++ [k] else xs) /\
  kill_cached_threads c' = kill_cached_threads c /\
  cached_thread_count c' = if b then to_ulong (cached_thread_count c - 1) else cached_thread_count c.
Proof.
  intros Hh Hk. unfold enqueue. destruct (nz (cached_thread_count c)); [|by eexists _, _].
  destruct (law_push_back _ _ _ Hh Hk) as (q & E & Hq). rewrite E. cbn. by eexists _, _.
Qed.

(** Simplify the goals of an invariant after one thread has moved. *)
Lemma in_range n s xs : inv n s xs -> 0 <= total in_cache (threads s) < 2 ^ ulong_bits /\ thread_cache_size < 2 ^ ulong_bits /\
  0 <= cached_thread_count (tc s) <= total in_cache (threads s).
Proof.
  intros []. unfold in_u in size_ok. pose proof (i_count_nonneg0). lia.
Qed.

Ltac counts := repeat match goal with
  | |- context [to_ulong ?z] => rewrite (to_ulong_small z) by (unfold in_u; lia)
  end.

(** The thread at [i] moves from [p] to [q], which enqueues nothing. *)
Lemma moved n s xs i p q : inv n s xs -> threads s !! i = Some p -> (forall k, enqueueing k q <= enqueueing k p) ->
  (forall k, k ∈ enqueued s -> total (enqueueing k) (<[i := q]> (threads s)) = 0) /\
  (forall k, total (enqueueing k) (<[i := q]> (threads s)) <= 1).
Proof.
  intros HI Hi Hq. split; intros k; [intros Hk|]; totals; specialize (Hq k).
  - pose proof (i_fresh _ _ _ HI k Hk). pose proof (total_in _ _ _ _ (enqueueing_nonneg k) Hi).
    pose proof (enqueueing_nonneg k q). lia.
  - pose proof (i_once _ _ _ HI k). lia.
Qed.

Lemma inv_park_enter n s xs i o c : inv n s xs -> threads s !! i = Some ParkLock ->
  park_enter (tc s) = Some (o, c) ->
  inv n (State c (<[i := outcome_pc o]> (threads s)) (enqueued s) (served s ++ outcome_served o) (finals s)) (tail xs) /\
  (xs = [] -> outcome_served o = []).
Proof.
  intros HI Hi E. destruct (park_enter_run (tc s) xs (i_holds _ _ _ HI)) as (q & Hq & E'). rewrite E' in E. clear E'.
  destruct (moved n s xs i _ (outcome_pc o) HI Hi) as [M1 M2]; [by intros k; destruct o|].
  pose proof (in_range _ _ _ HI) as HR. destruct HI.
  destruct xs as [|k xs]; [destruct (_ && _) eqn:Eb; [apply andb_true_iff in Eb as [Eb%Z.ltb_lt _]|]|];
    injection E as <- <-; (split; [|done]); split; cbn in *;
    totals; cbn; rewrite ?app_nil_r in *; counts; try done; try lia; try (by rewrite length_insert).
  all: first [by rewrite <- app_assoc|rewrite i_kill0; f_equal; lia].
Qed.

Lemma inv_park_wake n s xs i t o c : inv n s xs -> threads s !! i = Some (ParkWoken t) ->
  park_wake t (tc s) = Some (o, c) ->
  inv n (State c (<[i := outcome_pc o]> (threads s)) (enqueued s) (served s ++ outcome_served o) (finals s)) (tail xs).
Proof.
  intros HI Hi E. destruct (park_wake_run t (tc s) xs (i_holds _ _ _ HI)) as (q & Hq & E'). rewrite E' in E. clear E'.
  destruct (moved n s xs i _ (outcome_pc o) HI Hi) as [M1 M2]; [by intros k; destruct o|].
  pose proof (in_range _ _ _ HI) as HR. pose proof (total_in in_cache _ _ _ ltac:(by intros []) Hi) as Hin.
  pose proof (total_in awake _ _ _ ltac:(by intros []) Hi) as Haw.
  pose proof (total_nonneg signalling (threads s) ltac:(by intros [])) as Hsn. destruct HI. cbn in Hin, Haw.
  destruct xs as [|k xs]; [destruct (_ || _) eqn:Eb|]; injection E as <- <-; split; cbn in *;
    totals; cbn; rewrite ?app_nil_r in *; counts; try done; try lia; try (by rewrite length_insert);
    try (by rewrite <- app_assoc); rewrite i_kill0; f_equal; lia.
Qed.

Lemma inv_enqueue n s xs i k b c : inv n s xs -> threads s !! i = Some (EnqLock k) ->
  enqueue k (tc s) = Some (b, c) ->
  inv n (State c (<[i := if b then EnqSignal else Idle]> (threads s)) (enqueued s ++ if b then [k] else [])
           (served s) (finals s)) (if b then xs ++ [k] else xs).
Proof.
  intros HI Hi E.
  assert (total (enqueueing k) (threads s) = 1) as H1.
  { pose proof (total_in (enqueueing k) _ _ _ (enqueueing_nonneg k) Hi) as H. cbn in H.
    rewrite decide_True in H by done. pose proof (i_once _ _ _ HI k). lia. }
  assert (k ∉ enqueued s) as Hk by (intros Hin; rewrite (i_fresh _ _ _ HI k Hin) in H1; done).
  assert (k ∉ xs) as Hxs by (intros Hin; apply Hk; rewrite (i_fifo _ _ _ HI); set_solver).
  destruct (enqueue_run k (tc s) xs (i_holds _ _ _ HI) Hxs) as (b' & c' & E' & Hb & Hh & Hkill & Hc).
  rewrite E' in E. injection E as -> ->.
  set (q := if b then EnqSignal else Idle).
  destruct (moved n s xs i _ q HI Hi) as [M1 M2];
    [by intros k'; destruct b; cbn; destruct (decide _); try done; destruct (decide _)|].
  pose proof (in_range _ _ _ HI) as HR. destruct HI. subst q.
  destruct b; symmetry in Hb; [apply nz_true in Hb|].
  - rewrite to_ulong_small in Hc by (unfold in_u; lia).
    split; cbn in *; rewrite ?length_app; totals; cbn; try done; try lia; try (by rewrite length_insert).
    + by rewrite i_fifo0, app_assoc.
    + by apply NoDup_snoc.
    + intros k' [Hk'|Hk'%list_elem_of_singleton]%elem_of_app; [by apply M1|subst k']. totals. rewrite H1. cbn.
      by rewrite decide_True.
    + rewrite Hkill, i_kill0. f_equal. lia.
  - rewrite app_nil_r. split; cbn in *; totals; cbn; try done; try lia; try (by rewrite length_insert).
    rewrite Hkill, i_kill0. f_equal. lia.
Qed.

(** Only counts, the length and the requests matter of a thread list. *)
Lemma inv_same_threads n s xs ts : inv n s xs -> length ts = length (threads s) ->
  (forall k, total (enqueueing k) ts <= total (enqueueing k) (threads s)) ->
  total in_cache ts = total in_cache (threads s) ->
  Z.of_nat (length xs) <= total awake ts + total signalling ts ->
  total flushing ts = total flushing (threads s) ->
  inv n (State (tc s) ts (enqueued s) (served s) (finals s)) xs.
Proof.
  intros [] Hl He Hc Ha Hf. split; cbn; try done; try lia.
  - intros k Hk. specialize (He k). rewrite i_fresh0 in He by done.
    pose proof (total_nonneg _ ts (enqueueing_nonneg k)). lia.
  - intros k. specialize (He k). specialize (i_once0 k). lia.
  - rewrite i_kill0. f_equal. lia.
Qed.

Lemma inv_park_leave n s xs i k (flushed : bool) ts : inv n s xs -> threads s !! i = Some (ParkLeave k flushed) ->
  (if flushed then signal FlushWait FlushWoken (<[i := Idle]> (threads s)) ts else ts = <[i := Idle]> (threads s)) ->
  inv n (State (tc s) ts (enqueued s) (served s) (finals s)) xs.
Proof.
  intros HI Hi Hs.
  assert (length ts = length (threads s) /\ forall f, f FlushWait = f FlushWoken ->
            total f ts = total f (<[i := Idle]> (threads s))) as [Hl Hf].
  { destruct flushed; [|subst ts; split; [by rewrite length_insert|done]].
    apply signal_total in Hs as [-> Ht]. split; [by rewrite length_insert|]. intros f Hf.
    destruct Ht as [->|[_ ->]]; [lia|done]. }
  apply inv_same_threads; try done; intros; rewrite ?Hf by done; totals; cbn; try lia.
  pose proof (i_signal _ _ _ HI). lia.
Qed.

Lemma inv_enq_signal n s xs i ts : inv n s xs -> threads s !! i = Some EnqSignal ->
  signal ParkWait (ParkWoken false) (<[i := Idle]> (threads s)) ts ->
  inv n (State (tc s) ts (enqueued s) (served s) (finals s)) xs.
Proof.
  intros HI Hi Hs. apply signal_total in Hs as [Hl Ht]. rewrite length_insert in Hl.
  assert (forall f, f ParkWait = f (ParkWoken false) -> total f ts = total f (<[i := Idle]> (threads s))) as Hf.
  { intros f Hf. destruct Ht as [->|[_ ->]]; [lia|done]. }
  apply inv_same_threads; try done; intros; rewrite ?Hf by done; totals; cbn; try lia.
  pose proof (i_signal _ _ _ HI) as H. destruct Ht as [Ht|[Hn ->]]; [rewrite !Ht; totals; cbn; lia|].
  apply not_waiting in Hn. revert Hn. totals. cbn. intros Hn.
  pose proof (in_cache_split (threads s)). pose proof (i_count _ _ _ HI). pose proof (i_count_nonneg _ _ _ HI).
  pose proof (total_in signalling _ _ _ ltac:(by intros []) Hi) as Hsg. cbn in Hsg. lia.
Qed.

Lemma u32_add a b : u32 (u32 a + b) = u32 (a + b).
Proof. unfold wrapU. by rewrite Z.add_mod_idemp_l. Qed.

(** The loop of [flush], when the count of [kill_cached_threads] includes its own. *)
Lemma inv_flush_loop n s xs i p c0 (waits : bool) c : inv n s xs -> threads s !! i = Some p ->
  p = FlushLock \/ p = FlushWoken -> list_ c0 = list_ (tc s) -> cached_thread_count c0 = cached_thread_count (tc s) ->
  kill_cached_threads c0 = u32 (total flushing (threads s) - flushing p + 1 + finals s) ->
  flush_loop c0 = (waits, c) ->
  inv n (State c (if waits then broadcast (<[i := FlushWait]> (threads s)) else <[i := Idle]> (threads s))
           (enqueued s) (served s) (finals s)) xs.
Proof.
  intros HI Hi Hp Hl Hc Hk E. unfold flush_loop in E.
  assert (in_cache p = 0 /\ awake p = 0 /\ signalling p = 0 /\ forall k, enqueueing k p = 0) as (P1 & P2 & P3 & P4)
    by (by destruct Hp as [-> | ->]).
  destruct (moved n s xs i p Idle HI Hi) as [M1 M2]; [by intros k; rewrite P4|].
  destruct (moved n s xs i p FlushWait HI Hi) as [M3 M4]; [by intros k; rewrite P4|].
  pose proof (total_nonneg waiting (threads s) ltac:(by intros [])).
  destruct HI. destruct (nz _); injection E as <- <-; split; cbn; rewrite ?total_broadcast, ?Hl, ?Hc, ?Hk; totals;
    cbn; try done; try lia; rewrite ?P1, ?P2, ?P3, ?u32_add; try (f_equal; lia); try lia.
  - unfold broadcast. by rewrite length_fmap, length_insert.
  - intros k Hin. rewrite total_broadcast. cbn. rewrite M3 by done. lia.
  - intros k. rewrite total_broadcast. cbn. specialize (M4 k). lia.
  - totals. assert (waiting p = 0) as -> by (by destruct Hp as [-> | ->]). cbn. lia.
  - by rewrite length_insert.
  - unfold Z.sub at 1. rewrite u32_add. f_equal. lia.
Qed.

Lemma inv_flush n s xs i (waits : bool) c : inv n s xs -> threads s !! i = Some FlushLock -> flush (tc s) = (waits, c) ->
  inv n (State c (if waits then broadcast (<[i := FlushWait]> (threads s)) else <[i := Idle]> (threads s))
           (enqueued s) (served s) (finals s)) xs.
Proof.
  intros HI Hi E. apply (inv_flush_loop _ _ _ _ _ (kill (tc s)) _ _ HI Hi); try done; [by left|].
  cbn. rewrite (i_kill _ _ _ HI), u32_add. f_equal. lia.
Qed.

Lemma inv_final_flush n s xs i : inv n s xs -> threads s !! i = Some FinalFlush ->
  inv n (State (final_flush (tc s)) (<[i := FlushLock]> (threads s)) (enqueued s) (served s) (finals s + 1)) xs.
Proof.
  intros HI Hi. destruct (moved n s xs i FinalFlush FlushLock HI Hi) as [M1 M2]; [done|].
  destruct HI. split; cbn; totals; cbn; try done; try lia; [by rewrite length_insert|].
  rewrite i_kill0, u32_add. f_equal. lia.
Qed.

(** Every step preserves the invariant, for a queue that grows at its end and
    shrinks at its front. *)
Lemma inv_run n s s' xs : inv n s xs -> run_step s s' -> exists xs', inv n s' xs'.
Proof.
  intros HI [].
  - eexists. by eapply inv_park_enter.
  - eexists. by eapply inv_park_wake.
  - eexists. by eapply inv_park_leave.
  - eexists. by eapply inv_enqueue.
  - eexists. by eapply inv_enq_signal.
  - eexists. by eapply inv_flush.
  - eexists. apply (inv_flush_loop _ _ _ _ _ (tc s) _ _ HI H); try done; [by right|].
    rewrite (i_kill _ _ _ HI). f_equal. cbn. lia.
  - eexists. by apply inv_final_flush.
Qed.

Lemma inv_any n s s' xs : inv n s xs -> any_step s s' -> exists xs', inv n s' xs'.
Proof.
  intros HI [[H|H]|H]; [by eapply inv_run|exists xs; by eapply inv_call|exists xs; by eapply inv_spurious].
Qed.

Lemma inv_reachable n s : reachable n s -> exists xs, inv n s xs.
Proof.
  intros (s0 & H0 & Hr). assert (exists xs, inv n s0 xs) as Hx by (exists []; by apply inv_started).
  clear H0. induction Hr as [|s1 s2 s3 H1 _ IH]; [done|]. apply IH. destruct Hx as [xs Hx]. by eapply inv_any.
Qed.

(** ** Progress

    A measure that every step of an awake thread decreases: a waiting thread keeps
    what its next wakeup costs, a leaving one the wakeup of a flush, and a flush the
    broadcast to all [n] threads. *)

Definition weight (n : Z) (p : pc) : Z :=
  match p with
  | Idle | FlushWait => 0
  | EnqSignal => 2 | EnqLock _ => 3
  | FlushLock | FlushWoken => n + 1
  | ParkWait | ParkLeave _ _ | FinalFlush => n + 2
  | ParkWoken _ | ParkLock => n + 3
  end.
Definition measure (s : state) : Z := total (weight (Z.of_nat (length (threads s)))) (threads s).

Lemma measure_nonneg s : 0 <= measure s.
Proof. apply total_nonneg. intros []; cbn; lia. Qed.

Lemma signal_measure n waits woken ts ts' : signal waits woken ts ts' -> weight n waits <= weight n woken ->
  length ts' = length ts /\ total (weight n) ts' <= total (weight n) ts + weight n woken - weight n waits.
Proof. intros [-> [H|[_ ->]]]%signal_total ?; split; try done; [rewrite H|]; lia. Qed.

Lemma total_flush_measure n ts i p : ts !! i = Some p -> n = Z.of_nat (length ts) -> weight n p = n + 1 ->
  total (weight n) (broadcast (<[i := FlushWait]> ts)) < total (weight n) ts.
Proof.
  intros Hi Hn Hp. rewrite total_broadcast, !(total_insert _ _ _ _ _ Hi), Hp. cbn.
  pose proof (total_upper waiting 1 ts ltac:(by intros [])). assert (0 <= waiting p) by (by destruct p).
  replace (n + 3 - (n + 2)) with 1 by lia. lia.
Qed.

Lemma run_measure s s' : run_step s s' -> measure s' < measure s.
Proof.
  assert (forall ts n f, length ts = n -> total (f (Z.of_nat (length ts))) ts = total (f (Z.of_nat n)) ts) as HL
    by (by intros ts n f <-).
  intros []; unfold measure; cbn [threads].
  1,2: rewrite (HL _ (length (threads s))) by (by rewrite length_insert); totals; destruct o; cbn; lia.
  - destruct flushed; [|subst ts; rewrite (HL _ (length (threads s))) by (by rewrite length_insert); totals; cbn; lia].
    apply (signal_measure (Z.of_nat (length (threads s)))) in H0 as [Hl Ht]; [|cbn; lia].
    rewrite (HL _ (length (threads s))) by (by rewrite Hl, length_insert). revert Ht. totals. cbn. lia.
  - rewrite (HL _ (length (threads s))) by (by rewrite length_insert); totals; destruct b; cbn; lia.
  - apply (signal_measure (Z.of_nat (length (threads s)))) in H0 as [Hl Ht]; [|cbn; lia].
    rewrite (HL _ (length (threads s))) by (by rewrite Hl, length_insert). revert Ht. totals. cbn. lia.
  - destruct waits; (rewrite (HL _ (length (threads s)))
      by (unfold broadcast; by rewrite ?length_fmap, length_insert)); [by eapply total_flush_measure|totals; cbn; lia].
  - destruct waits; (rewrite (HL _ (length (threads s)))
      by (unfold broadcast; by rewrite ?length_fmap, length_insert)); [by eapply total_flush_measure|totals; cbn; lia].
  - rewrite (HL _ (length (threads s))) by (by rewrite length_insert); totals; cbn; lia.
Qed.

Lemma run_terminates s : Acc (fun a b => run_step b a) s.
Proof.
  remember (Z.to_nat (measure s)) as m eqn:E. revert s E. induction (lt_wf m) as [m _ IH]. intros s ->.
  constructor. intros s' Hs. apply (IH (Z.to_nat (measure s'))); [|done].
  pose proof (run_measure _ _ Hs). pose proof (measure_nonneg s'). lia.
Qed.

(** Only threads that do nothing or wait cannot go on. *)
Definition resting (p : pc) : Prop := p = Idle \/ p = ParkWait \/ p = FlushWait.

Lemma signal_exists waits woken ts : exists ts', signal waits woken ts ts'.
Proof.
  destruct (decide (waits ∈ ts)) as [[j Hj]%list_elem_of_lookup|]; [|by exists ts; right].
  eexists. left. by exists j.
Qed.

Lemma can_run n s xs i p : inv n s xs -> threads s !! i = Some p -> resting p \/ exists s', run_step s s'.
Proof.
  intros HI Hi. destruct p as [| | |t|k flushed|k| | | | |]; try (left; unfold resting; by auto); right.
  - destruct (park_enter_run (tc s) xs (i_holds _ _ _ HI)) as (q & _ & E).
    destruct (park_enter (tc s)) as [[o c]|] eqn:E'; [|done]. eexists. by eapply run_park_enter.
  - destruct (park_wake_run t (tc s) xs (i_holds _ _ _ HI)) as (q & _ & E).
    destruct (park_wake t (tc s)) as [[o c]|] eqn:E'; [|done]. eexists. by eapply run_park_wake.
  - destruct flushed; [destruct (signal_exists FlushWait FlushWoken (<[i := Idle]> (threads s))) as [ts Hs]|];
      eexists; (eapply run_park_leave; [exact Hi|]); [exact Hs|reflexivity].
  - assert (k ∉ xs) as Hk.
    { intros Hin. pose proof (total_in (enqueueing k) _ _ _ (enqueueing_nonneg k) Hi) as H. cbn in H.
      rewrite decide_True in H by done. rewrite (i_fresh _ _ _ HI) in H; [done|]. rewrite (i_fifo _ _ _ HI). set_solver. }
    destruct (enqueue_run k (tc s) xs (i_holds _ _ _ HI) Hk) as (b & c & E & _). eexists. by eapply run_enqueue.
  - destruct (signal_exists ParkWait (ParkWoken false) (<[i := Idle]> (threads s))) as [ts Hs].
    eexists. by eapply run_enq_signal.
  - eexists. by apply (run_final_flush s i).
  - destruct (flush (tc s)) as [waits c] eqn:E. eexists. by eapply run_flush.
  - destruct (flush_loop (tc s)) as [waits c] eqn:E. eexists. by eapply run_flush_loop.
Qed.

Lemma quiet n s xs : inv n s xs -> (forall s', ~ run_step s s') -> Forall resting (threads s) /\ xs = [].
Proof.
  intros HI Hq. assert (Forall resting (threads s)) as Hr.
  { apply Forall_lookup. intros i p Hi. destruct (can_run _ _ _ _ _ HI Hi) as [|[s' Hs]]; [done|by apply Hq in Hs]. }
  split; [done|]. rewrite Forall_forall in Hr. pose proof (i_signal _ _ _ HI) as Hn.
  rewrite !total_zero in Hn by (intros p Hp; by destruct (Hr p Hp) as [-> |[-> | ->]]). destruct xs; [done|cbn in Hn; lia].
Qed.

(** ** One flush at a time *)

(** At most one thread is in [flush] or [final_flush], and the counter of requests
    to flush does not wrap. *)
Definition one_flush (s : state) : Prop :=
  total in_flush (threads s) <= 1 /\ finals s + total final_flushing (threads s) < 2 ^ 32 - 1.

(** While a flush waits nobody waits in [park], and somebody is on the way to
    signal the flush. *)
Definition flush_inv (s : state) : Prop :=
  0 < total flush_wait (threads s) ->
  total waiting (threads s) = 0 /\ 0 < total in_cache (threads s) + total leaving (threads s).

Lemma flush_wait_le ts : total flush_wait ts <= total flushing ts.
Proof. apply total_le. by intros []. Qed.
Lemma flushing_le ts : total flushing ts <= total in_flush ts.
Proof. apply total_le. by intros []. Qed.

Lemma flush_kill n s xs : inv n s xs -> one_flush s -> 0 < total flush_wait (threads s) ->
  nz (kill_cached_threads (tc s)) = true.
Proof.
  intros HI [H1 H2] Hw. pose proof (flush_wait_le (threads s)). pose proof (flushing_le (threads s)).
  pose proof (total_nonneg final_flushing (threads s) ltac:(by intros [])). pose proof (i_finals _ _ _ HI).
  rewrite (i_kill _ _ _ HI), wrapU_small by (unfold in_u; lia). apply nz_true. lia.
Qed.

Lemma leaving_nonneg p : 0 <= leaving p.
Proof. by destruct p as [| | | |? []| | | | | |]. Qed.

(** A second thread cannot come to a wait of [flush]. *)
Lemma only_flush s i p : one_flush s -> threads s !! i = Some p -> in_flush p = 1 -> flush_wait p = 0 ->
  total flush_wait (threads s) = 0.
Proof.
  intros [H1 _] Hi Hp Hw. pose proof (total_insert in_flush _ _ _ Idle Hi) as E1.
  pose proof (total_insert flush_wait _ _ _ Idle Hi) as E2. cbn in E1, E2.
  pose proof (total_le flush_wait in_flush (<[i := Idle]> (threads s)) ltac:(by intros [])).
  pose proof (total_nonneg flush_wait (threads s) ltac:(by intros [])). lia.
Qed.

Lemma flush_inv_loop n s xs i p c0 (waits : bool) c : inv n s xs -> one_flush s ->
  threads s !! i = Some p -> p = FlushLock \/ p = FlushWoken -> cached_thread_count c0 = cached_thread_count (tc s) ->
  flush_loop c0 = (waits, c) ->
  flush_inv (State c (if waits then broadcast (<[i := FlushWait]> (threads s)) else <[i := Idle]> (threads s))
               (enqueued s) (served s) (finals s)).
Proof.
  intros HI H1 Hi Hp Hc E Hw.
  assert (in_flush p = 1 /\ flush_wait p = 0 /\ in_cache p = 0 /\ leaving p = 0 /\ waiting p = 0) as (P1 & P2 & P3 & P4 & P5)
    by (by destruct Hp as [-> | ->]).
  pose proof (only_flush _ _ _ H1 Hi P1 P2) as H0. pose proof (total_nonneg leaving (threads s) leaving_nonneg).
  pose proof (i_count _ _ _ HI). pose proof (i_count_nonneg _ _ _ HI).
  unfold flush_loop in E. rewrite Hc in E. destruct (nz _) eqn:Hnz; injection E as <- <-; cbn in *;
    [|revert Hw; totals; cbn; lia].
  apply nz_true in Hnz. rewrite !total_broadcast. totals. cbn. lia.
Qed.

Lemma flush_inv_run n s s' xs : inv n s xs -> one_flush s -> flush_inv s -> run_step s s' -> flush_inv s'.
Proof.
  intros HI H1 HF [].
  - intros Hw. cbn in *. destruct (park_enter_run (tc s) xs (i_holds _ _ _ HI)) as (q & _ & E). rewrite H0 in E.
    assert (0 < total flush_wait (threads s)) as Hw' by (revert Hw; totals; destruct o; cbn; lia).
    destruct (HF Hw'). rewrite (flush_kill _ _ _ HI H1 Hw') in E.
    destruct xs; [rewrite andb_false_r in E|]; injection E as -> ->; totals; cbn; lia.
  - intros Hw. cbn in *. destruct (park_wake_run t (tc s) xs (i_holds _ _ _ HI)) as (q & _ & E). rewrite H0 in E.
    assert (0 < total flush_wait (threads s)) as Hw' by (revert Hw; totals; destruct o; cbn; lia).
    destruct (HF Hw'). rewrite (flush_kill _ _ _ HI H1 Hw') in E. cbn in E.
    destruct xs; injection E as -> ->; totals; cbn; lia.
  - intros Hw. cbn in *. destruct flushed; [|subst ts; revert Hw; totals; cbn; intros Hw; specialize (HF ltac:(lia)); lia].
    apply signal_total in H0 as [_ [Ht|[Hn ->]]].
    + rewrite Ht in Hw. revert Hw. totals. cbn. intros Hw. pose proof (flush_wait_le (threads s)).
      pose proof (flushing_le (threads s)). destruct H1. lia.
    + assert (total flush_wait (<[i := Idle]> (threads s)) = 0) as E
        by (apply total_zero; intros [] Hp; done). lia.
  - intros Hw. cbn in *. revert Hw. totals. destruct b; cbn; intros Hw; specialize (HF ltac:(lia)); lia.
  - intros Hw. cbn in *. apply signal_total in H0 as [_ [Ht|[Hn ->]]].
    + pose proof (total_nonneg waiting ts ltac:(by intros [])) as Hn. revert Hw Hn. rewrite !Ht. totals. cbn. intros Hw Hn. specialize (HF ltac:(lia)). lia.
    + revert Hw. totals. cbn. intros Hw. specialize (HF ltac:(lia)). lia.
  - apply (flush_inv_loop n s xs i FlushLock (kill (tc s))); try done. by left.
  - apply (flush_inv_loop n s xs i FlushWoken (tc s)); try done. by right.
  - intros Hw. cbn in *. revert Hw. totals. cbn. intros Hw. specialize (HF ltac:(lia)). lia.
Qed.

Lemma flush_inv_other s s' : flush_inv s -> call_step s s' \/ spurious_step s s' -> flush_inv s'.
Proof.
  intros HF [[]|[]] Hw; cbn in *; revert Hw; totals; cbn; intros Hw; specialize (HF ltac:(lia)); try lia.
  - pose proof (total_in waiting _ _ _ ltac:(by intros []) H). cbn in *. lia.
  - pose proof (total_in waiting _ _ _ ltac:(by intros []) H). cbn in *. lia.
Qed.

Lemma one_flush_run s s' : one_flush s -> run_step s s' -> one_flush s'.
Proof.
  unfold one_flush. intros [H1 H2] []; cbn in *.
  1,2: totals; destruct o; cbn; lia.
  - destruct flushed; [|subst ts; totals; cbn; lia].
    apply signal_total in H0 as [_ [Ht|[_ ->]]]; [rewrite !Ht|]; totals; cbn; lia.
  - totals; destruct b; cbn; lia.
  - apply signal_total in H0 as [_ [Ht|[_ ->]]]; [rewrite !Ht|]; totals; cbn; lia.
  - destruct waits; rewrite ?total_broadcast; totals; cbn; lia.
  - destruct waits; rewrite ?total_broadcast; totals; cbn; lia.
  - totals; cbn; lia.
Qed.

(** Reachable through states of which [P] holds. *)
Definition reachable_with (P : state -> Prop) (n : nat) (s : state) : Prop :=
  exists s0, started n s0 /\ rtc (fun a b => any_step a b /\ P b) s0 s.

Lemma flush_reachable n s : reachable_with one_flush n s -> one_flush s /\ flush_inv s.
Proof.
  intros (s0 & H0 & Hr).
  assert (exists xs, inv n s0 xs) as Hx by (exists []; by apply inv_started).
  assert (one_flush s0 /\ flush_inv s0) as HF.
  { destruct H0 as (q & c & _ & ->). unfold one_flush, flush_inv. cbn.
    rewrite !total_zero by (intros p Hp; by apply elem_of_replicate in Hp as [-> _]). split; [done|lia]. }
  clear H0. induction Hr as [|s1 s2 s3 [Hs H1] _ IH]; [done|]. destruct Hx as [xs Hx]. destruct HF as [HF1 HF2].
  apply IH; [by eapply inv_any|]. split; [done|].
  destruct Hs as [[Hs|Hs]|Hs]; [by eapply flush_inv_run|eapply flush_inv_other; eauto..].
Qed.

Lemma run_reaches n s s' xs : inv n s xs -> rtc run_step s s' -> exists xs', inv n s' xs'.
Proof. intros Hx Hr. revert xs Hx. induction Hr; intros xs Hx; [by exists xs|]. destruct (inv_run _ _ _ _ Hx H). by eapply IHHr. Qed.

Lemma run_flushes n s s' xs : inv n s xs -> one_flush s -> flush_inv s -> rtc run_step s s' -> flush_inv s'.
Proof.
  intros Hx H1 HF Hr. revert xs Hx H1 HF. induction Hr; intros xs Hx H1 HF; [done|].
  destruct (inv_run _ _ _ _ Hx H) as [xs' Hx']. apply (IHHr xs' Hx'); [exact (one_flush_run _ _ H1 H)|exact (flush_inv_run _ _ _ _ Hx H1 HF H)].
Qed.

(** ** Two flushes *)

(** Thread [j] waits in [flush], and nobody is left in the cache who could signal. *)
Definition lost (n j : nat) (s : state) : Prop :=
  inv n s [] /\ threads s !! j = Some FlushWait /\ total in_cache (threads s) = 0 /\ total leaving (threads s) = 0.

Lemma lost_kill n j s : lost n j s -> finals s + Z.of_nat n < 2 ^ 32 ->
  nz (kill_cached_threads (tc s)) = true /\ cached_thread_count (tc s) = 0.
Proof.
  intros (HI & Hj & Hc & _) Hn. pose proof (total_in flushing _ _ _ ltac:(by intros []) Hj) as H. cbn in H.
  pose proof (total_upper flushing 1 (threads s) ltac:(by intros [])). rewrite (i_length _ _ _ HI) in *.
  pose proof (i_finals _ _ _ HI). split; [|rewrite (i_count _ _ _ HI), Hc; done].
  rewrite (i_kill _ _ _ HI), wrapU_small by (unfold in_u; lia). apply nz_true. lia.
Qed.

Lemma in_cache_none ts i p : total in_cache ts = 0 -> ts !! i = Some p -> in_cache p = 0.
Proof.
  intros H Hi. pose proof (total_in in_cache _ _ _ ltac:(by intros []) Hi).
  assert (0 <= in_cache p) by (by destruct p). lia.
Qed.

(** Another thread moves, and neither enters the cache nor leaves it. *)
Lemma lost_moved n j s i p q c enq srv fin : lost n j s -> threads s !! i = Some p -> p <> FlushWait ->
  in_cache q = 0 -> leaving q = 0 -> inv n (State c (<[i := q]> (threads s)) enq srv fin) [] ->
  lost n j (State c (<[i := q]> (threads s)) enq srv fin).
Proof.
  intros (HI & Hj & Hc & Hl) Hi Hp Hq1 Hq2 HI'. split; [done|]. cbn [threads].
  pose proof (in_cache_none _ _ _ Hc Hi) as P1. pose proof (total_in leaving _ _ _ leaving_nonneg Hi).
  pose proof (leaving_nonneg p). totals. split; [|lia]. rewrite list_lookup_insert_ne; [done|congruence].
Qed.

Lemma lost_run n j s s' : lost n j s -> finals s + Z.of_nat n < 2 ^ 32 -> run_step s s' -> lost n j s'.
Proof.
  intros HL Hn Hs. destruct (lost_kill n j s HL Hn) as [Hk Hc0]. pose proof HL as (HI & Hj & Hc & Hl).
  destruct Hs as [i o c Hi E|i t o c Hi E|i k fl ts Hi E|i k b c Hi E|i ts Hi E|i w c Hi E|i w c Hi E|i Hi].
  - pose proof (inv_park_enter _ _ _ _ _ _ HI Hi E) as [HI' _].
    destruct (park_enter_run (tc s) [] (i_holds _ _ _ HI)) as (q & _ & E'). rewrite E', Hk, andb_false_r in E.
    injection E as <- <-. by eapply lost_moved.
  - by apply (in_cache_none _ _ _ Hc) in Hi.
  - pose proof (inv_park_leave _ _ _ _ _ _ _ HI Hi E). destruct fl; [|subst ts; by eapply lost_moved].
    pose proof (total_in leaving _ _ _ leaving_nonneg Hi) as H0. cbn in H0. lia.
  - pose proof (inv_enqueue _ _ _ _ _ _ _ HI Hi E) as HI'. unfold enqueue in E. rewrite Hc0 in E.
    injection E as <- <-. by eapply lost_moved.
  - pose proof (inv_enq_signal _ _ _ _ _ HI Hi E). apply signal_total in E as [_ [Ht|[_ ->]]]; [|by eapply lost_moved].
    pose proof (Ht waiting) as Hw. revert Hw. totals. cbn. pose proof (in_cache_split (threads s)).
    pose proof (total_nonneg waiting ts ltac:(by intros [])).
    pose proof (total_nonneg awake (threads s) ltac:(by intros [])). lia.
  - pose proof (inv_flush _ _ _ _ _ _ HI Hi E). unfold flush, flush_loop in E. cbn in E. rewrite Hc0 in E.
    injection E as <- <-. by eapply lost_moved.
  - assert (kill_cached_threads (tc s) = u32 (total flushing (threads s) - flushing FlushWoken + 1 + finals s)) as E'
      by (rewrite (i_kill _ _ _ HI); f_equal; cbn; lia).
    pose proof (inv_flush_loop _ _ _ _ _ (tc s) _ _ HI Hi (or_intror eq_refl) eq_refl eq_refl E' E).
    unfold flush_loop in E. rewrite Hc0 in E. injection E as <- <-. by eapply lost_moved.
  - pose proof (inv_final_flush _ _ _ _ HI Hi). by eapply lost_moved.
Qed.

Lemma lost_call n j s s' : lost n j s -> call_step s s' -> lost n j s'.
Proof.
  intros HL Hs. pose proof HL as (HI & _ & Hc & _). pose proof (inv_call _ _ _ _ HI Hs).
  destruct Hs; try (by eapply lost_moved). by apply (in_cache_none _ _ _ Hc) in H0.
Qed.

Lemma finals_step s s' : step s s' -> finals s <= finals s'.
Proof. intros [[]|[]]; cbn; lia. Qed.
Lemma finals_steps s s' : rtc step s s' -> finals s <= finals s'.
Proof. induction 1 as [|? ? ? H%finals_step]; lia. Qed.

Lemma lost_forever n j s s' : lost n j s -> rtc step s s' -> finals s' + Z.of_nat n < 2 ^ 32 -> lost n j s'.
Proof.
  intros HL Hr Hf. induction Hr as [|s1 s2 s3 Hs Hr IH]; [done|]. apply IH; [|done].
  pose proof (finals_step _ _ Hs). pose proof (finals_steps _ _ Hr).
  destruct Hs; [eapply lost_run; [done|lia|done]|by eapply lost_call].
Qed.

Lemma reach_run n s s' : reachable n s -> run_step s s' -> reachable n s'.
Proof. intros (s0 & H0 & Hr) Hs. exists s0. split; [done|]. eapply rtc_r; [done|]. by left; left. Qed.
Lemma reach_call n s s' : reachable n s -> call_step s s' -> reachable n s'.
Proof. intros (s0 & H0 & Hr) Hs. exists s0. split; [done|]. eapply rtc_r; [done|]. by left; right. Qed.
Lemma started_reachable n (q0 : clist) : exists q, cl_holds q [] /\ reachable n (State (Cache q 0 0) (replicate n Idle) [] [] 0).
Proof.
  destruct (law_empty q0) as (q & E & Hq). exists q. split; [done|]. eexists. split; [|apply rtc_refl].
  exists q0, (Cache q 0 0). unfold init. by rewrite E.
Qed.

(** One thread parks, two flush; the parked one leaves and wakes the first flush. *)
Lemma two_flushes_run (q0 : clist) : 1 <= thread_cache_size ->
  exists s, reachable 3 s /\ threads s = [Idle; Idle; FlushWait] /\ finals s = 0.
Proof.
  intros Hsize. destruct (started_reachable 3 q0) as (q & Hq & R).
  eapply reach_call in R; [|by apply (call_park _ 0)].
  destruct (park_enter_run (Cache q 0 0) [] Hq) as (q1 & Hq1 & E). cbn in E.
  rewrite (proj2 (Z.ltb_lt 0 thread_cache_size)) in E by lia. cbn in E. rewrite to_ulong_1 in E.
  eapply reach_run in R; [|eapply (run_park_enter _ 0); [reflexivity|exact E]]. clear E.
  eapply reach_call in R; [|by apply (call_flush _ 1)].
  eapply reach_run in R; [|by apply (run_flush _ 1 true)].
  eapply reach_call in R; [|by apply (call_flush _ 2)].
  eapply reach_run in R; [|by apply (run_flush _ 2 true)].
  destruct (park_wake_run false (Cache q1 1 2) [] Hq1) as (q2 & _ & E). cbn in E. rewrite to_ulong_0 in E.
  eapply reach_run in R; [|eapply (run_park_wake _ 0 false); [reflexivity|exact E]]. clear E.
  assert (signal FlushWait FlushWoken [Idle; FlushWait; FlushWait] [Idle; FlushWoken; FlushWait]) as Hs
    by (left; by exists 1%nat).
  eapply reach_run in R; [|eapply (run_park_leave _ 0 None true); [reflexivity|exact Hs]].
  eapply reach_run in R; [|by apply (run_flush_loop _ 1 false)].
  eexists. split; [exact R|]. split; reflexivity.
Qed.

(** ** The properties *)

(** C15 : The state of the thread cache in every interleaving, spurious wakeups and
    timeouts included.  The parked threads are the cached ones and one for each
    queued connection, so the count never underflows, and they never exceed
    [thread_cache_size]; connections are handed to parked threads in the order in
    which they were enqueued, each once and none lost; for every queued connection
    a parked thread is awake or about to be signalled; and once no thread is parked
    the assertions of [destroy] hold. *)
Theorem thread_cache_invariant n s : reachable n s ->
  exists xs, cl_holds (list_ (tc s)) xs /\ enqueued s = served s ++ xs /\ NoDup (enqueued s) /\
    total in_cache (threads s) = cached_thread_count (tc s) + Z.of_nat (length xs) /\
    0 <= cached_thread_count (tc s) /\ total in_cache (threads s) <= thread_cache_size /\
    Z.of_nat (length xs) <= total awake (threads s) + total signalling (threads s) /\
    (total in_cache (threads s) = 0 -> destroy (tc s) = Some tt).
Proof.
  intros [xs HI]%inv_reachable. exists xs. pose proof (law_is_empty _ _ (i_holds _ _ _ HI)) as He. destruct HI.
  split_and!; try done; [lia|]. intros H0. unfold destroy.
  assert (cached_thread_count (tc s) = 0) as -> by lia. rewrite He. destruct xs; [done|cbn in *; lia].
Qed.

(** C16 : No connection and no single flush is left waiting.  From every reachable
    state the awake threads can only take finitely many steps, and where none of them
    can go on, whatever the order, no connection is queued: each one for which
    [enqueue] returned true has been returned by [park], and every thread is outside
    or waits.  If there never were two flushes at a time, then [flush] has returned
    as well and only [park] waits. *)
Theorem thread_cache_progress n s : reachable n s ->
  Acc (fun a b => run_step b a) s /\
  forall s', rtc run_step s s' -> (forall s'', ~ run_step s' s'') ->
    Forall resting (threads s') /\ enqueued s' = served s' /\ cl_is_empty (list_ (tc s')) = true /\
    (reachable_with one_flush n s -> Forall (fun p => p = Idle \/ p = ParkWait) (threads s')).
Proof.
  intros [xs HI]%inv_reachable. split; [apply run_terminates|]. intros s' Hr Hq.
  destruct (run_reaches _ _ _ _ HI Hr) as [xs' HI']. destruct (quiet _ _ _ HI' Hq) as [Hrest ->].
  split; [done|]. split; [rewrite (i_fifo _ _ _ HI'); apply app_nil_r|].
  split; [by rewrite (law_is_empty _ _ (i_holds _ _ _ HI'))|]. intros [H1 HF]%flush_reachable.
  pose proof (run_flushes _ _ _ _ HI H1 HF Hr) as HF'. rewrite Forall_forall in Hrest.
  apply Forall_forall. intros p Hp. destruct (Hrest p Hp) as [-> |[-> |Hw]]; [by left|by right|]. subst p.
  apply list_elem_of_lookup in Hp as [i Hi]. pose proof (total_in flush_wait _ _ _ ltac:(by intros []) Hi) as Hpos.
  cbn in Hpos. destruct HF' as [Hw Hsome]; [lia|]. rewrite in_cache_split, Hw in Hsome.
  rewrite !(total_zero _ (threads s')) in Hsome by (intros p Hp; by destruct (Hrest p Hp) as [-> |[-> | ->]]). lia.
Qed.

(** Two flushes at a time can lose a wakeup.  One thread is parked and two
    threads call [flush], each of which broadcasts and waits; the parked thread
    leaves, and its [mysql_cond_signal] wakes one of the two.  The other then waits
    although nothing is cached, and it does so forever: whatever operations are
    called afterwards (and short of 2^32 calls of [final_flush]), only a spurious
    wakeup ends its wait. *)
Lemma thread_cache_two_flushes (q0 : clist) : 1 <= thread_cache_size ->
  exists s, reachable 3 s /\ threads s = [Idle; Idle; FlushWait] /\ cached_thread_count (tc s) = 0 /\
    forall s', rtc step s s' -> finals s' + 3 < 2 ^ 32 -> threads s' !! 2%nat = Some FlushWait.
Proof.
  intros Hsize. destruct (two_flushes_run q0 Hsize) as (s & Hr & Ht & Hf).
  destruct (inv_reachable _ _ Hr) as [xs HI]. exists s.
  pose proof (i_count _ _ _ HI) as Hc. pose proof (i_count_nonneg _ _ _ HI) as Hc0.
  rewrite Ht in Hc. cbn in Hc. assert (xs = []) as -> by (destruct xs; [done|cbn in *; lia]).
  split; [done|]. split; [done|]. split; [cbn in Hc; lia|]. intros s' Hs Hn.
  apply (lost_forever 3 2 s s'); [|done|lia]. split; [done|]. by rewrite Ht.
Qed.

End ThreadCache.

(** ** The list is an [I_List] *)

#[export] Instance I_List : ConnectList := {|
  clist := ILink.store;
  cl_empty q := snd <$> ILink.empty 0 q;
  cl_push_back k q := snd <$> ILink.push_back 0 (ILink.Elt k) q;
  cl_get q :=
    match ILink.get 0 q with
    | Some (None, q') => Some (None, q')
    | Some (Some (ILink.Elt k), q') => Some (Some k, q')
    | _ => None
    end;
  cl_is_empty q := match ILink.is_empty 0 q with Some (b, _) => b | None => false end;
  cl_holds q xs := ILink.holds q 0 xs
|}.

#[export] Instance I_List_laws : ConnectListLaws I_List.
Proof.
  split; cbn [cl_empty cl_push_back cl_get cl_is_empty cl_holds I_List].
  - intros q. eexists. split; [reflexivity|]. split; [|apply NoDup_nil_2].
    constructor; [|constructor]. split; cbn; [by rewrite upd_eq|by rewrite upd_eq].
  - intros q xs k Hh Hk. destruct (ILink.ik_push_back_run q 0 xs k Hh Hk) as (q' & E & Hh'). rewrite E. by exists q'.
  - intros q xs Hh. destruct (ILink.get_run q 0 xs Hh) as (q' & E & Hh'). rewrite E. exists q'.
    split; [|done]. by destruct xs.
  - intros q xs Hh. unfold ILink.is_empty, st_gets. cbn. rewrite (ILink.first_of _ _ _ Hh). destruct xs; cbn.
    + by rewrite !bool_decide_true.
    + by rewrite !bool_decide_false.
Qed.

(** ** At concrete sizes, on Windows *)

#[local] Existing Instance llp64.

Lemma eight_threads {U : Ulong} : in_u ulong_bits 8.
Proof. unfold in_u. destruct ulong_bits_cases as [-> | ->]; lia. Qed.

(** One thread is parked, and another has enqueued connection 7. *)
Lemma one_connection : exists s, reachable (L := I_List) 8 2 s /\ threads s = [ParkWait; EnqSignal] /\ enqueued s = [7%nat].
Proof.
  destruct (started_reachable (L := I_List) 8 2 ILink.empty_store) as (q & Hq & R).
  eapply reach_call in R; [|by apply (call_park _ 0)].
  destruct (park_enter_run 8 (Cache q 0 0) [] Hq) as (q1 & Hq1 & E). cbn in E.
  eapply reach_run in R; [|eapply (run_park_enter _ _ 0); [reflexivity|exact E]]. clear E.
  eapply reach_call in R; [|apply (call_enqueue _ 1 7); [reflexivity|split; set_solver]].
  destruct (enqueue_run 7 (Cache q1 1 0) [] Hq1 ltac:(set_solver)) as (b & c & E & -> & _).
  eapply reach_run in R; [|eapply (run_enqueue _ _ 1 7 true); [reflexivity|exact E]].
  eexists. split; [exact R|]. split; reflexivity.
Qed.

Lemma thread_cache_invariant_witness :
  exists s xs, reachable (L := I_List) 8 2 s /\ enqueued s = [7%nat] /\ cl_holds (list_ (tc s)) xs /\ enqueued s = served s ++ xs.
Proof.
  destruct one_connection as (s & R & _ & He).
  destruct (thread_cache_invariant (L := I_List) 8 eight_threads 2 s R) as (xs & H1 & H2 & _).
  exists s, xs. split; [exact R|]. split; [exact He|]. split; [exact H1|exact H2].
Defined.

Lemma thread_cache_progress_witness :
  exists s : @state I_List, threads s = [ParkWait; EnqSignal] /\
    forall s', rtc (run_step 8) s s' -> (forall s'', ~ run_step 8 s' s'') -> enqueued s' = served s'.
Proof.
  destruct one_connection as (s & R & Ht & _). exists s. split; [exact Ht|]. intros s' Hr Hq.
  destruct (thread_cache_progress (L := I_List) 8 eight_threads 2 s R) as [_ H]. apply (H s' Hr Hq).
Defined.
