(* ===== verification/TranxAlloc.v ===== *)
(** The node allocator of the semi-synchronous master, [Tranx_node_allocator] of
    [mariadb/include/mysql/server/private/semisync_master.h].

    Blocks of sixteen nodes form a linked table in a heap of the C library: an
    address is an integer, 0 is the null pointer, and reading or writing outside of
    an allocated block gives [None].  Offsets and sizes are those of the 64-bit
    platform that the repository ships. *)

From S2P Require Import Prelude.

Open Scope st_scope.

Definition FN_REFLEN : Z := 512.
Definition BLOCK_TRANX_NODES : Z := 16.

(** The first character of [log_name] stands for it; [thd], [next] and [hash_next]
    are pointers. *)
Record Tranx_node := TranxNode {
  log_name : Z;
  log_pos : Z;
  thd : Z;
  next : Z;
  hash_next : Z
}.

Record Block := MkBlock {
  block_next : Z;
  nodes : list Tranx_node
}.

Definition sizeof_node : Z := FN_REFLEN + 4 * 8.
Definition sizeof_Block : Z := 8 + BLOCK_TRANX_NODES * sizeof_node.
(** [&(block->nodes[i])] *)
Definition node_addr (block i : Z) : Z := block + 8 + i * sizeof_node.

Abbreviation heap := (gmap Z Block).

(** [my_malloc] of one block: a block that overlaps no other, with any contents, or
    null. *)
Class BlockAlloc := {
  my_malloc : heap -> Z;
  garbage : heap -> list Tranx_node
}.
Class BlockAllocLaws (A : BlockAlloc) : Prop := {
  malloc_law h : my_malloc h = 0 \/
    (0 < my_malloc h /\ forall b, b ∈ dom h -> my_malloc h + sizeof_Block <= b \/ b + sizeof_Block <= my_malloc h);
  garbage_law h : length (garbage h) = 16%nat
}.

Record allocator := Allocator {
  blocks : heap;
  reserved_blocks : Z;
  first_block : Z;
  last_block : Z;
  current_block : Z;
  last_node : Z;
  block_num : Z
}.
Abbreviation M := (ST allocator).

Definition set_blocks (h : heap) (a : allocator) : allocator :=
  Allocator h (reserved_blocks a) (first_block a) (last_block a) (current_block a) (last_node a) (block_num a).
Definition set_first (p : Z) (a : allocator) : allocator :=
  Allocator (blocks a) (reserved_blocks a) p (last_block a) (current_block a) (last_node a) (block_num a).
Definition set_last (p : Z) (a : allocator) : allocator :=
  Allocator (blocks a) (reserved_blocks a) (first_block a) p (current_block a) (last_node a) (block_num a).
Definition set_current (p : Z) (a : allocator) : allocator :=
  Allocator (blocks a) (reserved_blocks a) (first_block a) (last_block a) p (last_node a) (block_num a).
Definition set_last_node (n : Z) (a : allocator) : allocator :=
  Allocator (blocks a) (reserved_blocks a) (first_block a) (last_block a) (current_block a) n (block_num a).
Definition set_block_num (n : Z) (a : allocator) : allocator :=
  Allocator (blocks a) (reserved_blocks a) (first_block a) (last_block a) (current_block a) (last_node a) n.

(** [block->next] and [block->next= p] *)
Definition get_next (block : Z) : M Z :=
  let* h := st_gets blocks in
  let* b := st_opt (h !! block) in
  st_ret (block_next b).
Definition set_next (block p : Z) : M unit :=
  let* h := st_gets blocks in
  let* b := st_opt (h !! block) in
  st_modify (set_blocks (<[block := MkBlock p (nodes b)]> h)).

(** The node [i] of a block as [allocate_node] initialises it. *)
Definition reset_node (block i : Z) : M unit :=
  let* h := st_gets blocks in
  let* b := st_opt (h !! block) in
  let* n := st_opt (nodes b !! Z.to_nat i) in
  st_modify (set_blocks
    (<[block := MkBlock (block_next b) (<[Z.to_nat i := TranxNode 0 0 (thd n) 0 0]> (nodes b))]> h)).

(** The constructor; the arithmetic is that of [uint]. *)
Definition Tranx_node_allocator (reserved_nodes : Z) : allocator :=
  Allocator ∅ (u32 (reserved_nodes / BLOCK_TRANX_NODES + if 1 <? reserved_nodes mod BLOCK_TRANX_NODES then 2 else 1))
    0 0 0 (-1) 0.

Definition free_block (block : Z) : M unit :=
  let* h := st_gets blocks in
  let* b := st_opt (h !! block) in
  st_modify (set_blocks (delete block h));;;
  let* n := st_gets block_num in
  st_modify (set_block_num (u32 (n - 1))).

(** The destructor. *)
Fixpoint destroy_loop (fuel : nat) (block : Z) : M unit :=
  match fuel with
  | O => st_fail
  | S fuel =>
      if block =? 0 then st_ret tt
      else
        let* next := get_next block in
        free_block block;;;
        destroy_loop fuel next
  end.
Definition destroy (fuel : nat) : M unit :=
  let* block := st_gets first_block in
  destroy_loop fuel block.

(** The loop of [free_blocks]: the result is the final [block]. *)
Fixpoint free_loop (fuel : nat) (block : Z) : M Z :=
  match fuel with
  | O => st_fail
  | S fuel =>
      let* n := st_gets block_num in
      let* r := st_gets reserved_blocks in
      if (r <? n) && negb (block =? 0) then
        let* next := get_next block in
        free_block block;;;
        free_loop fuel next
      else st_ret block
  end.
Definition free_blocks (fuel : nat) : M unit :=
  let* c := st_gets current_block in
  if c =? 0 then st_ret tt
  else
    let* kept := get_next c in
    if kept =? 0 then st_ret tt
    else
      let* block := get_next kept in
      let* block := free_loop fuel block in
      set_next kept block;;;
      if block =? 0 then st_modify (set_last kept) else st_ret tt.

Section Allocate.
Context `{BlockAlloc}.

(** 0 when a block was allocated. *)
Definition allocate_block : M Z :=
  let* h := st_gets blocks in
  let block := my_malloc h in
  if block =? 0 then st_ret 1
  else
    st_modify (set_blocks (<[block := MkBlock 0 (garbage h)]> h));;;
    let* first := st_gets first_block in
    (if first =? 0 then st_modify (set_first block)
     else let* last := st_gets last_block in set_next last block);;;
    st_modify (set_last block);;;
    st_modify (set_current block);;;
    let* n := st_gets block_num in
    st_modify (set_block_num (u32 (n + 1)));;;
    st_ret 0.

(** The node after [last_node] in the current block. *)
Definition take_node : M Z :=
  let* n := st_gets last_node in
  st_modify (set_last_node (n + 1));;;
  let* current := st_gets current_block in
  reset_node current (n + 1);;;
  st_ret (node_addr current (n + 1)).

(** The address of the node, or null. *)
Definition allocate_node : M Z :=
  let* block := st_gets current_block in
  let* n := st_gets last_node in
  (if n =? BLOCK_TRANX_NODES - 1 then
     let* next := get_next block in
     st_modify (set_current next);;;
     st_modify (set_last_node (-1))
   else st_ret tt);;;
  let* current := st_gets current_block in
  let* failed := (if current =? 0 then let* e := allocate_block in st_ret (nz e) else st_ret false) in
  if failed : bool then
    st_modify (set_current block);;;
    (if nz block then st_modify (set_last_node (BLOCK_TRANX_NODES - 1)) else st_ret tt);;;
    st_ret 0
  else take_node.
End Allocate.

Definition free_all_nodes (fuel : nat) : M Z :=
  let* first := st_gets first_block in
  st_modify (set_current first);;;
  st_modify (set_last_node (-1));;;
  free_blocks fuel;;;
  st_ret 0.

(** All blocks before the one that was found are put into the rear. *)
Definition put_rear (fuel : nat) (block prev_block : Z) : M unit :=
  let* first := st_gets first_block in
  if first =? block then st_ret tt
  else
    let* last := st_gets last_block in
    set_next last first;;;
    st_modify (set_first block);;;
    st_modify (set_last prev_block);;;
    set_next prev_block 0;;;
    free_blocks fuel.

(** The end of the loop without the node fails the assertion. *)
Fixpoint find_loop (fuel fuel_free : nat) (node block prev_block : Z) : M Z :=
  match fuel with
  | O => st_fail
  | S fuel =>
      let* c := st_gets current_block in
      let* after := get_next c in
      if block =? after then st_fail
      else if (node_addr block 0 <=? node) && (node <=? node_addr block BLOCK_TRANX_NODES) then
        put_rear fuel_free block prev_block;;;
        st_ret 0
      else
        let* next := get_next block in
        find_loop fuel fuel_free node next block
  end.
Definition free_nodes_before (fuel : nat) (node : Z) : M Z :=
  let* first := st_gets first_block in
  find_loop fuel fuel node first 0.

(** ** The table of blocks

    [links h xs e]: the blocks [xs] are allocated and linked in this order, and the
    last one points to [e]. *)

Definition whole (b : Block) : Prop := length (nodes b) = 16%nat.
Fixpoint links (h : heap) (xs : list Z) (e : Z) : Prop :=
  match xs with
  | [] => True
  | x :: xs => (exists b, h !! x = Some b /\ whole b /\ block_next b = hd e xs) /\ links h xs e
  end.

Lemma links_app h xs ys e : links h (xs ++ ys) e <-> links h xs (hd e ys) /\ links h ys e.
Proof.
  induction xs as [|x xs IH]; cbn; [tauto|]. rewrite IH. destruct xs; cbn; [|tauto]. destruct ys; cbn; tauto.
Qed.
Lemma links_frame h h' xs e : (forall x, x ∈ xs -> h' !! x = h !! x) -> links h xs e -> links h' xs e.
Proof.
  induction xs as [|x xs IH]; cbn; [done|]. intros Hf [(b & Hb & Hw) Hl]. split.
  - exists b. split; [rewrite Hf by set_solver; done|done].
  - apply IH; [|done]. intros y Hy. apply Hf. set_solver.
Qed.
Lemma links_in h xs e x : links h xs e -> x ∈ xs -> exists b, h !! x = Some b /\ whole b.
Proof.
  induction xs as [|y xs IH]; cbn; [set_solver|]. intros [(b & Hb & Hw & _) Hl] [->|Hx]%elem_of_cons; [by exists b|by apply IH].
Qed.
(** The next block of [x]. *)
Lemma links_at h xs x ys e : links h (xs ++ x :: ys) e ->
  exists b, h !! x = Some b /\ whole b /\ block_next b = hd e ys.
Proof. by intros [_ [? _]]%links_app. Qed.

(** Writing the last pointer. *)
Lemma links_snoc h xs x b e : links h (xs ++ [x]) e -> NoDup (xs ++ [x]) -> h !! x = Some b ->
  forall e', links (<[x := MkBlock e' (nodes b)]> h) (xs ++ [x]) e'.
Proof.
  intros Hl [Hnd Hx]%NoDup_snoc Hb e'. apply links_app in Hl as [H1 [(b' & Hb' & Hw & _) _]].
  apply links_app. split.
  - apply (links_frame h); [|exact H1]. intros y Hy. rewrite lookup_insert_ne; [done|]. intros ->. done.
  - split; [|done]. exists (MkBlock e' (nodes b)). rewrite lookup_insert_eq. rewrite Hb in Hb'. injection Hb' as <-. done.
Qed.

(** Blocks do not overlap. *)
Definition apart (xs : list Z) : Prop :=
  forall x y, x ∈ xs -> y ∈ xs -> x = y \/ x + sizeof_Block <= y \/ y + sizeof_Block <= x.

(** [first], [last] and [block_num] of an allocator whose table is [xs]. *)
Record table (a : allocator) (xs : list Z) : Prop := Table {
  t_links : links (blocks a) xs 0;
  t_dom x : x ∈ xs <-> is_Some (blocks a !! x);
  t_nodup : NoDup xs;
  t_pos : Forall (fun x => 0 < x) xs;
  t_apart : apart xs;
  t_first : first_block a = hd 0 xs;
  t_last : last_block a = default 0 (last xs);
  t_num : block_num a = Z.of_nat (length xs);
  t_num_range : Z.of_nat (length xs) < 2 ^ 32
}.

(** The blocks before the current one are in use, those after it are free. *)
Inductive shape := Empty | At (pre : list Z) (cur : Z) (post : list Z).
Definition blocks_of (sh : shape) : list Z := match sh with Empty => [] | At pre cur post => pre ++ cur :: post end.
Record rep (a : allocator) (sh : shape) : Prop := Rep {
  r_table : table a (blocks_of sh);
  r_current : current_block a = match sh with Empty => 0 | At _ cur _ => cur end;
  r_last_node : match sh with Empty => last_node a = -1 | _ => -1 <= last_node a <= 15 end
}.

(** The addresses of the nodes handed out since the first block of the table. *)
Definition block_slots (x : Z) (n : Z) : list Z := node_addr x <$> seqZ 0 n.
Definition slots (sh : shape) (n : Z) : list Z :=
  match sh with
  | Empty => []
  | At pre cur post => concat ((fun x => block_slots x BLOCK_TRANX_NODES) <$> pre) ++ block_slots cur (n + 1)
  end.

(** The nodes [Q] are handed out, in this order, and every other slot of the blocks
    is free for later allocations. *)
Definition holds (a : allocator) (Q : list Z) : Prop := exists sh, rep a sh /\ slots sh (last_node a) = Q.

(** What is stored in the node at address [n]. *)
Definition stored (a : allocator) (n : Z) (v : Tranx_node) : Prop :=
  exists x i b, n = node_addr x (Z.of_nat i) /\ blocks a !! x = Some b /\ nodes b !! i = Some v.

Lemma elem_of_block_slots x n m : m ∈ block_slots x n <-> exists i, 0 <= i < n /\ m = node_addr x i.
Proof.
  unfold block_slots. rewrite list_elem_of_fmap. split.
  - intros (i & -> & Hi%elem_of_seqZ). exists i. split; [lia|done].
  - intros (i & Hi & ->). exists i. rewrite elem_of_seqZ. split; [done|lia].
Qed.

Lemma elem_of_slots pre cur post n m : -1 <= n <= 15 -> m ∈ slots (At pre cur post) n ->
  exists x i, x ∈ pre ++ [cur] /\ 0 <= i < 16 /\ m = node_addr x i /\ (x = cur -> i <= n \/ cur ∈ pre).
Proof.
  intros Hn [Hm|Hm]%elem_of_app.
  - apply list_elem_of_In, in_concat in Hm as (l & Hl & Hm). apply list_elem_of_In in Hl, Hm.
    apply list_elem_of_fmap in Hl as (x & -> & Hx). apply elem_of_block_slots in Hm as (i & Hi & ->).
    exists x, i. split; [set_solver|]. split; [done|]. split; [done|]. intros ->. by right.
  - apply elem_of_block_slots in Hm as (i & Hi & ->). exists cur, i. split; [set_solver|]. split; [lia|].
    split; [done|]. intros _. left. lia.
Qed.

Lemma node_addr_inj xs x y i j : apart xs -> x ∈ xs -> y ∈ xs -> 0 <= i < 16 -> 0 <= j < 16 ->
  node_addr x i = node_addr y j -> x = y /\ i = j.
Proof.
  intros Ha Hx Hy Hi Hj. unfold node_addr, sizeof_node, FN_REFLEN. intros E.
  destruct (Ha x y Hx Hy) as [->|[H|H]]; unfold sizeof_Block, sizeof_node, BLOCK_TRANX_NODES, FN_REFLEN in *; [split; [done|lia]|lia|lia].
Qed.

(** ** Steps *)

Lemma block_next_run a x b : blocks a !! x = Some b -> get_next x a = Some (block_next b, a).
Proof. intros E. unfold get_next, st_bind, st_gets. by rewrite E. Qed.
Lemma set_block_next_run a x p b : blocks a !! x = Some b ->
  set_next x p a = Some (tt, set_blocks (<[x := MkBlock p (nodes b)]> (blocks a)) a).
Proof. intros E. unfold set_next, st_bind, st_gets. by rewrite E. Qed.
Lemma free_block_run a x b : blocks a !! x = Some b ->
  free_block x a = Some (tt, set_block_num (u32 (block_num a - 1)) (set_blocks (delete x (blocks a)) a)).
Proof. intros E. unfold free_block, st_bind, st_gets. by rewrite E. Qed.

Definition nodes_of (a : allocator) (x : Z) : option (list Tranx_node) := nodes <$> blocks a !! x.

Definition used (sh : shape) : list Z := match sh with Empty => [] | At pre cur _ => pre ++ [cur] end.

(** The nodes in use keep their contents when their blocks do. *)
Lemma stored_same a a' xs sh m n v : table a xs -> n ∈ slots sh m -> -1 <= m <= 15 ->
  (forall x, x ∈ used sh -> x ∈ xs /\ nodes_of a' x = nodes_of a x) -> stored a n v -> stored a' n v.
Proof.
  intros HT Hn Hm Hsame (x & i & b & -> & Hb & Hv). destruct sh as [|pre cur post]; [by apply elem_of_nil in Hn|].
  apply elem_of_slots in Hn as (y & j & Hy & Hj & E & _); [|done]. destruct (Hsame y Hy) as [Hyx Hs].
  assert (x ∈ xs) as Hx by (apply (t_dom _ _ HT); by exists b).
  destruct (links_in _ _ _ _ (t_links _ _ HT) Hx) as (b' & Hb' & Hw). rewrite Hb in Hb'. injection Hb' as <-.
  pose proof (lookup_lt_Some _ _ _ Hv) as Hi. rewrite Hw in Hi.
  destruct (node_addr_inj xs x y (Z.of_nat i) j (t_apart _ _ HT) Hx Hyx ltac:(lia) Hj E) as [<- _].
  unfold nodes_of in Hs. rewrite Hb in Hs. destruct (blocks a' !! x) as [b2|] eqn:Hb2; [|done]. injection Hs as Hs.
  exists x, i, b2. split; [done|]. split; [done|]. by rewrite Hs.
Qed.

(** The loop frees blocks from the front while there are more than the reserve. *)
Lemma free_loop_run fuel : forall rest a m,
  links (blocks a) rest 0 -> NoDup rest -> Forall (fun x => 0 < x) rest ->
  block_num a = m + Z.of_nat (length rest) -> 0 <= m -> block_num a < 2 ^ 32 -> (length rest < fuel)%nat ->
  exists gone kept a', rest = gone ++ kept /\ free_loop fuel (hd 0 rest) a = Some (hd 0 kept, a') /\
    a' = set_block_num (block_num a - Z.of_nat (length gone)) (set_blocks (blocks a') a) /\
    (forall x, blocks a' !! x = if decide (x ∈ gone) then None else blocks a !! x) /\
    (kept = [] \/ block_num a' <= reserved_blocks a) /\ Z.min (block_num a) (reserved_blocks a) <= block_num a'.
Proof.
  induction fuel as [|fuel IH]; intros rest a m Hl Hnd Hpos Hnum Hm Hr Hf; [lia|].
  cbn [free_loop]. unfold st_bind, st_gets. destruct (Z.ltb_spec (reserved_blocks a) (block_num a)) as [Hlt|Hge].
  - destruct rest as [|x rest].
    + exists [], [], a. cbn. split; [done|]. split; [done|]. split; [destruct a; cbn; by rewrite Z.sub_0_r|].
      split; [done|]. split; [by left|lia].
    + cbn [hd links length] in *. destruct Hl as [(b & Hb & Hw & Hn) Hl]. apply NoDup_cons in Hnd as [Hx Hnd].
      apply Forall_cons in Hpos as [Hx0 Hpos]. rewrite (proj2 (Z.eqb_neq x 0)) by lia. cbn [negb andb].
      rewrite (block_next_run _ _ _ Hb), (free_block_run _ _ _ Hb), Hn, (wrapU_small 32) by (unfold in_u; lia).
      set (a1 := set_block_num _ _).
      destruct (IH rest a1 m) as (gone & kept & a' & -> & E & Ha & Hd & Hk & Hres); try done; try (cbn; lia).
      { apply (links_frame (blocks a)); [|done]. intros y Hy. cbn. rewrite lookup_delete_ne; [done|]. by intros ->. }
      exists (x :: gone), kept, a'. split; [done|]. split; [done|].
      split; [rewrite Ha at 1; subst a1; unfold set_block_num, set_blocks; cbn; f_equal; lia|]. subst a1.
      unfold set_block_num, set_blocks in *. cbn in *. split; [|split; [done|lia]].
      intros y. rewrite Hd. destruct (decide (y ∈ gone)) as [Hy|Hy].
      * rewrite decide_True by set_solver. done.
      * destruct (decide (y = x)) as [->|Hne]; [by rewrite lookup_delete_eq, decide_True by set_solver|].
        by rewrite lookup_delete_ne, decide_False by set_solver.
  - exists [], rest, a. cbn. split; [done|]. split; [done|]. split; [destruct a; cbn; by rewrite Z.sub_0_r|].
    split; [done|]. split; [right; lia|lia].
Qed.

Lemma apart_sub xs ys : (forall x, x ∈ ys -> x ∈ xs) -> apart xs -> apart ys.
Proof. intros Hs Ha x y Hx Hy. apply Ha; by apply Hs. Qed.

Lemma last_app_cons {A} (xs : list A) y ys : last (xs ++ y :: ys) = last (y :: ys).
Proof. rewrite last_app. by destruct (last (y :: ys)) eqn:E; [|apply last_None in E]. Qed.

Lemma hd_pos xs : Forall (fun x => 0 < x) xs -> (hd 0 xs =? 0) = match xs with [] => true | _ => false end.
Proof. destruct xs; [done|]. intros [H _]%Forall_cons. cbn. apply Z.eqb_neq. lia. Qed.

(** A table without some of its blocks, after the last pointer before them has been
    redirected. *)
Lemma table_drop a xs y gone kept a1 b : table a (xs ++ y :: gone ++ kept) ->
  (forall x, blocks a1 !! x = if decide (x ∈ gone) then None else blocks a !! x) ->
  blocks a1 !! y = Some b ->
  first_block a1 = first_block a -> block_num a1 = block_num a - Z.of_nat (length gone) ->
  last_block a1 = default 0 (last (y :: kept)) ->
  table (set_blocks (<[y := MkBlock (hd 0 kept) (nodes b)]> (blocks a1)) a1) (xs ++ y :: kept).
Proof.
  intros [] Hd Hb Hf Hn Hlast.
  rewrite (cons_middle y), app_assoc in t_links0, t_nodup0. rewrite app_assoc in t_links0.
  apply links_app in t_links0 as [Hl Hk]. apply links_app in Hl as [Hl _].
  apply NoDup_app in t_nodup0 as (Hnd & Hdis & Hndk). apply NoDup_app in Hndk as (_ & Hgk & Hndk).
  assert (forall x, x ∈ xs ++ [y] -> x ∉ gone ++ kept) as Hdis' by (intros x Hx; by apply Hdis).
  assert (y ∉ gone ++ kept) as Hy by (apply Hdis'; set_solver).
  split; cbn [blocks set_blocks first_block last_block block_num].
  - rewrite (cons_middle y), app_assoc. apply links_app. split.
    + apply (links_snoc (blocks a1) xs y b (hd (hd 0 kept) gone)); try done.
      apply (links_frame (blocks a)); [|].
      * intros x Hx. rewrite Hd, decide_False; [done|]. intros Hg. apply (Hdis' x Hx). set_solver.
      * by destruct gone.
    + apply (links_frame (blocks a)); [|done]. intros x Hx. rewrite lookup_insert_ne by (intros ->; set_solver).
      rewrite Hd, decide_False; [done|]. intros Hg. by apply (Hgk x Hg).
  - intros x. destruct (decide (x = y)) as [->|Hne].
    + rewrite lookup_insert_eq. split; [by eexists|set_solver].
    + rewrite lookup_insert_ne by done. rewrite Hd. specialize (t_dom0 x).
      destruct (decide (x ∈ gone)) as [Hg|Hg].
      * split; [|by intros [? ?]]. intros Hx. exfalso. apply (Hgk x Hg).
        assert (x ∉ xs) by (intros Hxs; apply (Hdis' x); set_solver). set_solver.
      * rewrite <- t_dom0. set_solver.
  - rewrite (cons_middle y), app_assoc. apply NoDup_app. split; [done|]. split; [|done].
    intros x Hx Hk'. apply (Hdis' x Hx). set_solver.
  - rewrite Forall_forall in *. intros x Hx. apply t_pos0. set_solver.
  - eapply apart_sub; [|exact t_apart0]. set_solver.
  - rewrite Hf, t_first0. by destruct xs.
  - rewrite Hlast. by rewrite last_app_cons.
  - rewrite Hn, t_num0. rewrite !length_app. cbn. rewrite !length_app. lia.
  - rewrite !length_app in *. cbn in *. rewrite !length_app in *. lia.
Qed.

Lemma free_blocks_run fuel a pre cur post : rep a (At pre cur post) -> (length post < fuel)%nat ->
  exists post' a', free_blocks fuel a = Some (tt, a') /\ rep a' (At pre cur post') /\
    last_node a' = last_node a /\ reserved_blocks a' = reserved_blocks a /\
    (forall x, x ∈ pre ++ [cur] -> nodes_of a' x = nodes_of a x) /\
    ((length post' <= 1)%nat \/ block_num a' <= reserved_blocks a) /\
    Z.min (block_num a) (reserved_blocks a) <= block_num a'.
Proof.
  intros [HT Hc Hln] Hf. cbn in HT. pose proof (t_links _ _ HT) as Hl. pose proof (t_pos _ _ HT) as Hp.
  apply Forall_app in Hp as [_ [Hcur Hpost]%Forall_cons].
  destruct (links_at _ _ _ _ _ Hl) as (b & Hb & Hw & Hn).
  unfold free_blocks, st_bind, st_gets. rewrite Hc, (proj2 (Z.eqb_neq cur 0)) by lia.
  rewrite (block_next_run _ _ _ Hb), Hn. rewrite (hd_pos _ Hpost). destruct post as [|y rest].
  { exists [], a. split_and!; try done; [left; cbn; lia|lia]. }
  assert (links (blocks a) ((pre ++ [cur]) ++ y :: rest) 0) as Hl' by (by rewrite <- app_assoc).
  destruct (links_at _ _ _ _ _ Hl') as (by_ & Hby & Hwy & Hny). cbn [hd].
  rewrite (block_next_run _ _ _ Hby), Hny. apply Forall_cons in Hpost as [Hy Hrest]. cbn in Hf.
  pose proof (t_nodup _ _ HT) as Hnd. rewrite (cons_middle cur), app_assoc in Hnd.
  apply NoDup_app in Hnd as (Hnd1 & Hdis & [Hyr Hndr]%NoDup_cons).
  pose proof (t_num _ _ HT) as Hnum. pose proof (t_num_range _ _ HT) as Hrange.
  rewrite length_app in Hnum, Hrange. cbn [length] in Hnum, Hrange.
  destruct (free_loop_run fuel rest a (Z.of_nat (length pre + 2))) as (gone & kept & a1 & -> & E & Ha1 & Hd & Hk & Hmin);
    try done; try lia; [apply links_app in Hl' as [_ [_ ?]]; done|].
  rewrite E. assert (blocks a1 !! y = Some by_) as Hb1 by (rewrite Hd, decide_False; [done|set_solver]).
  rewrite (set_block_next_run _ _ _ _ Hb1).
  assert (Forall (fun x => 0 < x) kept) as Hkept by (by apply Forall_app in Hrest as [_ ?]).
  rewrite (hd_pos _ Hkept).
  pose proof (f_equal first_block Ha1) as Ef. pose proof (f_equal block_num Ha1) as En.
  pose proof (f_equal last_block Ha1) as El. pose proof (f_equal current_block Ha1) as Ec.
  pose proof (f_equal last_node Ha1) as Eln. pose proof (f_equal reserved_blocks Ha1) as Er.
  unfold set_block_num, set_blocks in Ef, En, El, Ec, Eln, Er. cbn in Ef, En, El, Ec, Eln, Er.
  assert (exists a2, (if match kept with [] => true | _ => false end then st_modify (set_last y) else st_ret tt)
                       (set_blocks (<[y := MkBlock (hd 0 kept) (nodes by_)]> (blocks a1)) a1) = Some (tt, a2) /\
            a2 = set_blocks (<[y := MkBlock (hd 0 kept) (nodes by_)]> (blocks a1))
                   (set_last (default 0 (last (y :: kept))) a1)) as (a2 & E2 & Ha2).
  { pose proof (t_last _ _ HT) as Hlast. rewrite last_app_cons in Hlast. destruct kept as [|z kept]; [by eexists|].
    assert (last (cur :: y :: gone ++ z :: kept) = last (y :: z :: kept)) as Hz.
    { transitivity (last (z :: kept)); [apply (last_app_cons (cur :: y :: gone) z)|symmetry; apply (last_app_cons [y] z)]. }
    rewrite <- Hz, <- Hlast, <- El. eexists. split; [done|]. by destruct a1. }
  rewrite E2. exists (y :: kept), a2. split; [done|].
  assert (table a2 (pre ++ cur :: y :: kept)) as HT2.
  { replace (pre ++ cur :: y :: kept) with ((pre ++ [cur]) ++ y :: kept) by (by rewrite <- app_assoc). subst a2.
    apply (table_drop a (pre ++ [cur]) y gone kept (set_last (default 0 (last (y :: kept))) a1) by_);
      [by rewrite <- app_assoc|done|done|done|done|done]. }
  subst a2. cbn. split; [split; cbn; [done|by rewrite Ec|by rewrite Eln]|]. split; [done|]. split; [done|].
  split; [|split; [|lia]].
  - intros x Hx. unfold nodes_of. cbn. rewrite lookup_insert_ne, Hd, decide_False; [done|..].
    + intros Hg. apply (Hdis x Hx). set_solver.
    + intros ->. apply (Hdis x Hx). set_solver.
  - destruct Hk as [->|Hk]; [left; cbn; lia|right; lia].
Qed.

(** Only the fields of the table matter. *)
Lemma table_ext a a' xs : table a xs -> blocks a' = blocks a -> first_block a' = first_block a ->
  last_block a' = last_block a -> block_num a' = block_num a -> table a' xs.
Proof. intros [] E1 E2 E3 E4. by split; rewrite ?E1, ?E2, ?E3, ?E4. Qed.

Lemma free_all_run fuel a sh : rep a sh -> (length (blocks_of sh) < fuel)%nat ->
  exists sh' a', free_all_nodes fuel a = Some (0, a') /\ rep a' sh' /\ slots sh' (last_node a') = [] /\
    reserved_blocks a' = reserved_blocks a /\
    match sh' with Empty => True | At pre _ post => pre = [] /\ ((length post <= 1)%nat \/ block_num a' <= reserved_blocks a) end /\
    Z.min (block_num a) (reserved_blocks a) <= block_num a'.
Proof.
  intros [HT Hc Hn] Hf. unfold free_all_nodes, st_bind, st_gets, st_modify.
  pose proof (t_first _ _ HT) as Hfirst. destruct (blocks_of sh) as [|y xs] eqn:Exs.
  - unfold free_blocks, st_bind, st_gets. cbn. rewrite Hfirst. cbn.
    exists Empty. eexists. split; [done|]. split; [split; cbn; [by apply (table_ext a)|done|done]|].
    split_and!; cbn; try done. lia.
  - cbn [hd] in Hfirst. rewrite Hfirst. set (a1 := set_last_node _ _).
    assert (rep a1 (At [] y xs)) as HR by (split; cbn; [by apply (table_ext a)|done|lia]).
    destruct (free_blocks_run fuel a1 [] y xs HR) as (post & a' & E & HR' & Eln & Er & _ & Hb & Hm); [cbn in Hf; lia|].
    rewrite E. exists (At [] y post), a'. split; [done|]. split; [done|]. rewrite Eln. cbn in *. split_and!; try done; lia.
Qed.

(** A node of a block lies outside of the range that the search tests for others. *)
Lemma node_outside xs x y i : apart xs -> x ∈ xs -> y ∈ xs -> 0 <= i < 16 -> x <> y ->
  (node_addr y 0 <=? node_addr x i) && (node_addr x i <=? node_addr y BLOCK_TRANX_NODES) = false.
Proof.
  intros Ha Hx Hy Hi Hne. unfold node_addr, BLOCK_TRANX_NODES, sizeof_node, FN_REFLEN.
  destruct (Ha x y Hx Hy) as [?|[H|H]]; [done|..];
    unfold sizeof_Block, BLOCK_TRANX_NODES, sizeof_node, FN_REFLEN in H; apply andb_false_iff.
  - left. apply Z.leb_gt. lia.
  - right. apply Z.leb_gt. lia.
Qed.
Lemma node_inside x i : 0 <= i < 16 ->
  (node_addr x 0 <=? node_addr x i) && (node_addr x i <=? node_addr x BLOCK_TRANX_NODES) = true.
Proof.
  intros Hi. unfold node_addr, BLOCK_TRANX_NODES, sizeof_node, FN_REFLEN. apply andb_true_iff. rewrite !Z.leb_le. lia.
Qed.

(** The blocks [l ++ [p]] in front move behind the others. *)
Definition rotated (a : allocator) (x first last_ p : Z) (bl bp : Block) : allocator :=
  let h := <[last_ := MkBlock first (nodes bl)]> (blocks a) in
  Allocator (<[p := MkBlock 0 (nodes bp)]> h) (reserved_blocks a) x p (current_block a) (last_node a) (block_num a).

Lemma table_rotate a l p m z bl bp : table a ((l ++ [p]) ++ m ++ [z]) ->
  blocks a !! z = Some bl -> blocks a !! p = Some bp ->
  table (rotated a (hd 0 (m ++ [z])) (hd 0 (l ++ [p])) z p bl bp) ((m ++ [z]) ++ l ++ [p]).
Proof.
  intros [] Hz Hp. apply links_app in t_links0 as [H1 H2]. apply NoDup_app in t_nodup0 as (N1 & N12 & N2).
  assert (z <> p) as Hzp by (intros ->; apply (N12 p); set_solver).
  set (h := <[z := MkBlock (hd 0 (l ++ [p])) (nodes bl)]> (blocks a)).
  assert (h !! p = Some bp) as Hhp by (subst h; by rewrite lookup_insert_ne).
  split; cbn [blocks rotated first_block last_block block_num]; fold h.
  - apply links_app. split.
    + apply (links_frame h); [intros x Hx; apply lookup_insert_ne; intros ->; apply (N12 x); set_solver|].
      by apply (links_snoc (blocks a) m z bl 0).
    + eapply (links_snoc h l p bp); [|done|done].
      apply (links_frame (blocks a)); [|exact H1]. intros x Hx. apply lookup_insert_ne. intros ->.
      apply (N12 x Hx). set_solver.
  - intros x. subst h. rewrite elem_of_app, (comm or), <- elem_of_app, t_dom0.
    destruct (decide (x = p)) as [->|]; [by rewrite lookup_insert_eq, Hp|]. rewrite lookup_insert_ne by done.
    destruct (decide (x = z)) as [->|]; [by rewrite lookup_insert_eq, Hz|]. by rewrite lookup_insert_ne.
  - apply NoDup_app. split; [done|]. split; [|done]. intros x H3 H4. by apply (N12 x).
  - rewrite Forall_forall in *. intros x Hx. apply t_pos0. set_solver.
  - eapply apart_sub; [|exact t_apart0]. set_solver.
  - by destruct m.
  - by rewrite app_assoc, last_snoc.
  - rewrite t_num0, !length_app. lia.
  - rewrite !length_app in *. lia.
Qed.

Lemma find_loop_run fuel ff a pre cur post : rep a (At pre cur post) -> forall l dl x r i,
  pre ++ [cur] = dl ++ l ++ x :: r -> 0 <= i < 16 -> (length l < fuel)%nat ->
  find_loop fuel ff (node_addr x i) (hd 0 (l ++ x :: r)) (default 0 (last dl)) a =
    (put_rear ff x (default 0 (last (dl ++ l)));;; st_ret 0) a.
Proof.
  intros [HT Hc _]. cbn in HT. destruct (links_at _ _ _ _ _ (t_links _ _ HT)) as (b & Hb & _ & Hn).
  pose proof (t_nodup _ _ HT) as Hnd. rewrite (cons_middle cur), app_assoc in Hnd.
  apply NoDup_app in Hnd as (Hnd & Hdis & _).
  assert (forall y, y ∈ pre ++ [cur] -> y =? hd 0 post = false) as Hafter.
  { intros y Hy. apply Z.eqb_neq. intros ->. destruct post as [|z post].
    - pose proof (t_pos _ _ HT) as Hp. rewrite Forall_forall in Hp. cbn in Hy. specialize (Hp 0 ltac:(set_solver)). done.
    - cbn in Hy. apply (Hdis z Hy). set_solver. }
  induction fuel as [|fuel IH]; intros l dl x r i Exs Hi Hf; [lia|].
  cbn [find_loop]. unfold st_bind at 1 2, st_gets at 1. rewrite Hc, (block_next_run _ _ _ Hb), Hn.
  destruct l as [|y l]; cbn [hd app].
  - rewrite Hafter, node_inside by (done || rewrite Exs; set_solver). by rewrite app_nil_r.
  - assert (x ∈ pre ++ [cur] /\ y ∈ pre ++ [cur]) as [Hx Hy] by (rewrite Exs; set_solver).
    assert (x <> y) as Hxy.
    { rewrite Exs in Hnd. apply NoDup_app in Hnd as (_ & _ & Hnd). cbn in Hnd. apply NoDup_cons in Hnd as [Hny _].
      intros ->. apply Hny. set_solver. }
    rewrite Hafter by done.
    rewrite (node_outside (pre ++ cur :: post)); [|apply (t_apart _ _ HT)|set_solver|set_solver|done|done].
    assert (exists b', blocks a !! y = Some b' /\ block_next b' = hd 0 (l ++ x :: r)) as (b' & Hb' & Hn').
    { pose proof (t_links _ _ HT) as Hl. replace (pre ++ cur :: post) with (dl ++ y :: (l ++ x :: r) ++ post) in Hl.
      - destruct (links_at _ _ _ _ _ Hl) as (b' & Hb1 & _ & Eb). exists b'. split; [done|]. rewrite Eb. by destruct l.
      - rewrite (cons_middle cur), app_assoc, Exs. by rewrite <- !app_assoc. }
    unfold st_bind at 1. rewrite (block_next_run _ _ _ Hb'), Hn'.
    replace y with (default 0 (last (dl ++ [y]))) at 1 by (by rewrite last_snoc).
    rewrite (IH l (dl ++ [y]) x r i); [by rewrite <- app_assoc|by rewrite Exs, <- app_assoc|done|cbn in Hf; lia].
Qed.

(** What [put_rear] does when there are blocks before the one with the node. *)
Lemma put_rear_run ff a pre cur post l p x r : rep a (At pre cur post) -> pre ++ [cur] = (l ++ [p]) ++ x :: r ->
  (length (pre ++ cur :: post) < ff)%nat ->
  exists pre' post' a', pre = (l ++ [p]) ++ pre' /\ put_rear ff x p a = Some (tt, a') /\ rep a' (At pre' cur post') /\
    last_node a' = last_node a /\ (forall y, y ∈ pre' ++ [cur] -> nodes_of a' y = nodes_of a y) /\
    ((length post' <= 1)%nat \/ block_num a' <= reserved_blocks a) /\
    Z.min (block_num a) (reserved_blocks a) <= block_num a' /\ reserved_blocks a' = reserved_blocks a.
Proof.
  intros [HT Hc Hln] E Hff. cbn in HT.
  assert (exists pre', x :: r = pre' ++ [cur] /\ pre = (l ++ [p]) ++ pre') as (pre' & Exr & Epre).
  { destruct (list_snoc_inv (x :: r)) as [?|(pre' & y & Ey)]; [done|]. rewrite Ey, app_assoc in E.
    apply app_inj_tail in E as [-> <-]. by exists pre'. }
  destruct (list_snoc_inv (cur :: post)) as [?|(m0 & z & Em)]; [done|].
  set (m := pre' ++ m0).
  assert (pre ++ cur :: post = (l ++ [p]) ++ m ++ [z]) as Exs by (rewrite Epre, Em; subst m; by rewrite <- !app_assoc).
  rewrite Exs in HT. pose proof (t_links _ _ HT) as Hl.
  assert (exists bz, blocks a !! z = Some bz) as (bz & Hz).
  { destruct (links_in _ _ _ z Hl) as (bz & ? & _); [set_solver|by exists bz]. }
  assert (exists bp, blocks a !! p = Some bp) as (bp & Hp).
  { destruct (links_in _ _ _ p Hl) as (bp & ? & _); [set_solver|by exists bp]. }
  pose proof (t_first _ _ HT) as Hfirst. pose proof (t_last _ _ HT) as Hlast. rewrite app_assoc, last_snoc in Hlast.
  assert (hd 0 (m ++ [z]) = x) as Hx.
  { subst m. rewrite <- app_assoc, <- Em. change (hd 0 (pre' ++ [cur] ++ post) = x). rewrite app_assoc, <- Exr. done. }
  pose proof (table_rotate a l p m z bz bp HT Hz Hp) as HR. rewrite Hx in HR.
  assert (hd 0 ((l ++ [p]) ++ m ++ [z]) = hd 0 (l ++ [p])) as Ehd by (by destruct l). rewrite Ehd in Hfirst.
  pose proof (t_nodup _ _ HT) as Hnd. apply NoDup_app in Hnd as (_ & Hdis & _).
  assert (z <> p) as Hzp by (intros ->; apply (Hdis p); set_solver).
  assert (hd 0 (l ++ [p]) <> x) as Hne.
  { intros Eh. apply (Hdis x); [rewrite <- Eh; destruct l; set_solver|rewrite <- Hx; destruct m; set_solver]. }
  unfold put_rear, st_bind at 1 2, st_gets at 1 2. rewrite Hfirst, (proj2 (Z.eqb_neq _ _)) by done.
  unfold st_bind, st_gets, st_modify. rewrite Hlast, (set_block_next_run _ _ _ _ Hz).
  rewrite (set_block_next_run _ p 0 bp) by (cbn; by rewrite lookup_insert_ne).
  set (a1 := set_blocks _ _). assert (a1 = rotated a x (hd 0 (l ++ [p])) z p bz bp) as Ea1 by done. clearbody a1.
  assert (rep a1 (At pre' cur (post ++ l ++ [p]))) as HR1.
  { split; cbn; [|by rewrite Ea1|by rewrite Ea1].
    replace (pre' ++ cur :: post ++ l ++ [p]) with ((m ++ [z]) ++ l ++ [p]); [by rewrite Ea1|].
    subst m. rewrite <- (app_assoc pre'), <- Em. by rewrite <- !app_assoc. }
  destruct (free_blocks_run ff a1 _ _ _ HR1) as (post' & a' & E' & HR' & Eln & Er & Hsame & Hb & Hm).
  { rewrite Epre in Hff. rewrite !length_app in *. cbn in *. lia. }
  exists pre', post', a'. split; [done|]. split; [done|]. split; [done|]. split; [by rewrite Eln, Ea1|].
  split; [|by rewrite Ea1 in *]. intros y Hy. rewrite Hsame by done. unfold nodes_of. rewrite Ea1. cbn.
  destruct (decide (y = p)) as [->|]; [by rewrite lookup_insert_eq, Hp|]. rewrite lookup_insert_ne by done.
  destruct (decide (y = z)) as [->|]; [by rewrite lookup_insert_eq, Hz|]. by rewrite lookup_insert_ne.
Qed.

(** ** Slots and suffixes *)

Lemma concat_fmap_app (f : Z -> list Z) xs ys : concat (f <$> (xs ++ ys)) = concat (f <$> xs) ++ concat (f <$> ys).
Proof. by rewrite fmap_app, concat_app. Qed.

Lemma slots_front pre pre' l cur post post' n : pre = l ++ pre' ->
  slots (At pre cur post) n =
    concat ((fun x => block_slots x BLOCK_TRANX_NODES) <$> l) ++ slots (At pre' cur post') n.
Proof. intros ->. cbn [slots]. by rewrite concat_fmap_app, <- app_assoc. Qed.

Lemma in_front (l : list Z) m : m ∈ concat ((fun x => block_slots x BLOCK_TRANX_NODES) <$> l) ->
  exists y j, y ∈ l /\ 0 <= j < 16 /\ m = node_addr y j.
Proof.
  intros (s & Hs & Hm)%list_elem_of_In%in_concat. apply list_elem_of_In in Hs, Hm.
  apply list_elem_of_fmap in Hs as (y & -> & Hy). apply elem_of_block_slots in Hm as (j & Hj & ->). by exists y, j.
Qed.

Lemma length_front l : length (concat ((fun x => block_slots x BLOCK_TRANX_NODES) <$> l)) = (length l * 16)%nat.
Proof.
  induction l as [|x l IH]; [done|]. rewrite fmap_cons. cbn [concat]. rewrite length_app, IH. unfold block_slots.
  rewrite length_fmap, length_seqZ. change (Z.to_nat BLOCK_TRANX_NODES) with 16%nat. cbn [length]. lia.
Qed.

(** The slots fill the blocks up to the last node of the current one. *)
Lemma length_slots a sh : rep a sh ->
  Z.of_nat (length (slots sh (last_node a))) =
    match sh with Empty => 0 | At pre _ _ => 16 * Z.of_nat (length pre) + last_node a + 1 end.
Proof.
  intros [_ _ Hn]. destruct sh as [|pre cur post]; [done|]. cbn [slots] in *. rewrite length_app, length_front.
  unfold block_slots. rewrite length_fmap, length_seqZ. lia.
Qed.

(** The block of the slot [i] is the one number [i / 16] of the table. *)
Lemma slot_lookup n cur post : forall pre i m, -1 <= n <= 15 -> slots (At pre cur post) n !! i = Some m ->
  exists l x r k, pre ++ [cur] = l ++ x :: r /\ length l = (i / 16)%nat /\ 0 <= k < 16 /\ m = node_addr x k.
Proof.
  induction pre as [|y pre IH]; intros i m Hn Hm.
  - cbn [slots fmap list_fmap concat app] in Hm. unfold block_slots in Hm. rewrite list_lookup_fmap in Hm.
    destruct (seqZ 0 (n + 1) !! i) as [k|] eqn:Ek; [|done]. injection Hm as <-.
    apply lookup_seqZ in Ek as [-> Hk]. exists [], cur, [], (0 + Z.of_nat i). rewrite Nat.div_small by lia. split_and!; try done; lia.
  - change (slots (At (y :: pre) cur post) n) with ((block_slots y BLOCK_TRANX_NODES ++ concat ((fun x => block_slots x BLOCK_TRANX_NODES) <$> pre)) ++ block_slots cur (n + 1)) in Hm.
    rewrite <- app_assoc in Hm. change (concat _ ++ block_slots cur (n + 1)) with (slots (At pre cur post) n) in Hm.
    assert (length (block_slots y BLOCK_TRANX_NODES) = 16%nat) as H16 by (unfold block_slots; by rewrite length_fmap, length_seqZ).
    destruct (decide (i < 16)%nat) as [Hi|Hi].
    + rewrite lookup_app_l in Hm by lia. unfold block_slots in Hm. rewrite list_lookup_fmap in Hm.
      destruct (seqZ 0 BLOCK_TRANX_NODES !! i) as [k|] eqn:Ek; [|done]. injection Hm as <-.
      apply lookup_seqZ in Ek as [-> Hk]. exists [], y, (pre ++ [cur]), (0 + Z.of_nat i). rewrite Nat.div_small by lia.
      split_and!; try done; lia.
    + rewrite lookup_app_r in Hm by lia. rewrite H16 in Hm. destruct (IH _ _ Hn Hm) as (l & x & r & k & E & Hl & Hk & Em).
      exists (y :: l), x, r, k. split; [by rewrite <- !app_comm_cons, E|]. split; [|done]. cbn [length]. rewrite Hl.
      assert (i = (i - 16) + 1 * 16)%nat as Ei by lia. rewrite Ei at 2. rewrite Nat.div_add by done. lia.
Qed.

Lemma slots_range a sh : rep a sh -> sh <> Empty -> -1 <= last_node a <= 15.
Proof. intros [_ _ H] Hs. by destruct sh. Qed.

Lemma in_used pre cur post (x : Z) : x ∈ pre ++ [cur] -> x ∈ pre ++ cur :: post.
Proof. intros Hx. rewrite (cons_middle cur), app_assoc. apply elem_of_app. by left. Qed.

Lemma free_before_run fuel a sh i n : rep a sh -> slots sh (last_node a) !! i = Some n ->
  (length (blocks_of sh) < fuel)%nat ->
  exists sh' a', free_nodes_before fuel n a = Some (0, a') /\ rep a' sh' /\
    slots sh' (last_node a') = drop (i / 16 * 16) (slots sh (last_node a)) /\ last_node a' = last_node a /\
    (forall x, x ∈ used sh' -> x ∈ blocks_of sh /\ nodes_of a' x = nodes_of a x) /\
    (a' = a \/ match sh' with Empty => False | At _ _ post => (length post <= 1)%nat \/ block_num a' <= reserved_blocks a end) /\
    Z.min (block_num a) (reserved_blocks a) <= block_num a' /\ reserved_blocks a' = reserved_blocks a.
Proof.
  intros HR Hn Hf. destruct sh as [|pre cur post]; [done|].
  destruct (slot_lookup _ cur post pre i n (slots_range _ _ HR ltac:(done)) Hn) as (l & x & r & k & E & Hlen & Hi & ->).
  rewrite <- Hlen. cbn [blocks_of] in Hf.
  pose proof HR as [HT _ _]. cbn in HT. unfold free_nodes_before, st_bind, st_gets.
  assert (first_block a = hd 0 (l ++ x :: r)) as ->.
  { rewrite (t_first _ _ HT), <- E. by destruct pre. }
  assert (length (pre ++ [cur]) = length (l ++ x :: r)) as Elen by (by rewrite E).
  rewrite (length_app pre), (length_app l) in Elen. rewrite length_app in Hf. cbn in Elen, Hf.
  pose proof (find_loop_run fuel fuel a pre cur post HR l [] x r k E Hi ltac:(lia)) as EF. cbn [last default] in EF.
  rewrite EF. clear EF. cbn [app]. destruct (list_snoc_inv l) as [->|(l' & p & ->)].
  - exists (At pre cur post), a. split.
    + unfold put_rear, st_bind, st_gets. rewrite (t_first _ _ HT).
      assert (hd 0 (pre ++ cur :: post) = x) as -> by (destruct pre; cbn in *; congruence). by rewrite Z.eqb_refl.
    + split_and!; try done; [|by left|lia]. intros y Hy. split; [cbn in *; set_solver|done].
  - rewrite last_snoc. change (default 0 (Some p)) with p.
    destruct (put_rear_run fuel a pre cur post l' p x r HR E) as (pre' & post' & a' & Ep & EP & HR' & Eln & Hsame & Hb & Hm & Er);
      [rewrite length_app; cbn; lia|].
    unfold st_bind. rewrite EP.
    exists (At pre' cur post'), a'. split; [done|]. split; [done|]. rewrite Eln.
    split_and!; try done; [|intros y Hy; split; [rewrite Ep; cbn in *; set_solver|by apply Hsame]|by right].
    rewrite (slots_front pre pre' (l' ++ [p]) cur post post' _ Ep), <- length_front, drop_app_length. done.
Qed.

(** ** Allocation *)

(** Linking a new block [b] behind the last one, or as the first. *)
Lemma link_behind a xs m b : table a xs -> m ∉ xs -> whole b -> block_next b = 0 ->
  let h := <[m := b]> (blocks a) in
  exists h', links h' (xs ++ [m]) 0 /\ (forall x, x ∈ xs ++ [m] <-> is_Some (h' !! x)) /\
    (forall x, x ∈ xs -> nodes <$> h' !! x = nodes <$> blocks a !! x) /\
    (let* first := st_gets first_block in
     if first =? 0 then st_modify (set_first m) else let* last := st_gets last_block in set_next last m)
      (set_blocks h a) = Some (tt, set_first (hd 0 (xs ++ [m])) (set_blocks h' a)).
Proof.
  intros HT Hmx Hw Hb0 h. pose proof HT as [Hl Hd Hnd Hpos _ Hfirst Hlast _ _].
  assert (forall x, x ∈ xs -> h !! x = blocks a !! x) as Hh
    by (intros x Hx; subst h; rewrite lookup_insert_ne; [done|by intros ->]).
  assert (h !! m = Some b) as Hm by (subst h; by rewrite lookup_insert_eq).
  assert (forall x, x ∈ xs ++ [m] <-> is_Some (h !! x)) as Hdh.
  { intros x. subst h. rewrite elem_of_app, list_elem_of_singleton, Hd. destruct (decide (x = m)) as [->|Hne].
      - rewrite lookup_insert_eq. split; [by eexists|by right].
      - rewrite lookup_insert_ne by done. split; [by intros [?|?]|by left]. }
    unfold st_bind, st_gets, st_modify. cbn [set_blocks first_block last_block].
    destruct (list_snoc_inv xs) as [->|(xs' & z & ->)].
    - exists h. rewrite Hfirst. cbn. split; [|split; [done|split; [intros x Hx; by apply elem_of_nil in Hx|done]]].
      split; [|done]. by exists b.
    - rewrite last_snoc in Hlast. change (default 0 (Some z)) with z in Hlast. rewrite Hfirst.
      assert (hd 0 (xs' ++ [z]) <> 0) as Hnz.
      { rewrite Forall_forall in Hpos. specialize (Hpos (hd 0 (xs' ++ [z]))). destruct xs'; cbn in *; specialize (Hpos ltac:(set_solver)); lia. }
      rewrite (proj2 (Z.eqb_neq _ _)) by done. change (last_block (set_blocks h a)) with (last_block a). rewrite Hlast.
      destruct (links_in _ _ _ z Hl) as (bz & Hbz & Hwz); [set_solver|].
      assert (h !! z = Some bz) as Hhz by (rewrite Hh; [done|set_solver]).
      rewrite (set_block_next_run _ z m bz) by done.
      assert (z <> m) as Hzm by (intros ->; apply Hmx; set_solver).
      exists (<[z := MkBlock m (nodes bz)]> h). split; [|split; [|split]].
      + apply links_app. split.
        * apply (links_snoc h xs' z bz 0); [|done|done]. by apply (links_frame (blocks a)).
        * split; [|done]. exists b. by rewrite lookup_insert_ne by done.
      + intros x. rewrite Hdh. destruct (decide (x = z)) as [->|]; [rewrite lookup_insert_eq, Hhz; by split; eexists|].
        by rewrite lookup_insert_ne.
      + intros x Hx. destruct (decide (x = z)) as [->|]; [by rewrite lookup_insert_eq, Hbz|].
        rewrite lookup_insert_ne by done. by rewrite Hh.
      + do 2 f_equal. unfold set_first, set_blocks. cbn. f_equal. rewrite Hfirst. by destruct xs'.
Qed.

Section allocation.
Context {A : BlockAlloc} {AL : BlockAllocLaws A}.

(** A new block at the end of a table. *)
Lemma allocate_block_run a xs : table a xs -> block_num a + 1 < 2 ^ 32 ->
  (my_malloc (blocks a) = 0 /\ allocate_block a = Some (1, a)) \/
  exists m a', 0 < m /\ allocate_block a = Some (0, a') /\ table a' (xs ++ [m]) /\ current_block a' = m /\
    last_node a' = last_node a /\ reserved_blocks a' = reserved_blocks a /\ m ∉ xs /\
    (forall x, x ∈ xs -> nodes_of a' x = nodes_of a x).
Proof.
  intros HT Hr. unfold allocate_block, st_bind, st_gets.
  destruct (malloc_law (blocks a)) as [E|[Hm Hap]]; [left; by rewrite E|right].
  set (m := my_malloc (blocks a)) in *. pose proof HT as [Hl Hd Hnd Hpos Hapart Hfirst Hlast Hnum Hrange].
  assert (forall x, x ∈ xs -> m + sizeof_Block <= x \/ x + sizeof_Block <= m) as Hap'.
  { intros x Hx. apply Hap. apply elem_of_dom. by apply Hd. }
  assert (m ∉ xs) as Hmx.
  { intros Hx. specialize (Hap' m Hx). unfold sizeof_Block, BLOCK_TRANX_NODES, sizeof_node, FN_REFLEN in Hap'. lia. }
  rewrite (proj2 (Z.eqb_neq m 0)) by lia. unfold st_modify. cbn [set_blocks first_block last_block blocks].
  set (h := <[m := MkBlock 0 (garbage (blocks a))]> (blocks a)).
  assert (whole (MkBlock 0 (garbage (blocks a)))) as Hw by apply garbage_law.
  destruct (link_behind a xs m _ HT Hmx Hw eq_refl) as (h' & Hl' & Hd' & Hs' & E').
  fold h in E'. unfold st_bind in E'. unfold st_gets, st_modify in *.
  change (first_block (set_blocks h a)) with (first_block a) in E'.
  rewrite E'. clear E'.
  exists m. eexists. split; [done|]. split; [done|].
  split; [|cbn; split_and!; try done]. split; cbn; try done.
  - apply NoDup_snoc. done.
  - apply Forall_app. by split; [|constructor].
  - intros x y Hx Hy. apply elem_of_app in Hx as [Hx|Hx%list_elem_of_singleton], Hy as [Hy|Hy%list_elem_of_singleton]; subst;
      [by apply Hapart|right; by destruct (Hap' x Hx); auto|right; by apply Hap'|by left].
  - by rewrite last_snoc.
  - rewrite length_app. cbn. rewrite Hnum in *. rewrite wrapU_small by (unfold in_u; lia). lia.
  - rewrite length_app. cbn. lia.
Qed.

(** Taking the next node of a block with room. *)
Lemma take_node_run a pre cur post : rep a (At pre cur post) -> last_node a < 15 ->
  exists a', take_node a = Some (node_addr cur (last_node a + 1), a') /\ rep a' (At pre cur post) /\
    last_node a' = last_node a + 1 /\ reserved_blocks a' = reserved_blocks a /\ block_num a' = block_num a /\
    (exists t, stored a' (node_addr cur (last_node a + 1)) (TranxNode 0 0 t 0 0)) /\
    (forall n v, n ∈ slots (At pre cur post) (last_node a) -> stored a n v -> stored a' n v).
Proof.
  intros [HT Hc Hn] Hlt. cbn in HT, Hn. pose proof (t_links _ _ HT) as Hl.
  destruct (links_at _ _ _ _ _ Hl) as (b & Hb & Hw & Hnx). set (i := Z.to_nat (last_node a + 1)).
  assert ((i < length (nodes b))%nat) as [v0 Hv]%lookup_lt_is_Some by (rewrite Hw; subst i; lia).
  unfold take_node, reset_node, st_bind, st_gets, st_modify.
  unfold set_last_node. cbn [current_block blocks]. rewrite Hc, Hb. cbn [st_opt st_ret]. fold i. rewrite Hv. cbn [st_opt st_ret].
  eexists. split; [reflexivity|]. set (b' := MkBlock _ _). unfold set_blocks. cbn.
  assert (forall x, is_Some (<[cur := b']> (blocks a) !! x) <-> is_Some (blocks a !! x)) as Hsome.
  { intros x. destruct (decide (x = cur)) as [->|]; [rewrite lookup_insert_eq, Hb; by split; eexists|].
    by rewrite lookup_insert_ne. }
  assert (whole b') as Hw' by (unfold whole; cbn; by rewrite length_insert).
  split; [|split; [done|split; [done|split; [done|split]]]].
  - split; cbn; [|done|lia]. destruct HT. split; cbn; try done.
    + clear -Hl Hb Hw'. induction (pre ++ cur :: post) as [|x xs IH]; [done|]. destruct Hl as [(bx & Hbx & Hwx & Hnx) Hl].
      split; [|by apply IH]. destruct (decide (x = cur)) as [->|].
      * exists b'. rewrite lookup_insert_eq. rewrite Hb in Hbx. by injection Hbx as <-.
      * exists bx. by rewrite lookup_insert_ne.
    + intros x. by rewrite Hsome.
  - exists (thd v0). exists cur, i, b'. cbn. split; [f_equal; subst i; lia|]. split; [by rewrite lookup_insert_eq|].
    apply list_lookup_insert_eq. by apply lookup_lt_Some in Hv.
  - intros n v Hin (x & j & bx & -> & Hbx & Hvx).
    destruct (decide (x = cur)) as [->|]; [|exists x, j, bx; cbn; by rewrite lookup_insert_ne].
    rewrite Hb in Hbx. injection Hbx as <-. exists cur, j, b'. cbn. split; [done|]. rewrite lookup_insert_eq. split; [done|].
    rewrite list_lookup_insert_ne; [done|]. intros Eij.
    apply (elem_of_slots pre cur post) in Hin as (y & k & Hy & Hk & E & Hcur); [|lia].
    destruct (node_addr_inj (pre ++ cur :: post) cur y (Z.of_nat j) k (t_apart _ _ HT)) as [<- <-]; [set_solver..|subst i; lia|done|done|].
    destruct (Hcur eq_refl) as [H|H]; [subst i; lia|]. pose proof (t_nodup _ _ HT) as Hnd.
    apply NoDup_app in Hnd as (_ & Hd & _). apply (Hd cur H). set_solver.
Qed.
End allocation.

(** The destructor frees every block. *)
Lemma destroy_loop_run fuel : forall xs a, links (blocks a) xs 0 -> Forall (fun x => 0 < x) xs -> NoDup xs ->
  (length xs < fuel)%nat ->
  exists a', destroy_loop fuel (hd 0 xs) a = Some (tt, a') /\
    forall x, blocks a' !! x = if decide (x ∈ xs) then None else blocks a !! x.
Proof.
  induction fuel as [|fuel IH]; intros xs a Hl Hp Hnd Hf; [lia|]. cbn [destroy_loop]. rewrite (hd_pos _ Hp).
  destruct xs as [|x xs]; [by exists a|]. destruct Hl as [(b & Hb & _ & Hn) Hl]. cbn in Hf.
  apply Forall_cons in Hp as [_ Hp]. apply NoDup_cons in Hnd as [Hx Hnd].
  unfold st_bind. cbn [hd]. rewrite (block_next_run _ _ _ Hb), Hn, (free_block_run _ _ _ Hb).
  set (a1 := set_block_num _ _).
  destruct (IH xs a1) as (a' & E & Ha'); [|done|done|lia|].
  { apply (links_frame (blocks a)); [|done]. intros y Hy. cbn. rewrite lookup_delete_ne; [done|]. by intros ->. }
  exists a'. split; [done|]. intros y. rewrite Ha'. destruct (decide (y ∈ xs)) as [Hy|Hy].
  - by rewrite decide_True by set_solver.
  - cbn. destruct (decide (y = x)) as [->|]; [by rewrite lookup_delete_eq, decide_True by set_solver|].
    by rewrite lookup_delete_ne, decide_False by set_solver.
Qed.

Lemma destroy_run fuel a xs : table a xs -> (length xs < fuel)%nat ->
  exists a', destroy fuel a = Some (tt, a') /\ blocks a' = ∅.
Proof.
  intros HT Hf. unfold destroy, st_bind, st_gets. rewrite (t_first _ _ HT).
  destruct (destroy_loop_run fuel xs a (t_links _ _ HT) (t_pos _ _ HT) (t_nodup _ _ HT) Hf) as (a' & E & Ha').
  exists a'. split; [done|]. apply map_eq. intros x. rewrite Ha', lookup_empty. destruct (decide (x ∈ xs)) as [|Hx]; [done|].
  rewrite (t_dom _ _ HT) in Hx. by destruct (blocks a !! x) as [b|]; [exfalso; apply Hx; exists b|].
Qed.

(** Two different slots of a shape have different addresses. *)
Lemma slot_fresh a pre cur post i : rep a (At pre cur post) -> last_node a < i < 16 ->
  node_addr cur i ∉ slots (At pre cur post) (last_node a).
Proof.
  intros [HT _ Hn] Hi Hin. cbn in HT, Hn. apply elem_of_slots in Hin as (y & k & Hy & Hk & E & Hcur); [|done].
  destruct (node_addr_inj (pre ++ cur :: post) cur y i k (t_apart _ _ HT)) as [<- <-]; [set_solver..|lia|done|done|].
  destruct (Hcur eq_refl) as [H|H]; [lia|]. pose proof (t_nodup _ _ HT) as Hnd.
  apply NoDup_app in Hnd as (_ & Hd & _). apply (Hd cur H). set_solver.
Qed.

Lemma new_rep reserved_nodes : rep (Tranx_node_allocator reserved_nodes) Empty.
Proof.
  split; cbn; [|done|done]. split; cbn; try done.
  - intros x. rewrite lookup_empty. split; [by intros ?%elem_of_nil|by intros [? ?]].
  - apply NoDup_nil_2.
  - by intros x y ?%elem_of_nil.
Qed.

Section properties.
Context {A : BlockAlloc} {AL : BlockAllocLaws A}.

(** What [allocate_node] has done when it takes the node: a shape with the same
    slots, whose current block has room, in a new block only when all blocks were
    full; or the failure. *)
Lemma allocate_node_run a sh : rep a sh -> block_num a + 1 < 2 ^ 32 ->
  let full := Z.of_nat (length (slots sh (last_node a))) =? 16 * block_num a in
  (my_malloc (blocks a) = 0 /\ full = true /\ allocate_node a = Some (0, a)) \/
  exists pre cur post a1, allocate_node a = take_node a1 /\ rep a1 (At pre cur post) /\ last_node a1 < 15 /\
    slots (At pre cur post) (last_node a1) = slots sh (last_node a) /\
    (reserved_blocks a1 = reserved_blocks a /\ block_num a1 = block_num a + if full then 1 else 0) /\
    (forall n v, n ∈ slots sh (last_node a) -> stored a n v -> stored a1 n v).
Proof.
  intros HR Hnum full. pose proof HR as [HT Hc Hln]. pose proof (length_slots a sh HR) as Hlen.
  pose proof (t_num _ _ HT) as Hblocks.
  unfold allocate_node, st_bind, st_gets, st_ret, st_modify.
  destruct sh as [|pre cur post].
  - (* no block yet *)
    assert (full = true) as -> by (subst full; rewrite Hlen, Hblocks; done).
    cbn in HT. rewrite Hln. change (-1 =? BLOCK_TRANX_NODES - 1) with false. cbv iota beta. rewrite Hc. change (0 =? 0) with true. cbv iota beta.
    destruct (allocate_block_run a [] HT Hnum) as [[E ->]|(m & a1 & Hm & -> & HT1 & Hc1 & Hl1 & Hr1 & _)].
    + left. split; [done|]. split; [done|]. cbn. destruct a; cbn in *. by subst.
    + right. exists [], m, [], a1. split; [reflexivity|]. split; [split; cbn; [done|done|lia]|]. rewrite Hl1, Hln.
      split_and!; try done; [rewrite (t_num _ _ HT1), Hblocks; done|]. intros n v Hn. by apply elem_of_nil in Hn.
  - cbn [blocks_of] in HT, Hblocks. rewrite length_app in Hblocks. cbn [length] in Hblocks.
    assert (full = (last_node a =? 15) && bool_decide (post = [])) as Hfull.
    { subst full. rewrite Hlen, Hblocks. destruct post as [|z post], (Z.eqb_spec (last_node a) 15); cbn [length andb];
        first [apply Z.eqb_eq; cbn; lia|apply Z.eqb_neq; cbn in *; lia]. }
    clearbody full. rewrite Hc. assert (0 < cur) as Hcur.
    { pose proof (t_pos _ _ HT) as Hp. rewrite Forall_forall in Hp. apply Hp. set_solver. }
    destruct (Z.eqb_spec (last_node a) (BLOCK_TRANX_NODES - 1)) as [E15|N15].
    + (* the current block is full *)
      destruct (links_at _ _ _ _ _ (t_links _ _ HT)) as (b & Hb & Hw & Hn).
      rewrite (block_next_run _ _ _ Hb), Hn.
      set (a0 := set_last_node (-1) (set_current (hd 0 post) a)).
      assert (table a0 (pre ++ cur :: post)) as HT0 by (by apply (table_ext a)).
      assert (forall p, slots (At pre cur post) (last_node a) = slots (At (pre ++ [cur]) p []) (-1)) as Hslots.
      { intros p. rewrite E15. cbn [slots]. rewrite concat_fmap_app. cbn [fmap list_fmap concat]. by rewrite !app_nil_r. }
      change (current_block a0) with (hd 0 post).
      assert (Forall (fun x => 0 < x) post) as Hpp.
      { pose proof (t_pos _ _ HT) as Hp. apply Forall_app in Hp as [_ Hp]. by apply Forall_cons in Hp as [_ ?]. }
      rewrite (hd_pos _ Hpp). destruct post as [|y post].
      * destruct (allocate_block_run a0 _ HT0 Hnum) as [[E ->]|(m & a1 & Hm & -> & HT1 & Hc1 & Hl1 & Hr1 & _ & Hs1)].
        { left. split; [done|]. split; [by rewrite Hfull, E15|]. cbn. unfold nz. rewrite (proj2 (Z.eqb_neq cur 0)) by lia. cbn.
          unfold a0, set_current, set_last_node. cbn. rewrite <- E15, <- Hc. by destruct a. }
        right. exists (pre ++ [cur]), m, [], a1. split; [reflexivity|]. assert (last_node a1 = -1) as Hl by (by rewrite Hl1).
        rewrite Hl. split; [split; cbn; [by rewrite <- !app_assoc in *|done|lia]|]. split; [lia|].
        split; [symmetry; apply Hslots|].
        split.
        { split; [by rewrite Hr1|]. assert (full = true) as -> by (by rewrite Hfull, E15).
          rewrite (t_num _ _ HT1), Hblocks, !length_app. cbn [length]. lia. }
        intros n v Hin. apply (stored_same a a1 _ _ _ n v HT Hin Hln). intros x Hx. split; [done|]. by rewrite Hs1.
      * right. exists (pre ++ [cur]), y, post, a0. split; [reflexivity|].
        split; [split; cbn; [by rewrite <- app_assoc|done|lia]|]. cbn [last_node a0 set_last_node].
        split; [cbn; lia|]. split; [rewrite (Hslots y); by cbn [slots]|].
        split; [split; [done|rewrite Hfull, bool_decide_false, andb_false_r by done; cbn; lia]|].
        intros n v _ (x & i & b' & Ex & Hb' & Hv). by exists x, i, b'.
    + rewrite Hc, (proj2 (Z.eqb_neq cur 0)) by lia. right. exists pre, cur, post, a. cbn in Hln. unfold BLOCK_TRANX_NODES in N15.
      split_and!; try done; [lia|]. rewrite Hfull, (proj2 (Z.eqb_neq _ _)) by done. cbn. lia.
Qed.

Lemma allocate_run a Q : holds a Q -> block_num a + 1 < 2 ^ 32 ->
  let full := Z.of_nat (length Q) =? 16 * block_num a in
  (my_malloc (blocks a) = 0 /\ full = true /\ allocate_node a = Some (0, a)) \/
  exists n a', allocate_node a = Some (n, a') /\ 0 < n /\ n ∉ Q /\ holds a' (Q ++ [n]) /\
    block_num a' = block_num a + (if full then 1 else 0) /\
    (exists t, stored a' n (TranxNode 0 0 t 0 0)) /\
    (forall m v, m ∈ Q -> stored a m v -> stored a' m v).
Proof.
  intros (sh & HR & <-) Hnum.
  destruct (allocate_node_run a sh HR Hnum) as [?|(pre & cur & post & a1 & -> & HR1 & Hlt & Hs & [Hr Hb] & Hst)]; [by left|right].
  destruct (take_node_run a1 pre cur post HR1 Hlt) as (a' & E & HR' & Hl & _ & Hb' & Ht & Hf).
  exists (node_addr cur (last_node a1 + 1)), a'. split; [done|].
  pose proof (slots_range _ _ HR1 ltac:(done)) as Hrange.
  split; [|split; [|split; [|split; [by rewrite Hb', Hb|split; [done|]]]]].
  - pose proof (t_pos _ _ (r_table _ _ HR1)) as Hp. rewrite Forall_forall in Hp. cbn in Hp.
    specialize (Hp cur ltac:(set_solver)). unfold node_addr, sizeof_node, FN_REFLEN. lia.
  - rewrite <- Hs. apply (slot_fresh a1 pre cur post); [done|lia].
  - exists (At pre cur post). split; [done|]. rewrite Hl, <- Hs. cbn [slots].
    rewrite <- app_assoc. f_equal. unfold block_slots.
    rewrite (seqZ_app 0 (last_node a1 + 1) 1) by lia. by rewrite fmap_app.
  - intros m v Hm Hv. apply Hf; [by rewrite Hs|]. by apply Hst.
Qed.

(** C19 : The allocator is a queue of nodes [Q], kept in blocks of sixteen; the
    other slots of the blocks are free.  [allocate_node] fails only when all slots
    are taken and the C library has no memory, and then changes nothing; otherwise
    it appends a node that is not in the queue, with its fields initialised, in a
    new block only when all slots were taken.  [free_nodes_before] the node at
    position [i] returns 0 and removes exactly the whole blocks before it (the
    first [i / 16 * 16] nodes), so that this node and all later ones stay;
    [free_all_nodes] empties the queue.  Neither leaves fewer blocks than the
    reserve (or than there were, when those were fewer), so that freed slots are
    used again; the nodes that stay keep their contents, however the blocks are reordered.  The destructor
    returns every block to the C library. *)
Theorem tranx_refines_queue a Q fuel :
  holds a Q -> block_num a + 1 < 2 ^ 32 -> block_num a < Z.of_nat fuel ->
  (let full := Z.of_nat (length Q) =? 16 * block_num a in
   (my_malloc (blocks a) = 0 /\ full = true /\ allocate_node a = Some (0, a)) \/
   exists n a', allocate_node a = Some (n, a') /\ 0 < n /\ n ∉ Q /\ holds a' (Q ++ [n]) /\
     block_num a' = block_num a + (if full then 1 else 0) /\
     (exists t, stored a' n (TranxNode 0 0 t 0 0)) /\
     (forall m v, m ∈ Q -> stored a m v -> stored a' m v)) /\
  (forall i n, Q !! i = Some n ->
   exists a', free_nodes_before fuel n a = Some (0, a') /\ holds a' (drop (i / 16 * 16) Q) /\
     Z.min (block_num a) (reserved_blocks a) <= block_num a' /\
     (forall m v, m ∈ drop (i / 16 * 16) Q -> stored a m v -> stored a' m v)) /\
  (exists a', free_all_nodes fuel a = Some (0, a') /\ holds a' [] /\
     Z.min (block_num a) (reserved_blocks a) <= block_num a') /\
  (exists a', destroy fuel a = Some (tt, a') /\ blocks a' = ∅).
Proof.
  intros HL Hnum Hfuel. split; [by apply allocate_run|]. destruct HL as (sh & HR & <-).
  pose proof HR as [HT _ _]. pose proof (t_num _ _ HT) as Hn. assert (length (blocks_of sh) < fuel)%nat as Hf by lia.
  split; [|split].
  - intros i n Hi. destruct (free_before_run fuel a sh i n HR Hi Hf) as (sh' & a' & E & HR' & Hs' & Hl & Hsame & _ & Hm & _).
    exists a'. split; [done|]. split; [by exists sh'|]. split; [done|]. rewrite <- Hs'. intros m v Hin Hv.
    assert (sh' <> Empty) as Hne by (intros ->; by apply elem_of_nil in Hin).
    apply (stored_same a a' (blocks_of sh) sh' (last_node a') m v HT Hin); [by apply (slots_range _ _ HR')|done|done].
  - destruct (free_all_run fuel a sh HR Hf) as (sh' & a' & E & HR' & Hs' & _ & _ & Hm). exists a'. split; [done|].
    split; [by exists sh'|done].
  - by apply (destroy_run _ _ (blocks_of sh)).
Qed.

(** The memory that the allocator holds.  A new one reserves blocks for at
    least as many nodes as it is told.  When nodes are freed, blocks are returned
    until the reserve is reached or at most one free block is left behind the
    current one, and never so many that fewer than the reserve (or than there were)
    remain; freeing before a node of the first block returns nothing. *)
Lemma tranx_reserve a Q fuel reserved_nodes :
  holds a Q -> block_num a < Z.of_nat fuel -> in_u 32 reserved_nodes ->
  holds (Tranx_node_allocator reserved_nodes) [] /\
  reserved_nodes <= reserved_blocks (Tranx_node_allocator reserved_nodes) * BLOCK_TRANX_NODES /\
  (exists a', free_all_nodes fuel a = Some (0, a') /\
     (block_num a' <= Z.max (reserved_blocks a) 2) /\ Z.min (block_num a) (reserved_blocks a) <= block_num a') /\
  (forall n, n ∈ Q ->
   exists a', free_nodes_before fuel n a = Some (0, a') /\
     (a' = a \/ exists pre cur post, rep a' (At pre cur post) /\
        ((length post <= 1)%nat \/ block_num a' <= reserved_blocks a)) /\
     Z.min (block_num a) (reserved_blocks a) <= block_num a').
Proof.
  intros (sh & HR & <-) Hfuel Hres. pose proof HR as [HT _ _]. pose proof (t_num _ _ HT) as Hn.
  assert (length (blocks_of sh) < fuel)%nat as Hf by lia.
  assert (in_u 32 (reserved_nodes / BLOCK_TRANX_NODES + if 1 <? reserved_nodes mod BLOCK_TRANX_NODES then 2 else 1)) as Hu.
  { unfold in_u, BLOCK_TRANX_NODES in *. pose proof (Z.div_mod reserved_nodes 16 ltac:(done)).
    pose proof (Z.mod_pos_bound reserved_nodes 16 ltac:(done)). destruct (_ <? _); lia. }
  split; [|split; [|split]].
  - exists Empty. by split; [apply new_rep|].
  - cbn. rewrite wrapU_small by done. unfold BLOCK_TRANX_NODES.
    pose proof (Z.div_mod reserved_nodes 16 ltac:(done)). pose proof (Z.mod_pos_bound reserved_nodes 16 ltac:(done)).
    destruct (Z.ltb_spec 1 (reserved_nodes mod 16)); lia.
  - destruct (free_all_run fuel a sh HR Hf) as (sh' & a' & E & [HT' _ _] & _ & _ & Hb & Hm). exists a'. split; [done|].
    split; [|done]. pose proof (t_num _ _ HT') as Hn'. destruct sh' as [|pre cur post]; [cbn in Hn'; lia|].
    destruct Hb as [-> Hb]. cbn in Hn'. lia.
  - intros n [i Hi]%list_elem_of_lookup_1.
    destruct (free_before_run fuel a sh i n HR Hi Hf) as (sh' & a' & E & HR' & _ & _ & _ & Hb & Hm & _).
    exists a'. split; [done|]. split; [|done]. destruct Hb as [->|Hb]; [by left|right].
    destruct sh' as [|pre cur post]; [done|]. by exists pre, cur, post.
Qed.
End properties.

(** ** At a concrete memory *)

(** Blocks one behind the other, as long as there is room below a limit. *)
#[local] Instance bump : BlockAlloc := {|
  my_malloc h := if decide (size h < 1000)%nat then 4096 + foldr Z.max 0 (elements (dom h)) + sizeof_Block else 0;
  garbage _ := replicate 16 (TranxNode 7 7 7 7 7)
|}.

Lemma foldr_max_in (l : list Z) x : x ∈ l -> x <= foldr Z.max 0 l.
Proof. induction 1; cbn; lia. Qed.
Lemma foldr_max_nonneg (l : list Z) : 0 <= foldr Z.max 0 l.
Proof. induction l; cbn; lia. Qed.

#[local] Instance bump_laws : BlockAllocLaws bump.
Proof.
  split; [|done]. intros h. cbn. destruct (decide _); [right|by left].
  pose proof (foldr_max_nonneg (elements (dom h))). unfold sizeof_Block, BLOCK_TRANX_NODES, sizeof_node, FN_REFLEN.
  split; [lia|]. intros b Hb. right. apply elem_of_elements in Hb. pose proof (foldr_max_in _ _ Hb). lia.
Qed.

(** A new allocator that has handed out one node. *)
Lemma one_node : exists n a, holds a [n] /\ block_num a = 1 /\ allocate_node (Tranx_node_allocator 20) = Some (n, a).
Proof.
  assert (holds (Tranx_node_allocator 20) []) as H0 by (exists Empty; by split; [apply new_rep|]).
  destruct (allocate_run (Tranx_node_allocator 20) [] H0) as [[E _]|(n & a & E & _ & _ & HL & Hb & _)]; [done|by vm_compute in E|].
  exists n, a. split; [exact HL|]. split; [exact Hb|exact E].
Qed.

Lemma tranx_refines_queue_witness :
  exists n a, holds a [n] /\ (exists a', free_nodes_before 5 n a = Some (0, a') /\ holds a' [n]) /\
    (exists a', destroy 5 a = Some (tt, a') /\ blocks a' = ∅).
Proof.
  destruct one_node as (n & a & HL & Hb & _). exists n, a. split; [exact HL|].
  destruct (tranx_refines_queue a [n] 5 HL) as (_ & H1 & _ & H2); [rewrite Hb; reflexivity|rewrite Hb; reflexivity|].
  split; [|exact H2]. destruct (H1 0%nat n eq_refl) as (a' & E & HL' & _). exists a'. split; [exact E|exact HL'].
Defined.
