(* ===== verification/HashFilo.v ===== *)
(** The cache with a bounded number of elements of
    [mariadb/include/mysql/server/private/hash_filo.h]: a hash table whose elements
    are linked in the order of their last use.

    The hash table of [hash.h] is external: the class [HashTable] names the calls
    that [hash_filo] makes and [HashTableLaws] states what their documentation says.
    An element is identified by a number, a pointer is an [option]; [None] as a
    result is undefined behaviour or a failed assertion. *)

From S2P Require Import Prelude ILink.

Open Scope st_scope.

(** [elements] is the array of records; keys that the character set compares as
    equal are equal. *)
Class HashTable (K : Type) := {
  hash : Type;
  my_hash_clear : hash;
  my_hash_init : Z -> hash;
  my_hash_search : hash -> K -> option nat;
  my_hash_insert : nat -> hash -> option hash;
  my_hash_delete : nat -> hash -> hash;
  records : hash -> Z;
  elements_of : hash -> list nat
}.

Class HashTableLaws {K : Type} (get_key : nat -> K) (T : HashTable K) : Prop := {
  law_clear : elements_of my_hash_clear = [];
  law_init n : elements_of (my_hash_init n) = [];
  law_search h k : match my_hash_search h k with
    | Some e => e ∈ elements_of h /\ get_key e = k
    | None => forall e, e ∈ elements_of h -> get_key e <> k
    end;
  law_insert h e h' : my_hash_insert e h = Some h' -> elements_of h' ≡ₚ e :: elements_of h;
  law_delete h e : e ∈ elements_of h -> elements_of h ≡ₚ e :: elements_of (my_hash_delete e h);
  law_records h : records h = Z.of_nat (length (elements_of h))
}.

Section HashFilo.
Context {K : Type} {T : HashTable K} (get_key : nat -> K).
(** Whether the cache was given a function that frees elements. *)
Context (free_element : bool).

(** [owned]: the calling thread holds [lock].  [freed] lists the elements given to
    [free_element]. *)
Record hash_filo := HashFilo {
  m_size : Z;
  init : bool;
  first_link : option nat;
  last_link : option nat;
  next_used : nat -> option nat;
  prev_used : nat -> option nat;
  cache : hash;
  owned : bool;
  freed : list nat
}.
Abbreviation M := (ST hash_filo).

Definition set_m_size (n : Z) (s : hash_filo) : hash_filo :=
  HashFilo n (init s) (first_link s) (last_link s) (next_used s) (prev_used s) (cache s) (owned s) (freed s).
Definition set_init (b : bool) (s : hash_filo) : hash_filo :=
  HashFilo (m_size s) b (first_link s) (last_link s) (next_used s) (prev_used s) (cache s) (owned s) (freed s).
Definition set_first (p : option nat) (s : hash_filo) : hash_filo :=
  HashFilo (m_size s) (init s) p (last_link s) (next_used s) (prev_used s) (cache s) (owned s) (freed s).
Definition set_last (p : option nat) (s : hash_filo) : hash_filo :=
  HashFilo (m_size s) (init s) (first_link s) p (next_used s) (prev_used s) (cache s) (owned s) (freed s).
Definition set_next (e : nat) (p : option nat) (s : hash_filo) : hash_filo :=
  HashFilo (m_size s) (init s) (first_link s) (last_link s) (upd (next_used s) e p) (prev_used s) (cache s) (owned s) (freed s).
Definition set_prev (e : nat) (p : option nat) (s : hash_filo) : hash_filo :=
  HashFilo (m_size s) (init s) (first_link s) (last_link s) (next_used s) (upd (prev_used s) e p) (cache s) (owned s) (freed s).
Definition set_cache (h : hash) (s : hash_filo) : hash_filo :=
  HashFilo (m_size s) (init s) (first_link s) (last_link s) (next_used s) (prev_used s) h (owned s) (freed s).
Definition set_owned (b : bool) (s : hash_filo) : hash_filo :=
  HashFilo (m_size s) (init s) (first_link s) (last_link s) (next_used s) (prev_used s) (cache s) b (freed s).
Definition free (es : list nat) (s : hash_filo) : hash_filo :=
  HashFilo (m_size s) (init s) (first_link s) (last_link s) (next_used s) (prev_used s) (cache s) (owned s)
    (if free_element then freed s ++ es else freed s).

Definition new (size_arg : Z) (junk : nat -> option nat) : hash_filo :=
  HashFilo size_arg false None None junk junk my_hash_clear false [].

Definition dassert (b : bool) : M unit := if b then st_ret tt else st_fail.
(** Locking needs an initialised mutex that the thread does not hold. *)
Definition mysql_mutex_lock : M unit :=
  let* i := st_gets init in
  let* o := st_gets owned in
  dassert (i && negb o);;; st_modify (set_owned true).
Definition mysql_mutex_unlock : M unit :=
  let* o := st_gets owned in
  dassert o;;; st_modify (set_owned false).
Definition mysql_mutex_assert_owner : M unit := let* o := st_gets owned in dassert o.

Definition clear (locked : bool) : M unit :=
  let* i := st_gets init in
  (if i then st_ret tt else st_modify (set_init true));;;
  (if locked then st_ret tt else mysql_mutex_lock);;;
  st_modify (set_first None);;;
  st_modify (set_last None);;;
  let* c := st_gets cache in
  st_modify (free (elements_of c));;;
  let* n := st_gets m_size in
  st_modify (set_cache (my_hash_init n));;;
  (if locked then st_ret tt else mysql_mutex_unlock).

Definition first : M (option nat) := mysql_mutex_assert_owner;;; st_gets first_link.
Definition last_ : M (option nat) := mysql_mutex_assert_owner;;; st_gets last_link.

(** The entry that [search] found is linked first. *)
Definition relink (entry : nat) : M unit :=
  let* last := st_gets last_link in
  (if bool_decide (last = Some entry) then
     let* l := st_opt last in
     let* p := st_gets (fun s => prev_used s l) in
     st_modify (set_last p);;;
     let* p := st_opt p in
     st_modify (set_next p None)
   else
     let* n := st_gets (fun s => next_used s entry) in
     let* p := st_gets (fun s => prev_used s entry) in
     let* n := st_opt n in
     let* p := st_opt p in
     st_modify (set_prev n (Some p));;;
     st_modify (set_next p (Some n)));;;
  st_modify (set_prev entry None);;;
  let* first := st_gets first_link in
  st_modify (set_next entry first);;;
  let* f := st_opt first in
  st_modify (set_prev f (Some entry));;;
  st_modify (set_first (Some entry)).

Definition search (key : K) : M (option nat) :=
  mysql_mutex_assert_owner;;;
  let* c := st_gets cache in
  let entry := my_hash_search c key in
  match entry with
  | None => st_ret entry
  | Some e =>
      let* first := st_gets first_link in
      let* last := st_gets last_link in
      dassert (bool_decide (first <> None) && bool_decide (last <> None));;;
      (if bool_decide (first = Some e) then st_ret tt else relink e);;;
      st_ret entry
  end.

(** The element that was not used for the longest time goes. *)
Definition evict : M unit :=
  let* tmp := st_gets last_link in
  let* l := st_opt tmp in
  let* p := st_gets (fun s => prev_used s l) in
  st_modify (set_last p);;;
  match p with
  | Some p => st_modify (set_next p None)
  | None => st_modify (set_first None)
  end;;;
  let* c := st_gets cache in
  st_modify (set_cache (my_hash_delete l c));;;
  st_modify (free [l]).

(** The new entry, which is in the hash table [c], becomes the first of the chain. *)
Definition link_first (entry : nat) (c : hash) : M bool :=
  st_modify (set_cache c);;;
  st_modify (set_prev entry None);;;
  let* first := st_gets first_link in
  st_modify (set_next entry first);;;
  match first with
  | Some f => st_modify (set_prev f (Some entry))
  | None => st_modify (set_last (Some entry))
  end;;;
  st_modify (set_first (Some entry));;;
  st_ret false.

(** The result is true when the entry is not added. *)
Definition add (entry : nat) : M bool :=
  let* n := st_gets m_size in
  if n =? 0 then st_ret true
  else
    let* c := st_gets cache in
    (if records c =? n then evict else st_ret tt);;;
    let* c := st_gets cache in
    match my_hash_insert entry c with
    | None => st_modify (free [entry]);;; st_ret true
    | Some c => link_first entry c
    end.

Definition size (s : hash_filo) : Z := m_size s.

Definition resize (new_size : Z) : M unit :=
  mysql_mutex_lock;;;
  st_modify (set_m_size new_size);;;
  clear true;;;
  mysql_mutex_unlock.

(** ** The chain of elements

    [seg p xs n]: the elements [xs] are linked both ways; the first one has the
    predecessor [p], the last one the successor [n]. *)

Definition hdo (xs : list nat) (n : option nat) : option nat := match xs with [] => n | x :: _ => Some x end.
Definition lasto (p : option nat) (xs : list nat) : option nat :=
  match last xs with Some x => Some x | None => p end.

Fixpoint seg (s : hash_filo) (p : option nat) (xs : list nat) (n : option nat) : Prop :=
  match xs with
  | [] => True
  | x :: xs => prev_used s x = p /\ next_used s x = hdo xs n /\ seg s (Some x) xs n
  end.

Lemma lasto_cons p x xs : lasto p (x :: xs) = lasto (Some x) xs.
Proof. unfold lasto. destruct xs; [done|]. cbn. by destruct (last (n :: xs)) eqn:E; [|apply last_None in E]. Qed.
Lemma lasto_snoc p xs x : lasto p (xs ++ [x]) = Some x.
Proof. unfold lasto. by rewrite last_snoc. Qed.
Lemma hdo_app xs ys n : hdo (xs ++ ys) n = hdo xs (hdo ys n).
Proof. by destruct xs. Qed.

Lemma hf_seg_app s p xs ys n : seg s p (xs ++ ys) n <-> seg s p xs (hdo ys n) /\ seg s (lasto p xs) ys n.
Proof.
  revert p. induction xs as [|x xs IH]; intros p; cbn [seg app]; [cbn; tauto|].
  rewrite IH, lasto_cons, hdo_app. tauto.
Qed.
Lemma hf_seg_frame s s' p xs n : (forall x, x ∈ xs -> next_used s' x = next_used s x /\ prev_used s' x = prev_used s x) ->
  seg s p xs n -> seg s' p xs n.
Proof.
  revert p. induction xs as [|x xs IH]; intros p Hf; cbn; [done|]. intros (H1 & H2 & H3).
  destruct (Hf x) as [E1 E2]; [set_solver|]. split; [by rewrite E2|]. split; [by rewrite E1|].
  apply IH; [|done]. intros y Hy. apply Hf. set_solver.
Qed.
Lemma seg_cons s p x xs n : seg s p (x :: xs) n <-> prev_used s x = p /\ next_used s x = hdo xs n /\ seg s (Some x) xs n.
Proof. done. Qed.

(** Changing the two outer pointers of a chain. *)
Lemma seg_ends s s' p xs n p' n' : seg s p xs n -> NoDup xs ->
  (forall x, x ∈ xs -> prev_used s' x = if decide (head xs = Some x) then p' else prev_used s x) ->
  (forall x, x ∈ xs -> next_used s' x = if decide (last xs = Some x) then n' else next_used s x) ->
  seg s' p' xs n'.
Proof.
  revert p p'. induction xs as [|x xs IH]; intros p p' Hs Hnd Hp Hn; [done|].
  destruct Hs as (H1 & H2 & H3). apply NoDup_cons in Hnd as [Hx Hnd]. split; [|split].
  - rewrite Hp by left. by rewrite decide_True.
  - rewrite Hn by left. destruct xs as [|y xs]; [by rewrite decide_True|]. cbn [hdo] in *.
    rewrite decide_False; [done|]. intros E. apply Hx. apply last_Some_elem_of. by rewrite <- E.
  - apply (IH (Some x)); [done|done|..].
    + intros y Hy. rewrite Hp by (by right). rewrite decide_False by (intros [= ->]; done).
      destruct xs as [|z xs]; [done|]. cbn. destruct (decide (Some z = Some y)) as [[= ->]|]; [|done]. by destruct H3.
    + intros y Hy. rewrite Hn by (by right). destruct xs as [|z xs]; [by apply elem_of_nil in Hy|]. done.
Qed.
Lemma seg_last_next s p xs n x : seg s p xs n -> last xs = Some x -> next_used s x = n.
Proof. intros Hs [l ->]%last_Some. by apply hf_seg_app in Hs as [_ (_ & H & _)]. Qed.
#[local] Arguments seg : simpl never.

(** The list, without the hash table. *)
Record chain (s : hash_filo) (xs : list nat) : Prop := Chain {
  c_seg : seg s None xs None;
  c_first : first_link s = head xs;
  c_last : last_link s = last xs
}.

(** What does not change with the list. *)
Definition same_rest (s s' : hash_filo) : Prop :=
  m_size s' = m_size s /\ init s' = init s /\ cache s' = cache s /\ owned s' = owned s /\ freed s' = freed s.

Lemma head_in (x : nat) xs : head xs = Some x -> x ∈ xs.
Proof. destruct xs; [done|]. intros [= ->]. left. Qed.

(** One pointer written, for an element of a list and one outside of it. *)
Lemma upd_if (f : nat -> option nat) (o : option nat) a v x : o = Some a ->
  upd f a v x = if decide (o = Some x) then v else f x.
Proof. intros ->. unfold upd. destruct (decide (x = a)) as [->|H]; [by rewrite decide_True|by rewrite decide_False by congruence]. Qed.

(** [relink] of an entry that is not the first. *)
Lemma hf_relink_run s l e r f : head l = Some f -> chain s (l ++ e :: r) -> NoDup (l ++ e :: r) ->
  exists s', relink e s = Some (tt, s') /\ chain s' (e :: l ++ r) /\ same_rest s s'.
Proof.
  intros Hhd [Hs Hf Hl] Hnd. apply hf_seg_app in Hs as [Hs1 (He1 & He2 & Hs2)].
  apply NoDup_app in Hnd as (N1 & N12 & [Ne Nr]%NoDup_cons).
  assert (forall x, x ∈ l -> x <> e) as Nle by (intros x Hx ->; apply (N12 e Hx); left).
  assert (forall x, x ∈ l -> x ∉ r) as Nlr by (intros x Hx Hr; apply (N12 x Hx); by right).
  destruct (last l) as [p|] eqn:Hp; [|by apply last_None in Hp as ->].
  pose proof (last_Some_elem_of _ _ Hp) as Hpin. pose proof (head_in _ _ Hhd) as Hfin.
  unfold lasto in He1, Hs2. rewrite Hp in He1.
  assert (head (l ++ e :: r) = Some f) as Hhd' by (by destruct l). rewrite Hhd' in Hf.
  unfold relink, st_bind, st_gets, st_modify, st_opt, st_ret. rewrite Hl.
  destruct r as [|n r].
  - rewrite last_snoc, bool_decide_true by done. cbn. rewrite He1. cbn. rewrite Hf. eexists. split; [reflexivity|].
    split; [|done]. rewrite app_nil_r. split; cbn; [|done|by destruct l].
    apply seg_cons. cbn. rewrite upd_ne by (by apply not_eq_sym, Nle). rewrite !upd_eq. split; [done|].
    split; [destruct l; [done|by injection Hhd as ->]|]. apply (seg_ends s _ None l (Some e)); [done|done|..]; cbn; intros x Hx.
    + rewrite (upd_if _ (head l)) by done. by rewrite upd_ne by (by apply Nle).
    + rewrite upd_ne by (by apply Nle). by rewrite (upd_if _ (last l)).
  - cbn in He2. assert (e <> n) as Nen by (intros ->; apply Ne; left).
    assert (last (l ++ e :: n :: r) = last (n :: r)) as Hlast.
    { rewrite (last_app l). destruct (last (e :: n :: r)) eqn:E; [done|by apply last_None in E]. }
    assert (last ((e :: l) ++ n :: r) = last (n :: r)) as Hlast2.
    { rewrite (last_app (e :: l)). destruct (last (n :: r)) eqn:E; [done|by apply last_None in E]. }
    assert (last (n :: r) <> Some e) as Hle by (intros E; apply Ne; by apply last_Some_elem_of).
    rewrite bool_decide_false by (by rewrite Hlast). rewrite He2, He1. cbn. rewrite Hf. eexists. split; [reflexivity|].
    split; [|done]. split; cbn; [|done|rewrite Hl, Hlast; symmetry; exact Hlast2].
    assert (f <> n) as Nfn by (intros ->; apply (Nlr n Hfin); left).
    apply (hf_seg_app _ None (e :: l)). split.
    + apply seg_cons. cbn. rewrite upd_ne by (by apply not_eq_sym, Nle). rewrite !upd_eq. split; [done|].
      split; [destruct l; [done|by injection Hhd as ->]|].
      apply (seg_ends s _ None l (Some e)); [done|done|..]; cbn; intros x Hx.
      * rewrite (upd_if _ (head l)) by done. rewrite upd_ne by (by apply Nle).
        destruct (decide (head l = Some x)); [done|]. rewrite upd_ne; [done|]. intros ->. apply (Nlr n Hx). left.
      * rewrite upd_ne by (by apply Nle). by rewrite (upd_if _ (last l)).
    + rewrite lasto_cons. unfold lasto. rewrite Hp. apply seg_cons in Hs2 as (Hn1 & Hn2 & Hs2).
      assert (forall x, x ∈ n :: r -> x <> f /\ x <> e /\ x <> p) as Hne.
      { intros x Hx. split; [|split]; intros ->; [by apply (Nlr f)|done|by apply (Nlr p)]. }
      apply (seg_ends s _ (Some e) (n :: r) None); [by apply seg_cons|done|..]; cbn; intros x Hx; destruct (Hne x Hx) as (X1 & X2 & X3).
      * rewrite upd_ne by done. rewrite upd_ne by done. by rewrite (upd_if _ (Some n)).
      * rewrite upd_ne by done. rewrite upd_ne by done.
        destruct (decide _) as [E|]; [|done]. apply (seg_last_next s (Some e) (n :: r)); [by apply seg_cons|done].
Qed.

(** ** The cache as a list in the order of last use *)

Record rep (s : hash_filo) (xs : list nat) : Prop := Rep {
  r_chain : chain s xs;
  r_keys : NoDup (get_key <$> xs);
  r_hash : elements_of (cache s) ≡ₚ xs;
  r_size : Z.of_nat (length xs) <= m_size s;
  r_range : in_u 32 (m_size s);
  r_init : init s = true
}.

Context {TL : HashTableLaws get_key T}.

Definition freed_with (s : hash_filo) (es : list nat) : list nat := if free_element then freed s ++ es else freed s.

Lemma keys_nodup xs : NoDup (get_key <$> xs) -> NoDup xs.
Proof. apply NoDup_fmap_1. Qed.

Lemma key_unique xs x y : NoDup (get_key <$> xs) -> x ∈ xs -> y ∈ xs -> get_key x = get_key y -> x = y.
Proof.
  intros Hnd [l [r ->]]%list_elem_of_split Hy E. rewrite fmap_app, fmap_cons in Hnd.
  apply NoDup_app in Hnd as (_ & H1 & [H2 _]%NoDup_cons). apply elem_of_app in Hy as [Hy|[->|Hy]%elem_of_cons]; [|done|].
  - exfalso. apply (H1 (get_key y)); [by apply list_elem_of_fmap_2|]. rewrite <- E. left.
  - exfalso. apply H2. rewrite E. by apply list_elem_of_fmap_2.
Qed.

(** The lock and the list of freed elements do not matter. *)
Lemma hf_rep_ext s s' xs : rep s xs -> next_used s' = next_used s -> prev_used s' = prev_used s ->
  first_link s' = first_link s -> last_link s' = last_link s -> cache s' = cache s -> m_size s' = m_size s ->
  init s' = init s -> rep s' xs.
Proof.
  intros [[] H1 H2 H3 H4 H5] E1 E2 E3 E4 E5 E6 E7. split; [split| | | | |]; rewrite ?E3, ?E4, ?E5, ?E6, ?E7; try done.
  apply (hf_seg_frame s); [|done]. intros x _. by rewrite E1, E2.
Qed.

(** [search]: the entry moves to the front. *)
Lemma search_run s xs k : rep s xs -> owned s = true ->
  (exists l e r s', xs = l ++ e :: r /\ get_key e = k /\ search k s = Some (Some e, s') /\ rep s' (e :: l ++ r) /\
     owned s' = true /\ m_size s' = m_size s /\ freed s' = freed s) \/
  ((forall e, e ∈ xs -> get_key e <> k) /\ search k s = Some (None, s)).
Proof.
  intros [[Hs Hf Hl] Hk Hh Hsz Hr Hi] Ho. unfold search, mysql_mutex_assert_owner, dassert, st_bind, st_gets, st_ret.
  rewrite Ho. pose proof (law_search (cache s) k) as L. destruct (my_hash_search (cache s) k) as [e|].
  - destruct L as [He Hke]. rewrite Hh in He. apply list_elem_of_split in He as (l & r & ->). left. exists l, e, r.
    assert (first_link s <> None /\ last_link s <> None) as [Nf Nl].
    { rewrite Hf, Hl. split; [by destruct l|]. rewrite last_app_cons. by intros ?%last_None. }
    rewrite !bool_decide_true by done. cbn [andb]. destruct l as [|f l].
    + rewrite Hf, bool_decide_true by done. exists s. by split_and!.
    + assert (f <> e) as Nfe.
      { intros ->. apply keys_nodup, NoDup_app in Hk as (_ & H & _). apply (H e); [left|left]. }
      rewrite Hf. cbn [head app]. rewrite bool_decide_false by congruence.
      destruct (hf_relink_run s (f :: l) e r f eq_refl) as (s' & E & Hc & R1 & R2 & R3 & R4 & R5); [done|by apply keys_nodup|].
      rewrite E. exists s'. split_and!; try done; [|by rewrite R4].
      assert ((f :: l) ++ e :: r ≡ₚ e :: (f :: l) ++ r) as HP by (symmetry; apply Permutation_middle).
      split; [done|by rewrite <- HP|by rewrite R3, <- HP|by rewrite <- HP, R1|by rewrite R1|by rewrite R2].
  - right. split; [|done]. intros e He. apply L. by rewrite Hh.
Qed.

(** Dropping the last element. *)
Lemma evict_run s xs z : rep s (xs ++ [z]) -> exists s', evict s = Some (tt, s') /\ rep s' xs /\
  owned s' = owned s /\ m_size s' = m_size s /\ freed s' = freed_with s [z] /\ Z.of_nat (length xs) < m_size s'.
Proof.
  intros [[Hs Hf Hl] Hk Hh Hsz Hr Hi]. pose proof Hk as Hnd%keys_nodup. apply NoDup_snoc in Hnd as [Hnd Hz].
  apply hf_seg_app in Hs as [Hs (Hz1 & _)]. rewrite fmap_app in Hk. apply NoDup_app in Hk as (Hk & _ & _).
  assert (elements_of (my_hash_delete z (cache s)) ≡ₚ xs) as Hd.
  { assert (z ∈ elements_of (cache s)) as Hin by (rewrite Hh; set_solver). pose proof (law_delete _ _ Hin) as HP.
    rewrite Hh in HP. rewrite <- Permutation_cons_append in HP. by apply Permutation_cons_inv in HP. }
  rewrite length_app in Hsz. cbn in Hsz.
  unfold evict, st_bind, st_gets, st_modify, st_opt, st_ret. rewrite Hl, last_snoc, Hz1. unfold lasto.
  destruct (last xs) as [p|] eqn:Hp.
  - eexists. split; [reflexivity|]. split; [|cbn; split_and!; try done; lia].
    split; cbn; try done; [|lia]. split; cbn; [|by rewrite Hf; destruct xs|done].
    apply (seg_ends s _ None xs (Some z)); [done|done|..]; cbn; intros x Hx.
    + destruct (decide (head xs = Some x)) as [E|]; [|done]. destruct xs; [done|]. injection E as ->. by apply seg_cons in Hs as [? _].
    + by rewrite (upd_if _ (last xs)).
  - apply last_None in Hp as ->. eexists. split; [reflexivity|]. split; [|cbn; split_and!; try done; lia].
    split; cbn; try done; lia.
Qed.

(** Linking a new entry first, when there is room. *)
Lemma add_front s xs e : rep s xs -> (forall x, x ∈ xs -> get_key x <> get_key e) -> Z.of_nat (length xs) < m_size s ->
  forall c, my_hash_insert e (cache s) = Some c ->
  exists s', link_first e c s = Some (false, s') /\
    rep s' (e :: xs) /\ owned s' = owned s /\ m_size s' = m_size s /\ freed s' = freed s.
Proof.
  intros [[Hs Hf Hl] Hk Hh Hsz Hr Hi] Hfresh Hlt c Hc. apply law_insert in Hc.
  assert (e ∉ xs) as He by (intros Hin; by apply (Hfresh e)).
  assert (NoDup (get_key <$> e :: xs)) as Hk'.
  { rewrite fmap_cons. apply NoDup_cons. split; [|done]. intros (x & Ex & Hx)%list_elem_of_fmap. by apply (Hfresh x). }
  unfold link_first, st_bind, st_gets, st_modify, st_ret. cbn. rewrite Hf.
  destruct (head xs) as [f|] eqn:Hhd.
  - eexists. split; [reflexivity|]. cbn. split; [|done].
    pose proof (head_in _ _ Hhd) as Hfin. assert (f <> e) as Nfe by (by intros ->).
    split; cbn; try done; [|by rewrite Hc, Hh|lia]. split; cbn; [|done|by destruct xs].
    apply seg_cons. cbn. rewrite upd_ne by done. rewrite !upd_eq. split; [done|].
    split; [destruct xs; [done|by injection Hhd as ->]|].
    apply (seg_ends s _ None xs None); [done|by apply keys_nodup|..]; cbn; intros x Hx.
    + rewrite (upd_if _ (head xs)) by done. rewrite upd_ne by (by intros ->). done.
    + rewrite upd_ne by (by intros ->). destruct (decide _) as [E|]; [|done]. by apply (seg_last_next s None xs).
  - destruct xs; [|done]. eexists. split; [reflexivity|]. cbn. split; [|done].
    split; cbn; try done; [|by rewrite Hc, Hh|lia]. split; cbn; [|done|done].
    apply seg_cons. cbn. by rewrite !upd_eq.
Qed.

(** What [add] evicts: the last element of a full cache. *)
Definition evicted (n : Z) (xs : list nat) : list nat :=
  if Z.of_nat (length xs) =? n then match last xs with Some x => [x] | None => [] end else [].

Lemma add_run s xs e : rep s xs -> (forall x, x ∈ xs -> get_key x <> get_key e) -> m_size s <> 0 ->
  exists kept s', xs = kept ++ evicted (m_size s) xs /\ owned s' = owned s /\ m_size s' = m_size s /\
    ((add e s = Some (false, s') /\ rep s' (e :: kept) /\ freed s' = freed_with s (evicted (m_size s) xs)) \/
     (add e s = Some (true, s') /\ rep s' kept /\ freed s' = freed_with s (evicted (m_size s) xs ++ [e]))).
Proof.
  intros HR Hfresh Hn. pose proof HR as [_ _ Hh Hsz Hr _].
  assert (exists kept s1, xs = kept ++ evicted (m_size s) xs /\
      (if records (cache s) =? m_size s then evict else st_ret tt) s = Some (tt, s1) /\ rep s1 kept /\
      owned s1 = owned s /\ m_size s1 = m_size s /\ freed s1 = freed_with s (evicted (m_size s) xs) /\
      Z.of_nat (length kept) < m_size s1) as (kept & s1 & Ex & E1 & HR1 & Ho & Hm & Hfr & Hlt).
  { unfold evicted. rewrite law_records, (Permutation_length Hh). destruct (Z.eqb_spec (Z.of_nat (length xs)) (m_size s)) as [Efull|Nfull].
    - destruct (list_snoc_inv xs) as [->|(kept & z & ->)]; [cbn in *; lia|]. rewrite last_snoc.
      destruct (evict_run s kept z HR) as (s1 & E & HR1 & Ho & Hm & Hfr & Hlt). by exists kept, s1.
    - exists xs, s. rewrite app_nil_r. split_and!; try done; [|lia]. unfold freed_with. destruct free_element; by rewrite ?app_nil_r. }
  exists kept.
  assert (add e s = match my_hash_insert e (cache s1) with
                    | None => Some (true, free [e] s1) | Some c => link_first e c s1 end) as ->.
  { unfold add, st_bind, st_gets, st_modify. rewrite (proj2 (Z.eqb_neq _ _)) by done. rewrite E1.
    by destruct (my_hash_insert e (cache s1)). }
  assert (forall x, x ∈ kept -> get_key x <> get_key e) as Hfresh1 by (intros x Hx; apply Hfresh; rewrite Ex; set_solver).
  destruct (my_hash_insert e (cache s1)) as [c|] eqn:Ec.
  - destruct (add_front s1 kept e HR1 Hfresh1 Hlt c Ec) as (s' & E & HR' & Ho' & Hm' & Hf'). exists s'.
    split; [done|]. split; [congruence|]. split; [congruence|]. left. split; [exact E|]. split; [done|congruence].
  - eexists. split; [done|]. split; [|split; [|right; split; [reflexivity|]]]; [done|done|].
    split; [by apply (hf_rep_ext s1)|]. cbn. rewrite Hfr. unfold freed_with. destruct free_element; by rewrite ?app_assoc.
Qed.

(** [clear] *)
Lemma clear_run s xs (locked : bool) : elements_of (cache s) ≡ₚ xs -> owned s = locked -> in_u 32 (m_size s) ->
  exists s' es, clear locked s = Some (tt, s') /\ rep s' [] /\ owned s' = locked /\ m_size s' = m_size s /\
    es ≡ₚ xs /\ freed s' = freed_with s es.
Proof.
  intros Hh Ho Hr. exists (HashFilo (m_size s) true None None (next_used s) (prev_used s) (my_hash_init (m_size s)) locked
    (freed_with s (elements_of (cache s)))), (elements_of (cache s)).
  split; [|split; [|done]].
  - unfold clear, mysql_mutex_lock, mysql_mutex_unlock, dassert, st_bind, st_gets, st_modify, st_ret, free, freed_with.
    destruct (init s) eqn:Hi, locked; cbn; rewrite ?Hi, ?Ho; cbn; rewrite ?Ho; unfold set_owned, set_cache; cbn; rewrite ?Hi; reflexivity.
  - split; cbn; try done; [apply NoDup_nil_2|by rewrite law_init|apply Hr].
Qed.

(** C20 : The cache keeps the elements in the order of their last use and never more
    than its size.  [search] returns the element with the key, if there is one, and
    makes it the most recent; [add] of an element with a new key makes it the most
    recent, after freeing the one that was used longest ago when the cache is full
    (if the hash table has no memory, the new element is freed instead and reported);
    [clear] and [resize] free every element.  All of them leave the chain and the
    hash table with the same elements, and no operation fails. *)
Theorem hash_filo_lru s xs :
  rep s xs ->
  Z.of_nat (length xs) <= m_size s /\ first_link s = head xs /\ last_link s = last xs /\
  (forall k, owned s = true ->
    (exists l e r s', xs = l ++ e :: r /\ get_key e = k /\ search k s = Some (Some e, s') /\ rep s' (e :: l ++ r) /\
       owned s' = true /\ m_size s' = m_size s /\ freed s' = freed s) \/
    ((forall e, e ∈ xs -> get_key e <> k) /\ search k s = Some (None, s))) /\
  (forall e, (forall x, x ∈ xs -> get_key x <> get_key e) ->
    (m_size s = 0 /\ add e s = Some (true, s)) \/
    exists kept s', xs = kept ++ evicted (m_size s) xs /\ owned s' = owned s /\ m_size s' = m_size s /\
      ((add e s = Some (false, s') /\ rep s' (e :: kept) /\ freed s' = freed_with s (evicted (m_size s) xs)) \/
       (add e s = Some (true, s') /\ rep s' kept /\ freed s' = freed_with s (evicted (m_size s) xs ++ [e])))) /\
  (exists s' es, clear (owned s) s = Some (tt, s') /\ rep s' [] /\ es ≡ₚ xs /\ freed s' = freed_with s es) /\
  (forall n, owned s = false -> in_u 32 n ->
    exists s' es, resize n s = Some (tt, s') /\ rep s' [] /\ m_size s' = n /\ es ≡ₚ xs /\ freed s' = freed_with s es).
Proof.
  intros HR. pose proof HR as [[_ Hf Hl] Hk Hh Hsz Hr Hi]. split; [done|]. split; [done|]. split; [done|].
  split; [intros k Ho; by apply search_run|]. split; [|split].
  - intros e He. destruct (Z.eq_dec (m_size s) 0) as [E0|N0]; [left|right; by apply add_run].
    split; [done|]. unfold add, st_bind, st_gets. by rewrite E0.
  - destruct (clear_run s xs (owned s) Hh eq_refl Hr) as (s' & es & E & HR' & _ & _ & Hes & Hfr). by exists s', es.
  - intros n Ho Hn. set (s1 := set_m_size n (set_owned true s)).
    destruct (clear_run s1 xs true Hh eq_refl Hn) as (s2 & es & E & HR' & Ho2 & Hm & Hes & Hfr).
    exists (set_owned false s2), es. unfold resize, mysql_mutex_lock, mysql_mutex_unlock, dassert, st_bind, st_gets, st_modify, st_ret.
    rewrite Hi, Ho. cbn [andb negb]. fold s1. rewrite E, Ho2. split; [done|].
    split; [by apply (hf_rep_ext s2)|]. split; [done|]. split; [done|]. exact Hfr.
Qed.
End HashFilo.

(** ** A concrete hash table

    The records in an array, searched from the front; at most a thousand. *)

Fixpoint remove_first (e : nat) (h : list nat) : list nat :=
  match h with
  | [] => []
  | x :: h => if decide (x = e) then h else x :: remove_first e h
  end.

#[local] Instance table (key : nat -> nat) : HashTable nat := {|
  hash := list nat;
  my_hash_clear := [];
  my_hash_init _ := [];
  my_hash_search h k := snd <$> list_find (fun e => key e = k) h;
  my_hash_insert e h := if decide (length h < 1000)%nat then Some (e :: h) else None;
  my_hash_delete e h := remove_first e h;
  records h := Z.of_nat (length h);
  elements_of h := h
|}.

#[local] Instance table_laws key : HashTableLaws key (table key).
Proof.
  split; cbn; try done.
  - intros h k. destruct (list_find _ h) as [[i e]|] eqn:E; cbn.
    + apply list_find_Some in E as (Hi & He & _). split; [by eapply list_elem_of_lookup_2|done].
    + apply list_find_None in E. by rewrite Forall_forall in E.
  - intros h e h'. destruct (decide _); [|done]. by intros [= <-].
  - intros h e. induction h as [|x h IH]; intros He; [by apply elem_of_nil in He|]. cbn.
    destruct (decide (x = e)) as [->|Hne]; [done|]. apply elem_of_cons in He as [->|He]; [done|].
    rewrite Permutation_swap. by rewrite <- IH.
Qed.

(** Two elements whose keys are their numbers, of which 4 was used last, in a cache
    for two. *)
Definition two_elements : hash_filo :=
  @HashFilo nat (table id) 2 true (Some 4%nat) (Some 3%nat)
    (fun e => if decide (e = 4%nat) then Some 3%nat else None)
    (fun e => if decide (e = 3%nat) then Some 4%nat else None) [3%nat; 4%nat] true [].

Lemma two_elements_rep : rep id two_elements [4%nat; 3%nat].
Proof.
  split; [by split|..]; cbn; try done; first [by apply perm_swap|apply (bool_decide_unpack _); vm_compute; exact I].
Qed.

Lemma hash_filo_lru_witness :
  (exists s', search 3%nat two_elements = Some (Some 3%nat, s') /\ rep id s' [3%nat; 4%nat]) /\
  (exists s', add true 5%nat two_elements = Some (false, s') /\ rep id s' [5%nat; 4%nat] /\ freed s' = [3%nat]).
Proof.
  destruct (hash_filo_lru id true two_elements [4%nat; 3%nat] two_elements_rep) as (_ & _ & _ & Hs & Ha & _). split.
  - destruct (Hs 3%nat eq_refl) as [(l & e & r & s' & El & He & E & HR & _)|[H _]].
    + exists s'. cbn in He. subst e. split; [exact E|].
      destruct l as [|a [|b l]]; [discriminate El|injection El as -> <-; exact HR|].
      injection El as _ _ El. destruct l; discriminate El.
    + destruct (H 3%nat); [right; left|reflexivity].
  - destruct (Ha 5%nat) as [[H _]|(kept & s' & Ek & _ & _ & [(E & HR & Hf)|(E & _)])].
    + intros x Hx E. cbn in E. subst x. revert Hx. apply (bool_decide_unpack _). vm_compute. exact I.
    + discriminate H.
    + exists s'. split; [exact E|]. cbn in Ek. destruct kept as [|a [|b kept]]; [discriminate Ek|injection Ek as <-|].
      * split; [exact HR|exact Hf].
      * injection Ek as _ _ Ek. destruct kept; discriminate Ek.
    + vm_compute in E. discriminate E.
Defined.
