(* ===== verification/MyTime.v ===== *)
(** Dates and times: the structure [MYSQL_TIME] ([mysql_time.h]), the constants and
    the truncation functions of [my_time.h], the inline conversions and checks of
    [sql_time.h], and [Timeval] of [structs.h] with the class [Timestamp] and
    [Timestamp_or_zero_datetime] of [sql_type.h].  What the headers only declare is
    the class [TimeLib]; what the headers say about it is [TimeLibLaws].

    [long] and [ulong] have 64 bits.  A failed [DBUG_ASSERT] is [None]. *)

From S2P Require Import Prelude BasicTypes.
Import DateMode.

(** The assertion, as a step of the option monad. *)
Definition dbug_assert (b : bool) : option unit := if b then Some tt else None.

(** ** mysql_time.h *)

Inductive timestamp_type :=
  | MYSQL_TIMESTAMP_NONE | MYSQL_TIMESTAMP_ERROR
  | MYSQL_TIMESTAMP_DATE | MYSQL_TIMESTAMP_DATETIME | MYSQL_TIMESTAMP_TIME.

#[export] Instance timestamp_type_eq_dec : EqDecision timestamp_type.
Proof. solve_decision. Defined.

(** The numbers of the enumerators. *)
Definition timestamp_value (t : timestamp_type) : Z :=
  match t with
  | MYSQL_TIMESTAMP_NONE => -2 | MYSQL_TIMESTAMP_ERROR => -1
  | MYSQL_TIMESTAMP_DATE => 0 | MYSQL_TIMESTAMP_DATETIME => 1 | MYSQL_TIMESTAMP_TIME => 2
  end.

Record MYSQL_TIME := MySQLTime {
  year : Z; month : Z; day : Z; hour : Z; minute : Z; second : Z;
  second_part : Z; neg : bool; time_type : timestamp_type }.

#[export] Instance MYSQL_TIME_eq_dec : EqDecision MYSQL_TIME.
Proof. solve_decision. Defined.

(** Assignments to a member. *)
Definition set_year v t := MySQLTime v (month t) (day t) (hour t) (minute t) (second t) (second_part t) (neg t) (time_type t).
Definition set_month v t := MySQLTime (year t) v (day t) (hour t) (minute t) (second t) (second_part t) (neg t) (time_type t).
Definition set_day v t := MySQLTime (year t) (month t) v (hour t) (minute t) (second t) (second_part t) (neg t) (time_type t).
Definition set_hour v t := MySQLTime (year t) (month t) (day t) v (minute t) (second t) (second_part t) (neg t) (time_type t).
Definition set_minute v t := MySQLTime (year t) (month t) (day t) (hour t) v (second t) (second_part t) (neg t) (time_type t).
Definition set_second v t := MySQLTime (year t) (month t) (day t) (hour t) (minute t) v (second_part t) (neg t) (time_type t).
Definition set_second_part v t := MySQLTime (year t) (month t) (day t) (hour t) (minute t) (second t) v (neg t) (time_type t).
Definition set_neg v t := MySQLTime (year t) (month t) (day t) (hour t) (minute t) (second t) (second_part t) v (time_type t).
Definition set_time_type v t := MySQLTime (year t) (month t) (day t) (hour t) (minute t) (second t) (second_part t) (neg t) v.

Definition is_type (k : timestamp_type) (t : MYSQL_TIME) : bool := bool_decide (time_type t = k).

(** ** my_time.h: constants *)

Definition TIMESTAMP_MAX_YEAR : Z := 2038.
Definition YY_PART_YEAR : Z := 70.
Definition TIMESTAMP_MIN_YEAR : Z := 1900 + YY_PART_YEAR - 1.
Definition TIMESTAMP_MAX_VALUE : Z := 2 ^ 31 - 1.
Definition TIMESTAMP_MIN_VALUE : Z := 0.
Definition MYSQL_TIME_WARN_TRUNCATED : Z := 1.
Definition MYSQL_TIME_WARN_OUT_OF_RANGE : Z := 2.
Definition MYSQL_TIME_WARN_EDOM : Z := 4.
Definition MYSQL_TIME_WARN_ZERO_DATE : Z := 8.
Definition MYSQL_TIME_NOTE_TRUNCATED : Z := 16.
Definition MYSQL_TIME_WARN_WARNINGS : Z :=
  Z.lor MYSQL_TIME_WARN_TRUNCATED (Z.lor MYSQL_TIME_WARN_OUT_OF_RANGE
    (Z.lor MYSQL_TIME_WARN_EDOM MYSQL_TIME_WARN_ZERO_DATE)).
Definition MYSQL_TIME_WARN_NOTES : Z := MYSQL_TIME_NOTE_TRUNCATED.
Definition MYSQL_TIME_WARN_HAVE_WARNINGS (x : Z) : bool := nz (Z.land x MYSQL_TIME_WARN_WARNINGS).
Definition MYSQL_TIME_WARN_HAVE_NOTES (x : Z) : bool := nz (Z.land x MYSQL_TIME_WARN_NOTES).
Definition SECONDS_IN_24H : Z := 86400.
Definition TIME_MAX_INTERVAL_HOUR : Z := 87649415.
Definition TIME_MAX_INTERVAL_HOUR_CHAR_LENGTH : Z := 8.
Definition TIME_MAX_INTERVAL_DAY : Z := 3652058.
Definition TIME_MAX_INTERVAL_DAY_CHAR_LENGTH : Z := 7.
Definition TIME_MAX_HOUR : Z := 838.
Definition TIME_MAX_MINUTE : Z := 59.
Definition TIME_MAX_SECOND : Z := 59.
Definition TIME_MAX_SECOND_PART : Z := 999999.
Definition TIME_SECOND_PART_FACTOR : Z := TIME_MAX_SECOND_PART + 1.
Definition TIME_SECOND_PART_DIGITS : Z := 6.
Definition TIME_MAX_VALUE : Z := TIME_MAX_HOUR * 10000 + TIME_MAX_MINUTE * 100 + TIME_MAX_SECOND.
Definition TIME_MAX_VALUE_SECONDS : Z := TIME_MAX_HOUR * 3600 + TIME_MAX_MINUTE * 60 + TIME_MAX_SECOND.

Definition IS_TIME_T_VALID_FOR_TIMESTAMP (x : Z) : bool := (x <=? TIMESTAMP_MAX_VALUE) && (TIMESTAMP_MIN_VALUE <=? x).

Record MYSQL_TIME_STATUS := Status { warnings : Z; precision : Z; nanoseconds : Z }.
Definition my_time_status_init : MYSQL_TIME_STATUS := Status 0 0 0.

Definition validate_timestamp_range (t : MYSQL_TIME) : bool :=
  if ((TIMESTAMP_MAX_YEAR <? year t) || (year t <? TIMESTAMP_MIN_YEAR)) ||
     ((year t =? TIMESTAMP_MAX_YEAR) && ((1 <? month t) || (19 <? day t))) ||
     ((year t =? TIMESTAMP_MIN_YEAR) && ((month t <? 12) || (day t <? 31)))
  then false else true.

(** ** Declared only *)

(** The functions and tables that the headers declare, for a fixed session [THD].
    A function with an out parameter returns its result and the parameter's new
    value; [warn] is the value behind an [int *warn]. *)
Class TimeLib := {
  log_10_int : Z -> Z;
  set_zero_time : MYSQL_TIME -> timestamp_type -> MYSQL_TIME;
  set_current_date : MYSQL_TIME;
  check_time_range : MYSQL_TIME -> Z -> Z -> bool * MYSQL_TIME * Z;
  check_datetime_range : MYSQL_TIME -> bool;
  my_check_date : MYSQL_TIME -> bool -> Z -> bool * Z;
  calc_time_diff_sec : MYSQL_TIME -> MYSQL_TIME -> Z -> bool * Z * Z;
  calc_time_diff : MYSQL_TIME -> MYSQL_TIME -> Z -> date_mode_t -> bool * MYSQL_TIME;
  calc_time_from_sec : MYSQL_TIME -> Z -> Z -> MYSQL_TIME;
  calc_daynr : Z -> Z -> Z -> Z;
  get_date_from_daynr : Z -> bool * (Z * Z * Z);
  adjust_time_range_with_warn : MYSQL_TIME -> Z -> bool * MYSQL_TIME;
  number_to_time_only : bool -> Z -> Z -> Z -> Z -> Z * MYSQL_TIME * Z;
  number_to_datetime_or_date : Z -> Z -> Z -> Z -> Z * MYSQL_TIME * Z;
  pack_time : MYSQL_TIME -> Z;
  TIME_to_ulonglong_time : MYSQL_TIME -> Z;
  TIME_to_ulonglong_date : MYSQL_TIME -> Z;
  TIME_to_ulonglong_datetime : MYSQL_TIME -> Z;
  TIME_to_ulonglong : MYSQL_TIME -> Z;
  time_round_or_set_max_nsec : Z -> Z -> Z -> MYSQL_TIME -> MYSQL_TIME * Z;
  time_round_or_set_max : Z -> Z -> MYSQL_TIME -> MYSQL_TIME * Z;
  datetime_round_or_invalidate_nsec : Z -> Z -> Z -> MYSQL_TIME -> bool * MYSQL_TIME * Z;
  datetime_round_or_invalidate : Z -> Z -> MYSQL_TIME -> bool * MYSQL_TIME * Z;
  timestamp_round_or_set_max : Z -> Z -> Z * Z -> (Z * Z) * Z
}.

(** ** Fractions of a second *)

Section Fractions.
Context `{TimeLib}.

(** An element of the table of 20 powers; reading beyond it is undefined. *)
Definition log_10_at (i : Z) : option Z := if (0 <=? i) && (i <? 20) then Some (log_10_int i) else None.
(** A signed 64-bit product; overflow is undefined. *)
Definition mul_longlong (a b : Z) : option Z := if bool_decide (in_s 64 (a * b)) then Some (a * b) else None.

Definition sec_part_shift (sp digits : Z) : option Z :=
  p ← log_10_at (u32 (TIME_SECOND_PART_DIGITS - digits)); Some (Z.quot sp (s64 p)).
Definition sec_part_unshift (sp digits : Z) : option Z :=
  p ← log_10_at (u32 (TIME_SECOND_PART_DIGITS - digits)); mul_longlong sp (s64 p).
Definition my_time_fraction_remainder (nr decimals : Z) : option Z :=
  dbug_assert (decimals <=? TIME_SECOND_PART_DIGITS);;
  p ← log_10_at (u32 (TIME_SECOND_PART_DIGITS - decimals)); Some (Z.rem nr (s64 p)).

Definition my_datetime_trunc (decimals : Z) (ltime : MYSQL_TIME) : option MYSQL_TIME :=
  r ← my_time_fraction_remainder (s64 (second_part ltime)) decimals;
  Some (set_second_part (u64 (second_part ltime - r)) ltime).
Definition my_time_trunc (decimals : Z) (ltime : MYSQL_TIME) : option MYSQL_TIME :=
  r ← my_time_fraction_remainder (s64 (second_part ltime)) decimals;
  let ltime := set_second_part (u64 (second_part ltime - r)) ltime in
  Some (if negb (nz (second_part ltime)) && neg ltime &&
           negb (nz (hour ltime)) && negb (nz (minute ltime)) && negb (nz (second ltime))
        then set_neg false ltime else ltime).

(** ** structs.h, sql_type.h: points in time *)

Record Timeval := MkTimeval { tv_sec : Z; tv_usec : Z }.

Definition timeval (sec usec : Z) : option Timeval :=
  dbug_assert (usec <? 1000000);; Some (MkTimeval sec (u32 usec)).
Definition my_timeval_trunc (decimals : Z) (tv : Timeval) : option Timeval :=
  r ← my_time_fraction_remainder (tv_usec tv) decimals; Some (MkTimeval (tv_sec tv) (tv_usec tv - r)).

Definition ts_round_or_set_max (dec : Z) (tv : Timeval) : Timeval * Z :=
  let '((s, u), w) := timestamp_round_or_set_max dec 0 (tv_sec tv, tv_usec tv) in (MkTimeval s u, w).
Definition add_nanoseconds_usec (nanosecs : Z) (tv : Timeval) : option (bool * Timeval) :=
  dbug_assert (nanosecs <=? 1000000000);;
  if nanosecs <? 500 then Some (false, tv) else
  let tv := MkTimeval (tv_sec tv) (tv_usec tv + u32 (nanosecs + 500) / 1000) in
  if tv_usec tv <? 1000000 then Some (false, tv) else
  Some (true, MkTimeval (tv_sec tv) (Z.rem (tv_usec tv) 1000000)).
Definition ts_cmp (a other : Timeval) : Z :=
  if tv_sec a <? tv_sec other then -1 else
  if tv_sec other <? tv_sec a then 1 else
  if tv_usec a <? tv_usec other then -1 else
  if tv_usec other <? tv_usec a then 1 else 0.
Definition ts_fraction_remainder (dec : Z) (tv : Timeval) : option Z := my_time_fraction_remainder (tv_usec tv) dec.
Definition ts_trunc (dec : Z) (tv : Timeval) : option Timeval := my_timeval_trunc dec tv.
(** [warn] is the value added to the caller's warnings. *)
Definition ts_round (dec : Z) (m : time_round_mode_t) (tv : Timeval) : option (Timeval * Z) :=
  if round_value m =? FRAC_NONE then
    r ← ts_fraction_remainder dec tv; dbug_assert (r =? 0);; tv' ← ts_trunc dec tv; Some (tv', 0)
  else if round_value m =? FRAC_TRUNCATE then tv' ← ts_trunc dec tv; Some (tv', 0)
  else if round_value m =? FRAC_ROUND then Some (ts_round_or_set_max dec tv)
  else Some (tv, 0).

(** A timestamp or the zero datetime. *)
Record Timestamp_or_zero_datetime := TSZ { ts : Timeval; is_zero_datetime : bool }.
Definition tsz_zero : Timestamp_or_zero_datetime := TSZ (MkTimeval 0 0) true.
Definition tsz_to_bool (t : Timestamp_or_zero_datetime) : bool := negb (is_zero_datetime t).
Definition tsz_trunc (decimals : Z) (t : Timestamp_or_zero_datetime) : option Timestamp_or_zero_datetime :=
  if negb (is_zero_datetime t) then tv ← ts_trunc decimals (ts t); Some (TSZ tv (is_zero_datetime t)) else Some t.
Definition tsz_cmp (t other : Timestamp_or_zero_datetime) : Z :=
  if is_zero_datetime t then (if is_zero_datetime other then 0 else -1)
  else if is_zero_datetime other then 1
  else ts_cmp (ts t) (ts other).

(** ** sql_time.h: inline functions *)

Definition datetime_to_date (ltime : MYSQL_TIME) : option MYSQL_TIME :=
  dbug_assert (is_type MYSQL_TIMESTAMP_DATE ltime || is_type MYSQL_TIMESTAMP_DATETIME ltime);;
  dbug_assert (negb (neg ltime));;
  Some (set_time_type MYSQL_TIMESTAMP_DATE
          (set_second_part 0 (set_hour 0 (set_minute 0 (set_second 0 ltime))))).
Definition date_to_datetime (ltime : MYSQL_TIME) : option MYSQL_TIME :=
  dbug_assert (is_type MYSQL_TIMESTAMP_DATE ltime || is_type MYSQL_TIMESTAMP_DATETIME ltime);;
  dbug_assert (negb (neg ltime));;
  Some (set_time_type MYSQL_TIMESTAMP_DATETIME ltime).

Definition non_zero_hhmmssuu (ltime : MYSQL_TIME) : bool :=
  nz (hour ltime) || nz (minute ltime) || nz (second ltime) || nz (second_part ltime).
Definition non_zero_YYMMDD (ltime : MYSQL_TIME) : bool := nz (year ltime) || nz (month ltime) || nz (day ltime).
Definition non_zero_date (ltime : MYSQL_TIME) : bool :=
  non_zero_YYMMDD ltime || (is_type MYSQL_TIMESTAMP_DATETIME ltime && non_zero_hhmmssuu ltime).
Definition check_date (ltime : MYSQL_TIME) (flags : date_conv_mode_t) : bool * Z :=
  my_check_date ltime (non_zero_date ltime) (conv_ulonglong (conv_and flags TIME_MODE_FOR_XXX_TO_DATE)).

End Fractions.

(** ** What a value stands for *)

(** Hours, minutes, seconds and fraction as microseconds; with the sign. *)
Definition hms_micros (t : MYSQL_TIME) : Z :=
  ((hour t * 60 + minute t) * 60 + second t) * 1000000 + second_part t.
Definition signed (n : bool) (v : Z) : Z := if n then - v else v.
Definition time_micros (t : MYSQL_TIME) : Z := signed (neg t) (hms_micros t).
Definition tv_micros (tv : Timeval) : Z := tv_sec tv * 1000000 + tv_usec tv.

Definition valid_mmssff (t : MYSQL_TIME) : Prop :=
  0 <= minute t <= 59 /\ 0 <= second t <= 59 /\ 0 <= second_part t <= 999999.

(** A TIME within the supported range. *)
Definition valid_time (t : MYSQL_TIME) : Prop :=
  time_type t = MYSQL_TIMESTAMP_TIME /\ year t = 0 /\ month t = 0 /\ day t = 0 /\
  0 <= hour t <= TIME_MAX_HOUR /\ valid_mmssff t.
(** A DATE or DATETIME, as [str_to_xxx] and [number_to_xxx] give it. *)
Definition valid_date_or_datetime (t : MYSQL_TIME) : Prop :=
  (time_type t = MYSQL_TIMESTAMP_DATE \/ time_type t = MYSQL_TIMESTAMP_DATETIME) /\ neg t = false /\
  0 <= year t <= 9999 /\ 0 <= month t <= 12 /\ 0 <= day t < 32 /\ 0 <= hour t < 24 /\ valid_mmssff t.
Definition valid_MYSQL_TIME (t : MYSQL_TIME) : Prop :=
  time_type t = MYSQL_TIMESTAMP_NONE \/ valid_time t \/ valid_date_or_datetime t.

#[export] Instance valid_mmssff_dec t : Decision (valid_mmssff t).
Proof. unfold valid_mmssff. apply _. Defined.
#[export] Instance valid_time_dec t : Decision (valid_time t).
Proof. unfold valid_time. apply _. Defined.
#[export] Instance valid_date_or_datetime_dec t : Decision (valid_date_or_datetime t).
Proof. unfold valid_date_or_datetime. apply _. Defined.

(** ** What the headers promise of the declared functions *)

(** The absolute value in microseconds; the days of a DATE or DATETIME count. *)
Definition abs_micros `{TimeLib} (t : MYSQL_TIME) : Z :=
  match time_type t with
  | MYSQL_TIMESTAMP_TIME => day t
  | _ => calc_daynr (year t) (month t) (day t)
  end * (SECONDS_IN_24H * 1000000) + hms_micros t.

(** A TIME whose hours may exceed the supported range. *)
Definition interval (t : MYSQL_TIME) : Prop :=
  time_type t = MYSQL_TIMESTAMP_TIME /\ year t = 0 /\ month t = 0 /\ day t = 0 /\ 0 <= hour t /\ valid_mmssff t.

Definition max_time (dec : Z) (n : bool) : MYSQL_TIME :=
  MySQLTime 0 0 0 TIME_MAX_HOUR TIME_MAX_MINUTE TIME_MAX_SECOND
    (TIME_MAX_SECOND_PART - TIME_MAX_SECOND_PART mod 10 ^ (6 - dec)) n MYSQL_TIMESTAMP_TIME.

Class TimeLibLaws `{TimeLib} : Prop := {
  log_10_int_law i : 0 <= i < 20 -> log_10_int i = 10 ^ i;
  set_zero_time_law t k : set_zero_time t k = MySQLTime 0 0 0 0 0 0 0 false k;
  set_current_date_law : valid_date_or_datetime set_current_date;
  check_time_range_law t dec w : interval t -> 0 <= dec <= 6 ->
    valid_time (check_time_range t dec w).1.2 /\
    (hour t <= TIME_MAX_HOUR -> dec = 6 -> (check_time_range t dec w).1.2 = t) /\
    (TIME_MAX_HOUR < hour t -> (check_time_range t dec w).1.2 = max_time dec (neg t));
  check_datetime_range_law t : valid_date_or_datetime t -> check_datetime_range t = false;
  calc_daynr_law y m d : 0 <= calc_daynr y m d < 2 ^ 32;
  calc_time_diff_law t1 t2 sg f : valid_date_or_datetime t1 -> valid_date_or_datetime t2 ->
    interval (calc_time_diff t1 t2 sg f).2;
  calc_time_diff_sec_law t1 t2 sg : sg = 1 \/ sg = -1 -> interval t1 \/ valid_date_or_datetime t1 -> interval t2 ->
    let '(n, s, us) := calc_time_diff_sec t1 t2 sg in
    0 <= s /\ 0 <= us < 1000000 /\ s * 1000000 + us = Z.abs (abs_micros t1 - sg * abs_micros t2) /\
    n = (abs_micros t1 - sg * abs_micros t2 <? 0);
  calc_time_from_sec_law t s us : 0 <= s < SECONDS_IN_24H -> 0 <= us < 1000000 ->
    exists k, calc_time_from_sec t s us =
      MySQLTime (year t) (month t) (day t) (s / 3600) (s mod 3600 / 60) (s mod 60) us (neg t) k;
  adjust_time_range_law t dec : interval t -> 0 <= dec <= 6 ->
    valid_time (adjust_time_range_with_warn t dec).2 /\
    (hour t <= TIME_MAX_HOUR -> dec = 6 -> (adjust_time_range_with_warn t dec).2 = t);
  number_to_time_only_law n nr sp w :
    let '(rc, t, w') := number_to_time_only n nr sp TIME_MAX_HOUR w in
    (rc = 0 -> valid_time t) /\ (rc <> 0 -> w' <> 0);
  number_to_datetime_law nr sp fl w :
    let '(rc, t, w') := number_to_datetime_or_date nr sp fl w in
    -1 <= rc /\ (0 <= rc -> valid_date_or_datetime t) /\ (rc < 0 -> w' <> 0);
  time_round_nsec_law dec ns w t : valid_time t -> valid_time (time_round_or_set_max_nsec dec ns w t).1;
  time_round_law dec w t : valid_time t -> valid_time (time_round_or_set_max dec w t).1;
  datetime_round_nsec_law dec ns w t : valid_date_or_datetime t ->
    let t' := (datetime_round_or_invalidate_nsec dec ns w t).1.2 in
    time_type t' = MYSQL_TIMESTAMP_NONE \/ (valid_date_or_datetime t' /\ time_type t' = time_type t);
  datetime_round_law dec w t : valid_date_or_datetime t ->
    let t' := (datetime_round_or_invalidate dec w t).1.2 in
    time_type t' = MYSQL_TIMESTAMP_NONE \/ (valid_date_or_datetime t' /\ time_type t' = time_type t)
}.

(** ** Truncation *)

(** The unit of [dec] digits, in microseconds. *)
Definition unit_of (dec : Z) : Z := 10 ^ (6 - dec).

Lemma unit_cases dec : 0 <= dec <= 6 ->
  unit_of dec = 1000000 \/ unit_of dec = 100000 \/ unit_of dec = 10000 \/ unit_of dec = 1000 \/
  unit_of dec = 100 \/ unit_of dec = 10 \/ unit_of dec = 1.
Proof.
  intros H. unfold unit_of.
  assert (dec = 0 \/ dec = 1 \/ dec = 2 \/ dec = 3 \/ dec = 4 \/ dec = 5 \/ dec = 6) as D by lia.
  destruct D as [-> |[-> |[-> |[-> |[-> |[-> | ->]]]]]]; vm_compute; tauto.
Qed.

Lemma unit_pos dec : 0 <= dec <= 6 -> 0 < unit_of dec.
Proof. intros H. unfold unit_of. apply Z.pow_pos_nonneg; lia. Qed.

(** A coarser unit is a multiple of a finer one, and all divide a second. *)
Lemma unit_divide d1 d2 : 0 <= d1 -> d1 <= d2 <= 6 -> unit_of d1 = unit_of d2 * 10 ^ (d2 - d1).
Proof. intros H1 H2. unfold unit_of. rewrite <- Z.pow_add_r by lia. f_equal. lia. Qed.
Lemma unit_second dec : 0 <= dec <= 6 -> 1000000 = unit_of dec * 10 ^ dec.
Proof. intros H. pose proof (unit_divide 0 dec ltac:(lia) ltac:(lia)) as E. by rewrite Z.sub_0_r in E. Qed.

(** The largest multiple of [u] that is not above [v]. *)
Definition floor_to (u v : Z) : Z := v - v mod u.

Lemma floor_to_bounds u v : 0 < u -> floor_to u v <= v < floor_to u v + u /\ floor_to u v mod u = 0.
Proof.
  intros Hu. pose proof (Z.mod_pos_bound v u Hu). unfold floor_to. split; [lia|].
  rewrite Zminus_mod_idemp_r, Z.sub_diag. apply Z.mod_0_l. lia.
Qed.
Lemma floor_to_shift u k v : 0 < u -> floor_to u (u * k + v) = u * k + floor_to u v.
Proof. intros Hu. unfold floor_to. rewrite (Z.add_comm (u * k)), (Z.mul_comm u), Z_mod_plus_full. lia. Qed.
Lemma floor_to_twice u k v : 0 < u -> 0 < k -> floor_to (u * k) (floor_to u v) = floor_to (u * k) v.
Proof.
  intros Hu Hk. unfold floor_to. rewrite (Z.mod_eq (v - v mod u)), (Z.mod_eq v (u * k)) by lia.
  replace ((v - v mod u) / (u * k)) with (v / (u * k)); [lia|].
  rewrite <- !Z.div_div by lia. f_equal.
  apply (Z.div_unique _ _ _ 0); [lia|]. rewrite (Z.mod_eq v u) by lia. lia.
Qed.
Lemma floor_to_coarse u k v : 0 < u -> 0 < k -> floor_to u (floor_to (u * k) v) = floor_to (u * k) v.
Proof.
  intros Hu Hk. unfold floor_to at 1. pose proof (floor_to_bounds (u * k) v ltac:(lia)) as [_ E].
  enough (floor_to (u * k) v mod u = 0) by lia.
  apply Z.mod_divide in E; [|lia]. destruct E as [q E]. rewrite E. apply Z.mod_divide; [lia|]. exists (q * k). ring.
Qed.

Lemma floor_to_quot u v : 0 < u -> 0 <= v -> Z.quot v u * u = floor_to u v.
Proof. intros Hu Hv. unfold floor_to. rewrite Z.quot_div_nonneg by lia. pose proof (Z.mod_eq v u). lia. Qed.
Lemma signed_quot n u v : 0 < u -> 0 <= v -> Z.quot (signed n v) u * u = signed n (floor_to u v).
Proof.
  intros Hu Hv. destruct n; cbn [signed]; [|by apply floor_to_quot].
  rewrite Z.quot_opp_l by lia. rewrite Z.mul_opp_l. by rewrite floor_to_quot.
Qed.

Section Truncation.
Context `{TimeLibLaws}.

Lemma log_10_at_ok i : 0 <= i < 20 -> log_10_at i = Some (10 ^ i).
Proof.
  intros Hi. unfold log_10_at. rewrite (proj2 (Z.leb_le _ _)), (proj2 (Z.ltb_lt _ _)) by lia. cbn [andb].
  by rewrite log_10_int_law.
Qed.
Lemma unit_at dec : 0 <= dec <= 6 -> log_10_at (u32 (TIME_SECOND_PART_DIGITS - dec)) = Some (unit_of dec).
Proof.
  intros Hd. unfold TIME_SECOND_PART_DIGITS, unit_of. rewrite wrapU_small by (unfold in_u; lia).
  apply log_10_at_ok. lia.
Qed.
Lemma unit_longlong dec : 0 <= dec <= 6 -> s64 (unit_of dec) = unit_of dec.
Proof. intros Hd. destruct (unit_cases dec Hd) as [-> |[-> |[-> |[-> |[-> |[-> | ->]]]]]]; reflexivity. Qed.

Lemma fraction_remainder_run nr dec : 0 <= dec <= 6 -> 0 <= nr ->
  my_time_fraction_remainder nr dec = Some (nr mod unit_of dec).
Proof.
  intros Hd Hn. unfold my_time_fraction_remainder.
  change (dec <=? TIME_SECOND_PART_DIGITS) with (dec <=? 6).
  rewrite (proj2 (Z.leb_le dec 6)) by lia. cbn. rewrite (unit_at dec Hd). cbn. rewrite (unit_longlong dec Hd).
  by rewrite Z.rem_mod_nonneg by (done || by apply unit_pos).
Qed.

Lemma floor_to_small dec v : 0 <= dec <= 6 -> 0 <= v <= 999999 ->
  0 <= floor_to (unit_of dec) v <= 999999 /\ u64 (v - v mod unit_of dec) = floor_to (unit_of dec) v.
Proof.
  intros Hd Hv. pose proof (unit_pos dec Hd) as Hu. pose proof (Z.mod_pos_bound v _ Hu).
  pose proof (Z.mod_le v _ (proj1 Hv) Hu). unfold floor_to. split; [lia|]. apply wrapU_small. unfold in_u. lia.
Qed.

(** The hours, minutes and seconds do not take part in a truncation. *)
Lemma hms_floor dec t : 0 <= dec <= 6 ->
  floor_to (unit_of dec) (hms_micros t) = hms_micros (set_second_part (floor_to (unit_of dec) (second_part t)) t).
Proof.
  intros Hd. unfold hms_micros. cbn. rewrite (unit_second dec Hd).
  rewrite Z.mul_comm, <- Z.mul_assoc, floor_to_shift by (by apply unit_pos). lia.
Qed.

Definition time_trunc_spec (dec : Z) (t : MYSQL_TIME) : MYSQL_TIME :=
  let t' := set_second_part (floor_to (unit_of dec) (second_part t)) t in
  if hms_micros t' =? 0 then set_neg false t' else t'.

Lemma my_datetime_trunc_run dec t : 0 <= dec <= 6 -> valid_mmssff t ->
  my_datetime_trunc dec t = Some (set_second_part (floor_to (unit_of dec) (second_part t)) t).
Proof.
  intros Hd (_ & _ & Hs). unfold my_datetime_trunc. rewrite (wrapS_small 64) by (unfold in_s; lia).
  rewrite fraction_remainder_run by (done || lia). cbn. by rewrite (proj2 (floor_to_small dec _ Hd Hs)).
Qed.

Lemma my_time_trunc_run dec t : 0 <= dec <= 6 -> valid_mmssff t -> 0 <= hour t ->
  my_time_trunc dec t = Some (time_trunc_spec dec t).
Proof.
  intros Hd (Hm & Hs & Hf) Hh. unfold my_time_trunc. rewrite (wrapS_small 64) by (unfold in_s; lia).
  rewrite fraction_remainder_run by (done || lia). cbn. destruct (floor_to_small dec _ Hd Hf) as [Hr ->].
  unfold time_trunc_spec. f_equal. cbn. unfold hms_micros. cbn. unfold nz.
  destruct (Z.eqb_spec (floor_to (unit_of dec) (second_part t)) 0) as [E0|E0], (Z.eqb_spec (hour t) 0) as [E1|E1],
    (Z.eqb_spec (minute t) 0) as [E2|E2], (Z.eqb_spec (second t) 0) as [E3|E3]; cbn;
    rewrite ?andb_true_r, ?andb_false_r;
    try (rewrite (proj2 (Z.eqb_neq _ _)) by lia; done).
  rewrite E0, E1, E2, E3. cbn. destruct t as [? ? ? ? ? ? ? [] ?]; done.
Qed.

Lemma floor_to_min d1 d2 v : 0 <= d1 <= 6 -> 0 <= d2 <= 6 ->
  floor_to (unit_of d2) (floor_to (unit_of d1) v) = floor_to (unit_of (Z.min d1 d2)) v.
Proof.
  intros H1 H2. destruct (Z.le_ge_cases d1 d2) as [L|L].
  - rewrite Z.min_l, (unit_divide d1 d2) by lia. apply floor_to_coarse; [by apply unit_pos|]. apply Z.pow_pos_nonneg; lia.
  - rewrite Z.min_r, (unit_divide d2 d1) by lia. apply floor_to_twice; [by apply unit_pos|]. apply Z.pow_pos_nonneg; lia.
Qed.

Lemma trunc_spec_valid dec t : 0 <= dec <= 6 -> valid_mmssff t -> valid_mmssff (time_trunc_spec dec t).
Proof.
  intros Hd Hv. pose proof (proj1 (floor_to_small dec _ Hd (proj2 (proj2 Hv)))). unfold time_trunc_spec.
  destruct Hv as (? & ? & ?). case_match; split_and!; cbn; lia.
Qed.

Lemma hms_nonneg t : valid_mmssff t -> 0 <= hour t -> 0 <= hms_micros t.
Proof. intros (? & ? & ?) ?. unfold hms_micros. lia. Qed.

Lemma trunc_spec_hms dec t : 0 <= dec <= 6 ->
  hms_micros (time_trunc_spec dec t) = floor_to (unit_of dec) (hms_micros t).
Proof. intros Hd. rewrite hms_floor by done. unfold time_trunc_spec. by case_match. Qed.

Lemma trunc_spec_micros dec t : 0 <= dec <= 6 -> valid_mmssff t -> 0 <= hour t ->
  time_micros (time_trunc_spec dec t) = Z.quot (time_micros t) (unit_of dec) * unit_of dec /\
  (neg (time_trunc_spec dec t) = true -> time_micros (time_trunc_spec dec t) < 0).
Proof.
  intros Hd Hv Hh. unfold time_micros at 2. pose proof (hms_nonneg t Hv Hh) as Hz.
  rewrite signed_quot by (done || by apply unit_pos). unfold time_micros. rewrite trunc_spec_hms by done.
  pose proof (floor_to_bounds _ (hms_micros t) (unit_pos dec Hd)) as [B _].
  assert (0 <= floor_to (unit_of dec) (hms_micros t)) as B0.
  { rewrite hms_floor by done. apply hms_nonneg; [|done]. destruct Hv as (? & ? & Hf).
    pose proof (proj1 (floor_to_small dec _ Hd Hf)). split_and!; cbn; lia. }
  unfold time_trunc_spec. rewrite <- (hms_floor dec t Hd).
  destruct (Z.eqb_spec (floor_to (unit_of dec) (hms_micros t)) 0) as [E|E]; cbn.
  - rewrite E. destruct (neg t); by split.
  - destruct (neg t); cbn; split; (done || lia).
Qed.

Lemma trunc_spec_twice d1 d2 t : 0 <= d1 <= 6 -> 0 <= d2 <= 6 ->
  time_trunc_spec d2 (time_trunc_spec d1 t) = time_trunc_spec (Z.min d1 d2) t.
Proof.
  intros H1 H2.
  assert (forall n, time_trunc_spec d2 (set_neg n (set_second_part (floor_to (unit_of d1) (second_part t)) t)) =
    (let t' := set_second_part (floor_to (unit_of (Z.min d1 d2)) (second_part t)) t in
     if hms_micros t' =? 0 then set_neg false t' else set_neg n t')) as G.
  { intros n. unfold time_trunc_spec. cbn [second_part set_neg set_second_part]. rewrite floor_to_min by done.
    unfold hms_micros. cbn. by case_match. }
  unfold time_trunc_spec at 2.
  destruct (Z.eqb_spec (hms_micros (set_second_part (floor_to (unit_of d1) (second_part t)) t)) 0) as [E|E].
  - rewrite G. cbn zeta. unfold time_trunc_spec.
    assert (hms_micros (set_second_part (floor_to (unit_of (Z.min d1 d2)) (second_part t)) t) = 0) as ->.
    { rewrite <- hms_floor, <- floor_to_min, (hms_floor d1), E by lia. done. }
    done.
  - replace (set_second_part (floor_to (unit_of d1) (second_part t)) t) with
      (set_neg (neg t) (set_second_part (floor_to (unit_of d1) (second_part t)) t)) by (by destruct t).
    rewrite G. unfold time_trunc_spec. cbn zeta. by case_match; destruct t.
Qed.

Lemma timeval_trunc_run dec tv : 0 <= dec <= 6 -> 0 <= tv_usec tv ->
  my_timeval_trunc dec tv = Some (MkTimeval (tv_sec tv) (floor_to (unit_of dec) (tv_usec tv))).
Proof. intros Hd Hu. unfold my_timeval_trunc. by rewrite fraction_remainder_run. Qed.

Lemma timeval_floor dec tv : 0 <= dec <= 6 ->
  tv_micros (MkTimeval (tv_sec tv) (floor_to (unit_of dec) (tv_usec tv))) = floor_to (unit_of dec) (tv_micros tv).
Proof.
  intros Hd. unfold tv_micros. cbn. rewrite (unit_second dec Hd).
  rewrite (Z.mul_comm (tv_sec tv)), <- Z.mul_assoc, floor_to_shift by (by apply unit_pos). lia.
Qed.

Lemma sec_part_shift_run sp d : 0 <= d <= 6 -> 0 <= sp -> sec_part_shift sp d = Some (sp / unit_of d).
Proof.
  intros Hd Hs. unfold sec_part_shift. rewrite (unit_at d Hd). cbn. rewrite (unit_longlong d Hd).
  rewrite Z.quot_div_nonneg by (done || by apply unit_pos). done.
Qed.
Lemma sec_part_unshift_run x d : 0 <= d <= 6 -> 0 <= x < 10 ^ d -> sec_part_unshift x d = Some (x * unit_of d).
Proof.
  intros Hd Hx. unfold sec_part_unshift. rewrite (unit_at d Hd). cbn. rewrite (unit_longlong d Hd).
  unfold mul_longlong. rewrite bool_decide_true; [done|]. pose proof (unit_second d Hd). pose proof (unit_pos d Hd).
  unfold in_s. nia.
Qed.

(** Truncation to [dec] digits drops exactly the digits below: a TIME is
    rounded toward zero as a signed number, never becomes a negative zero, keeps
    its other members, and truncating twice is truncating once to the fewer
    digits; a DATETIME is rounded down and a point in time (also before 1970)
    toward the past; more than six digits fail the assertion.  [sec_part_shift]
    and [sec_part_unshift] scale a fraction down and up without loss, and one after
    the other is the truncation. *)
Lemma time_truncation (dec dec' : Z) (t : MYSQL_TIME) (tv : Timeval) (x : Z) :
  0 <= dec <= 6 -> 0 <= dec' -> valid_mmssff t -> 0 <= hour t -> 0 <= tv_usec tv < 1000000 -> 0 <= x < 10 ^ dec ->
  (exists t', my_time_trunc dec t = Some t' /\
     time_micros t' = Z.quot (time_micros t) (unit_of dec) * unit_of dec /\
     (neg t' = true -> time_micros t' < 0) /\ valid_mmssff t' /\
     (year t', month t', day t', time_type t') = (year t, month t, day t, time_type t) /\
     my_time_trunc dec' t' = if dec' <=? 6 then my_time_trunc (Z.min dec dec') t else None) /\
  (exists d, my_datetime_trunc dec t = Some d /\ hms_micros d = floor_to (unit_of dec) (hms_micros t) /\
     set_second_part (second_part t) d = t) /\
  (exists tv', my_timeval_trunc dec tv = Some tv' /\ tv_micros tv' = floor_to (unit_of dec) (tv_micros tv)) /\
  (exists s, sec_part_shift (second_part t) dec = Some s /\ 0 <= s < 10 ^ dec /\
     sec_part_unshift s dec = Some (floor_to (unit_of dec) (second_part t))) /\
  (exists l, sec_part_unshift x dec = Some l /\ 0 <= l <= 999999 /\ sec_part_shift l dec = Some x).
Proof.
  intros Hd Hd' Hv Hh Hu Hx. pose proof (unit_pos dec Hd) as Up. pose proof (unit_second dec Hd) as Us.
  pose proof (proj2 (proj2 Hv)) as Hf. split; [|split; [|split; [|split]]].
  - exists (time_trunc_spec dec t). destruct (trunc_spec_micros dec t Hd Hv Hh) as [M1 M2].
    pose proof (trunc_spec_valid dec t Hd Hv) as V. split_and!; try done.
    + by apply my_time_trunc_run.
    + unfold time_trunc_spec. by case_match.
    + destruct (Z.leb_spec dec' 6) as [L|L].
      * assert (hour (time_trunc_spec dec t) = hour t) as E by (unfold time_trunc_spec; by case_match).
        rewrite !my_time_trunc_run by (done || lia). by rewrite trunc_spec_twice by lia.
      * unfold my_time_trunc, my_time_fraction_remainder.
        change (dec' <=? TIME_SECOND_PART_DIGITS) with (dec' <=? 6). by rewrite (proj2 (Z.leb_gt dec' 6)).
  - eexists. split; [by apply my_datetime_trunc_run|]. split; [by rewrite <- hms_floor|]. by destruct t.
  - eexists. split; [apply timeval_trunc_run; [done|lia]|]. by apply timeval_floor.
  - exists (second_part t / unit_of dec). rewrite sec_part_shift_run by lia. split; [done|].
    assert (0 <= second_part t / unit_of dec < 10 ^ dec) as B.
    { split; [apply Z.div_pos; lia|]. apply Z.div_lt_upper_bound; lia. }
    split; [done|]. rewrite sec_part_unshift_run by done. f_equal. unfold floor_to.
    pose proof (Z.mod_eq (second_part t) (unit_of dec)). lia.
  - exists (x * unit_of dec). rewrite sec_part_unshift_run by done. split; [done|]. split; [nia|].
    rewrite sec_part_shift_run by nia. by rewrite Z.div_mul by lia.
Qed.

End Truncation.

(** ** Nanoseconds and comparison *)

(** Nanoseconds rounded half up to microseconds. *)
Definition ns_round (ns : Z) : Z := (ns + 500) / 1000.

Lemma ns_round_range ns : 0 <= ns <= 1000000000 -> 0 <= ns_round ns <= 1000000.
Proof.
  intros Hn. unfold ns_round. split; [apply Z.div_pos; lia|].
  apply Z.lt_succ_r, Z.div_lt_upper_bound; lia.
Qed.
Lemma ns_round_small ns : 0 <= ns < 500 -> ns_round ns = 0.
Proof. intros Hn. unfold ns_round. apply Z.div_small. lia. Qed.
Lemma ns_round_u32 ns : 0 <= ns <= 1000000000 -> u32 (ns + 500) / 1000 = ns_round ns.
Proof. intros Hn. unfold ns_round. by rewrite wrapU_small by (unfold in_u; lia). Qed.
Lemma ns_round_half ns : 0 <= ns -> 2 * Z.abs (ns_round ns * 1000 - ns) <= 1000.
Proof. intros Hn. unfold ns_round. pose proof (Z.mod_pos_bound (ns + 500) 1000). pose proof (Z.div_mod (ns + 500) 1000). lia. Qed.

(** The carry out of the microseconds. *)
Lemma usec_carry u r : 0 <= u <= 999999 -> 0 <= r <= 1000000 -> 1000000 <= u + r ->
  Z.rem (u + r) 1000000 = u + r - 1000000 /\ 0 <= u + r - 1000000 <= 999999.
Proof.
  intros Hu Hr Hc. split; [|lia]. rewrite Z.rem_mod_nonneg by lia.
  symmetry. apply (Z.mod_unique _ _ 1); lia.
Qed.


Lemma floor_to_mono u a b : 0 < u -> a <= b -> floor_to u a <= floor_to u b.
Proof.
  intros Hu Hab. unfold floor_to. pose proof (Z.mod_eq a u). pose proof (Z.mod_eq b u).
  pose proof (Z.div_le_mono a b u Hu Hab). nia.
Qed.

Definition tv_ok (tv : Timeval) : Prop := 0 <= tv_usec tv < 1000000.

Definition cmp_int (c : comparison) : Z := match c with Lt => -1 | Eq => 0 | Gt => 1 end.

Lemma ts_cmp_micros a b : tv_ok a -> tv_ok b -> ts_cmp a b = cmp_int (tv_micros a ?= tv_micros b).
Proof.
  unfold tv_ok, ts_cmp, tv_micros. intros Ha Hb.
  destruct (Z.ltb_spec (tv_sec a) (tv_sec b)); [by rewrite (proj2 (Z.compare_lt_iff _ _)) by lia|].
  destruct (Z.ltb_spec (tv_sec b) (tv_sec a)); [by rewrite (proj2 (Z.compare_gt_iff _ _)) by lia|].
  destruct (Z.ltb_spec (tv_usec a) (tv_usec b)); [by rewrite (proj2 (Z.compare_lt_iff _ _)) by lia|].
  destruct (Z.ltb_spec (tv_usec b) (tv_usec a)); [by rewrite (proj2 (Z.compare_gt_iff _ _)) by lia|].
  by rewrite (proj2 (Z.compare_eq_iff _ _)) by lia.
Qed.

(** The zero datetime is below every timestamp. *)
Definition tsz_key (t : Timestamp_or_zero_datetime) : option Z :=
  if is_zero_datetime t then None else Some (tv_micros (ts t)).
Definition key_compare (a b : option Z) : comparison :=
  match a, b with
  | None, None => Eq | None, Some _ => Lt | Some _, None => Gt | Some x, Some y => x ?= y
  end.

Lemma tsz_cmp_key a b : tv_ok (ts a) -> tv_ok (ts b) -> tsz_cmp a b = cmp_int (key_compare (tsz_key a) (tsz_key b)).
Proof.
  intros Ha Hb. unfold tsz_cmp, tsz_key, key_compare.
  destruct (is_zero_datetime a), (is_zero_datetime b); try done. by apply ts_cmp_micros.
Qed.

Lemma cmp_int_le a b : cmp_int (a ?= b) <= 0 <-> a <= b.
Proof. destruct (Z.compare_spec a b); cbn; lia. Qed.
Lemma cmp_int_opp a b : cmp_int (a ?= b) = - cmp_int (b ?= a).
Proof. rewrite (Z.compare_antisym a b). by destruct (a ?= b). Qed.
Lemma cmp_int_eq a b : cmp_int (a ?= b) = 0 <-> a = b.
Proof. destruct (Z.compare_spec a b); cbn; lia. Qed.

Definition key_le (a b : option Z) : Prop := cmp_int (key_compare a b) <= 0.
Lemma key_le_spec a b : key_le a b <-> match a, b with None, _ => True | Some _, None => False | Some x, Some y => x <= y end.
Proof. unfold key_le. destruct a as [x|], b as [y|]; cbn; [apply cmp_int_le|lia|lia|lia]. Qed.
Lemma key_le_trans a b c : key_le a b -> key_le b c -> key_le a c.
Proof. rewrite !key_le_spec. destruct a, b, c; try tauto. lia. Qed.
Lemma key_le_floor u a : 0 < u -> key_le (floor_to u <$> a) a.
Proof. intros Hu. rewrite key_le_spec. destruct a as [x|]; cbn; [|done]. pose proof (floor_to_bounds u x Hu). lia. Qed.
Lemma key_le_floor_mono u a b : 0 < u -> key_le a b -> key_le (floor_to u <$> a) (floor_to u <$> b).
Proof. intros Hu. rewrite !key_le_spec. destruct a, b; cbn; try tauto. by apply floor_to_mono. Qed.

Lemma add_nanoseconds_usec_run ns tv : 0 <= ns <= 1000000000 -> tv_ok tv ->
  exists c tv', add_nanoseconds_usec ns tv = Some (c, tv') /\ tv_ok tv' /\ tv_sec tv' = tv_sec tv /\
    tv_micros tv' + (if c then 1000000 else 0) = tv_micros tv + ns_round ns.
Proof.
  intros Hn Hu. pose proof (ns_round_range ns Hn) as R. unfold add_nanoseconds_usec.
  rewrite (proj2 (Z.leb_le _ _)) by lia. cbn. unfold tv_ok, tv_micros in *.
  destruct (Z.ltb_spec ns 500) as [L|L]; [exists false, tv; rewrite ns_round_small by lia; split_and!; lia || done|].
  rewrite ns_round_u32 by done.
  destruct (Z.ltb_spec (tv_usec tv + ns_round ns) 1000000) as [B|B].
  - eexists _, _. split; [done|]. cbn. lia.
  - destruct (usec_carry (tv_usec tv) (ns_round ns)) as [E ?]; [lia..|].
    eexists _, _. split; [done|]. cbn. rewrite E. lia.
Qed.

Section TimestampOrder.
Context `{TimeLibLaws}.

Lemma tsz_trunc_run dec t : 0 <= dec <= 6 -> tv_ok (ts t) ->
  exists t', tsz_trunc dec t = Some t' /\ tv_ok (ts t') /\ tsz_key t' = floor_to (unit_of dec) <$> tsz_key t.
Proof.
  intros Hd Hu. unfold tsz_trunc, tsz_key. destruct (is_zero_datetime t) eqn:Z.
  - exists t. by rewrite Z.
  - unfold ts_trunc. rewrite timeval_trunc_run by (done || apply Hu). cbn. eexists. split; [done|]. split.
    + unfold tv_ok in *. cbn. pose proof (proj1 (floor_to_small dec (tv_usec (ts t)) Hd ltac:(lia))). lia.
    + cbn. by rewrite timeval_floor.
Qed.

(** [Timestamp::cmp] compares the points in time as numbers of microseconds,
    and [Timestamp_or_zero_datetime::cmp] is the total order with the zero datetime
    (the value of the default constructor) below every timestamp: it is
    antisymmetric, transitive and 0 exactly for equal values; truncation never
    reverses it and never increases a value.  Adding up to a second of nanoseconds
    adds them rounded half up, and returns whether one second is to be carried. *)
Lemma timestamp_order (a b c : Timestamp_or_zero_datetime) (dec ns : Z) :
  tv_ok (ts a) -> tv_ok (ts b) -> tv_ok (ts c) -> 0 <= dec <= 6 -> 0 <= ns <= 1000000000 ->
  ts_cmp (ts a) (ts b) = cmp_int (tv_micros (ts a) ?= tv_micros (ts b)) /\
  tsz_cmp a b = cmp_int (key_compare (tsz_key a) (tsz_key b)) /\
  tsz_cmp a b = - tsz_cmp b a /\ (tsz_cmp a b = 0 <-> tsz_key a = tsz_key b) /\
  (tsz_cmp a b <= 0 -> tsz_cmp b c <= 0 -> tsz_cmp a c <= 0) /\
  (tsz_cmp tsz_zero a <= 0 /\ (tsz_cmp tsz_zero a < 0 <-> tsz_to_bool a = true)) /\
  (exists a' b', tsz_trunc dec a = Some a' /\ tsz_trunc dec b = Some b' /\ tsz_cmp a' a <= 0 /\
     (tsz_cmp a b <= 0 -> tsz_cmp a' b' <= 0)) /\
  (exists carry tv, add_nanoseconds_usec ns (ts a) = Some (carry, tv) /\ tv_ok tv /\
     tv_micros tv + (if carry then 1000000 else 0) = tv_micros (ts a) + ns_round ns /\
     2 * Z.abs (ns_round ns * 1000 - ns) <= 1000).
Proof.
  intros Ha Hb Hc Hd Hn. pose proof (unit_pos dec Hd) as Up.
  split; [by apply ts_cmp_micros|]. split; [by apply tsz_cmp_key|].
  rewrite !tsz_cmp_key by done. split.
  { destruct (tsz_key a), (tsz_key b); try done. apply cmp_int_opp. }
  split.
  { destruct (tsz_key a), (tsz_key b); cbn; try (split; congruence). rewrite cmp_int_eq. split; congruence. }
  split.
  { apply key_le_trans. }
  split.
  { unfold tsz_to_bool, tsz_key. cbn. destruct (is_zero_datetime a); cbn; split; [lia|split; (lia || done)|lia|split; (lia || done)]. }
  split.
  - destruct (tsz_trunc_run dec a Hd Ha) as (a' & Ea & Oa & Ka), (tsz_trunc_run dec b Hd Hb) as (b' & Eb & Ob & Kb).
    exists a', b'. split; [done|]. split; [done|]. rewrite !tsz_cmp_key, Ka, Kb by done.
    split; [by apply key_le_floor|by apply key_le_floor_mono].
  - destruct (add_nanoseconds_usec_run ns (ts a) Hn Ha) as (k & tv & E & O & _ & M).
    exists k, tv. split_and!; try done. apply ns_round_half. lia.
Qed.

End TimestampOrder.

(** ** A library that keeps the promises

    Concrete functions for the declared ones, on which the theorems are applied. *)

Definition of_micros (v : Z) (n : bool) (k : timestamp_type) : MYSQL_TIME :=
  MySQLTime 0 0 0 (v / 3600000000) (v / 60000000 mod 60) (v / 1000000 mod 60) (v mod 1000000) n k.
Definition sample_daynr (y m d : Z) : Z := u32 (y * 372 + m * 31 + d).
Definition sample_abs (t : MYSQL_TIME) : Z :=
  match time_type t with
  | MYSQL_TIMESTAMP_TIME => day t
  | _ => sample_daynr (year t) (month t) (day t)
  end * (SECONDS_IN_24H * 1000000) + hms_micros t.
Definition sample_range (t : MYSQL_TIME) (dec w : Z) : bool * MYSQL_TIME * Z :=
  if hour t <=? TIME_MAX_HOUR then (false, t, w) else (false, max_time dec (neg t), Z.lor w MYSQL_TIME_WARN_OUT_OF_RANGE).
Definition sample_round (dec ns w : Z) (t : MYSQL_TIME) : MYSQL_TIME * Z :=
  let t' := of_micros (floor_to (unit_of dec) (hms_micros t + ns_round ns)) (neg t) MYSQL_TIMESTAMP_TIME in
  if bool_decide (valid_time t') then (t', w) else (max_time 6 (neg t), Z.lor w MYSQL_TIME_WARN_OUT_OF_RANGE).
Definition sample_datetime_round (dec ns w : Z) (t : MYSQL_TIME) : bool * MYSQL_TIME * Z :=
  let v := floor_to (unit_of dec) (hms_micros t + ns_round ns) in
  let h := of_micros v false MYSQL_TIMESTAMP_TIME in
  let t' := MySQLTime (year t) (month t) (day t) (hour h) (minute h) (second h) (second_part h) false (time_type t) in
  if bool_decide (valid_date_or_datetime t') then (false, t', w)
  else (true, set_time_type MYSQL_TIMESTAMP_NONE t, Z.lor w MYSQL_TIME_WARN_OUT_OF_RANGE).
Definition sample_time (n : bool) (nr sp : Z) : Z * MYSQL_TIME * Z :=
  let t := MySQLTime 0 0 0 (nr / 10000) (nr / 100 mod 100) (nr mod 100) sp n MYSQL_TIMESTAMP_TIME in
  if bool_decide (valid_time t) then (0, t, 0) else (1, max_time 6 n, MYSQL_TIME_WARN_OUT_OF_RANGE).
Definition sample_datetime (nr sp : Z) : Z * MYSQL_TIME * Z :=
  let t := MySQLTime (nr / 10000000000) (nr / 100000000 mod 100) (nr / 1000000 mod 100)
             (nr / 10000 mod 100) (nr / 100 mod 100) (nr mod 100) sp false MYSQL_TIMESTAMP_DATETIME in
  if bool_decide (valid_date_or_datetime t) then (nr, t, 0)
  else (-1, set_time_type MYSQL_TIMESTAMP_ERROR t, MYSQL_TIME_WARN_TRUNCATED).

Definition sample_lib : TimeLib := {|
  log_10_int i := 10 ^ i;
  set_zero_time _ k := MySQLTime 0 0 0 0 0 0 0 false k;
  set_current_date := MySQLTime 2024 1 15 0 0 0 0 false MYSQL_TIMESTAMP_DATE;
  check_time_range := sample_range;
  check_datetime_range t := negb (bool_decide (valid_date_or_datetime t));
  my_check_date _ _ _ := (false, 0);
  calc_time_diff_sec t1 t2 sg :=
    let d := sample_abs t1 - sg * sample_abs t2 in (d <? 0, Z.abs d / 1000000, Z.abs d mod 1000000);
  calc_time_diff t1 t2 sg _ :=
    let d := sample_abs t1 - sg * sample_abs t2 in (false, of_micros (Z.abs d) (d <? 0) MYSQL_TIMESTAMP_TIME);
  calc_time_from_sec t s us :=
    MySQLTime (year t) (month t) (day t) (s / 3600) (s mod 3600 / 60) (s mod 60) us (neg t) MYSQL_TIMESTAMP_TIME;
  calc_daynr := sample_daynr;
  get_date_from_daynr n := (false, (n / 372, n mod 372 / 31, n mod 31));
  adjust_time_range_with_warn t dec := (sample_range t dec 0).1;
  number_to_time_only n nr sp _ _ := sample_time n nr sp;
  number_to_datetime_or_date nr sp _ _ := sample_datetime nr sp;
  pack_time t := time_micros t;
  TIME_to_ulonglong_time t := hour t * 10000 + minute t * 100 + second t;
  TIME_to_ulonglong_date t := year t * 10000 + month t * 100 + day t;
  TIME_to_ulonglong_datetime t := hour t * 10000 + minute t * 100 + second t;
  TIME_to_ulonglong t := hour t * 10000 + minute t * 100 + second t;
  time_round_or_set_max_nsec dec ns w t := sample_round dec ns w t;
  time_round_or_set_max dec w t := sample_round dec (unit_of dec * 500) w t;
  datetime_round_or_invalidate_nsec dec ns w t := sample_datetime_round dec ns w t;
  datetime_round_or_invalidate dec w t := sample_datetime_round dec (unit_of dec * 500) w t;
  timestamp_round_or_set_max dec w t := (t.1, floor_to (unit_of dec) t.2, w)
|}.

Lemma max_time_valid dec n : 0 <= dec <= 6 -> valid_time (max_time dec n).
Proof.
  intros Hd. pose proof (unit_pos dec Hd) as Up. unfold unit_of in Up. unfold max_time, valid_time, valid_mmssff. cbn.
  pose proof (Z.mod_pos_bound TIME_MAX_SECOND_PART (10 ^ (6 - dec)) Up).
  pose proof (Z.mod_le TIME_MAX_SECOND_PART _ ltac:(unfold TIME_MAX_SECOND_PART; lia) Up).
  unfold TIME_MAX_MINUTE, TIME_MAX_SECOND, TIME_MAX_HOUR, TIME_MAX_SECOND_PART in *. split_and!; (done || lia).
Qed.

Lemma of_micros_interval v n : 0 <= v -> interval (of_micros v n MYSQL_TIMESTAMP_TIME).
Proof.
  intros Hv. unfold interval, valid_mmssff, of_micros. cbn.
  pose proof (Z.mod_pos_bound (v / 60000000) 60). pose proof (Z.mod_pos_bound (v / 1000000) 60).
  pose proof (Z.mod_pos_bound v 1000000). split_and!; try done; try lia. apply Z.div_pos; lia.
Qed.

Lemma interval_valid t : interval t -> hour t <= TIME_MAX_HOUR -> valid_time t.
Proof. intros (? & ? & ? & ? & ? & ?) ?. by split_and!. Qed.

Lemma sample_range_ok t dec w : interval t -> 0 <= dec <= 6 ->
  valid_time (sample_range t dec w).1.2 /\
  (hour t <= TIME_MAX_HOUR -> dec = 6 -> (sample_range t dec w).1.2 = t) /\
  (TIME_MAX_HOUR < hour t -> (sample_range t dec w).1.2 = max_time dec (neg t)).
Proof.
  intros Ht Hd. unfold sample_range. destruct (Z.leb_spec (hour t) TIME_MAX_HOUR); cbn.
  - split; [by apply interval_valid|]. split; [done|lia].
  - split; [by apply max_time_valid|]. split; [lia|done].
Qed.

Lemma sample_round_ok dec ns w t : valid_time (sample_round dec ns w t).1.
Proof. unfold sample_round. case_bool_decide; [done|]. by apply max_time_valid. Qed.
Lemma sample_datetime_round_ok dec ns w t :
  let t' := (sample_datetime_round dec ns w t).1.2 in
  time_type t' = MYSQL_TIMESTAMP_NONE \/ (valid_date_or_datetime t' /\ time_type t' = time_type t).
Proof. unfold sample_datetime_round. case_bool_decide; cbn; [by right|by left]. Qed.

Lemma sample_laws : @TimeLibLaws sample_lib.
Proof.
  split.
  - done.
  - done.
  - by vm_compute; split_and!; try (by left).
  - intros t dec w. apply sample_range_ok.
  - intros t Ht. cbn. by rewrite bool_decide_true.
  - intros y m d. apply wrapU_range. done.
  - intros. apply of_micros_interval. lia.
  - intros t1 t2 sg _ _ _. cbn. pose proof (Z.div_mod (Z.abs (sample_abs t1 - sg * sample_abs t2)) 1000000).
    pose proof (Z.mod_pos_bound (Z.abs (sample_abs t1 - sg * sample_abs t2)) 1000000).
    split; [apply Z.div_pos; lia|]. split; [lia|]. split; [|done].
    change (Z.abs (sample_abs t1 - sg * sample_abs t2) / 1000000 * 1000000 +
            Z.abs (sample_abs t1 - sg * sample_abs t2) mod 1000000 = Z.abs (sample_abs t1 - sg * sample_abs t2)). lia.
  - intros t s us _ _. by exists MYSQL_TIMESTAMP_TIME.
  - intros t dec Ht Hd. destruct (sample_range_ok t dec 0 Ht Hd) as (? & ? & ?). by split.
  - intros n nr sp w. cbn. unfold sample_time. case_bool_decide; cbn; split; (done || lia).
  - intros nr sp fl w. cbn. unfold sample_datetime. case_bool_decide as V; cbn; [|split_and!; (done || lia)].
    enough (0 <= nr) by (split_and!; (done || lia)). apply Z.nlt_ge. intros Hn. destruct V as (_ & _ & V & _). cbn in V.
    assert (nr / 10000000000 < 0) by (apply Z.div_lt_upper_bound; lia). lia.
  - intros dec ns w t _. apply sample_round_ok.
  - intros dec w t _. apply sample_round_ok.
  - intros dec ns w t _. apply sample_datetime_round_ok.
  - intros dec w t _. apply sample_datetime_round_ok.
Qed.
