(* ===== verification/Sec6.v ===== *)
(** Seconds with a fraction: [Sec6], [Sec9], [VSec9] and [Sec6_add] of
    [mariadb/include/mysql/server/private/sql_type.h], the values that numbers and
    sums of times go through before they are a [MYSQL_TIME].

    An out parameter [ltime] is passed in and returned; [warn] is the value behind
    the [int *warn].  The constructors from [double] and decimals are declared
    only: a [Sec6] or [Sec9] made from them is any value of the type. *)

From S2P Require Import Prelude TypeInt BasicTypes MyTime.
Import DateMode.

Record Sec6 := MkSec6 { m_sec : Z; m_usec : Z; m_neg : bool; m_truncated : bool }.
Record Sec9 := MkSec9 { sec6 : Sec6; m_nsec : Z }.
(** [None] for the SQL value NULL. *)
Definition VSec9 : Type := option Sec9.

Section Sec6.
Context `{TimeLib}.

Definition make_from_int (nr : Longlong_hybrid) : Sec6 := MkSec6 (h_abs nr) 0 (h_neg nr) false.
Definition reset : Sec6 := MkSec6 0 0 false false.

Definition add_nanoseconds (nanosecs : Z) (s : Sec6) : option (bool * Sec6) :=
  dbug_assert (nanosecs <=? 1000000000);;
  if nanosecs <? 500 then Some (false, s) else
  let s := MkSec6 (m_sec s) (u64 (m_usec s + u32 (nanosecs + 500) / 1000)) (m_neg s) (m_truncated s) in
  if m_usec s <? 1000000 then Some (false, s) else
  Some (true, MkSec6 (m_sec s) (m_usec s mod 1000000) (m_neg s) (m_truncated s)).

Definition to_interval_hhmmssff_only (warn : Z) (s : Sec6) : bool * MYSQL_TIME * Z :=
  let '(rc, t, w) := number_to_time_only (m_neg s) (m_sec s) (m_usec s) TIME_MAX_INTERVAL_HOUR warn in (nz rc, t, w).

Definition to_datetime_or_date (flags : date_conv_mode_t) (to : MYSQL_TIME) (warn : Z) (s : Sec6) :
    option (bool * MYSQL_TIME * Z) :=
  if m_neg s then Some (true, to, MYSQL_TIME_WARN_OUT_OF_RANGE) else
  let '(r, to, warn) := number_to_datetime_or_date (s64 (m_sec s)) (m_usec s)
                          (conv_ulonglong (conv_and flags TIME_MODE_FOR_XXX_TO_DATE)) warn in
  let rc := r =? -1 in
  dbug_assert (nz warn || negb rc);;
  Some (rc, to, warn).

Definition to_datetime_or_to_interval_hhmmssff (to : MYSQL_TIME) (warn : Z) (s : Sec6) :
    option (bool * MYSQL_TIME * Z) :=
  dbug_assert (TIME_MAX_INTERVAL_HOUR <=? 999999995959);;
  if (999999995959 <? m_sec s) && (m_sec s <=? 99991231235959) && negb (m_neg s)
  then to_datetime_or_date (DateConvMode INVALID_DATES) to warn s
  else if TIME_MAX_INTERVAL_HOUR <? m_sec s / 10000
  then Some (true, to, MYSQL_TIME_WARN_OUT_OF_RANGE)
  else Some (to_interval_hhmmssff_only warn s).

Definition to_datetime_or_time (mode : date_conv_mode_t) (warn : Z) (s : Sec6) : option (bool * MYSQL_TIME * Z) :=
  let '(rc, to, warn) :=
    if (9999999 <? m_sec s) && (m_sec s <=? 99991231235959) && negb (m_neg s)
    then let '(r, to, warn) := number_to_datetime_or_date (s64 (m_sec s)) (m_usec s)
                                 (conv_ulonglong (conv_and mode TIME_MODE_FOR_XXX_TO_DATE)) warn in (r <? 0, to, warn)
    else let '(r, to, warn) := number_to_time_only (m_neg s) (m_sec s) (m_usec s) TIME_MAX_HOUR warn in (nz r, to, warn) in
  dbug_assert (nz warn || negb rc);;
  Some (rc, to, warn).

Definition sec_to_time (dec : Z) (ltime : MYSQL_TIME) (s : Sec6) : option (bool * MYSQL_TIME) :=
  let ltime := set_zero_time ltime MYSQL_TIMESTAMP_TIME in
  let ltime := set_neg (m_neg s) ltime in
  if TIME_MAX_VALUE_SECONDS <? m_sec s then
    let ltime := set_hour (TIME_MAX_HOUR + 1) ltime in
    Some (true, (check_time_range ltime dec 0).1.2)
  else
    dbug_assert (m_usec s <=? TIME_MAX_SECOND_PART);;
    let ltime := set_hour (u32 (m_sec s / 3600)) ltime in
    let ltime := set_minute (u32 (m_sec s mod 3600) / 60) ltime in
    let ltime := set_second (u32 (m_sec s) mod 60) ltime in
    Some (false, set_second_part (m_usec s) ltime).

Definition trunc (dec : Z) (s : Sec6) : option Sec6 :=
  r ← my_time_fraction_remainder (s64 (m_usec s)) dec;
  Some (MkSec6 (m_sec s) (u64 (m_usec s - r)) (m_neg s) (m_truncated s)).

(** ** Sec9 and its nullable form *)

Definition sec9_make_from_int (nr : Longlong_hybrid) : Sec9 := MkSec9 (make_from_int nr) 0.
Definition sec9_trunc (dec : Z) (s : Sec9) : option Sec9 :=
  s6 ← trunc dec (sec6 s); Some (MkSec9 s6 0).

(** [Sec9::round(dec)] is declared only. *)
Variable sec9_round_half : Z -> Sec9 -> Sec9.
Definition sec9_round (dec : Z) (mode : time_round_mode_t) (s : Sec9) : option Sec9 :=
  if round_eq mode (TimeRoundMode FRAC_TRUNCATE) then sec9_trunc dec s else Some (sec9_round_half dec s).

Definition vsec9_sec_to_time (dec : Z) (ltime : MYSQL_TIME) (v : VSec9) : option (bool * MYSQL_TIME) :=
  s ← v; sec_to_time dec ltime (sec6 s).
Definition vsec9_round (dec : Z) (mode : time_round_mode_t) (v : VSec9) : option VSec9 :=
  s ← v; s' ← sec9_round dec mode s; Some (Some s').

(** ** Sec6_add *)

Record Sec6_value := Sec6Value { a_sec : Z; a_usec : Z; a_neg : bool }.
(** [None] is [m_error], which leaves the other members without a value. *)
Definition Sec6_add : Type := option Sec6_value.

Definition sec6_add (ltime1 ltime2 : MYSQL_TIME) (sign : Z) : option Sec6_add :=
  dbug_assert ((sign =? -1) || (sign =? 1));;
  dbug_assert (negb (neg ltime1) || is_type MYSQL_TIMESTAMP_TIME ltime1);;
  if negb (is_type MYSQL_TIMESTAMP_TIME ltime2) then Some None else
  let sign := if xorb (neg ltime1) (neg ltime2) then - sign else sign in
  let '(n, s, us) := calc_time_diff_sec ltime1 ltime2 (- sign) in
  let n := if neg ltime1 && (nz s || nz us) then negb n else n in
  Some (Some (Sec6Value s us n)).

Definition to_hh24mmssff (tstype : timestamp_type) (a : Sec6_value) : MYSQL_TIME :=
  let ltime := MySQLTime 0 0 0 0 0 0 0 (a_neg a) MYSQL_TIMESTAMP_DATE in
  set_time_type tstype (calc_time_from_sec ltime (a_sec a mod SECONDS_IN_24H) (a_usec a)).
(** A [long]; the days of fewer than 2^63 microseconds fit one of 32 bits as well. *)
Definition to_days_abs (a : Sec6_value) : Z := s64 (a_sec a / SECONDS_IN_24H).
Definition add_to_time (decimals : Z) (ltime : MYSQL_TIME) (a : Sec6_add) : bool * MYSQL_TIME :=
  match a with
  | None => (true, ltime)
  | Some a =>
      let ltime := to_hh24mmssff MYSQL_TIMESTAMP_TIME a in
      adjust_time_range_with_warn (set_hour (u32 (hour ltime + u32 (to_days_abs a * 24))) ltime) decimals
  end.
Definition add_to_datetime (ltime : MYSQL_TIME) (a : Sec6_add) : bool * MYSQL_TIME :=
  match a with
  | None => (true, ltime)
  | Some a =>
      if a_neg a then (true, ltime) else
      let ltime := to_hh24mmssff MYSQL_TIMESTAMP_DATETIME a in
      let '(rc, (y, m, d)) := get_date_from_daynr (to_days_abs a) in
      let ltime := set_year y (set_month m (set_day d ltime)) in
      (rc || negb (nz (day ltime)), ltime)
  end.

End Sec6.

(** ** What a value stands for *)

Definition sec6_abs (s : Sec6) : Z := m_sec s * 1000000 + m_usec s.
Definition sec6_micros (s : Sec6) : Z := signed (m_neg s) (sec6_abs s).
Definition sec6_ok (s : Sec6) : Prop := in_u 64 (m_sec s) /\ 0 <= m_usec s <= TIME_MAX_SECOND_PART.
(** The signed value of a date or time, and of a sum. *)
Definition value_of `{TimeLib} (t : MYSQL_TIME) : Z := signed (neg t) (abs_micros t).
Definition sum_abs (a : Sec6_value) : Z := a_sec a * 1000000 + a_usec a.
Definition sum_micros (a : Sec6_value) : Z := signed (a_neg a) (sum_abs a).

(** Sixty-fold parts put together again. *)
Lemma hms_split v : 0 <= v -> (v / 3600 * 60 + v mod 3600 / 60) * 60 + v mod 60 = v.
Proof.
  intros Hv. pose proof (Z.div_mod v 3600). pose proof (Z.div_mod (v mod 3600) 60).
  assert (v mod 3600 mod 60 = v mod 60); [|lia].
  apply Z.mod_mod_divide. by exists 60.
Qed.
Lemma hms_parts v : 0 <= v mod 3600 / 60 <= 59 /\ 0 <= v mod 60 <= 59.
Proof.
  pose proof (Z.mod_pos_bound v 3600). pose proof (Z.mod_pos_bound v 60). split; [|lia].
  split; [apply Z.div_pos; lia|]. apply Z.lt_succ_r, Z.div_lt_upper_bound; lia.
Qed.

Section Sec6Laws.
Context `{TimeLibLaws}.

Lemma sec_to_time_run dec l s : 0 <= dec <= 6 -> sec6_ok s ->
  exists rc t, sec_to_time dec l s = Some (rc, t) /\ rc = (TIME_MAX_VALUE_SECONDS <? m_sec s) /\
    valid_time t /\ neg t = m_neg s /\
    if rc then t = max_time dec (m_neg s) else hms_micros t = sec6_abs s.
Proof.
  intros Hd [Hs Hu]. unfold in_u in Hs. unfold sec_to_time. rewrite set_zero_time_law.
  destruct (Z.ltb_spec TIME_MAX_VALUE_SECONDS (m_sec s)) as [L|L].
  - eexists true, _. split; [done|]. split; [done|]. cbn.
    set (t0 := set_hour (TIME_MAX_HOUR + 1) _).
    assert (interval t0) as I by (unfold t0, interval, valid_mmssff, TIME_MAX_HOUR; cbn; lia || (split_and!; (done || lia))).
    destruct (check_time_range_law t0 dec 0 I Hd) as (V & _ & ->);
      [split; [by apply max_time_valid|done]|unfold t0; cbn; lia].
  - rewrite (proj2 (Z.leb_le _ _)) by lia. cbn. eexists false, _. split; [done|]. split; [done|].
    unfold TIME_MAX_VALUE_SECONDS, TIME_MAX_HOUR, TIME_MAX_MINUTE, TIME_MAX_SECOND, TIME_MAX_SECOND_PART in *.
    pose proof (hms_parts (m_sec s)). pose proof (hms_split (m_sec s) ltac:(lia)) as E.
    pose proof (Z.mod_pos_bound (m_sec s) 3600).
    assert (0 <= m_sec s / 3600 <= 838) as B.
    { split; [apply Z.div_pos; lia|]. apply Z.lt_succ_r, Z.div_lt_upper_bound; lia. }
    unfold valid_time, valid_mmssff, hms_micros, sec6_abs, TIME_MAX_HOUR. cbn.
    rewrite !wrapU_small by (unfold in_u; lia). split_and!; (done || lia).
Qed.

Lemma sec6_trunc_run dec s : 0 <= dec <= 6 -> sec6_ok s ->
  exists s', trunc dec s = Some s' /\ sec6_ok s' /\ sec6_abs s' = floor_to (unit_of dec) (sec6_abs s) /\ m_neg s' = m_neg s.
Proof.
  intros Hd [Hs Hu]. unfold TIME_MAX_SECOND_PART in Hu. unfold trunc. rewrite (wrapS_small 64) by (unfold in_s; lia).
  rewrite fraction_remainder_run by (done || lia). cbn. destruct (floor_to_small dec _ Hd Hu) as [B ->].
  eexists. split; [done|]. split; [done|]. split; [|done]. unfold sec6_abs. cbn. rewrite (unit_second dec Hd).
  rewrite (Z.mul_comm (m_sec s)), <- Z.mul_assoc, floor_to_shift by (by apply unit_pos). lia.
Qed.

Lemma sec6_add_nanoseconds_run ns s : 0 <= ns <= 1000000000 -> sec6_ok s ->
  exists c s', add_nanoseconds ns s = Some (c, s') /\ sec6_ok s' /\ m_neg s' = m_neg s /\
    sec6_abs s' + (if c then 1000000 else 0) = sec6_abs s + ns_round ns.
Proof.
  intros Hn [Hs Hu]. unfold TIME_MAX_SECOND_PART in Hu. pose proof (ns_round_range ns Hn) as R. unfold add_nanoseconds.
  rewrite (proj2 (Z.leb_le _ _)) by lia. cbn. unfold sec6_ok, sec6_abs, TIME_MAX_SECOND_PART.
  destruct (Z.ltb_spec ns 500) as [L|L]; [exists false, s; rewrite ns_round_small by lia; split_and!; (lia || done)|].
  rewrite ns_round_u32 by done. rewrite wrapU_small by (unfold in_u; lia).
  destruct (Z.ltb_spec (m_usec s + ns_round ns) 1000000) as [B|B].
  - eexists _, _. split; [done|]. cbn. split_and!; (done || lia).
  - destruct (usec_carry (m_usec s) (ns_round ns)) as [E ?]; [lia..|].
    rewrite Z.rem_mod_nonneg in E by lia.
    eexists _, _. split; [done|]. cbn. rewrite E. split_and!; (done || lia).
Qed.

Lemma make_from_int_ok nr : in_s 64 (h_value nr) ->
  sec6_ok (make_from_int nr) /\ sec6_micros (make_from_int nr) = h_sem nr * 1000000.
Proof.
  intros Hv. unfold sec6_ok, sec6_micros, sec6_abs, make_from_int, TIME_MAX_SECOND_PART. cbn [m_sec m_usec m_neg].
  rewrite h_abs_sem by done. unfold h_sem, h_neg in *. unfold in_s in Hv.
  pose proof (wrapU_range 64 (h_value nr) ltac:(lia)) as R. unfold in_u in *.
  destruct (h_unsigned nr); cbn [negb]; rewrite ?andb_false_r, ?andb_true_r; cbn [signed].
  - rewrite Z.abs_eq by lia. split; [split; lia|lia].
  - destruct (Z.ltb_spec (h_value nr) 0); cbn [signed]; (split; [split; lia|lia]).
Qed.

(** Seconds to TIME: an integer becomes exactly its number of seconds, and up
    to 838:59:59 [sec_to_time] gives the valid TIME of that many microseconds with
    its sign, above it the largest TIME of the asked precision and [true]; adding
    nanoseconds adds them rounded half up and returns the carry into the seconds;
    [trunc] drops the digits below the precision. *)
Lemma seconds_to_time (nr : Longlong_hybrid) (s : Sec6) (l : MYSQL_TIME) (dec ns : Z) :
  in_s 64 (h_value nr) -> sec6_ok s -> 0 <= dec <= 6 -> 0 <= ns <= 1000000000 ->
  (exists t, sec_to_time dec l (make_from_int nr) = Some (TIME_MAX_VALUE_SECONDS <? Z.abs (h_sem nr), t) /\
     valid_time t /\
     (Z.abs (h_sem nr) <= TIME_MAX_VALUE_SECONDS -> time_micros t = h_sem nr * 1000000) /\
     (TIME_MAX_VALUE_SECONDS < Z.abs (h_sem nr) -> t = max_time dec (h_sem nr <? 0))) /\
  (exists t, sec_to_time dec l s = Some (TIME_MAX_VALUE_SECONDS <? m_sec s, t) /\ valid_time t /\
     (m_sec s <= TIME_MAX_VALUE_SECONDS -> time_micros t = sec6_micros s /\ neg t = m_neg s) /\
     (TIME_MAX_VALUE_SECONDS < m_sec s -> t = max_time dec (m_neg s))) /\
  (exists carry s', add_nanoseconds ns s = Some (carry, s') /\ sec6_ok s' /\ m_neg s' = m_neg s /\
     sec6_abs s' + (if carry then 1000000 else 0) = sec6_abs s + ns_round ns) /\
  (exists s', trunc dec s = Some s' /\ sec6_ok s' /\
     sec6_micros s' = Z.quot (sec6_micros s) (unit_of dec) * unit_of dec).
Proof.
  intros Hn Hs Hd Hns. destruct (make_from_int_ok nr Hn) as [Io Iv].
  assert (G : forall s, sec6_ok s -> exists t, sec_to_time dec l s = Some (TIME_MAX_VALUE_SECONDS <? m_sec s, t) /\
     valid_time t /\ (m_sec s <= TIME_MAX_VALUE_SECONDS -> time_micros t = sec6_micros s /\ neg t = m_neg s) /\
     (TIME_MAX_VALUE_SECONDS < m_sec s -> t = max_time dec (m_neg s))).
  { intros x Hx. destruct (sec_to_time_run dec l x Hd Hx) as (rc & t & E & -> & V & N & C). exists t. split; [done|].
    split; [done|]. unfold time_micros, sec6_micros. rewrite N.
    destruct (Z.ltb_spec TIME_MAX_VALUE_SECONDS (m_sec x)); split; intros ?; try lia; [done|]. by rewrite C. }
  assert (m_sec (make_from_int nr) = Z.abs (h_sem nr)) as Sa by (by apply h_abs_sem).
  assert (m_neg (make_from_int nr) = (h_sem nr <? 0)) as Sn.
  { cbn. unfold h_neg, h_sem. pose proof (wrapU_range 64 (h_value nr) ltac:(lia)) as R. unfold in_u in R.
    destruct (h_unsigned nr); cbn; rewrite ?andb_true_r, ?andb_false_r; [|done].
    by rewrite (proj2 (Z.ltb_ge _ _)) by lia. }
  split; [|split; [|split]].
  - destruct (G _ Io) as (t & E & V & C1 & C2). rewrite Sa in E, C1, C2. rewrite Sn in C2.
    exists t. split; [done|]. split; [done|]. split; [|done]. intros L. rewrite (proj1 (C1 L)). done.
  - by apply G.
  - by apply sec6_add_nanoseconds_run.
  - destruct (sec6_trunc_run dec s Hd Hs) as (s' & E & O & F & N). exists s'. split; [done|]. split; [done|].
    unfold sec6_micros. destruct Hs as [Hs Hu]. unfold in_u in Hs.
    rewrite signed_quot by (by apply unit_pos || (unfold sec6_abs; lia)). by rewrite N, F.
Qed.

(** ** Sums *)

Definition day_micros : Z := SECONDS_IN_24H * 1000000.

Lemma sec6_add_run l1 l2 sign : interval l1 \/ valid_date_or_datetime l1 -> interval l2 -> sign = 1 \/ sign = -1 ->
  exists a, sec6_add l1 l2 sign = Some (Some a) /\ 0 <= a_sec a /\ 0 <= a_usec a < 1000000 /\
    sum_micros a = value_of l1 + sign * value_of l2 /\ (a_neg a = true -> sum_micros a < 0).
Proof.
  intros H1 H2 Hs. unfold sec6_add, is_type.
  assert ((sign =? -1) || (sign =? 1) = true) as -> by (destruct Hs as [-> | ->]; done).
  assert (negb (neg l1) || bool_decide (time_type l1 = MYSQL_TIMESTAMP_TIME) = true) as ->.
  { destruct H1 as [(E & _)|(_ & -> & _)]; [|done]. rewrite E. by rewrite orb_true_r. }
  destruct H2 as [E2 H2']. rewrite E2. cbn.
  set (sg := if xorb (neg l1) (neg l2) then - sign else sign).
  assert (sg = 1 \/ sg = -1) as Hsg by (unfold sg; case_match; lia).
  pose proof (calc_time_diff_sec_law l1 l2 (- sg) ltac:(lia) H1 (conj E2 H2')) as L.
  destruct (calc_time_diff_sec l1 l2 (- sg)) as [[n s] us]. destruct L as (L1 & L2 & L3 & L4).
  set (d := abs_micros l1 - - sg * abs_micros l2) in *.
  assert (value_of l1 + sign * value_of l2 = signed (neg l1) d) as ->.
  { unfold value_of, d, sg. destruct (neg l1), (neg l2); cbn; lia. }
  eexists. split; [done|]. cbn. split; [done|]. split; [done|]. unfold sum_micros, sum_abs. cbn.
  rewrite L3. subst n. unfold nz.
  destruct (Z.eqb_spec s 0), (Z.eqb_spec us 0), (neg l1); cbn; destruct (Z.ltb_spec d 0); cbn; split; lia || done.
Qed.

Lemma time_of_sum k a : 0 <= a_sec a -> 0 <= a_usec a < 1000000 ->
  exists t, to_hh24mmssff k a = t /\ time_type t = k /\ neg t = a_neg a /\ (year t, month t, day t) = (0, 0, 0) /\
    hour t = a_sec a mod SECONDS_IN_24H / 3600 /\ 0 <= hour t < 24 /\ valid_mmssff t /\
    hms_micros t = sum_abs a mod day_micros.
Proof.
  intros Hs Hu. pose proof (Z.mod_pos_bound (a_sec a) SECONDS_IN_24H ltac:(done)) as B. unfold SECONDS_IN_24H in B.
  eexists. split; [done|]. unfold to_hh24mmssff.
  destruct (calc_time_from_sec_law (MySQLTime 0 0 0 0 0 0 0 (a_neg a) MYSQL_TIMESTAMP_DATE)
    (a_sec a mod SECONDS_IN_24H) (a_usec a)) as [k' ->]; [unfold SECONDS_IN_24H in *; lia|done|].
  cbn. split_and!; try done.
  - apply Z.div_pos; unfold SECONDS_IN_24H; lia.
  - apply Z.div_lt_upper_bound; unfold SECONDS_IN_24H; lia.
  - pose proof (hms_parts (a_sec a mod SECONDS_IN_24H)). unfold valid_mmssff. cbn. lia.
  - unfold hms_micros. cbn. rewrite (hms_split (a_sec a mod SECONDS_IN_24H)) by (unfold SECONDS_IN_24H in *; lia).
    unfold sum_abs, day_micros, SECONDS_IN_24H. apply (Z.mod_unique _ _ (a_sec a / 86400)).
    + left. lia.
    + pose proof (Z.div_mod (a_sec a) 86400). lia.
Qed.

Lemma sum_days a : 0 <= a_sec a -> 0 <= a_usec a < 1000000 -> sum_abs a / day_micros = a_sec a / SECONDS_IN_24H.
Proof.
  intros Hs Hu. unfold sum_abs, day_micros, SECONDS_IN_24H. symmetry.
  apply (Z.div_unique _ _ _ ((a_sec a mod 86400) * 1000000 + a_usec a)).
  - left. pose proof (Z.mod_pos_bound (a_sec a) 86400). lia.
  - pose proof (Z.div_mod (a_sec a) 86400). lia.
Qed.

(** Hours and days of a sum, with the conversions to 32 bits. *)
Lemma add_to_time_run dec l a : 0 <= a_sec a < 2 ^ 32 * 3600 -> 0 <= a_usec a < 1000000 ->
  exists t, add_to_time dec l (Some a) = adjust_time_range_with_warn t dec /\ interval t /\
    hms_micros t = sum_abs a /\ neg t = a_neg a.
Proof.
  intros Hs Hu. destruct (time_of_sum MYSQL_TIMESTAMP_TIME a) as (t & E & T1 & T2 & T3 & T4 & T5 & T6 & T7); [lia|done|].
  unfold add_to_time. rewrite E. unfold to_days_abs.
  assert (0 <= a_sec a / SECONDS_IN_24H < 2 ^ 63) as D.
  { unfold SECONDS_IN_24H. split; [apply Z.div_pos; lia|]. apply Z.div_lt_upper_bound; lia. }
  rewrite (wrapS_small 64) by (unfold in_s; lia).
  assert (hour t + a_sec a / SECONDS_IN_24H * 24 = a_sec a / 3600) as Eh.
  { rewrite T4. unfold SECONDS_IN_24H. change 86400 with (3600 * 24). rewrite Z.rem_mul_r by lia.
    rewrite (Z.add_comm (a_sec a mod 3600)), Z.mul_comm, Z.div_add_l by lia.
    rewrite (Z.div_small (a_sec a mod 3600)) by (apply Z.mod_pos_bound; lia).
    rewrite <- Z.div_div by lia. pose proof (Z.div_mod (a_sec a / 3600) 24). lia. }
  assert (0 <= a_sec a / 3600 < 2 ^ 32) as B by (split; [apply Z.div_pos; lia|apply Z.div_lt_upper_bound; lia]).
  rewrite (wrapU_small 32 (a_sec a / SECONDS_IN_24H * 24)) by (unfold in_u; lia).
  rewrite wrapU_small by (unfold in_u; lia). eexists. split; [done|].
  pose proof (Z.div_pos (a_sec a) 3600 ltac:(lia) ltac:(lia)).
  injection T3 as Ey Em Ed. unfold interval. cbn. rewrite T1, Ey, Em, Ed. split; [split_and!; (done || exact T6 || lia)|]. split; [|done].
  transitivity (hms_micros t + (a_sec a / SECONDS_IN_24H * 24) * 3600000000); [unfold hms_micros; cbn; lia|].
  rewrite T7. pose proof (Z.div_mod (sum_abs a) day_micros ltac:(done)) as Q. rewrite sum_days in Q by (lia || done).
  unfold day_micros, SECONDS_IN_24H in *. lia.
Qed.

Lemma add_to_datetime_run l a : 0 <= a_sec a < 2 ^ 63 -> 0 <= a_usec a < 1000000 -> a_neg a = false ->
  exists t, add_to_datetime l (Some a) =
      ((get_date_from_daynr (sum_abs a / day_micros)).1 || (day t =? 0), t) /\
    time_type t = MYSQL_TIMESTAMP_DATETIME /\ neg t = false /\ 0 <= hour t < 24 /\ valid_mmssff t /\
    (year t, month t, day t) = (get_date_from_daynr (sum_abs a / day_micros)).2 /\
    hms_micros t = sum_abs a mod day_micros.
Proof.
  intros Hs Hu Hn. destruct (time_of_sum MYSQL_TIMESTAMP_DATETIME a) as (t & E & T1 & T2 & T3 & T4 & T5 & T6 & T7); [lia|done|].
  unfold add_to_datetime. rewrite Hn, E. unfold to_days_abs. rewrite sum_days by (lia || done).
  assert (0 <= a_sec a / SECONDS_IN_24H < 2 ^ 63) as D.
  { unfold SECONDS_IN_24H. split; [apply Z.div_pos; lia|]. apply Z.div_lt_upper_bound; lia. }
  rewrite (wrapS_small 64) by (unfold in_s; lia).
  destruct (get_date_from_daynr (a_sec a / SECONDS_IN_24H)) as [rc [[y m] d]]. cbn. exists (set_year y (set_month m (set_day d t))).
  unfold nz. rewrite negb_involutive. split; [done|]. cbn. rewrite T1, T2, Hn.
  split; [done|]. split; [done|]. split; [done|]. split; [exact T6|]. split; [done|exact T7].
Qed.

(** C28 : [Sec6_add] computes the signed sum or difference of a date, datetime or
    TIME and a TIME exactly, whatever the two signs, and never gives a negative
    zero.  As a TIME the result goes to the range adjustment with its full hours
    (within 838 hours it is that TIME); as a DATETIME a negative sum is refused,
    and any other is split into the day number and the time of day.  A second
    operand that is no TIME is an error in both forms; a sign other than +1 and -1
    fails the assertion. *)
Theorem sec6_add_correct (l1 l2 l2' l : MYSQL_TIME) (sign dec : Z) :
  interval l1 \/ valid_date_or_datetime l1 -> interval l2 -> sign = 1 \/ sign = -1 -> 0 <= dec <= 6 ->
  let v := value_of l1 + sign * value_of l2 in
  (exists a, sec6_add l1 l2 sign = Some (Some a) /\ sum_micros a = v /\
     (Z.abs v < 2 ^ 32 * 3600000000 ->
        exists t, add_to_time dec l (Some a) = adjust_time_range_with_warn t dec /\ interval t /\
          time_micros t = v /\ (neg t = true -> v < 0) /\ valid_time (add_to_time dec l (Some a)).2 /\
          (dec = 6 -> Z.abs v < 839 * 3600000000 -> (add_to_time dec l (Some a)).2 = t)) /\
     (v < 0 -> add_to_datetime l (Some a) = (true, l)) /\
     (0 <= v < 2 ^ 63 -> exists t,
        add_to_datetime l (Some a) = ((get_date_from_daynr (v / day_micros)).1 || (day t =? 0), t) /\
        time_type t = MYSQL_TIMESTAMP_DATETIME /\ neg t = false /\ valid_mmssff t /\
        (year t, month t, day t) = (get_date_from_daynr (v / day_micros)).2 /\ hms_micros t = v mod day_micros)) /\
  (time_type l2' <> MYSQL_TIMESTAMP_TIME -> sec6_add l1 l2' sign = Some None) /\
  add_to_time dec l None = (true, l) /\ add_to_datetime l None = (true, l) /\
  (forall s, s <> 1 -> s <> -1 -> sec6_add l1 l2 s = None).
Proof.
  intros H1 H2 Hs Hd v. split; [|split; [|split; [|split]]]; try done.
  - destruct (sec6_add_run l1 l2 sign H1 H2 Hs) as (a & E & S1 & S2 & S3 & S4). fold v in S3.
    assert (signed (a_neg a) (sum_abs a) = v) as Sv by exact S3. rewrite S3 in S4.
    assert (sum_abs a = Z.abs v) as Sa by (destruct (a_neg a); cbn in Sv; unfold sum_abs in *; lia).
    exists a. split; [done|]. split; [done|]. split; [|split].
    + intros Hv. destruct (add_to_time_run dec l a) as (t & Et & I & M & N); [unfold sum_abs in *; lia|done|].
      exists t. split; [done|]. split; [done|]. unfold time_micros. rewrite M, N. split; [done|]. split; [done|].
      rewrite Et. destruct (adjust_time_range_law t dec I Hd) as [A1 A2]. split; [done|]. intros -> Hv'. apply A2; [|done].
      destruct I as (_ & _ & _ & _ & Ih & (? & ? & ?)). unfold TIME_MAX_HOUR. unfold hms_micros in M. lia.
    + intros Hv. unfold add_to_datetime. destruct (a_neg a) eqn:N; [done|]. cbn in Sv. unfold sum_abs in *. lia.
    + intros Hv. assert (a_neg a = false) as N by (destruct (a_neg a); [lia|done]).
      destruct (add_to_datetime_run l a) as (t & Et & T1 & T2 & T3 & T4 & T5 & T6); [unfold sum_abs in *; lia|done|done|].
      rewrite Sa, Z.abs_eq in Et, T5, T6 by lia. by exists t.
  - intros Hk. unfold sec6_add, is_type. rewrite (bool_decide_false (time_type l2' = _)) by done.
    assert ((sign =? -1) || (sign =? 1) = true) as -> by (destruct Hs as [-> | ->]; done).
    assert (negb (neg l1) || bool_decide (time_type l1 = MYSQL_TIMESTAMP_TIME) = true) as ->; [|done].
    destruct H1 as [(E & _)|(_ & -> & _)]; [|done]. rewrite E. by rewrite orb_true_r.
  - intros s N1 N2. unfold sec6_add. by rewrite (proj2 (Z.eqb_neq s (-1))), (proj2 (Z.eqb_neq s 1)) by done.
Qed.

(** ** The formats of numbers *)

(** The longest interval that is read as hhhhmmss. *)
Definition MAX_INTERVAL_NUMBER : Z := TIME_MAX_INTERVAL_HOUR * 10000 + 9999.

Lemma to_datetime_or_time_run m w s : sec6_ok s ->
  let dates := number_to_datetime_or_date (s64 (m_sec s)) (m_usec s) (conv_ulonglong (conv_and m TIME_MODE_FOR_XXX_TO_DATE)) w in
  let times := number_to_time_only (m_neg s) (m_sec s) (m_usec s) TIME_MAX_HOUR w in
  exists rc t w', to_datetime_or_time m w s = Some (rc, t, w') /\
     (rc = false -> valid_time t \/ valid_date_or_datetime t) /\ (rc = true -> w' <> 0) /\
     (t, w') = if negb (m_neg s) && (9999999 <? m_sec s) && (m_sec s <=? 99991231235959)
               then (dates.1.2, dates.2) else (times.1.2, times.2).
Proof.
  intros [Hs Hu]. cbv zeta.
  unfold to_datetime_or_time.
  rewrite (andb_comm _ (negb (m_neg s))), (andb_assoc (negb (m_neg s))).
  destruct (negb (m_neg s) && _ && _).
  + pose proof (number_to_datetime_law (s64 (m_sec s)) (m_usec s)
      (conv_ulonglong (conv_and m TIME_MODE_FOR_XXX_TO_DATE)) w) as L.
    destruct (number_to_datetime_or_date _ _ _ _) as [[r t] w']. cbn. destruct L as (_ & L1 & L2). unfold nz.
    destruct (Z.ltb_spec r 0); cbn; rewrite ?orb_true_r.
    * rewrite (proj2 (Z.eqb_neq w' 0)) by (apply L2; lia). eexists _, _, _. split; [done|]. split_and!; (done || tauto).
    * eexists _, _, _. split; [done|]. split_and!; (done || (intros; right; apply L1; lia)).
  + pose proof (number_to_time_only_law (m_neg s) (m_sec s) (m_usec s) w) as L.
    destruct (number_to_time_only _ _ _ _ _) as [[r t] w']. cbn. destruct L as [L1 L2].
    unfold nz. destruct (Z.eqb_spec r 0); cbn; rewrite ?orb_true_r.
    * eexists _, _, _. split; [done|]. split_and!; (done || (intros; left; by apply L1)).
    * rewrite (proj2 (Z.eqb_neq w' 0)) by (by apply L2). eexists _, _, _. split; [done|]. split_and!; (done || tauto).
Qed.

Lemma to_datetime_or_date_run m to w s :
  exists rc t w', to_datetime_or_date m to w s = Some (rc, t, w') /\ (rc = false -> valid_date_or_datetime t) /\ (rc = true -> w' <> 0).
Proof.
  unfold to_datetime_or_date. destruct (m_neg s); [by eexists _, _, _|].
  pose proof (number_to_datetime_law (s64 (m_sec s)) (m_usec s) (conv_ulonglong (conv_and m TIME_MODE_FOR_XXX_TO_DATE)) w) as L.
  destruct (number_to_datetime_or_date _ _ _ _) as [[r t] w']. destruct L as (L0 & L1 & L2). unfold nz.
  destruct (Z.eqb_spec r (-1)) as [->|Hr]; cbn; rewrite ?orb_true_r.
  - rewrite (proj2 (Z.eqb_neq w' 0)) by (apply L2; lia). eexists _, _, _. split; [done|]. split; [done|]. intros _. apply L2. lia.
  - eexists _, _, _. split; [done|]. split; [intros _; apply L1; lia|done].
Qed.

(** How a number is read where an interval or a datetime is expected: as a
    datetime exactly above 999999995959 and up to 99991231235959, as hhhhmmss
    exactly up to 876494159999, and every other number (negative ones beyond the
    interval, and the positive gap up to 999999995959 that the comment counts
    among the intervals) is out of range without touching the result.  Where a
    datetime or a TIME is expected, non-negative numbers above 9999999 and up to
    99991231235959 are datetimes and all others TIMEs, and a failure always comes
    with a warning.  A negative number is never a datetime; one of 2^63 and more
    reaches the parser as a negative argument. *)
Lemma sec6_number_formats (s : Sec6) (to : MYSQL_TIME) (w : Z) (m : date_conv_mode_t) :
  sec6_ok s ->
  let dates f := number_to_datetime_or_date (s64 (m_sec s)) (m_usec s) (conv_ulonglong (conv_and f TIME_MODE_FOR_XXX_TO_DATE)) w in
  let times h := number_to_time_only (m_neg s) (m_sec s) (m_usec s) h w in
  (to_datetime_or_to_interval_hhmmssff to w s =
     if negb (m_neg s) && (999999995959 <? m_sec s) && (m_sec s <=? 99991231235959) then
       Some ((dates (DateConvMode INVALID_DATES)).1.1 =? -1, (dates (DateConvMode INVALID_DATES)).1.2, (dates (DateConvMode INVALID_DATES)).2)
     else if m_sec s <=? MAX_INTERVAL_NUMBER then
       Some (nz (times TIME_MAX_INTERVAL_HOUR).1.1, (times TIME_MAX_INTERVAL_HOUR).1.2, (times TIME_MAX_INTERVAL_HOUR).2)
     else Some (true, to, MYSQL_TIME_WARN_OUT_OF_RANGE)) /\
  (exists rc t w', to_datetime_or_time m w s = Some (rc, t, w') /\
     (rc = false -> valid_time t \/ valid_date_or_datetime t) /\ (rc = true -> w' <> 0) /\
     (t, w') = if negb (m_neg s) && (9999999 <? m_sec s) && (m_sec s <=? 99991231235959)
               then ((dates m).1.2, (dates m).2) else ((times TIME_MAX_HOUR).1.2, (times TIME_MAX_HOUR).2)) /\
  (m_neg s = true -> to_datetime_or_date m to w s = Some (true, to, MYSQL_TIME_WARN_OUT_OF_RANGE)) /\
  (2 ^ 63 <= m_sec s -> s64 (m_sec s) < 0) /\
  (exists nr, in_s 64 (h_value nr) /\ LONGLONG_MAX < m_sec (make_from_int nr)).
Proof.
  intros [Hs Hu]. unfold in_u in Hs. intros dates times. split; [|split; [|split; [|split]]].
  - unfold to_datetime_or_to_interval_hhmmssff, MAX_INTERVAL_NUMBER, TIME_MAX_INTERVAL_HOUR. cbn [dbug_assert Z.leb Z.compare].
    destruct (m_neg s) eqn:N; cbn; rewrite ?andb_false_r.
    2: destruct (Z.ltb_spec 999999995959 (m_sec s)), (Z.leb_spec (m_sec s) 99991231235959); cbn.
    2: { unfold to_datetime_or_date. rewrite N. fold (dates (DateConvMode INVALID_DATES)).
         pose proof (number_to_datetime_law (s64 (m_sec s)) (m_usec s)
           (conv_ulonglong (conv_and (DateConvMode INVALID_DATES) TIME_MODE_FOR_XXX_TO_DATE)) w) as L.
         fold (dates (DateConvMode INVALID_DATES)) in L. destruct (dates _) as [[r t] w']. cbn.
         destruct (Z.eqb_spec r (-1)); unfold nz; [|by rewrite orb_true_r].
         rewrite (proj2 (Z.eqb_neq w' 0)) by (apply L; lia). done. }
    all: change (87649415 * 10000 + 9999) with 876494159999.
    all: destruct (Z.ltb_spec 87649415 (m_sec s / 10000)) as [D|D], (Z.leb_spec (m_sec s) 876494159999); try done;
      try (unfold to_interval_hhmmssff_only, times, TIME_MAX_INTERVAL_HOUR; rewrite N; by destruct (number_to_time_only _ _ _ _ _) as [[? ?] ?]);
      exfalso; pose proof (Z.div_mod (m_sec s) 10000); pose proof (Z.mod_pos_bound (m_sec s) 10000); lia.
  - by apply to_datetime_or_time_run.
  - intros N. unfold to_datetime_or_date. by rewrite N.
  - intros B. rewrite s64_unsigned by done. rewrite (proj2 (Z.ltb_ge _ _)) by done. lia.
  - exists (LLH (-1) true). split; [by vm_compute|done].
Qed.

End Sec6Laws.

(** -01:00:00.5 minus 30:00:00, and 2024-01-15 12:00:00 plus 12:00:01. *)
Lemma sec6_add_correct_witness :
  let t1 := MySQLTime 0 0 0 1 0 0 500000 true MYSQL_TIMESTAMP_TIME in
  let t2 := MySQLTime 0 0 0 30 0 0 0 false MYSQL_TIMESTAMP_TIME in
  let d1 := MySQLTime 2024 1 15 12 0 0 0 false MYSQL_TIMESTAMP_DATETIME in
  (exists a t, @sec6_add sample_lib t1 t2 (-1) = Some (Some a) /\
     (@add_to_time sample_lib 6 t1 (Some a)).2 = t /\ time_micros t = - 111600500000) /\
  (exists a t, @sec6_add sample_lib d1 (MySQLTime 0 0 0 12 0 1 0 false MYSQL_TIMESTAMP_TIME) 1 = Some (Some a) /\
     @add_to_datetime sample_lib d1 (Some a) = (false, t) /\ (year t, month t, day t) = (2024, 1, 16) /\
     hms_micros t = 1000000).
Proof.
  intros t1 t2 d1.
  assert (interval t1 /\ interval t2 /\ interval (MySQLTime 0 0 0 12 0 1 0 false MYSQL_TIMESTAMP_TIME)) as (I1 & I2 & I3)
    by (unfold interval, valid_mmssff; cbn; split_and!; (done || lia)).
  assert (valid_date_or_datetime d1) as V1 by (unfold valid_date_or_datetime, valid_mmssff; cbn; split; [by right|split_and!; (done || lia)]).
  split.
  - destruct (@sec6_add_correct sample_lib sample_laws t1 t2 d1 t1 (-1) 6 (or_introl I1) I2) as ((a & E & _ & T & _) & _);
      [by right|lia|].
    destruct (T ltac:(vm_compute; reflexivity)) as (t & _ & _ & M & _ & _ & X). exists a, t. split; [exact E|].
    split; [apply X; [reflexivity|vm_compute; reflexivity]|rewrite M; reflexivity].
  - destruct (@sec6_add_correct sample_lib sample_laws d1 _ d1 d1 1 6 (or_intror V1) I3) as ((a & E & _ & _ & _ & T) & _);
      [by left|lia|].
    destruct (T ltac:(vm_compute; split; [discriminate|reflexivity])) as (t & Et & _ & _ & _ & Ed & M). exists a, t.
    split; [exact E|]. injection Ed as Ey Em Ed'. rewrite Et, Ed'. split; [reflexivity|].
    rewrite Ey, Em. split; [reflexivity|rewrite M; reflexivity].
Defined.
