(* ===== verification/Temporal.v ===== *)
(** The value classes of TIME, DATE and DATETIME in
    [mariadb/include/mysql/server/private/sql_type.h]: [Temporal] with
    [Temporal_hybrid], [Extract_source] (Module [ExtractSource]),
    [Interval_DDhhmmssff] (Module [IntervalDDhhmmssff]), [Time] (Module [Time]),
    [Temporal_with_date], [Date] (Module [Date]) and [Datetime] (Module
    [Datetime]), which all derive from [MYSQL_TIME].

    A method that changes [this] returns the new value; a constructor returns the
    value it builds.  The warnings behind an [int *warn] are passed in and
    returned.  A failed [DBUG_ASSERT] is [None].  Constructors from an [Item] are
    declared only, as are the parsers of strings. *)

From S2P Require Import Prelude TypeInt BasicTypes MyTime Sec6.
Import DateMode.

(** ** Flags that the classes test *)

Definition TIME_FUZZY_DATES : date_conv_mode_t := DateConvMode FUZZY_DATES.
Definition TIME_TIME_ONLY : date_conv_mode_t := DateConvMode TIME_ONLY.
Definition TIME_INTERVAL_hhmmssff : date_conv_mode_t := DateConvMode INTERVAL_hhmmssff.
Definition TIME_INTERVAL_DAY : date_conv_mode_t := DateConvMode INTERVAL_DAY.
Definition TIME_INVALID_DATES : date_conv_mode_t := DateConvMode INVALID_DATES.
Definition TIME_FRAC_TRUNCATE : time_round_mode_t := TimeRoundMode FRAC_TRUNCATE.
Definition TIME_FRAC_ROUND : time_round_mode_t := TimeRoundMode FRAC_ROUND.

(** ** Temporal *)

Definition type_name_by_timestamp_type (t : timestamp_type) : string :=
  match t with MYSQL_TIMESTAMP_DATE => "date" | MYSQL_TIMESTAMP_TIME => "time" | _ => "datetime" end.
(** The name of the type in a conversion warning. *)
Definition warning_typestr (m : date_mode_t) (tstype : timestamp_type) : string :=
  if 0 <=? timestamp_value tstype then type_name_by_timestamp_type tstype else
  if conv_bool (and_date_conv m (conv_or TIME_INTERVAL_hhmmssff TIME_INTERVAL_DAY)) then "interval" else
  if conv_bool (and_date_conv m TIME_TIME_ONLY) then "time" else "datetime".

(** [Temporal::Options]. *)
Definition options (flags : date_conv_mode_t) (round_mode : time_round_mode_t) : option date_mode_t :=
  dbug_assert (conv_ulonglong flags <=? 2 ^ 32 - 1);;
  Some (or_conv_round flags round_mode).

Definition is_valid_temporal (t : MYSQL_TIME) : option bool :=
  dbug_assert (negb (is_type MYSQL_TIMESTAMP_ERROR t));; Some (negb (is_type MYSQL_TIMESTAMP_NONE t)).
Definition has_valid_mmssff (t : MYSQL_TIME) : bool :=
  (minute t <=? TIME_MAX_MINUTE) && (second t <=? TIME_MAX_SECOND) && (second_part t <=? TIME_MAX_SECOND_PART).
Definition has_zero_YYYYMM (t : MYSQL_TIME) : bool := (year t =? 0) && (month t =? 0).
Definition has_zero_YYYYMMDD (t : MYSQL_TIME) : bool := (year t =? 0) && (month t =? 0) && (day t =? 0).
Definition time_hhmmssff_set_max (max_hour : Z) (t : MYSQL_TIME) : MYSQL_TIME :=
  set_second_part TIME_MAX_SECOND_PART (set_second TIME_MAX_SECOND (set_minute TIME_MAX_MINUTE (set_hour max_hour t))).

Definition add_nanoseconds_ssff (nanosecs : Z) (t : MYSQL_TIME) : option (bool * MYSQL_TIME) :=
  dbug_assert (nanosecs <=? 1000000000);;
  if nanosecs <? 500 then Some (false, t) else
  let t := set_second_part (u64 (second_part t + u32 (nanosecs + 500) / 1000)) t in
  if second_part t <? 1000000 then Some (false, t) else
  let t := set_second_part (second_part t mod 1000000) t in
  if second t <? 59 then Some (false, set_second (u32 (second t + 1)) t) else
  Some (true, set_second 0 t).
Definition add_nanoseconds_mmssff (nanosecs : Z) (t : MYSQL_TIME) : option (bool * MYSQL_TIME) :=
  '(carry, t) ← add_nanoseconds_ssff nanosecs t;
  if negb carry then Some (false, t) else
  if minute t <? 59 then Some (false, set_minute (u32 (minute t + 1)) t) else
  Some (true, set_minute 0 t).

Section Temporal.
Context `{TimeLib}.

Definition make_fuzzy_date (fuzzydate : date_conv_mode_t) (t : MYSQL_TIME) : MYSQL_TIME :=
  let tstype :=
    if negb (conv_bool (conv_and fuzzydate TIME_FUZZY_DATES)) then MYSQL_TIMESTAMP_NONE
    else if conv_bool (conv_and fuzzydate TIME_TIME_ONLY) then MYSQL_TIMESTAMP_TIME
    else MYSQL_TIMESTAMP_DATETIME in
  set_zero_time t tstype.
Definition make_from_out_of_range (t : MYSQL_TIME) : MYSQL_TIME * Z :=
  (set_time_type MYSQL_TIMESTAMP_NONE t, MYSQL_TIME_WARN_OUT_OF_RANGE).
Definition to_packed (t : MYSQL_TIME) : Z := pack_time t.
Definition fraction_remainder (dec : Z) (t : MYSQL_TIME) : option Z :=
  my_time_fraction_remainder (s64 (second_part t)) dec.

(** [Sec6::convert_to_mysql_time] and [Temporal::add_nanoseconds_with_round] are
    declared only. *)
Variable convert_to_mysql_time : Sec6 -> date_mode_t -> Z -> MYSQL_TIME -> bool * MYSQL_TIME * Z.
Variable add_nanoseconds_with_round : date_conv_mode_t -> Z -> Z -> MYSQL_TIME -> bool * MYSQL_TIME * Z.

Definition add_nanoseconds (warn : Z) (m : date_mode_t) (nsec : Z) (t : MYSQL_TIME) : option (bool * MYSQL_TIME * Z) :=
  let cmode := to_conv m in
  r ← to_round m;
  Some (if round_eq r TIME_FRAC_ROUND then add_nanoseconds_with_round cmode nsec warn t else (false, t, warn)).
Definition make_from_sec6 (warn : Z) (nr : Sec6) (m : date_mode_t) (t : MYSQL_TIME) : MYSQL_TIME * Z :=
  let '(rc, t, warn) := convert_to_mysql_time nr m warn t in
  (if rc then make_fuzzy_date (to_conv m) t else t, warn).
Definition make_from_sec9 (warn : Z) (nr : Sec9) (m : date_mode_t) (t : MYSQL_TIME) : option (MYSQL_TIME * Z) :=
  let '(rc, t, warn) := convert_to_mysql_time (sec6 nr) m warn t in
  if rc then Some (make_fuzzy_date (to_conv m) t, warn) else
  '(rc, t, warn) ← add_nanoseconds warn m (m_nsec nr) t;
  Some (if (rc : bool) then make_fuzzy_date (to_conv m) t else t, warn).
Definition make_from_longlong_hybrid (warn : Z) (nr : Longlong_hybrid) (m : date_mode_t) (t : MYSQL_TIME) : MYSQL_TIME * Z :=
  make_from_sec6 warn (make_from_int nr) m t.

(** The parsers of my_time.h; the limits on hours are arguments. *)
Variable str_to_datetime_or_date_or_interval_day : string -> Z -> MYSQL_TIME_STATUS -> Z -> Z -> bool * MYSQL_TIME * MYSQL_TIME_STATUS.
Variable str_to_datetime_or_date_or_interval_hhmmssff : string -> Z -> MYSQL_TIME_STATUS -> Z -> Z -> bool * MYSQL_TIME * MYSQL_TIME_STATUS.
Variable str_to_datetime_or_date_or_time : string -> Z -> MYSQL_TIME_STATUS -> Z -> Z -> bool * MYSQL_TIME * MYSQL_TIME_STATUS.
Variable str_to_datetime_or_date : string -> Z -> MYSQL_TIME_STATUS -> bool * MYSQL_TIME * MYSQL_TIME_STATUS.

Definition parsed (r : bool * MYSQL_TIME * MYSQL_TIME_STATUS) : option (bool * MYSQL_TIME * MYSQL_TIME_STATUS) :=
  dbug_assert (negb r.1.1 || nz (warnings r.2));; Some r.
Definition cflags (m : date_mode_t) : Z := conv_ulonglong (and_date_conv m TIME_MODE_FOR_XXX_TO_DATE).
Definition ascii_to_datetime_or_date_or_interval_DDhhmmssff (st : MYSQL_TIME_STATUS) (str : string) (m : date_mode_t) :=
  parsed (if conv_bool (and_date_conv m TIME_INTERVAL_DAY)
          then str_to_datetime_or_date_or_interval_day str (cflags m) st TIME_MAX_INTERVAL_HOUR TIME_MAX_INTERVAL_HOUR
          else str_to_datetime_or_date_or_interval_hhmmssff str (cflags m) st TIME_MAX_INTERVAL_HOUR TIME_MAX_INTERVAL_HOUR).
Definition ascii_to_datetime_or_date_or_time (st : MYSQL_TIME_STATUS) (str : string) (m : date_mode_t) :=
  parsed (str_to_datetime_or_date_or_time str (cflags m) st TIME_MAX_HOUR (2 ^ 32 - 1)).
Definition ascii_to_datetime_or_date (st : MYSQL_TIME_STATUS) (str : string) (m : date_mode_t) :=
  dbug_assert (negb (conv_bool (and_date_conv m TIME_TIME_ONLY)));;
  parsed (str_to_datetime_or_date str (cflags m) st).
Definition ascii_to_temporal (st : MYSQL_TIME_STATUS) (str : string) (m : date_mode_t) :
    option (bool * MYSQL_TIME * MYSQL_TIME_STATUS) :=
  if conv_bool (and_date_conv m (conv_or TIME_INTERVAL_hhmmssff TIME_INTERVAL_DAY))
  then ascii_to_datetime_or_date_or_interval_DDhhmmssff st str m
  else if conv_bool (and_date_conv m TIME_TIME_ONLY) then ascii_to_datetime_or_date_or_time st str m
  else ascii_to_datetime_or_date st str m.

(** ** Temporal_hybrid *)

Definition hybrid_of_longlong_null (warn : Z) (nr : Longlong_hybrid) (is_null : bool) (m : date_mode_t) (t : MYSQL_TIME) :
    MYSQL_TIME * Z :=
  if is_null then (set_time_type MYSQL_TIMESTAMP_NONE t, warn) else make_from_longlong_hybrid warn nr m t.
Definition copy_valid_value_to_mysql_time (t : MYSQL_TIME) : option (bool * MYSQL_TIME) :=
  v ← is_valid_temporal t; dbug_assert v;; Some (false, t).
Definition hybrid_to_longlong (t : MYSQL_TIME) : option Z :=
  valid ← is_valid_temporal t;
  if negb valid then Some 0 else
  let v := TIME_to_ulonglong t in
  Some (if neg t then s64 (- s64 v) else s64 v).

End Temporal.

(** ** Extract_source *)

Module ExtractSource.

Definition time_to_daytime_interval (t : MYSQL_TIME) : option MYSQL_TIME :=
  dbug_assert (is_type MYSQL_TIMESTAMP_TIME t);;
  dbug_assert (has_zero_YYYYMMDD t);;
  let t := set_day (hour t / 24) t in
  Some (set_hour (hour t mod 24) t).
Definition is_valid_extract_source_slow (t : MYSQL_TIME) : option bool :=
  v ← is_valid_temporal t;
  Some (v && (hour t <? 24) && (has_zero_YYYYMM t || negb (is_type MYSQL_TIMESTAMP_TIME t))).
Definition is_valid_value_slow (t : MYSQL_TIME) : option bool :=
  if is_type MYSQL_TIMESTAMP_NONE t then Some true else is_valid_extract_source_slow t.

(** The constructor, on the value that [Temporal_hybrid] reads from the item. *)
Definition extract_source (t : MYSQL_TIME) : option MYSQL_TIME :=
  t ← (if is_type MYSQL_TIMESTAMP_TIME t then time_to_daytime_interval t else Some t);
  v ← is_valid_value_slow t; dbug_assert v;; Some t.

Definition get_mysql_time (t : MYSQL_TIME) : option MYSQL_TIME :=
  v ← is_valid_extract_source_slow t; dbug_assert v;; Some t.
Definition is_valid_extract_source (t : MYSQL_TIME) : option bool := is_valid_temporal t.
Definition sign (t : MYSQL_TIME) : option Z := t ← get_mysql_time t; Some (if neg t then -1 else 1).

(** A member as a signed number. *)
Definition signed_member (f : MYSQL_TIME -> Z) (t : MYSQL_TIME) : option Z :=
  m ← get_mysql_time t; s ← sign t; Some (s32 (f m) * s).
Definition year (t : MYSQL_TIME) : option Z := m ← get_mysql_time t; Some (MyTime.year m).
Definition month (t : MYSQL_TIME) : option Z := m ← get_mysql_time t; Some (MyTime.month m).
Definition day : MYSQL_TIME -> option Z := signed_member MyTime.day.
Definition hour : MYSQL_TIME -> option Z := signed_member MyTime.hour.
Definition minute : MYSQL_TIME -> option Z := signed_member MyTime.minute.
Definition second : MYSQL_TIME -> option Z := signed_member MyTime.second.
Definition microsecond : MYSQL_TIME -> option Z := signed_member MyTime.second_part.

Definition year_month (t : MYSQL_TIME) : option Z := y ← year t; m ← month t; Some (u32 (y * 100 + m)).
Definition quarter (t : MYSQL_TIME) : option Z := m ← month t; Some (u32 (m + 2) / 3).

(** [a * factor + b]. *)
Definition packed (factor : Z) (a b : MYSQL_TIME -> option Z) (t : MYSQL_TIME) : option Z :=
  x ← a t; y ← b t; Some (x * factor + y).
Definition second_microsecond : MYSQL_TIME -> option Z := packed 1000000 second microsecond.
Definition day_hour : MYSQL_TIME -> option Z := packed 100 day hour.
Definition day_minute : MYSQL_TIME -> option Z := packed 100 day_hour minute.
Definition day_second : MYSQL_TIME -> option Z := packed 100 day_minute second.
Definition day_microsecond : MYSQL_TIME -> option Z := packed 1000000 day_second microsecond.
Definition hour_minute : MYSQL_TIME -> option Z := packed 100 hour minute.
Definition hour_second : MYSQL_TIME -> option Z := packed 100 hour_minute second.
Definition hour_microsecond : MYSQL_TIME -> option Z := packed 1000000 hour_second microsecond.
Definition minute_second : MYSQL_TIME -> option Z := packed 100 minute second.
Definition minute_microsecond : MYSQL_TIME -> option Z := packed 1000000 minute_second microsecond.

End ExtractSource.

(** ** Interval_DDhhmmssff *)

Module IntervalDDhhmmssff.

Definition is_valid_interval_DDhhmmssff_slow (t : MYSQL_TIME) : bool :=
  is_type MYSQL_TIMESTAMP_TIME t && has_zero_YYYYMMDD t && has_valid_mmssff t.
Definition is_valid_value_slow (t : MYSQL_TIME) : bool :=
  is_type MYSQL_TIMESTAMP_NONE t || is_valid_interval_DDhhmmssff_slow t.
Definition max_useful_hour : Z := TIME_MAX_INTERVAL_HOUR.
Definition max_int_part_char_length : Z := 1 + TIME_MAX_INTERVAL_DAY_CHAR_LENGTH + 1 + 8.
Definition max_char_length (fsp : Z) : option Z :=
  dbug_assert (fsp <=? TIME_SECOND_PART_DIGITS);;
  Some (u32 (max_int_part_char_length + (if nz fsp then 1 else 0) + fsp)).
Definition get_mysql_time (t : MYSQL_TIME) : option MYSQL_TIME :=
  dbug_assert (is_valid_interval_DDhhmmssff_slow t);; Some t.
Definition is_valid_interval_DDhhmmssff (t : MYSQL_TIME) : bool := is_type MYSQL_TIMESTAMP_TIME t.
Definition is_valid_value (t : MYSQL_TIME) : bool :=
  is_type MYSQL_TIMESTAMP_NONE t || is_valid_interval_DDhhmmssff t.

End IntervalDDhhmmssff.

(** ** Time *)

Inductive datetime_to_time_mode_t :=
  | DATETIME_TO_TIME_DISALLOW
  | DATETIME_TO_TIME_YYYYMMDD_000000DD_MIX_TO_HOURS
  | DATETIME_TO_TIME_YYYYMMDD_TRUNCATE
  | DATETIME_TO_TIME_YYYYMMDD_00000000_ONLY
  | DATETIME_TO_TIME_MINUS_CURRENT_DATE.

#[export] Instance datetime_to_time_mode_eq_dec : EqDecision datetime_to_time_mode_t.
Proof. solve_decision. Defined.

Module Time.

(** [Time::Options] and its four forms, for the session's rounding mode. *)
Record Options := MkOptions { opt_mode : date_mode_t; opt_dtmode : datetime_to_time_mode_t }.

Definition default_datetime_to_time_mode : datetime_to_time_mode_t := DATETIME_TO_TIME_YYYYMMDD_000000DD_MIX_TO_HOURS.
Definition default_flags_for_get_date : date_conv_mode_t := conv_or TIME_TIME_ONLY TIME_INVALID_DATES.
Definition comparison_flags_for_get_date : date_conv_mode_t :=
  conv_or (conv_or TIME_TIME_ONLY TIME_INVALID_DATES) TIME_FUZZY_DATES.
Definition time_options (flags : date_conv_mode_t) (r : time_round_mode_t) (dt : datetime_to_time_mode_t) : option Options :=
  m ← options flags r; Some (MkOptions m dt).
Definition Options_default (default_round_mode : time_round_mode_t) : option Options :=
  time_options default_flags_for_get_date default_round_mode default_datetime_to_time_mode.
Definition Options_for_cast (default_round_mode : time_round_mode_t) : option Options :=
  time_options default_flags_for_get_date default_round_mode DATETIME_TO_TIME_YYYYMMDD_TRUNCATE.
Definition Options_for_cast_mode (m : date_mode_t) (default_round_mode : time_round_mode_t) : option Options :=
  time_options (conv_or default_flags_for_get_date (and_date_conv m TIME_FUZZY_DATES)) default_round_mode
    DATETIME_TO_TIME_YYYYMMDD_TRUNCATE.
Definition Options_for_round (r : time_round_mode_t) : option Options :=
  time_options default_flags_for_get_date r DATETIME_TO_TIME_DISALLOW.
Definition Options_cmp (default_round_mode : time_round_mode_t) : option Options :=
  time_options comparison_flags_for_get_date default_round_mode default_datetime_to_time_mode.

Definition is_valid_time_slow (t : MYSQL_TIME) : bool :=
  is_type MYSQL_TIMESTAMP_TIME t && has_zero_YYYYMMDD t && has_valid_mmssff t.
Definition is_valid_value_slow (t : MYSQL_TIME) : bool := is_type MYSQL_TIMESTAMP_NONE t || is_valid_time_slow t.
Definition hhmmssff_copy (from t : MYSQL_TIME) : MYSQL_TIME :=
  set_second_part (second_part from) (set_second (second from) (set_minute (minute from) (set_hour (hour from) t))).
Definition datetime_to_time_YYYYMMDD_000000DD_mix_to_hours (warn from_year from_month from_day : Z) (t : MYSQL_TIME) :
    MYSQL_TIME * Z :=
  if negb (from_year =? 0) || negb (from_month =? 0) then (t, Z.lor warn MYSQL_TIME_NOTE_TRUNCATED)
  else (set_hour (u32 (hour t + u32 (from_day * 24))) t, warn).

Definition is_valid_time (t : MYSQL_TIME) : option bool :=
  dbug_assert (is_valid_value_slow t);; Some (is_type MYSQL_TIMESTAMP_TIME t).
Definition get_mysql_time (t : MYSQL_TIME) : option MYSQL_TIME := dbug_assert (is_valid_time_slow t);; Some t.
Definition copy_to_mysql_time (ltime t : MYSQL_TIME) : option (bool * MYSQL_TIME) :=
  if is_type MYSQL_TIMESTAMP_NONE t then Some (true, set_time_type MYSQL_TIMESTAMP_NONE ltime) else
  dbug_assert (is_valid_time_slow t);; Some (false, t).
Definition to_seconds_abs (t : MYSQL_TIME) : option Z :=
  dbug_assert (is_valid_time_slow t);; Some (hour t * 3600 + u32 (minute t * 60) + second t).
Definition to_seconds (t : MYSQL_TIME) : option Z :=
  s ← to_seconds_abs t; Some (if neg t then - s else s).
Definition null : MYSQL_TIME -> MYSQL_TIME := set_time_type MYSQL_TIMESTAMP_NONE.

Section TimeOps.
Context `{TimeLib}.

Definition datetime_to_time_minus_current_date (t : MYSQL_TIME) : option MYSQL_TIME :=
  let tmp := (calc_time_diff t set_current_date 1 (date 0)).2 in
  let t := (check_time_range tmp TIME_SECOND_PART_DIGITS 0).1.2 in
  v ← is_valid_time t; dbug_assert v;; Some t.

Definition valid_datetime_to_valid_time (warn : Z) (opt : Options) (t : MYSQL_TIME) : option (MYSQL_TIME * Z) :=
  dbug_assert (is_type MYSQL_TIMESTAMP_DATE t || is_type MYSQL_TIMESTAMP_DATETIME t);;
  dbug_assert (day t <? 32);;
  dbug_assert (hour t <? 24);;
  '(t, warn) ←
    (if bool_decide (opt_dtmode opt = DATETIME_TO_TIME_MINUS_CURRENT_DATE) then
       t ← datetime_to_time_minus_current_date t; Some (t, warn)
     else
       let '(t, warn) :=
         if bool_decide (opt_dtmode opt = DATETIME_TO_TIME_YYYYMMDD_000000DD_MIX_TO_HOURS)
         then datetime_to_time_YYYYMMDD_000000DD_mix_to_hours warn (year t) (month t) (day t) t else (t, warn) in
       Some (set_time_type MYSQL_TIMESTAMP_TIME (set_year 0 (set_month 0 (set_day 0 t))), warn));
  dbug_assert (is_valid_time_slow t);;
  Some (t, warn).

Definition valid_MYSQL_TIME_to_valid_value (warn : Z) (opt : Options) (t : MYSQL_TIME) : option (MYSQL_TIME * Z) :=
  match time_type t with
  | MYSQL_TIMESTAMP_DATE | MYSQL_TIMESTAMP_DATETIME =>
      if bool_decide (opt_dtmode opt = DATETIME_TO_TIME_YYYYMMDD_00000000_ONLY) && (nz (year t) || nz (month t) || nz (day t))
      then Some (make_from_out_of_range t)
      else if bool_decide (opt_dtmode opt = DATETIME_TO_TIME_DISALLOW) then Some (make_from_out_of_range t)
      else valid_datetime_to_valid_time warn opt t
  | MYSQL_TIMESTAMP_NONE => Some (t, warn)
  | MYSQL_TIMESTAMP_ERROR => Some (set_zero_time t MYSQL_TIMESTAMP_TIME, warn)
  | MYSQL_TIMESTAMP_TIME => dbug_assert (is_valid_time_slow t);; Some (t, warn)
  end.
Definition xxx_to_time_result_to_valid_value (warn : Z) (opt : Options) (t : MYSQL_TIME) : option (MYSQL_TIME * Z) :=
  dbug_assert (negb (is_type MYSQL_TIMESTAMP_ERROR t));;
  valid_MYSQL_TIME_to_valid_value warn opt t.
Definition adjust_time_range_or_invalidate (warn : Z) (t : MYSQL_TIME) : option (MYSQL_TIME * Z) :=
  let '(rc, t, warn) := check_time_range t TIME_SECOND_PART_DIGITS warn in
  let t := if rc then set_time_type MYSQL_TIMESTAMP_NONE t else t in
  dbug_assert (is_valid_value_slow t);; Some (t, warn).

Definition trunc (dec : Z) (t : MYSQL_TIME) : option MYSQL_TIME :=
  v ← is_valid_time t;
  t ← (if (v : bool) then my_time_trunc dec t else Some t);
  dbug_assert (is_valid_value_slow t);; Some t.
Definition ceiling (warn : Z) (t : MYSQL_TIME) : option (MYSQL_TIME * Z) :=
  v ← is_valid_time t;
  '(t, warn) ←
    (if (v : bool) then
       if neg t then t ← my_time_trunc 0 t; Some (t, warn)
       else if nz (second_part t) then Some (time_round_or_set_max_nsec 0 999999999 warn t) else Some (t, warn)
     else Some (t, warn));
  dbug_assert (is_valid_value_slow t);; Some (t, warn).
Definition floor (warn : Z) (t : MYSQL_TIME) : option (MYSQL_TIME * Z) :=
  v ← is_valid_time t;
  '(t, warn) ←
    (if (v : bool) then
       if negb (neg t) then t ← my_time_trunc 0 t; Some (t, warn)
       else if nz (second_part t) then Some (time_round_or_set_max_nsec 0 999999999 warn t) else Some (t, warn)
     else Some (t, warn));
  dbug_assert (is_valid_value_slow t);; Some (t, warn).
Definition time_fraction_remainder (dec : Z) (t : MYSQL_TIME) : option Z :=
  v ← is_valid_time t; dbug_assert v;; fraction_remainder dec t.
Definition round (dec warn : Z) (t : MYSQL_TIME) : option (MYSQL_TIME * Z) :=
  v ← is_valid_time t;
  let '(t, warn) := if (v : bool) then time_round_or_set_max dec warn t else (t, warn) in
  dbug_assert (is_valid_value_slow t);; Some (t, warn).
Definition round_mode (dec : Z) (m : time_round_mode_t) (warn : Z) (t : MYSQL_TIME) : option (MYSQL_TIME * Z) :=
  if round_value m =? FRAC_NONE then
    r ← time_fraction_remainder dec t; dbug_assert (r =? 0);;
    t ← trunc dec t; Some (t, warn)
  else if round_value m =? FRAC_TRUNCATE then t ← trunc dec t; Some (t, warn)
  else if round_value m =? FRAC_ROUND then round dec warn t
  else Some (t, warn).

(** The constructors; [uninit] is the storage of the object. *)
Definition time_default (uninit : MYSQL_TIME) : MYSQL_TIME := set_time_type MYSQL_TIMESTAMP_NONE uninit.
Definition time_of_mysql_time (ltime : MYSQL_TIME) (opt : Options) : option MYSQL_TIME :=
  v ← is_valid_temporal ltime; dbug_assert v;;
  r ← valid_MYSQL_TIME_to_valid_value 0 opt ltime; Some r.1.
Definition time_of_sec6 (warn : Z) (nr : Sec6) (opt : Options) : option (MYSQL_TIME * Z) :=
  '(rc, t, warn) ← to_datetime_or_time TIME_INVALID_DATES warn nr;
  let t := if (rc : bool) then set_time_type MYSQL_TIMESTAMP_NONE t else t in
  xxx_to_time_result_to_valid_value warn opt t.
Definition time_of_sec9 (warn : Z) (nr : Sec9) (opt : Options) : option (MYSQL_TIME * Z) :=
  '(t, warn) ← time_of_sec6 warn (sec6 nr) opt;
  v ← is_valid_time t;
  if negb v then Some (t, warn) else
  r ← to_round (opt_mode opt);
  Some (if round_eq r TIME_FRAC_ROUND then time_round_or_set_max_nsec 6 (m_nsec nr) warn t else (t, warn)).
Definition time_of_longlong (warn : Z) (nr : Longlong_hybrid) (opt : Options) : option (MYSQL_TIME * Z) :=
  time_of_sec6 warn (make_from_int nr) opt.
Definition time_of_longlong_dec (warn : Z) (nr : Longlong_hybrid) (opt : Options) (dec : Z) : option (MYSQL_TIME * Z) :=
  '(t, warn) ← time_of_longlong warn nr opt; t ← trunc dec t; Some (t, warn).
(** From a number with nanoseconds, rounded to [dec] digits. *)
Definition time_of_sec9_dec (warn : Z) (nr : Sec9) (opt : Options) (dec : Z) : option (MYSQL_TIME * Z) :=
  '(t, warn) ← time_of_sec9 warn nr opt; r ← to_round (opt_mode opt); round_mode dec r warn t.
(** From the result of the parser [str_to_datetime_or_date_or_time]. *)
Definition time_of_str (parsed : bool * MYSQL_TIME * Z) (opt : Options) : option (MYSQL_TIME * Z) :=
  let '(rc, t, warn) := parsed in
  if (rc : bool) then Some (set_time_type MYSQL_TIMESTAMP_NONE t, warn) else xxx_to_time_result_to_valid_value warn opt t.
Definition time_of_str_dec (parsed : bool * MYSQL_TIME * Z) (opt : Options) (dec : Z) : option (MYSQL_TIME * Z) :=
  '(t, warn) ← time_of_str parsed opt; r ← to_round (opt_mode opt); round_mode dec r warn t.

Definition cmp (t other : MYSQL_TIME) : option Z :=
  dbug_assert (is_valid_time_slow t);;
  dbug_assert (is_valid_time_slow other);;
  let pack x := v ← is_valid_time x; Some (if (v : bool) then to_packed x else 0) in
  p0 ← pack t; p1 ← pack other;
  Some (if p0 <? p1 then -1 else if p1 <? p0 then 1 else 0).
Definition valid_time_to_packed (t : MYSQL_TIME) : option Z := dbug_assert (is_valid_time_slow t);; Some (to_packed t).
Definition to_bool (t : MYSQL_TIME) : option bool :=
  v ← is_valid_time t; Some (v && (nz (TIME_to_ulonglong_time t) || nz (second_part t))).
Definition to_longlong (t : MYSQL_TIME) : option Z :=
  valid ← is_valid_time t;
  if negb valid then Some 0 else
  let v := TIME_to_ulonglong_time t in
  Some (if neg t then s64 (- s64 v) else s64 v).

End TimeOps.
End Time.

(** ** Temporal_with_date *)

Section WithDate.
Context `{TimeLib}.

(** [calc_weekday] and [calc_week] are declared only; the second of the pair is
    the year of the week. *)
Variable calc_weekday : Z -> bool -> Z.
Variable calc_week : MYSQL_TIME -> Z -> Z * Z.

Definition wd_daynr (t : MYSQL_TIME) : Z := u64 (calc_daynr (year t) (month t) (day t)).
Definition wd_weekday (sunday_first_day_of_week : bool) (t : MYSQL_TIME) : Z :=
  calc_weekday (s64 (wd_daynr t)) sunday_first_day_of_week.
Definition wd_dayofyear (t : MYSQL_TIME) : Z := u64 (wd_daynr t - calc_daynr (year t) 1 1 + 1).
Definition wd_quarter (t : MYSQL_TIME) : Z := u32 (month t + 2) / 3.
Definition wd_week (week_behaviour : Z) (t : MYSQL_TIME) : Z := (calc_week t week_behaviour).1.
Definition wd_yearweek (week_behaviour : Z) (t : MYSQL_TIME) : Z :=
  let '(week, year) := calc_week t week_behaviour in u32 (week + u32 (year * 100)).

(** From a number; [uninit] is the storage of the object. *)
Definition with_date_of_sec6 (uninit : MYSQL_TIME) (warn : Z) (nr : Sec6) (flags : date_mode_t) : option (MYSQL_TIME * Z) :=
  dbug_assert (negb (conv_bool (and_date_conv flags TIME_TIME_ONLY)));;
  '(rc, t, warn) ← to_datetime_or_date (to_conv flags) uninit warn nr;
  Some (if (rc : bool) then set_time_type MYSQL_TIMESTAMP_NONE t else t, warn).
(** From the result of the parser [str_to_datetime_or_date]. *)
Definition with_date_of_str (parsed : bool * MYSQL_TIME * Z) (flags : date_mode_t) : option (MYSQL_TIME * Z) :=
  dbug_assert (negb (conv_bool (and_date_conv flags TIME_TIME_ONLY)));;
  let '(rc, t, warn) := parsed in
  Some (if (rc : bool) then set_time_type MYSQL_TIMESTAMP_NONE t else t, warn).
Definition wd_comparison_flags_for_get_date : date_conv_mode_t := conv_or TIME_INVALID_DATES TIME_FUZZY_DATES.

End WithDate.

(** ** Date *)

Module Date.
Section Date.
Context `{TimeLib}.

Definition is_valid_date_slow (t : MYSQL_TIME) : option bool :=
  dbug_assert (is_type MYSQL_TIMESTAMP_DATE t);; Some (negb (check_datetime_range t)).
Definition is_valid_value_slow (t : MYSQL_TIME) : option bool :=
  if is_type MYSQL_TIMESTAMP_NONE t then Some true else is_valid_date_slow t.
(** An assertion on the value itself. *)
Definition assert_date (t : MYSQL_TIME) : option unit := v ← is_valid_date_slow t; dbug_assert v.

(** From the value that [Temporal_with_date] reads from an item. *)
Definition date_of_item (t : MYSQL_TIME) : option MYSQL_TIME :=
  t ← (if is_type MYSQL_TIMESTAMP_DATETIME t then datetime_to_date t else Some t);
  v ← is_valid_value_slow t; dbug_assert v;; Some t.
Definition date_of_with_date (d : MYSQL_TIME) : option MYSQL_TIME := t ← datetime_to_date d; assert_date t;; Some t.
Definition date_of_hybrid (from : MYSQL_TIME) : option MYSQL_TIME :=
  r ← copy_valid_value_to_mysql_time from; assert_date r.2;; Some r.2.

Definition is_valid_date (t : MYSQL_TIME) : option bool :=
  v ← is_valid_value_slow t; dbug_assert v;; Some (is_type MYSQL_TIMESTAMP_DATE t).
Definition check_date (flags : date_conv_mode_t) (t : MYSQL_TIME) : option (bool * Z) :=
  assert_date t;;
  Some (my_check_date t (nz (year t) || nz (month t) || nz (day t)) (conv_ulonglong (conv_and flags TIME_MODE_FOR_XXX_TO_DATE))).
Definition get_mysql_time (t : MYSQL_TIME) : option MYSQL_TIME := assert_date t;; Some t.
Definition copy_to_mysql_time (ltime t : MYSQL_TIME) : option (bool * MYSQL_TIME) :=
  if is_type MYSQL_TIMESTAMP_NONE t then Some (true, set_time_type MYSQL_TIMESTAMP_NONE ltime) else
  assert_date t;; Some (false, t).
Definition daynr (t : MYSQL_TIME) : option Z := assert_date t;; Some (wd_daynr t).
Definition dayofyear (t : MYSQL_TIME) : option Z := assert_date t;; Some (wd_dayofyear t).
Definition quarter (t : MYSQL_TIME) : option Z := assert_date t;; Some (wd_quarter t).
Definition valid_date_to_packed (t : MYSQL_TIME) : option Z := assert_date t;; Some (to_packed t).
Definition to_longlong (t : MYSQL_TIME) : option Z :=
  v ← is_valid_date t; Some (if (v : bool) then s64 (TIME_to_ulonglong_date t) else 0).
Definition to_bool (t : MYSQL_TIME) : option bool := v ← to_longlong t; Some (nz v).

End Date.
End Date.

(** ** Datetime *)

Module Datetime.
Section Datetime.
Context `{TimeLib}.

Definition is_valid_datetime_slow (t : MYSQL_TIME) : option bool :=
  dbug_assert (is_type MYSQL_TIMESTAMP_DATETIME t);; Some (negb (check_datetime_range t)).
Definition is_valid_value_slow (t : MYSQL_TIME) : option bool :=
  if is_type MYSQL_TIMESTAMP_NONE t then Some true else is_valid_datetime_slow t.
Definition assert_datetime (t : MYSQL_TIME) : option unit := v ← is_valid_datetime_slow t; dbug_assert v.
Definition assert_value (t : MYSQL_TIME) : option unit := v ← is_valid_value_slow t; dbug_assert v.

Definition date_to_datetime_if_needed (t : MYSQL_TIME) : option MYSQL_TIME :=
  if is_type MYSQL_TIMESTAMP_DATE t then date_to_datetime t else Some t.
Definition round_or_invalidate_nsec (dec warn nsec : Z) (t : MYSQL_TIME) : option (bool * MYSQL_TIME * Z) :=
  assert_datetime t;;
  let '(rc, t, warn) := datetime_round_or_invalidate_nsec dec nsec warn t in
  assert_value t;; Some (rc, t, warn).

Definition is_valid_datetime (t : MYSQL_TIME) : option bool :=
  assert_value t;; Some (is_type MYSQL_TIMESTAMP_DATETIME t).
Definition datetime_fraction_remainder (dec : Z) (t : MYSQL_TIME) : option Z :=
  v ← is_valid_datetime t; dbug_assert v;; fraction_remainder dec t.
Definition trunc (dec : Z) (t : MYSQL_TIME) : option MYSQL_TIME :=
  v ← is_valid_datetime t;
  t ← (if (v : bool) then my_datetime_trunc dec t else Some t);
  assert_value t;; Some t.
Definition ceiling (warn : Z) (t : MYSQL_TIME) : option (MYSQL_TIME * Z) :=
  v ← is_valid_datetime t;
  '(t, warn) ← (if (v : bool) && nz (second_part t)
                then '(_, t, warn) ← round_or_invalidate_nsec 0 warn 999999999 t; Some (t, warn) else Some (t, warn));
  assert_value t;; Some (t, warn).
Definition round (dec warn : Z) (t : MYSQL_TIME) : option (MYSQL_TIME * Z) :=
  v ← is_valid_datetime t;
  let '(t, warn) := if (v : bool) then let '(_, t, w) := datetime_round_or_invalidate dec warn t in (t, w) else (t, warn) in
  assert_value t;; Some (t, warn).
Definition round_mode (dec : Z) (m : time_round_mode_t) (warn : Z) (t : MYSQL_TIME) : option (MYSQL_TIME * Z) :=
  if round_value m =? FRAC_NONE then
    r ← datetime_fraction_remainder dec t; dbug_assert (r =? 0);;
    t ← trunc dec t; Some (t, warn)
  else if round_value m =? FRAC_TRUNCATE then t ← trunc dec t; Some (t, warn)
  else if round_value m =? FRAC_ROUND then round dec warn t
  else Some (t, warn).

(** The constructors; [uninit] is the storage of the object. *)
Definition datetime_null (uninit : MYSQL_TIME) : MYSQL_TIME := set_time_type MYSQL_TIMESTAMP_NONE uninit.
Definition datetime_of_item (t : MYSQL_TIME) : option MYSQL_TIME :=
  t ← date_to_datetime_if_needed t; assert_value t;; Some t.
Definition datetime_of_str (parsed : bool * MYSQL_TIME * Z) (flags : date_mode_t) : option (MYSQL_TIME * Z) :=
  '(t, warn) ← with_date_of_str parsed flags; t ← date_to_datetime_if_needed t; assert_value t;; Some (t, warn).
Definition datetime_of_sec6 (uninit : MYSQL_TIME) (warn : Z) (nr : Sec6) (flags : date_mode_t) : option (MYSQL_TIME * Z) :=
  '(t, warn) ← with_date_of_sec6 uninit warn nr flags; t ← date_to_datetime_if_needed t; assert_value t;; Some (t, warn).
Definition datetime_of_sec9 (uninit : MYSQL_TIME) (warn : Z) (nr : Sec9) (flags : date_mode_t) : option (MYSQL_TIME * Z) :=
  '(t, warn) ← datetime_of_sec6 uninit warn (sec6 nr) flags;
  v ← is_valid_datetime t;
  '(t, warn) ←
    (if negb v then Some (t, warn) else
     r ← to_round flags;
     if round_eq r TIME_FRAC_ROUND
     then '(_, t, warn) ← round_or_invalidate_nsec 6 warn (m_nsec nr) t; Some (t, warn) else Some (t, warn));
  assert_value t;; Some (t, warn).
Definition datetime_of_longlong (uninit : MYSQL_TIME) (warn : Z) (nr : Longlong_hybrid) (flags : date_mode_t) :
    option (MYSQL_TIME * Z) := datetime_of_sec6 uninit warn (make_from_int nr) flags.
Definition zero (uninit : MYSQL_TIME) : option (MYSQL_TIME * Z) :=
  datetime_of_longlong uninit 0 (LLH 0 false) (date 0).
Definition datetime_of_sec9_dec (uninit : MYSQL_TIME) (warn : Z) (nr : Sec9) (flags : date_mode_t) (dec : Z) :
    option (MYSQL_TIME * Z) :=
  '(t, warn) ← datetime_of_sec9 uninit warn nr flags; r ← to_round flags; round_mode dec r warn t.
Definition datetime_of_hybrid (from : MYSQL_TIME) : option MYSQL_TIME :=
  r ← copy_valid_value_to_mysql_time from; assert_datetime r.2;; Some r.2.
Definition datetime_of_mysql_time (from : MYSQL_TIME) : option MYSQL_TIME := assert_datetime from;; Some from.

Definition check_date (flags : date_conv_mode_t) (t : MYSQL_TIME) : option (bool * Z) :=
  assert_datetime t;;
  Some (my_check_date t (nz (year t) || nz (month t) || nz (day t)) (conv_ulonglong (conv_and flags TIME_MODE_FOR_XXX_TO_DATE))).
Definition hhmmssff_is_zero (t : MYSQL_TIME) : option bool :=
  assert_datetime t;; Some ((hour t =? 0) && (minute t =? 0) && (second t =? 0) && (second_part t =? 0)).
Definition daynr (t : MYSQL_TIME) : option Z := assert_datetime t;; Some (wd_daynr t).
Definition dayofyear (t : MYSQL_TIME) : option Z := assert_datetime t;; Some (wd_dayofyear t).
Definition quarter (t : MYSQL_TIME) : option Z := assert_datetime t;; Some (wd_quarter t).
Definition hhmmss_to_seconds_abs (t : MYSQL_TIME) : option Z :=
  assert_datetime t;; Some (hour t * 3600 + u32 (minute t * 60) + second t).
Definition hhmmss_to_seconds (t : MYSQL_TIME) : option Z :=
  s ← hhmmss_to_seconds_abs t; Some (if neg t then - s else s).
Definition to_seconds (t : MYSQL_TIME) : option Z :=
  s ← hhmmss_to_seconds t; d ← daynr t; Some (s + s64 d * 24 * 3600).
Definition get_mysql_time (t : MYSQL_TIME) : option MYSQL_TIME := assert_datetime t;; Some t.
Definition copy_to_mysql_time (ltime t : MYSQL_TIME) : option (bool * MYSQL_TIME) :=
  if is_type MYSQL_TIMESTAMP_NONE t then Some (true, set_time_type MYSQL_TIMESTAMP_NONE ltime) else
  assert_datetime t;; Some (false, t).
Definition copy_to_mysql_time_type (ltime : MYSQL_TIME) (type : timestamp_type) (t : MYSQL_TIME) : option (bool * MYSQL_TIME) :=
  dbug_assert (bool_decide (type = MYSQL_TIMESTAMP_DATE) || bool_decide (type = MYSQL_TIMESTAMP_DATETIME));;
  '(rc, ltime) ← copy_to_mysql_time ltime t;
  if (rc : bool) then Some (true, ltime) else
  z ← (if bool_decide (type = MYSQL_TIMESTAMP_DATE) then hhmmssff_is_zero t else Some true);
  dbug_assert z;; Some (false, set_time_type type ltime).
Definition to_bool (t : MYSQL_TIME) : option bool :=
  v ← is_valid_datetime t; Some (v && (nz (TIME_to_ulonglong_datetime t) || nz (second_part t))).
Definition to_longlong (t : MYSQL_TIME) : option Z :=
  v ← is_valid_datetime t; Some (if (v : bool) then s64 (TIME_to_ulonglong_datetime t) else 0).
Definition datetime_to_packed (t : MYSQL_TIME) : option Z :=
  v ← is_valid_datetime t; Some (if (v : bool) then to_packed t else 0).
Definition valid_datetime_to_packed (t : MYSQL_TIME) : option Z := assert_datetime t;; Some (to_packed t).

End Datetime.
End Datetime.

(** ** Adding nanoseconds *)

Definition assigned (ns : Z) (t t' : MYSQL_TIME) : Prop :=
  valid_mmssff t' /\ (year t', month t', day t', hour t', neg t', time_type t') = (year t, month t, day t, hour t, neg t, time_type t).

Lemma add_ssff_run ns t : 0 <= ns <= 1000000000 -> valid_mmssff t ->
  exists c t', add_nanoseconds_ssff ns t = Some (c, t') /\ assigned ns t t' /\ minute t' = minute t /\
    hms_micros t' + (if c then 60000000 else 0) = hms_micros t + ns_round ns.
Proof.
  intros Hn (Hm & Hs & Hf). pose proof (ns_round_range ns Hn) as R. unfold add_nanoseconds_ssff, assigned, hms_micros, valid_mmssff.
  rewrite (proj2 (Z.leb_le _ _)) by lia. cbn.
  destruct (Z.ltb_spec ns 500) as [L|L]; [exists false, t; rewrite ns_round_small by lia; split_and!; (lia || done)|].
  rewrite ns_round_u32, wrapU_small by (done || unfold in_u; pose proof (ns_round_range ns Hn); rewrite ?ns_round_u32 by done; lia).
  destruct (Z.ltb_spec (second_part t + ns_round ns) 1000000) as [B|B].
  { eexists false, _. split; [done|]. cbn. split_and!; (done || lia). }
  destruct (usec_carry (second_part t) (ns_round ns)) as [E ?]; [lia..|]. rewrite Z.rem_mod_nonneg in E by lia.
  destruct (Z.ltb_spec (second t) 59) as [B2|B2]; cbn; eexists _, _; (split; [done|]); cbn; rewrite E.
  - rewrite wrapU_small by (unfold in_u; lia). split_and!; (done || lia).
  - split_and!; (done || lia).
Qed.

Lemma add_mmssff_run ns t : 0 <= ns <= 1000000000 -> valid_mmssff t ->
  exists c t', add_nanoseconds_mmssff ns t = Some (c, t') /\ assigned ns t t' /\
    hms_micros t' + (if c then 3600000000 else 0) = hms_micros t + ns_round ns.
Proof.
  intros Hn Hv. destruct (add_ssff_run ns t Hn Hv) as (c & t1 & E & [V A] & M & S). unfold add_nanoseconds_mmssff.
  rewrite E. cbn. destruct c; cbn; [|exists false, t1; by split_and!].
  injection A as A1 A2 A3 A4 A5 A6. destruct V as (? & ? & ?). unfold assigned, valid_mmssff, hms_micros in *.
  destruct (Z.ltb_spec (minute t1) 59); eexists _, _; (split; [done|]); cbn.
  - rewrite wrapU_small by (unfold in_u; lia). rewrite A1, A2, A3, A4, A5, A6 in *. split_and!; (done || lia).
  - rewrite A1, A2, A3, A4, A5, A6 in *. split_and!; (done || lia).
Qed.

(** Adding up to a second of nanoseconds to a time of day: the nanoseconds
    count rounded half up to microseconds, carries run through seconds and minutes,
    the result is exact together with the returned carry (one minute for
    [add_nanoseconds_ssff], one hour for [add_nanoseconds_mmssff]), and hour, date,
    sign and type stay; more than a second fails the assertion.  A conversion mode
    without rounding adds nothing. *)
Lemma add_nanoseconds_exact `{TimeLib} (t : MYSQL_TIME) (ns w : Z) (m : date_mode_t)
    (with_round : date_conv_mode_t -> Z -> Z -> MYSQL_TIME -> bool * MYSQL_TIME * Z) :
  valid_mmssff t -> 0 <= ns -> date_ok m ->
  (ns <= 1000000000 ->
     (exists c t', add_nanoseconds_ssff ns t = Some (c, t') /\ assigned ns t t' /\ minute t' = minute t /\
        hms_micros t' + (if c then 60000000 else 0) = hms_micros t + ns_round ns) /\
     (exists c t', add_nanoseconds_mmssff ns t = Some (c, t') /\ assigned ns t t' /\
        hms_micros t' + (if c then 3600000000 else 0) = hms_micros t + ns_round ns) /\
     2 * Z.abs (1000 * ns_round ns - ns) <= 1000) /\
  (1000000000 < ns -> add_nanoseconds_ssff ns t = None /\ add_nanoseconds_mmssff ns t = None) /\
  (Z.land (mode m) round_KNOWN_MODES = FRAC_NONE \/ Z.land (mode m) round_KNOWN_MODES = FRAC_TRUNCATE ->
     add_nanoseconds with_round w m ns t = Some (false, t, w)) /\
  (Z.land (mode m) round_KNOWN_MODES = FRAC_ROUND ->
     add_nanoseconds with_round w m ns t = Some (with_round (to_conv m) ns w t)).
Proof.
  intros Hv Hn Hm. split; [|split].
  - intros Hl. split; [by apply add_ssff_run|]. split; [by apply add_mmssff_run|]. pose proof (ns_round_half ns Hn). lia.
  - intros Hl. unfold add_nanoseconds_mmssff, add_nanoseconds_ssff. by rewrite (proj2 (Z.leb_gt _ _)) by lia.
  - unfold add_nanoseconds, to_round, date_ulonglong. rewrite (u64_within _ _ Hm date_known_range).
    split; [intros [-> | ->]; done|intros ->; done].
Qed.

(** ** Extraction *)

(** Digits in a mixed radix: comparison is lexicographic. *)
Lemma radix_lt b q1 r1 q2 r2 : 0 <= r1 < b -> 0 <= r2 < b ->
  (q1 * b + r1 < q2 * b + r2 <-> q1 < q2 \/ (q1 = q2 /\ r1 < r2)).
Proof. intros H1 H2. split; intros L; [destruct (Z.lt_trichotomy q1 q2) as [|[|]]; nia|nia]. Qed.
Lemma radix_digits b q r : 0 <= r < b -> (q * b + r) / b = q /\ (q * b + r) mod b = r.
Proof.
  intros Hr. split; [rewrite Z.div_add_l, Z.div_small by lia; lia|].
  rewrite Z.add_comm, Z_mod_plus_full. by apply Z.mod_small.
Qed.

(** The decimal form of day, hour, minute, second and microsecond. *)
Definition dhms_decimal (t : MYSQL_TIME) : Z :=
  (((day t * 100 + hour t) * 100 + minute t) * 100 + second t) * 1000000 + second_part t.
Definition dhms_micros (t : MYSQL_TIME) : Z := day t * day_micros + hms_micros t.

Lemma dhms_order t1 t2 : 0 <= hour t1 < 24 -> 0 <= hour t2 < 24 -> valid_mmssff t1 -> valid_mmssff t2 ->
  (dhms_decimal t1 < dhms_decimal t2 <-> dhms_micros t1 < dhms_micros t2).
Proof.
  intros H1 H2 (M1 & S1 & F1) (M2 & S2 & F2). unfold dhms_decimal, dhms_micros, hms_micros, day_micros, SECONDS_IN_24H.
  replace (day t1 * (86400 * 1000000) + _) with ((((day t1 * 24 + hour t1) * 60 + minute t1) * 60 + second t1) * 1000000 + second_part t1) by ring.
  replace (day t2 * (86400 * 1000000) + _) with ((((day t2 * 24 + hour t2) * 60 + minute t2) * 60 + second t2) * 1000000 + second_part t2) by ring.
  rewrite !(radix_lt 1000000), !(radix_lt 100), !(radix_lt 60), !(radix_lt 24) by lia.
  lia.
Qed.

Module ExtractLaws.
Import ExtractSource.

(** The values on which every accessor is defined. *)
Definition source_ok (t : MYSQL_TIME) : Prop :=
  0 <= MyTime.day t < 2 ^ 31 /\ 0 <= MyTime.hour t < 24 /\ valid_mmssff t /\
  0 <= MyTime.month t <= 12 /\ 0 <= MyTime.year t <= 9999 /\
  (time_type t = MYSQL_TIMESTAMP_DATE \/ time_type t = MYSQL_TIMESTAMP_DATETIME \/
   (time_type t = MYSQL_TIMESTAMP_TIME /\ MyTime.year t = 0 /\ MyTime.month t = 0)).

Lemma source_get t : source_ok t -> get_mysql_time t = Some t.
Proof.
  intros (_ & Hh & _ & _ & _ & Ht). unfold get_mysql_time, is_valid_extract_source_slow, is_valid_temporal, is_type.
  destruct Ht as [-> |[-> |(-> & Y & M)]]; cbn; rewrite (proj2 (Z.ltb_lt _ _)) by lia; cbn.
  - by rewrite orb_true_r.
  - by rewrite orb_true_r.
  - unfold has_zero_YYYYMM. by rewrite Y, M.
Qed.

Definition sgn (t : MYSQL_TIME) : Z := if neg t then -1 else 1.

Lemma signed_member_run f t : source_ok t -> 0 <= f t < 2 ^ 31 -> signed_member f t = Some (sgn t * f t).
Proof.
  intros Ht Hf. unfold signed_member, sign. rewrite (source_get t Ht). cbn. rewrite wrapS_small by (unfold in_s; lia).
  by rewrite Z.mul_comm.
Qed.
Lemma packed_run k a b x y t : a t = Some (sgn t * x) -> b t = Some (sgn t * y) -> packed k a b t = Some (sgn t * (x * k + y)).
Proof. intros E1 E2. unfold packed. rewrite E1, E2. cbn. f_equal. ring. Qed.

Lemma day_micro_run t : source_ok t ->
  day t = Some (sgn t * MyTime.day t) /\ hour t = Some (sgn t * MyTime.hour t) /\
  minute t = Some (sgn t * MyTime.minute t) /\ second t = Some (sgn t * MyTime.second t) /\
  microsecond t = Some (sgn t * MyTime.second_part t).
Proof.
  intros Ht. pose proof Ht as (? & ? & (? & ? & ?) & _). split_and!; apply signed_member_run; (done || lia).
Qed.

Lemma day_microsecond_run t : source_ok t -> day_microsecond t = Some (sgn t * dhms_decimal t).
Proof.
  intros Ht. destruct (day_micro_run t Ht) as (E1 & E2 & E3 & E4 & E5).
  unfold day_microsecond, day_second, day_minute, day_hour, dhms_decimal. by repeat apply packed_run.
Qed.

Lemma extract_source_date t : valid_date_or_datetime t -> extract_source t = Some t /\ source_ok t.
Proof.
  intros (Ht & Hn & Hy & Hm & Hd & Hh & Hv).
  assert (source_ok t) as O by (unfold source_ok; split_and!; (done || lia || tauto)). split; [|done].
  unfold extract_source, is_type. pose proof (source_get t O) as G. unfold get_mysql_time in G.
  rewrite (bool_decide_false (time_type t = MYSQL_TIMESTAMP_TIME)) by (intros E; rewrite E in Ht; by destruct Ht). cbn.
  unfold is_valid_value_slow, is_type.
  rewrite (bool_decide_false (time_type t = MYSQL_TIMESTAMP_NONE)) by (intros E; rewrite E in Ht; by destruct Ht). exact G.
Qed.

Lemma extract_source_time t : interval t -> MyTime.hour t < 2 ^ 32 ->
  exists e, extract_source t = Some e /\ source_ok e /\ neg e = neg t /\ time_type e = MYSQL_TIMESTAMP_TIME /\
    dhms_micros e = hms_micros t /\ MyTime.day e = MyTime.hour t / 24 /\ MyTime.hour e = MyTime.hour t mod 24.
Proof.
  intros (Ht & Hy & Hm & Hd & Hh & Hv) Hl. unfold extract_source, time_to_daytime_interval, has_zero_YYYYMMDD, is_type.
  rewrite (bool_decide_true (time_type t = _)) by done. rewrite Hy, Hm, Hd. cbn.
  set (e := set_hour (MyTime.hour t mod 24) (set_day (MyTime.hour t / 24) t)).
  pose proof (Z.mod_pos_bound (MyTime.hour t) 24 ltac:(lia)) as B. pose proof (Z.div_mod (MyTime.hour t) 24 ltac:(lia)) as Q.
  assert (0 <= MyTime.hour t / 24 < 2 ^ 31) as D by (split; [apply Z.div_pos; lia|apply Z.div_lt_upper_bound; lia]).
  assert (source_ok e) as O.
  { unfold source_ok, e. cbn. rewrite Hy, Hm, Ht. split_and!; (done || lia || by right; right). }
  pose proof (source_get e O) as G. unfold get_mysql_time in G. exists e.
  unfold is_valid_value_slow, is_type. rewrite (bool_decide_false (time_type e = _)) by (unfold e; cbn; by rewrite Ht).
  split; [exact G|]. split; [done|]. split; [done|]. split; [done|]. split; [|done].
  unfold dhms_micros, hms_micros, day_micros, SECONDS_IN_24H, e. cbn. lia.
Qed.

(** Digits of a signed number. *)
Lemma slice s D b q r : (s = 1 \/ s = -1) -> 0 < b -> 0 <= q -> 0 <= r < b -> D = q * b + r ->
  Z.quot (s * D) b = s * q /\ Z.rem (s * D) b = s * r.
Proof.
  intros Hs Hb Hq Hr ->. destruct (radix_digits b q r Hr) as [E1 E2]. assert (0 <= q * b + r) by nia.
  assert (Z.quot (q * b + r) b = q /\ Z.rem (q * b + r) b = r) as [Q R]
    by (rewrite Z.quot_div_nonneg, Z.rem_mod_nonneg by lia; done).
  destruct Hs as [-> | ->].
  - by rewrite !Z.mul_1_l.
  - replace (-1 * (q * b + r)) with (- (q * b + r)) by ring. rewrite Z.quot_opp_l, Z.rem_opp_l, Q, R by lia. lia.
Qed.

(** All units of extraction are slices of the decimal digits of DAY_MICROSECOND. *)
Definition slices (e : MYSQL_TIME) (v : Z) : Prop :=
  day_second e = Some (Z.quot v 1000000) /\ day_minute e = Some (Z.quot v 100000000) /\
  day_hour e = Some (Z.quot v 10000000000) /\ day e = Some (Z.quot v 1000000000000) /\
  hour_microsecond e = Some (Z.rem v 1000000000000) /\
  hour_second e = Some (Z.quot (Z.rem v 1000000000000) 1000000) /\
  hour_minute e = Some (Z.quot (Z.rem v 1000000000000) 100000000) /\
  hour e = Some (Z.quot (Z.rem v 1000000000000) 10000000000) /\
  minute_microsecond e = Some (Z.rem v 10000000000) /\
  minute_second e = Some (Z.quot (Z.rem v 10000000000) 1000000) /\
  minute e = Some (Z.quot (Z.rem v 10000000000) 100000000) /\
  second_microsecond e = Some (Z.rem v 100000000) /\
  second e = Some (Z.quot (Z.rem v 100000000) 1000000) /\ microsecond e = Some (Z.rem v 1000000).

Lemma sgn_cases e : sgn e = 1 \/ sgn e = -1.
Proof. unfold sgn. destruct (neg e); auto. Qed.

Lemma slices_run e : source_ok e -> slices e (sgn e * dhms_decimal e).
Proof.
  intros Ho. destruct (day_micro_run e Ho) as (E1 & E2 & E3 & E4 & E5). pose proof (sgn_cases e) as Hs.
  pose proof Ho as ((D0 & _) & Hh & (Hm & Hc & Hf) & _). unfold dhms_decimal.
  set (d := MyTime.day e) in *. set (h := MyTime.hour e) in *. set (m := MyTime.minute e) in *.
  set (s := MyTime.second e) in *. set (f := MyTime.second_part e) in *. set (g := sgn e) in *.
  set (D := (((d * 100 + h) * 100 + m) * 100 + s) * 1000000 + f).
  destruct (slice g D 1000000 (((d * 100 + h) * 100 + m) * 100 + s) f) as [Q6 R6]; [done|lia..|].
  destruct (slice g D 100000000 ((d * 100 + h) * 100 + m) (s * 1000000 + f)) as [Q8 R8]; [done|lia..|].
  destruct (slice g D 10000000000 (d * 100 + h) ((m * 100 + s) * 1000000 + f)) as [Q10 R10]; [done|lia..|].
  destruct (slice g D 1000000000000 d (((h * 100 + m) * 100 + s) * 1000000 + f)) as [Q12 R12]; [done|lia..|].
  destruct (slice g (((h * 100 + m) * 100 + s) * 1000000 + f) 1000000 ((h * 100 + m) * 100 + s) f) as [H6 _]; [done|lia..|].
  destruct (slice g (((h * 100 + m) * 100 + s) * 1000000 + f) 100000000 (h * 100 + m) (s * 1000000 + f)) as [H8 _]; [done|lia..|].
  destruct (slice g (((h * 100 + m) * 100 + s) * 1000000 + f) 10000000000 h ((m * 100 + s) * 1000000 + f)) as [H10 _]; [done|lia..|].
  destruct (slice g ((m * 100 + s) * 1000000 + f) 1000000 (m * 100 + s) f) as [M6 _]; [done|lia..|].
  destruct (slice g ((m * 100 + s) * 1000000 + f) 100000000 m (s * 1000000 + f)) as [M8 _]; [done|lia..|].
  destruct (slice g (s * 1000000 + f) 1000000 s f) as [S6 _]; [done|lia..|].
  unfold slices. rewrite R12, R10, R8, R6, Q6, Q8, Q10, Q12, H6, H8, H10, M6, M8, S6.
  unfold day_second, day_minute, day_hour, hour_microsecond, hour_second, hour_minute, minute_microsecond, minute_second,
    second_microsecond. split_and!; repeat (first [assumption | apply packed_run]).
Qed.
End ExtractLaws.

Import ExtractLaws.

(** The sources of an extraction: a TIME of any length, a date or a datetime. *)
Definition source (t : MYSQL_TIME) : Prop := (interval t /\ hour t < 2 ^ 32) \/ valid_date_or_datetime t.

Lemma extract_source_run t : source t -> exists e, ExtractSource.extract_source t = Some e /\ source_ok e /\
  (minute e, second e, second_part e, neg e) = (minute t, second t, second_part t, neg t) /\
  (year e, month e) = (year t, month t) /\
  dhms_micros e = (match time_type t with MYSQL_TIMESTAMP_TIME => 0 | _ => day t end) * day_micros + hms_micros t.
Proof.
  intros [[I L]|V].
  - destruct (extract_source_time t I L) as (e & E & O & N & T & M & _ & _). exists e. split; [done|]. split; [done|].
    unfold ExtractSource.extract_source, ExtractSource.time_to_daytime_interval, is_type in E.
    destruct I as (It & Iy & Im & Id & _). rewrite (bool_decide_true (time_type t = _)) in E by done.
    unfold has_zero_YYYYMMDD in E. rewrite Iy, Im, Id in E. cbn in E.
    destruct (ExtractSource.is_valid_value_slow _) as [[]|]; cbn in E; try done. injection E as <-. cbn. rewrite Iy, Im, It.
    split; [done|]. split; [done|]. exact M.
  - destruct (extract_source_date t V) as [E O]. exists t. split; [done|]. split; [done|]. split; [done|]. split; [done|].
    destruct V as ([-> | ->] & _); done.
Qed.

(** EXTRACT: for a TIME of any length (whole days move from the hours into the
    day) and for any date or datetime the assertions of every accessor hold; all
    the units from DAY_MICROSECOND down to MICROSECOND are slices of the decimal
    digits of one signed number, whose parts are the members; for a TIME that
    number has the value of the TIME, and two TIMEs are ordered as these numbers
    are, across signs.  QUARTER and YEAR_MONTH are those of the members. *)
Lemma extract_source_correct (t u : MYSQL_TIME) :
  source t -> source u ->
  exists e f, ExtractSource.extract_source t = Some e /\ ExtractSource.extract_source u = Some f /\
    ExtractSource.day_microsecond e = Some (signed (neg t) (dhms_decimal e)) /\
    slices e (signed (neg t) (dhms_decimal e)) /\
    (minute e, second e, second_part e, neg e) = (minute t, second t, second_part t, neg t) /\ 0 <= hour e < 24 /\
    day e * day_micros + hms_micros e = (match time_type t with MYSQL_TIMESTAMP_TIME => 0 | _ => day t end) * day_micros + hms_micros t /\
    (time_type t = MYSQL_TIMESTAMP_TIME -> time_type u = MYSQL_TIMESTAMP_TIME ->
       exists v w, ExtractSource.day_microsecond e = Some v /\ ExtractSource.day_microsecond f = Some w /\
         (v < w <-> time_micros t < time_micros u)) /\
    ExtractSource.year_month e = Some (year t * 100 + month t) /\
    (exists q, ExtractSource.quarter e = Some q /\ 3 * q - 2 <= month t <= 3 * q).
Proof.
  intros Ht Hu.
  destruct (extract_source_run t Ht) as (e & E & O & A & Y & M), (extract_source_run u Hu) as (f & F & P & B & _ & N). exists e, f.
  split; [done|]. split; [done|]. injection A as A1 A2 A3 A4. injection B as B1 B2 B3 B4. injection Y as Y1 Y2.
  assert (forall x z, signed (neg x) z = sgn x * z) as Sg by (intros x z; unfold sgn, signed; destruct (neg x); lia).
  rewrite <- A4, !Sg. split; [by apply day_microsecond_run|]. split; [by apply slices_run|].
  split; [by rewrite A1, A2, A3|]. split; [apply O|]. split; [exact M|]. split; [|split].
  - intros Tt Tu. rewrite Tt in M. rewrite Tu in N. exists (sgn e * dhms_decimal e), (sgn f * dhms_decimal f).
    split; [by apply day_microsecond_run|]. split; [by apply day_microsecond_run|].
    unfold time_micros. rewrite <- A4, <- B4, !Sg.
    replace (hms_micros t) with (dhms_micros e) by lia. replace (hms_micros u) with (dhms_micros f) by lia.
    pose proof O as ((? & _) & Oh & Ov & _). pose proof P as ((? & _) & Ph & Pv & _).
    pose proof (dhms_order e f Oh Ph Ov Pv) as L1. pose proof (dhms_order f e Ph Oh Pv Ov) as L2.
    destruct Ov as (? & ? & ?), Pv as (? & ? & ?).
    assert (0 <= dhms_decimal e /\ 0 <= dhms_micros e /\ (dhms_decimal e = 0 <-> dhms_micros e = 0)) by (unfold dhms_decimal, dhms_micros, day_micros, SECONDS_IN_24H, hms_micros; lia).
    assert (0 <= dhms_decimal f /\ 0 <= dhms_micros f /\ (dhms_decimal f = 0 <-> dhms_micros f = 0)) by (unfold dhms_decimal, dhms_micros, day_micros, SECONDS_IN_24H, hms_micros; lia).
    unfold sgn. destruct (neg e), (neg f); lia.
  - unfold ExtractSource.year_month, ExtractSource.year, ExtractSource.month. rewrite (source_get e O). cbn. rewrite Y1, Y2.
    destruct O as (_ & _ & _ & Om & Oy & _). rewrite wrapU_small by (unfold in_u; lia). done.
  - unfold ExtractSource.quarter, ExtractSource.month. rewrite (source_get e O). cbn. rewrite Y2.
    destruct O as (_ & _ & _ & Om & Oy & _). rewrite wrapU_small by (unfold in_u; lia).
    exists ((month t + 2) / 3). split; [done|]. pose proof (Z.div_mod (month t + 2) 3). pose proof (Z.mod_pos_bound (month t + 2) 3). lia.
Qed.

(** ** The class Time *)

(** What the class promises: a TIME within the supported range, or the undefined
    value. *)
Definition time_ok (t : MYSQL_TIME) : Prop := time_type t = MYSQL_TIMESTAMP_NONE \/ valid_time t.
(** The result of an operation that returns one such value. *)
Definition gives_time (r : option (MYSQL_TIME * Z)) : Prop := exists t w, r = Some (t, w) /\ time_ok t.

Lemma has_valid_mmssff_ok t : valid_mmssff t -> has_valid_mmssff t = true.
Proof.
  intros (? & ? & ?). unfold has_valid_mmssff, TIME_MAX_MINUTE, TIME_MAX_SECOND, TIME_MAX_SECOND_PART.
  rewrite !(proj2 (Z.leb_le _ _)) by lia. done.
Qed.

(** Comparisons of two enumerators. *)
Ltac decide_modes := repeat match goal with
  | |- context [bool_decide (?a = ?b)] =>
      first [rewrite (bool_decide_true (a = b)) by reflexivity | rewrite (bool_decide_false (a = b)) by discriminate]
  end.

Module TimeLaws.
Import Time.
Section TimeLaws.
#[local] Arguments my_time_trunc : simpl never.
#[local] Arguments trunc : simpl never.
#[local] Arguments is_valid_value_slow : simpl never.
#[local] Arguments is_valid_time_slow : simpl never.
#[local] Arguments is_type : simpl never.
Context `{TimeLibLaws}.

Lemma valid_slow t : valid_time t -> is_valid_time_slow t = true.
Proof.
  intros (Ht & Hy & Hm & Hd & Hh & Hv). unfold is_valid_time_slow, is_type, has_zero_YYYYMMDD.
  rewrite bool_decide_true, Hy, Hm, Hd by done. by rewrite has_valid_mmssff_ok.
Qed.
Lemma value_slow t : time_ok t -> is_valid_value_slow t = true.
Proof.
  intros [E|V]; unfold is_valid_value_slow, is_type; [by rewrite bool_decide_true|]. rewrite valid_slow by done. by rewrite orb_true_r.
Qed.
Lemma is_valid_run t : time_ok t -> is_valid_time t = Some (is_type MYSQL_TIMESTAMP_TIME t).
Proof. intros Ht. unfold is_valid_time. by rewrite value_slow. Qed.
Lemma valid_is_type t : time_ok t -> is_type MYSQL_TIMESTAMP_TIME t = true -> valid_time t.
Proof. intros [E|V]; [|done]. unfold is_type. rewrite E. done. Qed.
Lemma is_type_valid t : valid_time t -> is_type MYSQL_TIMESTAMP_TIME t = true.
Proof. intros (E & _). unfold is_type. by rewrite bool_decide_true. Qed.
Lemma null_ok t : time_ok (set_time_type MYSQL_TIMESTAMP_NONE t).
Proof. by left. Qed.

Lemma trunc_time_ok dec t : 0 <= dec <= 6 -> valid_time t -> valid_time (time_trunc_spec dec t).
Proof.
  intros Hd (Ht & Hy & Hm & Hday & Hh & Hv). pose proof (trunc_spec_valid dec t Hd Hv) as V. unfold valid_time.
  split; [|split; [|split; [|split; [|split; [|done]]]]]; unfold time_trunc_spec; case_match; done.
Qed.

Lemma my_trunc_ok dec t : 0 <= dec <= 6 -> valid_time t -> exists t', my_time_trunc dec t = Some t' /\ valid_time t'.
Proof.
  intros Hd Hv. pose proof Hv as (_ & _ & _ & _ & [Hh _] & Hm). exists (time_trunc_spec dec t).
  split; [by apply my_time_trunc_run|by apply trunc_time_ok].
Qed.

Lemma trunc_ok dec t : 0 <= dec <= 6 -> time_ok t -> exists t', trunc dec t = Some t' /\ time_ok t'.
Proof.
  intros Hd Ht. unfold trunc. rewrite is_valid_run by done. cbn. destruct (is_type MYSQL_TIMESTAMP_TIME t) eqn:T; cbn.
  - destruct (my_trunc_ok dec t Hd (valid_is_type t Ht T)) as (t' & -> & V). cbn. rewrite value_slow by (by right). exists t'. by split; [|right].
  - rewrite value_slow by done. by exists t.
Qed.

Lemma ceiling_ok w t : time_ok t -> gives_time (ceiling w t) /\ gives_time (floor w t).
Proof.
  intros Ht. unfold ceiling, floor. rewrite is_valid_run by done. cbn.
  destruct (is_type MYSQL_TIMESTAMP_TIME t) eqn:T; cbn.
  2: rewrite value_slow by done; by split; exists t, w.
  pose proof (valid_is_type t Ht T) as V. destruct (my_trunc_ok 0 t ltac:(lia) V) as (t' & E & V').
  pose proof (time_round_nsec_law 0 999999999 w t V) as R. destruct (time_round_or_set_max_nsec 0 999999999 w t) as [t2 w2].
  assert (time_ok t' /\ time_ok t2) as [O1 O2] by (split; by right).
  destruct (neg t); cbn; rewrite E; cbn; rewrite value_slow by done; cbn; destruct (nz (second_part t)); cbn;
    rewrite value_slow by done; split; eexists _, _; (split; [done|done]).
Qed.

Lemma round_ok_time dec w t : time_ok t -> gives_time (round dec w t).
Proof.
  intros Ht. unfold round. rewrite is_valid_run by done. cbn.
  destruct (is_type MYSQL_TIMESTAMP_TIME t) eqn:T.
  - pose proof (time_round_law dec w t (valid_is_type t Ht T)) as R. destruct (time_round_or_set_max dec w t) as [t2 w2].
    rewrite value_slow by (by right). exists t2, w2. by split; [|right].
  - rewrite value_slow by done. by exists t, w.
Qed.

Lemma remainder_none dec t w : time_type t = MYSQL_TIMESTAMP_NONE -> round_mode dec (TimeRoundMode FRAC_NONE) w t = None.
Proof.
  intros Ht. unfold round_mode. cbn. unfold time_fraction_remainder. rewrite is_valid_run by (by left).
  unfold is_type. by rewrite Ht.
Qed.

Lemma round_mode_ok dec m w t : 0 <= dec <= 6 -> round_ok m -> time_ok t ->
  DateMode.round_mode m <> FRAC_NONE \/ (valid_time t /\ second_part t mod unit_of dec = 0) ->
  gives_time (round_mode dec m w t).
Proof.
  intros Hd Hm Ht Hz. destruct (trunc_ok dec t Hd Ht) as (t' & E & O).
  assert (gives_time (t ← trunc dec t; Some (t, w))) as G by (rewrite E; by exists t', w).
  unfold round_mode, round_value. destruct Hm as [Em|[Em|Em]]; rewrite Em in *; cbn.
  - destruct Hz as [Hz|[V Hz]]; [done|]. unfold time_fraction_remainder. rewrite is_valid_run by done. cbn.
    rewrite is_type_valid by done. cbn. unfold fraction_remainder. pose proof V as (_ & _ & _ & _ & _ & _ & _ & F).
    rewrite wrapS_small by (unfold in_s; lia). rewrite fraction_remainder_run by (done || lia). rewrite Hz. exact G.
  - exact G.
  - by apply round_ok_time.
Qed.

(** The mode without rounding returns only for a TIME without further digits. *)
Lemma round_none_iff dec w t : 0 <= dec <= 6 -> time_ok t ->
  is_Some (round_mode dec (TimeRoundMode FRAC_NONE) w t) <-> valid_time t /\ second_part t mod unit_of dec = 0.
Proof.
  intros Hd Ht. split.
  - intros [x E]. destruct Ht as [Ht|V]; [by rewrite remainder_none in E|]. split; [done|].
    unfold round_mode, round_value in E. cbn in E. unfold time_fraction_remainder in E.
    rewrite is_valid_run in E by (by right). cbn in E. rewrite is_type_valid in E by done. cbn in E.
    unfold fraction_remainder in E. pose proof V as (_ & _ & _ & _ & _ & _ & _ & F).
    rewrite wrapS_small, fraction_remainder_run in E by (unfold in_s; lia || done). cbn in E.
    destruct (Z.eqb_spec (second_part t mod unit_of dec) 0) as [|]; [done|discriminate E].
  - intros [V Hz]. destruct (round_mode_ok dec (TimeRoundMode FRAC_NONE) w t Hd) as (t' & w' & -> & _);
      [by left|by right|by right|by eexists].
Qed.

(** ** Conversion of a date or datetime *)

Lemma current_date_ok t : valid_date_or_datetime t ->
  exists t', datetime_to_time_minus_current_date t = Some t' /\ valid_time t' /\
    (hour (calc_time_diff t set_current_date 1 (date 0)).2 <= TIME_MAX_HOUR -> t' = (calc_time_diff t set_current_date 1 (date 0)).2).
Proof.
  intros V. unfold datetime_to_time_minus_current_date.
  pose proof (calc_time_diff_law t set_current_date 1 (date 0) V set_current_date_law) as I.
  destruct (check_time_range_law (calc_time_diff t set_current_date 1 (date 0)).2 TIME_SECOND_PART_DIGITS 0 I ltac:(done)) as (V' & R & _).
  eexists. rewrite is_valid_run by (by right). cbn. rewrite is_type_valid by done. cbn. split; [done|]. split; [done|].
  intros L. by apply R.
Qed.

(** The hours, minutes, seconds and fraction as a TIME. *)
Definition as_time (t : MYSQL_TIME) : MYSQL_TIME :=
  set_time_type MYSQL_TIMESTAMP_TIME (set_year 0 (set_month 0 (set_day 0 t))).

Lemma as_time_valid t h : valid_date_or_datetime t -> 0 <= h <= TIME_MAX_HOUR -> valid_time (as_time (set_hour h t)).
Proof. intros (_ & _ & _ & _ & _ & _ & Hm & Hs & Hf) Hh. unfold valid_time, valid_mmssff. split_and!; (done || cbn; lia). Qed.

Definition mode_result (w : Z) (dt : datetime_to_time_mode_t) (t : MYSQL_TIME) (r : MYSQL_TIME * Z) : Prop :=
  match dt with
  | DATETIME_TO_TIME_DISALLOW => r = (set_time_type MYSQL_TIMESTAMP_NONE t, MYSQL_TIME_WARN_OUT_OF_RANGE)
  | DATETIME_TO_TIME_YYYYMMDD_00000000_ONLY =>
      if (year t =? 0) && (month t =? 0) && (day t =? 0) then r = (as_time t, w)
      else r = (set_time_type MYSQL_TIMESTAMP_NONE t, MYSQL_TIME_WARN_OUT_OF_RANGE)
  | DATETIME_TO_TIME_YYYYMMDD_TRUNCATE => r = (as_time t, w)
  | DATETIME_TO_TIME_YYYYMMDD_000000DD_MIX_TO_HOURS =>
      if (year t =? 0) && (month t =? 0) then r = (as_time (set_hour (hour t + day t * 24) t), w)
      else r = (as_time t, Z.lor w MYSQL_TIME_NOTE_TRUNCATED)
  | DATETIME_TO_TIME_MINUS_CURRENT_DATE =>
      r.2 = w /\ (hour (calc_time_diff t set_current_date 1 (date 0)).2 <= TIME_MAX_HOUR ->
        r.1 = (calc_time_diff t set_current_date 1 (date 0)).2)
  end.

Lemma convert_date_run w opt t : valid_date_or_datetime t ->
  exists r, valid_MYSQL_TIME_to_valid_value w opt t = Some r /\ time_ok r.1 /\ mode_result w (opt_dtmode opt) t r.
Proof.
  intros V. pose proof V as (Ht & Hn & Hy & Hm & Hd & Hh & Hv).
  assert (valid_time (as_time t)) as Va.
  { replace t with (set_hour (hour t) t) by (by destruct t). apply as_time_valid; [done|unfold TIME_MAX_HOUR; lia]. }
  assert (valid_time (as_time (set_hour (hour t + day t * 24) t))) as Vm
    by (apply as_time_valid; [done|unfold TIME_MAX_HOUR; lia]).
  assert (valid_MYSQL_TIME_to_valid_value w opt t =
    if bool_decide (opt_dtmode opt = DATETIME_TO_TIME_YYYYMMDD_00000000_ONLY) && (nz (year t) || nz (month t) || nz (day t))
    then Some (make_from_out_of_range t)
    else if bool_decide (opt_dtmode opt = DATETIME_TO_TIME_DISALLOW) then Some (make_from_out_of_range t)
    else valid_datetime_to_valid_time w opt t) as -> by (unfold valid_MYSQL_TIME_to_valid_value; destruct Ht as [-> | ->]; done).
  assert (is_type MYSQL_TIMESTAMP_DATE t || is_type MYSQL_TIMESTAMP_DATETIME t = true) as Hk
    by (unfold is_type; destruct Ht as [-> | ->]; done).
  unfold valid_datetime_to_valid_time. rewrite Hk, !(proj2 (Z.ltb_lt _ _)) by lia.
  unfold mode_result, nz. destruct (opt_dtmode opt); decide_modes; cbn -[as_time].
  - eexists. split; [done|]. split; [apply null_ok|done].
  - unfold datetime_to_time_YYYYMMDD_000000DD_mix_to_hours.
    rewrite (wrapU_small 32 (day t * 24)), (wrapU_small 32 (hour t + day t * 24)) by (unfold in_u; lia).
    destruct (Z.eqb_spec (year t) 0), (Z.eqb_spec (month t) 0); cbn -[as_time]; fold (as_time t);
      try (fold (as_time (set_hour (hour t + day t * 24) t)));
      rewrite valid_slow by done; eexists; (split; [done|]); (split; [by right|done]).
  - fold (as_time t). rewrite valid_slow by done. eexists. split; [done|]. split; [by right|done].
  - destruct (Z.eqb_spec (year t) 0), (Z.eqb_spec (month t) 0), (Z.eqb_spec (day t) 0); cbn -[as_time];
      try (eexists; split; [done|]; split; [apply null_ok|done]).
    fold (as_time t). rewrite valid_slow by done. eexists. split; [done|]. split; [by right|done].
  - destruct (current_date_ok t V) as (t' & -> & V' & R). cbn. rewrite valid_slow by done.
    eexists. split; [done|]. split; [by right|done].
Qed.

Lemma convert_run w opt t : valid_MYSQL_TIME t -> gives_time (valid_MYSQL_TIME_to_valid_value w opt t).
Proof.
  intros [E|[V|V]].
  - unfold valid_MYSQL_TIME_to_valid_value. rewrite E. exists t, w. by split; [|left].
  - unfold valid_MYSQL_TIME_to_valid_value. rewrite (proj1 V), valid_slow by done. exists t, w. by split; [|right].
  - destruct (convert_date_run w opt t V) as ([t' w'] & E & O & _). by exists t', w'.
Qed.
Lemma xxx_run w opt t : valid_MYSQL_TIME t -> gives_time (xxx_to_time_result_to_valid_value w opt t).
Proof.
  intros V. unfold xxx_to_time_result_to_valid_value.
  assert (is_type MYSQL_TIMESTAMP_ERROR t = false) as ->; [|by apply convert_run].
  unfold is_type. apply bool_decide_false. intros E. destruct V as [V|[[V _]|[V _]]]; rewrite E in V; naive_solver.
Qed.

Lemma time_of_sec6_run w s opt : sec6_ok s -> gives_time (time_of_sec6 w s opt).
Proof.
  intros Hs. unfold time_of_sec6. destruct (to_datetime_or_time_run TIME_INVALID_DATES w s Hs) as (rc & t & w' & -> & V & _).
  cbn. apply xxx_run. destruct rc; [by left|]. right. by apply V.
Qed.

Lemma time_of_sec9_run w s opt r : sec6_ok (sec6 s) -> to_round (opt_mode opt) = Some r -> gives_time (time_of_sec9 w s opt).
Proof.
  intros Hs Hr. destruct (time_of_sec6_run w (sec6 s) opt Hs) as (t & w' & E & O). unfold time_of_sec9.
  rewrite E. cbn. rewrite is_valid_run by done. cbn. destruct (is_type MYSQL_TIMESTAMP_TIME t) eqn:T; cbn; [|by exists t, w'].
  rewrite Hr. cbn. destruct (round_eq r TIME_FRAC_ROUND); [|by exists t, w'].
  pose proof (time_round_nsec_law 6 (m_nsec s) w' t (valid_is_type t O T)) as R.
  destruct (time_round_or_set_max_nsec 6 (m_nsec s) w' t) as [t2 w2]. exists t2, w2. by split; [|right].
Qed.

Lemma to_round_ok m r : to_round m = Some r -> round_ok r.
Proof.
  unfold to_round. intros E. pose proof (round_spec (Z.land (date_ulonglong m) round_KNOWN_MODES)) as S. rewrite E in S. apply S.
Qed.

End TimeLaws.
End TimeLaws.

Import TimeLaws.

(** C29 : The class [Time] keeps its promise.  The constructors whose whole body is
    in the header (not those from items, from [Native], from parts or with a number
    of days to subtract, which pass on to declared functions) give a TIME within the
    supported range or the undefined value, without a failing assertion: the default
    one, the one from a valid [MYSQL_TIME], those from a number with or without
    nanoseconds (to which those from floating point and decimal numbers pass on) or
    an integer, without
    and with a number of digits, and those from a parsed string, likewise; and
    [trunc], [ceiling], [floor] and [round] preserve it, in every rounding mode but
    [TIME_FRAC_NONE].  In that mode [round] returns exactly for a TIME that has no
    further digits: on one that has, and on an undefined value, its assertion on
    the remainder fails; the constructors that round are stated for the other
    modes. *)
Theorem time_class_valid `{TimeLibLaws} (t u : MYSQL_TIME) (s : Sec9) (nr : Longlong_hybrid) (opt : Time.Options)
    (r m : time_round_mode_t) (dec w : Z) (failed : bool) :
  valid_MYSQL_TIME t -> time_ok u -> sec6_ok (sec6 s) -> in_s 64 (h_value nr) ->
  to_round (Time.opt_mode opt) = Some r -> round_ok m -> 0 <= dec <= 6 ->
  (forall uninit, time_ok (Time.time_default uninit)) /\
  (time_type t <> MYSQL_TIMESTAMP_NONE -> exists t', Time.time_of_mysql_time t opt = Some t' /\ time_ok t') /\
  gives_time (Time.time_of_sec6 w (sec6 s) opt) /\ gives_time (Time.time_of_sec9 w s opt) /\
  gives_time (Time.time_of_longlong w nr opt) /\ gives_time (Time.time_of_longlong_dec w nr opt dec) /\
  gives_time (Time.time_of_str (failed, t, w) opt) /\
  (DateMode.round_mode r <> FRAC_NONE ->
     gives_time (Time.time_of_sec9_dec w s opt dec) /\ gives_time (Time.time_of_str_dec (failed, t, w) opt dec)) /\
  (exists u', Time.trunc dec u = Some u' /\ time_ok u') /\
  gives_time (Time.ceiling w u) /\ gives_time (Time.floor w u) /\ gives_time (Time.round dec w u) /\
  (DateMode.round_mode m <> FRAC_NONE -> gives_time (Time.round_mode dec m w u)) /\
  (valid_time u -> second_part u mod unit_of dec = 0 -> gives_time (Time.round_mode dec m w u)) /\
  (is_Some (Time.round_mode dec (TimeRoundMode FRAC_NONE) w u) <-> valid_time u /\ second_part u mod unit_of dec = 0).
Proof.
  intros Vt Ou Hs Hn Hr Hm Hd.
  assert (gives_time (Time.time_of_longlong w nr opt)) as GL
    by (apply (time_of_sec6_run w (make_from_int nr) opt), (proj1 (make_from_int_ok nr Hn))).
  assert (gives_time (Time.time_of_str (failed, t, w) opt)) as GS
    by (unfold Time.time_of_str; destruct failed; [exists (set_time_type MYSQL_TIMESTAMP_NONE t), w; by split; [|left]|by apply xxx_run]).
  split_and!; try done.
  - intros uninit. by left.
  - intros Hne. destruct (convert_run 0 opt t Vt) as (t' & w' & E & O). exists t'. unfold Time.time_of_mysql_time, is_valid_temporal.
    assert (is_type MYSQL_TIMESTAMP_ERROR t = false) as -> by (unfold is_type; apply bool_decide_false; intros C;
      destruct Vt as [V|[[V _]|[V _]]]; rewrite C in V; naive_solver).
    unfold is_type. rewrite (bool_decide_false _ Hne). cbn. by rewrite E.
  - by apply time_of_sec6_run.
  - by eapply time_of_sec9_run.
  - unfold Time.time_of_longlong_dec. destruct GL as (t' & w' & -> & O). cbn.
    destruct (trunc_ok dec t' Hd O) as (t2 & -> & O2). by exists t2, w'.
  - intros Hne. unfold Time.time_of_sec9_dec, Time.time_of_str_dec. split.
    + destruct (time_of_sec9_run w s opt r Hs Hr) as (t' & w' & -> & O). cbn.
      rewrite Hr. cbn. apply round_mode_ok; [done|by eapply to_round_ok|done|by left].
    + destruct GS as (t' & w' & -> & O). cbn. rewrite Hr. cbn. apply round_mode_ok; [done|by eapply to_round_ok|done|by left].
  - by apply trunc_ok.
  - by apply ceiling_ok.
  - by apply ceiling_ok.
  - by apply round_ok_time.
  - intros Hne. apply round_mode_ok; try done. by left.
  - intros V Z0. apply round_mode_ok; try done. by right.
  - by apply round_none_iff.
Qed.

(** How a date or datetime becomes a TIME in each conversion mode: refused; its
    hours, minutes, seconds and fraction, with the date dropped silently, only if
    it is zero, or with a note unless it is 0000-00-DD, whose days then count as 24
    hours each (at most 767 hours, so that no range check is needed); or its
    difference to the current date.  The kept part is exact. *)
Lemma time_from_datetime `{TimeLibLaws} (t : MYSQL_TIME) (w : Z) (opt : Time.Options) :
  valid_date_or_datetime t ->
  (exists r, Time.valid_MYSQL_TIME_to_valid_value w opt t = Some r /\ time_ok r.1 /\ mode_result w (Time.opt_dtmode opt) t r) /\
  time_micros (as_time t) = hms_micros t /\ valid_time (as_time t) /\
  time_micros (as_time (set_hour (hour t + day t * 24) t)) = dhms_micros t /\
  (exists r, Time.valid_MYSQL_TIME_to_valid_value w opt (Time.null t) = Some r /\ r = (Time.null t, w)).
Proof.
  intros V. split; [by apply convert_date_run|]. pose proof V as (_ & Hn & _ & _ & _ & Hh & _).
  unfold time_micros. cbn. rewrite Hn. cbn. split; [done|]. split.
  { replace t with (set_hour (hour t) t) by (by destruct t). apply as_time_valid; [done|unfold TIME_MAX_HOUR; lia]. }
  split; [unfold dhms_micros, day_micros, SECONDS_IN_24H, hms_micros; cbn; lia|]. by eexists.
Qed.

(** ** The classes Datetime and Date *)

Definition datetime_ok (t : MYSQL_TIME) : Prop :=
  time_type t = MYSQL_TIMESTAMP_NONE \/ (valid_date_or_datetime t /\ time_type t = MYSQL_TIMESTAMP_DATETIME).
Definition gives_datetime (r : option (MYSQL_TIME * Z)) : Prop := exists t w, r = Some (t, w) /\ datetime_ok t.

Module DatetimeLaws.
Import Datetime.
Section DatetimeLaws.
#[local] Arguments my_datetime_trunc : simpl never.
#[local] Arguments is_type : simpl never.
#[local] Arguments assert_value : simpl never.
#[local] Arguments is_valid_datetime : simpl never.
#[local] Arguments trunc : simpl never.
#[local] Arguments round_or_invalidate_nsec : simpl never.
Context `{TimeLibLaws}.

Lemma assert_datetime_run t : valid_date_or_datetime t -> time_type t = MYSQL_TIMESTAMP_DATETIME -> assert_datetime t = Some ().
Proof.
  intros V E. unfold assert_datetime, is_valid_datetime_slow, is_type. rewrite bool_decide_true by done. cbn.
  by rewrite check_datetime_range_law.
Qed.
Lemma assert_value_run t : datetime_ok t -> assert_value t = Some ().
Proof.
  intros [E|[V E]]; unfold assert_value, is_valid_value_slow; unfold is_type at 1; rewrite E; [done|].
  rewrite bool_decide_false by done. by apply assert_datetime_run.
Qed.
Lemma is_valid_datetime_run t : datetime_ok t -> is_valid_datetime t = Some (is_type MYSQL_TIMESTAMP_DATETIME t).
Proof. intros O. unfold is_valid_datetime. by rewrite assert_value_run. Qed.
Lemma datetime_cases t : datetime_ok t ->
  (is_type MYSQL_TIMESTAMP_DATETIME t = false /\ time_type t = MYSQL_TIMESTAMP_NONE) \/
  (is_type MYSQL_TIMESTAMP_DATETIME t = true /\ valid_date_or_datetime t /\ time_type t = MYSQL_TIMESTAMP_DATETIME).
Proof. intros [E|[V E]]; unfold is_type; rewrite E; [by left|by right]. Qed.

Lemma if_needed_run t : time_type t = MYSQL_TIMESTAMP_NONE \/ valid_date_or_datetime t ->
  exists t', date_to_datetime_if_needed t = Some t' /\ datetime_ok t' /\
    t' = if is_type MYSQL_TIMESTAMP_DATE t then set_time_type MYSQL_TIMESTAMP_DATETIME t else t.
Proof.
  intros Ht. unfold date_to_datetime_if_needed, date_to_datetime, is_type. destruct Ht as [E|V].
  - rewrite E. decide_modes. exists t. split; [done|]. by split; [left|].
  - pose proof V as (Ht & Hn & R). rewrite Hn. destruct Ht as [E|E]; rewrite E; decide_modes; cbn;
      eexists; (split; [done|]); (split; [right; split; [|done]|done]); [|done].
    split; [by right|]. by split.
Qed.

Lemma round_nsec_run dec w ns t : valid_date_or_datetime t -> time_type t = MYSQL_TIMESTAMP_DATETIME ->
  exists b t' w', round_or_invalidate_nsec dec w ns t = Some (b, t', w') /\ datetime_ok t'.
Proof.
  intros V E. unfold round_or_invalidate_nsec. rewrite assert_datetime_run by done. cbn.
  pose proof (datetime_round_nsec_law dec ns w t V) as R. destruct (datetime_round_or_invalidate_nsec dec ns w t) as [[b t'] w'].
  cbn in R. assert (datetime_ok t') as O by (destruct R as [R|[R1 R2]]; [by left|right; split; [done|congruence]]).
  rewrite assert_value_run by done. cbn. by exists b, t', w'.
Qed.

Lemma trunc_datetime_run dec t : 0 <= dec <= 6 -> datetime_ok t ->
  exists t', trunc dec t = Some t' /\ datetime_ok t' /\
    (time_type t = MYSQL_TIMESTAMP_DATETIME -> t' = set_second_part (floor_to (unit_of dec) (second_part t)) t).
Proof.
  intros Hd Ht. unfold trunc. rewrite is_valid_datetime_run by done. cbn. destruct (datetime_cases t Ht) as [[-> E]|(-> & V & E)].
  - cbn. rewrite assert_value_run by done. exists t. split; [done|]. split; [done|]. by rewrite E.
  - pose proof V as (Hk & Hn & Hy & Hm & Hday & Hh & Hv). rewrite my_datetime_trunc_run by done. cbn.
    set (t' := set_second_part (floor_to (unit_of dec) (second_part t)) t).
    assert (datetime_ok t') as O.
    { right. split; [|done]. split; [done|]. pose proof (proj1 (floor_to_small dec (second_part t) Hd (proj2 (proj2 Hv)))).
      destruct Hv as (? & ? & ?). unfold t', valid_mmssff. cbn. split_and!; (done || lia). }
    rewrite assert_value_run by done. by exists t'.
Qed.

Lemma ceiling_datetime w t : datetime_ok t -> gives_datetime (ceiling w t).
Proof.
  intros Ht. unfold ceiling. rewrite is_valid_datetime_run by done. cbn. destruct (datetime_cases t Ht) as [[-> E]|(-> & V & E)]; cbn.
  - rewrite assert_value_run by done. by exists t, w.
  - destruct (nz (second_part t)).
    + destruct (round_nsec_run 0 w 999999999 t V E) as (b & t' & w' & -> & O). cbn. rewrite assert_value_run by done. by exists t', w'.
    + cbn. rewrite assert_value_run by done. by exists t, w.
Qed.

Lemma round_datetime dec w t : datetime_ok t -> gives_datetime (round dec w t).
Proof.
  intros Ht. unfold round. rewrite is_valid_datetime_run by done. cbn. destruct (datetime_cases t Ht) as [[-> E]|(-> & V & E)]; cbn.
  - rewrite assert_value_run by done. by exists t, w.
  - pose proof (datetime_round_law dec w t V) as R. destruct (datetime_round_or_invalidate dec w t) as [[b t'] w'].
    cbn in R. assert (datetime_ok t') as O by (destruct R as [R|[R1 R2]]; [by left|right; split; [done|congruence]]).
    rewrite assert_value_run by done. by exists t', w'.
Qed.

Lemma round_mode_datetime dec m w t : 0 <= dec <= 6 -> round_ok m -> datetime_ok t -> DateMode.round_mode m <> FRAC_NONE ->
  gives_datetime (round_mode dec m w t).
Proof.
  intros Hd Hm Ht Hne. unfold round_mode, round_value. destruct Hm as [Em|[Em|Em]]; rewrite Em in *; cbn; [done| |by apply round_datetime].
  destruct (trunc_datetime_run dec t Hd Ht) as (t' & -> & O & _). by exists t', w.
Qed.

Lemma datetime_of_sec6_run u w s flags : conv_bool (and_date_conv flags TIME_TIME_ONLY) = false ->
  gives_datetime (datetime_of_sec6 u w s flags).
Proof.
  intros Hf. unfold datetime_of_sec6, with_date_of_sec6. rewrite Hf. cbn.
  destruct (to_datetime_or_date_run (to_conv flags) u w s) as (rc & t & w' & -> & V & _). cbn.
  destruct (if_needed_run (if rc then set_time_type MYSQL_TIMESTAMP_NONE t else t)) as (t' & -> & O & _);
    [destruct rc; [by left|by right; apply V]|].
  cbn. rewrite assert_value_run by done. by exists t', w'.
Qed.

Lemma datetime_of_sec9_run u w s flags r : conv_bool (and_date_conv flags TIME_TIME_ONLY) = false -> to_round flags = Some r ->
  gives_datetime (datetime_of_sec9 u w s flags).
Proof.
  intros Hf Hr. destruct (datetime_of_sec6_run u w (sec6 s) flags Hf) as (t & w' & E & O). unfold datetime_of_sec9.
  rewrite E. cbn. rewrite is_valid_datetime_run by done. cbn. destruct (datetime_cases t O) as [[-> Et]|(-> & V & Et)]; cbn.
  - rewrite assert_value_run by done. by exists t, w'.
  - rewrite Hr. cbn. destruct (round_eq r TIME_FRAC_ROUND).
    + destruct (round_nsec_run 6 w' (m_nsec s) t V Et) as (b & t' & w2 & -> & O'). cbn. rewrite assert_value_run by done. by exists t', w2.
    + cbn. rewrite assert_value_run by done. by exists t, w'.
Qed.

(** The seconds since day 0. *)
Lemma to_seconds_run t : valid_date_or_datetime t -> time_type t = MYSQL_TIMESTAMP_DATETIME ->
  exists s, to_seconds t = Some s /\ s * 1000000 + second_part t = abs_micros t.
Proof.
  intros V E. pose proof V as (_ & Hn & Hy & Hm & Hday & Hh & (Hmi & Hs & Hf)).
  unfold to_seconds, hhmmss_to_seconds, hhmmss_to_seconds_abs, daynr. rewrite assert_datetime_run by done. cbn. rewrite Hn.
  eexists. split; [done|]. unfold wd_daynr. pose proof (calc_daynr_law (year t) (month t) (day t)) as D.
  rewrite (wrapU_small 64), (wrapS_small 64) by (unfold in_s, in_u; lia). rewrite wrapU_small by (unfold in_u; lia).
  unfold abs_micros, hms_micros, SECONDS_IN_24H. rewrite E. lia.
Qed.

(** A DATE made of a datetime. *)
Lemma date_of_datetime_run d : valid_date_or_datetime d -> time_type d = MYSQL_TIMESTAMP_DATETIME ->
  exists d', Date.date_of_with_date d = Some d' /\ valid_date_or_datetime d' /\ time_type d' = MYSQL_TIMESTAMP_DATE /\
    (year d', month d', day d', hms_micros d') = (year d, month d, day d, 0).
Proof.
  intros Vd Ed. pose proof Vd as (_ & Hn & Hy & Hmo & Hday & Hh & Hv).
  unfold Date.date_of_with_date, datetime_to_date, is_type. rewrite Ed, Hn. decide_modes. cbn.
  set (d' := set_time_type MYSQL_TIMESTAMP_DATE _).
  assert (valid_date_or_datetime d') as V'
    by (unfold d', valid_date_or_datetime, valid_mmssff; cbn; split; [by left|split_and!; (done || lia)]).
  unfold Date.assert_date, Date.is_valid_date_slow, is_type. rewrite (bool_decide_true (time_type d' = _)) by done. cbn.
  rewrite check_datetime_range_law by done. cbn. by exists d'.
Qed.

Lemma hms_zero d : 0 <= hour d -> valid_mmssff d ->
  (hour d =? 0) && (minute d =? 0) && (second d =? 0) && (second_part d =? 0) = (hms_micros d =? 0).
Proof.
  intros Hh (Hm & Hs & Hf). unfold hms_micros.
  destruct (Z.eqb_spec (((hour d * 60 + minute d) * 60 + second d) * 1000000 + second_part d) 0).
  - by rewrite !(proj2 (Z.eqb_eq _ _)) by lia.
  - apply not_true_is_false. rewrite !andb_true_iff, !Z.eqb_eq. lia.
Qed.

Lemma copy_type_run l d : valid_date_or_datetime d -> time_type d = MYSQL_TIMESTAMP_DATETIME ->
  copy_to_mysql_time_type l MYSQL_TIMESTAMP_DATETIME d = Some (false, d) /\
  copy_to_mysql_time_type l MYSQL_TIMESTAMP_DATE d =
    (if hms_micros d =? 0 then Some (false, set_time_type MYSQL_TIMESTAMP_DATE d) else None).
Proof.
  intros Vd Ed. pose proof (assert_datetime_run d Vd Ed) as Ad. pose proof Vd as (_ & _ & _ & _ & _ & [Hh _] & Hv).
  assert (copy_to_mysql_time l d = Some (false, d)) as Cd
    by (unfold copy_to_mysql_time, is_type; rewrite Ed, bool_decide_false by done; cbn; by rewrite Ad).
  unfold copy_to_mysql_time_type, hhmmssff_is_zero. decide_modes. cbn. rewrite Cd. cbn. rewrite Ad. cbn. split.
  - destruct d; cbn in Ed. by subst.
  - rewrite hms_zero by done. by destruct (hms_micros d =? 0).
Qed.
End DatetimeLaws.
End DatetimeLaws.

Import DatetimeLaws.

(** The class [Datetime] keeps its promise: every constructor from a valid
    date or datetime, a number with or without nanoseconds, an integer or a parsed
    string gives a DATETIME with all members in range or the undefined value, no
    assertion fails, and [trunc], [ceiling] and [round] preserve it (with
    truncation exact); [to_seconds] counts the seconds since day 0 exactly.  A
    DATE made from it keeps the day and drops the time; copied out as a DATE, a
    datetime must have no time part, or the assertion fails. *)
Lemma datetime_class_valid `{TimeLibLaws} (t u d l : MYSQL_TIME) (s : Sec9) (nr : Longlong_hybrid) (flags : date_mode_t)
    (r m : time_round_mode_t) (dec w : Z) (failed : bool) :
  datetime_ok t -> time_type u = MYSQL_TIMESTAMP_NONE \/ valid_date_or_datetime u ->
  valid_date_or_datetime d -> time_type d = MYSQL_TIMESTAMP_DATETIME ->
  conv_bool (and_date_conv flags TIME_TIME_ONLY) = false -> to_round flags = Some r ->
  round_ok m -> DateMode.round_mode m <> FRAC_NONE -> 0 <= dec <= 6 ->
  (exists t', Datetime.datetime_of_item u = Some t' /\ datetime_ok t' /\
     (year t', month t', day t', hms_micros t') = (year u, month u, day u, hms_micros u)) /\
  gives_datetime (Datetime.datetime_of_str (failed, u, w) flags) /\
  gives_datetime (Datetime.datetime_of_sec6 l w (sec6 s) flags) /\
  gives_datetime (Datetime.datetime_of_sec9 l w s flags) /\
  gives_datetime (Datetime.datetime_of_longlong l w nr flags) /\
  (DateMode.round_mode r <> FRAC_NONE -> gives_datetime (Datetime.datetime_of_sec9_dec l w s flags dec)) /\
  (exists t', Datetime.trunc dec t = Some t' /\ datetime_ok t' /\
     (time_type t = MYSQL_TIMESTAMP_DATETIME -> hms_micros t' = floor_to (unit_of dec) (hms_micros t))) /\
  gives_datetime (Datetime.ceiling w t) /\ gives_datetime (Datetime.round dec w t) /\
  gives_datetime (Datetime.round_mode dec m w t) /\
  (exists n, Datetime.to_seconds d = Some n /\ n * 1000000 + second_part d = abs_micros d) /\
  (exists d', Date.date_of_with_date d = Some d' /\ valid_date_or_datetime d' /\ time_type d' = MYSQL_TIMESTAMP_DATE /\
     (year d', month d', day d', hms_micros d') = (year d, month d, day d, 0)) /\
  Datetime.copy_to_mysql_time_type l MYSQL_TIMESTAMP_DATETIME d = Some (false, d) /\
  Datetime.copy_to_mysql_time_type l MYSQL_TIMESTAMP_DATE d =
    (if hms_micros d =? 0 then Some (false, set_time_type MYSQL_TIMESTAMP_DATE d) else None).
Proof.
  intros Ht Hu Vd Ed Hf Hr Hm Hne Hd. destruct (if_needed_run u Hu) as (u' & Eu & Ou & Du).
  split_and!.
  - unfold Datetime.datetime_of_item. rewrite Eu. cbn. rewrite assert_value_run by done. exists u'. split; [done|]. split; [done|].
    rewrite Du. by case_match.
  - unfold Datetime.datetime_of_str, with_date_of_str. rewrite Hf. cbn.
    destruct (if_needed_run (if failed then set_time_type MYSQL_TIMESTAMP_NONE u else u)) as (v & -> & O & _);
      [destruct failed; [by left|done]|]. cbn. rewrite assert_value_run by done. by exists v, w.
  - by apply datetime_of_sec6_run.
  - by eapply datetime_of_sec9_run.
  - by apply datetime_of_sec6_run.
  - intros Hnr. unfold Datetime.datetime_of_sec9_dec. destruct (datetime_of_sec9_run l w s flags r Hf Hr) as (t' & w' & -> & O).
    cbn. rewrite Hr. cbn. apply round_mode_datetime; [done|by eapply to_round_ok|done|done].
  - destruct (trunc_datetime_run dec t Hd Ht) as (t' & E & O & Q). exists t'. split; [done|]. split; [done|].
    intros Et. rewrite (Q Et). by rewrite <- hms_floor.
  - by apply ceiling_datetime.
  - by apply round_datetime.
  - by apply round_mode_datetime.
  - by apply to_seconds_run.
  - by apply date_of_datetime_run.
  - by apply copy_type_run.
  - by apply copy_type_run.
Qed.

(** A datetime as a TIME, in two modes; truncation and ceiling of a TIME. *)
Lemma time_class_valid_witness :
  let t := MySQLTime 0 0 2 3 0 0 500000 false MYSQL_TIMESTAMP_DATETIME in
  let u := MySQLTime 0 0 0 838 59 59 999999 true MYSQL_TIMESTAMP_TIME in
  let opt := Time.MkOptions (DateMode FRAC_ROUND) DATETIME_TO_TIME_YYYYMMDD_000000DD_MIX_TO_HOURS in
  valid_MYSQL_TIME t /\ time_ok u /\
  (exists t', @Time.time_of_mysql_time sample_lib t opt = Some t' /\ time_ok t') /\
  gives_time (@Time.time_of_longlong_dec sample_lib 0 (LLH 20240115103000 false) opt 0) /\
  gives_time (@Time.ceiling sample_lib 0 u) /\
  @Time.round_mode sample_lib 0 (TimeRoundMode FRAC_NONE) 0 (Time.null u) = None.
Proof.
  intros t u opt.
  assert (valid_MYSQL_TIME t) as Vt by (right; right; unfold valid_date_or_datetime, valid_mmssff; cbn; split; [by right|split_and!; (done || lia)]).
  assert (time_ok u) as Ou by (right; unfold valid_time, valid_mmssff, TIME_MAX_HOUR; cbn; split_and!; (done || lia)).
  assert (sec6_ok (sec6 (MkSec9 (MkSec6 0 0 false false) 0))) as Os by (split; [split; [discriminate|reflexivity]|split; discriminate]).
  assert (round_ok TIME_FRAC_ROUND) as Or by (right; right; reflexivity).
  assert (in_s 64 (h_value (LLH 20240115103000 false))) as On by (split; [discriminate|reflexivity]).
  destruct (@time_class_valid sample_lib sample_laws t u (MkSec9 (MkSec6 0 0 false false) 0) (LLH 20240115103000 false) opt
    TIME_FRAC_ROUND TIME_FRAC_ROUND 0 0 false Vt Ou Os On eq_refl Or ltac:(lia)) as (_ & A & _ & _ & _ & B & _ & _ & _ & C & _).
  destruct (@time_class_valid sample_lib sample_laws t (Time.null u) (MkSec9 (MkSec6 0 0 false false) 0) (LLH 20240115103000 false) opt
    TIME_FRAC_ROUND TIME_FRAC_ROUND 0 0 false Vt ltac:(by left) Os On eq_refl Or ltac:(lia)) as (_ & _ & _ & _ & _ & _ & _ & _ & _ & _ & _ & _ & _ & _ & [D _]).
  split; [exact Vt|]. split; [exact Ou|]. split; [apply A; discriminate|]. split; [exact B|]. split; [exact C|].
  destruct (Time.round_mode 0 (TimeRoundMode FRAC_NONE) 0 (Time.null u)) as [x|] eqn:E; [|reflexivity].
  exfalso. destruct (D (ex_intro _ x eq_refl)) as [[V _] _]. discriminate V.
Defined.
