(* ===== verification/Doubles.v ===== *)
(** Doubles: the values of the type [double] of the sources, as [spec_float]s of the
    Standard Library with 53 bits of precision, with their comparisons and
    arithmetic.  [rank] places the numbers (every value but NaN) on a line of
    integers, so that comparisons of numbers are comparisons of integers, and
    [of_Z] is the conversion of an integer. *)

From Stdlib Require Import SpecFloat.
From S2P Require Import Prelude.

(** ** Doubles *)

Abbreviation double := spec_float.

Definition dadd : double -> double -> double := SFadd 53 1024.
Definition dsub : double -> double -> double := SFsub 53 1024.
Definition dmul : double -> double -> double := SFmul 53 1024.
Definition ddiv : double -> double -> double := SFdiv 53 1024.
Definition dopp : double -> double := SFopp.

(** The comparisons of C; each is false when an operand is NaN. *)
Definition dlt (x y : double) : bool := SFltb x y.
Definition dle (x y : double) : bool := SFleb x y.
Definition deq (x y : double) : bool := SFeqb x y.

Definition DBL_MAX : double := S754_finite false 9007199254740991 971.

(** Conversion of an integer, [floor] and [ceil] of the mathematics library (exact
    for the integers below 2^53; other values keep their sign and are not used). *)
Definition of_Z (z : Z) : double := binary_normalize 53 1024 z 0 false.
Definition floor_Z (x : double) : Z :=
  match x with
  | S754_finite s m e => Z.shiftl (if s then Zneg m else Zpos m) e
  | _ => 0
  end.
Definition ceil_Z (x : double) : Z :=
  match x with
  | S754_finite s m e => - Z.shiftl (if s then Zpos m else Zneg m) e
  | _ => 0
  end.
Definition dfloor (x : double) : double := match x with S754_finite _ _ _ => of_Z (floor_Z x) | _ => x end.
Definition dceil (x : double) : double := match x with S754_finite _ _ _ => of_Z (ceil_Z x) | _ => x end.

(** ** Numbers on a line *)

(** A value that is a number: representable in 53 bits and not NaN. *)
Definition number (x : double) : Prop := valid_binary 53 1024 x = true /\ x <> S754_nan.
Definition is_infinity (x : double) : bool := match x with S754_infinity _ => true | _ => false end.
Definition finite (x : double) : Prop := number x /\ is_infinity x = false.

Definition magnitude (m : positive) (e : Z) : Z := (e + 1075) * 2 ^ 53 + Zpos m.
Definition rank (x : double) : Z :=
  match x with
  | S754_zero _ | S754_nan => 0
  | S754_infinity s => if s then - (2047 * 2 ^ 53) else 2047 * 2 ^ 53
  | S754_finite s m e => if s then - magnitude m e else magnitude m e
  end.

Lemma digits2_pos_bound m : Zpos m < 2 ^ Zpos (digits2_pos m).
Proof.
  induction m as [m IH|m IH|]; cbn [digits2_pos]; [..|reflexivity];
    rewrite Pos2Z.inj_succ, Z.pow_succ_r by lia; lia.
Qed.
Lemma number_bounds s m e : number (S754_finite s m e) -> Zpos m < 2 ^ 53 /\ -1074 <= e <= 971.
Proof.
  intros [H _]. cbn in H. apply andb_prop in H as [H1%Z.eqb_eq H2%Z.leb_le].
  unfold fexp, emin in H1. pose proof (digits2_pos_bound m).
  assert (2 ^ Zpos (digits2_pos m) <= 2 ^ 53) by (apply Z.pow_le_mono_r; lia). lia.
Qed.
Lemma magnitude_compare m1 e1 m2 e2 :
  Zpos m1 < 2 ^ 53 -> Zpos m2 < 2 ^ 53 ->
  (magnitude m1 e1 ?= magnitude m2 e2) =
    match e1 ?= e2 with Eq => Pos.compare_cont Eq m1 m2 | Lt => Lt | Gt => Gt end.
Proof.
  intros H1 H2. unfold magnitude. destruct (Z.compare_spec e1 e2) as [->|He|He].
  - rewrite Z.add_compare_mono_l. reflexivity.
  - apply Z.compare_lt_iff. assert (2 ^ 53 > 0) by reflexivity. nia.
  - apply Z.compare_gt_iff. assert (2 ^ 53 > 0) by reflexivity. nia.
Qed.
Lemma magnitude_bounds s m e : number (S754_finite s m e) -> 0 < magnitude m e < 2047 * 2 ^ 53.
Proof.
  intros H%number_bounds. unfold magnitude. assert (2 ^ 53 > 0) by reflexivity. nia.
Qed.

(** The comparison of two numbers is the comparison of their ranks. *)
Lemma rank_compare x y : number x -> number y -> SFcompare x y = Some (rank x ?= rank y).
Proof.
  intros Hx Hy.
  destruct x as [sx|sx| |sx mx ex], y as [sy|sy| |sy my ey];
    try (destruct Hx; congruence); try (destruct Hy; congruence); cbn [SFcompare rank];
    repeat match goal with
           | H : number (S754_finite _ ?m ?e) |- _ =>
               pose proof (magnitude_bounds _ _ _ H); pose proof (number_bounds _ _ _ H); clear H
           end; f_equal.
  all: try (destruct sx; try destruct sy; symmetry;
            first [reflexivity | apply Z.compare_lt_iff; lia | apply Z.compare_gt_iff; lia]).
  all: try (destruct sy; symmetry;
            first [reflexivity | apply Z.compare_lt_iff; lia | apply Z.compare_gt_iff; lia]).
  pose proof (magnitude_compare mx ex my ey) as Hc.
  destruct sx, sy.
  - rewrite (Z.compare_opp (magnitude mx ex)), (Z.compare_antisym (magnitude mx ex)), Hc by lia.
    destruct (ex ?= ey); reflexivity.
  - symmetry. apply Z.compare_lt_iff; lia.
  - symmetry. apply Z.compare_gt_iff; lia.
  - rewrite Hc by lia. reflexivity.
Qed.

Lemma dlt_rank x y : number x -> number y -> dlt x y = (rank x <? rank y).
Proof. intros. unfold dlt, SFltb, Z.ltb. rewrite rank_compare by done. reflexivity. Qed.
Lemma dle_rank x y : number x -> number y -> dle x y = (rank x <=? rank y).
Proof. intros. unfold dle, SFleb, Z.leb. rewrite rank_compare by done. destruct (_ ?= _); reflexivity. Qed.
Lemma deq_rank x y : number x -> number y -> deq x y = (rank x =? rank y).
Proof.
  intros. unfold deq, SFeqb. rewrite rank_compare by done.
  destruct (Z.compare_spec (rank x) (rank y)); symmetry; lia.
Qed.

Lemma finite_rank x : finite x -> rank (dopp DBL_MAX) <= rank x <= rank DBL_MAX.
Proof.
  intros [Hx Hi]. change (rank (dopp DBL_MAX)) with (- (rank DBL_MAX)).
  change (rank DBL_MAX) with (2046 * 2 ^ 53 + (2 ^ 53 - 1)).
  destruct x as [s|s| |s m e]; try (cbn; lia); [discriminate|].
  pose proof (number_bounds _ _ _ Hx). cbn [rank]. unfold magnitude. destruct s; nia.
Qed.

Lemma number_DBL_MAX : number DBL_MAX /\ number (dopp DBL_MAX).
Proof. repeat split; try reflexivity; discriminate. Qed.
Lemma finite_number x : finite x -> number x.
Proof. intros [H _]. exact H. Qed.
#[export] Hint Resolve finite_number : core.


(** ** Integers as doubles *)

Lemma digits2_pos_low m : 2 ^ (Zpos (digits2_pos m) - 1) <= Zpos m.
Proof.
  induction m as [m IH|m IH|]; cbn [digits2_pos]; [..|cbn; lia];
    rewrite Pos2Z.inj_succ; replace (Z.succ (Zpos (digits2_pos m)) - 1) with (Z.succ (Zpos (digits2_pos m) - 1)) by lia;
    rewrite Z.pow_succ_r by lia; lia.
Qed.
Lemma iter_xO m k : Zpos (Pos.iter xO m k) = Zpos m * 2 ^ Zpos k.
Proof.
  revert m. induction k as [|k IH] using Pos.peano_ind; intros m; [cbn; lia|].
  rewrite Pos.iter_succ, Pos2Z.inj_succ, Z.pow_succ_r by lia. rewrite Pos2Z.inj_xO, IH. lia.
Qed.
Lemma digits2_iter_xO m k : digits2_pos (Pos.iter xO m k) = (digits2_pos m + k)%positive.
Proof.
  induction k as [|k IH] using Pos.peano_ind; [cbn; lia|]. rewrite Pos.iter_succ. cbn [digits2_pos]. lia.
Qed.

(** The integer [m] shifted to 53 bits. *)
Lemma of_Z_pos m :
  Zpos m < 2 ^ 53 ->
  exists m' e, of_Z (Zpos m) = S754_finite false m' e /\ e = Zpos (digits2_pos m) - 53 /\
    Zpos m' = Zpos m * 2 ^ (53 - Zpos (digits2_pos m)) /\ Zpos (digits2_pos m') = 53.
Proof.
  intros Hm. set (d := digits2_pos m). pose proof (digits2_pos_low m) as Hlow. fold d in Hlow.
  assert (Hd : Zpos d <= 53).
  { apply Z.nlt_ge. intros Hd. assert (2 ^ 53 <= 2 ^ (Zpos d - 1)) by (apply Z.pow_le_mono_r; lia). lia. }
  assert (Hfe : fexp 53 1024 (Zpos d + 0) = Zpos d - 53) by (unfold fexp, emin; lia).
  assert (Hal : exists m', shl_align m 0 (Zpos d - 53) = (m', Zpos d - 53) /\
            Zpos m' = Zpos m * 2 ^ (53 - Zpos d) /\ Zpos (digits2_pos m') = 53).
  { unfold shl_align. destruct (Zpos d - 53 - 0) as [|q|q] eqn:Eq; [|lia|].
    - exists m. replace (Zpos d) with 53 by lia. fold d. split_and!; [done|cbn; lia|lia].
    - exists (Pos.iter xO m q). rewrite iter_xO, digits2_iter_xO. fold d. split_and!; [done| |lia].
      do 2 f_equal. lia. }
  destruct Hal as (m' & Ha & Hm' & Hd'). exists m', (Zpos d - 53). split_and!; [|done|done|done].
  assert (Hshr : shr_fexp 53 1024 (Zpos m') (Zpos d - 53) loc_Exact =
                 ({| shr_m := Zpos m'; shr_r := false; shr_s := false |}, Zpos d - 53)).
  { unfold shr_fexp, Zdigits2. rewrite Hd'. unfold fexp, emin.
    replace (Z.max (53 + (Zpos d - 53) - 53) (3 - 1024 - 53) - (Zpos d - 53)) with 0 by lia. done. }
  unfold of_Z, binary_normalize, binary_round. fold d. rewrite Hfe, Ha. unfold binary_round_aux. rewrite Hshr.
  cbn [shr_m loc_of_shr_record round_nearest_even]. rewrite Hshr. cbn [shr_m].
  destruct (Z.leb_spec (Zpos d - 53) (1024 - 53)); [done|lia].
Qed.
Lemma of_Z_number z : 0 <= z < 2 ^ 53 -> number (of_Z z).
Proof.
  intros Hz. destruct z as [|m|m]; [by split|..|lia].
  destruct (of_Z_pos m) as (m' & e & -> & -> & _ & Hd); [lia|]. split; [|done].
  pose proof (digits2_pos_low m) as Hlow. cbn. unfold bounded, canonical_mantissa. rewrite Hd. unfold fexp, emin.
  apply andb_true_intro. split; [apply Z.eqb_eq; lia|]. apply Z.leb_le.
  assert (Zpos (digits2_pos m) <= 53); [|lia].
  apply Z.nlt_ge. intros Hc. assert (2 ^ 53 <= 2 ^ (Zpos (digits2_pos m) - 1)) by (apply Z.pow_le_mono_r; lia). lia.
Qed.

(** Conversion keeps the order of the integers below 2^53. *)
Lemma of_Z_rank_lt a b : 0 <= a -> a < b < 2 ^ 53 -> rank (of_Z a) < rank (of_Z b).
Proof.
  intros Ha Hb. destruct b as [|n|n]; [lia| |lia]. destruct (of_Z_pos n) as (n' & f & Hn & Hf & Hn' & Hdn); [lia|].
  pose proof (of_Z_number (Zpos n) ltac:(lia)) as Nn. rewrite Hn in *.
  destruct a as [|m|m]; [|..|lia].
  { pose proof (magnitude_bounds _ _ _ Nn). cbn [rank]. change (rank (of_Z 0)) with 0. lia. }
  destruct (of_Z_pos m) as (m' & e & Hm & He & Hm' & Hdm); [lia|].
  pose proof (of_Z_number (Zpos m) ltac:(lia)) as Nm. rewrite Hm in *. cbn [rank]. unfold magnitude.
  pose proof (number_bounds _ _ _ Nm) as [Bm _]. pose proof (number_bounds _ _ _ Nn) as [Bn _].
  pose proof (digits2_pos_low n) as Ln. pose proof (digits2_pos_bound m) as Um.
  pose proof (digits2_pos_low m) as Lm. pose proof (digits2_pos_bound n) as Un.
  destruct (Z.lt_trichotomy (Zpos (digits2_pos m)) (Zpos (digits2_pos n))) as [Hd|[Hd|Hd]].
  - assert (e < f) by lia. nia.
  - rewrite Hm', Hn', He, Hf, Hd. assert (0 < 2 ^ (53 - Zpos (digits2_pos n))); [|nia].
    apply Z.pow_pos_nonneg; [lia|]. subst f. pose proof (proj1 Nn). cbn in *.
    apply Z.nlt_ge. intros Hc. assert (2 ^ 53 <= 2 ^ (Zpos (digits2_pos n) - 1)) by (apply Z.pow_le_mono_r; lia). lia.
  - exfalso. assert (2 ^ Zpos (digits2_pos n) <= 2 ^ (Zpos (digits2_pos m) - 1)) by (apply Z.pow_le_mono_r; lia). lia.
Qed.
Lemma of_Z_eq a b : 0 <= a < 2 ^ 53 -> 0 <= b < 2 ^ 53 -> deq (of_Z a) (of_Z b) = (a =? b).
Proof.
  intros Ha Hb. rewrite deq_rank by (by apply of_Z_number).
  destruct (Z.lt_trichotomy a b) as [H|[->|H]]; [pose proof (of_Z_rank_lt a b)|by rewrite !Z.eqb_refl|pose proof (of_Z_rank_lt b a)]; lia.
Qed.

(** A number divided by itself. *)
Lemma ddiv_self n : 0 < n < 2 ^ 53 -> ddiv (of_Z n) (of_Z n) = of_Z 1.
Proof.
  intros Hn. destruct n as [|m|]; [lia| |lia]. destruct (of_Z_pos m) as (m' & e & -> & _ & _ & Hd); [lia|].
  unfold ddiv, SFdiv. cbn [xorb]. unfold SFdiv_core_binary, Zdigits2. rewrite Hd.
  replace (fexp 53 1024 (53 + e - (53 + e))) with (-53) by (unfold fexp, emin; lia).
  cbv zeta. rewrite Z.sub_diag. change (0 - Z.min (-53) 0) with 53. cbv beta iota. change (Z.min (-53) 0) with (-53).
  pose proof (Z_div_mod (Z.shiftl (Zpos m') 53) (Zpos m') ltac:(lia)) as H.
  change (IntDef.Z.div_eucl) with Z.div_eucl.
  destruct (Z.div_eucl _ _) as [q r].
  rewrite Z.shiftl_mul_pow2 in H by lia. destruct H as [H Hr].
  assert (q = 2 ^ 53) as -> by nia. assert (r = 0) as -> by nia.
  assert (new_location (Zpos m') 0 = loc_Exact) as ->; [|reflexivity].
  unfold new_location. destruct (Z.even (Zpos m')); reflexivity.
Qed.
