(* ===== verification/Mbr.v ===== *)
(** Minimum bounding rectangles and the bounds checks of geometry data: [MBR],
    [Geometry] and [Gis_point] of [mariadb/include/mysql/server/private/spatial.h].

    [MBR::within] is declared only and is a parameter. *)

From Stdlib Require Import SpecFloat.
From S2P Require Import Prelude Doubles.

(** ** Rectangles *)

Definition M_PI : double := S754_finite false 7074237752028440 (-51).
Definition d180 : double := S754_finite false 6333186975989760 (-45).

(** [MY_MAX] and [MY_MIN] of my_global.h. *)
Definition MY_MAX (a b : double) : double := if dlt b a then a else b.
Definition MY_MIN (a b : double) : double := if dlt a b then a else b.

Record st_point_2d := Point { px : double; py : double }.
Record MBR := MkMBR { xmin : double; ymin : double; xmax : double; ymax : double }.

Definition mbr_empty : MBR := MkMBR DBL_MAX DBL_MAX (dopp DBL_MAX) (dopp DBL_MAX).
Definition mbr_of_points (min max : st_point_2d) : MBR := MkMBR (px min) (py min) (px max) (py max).

Definition add_xy (x y : double) (b : MBR) : MBR :=
  let b := if dlt x (xmin b) then MkMBR x (ymin b) (xmax b) (ymax b) else b in
  let b := if dlt (xmax b) x then MkMBR (xmin b) (ymin b) x (ymax b) else b in
  let b := if dlt y (ymin b) then MkMBR (xmin b) y (xmax b) (ymax b) else b in
  if dlt (ymax b) y then MkMBR (xmin b) (ymin b) (xmax b) y else b.
Definition add_mbr (mbr b : MBR) : MBR :=
  let b := if dlt (xmin mbr) (xmin b) then MkMBR (xmin mbr) (ymin b) (xmax b) (ymax b) else b in
  let b := if dlt (xmax b) (xmax mbr) then MkMBR (xmin b) (ymin b) (xmax mbr) (ymax b) else b in
  let b := if dlt (ymin mbr) (ymin b) then MkMBR (xmin b) (ymin mbr) (xmax b) (ymax b) else b in
  if dlt (ymax b) (ymax mbr) then MkMBR (xmin b) (ymin b) (xmax b) (ymax mbr) else b.
Definition mbr_union (mbr1 mbr2 : MBR) : MBR := add_mbr mbr2 mbr1.
Definition buffer (d : double) (b : MBR) : MBR :=
  MkMBR (dsub (xmin b) d) (dsub (ymin b) d) (dadd (xmax b) d) (dadd (ymax b) d).

Definition equals (b mbr : MBR) : bool :=
  deq (xmin mbr) (xmin b) && deq (ymin mbr) (ymin b) && deq (xmax mbr) (xmax b) && deq (ymax mbr) (ymax b).
Definition disjoint (b mbr : MBR) : bool :=
  dlt (xmax b) (xmin mbr) || dlt (ymax b) (ymin mbr) || dlt (xmax mbr) (xmin b) || dlt (ymax mbr) (ymin b).
Definition intersects (b mbr : MBR) : bool := negb (disjoint b mbr).
Definition touches (b mbr : MBR) : bool :=
  ((deq (xmin mbr) (xmax b) || deq (xmax mbr) (xmin b)) &&
   ((dle (ymin b) (ymin mbr) && dle (ymin mbr) (ymax b)) ||
    (dle (ymin b) (ymax mbr) && dle (ymax mbr) (ymax b)))) ||
  ((deq (ymin mbr) (ymax b) || deq (ymax mbr) (ymin b)) &&
   ((dle (xmin b) (xmin mbr) && dle (xmin mbr) (xmax b)) ||
    (dle (xmin b) (xmax mbr) && dle (xmax mbr) (xmax b)))).
Definition contains (b mbr : MBR) : bool :=
  dle (xmin b) (xmin mbr) && dle (ymin b) (ymin mbr) && dle (xmax mbr) (xmax b) && dle (ymax mbr) (ymax b).
Definition inner_point (x y : double) (b : MBR) : bool :=
  dlt (xmin b) x && dlt x (xmax b) && dlt (ymin b) y && dlt y (ymax b).
Definition dimension (b : MBR) : Z :=
  if dlt (xmax b) (xmin b) then -1 else
  let d := if dlt (xmin b) (xmax b) then 1 else 0 in
  if dlt (ymax b) (ymin b) then -1 else
  if dlt (ymin b) (ymax b) then d + 1 else d.
Definition valid (b : MBR) : bool := dle (xmin b) (xmax b) && dle (ymin b) (ymax b).

Section Overlaps.
Variable within : MBR -> MBR -> bool.

Definition overlaps (b mbr : MBR) : bool :=
  let d := dimension b in
  if negb (d =? dimension mbr) || (d <=? 0) || contains b mbr || within b mbr then false else
  let intersection := MkMBR (MY_MAX (xmin b) (xmin mbr)) (MY_MAX (ymin b) (ymin mbr))
                            (MY_MIN (xmax b) (xmax mbr)) (MY_MIN (ymax b) (ymax mbr)) in
  d =? dimension intersection.
End Overlaps.

(** ** Geometry data *)

Definition SRID_SIZE : Z := 4.
Definition SIZEOF_STORED_DOUBLE : Z := 8.
Definition POINT_DATA_SIZE : Z := SIZEOF_STORED_DOUBLE * 2.
Definition WKB_HEADER_SIZE : Z := 1 + 4.

Inductive wkbType := wkb_point | wkb_linestring | wkb_polygon | wkb_multipoint | wkb_multilinestring
  | wkb_multipolygon | wkb_geometrycollection.
Definition wkb_number (t : wkbType) : Z :=
  match t with
  | wkb_point => 1 | wkb_linestring => 2 | wkb_polygon => 3 | wkb_multipoint => 4
  | wkb_multilinestring => 5 | wkb_multipolygon => 6 | wkb_geometrycollection => 7
  end.

(** The two pointers of [Geometry], as 64-bit addresses. *)
Record Geometry := MkGeometry { m_data : Z; m_data_end : Z }.

Definition set_data_ptr (data data_len : Z) : Geometry := MkGeometry data (u64 (data + data_len)).
Definition shift_wkb_header (g : Geometry) : Geometry := MkGeometry (u64 (m_data g + WKB_HEADER_SIZE)) (m_data_end g).
Definition no_data (g : Geometry) (cur_data data_amount : Z) : bool := m_data_end g <? u64 (cur_data + data_amount).
(** [None]: the division by zero. *)
Definition not_enough_points (g : Geometry) (data expected_points extra_point_space : Z) : option bool :=
  if m_data_end g <? data then Some true else
  let size := u32 (POINT_DATA_SIZE + extra_point_space) in
  if size =? 0 then None else Some (Z.quot (m_data_end g - data) size <? expected_points).

(** The entry of the class table. *)
Definition find_class {A} (ci_collection : Z -> option A) (type_id : Z) : option A :=
  if (type_id <? wkb_number wkb_point) || (wkb_number wkb_geometrycollection <? type_id) then None
  else ci_collection type_id.

(** A stored double: eight bytes, the lowest first. *)
Definition double_of_bits (b : Z) : double :=
  let s := Z.testbit b 63 in
  let e := Z.land (Z.shiftr b 52) 2047 in
  let m := Z.land b (2 ^ 52 - 1) in
  if e =? 2047 then (if m =? 0 then S754_infinity s else S754_nan)
  else if e =? 0 then match m with Zpos p => S754_finite s p (-1074) | _ => S754_zero s end
  else match m + 2 ^ 52 with Zpos p => S754_finite s p (e - 1075) | _ => S754_nan end.
Definition float8get (mem : Z -> Z) (a : Z) : double := double_of_bits (from_digits 8 (mem <$> seqZ a 8)).

(** [None] is the result 1 (too little data). *)
Definition get_xy (mem : Z -> Z) (g : Geometry) : option (double * double) :=
  let data := m_data g in
  if no_data g data (SIZEOF_STORED_DOUBLE * 2) then None
  else Some (float8get mem data, float8get mem (data + SIZEOF_STORED_DOUBLE)).
Definition get_xy_radian (mem : Z -> Z) (g : Geometry) : option (double * double) :=
  '(x, y) ← get_xy mem g; Some (ddiv (dmul x M_PI) d180, ddiv (dmul y M_PI) d180).
Definition get_x (mem : Z -> Z) (g : Geometry) : option double :=
  if no_data g (m_data g) SIZEOF_STORED_DOUBLE then None else Some (float8get mem (m_data g)).
Definition get_y (mem : Z -> Z) (g : Geometry) : option double :=
  let data := m_data g in
  if no_data g data (SIZEOF_STORED_DOUBLE * 2) then None else Some (float8get mem (data + SIZEOF_STORED_DOUBLE)).
Definition add_xy_bytes (mem : Z -> Z) (x y : Z) (b : MBR) : MBR := add_xy (float8get mem x) (float8get mem y) b.

(** ** Rectangles as sets of points *)

Definition number_box (b : MBR) : Prop := number (xmin b) /\ number (ymin b) /\ number (xmax b) /\ number (ymax b).
Definition valid_box (b : MBR) : Prop := number_box b /\ valid b = true.
Definition number_point (p : st_point_2d) : Prop := number (px p) /\ number (py p).
Definition finite_point (p : st_point_2d) : Prop := finite (px p) /\ finite (py p).

(** The point lies in the rectangle, its border included. *)
Definition inside (p : st_point_2d) (b : MBR) : Prop :=
  dle (xmin b) (px p) = true /\ dle (px p) (xmax b) = true /\
  dle (ymin b) (py p) = true /\ dle (py p) (ymax b) = true.

Definition bounding (ps : list st_point_2d) : MBR := foldl (fun b p => add_xy (px p) (py p) b) mbr_empty ps.

(** Comparisons between numbers in scope become comparisons of ranks. *)
Ltac ranks :=
  unfold number_point, number_box in *; destruct_and?; cbn [xmin ymin xmax ymax px py] in *;
  repeat first [rewrite dlt_rank in * by assumption | rewrite dle_rank in * by assumption
               | rewrite deq_rank in * by assumption].

(** The four comparisons of a rectangle, by rank. *)
Lemma contains_rank a b :
  number_box a -> number_box b ->
  contains a b = true <->
  rank (xmin a) <= rank (xmin b) /\ rank (ymin a) <= rank (ymin b) /\
  rank (xmax b) <= rank (xmax a) /\ rank (ymax b) <= rank (ymax a).
Proof. intros. unfold contains. ranks. lia. Qed.
Lemma inside_rank p b :
  number_point p -> number_box b ->
  inside p b <->
  rank (xmin b) <= rank (px p) <= rank (xmax b) /\ rank (ymin b) <= rank (py p) <= rank (ymax b).
Proof. intros. unfold inside. ranks. lia. Qed.

(** [add_mbr] takes the lower of the minima and the higher of the maxima. *)
Lemma add_mbr_rank a b :
  number_box a -> number_box b ->
  number_box (add_mbr a b) /\
  rank (xmin (add_mbr a b)) = rank (xmin a) `min` rank (xmin b) /\
  rank (ymin (add_mbr a b)) = rank (ymin a) `min` rank (ymin b) /\
  rank (xmax (add_mbr a b)) = rank (xmax a) `max` rank (xmax b) /\
  rank (ymax (add_mbr a b)) = rank (ymax a) `max` rank (ymax b).
Proof.
  destruct a as [ax ay aX aY], b as [bx by_ bX bY]. intros Ha Hb. unfold add_mbr. ranks.
  repeat case_match; ranks; unfold number_box; cbn; split_and!; try assumption; lia.
Qed.
Lemma add_xy_as_add_mbr x y b : add_xy x y b = add_mbr (MkMBR x y x y) b.
Proof. destruct b. unfold add_xy, add_mbr. cbn. repeat case_match; reflexivity. Qed.

Lemma bounding_snoc ps p : bounding (ps ++ [p]) = add_mbr (MkMBR (px p) (py p) (px p) (py p)) (bounding ps).
Proof. unfold bounding. rewrite foldl_snoc, add_xy_as_add_mbr. reflexivity. Qed.

Lemma bounding_number ps : Forall finite_point ps -> number_box (bounding ps).
Proof.
  induction ps as [|p ps IH] using rev_ind; intros Hf.
  - pose proof number_DBL_MAX as [? ?]. repeat split; try reflexivity; discriminate.
  - apply Forall_app in Hf as [Hf [[Hx Hy] _]%Forall_cons]. rewrite bounding_snoc.
    apply add_mbr_rank; [repeat split; first [apply Hx | apply Hy] | auto].
Qed.

(** Every side of [bounding] is that of one of the points. *)
Lemma bounding_sides ps (c : MBR) :
  Forall finite_point ps -> ps <> [] ->
  (forall p, p ∈ ps -> rank (xmin c) <= rank (px p) <= rank (xmax c) /\ rank (ymin c) <= rank (py p) <= rank (ymax c)) ->
  rank (xmin c) <= rank (xmin (bounding ps)) /\ rank (ymin c) <= rank (ymin (bounding ps)) /\
  rank (xmax (bounding ps)) <= rank (xmax c) /\ rank (ymax (bounding ps)) <= rank (ymax c).
Proof.
  induction ps as [|p ps IH] using rev_ind; intros Hf Hne Hc; [done|].
  apply Forall_app in Hf as [Hf [[Hx Hy] _]%Forall_cons].
  pose proof (finite_rank _ Hx). pose proof (finite_rank _ Hy).
  assert (Hp : number_box (MkMBR (px p) (py p) (px p) (py p))) by (repeat split; first [apply Hx | apply Hy]).
  pose proof (Hc p ltac:(set_solver)) as Hcp.
  rewrite bounding_snoc. destruct (add_mbr_rank _ _ Hp (bounding_number _ Hf)) as (_ & -> & -> & -> & ->).
  cbn [xmin ymin xmax ymax]. destruct (decide (ps = [])) as [->|Hps].
  - unfold bounding. cbn [foldl mbr_empty xmin ymin xmax ymax]. lia.
  - destruct IH as (? & ? & ? & ?); [done..|set_solver|lia].
Qed.
Lemma bounding_covers ps p :
  Forall finite_point ps -> p ∈ ps ->
  rank (xmin (bounding ps)) <= rank (px p) <= rank (xmax (bounding ps)) /\
  rank (ymin (bounding ps)) <= rank (py p) <= rank (ymax (bounding ps)).
Proof.
  induction ps as [|q ps IH] using rev_ind; intros Hf Hp; [set_solver|].
  apply Forall_app in Hf as [Hf [[Hx Hy] _]%Forall_cons].
  assert (Hq : number_box (MkMBR (px q) (py q) (px q) (py q))) by (repeat split; first [apply Hx | apply Hy]).
  rewrite bounding_snoc. destruct (add_mbr_rank _ _ Hq (bounding_number _ Hf)) as (_ & -> & -> & -> & ->).
  cbn [xmin ymin xmax ymax]. apply elem_of_app in Hp as [Hp| ->%list_elem_of_singleton]; [|lia].
  specialize (IH Hf Hp). lia.
Qed.

(** Adding the points of a non-empty list one after the other to the empty
    rectangle gives the least rectangle that holds them, whatever their order: it
    is valid, every point lies in it, and a rectangle of numbers in which every
    point lies contains it.  The points' coordinates are finite: the empty
    rectangle starts from the largest finite double. *)
Lemma mbr_cover (ps : list st_point_2d) :
  Forall finite_point ps -> ps <> [] ->
  valid_box (bounding ps) /\
  (forall p, p ∈ ps -> inside p (bounding ps)) /\
  (forall c, number_box c -> (forall p, p ∈ ps -> inside p c) -> contains c (bounding ps) = true) /\
  (forall qs, qs ≡ₚ ps -> equals (bounding qs) (bounding ps) = true).
Proof.
  intros Hf Hne. pose proof (bounding_number _ Hf) as Hb.
  assert (Hnum : forall p, p ∈ ps -> number_point p)
    by (intros p Hp; rewrite Forall_forall in Hf; destruct (Hf _ Hp); split; auto).
  split_and!.
  - split; [exact Hb|]. destruct ps as [|p ps]; [done|].
    pose proof (bounding_covers _ p Hf ltac:(set_solver)). unfold valid. ranks. lia.
  - intros p Hp. apply inside_rank; auto using bounding_covers.
  - intros c Hc Hin. apply contains_rank; [done..|]. apply bounding_sides; [done..|].
    intros p Hp. apply inside_rank; auto.
  - intros qs Hqs. assert (Hfq : Forall finite_point qs) by (by rewrite Hqs).
    assert (Hq : qs <> []) by (intros ->; by apply Permutation_nil_l in Hqs).
    pose proof (bounding_number _ Hfq) as Hbq.
    pose proof (bounding_sides qs (bounding ps) Hfq Hq ltac:(intros p Hp; apply bounding_covers; [done|by rewrite <- Hqs])).
    pose proof (bounding_sides ps (bounding qs) Hf Hne ltac:(intros p Hp; apply bounding_covers; [done|by rewrite Hqs])).
    unfold equals. ranks. lia.
Qed.

(** The union of two rectangles of numbers is their least upper bound for
    [contains], and [contains] is a preorder whose equivalence is [equals]. *)
Lemma mbr_union_least (a b c : MBR) :
  number_box a -> number_box b -> number_box c ->
  number_box (mbr_union a b) /\
  contains (mbr_union a b) a = true /\ contains (mbr_union a b) b = true /\
  contains c (mbr_union a b) = contains c a && contains c b /\
  equals (mbr_union a b) (mbr_union b a) = true /\
  equals a b = contains a b && contains b a /\
  (contains a b = true -> contains b c = true -> contains a c = true).
Proof.
  intros Ha Hb Hc. unfold mbr_union.
  destruct (add_mbr_rank b a Hb Ha) as (Hu & E1 & E2 & E3 & E4).
  destruct (add_mbr_rank a b Ha Hb) as (Hv & F1 & F2 & F3 & F4).
  split_and!; [exact Hu|unfold contains, equals; ranks..]; try lia.
Qed.

Lemma dmax_number x y : number x -> number y -> number (MY_MAX x y) /\ rank (MY_MAX x y) = rank x `max` rank y.
Proof. intros. unfold MY_MAX. rewrite dlt_rank by done. case_match; split; try done; lia. Qed.
Lemma dmin_number x y : number x -> number y -> number (MY_MIN x y) /\ rank (MY_MIN x y) = rank x `min` rank y.
Proof. intros. unfold MY_MIN. rewrite dlt_rank by done. case_match; split; try done; lia. Qed.

Lemma valid_box_rank b : valid_box b -> number_box b /\ rank (xmin b) <= rank (xmax b) /\ rank (ymin b) <= rank (ymax b).
Proof. intros [Hn Hv]. unfold valid in Hv. split; [done|]. ranks. lia. Qed.

(** On valid rectangles of numbers the comparisons are the relations
    between the sets of points: [intersects] holds exactly when some point lies in
    both, [contains] is inclusion and [equals] equality of the two sets;
    [disjoint] and [intersects] are symmetric, and a point strictly inside
    ([inner_point]) lies inside. *)
Lemma mbr_relations (a b : MBR) :
  valid_box a -> valid_box b ->
  (intersects a b = true <-> exists p, number_point p /\ inside p a /\ inside p b) /\
  (contains a b = true <-> forall p, number_point p -> inside p b -> inside p a) /\
  (equals a b = true <-> forall p, number_point p -> inside p a <-> inside p b) /\
  intersects a b = intersects b a /\
  (forall p, number_point p -> inner_point (px p) (py p) a = true -> inside p a).
Proof.
  intros (Ha & Hax & Hay)%valid_box_rank (Hb & Hbx & Hby)%valid_box_rank.
  set (lo b := Point (xmin b) (ymin b)). set (hi b := Point (xmax b) (ymax b)).
  assert (Hlo : forall c, number_box c -> number_point (lo c)) by (intros c Hc; split; apply Hc).
  assert (Hhi : forall c, number_box c -> number_point (hi c)) by (intros c Hc; split; apply Hc).
  assert (Hall : forall c d, number_box c -> number_box d ->
            (forall p, number_point p -> inside p d -> inside p c) ->
            rank (xmin d) <= rank (xmax d) -> rank (ymin d) <= rank (ymax d) -> contains c d = true).
  { intros c d Hc Hd Hi ? ?. apply contains_rank; [done..|].
    pose proof (Hi (lo d) (Hlo _ Hd)) as H1. pose proof (Hi (hi d) (Hhi _ Hd)) as H2.
    rewrite !inside_rank in H1, H2 by auto. cbn in H1, H2. lia. }
  assert (Hback : forall c d, number_box c -> number_box d -> contains c d = true ->
            forall p, number_point p -> inside p d -> inside p c).
  { intros c d Hc Hd Hcd p Hp. rewrite !inside_rank by done. apply contains_rank in Hcd; [|done..]. lia. }
  assert (Heq : equals a b = contains a b && contains b a) by (unfold equals, contains; ranks; lia).
  split_and!.
  - unfold intersects, disjoint. split.
    + intros Hi.
      pose proof Ha as (? & ? & ? & ?). pose proof Hb as (? & ? & ? & ?).
      destruct (dmax_number (xmin a) (xmin b)) as [Nx Rx]; [done..|].
      destruct (dmax_number (ymin a) (ymin b)) as [Ny Ry]; [done..|].
      exists (Point (MY_MAX (xmin a) (xmin b)) (MY_MAX (ymin a) (ymin b))).
      split; [done|]. rewrite !inside_rank by done. cbn [px py]. rewrite Rx, Ry. ranks. lia.
    + intros (p & Hp & Hpa & Hpb). rewrite inside_rank in Hpa, Hpb by done. ranks. lia.
  - split; [by apply Hback|]. intros Hi. by apply Hall.
  - rewrite Heq. split.
    + intros [H1 H2]%andb_prop p Hp. split; [by apply Hback|by apply Hback].
    + intros Hi. apply andb_true_intro. split; apply Hall; try done; intros p Hp; by apply Hi.
  - unfold intersects, disjoint. ranks. lia.
  - intros p Hp Hin. unfold inner_point in Hin. apply inside_rank; [done..|]. ranks. lia.
Qed.

Lemma dimension_two b :
  number_box b -> (dimension b =? 2) = (rank (xmin b) <? rank (xmax b)) && (rank (ymin b) <? rank (ymax b)).
Proof. intros Hn. unfold dimension. ranks. repeat case_match; lia. Qed.

Definition common (a b : MBR) : MBR :=
  MkMBR (MY_MAX (xmin a) (xmin b)) (MY_MAX (ymin a) (ymin b)) (MY_MIN (xmax a) (xmax b)) (MY_MIN (ymax a) (ymax b)).

(** The common part of two rectangles is plane when both intervals of it are more than a point. *)
Lemma common_plane a b :
  number_box a -> number_box b ->
  (dimension (common a b) =? 2) =
    (rank (xmin a) `max` rank (xmin b) <? rank (xmax a) `min` rank (xmax b)) &&
    (rank (ymin a) `max` rank (ymin b) <? rank (ymax a) `min` rank (ymax b)).
Proof.
  intros (? & ? & ? & ?) (? & ? & ? & ?).
  destruct (dmax_number (xmin a) (xmin b)) as [N1 R1]; [done..|].
  destruct (dmax_number (ymin a) (ymin b)) as [N2 R2]; [done..|].
  destruct (dmin_number (xmax a) (xmax b)) as [N3 R3]; [done..|].
  destruct (dmin_number (ymax a) (ymax b)) as [N4 R4]; [done..|].
  rewrite dimension_two by done. cbn [common xmin ymin xmax ymax]. by rewrite R1, R2, R3, R4.
Qed.
Lemma plane_rank b :
  number_box b -> dimension b = 2 -> rank (xmin b) < rank (xmax b) /\ rank (ymin b) < rank (ymax b).
Proof. intros Hn Hd. pose proof (dimension_two b Hn). lia. Qed.
Lemma overlaps_plane within a b :
  (forall c d, within c d = contains d c) ->
  dimension a = 2 -> dimension b = 2 ->
  overlaps within a b = negb (contains a b) && negb (contains b a) && (dimension (common a b) =? 2).
Proof.
  intros Hw Ha Hb. unfold overlaps. rewrite Ha, Hb, Hw. cbn [negb Z.eqb Pos.eqb orb Z.leb Z.compare].
  destruct (contains a b), (contains b a); try reflexivity. cbn. by rewrite Z.eqb_sym.
Qed.

(** Two proper intervals on a line: they meet at an end when their common part is a
    point, and an end of one lies in the other when the common part is not empty. *)
Lemma interval_touch a0 a1 b0 b1 :
  a0 < a1 -> b0 < b1 -> (b0 =? a1) || (b1 =? a0) = (a0 `max` b0 =? a1 `min` b1).
Proof. lia. Qed.
Lemma interval_meet a0 a1 b0 b1 :
  a0 < a1 -> b0 < b1 ->
  ((a0 <=? b0) && (b0 <=? a1) || (a0 <=? b1) && (b1 <=? a1)) ||
  ((b0 <=? a0) && (a0 <=? b1) || (b0 <=? a1) && (a1 <=? b1)) = (a0 `max` b0 <=? a1 `min` b1).
Proof. lia. Qed.

(** The common part, by rank. *)
Notation lowx a b := (rank (xmin a) `max` rank (xmin b)).
Notation highx a b := (rank (xmax a) `min` rank (xmax b)).
Notation lowy a b := (rank (ymin a) `max` rank (ymin b)).
Notation highy a b := (rank (ymax a) `min` rank (ymax b)).

Lemma touching_rank a b :
  number_box a -> number_box b -> dimension a = 2 -> dimension b = 2 ->
  touches a b || touches b a =
    (lowx a b =? highx a b) && (lowy a b <=? highy a b) || (lowy a b =? highy a b) && (lowx a b <=? highx a b).
Proof.
  intros Ha Hb Da Db. apply plane_rank in Da as [Hax Hay], Db as [Hbx Hby]; [|done..].
  rewrite <- !interval_touch, <- !interval_meet by assumption.
  unfold touches. ranks. rewrite (Z.eqb_sym (rank (xmin a))), (Z.eqb_sym (rank (xmax a))),
    (Z.eqb_sym (rank (ymin a))), (Z.eqb_sym (rank (ymax a))). btauto.
Qed.
Lemma disjoint_rank a b :
  valid_box a -> valid_box b -> disjoint a b = (highx a b <? lowx a b) || (highy a b <? lowy a b).
Proof.
  intros (Ha & ? & ?)%valid_box_rank (Hb & ? & ?)%valid_box_rank. unfold disjoint. ranks. lia.
Qed.
Lemma nested_common a b :
  number_box a -> number_box b -> dimension a = 2 -> dimension b = 2 ->
  contains a b = true -> lowx a b < highx a b /\ lowy a b < highy a b.
Proof.
  intros Ha Hb Da Db Hc. apply contains_rank in Hc; [|done..].
  apply plane_rank in Da, Db; [|done..]. lia.
Qed.
Lemma plane_valid b : number_box b -> dimension b = 2 -> valid_box b.
Proof. intros Hn Hd. pose proof (plane_rank b Hn Hd). split; [done|]. unfold valid. ranks. lia. Qed.

(** C30 : the relations classify two plane rectangles (both of dimension 2): they
    are disjoint, or one of them touches the other (their borders meet and no
    point is strictly inside both), or one contains the other, or they overlap,
    and only one of these four holds.  [within] is [contains] with the operands
    exchanged. *)
Theorem mbr_classification (within : MBR -> MBR -> bool) (a b : MBR) :
  (forall c d, within c d = contains d c) ->
  number_box a -> number_box b -> dimension a = 2 -> dimension b = 2 ->
  let touching := touches a b || touches b a in
  let nested := contains a b || contains b a in
  let overlapping := overlaps within a b in
  disjoint a b = negb (touching || nested || overlapping) /\
  touching && nested = false /\ touching && overlapping = false /\ nested && overlapping = false /\
  overlapping = overlaps within b a /\
  (touching = true -> forall p, number_point p -> inner_point (px p) (py p) a && inner_point (px p) (py p) b = false).
Proof.
  intros Hw Ha Hb Da Db. cbv zeta.
  rewrite !overlaps_plane, !common_plane, touching_rank, disjoint_rank by auto using plane_valid.
  pose proof (nested_common a b Ha Hb Da Db) as Hn1. pose proof (nested_common b a Hb Ha Db Da) as Hn2.
  destruct (contains a b), (contains b a); cbn [orb andb negb];
    try destruct (Hn1 eq_refl); try destruct (Hn2 eq_refl); clear Hn1 Hn2.
  all: split_and!; try lia.
  all: intros Ht p Hp; apply not_true_iff_false; intros Hi; unfold inner_point in Hi; ranks; lia.
Qed.

(** [touches] tests only whether the other rectangle's ends lie on this one's side,
    so that it depends on which of the two is asked. *)
Lemma touches_asymmetric :
  let n (m : positive) (e : Z) := S754_finite false m e in
  let one := n 4503599627370496%positive (-52) in
  let two := n 4503599627370496%positive (-51) in
  let a := MkMBR (S754_zero false) (S754_zero false) one one in
  let b := MkMBR one (dopp one) two two in
  valid_box a /\ valid_box b /\ touches a b = false /\ touches b a = true.
Proof. repeat split; try reflexivity; discriminate. Qed.

(** ** Geometry data *)

(** The bounds checks of geometry data are exact.  For a value of [data_len]
    bytes, [get_xy] gives a point exactly when 16 bytes are there, reads only those
    16 bytes, and [get_x] and [get_y] agree with it; [not_enough_points] is false
    exactly when [expected] points of 16 bytes and the extra space fit, unless the
    32-bit element size wraps to zero, where it divides by zero. *)
Lemma geometry_bounds (mem mem' : Z -> Z) (data len expected extra : Z) :
  0 <= data -> 0 <= len -> data + len + 16 < 2 ^ 64 -> in_u 32 expected -> in_u 32 extra ->
  let g := set_data_ptr data len in
  (is_Some (get_xy mem g) <-> 16 <= len) /\
  ((forall a, data <= a < data + 16 -> mem a = mem' a) -> get_xy mem g = get_xy mem' g) /\
  (forall x y, get_xy mem g = Some (x, y) -> get_x mem g = Some x /\ get_y mem g = Some y) /\
  (extra < 2 ^ 32 - 16 ->
   not_enough_points g data expected extra = Some (negb (expected * (16 + extra) <=? len))) /\
  not_enough_points g data expected (2 ^ 32 - 16) = None.
Proof.
  intros Hd Hl Hs He Hx g.
  assert (Hend : m_data_end g = data + len) by (apply Z.mod_small; lia).
  assert (Hno : forall k, 0 <= k <= 16 -> no_data g (m_data g) k = (len <? k)).
  { intros k Hk. unfold no_data. rewrite Hend. cbn [g set_data_ptr m_data]. unfold wrapU.
    rewrite Z.mod_small by lia. lia. }
  unfold get_xy, get_x, get_y. change (SIZEOF_STORED_DOUBLE * 2) with 16. change SIZEOF_STORED_DOUBLE with 8.
  rewrite !Hno by lia. split_and!.
  - destruct (Z.ltb_spec len 16); split; intros Hq; try lia; try eauto. by destruct Hq.
  - intros Hm. case_match; [done|]. unfold float8get.
    assert (Hf : forall b, data <= b -> b + 8 <= data + 16 -> mem <$> seqZ b 8 = mem' <$> seqZ b 8).
    { intros b ? ?. apply list_fmap_ext. intros i a [-> ?]%lookup_seqZ. apply Hm. lia. }
    rewrite !Hf by (cbn [g set_data_ptr m_data]; lia). reflexivity.
  - intros x y. destruct (Z.ltb_spec len 16); [done|]. intros [= <- <-].
    destruct (Z.ltb_spec len 8); [lia|done].
  - intros Hx'. unfold not_enough_points. rewrite Hend. unfold in_u in *.
    destruct (Z.ltb_spec (data + len) data); [lia|]. change POINT_DATA_SIZE with 16.
    unfold wrapU at 1 2. rewrite !Z.mod_small by lia.
    destruct (Z.eqb_spec (16 + extra) 0); [lia|]. f_equal. replace (data + len - data) with len by lia.
    rewrite Z.quot_div_nonneg by lia.
    apply eq_true_iff_eq. rewrite Z.ltb_lt, negb_true_iff, Z.leb_gt. split; intros Hq.
    + apply Z.nle_gt. intros Hc. apply (Z.div_le_mono _ _ (16 + extra)) in Hc; [|lia].
      rewrite Z.div_mul in Hc by lia. lia.
    + apply Z.div_lt_upper_bound; lia.
  - unfold not_enough_points. rewrite Hend. destruct (Z.ltb_spec (data + len) data); [lia|reflexivity].
Qed.

(** ** Witnesses *)

Definition one : double := S754_finite false 4503599627370496 (-52).
Definition two : double := S754_finite false 4503599627370496 (-51).
Definition three : double := S754_finite false 6755399441055744 (-51).
Definition unit_square : MBR := MkMBR (S754_zero false) (S754_zero false) one one.
Definition wide_square : MBR := MkMBR one (dopp one) three two.

Lemma mbr_classification_witness :
  overlaps (fun c d => contains d c) unit_square wide_square = overlaps (fun c d => contains d c) wide_square unit_square.
Proof.
  apply (mbr_classification (fun c d => contains d c) unit_square wide_square);
    first [reflexivity | repeat split; reflexivity || discriminate].
Defined.
