(* ===== verification/LexStream.v ===== *)
(** The character stream of the lexer: the inline methods of [Lex_input_stream]
    in [mariadb/include/mysql/server/private/sql_lex.h].

    The class keeps the query text (the raw buffer) and a copy of it from which
    comments are filtered out (the pre-processed buffer).  Pointers are offsets
    into their buffer; [None] in the state monad is undefined behaviour: an access
    or a pointer outside the buffer, or a failed assertion. *)

From S2P Require Import Prelude.
Open Scope st_scope.

Inductive enum_comment_state := NO_COMMENT | PRESERVE_COMMENT | DISCARD_COMMENT.

(** A buffer of bytes with the five pointers that the class keeps into it. *)
Record buffer := MkBuffer {
  chars : list Z;
  ptr : Z;
  tok_start : Z;
  tok_start_prev : Z;
  tok_end : Z;
}.

Record Lex_input_stream := MkStream {
  m_raw : buffer;
  m_cpp : buffer;
  m_end_of_query : Z;
  m_echo : bool;
  m_echo_saved : bool;
  in_comment : enum_comment_state;
  in_comment_saved : enum_comment_state;
  lookahead_token : Z;
  m_body_utf8 : list Z;
  m_body_utf8_ptr : Z;
}.

(** *** Buffers *)

Definition read (b : buffer) (i : Z) : option Z := if 0 <=? i then chars b !! Z.to_nat i else None.
Definition set_ptr (p : Z) (b : buffer) : option buffer :=
  if (0 <=? p) && (p <=? Z.of_nat (length (chars b)))
  then Some (MkBuffer (chars b) p (tok_start b) (tok_start_prev b) (tok_end b)) else None.
(** [*i = c]. *)
Definition write (i c : Z) (b : buffer) : option buffer :=
  if (0 <=? i) && (i <? Z.of_nat (length (chars b)))
  then Some (MkBuffer (<[Z.to_nat i := c]> (chars b)) (ptr b) (tok_start b) (tok_start_prev b) (tok_end b)) else None.
(** The [n] bytes from [i] on. *)
Definition slice (b : buffer) (i n : Z) : option (list Z) :=
  if (0 <=? i) && (0 <=? n) && (i + n <=? Z.of_nat (length (chars b)))
  then Some (take (Z.to_nat n) (drop (Z.to_nat i) (chars b))) else None.
(** [memcpy]: the length, an [int], becomes a huge [size_t] when negative. *)
Fixpoint write_all (i : Z) (l : list Z) (b : buffer) : option buffer :=
  match l with
  | [] => Some b
  | c :: l => b ← write i c b; write_all (i + 1) l b
  end.
Definition mark_token (b : buffer) : buffer := MkBuffer (chars b) (ptr b) (ptr b) (tok_start b) (ptr b).
Definition mark_start (b : buffer) : buffer := MkBuffer (chars b) (ptr b) (ptr b) (tok_start_prev b) (tok_end b).

Definition with_raw (b : buffer) (s : Lex_input_stream) : Lex_input_stream :=
  MkStream b (m_cpp s) (m_end_of_query s) (m_echo s) (m_echo_saved s) (in_comment s) (in_comment_saved s)
    (lookahead_token s) (m_body_utf8 s) (m_body_utf8_ptr s).
Definition with_cpp (b : buffer) (s : Lex_input_stream) : Lex_input_stream :=
  MkStream (m_raw s) b (m_end_of_query s) (m_echo s) (m_echo_saved s) (in_comment s) (in_comment_saved s)
    (lookahead_token s) (m_body_utf8 s) (m_body_utf8_ptr s).
Definition with_echo (e es : bool) (c cs : enum_comment_state) (s : Lex_input_stream) : Lex_input_stream :=
  MkStream (m_raw s) (m_cpp s) (m_end_of_query s) e es c cs (lookahead_token s) (m_body_utf8 s) (m_body_utf8_ptr s).

Definition on_raw (f : buffer -> option buffer) : ST Lex_input_stream unit :=
  fun s => b ← f (m_raw s); Some (tt, with_raw b s).
Definition on_cpp (f : buffer -> option buffer) : ST Lex_input_stream unit :=
  fun s => b ← f (m_cpp s); Some (tt, with_cpp b s).
Definition move_raw (n : Z) : ST Lex_input_stream unit := on_raw (fun b => set_ptr (ptr b + n) b).
Definition move_cpp (n : Z) : ST Lex_input_stream unit := on_cpp (fun b => set_ptr (ptr b + n) b).
Definition if_echo (m : ST Lex_input_stream unit) : ST Lex_input_stream unit :=
  let* e := st_gets m_echo in if (e : bool) then m else st_ret tt.

(** *** Echo and comments *)

Definition set_echo (echo : bool) : ST Lex_input_stream unit :=
  st_modify (fun s => with_echo echo (m_echo_saved s) (in_comment s) (in_comment_saved s) s).
Definition save_in_comment_state : ST Lex_input_stream unit :=
  st_modify (fun s => with_echo (m_echo s) (m_echo s) (in_comment s) (in_comment s) s).
Definition restore_in_comment_state : ST Lex_input_stream unit :=
  st_modify (fun s => with_echo (m_echo_saved s) (m_echo_saved s) (in_comment_saved s) (in_comment_saved s) s).

(** *** Characters *)

(** [*m_cpp_ptr++ = c]. *)
Definition put_cpp (c : Z) : ST Lex_input_stream unit :=
  on_cpp (fun b => write (ptr b) c b);;; move_cpp 1.

Definition skip_binary (n : Z) : ST Lex_input_stream unit :=
  if_echo (let* s := st_get in
           let* l := st_opt (slice (m_raw s) (ptr (m_raw s)) n) in
           on_cpp (fun b => write_all (ptr b) l b);;; move_cpp n);;;
  move_raw n.
Definition yyGet : ST Lex_input_stream Z :=
  let* s := st_get in
  let* c := st_opt (read (m_raw s) (ptr (m_raw s))) in
  move_raw 1;;;
  if_echo (put_cpp c);;;
  st_ret c.
Definition yyPeekn (n : Z) : ST Lex_input_stream Z :=
  let* s := st_get in st_opt (read (m_raw s) (ptr (m_raw s) + n)).
Definition yyGetLast : ST Lex_input_stream Z := yyPeekn (-1).
Definition yyPeek : ST Lex_input_stream Z := yyPeekn 0.
Definition yyUnget : ST Lex_input_stream unit :=
  move_raw (-1);;; if_echo (move_cpp (-1)).
Definition yySkip : ST Lex_input_stream unit :=
  let* e := st_gets m_echo in
  if (e : bool) then
    (let* s := st_get in
     let* c := st_opt (read (m_raw s) (ptr (m_raw s))) in
     put_cpp c;;; move_raw 1)
  else move_raw 1.
Definition yySkipn (n : Z) : ST Lex_input_stream unit :=
  if_echo (let* s := st_get in
           let* l := st_opt (slice (m_raw s) (ptr (m_raw s)) n) in
           on_cpp (fun b => write_all (ptr b) l b);;; move_cpp n);;;
  move_raw n.
Definition yyUnput (ch : Z) : ST Lex_input_stream Z :=
  move_raw (-1);;;
  on_raw (fun b => write (ptr b) ch b);;;
  if_echo (move_cpp (-1));;;
  st_gets (fun s => ptr (m_raw s)).
Definition eof_n (n : Z) (s : Lex_input_stream) : bool := m_end_of_query s <=? ptr (m_raw s) + n.
Definition eof (s : Lex_input_stream) : bool := m_end_of_query s <=? ptr (m_raw s).

(** *** Tokens *)

Definition start_token : ST Lex_input_stream unit :=
  st_modify (fun s => with_cpp (mark_token (m_cpp s)) (with_raw (mark_token (m_raw s)) s)).
Definition restart_token : ST Lex_input_stream unit :=
  st_modify (fun s => with_cpp (mark_start (m_cpp s)) (with_raw (mark_start (m_raw s)) s)).
(** [None]: the assertion fails. *)
Definition yyLength (s : Lex_input_stream) : option Z :=
  if tok_start (m_raw s) <? ptr (m_raw s) then Some (u32 (ptr (m_raw s) - tok_start (m_raw s) - 1)) else None.
Definition has_lookahead (s : Lex_input_stream) : bool := 0 <=? lookahead_token s.
Definition get_end_of_query (s : Lex_input_stream) : Z := m_end_of_query s.
Definition get_tok_start (s : Lex_input_stream) : Z :=
  if has_lookahead s then tok_start_prev (m_raw s) else tok_start (m_raw s).
Definition set_cpp_tok_start (pos : Z) : ST Lex_input_stream unit :=
  st_modify (fun s => let b := m_cpp s in
                      with_cpp (MkBuffer (chars b) (ptr b) pos (tok_start_prev b) (tok_end b)) s).
Definition get_tok_end (s : Lex_input_stream) : Z := tok_end (m_raw s).
Definition get_ptr (s : Lex_input_stream) : Z := ptr (m_raw s).
Definition get_cpp_tok_start (s : Lex_input_stream) : Z :=
  if has_lookahead s then tok_start_prev (m_cpp s) else tok_start (m_cpp s).
Definition get_cpp_tok_end (s : Lex_input_stream) : Z := tok_end (m_cpp s).
Definition get_cpp_ptr (s : Lex_input_stream) : Z := ptr (m_cpp s).
Definition body_utf8 (s : Lex_input_stream) : list Z := take (Z.to_nat (m_body_utf8_ptr s)) (m_body_utf8 s).

(** [my_isspace] reads a table of the character set, which is a parameter. *)
Section RTrim.
Variable my_isspace : Z -> bool.

Fixpoint rtrim_from (b : buffer) (fuel : nat) (p : Z) : option Z :=
  if p <=? 0 then Some p else
  match fuel with
  | O => None
  | S fuel => c ← read b (p - 1); if my_isspace c then rtrim_from b fuel (p - 1) else Some p
  end.
Definition rtrim (b : buffer) (p : Z) : option Z := rtrim_from b (length (chars b)) p.
Definition get_cpp_tok_end_rtrim (s : Lex_input_stream) : option Z := rtrim (m_cpp s) (tok_end (m_cpp s)).
Definition get_cpp_ptr_rtrim (s : Lex_input_stream) : option Z := rtrim (m_cpp s) (ptr (m_cpp s)).
End RTrim.

(** ** The stream as a history

    What has been read is a list of characters, each with the echo mode it was
    read in; what is left is a list of characters. *)

Record lex_state := MkState { history : list (Z * bool); rest : list Z; echo : bool; echo_saved : bool }.

Definition echoed (h : list (Z * bool)) : list Z := (filter (fun x => x.2 = true) h).*1.

Inductive lex_op := OGet | OSkip | OSkipn (n : nat) | OBinary (n : nat) | OUnget | OUnput (ch : Z)
  | OEcho (b : bool) | OSave | ORestore.

(** The last character is given back with [ch] in its place ([None]: unchanged);
    the echo mode must be the one it was read in. *)
Definition give_back (ch : option Z) (a : lex_state) : option lex_state :=
  '(c, e) ← last (history a);
  if Bool.eqb e (echo a)
  then Some (MkState (take (length (history a) - 1) (history a)) (default c ch :: rest a) (echo a) (echo_saved a))
  else None.
Definition accept (n : nat) (a : lex_state) : option lex_state :=
  if decide (n <= length (rest a))%nat
  then Some (MkState (history a ++ ((., echo a) <$> take n (rest a))) (drop n (rest a)) (echo a) (echo_saved a))
  else None.
Definition lex_spec (o : lex_op) (a : lex_state) : option lex_state :=
  match o with
  | OGet | OSkip => accept 1 a
  | OSkipn n | OBinary n => accept n a
  | OUnget => give_back None a
  | OUnput ch => give_back (Some ch) a
  | OEcho b => Some (MkState (history a) (rest a) b (echo_saved a))
  | OSave => Some (MkState (history a) (rest a) (echo a) (echo a))
  | ORestore => Some (MkState (history a) (rest a) (echo_saved a) (echo_saved a))
  end.

Definition lex_run (o : lex_op) : ST Lex_input_stream unit :=
  match o with
  | OGet => yyGet;;; st_ret tt
  | OSkip => yySkip
  | OSkipn n => yySkipn (Z.of_nat n)
  | OBinary n => skip_binary (Z.of_nat n)
  | OUnget => yyUnget
  | OUnput ch => yyUnput ch;;; st_ret tt
  | OEcho b => set_echo b
  | OSave => save_in_comment_state
  | ORestore => restore_in_comment_state
  end.
Definition lex_runs (os : list lex_op) : ST Lex_input_stream unit :=
  foldr (fun o m => lex_run o;;; m) (st_ret tt) os.
Definition lex_specs (os : list lex_op) (a : lex_state) : option lex_state :=
  foldl (fun a o => a ← a; lex_spec o a) (Some a) os.

(** The stream [s] stands for [a]: the raw buffer holds what was read and what is
    left, the pre-processed buffer what was echoed, and the latter has room for
    the whole of the former. *)
Record lex_rep (s : Lex_input_stream) (a : lex_state) : Prop := {
  rep_raw : chars (m_raw s) = (history a).*1 ++ rest a;
  rep_ptr : ptr (m_raw s) = Z.of_nat (length (history a));
  rep_cpp : take (length (echoed (history a))) (chars (m_cpp s)) = echoed (history a);
  rep_cpp_ptr : ptr (m_cpp s) = Z.of_nat (length (echoed (history a)));
  rep_room : (length (chars (m_raw s)) <= length (chars (m_cpp s)))%nat;
  rep_echo : m_echo s = echo a;
  rep_saved : m_echo_saved s = echo_saved a;
}.

Lemma echoed_app h h' : echoed (h ++ h') = echoed h ++ echoed h'.
Proof. unfold echoed. by rewrite filter_app, fmap_app. Qed.
Lemma echoed_tagged e l : echoed ((., e) <$> l) = if (e : bool) then l else [].
Proof.
  unfold echoed. induction l as [|c l IH]; [by destruct e|].
  rewrite fmap_cons, filter_cons. destruct e; cbn [snd]; case_decide; try done.
  rewrite fmap_cons. by rewrite IH.
Qed.
Lemma echoed_length h : (length (echoed h) <= length h)%nat.
Proof. unfold echoed. rewrite length_fmap. apply length_filter. Qed.

(** *** Writing the pre-processed buffer *)

Lemma write_spec i c b :
  0 <= i < Z.of_nat (length (chars b)) ->
  write i c b = Some (MkBuffer (<[Z.to_nat i := c]> (chars b)) (ptr b) (tok_start b) (tok_start_prev b) (tok_end b)).
Proof.
  intros H. unfold write. destruct (Z.leb_spec 0 i), (Z.ltb_spec i (Z.of_nat (length (chars b)))); first [lia|done].
Qed.
Lemma set_ptr_spec p b :
  0 <= p <= Z.of_nat (length (chars b)) ->
  set_ptr p b = Some (MkBuffer (chars b) p (tok_start b) (tok_start_prev b) (tok_end b)).
Proof.
  intros H. unfold set_ptr. destruct (Z.leb_spec 0 p), (Z.leb_spec p (Z.of_nat (length (chars b)))); first [lia|done].
Qed.
Lemma slice_spec b i n :
  0 <= i -> 0 <= n -> i + n <= Z.of_nat (length (chars b)) ->
  slice b i n = Some (take (Z.to_nat n) (drop (Z.to_nat i) (chars b))).
Proof.
  intros. unfold slice.
  destruct (Z.leb_spec 0 i), (Z.leb_spec 0 n), (Z.leb_spec (i + n) (Z.of_nat (length (chars b)))); first [lia|done].
Qed.
(** Writing [l] after the [n] bytes [t] leaves [t ++ l] at the front. *)
Lemma write_all_spec l n t b :
  n = length t -> take n (chars b) = t -> (n + length l <= length (chars b))%nat ->
  exists cs, write_all (Z.of_nat n) l b = Some (MkBuffer cs (ptr b) (tok_start b) (tok_start_prev b) (tok_end b)) /\
    length cs = length (chars b) /\ take (n + length l) cs = t ++ l.
Proof.
  revert n t b. induction l as [|c l IH]; intros n t b Hn Ht Hl; cbn [write_all length] in *.
  - exists (chars b). rewrite Nat.add_0_r, app_nil_r. by destruct b.
  - rewrite write_spec by lia. cbn. replace (Z.of_nat n + 1) with (Z.of_nat (S n)) by lia. rewrite Nat2Z.id.
    destruct (IH (S n) (t ++ [c]) (MkBuffer (<[n := c]> (chars b)) (ptr b) (tok_start b) (tok_start_prev b) (tok_end b)))
      as (cs & -> & Hc & Hr); cbn [chars ptr tok_start tok_start_prev tok_end] in *.
    + rewrite length_app. cbn. lia.
    + rewrite (take_S_r _ _ c) by (apply list_lookup_insert_eq; lia). by rewrite take_insert_ge, Ht by lia.
    + rewrite length_insert. lia.
    + exists cs. rewrite Hc, length_insert. split_and!; [done..|].
      rewrite <- (assoc_L app) in Hr. cbn in Hr. rewrite <- Hr. f_equal. lia.
Qed.

(** *** One operation *)

(** The two parts every reading operation has: copy [l] when echoing, and advance. *)
Lemma copy_step s a n :
  lex_rep s a -> (n <= length (rest a))%nat ->
  exists cs,
    (let* s := st_get in
     let* l := st_opt (slice (m_raw s) (ptr (m_raw s)) (Z.of_nat n)) in
     on_cpp (fun b => write_all (ptr b) l b);;; move_cpp (Z.of_nat n)) s =
      Some (tt, with_cpp (MkBuffer cs (ptr (m_cpp s) + Z.of_nat n) (tok_start (m_cpp s)) (tok_start_prev (m_cpp s))
                            (tok_end (m_cpp s))) s) /\
    length cs = length (chars (m_cpp s)) /\
    take (length (echoed (history a)) + n) cs = echoed (history a) ++ take n (rest a).
Proof.
  intros [Hr Hp Hc Hcp Hroom _ _] Hn. pose proof (echoed_length (history a)) as Hle.
  pose proof (f_equal length Hr) as Hlen. rewrite length_app, length_fmap in Hlen.
  unfold st_bind at 1, st_get at 1. rewrite slice_spec by lia. cbn [st_opt].
  unfold st_bind at 1, st_ret at 1. rewrite Hr, Hp, !Nat2Z.id, drop_app_length' by (by rewrite length_fmap).
  destruct (write_all_spec (take n (rest a)) _ (echoed (history a)) (m_cpp s) eq_refl Hc)
    as (cs & Hw & Hl & Ht); [rewrite length_take; lia|].
  exists cs. unfold st_bind, on_cpp at 1. rewrite Hcp, Hw. cbn [mbind option_bind].
  unfold move_cpp, on_cpp. cbn [with_cpp m_cpp ptr]. rewrite set_ptr_spec by (cbn; lia).
  cbn. rewrite Hcp. split_and!; [done..|]. rewrite length_take, Nat.min_l in Ht by lia. done.
Qed.

Lemma accept_rep s a n cs :
  lex_rep s a -> (n <= length (rest a))%nat ->
  length cs = length (chars (m_cpp s)) ->
  (if echo a then take (length (echoed (history a)) + n) cs = echoed (history a) ++ take n (rest a)
   else cs = chars (m_cpp s)) ->
  lex_rep (MkStream
      (MkBuffer (chars (m_raw s)) (ptr (m_raw s) + Z.of_nat n) (tok_start (m_raw s)) (tok_start_prev (m_raw s)) (tok_end (m_raw s)))
      (MkBuffer cs (if echo a then ptr (m_cpp s) + Z.of_nat n else ptr (m_cpp s)) (tok_start (m_cpp s))
         (tok_start_prev (m_cpp s)) (tok_end (m_cpp s)))
      (m_end_of_query s) (m_echo s) (m_echo_saved s) (in_comment s) (in_comment_saved s)
      (lookahead_token s) (m_body_utf8 s) (m_body_utf8_ptr s))
    (MkState (history a ++ ((., echo a) <$> take n (rest a))) (drop n (rest a)) (echo a) (echo_saved a)).
Proof.
  intros [Hr Hp Hc Hcp Hroom He Hs] Hn Hl Hcs. split; cbn [m_raw m_cpp chars ptr m_echo m_echo_saved history rest echo echo_saved].
  - rewrite fmap_app, <- list_fmap_compose, list_fmap_id, <- (assoc_L app), take_drop. done.
  - rewrite length_app, length_fmap, length_take. lia.
  - rewrite echoed_app, echoed_tagged. destruct (echo a).
    + rewrite length_app, length_take, Nat.min_l by lia. done.
    + rewrite app_nil_r. by subst cs.
  - rewrite echoed_app, echoed_tagged, length_app. destruct (echo a); [rewrite length_take|cbn]; lia.
  - lia.
  - done.
  - done.
Qed.

Lemma rep_lengths s a :
  lex_rep s a -> (length (chars (m_raw s)) = length (history a) + length (rest a))%nat.
Proof. intros H. rewrite (rep_raw _ _ H), length_app, length_fmap. done. Qed.

Lemma move_raw_step s n :
  0 <= ptr (m_raw s) + n <= Z.of_nat (length (chars (m_raw s))) ->
  move_raw n s = Some (tt, with_raw (MkBuffer (chars (m_raw s)) (ptr (m_raw s) + n) (tok_start (m_raw s))
                                       (tok_start_prev (m_raw s)) (tok_end (m_raw s))) s).
Proof. intros H. unfold move_raw, on_raw. by rewrite set_ptr_spec. Qed.
Lemma move_cpp_step s n :
  0 <= ptr (m_cpp s) + n <= Z.of_nat (length (chars (m_cpp s))) ->
  move_cpp n s = Some (tt, with_cpp (MkBuffer (chars (m_cpp s)) (ptr (m_cpp s) + n) (tok_start (m_cpp s))
                                       (tok_start_prev (m_cpp s)) (tok_end (m_cpp s))) s).
Proof. intros H. unfold move_cpp, on_cpp. by rewrite set_ptr_spec. Qed.

Definition accepted (n : nat) (a : lex_state) : lex_state :=
  MkState (history a ++ ((., echo a) <$> take n (rest a))) (drop n (rest a)) (echo a) (echo_saved a).

Lemma yySkipn_step s a n :
  lex_rep s a -> (n <= length (rest a))%nat ->
  exists s', yySkipn (Z.of_nat n) s = Some (tt, s') /\ lex_rep s' (accepted n a).
Proof.
  intros H Hn. pose proof (rep_lengths _ _ H) as Hlen. pose proof (rep_ptr _ _ H) as Hp.
  destruct (copy_step s a n H Hn) as (cs & Hcopy & Hl & Ht).
  unfold yySkipn, if_echo. unfold st_bind at 1 2, st_gets at 1. rewrite (rep_echo _ _ H).
  destruct (echo a) eqn:Ee.
  - rewrite Hcopy, move_raw_step by (cbn; lia). eexists. split; [done|].
    apply (accept_rep s a n cs) in H; [|done..|by rewrite Ee]. rewrite Ee in H. unfold accepted. by rewrite Ee.
  - unfold st_ret. rewrite move_raw_step by lia. eexists. split; [done|].
    apply (accept_rep s a n (chars (m_cpp s))) in H; [|done..|by rewrite Ee]. rewrite Ee in H.
    unfold accepted. rewrite Ee. destruct s as [? []]. exact H.
Qed.

Lemma read_next s a c r : lex_rep s a -> rest a = c :: r -> read (m_raw s) (ptr (m_raw s)) = Some c.
Proof.
  intros H Hr. unfold read. rewrite (rep_ptr _ _ H), (rep_raw _ _ H), Nat2Z.id, Hr.
  destruct (Z.leb_spec 0 (Z.of_nat (length (history a)))); [|lia].
  rewrite lookup_app_r; rewrite length_fmap; [|done]. by rewrite Nat.sub_diag.
Qed.
Lemma put_cpp_step s a c r :
  lex_rep s a -> rest a = c :: r ->
  exists cs, put_cpp c s =
      Some (tt, with_cpp (MkBuffer cs (ptr (m_cpp s) + 1) (tok_start (m_cpp s)) (tok_start_prev (m_cpp s))
                            (tok_end (m_cpp s))) s) /\
    length cs = length (chars (m_cpp s)) /\
    take (length (echoed (history a)) + 1) cs = echoed (history a) ++ take 1 (rest a).
Proof.
  intros H Hr. pose proof (rep_lengths _ _ H). pose proof (echoed_length (history a)). pose proof (rep_room _ _ H).
  assert (Hrest : length (rest a) = S (length r)) by (by rewrite Hr).
  unfold put_cpp, st_bind, on_cpp. rewrite write_spec by (rewrite (rep_cpp_ptr _ _ H); lia).
  cbn [mbind option_bind]. rewrite move_cpp_step
    by (cbn [with_cpp m_cpp ptr chars]; rewrite length_insert, (rep_cpp_ptr _ _ H); lia).
  eexists. split; [done|]. cbn [with_cpp m_cpp chars]. rewrite (rep_cpp_ptr _ _ H), Nat2Z.id, length_insert. split; [done|].
  rewrite Nat.add_1_r, (take_S_r _ _ c) by (apply list_lookup_insert_eq; lia).
  by rewrite take_insert_ge, (rep_cpp _ _ H), Hr by lia.
Qed.

(** [yyGet] and [yySkip] end in the same state. *)
Lemma yyGet_step s a c r :
  lex_rep s a -> rest a = c :: r ->
  exists s', yyGet s = Some (c, s') /\ yySkip s = Some (tt, s') /\ lex_rep s' (accepted 1 a).
Proof.
  intros H Hr. pose proof (rep_lengths _ _ H) as Hlen. pose proof (rep_ptr _ _ H) as Hp.
  assert (Hrest : length (rest a) = S (length r)) by (by rewrite Hr).
  pose proof (read_next _ _ _ _ H Hr) as Hread.
  destruct (put_cpp_step s a c r H Hr) as (cs & Hput & Hl & Ht).
  set (s1 := with_raw (MkBuffer (chars (m_raw s)) (ptr (m_raw s) + 1) (tok_start (m_raw s))
                         (tok_start_prev (m_raw s)) (tok_end (m_raw s))) s).
  assert (Hput1 : put_cpp c s1 = Some (tt, with_cpp (MkBuffer cs (ptr (m_cpp s) + 1) (tok_start (m_cpp s))
                   (tok_start_prev (m_cpp s)) (tok_end (m_cpp s))) s1)).
  { revert Hput. unfold put_cpp, st_bind, on_cpp, move_cpp, on_cpp. cbn [s1 with_raw m_cpp].
    destruct (write _ _ _); cbn; [|done]. destruct (set_ptr _ _); cbn; [|done]. unfold with_cpp. cbn. congruence. }
  unfold yyGet, yySkip, if_echo, st_bind, st_get, st_gets, st_ret. rewrite Hread. cbn [st_opt]. unfold st_ret.
  rewrite move_raw_step by lia. fold s1. cbn [s1 with_raw m_echo]. rewrite (rep_echo _ _ H).
  destruct (echo a) eqn:Ee.
  - fold s1. rewrite Hput1. cbv beta iota. rewrite Hread. cbn [st_opt]. unfold st_ret. rewrite Hput, move_raw_step by (cbn; lia).
    eexists. split_and!; [reflexivity..|].
    apply (accept_rep s a 1 cs) in H; [|rewrite ?Hrest; lia|done|by rewrite Ee]. rewrite Ee in H.
    unfold accepted. by rewrite Ee.
  - rewrite move_raw_step by lia. eexists. split_and!; [reflexivity..|].
    apply (accept_rep s a 1 (chars (m_cpp s))) in H; [|rewrite ?Hrest; lia|done|by rewrite Ee]. rewrite Ee in H.
    unfold accepted. rewrite Ee. destruct s as [? []]. exact H.
Qed.

(** *** Giving characters back *)

Definition given_back (c : Z) (h : list (Z * bool)) (a : lex_state) : lex_state :=
  MkState h (c :: rest a) (echo a) (echo_saved a).

Lemma give_back_Some ch a a' :
  give_back ch a = Some a' ->
  exists h c, history a = h ++ [(c, echo a)] /\ a' = given_back (default c ch) h a.
Proof.
  unfold give_back. destruct (list_snoc_inv (history a)) as [->|(h & [c e] & Hh)]; [done|].
  rewrite Hh, last_snoc. cbn. destruct (Bool.eqb_spec e (echo a)) as [->|]; [|done]. intros [= <-].
  exists h, c. rewrite length_app, take_app_length' by (cbn; lia). done.
Qed.

(** The stream moved back by one character, with [c] in its place. *)
Definition back_stream (c : Z) (s : Lex_input_stream) : Lex_input_stream :=
  let r := m_raw s in
  let p := m_cpp s in
  MkStream (MkBuffer (<[Z.to_nat (ptr r - 1) := c]> (chars r)) (ptr r - 1) (tok_start r) (tok_start_prev r) (tok_end r))
    (MkBuffer (chars p) (if m_echo s then ptr p - 1 else ptr p) (tok_start p) (tok_start_prev p) (tok_end p))
    (m_end_of_query s) (m_echo s) (m_echo_saved s) (in_comment s) (in_comment_saved s)
    (lookahead_token s) (m_body_utf8 s) (m_body_utf8_ptr s).

Lemma lex_back_rep s a h c c' :
  lex_rep s a -> history a = h ++ [(c, echo a)] -> lex_rep (back_stream c' s) (given_back c' h a).
Proof.
  intros [Hr Hp Hc Hcp Hroom He Hs] Hh.
  rewrite Hh in Hr, Hp, Hc, Hcp. rewrite length_app in Hp. cbn [length] in Hp.
  rewrite echoed_app in Hc, Hcp. change [(c, echo a)] with ((., echo a) <$> [c]) in Hc, Hcp.
  rewrite echoed_tagged in Hc, Hcp.
  split; cbn [back_stream m_raw m_cpp chars ptr m_echo m_echo_saved given_back history rest echo echo_saved].
  - rewrite Hr, fmap_app, <- (assoc_L app). rewrite insert_app_r_alt by (rewrite length_fmap; lia).
    rewrite length_fmap. f_equal. replace (Z.to_nat (ptr (m_raw s) - 1) - length h)%nat with O by lia. done.
  - lia.
  - destruct (echo a).
    + rewrite length_app in Hc. apply (f_equal (take (length (echoed h)))) in Hc.
      rewrite take_take, take_app_length in Hc. rewrite <- Hc at 2. f_equal. lia.
    + by rewrite app_nil_r in Hc.
  - rewrite He. destruct (echo a); rewrite length_app in Hcp; cbn [length] in Hcp; lia.
  - rewrite length_insert. lia.
  - done.
  - done.
Qed.

Lemma back_bounds s a h c :
  lex_rep s a -> history a = h ++ [(c, echo a)] ->
  0 <= ptr (m_raw s) - 1 < Z.of_nat (length (chars (m_raw s))) /\
  chars (m_raw s) !! Z.to_nat (ptr (m_raw s) - 1) = Some c /\
  (m_echo s = true -> 0 <= ptr (m_cpp s) - 1 <= Z.of_nat (length (chars (m_cpp s)))).
Proof.
  intros H Hh. pose proof (rep_lengths _ _ H) as Hlen. pose proof (rep_ptr _ _ H) as Hp.
  pose proof (rep_cpp_ptr _ _ H) as Hcp. pose proof (rep_room _ _ H). pose proof (rep_echo _ _ H) as Hrec. pose proof (echoed_length (history a)).
  pose proof (rep_raw _ _ H) as Hr. rewrite Hh, length_app in Hlen, Hp. cbn [length] in Hlen, Hp.
  clear H. split_and!; try lia.
  - rewrite Hr, Hh, fmap_app, <- (assoc_L app). rewrite lookup_app_r by (rewrite length_fmap; lia).
    rewrite length_fmap. replace (Z.to_nat (ptr (m_raw s) - 1) - length h)%nat with O by lia. done.
  - intros He. rewrite Hrec in He.
    assert (length (echoed (history a)) = S (length (echoed h))).
    { rewrite Hh, He, echoed_app. change [(c, true)] with ((., true) <$> [c]).
      rewrite echoed_tagged, length_app. cbn. lia. }
    assert (length (history a) = S (length h)) by (rewrite Hh, length_app; cbn; lia).
    lia.
Qed.

Lemma yyUnget_step s a a' :
  lex_rep s a -> give_back None a = Some a' -> exists s', yyUnget s = Some (tt, s') /\ lex_rep s' a'.
Proof.
  intros H (h & c & Hh & ->)%give_back_Some. destruct (back_bounds _ _ _ _ H Hh) as (Hb & Hl & He).
  exists (back_stream c s). split; [|by apply (lex_back_rep s a h c)].
  unfold yyUnget, if_echo, st_bind, st_gets, st_ret. rewrite move_raw_step by lia. cbn [with_raw m_echo].
  unfold back_stream. rewrite list_insert_id by done. destruct (m_echo s) eqn:E.
  - rewrite move_cpp_step by (cbn; lia). unfold with_cpp, with_raw. cbn. by rewrite E.
  - destruct s as [? []]. cbn in *. by rewrite E.
Qed.
Lemma yyUnput_step s a a' ch :
  lex_rep s a -> give_back (Some ch) a = Some a' ->
  exists s', yyUnput ch s = Some (ptr (m_raw s) - 1, s') /\ lex_rep s' a'.
Proof.
  intros H (h & c & Hh & ->)%give_back_Some. destruct (back_bounds _ _ _ _ H Hh) as (Hb & Hl & He).
  exists (back_stream ch s). split; [|by apply (lex_back_rep s a h c)].
  unfold yyUnput, if_echo, st_bind, st_gets, st_ret. rewrite move_raw_step by lia.
  unfold on_raw at 1. cbn [with_raw m_raw ptr]. rewrite write_spec by (cbn; lia). cbn [mbind option_bind with_raw m_echo].
  unfold back_stream. destruct (m_echo s) eqn:E.
  - rewrite move_cpp_step by (cbn; lia). unfold with_cpp, with_raw. cbn. by rewrite E.
  - destruct s as [? []]. cbn in *. by rewrite E.
Qed.

Lemma lex_step s a a' o :
  lex_rep s a -> lex_spec o a = Some a' -> exists s', lex_run o s = Some (tt, s') /\ lex_rep s' a'.
Proof.
  intros H Ho. destruct o; cbn [lex_spec lex_run] in *; unfold accept in Ho;
    try (case_decide; [|done]; injection Ho as <-).
  1, 2: destruct (rest a) as [|c r] eqn:Hr; [cbn in *; lia|];
        destruct (yyGet_step s a c r H Hr) as (s' & Hg & Hk & Hrep); rewrite <- Hr.
  - exists s'. unfold st_bind. by rewrite Hg.
  - by exists s'.
  - by apply yySkipn_step.
  - by apply yySkipn_step.
  - by apply yyUnget_step with a.
  - destruct (yyUnput_step _ _ _ _ H Ho) as (s' & Hs & ?). exists s'. unfold st_bind. by rewrite Hs.
  - injection Ho as <-; destruct H as [? ? ? ? ? He Hs]; eexists; split; [done|]; by split.
  - injection Ho as <-; destruct H as [? ? ? ? ? He Hs]; eexists; split; [done|]; by split.
  - injection Ho as <-; destruct H as [? ? ? ? ? He Hs]; eexists; split; [done|]; by split.
Qed.

(** ** Properties *)

Lemma lex_specs_cons o os a : lex_specs (o :: os) a = a' ← lex_spec o a; lex_specs os a'.
Proof.
  unfold lex_specs. cbn. destruct (lex_spec o a) as [a'|]; cbn; [done|]. by induction os.
Qed.

(** C31 : the stream does what its description says.  For every sequence of reading,
    skipping, giving back and echo operations that gives characters back only in
    the echo mode they were read in and reads no further than the buffer, all
    accesses stay inside the two buffers, the raw pointer has moved over exactly
    the characters of the history, and the pre-processed buffer holds exactly those
    that were read with echo on; [yyGet] returns the next character, and the
    character given back is the next one to come. *)
Theorem lex_stream_refines_history (os : list lex_op) (s : Lex_input_stream) (a a' : lex_state) :
  lex_rep s a -> lex_specs os a = Some a' ->
  exists s', lex_runs os s = Some (tt, s') /\ lex_rep s' a' /\
    slice (m_raw s') 0 (get_ptr s') = Some (history a').*1 /\
    slice (m_cpp s') 0 (get_cpp_ptr s') = Some (echoed (history a')) /\
    (forall c r, rest a' = c :: r -> exists s'', yyGet s' = Some (c, s'') /\ yyPeek s' = Some (c, s')).
Proof.
  revert s a. induction os as [|o os IH]; intros s a H Hos.
  - injection Hos as <-. exists s. pose proof (rep_lengths _ _ H). pose proof (rep_ptr _ _ H) as Hp.
    pose proof (rep_cpp_ptr _ _ H) as Hc. pose proof (rep_room _ _ H). pose proof (echoed_length (history a)).
    unfold get_ptr, get_cpp_ptr. split_and!; [done|done|rewrite slice_spec by lia..|]; cbn [Z.to_nat]; rewrite ?drop_0.
    + rewrite Hp, Nat2Z.id, (rep_raw _ _ H), take_app_length' by (by rewrite length_fmap). done.
    + rewrite Hc, Nat2Z.id. by rewrite (rep_cpp _ _ H).
    + intros c r Hr. destruct (yyGet_step s a c r H Hr) as (s' & -> & _). exists s'. split; [done|].
      unfold yyPeek, yyPeekn, st_bind, st_get. rewrite Z.add_0_r. by rewrite (read_next _ _ _ _ H Hr).
  - rewrite lex_specs_cons in Hos. destruct (lex_spec o a) as [a1|] eqn:Ho; [|done].
    destruct (lex_step _ _ _ _ H Ho) as (s1 & Hs1 & H1). destruct (IH s1 a1 H1 Hos) as (s' & Hs' & Hrest).
    exists s'. split; [|done]. cbn [lex_runs foldr]. unfold st_bind at 1. by rewrite Hs1.
Qed.

Lemma mark_token_rep s a : lex_rep s a -> lex_rep (with_cpp (mark_token (m_cpp s)) (with_raw (mark_token (m_raw s)) s)) a.
Proof. intros []. by split. Qed.

(** [yySkipn] leaves the token marks alone. *)
Lemma yySkipn_marks n s s' :
  yySkipn n s = Some (tt, s') ->
  tok_start (m_raw s') = tok_start (m_raw s) /\ tok_start (m_cpp s') = tok_start (m_cpp s) /\
  lookahead_token s' = lookahead_token s.
Proof.
  assert (Hw : forall l i b b', write_all i l b = Some b' -> tok_start b' = tok_start b).
  { induction l as [|c l IH]; intros i b b' H; cbn in H; [congruence|].
    destruct (write i c b) as [b1|] eqn:E; [|done]. apply IH in H. rewrite H. unfold write in E.
    by case_match; simplify_eq. }
  assert (Hp : forall p b b', set_ptr p b = Some b' -> tok_start b' = tok_start b).
  { intros p b b' H. unfold set_ptr in H. by case_match; simplify_eq. }
  unfold yySkipn, if_echo, st_bind, st_gets, st_get, st_ret, move_raw, move_cpp, on_raw, on_cpp, st_opt.
  destruct (m_echo s); cbn [mbind option_bind].
  - destruct (slice _ _ _) as [l|]; [|done]. cbn. destruct (write_all _ _ _) as [b|] eqn:Eb; [|done]. cbn.
    destruct (set_ptr _ b) as [b1|] eqn:E1; [|done]. cbn. destruct (set_ptr _ (m_raw s)) as [b2|] eqn:E2; [|done].
    cbn. intros [= <-]. cbn. apply Hw in Eb. apply Hp in E1, E2. split_and!; congruence.
  - destruct (set_ptr _ (m_raw s)) as [b2|] eqn:E2; [|done]. cbn. intros [= <-]. cbn. apply Hp in E2. done.
Qed.

(** The text of a token.  After [start_token] and [n] characters, the token
    is those [n] characters in the raw buffer, and in the pre-processed buffer the
    same when echo is on and nothing when it is off; [yyLength] is one less than
    [n], and its assertion needs [n] not to be zero.  While a lookahead token is
    held, [get_tok_start] is the start of the token before it. *)
Lemma lex_token_text (n : nat) (s : Lex_input_stream) (a : lex_state) :
  lex_rep s a -> (0 < n <= length (rest a))%nat -> Z.of_nat n < 2 ^ 32 -> has_lookahead s = false ->
  exists s', (start_token;;; yySkipn (Z.of_nat n)) s = Some (tt, s') /\
    slice (m_raw s') (get_tok_start s') (get_ptr s' - get_tok_start s') = Some (take n (rest a)) /\
    slice (m_cpp s') (get_cpp_tok_start s') (get_cpp_ptr s' - get_cpp_tok_start s') =
      Some (if echo a then take n (rest a) else []) /\
    yyLength s' = Some (Z.of_nat n - 1) /\
    (exists s1, start_token s = Some (tt, s1) /\ yyLength s1 = None /\
       forall l, 0 <= l ->
         get_tok_start (MkStream (m_raw s1) (m_cpp s1) (m_end_of_query s1) (m_echo s1) (m_echo_saved s1) (in_comment s1)
                          (in_comment_saved s1) l (m_body_utf8 s1) (m_body_utf8_ptr s1)) = tok_start (m_raw s)).
Proof.
  intros H Hn Hmax Hl. pose proof (mark_token_rep _ _ H) as H1.
  set (s1 := with_cpp _ _) in H1. destruct (yySkipn_step s1 a n H1) as (s' & Hs' & H'); [lia|].
  destruct (yySkipn_marks _ _ _ Hs') as (Er & Ec & El).
  exists s'. pose proof (rep_ptr _ _ H) as Hp. pose proof (rep_cpp_ptr _ _ H) as Hcp.
  pose proof (rep_lengths _ _ H') as Hlen. pose proof (rep_room _ _ H') as Hroom.
  pose proof (echoed_length (history (accepted n a))) as Hech.
  pose proof (rep_ptr _ _ H') as Hp'. pose proof (rep_cpp_ptr _ _ H') as Hcp'.
  cbn [accepted history rest] in Hp', Hcp', Hlen, Hech. rewrite length_app, length_fmap, length_take in Hp', Hlen, Hech.
  rewrite echoed_app, echoed_tagged, length_app in Hcp', Hech.
  assert (Htok : get_tok_start s' = ptr (m_raw s)).
  { unfold get_tok_start, has_lookahead. rewrite El. cbn [s1 lookahead_token with_cpp with_raw].
    unfold has_lookahead in Hl. rewrite Hl, Er. done. }
  assert (Hctok : get_cpp_tok_start s' = ptr (m_cpp s)).
  { unfold get_cpp_tok_start, has_lookahead. rewrite El. cbn [s1 lookahead_token with_cpp with_raw].
    unfold has_lookahead in Hl. rewrite Hl, Ec. done. }
  unfold get_ptr, get_cpp_ptr. rewrite Htok, Hctok. split_and!.
  - done.
  - rewrite slice_spec by lia. rewrite (rep_raw _ _ H'). cbn [accepted history rest].
    rewrite fmap_app, <- list_fmap_compose, list_fmap_id, <- (assoc_L app), Hp, Nat2Z.id, drop_app_length'
      by (by rewrite length_fmap).
    rewrite take_app_length' by (rewrite length_take; lia). done.
  - pose proof (rep_cpp _ _ H') as Ht. cbn [accepted history] in Ht. rewrite echoed_app, echoed_tagged in Ht.
    destruct (echo a).
    + rewrite length_take in Hcp', Hech. rewrite slice_spec by lia.
      apply (f_equal (drop (length (echoed (history a))))) in Ht. rewrite drop_app_length in Ht.
      rewrite length_app, <- take_drop_commute in Ht. rewrite Hcp, Nat2Z.id. rewrite <- Ht at 1.
      f_equal. f_equal. rewrite length_take. lia.
    + cbn [length] in Hcp', Hech. rewrite slice_spec by lia. rewrite Hcp', Hcp. f_equal.
      replace (Z.to_nat _) with O by lia. done.
  - unfold yyLength. rewrite Er. cbn [s1 with_cpp with_raw m_raw mark_token tok_start].
    destruct (Z.ltb_spec (ptr (m_raw s)) (ptr (m_raw s'))); [|lia]. f_equal. rewrite wrapU_small; unfold in_u; lia.
  - exists s1. split; [done|]. split.
    + unfold yyLength. cbn. by rewrite Z.ltb_irrefl.
    + intros l Hl0. unfold get_tok_start, has_lookahead. cbn. destruct (Z.leb_spec 0 l); [done|lia].
Qed.

(** *** Trailing spaces *)

Section RTrimProps.
Variable my_isspace : Z -> bool.

(** The text up to the result, followed by spaces, is the text up to [p], and the
    text up to the result does not end with a space. *)
Definition trimmed (l l' : list Z) : Prop :=
  (exists sp, l = l' ++ sp /\ Forall (fun c => my_isspace c = true) sp) /\
  (forall c, last l' = Some c -> my_isspace c = false).

Lemma rtrim_from_spec b fuel (n : nat) :
  (n <= length (chars b))%nat -> (n <= fuel)%nat ->
  exists k : nat, rtrim_from my_isspace b fuel (Z.of_nat n) = Some (Z.of_nat k) /\
    (k <= n)%nat /\ trimmed (take n (chars b)) (take k (chars b)).
Proof.
  revert n. induction fuel as [|fuel IH]; intros n Hn Hf.
  - exists O. replace n with O by lia. split_and!; [done|lia|]. split; [by exists []|done].
  - destruct n as [|n].
    + exists O. split_and!; [done|lia|]. split; [by exists []|done].
    + cbn [rtrim_from]. destruct (Z.leb_spec (Z.of_nat (S n)) 0); [lia|].
      replace (Z.of_nat (S n) - 1) with (Z.of_nat n) by lia. unfold read.
      destruct (Z.leb_spec 0 (Z.of_nat n)); [|lia]. rewrite Nat2Z.id.
      destruct (lookup_lt_is_Some_2 (chars b) n) as [c Hc]; [lia|]. rewrite Hc. cbn [mbind option_bind].
      rewrite (take_S_r _ _ _ Hc). destruct (my_isspace c) eqn:E.
      * destruct (IH n) as (k & Hk & Hle & (sp & Hsp & Hall) & Hlast); [lia..|]. exists k. split_and!; [done|lia|].
        split; [|done]. exists (sp ++ [c]). rewrite Hsp, (assoc_L app). split; [done|].
        apply Forall_app. by split; [|constructor].
      * exists (S n). split_and!; [done|lia|]. rewrite (take_S_r _ _ _ Hc). split; [by exists []; rewrite app_nil_r|].
        intros d. rewrite last_snoc. by intros [= <-].
Qed.

(** [get_cpp_ptr_rtrim] returns for every history, and the pre-processed text up
    to its result is what was echoed with exactly the trailing spaces removed. *)
Lemma rtrim_removes_spaces (s : Lex_input_stream) (a : lex_state) :
  lex_rep s a ->
  exists p l, get_cpp_ptr_rtrim my_isspace s = Some p /\ 0 <= p <= get_cpp_ptr s /\
    slice (m_cpp s) 0 p = Some l /\ trimmed (echoed (history a)) l.
Proof.
  intros H. pose proof (rep_lengths _ _ H). pose proof (echoed_length (history a)). pose proof (rep_room _ _ H).
  unfold get_cpp_ptr_rtrim, rtrim, get_cpp_ptr. rewrite (rep_cpp_ptr _ _ H).
  destruct (rtrim_from_spec (m_cpp s) (length (chars (m_cpp s))) (length (echoed (history a)))) as (k & Hk & Hle & Ht); [lia..|].
  exists (Z.of_nat k), (take k (chars (m_cpp s))). rewrite Hk, slice_spec by lia.
  rewrite (rep_cpp _ _ H) in Ht. split_and!; [done|lia|lia| |done]. by rewrite Nat2Z.id.
Qed.
End RTrimProps.

(** The comment of [eof(n)] says that it holds when fewer than [n] characters are
    left; it also holds when exactly [n] are. *)
Lemma eof_n_exact (s : Lex_input_stream) (n : Z) :
  m_end_of_query s - ptr (m_raw s) = n -> eof_n n s = true.
Proof. intros <-. unfold eof_n. lia. Qed.

(** ** Witnesses *)

(** A stream at the start of a text. *)
Definition stream_of (text : list Z) (e : bool) : Lex_input_stream :=
  MkStream (MkBuffer text 0 0 0 0) (MkBuffer (repeat 0 (length text)) 0 0 0 0) (Z.of_nat (length text))
    e e NO_COMMENT NO_COMMENT (-1) [] 0.
Lemma stream_of_rep text e : lex_rep (stream_of text e) (MkState [] text e e).
Proof. split; try done. cbn. by rewrite repeat_length. Qed.

(** The text [A/*C ] with echo off for the two characters in the middle. *)
Lemma lex_stream_refines_history_witness :
  exists s', lex_runs [OGet; OEcho false; OSkipn 2; OUnget; OSkip; OEcho true; OGet; OUnput 66; OGet]
               (stream_of [65; 47; 42; 67; 32] true) = Some (tt, s') /\
    slice (m_cpp s') 0 (get_cpp_ptr s') = Some [65; 66].
Proof.
  destruct (lex_stream_refines_history
              [OGet; OEcho false; OSkipn 2; OUnget; OSkip; OEcho true; OGet; OUnput 66; OGet]
              (stream_of [65; 47; 42; 67; 32] true) _
              (MkState [(65, true); (47, false); (42, false); (66, true)] [32] true true)
              (stream_of_rep _ _) eq_refl) as (s' & Hs & _ & _ & Hc & _).
  exists s'. split; [exact Hs|exact Hc].
Defined.
