(* ===== verification/BoundedQueue.v ===== *)
(** The bounded priority queue of [mariadb/include/mysql/server/private/bounded_queue.h]
    (top-N sorting) over the queue of [private/queues.h].

    The keys lie in the slots of the array [m_sort_keys]; the queue holds slots and
    compares them by the keys they hold.  The macros of [queues.h] are modelled; its
    functions are declared only and are the class [QueueLib], whose laws [QueueLaws]
    say that they keep the array a binary heap. *)

From stdpp Require Import sorting.
From S2P Require Import Prelude.

(** ** The queue (queues.h) *)

(** [root] holds the slots from index 1 on: [qroot] lists them in this order. *)
Record st_queue := Queue { qroot : list nat; max_elements : Z; max_at_top : bool }.

Definition elements (q : st_queue) : Z := Z.of_nat (length (qroot q)).
Definition queue_first_element (q : st_queue) : Z := 1.
Definition queue_last_element (q : st_queue) : Z := elements q.
Definition queue_empty (q : st_queue) : bool := elements q =? 0.
Definition queue_element (q : st_queue) (i : Z) : option nat := if 1 <=? i then qroot q !! Z.to_nat (i - 1) else None.
Definition queue_top (q : st_queue) : option nat := queue_element q 1.
Definition queue_is_full (q : st_queue) : bool := elements q =? max_elements q.
Definition queue_remove_all (q : st_queue) : st_queue := Queue [] (max_elements q) (max_at_top q).
Definition queue_set_max_at_top (q : st_queue) (b : bool) : st_queue := Queue (qroot q) (max_elements q) b.

(** What the library functions do to the slots, given the keys. *)
Class QueueLib (K : Type) := {
  init_queue : Z -> bool -> option st_queue;
  queue_insert : list K -> st_queue -> nat -> st_queue;
  queue_remove : list K -> st_queue -> Z -> st_queue * nat;
  _downheap : list K -> st_queue -> Z -> st_queue;
}.

Definition queue_replace_top `{QueueLib K} (ks : list K) (q : st_queue) : st_queue := _downheap ks q 1.
Definition queue_remove_top `{QueueLib K} (ks : list K) (q : st_queue) : st_queue * nat :=
  queue_remove ks q (queue_first_element q).

(** ** The bounded queue *)

Definition UINT_MAX : Z := 2 ^ 32 - 1.

Record Bounded_queue (K : Type) := BQ { m_sort_keys : list K; m_queue : st_queue }.
Arguments BQ {K}.
Arguments m_sort_keys {K}.
Arguments m_queue {K}.

Section BoundedQueue.
Context {E K : Type} `{QueueLib K}.
Variable m_keymaker : E -> K.

(** The queue that the zeroed one becomes; [None] is the result 1. *)
Definition init (max_elements : Z) (max_at_top : bool) (sort_keys : list K) : option (Bounded_queue K) :=
  if UINT_MAX - 1 <=? max_elements then None
  else q ← init_queue (u32 max_elements + 1) max_at_top; Some (BQ sort_keys q).

Definition is_initialized (b : Bounded_queue K) : bool := 0 <? max_elements (m_queue b).
Definition num_elements (b : Bounded_queue K) : Z := elements (m_queue b).

(** The keymaker writes the key into the slot. *)
Definition make_key (ks : list K) (slot : nat) (e : E) : option (list K) :=
  if decide (slot < length ks)%nat then Some (<[slot := m_keymaker e]> ks) else None.

(** [None]: a failed assertion, or a slot outside the array. *)
Definition push (e : E) (b : Bounded_queue K) : option (Bounded_queue K) :=
  if negb (is_initialized b) then None else
  if queue_is_full (m_queue b) then
    pq_top ← queue_top (m_queue b);
    ks ← make_key (m_sort_keys b) pq_top e;
    Some (BQ ks (queue_replace_top ks (m_queue b)))
  else
    let slot := Z.to_nat (elements (m_queue b)) in
    ks ← make_key (m_sort_keys b) slot e;
    Some (BQ ks (queue_insert ks (m_queue b) slot)).

Definition pop (b : Bounded_queue K) : Bounded_queue K * option nat :=
  let q := if queue_is_full (m_queue b) then (queue_remove (m_sort_keys b) (m_queue b) 0).1 else m_queue b in
  if elements q =? 0 then (BQ (m_sort_keys b) q, None)
  else let '(q, slot) := queue_remove (m_sort_keys b) q 0 in (BQ (m_sort_keys b) q, Some slot).

Definition pushes (es : list E) (b : Bounded_queue K) : option (Bounded_queue K) :=
  foldl (fun b e => b ← b; push e b) (Some b) es.
End BoundedQueue.

(** ** Heaps

    The order in which elements are kept: for [max_at_top] the smaller first, so that
    the top is the last of them. *)

Class KeyOrder (K : Type) (le : relation K) := {
  ko_dec :: RelDecision le;
  ko_trans :: Transitive le;
  ko_total :: Total le;
  ko_antisymm :: AntiSymm (=) le;
  ko_inhabited :: Inhabited K;
}.

Section Order.
Context {K : Type} {le : relation K} `{!KeyOrder K le}.

Definition keep (b : bool) : relation K := if b then le else flip le.

#[export] Instance keep_dec b : RelDecision (keep b).
Proof. destruct b; [exact ko_dec|]. intros x y. exact (ko_dec y x). Defined.
#[export] Instance keep_trans b : Transitive (keep b).
Proof. destruct b; [exact ko_trans|]. intros x y z H1 H2. unfold keep, flip in *. by trans y. Qed.
#[export] Instance keep_total b : Total (keep b).
Proof. destruct b; [exact ko_total|]. intros x y. destruct (ko_total x y); [by right|by left]. Qed.
#[export] Instance keep_antisymm b : AntiSymm (=) (keep b).
Proof. destruct b; [exact ko_antisymm|]. intros x y H1 H2. unfold keep, flip in *. by apply (anti_symm le). Qed.

(** The [n] elements to keep, in order. *)
Definition best (b : bool) (n : nat) (l : list K) : list K := take n (merge_sort (keep b) l).

Lemma sort_unique b l l' : l ≡ₚ l' -> StronglySorted (keep b) l' -> merge_sort (keep b) l = l'.
Proof.
  intros Hp Hs. apply (StronglySorted_unique (keep b)); [apply StronglySorted_merge_sort; apply _|done|].
  by rewrite merge_sort_Permutation.
Qed.
Lemma sort_sorted b l : StronglySorted (keep b) (merge_sort (keep b) l).
Proof. apply StronglySorted_merge_sort; apply _. Qed.
Lemma best_proper b n l l' : l ≡ₚ l' -> best b n l = best b n l'.
Proof.
  intros Hp. unfold best. f_equal. apply sort_unique; [|apply sort_sorted]. by rewrite merge_sort_Permutation.
Qed.

(** Insertion into a sorted list. *)
Fixpoint insert_sorted (b : bool) (x : K) (l : list K) : list K :=
  match l with
  | [] => [x]
  | y :: l' => if decide (keep b x y) then x :: l else y :: insert_sorted b x l'
  end.
Lemma insert_sorted_perm b x l : insert_sorted b x l ≡ₚ x :: l.
Proof.
  induction l as [|y l IH]; cbn; [done|]. case_decide; [done|]. rewrite IH. apply Permutation_swap.
Qed.
Lemma insert_sorted_sorted b x l : StronglySorted (keep b) l -> StronglySorted (keep b) (insert_sorted b x l).
Proof.
  induction 1 as [|y l Hl IH Hy]; cbn; [by repeat constructor|]. case_decide as Hxy.
  - constructor; [by constructor|]. constructor; [done|].
    eapply Forall_impl; [exact Hy|]. intros z Hz. by trans y.
  - constructor; [done|]. rewrite insert_sorted_perm. constructor; [|done].
    by destruct (total (keep b) x y).
Qed.
Lemma sort_cons b x l : merge_sort (keep b) (x :: l) = insert_sorted b x (merge_sort (keep b) l).
Proof.
  apply sort_unique; [|apply insert_sorted_sorted, sort_sorted].
  by rewrite insert_sorted_perm, merge_sort_Permutation.
Qed.
Lemma take_insert_sorted b n x l : take n (insert_sorted b x (take n l)) = take n (insert_sorted b x l).
Proof.
  revert n. induction l as [|y l IH]; intros [|n]; cbn; try done. case_decide; cbn.
  - f_equal. destruct n; cbn; [done|]. by rewrite take_take, Nat.min_l by lia.
  - by rewrite IH.
Qed.

(** Only the best [n] of the old elements matter for the best [n] after an addition. *)
Lemma best_add b n x l : best b n (x :: best b n l) = best b n (x :: l).
Proof.
  unfold best. rewrite !sort_cons. rewrite <- (take_insert_sorted b n x (merge_sort _ l)).
  f_equal. f_equal. apply sort_unique; [done|].
  pose proof (sort_sorted b l) as Hs. rewrite <- (take_drop n (merge_sort (keep b) l)) in Hs.
  by apply StronglySorted_app_1_l in Hs.
Qed.

(** An element that nothing follows is not among the best of the others' number. *)
Lemma best_drop_last b n x l :
  length l = n -> Forall (fun y => keep b y x) l -> best b n (x :: l) ≡ₚ l.
Proof.
  intros Hn Hx. unfold best. rewrite (sort_unique b (x :: l) (merge_sort (keep b) l ++ [x])).
  - rewrite take_app_length' by (by rewrite merge_sort_Permutation). apply merge_sort_Permutation.
  - by rewrite merge_sort_Permutation, Permutation_app_comm.
  - apply StronglySorted_app. split_and!; [|apply sort_sorted|by repeat constructor].
    intros y z Hy ->%list_elem_of_singleton. rewrite merge_sort_Permutation in Hy.
    by eapply Forall_forall in Hx.
Qed.

(** Replacing the last of [n + 1] elements in the order by a new one keeps what matters. *)
Lemma best_replace b n (l : list K) t x k :
  length l = S n -> l !! t = Some x -> Forall (fun y => keep b y x) l ->
  best b n (<[t := k]> l) = best b n (k :: best b n l).
Proof.
  intros Hn Hx Hall. pose proof (delete_Permutation _ _ _ Hx) as Hperm.
  pose proof (lookup_lt_Some _ _ _ Hx) as Hlt.
  assert (Hks : <[t := k]> l ≡ₚ k :: delete t l).
  { rewrite (delete_Permutation _ t k) by (by apply list_lookup_insert_eq).
    by rewrite !delete_take_drop, take_insert_ge, drop_insert_lt by lia. }
  rewrite (best_proper _ _ _ _ Hks). apply best_proper. f_equiv.
  rewrite (best_proper _ _ _ _ Hperm). symmetry. apply best_drop_last.
  - pose proof (Permutation_length Hperm) as Hl. cbn [length] in Hl. lia.
  - rewrite Hperm in Hall. by apply Forall_cons in Hall as [_ Hall].
Qed.

(** *** The heap property *)

(** The key that the [j]-th element of the queue (from 0) holds. *)
Definition key_at (ks : list K) (q : st_queue) (j : nat) : option K := qroot q !! j ≫= (ks !!.).
Definition parent (j : nat) : nat := (j - 1) / 2.
Definition heap_where (P : nat -> Prop) (ks : list K) (q : st_queue) : Prop :=
  forall j x y, (0 < j)%nat -> P (parent j) -> key_at ks q j = Some x -> key_at ks q (parent j) = Some y ->
    keep (max_at_top q) x y.
Definition heap := heap_where (fun _ => True).
Definition in_slots (ks : list K) (q : st_queue) : Prop := Forall (fun s => (s < length ks)%nat) (qroot q).

Lemma parent_lt j : (0 < j)%nat -> (parent j < j)%nat.
Proof. intros. unfold parent. apply Nat.Div0.div_lt_upper_bound; lia. Qed.

(** The top of a heap is the last element in the order. *)
Lemma heap_top ks q x :
  heap ks q -> in_slots ks q -> key_at ks q 0 = Some x ->
  forall j y, key_at ks q j = Some y -> keep (max_at_top q) y x.
Proof.
  intros Hh Hs Hx j. induction j as [j IH] using lt_wf_ind. intros y Hy.
  destruct (decide (j = 0%nat)) as [->|Hj]; [rewrite Hx in Hy; injection Hy as <-; by destruct (total (keep (max_at_top q)) x x)|].
  pose proof (parent_lt j ltac:(lia)) as Hp.
  assert (exists z, key_at ks q (parent j) = Some z) as [z Hz].
  { unfold key_at in *. apply bind_Some in Hy as (s & Hs1 & _). apply lookup_lt_Some in Hs1.
    destruct (lookup_lt_is_Some_2 (qroot q) (parent j)) as [s' Hs']; [lia|]. rewrite Hs'. cbn.
    unfold in_slots in Hs. rewrite Forall_lookup in Hs. apply Hs in Hs'. by apply lookup_lt_is_Some_2. }
  trans z; [exact (Hh j y z ltac:(lia) I Hy Hz)|exact (IH _ Hp z Hz)].
Qed.
End Order.
Arguments keep {K le} b.
Arguments best {K} le {_} b n l.
Arguments heap {K} le ks q.
Arguments heap_where {K} le P ks q.

(** What the functions of the library keep. *)
Class QueueLaws (K : Type) (le : relation K) `{!KeyOrder K le} `{QueueLib K} := {
  law_init n b q : init_queue n b = Some q -> q = Queue [] n b;
  law_insert ks q s :
    elements q < max_elements q -> heap le ks q -> in_slots ks q -> (s < length ks)%nat ->
    let q' := queue_insert ks q s in
    heap le ks q' /\ qroot q' ≡ₚ s :: qroot q /\ max_elements q' = max_elements q /\ max_at_top q' = max_at_top q;
  (** [_downheap] at the top repairs a heap whose top is out of place. *)
  law_downheap ks q :
    heap_where le (fun p => p <> 0%nat) ks q -> in_slots ks q ->
    let q' := _downheap ks q 1 in
    heap le ks q' /\ qroot q' ≡ₚ qroot q /\ max_elements q' = max_elements q /\ max_at_top q' = max_at_top q;
}.

(** ** The N best elements *)

Section TopN.
Context {E K : Type} {le : relation K} `{!KeyOrder K le} `{!QueueLib K} `{!QueueLaws K le}.
Variable m_keymaker : E -> K.

Notation kept b := (take (length (qroot (m_queue b))) (m_sort_keys b)).

(** The queue of capacity [n + 1] after the elements of [es]: a heap over the slots
    from 0 on, which hold all their keys or, when it is full, at least the [n] best. *)
Record bq_inv (n : nat) (top : bool) (es : list E) (b : Bounded_queue K) : Prop := {
  inv_heap : heap le (m_sort_keys b) (m_queue b);
  inv_slots : qroot (m_queue b) ≡ₚ seq 0 (length (qroot (m_queue b)));
  inv_max : max_elements (m_queue b) = Z.of_nat n + 1;
  inv_top : max_at_top (m_queue b) = top;
  inv_room : (n < length (m_sort_keys b))%nat;
  inv_count : length (qroot (m_queue b)) = Nat.min (length es) (S n);
  inv_kept : if decide (length es <= n)%nat then kept b ≡ₚ m_keymaker <$> es
             else best le top n (kept b) = best le top n (m_keymaker <$> es);
}.

Lemma inv_in_slots n top es b : bq_inv n top es b -> in_slots (m_sort_keys b) (m_queue b).
Proof.
  intros []. unfold in_slots. rewrite inv_slots0. apply Forall_forall. intros s Hs%elem_of_seq. lia.
Qed.
Lemma inv_best n top es b : bq_inv n top es b -> best le top n (kept b) = best le top n (m_keymaker <$> es).
Proof. intros []. case_decide; [by apply best_proper|done]. Qed.

(** [heap] and the slots depend only on the keys in the slots. *)
Lemma key_at_insert (ks : list K) q s k j :
  in_slots ks q -> qroot q !! j <> Some s -> key_at (<[s := k]> ks) q j = key_at ks q j.
Proof.
  intros Hs Hj. unfold key_at. destruct (qroot q !! j) as [s'|] eqn:Es; [|done]. cbn.
  apply list_lookup_insert_ne. congruence.
Qed.
Lemma heap_insert_other (ks : list K) q s k :
  heap le ks q -> in_slots ks q -> s ∉ qroot q -> heap le (<[s := k]> ks) q.
Proof.
  intros Hh Hs Hni j x y Hj Hp Hx Hy.
  assert (Hne : forall i, qroot q !! i <> Some s) by (intros i ?%list_elem_of_lookup_2; done).
  rewrite key_at_insert in Hx, Hy by done. by apply (Hh j).
Qed.

Lemma push_not_full n top es b e :
  bq_inv n top es b -> (length es <= n)%nat ->
  exists b', push m_keymaker e b = Some b' /\ bq_inv n top (es ++ [e]) b'.
Proof.
  intros H Hle. pose proof (inv_in_slots _ _ _ _ H) as Hin. destruct H as [Hh Hs Hm Ht Hr Hc Hk].
  rewrite decide_True in Hk by done. rewrite Nat.min_l in Hc by lia.
  set (k := m_keymaker e). set (q := m_queue b) in *. set (ks := <[length es := k]> (m_sort_keys b)).
  assert (Hin' : in_slots ks q) by (unfold in_slots, ks; by rewrite length_insert).
  assert (Hh' : heap le ks q).
  { apply heap_insert_other; [done..|]. rewrite Hs, elem_of_seq. lia. }
  destruct (law_insert ks q (length es)) as (H1 & H2 & H3 & H4);
    [unfold elements; lia|done|done|unfold ks; rewrite length_insert; lia|].
  exists (BQ ks (queue_insert ks q (length es))). split.
  - unfold push, is_initialized, queue_is_full, elements. fold q. rewrite Hm, Hc.
    destruct (Z.ltb_spec 0 (Z.of_nat n + 1)); [|lia]. cbn [negb].
    destruct (Z.eqb_spec (Z.of_nat (length es)) (Z.of_nat n + 1)); [lia|]. rewrite Nat2Z.id.
    unfold make_key. rewrite decide_True by lia. done.
  - assert (Hlen : length (qroot (queue_insert ks q (length es))) = S (length es)) by (rewrite H2; cbn; by rewrite Hc).
    assert (Hkept : take (S (length es)) ks = take (length es) (m_sort_keys b) ++ [k]).
    { unfold ks. rewrite (take_S_r _ _ k) by (apply list_lookup_insert_eq; lia). by rewrite take_insert_ge by lia. }
    rewrite Hc in Hk.
    split; cbn [m_sort_keys m_queue]; rewrite ?Hlen; try done.
    + rewrite H2, Hs, Hc, seq_S. cbn. by rewrite Permutation_cons_append.
    + by rewrite H3.
    + by rewrite H4.
    + unfold ks. rewrite length_insert. lia.
    + rewrite length_app. cbn. lia.
    + rewrite Hkept. case_decide; [|apply best_proper]; by rewrite Hk, fmap_app.
Qed.

Lemma push_full n top es b e :
  bq_inv n top es b -> (n < length es)%nat ->
  exists b', push m_keymaker e b = Some b' /\ bq_inv n top (es ++ [e]) b'.
Proof.
  intros H Hlt. pose proof (inv_in_slots _ _ _ _ H) as Hin. destruct H as [Hh Hs Hm Ht Hr Hc Hk].
  rewrite decide_False in Hk by lia. rewrite Nat.min_r in Hc by lia.
  set (k := m_keymaker e). set (q := m_queue b) in *.
  destruct (lookup_lt_is_Some_2 (qroot q) 0) as [t Htop]; [lia|].
  assert (Htn : (t < S n)%nat).
  { apply list_elem_of_lookup_2 in Htop. rewrite Hs, elem_of_seq in Htop. lia. }
  set (ks := <[t := k]> (m_sort_keys b)).
  assert (Hin' : in_slots ks q) by (unfold in_slots, ks; by rewrite length_insert).
  assert (Hnd : NoDup (qroot q)) by (rewrite Hs; apply NoDup_seq).
  assert (Hh' : heap_where le (fun p => p <> 0%nat) ks q).
  { intros j x y Hj Hp Hx Hy. unfold ks in Hx, Hy.
    rewrite key_at_insert in Hx, Hy; [by apply (Hh j)|done| |done|].
    - intros Ht'. apply Hp. apply (NoDup_lookup (qroot q)) with t; done.
    - intros Ht'. assert (j = 0%nat) by (apply (NoDup_lookup (qroot q)) with t; done). lia. }
  destruct (law_downheap ks q Hh' Hin') as (H1 & H2 & H3 & H4).
  exists (BQ ks (_downheap ks q 1)). split.
  - unfold push, is_initialized, queue_is_full, elements. fold q. rewrite Hm, Hc.
    destruct (Z.ltb_spec 0 (Z.of_nat n + 1)); [|lia]. cbn [negb].
    destruct (Z.eqb_spec (Z.of_nat (S n)) (Z.of_nat n + 1)); [|lia].
    unfold queue_top, queue_element. change (Z.to_nat (1 - 1)) with 0%nat. rewrite Htop.
    change (1 <=? 1) with true. cbn [mbind option_bind].
    unfold make_key. rewrite decide_True by lia. done.
  - assert (Hlen : length (qroot (_downheap ks q 1)) = S n) by (by rewrite H2).
    split; cbn [m_sort_keys m_queue]; rewrite ?Hlen; try done.
    + by rewrite H2, Hs, Hc.
    + by rewrite H3.
    + by rewrite H4.
    + unfold ks. rewrite length_insert. lia.
    + rewrite length_app. lia.
    + rewrite decide_False by (rewrite length_app; lia). rewrite Hc in Hk.
      unfold ks. rewrite take_insert_lt by lia.
      destruct (lookup_lt_is_Some_2 (take (S n) (m_sort_keys b)) t) as [x Hx]; [rewrite length_take; lia|].
      rewrite (best_replace top n _ t x), Hk, best_add; [|rewrite length_take; lia|done|].
      * apply best_proper. by rewrite fmap_app, Permutation_app_comm.
      * apply Forall_lookup. intros s y Hsy. pose proof (lookup_lt_Some _ _ _ Hsy) as Hlts.
        rewrite length_take in Hlts. rewrite lookup_take_lt in Hsy, Hx by lia.
        assert (Hsq : s ∈ qroot q) by (rewrite Hs, elem_of_seq; lia).
        apply list_elem_of_lookup in Hsq as (j & Hj). rewrite <- Ht.
        apply (heap_top (m_sort_keys b) q x) with (j := j); try done; unfold key_at; [by rewrite Htop|by rewrite Hj].
Qed.

Lemma pushes_inv n top es es' b :
  bq_inv n top es b -> exists b', pushes m_keymaker es' b = Some b' /\ bq_inv n top (es ++ es') b'.
Proof.
  revert es b. induction es' as [|e es' IH]; intros es b H.
  - exists b. by rewrite app_nil_r.
  - assert (exists b1, push m_keymaker e b = Some b1 /\ bq_inv n top (es ++ [e]) b1) as (b1 & Hb1 & H1).
    { destruct (decide (length es <= n)%nat); [by apply push_not_full|apply push_full; [done|lia]]. }
    destruct (IH _ _ H1) as (b' & Hb' & H'). exists b'. rewrite <- (assoc_L app) in H'. split; [|done].
    unfold pushes. cbn [foldl mbind option_bind]. by rewrite Hb1.
Qed.

Lemma init_inv n top ks b :
  (n < length ks)%nat -> init (Z.of_nat n) top ks = Some b -> bq_inv n top [] b.
Proof.
  intros Hn Hi. unfold init in Hi. destruct (Z.leb_spec (UINT_MAX - 1) (Z.of_nat n)) as [|Hlt]; [done|].
  apply bind_Some in Hi as (q & Hq & [= <-]). pose proof (law_init _ _ _ Hq) as Hq'. subst q. unfold UINT_MAX in Hlt.
  rewrite wrapU_small by (unfold in_u; lia).
  split; cbn [m_sort_keys m_queue qroot max_elements max_at_top length]; try done.
  by rewrite decide_True by lia.
Qed.

(** C33 : the bounded queue keeps the [n] best elements.  Whatever is pushed, in
    whatever order, every push stays inside the array of [n + 1] keys; up to [n]
    elements all are kept, and from then on the [n] best keys in the slots in use
    are the [n] best of all that was pushed (the smallest for [max_at_top], the
    largest otherwise).  The library functions keep a binary heap. *)
Theorem bounded_queue_keeps_best (n : nat) (top : bool) (ks : list K) (es : list E) (b : Bounded_queue K) :
  (n < length ks)%nat -> init (Z.of_nat n) top ks = Some b ->
  exists b', pushes m_keymaker es b = Some b' /\
    let kept := take (Z.to_nat (num_elements b')) (m_sort_keys b') in
    num_elements b' = Z.of_nat (Nat.min (length es) (S n)) /\
    best le top n kept = best le top n (m_keymaker <$> es) /\
    ((length es <= n)%nat -> kept ≡ₚ m_keymaker <$> es).
Proof.
  intros Hn Hi. destruct (pushes_inv n top [] es b (init_inv _ _ _ _ Hn Hi)) as (b' & Hb & H).
  exists b'. cbn zeta. unfold num_elements, elements. rewrite Nat2Z.id. split_and!; [done| | |].
  - by rewrite (inv_count _ _ _ _ H).
  - by apply (inv_best _ _ _ _ H).
  - intros Hle. pose proof (inv_kept _ _ _ _ H) as Hk. by rewrite decide_True in Hk.
Qed.
End TopN.

(** [queues.h] numbers the elements from 1 ([queue_first_element]), but [pop] removes
    the element 0: its index is never the index of an element. *)
Lemma pop_index_not_in_queue (q : st_queue) : ~ queue_first_element q <= 0 <= queue_last_element q.
Proof. unfold queue_first_element. lia. Qed.

(** ** A library that satisfies the laws

    Sorting the slots is a heap. *)
Module Example.

Section Resort.
Context {K : Type} {le : relation K} `{!KeyOrder K le}.

Definition by_key (b : bool) (ks : list K) : relation nat := fun s t => flip (keep b (le := le)) (ks !!! s) (ks !!! t).
#[export] Instance by_key_dec b ks : RelDecision (by_key b ks).
Proof. intros s t. unfold by_key, flip. apply _. Defined.
#[export] Instance by_key_total b ks : Total (by_key b ks).
Proof. intros s t. unfold by_key, flip. apply (total (keep b)). Qed.
#[export] Instance by_key_trans b ks : Transitive (by_key b ks).
Proof. intros s t u. unfold by_key, flip. intros H1 H2. by trans (ks !!! t). Qed.

Definition resort (ks : list K) (q : st_queue) (slots : list nat) : st_queue :=
  Queue (merge_sort (by_key (max_at_top q) ks) slots) (max_elements q) (max_at_top q).

Lemma resort_heap ks q slots :
  heap le ks (resort ks q slots) /\ qroot (resort ks q slots) ≡ₚ slots /\
  max_elements (resort ks q slots) = max_elements q /\ max_at_top (resort ks q slots) = max_at_top q.
Proof.
  split_and!; [|apply merge_sort_Permutation|done..].
  intros j x y Hj _ Hx Hy. unfold key_at in *. cbn [resort qroot max_at_top] in *.
  apply bind_Some in Hx as (s & Hs & Hx), Hy as (t & Ht & Hy).
  pose proof (StronglySorted_merge_sort (by_key (max_at_top q) ks) slots) as Hsort.
  rewrite <- (take_drop_middle _ _ _ Ht) in Hsort. apply StronglySorted_app_1_r in Hsort.
  apply StronglySorted_cons in Hsort as [Hall _]. rewrite Forall_lookup in Hall.
  pose proof (parent_lt j Hj).
  assert (Hb : by_key (max_at_top q) ks t s).
  { apply (Hall (j - S (parent j))%nat). rewrite lookup_drop. rewrite <- Hs. f_equal. lia. }
  unfold by_key, flip in Hb. apply list_lookup_total_correct in Hx, Hy. by rewrite Hx, Hy in Hb.
Qed.

#[export] Instance resort_lib : QueueLib K := {
  init_queue n b := Some (Queue [] n b);
  queue_insert ks q s := resort ks q (s :: qroot q);
  queue_remove ks q i := (resort ks q (delete (Z.to_nat (i - 1)) (qroot q)), qroot q !!! Z.to_nat (i - 1));
  _downheap ks q i := resort ks q (qroot q);
}.
#[export] Instance resort_laws : QueueLaws K le.
Proof.
  split; [by intros n b q [= <-]|intros; apply resort_heap..].
Qed.
End Resort.

#[export] Instance Z_key_order : KeyOrder Z Z.le.
Proof.
  split; try apply _.
Defined.

(** The three smallest of seven numbers. *)
Lemma bounded_queue_keeps_best_witness :
  let b := BQ (repeat 0 4) (Queue [] 4 true) in
  exists b', pushes (fun z : Z => z) [5; 3; 9; 1; 7; 2; 8] b = Some b' /\
    best Z.le true 3 (take (Z.to_nat (num_elements b')) (m_sort_keys b')) = [1; 2; 3].
Proof.
  destruct (bounded_queue_keeps_best (le := Z.le) (QueueLaws0 := resort_laws (le := Z.le)) (fun z : Z => z) 3 true (repeat 0 4) [5; 3; 9; 1; 7; 2; 8]
              (BQ (repeat 0 4) (Queue [] 4 true))) as (b' & Hb & _ & Hk & _); [cbn; lia|reflexivity|].
  exists b'. split; [exact Hb|]. rewrite Hk. vm_compute. reflexivity.
Defined.
End Example.
