(* ===== verification/Arrays.v ===== *)
(** Arrays of the server: [Mem_root_array] of
    [mariadb/include/mysql/server/private/mem_root_array.h] and
    [Bounds_checked_array] of [private/sql_array.h].

    Memory is a list of blocks of cells; a cell is empty before an element is
    constructed in it and after the element is destroyed.  The state monad's [None]
    is a failed assertion or the use of an empty or missing cell. *)

From S2P Require Import Prelude.
Open Scope st_scope.

(** ** Mem_root_array *)

Module MemRoot.
Section Array.
Context {V : Type}.

(** [sizeof(Element_type)], the template argument, and whether the memory root can
    give so many bytes: [alloc_root] is declared only. *)
Variables (sizeof : Z) (has_trivial_destructor : bool) (alloc_root : Z -> bool).

Abbreviation block := (list (option V)).
Record Mem_root_array := MkArray { m_array : option nat; m_size : Z; m_capacity : Z }.
Record state := MkState { blocks : list block; arr : Mem_root_array }.

(** An argument passed by reference: a value elsewhere, or a cell. *)
Inductive reference := Elsewhere (v : V) | Cell (b : nat) (i : Z).

Definition get_cell (bs : list block) (b : nat) (i : Z) : option V :=
  if i <? 0 then None else bl ← bs !! b; mjoin (bl !! Z.to_nat i).
Definition set_cell (bs : list block) (b : nat) (i : Z) (c : option V) : option (list block) :=
  bl ← bs !! b;
  if (0 <=? i) && (i <? Z.of_nat (length bl)) then Some (<[b := <[Z.to_nat i := c]> bl]> bs) else None.
Definition deref (bs : list block) (r : reference) : option V :=
  match r with Elsewhere v => Some v | Cell b i => get_cell bs b i end.

(** Whether a cell holds an element that has to be destroyed before another one is
    constructed there. *)
Definition occupied (bs : list block) (b : nat) (i : Z) : bool :=
  negb has_trivial_destructor && bool_decide (is_Some (get_cell bs b i)).
(** Construct a copy in a cell, which fails over a live element; destroy the element
    of a cell. *)
Definition construct (b : nat) (i : Z) (v : V) : ST state unit :=
  fun s => if occupied (blocks s) b i then None
           else bs ← set_cell (blocks s) b i (Some v); Some (tt, MkState bs (arr s)).
Definition destroy (b : nat) (i : Z) : ST state unit :=
  if has_trivial_destructor then st_ret tt else
  fun s => _ ← get_cell (blocks s) b i; bs ← set_cell (blocks s) b i None; Some (tt, MkState bs (arr s)).
Definition load (r : reference) : ST state V := fun s => v ← deref (blocks s) r; Some (v, s).
Definition the_block : ST state nat := fun s => b ← m_array (arr s); Some (b, s).
Definition set_arr (a : Mem_root_array) : ST state unit := st_modify (fun s => MkState (blocks s) a).
Definition set_size (n : Z) : ST state unit :=
  st_modify (fun s => MkState (blocks s) (MkArray (m_array (arr s)) n (m_capacity (arr s)))).
Definition for_each (ixs : list Z) (f : Z -> ST state unit) : ST state unit :=
  foldr (fun i m => (f i;;; m)) (st_ret tt) ixs.
Definition assert (p : state -> bool) : ST state unit :=
  let* s := st_get in if (p s : bool) then st_ret tt else st_fail.

(** The constructor from a memory root only. *)
Definition new_array : Mem_root_array := MkArray None 0 0.

Definition size (s : state) : Z := m_size (arr s).
Definition capacity (s : state) : Z := m_capacity (arr s).
Definition element_size : Z := sizeof.
Definition empty (s : state) : bool := size s =? 0.
Definition at_ (n : Z) : ST state V :=
  assert (fun s => n <? size s);;; let* b := the_block in load (Cell b n).
Definition back : ST state V := let* s := st_get in at_ (u64 (size s - 1)).

Definition chop (pos : Z) : ST state unit :=
  assert (fun s => pos <? size s);;;
  let* s := st_get in
  (if has_trivial_destructor then st_ret tt
   else let* b := the_block in for_each (seqZ pos (size s - pos)) (destroy b));;;
  set_size pos.
Definition clear : ST state unit :=
  let* s := st_get in if (empty s : bool) then st_ret tt else chop 0.

(** The block that [alloc_root] gives for [bytes] bytes: the cells that fit. *)
Definition new_block (bytes : Z) : block := replicate (Z.to_nat (bytes / sizeof)) None.

Definition reserve (n : Z) : ST state bool :=
  let* s := st_get in
  if n <=? capacity s then st_ret false else
  let bytes := u64 (n * element_size) in
  if negb (alloc_root bytes) then st_ret true else
  let array := length (blocks s) in
  st_modify (fun s => MkState (blocks s ++ [new_block bytes]) (arr s));;;
  for_each (seqZ 0 (size s))
    (fun ix =>
       let* old := the_block in
       let* v := load (Cell old ix) in
       construct array ix v;;;
       (if has_trivial_destructor then st_ret tt else destroy old ix));;;
  set_arr (MkArray (Some array) (size s) n);;;
  st_ret false.

Definition min_capacity : Z := 20.
Definition expansion_factor : Z := 2.

Definition push_back (element : reference) : ST state bool :=
  let* s := st_get in
  let* oom := (if capacity s =? 0 then reserve min_capacity else st_ret false) in
  if (oom : bool) then st_ret true else
  let* s := st_get in
  let* oom := (if size s =? capacity s then reserve (u64 (capacity s * expansion_factor)) else st_ret false) in
  if (oom : bool) then st_ret true else
  let* s := st_get in
  let* b := the_block in
  set_size (u64 (size s + 1));;;
  let* v := load element in
  construct b (size s) v;;;
  st_ret false.

Definition pop_back : ST state unit :=
  assert (fun s => negb (empty s));;;
  let* s := st_get in
  (if has_trivial_destructor then st_ret tt
   else assert (fun s => u64 (size s - 1) <? size s);;;
        let* b := the_block in destroy b (u64 (size s - 1)));;;
  set_size (u64 (size s - 1)).

(** [while (n != m_size)]; the result of [push_back] is ignored. *)
Fixpoint push_until (fuel : nat) (n : Z) (val : reference) : ST state unit :=
  let* s := st_get in
  if size s =? n then st_ret tt else
  match fuel with O => st_fail | S fuel => push_back val;;; push_until fuel n val end.
Fixpoint pop_until (fuel : nat) (n : Z) : ST state unit :=
  let* s := st_get in
  if size s =? n then st_ret tt else
  match fuel with O => st_fail | S fuel => pop_back;;; pop_until fuel n end.

Definition resize (fuel : nat) (n : Z) (val : reference) : ST state unit :=
  let* s := st_get in
  if n =? size s then st_ret tt else
  if size s <? n then
    (let* oom := reserve n in
     if (oom : bool) then st_ret tt else push_until fuel n val)
  else
    (if has_trivial_destructor then st_ret tt else pop_until fuel n);;;
    set_size n.

(** The constructor from a memory root, a size and a value. *)
Definition new_array_of (fuel : nat) (n : Z) (val : reference) : ST state unit :=
  set_arr new_array;;; resize fuel n val.

(** *** The list an array stands for *)

Hypothesis sizeof_pos : 0 < sizeof.
Hypothesis alloc_limit : forall bytes, alloc_root bytes = true -> bytes < 2 ^ 63.

Definition dead (bl : block) : Prop := Forall (fun c => c = None) bl.

(** The cells of the array hold [l] and then [spare]; with a destructor, every cell
    of every block that is not an element of the array is empty. *)
Record rep (s : state) (l : list V) : Prop := {
  rep_size : size s = Z.of_nat (length l);
  rep_cap : size s <= capacity s;
  rep_bytes : capacity s * sizeof < 2 ^ 63;
  rep_cells :
    match m_array (arr s) with
    | None => capacity s = 0 /\ (has_trivial_destructor = false -> Forall dead (blocks s))
    | Some b =>
        exists spare, blocks s !! b = Some ((Some <$> l) ++ spare) /\
          capacity s <= Z.of_nat (length l + length spare) /\ 0 < capacity s /\
          (has_trivial_destructor = false ->
             dead spare /\ forall b' bl, b' <> b -> blocks s !! b' = Some bl -> dead bl)
    end;
}.

(** A counted loop with an invariant. *)
Lemma for_each_seqZ (f : Z -> ST state unit) (I : Z -> state -> Prop) lo n s :
  0 <= n -> I lo s ->
  (forall i s, lo <= i < lo + n -> I i s -> exists s', f i s = Some (tt, s') /\ I (i + 1) s') ->
  exists s', for_each (seqZ lo n) f s = Some (tt, s') /\ I (lo + n) s'.
Proof.
  revert lo s. induction n as [|n Hn IH|n] using (Z.succ_pred_induction 0); intros lo s H0 Hi Hf; [| |lia].
  - exists s. rewrite Z.add_0_r. by rewrite seqZ_nil by lia.
  - rewrite seqZ_cons by lia. destruct (Hf lo s ltac:(lia) Hi) as (s1 & Hs1 & H1).
    destruct (IH (Z.succ lo) s1 Hn) as (s' & Hs' & H'); [by rewrite <- Z.add_1_r|intros i t Hit; apply Hf; lia|].
    exists s'. replace (Z.pred (Z.succ n)) with n by lia. split.
    + cbn [for_each foldr]. unfold st_bind. by rewrite Hs1.
    + by replace (lo + Z.succ n) with (Z.succ lo + n) by lia.
Qed.

Lemma get_cell_at bs b bl i c :
  bs !! b = Some bl -> bl !! i = Some (Some c) -> get_cell bs b (Z.of_nat i) = Some c.
Proof.
  intros Hb Hi. unfold get_cell. destruct (Z.ltb_spec (Z.of_nat i) 0); [lia|].
  rewrite Hb. cbn. rewrite Nat2Z.id. by rewrite Hi.
Qed.
Lemma set_cell_at bs b bl i c :
  bs !! b = Some bl -> (i < length bl)%nat ->
  set_cell bs b (Z.of_nat i) c = Some (<[b := <[i := c]> bl]> bs).
Proof.
  intros Hb Hi. unfold set_cell. rewrite Hb. cbn. rewrite Nat2Z.id.
  destruct (Z.leb_spec 0 (Z.of_nat i)), (Z.ltb_spec (Z.of_nat i) (Z.of_nat (length bl))); first [lia|done].
Qed.

Lemma not_occupied bs b bl i c :
  bs !! b = Some bl -> bl !! i = Some c -> (has_trivial_destructor = false -> c = None) ->
  occupied bs b (Z.of_nat i) = false.
Proof.
  intros Hb Hi Hc. unfold occupied. destruct has_trivial_destructor; [done|]. cbn [negb andb].
  apply bool_decide_false. unfold get_cell. destruct (Z.ltb_spec (Z.of_nat i) 0); [lia|].
  rewrite Hb. cbn. rewrite Nat2Z.id, Hi, (Hc eq_refl). cbn. by intros [].
Qed.

(** The old block during the copy: the first [i] elements are destroyed. *)
Definition moved_from (i : nat) (bl : block) : block :=
  if has_trivial_destructor then bl else replicate i None ++ drop i bl.
(** The new block during the copy: the first [i] elements are there. *)
Definition moved_to (i : nat) (l : list V) (bl : block) : block := (Some <$> take i l) ++ drop i bl.

Lemma insert_replicate_drop (i : nat) (bl : block) :
  (i < length bl)%nat -> <[i := None]> (replicate i None ++ drop i bl) = replicate (S i) None ++ drop (S i) bl.
Proof.
  intros Hi. destruct (lookup_lt_is_Some_2 bl i Hi) as [c Hc]. rewrite (drop_S _ _ _ Hc).
  rewrite insert_app_r_alt by (rewrite length_replicate; lia). rewrite length_replicate, Nat.sub_diag. cbn [list_insert insert].
  by rewrite replicate_S_end, <- (assoc_L app).
Qed.
Lemma insert_fmap_take (i : nat) (l : list V) v (bl : block) :
  l !! i = Some v -> (i < length bl)%nat ->
  <[i := Some v]> ((Some <$> take i l) ++ drop i bl) = (Some <$> take (S i) l) ++ drop (S i) bl.
Proof.
  intros Hv Hi. destruct (lookup_lt_is_Some_2 bl i Hi) as [c Hc]. rewrite (drop_S _ _ _ Hc).
  pose proof (lookup_lt_Some _ _ _ Hv).
  rewrite insert_app_r_alt by (rewrite length_fmap, length_take; lia).
  rewrite length_fmap, length_take, Nat.min_l, Nat.sub_diag by lia. cbn [list_insert insert].
  by rewrite (take_S_r _ _ _ Hv), fmap_app, <- (assoc_L app).
Qed.

(** One round of the copy in [reserve]. *)
Definition copy_round (array : nat) (ix : Z) : ST state unit :=
  let* old := the_block in
  let* v := load (Cell old ix) in
  construct array ix v;;;
  (if has_trivial_destructor then st_ret tt else destroy old ix).

Definition copying (s0 : state) (b : nat) (bl : block) (fresh : block) (l : list V) (i : Z) (s : state) : Prop :=
  arr s = arr s0 /\
  blocks s = <[b := moved_from (Z.to_nat i) bl]> (blocks s0) ++ [moved_to (Z.to_nat i) l fresh].

Lemma copy_round_step s0 b l spare fresh i s :
  m_array (arr s0) = Some b -> blocks s0 !! b = Some ((Some <$> l) ++ spare) ->
  (length l <= length fresh)%nat -> dead fresh -> 0 <= i < Z.of_nat (length l) ->
  copying s0 b ((Some <$> l) ++ spare) fresh l i s ->
  exists s', copy_round (length (blocks s0)) i s = Some (tt, s') /\
    copying s0 b ((Some <$> l) ++ spare) fresh l (i + 1) s'.
Proof.
  intros Hm Hb Hlen Hfresh Hi [Ha Hs]. set (bl := (Some <$> l) ++ spare) in *.
  pose proof (lookup_lt_Some _ _ _ Hb) as Hblt.
  replace i with (Z.of_nat (Z.to_nat i)) in * by lia. set (k := Z.to_nat i) in *. rewrite !Nat2Z.id in Hs.
  replace (Z.of_nat k + 1) with (Z.of_nat (S k)) by lia.
  destruct (lookup_lt_is_Some_2 l k) as [v Hv]; [lia|].
  assert (Hblk : bl !! k = Some (Some v)).
  { unfold bl. rewrite lookup_app_l by (rewrite length_fmap; lia). by rewrite list_lookup_fmap, Hv. }
  assert (Hbk : (k < length bl)%nat) by (by apply lookup_lt_Some in Hblk).
  assert (Hmf : moved_from k bl !! k = Some (Some v)).
  { unfold moved_from. destruct has_trivial_destructor; [done|].
    rewrite lookup_app_r by (by rewrite length_replicate). by rewrite length_replicate, Nat.sub_diag, lookup_drop, Nat.add_0_r. }
  assert (Hmfl : length (moved_from k bl) = length bl).
  { unfold moved_from. destruct has_trivial_destructor; [done|]. rewrite length_app, length_replicate, length_drop. lia. }
  assert (Hmtl : length (moved_to k l fresh) = length fresh).
  { unfold moved_to. rewrite length_app, length_fmap, length_take, length_drop. lia. }
  assert (Hold : blocks s !! b = Some (moved_from k bl)).
  { rewrite Hs, lookup_app_l by (by rewrite length_insert). by apply list_lookup_insert_eq. }
  assert (Hnew : blocks s !! length (blocks s0) = Some (moved_to k l fresh)).
  { rewrite Hs, lookup_app_r by (by rewrite length_insert). by rewrite length_insert, Nat.sub_diag. }
  assert (Hfree : moved_to k l fresh !! k = Some None).
  { unfold moved_to. rewrite lookup_app_r, length_fmap, length_take, Nat.min_l, Nat.sub_diag, lookup_drop, Nat.add_0_r
      by (rewrite ?length_fmap, ?length_take; lia).
    destruct (lookup_lt_is_Some_2 fresh k) as [c Hc]; [lia|]. rewrite Hc.
    f_equal. unfold dead in Hfresh. rewrite Forall_lookup in Hfresh. by apply (Hfresh k). }
  assert (Hset : <[length (blocks s0) := <[k := Some v]> (moved_to k l fresh)]> (blocks s) =
                 <[b := moved_from k bl]> (blocks s0) ++ [moved_to (S k) l fresh]).
  { rewrite Hs, insert_app_r_alt by (by rewrite length_insert). rewrite length_insert, Nat.sub_diag.
    cbn [list_insert insert]. unfold moved_to. by rewrite insert_fmap_take by (done || lia). }
  unfold copy_round, st_bind, the_block, load, construct. rewrite Ha, Hm. cbn [mbind option_bind deref].
  rewrite (get_cell_at _ _ _ _ _ Hold Hmf). cbn [mbind option_bind].
  rewrite (not_occupied _ _ _ _ _ Hnew Hfree) by done.
  rewrite (set_cell_at _ _ _ _ _ Hnew), Hset by lia. cbn [mbind option_bind].
  unfold destroy, moved_from in *. unfold copying, moved_from. destruct has_trivial_destructor.
  - unfold st_ret. eexists. split; [done|]. cbn [blocks arr]. split; [done|]. by rewrite Nat2Z.id.
  - cbn [blocks arr]. set (bs := <[b := _]> (blocks s0) ++ _).
    assert (Hold' : bs !! b = Some (replicate k None ++ drop k bl)).
    { unfold bs. rewrite lookup_app_l by (by rewrite length_insert). by apply list_lookup_insert_eq. }
    rewrite (get_cell_at _ _ _ _ _ Hold' Hmf). cbn [mbind option_bind].
    rewrite (set_cell_at _ _ _ _ _ Hold') by lia. cbn [mbind option_bind].
    eexists. split; [done|]. cbn [blocks arr]. split; [done|]. rewrite Nat2Z.id.
    unfold bs. rewrite insert_app_l by (by rewrite length_insert). by rewrite list_insert_insert_eq, insert_replicate_drop.
Qed.

Lemma in_rep_bytes n : n * sizeof < 2 ^ 64 -> 0 <= n -> u64 (n * element_size) = n * sizeof.
Proof. intros. apply wrapU_small. unfold in_u, element_size. nia. Qed.
Lemma new_block_length n : 0 <= n -> length (new_block (n * sizeof)) = Z.to_nat n.
Proof. intros. unfold new_block. by rewrite length_replicate, Z.div_mul by lia. Qed.
Lemma dead_new_block bytes : dead (new_block bytes).
Proof. unfold dead, new_block. by apply Forall_replicate. Qed.
Lemma dead_replicate n : dead (replicate n None).
Proof. by apply Forall_replicate. Qed.

Lemma reserve_fits s n : n <= capacity s -> reserve n s = Some (false, s).
Proof. intros H. unfold reserve, st_bind, st_get. by destruct (Z.leb_spec n (capacity s)); [|lia]. Qed.
Lemma reserve_refused s n :
  capacity s < n -> 0 <= n -> n * sizeof < 2 ^ 64 -> alloc_root (n * sizeof) = false ->
  reserve n s = Some (true, s).
Proof.
  intros H Hn Hs Ha. unfold reserve, st_bind, st_get. destruct (Z.leb_spec n (capacity s)); [lia|].
  by rewrite in_rep_bytes, Ha by done.
Qed.

(** The copy loop of [reserve]: [old] is what it leaves of the other blocks. *)
Lemma copy_loop s l fresh :
  rep s l -> (length l <= length fresh)%nat -> dead fresh ->
  exists old,
    for_each (seqZ 0 (size s)) (copy_round (length (blocks s))) (MkState (blocks s ++ [fresh]) (arr s)) =
      Some (tt, MkState (old ++ [(Some <$> l) ++ drop (length l) fresh]) (arr s)) /\
    length old = length (blocks s) /\
    (has_trivial_destructor = true -> old = blocks s) /\ (has_trivial_destructor = false -> Forall dead old).
Proof.
  intros [Hsz Hcap _ Hcells] Hl Hfresh. destruct (m_array (arr s)) as [b|] eqn:Em.
  - destruct Hcells as (spare & Hb & Hsp & Hpos & Hdead).
    pose proof (lookup_lt_Some _ _ _ Hb) as Hblt. set (bl := (Some <$> l) ++ spare) in *.
    destruct (for_each_seqZ (copy_round (length (blocks s))) (copying s b bl fresh l) 0 (size s)
                (MkState (blocks s ++ [fresh]) (arr s))) as (s' & Hs' & Ha & Hbs); [lia| | |].
    + split; [done|]. cbn [blocks]. unfold moved_from, moved_to. cbn [replicate Z.to_nat]. rewrite !drop_0.
      cbn. rewrite list_insert_id; [done|]. by destruct has_trivial_destructor.
    + intros i t Hi. apply (copy_round_step s b l spare); try done; lia.
    + rewrite Z.add_0_l in Hbs. unfold size in Hsz. exists (<[b := moved_from (length l) bl]> (blocks s)).
      split_and!.
      * rewrite Hs'. destruct s'. cbn in Ha, Hbs. subst. unfold size. rewrite Hsz, Nat2Z.id.
        unfold moved_to. by rewrite firstn_all.
      * by rewrite length_insert.
      * intros Ht. unfold moved_from. rewrite Ht. by rewrite list_insert_id.
      * intros Ht. destruct (Hdead Ht) as [Hsd Hothers]. apply Forall_lookup. intros b' bl' Hbl'.
        destruct (decide (b' = b)) as [->|Hne].
        -- rewrite list_lookup_insert_eq in Hbl' by done. injection Hbl' as <-. unfold moved_from, bl. rewrite Ht.
           rewrite drop_app_length' by (by rewrite length_fmap). apply Forall_app. split; [apply dead_replicate|done].
        -- rewrite list_lookup_insert_ne in Hbl' by done. by apply (Hothers b').
  - destruct Hcells as [Hc0 Hdead]. assert (l = []) as -> by (destruct l; [done|cbn in Hsz; lia]).
    exists (blocks s). rewrite Hsz. cbn. by rewrite drop_0.
Qed.

(** A growing [reserve] moves the elements to a new block. *)
Lemma reserve_grows s l n :
  rep s l -> capacity s < n -> 0 <= n -> n * sizeof < 2 ^ 64 -> alloc_root (n * sizeof) = true ->
  exists s' old, reserve n s = Some (false, s') /\ rep s' l /\
    arr s' = MkArray (Some (length (blocks s))) (size s) n /\ length old = length (blocks s) /\
    (exists bl, blocks s' = old ++ [bl]) /\
    (has_trivial_destructor = true -> old = blocks s) /\ (has_trivial_destructor = false -> Forall dead old).
Proof.
  intros H Hn Hn0 Hn64 Ha. pose proof (alloc_limit _ Ha) as Hlim.
  pose proof (rep_size _ _ H) as Hsz. pose proof (rep_cap _ _ H) as Hcap.
  pose proof (new_block_length n Hn0) as Hfresh.
  destruct (copy_loop s l (new_block (n * sizeof)) H) as (old & Hloop & Hold & Ht & Hd); [lia|apply dead_new_block|].
  eexists _, old. split.
  - unfold reserve. unfold st_bind at 1, st_get at 1. destruct (Z.leb_spec n (capacity s)); [lia|].
    rewrite in_rep_bytes, Ha by done. cbn [negb]. fold (copy_round (length (blocks s))).
    unfold st_bind at 1, st_modify at 1. unfold st_bind at 1. rewrite Hloop. reflexivity.
  - cbn [blocks arr]. split_and!; [|done|done|by eexists|done|done].
    split; unfold size, capacity; cbn [arr m_size m_capacity m_array blocks]; try (unfold size in *; lia).
    exists (drop (length l) (new_block (n * sizeof))). rewrite length_drop, Hfresh. split_and!; [|lia|lia|].
    + by rewrite lookup_app_r, Hold, Nat.sub_diag by lia.
    + intros Hf. split; [apply Forall_drop, dead_new_block|]. intros b' bl Hne Hbl. specialize (Hd Hf).
      rewrite Forall_lookup in Hd. apply (Hd b'). rewrite lookup_app_l in Hbl; [done|].
      apply lookup_lt_Some in Hbl. rewrite length_app in Hbl. cbn in Hbl. lia.
Qed.

(** The last part of [push_back]. *)
Definition push_tail (element : reference) : ST state bool :=
  let* s := st_get in
  let* b := the_block in
  set_size (u64 (size s + 1));;;
  let* v := load element in
  construct b (size s) v;;;
  st_ret false.

Lemma cap_small s l : rep s l -> 0 <= size s /\ capacity s < 2 ^ 63.
Proof. intros [Hs Hc Hb _]. split; [lia|]. nia. Qed.

Lemma push_tail_spec s l r v :
  rep s l -> size s < capacity s -> deref (blocks s) r = Some v ->
  exists s', push_tail r s = Some (false, s') /\ rep s' (l ++ [v]) /\ capacity s' = capacity s.
Proof.
  intros H Hlt Hr. pose proof (cap_small _ _ H) as [Hs0 Hc0]. destruct H as [Hsz Hcap Hby Hcells].
  destruct (m_array (arr s)) as [b|] eqn:Em; [|lia].
  destruct Hcells as (spare & Hb & Hsp & Hpos & Hdead).
  destruct spare as [|c spare]; [cbn in Hsp; lia|].
  unfold push_tail, st_bind, st_get, the_block, set_size, st_modify, load, construct, st_ret.
  rewrite Em. cbn [mbind option_bind blocks arr]. rewrite Hr. cbn [mbind option_bind blocks arr].
  assert (Hc : ((Some <$> l) ++ c :: spare) !! length l = Some c)
    by (rewrite lookup_app_r, length_fmap, Nat.sub_diag by (by rewrite length_fmap); done).
  rewrite Hsz, (not_occupied _ _ _ _ _ Hb Hc) by (intros Ht; destruct (Hdead Ht) as [Hd _]; by apply Forall_cons in Hd as [-> _]).
  rewrite (set_cell_at _ _ _ _ _ Hb) by (rewrite length_app, length_fmap; cbn; lia).
  cbn [mbind option_bind]. eexists. split; [reflexivity|].
  rewrite wrapU_small by (unfold in_u; lia).
  split; [|done]. split; unfold size, capacity in *; cbn [arr m_size m_capacity m_array blocks] in *; rewrite ?Em.
  - rewrite length_app. cbn. lia.
  - lia.
  - done.
  - exists spare. pose proof (lookup_lt_Some _ _ _ Hb). split_and!.
    + rewrite list_lookup_insert_eq by done. f_equal.
      rewrite insert_app_r_alt by (by rewrite length_fmap). rewrite length_fmap, Nat.sub_diag.
      cbn [list_insert insert]. by rewrite fmap_app, <- (assoc_L app).
    + rewrite length_app. cbn in *. lia.
    + lia.
    + intros Ht. destruct (Hdead Ht) as [Hd Ho]. apply Forall_cons in Hd as [_ Hd]. split; [done|].
      intros b' bl Hne Hbl. rewrite list_lookup_insert_ne in Hbl by done. by apply (Ho b').
Qed.

(** The capacity that [push_back] asks for, 0 when there is room. *)
Definition growth (s : state) : Z :=
  if capacity s =? 0 then min_capacity
  else if size s =? capacity s then capacity s * expansion_factor else 0.

Lemma push_back_room r s : growth s = 0 -> 0 <= size s <= capacity s -> push_back r s = push_tail r s.
Proof.
  unfold growth, min_capacity, expansion_factor. intros Hg Hs. unfold push_back.
  unfold st_bind at 1, st_get at 1. destruct (Z.eqb_spec (capacity s) 0); [done|].
  unfold st_bind at 1, st_ret at 1. unfold st_bind at 1, st_get at 1.
  destruct (Z.eqb_spec (size s) (capacity s)); [lia|]. reflexivity.
Qed.
Lemma push_back_refused r s :
  growth s <> 0 -> 0 <= size s <= capacity s -> capacity s < 2 ^ 63 ->
  reserve (growth s) s = Some (true, s) -> push_back r s = Some (true, s).
Proof.
  unfold growth, min_capacity, expansion_factor. intros Hg Hs Hc. unfold push_back.
  unfold st_bind at 1, st_get at 1. destruct (Z.eqb_spec (capacity s) 0).
  - intros Hr. unfold st_bind at 1. unfold min_capacity. by rewrite Hr.
  - unfold st_bind at 1, st_ret at 1. unfold st_bind at 1, st_get at 1.
    destruct (Z.eqb_spec (size s) (capacity s)); [|done]. unfold expansion_factor.
    rewrite wrapU_small by (unfold in_u; lia). intros Hr. unfold st_bind at 1. by rewrite Hr.
Qed.
Lemma push_back_grown r s s1 :
  growth s <> 0 -> 0 <= size s <= capacity s -> capacity s < 2 ^ 63 ->
  reserve (growth s) s = Some (false, s1) -> size s1 <> capacity s1 -> push_back r s = push_tail r s1.
Proof.
  unfold growth, min_capacity, expansion_factor. intros Hg Hs Hc. unfold push_back.
  unfold st_bind at 1, st_get at 1. destruct (Z.eqb_spec (capacity s) 0).
  - intros Hr Hne. unfold st_bind at 1. unfold min_capacity. rewrite Hr.
    unfold st_bind at 1, st_get at 1. destruct (Z.eqb_spec (size s1) (capacity s1)); done.
  - unfold st_bind at 1, st_ret at 1. unfold st_bind at 1, st_get at 1.
    destruct (Z.eqb_spec (size s) (capacity s)); [|done]. unfold expansion_factor.
    rewrite wrapU_small by (unfold in_u; lia). intros Hr Hne. unfold st_bind at 1. by rewrite Hr.
Qed.

Hypothesis first_fits : min_capacity * sizeof < 2 ^ 64.

Lemma growth_fits s l : rep s l -> 0 <= growth s /\ growth s * sizeof < 2 ^ 64 /\ (growth s <> 0 -> capacity s < growth s /\ size s < growth s).
Proof.
  intros [Hs Hc Hb _]. unfold growth, expansion_factor, min_capacity in *.
  destruct (Z.eqb_spec (capacity s) 0), (Z.eqb_spec (size s) (capacity s)); lia.
Qed.

(** [push_back] of a value that can be read where it is: refused without a change
    when growing is refused, and otherwise an addition at the end. *)
Lemma push_back_spec r s l v :
  rep s l -> deref (blocks s) r = Some v ->
  (r = Elsewhere v \/ has_trivial_destructor = true \/ growth s = 0) ->
  exists oom s', push_back r s = Some (oom, s') /\ oom = negb (growth s =? 0) && negb (alloc_root (growth s * sizeof)) /\
    if oom then s' = s else rep s' (l ++ [v]).
Proof.
  intros H Hr Hok. pose proof (cap_small _ _ H) as [Hs0 Hc]. pose proof (rep_cap _ _ H) as Hcap.
  destruct (growth_fits _ _ H) as (Hg0 & Hg64 & Hgl).
  destruct (Z.eqb_spec (growth s) 0) as [Eg|Eg].
  - rewrite push_back_room by (done || lia). exists false.
    destruct (push_tail_spec s l r v H) as (s' & Hs' & H' & _); [|done|by exists s'].
    unfold growth, min_capacity, expansion_factor in Eg.
    destruct (Z.eqb_spec (capacity s) 0), (Z.eqb_spec (size s) (capacity s)); lia.
  - destruct (Hgl Eg) as [Hgc Hgs]. destruct (alloc_root (growth s * sizeof)) eqn:Ea; cbn [negb andb].
    + destruct (reserve_grows s l (growth s) H Hgc Hg0 Hg64 Ea)
        as (s1 & old & Hres & H1 & Ha1 & Hold & (bl & Hbl) & Ht & _).
      assert (Hsz1 : size s1 = size s) by (unfold size; by rewrite Ha1).
      assert (Hcp1 : capacity s1 = growth s) by (unfold capacity; by rewrite Ha1).
      rewrite (push_back_grown r s s1) by (done || lia). exists false.
      destruct (push_tail_spec s1 l r v H1) as (s' & Hs' & H' & _); [lia| |by exists s'].
      destruct Hok as [->|[Htr|]]; [done| |done]. destruct r as [w|b i]; [done|].
      cbn [deref] in *. rewrite Hbl, (Ht Htr). unfold get_cell in *. case_match; [done|].
      destruct (blocks s !! b) as [bl'|] eqn:Eb; [|done]. by rewrite (lookup_app_l_Some _ _ _ _ Eb).
    + exists true, s. rewrite push_back_refused by (done || lia || by apply reserve_refused). done.
Qed.

(** *** Removing elements *)

(** The block while [chop pos] runs: the elements from [pos] to [i] are destroyed. *)
Definition chopped (pos i : nat) (l : list V) (spare : block) : block :=
  (Some <$> take pos l) ++ replicate (i - pos) None ++ (Some <$> drop i l) ++ spare.

Lemma chopped_start pos l spare : (pos <= length l)%nat -> chopped pos pos l spare = (Some <$> l) ++ spare.
Proof.
  intros Hp. unfold chopped. rewrite Nat.sub_diag. cbn [replicate app].
  by rewrite (assoc_L app), <- fmap_app, take_drop.
Qed.
Lemma chopped_lookup pos i l spare v : (pos <= i)%nat -> l !! i = Some v -> chopped pos i l spare !! i = Some (Some v).
Proof.
  intros Hp Hv. pose proof (lookup_lt_Some _ _ _ Hv). unfold chopped.
  rewrite lookup_app_r, length_fmap, length_take by (rewrite length_fmap, length_take; lia).
  rewrite lookup_app_r, length_replicate by (rewrite length_replicate; lia).
  rewrite lookup_app_l by (rewrite length_fmap, length_drop; lia).
  rewrite list_lookup_fmap, lookup_drop. replace (i + _)%nat with i by lia. by rewrite Hv.
Qed.
Lemma chopped_step pos i l spare :
  (pos <= i < length l)%nat -> <[i := None]> (chopped pos i l spare) = chopped pos (S i) l spare.
Proof.
  intros Hi. destruct (lookup_lt_is_Some_2 l i) as [v Hv]; [lia|]. unfold chopped.
  rewrite (drop_S _ _ _ Hv), Nat.sub_succ_l by lia.
  rewrite insert_app_r_alt, length_fmap, length_take by (rewrite length_fmap, length_take; lia).
  rewrite insert_app_r_alt, length_replicate by (rewrite length_replicate; lia).
  replace (i - pos `min` length l - (i - pos))%nat with O by lia. cbn [fmap list_fmap app list_insert insert].
  by rewrite replicate_S_end, <- !(assoc_L app).
Qed.
Lemma chopped_length pos i l spare :
  (pos <= i <= length l)%nat -> length (chopped pos i l spare) = (length l + length spare)%nat.
Proof.
  intros Hi. unfold chopped. rewrite !length_app, !length_fmap, length_replicate, length_take, length_drop. lia.
Qed.
Lemma chopped_end pos l spare :
  (pos <= length l)%nat -> chopped pos (length l) l spare = (Some <$> take pos l) ++ replicate (length l - pos) None ++ spare.
Proof. intros Hp. unfold chopped. by rewrite drop_all. Qed.

Lemma rep_truncate s l b pos bs :
  rep s l -> m_array (arr s) = Some b -> (pos <= length l)%nat ->
  (forall spare, blocks s !! b = Some ((Some <$> l) ++ spare) ->
     bs = if has_trivial_destructor then blocks s else <[b := chopped pos (length l) l spare]> (blocks s)) ->
  rep (MkState bs (MkArray (Some b) (Z.of_nat pos) (capacity s))) (take pos l).
Proof.
  intros [Hsz Hcap Hby Hcells] Em Hpos Hbs. rewrite Em in Hcells.
  destruct Hcells as (spare & Hb & Hsp & Hpos' & Hdead). specialize (Hbs _ Hb).
  pose proof (lookup_lt_Some _ _ _ Hb) as Hblt.
  split; unfold size, capacity in *; cbn [arr m_size m_capacity m_array blocks].
  - rewrite length_take. lia.
  - lia.
  - done.
  - subst bs. destruct has_trivial_destructor eqn:Et.
    + exists ((Some <$> drop pos l) ++ spare). rewrite (assoc_L app), <- fmap_app, take_drop.
      rewrite length_app, length_fmap, length_take, length_drop. split_and!; [done|lia|done|done].
    + exists (replicate (length l - pos) None ++ spare). destruct (Hdead eq_refl) as [Hd Ho].
      rewrite list_lookup_insert_eq, chopped_end by done.
      rewrite length_app, length_replicate, length_take. split_and!; [done|lia|done|]. intros _. split.
      * apply Forall_app. split; [apply dead_replicate|done].
      * intros b' bl Hne Hbl. rewrite list_lookup_insert_ne in Hbl by done. by apply (Ho b').
Qed.

Lemma destroy_step s b bl i v :
  has_trivial_destructor = false -> blocks s !! b = Some bl -> bl !! i = Some (Some v) ->
  destroy b (Z.of_nat i) s = Some (tt, MkState (<[b := <[i := None]> bl]> (blocks s)) (arr s)).
Proof.
  intros Ht Hb Hi. unfold destroy. rewrite Ht. rewrite (get_cell_at _ _ _ _ _ Hb Hi). cbn [mbind option_bind].
  by rewrite (set_cell_at _ _ _ _ _ Hb) by (by apply lookup_lt_Some in Hi).
Qed.

Lemma chop_spec s l pos :
  rep s l -> (pos < length l)%nat ->
  exists s', chop (Z.of_nat pos) s = Some (tt, s') /\ rep s' (take pos l) /\ capacity s' = capacity s.
Proof.
  intros H Hpos. pose proof (rep_size _ _ H) as Hsz. pose proof (rep_cap _ _ H) as Hcap.
  pose proof (rep_cells _ _ H) as Hcells. destruct (m_array (arr s)) as [b|] eqn:Em; [|lia].
  destruct Hcells as (spare & Hb & Hsp & Hpos' & Hdead). pose proof (lookup_lt_Some _ _ _ Hb) as Hblt.
  unfold chop, assert. unfold st_bind at 1 2, st_get at 1. destruct (Z.ltb_spec (Z.of_nat pos) (size s)); [|lia].
  unfold st_ret at 1. unfold st_bind at 1, st_get at 1. destruct has_trivial_destructor eqn:Et.
  - unfold st_bind, st_ret, set_size, st_modify. rewrite Em. eexists. split; [reflexivity|]. split; [|done].
    apply (rep_truncate s l b pos (blocks s) H Em); [lia|]. intros. by rewrite Et.
  - unfold st_bind at 1 2, the_block at 1. rewrite Em. cbn [mbind option_bind].
    destruct (for_each_seqZ (destroy b)
      (fun i t => arr t = arr s /\ blocks t = <[b := chopped pos (Z.to_nat i) l spare]> (blocks s))
      (Z.of_nat pos) (size s - Z.of_nat pos) s) as (s' & Hs' & Ha & Hbs); [lia| | |].
    + rewrite Nat2Z.id, chopped_start by lia. by rewrite list_insert_id.
    + intros i t Hi [Ha Hbs]. replace i with (Z.of_nat (Z.to_nat i)) in * by lia. set (k := Z.to_nat i) in *.
      rewrite Nat2Z.id in Hbs. replace (Z.of_nat k + 1) with (Z.of_nat (S k)) by lia.
      destruct (lookup_lt_is_Some_2 l k) as [v Hv]; [lia|].
      eexists. split; [apply (destroy_step t b (chopped pos k l spare) k v); [done| |apply chopped_lookup; [lia|done]]|].
      * rewrite Hbs. by apply list_lookup_insert_eq.
      * cbn [arr blocks]. rewrite Nat2Z.id, Hbs, list_insert_insert_eq, chopped_step by lia. done.
    + rewrite Hs'. unfold set_size, st_modify. eexists. split; [reflexivity|].
      replace (Z.of_nat pos + (size s - Z.of_nat pos)) with (Z.of_nat (length l)) in Hbs by lia. rewrite Nat2Z.id in Hbs.
      rewrite Ha, Em. split; [|done].
      apply (rep_truncate s l b pos _ H Em); [lia|]. intros sp Hsp'. rewrite Et, Hbs.
      rewrite Hb in Hsp'. injection Hsp' as Hsp'. apply app_inv_head in Hsp'. by subst sp.
Qed.

Lemma pop_back_chop s l : rep s l -> l <> [] -> pop_back s = chop (Z.of_nat (length l - 1)) s.
Proof.
  intros H Hne. pose proof (rep_size _ _ H) as Hsz. pose proof (cap_small _ _ H). pose proof (rep_cap _ _ H).
  destruct l as [|x l]; [done|]. cbn [length] in *.
  assert (Hu : u64 (size s - 1) = Z.of_nat (S (length l) - 1)) by (rewrite wrapU_small; unfold in_u; lia).
  unfold pop_back, chop, assert, empty, st_bind, st_get, st_ret, st_fail. cbv beta iota.
  destruct (Z.eqb_spec (size s) 0); [lia|]. cbn [negb].
  destruct (Z.ltb_spec (Z.of_nat (S (length l) - 1)) (size s)); [|lia].
  cbv beta iota. rewrite Hu. destruct has_trivial_destructor; [done|]. cbv beta iota.
  rewrite ?Hu. destruct (Z.ltb_spec (Z.of_nat (S (length l) - 1)) (size s)); [|lia]. cbv beta iota.
  destruct (the_block s) as [[b s1]|]; [|done].
  replace (size s - Z.of_nat (S (length l) - 1)) with 1 by lia.
  rewrite seqZ_cons, seqZ_nil by lia. cbn [for_each foldr]. unfold st_bind, st_ret.
  by destruct (destroy b _ s1) as [[[] s2]|].
Qed.

Lemma pop_back_spec s l :
  rep s l ->
  if decide (l = []) then pop_back s = None
  else exists s', pop_back s = Some (tt, s') /\ rep s' (take (length l - 1) l) /\ capacity s' = capacity s.
Proof.
  intros H. case_decide as Hl.
  - subst l. pose proof (rep_size _ _ H) as Hsz. unfold pop_back, assert, empty, st_bind, st_get. by rewrite Hsz.
  - rewrite (pop_back_chop s l H Hl). apply chop_spec; [done|]. destruct l; [done|]. cbn. lia.
Qed.

(** *** Resizing *)

Lemma pop_until_spec fuel s l n :
  rep s l -> (n <= length l)%nat -> (length l - n <= fuel)%nat ->
  exists s', pop_until fuel (Z.of_nat n) s = Some (tt, s') /\ rep s' (take n l).
Proof.
  revert s l. induction fuel as [|fuel IH]; intros s l H Hn Hf; pose proof (rep_size _ _ H) as Hsz;
    cbn [pop_until]; unfold st_bind at 1, st_get at 1.
  - destruct (Z.eqb_spec (size s) (Z.of_nat n)); [|lia]. exists s. by rewrite firstn_all2 by lia.
  - destruct (Z.eqb_spec (size s) (Z.of_nat n)); [exists s; by rewrite firstn_all2 by lia|].
    pose proof (pop_back_spec s l H) as Hpop. rewrite decide_False in Hpop by (intros ->; cbn in *; lia).
    destruct Hpop as (s1 & Hs1 & H1 & _). unfold st_bind. rewrite Hs1.
    destruct (IH s1 _ H1) as (s' & Hs' & H'); [rewrite length_take; lia..|].
    exists s'. split; [done|]. by rewrite take_take, Nat.min_l in H' by lia.
Qed.

(** Once [reserve] has made room, the loop of [resize] never grows the array. *)
Lemma push_until_spec fuel s l n v :
  rep s l -> (length l <= n)%nat -> Z.of_nat n <= capacity s -> (n - length l <= fuel)%nat ->
  exists s', push_until fuel (Z.of_nat n) (Elsewhere v) s = Some (tt, s') /\ rep s' (l ++ replicate (n - length l) v).
Proof.
  revert s l. induction fuel as [|fuel IH]; intros s l H Hn Hc Hf; pose proof (rep_size _ _ H) as Hsz;
    cbn [push_until]; unfold st_bind at 1, st_get at 1.
  - destruct (Z.eqb_spec (size s) (Z.of_nat n)); [|lia]. exists s.
    replace (n - length l)%nat with O by lia. by rewrite app_nil_r.
  - destruct (Z.eqb_spec (size s) (Z.of_nat n)).
    { exists s. replace (n - length l)%nat with O by lia. by rewrite app_nil_r. }
    destruct (push_tail_spec s l (Elsewhere v) v H) as (s1 & Hs1 & H1 & Hc1); [lia|done|].
    assert (Hg : growth s = 0).
    { unfold growth. destruct (Z.eqb_spec (capacity s) 0), (Z.eqb_spec (size s) (capacity s)); lia. }
    unfold st_bind. rewrite push_back_room, Hs1 by (done || lia).
    destruct (IH s1 _ H1) as (s' & Hs' & H'); [rewrite length_app; cbn; lia|lia|rewrite length_app; cbn; lia|].
    exists s'. split; [done|]. rewrite <- (assoc_L app), length_app in H'. cbn [length] in H'.
    replace (n - length l)%nat with (S (n - (length l + 1)))%nat by lia. exact H'.
Qed.

Lemma resize_spec fuel s l n v :
  rep s l -> Z.of_nat n * sizeof < 2 ^ 64 -> (n - length l <= fuel)%nat -> (length l - n <= fuel)%nat ->
  let refused := (capacity s <? Z.of_nat n) && negb (alloc_root (Z.of_nat n * sizeof)) in
  exists s', resize fuel (Z.of_nat n) (Elsewhere v) s = Some (tt, s') /\
    if refused then s' = s else rep s' (take n l ++ replicate (n - length l) v).
Proof.
  intros H H64 Hf1 Hf2 refused. pose proof (rep_size _ _ H) as Hsz. pose proof (rep_cap _ _ H) as Hcap.
  unfold resize, refused. unfold st_bind at 1, st_get at 1. destruct (Z.eqb_spec (Z.of_nat n) (size s)) as [Heq|Hne].
  { destruct (Z.ltb_spec (capacity s) (Z.of_nat n)); [lia|]. exists s. split; [done|].
    replace (n - length l)%nat with O by lia. by rewrite firstn_all2, app_nil_r by lia. }
  destruct (Z.ltb_spec (size s) (Z.of_nat n)) as [Hlt|Hge].
  - rewrite firstn_all2 by lia. destruct (Z.ltb_spec (capacity s) (Z.of_nat n)) as [Hc|Hc]; cbn [andb].
    + destruct (alloc_root (Z.of_nat n * sizeof)) eqn:Ea; cbn [negb].
      * destruct (reserve_grows s l (Z.of_nat n) H Hc) as (s1 & old & Hres & H1 & Ha1 & _); [lia..|done|].
        unfold st_bind. rewrite Hres. apply push_until_spec; [done|lia| |done]. unfold capacity. rewrite Ha1. cbn. lia.
      * unfold st_bind. rewrite reserve_refused by (done || lia). by exists s.
    + unfold st_bind. rewrite reserve_fits by lia. by apply push_until_spec; [|lia..].
  - destruct (Z.ltb_spec (capacity s) (Z.of_nat n)); [lia|]. cbn [andb].
    replace (n - length l)%nat with O by lia. rewrite app_nil_r.
    assert (exists s1, (if has_trivial_destructor then st_ret tt else pop_until fuel (Z.of_nat n)) s = Some (tt, s1) /\
              (if has_trivial_destructor then s1 = s else rep s1 (take n l))) as (s1 & Hs1 & H1).
    { destruct has_trivial_destructor; [by exists s|]. apply pop_until_spec; [done|lia..]. }
    unfold st_bind. rewrite Hs1. unfold set_size, st_modify. eexists. split; [reflexivity|].
    destruct has_trivial_destructor eqn:Et.
    + subst s1. destruct (m_array (arr s)) as [b|] eqn:Em.
      * apply (rep_truncate s l b n (blocks s) H Em); [lia|]. intros. by rewrite Et.
      * pose proof (rep_cells _ _ H) as Hcells. rewrite Em in Hcells. lia.
    + pose proof (rep_size _ _ H1) as Hsz1. rewrite length_take in Hsz1. destruct s1 as [bs a], a as [m z c].
      cbn in *. unfold size in Hsz1. cbn in Hsz1. replace (Z.of_nat n) with z by lia. done.
Qed.

(** ** Properties *)

Lemma at_spec s l n :
  rep s l -> 0 <= n -> at_ n s = match l !! Z.to_nat n with Some v => Some (v, s) | None => None end.
Proof.
  intros H Hn. pose proof (rep_size _ _ H) as Hsz. pose proof (rep_cap _ _ H) as Hcap. pose proof (rep_cells _ _ H) as Hcells.
  unfold at_, assert, st_bind, st_get, the_block, load. destruct (Z.ltb_spec n (size s)) as [Hlt|Hge].
  - destruct (lookup_lt_is_Some_2 l (Z.to_nat n)) as [v Hv]; [lia|]. rewrite Hv.
    destruct (m_array (arr s)) as [b|] eqn:Em; [|lia]. destruct Hcells as (spare & Hb & _). cbn [mbind option_bind deref].
    unfold st_ret. cbv beta iota. assert (Hc : get_cell (blocks s) b n = Some v); [|rewrite Em; cbn [mbind option_bind deref]; by rewrite Hc].
    rewrite <- (Z2Nat.id n) by lia. apply (get_cell_at _ _ _ _ _ Hb).
    rewrite lookup_app_l by (rewrite length_fmap; by eapply lookup_lt_Some). by rewrite list_lookup_fmap, Hv.
  - rewrite lookup_ge_None_2 by lia. reflexivity.
Qed.

(** With a destructor, [push_back] of an element of the array itself, when the array
    has to grow, copies an element that the move has destroyed. *)
Lemma push_back_own_element s l b i :
  rep s l -> has_trivial_destructor = false -> growth s <> 0 -> alloc_root (growth s * sizeof) = true ->
  m_array (arr s) = Some b -> push_back (Cell b i) s = None.
Proof.
  intros H Ht Hg Ha Em. pose proof (cap_small _ _ H) as [Hs0 Hc]. pose proof (rep_cap _ _ H) as Hcap.
  destruct (growth_fits _ _ H) as (Hg0 & Hg64 & Hgl). destruct (Hgl Hg) as [Hgc Hgs].
  destruct (reserve_grows s l (growth s) H Hgc Hg0 Hg64 Ha)
    as (s1 & old & Hres & H1 & Ha1 & Hold & (bl & Hbl) & _ & Hd).
  assert (Hsz1 : size s1 = size s) by (unfold size; by rewrite Ha1).
  assert (Hcp1 : capacity s1 = growth s) by (unfold capacity; by rewrite Ha1).
  rewrite (push_back_grown _ s s1) by (done || lia).
  unfold push_tail, st_bind, st_get, the_block, set_size, st_modify, load. rewrite Ha1. cbn [m_array mbind option_bind].
  cbn [deref blocks]. rewrite Hbl. pose proof (rep_cells _ _ H) as Hcells. rewrite Em in Hcells.
  destruct Hcells as (spare & Hb & _). apply lookup_lt_Some in Hb. unfold get_cell. destruct (i <? 0); [done|].
  rewrite lookup_app_l by lia. destruct (lookup_lt_is_Some_2 old b) as [blo Hblo]; [lia|]. rewrite Hblo. cbn.
  specialize (Hd Ht). rewrite Forall_lookup in Hd. specialize (Hd _ _ Hblo). unfold dead in Hd. rewrite Forall_lookup in Hd.
  destruct (blo !! Z.to_nat i) as [c|] eqn:Ec; [|done]. by rewrite (Hd _ _ Ec).
Qed.

(** [push_back] of the element [i] of the array itself. *)
Lemma push_back_own s l b i v :
  rep s l -> m_array (arr s) = Some b -> l !! i = Some v ->
  if negb has_trivial_destructor && negb (growth s =? 0) && alloc_root (growth s * sizeof)
  then push_back (Cell b (Z.of_nat i)) s = None
  else exists oom s', push_back (Cell b (Z.of_nat i)) s = Some (oom, s') /\ rep s' (if oom then l else l ++ [v]).
Proof.
  intros H Em Hv. pose proof (rep_cells _ _ H) as Hcells. rewrite Em in Hcells. destruct Hcells as (spare & Hb & _).
  assert (Hr : deref (blocks s) (Cell b (Z.of_nat i)) = Some v).
  { apply (get_cell_at _ _ _ _ _ Hb). rewrite lookup_app_l by (rewrite length_fmap; by eapply lookup_lt_Some).
    by rewrite list_lookup_fmap, Hv. }
  assert (has_trivial_destructor = true \/ growth s = 0 ->
    exists oom s', push_back (Cell b (Z.of_nat i)) s = Some (oom, s') /\ rep s' (if oom then l else l ++ [v])) as Hok.
  { intros Hd. destruct (push_back_spec (Cell b (Z.of_nat i)) s l v H Hr ltac:(tauto)) as (oom & s' & E & _ & Hrep).
    exists oom, s'. split; [done|]. destruct oom; [by subst|done]. }
  destruct has_trivial_destructor eqn:Et; [by apply Hok; left|]. cbn [negb andb].
  destruct (Z.eqb_spec (growth s) 0) as [Eg|Eg]; [by apply Hok; right|]. cbn [negb andb].
  destruct (alloc_root (growth s * sizeof)) eqn:Ea; [by apply (push_back_own_element s l)|].
  pose proof (cap_small _ _ H) as [Hs0 Hc]. pose proof (rep_cap _ _ H).
  destruct (growth_fits _ _ H) as (Hg0 & Hg64 & Hgl). destruct (Hgl Eg) as [Hgc Hgs].
  exists true, s. split; [|done]. apply push_back_refused; [done|lia|done|]. by apply reserve_refused.
Qed.

Inductive array_op := OPush (v : V) | OPop | OClear | OChop (n : nat) | OResize (n : nat) (v : V) | OReserve (n : nat).

(** The effect on the list; [None] where an assertion fails. *)
Definition apply_op (o : array_op) (l : list V) : option (list V) :=
  match o with
  | OPush v => Some (l ++ [v])
  | OPop => if decide (l = []) then None else Some (take (length l - 1) l)
  | OClear => Some []
  | OChop n => if decide (n < length l)%nat then Some (take n l) else None
  | OResize n v => Some (take n l ++ replicate (n - length l) v)
  | OReserve _ => Some l
  end.
Definition exec (fuel : nat) (o : array_op) : ST state bool :=
  match o with
  | OPush v => push_back (Elsewhere v)
  | OPop => pop_back;;; st_ret false
  | OClear => clear;;; st_ret false
  | OChop n => chop (Z.of_nat n);;; st_ret false
  | OResize n v => resize fuel (Z.of_nat n) (Elsewhere v);;; st_ret false
  | OReserve n => reserve (Z.of_nat n)
  end.
Definition asks (o : array_op) (s : state) : Z :=
  match o with
  | OPush _ => growth s
  | OResize n _ | OReserve n => if capacity s <? Z.of_nat n then Z.of_nat n else 0
  | _ => 0
  end.
Definition reports (o : array_op) : bool := match o with OPush _ | OReserve _ => true | _ => false end.
Definition bounded (fuel : nat) (o : array_op) (l : list V) : Prop :=
  match o with
  | OResize n _ => Z.of_nat n * sizeof < 2 ^ 64 /\ (n - length l <= fuel)%nat /\ (length l - n <= fuel)%nat
  | OReserve n => Z.of_nat n * sizeof < 2 ^ 64
  | _ => True
  end.

(** C34 : every operation of the array is the operation on the list of its elements.
    With values that live outside of the array, it fails exactly when its assertion
    does; when memory is refused the list stays as it was ([push_back] and [reserve]
    report it, [resize] does not); otherwise the new list is there.  With a
    destructor, no element is constructed over a live one, none is read or destroyed
    that is not alive, and nothing but the elements is left alive in memory.
    [push_back] of an element of the array itself adds a copy of it or is refused
    without a change, too, except with a destructor when the array grows: then it
    reads an element that is already destroyed.  The loops of [resize] stop. *)
Theorem mem_root_array_refines_list (fuel : nat) (o : array_op) (s : state) (l : list V) :
  rep s l -> bounded fuel o l ->
  (let refused := negb (asks o s =? 0) && negb (alloc_root (asks o s * sizeof)) in
   match apply_op o l with
   | None => exec fuel o s = None
   | Some l' =>
       exists s', exec fuel o s = Some (reports o && refused, s') /\ rep s' (if refused then l else l')
   end) /\
  (forall b i v, m_array (arr s) = Some b -> l !! i = Some v ->
   if negb has_trivial_destructor && negb (growth s =? 0) && alloc_root (growth s * sizeof)
   then push_back (Cell b (Z.of_nat i)) s = None
   else exists oom s', push_back (Cell b (Z.of_nat i)) s = Some (oom, s') /\ rep s' (if oom then l else l ++ [v])).
Proof.
  intros H Hb. split; [|intros; by apply push_back_own].
  pose proof (rep_size _ _ H) as Hsz. pose proof (rep_cap _ _ H) as Hcap.
  destruct o as [v| | |n|n v|n]; cbn [apply_op asks exec reports negb andb bounded Z.eqb] in *.
  - destruct (push_back_spec (Elsewhere v) s l v H eq_refl) as (oom & s' & Hs' & -> & Hrep); [by left|].
    exists s'. split; [done|]. case_match; [by subst|done].
  - pose proof (pop_back_spec s l H) as Hp. case_decide; [unfold st_bind; by rewrite Hp|].
    destruct Hp as (s' & Hs' & Hrep & _). exists s'. unfold st_bind. by rewrite Hs'.
  - unfold clear, st_bind, st_get, empty. destruct (Z.eqb_spec (size s) 0) as [Hz|Hz].
    + exists s. split; [done|]. by destruct l; [|cbn in Hsz; lia].
    + destruct (chop_spec s l 0 H) as (s' & Hs' & Hrep & _); [lia|]. exists s'.
      change (Z.of_nat 0) with 0 in Hs'. by rewrite Hs'.
  - case_decide as Hn.
    + destruct (chop_spec s l n H Hn) as (s' & Hs' & Hrep & _). exists s'. unfold st_bind. by rewrite Hs'.
    + unfold chop, assert, st_bind, st_get. by destruct (Z.ltb_spec (Z.of_nat n) (size s)); [lia|].
  - destruct Hb as (H64 & Hf1 & Hf2). destruct (resize_spec fuel s l n v H H64 Hf1 Hf2) as (s' & Hs' & Hrep).
    exists s'. unfold st_bind. rewrite Hs'. split; [done|].
    destruct (Z.ltb_spec (capacity s) (Z.of_nat n)); cbn [andb] in Hrep; [|done].
    destruct (Z.eqb_spec (Z.of_nat n) 0); [lia|]. cbn [negb andb]. case_match; [by subst|done].
  - destruct (Z.ltb_spec (capacity s) (Z.of_nat n)) as [Hc|Hc].
    + destruct (Z.eqb_spec (Z.of_nat n) 0); [lia|]. cbn [negb andb].
      destruct (alloc_root (Z.of_nat n * sizeof)) eqn:Ea; cbn [negb].
      * destruct (reserve_grows s l (Z.of_nat n) H Hc) as (s' & old & Hres & H1 & _); [lia..|done|]. by exists s'.
      * exists s. by rewrite reserve_refused by (done || lia).
    + exists s. by rewrite reserve_fits.
Qed.

End Array.

(** ** Witness *)

Definition start (V : Type) : @state V := MkState [] new_array.
Lemma start_rep V sizeof triv : rep sizeof triv (start V) [].
Proof. by split. Qed.

Lemma mem_root_array_refines_list_witness :
  exists s', exec 8 false (fun bytes => bytes <? 1000) 5 (OResize 3 7) (start Z) = Some (false, s') /\
    rep 8 false s' [7; 7; 7].
Proof.
  apply (mem_root_array_refines_list 8 false (fun bytes => bytes <? 1000) ltac:(lia) ltac:(cbn; lia) ltac:(unfold min_capacity; lia)
           5 (OResize 3 7) (start Z) [] (start_rep Z 8 false)).
  cbn. lia.
Defined.
End MemRoot.

(** ** Bounds_checked_array *)

Module Bounds.
Section Bounds.
Context {V : Type}.

(** A view: the position of its first element in a memory of elements ([None]: the
    null pointer), and its length.  It does not own the elements. *)
Record Bounds_checked_array := MkBounds { m_array : option Z; m_size : Z }.

Definition null_array : Bounds_checked_array := MkBounds None 0.
Definition make (el : option Z) (size_arg : Z) : Bounds_checked_array := MkBounds el size_arg.
Definition reset (a : Bounds_checked_array) : Bounds_checked_array := null_array.
Definition reset_to (array_arg : option Z) (size_arg : Z) (a : Bounds_checked_array) : Bounds_checked_array :=
  MkBounds array_arg size_arg.
(** [None]: the assertion fails. *)
Definition resize (new_size : Z) (a : Bounds_checked_array) : option Bounds_checked_array :=
  if new_size <=? m_size a then Some (MkBounds (m_array a) new_size) else None.
Definition index (mem : list V) (a : Bounds_checked_array) (n : Z) : option V :=
  if n <? m_size a then p ← m_array a; (if 0 <=? p + n then mem !! Z.to_nat (p + n) else None) else None.
Definition size (a : Bounds_checked_array) : Z := m_size a.
Definition is_null (a : Bounds_checked_array) : bool := match m_array a with None => true | Some _ => false end.
Definition pop_front (a : Bounds_checked_array) : option Bounds_checked_array :=
  if 0 <? m_size a then p ← m_array a; Some (MkBounds (Some (p + 1)) (m_size a - 1)) else None.
Definition array (a : Bounds_checked_array) : option Z := m_array a.
Definition begin (a : Bounds_checked_array) : option Z := array a.
Definition end_ (a : Bounds_checked_array) : option Z := p ← array a; Some (p + m_size a).
Definition equal (a rhs : Bounds_checked_array) : bool := bool_decide (m_array a = m_array rhs) && (m_size a =? m_size rhs).
Definition different (a rhs : Bounds_checked_array) : bool :=
  negb (bool_decide (m_array a = m_array rhs)) || negb (m_size a =? m_size rhs).

(** The view [a] shows the elements [l] of [mem]. *)
Definition shows (mem : list V) (a : Bounds_checked_array) (l : list V) : Prop :=
  m_size a = Z.of_nat (length l) /\
  match m_array a with
  | None => l = []
  | Some p => 0 <= p /\ take (length l) (drop (Z.to_nat p) mem) = l
  end.

(** A bounds-checked array is a window on a list: indexing, [pop_front] and
    [resize] are the operations on the elements it shows and fail exactly outside
    their bounds, and [begin] and [end] delimit the window. *)
Lemma bounds_checked_window (mem l : list V) (a : Bounds_checked_array) :
  shows mem a l ->
  (forall n, 0 <= n -> index mem a n = l !! Z.to_nat n) /\
  match l with
  | [] => pop_front a = None
  | _ :: l' => exists a', pop_front a = Some a' /\ shows mem a' l' /\ end_ a' = end_ a
  end /\
  (forall n : nat, if decide (n <= length l)%nat
     then exists a', resize (Z.of_nat n) a = Some a' /\ shows mem a' (take n l) /\ begin a' = begin a
     else resize (Z.of_nat n) a = None) /\
  different a a = false /\ (forall b, different a b = negb (equal a b)).
Proof.
  destruct a as [[p|] z]; intros [Hz Hl]; cbn [m_size m_array] in *.
  2:{ subst l. cbn in Hz. subst z. split_and!; [| |intros n; case_decide as Hn|by cbn|intros b; unfold different, equal; btauto].
      - intros n Hn. unfold index. cbn. by case_match.
      - done.
      - destruct n; [|cbn in Hn; lia]. by exists null_array.
      - unfold resize. cbn [m_size length] in *. destruct (Z.leb_spec (Z.of_nat n) (Z.of_nat 0)); [lia|done]. }
  destruct Hl as [Hp Hl].
  assert (Hlook : forall i, (i < length l)%nat -> mem !! (Z.to_nat p + i)%nat = l !! i).
  { intros i Hi. trans (take (length l) (drop (Z.to_nat p) mem) !! i); [|by rewrite Hl].
    by rewrite lookup_take_lt, lookup_drop. }
  split_and!.
  - intros n Hn. unfold index. cbn [m_size m_array mbind option_bind]. subst z. destruct (Z.ltb_spec n (Z.of_nat (length l))) as [Hlt|Hge].
    + destruct (Z.leb_spec 0 (p + n)); [|lia]. rewrite Z2Nat.inj_add by lia. apply Hlook. lia.
    + by rewrite lookup_ge_None_2 by lia.
  - destruct l as [|x l]; unfold pop_front; cbn [m_size m_array]; subst z; [done|].
    destruct (Z.ltb_spec 0 (Z.of_nat (length (x :: l)))) as [_|]; [|cbn in *; lia]. cbn [mbind option_bind].
    eexists. split; [done|]. split; [split; cbn [m_size m_array]|].
    + cbn. lia.
    + split; [lia|]. rewrite Z2Nat.inj_add by lia. change (Z.to_nat 1) with 1%nat. rewrite <- drop_drop.
      cbn [length] in Hl. destruct (drop (Z.to_nat p) mem) as [|y m]; [done|].
      cbn [take] in Hl. injection Hl as _ Hl. exact Hl.
    + unfold end_, array. cbn. f_equal. lia.
  - intros n. unfold resize. cbn [m_size m_array]. subst z. case_decide as Hn.
    + destruct (Z.leb_spec (Z.of_nat n) (Z.of_nat (length l))); [|lia]. eexists. split; [done|]. split; [|done].
      split; cbn [m_size m_array]; rewrite length_take; [lia|]. split; [done|].
      trans (take n (take (length l) (drop (Z.to_nat p) mem))); [by rewrite take_take|by rewrite Hl].
    + destruct (Z.leb_spec (Z.of_nat n) (Z.of_nat (length l))); [lia|done].
  - unfold different. rewrite Z.eqb_refl, bool_decide_eq_true_2 by done. done.
  - intros b. unfold different, equal. btauto.
Qed.
End Bounds.
End Bounds.
