(* ===== verification/Xid.v ===== *)
(** Transaction identifiers: [xid_t] of
    [mariadb/include/mysql/server/private/handler.h] and their text form,
    [serialize_xid] of [private/log_event.h].

    The fields have the type [long], of [long_size] bytes (4 or 8: a hypothesis of
    the section); numbers are copied into the data lowest byte first.  [None] is a
    copy that leaves the 128 bytes of data. *)

From stdpp Require Import pretty.
From S2P Require Import Prelude.

Definition XIDDATASIZE : Z := 128.
Definition MAXGTRIDSIZE : Z := 64.
Definition MAXBQUALSIZE : Z := 64.

(** The bytes of [MySQLXid]. *)
Definition MYSQL_XID_PREFIX : list Z := [77; 121; 83; 81; 76; 88; 105; 100].
Definition MYSQL_XID_PREFIX_LEN : Z := 8.

Record xid_t := XID { formatID : Z; gtrid_length : Z; bqual_length : Z; data : list Z }.

(** [memcpy(data + off, bytes, length bytes)] and the bytes of [data] from [off]. *)
Definition put (off : Z) (bytes : list Z) (d : list Z) : option (list Z) :=
  if (0 <=? off) && (off + Z.of_nat (length bytes) <=? Z.of_nat (length d))
  then Some (take (Z.to_nat off) d ++ bytes ++ drop (Z.to_nat off + length bytes) d) else None.
Definition get (off n : Z) (d : list Z) : option (list Z) :=
  if (0 <=? off) && (0 <=? n) && (off + n <=? Z.of_nat (length d))
  then Some (take (Z.to_nat n) (drop (Z.to_nat off) d)) else None.

Section Xid.
Variable long_size : Z.

Definition MYSQL_XID_OFFSET : Z := MYSQL_XID_PREFIX_LEN + long_size.
Definition MYSQL_XID_GTRID_LEN : Z := MYSQL_XID_OFFSET + 8.

Definition is_null (x : xid_t) : bool := formatID x =? -1.
Definition null (x : xid_t) : xid_t := XID (-1) (gtrid_length x) (bqual_length x) (data x).

(** [memcmp] of the first [n] bytes. *)
Definition same_bytes (n : Z) (d e : list Z) : option bool :=
  x ← get 0 n d; y ← get 0 n e; Some (bool_decide (x = y)).
Definition eq_parts (g b : Z) (d : list Z) (x : xid_t) : option bool :=
  if negb (is_null x) && (g =? gtrid_length x) && (b =? bqual_length x)
  then same_bytes (g + b) d (data x) else Some false.
Definition eq_xid (xid x : xid_t) : option bool :=
  if is_null xid then Some false else eq_parts (gtrid_length xid) (bqual_length xid) (data xid) x.

Definition key_length (x : xid_t) : Z := u32 (long_size + long_size + gtrid_length x + bqual_length x).
(** The name avoids the function on lists. *)
Definition length_xid (x : xid_t) : Z := u32 (long_size + key_length x).
(** The [key_length] bytes that [key] points to. *)
Definition key (x : xid_t) : option (list Z) :=
  d ← get 0 (key_length x - 2 * long_size) (data x);
  Some (to_digits 8 (Z.to_nat long_size) (gtrid_length x) ++ to_digits 8 (Z.to_nat long_size) (bqual_length x) ++ d).

(** [memcpy(this, xid, xid->length())]; lengths that end before the data are not described. *)
Definition set_xid (xid x : xid_t) : option xid_t :=
  bytes ← get 0 (length_xid xid - 3 * long_size) (data xid);
  d ← put 0 bytes (data x);
  Some (XID (formatID xid) (gtrid_length xid) (bqual_length xid) d).
Definition set_parts (f : Z) (g : list Z) (gl : Z) (b : list Z) (bl : Z) (x : xid_t) : option xid_t :=
  d ← (if gl =? 0 then Some (data x) else gs ← get 0 gl g; put 0 gs (data x));
  d ← (if bl =? 0 then Some d else bs ← get 0 bl b; put gl bs d);
  Some (XID f gl bl d).
Definition set_data (g b : Z) (d : list Z) (x : xid_t) : option xid_t :=
  bytes ← get 0 (g + b) d;
  d ← put 0 bytes (data x);
  Some (XID 1 g b d).
Definition set_my_xid (xid trx_server_id : Z) (x : xid_t) : option xid_t :=
  x ← set_data MYSQL_XID_PREFIX_LEN 0 MYSQL_XID_PREFIX x;
  d ← put MYSQL_XID_PREFIX_LEN (to_digits 8 (Z.to_nat long_size) trx_server_id) (data x);
  d ← put MYSQL_XID_OFFSET (to_digits 8 8 xid) d;
  Some (XID 1 MYSQL_XID_GTRID_LEN (bqual_length x) d).

Definition quick_get_my_xid (x : xid_t) : option Z :=
  bytes ← get MYSQL_XID_OFFSET 8 (data x); Some (from_digits 8 bytes).
Definition get_my_xid (x : xid_t) : option Z :=
  if (gtrid_length x =? MYSQL_XID_GTRID_LEN) && (bqual_length x =? 0) then
    same ← same_bytes MYSQL_XID_PREFIX_LEN (data x) MYSQL_XID_PREFIX;
    if (same : bool) then quick_get_my_xid x else Some 0
  else Some 0.
Definition get_trx_server_id (x : xid_t) : option Z :=
  bytes ← get MYSQL_XID_PREFIX_LEN long_size (data x); Some (from_digits 8 bytes).

(** ** Text form *)

(** The digits of [_dig_vec_lower], which is declared only. *)
Variable _dig_vec_lower : Z -> Z.

Definition hex (c : Z) : list Z := [_dig_vec_lower (Z.shiftr c 4); _dig_vec_lower (Z.land c 15)].
(** [printf]'s [%lu]: the value as an [unsigned long], in decimal. *)
Definition print_lu (v : Z) : list Z :=
  (fun a => Z.of_N (Ascii.N_of_ascii a)) <$> String.list_ascii_of_string (pretty (Z.to_N (wrapU (8 * long_size) v))).

Definition quote : Z := 39.
Definition comma : Z := 44.
Definition letter_X : Z := 88.

(** The bytes written, without the final zero. *)
Definition serialize_xid (fmt gln bln : Z) (dat : list Z) : option (list Z) :=
  g ← get 0 gln dat;
  b ← get gln bln dat;
  Some ([letter_X; quote] ++ concat (hex <$> g) ++ [quote; comma; letter_X; quote] ++ concat (hex <$> b) ++
        [quote] ++ [comma] ++ print_lu fmt).
Definition ser_buf_size : Z := 8 + 2 * XIDDATASIZE + 4 * long_size + 1.
Definition serialize (x : xid_t) : option (list Z) :=
  serialize_xid (formatID x) (gtrid_length x) (bqual_length x) (data x).
End Xid.

(** ** Reading back what was copied *)

Lemma put_spec off bytes d :
  0 <= off -> off + Z.of_nat (length bytes) <= Z.of_nat (length d) ->
  put off bytes d = Some (take (Z.to_nat off) d ++ bytes ++ drop (Z.to_nat off + length bytes) d).
Proof.
  intros. unfold put.
  destruct (Z.leb_spec 0 off), (Z.leb_spec (off + Z.of_nat (length bytes)) (Z.of_nat (length d))); first [lia|done].
Qed.
Lemma get_spec off n d :
  0 <= off -> 0 <= n -> off + n <= Z.of_nat (length d) -> get off n d = Some (take (Z.to_nat n) (drop (Z.to_nat off) d)).
Proof.
  intros. unfold get.
  destruct (Z.leb_spec 0 off), (Z.leb_spec 0 n), (Z.leb_spec (off + n) (Z.of_nat (length d))); first [lia|done].
Qed.
Lemma put_length off bytes d d' : put off bytes d = Some d' -> length d' = length d.
Proof.
  unfold put. case_match eqn:E; [|done]. apply andb_prop in E as [H1%Z.leb_le H2%Z.leb_le]. intros [= <-].
  rewrite !length_app, length_take, length_drop. lia.
Qed.
Lemma put_get off bytes d d' :
  put off bytes d = Some d' -> get off (Z.of_nat (length bytes)) d' = Some bytes.
Proof.
  intros H. pose proof (put_length _ _ _ _ H) as Hl. unfold put in H. case_match eqn:E; [|done].
  apply andb_prop in E as [H1%Z.leb_le H2%Z.leb_le]. injection H as <-.
  rewrite get_spec, Nat2Z.id by lia. f_equal.
  rewrite drop_app_length' by (rewrite length_take; lia). by rewrite take_app_length.
Qed.
Lemma put_get_before off bytes d d' o n :
  put off bytes d = Some d' -> 0 <= o -> 0 <= n -> o + n <= off -> get o n d' = get o n d.
Proof.
  intros H Ho Hn Hb. pose proof (put_length _ _ _ _ H) as Hl. unfold put in H. case_match eqn:E; [|done].
  apply andb_prop in E as [H1%Z.leb_le H2%Z.leb_le]. injection H as <-.
  rewrite !get_spec by lia. f_equal. rewrite drop_app_le by (rewrite length_take; lia).
  rewrite take_app_le by (rewrite length_drop, length_take; lia).
  rewrite skipn_firstn_comm, take_take. f_equal. lia.
Qed.

Section Props.
Variable long_size : Z.
Hypothesis long_size_ok : long_size = 4 \/ long_size = 8.

(** A transaction number survives the identifier built from it: after [set] with
    a number and a server id, [get_my_xid] and [get_trx_server_id] give them back,
    whatever the identifier held before. *)
Lemma my_xid_roundtrip (x : xid_t) (xid server : Z) :
  length (data x) = 128%nat -> in_u 64 xid -> in_u (8 * long_size) server ->
  exists x', set_my_xid long_size xid server x = Some x' /\
    get_my_xid long_size x' = Some xid /\ get_trx_server_id long_size x' = Some server /\
    is_null x' = false /\ length (data x') = 128%nat.
Proof.
  intros Hd Hx Hs. unfold set_my_xid, set_data.
  change (get 0 (MYSQL_XID_PREFIX_LEN + 0) MYSQL_XID_PREFIX) with (Some MYSQL_XID_PREFIX). cbn [mbind option_bind].
  destruct (put 0 MYSQL_XID_PREFIX (data x)) as [d1|] eqn:E1; [|by rewrite put_spec in E1 by (cbn [length MYSQL_XID_PREFIX]; lia)].
  cbn [mbind option_bind data]. pose proof (put_length _ _ _ _ E1) as L1.
  pose proof (length_to_digits 8 (Z.to_nat long_size) server) as Ls. pose proof (length_to_digits 8 8 xid) as Lx.
  destruct (put MYSQL_XID_PREFIX_LEN _ d1) as [d2|] eqn:E2;
    [|by rewrite put_spec in E2 by (unfold MYSQL_XID_PREFIX_LEN; lia)].
  cbn [mbind option_bind data]. pose proof (put_length _ _ _ _ E2) as L2.
  destruct (put (MYSQL_XID_OFFSET long_size) _ d2) as [d3|] eqn:E3;
    [|by rewrite put_spec in E3 by (unfold MYSQL_XID_OFFSET, MYSQL_XID_PREFIX_LEN; lia)].
  cbn [mbind option_bind bqual_length]. pose proof (put_length _ _ _ _ E3) as L3.
  eexists. split; [reflexivity|]. unfold get_my_xid, get_trx_server_id, quick_get_my_xid, is_null, same_bytes.
  cbn [gtrid_length bqual_length data formatID]. rewrite Z.eqb_refl. cbn [Z.eqb andb].
  assert (Hpre : get 0 MYSQL_XID_PREFIX_LEN d3 = Some MYSQL_XID_PREFIX).
  { rewrite (put_get_before _ _ _ _ 0 MYSQL_XID_PREFIX_LEN E3) by (unfold MYSQL_XID_OFFSET, MYSQL_XID_PREFIX_LEN; lia).
    rewrite (put_get_before _ _ _ _ 0 MYSQL_XID_PREFIX_LEN E2) by (unfold MYSQL_XID_PREFIX_LEN; lia).
    exact (put_get _ _ _ _ E1). }
  apply put_get in E3 as G3. rewrite Lx in G3. change (Z.of_nat 8) with 8 in G3.
  assert (G2 : get MYSQL_XID_PREFIX_LEN long_size d3 = Some (to_digits 8 (Z.to_nat long_size) server)).
  { rewrite (put_get_before _ _ _ _ MYSQL_XID_PREFIX_LEN long_size E3) by (unfold MYSQL_XID_OFFSET, MYSQL_XID_PREFIX_LEN; lia).
    apply put_get in E2. rewrite Ls, Z2Nat.id in E2 by lia. exact E2. }
  rewrite Hpre, G2, G3. cbn [mbind option_bind]. change (get 0 MYSQL_XID_PREFIX_LEN MYSQL_XID_PREFIX) with (Some MYSQL_XID_PREFIX).
  cbn [mbind option_bind]. rewrite bool_decide_eq_true_2 by done.
  rewrite !from_to_digits, !wrapU_small by (try done; by rewrite Z2Nat.id by lia).
  split_and!; try done. lia.
Qed.

(** ** Identity *)

Definition valid_xid (x : xid_t) : Prop :=
  length (data x) = 128%nat /\ Forall (in_u 8) (data x) /\ in_s (8 * long_size) (formatID x) /\
  0 <= gtrid_length x <= MAXGTRIDSIZE /\ 0 <= bqual_length x <= MAXBQUALSIZE.

(** The bytes in use. *)
Definition content (x : xid_t) : list Z := take (Z.to_nat (gtrid_length x + bqual_length x)) (data x).

Lemma content_get x : valid_xid x -> get 0 (gtrid_length x + bqual_length x) (data x) = Some (content x).
Proof.
  intros (Hd & _ & _ & Hg & Hb). unfold MAXGTRIDSIZE, MAXBQUALSIZE in *. by rewrite get_spec, drop_0 by lia.
Qed.
Lemma content_length x : valid_xid x -> length (content x) = Z.to_nat (gtrid_length x + bqual_length x).
Proof.
  intros (Hd & _ & _ & Hg & Hb). unfold content, MAXGTRIDSIZE, MAXBQUALSIZE in *. rewrite length_take. lia.
Qed.
Lemma key_length_valid x :
  valid_xid x -> key_length long_size x = 2 * long_size + gtrid_length x + bqual_length x.
Proof.
  intros (Hd & _ & _ & Hg & Hb). unfold key_length, MAXGTRIDSIZE, MAXBQUALSIZE in *.
  rewrite wrapU_small; [lia|]. unfold in_u. lia.
Qed.
Lemma key_valid x :
  valid_xid x ->
  key long_size x = Some (to_digits 8 (Z.to_nat long_size) (gtrid_length x) ++
                          to_digits 8 (Z.to_nat long_size) (bqual_length x) ++ content x).
Proof.
  intros H. unfold key. rewrite key_length_valid by done.
  replace (2 * long_size + gtrid_length x + bqual_length x - 2 * long_size) with (gtrid_length x + bqual_length x) by lia.
  by rewrite content_get.
Qed.
Lemma to_digits_inj n u v :
  in_u (8 * Z.of_nat n) u -> in_u (8 * Z.of_nat n) v -> to_digits 8 n u = to_digits 8 n v -> u = v.
Proof.
  intros Hu Hv H. apply (f_equal (from_digits 8)) in H. rewrite !from_to_digits in H by lia.
  by rewrite !wrapU_small in H.
Qed.
Lemma small_in_u x : 0 <= x <= 64 -> in_u (8 * Z.of_nat (Z.to_nat long_size)) x.
Proof.
  intros Hx. rewrite Z2Nat.id by lia. apply (in_u_mono 8); [lia|]. unfold in_u. lia.
Qed.

Lemma eq_xid_valid x y :
  valid_xid x -> valid_xid y -> is_null x = false -> is_null y = false ->
  eq_xid x y = Some (bool_decide (gtrid_length x = gtrid_length y /\ bqual_length x = bqual_length y /\ content x = content y)).
Proof.
  intros Hx Hy Nx Ny. unfold eq_xid, eq_parts. rewrite Nx, Ny. cbn [negb andb].
  destruct (Z.eqb_spec (gtrid_length x) (gtrid_length y)) as [Eg|Eg]; [|rewrite bool_decide_eq_false_2; [done|naive_solver]].
  destruct (Z.eqb_spec (bqual_length x) (bqual_length y)) as [Eb|Eb]; [|rewrite bool_decide_eq_false_2; [done|naive_solver]].
  cbn [andb]. unfold same_bytes. rewrite content_get by done. rewrite Eg, Eb, content_get by done. cbn [mbind option_bind].
  f_equal. apply bool_decide_ext. naive_solver.
Qed.

(** C21 : the bytes that [key] points to identify a transaction: for valid
    identifiers that are not null, [eq] holds exactly when the keys are the same
    bytes (the format id is in neither); a null identifier equals nothing, itself
    included; and a copy ([set] from another identifier) has the key of the
    original and equals it. *)
Theorem xid_key_identifies (x y : xid_t) :
  valid_xid x -> valid_xid y ->
  (is_null x = false -> is_null y = false -> (eq_xid x y = Some true <-> key long_size x = key long_size y)) /\
  (is_null x || is_null y = true -> eq_xid x y = Some false) /\
  (exists y', set_xid long_size x y = Some y' /\ valid_xid y' /\ key long_size y' = key long_size x /\
     (is_null x = false -> eq_xid x y' = Some true)).
Proof.
  intros Hx Hy. split_and!.
  - intros Nx Ny. rewrite eq_xid_valid by done. rewrite !key_valid by done. split.
    + intros [= He]. apply bool_decide_eq_true_1 in He as (-> & -> & ->). done.
    + intros [= He]. f_equal. apply bool_decide_eq_true_2.
      destruct Hx as (_ & _ & _ & Hgx & Hbx), Hy as (_ & _ & _ & Hgy & Hby). unfold MAXGTRIDSIZE, MAXBQUALSIZE in *.
      apply app_inj_1 in He as [E1 He]; [|by rewrite !length_to_digits].
      apply app_inj_1 in He as [E2 He]; [|by rewrite !length_to_digits].
      apply to_digits_inj in E1; [|by apply small_in_u..]. apply to_digits_inj in E2; [|by apply small_in_u..]. done.
  - intros Hn. unfold eq_xid, eq_parts. destruct (is_null x); [done|]. cbn in Hn. by rewrite Hn.
  - pose proof (content_length _ Hx) as Hcl. unfold set_xid, length_xid. rewrite key_length_valid by done.
    pose proof Hx as (Hdx & Hbx & Hfx & Hg & Hb). pose proof Hy as (Hdy & Hby & _). unfold MAXGTRIDSIZE, MAXBQUALSIZE in *.
    rewrite wrapU_small by (unfold in_u; lia).
    replace (long_size + (2 * long_size + gtrid_length x + bqual_length x) - 3 * long_size)
      with (gtrid_length x + bqual_length x) by lia.
    rewrite content_get by done. cbn [mbind option_bind].
    destruct (put 0 (content x) (data y)) as [d|] eqn:Ep; [|by rewrite put_spec in Ep by lia]. cbn [mbind option_bind].
    pose proof (put_length _ _ _ _ Ep) as Hdl. pose proof (put_get _ _ _ _ Ep) as Hgd.
    set (y' := XID _ _ _ d).
    assert (Hy' : valid_xid y').
    { split; [cbn; lia|]. split; [|split; [exact Hfx|unfold MAXGTRIDSIZE, MAXBQUALSIZE; cbn; lia]].
      rewrite put_spec in Ep by lia. injection Ep as <-. cbn.
      apply Forall_app. split; [by apply Forall_take|by apply Forall_drop]. }
    assert (Hc : content y' = content x).
    { rewrite Hcl, Z2Nat.id in Hgd by lia. pose proof (content_get _ Hy') as Hc. cbn [y' gtrid_length bqual_length data] in Hc.
      rewrite Hgd in Hc. by injection Hc as <-. }
    exists y'. split_and!; [done|done| |].
    + rewrite !key_valid by done. by rewrite Hc.
    + intros Nx. rewrite eq_xid_valid; [|done..|exact Nx]. by rewrite bool_decide_eq_true_2.
Qed.

(** ** Text form *)

Section Text.
Variable _dig_vec_lower : Z -> Z.
Hypothesis digits_inj : forall i j, 0 <= i < 16 -> 0 <= j < 16 -> _dig_vec_lower i = _dig_vec_lower j -> i = j.
Hypothesis digits_not_quote : forall i, 0 <= i < 16 -> _dig_vec_lower i <> quote.

Lemma hex_inj c d : in_u 8 c -> in_u 8 d -> hex _dig_vec_lower c = hex _dig_vec_lower d -> c = d.
Proof.
  unfold in_u. intros Hc Hd. unfold hex. intros [= H1 H2].
  assert (Hs : forall c, 0 <= c < 256 -> Z.shiftr c 4 = c / 16 /\ Z.land c 15 = c mod 16).
  { intros e _. split; [by rewrite Z.shiftr_div_pow2 by lia|]. change 15 with (Z.ones 4). by rewrite Z.land_ones by lia. }
  destruct (Hs c Hc) as [S1 S2], (Hs d Hd) as [S3 S4]. rewrite ?S1, ?S2, ?S3, ?S4 in *.
  apply digits_inj in H1; [|split; [apply Z.div_pos; lia|apply Z.div_lt_upper_bound; lia]..].
  apply digits_inj in H2; [|apply Z.mod_pos_bound; lia..].
  rewrite (Z.div_mod c 16), (Z.div_mod d 16) by lia. congruence.
Qed.

Lemma hex_not_quote c : in_u 8 c -> quote ∉ hex _dig_vec_lower c.
Proof.
  unfold in_u, hex. intros Hc [H|[H| []%not_elem_of_nil]%elem_of_cons]%elem_of_cons; symmetry in H;
    apply digits_not_quote in H; try done.
  - rewrite Z.shiftr_div_pow2 by lia. split; [apply Z.div_pos; lia|apply Z.div_lt_upper_bound; lia].
  - change 15 with (Z.ones 4). rewrite Z.land_ones by lia. apply Z.mod_pos_bound. lia.
Qed.
Lemma hexes_not_quote l : Forall (in_u 8) l -> quote ∉ concat (hex _dig_vec_lower <$> l).
Proof.
  induction 1 as [|c l Hc _ IH]; [by apply not_elem_of_nil|]. rewrite fmap_cons. cbn [concat].
  intros [H|H]%elem_of_app; [by apply hex_not_quote in H|done].
Qed.
Lemma hexes_inj l m :
  Forall (in_u 8) l -> Forall (in_u 8) m ->
  concat (hex _dig_vec_lower <$> l) = concat (hex _dig_vec_lower <$> m) -> l = m.
Proof.
  intros Hl. revert m. induction Hl as [|c l Hc Hl IH]; intros m Hm; destruct Hm as [|d m Hd Hm]; try done.
  rewrite !fmap_cons. cbn [concat]. intros [Hh Ht]%app_inj_1; [|done].
  apply hex_inj in Hh; [|done..]. apply IH in Ht; [|done]. congruence.
Qed.
Lemma hexes_length l : length (concat (hex _dig_vec_lower <$> l)) = (2 * length l)%nat.
Proof. induction l as [|c l IH]; [done|]. rewrite fmap_cons. cbn [concat]. rewrite length_app, IH. cbn. lia. Qed.

(** Text up to a mark that does not occur before it. *)
Lemma split_at_mark (q : Z) l l' r r' : q ∉ l -> q ∉ l' -> l ++ q :: r = l' ++ q :: r' -> l = l' /\ r = r'.
Proof.
  revert l'. induction l as [|c l IH]; intros [|d l'] Hl Hl' H; cbn in H.
  - by injection H.
  - injection H as <- _. set_solver.
  - injection H as -> _. set_solver.
  - injection H as <- H. apply IH in H as [-> ->]; [done|set_solver..].
Qed.

(** *** The decimal number *)

Lemma pretty_go_length k n s :
  (n < 10 ^ N.of_nat k)%N -> (String.length (pretty_N_go n s) <= k + String.length s)%nat.
Proof.
  revert n s. induction k as [|k IH]; intros n s Hn.
  - assert (n = 0)%N as -> by (cbn in Hn; lia). by rewrite pretty_N_go_0.
  - destruct (decide (n = 0)%N) as [->|Hz]; [rewrite pretty_N_go_0; lia|].
    rewrite pretty_N_go_step by lia. etrans; [apply IH|cbn; lia].
    rewrite Nat2N.inj_succ, N.pow_succ_r' in Hn. apply N.Div0.div_lt_upper_bound. lia.
Qed.
Lemma pretty_length (k : nat) n : (0 < k)%nat -> (n < 10 ^ N.of_nat k)%N -> (String.length (pretty n) <= k)%nat.
Proof.
  intros Hk Hn. unfold pretty, pretty_N. case_decide; [cbn; lia|].
  pose proof (pretty_go_length k n EmptyString Hn) as H1. change (String.length EmptyString) with 0%nat in H1. lia.
Qed.
Lemma bytes_of_string_inj s t :
  (fun a => Z.of_N (Ascii.N_of_ascii a)) <$> String.list_ascii_of_string s =
  (fun a => Z.of_N (Ascii.N_of_ascii a)) <$> String.list_ascii_of_string t -> s = t.
Proof.
  intros H. assert (Hi : Inj (=) (=) (fun a => Z.of_N (Ascii.N_of_ascii a))).
  { intros a b Hab. apply N2Z.inj in Hab.
    rewrite <- (Ascii.ascii_N_embedding a), <- (Ascii.ascii_N_embedding b). by rewrite Hab. }
  apply (inj (fmap (fun a => Z.of_N (Ascii.N_of_ascii a)))) in H.
  rewrite <- (String.string_of_list_ascii_of_string s), <- (String.string_of_list_ascii_of_string t). by rewrite H.
Qed.
Lemma string_bytes_length s : length (String.list_ascii_of_string s) = String.length s.
Proof. induction s as [|a s IH]; [done|]. cbn. by rewrite IH. Qed.

Lemma print_lu_inj f g :
  in_s (8 * long_size) f -> in_s (8 * long_size) g -> print_lu long_size f = print_lu long_size g -> f = g.
Proof.
  intros Hf Hg H. apply bytes_of_string_inj in H. apply (inj pretty) in H.
  pose proof (wrapU_range (8 * long_size) f ltac:(lia)) as [R1 _]. pose proof (wrapU_range (8 * long_size) g ltac:(lia)) as [R2 _].
  apply Z2N.inj in H; [|done..]. apply (f_equal (wrapS (8 * long_size))) in H.
  rewrite !wrapS_wrapU, !wrapS_small in H by (done || lia). done.
Qed.
Lemma print_lu_length f : Z.of_nat (length (print_lu long_size f)) <= 4 * long_size.
Proof.
  unfold print_lu. rewrite length_fmap, string_bytes_length.
  pose proof (wrapU_range (8 * long_size) f ltac:(lia)) as [R1 R2].
  destruct long_size_ok as [E|E]; rewrite E in *.
  - assert (Hp : (String.length (pretty (Z.to_N (wrapU (8 * 4) f))) <= 10)%nat); [|lia].
    apply pretty_length; [lia|]. change (10 ^ N.of_nat 10)%N with 10000000000%N. lia.
  - assert (Hp : (String.length (pretty (Z.to_N (wrapU (8 * 8) f))) <= 20)%nat); [|lia].
    apply pretty_length; [lia|]. change (10 ^ N.of_nat 20)%N with 100000000000000000000%N. lia.
Qed.

Lemma serialize_valid x :
  valid_xid x ->
  serialize long_size _dig_vec_lower x =
    Some ([letter_X; quote] ++ concat (hex _dig_vec_lower <$> take (Z.to_nat (gtrid_length x)) (data x)) ++
          [quote; comma; letter_X; quote] ++
          concat (hex _dig_vec_lower <$> take (Z.to_nat (bqual_length x)) (drop (Z.to_nat (gtrid_length x)) (data x))) ++
          [quote] ++ [comma] ++ print_lu long_size (formatID x)).
Proof.
  intros (Hd & _ & _ & Hg & Hb). unfold serialize, serialize_xid, MAXGTRIDSIZE, MAXBQUALSIZE in *.
  by rewrite !get_spec, drop_0 by lia.
Qed.

(** C22 : the text form of a transaction identifier fits the buffer that is reserved
    for it, with its final zero, for both sizes of [long]; and it is one to one: two
    valid identifiers with the same text have the same format id, the same lengths
    and the same bytes in use. *)
Theorem serialize_xid_injective (x y : xid_t) (s : list Z) :
  valid_xid x -> valid_xid y ->
  serialize long_size _dig_vec_lower x = Some s -> serialize long_size _dig_vec_lower y = Some s ->
  Z.of_nat (length s) + 1 <= ser_buf_size long_size /\
  formatID x = formatID y /\ gtrid_length x = gtrid_length y /\ bqual_length x = bqual_length y /\ content x = content y.
Proof.
  intros Hx Hy Sx Sy. rewrite serialize_valid in Sx, Sy by done. injection Sx as Sx. injection Sy as Sy.
  pose proof Hx as (Hdx & Hbx & Hfx & Hgx & Hqx). pose proof Hy as (Hdy & Hby & Hfy & Hgy & Hqy).
  unfold MAXGTRIDSIZE, MAXBQUALSIZE in *. split.
  - rewrite <- Sx. pose proof (print_lu_length (formatID x)). unfold ser_buf_size, XIDDATASIZE.
    rewrite ?length_cons, ?length_app, ?length_cons, ?length_app, ?length_cons, ?length_app, ?hexes_length, ?length_take, ?length_drop.
    cbn [length app]. rewrite ?length_app, ?hexes_length, ?length_cons, ?length_take, ?length_drop. lia.
  - rewrite <- Sx in Sy. cbn [app] in Sy. injection Sy as Sy.
    apply split_at_mark in Sy as [E1 Sy]; [|apply hexes_not_quote; by repeat apply Forall_take..].
    injection Sy as Sy.
    apply split_at_mark in Sy as [E2 Sy]; [|apply hexes_not_quote, Forall_take, Forall_drop; done..].
    injection Sy as Sy. apply print_lu_inj in Sy; [|done..].
    apply hexes_inj in E1; [|by apply Forall_take..]. apply hexes_inj in E2; [|by apply Forall_take, Forall_drop..].
    pose proof (f_equal length E1) as L1. pose proof (f_equal length E2) as L2.
    rewrite !length_take in L1. rewrite !length_take, !length_drop in L2.
    assert (gtrid_length x = gtrid_length y) as Eg by lia. assert (bqual_length x = bqual_length y) as Eb by lia.
    split_and!; [done..|]. unfold content. rewrite !Z2Nat.inj_add by lia.
    rewrite <- !(take_take_drop (data _) (Z.to_nat (gtrid_length _)) (Z.to_nat (bqual_length _))). by rewrite E1, E2.
Qed.
End Text.
End Props.

(** ** Witnesses *)

Definition lower_hex (i : Z) : Z := if i <? 10 then 48 + i else 87 + i.
Definition some_xid (f : Z) : xid_t := XID f 2 1 (repeat 171 128).

Lemma some_xid_valid f : in_s 64 f -> valid_xid 8 (some_xid f).
Proof.
  intros Hf. split; [reflexivity|]. split; [|split; [exact Hf|cbn; unfold MAXGTRIDSIZE, MAXBQUALSIZE; lia]].
  apply Forall_forall. intros c Hc%list_elem_of_In%repeat_spec. subst. unfold in_u. lia.
Qed.

Lemma xid_key_identifies_witness : eq_xid (some_xid 5) (some_xid 6) = Some true.
Proof.
  apply (xid_key_identifies 8 ltac:(lia) (some_xid 5) (some_xid 6));
    [apply some_xid_valid; unfold in_s; lia..|reflexivity|reflexivity|reflexivity].
Defined.

Lemma serialize_xid_injective_witness :
  let s := [88; 39; 97; 98; 97; 98; 39; 44; 88; 39; 97; 98; 39; 44; 53] in
  serialize 8 lower_hex (some_xid 5) = Some s /\ Z.of_nat (length s) + 1 <= 297.
Proof.
  split; [reflexivity|].
  apply (serialize_xid_injective 8 ltac:(lia) lower_hex) with (x := some_xid 5) (y := some_xid 5);
    [| |apply some_xid_valid; unfold in_s; lia..|reflexivity|reflexivity].
  - intros i j Hi Hj. unfold lower_hex. destruct (Z.ltb_spec i 10), (Z.ltb_spec j 10); lia.
  - intros i Hi. unfold lower_hex, quote. destruct (Z.ltb_spec i 10); lia.
Defined.
