(* ===== verification/Handler.v ===== *)
(** The storage engine interface: transaction bookkeeping ([Ha_trx_info],
    [THD_TRANS]) and the scans of a table handle ([handler]) of
    [mariadb/include/mysql/server/private/handler.h].

    The virtual methods of an engine are the class [Engine]; [None] is a failed
    assertion (or, in [Trx], a missing node). *)

From S2P Require Import Prelude.

(** ** Engines in a transaction *)

Module Trx.

Definition TRX_READ_ONLY : Z := 0.
Definition TRX_READ_WRITE : Z := 1.

Record Ha_trx_info := MkTrx { m_next : option nat; m_ht : option nat; m_flags : Z }.
Record THD_TRANS := MkTrans {
  no_2pc : bool;
  ha_list : option nat;
  modified_non_trans_table : bool;
  m_unsafe_rollback_flags : Z;
}.
(** The objects by address, with the transaction they are registered in. *)
Record state := MkState { infos : gmap nat Ha_trx_info; trans : THD_TRANS }.

Definition reset_info : Ha_trx_info := MkTrx None None 0.
Definition is_started (i : Ha_trx_info) : bool := match m_ht i with Some _ => true | None => false end.

(** [ht_arg] is a pointer to an engine's handlerton, not null. *)
Definition register_ha (a ht_arg : nat) (s : state) : option state :=
  i ← infos s !! a;
  if nz (m_flags i) || is_started i || bool_decide (is_Some (m_next i)) then None else
  let t := trans s in
  Some (MkState (<[a := MkTrx (ha_list t) (Some ht_arg) TRX_READ_ONLY]> (infos s))
          (MkTrans (no_2pc t) (Some a) (modified_non_trans_table t) (m_unsafe_rollback_flags t))).
Definition reset (a : nat) (s : state) : option state :=
  _ ← infos s !! a; Some (MkState (<[a := reset_info]> (infos s)) (trans s)).
Definition set_trx_read_write (a : nat) (s : state) : option state :=
  i ← infos s !! a;
  if negb (is_started i) then None else
  Some (MkState (<[a := MkTrx (m_next i) (m_ht i) (Z.lor (m_flags i) TRX_READ_WRITE)]> (infos s)) (trans s)).
Definition is_trx_read_write (i : Ha_trx_info) : option bool :=
  if negb (is_started i) then None else Some (nz (Z.land (m_flags i) TRX_READ_WRITE)).
Definition coalesce_trx_with (a stmt_trx : nat) (s : state) : option state :=
  i ← infos s !! a;
  if negb (is_started i) then None else
  j ← infos s !! stmt_trx;
  rw ← is_trx_read_write j;
  if (rw : bool) then set_trx_read_write a s else Some s.
Definition next (i : Ha_trx_info) : option (option nat) := if is_started i then Some (m_next i) else None.
Definition ht (i : Ha_trx_info) : option nat := m_ht i.

(** [THD_TRANS::is_trx_read_write]. *)
Fixpoint any_read_write (fuel : nat) (m : gmap nat Ha_trx_info) (p : option nat) : option bool :=
  match p with
  | None => Some false
  | Some a =>
      match fuel with
      | O => None
      | S fuel =>
          i ← m !! a;
          rw ← is_trx_read_write i;
          if (rw : bool) then Some true else n ← next i; any_read_write fuel m n
      end
  end.
Definition trans_is_trx_read_write (fuel : nat) (s : state) : option bool :=
  any_read_write fuel (infos s) (ha_list (trans s)).

Definition reset_trans (t : THD_TRANS) : THD_TRANS := MkTrans false (ha_list t) false 0.
Definition is_empty (t : THD_TRANS) : bool := match ha_list t with None => true | Some _ => false end.

(** *** Statements that cannot be rolled back *)

Inductive unsafe_statement_types := MODIFIED_NON_TRANS_TABLE | CREATED_TEMP_TABLE | DROPPED_TEMP_TABLE
  | DID_WAIT | DID_DDL | EXECUTED_TABLE_ADMIN_CMD.
Definition unsafe_flag (u : unsafe_statement_types) : Z :=
  match u with
  | MODIFIED_NON_TRANS_TABLE => 1 | CREATED_TEMP_TABLE => 2 | DROPPED_TEMP_TABLE => 4
  | DID_WAIT => 8 | DID_DDL => 16 | EXECUTED_TABLE_ADMIN_CMD => 32
  end.
#[export] Instance unsafe_statement_types_eq_dec : EqDecision unsafe_statement_types.
Proof. solve_decision. Defined.

Definition mark (u : unsafe_statement_types) (t : THD_TRANS) : THD_TRANS :=
  MkTrans (no_2pc t) (ha_list t) (modified_non_trans_table t) (Z.lor (m_unsafe_rollback_flags t) (unsafe_flag u)).
Definition has (f : Z) (t : THD_TRANS) : bool := nz (Z.land (m_unsafe_rollback_flags t) f).

Definition mark_modified_non_trans_temp_table := mark MODIFIED_NON_TRANS_TABLE.
Definition has_modified_non_trans_temp_table := has (unsafe_flag MODIFIED_NON_TRANS_TABLE).
Definition mark_executed_table_admin_cmd := mark EXECUTED_TABLE_ADMIN_CMD.
Definition trans_executed_admin_cmd := has (unsafe_flag EXECUTED_TABLE_ADMIN_CMD).
Definition mark_created_temp_table := mark CREATED_TEMP_TABLE.
Definition mark_dropped_temp_table := mark DROPPED_TEMP_TABLE.
Definition has_created_dropped_temp_table := has (Z.lor (unsafe_flag CREATED_TEMP_TABLE) (unsafe_flag DROPPED_TEMP_TABLE)).
Definition mark_trans_did_wait := mark DID_WAIT.
Definition trans_did_wait := has (unsafe_flag DID_WAIT).
Definition mark_trans_did_ddl := mark DID_DDL.
Definition trans_did_ddl := has (unsafe_flag DID_DDL).
End Trx.

(** ** Scans *)

Module Cursor.

Definition MAX_KEY : Z := 64.
Definition HA_EXTRA_KEYREAD : Z := 7.
Definition HA_EXTRA_NO_KEYREAD : Z := 8.

Inductive init_stat := NONE | INDEX | RND.
#[export] Instance init_stat_eq_dec : EqDecision init_stat.
Proof. solve_decision. Defined.

(** The calls of virtual methods, with their results. *)
Inductive call :=
  | CIndexInit (idx : Z) (sorted : bool) (res : Z) | CIndexEnd (res : Z)
  | CRndInit (scan : bool) (res : Z) | CRndEnd (res : Z)
  | CPreIndexInit (idx : Z) (sorted : bool) (res : Z) | CPreIndexEnd (res : Z)
  | CPreRndInit (scan : bool) (res : Z) | CPreRndEnd (res : Z)
  | CExtraOpt (op idx : Z) (res : Z) | CExtra (op : Z) (res : Z).

(** An engine: each method works on the engine's state and may set [active_index],
    which is a protected member. *)
Class Engine (S : Type) := {
  index_init : Z -> bool -> S * Z -> Z * (S * Z);
  index_end : S * Z -> Z * (S * Z);
  rnd_init : bool -> S * Z -> Z * (S * Z);
  rnd_end : S * Z -> Z * (S * Z);
  pre_index_init : Z -> bool -> S * Z -> Z * (S * Z);
  pre_index_end : S * Z -> Z * (S * Z);
  pre_rnd_init : bool -> S * Z -> Z * (S * Z);
  pre_rnd_end : S * Z -> Z * (S * Z);
  extra_opt : Z -> Z -> S * Z -> Z * (S * Z);
  extra : Z -> S * Z -> Z * (S * Z);
}.

Section Handler.
Context {S : Type} `{!Engine S}.

(** [calls] records the virtual calls, the last one first; [end_range] is whether
    the pointer is set. *)
Record handler := MkHandler {
  engine : S;
  active_index : Z;
  inited : init_stat;
  pre_inited : init_stat;
  end_range : bool;
  keyread : Z;
  calls : list call;
}.

Definition new_handler (e : S) : handler := MkHandler e MAX_KEY NONE NONE false MAX_KEY [].

(** Call a virtual method. *)
Definition virtual (f : S * Z -> Z * (S * Z)) (c : Z -> call) (h : handler) : Z * handler :=
  let '(res, (e, a)) := f (engine h, active_index h) in
  (res, MkHandler e a (inited h) (pre_inited h) (end_range h) (keyread h) (c res :: calls h)).
Definition set_scan (i : init_stat) (h : handler) : handler :=
  MkHandler (engine h) (active_index h) i (pre_inited h) false (keyread h) (calls h).
Definition set_active (a : Z) (h : handler) : handler :=
  MkHandler (engine h) a (inited h) (pre_inited h) (end_range h) (keyread h) (calls h).
Definition set_pre (i : init_stat) (h : handler) : handler :=
  MkHandler (engine h) (active_index h) (inited h) i (end_range h) (keyread h) (calls h).
Definition set_keyread (k : Z) (h : handler) : handler :=
  MkHandler (engine h) (active_index h) (inited h) (pre_inited h) (end_range h) k (calls h).

Definition state_is (i j : init_stat) : bool := bool_decide (i = j).

(** The destructor's assertion. *)
Definition can_be_destroyed (h : handler) : bool := state_is (inited h) NONE.

Definition ha_index_init (idx : Z) (sorted : bool) (h : handler) : option (Z * handler) :=
  if negb (state_is (inited h) NONE) then None else
  let '(result, h) := virtual (index_init idx sorted) (CIndexInit idx sorted) h in
  Some (result, if nz result then h else set_active idx (set_scan INDEX h)).
Definition ha_index_end (h : handler) : option (Z * handler) :=
  if negb (state_is (inited h) INDEX) then None else
  Some (virtual index_end CIndexEnd (set_active MAX_KEY (set_scan NONE h))).
Definition ha_rnd_init (scan : bool) (h : handler) : option (Z * handler) :=
  if negb (state_is (inited h) NONE || (state_is (inited h) RND && scan)) then None else
  let '(result, h) := virtual (rnd_init scan) (CRndInit scan) h in
  Some (result, set_scan (if nz result then NONE else RND) h).
Definition ha_rnd_end (h : handler) : option (Z * handler) :=
  if negb (state_is (inited h) RND) then None else
  Some (virtual rnd_end CRndEnd (set_scan NONE h)).
Definition ha_index_or_rnd_end (h : handler) : option (Z * handler) :=
  if state_is (inited h) INDEX then ha_index_end h
  else if state_is (inited h) RND then ha_rnd_end h else Some (0, h).
Definition get_index (h : handler) : Z := if state_is (inited h) INDEX then active_index h else MAX_KEY.

Definition ha_pre_index_init (idx : Z) (sorted : bool) (h : handler) : option (Z * handler) :=
  if negb (state_is (pre_inited h) NONE) then None else
  let '(result, h) := virtual (pre_index_init idx sorted) (CPreIndexInit idx sorted) h in
  Some (result, if nz result then h else set_pre INDEX h).
Definition ha_pre_index_end (h : handler) : option (Z * handler) :=
  if negb (state_is (pre_inited h) INDEX) then None else
  Some (virtual pre_index_end CPreIndexEnd (set_pre NONE h)).
Definition ha_pre_rnd_init (scan : bool) (h : handler) : option (Z * handler) :=
  if negb (state_is (pre_inited h) NONE || (state_is (pre_inited h) RND && scan)) then None else
  let '(result, h) := virtual (pre_rnd_init scan) (CPreRndInit scan) h in
  Some (result, set_pre (if nz result then NONE else RND) h).
Definition ha_pre_rnd_end (h : handler) : option (Z * handler) :=
  if negb (state_is (pre_inited h) RND) then None else
  Some (virtual pre_rnd_end CPreRndEnd (set_pre NONE h)).
Definition ha_pre_index_or_rnd_end (h : handler) : option (Z * handler) :=
  if state_is (pre_inited h) INDEX then ha_pre_index_end h
  else if state_is (pre_inited h) RND then ha_pre_rnd_end h else Some (0, h).

Definition keyread_enabled (h : handler) : bool := keyread h <? MAX_KEY.
Definition ha_start_keyread (idx : Z) (h : handler) : option (Z * handler) :=
  let '(res, h) := if keyread_enabled h then (0, h)
                   else virtual (extra_opt HA_EXTRA_KEYREAD idx) (CExtraOpt HA_EXTRA_KEYREAD idx) h in
  Some (res, set_keyread idx h).
Definition ha_end_keyread (h : handler) : option (Z * handler) :=
  if negb (keyread_enabled h) then Some (0, h) else
  Some (virtual (extra HA_EXTRA_NO_KEYREAD) (CExtra HA_EXTRA_NO_KEYREAD) (set_keyread MAX_KEY h)).
End Handler.
Arguments handler S : clear implicits.
End Cursor.

(** *** Errors of a handler *)

Definition HA_CHECK_DUP_KEY : Z := 1.
Definition HA_CHECK_FK_ERROR : Z := 4.
Definition HA_ERR_FOUND_DUPP_KEY : Z := 121.
Definition HA_ERR_FOUND_DUPP_UNIQUE : Z := 141.
Definition HA_ERR_NO_REFERENCED_ROW : Z := 151.
Definition HA_ERR_ROW_IS_REFERENCED : Z := 152.
Definition HA_ERR_AUTOINC_ERANGE : Z := 167.

(** The default of the virtual method. *)
Definition is_fatal_error (error flags : Z) : bool :=
  negb (negb (nz error) ||
        (nz (Z.land flags HA_CHECK_DUP_KEY) && ((error =? HA_ERR_FOUND_DUPP_KEY) || (error =? HA_ERR_FOUND_DUPP_UNIQUE))) ||
        (error =? HA_ERR_AUTOINC_ERANGE) ||
        (nz (Z.land flags HA_CHECK_FK_ERROR) && ((error =? HA_ERR_ROW_IS_REFERENCED) || (error =? HA_ERR_NO_REFERENCED_ROW)))).

(** ** Transactions as lists of engines *)

Module TrxProps.
Import Trx.

(** The transaction lists the engines of [l], each with whether it is read-write. *)
Fixpoint chain (m : gmap nat Ha_trx_info) (p : option nat) (l : list (nat * bool)) : Prop :=
  match l with
  | [] => p = None
  | (a, rw) :: l =>
      p = Some a /\ exists i h, m !! a = Some i /\ m_ht i = Some h /\ m_flags i = Z.b2z rw /\ chain m (m_next i) l
  end.
Record rep (s : state) (l : list (nat * bool)) : Prop := {
  rep_chain : chain (infos s) (ha_list (trans s)) l;
  rep_nodup : NoDup l.*1;
}.

Definition marked (a : nat) (l : list (nat * bool)) : list (nat * bool) :=
  (fun x => if decide (x.1 = a) then (a, true) else x) <$> l.

Lemma chain_insert_other m p l a i : a ∉ l.*1 -> chain m p l -> chain (<[a := i]> m) p l.
Proof.
  revert p. induction l as [|[b rw] l IH]; intros p Ha H; cbn in *; [done|].
  destruct H as (-> & j & h & Hj & Hh & Hf & Hc). split; [done|]. exists j, h.
  rewrite lookup_insert_ne by set_solver. split_and!; try done. apply IH; set_solver.
Qed.
Lemma marked_not_in a l : a ∉ l.*1 -> marked a l = l.
Proof.
  induction l as [|[b rw] l IH]; intros Ha; [done|]. unfold marked in *. rewrite fmap_cons. cbn in *.
  rewrite decide_False by set_solver. rewrite IH by set_solver. done.
Qed.
Lemma marked_fst a l : (marked a l).*1 = l.*1.
Proof.
  unfold marked. rewrite <- list_fmap_compose. apply list_fmap_ext. intros i [b rw] _. cbn. by case_decide.
Qed.
Lemma read_write_flag i rw : m_flags i = Z.b2z rw -> nz (Z.land (m_flags i) TRX_READ_WRITE) = rw.
Proof. intros ->. by destruct rw. Qed.

Lemma chain_set_rw m p l a i :
  NoDup l.*1 -> chain m p l -> m !! a = Some i ->
  a ∈ l.*1 ->
  chain (<[a := MkTrx (m_next i) (m_ht i) (Z.lor (m_flags i) TRX_READ_WRITE)]> m) p (marked a l).
Proof.
  revert p. induction l as [|[b rw] l IH]; intros p Hn H Hi Ha; [by apply not_elem_of_nil in Ha|].
  rewrite fmap_cons in Hn, Ha. apply NoDup_cons in Hn as [Hb Hn]. cbn in Hb, H.
  destruct H as (-> & j & h & Hj & Hh & Hf & Hc). unfold marked. rewrite fmap_cons. cbn [fst].
  destruct (decide (b = a)) as [->|Hne].
  - cbn [chain]. split; [done|]. rewrite Hi in Hj. injection Hj as <-. eexists _, h. split; [by rewrite lookup_insert_eq|].
    cbn [m_ht m_flags m_next]. split_and!; [done|rewrite Hf; by destruct rw|].
    fold (marked a l). rewrite marked_not_in by done. by apply chain_insert_other.
  - cbn [chain]. split; [done|]. exists j, h. rewrite lookup_insert_ne by done. split_and!; try done.
    apply IH; try done. cbn in Ha. set_solver.
Qed.
Lemma chain_elem m p l a :
  chain m p l -> a ∈ l.*1 -> exists i h, m !! a = Some i /\ m_ht i = Some h.
Proof.
  revert p. induction l as [|[b rw] l IH]; intros p H Ha; [by apply not_elem_of_nil in Ha|].
  destruct H as (-> & j & h & Hj & Hh & Hf & Hc). cbn in Ha. apply elem_of_cons in Ha as [->|Ha]; [by eauto|by eapply IH].
Qed.
Lemma any_read_write_spec fuel m p l :
  chain m p l -> (length l <= fuel)%nat -> any_read_write fuel m p = Some (existsb snd l).
Proof.
  revert fuel p. induction l as [|[a rw] l IH]; intros fuel p H Hf; cbn in *.
  - subst p. by destruct fuel.
  - destruct H as (-> & i & h & Hi & Hh & Hfl & Hc). destruct fuel as [|fuel]; [cbn in Hf; lia|].
    cbn [any_read_write]. rewrite Hi. cbn [mbind option_bind]. unfold is_trx_read_write, next, is_started. rewrite Hh.
    cbn [negb mbind option_bind]. rewrite (read_write_flag _ _ Hfl). destruct rw; [done|]. cbn. by apply IH; [|lia].
Qed.

Inductive trx_op := ORegister (a h : nat) | OSetReadWrite (a : nat) | OCoalesce (a stmt : nat).
Definition run (o : trx_op) (s : state) : option state :=
  match o with
  | ORegister a h => register_ha a h s
  | OSetReadWrite a => set_trx_read_write a s
  | OCoalesce a stmt => coalesce_trx_with a stmt s
  end.
(** When the operation may be used, and its effect on the list. *)
Definition allowed (o : trx_op) (s : state) (l : list (nat * bool)) : Prop :=
  match o with
  | ORegister a _ => infos s !! a = Some reset_info /\ a ∉ l.*1
  | OSetReadWrite a => a ∈ l.*1
  | OCoalesce a stmt => a ∈ l.*1 /\ exists j h, infos s !! stmt = Some j /\ m_ht j = Some h
  end.
Definition effect (o : trx_op) (s : state) (l : list (nat * bool)) : list (nat * bool) :=
  match o with
  | ORegister a _ => (a, false) :: l
  | OSetReadWrite a => marked a l
  | OCoalesce a stmt =>
      match infos s !! stmt with
      | Some j => if nz (Z.land (m_flags j) TRX_READ_WRITE) then marked a l else l
      | None => l
      end
  end.

(** The engine list of a transaction.  Registering puts the engine in front,
    read-only; [set_trx_read_write] marks exactly that engine; [coalesce_trx_with]
    marks it exactly when the statement's part was read-write; and the transaction
    is read-write exactly when some engine of its list is.  The assertions hold
    where the operations are allowed, and the loop over the list ends. *)
Lemma trx_list_read_write (o : trx_op) (s : state) (l : list (nat * bool)) (fuel : nat) :
  rep s l -> allowed o s l -> (length l < fuel)%nat ->
  exists s', run o s = Some s' /\ rep s' (effect o s l) /\
    trans_is_trx_read_write fuel s' = Some (existsb snd (effect o s l)).
Proof.
  intros [Hc Hn] Ha Hf.
  assert (Hset : forall a, a ∈ l.*1 -> exists s', set_trx_read_write a s = Some s' /\ rep s' (marked a l)).
  { intros a Hin. destruct (chain_elem _ _ _ _ Hc Hin) as (i & h & Hi & Hh).
    unfold set_trx_read_write, is_started. rewrite Hi. cbn [mbind option_bind]. rewrite Hh. cbn [negb].
    eexists. split; [done|]. split; [|by rewrite marked_fst]. cbn [infos trans]. rewrite <- Hh. by apply chain_set_rw. }
  assert (Hgoal : exists s', run o s = Some s' /\ rep s' (effect o s l)).
  { destruct o as [a h|a|a stmt]; cbn [run allowed effect] in *; [|by apply Hset|].
    - destruct Ha as [Hi Hin]. unfold register_ha. rewrite Hi. cbn [mbind option_bind reset_info m_flags m_ht m_next].
      eexists. split; [reflexivity|]. split; [|by apply NoDup_cons].
      cbn [infos trans ha_list chain]. split; [done|]. eexists _, h. rewrite lookup_insert_eq. split_and!; try done.
      by apply chain_insert_other.
    - destruct Ha as [Hin (j & h & Hj & Hh)]. destruct (chain_elem _ _ _ _ Hc Hin) as (i & h' & Hi & Hh').
      unfold coalesce_trx_with, is_trx_read_write, is_started. rewrite Hi, Hj. cbn [mbind option_bind].
      rewrite Hh, Hh'. cbn [negb mbind option_bind]. case_match; [by apply Hset|by exists s]. }
  destruct Hgoal as (s' & Hr & Hrep). exists s'. split_and!; [done|done|].
  apply any_read_write_spec; [apply Hrep|]. destruct o; cbn [effect]; repeat case_match;
    unfold marked; rewrite ?length_fmap; cbn; lia.
Qed.

(** *** Unsafe statements *)

Lemma land_flags f u : nz (Z.land f (unsafe_flag u)) = Z.testbit f (Z.log2 (unsafe_flag u)).
Proof.
  rewrite <- nz_land_pow2 by apply Z.log2_nonneg. by destruct u.
Qed.

(** After any sequence of marks on a reset transaction, each kind of statement
    that cannot be rolled back is reported exactly when it was marked; created and
    dropped temporary tables are reported together. *)
Lemma unsafe_flags_exact (us : list unsafe_statement_types) (t : THD_TRANS) (u : unsafe_statement_types) :
  let t' := foldl (fun t u => mark u t) (reset_trans t) us in
  has (unsafe_flag u) t' = bool_decide (u ∈ us) /\
  has_created_dropped_temp_table t' = bool_decide (CREATED_TEMP_TABLE ∈ us) || bool_decide (DROPPED_TEMP_TABLE ∈ us) /\
  ha_list t' = ha_list t.
Proof.
  cbv zeta. set (t' := foldl _ _ _).
  assert (Ht : forall u, 0 <= m_unsafe_rollback_flags t' /\ has (unsafe_flag u) t' = bool_decide (u ∈ us) /\ ha_list t' = ha_list t).
  { clear u. intros u. subst t'. induction us as [|v us IH] using rev_ind; [done|].
    rewrite foldl_snoc. destruct IH as (H0 & Hu & Hl). set (t' := foldl _ _ _) in *.
    split_and!; [|unfold has in *|done].
    - cbn. apply Z.lor_nonneg. split; [done|by destruct v].
    - cbn [mark m_unsafe_rollback_flags]. rewrite land_flags in *.
      rewrite Z.lor_spec, Hu. assert (Hv : Z.testbit (unsafe_flag v) (Z.log2 (unsafe_flag u)) = bool_decide (u = v)) by (by destruct u, v).
      rewrite Hv. rewrite <- bool_decide_or. apply bool_decide_ext. rewrite elem_of_app, list_elem_of_singleton. done. }
  destruct (Ht u) as (H0 & Hu & Hl). destruct (Ht CREATED_TEMP_TABLE) as (_ & Hc & _), (Ht DROPPED_TEMP_TABLE) as (_ & Hd & _).
  split_and!; [done| |done]. rewrite <- Hc, <- Hd. unfold has_created_dropped_temp_table, has.
  rewrite Z.land_lor_distr_r. unfold nz. destruct (Z.eqb_spec (Z.land (m_unsafe_rollback_flags t') (unsafe_flag CREATED_TEMP_TABLE)) 0) as [->|Hn].
  - by rewrite Z.lor_0_l.
  - destruct (Z.eqb_spec (Z.lor (Z.land (m_unsafe_rollback_flags t') (unsafe_flag CREATED_TEMP_TABLE))
      (Z.land (m_unsafe_rollback_flags t') (unsafe_flag DROPPED_TEMP_TABLE))) 0) as [He|]; [|done].
    by apply Z.lor_eq_0_iff in He as [? _].
Qed.
End TrxProps.

(** ** The protocol of scans *)

Module CursorProps.
Import Cursor.

Section Protocol.
Context {S : Type} `{!Engine S}.

Inductive cursor_op := OIndexInit (idx : Z) (sorted : bool) | OIndexEnd | ORndInit (scan : bool) | ORndEnd
  | OIndexOrRndEnd | OPreIndexInit (idx : Z) (sorted : bool) | OPreIndexEnd | OPreRndInit (scan : bool) | OPreRndEnd
  | OPreIndexOrRndEnd | OStartKeyread (idx : Z) | OEndKeyread.

Definition run (o : cursor_op) (h : handler S) : option (Z * handler S) :=
  match o with
  | OIndexInit idx sorted => ha_index_init idx sorted h
  | OIndexEnd => ha_index_end h
  | ORndInit scan => ha_rnd_init scan h
  | ORndEnd => ha_rnd_end h
  | OIndexOrRndEnd => ha_index_or_rnd_end h
  | OPreIndexInit idx sorted => ha_pre_index_init idx sorted h
  | OPreIndexEnd => ha_pre_index_end h
  | OPreRndInit scan => ha_pre_rnd_init scan h
  | OPreRndEnd => ha_pre_rnd_end h
  | OPreIndexOrRndEnd => ha_pre_index_or_rnd_end h
  | OStartKeyread idx => ha_start_keyread idx h
  | OEndKeyread => ha_end_keyread h
  end.

(** The handles that can be reached without a failed assertion; the indexes given to
    [ha_start_keyread] are indexes. *)
Inductive reachable (e : S) : handler S -> Prop :=
  | reach_new : reachable e (new_handler e)
  | reach_step h o r h' :
      reachable e h -> (forall idx, o = OStartKeyread idx -> idx < MAX_KEY) -> run o h = Some (r, h') -> reachable e h'.

(** What an engine may expect of the calls it gets, from its own side: an automaton
    over the calls with their results, the last call first. *)
Definition open_index (r : Z) (st : init_stat) : option init_stat :=
  match st with NONE => Some (if nz r then NONE else INDEX) | _ => None end.
Definition open_rnd (scan : bool) (r : Z) (st : init_stat) : option init_stat :=
  match st with
  | NONE => Some (if nz r then NONE else RND)
  | RND => if scan then Some (if nz r then NONE else RND) else None
  | INDEX => None
  end.
Definition close (i st : init_stat) : option init_stat := if state_is st i then Some NONE else None.

Fixpoint scan_state (cs : list call) : option init_stat :=
  match cs with
  | [] => Some NONE
  | c :: cs =>
      st ← scan_state cs;
      match c with
      | CIndexInit _ _ r => open_index r st
      | CIndexEnd _ => close INDEX st
      | CRndInit scan r => open_rnd scan r st
      | CRndEnd _ => close RND st
      | _ => Some st
      end
  end.
Fixpoint pre_state (cs : list call) : option init_stat :=
  match cs with
  | [] => Some NONE
  | c :: cs =>
      st ← pre_state cs;
      match c with
      | CPreIndexInit _ _ r => open_index r st
      | CPreIndexEnd _ => close INDEX st
      | CPreRndInit scan r => open_rnd scan r st
      | CPreRndEnd _ => close RND st
      | _ => Some st
      end
  end.
(** The calls that switch reading of keys only on and off alternate. *)
Fixpoint keyread_state (cs : list call) : option bool :=
  match cs with
  | [] => Some false
  | c :: cs =>
      on ← keyread_state cs;
      match c with
      | CExtraOpt _ _ _ => if (on : bool) then None else Some true
      | CExtra _ _ => if (on : bool) then Some false else None
      | _ => Some on
      end
  end.

Definition follows_protocol (h : handler S) : Prop :=
  scan_state (calls h) = Some (inited h) /\ pre_state (calls h) = Some (pre_inited h) /\
  keyread_state (calls h) = Some (keyread_enabled h).

(** A virtual call changes the engine's side and is recorded. *)
Lemma virtual_spec f c (h : handler S) :
  exists r e a, virtual f c h = (r, MkHandler e a (inited h) (pre_inited h) (end_range h) (keyread h) (c r :: calls h)).
Proof. unfold virtual. destruct (f (engine h, active_index h)) as [r [e a]]. by eexists _, _, _. Qed.

(** Run the virtual call of the goal and read off the new fields. *)
Ltac after_virtual :=
  match goal with
  | H : context [virtual ?f ?c ?h] |- _ =>
      let r := fresh "r" in let e := fresh "e" in let a := fresh "a" in let E := fresh "E" in
      destruct (virtual_spec f c h) as (r & e & a & E); rewrite E in H; clear E
  end; cbn in *.
Ltac handler_cases :=
  repeat first [after_virtual | case_match]; simplify_eq; cbn in *;
  split_and!; try done;
  repeat match goal with H : scan_state _ = Some _ |- _ => rewrite H | H : pre_state _ = Some _ |- _ => rewrite H
                       | H : keyread_state _ = Some _ |- _ => rewrite H end; cbn; try done;
  repeat case_match; first [congruence | done].

Lemma run_follows h o r h' :
  follows_protocol h -> (forall idx, o = OStartKeyread idx -> idx < MAX_KEY) -> run o h = Some (r, h') -> follows_protocol h'.
Proof.
  intros (Hs & Hp & Hk) Hidx Hr. destruct h as [e a i p er k cs]. unfold follows_protocol, keyread_enabled in *.
  cbn in Hs, Hp, Hk.
  destruct o; cbn [run] in Hr;
    unfold ha_index_or_rnd_end, ha_pre_index_or_rnd_end, ha_index_init, ha_index_end, ha_rnd_init, ha_rnd_end,
      ha_pre_index_init, ha_pre_index_end, ha_pre_rnd_init, ha_pre_rnd_end, ha_start_keyread, ha_end_keyread,
      keyread_enabled in Hr; cbn [inited pre_inited keyread] in Hr.
  1-5: destruct i; cbn in Hr; try done; handler_cases.
  1-5: destruct p; cbn in Hr; try done; handler_cases.
  - specialize (Hidx _ eq_refl). assert (Hi : (idx <? MAX_KEY) = true) by lia.
    destruct (k <? MAX_KEY) eqn:Ek; cbn in Hr; handler_cases.
  - destruct (k <? MAX_KEY) eqn:Ek; cbn in Hr; handler_cases.
Qed.

Lemma reachable_follows e h : reachable e h -> follows_protocol h.
Proof. induction 1 as [|h o r h' _ IH Ho Hr]; [by split|by eapply run_follows]. Qed.

(** How often a kind of call was made. *)
Definition count (P : call -> bool) (cs : list call) : nat := length (filter (fun c => P c = true) cs).
Definition index_opened (c : call) : bool := match c with CIndexInit _ _ r => negb (nz r) | _ => false end.
Definition index_closed (c : call) : bool := match c with CIndexEnd _ => true | _ => false end.
Definition keyread_on (c : call) : bool := match c with CExtraOpt _ _ _ => true | _ => false end.
Definition keyread_off (c : call) : bool := match c with CExtra _ _ => true | _ => false end.

Lemma count_cons P c cs : count P (c :: cs) = ((if P c then 1 else 0) + count P cs)%nat.
Proof. unfold count. rewrite filter_cons. destruct (P c); case_decide; done. Qed.

Lemma scan_balance cs st :
  scan_state cs = Some st ->
  count index_opened cs = (count index_closed cs + (if state_is st INDEX then 1 else 0))%nat.
Proof.
  revert st. induction cs as [|c cs IH]; intros st H; cbn in H; [by injection H as <-|].
  apply bind_Some in H as (st0 & H0 & H). specialize (IH _ H0). rewrite !count_cons.
  unfold open_index, open_rnd, close in H. destruct c; cbn in *; simplify_eq; try done; destruct st0; cbn in *; simplify_eq; try done;
    repeat case_match; simplify_eq; cbn in *; try lia.
Qed.
Lemma keyread_balance cs on :
  keyread_state cs = Some on -> count keyread_on cs = (count keyread_off cs + (if on then 1 else 0))%nat.
Proof.
  revert on. induction cs as [|c cs IH]; intros on H; cbn in H; [by injection H as <-|].
  apply bind_Some in H as (on0 & H0 & H). specialize (IH _ H0). rewrite !count_cons.
  destruct c; cbn in *; simplify_eq; try done; destruct on0; cbn in *; simplify_eq; lia.
Qed.

(** C26 : the engine sees scans in order.  Whatever public calls are made, as long as
    no assertion fails, the calls that reach the engine follow its protocol: an
    index or table scan is ended only when it is open, and opened only when none
    is (a table scan may be restarted); so every successful [index_init] is
    followed by exactly one [index_end] or its scan is the open one, and reading
    of keys only is switched on and off in turns.  From every state
    [ha_index_or_rnd_end] closes what is open, after which the handle may be
    destroyed; and [get_index] gives no index unless an index scan is open. *)
Theorem scan_protocol (e : S) (h : handler S) :
  reachable e h ->
  scan_state (calls h) = Some (inited h) /\ pre_state (calls h) = Some (pre_inited h) /\
  count index_opened (calls h) = (count index_closed (calls h) + (if state_is (inited h) INDEX then 1 else 0))%nat /\
  count keyread_on (calls h) = (count keyread_off (calls h) + (if keyread_enabled h then 1 else 0))%nat /\
  (exists r h', ha_index_or_rnd_end h = Some (r, h') /\ can_be_destroyed h' = true /\ reachable e h') /\
  (exists r h', ha_pre_index_or_rnd_end h = Some (r, h') /\ pre_inited h' = NONE) /\
  (inited h <> INDEX -> get_index h = MAX_KEY).
Proof.
  intros Hreach. pose proof (reachable_follows e h Hreach) as (Hs & Hp & Hk).
  assert (Hend : exists r h', ha_index_or_rnd_end h = Some (r, h') /\ can_be_destroyed h' = true).
  { unfold ha_index_or_rnd_end, ha_index_end, ha_rnd_end, can_be_destroyed. destruct (inited h) eqn:Ei; cbn.
    - eexists _, h. split; [reflexivity|]. by rewrite Ei.
    - destruct (virtual_spec index_end CIndexEnd (set_active MAX_KEY (set_scan NONE h))) as (r & e' & a & ->).
      by eexists _, _.
    - destruct (virtual_spec rnd_end CRndEnd (set_scan NONE h)) as (r & e' & a & ->). by eexists _, _. }
  split_and!; [done|done|by apply scan_balance|by apply keyread_balance| | |].
  - destruct Hend as (r & h' & Hr & Hd). exists r, h'. split_and!; [done..|].
    by apply (reach_step e h OIndexOrRndEnd r h').
  - unfold ha_pre_index_or_rnd_end, ha_pre_index_end, ha_pre_rnd_end. destruct (pre_inited h) eqn:Ei; cbn.
    + by eexists _, h.
    + destruct (virtual_spec pre_index_end CPreIndexEnd (set_pre NONE h)) as (r & e' & a & ->). by eexists _, _.
    + destruct (virtual_spec pre_rnd_end CPreRndEnd (set_pre NONE h)) as (r & e' & a & ->). by eexists _, _.
  - intros Hi. unfold get_index. by destruct (inited h).
Qed.
End Protocol.

(** A restarted table scan that fails is not ended: the handle is in the state
    without a scan, and [rnd_end] fails its assertion. *)
Lemma failed_restart_not_ended :
  let eng : Engine unit := {|
    index_init := fun _ _ x => (0, x); index_end := fun x => (0, x);
    rnd_init := fun scan x => (if scan then 1 else 0, x); rnd_end := fun x => (0, x);
    pre_index_init := fun _ _ x => (0, x); pre_index_end := fun x => (0, x);
    pre_rnd_init := fun _ x => (0, x); pre_rnd_end := fun x => (0, x);
    extra_opt := fun _ _ x => (0, x); extra := fun _ x => (0, x) |} in
  exists r1 h1 r2 h2, ha_rnd_init false (new_handler tt) = Some (r1, h1) /\ inited h1 = RND /\
  ha_rnd_init true h1 = Some (r2, h2) /\ ha_rnd_end h2 = None /\
  ha_index_or_rnd_end h2 = Some (0, h2) /\ calls h2 = [CRndInit true 1; CRndInit false 0].
Proof. cbv zeta. eexists _, _, _, _. repeat (split; [reflexivity|]). reflexivity. Qed.

#[local] Instance sample_engine : Engine unit := {
  index_init _ _ x := (0, x); index_end x := (0, x); rnd_init _ x := (0, x); rnd_end x := (0, x);
  pre_index_init _ _ x := (0, x); pre_index_end x := (0, x); pre_rnd_init _ x := (0, x); pre_rnd_end x := (0, x);
  extra_opt _ _ x := (0, x); extra _ x := (0, x);
}.
Lemma scan_protocol_witness :
  exists r h h', ha_index_init 3 true (new_handler tt) = Some (r, h) /\ inited h = INDEX /\
  ha_index_or_rnd_end h = Some (0, h') /\ can_be_destroyed h' = true.
Proof.
  destruct (ha_index_init 3 true (new_handler tt)) as [[r h]|] eqn:E; [|discriminate E].
  assert (Hr : reachable tt h) by (apply (reach_step tt (new_handler tt) (OIndexInit 3 true) r h); [constructor|discriminate|exact E]).
  destruct (scan_protocol tt h Hr) as (_ & _ & _ & _ & (r' & h' & He & Hd & _) & _).
  exists r, h, h'. injection E as <- <-. split; [reflexivity|]. split; [reflexivity|]. split; [|exact Hd].
  injection He as <- <-. reflexivity.
Defined.
End CursorProps.

(** ** Fatal errors *)

(** [is_fatal_error] is false exactly for success, an exhausted auto-increment,
    the two duplicate key errors when duplicates are checked, and the two foreign
    key errors when foreign keys are checked. *)
Lemma is_fatal_error_exact (error flags : Z) :
  is_fatal_error error flags = false <->
  error = 0 \/ error = HA_ERR_AUTOINC_ERANGE \/
  (Z.testbit flags 0 = true /\ (error = HA_ERR_FOUND_DUPP_KEY \/ error = HA_ERR_FOUND_DUPP_UNIQUE)) \/
  (Z.testbit flags 2 = true /\ (error = HA_ERR_ROW_IS_REFERENCED \/ error = HA_ERR_NO_REFERENCED_ROW)).
Proof.
  unfold is_fatal_error, HA_CHECK_DUP_KEY, HA_CHECK_FK_ERROR.
  pose proof (nz_land_pow2 flags 0 ltac:(lia)) as H0. pose proof (nz_land_pow2 flags 2 ltac:(lia)) as H2.
  change (2 ^ 0) with 1 in H0. change (2 ^ 2) with 4 in H2. rewrite H0, H2. unfold nz.
  destruct (Z.testbit flags 0), (Z.testbit flags 2); lia.
Qed.
