(* ===== verification/WindowFunc.v ===== *)
(** Window functions: the inline code of
    [mariadb/include/mysql/server/private/item_windowfunc.h].

    [Sequence] is the numbering functions ([ROW_NUMBER], [NTILE], [CUME_DIST],
    [PERCENT_RANK]); [Disc] and [Cont] are [PERCENTILE_DISC] and
    [PERCENTILE_CONT]; [Phases] is [Item_window_func], which stands for a window
    function in a select list; [Tracker] is [Group_bound_tracker].

    An expression argument is given by its value for the current row ([None] is
    NULL); errors of [my_error] are collected in the state. *)

From Stdlib Require Import SpecFloat.
From S2P Require Import Prelude Doubles.

Definition ER_INVALID_NTILE_ARGUMENT : Z := 4024.
Definition ER_ARGUMENT_OUT_OF_RANGE : Z := 4103.
Definition ER_ARGUMENT_NOT_CONSTANT : Z := 4102.

(** ** Partition and row counts *)

(** [Partition_row_count::calc_val_real]: the value and [*null_value]. *)
Definition calc_val_real (partition_row_count_ current_row_count : Z) : double * bool :=
  if partition_row_count_ =? 0 then (S754_zero false, true)
  else (ddiv (of_Z current_row_count) (of_Z partition_row_count_), false).
(** [Partition_row_count::get_row_count] converts to [longlong],
    [Current_row_count::get_row_number] does not convert. *)
Definition get_row_count (partition_row_count_ : Z) : Z := s64 partition_row_count_.
Definition get_row_number (current_row_count_ : Z) : Z := current_row_count_.

(** ** Numbering functions *)

Module RowNumber.
Definition clear : Z := 0.
Definition add (count : Z) : bool * Z := (false, s64 (count + 1)).
Definition val_int (count : Z) : Z := count.
End RowNumber.

(** [Item_sum_rank] and [Item_sum_dense_rank]; [add] is not in the header. *)
Module Rank.
Record state := MkRank { row_number : Z; cur_rank : Z }.
Definition clear : state := MkRank 0 1.
Definition val_int (s : state) : Z := cur_rank s.
End Rank.
Module DenseRank.
Record state := MkDense { dense_rank : Z; first_add : bool }.
Definition clear : state := MkDense 0 true.
Definition val_int (s : state) : Z := dense_rank s.
End DenseRank.

(** [Item_sum_percent_rank::val_real]: the value and [null_value]. *)
Module PercentRank.
Record state := MkPercent { row_number : Z; cur_rank : Z; partition_row_count_ : Z }.
Definition clear (s : state) : state := MkPercent 0 1 (partition_row_count_ s).
Definition set_partition_row_count (count : Z) (s : state) : state := MkPercent (row_number s) (cur_rank s) count.
Definition val_real (s : state) : double * bool :=
  let partition_rows := u64 (get_row_count (partition_row_count_ s)) in
  ((if partition_rows >? 1
    then ddiv (of_Z (s64 (cur_rank s - 1))) (of_Z (u64 (partition_rows - 1)))
    else S754_zero false),
   negb (partition_rows >? 0)).
End PercentRank.

Module CumeDist.
Record state := MkCume { partition_row_count_ : Z; current_row_count_ : Z }.
Definition clear (s : state) : state := MkCume 0 0.
Definition set_partition_row_count (count : Z) (s : state) : state := MkCume count (current_row_count_ s).
Definition add (s : state) : bool * state := (false, MkCume (partition_row_count_ s) (u64 (current_row_count_ s + 1))).
Definition val_real (s : state) : double * bool := calc_val_real (partition_row_count_ s) (current_row_count_ s).
End CumeDist.

(** ** [NTILE] *)

Module Ntile.

Record state := MkNtile {
  partition_row_count_ : Z;
  current_row_count_ : Z;
  n_old_val_ : Z;
  null_value : bool;
  errors : list Z;
}.
Definition initial : state := MkNtile 0 0 0 false [].
Definition clear (s : state) : state := MkNtile 0 0 0 (null_value s) (errors s).
Definition set_partition_row_count (count : Z) (s : state) : state :=
  MkNtile count (current_row_count_ s) (n_old_val_ s) (null_value s) (errors s).
Definition add (s : state) : bool * state :=
  (false, MkNtile (partition_row_count_ s) (u64 (current_row_count_ s + 1)) (n_old_val_ s) (null_value s) (errors s)).

(** [num_quantiles] is the value of the argument ([get_num_quantiles]); [None] is
    a division by zero, in each of the three divisions. *)
Definition val_int (num_quantiles : Z) (s : state) : option (Z * state) :=
  if get_row_count (partition_row_count_ s) =? 0 then
    Some (0, MkNtile (partition_row_count_ s) (current_row_count_ s) (n_old_val_ s) true (errors s))
  else if (num_quantiles <=? 0) || (negb (u64 num_quantiles =? n_old_val_ s) && (n_old_val_ s >? 0)) then
    Some (1, MkNtile (partition_row_count_ s) (current_row_count_ s) (n_old_val_ s) (null_value s)
               (errors s ++ [ER_INVALID_NTILE_ARGUMENT]))
  else
    let s' := MkNtile (partition_row_count_ s) (current_row_count_ s) (u64 num_quantiles) false (errors s) in
    if num_quantiles =? 0 then None else
    let quantile_size := u64 (Z.quot (get_row_count (partition_row_count_ s)) num_quantiles) in
    let extra_rows := u64 (get_row_count (partition_row_count_ s) - u64 (quantile_size * num_quantiles)) in
    let row := current_row_count_ s in
    if row <=? u64 (extra_rows * u64 (quantile_size + 1)) then
      if u64 (quantile_size + 1) =? 0 then None
      else Some (s64 (u64 (u64 (row - 1) / u64 (quantile_size + 1) + 1)), s')
    else if quantile_size =? 0 then None
    else Some (s64 (u64 (u64 (u64 (row - 1) - extra_rows) / quantile_size + 1)), s').

(** The executor's pass over a partition whose size is known: [clear],
    [set_partition_row_count], then for each row [add] and [val_int] with the
    argument's value in that row. *)
Fixpoint rows (args : list Z) (s : state) : option (list Z * state) :=
  match args with
  | [] => Some ([], s)
  | k :: args' =>
      '(v, s1) ← val_int k (add s).2;
      '(vs, s2) ← rows args' s1;
      Some (v :: vs, s2)
  end.
Definition partition (n : Z) (args : list Z) (s : state) : option (list Z * state) :=
  rows args (set_partition_row_count n (clear s)).

End Ntile.

(** ** [PERCENTILE_DISC]

    [V] is the type of the values of the expression in [WITHIN GROUP (ORDER BY)].
    An [Item_cache] holds the value of its expression for the row at which it was
    stored and cached ([store], [cache_value]): [Some] of the value, which is [None]
    for NULL.  [clear] empties it ([None]); what reading an empty cache gives is left
    to the reader of the cache, a parameter of the getters. *)

Module Disc.
Section disc.
Context {V : Type}.

Record state := MkDisc {
  partition_row_count_ : Z;
  current_row_count_ : Z;
  value : option (option V);
  val_calculated : bool;
  first_call : bool;
  prev_value : double;
  null_value : bool;
  errors : list Z;
}.
(** The constructor, [value] being set up by [setup_hybrid]. *)
Definition Item_sum_percentile_disc : state := MkDisc 0 0 None false true (S754_zero false) false [].
Definition clear (s : state) : state := MkDisc 0 0 None false true (prev_value s) (null_value s) (errors s).
Definition set_partition_row_count (count : Z) (s : state) : state :=
  MkDisc count (current_row_count_ s) (value s) (val_calculated s) (first_call s) (prev_value s) (null_value s) (errors s).

Definition set_prev_value (x : double) (s : state) : state :=
  MkDisc (partition_row_count_ s) (current_row_count_ s) (value s) (val_calculated s) (first_call s) x (null_value s) (errors s).
Definition set_first_call (b : bool) (s : state) : state :=
  MkDisc (partition_row_count_ s) (current_row_count_ s) (value s) (val_calculated s) b (prev_value s) (null_value s) (errors s).
Definition set_null_value (b : bool) (s : state) : state :=
  MkDisc (partition_row_count_ s) (current_row_count_ s) (value s) (val_calculated s) (first_call s) (prev_value s) b (errors s).
Definition my_error (e : Z) (s : state) : state :=
  MkDisc (partition_row_count_ s) (current_row_count_ s) (value s) (val_calculated s) (first_call s) (prev_value s) (null_value s) (errors s ++ [e]).

(** [arg] is the value of the fraction and [order_item] that of the ordering
    expression in the current row. *)
Definition add (arg : option double) (order_item : option V) (s : state) : bool * state :=
  match arg with
  | None => (false, s)
  | Some a =>
      let s1 := if first_call s then set_prev_value a s else s in
      if first_call s && (dlt (of_Z 1) a || dlt a (of_Z 0)) then (true, my_error ER_ARGUMENT_OUT_OF_RANGE s1) else
      let s2 := if first_call s then set_first_call false s1 else s1 in
      if negb (deq (prev_value s2) a) then (true, my_error ER_ARGUMENT_NOT_CONSTANT s2) else
      if val_calculated s2 then (false, s2) else
      match order_item with
      | None =>
          (false, MkDisc (partition_row_count_ s2) (current_row_count_ s2) (Some None) false
                    (first_call s2) (prev_value s2) (null_value s2) (errors s2))
      | Some v =>
          let n := u64 (current_row_count_ s2 + 1) in
          let '(val, null) := calc_val_real (partition_row_count_ s2) n in
          (false, MkDisc (partition_row_count_ s2) n (Some (Some v)) (dle (prev_value s2) val)
                    (first_call s2) (prev_value s2) null (errors s2))
      end
  end.

(** The getters have one body; [get] reads the cache in the form asked for, [none]
    is the value that stands for NULL ([0], or [true] for dates and natives). *)
Definition get_value {R} (none : R) (get : option (option V) -> R) (arg : option double) (s : state) : R * state :=
  if (get_row_count (partition_row_count_ s) =? 0) || bool_decide (arg = None) then (none, set_null_value true s)
  else (get (value s), set_null_value false s).
Definition val_real := get_value (S754_zero false).
Definition val_int := get_value 0.
Definition val_decimal {my_decimal} := get_value (R := option my_decimal) None.
Definition val_str {String} := get_value (R := option String) None.
Definition get_date := get_value true.
Definition val_native := get_value true.

(** A pass over the rows of a partition: results of [add]. *)
Fixpoint rows (rs : list (option double * option V)) (s : state) : bool * state :=
  match rs with
  | [] => (false, s)
  | (a, o) :: rs' =>
      let '(failed, s') := add a o s in
      if failed : bool then (true, s') else rows rs' s'
  end.
Definition partition (n : Z) (rs : list (option double * option V)) (s : state) : bool * state :=
  rows rs (set_partition_row_count n (clear s)).
End disc.
Arguments state : clear implicits.
End Disc.

(** ** [PERCENTILE_CONT] *)

Module Cont.
Section cont.
Context {V : Type}.

Record state := MkCont {
  partition_row_count_ : Z;
  current_row_count_ : Z;
  floor_value : option (option V);
  ceil_value : option (option V);
  first_call : bool;
  prev_value : double;
  ceil_val_calculated : bool;
  floor_val_calculated : bool;
  null_value : bool;
  errors : list Z;
}.
Definition Item_sum_percentile_cont : state :=
  MkCont 0 0 None None true (S754_zero false) false false false [].
Definition clear (s : state) : state :=
  MkCont 0 0 None None true (prev_value s) false false (null_value s) (errors s).
Definition set_partition_row_count (count : Z) (s : state) : state :=
  MkCont count (current_row_count_ s) (floor_value s) (ceil_value s) (first_call s) (prev_value s)
    (ceil_val_calculated s) (floor_val_calculated s) (null_value s) (errors s).

Definition begin_call (a : double) (s : state) : state :=
  MkCont (partition_row_count_ s) (current_row_count_ s) (floor_value s) (ceil_value s) false a
    (ceil_val_calculated s) (floor_val_calculated s) (null_value s) (errors s).
Definition my_error (e : Z) (s : state) : state :=
  MkCont (partition_row_count_ s) (current_row_count_ s) (floor_value s) (ceil_value s) (first_call s) (prev_value s)
    (ceil_val_calculated s) (floor_val_calculated s) (null_value s) (errors s ++ [e]).
Definition store_floor (o : option V) (s : state) : state :=
  MkCont (partition_row_count_ s) (current_row_count_ s) (Some o) (ceil_value s) (first_call s) (prev_value s)
    (ceil_val_calculated s) (floor_val_calculated s) (null_value s) (errors s).
Definition store_ceil (o : option V) (s : state) : state :=
  MkCont (partition_row_count_ s) (current_row_count_ s) (floor_value s) (Some o) (first_call s) (prev_value s)
    (ceil_val_calculated s) (floor_val_calculated s) (null_value s) (errors s).
Definition set_null_value (b : bool) (s : state) : state :=
  MkCont (partition_row_count_ s) (current_row_count_ s) (floor_value s) (ceil_value s) (first_call s) (prev_value s)
    (ceil_val_calculated s) (floor_val_calculated s) b (errors s).

(** [1 + prev_value * (get_row_count()-1)]. *)
Definition row_position (prev_value : double) (partition_row_count_ : Z) : double :=
  dadd (of_Z 1) (dmul prev_value (of_Z (s64 (get_row_count partition_row_count_ - 1)))).

Definition add (arg : option double) (order_item : option V) (s : state) : bool * state :=
  match arg with
  | None => (false, s)
  | Some a =>
      let s1 := if first_call s then begin_call a s else s in
      if first_call s && (dlt (of_Z 1) a || dlt a (of_Z 0)) then (true, my_error ER_ARGUMENT_OUT_OF_RANGE s1) else
      if negb (deq (prev_value s1) a) then (true, my_error ER_ARGUMENT_NOT_CONSTANT s1) else
      let s2 := if negb (floor_val_calculated s1) then store_floor order_item s1 else s1 in
      if negb (floor_val_calculated s1) && bool_decide (order_item = None) then (false, s2) else
      let to_ceil := floor_val_calculated s2 && negb (ceil_val_calculated s2) in
      let s3 := if to_ceil then store_ceil order_item s2 else s2 in
      if to_ceil && bool_decide (order_item = None) then (false, s3) else
      let n := u64 (current_row_count_ s3 + 1) in
      let val := row_position (prev_value s3) (partition_row_count_ s3) in
      let fc := floor_val_calculated s3 || deq (of_Z (get_row_number n)) (dfloor val) in
      let cc := ceil_val_calculated s3 || deq (of_Z (get_row_number n)) (dceil val) in
      (false, MkCont (partition_row_count_ s3) n (floor_value s3) (ceil_value s3) (first_call s3) (prev_value s3)
                cc fc (null_value s3) (errors s3))
  end.

(** [value_real] is [val_real] of a cache. *)
Definition val_real (value_real : option (option V) -> double) (arg : option double) (s : state) : double * state :=
  if (get_row_count (partition_row_count_ s) =? 0) || bool_decide (arg = None)
  then (S754_zero false, set_null_value true s)
  else
    let val := row_position (prev_value s) (partition_row_count_ s) in
    ((if deq (dceil val) (dfloor val) then value_real (floor_value s)
      else dadd (dmul (dsub val (dfloor val)) (value_real (ceil_value s)))
                (dmul (dsub (dceil val) val) (value_real (floor_value s)))),
     set_null_value false s).

Fixpoint rows (rs : list (option double * option V)) (s : state) : bool * state :=
  match rs with
  | [] => (false, s)
  | (a, o) :: rs' =>
      let '(failed, s') := add a o s in
      if failed : bool then (true, s') else rows rs' s'
  end.
Definition partition (n : Z) (rs : list (option double * option V)) (s : state) : bool * state :=
  rows rs (set_partition_row_count n (clear s)).
End cont.
Arguments state : clear implicits.
End Cont.

(** ** [Item_window_func] *)

Module Phases.

Inductive Sumfunctype :=
  | COUNT_FUNC | COUNT_DISTINCT_FUNC | SUM_FUNC | SUM_DISTINCT_FUNC | AVG_FUNC
  | AVG_DISTINCT_FUNC | MIN_FUNC | MAX_FUNC | STD_FUNC
  | VARIANCE_FUNC | SUM_BIT_FUNC | UDF_SUM_FUNC | GROUP_CONCAT_FUNC
  | ROW_NUMBER_FUNC | RANK_FUNC | DENSE_RANK_FUNC | PERCENT_RANK_FUNC
  | CUME_DIST_FUNC | NTILE_FUNC | FIRST_VALUE_FUNC | LAST_VALUE_FUNC
  | NTH_VALUE_FUNC | LEAD_FUNC | LAG_FUNC | PERCENTILE_CONT_FUNC
  | PERCENTILE_DISC_FUNC | SP_AGGREGATE_FUNC | JSON_ARRAYAGG_FUNC
  | JSON_OBJECTAGG_FUNC.

Definition is_aggr_sum_func (f : Sumfunctype) : bool :=
  match f with
  | COUNT_FUNC | COUNT_DISTINCT_FUNC | SUM_FUNC | SUM_DISTINCT_FUNC | AVG_FUNC
  | AVG_DISTINCT_FUNC | MIN_FUNC | MAX_FUNC | STD_FUNC | VARIANCE_FUNC
  | SUM_BIT_FUNC | UDF_SUM_FUNC | GROUP_CONCAT_FUNC | JSON_ARRAYAGG_FUNC => true
  | _ => false
  end.
Definition is_frame_prohibited (f : Sumfunctype) : bool :=
  match f with
  | ROW_NUMBER_FUNC | RANK_FUNC | DENSE_RANK_FUNC | PERCENT_RANK_FUNC
  | CUME_DIST_FUNC | NTILE_FUNC | PERCENTILE_CONT_FUNC | PERCENTILE_DISC_FUNC => true
  | _ => false
  end.
Definition requires_special_cursors (f : Sumfunctype) : bool :=
  match f with
  | FIRST_VALUE_FUNC | LAST_VALUE_FUNC | NTH_VALUE_FUNC | LAG_FUNC | LEAD_FUNC => true
  | _ => false
  end.
Definition requires_partition_size (f : Sumfunctype) : bool :=
  match f with
  | PERCENT_RANK_FUNC | CUME_DIST_FUNC | NTILE_FUNC | PERCENTILE_CONT_FUNC | PERCENTILE_DISC_FUNC => true
  | _ => false
  end.
Definition requires_peer_size (f : Sumfunctype) : bool :=
  match f with CUME_DIST_FUNC => true | _ => false end.
Definition is_order_list_mandatory (f : Sumfunctype) : bool :=
  match f with
  | RANK_FUNC | DENSE_RANK_FUNC | PERCENT_RANK_FUNC | CUME_DIST_FUNC
  | LAG_FUNC | LEAD_FUNC | PERCENTILE_CONT_FUNC | PERCENTILE_DISC_FUNC => true
  | _ => false
  end.
Definition only_single_element_order_list (f : Sumfunctype) : bool :=
  match f with PERCENTILE_CONT_FUNC | PERCENTILE_DISC_FUNC => true | _ => false end.

(** What is read in the computation phase (the window function, which sets its own
    [null_value]) and in the retrieval phase (the field of the temporary table). *)
Class Sources (R : Type) := {
  window_func : R * bool;
  result_field : R;
}.
Record state := MkWf {
  force_return_blank : bool;
  read_value_from_result_field : bool;
  null_value : bool;
}.
(** The constructors leave [null_value] to the base class. *)
Definition Item_window_func (null_value : bool) : state := MkWf true false null_value.
Definition set_phase_to_initial (s : state) : state := MkWf true false (null_value s).
Definition set_phase_to_computation (s : state) : state := MkWf false false (null_value s).
Definition set_phase_to_retrieval (s : state) : state := MkWf false true (null_value s).

Definition set_null (s : state) (b : bool) : state :=
  MkWf (force_return_blank s) (read_value_from_result_field s) b.

(** [field_is_null] is [result_field->is_null()], [func_is_null] is
    [window_func()->is_null()]. *)
Definition is_null (field_is_null func_is_null : bool) (s : state) : bool :=
  if force_return_blank s then true
  else if read_value_from_result_field s then field_is_null
  else func_is_null.

Section getters.
Context {R : Type} {Src : Sources R} (field_is_null : bool).

(** [val_real] and [val_int] read the field whether or not it is NULL. *)
Definition val_number (zero : R) (s : state) : R * state :=
  if force_return_blank s then (zero, set_null s true)
  else if read_value_from_result_field s then (result_field, set_null s field_is_null)
  else (window_func.1, set_null s window_func.2).
(** [val_str], [val_decimal] ([none] is [NULL]) and [get_date] ([none] is [true])
    do not read a field that is NULL. *)
Definition val_object (none : R) (s : state) : R * state :=
  if force_return_blank s then (none, set_null s true)
  else if read_value_from_result_field s then
    ((if field_is_null then none else result_field), set_null s field_is_null)
  else (window_func.1, set_null s window_func.2).
End getters.

Definition val_real `{Sources double} b := val_number b (S754_zero false).
Definition val_int `{Sources Z} b := val_number b 0.
Definition val_str `{Sources (option String.string)} b := val_object b None.
Definition val_decimal {my_decimal} `{Sources (option my_decimal)} b := val_object b None.
Definition get_date `{Sources bool} b := val_object b true.

End Phases.

(** ** [Group_bound_tracker] *)

(** Cached items: [cmp_read_only] compares the cached value with the value in a
    row; [test_if_group_changed] gives the index of a field that differs from its
    cached value or -1, and caches the values of the row. *)
Class CachedItems (item row : Type) := {
  cmp_read_only : item -> row -> Z;
  test_if_group_changed : list item -> row -> Z * list item;
}.

Module Tracker.
Section tracker.
Context {item row : Type} `{CachedItems item row}.

Record state := MkTracker { group_fields : list item; first_check : bool }.
Definition init (s : state) : state := MkTracker (group_fields s) true.
Definition check_if_next_group (r : row) (s : state) : bool * state :=
  let '(k, l) := test_if_group_changed (group_fields s) r in
  if (k >? -1) || first_check s then (true, MkTracker l false)
  else (false, MkTracker l (first_check s)).
Fixpoint compare_items (l : list item) (r : row) : Z :=
  match l with
  | [] => 0
  | ptr :: l' => let res := cmp_read_only ptr r in if nz res then res else compare_items l' r
  end.
Definition compare_with_cache (r : row) (s : state) : Z := compare_items (group_fields s) r.

Fixpoint checks (rs : list row) (s : state) : list bool * state :=
  match rs with
  | [] => ([], s)
  | r :: rs' =>
      let '(b, s1) := check_if_next_group r s in
      let '(bs, s2) := checks rs' s1 in (b :: bs, s2)
  end.
End tracker.
Arguments state : clear implicits.
End Tracker.

(** ** NTILE deals the rows out evenly *)

Module NtileProps.
Import Ntile.

(** The bucket of row [i] (from 1) of [n] rows in [k] buckets. *)
Definition bucket (n k i : Z) : Z :=
  let q := n / k in let e := n mod k in
  if i <=? e * (q + 1) then (i - 1) / (q + 1) + 1 else (i - 1 - e) / q + 1.

(** Bucket [j] holds the rows from [start j] (excluded) to [start (j+1)]. *)
Definition start (n k j : Z) : Z := (j - 1) * (n / k) + Z.min (j - 1) (n mod k).

Lemma val_int_bucket n k i old null errs :
  0 < n < 2 ^ 63 -> 0 < k < 2 ^ 63 -> 1 <= i <= n -> old = 0 \/ old = k ->
  val_int k (MkNtile n i old null errs) = Some (bucket n k i, MkNtile n i k false errs).
Proof.
  intros Hn Hk Hi Hold. unfold val_int. cbn [partition_row_count_ current_row_count_ n_old_val_ errors null_value].
  unfold get_row_count. rewrite (wrapS_small 64 n) by (unfold in_s; lia).
  rewrite (wrapU_small 64 k) by (unfold in_u; lia).
  destruct (Z.eqb_spec n 0); [lia|]. destruct (Z.leb_spec k 0); [lia|]. destruct (Z.eqb_spec k 0); [lia|]. cbn [orb].
  assert (negb (k =? old) && (old >? 0) = false) as ->.
  { destruct Hold as [->| ->]; [apply andb_false_r|by rewrite Z.eqb_refl]. }
  rewrite Z.quot_div_nonneg by lia. unfold bucket.
  pose proof (Z.div_mod n k ltac:(lia)) as Hdm. pose proof (Z.mod_pos_bound n k ltac:(lia)) as Hm.
  set (q := n / k) in *. set (e := n mod k) in *.
  assert (0 <= q) by (apply Z.div_pos; lia).
  assert (q <= n) by nia. assert (q * k = n - e) as Eqk by lia.
  rewrite (wrapU_small 64 q) by (unfold in_u; lia). rewrite Eqk.
  rewrite (wrapU_small 64 (n - e)) by (unfold in_u; lia). replace (n - (n - e)) with e by lia.
  rewrite (wrapU_small 64 e), (wrapU_small 64 (q + 1)) by (unfold in_u; lia).
  assert (0 <= e * (q + 1) <= n) by nia.
  rewrite (wrapU_small 64 (e * (q + 1))), (wrapU_small 64 (i - 1)) by (unfold in_u; lia).
  destruct (Z.leb_spec i (e * (q + 1))).
  - destruct (Z.eqb_spec (q + 1) 0); [lia|].
    assert (0 <= (i - 1) / (q + 1) <= i - 1) by (split; [apply Z.div_pos|apply Z.div_le_upper_bound]; nia).
    rewrite wrapU_small by (unfold in_u; lia). rewrite wrapS_small by (unfold in_s; lia). done.
  - destruct (Z.eqb_spec q 0) as [Eq|]; [exfalso; nia|]. assert (e <= i - 1) by nia.
    rewrite (wrapU_small 64 (i - 1 - e)) by (unfold in_u; lia).
    assert (0 <= (i - 1 - e) / q <= i - 1 - e) by (split; [apply Z.div_pos|apply Z.div_le_upper_bound]; nia).
    rewrite wrapU_small by (unfold in_u; lia). rewrite wrapS_small by (unfold in_s; lia). done.
Qed.

Lemma div_unique_interval x d j : 0 < d -> (x / d = j <-> j * d <= x < (j + 1) * d).
Proof.
  intros Hd. pose proof (Z.div_mod x d ltac:(lia)). pose proof (Z.mod_pos_bound x d Hd).
  split; [intros <-; nia|]. intros. symmetry. apply Z.div_unique with (x - j * d); lia.
Qed.
Lemma bucket_interval n k i j :
  0 < n -> 0 < k -> 1 <= i <= n -> 1 <= j <= k ->
  (bucket n k i = j <-> start n k j < i <= start n k (j + 1)).
Proof.
  intros Hn Hk Hi Hj. unfold bucket, start.
  pose proof (Z.div_mod n k ltac:(lia)) as Hdm. pose proof (Z.mod_pos_bound n k ltac:(lia)) as Hm.
  set (q := n / k) in *. set (e := n mod k) in *. assert (0 <= q) by (apply Z.div_pos; lia).
  replace (j + 1 - 1) with j by lia.
  destruct (Z.leb_spec i (e * (q + 1))).
  - rewrite <- (Z.add_cancel_r _ _ (-1)). replace ((i - 1) / (q + 1) + 1 + -1) with ((i - 1) / (q + 1)) by lia.
    rewrite div_unique_interval by lia.
    destruct (Z.le_gt_cases j e); [rewrite !Z.min_l by lia; nia|]. rewrite !Z.min_r by lia. nia.
  - destruct (Z.eq_dec q 0) as [E|]; [nia|].
    rewrite <- (Z.add_cancel_r _ _ (-1)). replace ((i - 1 - e) / q + 1 + -1) with ((i - 1 - e) / q) by lia.
    rewrite div_unique_interval by lia.
    destruct (Z.le_gt_cases j e); [rewrite !Z.min_l by lia; nia|]. rewrite !Z.min_r by lia. nia.
Qed.
Lemma bucket_range n k i : 0 < n -> 0 < k -> 1 <= i <= n -> 1 <= bucket n k i <= k.
Proof.
  intros Hn Hk Hi. unfold bucket.
  pose proof (Z.div_mod n k ltac:(lia)) as Hdm. pose proof (Z.mod_pos_bound n k ltac:(lia)) as Hm.
  set (q := n / k) in *. set (e := n mod k) in *. assert (0 <= q) by (apply Z.div_pos; lia).
  destruct (Z.leb_spec i (e * (q + 1))).
  - assert (0 <= (i - 1) / (q + 1) < k); [|lia].
    split; [apply Z.div_pos; lia|apply Z.div_lt_upper_bound; nia].
  - assert (0 < q) by nia. assert (0 <= (i - 1 - e) / q < k); [|lia].
    split; [apply Z.div_pos; nia|apply Z.div_lt_upper_bound; nia].
Qed.

(** The values of the rows [i + 1 .. i + length args]. *)
Lemma rows_buckets n k m : 0 < n < 2 ^ 63 -> 0 < k < 2 ^ 63 -> forall i old null errs,
  0 <= i -> i + Z.of_nat m <= n -> old = 0 \/ old = k ->
  exists s', rows (replicate m k) (MkNtile n i old null errs) =
    Some ((fun j => bucket n k (i + 1 + Z.of_nat j)) <$> seq 0 m, s') /\ errors s' = errs.
Proof.
  intros Hn Hk. induction m as [|m IH]; intros i old null errs Hi Hm Hold; [by eexists|].
  cbn [replicate rows add snd partition_row_count_ current_row_count_ n_old_val_ null_value errors].
  rewrite (wrapU_small 64 (i + 1)) by (unfold in_u; lia). rewrite val_int_bucket by (done || lia). cbn [mbind option_bind].
  destruct (IH (i + 1) k false errs ltac:(lia) ltac:(lia) ltac:(by right)) as (s' & E & He).
  exists s'. split; [|done]. rewrite E. cbn [mbind option_bind seq]. rewrite fmap_cons. do 2 f_equal. f_equal.
  - f_equal. lia.
  - rewrite <- fmap_S_seq, <- list_fmap_compose. apply list_fmap_ext. intros j x _. cbn. f_equal. lia.
Qed.

(** The state after a refused argument. *)
Definition refused (s : state) : state :=
  MkNtile (partition_row_count_ s) (current_row_count_ s) (n_old_val_ s) (null_value s)
    (errors s ++ [ER_INVALID_NTILE_ARGUMENT]).

(** C38 : [NTILE(k)] divides a partition of [n] rows into [k] buckets as evenly as
    possible and in order: the pass of the executor over the partition (whatever
    the object computed before) never divides by zero and reports no error; every
    value is between 1 and [k]; the rows of bucket [j] are the ones after the first
    [start j] up to [start (j + 1)], which follow one another from 0 to [n] and hold
    [n / k] rows, one more for the first [n mod k] buckets.  An argument [x <= 0] is
    refused in every row, the first one of the partition included, whatever came
    before, and so is one that differs from the accepted argument of an earlier row:
    the error is reported, the value is 1, nothing else changes and nothing is
    divided.  In an empty partition the value is NULL for every argument. *)
Theorem ntile_even_buckets n k s :
  0 < n < 2 ^ 63 -> 0 < k < 2 ^ 63 ->
  (exists vs s', partition n (replicate (Z.to_nat n) k) s = Some (vs, s') /\ errors s' = errors s /\
    Z.of_nat (length vs) = n /\
    (forall (i : nat) v, vs !! i = Some v -> 1 <= v <= k) /\
    (forall (i : nat) j, Z.of_nat i < n -> 1 <= j <= k ->
       (vs !! i = Some j <-> start n k j <= Z.of_nat i < start n k (j + 1)))) /\
  start n k 1 = 0 /\ start n k (k + 1) = n /\
  (forall j, 1 <= j <= k -> start n k (j + 1) - start n k j = n / k + (if j <=? n mod k then 1 else 0)) /\
  (forall x t, partition_row_count_ t = n -> x <= 0 -> val_int x t = Some (1, refused t)) /\
  (forall x t, partition_row_count_ t = n -> n_old_val_ t = k -> in_s 64 x -> x <> k ->
     val_int x t = Some (1, refused t)) /\
  (forall x t, partition_row_count_ t = 0 -> exists t', val_int x t = Some (0, t') /\ null_value t' = true).
Proof.
  intros Hn Hk. pose proof (Z.div_mod n k ltac:(lia)) as Hdm. pose proof (Z.mod_pos_bound n k ltac:(lia)) as Hm.
  split_and!.
  - destruct (rows_buckets n k (Z.to_nat n) Hn Hk 0 0 (null_value s) (errors s)) as (s' & E & He);
      [lia..|by left|].
    eexists _, s'. split; [exact E|]. split; [exact He|]. rewrite length_fmap, length_seq.
    assert (Hl : forall (i : nat) v, ((fun j => bucket n k (0 + 1 + Z.of_nat j)) <$> seq 0 (Z.to_nat n)) !! i = Some v <->
              Z.of_nat i < n /\ v = bucket n k (Z.of_nat i + 1)).
    { intros i v. rewrite list_lookup_fmap_Some. split.
      - intros (x & -> & [-> Hx]%lookup_seq). split; [lia|]. f_equal. lia.
      - intros [Hi ->]. exists i. rewrite lookup_seq. split; [f_equal|]; lia. }
    split_and!; [lia|intros i v [Hi ->]%Hl; apply bucket_range; lia|].
    intros i j Hi Hj. rewrite Hl. pose proof (bucket_interval n k (Z.of_nat i + 1) j). intuition lia.
  - unfold start. rewrite Z.min_l by lia. lia.
  - unfold start. rewrite Z.min_r by lia. lia.
  - intros j Hj. unfold start. destruct (Z.leb_spec j (n mod k)); [rewrite !Z.min_l by lia|rewrite !Z.min_r by lia]; lia.
  - intros x [tn ti told tnull terr] ? Hx; cbn in *. subst. unfold val_int; cbn. unfold get_row_count.
    rewrite (wrapS_small 64 n) by (unfold in_s; lia). destruct (Z.eqb_spec n 0); [lia|].
    by destruct (Z.leb_spec x 0); [|lia].
  - intros x [tn ti told tnull terr] ? ? Hx Hne; cbn in *. subst. unfold val_int; cbn. unfold get_row_count.
    rewrite (wrapS_small 64 n) by (unfold in_s; lia). destruct (Z.eqb_spec n 0); [lia|].
    replace ((x <=? 0) || _) with true; [done|]. symmetry. destruct (Z.leb_spec x 0); [done|]. cbn [orb].
    rewrite wrapU_small by (unfold in_u, in_s in *; lia). destruct (Z.eqb_spec x k); [done|]. cbn. lia.
  - intros x [tn ti told tnull terr] ?; cbn in *. subst. by eexists.
Qed.
Lemma ntile_even_buckets_witness :
  (exists vs s', partition 7 (replicate 7 3) initial = Some (vs, s') /\ vs = [1; 1; 1; 2; 2; 3; 3]) /\
  val_int 0 (add (set_partition_row_count 7 initial)).2 =
    Some (1, MkNtile 7 1 0 false [ER_INVALID_NTILE_ARGUMENT]).
Proof.
  pose proof (ntile_even_buckets 7 3 initial ltac:(lia) ltac:(lia)) as [(vs & s' & E & _) (_ & _ & _ & H0 & _)].
  split.
  - exists vs, s'. split; [exact E|]. vm_compute in E. injection E as <- _. reflexivity.
  - apply (H0 0); [reflexivity|lia].
Defined.

End NtileProps.

(** ** The percentiles *)

(** The rows of a partition whose fraction is the constant [p]. *)
Definition constant_rows {V} (p : double) (os : list (option V)) : list (option double * option V) :=
  (fun o => (Some p, o)) <$> os.
(** The values that are not NULL. *)
Definition non_null {V} (os : list (option V)) : list V := omap id os.
Lemma non_null_Some {V} (v : V) os : non_null (Some v :: os) = v :: non_null os.
Proof. done. Qed.
Lemma non_null_None {V} (os : list (option V)) : non_null (None :: os) = non_null os.
Proof. done. Qed.

Lemma in_range_not_rejected p :
  number p -> dle (of_Z 0) p = true -> dle p (of_Z 1) = true -> dlt (of_Z 1) p || dlt p (of_Z 0) = false.
Proof.
  intros Hp. pose proof (of_Z_number 0 ltac:(lia)). pose proof (of_Z_number 1 ltac:(lia)).
  rewrite !dle_rank, !dlt_rank by done. lia.
Qed.
Lemma deq_refl p : number p -> deq p p = true.
Proof. intros. rewrite deq_rank by done. apply Z.eqb_refl. Qed.

Module DiscProps.
Import Disc.
Section props.
Context {V : Type}.
Implicit Types (s : state V) (o : option V) (os : list (option V)).

Lemma add_first p o s :
  first_call s = true -> dlt (of_Z 1) p || dlt p (of_Z 0) = false ->
  add (Some p) o s = add (Some p) o (set_first_call false (set_prev_value p s)).
Proof. intros Hf Hr. unfold add. rewrite Hf, Hr. done. Qed.

(** Once the value is found the remaining rows change nothing. *)
Lemma rows_found p os s :
  number p -> first_call s = false -> prev_value s = p -> val_calculated s = true ->
  rows (constant_rows p os) s = (false, s).
Proof.
  intros Hp Hf Hv Hc. induction os as [|o os IH]; [done|]. cbn.
  rewrite Hf, Hv, deq_refl, Hc by done. exact IH.
Qed.
Lemma rows_search p n os : number p -> 0 < n < 2 ^ 53 -> forall s j,
  first_call s = false -> prev_value s = p -> val_calculated s = false ->
  partition_row_count_ s = n -> current_row_count_ s = j -> 0 <= j -> j + Z.of_nat (length (non_null os)) = n ->
  dle p (of_Z 1) = true -> 0 < Z.of_nat (length (non_null os)) ->
  exists (k : nat) v s', rows (constant_rows p os) s = (false, s') /\
    non_null os !! k = Some v /\ value s' = Some (Some v) /\
    dle p (ddiv (of_Z (j + Z.of_nat k + 1)) (of_Z n)) = true /\
    (forall i : nat, (i < k)%nat -> dle p (ddiv (of_Z (j + Z.of_nat i + 1)) (of_Z n)) = false) /\
    partition_row_count_ s' = n /\ errors s' = errors s.
Proof.
  intros Hp Hn. induction os as [|o os IH]; intros s j Hf Hv Hc Hpn Hj H0 Hlen H1 Hpos; [cbn in *; lia|].
  destruct s as [pn cn val calc first prev null errs]; cbn in Hf, Hv, Hc, Hpn, Hj; subst first prev calc pn cn.
  cbn [constant_rows fmap list_fmap rows add first_call prev_value val_calculated andb].
  cbn. rewrite deq_refl by done. cbn.
  destruct o as [v|]; rewrite ?non_null_Some, ?non_null_None in *; cbn [length] in Hlen, Hpos; cbn.
  2: { destruct (IH (MkDisc n j (Some None) false false p null errs) j) as (k & w & s' & E & ? & ? & ? & ? & ? & ?); try done.
       exists k, w, s'. split_and!; try done. }
  rewrite (wrapU_small 64 (j + 1)) by (unfold in_u; lia). unfold calc_val_real.
  destruct (Z.eqb_spec n 0); [lia|].
  destruct (dle p (ddiv (of_Z (j + 1)) (of_Z n))) eqn:E1.
  - exists 0%nat, v. eexists. split; [by apply rows_found|].
    split_and!; try done; [|intros; lia]. rewrite Z.add_0_r. done.
  - destruct (Z.eq_dec (j + 1) n) as [Ejn|]; [rewrite Ejn, ddiv_self in E1 by lia; congruence|].
    destruct (IH (MkDisc n (j + 1) (Some (Some v)) false false p false errs) (j + 1))
      as (k & w & s' & E & Hk & ? & Hd & Hlow & ? & ?); try done; [lia..|].
    exists (S k), w, s'. split_and!; try done.
    + replace (j + Z.of_nat (S k) + 1) with (j + 1 + Z.of_nat k + 1) by lia. done.
    + intros [|i] Hi; [by rewrite Z.add_0_r|].
      replace (j + Z.of_nat (S i) + 1) with (j + 1 + Z.of_nat i + 1) by lia. apply Hlow. lia.
Qed.

(** [PERCENTILE_DISC(p)] over a partition with [n] values that are not NULL and a
    constant fraction [p] in [0, 1], whatever the object computed before: no error,
    and the getters return the value of the first row in the window order, NULLs not
    counted, whose cumulative fraction [k / n] (computed in doubles) is at least
    [p]; such a row exists.  A fraction outside [0, 1], and a fraction that differs
    from the first one (a NaN does), are the errors the manual names. *)
Lemma percentile_disc_value p os s n :
  number p -> dle (of_Z 0) p = true -> dle p (of_Z 1) = true ->
  n = Z.of_nat (length (non_null os)) -> 0 < n < 2 ^ 53 ->
  (exists (k : nat) v s', partition n (constant_rows p os) s = (false, s') /\ errors s' = errors s /\
     non_null os !! k = Some v /\
     dle p (ddiv (of_Z (Z.of_nat k + 1)) (of_Z n)) = true /\
     (forall i : nat, (i < k)%nat -> dle p (ddiv (of_Z (Z.of_nat i + 1)) (of_Z n)) = false) /\
     (forall R (none : R) get, get_value none get (Some p) s' = (get (Some (Some v)), set_null_value false s'))) /\
  (forall a o t, first_call t = true -> dlt (of_Z 1) a || dlt a (of_Z 0) = true ->
     add (Some a) o t = (true, my_error ER_ARGUMENT_OUT_OF_RANGE (set_prev_value a t))) /\
  (forall a o t, first_call t = false -> deq (prev_value t) a = false ->
     add (Some a) o t = (true, my_error ER_ARGUMENT_NOT_CONSTANT t)) /\
  (forall o t, first_call t = true ->
     (add (Some S754_nan) o t).1 = true /\
     errors (add (Some S754_nan) o t).2 = errors t ++ [ER_ARGUMENT_NOT_CONSTANT]).
Proof.
  intros Hp Hp0 Hp1 Hlen Hn. split_and!.
  - pose proof (rows_search p n os Hp Hn
      (MkDisc n 0 None false false p (null_value s) (errors s)) 0) as H.
    destruct H as (k & v & s' & E & Hk & Hval & Hd & Hlow & Hpn & He); try done; [lia..|].
    assert (Hne : os <> []) by (intros ->; cbn in *; lia). destruct os as [|o os]; [done|].
    exists k, v, s'. split_and!; try done.
    + unfold partition. rewrite <- E. cbn [constant_rows fmap list_fmap rows].
      rewrite add_first by (done || by apply in_range_not_rejected). done.
    + intros R none get. unfold get_value. rewrite Hpn, Hval. unfold get_row_count.
      rewrite wrapS_small by (unfold in_s; lia). destruct (Z.eqb_spec n 0); [lia|]. done.
  - intros a o t Hf Hr. unfold add. rewrite Hf, Hr. done.
  - intros a o t Hf Hd. unfold add. rewrite Hf. cbn [andb]. rewrite Hd. done.
  - intros o t Hf. unfold add. rewrite Hf. done.
Qed.
End props.
End DiscProps.

(** The two rounded positions of a number. *)
Lemma floor_ceil_Z x : floor_Z x <= ceil_Z x <= floor_Z x + 1.
Proof.
  destruct x as [s|s| |s m e]; try (cbn; lia).
  cbn [floor_Z ceil_Z]. set (z := if s then Z.neg m else Z.pos m).
  replace (if s then Z.pos m else Z.neg m) with (- z) by (by destruct s).
  destruct (Z.le_gt_cases 0 e) as [He|He].
  - rewrite !Z.shiftl_mul_pow2 by lia. lia.
  - replace e with (- - e) by lia. rewrite !Z.shiftl_opp_r, !Z.shiftr_div_pow2 by lia.
    assert (0 < 2 ^ (- e)) by (apply Z.pow_pos_nonneg; lia).
    pose proof (Z.div_mod z (2 ^ - e) ltac:(lia)). pose proof (Z.mod_pos_bound z (2 ^ - e) ltac:(lia)).
    pose proof (Z.div_mod (- z) (2 ^ - e) ltac:(lia)). pose proof (Z.mod_pos_bound (- z) (2 ^ - e) ltac:(lia)). nia.
Qed.
Lemma deq_floor x j : 0 <= j < 2 ^ 53 -> 1 <= floor_Z x < 2 ^ 53 -> deq (of_Z j) (dfloor x) = (j =? floor_Z x).
Proof. intros Hj Hx. destruct x as [s|s| |s m e]; try (cbn in Hx; lia). apply of_Z_eq; lia. Qed.
Lemma deq_ceil x j : 0 <= j < 2 ^ 53 -> 1 <= floor_Z x -> ceil_Z x < 2 ^ 53 -> deq (of_Z j) (dceil x) = (j =? ceil_Z x).
Proof.
  intros Hj Hx Hc. pose proof (floor_ceil_Z x).
  destruct x as [s|s| |s m e]; try (cbn in Hx; lia). apply of_Z_eq; lia.
Qed.
Lemma deq_ceil_floor x : 1 <= floor_Z x -> ceil_Z x < 2 ^ 53 -> deq (dceil x) (dfloor x) = (ceil_Z x =? floor_Z x).
Proof.
  intros Hx Hc. pose proof (floor_ceil_Z x).
  destruct x as [s|s| |s m e]; try (cbn in Hx; lia). apply of_Z_eq; lia.
Qed.

Module ContProps.
Import Cont.
Section props.
Context {V : Type}.
Implicit Types (s : state V) (o : option V) (os : list (option V)).

Lemma cont_add_first p o s :
  first_call s = true -> dlt (of_Z 1) p || dlt p (of_Z 0) = false ->
  add (Some p) o s = add (Some p) o (begin_call p s).
Proof. intros Hf Hr. unfold add. rewrite Hf, Hr. done. Qed.

(** The pass below runs with a constant fraction and a fixed row count. *)
Definition at_row (p : double) (n j : Z) (s : state V) : Prop :=
  first_call s = false /\ prev_value s = p /\ partition_row_count_ s = n /\ current_row_count_ s = j.

Lemma cont_rows_done p n os : number p -> forall s j, at_row p n j s ->
  floor_val_calculated s = true -> ceil_val_calculated s = true ->
  exists s', rows (constant_rows p os) s = (false, s') /\ floor_value s' = floor_value s /\
    ceil_value s' = ceil_value s /\ prev_value s' = p /\ partition_row_count_ s' = n /\ errors s' = errors s.
Proof.
  intros Hp. induction os as [|o os IH]; intros s j (Hf & Hv & Hpn & Hj) Hfc Hcc; [by exists s|].
  destruct s as [pn cn fv cv first prev cc fc null errs]; cbn in Hf, Hv, Hpn, Hj, Hfc, Hcc; subst first prev pn cn fc cc. cbn. rewrite deq_refl by done. cbn.
  edestruct (IH (MkCont n (u64 (j + 1)) fv cv false p true true null errs)) as (s' & E & H); [by split_and!|done..|].
  exists s'. split; [exact E|exact H].
Qed.
Section position.
Variables (p : double) (n : Z).
Hypothesis Hp : number p.
Hypothesis Hn : 0 < n < 2 ^ 53.
Let pos := row_position p n.
Hypothesis HF : 1 <= floor_Z pos.
Hypothesis HC : ceil_Z pos <= n.

Lemma cont_rows_ceil os : forall s j, at_row p n j s ->
  floor_val_calculated s = true -> ceil_val_calculated s = false ->
  floor_Z pos <= j < ceil_Z pos -> j + Z.of_nat (length (non_null os)) = n ->
  exists s' (v : V), rows (constant_rows p os) s = (false, s') /\ floor_value s' = floor_value s /\
    non_null os !! Z.to_nat (ceil_Z pos - j - 1) = Some v /\ ceil_value s' = Some (Some v) /\
    prev_value s' = p /\ partition_row_count_ s' = n /\ errors s' = errors s.
Proof using Hp Hn HF HC.
  pose proof (floor_ceil_Z pos) as Hfl.
  induction os as [|o os IH]; intros s j (Hf & Hv & Hpn & Hj) Hfc Hcc Hb Hlen; [cbn in *; lia|].
  destruct s as [pn cn fv cv first prev cc fc null errs]; cbn in Hf, Hv, Hpn, Hj, Hfc, Hcc; subst first prev pn cn fc cc. cbn. rewrite deq_refl by done. cbn.
  destruct o as [v|]; rewrite ?non_null_Some, ?non_null_None in *; cbn [length] in Hlen; cbn.
  2: { edestruct (IH (MkCont n j fv (Some None) false p false true null errs)) as (s' & w & E & H);
         [by split_and!|done..|]. exists s', w. split; [exact E|exact H]. }
  rewrite (wrapU_small 64 (j + 1)) by (unfold in_u; lia). unfold get_row_number. fold pos.
  rewrite deq_ceil by lia. replace (j + 1 =? ceil_Z pos) with true by lia.
  destruct (cont_rows_done p n os Hp (MkCont n (j + 1) fv (Some (Some v)) false p true true null errs) (j + 1))
    as (s' & E & ? & ? & ? & ? & ?); [by split_and!|done..|].
  exists s', v. split_and!; try done. replace (Z.to_nat (ceil_Z pos - j - 1)) with 0%nat by lia. done.
Qed.
Lemma cont_rows_floor os : forall s j, at_row p n j s ->
  floor_val_calculated s = false -> ceil_val_calculated s = false ->
  0 <= j < floor_Z pos -> j + Z.of_nat (length (non_null os)) = n ->
  exists s' (v : V), rows (constant_rows p os) s = (false, s') /\
    non_null os !! Z.to_nat (floor_Z pos - j - 1) = Some v /\ floor_value s' = Some (Some v) /\
    (floor_Z pos < ceil_Z pos -> exists w,
       non_null os !! Z.to_nat (ceil_Z pos - j - 1) = Some w /\ ceil_value s' = Some (Some w)) /\
    prev_value s' = p /\ partition_row_count_ s' = n /\ errors s' = errors s.
Proof using Hp Hn HF HC.
  pose proof (floor_ceil_Z pos) as Hfl.
  induction os as [|o os IH]; intros s j (Hf & Hv & Hpn & Hj) Hfc Hcc Hb Hlen; [cbn in *; lia|].
  destruct s as [pn cn fv cv first prev cc fc null errs]; cbn in Hf, Hv, Hpn, Hj, Hfc, Hcc; subst first prev pn cn fc cc. cbn. rewrite deq_refl by done. cbn.
  destruct o as [v|]; rewrite ?non_null_Some, ?non_null_None in *; cbn [length] in Hlen; cbn.
  2: { edestruct (IH (MkCont n j (Some None) cv false p false false null errs)) as (s' & w & E & H);
         [by split_and!|done..|]. exists s', w. split; [exact E|exact H]. }
  rewrite (wrapU_small 64 (j + 1)) by (unfold in_u; lia). unfold get_row_number. fold pos.
  rewrite deq_floor, deq_ceil by lia.
  destruct (Z.eqb_spec (j + 1) (floor_Z pos)) as [Ef|Ef].
  - replace (Z.to_nat (floor_Z pos - j - 1)) with 0%nat by lia.
    destruct (Z.eqb_spec (j + 1) (ceil_Z pos)) as [Ec|Ec].
    + destruct (cont_rows_done p n os Hp (MkCont n (j + 1) (Some (Some v)) cv false p true true null errs) (j + 1))
        as (s' & E & ? & ? & ? & ? & ?); [by split_and!|done..|].
      exists s', v. split_and!; try done. lia.
    + destruct (cont_rows_ceil os (MkCont n (j + 1) (Some (Some v)) cv false p false true null errs) (j + 1))
        as (s' & w & E & ? & Hw & ? & ? & ? & ?); [by split_and!|done..|lia|lia|].
      exists s', v. split_and!; try done. intros _. exists w. split; [|done].
      replace (Z.to_nat (ceil_Z pos - j - 1)) with (S (Z.to_nat (ceil_Z pos - (j + 1) - 1))) by lia. exact Hw.
  - replace (j + 1 =? ceil_Z pos) with false by lia.
    destruct (IH (MkCont n (j + 1) (Some (Some v)) cv false p false false null errs) (j + 1))
      as (s' & w & E & Hw & ? & Hc & ? & ? & ?); [by split_and!|done..|lia|lia|].
    exists s', w. split_and!; try done.
    + replace (Z.to_nat (floor_Z pos - j - 1)) with (S (Z.to_nat (floor_Z pos - (j + 1) - 1))) by lia. exact Hw.
    + intros Hlt. destruct (Hc Hlt) as (x & Hx & ?). exists x. split; [|done].
      replace (Z.to_nat (ceil_Z pos - j - 1)) with (S (Z.to_nat (ceil_Z pos - (j + 1) - 1))) by lia. exact Hx.
Qed.
End position.

(** [PERCENTILE_CONT(p)] over a partition with [n] values that are not NULL and a
    constant fraction [p] in [0, 1], whatever the object computed before.  When the
    row position [1 + p * (n - 1)], computed in doubles, lies between 1 and [n], there
    is no error, and [val_real] is the value of the row at the position, when that
    is an integer, and otherwise the linear interpolation of the values of the rows
    at the two integers around it; NULLs are not counted as rows.  A fraction
    outside [0, 1] and one that differs from the first are errors. *)
Lemma percentile_cont_value p os s n :
  number p -> dle (of_Z 0) p = true -> dle p (of_Z 1) = true ->
  n = Z.of_nat (length (non_null os)) -> 0 < n < 2 ^ 53 ->
  1 <= floor_Z (row_position p n) -> ceil_Z (row_position p n) <= n ->
  (exists s' (x y : V), partition n (constant_rows p os) s = (false, s') /\ errors s' = errors s /\
     non_null os !! Z.to_nat (floor_Z (row_position p n) - 1) = Some x /\
     non_null os !! Z.to_nat (ceil_Z (row_position p n) - 1) = Some y /\
     forall value_real : option (option V) -> double,
       val_real value_real (Some p) s' =
         (if ceil_Z (row_position p n) =? floor_Z (row_position p n) then value_real (Some (Some x))
          else dadd (dmul (dsub (row_position p n) (dfloor (row_position p n))) (value_real (Some (Some y))))
                    (dmul (dsub (dceil (row_position p n)) (row_position p n)) (value_real (Some (Some x)))),
          set_null_value false s')) /\
  (forall a o t, first_call t = true -> dlt (of_Z 1) a || dlt a (of_Z 0) = true ->
     add (Some a) o t = (true, my_error ER_ARGUMENT_OUT_OF_RANGE (begin_call a t))) /\
  (forall a o t, first_call t = false -> deq (prev_value t) a = false ->
     add (Some a) o t = (true, my_error ER_ARGUMENT_NOT_CONSTANT t)).
Proof.
  intros Hp Hp0 Hp1 Hlen Hn HF HC. pose proof (floor_ceil_Z (row_position p n)) as Hfl. split_and!.
  - destruct (cont_rows_floor p n Hp Hn HF HC os
      (MkCont n 0 None None false p false false (null_value s) (errors s)) 0)
      as (s' & x & E & Hx & Hfv & Hc & Hpv & Hpn & He); [by split_and!|done..|lia|lia|].
    assert (Hne : os <> []) by (intros ->; cbn in *; lia). destruct os as [|o os]; [done|].
    rewrite !Z.sub_0_r in Hx, Hc.
    assert (exists y, non_null (o :: os) !! Z.to_nat (ceil_Z (row_position p n) - 1) = Some y /\
              (floor_Z (row_position p n) < ceil_Z (row_position p n) -> ceil_value s' = Some (Some y))) as (y & Hy & Hcv).
    { destruct (Z.eq_dec (ceil_Z (row_position p n)) (floor_Z (row_position p n))) as [Ec|].
      - exists x. rewrite Ec. split; [done|lia].
      - destruct Hc as (y & ? & ?); [lia|]. by exists y. }
    exists s', x, y. split_and!; try done.
    + unfold partition. rewrite <- E. cbn [constant_rows fmap list_fmap rows].
      rewrite cont_add_first by (done || by apply in_range_not_rejected). done.
    + intros value_real. unfold val_real, get_row_count. rewrite Hpn, Hpv, Hfv, wrapS_small by (unfold in_s; lia).
      destruct (Z.eqb_spec n 0); [lia|]. cbn [orb bool_decide]. rewrite bool_decide_false by done.
      rewrite deq_ceil_floor by lia.
      destruct (Z.eqb_spec (ceil_Z (row_position p n)) (floor_Z (row_position p n))); [done|].
      rewrite Hcv by lia. done.
  - intros a o t Hf Hr. unfold add. rewrite Hf, Hr. done.
  - intros a o t Hf Hd. unfold add. rewrite Hf. cbn [andb]. rewrite Hd. done.
Qed.

Lemma cont_add_same a o s :
  first_call s = false -> deq (prev_value s) a = true -> (add (Some a) o s).1 = false.
Proof.
  intros Hf Hd. unfold add. rewrite Hf. cbn [andb]. rewrite Hd. cbn [negb].
  destruct (_ && bool_decide _); [done|]. by destruct (_ && bool_decide _).
Qed.

(** The range is checked once: after the error for a fraction above 1 a second call
    with the same fraction is accepted, where [PERCENTILE_DISC] reports the error
    again. *)
Lemma percentile_range_checked_once o s (t : Disc.state V) (a := of_Z 2) :
  first_call s = true -> Disc.first_call t = true ->
  (add (Some a) o s).1 = true /\ (add (Some a) o (add (Some a) o s).2).1 = false /\
  (Disc.add (Some a) o t).1 = true /\ (Disc.add (Some a) o (Disc.add (Some a) o t).2).1 = true.
Proof.
  intros Hs Ht. split_and!.
  - unfold add. by rewrite Hs.
  - apply cont_add_same; unfold add; by rewrite Hs.
  - unfold Disc.add. by rewrite Ht.
  - destruct t; cbn in Ht; subst. reflexivity.
Qed.
End props.
End ContProps.

(** ** The phases of a window function in a select list *)

Module PhaseProps.
Import Phases.

(** Before the computation the value is NULL, in the computation it is the window
    function's, and afterwards it is the stored one; numbers are read from a NULL
    field too, objects are not. *)
Lemma phases_values {R} `{Src : Sources R} b (none : R) s :
  val_number b none (set_phase_to_initial s) = (none, set_phase_to_initial (set_null s true)) /\
  val_object b none (set_phase_to_initial s) = (none, set_phase_to_initial (set_null s true)) /\
  val_number b none (set_phase_to_computation s) = (window_func.1, set_phase_to_computation (set_null s window_func.2)) /\
  val_object b none (set_phase_to_computation s) = (window_func.1, set_phase_to_computation (set_null s window_func.2)) /\
  val_number b none (set_phase_to_retrieval s) = (result_field, set_phase_to_retrieval (set_null s b)) /\
  val_object b none (set_phase_to_retrieval s) = (if b then none else result_field, set_phase_to_retrieval (set_null s b)) /\
  (forall f, is_null b f (set_phase_to_initial s) = true /\ is_null b f (set_phase_to_computation s) = f /\
     is_null b f (set_phase_to_retrieval s) = b).
Proof. by split_and!. Qed.

(** A function that needs the partition's size admits no frame of its own, one that
    reads other rows does, and the percentiles are among the functions with a
    mandatory order. *)
Lemma window_function_classes f :
  (requires_partition_size f = true -> is_frame_prohibited f = true) /\
  (requires_peer_size f = true -> requires_partition_size f = true) /\
  (requires_special_cursors f = true -> is_frame_prohibited f = false /\ requires_partition_size f = false) /\
  (only_single_element_order_list f = true -> is_order_list_mandatory f = true /\ requires_partition_size f = true) /\
  (is_aggr_sum_func f = true -> is_frame_prohibited f = false /\ requires_special_cursors f = false).
Proof. by destruct f; split_and!. Qed.
End PhaseProps.

(** ** Group boundaries *)

(** What the cached items rely on: an item has a value in each row, compares its
    cached value with it, and [test_if_group_changed] compares and caches all. *)
Class CachedItemsLaws (item row val : Type) `{CachedItems item row} := {
  value_in : item -> row -> val;
  cached : item -> val;
  refresh : item -> row -> item;
  cmp_read_only_zero i r : cmp_read_only i r = 0 <-> cached i = value_in i r;
  cached_refresh i r : cached (refresh i r) = value_in i r;
  value_in_refresh i r r' : value_in (refresh i r) r' = value_in i r';
  test_caches l r : (test_if_group_changed l r).2 = (fun i => refresh i r) <$> l;
  test_result l r : (test_if_group_changed l r).1 > -1 <-> Exists (fun i => cached i <> value_in i r) l;
}.

Module TrackerProps.
Import Tracker.
Section props.
Context {item row val : Type} `{L : CachedItemsLaws item row val}.
Implicit Types (l : list item) (r : row) (s : state item).

(** Two rows are in one group when every field has the same value in both. *)
Definition same_group l r r' : Prop := Forall (fun i => value_in i r = value_in i r') l.

Lemma compare_items_zero l r : compare_items l r = 0 <-> Forall (fun i => cached i = value_in i r) l.
Proof.
  induction l as [|i l IH]; cbn; [by rewrite Forall_nil|]. rewrite Forall_cons, <- IH, <- cmp_read_only_zero.
  destruct (nz (cmp_read_only i r)) eqn:E; [apply nz_true in E|apply nz_false in E]; tauto.
Qed.
Lemma refreshed l r r' :
  Forall (fun i => cached i = value_in i r') ((fun i => refresh i r) <$> l) <-> same_group l r r'.
Proof.
  unfold same_group. rewrite Forall_fmap. apply Forall_iff. intros i. cbn.
  by rewrite cached_refresh, value_in_refresh.
Qed.
Lemma same_group_refresh l q r r' : same_group ((fun i => refresh i q) <$> l) r r' <-> same_group l r r'.
Proof.
  unfold same_group. rewrite Forall_fmap. apply Forall_iff. intros i. cbn. by rewrite !value_in_refresh.
Qed.

#[local] Instance cached_dec i r : Decision (cached i = value_in i r).
Proof. destruct (Z.eq_dec (cmp_read_only i r) 0) as [E|E]; rewrite cmp_read_only_zero in E; [by left|by right]. Qed.
Lemma forall_not_exists l r :
  Forall (fun i => cached i = value_in i r) l <-> ~ Exists (fun i => cached i <> value_in i r) l.
Proof.
  split.
  - intros Hf (i & Hi & Hne)%Exists_exists. rewrite Forall_forall in Hf. by apply Hne, Hf.
  - intros He. destruct (decide (Forall (fun i => cached i = value_in i r) l)) as [|Hn]; [done|].
    exfalso. by apply He, (not_Forall_Exists _ _).
Qed.

(** After a check with [r], the next check and a comparison with [r']. *)
Lemma check_next l r r' :
  let s := MkTracker ((fun i => refresh i r) <$> l) false in
  ((check_if_next_group r' s).1 = false <-> same_group l r r') /\
  (check_if_next_group r' s).2 = MkTracker ((fun i => refresh i r') <$> ((fun i => refresh i r) <$> l)) false /\
  (compare_with_cache r' s = 0 <-> same_group l r r').
Proof.
  unfold check_if_next_group, compare_with_cache; cbn [group_fields first_check].
  pose proof (test_caches ((fun i => refresh i r) <$> l) r') as Hc.
  pose proof (test_result ((fun i => refresh i r) <$> l) r') as Hr.
  destruct (test_if_group_changed _ r') as [k l']. cbn in Hc, Hr. subst l'.
  rewrite compare_items_zero, refreshed, orb_false_r.
  split_and!; [|by destruct (k >? -1)|done].
  rewrite <- refreshed, (forall_not_exists _ r'), <- Hr.
  destruct (Z.gtb_spec k (-1)); cbn; split; done || lia.
Qed.
Lemma checks_last (rs : list row) : forall l r,
  let '(bs, s') := checks rs (MkTracker ((fun i => refresh i r) <$> l) false) in
  length bs = length rs /\
  forall q q', last (r :: rs) = Some q -> compare_with_cache q' s' = 0 <-> same_group ((fun i => refresh i r) <$> l) q q'.
Proof.
  induction rs as [|r' rs IH]; intros l r.
  - split; [done|]. intros q q' [= <-]. cbn. unfold compare_with_cache. cbn [group_fields].
    by rewrite compare_items_zero, refreshed, same_group_refresh.
  - cbn [checks]. pose proof (check_next l r r') as (_ & Hs & _).
    destruct (check_if_next_group r' _) as [b1 s1]. cbn in Hs. subst s1.
    specialize (IH ((fun i => refresh i r) <$> l) r'). destruct (checks rs _) as [bs s'].
    destruct IH as [Hlen IH]. split; [cbn; by rewrite Hlen|].
    intros q q' Hq. rewrite <- (same_group_refresh _ r'). by apply IH.
Qed.
Lemma checks_from (rs : list row) : forall l r,
  let s := MkTracker ((fun i => refresh i r) <$> l) false in
  forall i r1 r2 (b : bool), (r :: rs) !! i = Some r1 -> rs !! i = Some r2 -> (checks rs s).1 !! i = Some b ->
  b = false <-> same_group l r1 r2.
Proof.
  induction rs as [|r' rs IH]; intros l r s i r1 r2 b H1 H2 Hb; [done|].
  cbn [checks] in Hb. pose proof (check_next l r r') as (Hc & Hs & _). fold s in Hc, Hs.
  destruct (check_if_next_group r' s) as [b1 s1]. cbn in Hc, Hs. subst s1.
  destruct (checks rs _) as [bs s2] eqn:E. destruct i as [|i]; cbn in H1, H2, Hb.
  - by simplify_eq.
  - rewrite <- (same_group_refresh l r). eapply (IH _ r'); [exact H1|exact H2|]. by rewrite E.
Qed.

(** The group tracker.  After [init], over any sequence of rows the answer of
    [check_if_next_group] is true in the first row and, in each later one, exactly
    when some grouping field has another value than in the row before; and
    [compare_with_cache] then gives 0 exactly for rows of the group of the last row
    checked, without changing the cache. *)
Lemma group_tracker_boundaries s (rs : list row) :
  let '(bs, s') := checks rs (init s) in
  length bs = length rs /\
  (forall b, bs !! 0%nat = Some b -> b = true) /\
  (forall i r1 r2 b, rs !! i = Some r1 -> rs !! S i = Some r2 -> bs !! S i = Some b ->
     b = false <-> same_group (group_fields s) r1 r2) /\
  (forall r r', last rs = Some r -> compare_with_cache r' s' = 0 <-> same_group (group_fields s) r r').
Proof.
  destruct rs as [|r rs]; [by split_and!|]. unfold init. cbn [checks].
  unfold check_if_next_group at 1. cbn [group_fields first_check].
  pose proof (test_caches (group_fields s) r) as Hc. destruct (test_if_group_changed _ r) as [k l]. cbn in Hc. subst l.
  rewrite orb_true_r. pose proof (checks_from rs (group_fields s) r) as Hb. pose proof (checks_last rs (group_fields s) r) as Hlast.
  cbv zeta in Hb, Hlast. destruct (checks rs _) as [bs s'] eqn:E. cbn in Hb, Hlast. destruct Hlast as [Hlen Hlast].
  split_and!.
  - cbn. by rewrite Hlen.
  - intros b [= <-]. done.
  - intros i r1 r2 b H1 H2 H3. exact (Hb i r1 r2 b H1 H2 H3).
  - intros q q' Hq. rewrite <- (same_group_refresh (group_fields s) r). apply Hlast. exact Hq.
Qed.
End props.

(** Items that satisfy the laws: a column number and a cached integer. *)
Module Sample.
Definition column (i : nat * Z) (r : list Z) : Z := default 0 (r !! i.1).
Fixpoint test_if_group_changed (l : list (nat * Z)) (r : list Z) : Z * list (nat * Z) :=
  match l with
  | [] => (-1, [])
  | i :: l' =>
      let '(k, l1) := test_if_group_changed l' r in
      ((if k >? -1 then k else if i.2 =? column i r then -1 else Z.of_nat (length l')), (i.1, column i r) :: l1)
  end.
#[export] Instance items : CachedItems (nat * Z) (list Z) :=
  {| cmp_read_only i r := i.2 - column i r; WindowFunc.test_if_group_changed := test_if_group_changed |}.
#[export] Program Instance laws : CachedItemsLaws (nat * Z) (list Z) Z :=
  {| value_in := column; cached i := i.2; refresh i r := (i.1, column i r) |}.
Next Obligation. cbn. lia. Qed.
Next Obligation. done. Qed.
Next Obligation. done. Qed.
Next Obligation.
  intros l r. cbn. induction l as [|i l IH]; cbn; [done|]. destruct (test_if_group_changed l r). cbn in *. by rewrite IH.
Qed.
Next Obligation.
  intros l r. cbn. induction l as [|i l IH]; cbn; [rewrite Exists_nil; lia|].
  rewrite Exists_cons, <- IH. destruct (test_if_group_changed l r) as [k l1]. cbn.
  destruct (Z.gtb_spec k (-1)); [intuition lia|]. destruct (Z.eqb_spec i.2 (column i r)); intuition lia.
Qed.
Example group_tracker_sample :
  (checks [[1; 5]; [1; 6]; [2; 6]; [2; 6]] (init (MkTracker [(0%nat, 1)] false))).1 = [true; false; true; false].
Proof. reflexivity. Qed.
End Sample.
End TrackerProps.
