(* ===== verification/Mdl.v ===== *)
(** Metadata locks: the inline code of [mariadb/include/mysql/server/private/mdl.h].

    A key is a buffer with the namespace, the database name and the object name, each
    name with a closing zero byte; the theorem says that comparing buffers is
    comparing the three components.  [strmake] and the hash function are not in the
    header: they are the class [MdlLib], the documented effect of [strmake] is its
    law. *)

From S2P Require Import Prelude.

Definition NAME_LEN : nat := 192.
Definition MAX_MDLKEY_LENGTH : nat := 1 + NAME_LEN + 1 + NAME_LEN + 1.

Inductive enum_mdl_namespace :=
  | BACKUP | SCHEMA | TABLE | FUNCTION | PROCEDURE | PACKAGE_BODY | TRIGGER | EVENT
  | USER_LOCK | NAMESPACE_END.
Definition namespace_code (ns : enum_mdl_namespace) : Z :=
  match ns with
  | BACKUP => 0 | SCHEMA => 1 | TABLE => 2 | FUNCTION => 3 | PROCEDURE => 4
  | PACKAGE_BODY => 5 | TRIGGER => 6 | EVENT => 7 | USER_LOCK => 8 | NAMESPACE_END => 9
  end.
#[export] Instance namespace_eq_dec : EqDecision enum_mdl_namespace.
Proof. solve_decision. Defined.

(** [strmake buf off src n] copies at most [n] bytes of the string [src] to position
    [off], closes them with a zero byte and returns the position of that byte.
    [my_hash_sort] hashes an area of bytes. *)
Class MdlLib := {
  strmake : list Z -> nat -> list Z -> nat -> list Z * nat;
  my_hash_sort : list Z -> Z;
}.
Class MdlLibLaws `{MdlLib} := {
  strmake_end buf off src n : (strmake buf off src n).2 = (off + length (take n src))%nat;
  strmake_length buf off src n :
    (off + n < length buf)%nat -> length (strmake buf off src n).1 = length buf;
  strmake_bytes buf off src n :
    (off + n < length buf)%nat ->
    take (off + length (take n src) + 1) (strmake buf off src n).1 = take off buf ++ take n src ++ [0];
}.

(** ** Keys *)

Record MDL_key := MkKey {
  m_length : Z;
  m_db_name_length : Z;
  m_hash_value : Z;
  m_ptr : list Z;
}.

(** [memcmp] of the first [n] bytes of two buffers. *)
Fixpoint memcmp (n : nat) (p q : list Z) : comparison :=
  match n, p, q with
  | S n, x :: p, y :: q => match x ?= y with Eq => memcmp n p q | c => c end
  | _, _, _ => Eq
  end.

Definition bytes (k : MDL_key) : list Z := take (Z.to_nat (m_length k)) (m_ptr k).
Definition db_name_length (k : MDL_key) : Z := m_db_name_length k.
Definition name_length (k : MDL_key) : Z := u32 (m_length k - m_db_name_length k - 3).
Definition db_name (k : MDL_key) : list Z := drop 1 (m_ptr k).
Definition name (k : MDL_key) : list Z := drop (Z.to_nat (m_db_name_length k + 2)) (m_ptr k).
Definition mdl_namespace (k : MDL_key) : option Z := m_ptr k !! 0%nat.

Section keys.
Context `{MdlLib}.

(** [mdl_key_init(namespace, db, name)] on an object [k]; strings are given without
    their closing zero. *)
Definition mdl_key_init (ns : enum_mdl_namespace) (db name_arg : list Z) (k : MDL_key) : MDL_key :=
  let p0 := <[0%nat := namespace_code ns]> (m_ptr k) in
  let '(p1, e1) := strmake p0 1 db NAME_LEN in
  let dblen := u16 (Z.of_nat e1 - 1) in
  let '(p2, e2) := strmake p1 (Z.to_nat (dblen + 2)) name_arg NAME_LEN in
  let len := u16 (Z.of_nat e2 + 1) in
  MkKey len dblen (my_hash_sort (take (Z.to_nat (len - 1)) (drop 1 p2))) p2.
End keys.
Definition mdl_key_copy (rhs k : MDL_key) : MDL_key :=
  MkKey (m_length rhs) (m_db_name_length rhs) (m_hash_value rhs)
    (bytes rhs ++ drop (length (bytes rhs)) (m_ptr k)).
Definition is_equal (k rhs : MDL_key) : bool :=
  (m_length k =? m_length rhs) &&
  match memcmp (Z.to_nat (m_length k)) (m_ptr k) (m_ptr rhs) with Eq => true | _ => false end.
Definition cmp (k rhs : MDL_key) : comparison :=
  memcmp (Z.to_nat (Z.min (m_length k) (m_length rhs))) (m_ptr k) (m_ptr rhs).
Definition hash_value (k : MDL_key) : option Z := ns ← mdl_namespace k; Some (u32 (m_hash_value k + ns)).
Definition tc_hash_value (k : MDL_key) : Z := m_hash_value k.

(** ** Requests and tickets *)

Definition MDL_NOT_INITIALIZED : Z := -1.
Definition MDL_INTENTION_EXCLUSIVE : Z := 0.
Definition MDL_SHARED : Z := 1.
Definition MDL_SHARED_HIGH_PRIO : Z := 2.
Definition MDL_SHARED_READ : Z := 3.
Definition MDL_SHARED_WRITE : Z := 4.
Definition MDL_SHARED_UPGRADABLE : Z := 5.
Definition MDL_SHARED_READ_ONLY : Z := 6.
Definition MDL_SHARED_NO_WRITE : Z := 7.
Definition MDL_SHARED_NO_READ_WRITE : Z := 8.
Definition MDL_EXCLUSIVE : Z := 9.
Definition MDL_TYPE_END : Z := 10.

Inductive enum_mdl_duration := MDL_STATEMENT | MDL_TRANSACTION | MDL_EXPLICIT.
#[export] Instance duration_eq_dec : EqDecision enum_mdl_duration.
Proof. solve_decision. Defined.

(** Tickets and requests are named by numbers. *)
Record MDL_request := MkRequest {
  type : Z;
  duration : enum_mdl_duration;
  next_in_list : option nat;
  prev_in_list : option nat;
  ticket : option nat;
  key : MDL_key;
}.
Definition set_type (type_arg : Z) (r : MDL_request) : option MDL_request :=
  match ticket r with
  | Some _ => None
  | None => Some (MkRequest type_arg (duration r) (next_in_list r) (prev_in_list r) (ticket r) (key r))
  end.
(** [move_from]: the new values of the object and of [from]. *)
Definition move_from (from r : MDL_request) : MDL_request * MDL_request :=
  (MkRequest (type from) (duration from) (next_in_list from) (prev_in_list from) (ticket from)
     (mdl_key_copy (key from) (key r)),
   MkRequest (type from) (duration from) (next_in_list from) (prev_in_list from) None (key from)).
Definition assign (r : MDL_request) : MDL_request :=
  MkRequest MDL_NOT_INITIALIZED (duration r) (next_in_list r) (prev_in_list r) None (key r).
Definition is_write_lock_request (r : MDL_request) : bool :=
  (type r >=? MDL_SHARED_WRITE) && negb (type r =? MDL_SHARED_READ_ONLY).
(** [MDL_ticket::is_upgradable_or_exclusive] of a ticket of type [m_type]. *)
Definition is_upgradable_or_exclusive (m_type : Z) : bool :=
  (m_type =? MDL_SHARED_UPGRADABLE) || (m_type =? MDL_SHARED_NO_WRITE) ||
  (m_type =? MDL_SHARED_NO_READ_WRITE) || (m_type =? MDL_EXCLUSIVE).

(** ** Contexts: the tickets by duration, newest first *)

Record MDL_context := MkContext {
  m_tickets : enum_mdl_duration -> list nat;
  m_deadlock_overweight : Z;
  m_needs_thr_lock_abort : bool;
  m_waiting_for : option nat;
}.
Definition is_nil (l : list nat) : bool := match l with [] => true | _ => false end.
Definition has_locks (c : MDL_context) : bool :=
  negb (is_nil (m_tickets c MDL_STATEMENT) && is_nil (m_tickets c MDL_TRANSACTION) && is_nil (m_tickets c MDL_EXPLICIT)).
Definition has_explicit_locks (c : MDL_context) : bool := negb (is_nil (m_tickets c MDL_EXPLICIT)).
Definition has_transactional_locks (c : MDL_context) : bool := negb (is_nil (m_tickets c MDL_TRANSACTION)).
Definition mdl_savepoint (c : MDL_context) : option nat * option nat :=
  (head (m_tickets c MDL_STATEMENT), head (m_tickets c MDL_TRANSACTION)).
(** [weight] is the virtual [get_deadlock_weight] of the edge waited for; [None] is
    the call without one. *)
Definition get_deadlock_weight (weight : nat -> Z) (c : MDL_context) : option Z :=
  w ← m_waiting_for c; Some (u32 (weight w + m_deadlock_overweight c)).
Definition inc_deadlock_overweight (c : MDL_context) : MDL_context :=
  MkContext (m_tickets c) (u32 (m_deadlock_overweight c + 1)) (m_needs_thr_lock_abort c) (m_waiting_for c).
Definition reset (c : MDL_context) : MDL_context :=
  MkContext (m_tickets c) 0 (m_needs_thr_lock_abort c) (m_waiting_for c).
Definition will_wait_for (w : nat) (c : MDL_context) : MDL_context :=
  MkContext (m_tickets c) (m_deadlock_overweight c) (m_needs_thr_lock_abort c) (Some w).
Definition done_waiting_for (c : MDL_context) : MDL_context :=
  MkContext (m_tickets c) (m_deadlock_overweight c) (m_needs_thr_lock_abort c) None.
Definition set_needs_thr_lock_abort (b : bool) (c : MDL_context) : MDL_context :=
  MkContext (m_tickets c) (m_deadlock_overweight c) b (m_waiting_for c).
Definition get_needs_thr_lock_abort (c : MDL_context) : bool := m_needs_thr_lock_abort c.

(** ** Keys as triples *)

(** Byte strings in dictionary order. *)
Fixpoint lex (p q : list Z) : comparison :=
  match p, q with
  | [], [] => Eq
  | [], _ => Lt
  | _, [] => Gt
  | x :: p, y :: q => match x ?= y with Eq => lex p q | c => c end
  end.
Definition then_cmp (c d : comparison) : comparison := match c with Eq => d | _ => c end.

(** A C string: bytes that are not zero. *)
Definition c_string (s : list Z) : Prop := Forall (fun b => 0 < b < 256) s.
Definition layout (ns : enum_mdl_namespace) (db nm : list Z) : list Z :=
  namespace_code ns :: take NAME_LEN db ++ [0] ++ take NAME_LEN nm ++ [0].

Lemma namespace_code_inj ns1 ns2 : namespace_code ns1 = namespace_code ns2 -> ns1 = ns2.
Proof. by destruct ns1, ns2. Qed.
Lemma lex_eq p q : lex p q = Eq <-> p = q.
Proof.
  revert q. induction p as [|x p IH]; intros [|y q]; cbn; try (split; congruence).
  destruct (Z.compare_spec x y) as [->|Hl|Hl]; [rewrite IH; split; congruence|split; intros E; [done|]..].
  all: injection E; lia.
Qed.
Lemma then_cmp_Eq c d : then_cmp c d = Eq <-> c = Eq /\ d = Eq.
Proof. destruct c; cbn; intuition congruence. Qed.

(** Comparing prefixes of two buffers. *)
Lemma memcmp_app n p q p' q' :
  (n <= length p)%nat -> (n <= length q)%nat -> memcmp n (p ++ p') (q ++ q') = memcmp n p q.
Proof.
  revert p q. induction n as [|n IH]; intros [|x p] [|y q] Hp Hq; cbn in *; try done; try lia.
  all: try (by destruct p'); try (by destruct p', q').
  rewrite IH by lia. done.
Qed.
Lemma memcmp_string db1 db2 r1 r2 :
  c_string db1 -> c_string db2 ->
  memcmp (Nat.min (length (db1 ++ 0 :: r1)) (length (db2 ++ 0 :: r2))) (db1 ++ 0 :: r1) (db2 ++ 0 :: r2) =
  then_cmp (lex db1 db2) (memcmp (Nat.min (length r1) (length r2)) r1 r2).
Proof.
  intros H1. revert db2. induction H1 as [|x p Hx Hp IH]; intros q Hq; destruct q as [|y q].
  - done.
  - apply Forall_cons in Hq as [Hy _]. cbn [lex app length Nat.min memcmp]. assert (0 ?= y = Lt) as -> by (apply Z.compare_lt_iff; lia). done.
  - cbn [lex app length Nat.min memcmp]. assert (x ?= 0 = Gt) as -> by (apply Z.compare_gt_iff; lia). done.
  - apply Forall_cons in Hq as [Hy Hq]. cbn [lex app length Nat.min memcmp]. destruct (x ?= y); [|done..]. by apply IH.
Qed.
Lemma memcmp_layout ns1 db1 nm1 ns2 db2 nm2 :
  c_string (take NAME_LEN db1) -> c_string (take NAME_LEN db2) ->
  c_string (take NAME_LEN nm1) -> c_string (take NAME_LEN nm2) ->
  memcmp (Nat.min (length (layout ns1 db1 nm1)) (length (layout ns2 db2 nm2)))
    (layout ns1 db1 nm1) (layout ns2 db2 nm2) =
  then_cmp (namespace_code ns1 ?= namespace_code ns2)
    (then_cmp (lex (take NAME_LEN db1) (take NAME_LEN db2)) (lex (take NAME_LEN nm1) (take NAME_LEN nm2))).
Proof.
  intros. unfold layout. cbn [length Nat.min memcmp app]. destruct (_ ?= _); [|done..]. cbn [then_cmp].
  rewrite memcmp_string by done. f_equal.
  change ([0]) with (0 :: []). rewrite memcmp_string by done. by destruct (lex _ _).
Qed.

Section key_laws.
Context `{L : MdlLibLaws}.

(** Any object with a buffer of the declared size. *)
Definition allocated (k : MDL_key) : Prop := length (m_ptr k) = MAX_MDLKEY_LENGTH.

Lemma mdl_key_init_layout ns db nm k :
  allocated k ->
  let k' := mdl_key_init ns db nm k in
  allocated k' /\ bytes k' = layout ns db nm /\
  m_length k' = Z.of_nat (length (layout ns db nm)) /\
  m_db_name_length k' = Z.of_nat (length (take NAME_LEN db)) /\
  m_hash_value k' = my_hash_sort (drop 1 (layout ns db nm)).
Proof.
  unfold allocated. intros Hk. unfold mdl_key_init, bytes. set (p0 := <[_:=_]> (m_ptr k)).
  assert (L0 : length p0 = MAX_MDLKEY_LENGTH) by (unfold p0; by rewrite length_insert).
  assert (H0 : take 1 p0 = [namespace_code ns]).
  { unfold p0. destruct (m_ptr k); [done|reflexivity]. }
  pose proof (strmake_end p0 1 db NAME_LEN) as E1.
  pose proof (strmake_length p0 1 db NAME_LEN ltac:(rewrite L0; vm_compute; lia)) as L1.
  pose proof (strmake_bytes p0 1 db NAME_LEN ltac:(rewrite L0; vm_compute; lia)) as B1.
  destruct (strmake p0 1 db NAME_LEN) as [p1 e1]. cbn [fst snd] in E1, L1, B1. subst e1.
  rewrite H0 in B1. rewrite L0 in L1. set (d := take NAME_LEN db) in *.
  assert (Hd : (length d <= 192)%nat) by (unfold d; rewrite length_take; unfold NAME_LEN; lia).
  replace (Z.of_nat (1 + length d) - 1) with (Z.of_nat (length d)) by lia.
  rewrite (wrapU_small 16 (Z.of_nat (length d))) by (unfold in_u; lia).
  replace (Z.to_nat (Z.of_nat (length d) + 2)) with (1 + length d + 1)%nat by lia.
  assert (Hsz : (1 + length d + 1 + NAME_LEN < length p1)%nat).
  { rewrite L1. unfold MAX_MDLKEY_LENGTH, NAME_LEN. lia. }
  pose proof (strmake_end p1 (1 + length d + 1) nm NAME_LEN) as E2.
  pose proof (strmake_length p1 (1 + length d + 1) nm NAME_LEN Hsz) as L2.
  pose proof (strmake_bytes p1 (1 + length d + 1) nm NAME_LEN Hsz) as B2.
  destruct (strmake p1 _ nm NAME_LEN) as [p2 e2]. cbn [fst snd] in E2, L2, B2. subst e2.
  rewrite B1 in B2. set (n := take NAME_LEN nm) in *.
  assert (Hn : (length n <= 192)%nat) by (unfold n; rewrite length_take; unfold NAME_LEN; lia).
  assert (Hlay : take (1 + length d + 1 + length n + 1) p2 = layout ns db nm).
  { rewrite B2. unfold layout. fold d n. by rewrite <- !app_assoc. }
  assert (Hll : length (layout ns db nm) = (1 + length d + 1 + length n + 1)%nat).
  { unfold layout. fold d n. cbn [length]. rewrite !length_app. cbn. lia. }
  rewrite (wrapU_small 16 (Z.of_nat _ + 1)) by (unfold in_u; lia).
  cbn [m_ptr m_length m_db_name_length m_hash_value].
  replace (Z.to_nat (Z.of_nat (1 + length d + 1 + length n) + 1)) with (1 + length d + 1 + length n + 1)%nat by lia.
  split_and!; [by rewrite L2|done|rewrite Hll; lia|done|].
  f_equal. rewrite <- Hlay, take_drop_commute. f_equal. f_equal. lia.
Qed.
End key_laws.

(** The comparisons read nothing but the bytes of the keys. *)
Lemma memcmp_take n p q : memcmp n p q = memcmp n (take n p) (take n q).
Proof.
  revert p q. induction n as [|n IH]; intros [|x p] [|y q]; cbn; try done. by rewrite IH.
Qed.
Lemma memcmp_prefixes a b p q :
  (a <= length p)%nat -> (b <= length q)%nat ->
  memcmp (Nat.min a b) p q = memcmp (Nat.min (length (take a p)) (length (take b q))) (take a p) (take b q).
Proof.
  intros Ha Hb. rewrite !length_take, (Nat.min_l a (length p)), (Nat.min_l b (length q)) by done.
  rewrite memcmp_take, (memcmp_take _ (take a p)), !take_take. f_equal; f_equal; lia.
Qed.

Lemma cmp_bytes k1 k2 :
  (Z.to_nat (m_length k1) <= length (m_ptr k1))%nat -> (Z.to_nat (m_length k2) <= length (m_ptr k2))%nat ->
  cmp k1 k2 = memcmp (Nat.min (length (bytes k1)) (length (bytes k2))) (bytes k1) (bytes k2).
Proof. intros. unfold cmp, bytes. rewrite Z2Nat.inj_min. by apply memcmp_prefixes. Qed.

Lemma layout_short ns db nm :
  (length db <= NAME_LEN)%nat -> (length nm <= NAME_LEN)%nat ->
  layout ns db nm = namespace_code ns :: db ++ [0] ++ nm ++ [0].
Proof. intros. unfold layout. by rewrite !take_ge by assumption. Qed.
Lemma length_layout ns db nm :
  (length db <= NAME_LEN)%nat -> (length nm <= NAME_LEN)%nat ->
  length (layout ns db nm) = (length db + length nm + 3)%nat.
Proof. intros. rewrite layout_short by assumption. cbn [length]. rewrite !length_app. cbn [length]. lia. Qed.

Section keys_theorem.
Context `{L : MdlLibLaws}.

Lemma init_fits ns db nm k :
  allocated k -> let k' := mdl_key_init ns db nm k in
  (Z.to_nat (m_length k') <= length (m_ptr k'))%nat /\ Z.of_nat (length (bytes k')) = m_length k' /\ 0 <= m_length k'.
Proof.
  intros Hk. destruct (mdl_key_init_layout ns db nm k Hk) as (Ha & Hb & Hl & _). cbv zeta.
  rewrite Hb, Hl, Ha. unfold layout. cbn [length]. rewrite !length_app, !length_take.
  unfold MAX_MDLKEY_LENGTH, NAME_LEN. cbn [length]. lia.
Qed.

(** Metadata lock keys identify their objects.  Two keys built (in any two
    objects) from namespaces and names without zero bytes of at most [NAME_LEN]
    bytes are equal exactly when the namespaces and both names are; [cmp], which
    compares as many bytes as the shorter key has, orders keys by namespace, then
    database name, then object name in dictionary order; and the accessors give the
    parts back.  The key fits its buffer, and only names longer than [NAME_LEN] are
    cut. *)
Lemma mdl_key_identifies ns1 db1 nm1 ns2 db2 nm2 k k' :
  allocated k -> allocated k' ->
  c_string db1 -> c_string db2 -> c_string nm1 -> c_string nm2 ->
  (length db1 <= NAME_LEN)%nat -> (length db2 <= NAME_LEN)%nat ->
  (length nm1 <= NAME_LEN)%nat -> (length nm2 <= NAME_LEN)%nat ->
  let k1 := mdl_key_init ns1 db1 nm1 k in
  let k2 := mdl_key_init ns2 db2 nm2 k' in
  (is_equal k1 k2 = true <-> ns1 = ns2 /\ db1 = db2 /\ nm1 = nm2) /\
  cmp k1 k2 = then_cmp (namespace_code ns1 ?= namespace_code ns2) (then_cmp (lex db1 db2) (lex nm1 nm2)) /\
  (cmp k1 k2 = Eq <-> is_equal k1 k2 = true) /\
  (is_equal k1 k2 = true -> hash_value k1 = hash_value k2 /\ tc_hash_value k1 = tc_hash_value k2) /\
  allocated k1 /\ m_length k1 <= Z.of_nat MAX_MDLKEY_LENGTH /\
  mdl_namespace k1 = Some (namespace_code ns1) /\
  take (Z.to_nat (db_name_length k1) + 1) (db_name k1) = db1 ++ [0] /\
  take (Z.to_nat (name_length k1) + 1) (name k1) = nm1 ++ [0].
Proof.
  intros Hk Hk' Hd1 Hd2 Hn1 Hn2 Ld1 Ld2 Ln1 Ln2 k1 k2.
  pose proof (mdl_key_init_layout ns1 db1 nm1 k Hk) as (A1 & B1 & M1 & D1 & H1).
  pose proof (mdl_key_init_layout ns2 db2 nm2 k' Hk') as (A2 & B2 & M2 & D2 & H2).
  pose proof (init_fits ns1 db1 nm1 k Hk) as (F1 & Z1 & P1). pose proof (init_fits ns2 db2 nm2 k' Hk') as (F2 & Z2 & P2).
  fold k1 in A1, B1, M1, D1, H1, F1, Z1, P1. fold k2 in A2, B2, M2, D2, H2, F2, Z2, P2.
  assert (Hcmp : cmp k1 k2 = then_cmp (namespace_code ns1 ?= namespace_code ns2) (then_cmp (lex db1 db2) (lex nm1 nm2))).
  { rewrite cmp_bytes by assumption. rewrite B1, B2.
    rewrite memcmp_layout by (rewrite take_ge by assumption; assumption). by rewrite !take_ge by assumption. }
  assert (Heq : cmp k1 k2 = Eq <-> ns1 = ns2 /\ db1 = db2 /\ nm1 = nm2).
  { rewrite Hcmp, !then_cmp_Eq, Z.compare_eq_iff, !lex_eq. split; intros (E & ? & ?); split_and!; try done.
    - by apply namespace_code_inj.
    - by rewrite E. }
  assert (Hise : is_equal k1 k2 = true <-> ns1 = ns2 /\ db1 = db2 /\ nm1 = nm2).
  { rewrite <- Heq. unfold is_equal, cmp. split.
    - intros [E%Z.eqb_eq E2]%andb_prop. rewrite E, Z.min_id. rewrite E in E2. by destruct (memcmp _ _ _).
    - intros E. pose proof (proj1 Heq E) as (? & ? & ?). subst.
      assert (m_length k1 = m_length k2) as El by (rewrite M1, M2; done).
      unfold cmp in E. rewrite El, Z.min_id in E. rewrite El, Z.eqb_refl, E. done. }
  split_and!; [exact Hise|exact Hcmp|by rewrite Heq, Hise| |exact A1| | | |].
  - intros (-> & -> & ->)%Hise. unfold hash_value, tc_hash_value, mdl_namespace. rewrite H1, H2. split; [|done].
    assert (Hh : forall q k0, (0 < length (take q (m_ptr k0)))%nat -> m_ptr k0 !! 0%nat = take q (m_ptr k0) !! 0%nat).
    { intros q k0 Hq; destruct q as [|q]; [exfalso; revert Hq; apply Nat.lt_irrefl|]. by destruct (m_ptr k0). }
    rewrite (Hh (Z.to_nat (m_length k1)) k1), (Hh (Z.to_nat (m_length k2)) k2) by (fold (bytes k1) (bytes k2); rewrite ?B1, ?B2; cbn; lia).
    fold (bytes k1) (bytes k2). by rewrite B1, B2.
  - unfold allocated in A1. rewrite A1 in F1. lia.
  - unfold mdl_namespace. unfold bytes, layout in B1. destruct (m_ptr k1) as [|b p]; [by destruct (Z.to_nat _)|].
    destruct (Z.to_nat (m_length k1)); [done|]. cbn [take] in B1. by injection B1 as ->.
  - unfold db_name_length, db_name. rewrite D1, (take_ge db1), Nat2Z.id, take_drop_commute by assumption.
    assert (take (1 + (length db1 + 1)) (m_ptr k1) = take (1 + (length db1 + 1)) (layout ns1 db1 nm1)) as ->.
    { rewrite <- B1. unfold bytes. rewrite take_take, Nat.min_l; [done|].
      rewrite M1, Nat2Z.id, length_layout by assumption. lia. }
    rewrite layout_short by assumption. cbn [Nat.add take drop].
    rewrite take_app, take_ge by lia. replace (length db1 + 1 - length db1)%nat with 1%nat by lia. done.
  - unfold name_length, name. rewrite D1, M1, length_layout, (take_ge db1) by assumption.
    rewrite wrapU_small by (unfold in_u, NAME_LEN in *; lia).
    replace (Z.to_nat _ + 1)%nat with (length nm1 + 1)%nat by lia.
    replace (Z.to_nat (Z.of_nat (length db1) + 2)) with (length db1 + 2)%nat by lia.
    rewrite take_drop_commute. replace (length db1 + 2 + (length nm1 + 1))%nat with (Z.to_nat (m_length k1)).
    2: { rewrite M1, length_layout by assumption. lia. }
    fold (bytes k1). rewrite B1, layout_short by assumption.
    replace (length db1 + 2)%nat with (S (length (db1 ++ [0]))) by (rewrite length_app; cbn; lia).
    cbn [drop]. rewrite app_assoc. apply drop_app_length.
Qed.

(** A copy is equal to its original and keeps both hashes. *)
Lemma mdl_key_copy_equal ns db nm k r :
  allocated k -> allocated r ->
  let k1 := mdl_key_init ns db nm k in
  is_equal (mdl_key_copy k1 r) k1 = true /\ bytes (mdl_key_copy k1 r) = bytes k1 /\
  allocated (mdl_key_copy k1 r) /\ tc_hash_value (mdl_key_copy k1 r) = tc_hash_value k1.
Proof.
  intros Hk Hr k1. pose proof (mdl_key_init_layout ns db nm k Hk) as (A1 & _).
  pose proof (init_fits ns db nm k Hk) as (F1 & Z1 & P1). fold k1 in A1, F1, Z1, P1.
  assert (Hl : length (bytes k1) = Z.to_nat (m_length k1)) by lia.
  assert (Hb : bytes (mdl_key_copy k1 r) = bytes k1).
  { unfold bytes at 1, mdl_key_copy. cbn [m_length m_ptr]. rewrite <- Hl. by rewrite take_app_length. }
  split_and!; [|done| |done].
  - unfold is_equal. cbn [m_length mdl_key_copy]. rewrite Z.eqb_refl. rewrite memcmp_take.
    change (take (Z.to_nat (m_length k1)) (m_ptr (mdl_key_copy k1 r))) with (bytes (mdl_key_copy k1 r)).
    rewrite Hb. fold (bytes k1). 
    assert (forall n p, memcmp n p p = Eq) as ->; [|done].
    intros n p. revert n. induction p as [|x p IH]; intros [|n]; cbn; try done. by rewrite Z.compare_refl.
  - unfold allocated in *. cbn [m_ptr mdl_key_copy]. rewrite length_app, length_drop. lia.
Qed.
End keys_theorem.

(** Names longer than [NAME_LEN] are cut: the keys of two objects whose names agree in
    the first [NAME_LEN] bytes are equal. *)
Lemma mdl_key_truncates `{L : MdlLibLaws} ns db nm1 nm2 k k' :
  allocated k -> allocated k' -> take NAME_LEN nm1 = take NAME_LEN nm2 ->
  bytes (mdl_key_init ns db nm1 k) = bytes (mdl_key_init ns db nm2 k').
Proof.
  intros Hk Hk' E. pose proof (mdl_key_init_layout ns db nm1 k Hk) as (_ & -> & _).
  pose proof (mdl_key_init_layout ns db nm2 k' Hk') as (_ & -> & _). unfold layout. by rewrite E.
Qed.

(** ** A library that satisfies the laws *)

Definition sample_strmake (buf : list Z) (off : nat) (src : list Z) (n : nat) : list Z * nat :=
  (take off buf ++ take n src ++ [0] ++ drop (off + length (take n src) + 1) buf, (off + length (take n src))%nat).
#[export] Instance sample_lib : MdlLib :=
  {| strmake := sample_strmake; my_hash_sort l := fold_right (fun b h => u32 (h * 31 + b)) 1 l |}.
#[export] Instance sample_lib_laws : MdlLibLaws.
Proof.
  split; cbn [strmake sample_lib sample_strmake fst snd]; [done|..].
  - intros buf off src n Hn. rewrite !length_app, length_drop, !length_take. cbn. lia.
  - intros buf off src n Hn. rewrite (app_assoc (take n src)), (app_assoc (take off buf)). rewrite take_app_le.
    + rewrite take_ge; [done|]. rewrite !length_app, !length_take. cbn. lia.
    + rewrite !length_app, !length_take. cbn. lia.
Qed.

(** ** Requests *)

(** What [is_write_lock_request] answers for each lock type, and which of the tickets
    it allows to be upgraded. *)
Lemma write_lock_types r :
  0 <= type r < MDL_TYPE_END ->
  (is_write_lock_request r = true <->
     type r ∈ [MDL_SHARED_WRITE; MDL_SHARED_UPGRADABLE; MDL_SHARED_NO_WRITE; MDL_SHARED_NO_READ_WRITE; MDL_EXCLUSIVE]) /\
  (is_upgradable_or_exclusive (type r) = true -> is_write_lock_request r = true).
Proof.
  unfold MDL_TYPE_END, is_write_lock_request, is_upgradable_or_exclusive.
  unfold MDL_SHARED_WRITE, MDL_SHARED_UPGRADABLE, MDL_SHARED_NO_WRITE, MDL_SHARED_NO_READ_WRITE, MDL_EXCLUSIVE, MDL_SHARED_READ_ONLY.
  rewrite !elem_of_cons, elem_of_nil. lia.
Qed.
(** [move_from] hands the ticket over: it has one owner afterwards. *)
Lemma move_from_ticket from r :
  let '(r', from') := move_from from r in
  ticket r' = ticket from /\ ticket from' = None /\ type r' = type from /\ duration r' = duration from /\
  key from' = key from /\ (forall t, is_Some (set_type t from')).
Proof. cbn. by split_and!. Qed.
(** The savepoint is empty exactly when the context has no lock that a rollback
    could release. *)
Lemma savepoint_empty c :
  mdl_savepoint c = (None, None) <-> has_locks c = has_explicit_locks c /\ has_transactional_locks c = false /\ m_tickets c MDL_STATEMENT = [].
Proof.
  unfold mdl_savepoint, has_locks, has_explicit_locks, has_transactional_locks.
  destruct (m_tickets c MDL_STATEMENT), (m_tickets c MDL_TRANSACTION), (m_tickets c MDL_EXPLICIT); cbn; intuition congruence.
Qed.
