(* ===== verification/QueryTables.v ===== *)
(** The tables and the binary log flags of a statement: class [Query_tables_list] of
    [mariadb/include/mysql/server/private/sql_lex.h].

    The tables of the query form a list through [next_global] and [prev_global]; the
    tables that prelocking adds come after the query's own ones.  A location is the
    address of [query_tables] or of the [next_global] of a table. *)

From S2P Require Import Prelude.

Inductive loc := Head | NextOf (t : nat).
#[export] Instance loc_eq_dec : EqDecision loc.
Proof. solve_decision. Defined.

Record TABLE_LIST := MkTable { next_global : option nat; prev_global : option loc }.

Record Query_tables_list := MkQuery {
  tables : gmap nat TABLE_LIST;
  query_tables : option nat;
  query_tables_last : loc;
  query_tables_own_last : option loc;
  sroutines_elements : Z;
  binlog_stmt_flags : Z;
  stmt_accessed_table_flag : Z;
}.

(** ** The list of tables *)

Definition with_tables (m : gmap nat TABLE_LIST) (q : option nat) (s : Query_tables_list) : Query_tables_list :=
  MkQuery m q (query_tables_last s) (query_tables_own_last s) (sroutines_elements s)
    (binlog_stmt_flags s) (stmt_accessed_table_flag s).
Definition with_ends (last : loc) (own_last : option loc) (s : Query_tables_list) : Query_tables_list :=
  MkQuery (tables s) (query_tables s) last own_last (sroutines_elements s)
    (binlog_stmt_flags s) (stmt_accessed_table_flag s).

(** Reading and writing the pointer at a location; [None] is a missing table. *)
Definition read (p : loc) (s : Query_tables_list) : option (option nat) :=
  match p with
  | Head => Some (query_tables s)
  | NextOf t => next_global <$> tables s !! t
  end.
Definition write (p : loc) (v : option nat) (s : Query_tables_list) : option Query_tables_list :=
  match p with
  | Head => Some (with_tables (tables s) v s)
  | NextOf t =>
      i ← tables s !! t;
      Some (with_tables (<[t := MkTable v (prev_global i)]> (tables s)) (query_tables s) s)
  end.

Definition add_to_query_tables (table : nat) (s : Query_tables_list) : option Query_tables_list :=
  i ← tables s !! table;
  let s1 := with_tables (<[table := MkTable (next_global i) (Some (query_tables_last s))]> (tables s)) (query_tables s) s in
  s2 ← write (query_tables_last s) (Some table) s1;
  Some (with_ends (NextOf table) (query_tables_own_last s2) s2).
Definition requires_prelocking (s : Query_tables_list) : bool :=
  match query_tables_own_last s with Some _ => true | None => false end.
Definition mark_as_requiring_prelocking (tables_own_last : option loc) (s : Query_tables_list) : Query_tables_list :=
  with_ends (query_tables_last s) tables_own_last s.
Definition first_not_own_table (s : Query_tables_list) : option (option nat) :=
  match query_tables_own_last s with Some p => read p s | None => Some None end.
Definition chop_off_not_own_tables (s : Query_tables_list) : option Query_tables_list :=
  match query_tables_own_last s with
  | Some p => s1 ← write p None s; Some (with_ends p None s1)
  | None => Some s
  end.
(** [None] when the list is not empty and its end is not in a table. *)
Definition last_table (s : Query_tables_list) : option (option nat) :=
  match query_tables s with
  | Some _ => match query_tables_last s with NextOf t => Some (Some t) | Head => None end
  | None => Some None
  end.
Definition uses_stored_routines (s : Query_tables_list) : bool := nz (sroutines_elements s).

(** ** Flags of the statement *)

Definition BINLOG_STMT_UNSAFE_LIMIT : Z := 0.
Definition BINLOG_STMT_UNSAFE_INSERT_DELAYED : Z := 1.
Definition BINLOG_STMT_UNSAFE_SYSTEM_TABLE : Z := 2.
Definition BINLOG_STMT_UNSAFE_AUTOINC_COLUMNS : Z := 3.
Definition BINLOG_STMT_UNSAFE_UDF : Z := 4.
Definition BINLOG_STMT_UNSAFE_SYSTEM_VARIABLE : Z := 5.
Definition BINLOG_STMT_UNSAFE_SYSTEM_FUNCTION : Z := 6.
Definition BINLOG_STMT_UNSAFE_NONTRANS_AFTER_TRANS : Z := 7.
Definition BINLOG_STMT_UNSAFE_MULTIPLE_ENGINES_AND_SELF_LOGGING_ENGINE : Z := 8.
Definition BINLOG_STMT_UNSAFE_MIXED_STATEMENT : Z := 9.
Definition BINLOG_STMT_UNSAFE_INSERT_IGNORE_SELECT : Z := 10.
Definition BINLOG_STMT_UNSAFE_INSERT_SELECT_UPDATE : Z := 11.
Definition BINLOG_STMT_UNSAFE_WRITE_AUTOINC_SELECT : Z := 12.
Definition BINLOG_STMT_UNSAFE_REPLACE_SELECT : Z := 13.
Definition BINLOG_STMT_UNSAFE_CREATE_IGNORE_SELECT : Z := 14.
Definition BINLOG_STMT_UNSAFE_CREATE_REPLACE_SELECT : Z := 15.
Definition BINLOG_STMT_UNSAFE_CREATE_SELECT_AUTOINC : Z := 16.
Definition BINLOG_STMT_UNSAFE_UPDATE_IGNORE : Z := 17.
Definition BINLOG_STMT_UNSAFE_INSERT_TWO_KEYS : Z := 18.
Definition BINLOG_STMT_UNSAFE_AUTOINC_NOT_FIRST : Z := 19.
Definition BINLOG_STMT_UNSAFE_AUTOINC_LOCK_MODE : Z := 20.
Definition BINLOG_STMT_UNSAFE_SKIP_LOCKED : Z := 21.
Definition BINLOG_STMT_UNSAFE_COUNT : Z := 22.
Definition BINLOG_STMT_UNSAFE_ALL_FLAGS : Z := u32 (shl 32 1 BINLOG_STMT_UNSAFE_COUNT - 1).
Definition BINLOG_STMT_TYPE_ROW_INJECTION : Z := BINLOG_STMT_UNSAFE_COUNT.

Definition with_flags (f : Z) (s : Query_tables_list) : Query_tables_list :=
  MkQuery (tables s) (query_tables s) (query_tables_last s) (query_tables_own_last s) (sroutines_elements s)
    f (stmt_accessed_table_flag s).

Definition get_stmt_unsafe_flags (s : Query_tables_list) : Z :=
  Z.land (binlog_stmt_flags s) BINLOG_STMT_UNSAFE_ALL_FLAGS.
Definition is_stmt_unsafe (s : Query_tables_list) : bool := nz (get_stmt_unsafe_flags s).
Definition is_stmt_unsafe_type (unsafe : Z) (s : Query_tables_list) : bool :=
  nz (Z.land (binlog_stmt_flags s) (Z.shiftl 1 unsafe)).
Definition set_stmt_unsafe (unsafe_type : Z) (s : Query_tables_list) : option Query_tables_list :=
  if (0 <=? unsafe_type) && (unsafe_type <? BINLOG_STMT_UNSAFE_COUNT)
  then Some (with_flags (Z.lor (binlog_stmt_flags s) (shl 32 1 unsafe_type)) s) else None.
Definition set_stmt_unsafe_flags (flags : Z) (s : Query_tables_list) : option Query_tables_list :=
  if Z.land flags (bnot 32 BINLOG_STMT_UNSAFE_ALL_FLAGS) =? 0
  then Some (with_flags (Z.lor (binlog_stmt_flags s) flags) s) else None.
Definition clear_stmt_unsafe (s : Query_tables_list) : Query_tables_list :=
  with_flags (Z.land (binlog_stmt_flags s) (bnot 32 BINLOG_STMT_UNSAFE_ALL_FLAGS)) s.
Definition is_stmt_row_injection (s : Query_tables_list) : bool :=
  nz (Z.land (binlog_stmt_flags s) (shl 32 1 BINLOG_STMT_TYPE_ROW_INJECTION)).
Definition set_stmt_row_injection (s : Query_tables_list) : Query_tables_list :=
  with_flags (Z.lor (binlog_stmt_flags s) (shl 32 1 BINLOG_STMT_TYPE_ROW_INJECTION)) s.

(** ** Accessed tables *)

Definition STMT_READS_TRANS_TABLE : Z := 0.
Definition STMT_READS_NON_TRANS_TABLE : Z := 1.
Definition STMT_READS_TEMP_TRANS_TABLE : Z := 2.
Definition STMT_READS_TEMP_NON_TRANS_TABLE : Z := 3.
Definition STMT_WRITES_TRANS_TABLE : Z := 4.
Definition STMT_WRITES_NON_TRANS_TABLE : Z := 5.
Definition STMT_WRITES_TEMP_TRANS_TABLE : Z := 6.
Definition STMT_WRITES_TEMP_NON_TRANS_TABLE : Z := 7.
Definition STMT_ACCESS_TABLE_COUNT : Z := 8.

Definition with_accessed (f : Z) (s : Query_tables_list) : Query_tables_list :=
  MkQuery (tables s) (query_tables s) (query_tables_last s) (query_tables_own_last s) (sroutines_elements s)
    (binlog_stmt_flags s) f.
Definition access_ok (accessed_table : Z) : bool := (0 <=? accessed_table) && (accessed_table <? STMT_ACCESS_TABLE_COUNT).
Definition set_stmt_accessed_table (accessed_table : Z) (s : Query_tables_list) : option Query_tables_list :=
  if access_ok accessed_table
  then Some (with_accessed (Z.lor (stmt_accessed_table_flag s) (shl 32 1 accessed_table)) s) else None.
Definition stmt_accessed_table (accessed_table : Z) (s : Query_tables_list) : option bool :=
  if access_ok accessed_table
  then Some (nz (Z.land (stmt_accessed_table_flag s) (shl 32 1 accessed_table))) else None.
Definition stmt_accessed_trans_temp_table (s : Query_tables_list) : bool :=
  nz (Z.land (stmt_accessed_table_flag s)
        (Z.lor (shl 32 1 STMT_READS_TEMP_TRANS_TABLE) (shl 32 1 STMT_WRITES_TEMP_TRANS_TABLE))).
Definition stmt_writes_to_non_temp_table (s : Query_tables_list) : bool :=
  nz (Z.land (stmt_accessed_table_flag s)
        (Z.lor (shl 32 1 STMT_WRITES_TRANS_TABLE) (shl 32 1 STMT_WRITES_NON_TRANS_TABLE))).
Definition stmt_accessed_non_trans_temp_table (s : Query_tables_list) : bool :=
  nz (Z.land (stmt_accessed_table_flag s)
        (Z.lor (shl 32 1 STMT_READS_TEMP_NON_TRANS_TABLE) (shl 32 1 STMT_WRITES_TEMP_NON_TRANS_TABLE))).
Definition stmt_accessed_temp_table (s : Query_tables_list) : bool :=
  stmt_accessed_non_trans_temp_table s || stmt_accessed_trans_temp_table s.

Definition BINLOG_DIRECT_ON : Z := 240.
Definition BINLOG_DIRECT_OFF : Z := 15.
Definition TRX_CACHE_EMPTY : Z := 51.
Definition TRX_CACHE_NOT_EMPTY : Z := 204.
Definition IL_LT_REPEATABLE : Z := 170.
Definition IL_GTE_REPEATABLE : Z := 85.
Definition ISO_REPEATABLE_READ : Z := 2.

(** The table [binlog_unsafe_map] of 256 entries is defined in the server's code:
    [map] reads it, [None] is an index out of its bounds. *)
Definition is_mixed_stmt_unsafe (binlog_unsafe_map : list Z)
    (in_multi_stmt_transaction_mode binlog_direct trx_cache_is_not_empty : bool) (tx_isolation : Z)
    (s : Query_tables_list) : option bool :=
  unsafe ←
    (if in_multi_stmt_transaction_mode then
       let condition :=
         Z.land (Z.land (if binlog_direct then BINLOG_DIRECT_ON else BINLOG_DIRECT_OFF)
                        (if trx_cache_is_not_empty then TRX_CACHE_NOT_EMPTY else TRX_CACHE_EMPTY))
                (if tx_isolation >=? ISO_REPEATABLE_READ then IL_GTE_REPEATABLE else IL_LT_REPEATABLE) in
       entry ← binlog_unsafe_map !! Z.to_nat (stmt_accessed_table_flag s);
       Some (nz (Z.land entry condition))
     else Some false);
  wn ← stmt_accessed_table STMT_WRITES_NON_TRANS_TABLE s;
  rt ← stmt_accessed_table STMT_READS_TRANS_TABLE s;
  wt ← stmt_accessed_table STMT_WRITES_TEMP_NON_TRANS_TABLE s;
  Some (if (wn : bool) && rt && (tx_isolation <? ISO_REPEATABLE_READ) then true
        else if (wt : bool) && rt && (tx_isolation <? ISO_REPEATABLE_READ) then true
        else unsafe).

(** ** The list as two sequences *)

(** The location after the tables [l] that begin at [p]. *)
Definition end_loc (p : loc) (l : list nat) : loc := match last l with Some t => NextOf t | None => p end.

(** From location [p] the tables [l] follow up to the location [q], each with the
    location that points to it. *)
Fixpoint chain (s : Query_tables_list) (p : loc) (l : list nat) : Prop :=
  match l with
  | [] => True
  | t :: l' => read p s = Some (Some t) /\ prev_global <$> tables s !! t = Some (Some p) /\ chain s (NextOf t) l'
  end.

Definition rest (others : option (list nat)) : list nat := match others with Some l => l | None => [] end.

(** The query's own tables and, when it requires prelocking, the others. *)
Definition holds (s : Query_tables_list) (own : list nat) (others : option (list nat)) : Prop :=
  let all := own ++ rest others in
  NoDup all /\ chain s Head all /\ read (end_loc Head all) s = Some None /\
  query_tables_last s = end_loc Head all /\
  query_tables_own_last s = match others with Some _ => Some (end_loc Head own) | None => None end.

Lemma end_loc_cons p t l : end_loc p (t :: l) = end_loc (NextOf t) l.
Proof. unfold end_loc. rewrite last_cons. by destruct (last l). Qed.
Lemma end_loc_app p l1 l2 : end_loc p (l1 ++ l2) = end_loc (end_loc p l1) l2.
Proof. unfold end_loc. rewrite last_app. by destruct (last l2). Qed.
Lemma end_loc_elem p l t : end_loc p l = NextOf t -> t ∈ l \/ p = NextOf t.
Proof.
  unfold end_loc. destruct (last l) as [x|] eqn:E; [|by right].
  intros [= ->]. left. by apply last_Some_elem_of.
Qed.

Lemma tables_chain_app s l1 l2 : forall p, chain s p (l1 ++ l2) <-> chain s p l1 /\ chain s (end_loc p l1) l2.
Proof.
  induction l1 as [|x l1 IH]; intros p; cbn [app chain]; [by unfold end_loc; cbn; tauto|].
  rewrite IH, end_loc_cons. tauto.
Qed.

(** A write to the location after a chain keeps the chain. *)
Lemma write_defined p v s w : read p s = Some w -> is_Some (write p v s).
Proof. destruct p as [|t]; cbn; [by eexists|]. destruct (tables s !! t) eqn:E; [by eexists|done]. Qed.
Lemma read_write p v s s' q : write p v s = Some s' -> read q s' = if decide (q = p) then (if decide (is_Some (read p s)) then Some v else None) else read q s.
Proof.
  intros Hw. destruct p as [|t]; cbn in Hw.
  - injection Hw as <-. destruct q; cbn; [|by rewrite decide_False by done].
    rewrite decide_True by done. rewrite decide_True by (by eexists). done.
  - destruct (tables s !! t) as [i|] eqn:E; [|done]. injection Hw as <-. cbn [read]. rewrite E.
    destruct q as [|u]; cbn; [by rewrite decide_False by done|].
    destruct (decide (u = t)) as [->|Hne].
    + rewrite lookup_insert_eq, decide_True by done. done.
    + rewrite lookup_insert_ne, decide_False by congruence. done.
Qed.
Lemma write_prev p v s s' x : write p v s = Some s' -> prev_global <$> tables s' !! x = prev_global <$> tables s !! x.
Proof.
  intros Hw. destruct p as [|t]; cbn in Hw; [by injection Hw as <-|].
  destruct (tables s !! t) as [i|] eqn:E; [|done]. injection Hw as <-. cbn.
  destruct (decide (x = t)) as [->|]; [by rewrite lookup_insert_eq, E|by rewrite lookup_insert_ne by done].
Qed.
Lemma write_ends p v s s' :
  write p v s = Some s' ->
  query_tables_last s' = query_tables_last s /\ query_tables_own_last s' = query_tables_own_last s.
Proof.
  intros Hw. destruct p as [|t]; cbn in Hw; [by injection Hw as <-|].
  destruct (tables s !! t) as [i|]; [|done]. by injection Hw as <-.
Qed.

(** The chain reads the location before each of its tables. *)
Lemma tables_chain_frame s s' l : forall p,
  (forall q, q = p \/ (exists t, t ∈ l /\ q = NextOf t) -> q <> end_loc p l -> read q s' = read q s) ->
  (forall x, x ∈ l -> prev_global <$> tables s' !! x = prev_global <$> tables s !! x) ->
  NoDup l -> (forall t, t ∈ l -> p <> NextOf t) -> chain s p l -> chain s' p l.
Proof.
  induction l as [|t l IH]; intros p Hr Hp Hnd Hne; [done|]. cbn [chain]. intros (H1 & H2 & H3).
  apply NoDup_cons in Hnd as [Hni Hnd].
  assert (p <> end_loc p (t :: l)) as Hpe.
  { rewrite end_loc_cons. intros E. destruct p as [|u]; [unfold end_loc in E; by destruct (last l)|].
    symmetry in E. apply end_loc_elem in E as [E|E]; [apply (Hne u); [by right|done]|apply (Hne t); [by left|done]]. }
  split_and!.
  - rewrite Hr; [exact H1|by left|exact Hpe].
  - rewrite Hp; [exact H2|by left].
  - apply IH; [..|exact H3].
    + intros q Hq Hqe. apply Hr; [|by rewrite end_loc_cons]. right. destruct Hq as [->|(u & Hu & ->)]; [by exists t; split; [left|]|].
      exists u. split; [by right|done].
    + intros x Hx. apply Hp. by right.
    + done.
    + intros u Hu [= ->]. done.
Qed.

Section operations.
Implicit Types (s : Query_tables_list) (own : list nat) (others : option (list nat)).

Lemma holds_add s own others t i :
  holds s own others -> tables s !! t = Some i -> next_global i = None -> t ∉ own ++ rest others ->
  exists s', add_to_query_tables t s = Some s' /\
    match others with
    | Some l => holds s' own (Some (l ++ [t]))
    | None => holds s' (own ++ [t]) None
    end.
Proof.
  intros (Hnd & Hc & Hend & Hlast & Hown) Ht Hn Hni. unfold add_to_query_tables. rewrite Ht. cbn [mbind option_bind].
  set (all := own ++ rest others) in *.
  set (s1 := with_tables _ _ s).
  assert (R1 : forall q, read q s1 = read q s).
  { intros [|u]; [done|]. cbn. destruct (decide (u = t)) as [->|]; [by rewrite lookup_insert_eq, Ht|by rewrite lookup_insert_ne by done]. }
  destruct (write_defined (query_tables_last s) (Some t) s1 None) as [s2 Hw]; [by rewrite R1, Hlast|].
  rewrite Hw. cbn [mbind option_bind].
  pose proof (write_ends _ _ _ _ Hw) as [_ Ho2]. cbn in Ho2.
  eexists. split; [reflexivity|].
  assert (Hte : end_loc Head all <> NextOf t).
  { intros E. apply end_loc_elem in E as [E|E]; done. }
  assert (R2 : forall q, q <> end_loc Head all -> read q s2 = read q s).
  { intros q Hq. rewrite (read_write _ _ _ _ _ Hw). cbn [query_tables_last s1 with_tables]. rewrite decide_False by (by rewrite Hlast). apply R1. }
  assert (R3 : read (end_loc Head all) s2 = Some (Some t)).
  { rewrite (read_write _ _ _ _ _ Hw). rewrite decide_True by done. rewrite decide_True; [done|]. rewrite R1, Hlast, Hend. by eexists. }
  assert (P2 : forall x, x <> t -> prev_global <$> tables s2 !! x = prev_global <$> tables s !! x).
  { intros x Hx. rewrite (write_prev _ _ _ _ _ Hw). cbn. by rewrite lookup_insert_ne by done. }
  assert (P3 : prev_global <$> tables s2 !! t = Some (Some (end_loc Head all))).
  { rewrite (write_prev _ _ _ _ _ Hw). cbn. rewrite lookup_insert_eq. cbn. by rewrite Hlast. }
  assert (Hall : forall s3, (forall q, read q s3 = read q s2) -> (forall x, tables s3 !! x = tables s2 !! x) ->
            NoDup (all ++ [t]) /\ chain s3 Head (all ++ [t]) /\ read (NextOf t) s3 = Some None).
  { intros s3 E1 E2. split_and!.
    - apply NoDup_app. split_and!; [done| |by apply NoDup_singleton]. intros x Hx ->%list_elem_of_singleton. done.
    - apply tables_chain_app. split.
      + eapply tables_chain_frame; [..|exact Hc]; [|intros x Hx; rewrite E2; apply P2; intros ->; done|done|done].
        intros q _ Hq. rewrite E1. by apply R2.
      + cbn. rewrite E1, E2. by split_and!.
    - rewrite E1, R2 by done. cbn. rewrite Ht. cbn. by rewrite Hn. }
  destruct (Hall (with_ends (NextOf t) (query_tables_own_last s2) s2) ltac:(by intros [|]) ltac:(done)) as (N & C & E).
  destruct others as [l|]; cbn [rest] in *; unfold holds; cbn [rest with_ends query_tables_last query_tables_own_last];
    unfold all in *; cbn [rest] in *; rewrite ?app_nil_r, <- ?app_assoc in *; rewrite !end_loc_app;
    split_and!; try done; by rewrite Ho2, Hown.
Qed.

Lemma holds_mark s own own' :
  holds s (own ++ own') None -> holds (mark_as_requiring_prelocking (Some (end_loc Head own)) s) own (Some own').
Proof.
  intros (Hnd & Hc & Hend & Hlast & Hown). cbn [rest] in *. rewrite app_nil_r in *.
  unfold holds. cbn [rest mark_as_requiring_prelocking with_ends query_tables_last query_tables_own_last].
  split_and!; try done. eapply tables_chain_frame; [..|exact Hc]; done.
Qed.
Lemma holds_chop s own others :
  holds s own others -> exists s', chop_off_not_own_tables s = Some s' /\ holds s' own None.
Proof.
  intros (Hnd & Hc & Hend & Hlast & Hown). unfold chop_off_not_own_tables. rewrite Hown.
  destruct others as [l|]; cbn [rest] in *; [|exists s; split; [done|]; by split_and!].
  apply tables_chain_app in Hc as [Hc Hl].
  assert (Hre : is_Some (read (end_loc Head own) s)).
  { destruct l as [|x l]; [rewrite app_nil_r in Hend; by rewrite Hend|]. cbn in Hl. destruct Hl as [-> _]. by eexists. }
  destruct Hre as [w Hre]. destruct (write_defined _ None _ _ Hre) as [s1 Hw]. rewrite Hw. cbn [mbind option_bind].
  eexists. split; [reflexivity|]. unfold holds. cbn [rest with_ends query_tables_last query_tables_own_last].
  rewrite app_nil_r. apply NoDup_app in Hnd as (Hnd & _ & _). split_and!; try done.
  - eapply tables_chain_frame; [..|exact Hc]; try done.
    + intros q _ Hq. transitivity (read q s1); [by destruct q|]. rewrite (read_write _ _ _ _ _ Hw). by rewrite decide_False.
    + intros x _. cbn. exact (write_prev _ _ _ _ x Hw).
  - transitivity (read (end_loc Head own) s1); [by destruct (end_loc Head own)|].
    rewrite (read_write _ _ _ _ _ Hw), decide_True by done. by rewrite decide_True by (rewrite Hre; by eexists).
Qed.
Lemma holds_first_not_own s own others :
  holds s own others -> first_not_own_table s = Some (head (rest others)).
Proof.
  intros (Hnd & Hc & Hend & Hlast & Hown). unfold first_not_own_table. rewrite Hown.
  destruct others as [l|]; [|done]. cbn [rest] in *. apply tables_chain_app in Hc as [_ Hl].
  destruct l as [|x l]; [by rewrite app_nil_r in Hend|]. cbn in Hl. by destruct Hl as [-> _].
Qed.
Lemma holds_last s own others : holds s own others -> last_table s = Some (last (own ++ rest others)).
Proof.
  intros (Hnd & Hc & Hend & Hlast & Hown). unfold last_table. rewrite Hlast.
  destruct (own ++ rest others) as [|t l].
  - cbn in Hend. injection Hend as ->. done.
  - cbn in Hc. destruct Hc as ([= ->] & _). rewrite end_loc_cons. unfold end_loc. rewrite last_cons. by destruct (last l).
Qed.
End operations.

(** C32 : the tables of a statement.  The list is the sequence of the query's own tables
    followed by the tables of prelocking: adding appends to the end, the mark splits
    the list anywhere, [first_not_own_table] is the first table after the mark,
    chopping leaves exactly the own tables (and the list can grow again), and
    [last_table], computed from the address of its link, is the last one. *)
Theorem query_tables_refines s own others :
  holds s own others ->
  (forall t i, tables s !! t = Some i -> next_global i = None -> t ∉ own ++ rest others ->
     exists s', add_to_query_tables t s = Some s' /\
       match others with Some l => holds s' own (Some (l ++ [t])) | None => holds s' (own ++ [t]) None end) /\
  (forall own1 own2, others = None -> own = own1 ++ own2 ->
     holds (mark_as_requiring_prelocking (Some (end_loc Head own1)) s) own1 (Some own2)) /\
  (requires_prelocking s = true <-> others <> None) /\
  first_not_own_table s = Some (head (rest others)) /\
  (exists s', chop_off_not_own_tables s = Some s' /\ holds s' own None) /\
  last_table s = Some (last (own ++ rest others)).
Proof.
  intros H. split_and!.
  - intros t i. by apply holds_add.
  - intros own1 own2 -> ->. by apply holds_mark.
  - destruct H as (_ & _ & _ & _ & Ho). unfold requires_prelocking. rewrite Ho. destruct others; split; try done; congruence.
  - by apply (holds_first_not_own s own).
  - by apply holds_chop with others.
  - by apply holds_last.
Qed.
Lemma query_tables_refines_witness :
  let s := MkQuery (<[1%nat := MkTable None None]> (<[2%nat := MkTable None None]> ∅)) None Head None 0 0 0 in
  holds s [] None /\ exists s', add_to_query_tables 1 s = Some s' /\ holds s' [1%nat] None.
Proof.
  intros s. assert (H : holds s [] None) by (unfold holds; cbn; split_and!; [apply NoDup_nil_2|done..]).
  split; [exact H|].
  destruct (query_tables_refines s [] None H) as (Hadd & _).
  destruct (Hadd 1%nat (MkTable None None)) as (s' & E & H'); [reflexivity|reflexivity|by intros ?%elem_of_nil|].
  exists s'. split; [exact E|exact H'].
Defined.

(** ** The flags *)

Lemma shl_1 k : 0 <= k < 32 -> shl 32 1 k = 2 ^ k.
Proof.
  intros Hk. unfold shl. rewrite Z.shiftl_1_l. apply wrapU_small. split; [lia|]. apply Z.pow_lt_mono_r; lia.
Qed.
Lemma all_flags_ones : BINLOG_STMT_UNSAFE_ALL_FLAGS = 2 ^ 22 - 1.
Proof. reflexivity. Qed.
Lemma testbit_not_all k : 0 <= k < 32 -> Z.testbit (bnot 32 BINLOG_STMT_UNSAFE_ALL_FLAGS) k = negb (k <? 22).
Proof. intros. rewrite all_flags_ones. unfold bnot. rewrite testbit_wrapU, Z.lnot_spec, testbit_ones by lia. bits_split; done. Qed.

(** The mark of one kind of unsafety does not touch the others or the row injection. *)
Lemma binlog_flags_independent s k j :
  0 <= k < BINLOG_STMT_UNSAFE_COUNT -> 0 <= j < BINLOG_STMT_UNSAFE_COUNT ->
  exists s', set_stmt_unsafe k s = Some s' /\
    is_stmt_unsafe_type j s' = (j =? k) || is_stmt_unsafe_type j s /\
    is_stmt_row_injection s' = is_stmt_row_injection s /\
    is_stmt_unsafe_type j (clear_stmt_unsafe s) = false /\
    is_stmt_row_injection (clear_stmt_unsafe s) = is_stmt_row_injection s /\
    is_stmt_unsafe_type j (set_stmt_row_injection s) = is_stmt_unsafe_type j s /\
    is_stmt_row_injection (set_stmt_row_injection s) = true.
Proof.
  unfold BINLOG_STMT_UNSAFE_COUNT. intros Hk Hj. unfold set_stmt_unsafe, BINLOG_STMT_UNSAFE_COUNT.
  replace ((0 <=? k) && (k <? 22)) with true by lia. eexists. split; [reflexivity|].
  unfold is_stmt_unsafe_type, is_stmt_row_injection, clear_stmt_unsafe, set_stmt_row_injection, BINLOG_STMT_TYPE_ROW_INJECTION, BINLOG_STMT_UNSAFE_COUNT.
  cbn [binlog_stmt_flags with_flags]. rewrite !shl_1, !Z.shiftl_1_l, !nz_land_pow2 by lia.
  rewrite !Z.lor_spec, !Z.land_spec, !testbit_pow2, !testbit_not_all by lia. 
  split_and!; bits_split; btauto.
Qed.
(** Nothing is marked as unsafe exactly when the statement is safe. *)
Lemma is_stmt_unsafe_exact s :
  is_stmt_unsafe s = true <-> exists k, 0 <= k < BINLOG_STMT_UNSAFE_COUNT /\ is_stmt_unsafe_type k s = true.
Proof.
  unfold is_stmt_unsafe, get_stmt_unsafe_flags, is_stmt_unsafe_type. rewrite all_flags_ones. split.
  - intros H%nz_true. assert (0 <= Z.land (binlog_stmt_flags s) (2 ^ 22 - 1)) as H0 by (apply Z.land_nonneg; by right).
    destruct (Z_neq_0_bit _ H0 H) as (k & Hk & Hb).
    rewrite Z.land_spec, testbit_ones in Hb by lia. apply andb_prop in Hb as [Hb Hlt]. exists k.
    split; [unfold BINLOG_STMT_UNSAFE_COUNT; lia|]. by rewrite Z.shiftl_1_l, nz_land_pow2 by lia.
  - intros (k & Hk & Hb). unfold BINLOG_STMT_UNSAFE_COUNT in Hk. rewrite Z.shiftl_1_l, nz_land_pow2 in Hb by lia.
    apply nz_true. intros E. apply (f_equal (fun z => Z.testbit z k)) in E.
    rewrite Z.land_spec, testbit_ones, Hb, Z.testbit_0_l in E by lia. lia.
Qed.

(** ** Mixed statements *)

(** The bit of a map entry that stands for a combination of conditions, as the comment
    on [binlog_unsafe_map] numbers them. *)
Definition condition_bit (direct not_empty : bool) (iso : Z) : Z :=
  (if direct then 4 else 0) + (if not_empty then 2 else 0) + (if iso <? ISO_REPEATABLE_READ then 1 else 0).

Lemma condition_mask direct not_empty iso :
  Z.land (Z.land (if direct : bool then BINLOG_DIRECT_ON else BINLOG_DIRECT_OFF)
                 (if not_empty : bool then TRX_CACHE_NOT_EMPTY else TRX_CACHE_EMPTY))
    (if iso >=? ISO_REPEATABLE_READ then IL_GTE_REPEATABLE else IL_LT_REPEATABLE) =
  2 ^ condition_bit direct not_empty iso.
Proof.
  unfold condition_bit. rewrite Z.geb_leb, Z.ltb_antisym. by destruct direct, not_empty, (ISO_REPEATABLE_READ <=? iso).
Qed.

(** The set of accessed kinds of tables stays an index of the map. *)
Lemma set_accessed_spec s k :
  in_u 8 (stmt_accessed_table_flag s) -> 0 <= k < STMT_ACCESS_TABLE_COUNT ->
  exists s', set_stmt_accessed_table k s = Some s' /\ in_u 8 (stmt_accessed_table_flag s') /\
    forall j, 0 <= j < STMT_ACCESS_TABLE_COUNT ->
      stmt_accessed_table j s' = (fun b => (j =? k) || b) <$> stmt_accessed_table j s.
Proof.
  unfold STMT_ACCESS_TABLE_COUNT. intros Hs Hk. unfold set_stmt_accessed_table, stmt_accessed_table, access_ok, STMT_ACCESS_TABLE_COUNT.
  replace ((0 <=? k) && (k <? 8)) with true by lia. eexists. split; [reflexivity|]. rewrite shl_1 by lia. split.
  - cbn. apply lor_in_u; [lia|done|]. split; [lia|]. apply Z.pow_lt_mono_r; lia.
  - intros j Hj. replace ((0 <=? j) && (j <? 8)) with true by lia. cbn. rewrite !shl_1, !nz_land_pow2 by lia.
    rewrite Z.lor_spec, testbit_pow2 by lia. f_equal. rewrite orb_comm. f_equal. bits_split; done.
Qed.

(** When a statement that mixes transactional and other tables is unsafe.  For
    every set of accessed kinds of tables and every map of 256 entries the map is
    read inside its bounds; in a transaction the statement is unsafe when the bit
    that the comment on the map assigns to the setting of
    [--binlog-direct-non-trans-updates], the state of the transaction cache and the
    isolation level is set in the entry of the accessed tables; and below REPEATABLE
    READ it is also unsafe, in a transaction or not, when it reads a transactional
    table and writes a (temporary or other) non-transactional one. *)
Lemma mixed_stmt_unsafe_exact map_ in_trx direct not_empty iso s :
  length map_ = 256%nat -> in_u 8 (stmt_accessed_table_flag s) ->
  exists entry, map_ !! Z.to_nat (stmt_accessed_table_flag s) = Some entry /\
    is_mixed_stmt_unsafe map_ in_trx direct not_empty iso s =
      Some (in_trx && Z.testbit entry (condition_bit direct not_empty iso) ||
            (iso <? ISO_REPEATABLE_READ) && Z.testbit (stmt_accessed_table_flag s) STMT_READS_TRANS_TABLE &&
            (Z.testbit (stmt_accessed_table_flag s) STMT_WRITES_NON_TRANS_TABLE ||
             Z.testbit (stmt_accessed_table_flag s) STMT_WRITES_TEMP_NON_TRANS_TABLE)).
Proof.
  intros Hl Hf. destruct (lookup_lt_is_Some_2 map_ (Z.to_nat (stmt_accessed_table_flag s))) as [entry He].
  { rewrite Hl. unfold in_u in Hf. lia. }
  exists entry. split; [done|]. unfold is_mixed_stmt_unsafe. rewrite condition_mask, He.
  assert (0 <= condition_bit direct not_empty iso) by (unfold condition_bit; repeat case_match; lia).
  unfold stmt_accessed_table, STMT_WRITES_NON_TRANS_TABLE, STMT_READS_TRANS_TABLE, STMT_WRITES_TEMP_NON_TRANS_TABLE.
  cbn [access_ok Z.leb Z.ltb Z.compare andb]. rewrite !shl_1, !nz_land_pow2 by lia.
  set (b1 := Z.testbit _ 5). set (b2 := Z.testbit _ 0). set (b3 := Z.testbit _ 7). set (b4 := iso <? _).
  clearbody b1 b2 b3 b4. destruct in_trx; cbn [mbind option_bind andb]; rewrite ?nz_land_pow2 by lia; f_equal.
  - generalize (Z.testbit entry (condition_bit direct not_empty iso)). intros b5. by destruct b1, b2, b3, b4, b5.
  - by destruct b1, b2, b3, b4.
Qed.
