(* ===== verification/Session.v ===== *)
(** Sessions: inline parts of the class [THD] and its helpers in
    [mariadb/include/mysql/server/private/sql_class.h].

    [Clock] is the time of a statement ([set_time] and [set_system_time]); [Async] is
    [thd_async_state], the count of operations that must end before the answer is
    sent; [Kill] is the kill state; [Settings] collects the choices a session makes
    for a statement (binary log format, timeouts, insert ids); [Names] is
    [quote_unescape]. *)

From S2P Require Import Prelude Handler.

(** ** The time of a statement *)

Module Clock.

Definition HRTIME_RESOLUTION : Z := 1000000.
Definition TIME_MAX_SECOND_PART : Z := 999999.
Definition SECTIME_NO : Z := 0.
Definition SECTIME_SUPER : Z := 1.
Definition SECTIME_REPL : Z := 2.
Definition SECTIME_YES : Z := 3.

(** [long_bits] is the width of [long] (of [my_time_t] and, unsigned, of [ulong]). *)
Section clock.
Context (long_bits : Z).

Definition hrtime_to_my_time (x : Z) : Z := wrapS long_bits (x / HRTIME_RESOLUTION).
Definition hrtime_sec_part (x : Z) : Z := wrapU long_bits (x mod HRTIME_RESOLUTION).
Definition hrtime_from_time (x : Z) : Z := u64 (u64 x * HRTIME_RESOLUTION).

Record state := MkClock {
  system_start : Z;
  system_sec : Z;
  system_sec_part : Z;
  user_time : Z;
  start_time : Z;
  start_time_sec_part : Z;
  start_utime : Z;
  utime_after_lock : Z;
}.

Definition with_system (start sec sec_part : Z) (s : state) : state :=
  MkClock start sec sec_part (user_time s) (start_time s) (start_time_sec_part s) (start_utime s) (utime_after_lock s).
Definition with_start_time (t p : Z) (s : state) : state :=
  MkClock (system_start s) (system_sec s) (system_sec_part s) (user_time s) t p (start_utime s) (utime_after_lock s).
Definition with_user_time (t : Z) (s : state) : state :=
  MkClock (system_start s) (system_sec s) (system_sec_part s) t (start_time s) (start_time_sec_part s) (start_utime s) (utime_after_lock s).
Definition with_utime (t : Z) (s : state) : state :=
  MkClock (system_start s) (system_sec s) (system_sec_part s) (user_time s) (start_time s) (start_time_sec_part s) t t.

(** [hrtime] is the reading of [my_hrtime], [utime] that of the interval timer. *)
Definition set_system_time (hrtime : Z) (s : state) : state :=
  let sec := hrtime_to_my_time hrtime in
  let sec_part := hrtime_sec_part hrtime in
  if (sec >? system_sec s) || ((sec =? system_sec s) && (sec_part >? system_sec_part s)) || (hrtime <? system_start s)
  then with_system hrtime sec sec_part s
  else if system_sec_part s <? TIME_MAX_SECOND_PART
  then with_system (system_start s) (system_sec s) (wrapU long_bits (system_sec_part s + 1)) s
  else with_system (system_start s) (wrapS long_bits (system_sec s + 1)) 0 s.
Definition set_start_time (hrtime : Z) (s : state) : state :=
  if nz (user_time s) then with_start_time (hrtime_to_my_time (user_time s)) (hrtime_sec_part (user_time s)) s
  else let s' := set_system_time hrtime s in with_start_time (system_sec s') (system_sec_part s') s'.
Definition set_time (hrtime utime : Z) (s : state) : state := with_utime utime (set_start_time hrtime s).
(** [SET @@timestamp]. *)
Definition set_time_user (t hrtime utime : Z) (s : state) : state := set_time hrtime utime (with_user_time t s).
Definition force_set_time (t sec_part : Z) (s : state) : state :=
  with_start_time t sec_part (with_system (system_start s) t sec_part s).
(** [set_time(t, sec_part)] of replication and the BINLOG command. *)
Definition set_time_replicated (opt_secure_timestamp : Z) (slave_thread : bool) (t sec_part hrtime utime : Z) (s : state) : state :=
  if opt_secure_timestamp >? (if slave_thread then SECTIME_REPL else SECTIME_SUPER) then set_time hrtime utime s
  else
    let s1 :=
      if sec_part <=? TIME_MAX_SECOND_PART then force_set_time t sec_part s
      else if negb (t =? system_sec s) then force_set_time t 0 s
      else
        let p := wrapU long_bits (system_sec_part s + 1) in
        with_start_time t p (with_system (system_start s) (system_sec s) p s) in
    with_utime utime (with_user_time (u64 (hrtime_from_time (start_time s1) + start_time_sec_part s1)) s1).
End clock.
End Clock.

(** ** Operations that must end before the answer *)

Module Async.

Inductive enum_async_state := NONE | SUSPENDED | RESUMED.
#[export] Instance async_state_eq_dec : EqDecision enum_async_state.
Proof. solve_decision. Defined.

Record thd_async_state := MkAsync { m_state : enum_async_state; m_pending_ops : Z }.
Definition initial : thd_async_state := MkAsync NONE 0.

(** Each method runs under the mutex; [None] is a failed assertion. *)
Definition try_suspend (s : thd_async_state) : option (bool * thd_async_state) :=
  if negb (bool_decide (m_state s = NONE)) || (m_pending_ops s <? 0) then None
  else if nz (m_pending_ops s) then Some (true, MkAsync SUSPENDED (m_pending_ops s))
  else Some (false, s).
Definition inc_pending_ops (s : thd_async_state) : thd_async_state :=
  MkAsync (m_state s) (wrapS 32 (m_pending_ops s + 1)).
(** The new count, the state seen, and whether the condition was signalled. *)
Definition dec_pending_ops (s : thd_async_state) : Z * enum_async_state * bool * thd_async_state :=
  let ret := wrapS 32 (m_pending_ops s - 1) in
  (ret, m_state s, ret =? 0, MkAsync (m_state s) ret).
Definition pending_ops (s : thd_async_state) : Z := m_pending_ops s.

(** The session's thread in [wait_for_pending_ops]: outside, past the unlocked check,
    asleep on the condition, woken (it must take the mutex again), returned. *)
Inductive waiter := Outside | Checked | Asleep | Woken | Returned.
#[export] Instance waiter_eq_dec : EqDecision waiter.
Proof. solve_decision. Defined.
Record system := MkSystem { async : thd_async_state; thread : waiter }.

(** One step of the session's thread in [wait_for_pending_ops]. *)
Definition wait_step (y : system) : option system :=
  match thread y with
  | Outside => Some (MkSystem (async y) (if nz (pending_ops (async y)) then Checked else Returned))
  | Checked | Woken =>
      if m_pending_ops (async y) <? 0 then None
      else Some (MkSystem (async y) (if nz (m_pending_ops (async y)) then Asleep else Returned))
  | Asleep => None
  | Returned => None
  end.

(** The interleavings: the session begins operations while it runs its statement, any
    thread ends one, the session waits; a sleeping thread can wake without a signal.
    [Again] is the next statement after the wait. *)
Inductive step : system -> system -> Prop :=
  | Begin y : thread y = Outside -> m_pending_ops (async y) < 2 ^ 31 - 1 ->
      step y (MkSystem (inc_pending_ops (async y)) Outside)
  | Finish y r st sig s' : 0 < m_pending_ops (async y) -> dec_pending_ops (async y) = (r, st, sig, s') ->
      step y (MkSystem s' (if sig : bool then match thread y with Asleep => Woken | w => w end else thread y))
  | Wait y y' : wait_step y = Some y' -> step y y'
  | Spurious y : thread y = Asleep -> step y (MkSystem (async y) Woken)
  | Again y : thread y = Returned -> step y (MkSystem (async y) Outside).

(** [n] operations end one after the other: the results of [dec_pending_ops]. *)
Fixpoint finish (n : nat) (s : thd_async_state) : list (Z * enum_async_state) * thd_async_state :=
  match n with
  | O => ([], s)
  | S n => let '(r, st, _, s1) := dec_pending_ops s in let '(rs, s2) := finish n s1 in ((r, st) :: rs, s2)
  end.
End Async.

(** ** Killing a session *)

Module Kill.

Definition NOT_KILLED : Z := 0.
Definition KILL_HARD_BIT : Z := 1.
Definition KILL_BAD_DATA : Z := 2.
Definition KILL_QUERY : Z := 4.
Definition ABORT_QUERY : Z := 6.
Definition KILL_TIMEOUT : Z := 8.
Definition KILL_SLAVE_SAME_ID : Z := 10.
Definition KILL_CONNECTION : Z := 12.
Definition KILL_SYSTEM_THREAD : Z := 14.
Definition KILL_SERVER : Z := 16.
Definition KILL_WAIT_TIMEOUT : Z := 18.
Definition KILL_WAIT_TIMEOUT_HARD : Z := 19.
Definition killed_mask_hard (killed : Z) : Z := Z.land killed (Z.lnot KILL_HARD_BIT).

(** [killed_err] is the recorded error number with its message (as [strmake] cuts it
    to the size of its buffer). *)
Record state {M} := MkKill { killed : Z; killed_err : option (Z * M) }.
Arguments state : clear implicits.

Section kill.
Context {M : Type}.
(** [allocates] tells whether [my_malloc] returns memory. *)
Definition set_killed_no_mutex (allocates : bool) (killed_arg killed_errno_arg : Z) (killed_err_msg_arg : M) (s : state M) : state M :=
  if killed s <=? killed_arg then
    MkKill _ killed_arg
      (if nz killed_errno_arg then
         match killed_err s with
         | Some _ => Some (killed_errno_arg, killed_err_msg_arg)
         | None => if allocates then Some (killed_errno_arg, killed_err_msg_arg) else None
         end
       else killed_err s)
  else s.
(** [reset_killed], which is not in the header, is a parameter, here together with the
    clearing of [mysys_var->abort]. *)
Definition reset_kill_query (reset_killed : state M -> state M) (s : state M) : state M :=
  if killed s <? KILL_CONNECTION then reset_killed s else s.
(** [check_limit_rows_examined]: the counter and the kill state. *)
Definition check_limit_rows_examined (limit_rows_examined_cnt : Z) (msg : M) (accessed : Z) (s : state M) : Z * state M :=
  let n := u64 (accessed + 1) in
  (n, if n >? limit_rows_examined_cnt then set_killed_no_mutex true ABORT_QUERY 0 msg s else s).
End kill.
End Kill.

(** ** Choices for a statement *)

Module Settings.

Definition BINLOG_FORMAT_MIXED : Z := 0.
Definition BINLOG_FORMAT_STMT : Z := 1.
Definition BINLOG_FORMAT_ROW : Z := 2.
Definition OPTION_BIN_LOG : Z := 2 ^ 18.
Definition OPTION_NOT_AUTOCOMMIT : Z := 2 ^ 19.
Definition OPTION_BEGIN : Z := 2 ^ 20.

(** The format for the statement; [configured] is [wsrep_binlog_format] of the
    session's variable. *)
Definition set_current_stmt_binlog_format_row_if_mixed (configured : Z) (in_sub_stmt : Z) (current : Z) : Z :=
  if (configured =? BINLOG_FORMAT_MIXED) && (in_sub_stmt =? 0) then BINLOG_FORMAT_ROW else current.
Definition reset_current_stmt_binlog_format_row (configured : Z) (in_sub_stmt : Z) (has_temporary_tables : bool) (current : Z) : Z :=
  if in_sub_stmt =? 0 then
    if configured =? BINLOG_FORMAT_ROW then BINLOG_FORMAT_ROW
    else if negb has_temporary_tables then BINLOG_FORMAT_STMT else current
  else current.
(** The old format and the new one. *)
Definition set_current_stmt_binlog_format_stmt (current : Z) : Z * Z := (current, BINLOG_FORMAT_STMT).
Definition restore_stmt_binlog_format (format current : Z) : option Z :=
  if current =? BINLOG_FORMAT_ROW then None else Some format.
Definition set_binlog_bit (sql_log_bin : bool) (option_bits : Z) : Z :=
  if sql_log_bin then Z.lor option_bits OPTION_BIN_LOG else Z.land option_bits (bnot 64 OPTION_BIN_LOG).
Definition in_multi_stmt_transaction_mode (option_bits : Z) : bool :=
  nz (Z.land option_bits (Z.lor OPTION_NOT_AUTOCOMMIT OPTION_BEGIN)).

(** The insert ids of the statement. *)
Record insert_ids := MkIds {
  first_successful_insert_id_in_prev_stmt : Z;
  first_successful_insert_id_in_prev_stmt_for_binlog : Z;
  first_successful_insert_id_in_cur_stmt : Z;
  stmt_depends_on_first_successful_insert_id_in_prev_stmt : bool;
}.
Definition record_first_successful_insert_id_in_cur_stmt (id_arg : Z) (i : insert_ids) : insert_ids :=
  if first_successful_insert_id_in_cur_stmt i =? 0
  then MkIds (first_successful_insert_id_in_prev_stmt i) (first_successful_insert_id_in_prev_stmt_for_binlog i) id_arg
         (stmt_depends_on_first_successful_insert_id_in_prev_stmt i)
  else i.
Definition read_first_successful_insert_id_in_prev_stmt (i : insert_ids) : Z * insert_ids :=
  (first_successful_insert_id_in_prev_stmt i,
   if stmt_depends_on_first_successful_insert_id_in_prev_stmt i then i
   else MkIds (first_successful_insert_id_in_prev_stmt i) (first_successful_insert_id_in_prev_stmt i)
          (first_successful_insert_id_in_cur_stmt i) true).

(** The two transactions of a session: of the statement and of all statements. *)
Definition really_abort_on_warning (abort_on_warning strict_all_tables : bool) (stmt : Trx.THD_TRANS) : bool :=
  abort_on_warning && (negb (Trx.modified_non_trans_table stmt) || strict_all_tables).
Definition merged_flags : Z :=
  Z.lor (Z.lor (Z.lor (Z.lor (Z.lor (Trx.unsafe_flag Trx.MODIFIED_NON_TRANS_TABLE) (Trx.unsafe_flag Trx.DID_WAIT))
    (Trx.unsafe_flag Trx.CREATED_TEMP_TABLE)) (Trx.unsafe_flag Trx.DROPPED_TEMP_TABLE)) (Trx.unsafe_flag Trx.DID_DDL))
    (Trx.unsafe_flag Trx.EXECUTED_TABLE_ADMIN_CMD).
(** The new transaction of all statements. *)
Definition merge_unsafe_rollback_flags (stmt all : Trx.THD_TRANS) : Trx.THD_TRANS :=
  Trx.MkTrans (Trx.no_2pc all) (Trx.ha_list all)
    (if Trx.modified_non_trans_table stmt then true else Trx.modified_non_trans_table all)
    (Z.lor (Trx.m_unsafe_rollback_flags all) (Z.land (Trx.m_unsafe_rollback_flags stmt) merged_flags)).
Record timeouts := MkTimeouts {
  idle_write_transaction_timeout : Z;
  idle_readonly_transaction_timeout : Z;
  idle_transaction_timeout : Z;
  net_wait_timeout : Z;
}.
(** [active] is [in_active_multi_stmt_transaction], [read_write] is
    [transaction->all.is_trx_read_write()]. *)
Definition get_net_wait_timeout (active read_write : bool) (v : timeouts) : Z :=
  if active then
    if read_write && (idle_write_transaction_timeout v >? 0) then idle_write_transaction_timeout v
    else if negb read_write && (idle_readonly_transaction_timeout v >? 0) then idle_readonly_transaction_timeout v
    else if idle_transaction_timeout v >? 0 then idle_transaction_timeout v
    else net_wait_timeout v
  else net_wait_timeout v.
End Settings.

(** ** Quoted names *)

Module Names.
(** [quote_unescape]: the bytes written to [dst] before the closing zero; the byte
    after a quote is skipped. *)
Fixpoint unescape (quote : Z) (src : list Z) : list Z :=
  match src with
  | [] => []
  | c :: src' => c :: (if c =? quote then match src' with [] => [] | _ :: src'' => unescape quote src'' end
                       else unescape quote src')
  end.
End Names.

(** ** The clock of a session *)

Module ClockProps.
Import Clock.
Section props.
Context (long_bits : Z) (Hlong : 32 <= long_bits).

(** A time as a number of microseconds. *)
Definition instant (sec part : Z) : Z := sec * HRTIME_RESOLUTION + part.
Definition system_instant (s : state) : Z := instant (system_sec s) (system_sec_part s).

(** The fraction is one, and the seconds are not at the end of their type. *)
Definition clock_ok (s : state) : Prop :=
  0 <= system_sec_part s <= TIME_MAX_SECOND_PART /\ 0 <= system_sec s < 2 ^ (long_bits - 1) - 1.
Definition reading_ok (h : Z) : Prop := 0 <= h / HRTIME_RESOLUTION < 2 ^ (long_bits - 1) - 1.

Lemma long_pow : 2 ^ 32 <= 2 ^ long_bits /\ 2 ^ 31 <= 2 ^ (long_bits - 1).
Proof using Hlong. split; apply Z.pow_le_mono_r; lia. Qed.

(** [set_system_time] in one equation: the clock's reading when it is later than the
    last time given out, or when the clock was set back; else the next microsecond. *)
Lemma set_system_time_instant h s :
  clock_ok s -> reading_ok h ->
  let s' := set_system_time long_bits h s in
  system_instant s' = (if (h >? system_instant s) || (h <? system_start s) then h else system_instant s + 1) /\
  system_start s' = (if (h >? system_instant s) || (h <? system_start s) then h else system_start s) /\
  0 <= system_sec_part s' <= TIME_MAX_SECOND_PART /\ 0 <= system_sec s' /\
  user_time s' = user_time s.
Proof using Hlong.
  intros (Hp & Hs) Hh. pose proof long_pow as [Hl1 Hl2]. unfold set_system_time, hrtime_to_my_time, hrtime_sec_part.
  unfold reading_ok in Hh. pose proof (Z.div_mod h HRTIME_RESOLUTION ltac:(done)) as Hdm.
  pose proof (Z.mod_pos_bound h HRTIME_RESOLUTION ltac:(done)) as Hm.
  set (q := h / HRTIME_RESOLUTION) in *. set (r := h mod HRTIME_RESOLUTION) in *.
  unfold TIME_MAX_SECOND_PART, HRTIME_RESOLUTION in *.
  rewrite (wrapS_small long_bits q) by (unfold in_s; lia). rewrite (wrapU_small long_bits r) by (unfold in_u; lia).
  assert (Hcond : (q >? system_sec s) || ((q =? system_sec s) && (r >? system_sec_part s)) || (h <? system_start s) =
                  (h >? system_instant s) || (h <? system_start s)).
  { unfold system_instant, instant, HRTIME_RESOLUTION. f_equal. lia. }
  rewrite Hcond. destruct ((h >? system_instant s) || (h <? system_start s)).
  - unfold system_instant, instant, HRTIME_RESOLUTION; cbn. lia.
  - destruct (Z.ltb_spec (system_sec_part s) 999999); unfold system_instant, instant, HRTIME_RESOLUTION; cbn.
    + rewrite wrapU_small by (unfold in_u; lia). lia.
    + rewrite wrapS_small by (unfold in_s; lia). lia.
Qed.

(** The times given to the statements that start at the readings [hs]. *)
Fixpoint statements (hs : list Z) (s : state) : list Z :=
  match hs with
  | [] => []
  | h :: hs' =>
      let s' := set_start_time long_bits h s in
      instant (start_time s') (start_time_sec_part s') :: statements hs' s'
  end.

(** Without a time set by the user the statement gets the system time. *)
Lemma start_time_system h s :
  user_time s = 0 -> clock_ok s -> reading_ok h ->
  let s' := set_start_time long_bits h s in
  instant (start_time s') (start_time_sec_part s') = system_instant s' /\
  system_instant s' = (if (h >? system_instant s) || (h <? system_start s) then h else system_instant s + 1) /\
  system_start s' = (if (h >? system_instant s) || (h <? system_start s) then h else system_start s) /\
  0 <= system_sec_part s' <= TIME_MAX_SECOND_PART /\ 0 <= system_sec s' /\ user_time s' = 0.
Proof using Hlong.
  intros Hu Hs Hh. unfold set_start_time. rewrite Hu. cbn [nz negb Z.eqb].
  destruct (set_system_time_instant h s Hs Hh) as (E1 & E2 & E3 & E4 & E5). cbv zeta.
  unfold system_instant in *. cbn [start_time start_time_sec_part system_sec system_sec_part system_start user_time with_start_time].
  split_and!; [done..| | | | |]; try done; [lia|lia|]. by rewrite E5.
Qed.

(** The microseconds that [my_time_t] can hold. *)
Definition end_of_time : Z := (2 ^ (long_bits - 1) - 1) * HRTIME_RESOLUTION.
Lemma before_end_reading h : 0 <= h < end_of_time -> reading_ok h.
Proof.
  unfold end_of_time, reading_ok. intros Hh. split; [apply Z.div_pos; [lia|done]|].
  apply Z.div_lt_upper_bound; [done|]. lia.
Qed.
Lemma before_end_clock s :
  0 <= system_sec_part s <= TIME_MAX_SECOND_PART -> 0 <= system_sec s -> system_instant s < end_of_time -> clock_ok s.
Proof.
  unfold end_of_time, clock_ok, system_instant, instant, HRTIME_RESOLUTION. intros Hp Hs Hi. split; [done|]. lia.
Qed.

Lemma statements_increase hs : forall s,
  user_time s = 0 -> 0 <= system_sec_part s <= TIME_MAX_SECOND_PART -> 0 <= system_sec s ->
  StronglySorted Z.le (system_start s :: hs) -> Forall (fun h => 0 <= h /\ h + Z.of_nat (length hs) < end_of_time) hs ->
  system_instant s + Z.of_nat (length hs) < end_of_time ->
  StronglySorted Z.lt (system_instant s :: statements hs s) /\ Forall2 Z.le hs (statements hs s).
Proof using Hlong.
  induction hs as [|h hs IH]; intros s Hu Hp Hs Hsorted Hf Hi; cbn [statements].
  { split; [repeat constructor|constructor]. }
  apply StronglySorted_inv in Hsorted as [Hsorted Hall].
  apply Forall_cons in Hf as [[Hh0 Hh] Hf]. apply Forall_cons in Hall as [Hle Hall].
  cbn [length] in *. rewrite Nat2Z.inj_succ in *.
  destruct (start_time_system h s Hu) as (E & Ei & Es & Ep & Esec & Eu);
    [apply before_end_clock; (done || lia)|apply before_end_reading; lia|].
  cbv zeta in *. set (s' := set_start_time long_bits h s) in *. rewrite E.
  replace (h <? system_start s) with false in Ei, Es by lia. rewrite orb_false_r in Ei, Es.
  assert (Hgt : system_instant s < system_instant s' /\ h <= system_instant s').
  { rewrite Ei. destruct (Z.gtb_spec h (system_instant s)); lia. }
  assert (Hend : system_instant s' + Z.of_nat (length hs) < end_of_time).
  { rewrite Ei. destruct (Z.gtb_spec h (system_instant s)); lia. }
  assert (Hst : system_start s' <= h).
  { rewrite Es. destruct (Z.gtb_spec h (system_instant s)); lia. }
  destruct (IH s') as [Hlt Hge]; try done.
  - apply StronglySorted_inv in Hsorted as [Hsorted Hall2]. constructor; [done|].
    eapply Forall_impl; [exact Hall2|]. intros x Hx. cbn in Hx. lia.
  - eapply Forall_impl; [exact Hf|]. intros x [Hx0 Hx]. lia.
  - split.
    + constructor; [exact Hlt|]. constructor; [lia|].
      apply StronglySorted_inv in Hlt as [_ Hlt]. eapply Forall_impl; [exact Hlt|]. intros x Hx. cbn in Hx. lia.
    + constructor; [lia|done].
Qed.

(** C23 : the times of the statements of a session.  As long as the clock is not set
    back, no time is set by the user and the times fit [my_time_t], the statements of
    a session get strictly increasing times that are never before the clock's reading
    at their start, however many start in one microsecond.  When the clock is set
    back behind the last reading that was used, the next statement gets the clock's
    time; a time set by the user is given to every statement. *)
Theorem statement_times_increase hs s :
  0 <= system_sec_part s <= TIME_MAX_SECOND_PART -> 0 <= system_sec s ->
  Forall (fun h => 0 <= h /\ h + Z.of_nat (length hs) < end_of_time) hs ->
  system_instant s + Z.of_nat (length hs) < end_of_time ->
  (user_time s = 0 -> StronglySorted Z.le (system_start s :: hs) ->
   StronglySorted Z.lt (system_instant s :: statements hs s) /\ Forall2 Z.le hs (statements hs s)) /\
  (user_time s = 0 -> forall h, 0 <= h < system_start s -> h < end_of_time ->
     let s' := set_start_time long_bits h s in
     instant (start_time s') (start_time_sec_part s') = h /\ system_instant s' = h /\ system_start s' = h) /\
  (forall t h utime, 0 < t < end_of_time ->
     let s' := set_time_user long_bits t h utime s in
     instant (start_time s') (start_time_sec_part s') = t /\ system_instant s' = system_instant s /\
     start_utime s' = utime /\ utime_after_lock s' = utime).
Proof using Hlong.
  intros Hp Hs Hf Hi. split_and!.
  - intros Hu Hsorted. by apply statements_increase.
  - intros Hu h Hh Hend.
    destruct (start_time_system h s Hu) as (E & Ei & Es & _); [apply before_end_clock; (done || lia)|apply before_end_reading; lia|].
    cbv zeta. rewrite E, Ei, Es. replace (h <? system_start s) with true by lia. by rewrite orb_true_r.
  - intros t h utime Ht. unfold set_time_user, set_time, set_start_time.
    cbn [user_time with_user_time]. assert (nz t = true) as -> by (apply nz_true; lia).
    split_and!; [|done..]. cbn [start_time start_time_sec_part with_utime with_start_time].
    pose proof (before_end_reading t ltac:(lia)) as Hr. unfold reading_ok in Hr. pose proof long_pow.
    unfold hrtime_to_my_time, hrtime_sec_part. pose proof (Z.div_mod t HRTIME_RESOLUTION ltac:(done)) as Hdm.
    pose proof (Z.mod_pos_bound t HRTIME_RESOLUTION ltac:(done)) as Hm. unfold HRTIME_RESOLUTION in Hm.
    rewrite wrapS_small by (unfold in_s; lia). rewrite wrapU_small by (unfold in_u, HRTIME_RESOLUTION in *; lia).
    unfold instant. lia.
Qed.

(** Replicated times.  A time from the binary log is taken as it is; a time without
    fraction gets fraction 0 in a new second and the next microsecond in the second
    of the last one, but without a carry: after the last microsecond of a second the
    fraction is one million. *)
Lemma replicated_times secure (slave : bool) t part h utime s :
  (secure >? (if slave then SECTIME_REPL else SECTIME_SUPER)) = false ->
  let s' := set_time_replicated long_bits secure slave t part h utime s in
  (part <= TIME_MAX_SECOND_PART -> start_time s' = t /\ start_time_sec_part s' = part) /\
  (TIME_MAX_SECOND_PART < part -> t <> system_sec s -> start_time s' = t /\ start_time_sec_part s' = 0) /\
  (TIME_MAX_SECOND_PART < part -> t = system_sec s -> 0 <= system_sec_part s <= TIME_MAX_SECOND_PART ->
     start_time s' = t /\ start_time_sec_part s' = system_sec_part s + 1).
Proof using Hlong.
  intros Hsec. pose proof long_pow. unfold set_time_replicated. rewrite Hsec. cbv zeta. split_and!.
  - intros Hp. replace (part <=? TIME_MAX_SECOND_PART) with true by lia. done.
  - intros Hp Ht. replace (part <=? TIME_MAX_SECOND_PART) with false by lia.
    replace (t =? system_sec s) with false by lia. done.
  - intros Hp -> Hm. replace (part <=? TIME_MAX_SECOND_PART) with false by lia. rewrite Z.eqb_refl. cbn.
    split; [done|]. apply wrapU_small. unfold in_u, TIME_MAX_SECOND_PART in *. lia.
Qed.
End props.
Lemma replicated_fraction_overflows :
  exists s, start_time_sec_part s = 999999 /\ system_sec_part s = 999999 /\
    start_time_sec_part (set_time_replicated 64 SECTIME_NO true (system_sec s) 1000000 0 0 s) = 1000000.
Proof. exists (MkClock 0 1700000000 999999 0 1700000000 999999 0 0). by vm_compute. Qed.

Lemma statement_times_increase_witness :
  let s := MkClock 0 0 0 0 0 0 0 0 in
  StronglySorted Z.lt (0 :: statements 32 [1700000000000000; 1700000000000000; 1700000000000001] s) /\
  statements 32 [1700000000000000; 1700000000000000; 1700000000000001] s =
    [1700000000000000; 1700000000000001; 1700000000000002].
Proof.
  intros s.
  destruct (statement_times_increase 32 ltac:(lia) [1700000000000000; 1700000000000000; 1700000000000001] s)
    as (H & _); [done|done|repeat constructor; done|done|].
  destruct H as [H _]; [done|repeat constructor; done|].
  split; [exact H|by vm_compute].
Defined.
End ClockProps.

(** ** Pending operations *)

Module AsyncProps.
Import Async.

Definition reachable : system -> Prop := rtc step (MkSystem initial Outside).

(** What holds between any two steps: the count is a number of operations, nobody is
    asleep when there is none, and a thread that returned saw none. *)
Definition async_inv (y : system) : Prop :=
  0 <= m_pending_ops (async y) < 2 ^ 31 /\
  (thread y = Asleep -> 0 < m_pending_ops (async y)) /\
  (thread y = Returned -> m_pending_ops (async y) = 0) /\
  m_state (async y) = NONE.

Lemma dec_value s :
  0 < m_pending_ops s < 2 ^ 31 ->
  dec_pending_ops s = (m_pending_ops s - 1, m_state s, m_pending_ops s - 1 =? 0, MkAsync (m_state s) (m_pending_ops s - 1)).
Proof. intros. unfold dec_pending_ops. by rewrite wrapS_small by (unfold in_s; lia). Qed.

Lemma step_inv y y' : step y y' -> async_inv y -> async_inv y'.
Proof.
  intros Hs (Hp & Ha & Hr & Hst). destruct Hs as [y Ho Hlt|y r st sig s' Hpos Hd|y y' Hw|y Hy|y Hy].
  - unfold async_inv, inc_pending_ops; cbn. rewrite wrapS_small by (unfold in_s; lia). split_and!; [lia|lia|done..].
  - rewrite dec_value in Hd by lia. injection Hd as <- <- <- <-. unfold async_inv; cbn. split_and!; [lia|lia| | |done].
    + destruct (Z.eqb_spec (m_pending_ops (async y) - 1) 0); destruct (thread y) eqn:E; try done; lia.
    + intros Ht. destruct (Z.eqb_spec (m_pending_ops (async y) - 1) 0); [lia|].
      rewrite Hr in Hpos; [lia|]. by destruct (thread y).
  - unfold wait_step in Hw. destruct (thread y) eqn:E; try done.
    + injection Hw as <-. unfold async_inv, pending_ops; cbn. destruct (nz (m_pending_ops (async y))) eqn:En; split_and!; try done; try lia.
      by apply nz_false in En.
    + replace (m_pending_ops (async y) <? 0) with false in Hw by lia. injection Hw as <-. unfold async_inv; cbn.
      destruct (nz (m_pending_ops (async y))) eqn:En; split_and!; try done; try lia.
      * apply nz_true in En. lia.
      * by apply nz_false in En.
    + replace (m_pending_ops (async y) <? 0) with false in Hw by lia. injection Hw as <-. unfold async_inv; cbn.
      destruct (nz (m_pending_ops (async y))) eqn:En; split_and!; try done; try lia.
      * apply nz_true in En. lia.
      * by apply nz_false in En.
  - by unfold async_inv; cbn.
  - by unfold async_inv; cbn.
Qed.
Lemma steps_inv x y : rtc step x y -> async_inv x -> async_inv y.
Proof. induction 1 as [x|x y z Hs _ IH]; [tauto|]. intros Hi. apply IH. exact (step_inv x y Hs Hi). Qed.
Lemma reachable_inv y : reachable y -> async_inv y.
Proof. intros H. apply (steps_inv _ _ H). unfold async_inv; cbn. split_and!; [lia|lia|done..]. Qed.

(** When all operations have ended the waiting thread gets through in two steps. *)
Lemma drain n : forall y, async_inv y -> m_pending_ops (async y) = Z.of_nat n ->
  exists y', rtc step y y' /\ async_inv y' /\ m_pending_ops (async y') = 0 /\
    (thread y = Outside -> thread y' = Outside) /\ (thread y' = Asleep -> False).
Proof.
  induction n as [|n IH]; intros y Hi Hn.
  - exists y. split_and!; [apply rtc_refl|done|done|done|]. intros Ha. destruct Hi as (_ & H & _). specialize (H Ha). lia.
  - assert (Hd := dec_value (async y)). pose proof Hi as (Hp & _). rewrite Hn in Hp.
    specialize (Hd ltac:(lia)).
    assert (Hs : step y _) by (eapply Finish; [lia|exact Hd]).
    destruct (IH _ (step_inv _ _ Hs Hi)) as (y' & Hr & Hi2 & H0 & Ho & Hna); [cbn; lia|].
    exists y'. split_and!; [by eapply rtc_l|done|done| |done].
    intros Hy. apply Ho. cbn. rewrite Hy. by destruct (_ =? 0).
Qed.
Lemma thread_returns y : async_inv y -> m_pending_ops (async y) = 0 -> thread y <> Asleep ->
  exists y', rtc step y y' /\ thread y' = Returned.
Proof.
  intros Hi H0 Hna. destruct y as [s t]; cbn in *. 
  assert (W : forall t', t' = Checked \/ t' = Woken -> step (MkSystem s t') (MkSystem s Returned)).
  { intros t' Ht. apply Wait. unfold wait_step. destruct Ht as [-> | ->]; cbn; rewrite H0; done. }
  destruct t.
  - exists (MkSystem s Returned). split; [|done]. apply rtc_once, Wait. unfold wait_step, pending_ops; cbn. by rewrite H0.
  - exists (MkSystem s Returned). split; [apply rtc_once, W; by left|done].
  - done.
  - exists (MkSystem s Returned). split; [apply rtc_once, W; by right|done].
  - exists (MkSystem s Returned). by split.
Qed.

(** The operations of a session end one by one. *)
Lemma finish_all n : forall s, m_pending_ops s = Z.of_nat n -> Z.of_nat n < 2 ^ 31 ->
  finish n s = ((fun i => (Z.of_nat (n - 1 - i), m_state s)) <$> seq 0 n, MkAsync (m_state s) 0).
Proof.
  induction n as [|n IH]; intros [st p] Hp Hn; cbn in Hp; subst; [done|]. cbn [finish].
  rewrite dec_value by (cbn; lia). cbn [m_pending_ops m_state].
  rewrite IH by (cbn; lia). cbn [m_state seq]. rewrite fmap_cons, <- fmap_S_seq, <- list_fmap_compose.
  do 2 f_equal; [f_equal; lia|]. apply list_fmap_ext. intros i x _. cbn. do 2 f_equal. lia.
Qed.

(** C24 : pending operations.  In every interleaving of the session's thread with the
    threads that end operations, spurious wakeups included: the wait returns only
    when no operation is pending, no wakeup is lost (a sleeping thread has an
    operation left that will signal it), and from every reachable state the wait can
    return.  If [try_suspend] succeeds there is a pending operation and exactly one
    of the threads that end them, the last, finds a count of 0 and the state
    SUSPENDED, and so resumes the session; if it fails nothing is pending. *)
Theorem pending_operations y :
  reachable y ->
  (thread y = Returned -> m_pending_ops (async y) = 0) /\
  (thread y = Asleep -> 0 < m_pending_ops (async y)) /\
  (exists y', rtc step y y' /\ thread y' = Returned) /\
  (exists b s, try_suspend (async y) = Some (b, s) /\
     (b = false -> s = async y /\ m_pending_ops s = 0) /\
     (b = true -> exists n : nat, m_pending_ops s = Z.of_nat n /\ (0 < n)%nat /\
        length (finish n s).1 = n /\
        forall (i : nat) k st, (finish n s).1 !! i = Some (k, st) -> st = SUSPENDED /\ (k = 0 <-> i = (n - 1)%nat))).
Proof.
  intros Hr%reachable_inv. pose proof Hr as (Hp & Ha & Hret & Hst). split_and!; [done|done| |].
  - destruct (drain (Z.to_nat (m_pending_ops (async y))) y Hr ltac:(lia)) as (y1 & H1 & Hi & H0 & _ & Hna).
    destruct (thread_returns y1 Hi H0) as (y2 & H2 & Ht); [done|]. exists y2. split; [by etrans|done].
  - unfold try_suspend. rewrite Hst, bool_decide_true by done. cbn [negb orb].
    replace (m_pending_ops (async y) <? 0) with false by lia.
    destruct (nz (m_pending_ops (async y))) eqn:En.
    + apply nz_true in En. eexists true, _. split; [reflexivity|]. split; [done|]. intros _.
      exists (Z.to_nat (m_pending_ops (async y))). cbn [m_pending_ops].
      rewrite finish_all by (cbn; lia). cbn [fst m_state]. split_and!; [lia|lia| |].
      * by rewrite length_fmap, length_seq.
      * intros i k st (x & [= -> ->] & [-> Hx]%lookup_seq)%list_lookup_fmap_Some. split; [done|lia].
    + apply nz_false in En. eexists false, _. split; [reflexivity|]. split; [done|discriminate].
Qed.
Lemma pending_operations_witness :
  let y := MkSystem (MkAsync NONE 1) Outside in
  reachable y /\ exists y', rtc step y y' /\ thread y' = Returned.
Proof.
  intros y. assert (Hr : reachable y).
  { eapply rtc_l; [|apply rtc_refl]. exact (Begin (MkSystem initial Outside) eq_refl ltac:(cbn; lia)). }
  split; [exact Hr|]. exact (proj1 (proj2 (proj2 (pending_operations y Hr)))).
Defined.
End AsyncProps.

(** ** Kill levels *)

Module KillProps.
Import Kill.
Section props.
Context {M : Type}.
Implicit Types s : state M.

(** A series of kills: levels with their error numbers and messages. *)
Definition kills (ks : list (Z * Z * M)) (s : state M) : state M :=
  fold_left (fun s '(k, e, m) => set_killed_no_mutex true k e m s) ks s.

(** The session is killed at the highest level it was killed with, and a kill never
    lowers it; the message kept is the one of the last kill with an error number
    that was not below the level reached before it. *)
Lemma killed_level ks s :
  killed (kills ks s) = fold_left Z.max (map (fun k => k.1.1) ks) (killed s).
Proof.
  revert s. induction ks as [|[[k e] m] ks IH]; intros s; [done|]. cbn [kills fold_left map fst].
  change (fold_left _ ks (set_killed_no_mutex true k e m s)) with (kills ks (set_killed_no_mutex true k e m s)).
  rewrite IH. f_equal. unfold set_killed_no_mutex. destruct (Z.leb_spec (killed s) k); cbn; lia.
Qed.
Lemma kill_message k e m s :
  e <> 0 ->
  killed_err (set_killed_no_mutex true k e m s) = (if killed s <=? k then Some (e, m) else killed_err s) /\
  killed_err (set_killed_no_mutex false k e m s) =
    (if (killed s <=? k) && bool_decide (is_Some (killed_err s)) then Some (e, m) else killed_err s).
Proof.
  intros He%nz_true. unfold set_killed_no_mutex. rewrite He.
  destruct (killed s <=? k); cbn; [|done]. by destruct (killed_err s).
Qed.
(** A kill of the query can be reset, one of the connection cannot; LIMIT ROWS
    EXAMINED aborts the query as soon as the limit is passed, and no kill of the
    connection is replaced by that. *)
Lemma kill_query_reset f s :
  (killed s < KILL_CONNECTION -> reset_kill_query f s = f s) /\ (KILL_CONNECTION <= killed s -> reset_kill_query f s = s).
Proof. unfold reset_kill_query. split; intros; destruct (Z.ltb_spec (killed s) KILL_CONNECTION); done || lia. Qed.
Lemma limit_rows_examined_aborts limit msg n s :
  0 <= n < 2 ^ 64 - 1 ->
  check_limit_rows_examined limit msg n s =
    (n + 1, if limit <=? n then set_killed_no_mutex true ABORT_QUERY 0 msg s else s) /\
  (KILL_CONNECTION <= killed s -> (check_limit_rows_examined limit msg n s).2 = s).
Proof.
  intros Hn. unfold check_limit_rows_examined. rewrite wrapU_small by (unfold in_u; lia).
  replace (n + 1 >? limit) with (limit <=? n) by lia. split; [done|]. cbn. intros Hk.
  unfold set_killed_no_mutex, ABORT_QUERY, KILL_CONNECTION in *. destruct (limit <=? n); [|done].
  by destruct (Z.leb_spec (killed s) 6); [lia|].
Qed.
End props.
Lemma killed_mask_hard_levels k :
  0 <= k -> killed_mask_hard (2 * k) = 2 * k /\ killed_mask_hard (2 * k + 1) = 2 * k.
Proof.
  intros Hk. unfold killed_mask_hard, KILL_HARD_BIT. split; apply Z.bits_inj'; intros i Hi;
    rewrite Z.land_spec, Z.lnot_spec, testbit_1 by lia.
  - destruct (Z.eqb_spec i 0) as [->|]; [by rewrite Z.testbit_even_0|btauto].
  - destruct (Z.eqb_spec i 0) as [->|]; [rewrite Z.testbit_even_0; btauto|].
    replace i with (Z.succ (i - 1)) by lia. rewrite Z.testbit_odd_succ, Z.testbit_even_succ by lia. btauto.
Qed.
End KillProps.

(** ** Settings *)

Module SettingsProps.
Import Settings.

(** Inside a sub-statement the format never changes; outside one, a mixed session goes
    back to statements unless it has temporary tables. *)
Lemma binlog_format_sub_stmt configured n has cur :
  n <> 0 -> set_current_stmt_binlog_format_row_if_mixed configured n cur = cur /\
            reset_current_stmt_binlog_format_row configured n has cur = cur.
Proof.
  intros Hn. unfold set_current_stmt_binlog_format_row_if_mixed, reset_current_stmt_binlog_format_row.
  replace (n =? 0) with false by lia. by rewrite andb_false_r.
Qed.
Lemma binlog_format_mixed has cur :
  set_current_stmt_binlog_format_row_if_mixed BINLOG_FORMAT_MIXED 0 cur = BINLOG_FORMAT_ROW /\
  reset_current_stmt_binlog_format_row BINLOG_FORMAT_MIXED 0 has cur = (if has then cur else BINLOG_FORMAT_STMT) /\
  reset_current_stmt_binlog_format_row BINLOG_FORMAT_ROW 0 has cur = BINLOG_FORMAT_ROW /\
  set_current_stmt_binlog_format_row_if_mixed BINLOG_FORMAT_STMT 0 cur = cur.
Proof. by destruct has. Qed.

(** The first insert id of a statement is kept, and reading the previous statement's
    one fixes the value for the binary log at the first read. *)
Lemma first_insert_id ids i :
  first_successful_insert_id_in_cur_stmt i = 0 ->
  first_successful_insert_id_in_cur_stmt (fold_left (fun i x => record_first_successful_insert_id_in_cur_stmt x i) ids i) =
  default 0 (head (filter (fun x => x <> 0) ids)).
Proof.
  revert i. induction ids as [|x ids IH]; intros i Hi; [done|]. cbn [fold_left]. rewrite filter_cons.
  destruct (decide (x <> 0)) as [Hx|Hx].
  - unfold record_first_successful_insert_id_in_cur_stmt at 2. rewrite Hi. cbn [Z.eqb head default].
    assert (forall l j, first_successful_insert_id_in_cur_stmt j = x ->
              fold_left (fun i x => record_first_successful_insert_id_in_cur_stmt x i) l j = j) as Hk.
    { induction l as [|y l IHl]; intros j Hj; [done|]. cbn. unfold record_first_successful_insert_id_in_cur_stmt at 2.
      rewrite Hj. replace (x =? 0) with false by lia. by apply IHl. }
    by rewrite Hk.
  - apply IH. unfold record_first_successful_insert_id_in_cur_stmt. rewrite Hi. cbn. lia.
Qed.
Lemma insert_id_for_binlog i x :
  let r1 := read_first_successful_insert_id_in_prev_stmt i in
  let i' := MkIds x (first_successful_insert_id_in_prev_stmt_for_binlog r1.2) (first_successful_insert_id_in_cur_stmt r1.2)
              (stmt_depends_on_first_successful_insert_id_in_prev_stmt r1.2) in
  stmt_depends_on_first_successful_insert_id_in_prev_stmt i = false ->
  first_successful_insert_id_in_prev_stmt_for_binlog (read_first_successful_insert_id_in_prev_stmt i').2 =
    first_successful_insert_id_in_prev_stmt i.
Proof.
  intros r1 i' H. subst r1 i'. unfold read_first_successful_insert_id_in_prev_stmt. rewrite H. done.
Qed.

(** Merging the flags of the statement: the transaction has what either had. *)
Lemma merge_flags_has stmt all u :
  Trx.has (Trx.unsafe_flag u) (merge_unsafe_rollback_flags stmt all) =
    Trx.has (Trx.unsafe_flag u) stmt || Trx.has (Trx.unsafe_flag u) all.
Proof.
  assert (exists k, 0 <= k < 6 /\ Trx.unsafe_flag u = 2 ^ k) as (k & Hk & E).
  { destruct u; [exists 0|exists 1|exists 2|exists 3|exists 4|exists 5]; by split; [lia|]. }
  unfold Trx.has. rewrite E. cbn [Trx.m_unsafe_rollback_flags merge_unsafe_rollback_flags].
  rewrite !nz_land_pow2, Z.lor_spec, Z.land_spec by lia.
  assert (Z.testbit merged_flags k = true) as ->; [|btauto].
  assert (k = 0 \/ k = 1 \/ k = 2 \/ k = 3 \/ k = 4 \/ k = 5) as [->|[->|[->|[->|[->| ->]]]]] by lia; reflexivity.
Qed.

(** The timeout that applies: the special one if it is set, the general one for
    transactions if that is set, else the one of the connection. *)
Lemma net_wait_timeout_choice active rw v :
  get_net_wait_timeout active rw v =
    default (net_wait_timeout v)
      (if active then
         let special := if rw then idle_write_transaction_timeout v else idle_readonly_transaction_timeout v in
         if special >? 0 then Some special
         else if idle_transaction_timeout v >? 0 then Some (idle_transaction_timeout v) else None
       else None).
Proof.
  unfold get_net_wait_timeout. destruct active, rw; cbn; [..|done|done].
  - destruct (idle_write_transaction_timeout v >? 0); [done|]. by destruct (_ >? 0).
  - destruct (idle_readonly_transaction_timeout v >? 0); [done|]. by destruct (_ >? 0).
Qed.
End SettingsProps.

Module NamesProps.
Import Names.
(** Doubling the quotes of a name. *)
Fixpoint double_quotes (quote : Z) (s : list Z) : list Z :=
  match s with
  | [] => []
  | c :: s' => if c =? quote then c :: c :: double_quotes quote s' else c :: double_quotes quote s'
  end.
(** Unescaping undoes the doubling, and the result fits the memory of the source. *)
Lemma unescape_double quote s : unescape quote (double_quotes quote s) = s.
Proof.
  induction s as [|c s IH]; [done|]. cbn. destruct (c =? quote) eqn:E; cbn; rewrite E; by rewrite IH.
Qed.
Lemma unescape_length quote n : forall s, (length s <= n)%nat -> (length (unescape quote s) <= length s)%nat.
Proof.
  induction n as [|n IH]; intros [|c s] Hn; cbn in *; try lia. destruct (c =? quote).
  - destruct s as [|d s]; cbn in *; [lia|]. specialize (IH s). lia.
  - specialize (IH s). lia.
Qed.
End NamesProps.
