(* ===== verification/JsonWriter.v ===== *)
(** The writer of the optimizer trace, [mariadb/include/mysql/server/private/my_json_writer.h]:
    the string with a size limit ([Limit]) and the scoped classes that start and end
    JSON objects and arrays ([Scoped]).

    [Json_writer] itself is defined outside the repository: a method call on it is a
    value of [call], and [build] is its documented contract, which calls make a well
    formed document, and which one. *)

From S2P Require Import Prelude.

(** ** Strings with a limit *)

Module Limit.

Definition SIZE_T_MAX : Z := 2 ^ 64 - 1.

Record String_with_limit := MkLimit { str : list Z; size_limit : Z; truncated_len : Z }.

Definition length (w : String_with_limit) : Z := Z.of_nat (base.length (str w)).
Definition initial : String_with_limit := MkLimit [] SIZE_T_MAX 0.
Definition get_truncated_bytes (w : String_with_limit) : Z := truncated_len w.

(** [None] is the failed assertion. *)
Definition set_size_limit (limit_arg : Z) (w : String_with_limit) : option String_with_limit :=
  if length w <? size_limit w then Some (MkLimit (str w) limit_arg (truncated_len w)) else None.

(** [String::append], whose result is not looked at: [ok] is whether it had memory. *)
Definition str_append (ok : bool) (s : list Z) (w : String_with_limit) : String_with_limit :=
  MkLimit (if ok then str w ++ s else str w) (size_limit w) (truncated_len w).
Definition truncate (n : Z) (w : String_with_limit) : String_with_limit :=
  MkLimit (str w) (size_limit w) (u64 (truncated_len w + n)).

Definition append (ok : bool) (s : list Z) (w : String_with_limit) : String_with_limit :=
  let size := Z.of_nat (base.length s) in
  if u64 (length w + size) <=? size_limit w then str_append ok s w
  else if length w <? size_limit w then
    let bytes_to_add := size_limit w - length w in
    truncate (size - bytes_to_add) (str_append ok (take (Z.to_nat bytes_to_add) s) w)
  else truncate size w.

(** A string that ends before its first zero byte. *)
Fixpoint c_str (s : list Z) : list Z :=
  match s with [] => [] | b :: s => if b =? 0 then [] else b :: c_str s end.
Definition append_c_str (ok : bool) (s : list Z) (w : String_with_limit) : String_with_limit := append ok (c_str s) w.
Definition append_char (ok : bool) (c : Z) (w : String_with_limit) : String_with_limit :=
  if u64 (length w + 1) >? size_limit w then truncate 1 w else str_append ok [c] w.

(** A sequence of calls. *)
Inductive op := Append (s : list Z) | AppendChar (c : Z).
Definition op_bytes (o : op) : list Z := match o with Append s => s | AppendChar c => [c] end.
Definition do_op (ok : bool) (w : String_with_limit) (o : op) : String_with_limit :=
  match o with Append s => append ok s w | AppendChar c => append_char ok c w end.
Definition written (ops : list op) : list Z := flat_map op_bytes ops.

(** *** Properties *)

(** What a string holds after the bytes [l] under the limit [n]. *)
Definition holds (n : Z) (l : list Z) (w : String_with_limit) : Prop :=
  w = MkLimit (take (Z.to_nat n) l) n (Z.of_nat (base.length l) - Z.of_nat (base.length (take (Z.to_nat n) l))).

Lemma append_char_append ok c w : append_char ok c w = append ok [c] w.
Proof.
  unfold append_char, append. simpl base.length. change (Z.of_nat 1) with 1.
  rewrite Z.gtb_ltb.
  destruct (Z.leb_spec (u64 (length w + 1)) (size_limit w)), (Z.ltb_spec (size_limit w) (u64 (length w + 1))); try lia; [done|].
  destruct (Z.ltb_spec (length w) (size_limit w)) as [L|]; [|done].
  assert (0 <= length w) by (unfold length; lia).
  pose proof (Z.mod_le (length w + 1) (2 ^ 64)) as M. unfold wrapU in *. lia.
Qed.

Lemma append_holds n l s w :
  0 <= n -> Z.of_nat (base.length (l ++ s)) < 2 ^ 64 ->
  holds n l w -> holds n (l ++ s) (append true s w).
Proof.
  intros Hn Hs ->. unfold append, str_append, truncate, length, holds. simpl.
  rewrite length_app in Hs. rewrite !length_take, length_app.
  rewrite (wrapU_small 64 (Z.of_nat _ + Z.of_nat _)) by (split; lia).
  destruct (Z.leb_spec (Z.of_nat (Z.to_nat n `min` base.length l) + Z.of_nat (base.length s)) n) as [L|L];
    [|destruct (Z.ltb_spec (Z.of_nat (Z.to_nat n `min` base.length l)) n) as [L2|L2]].
  - destruct (decide (base.length l <= Z.to_nat n)%nat).
    + rewrite !take_ge by (rewrite ?length_app; lia). f_equal. lia.
    + assert (s = []) as -> by (destruct s; [done|simpl in *; lia]). rewrite !app_nil_r. f_equal. simpl. lia.
  - rewrite take_app, (take_ge l) by lia. rewrite wrapU_small by (split; lia). f_equal; [do 2 f_equal; lia|lia].
  - rewrite take_app_le by lia. rewrite wrapU_small by (split; lia). f_equal. lia.
Qed.

Lemma run_holds n ops l w :
  0 <= n -> Z.of_nat (base.length (l ++ written ops)) < 2 ^ 64 ->
  holds n l w -> holds n (l ++ written ops) (fold_left (do_op true) ops w).
Proof.
  intros Hn. revert l w. induction ops as [|o ops IH]; intros l w; unfold written; simpl.
  - by rewrite app_nil_r.
  - rewrite app_assoc. intros Hs Hw. apply IH; [done|].
    replace (do_op true w o) with (append true (op_bytes o) w)
      by (destruct o; simpl; by rewrite ?append_char_append).
    apply append_holds; [done| |done]. rewrite length_app in Hs. lia.
Qed.

(** Whatever is appended, the string holds the first bytes up to the limit and the
    others are counted. *)
Lemma limit_correct n ops :
  0 <= n -> Z.of_nat (base.length (written ops)) < 2 ^ 64 ->
  exists w, set_size_limit n initial = Some w /\
    holds n (written ops) (fold_left (do_op true) ops w).
Proof.
  intros Hn Hs. exists (MkLimit [] n 0). split; [done|].
  apply (run_holds n ops []); [done..|]. unfold holds. by rewrite take_nil.
Qed.

(** Memory or not, the limit is never exceeded. *)
Lemma append_bounded ok s w :
  0 <= length w <= size_limit w -> length w + Z.of_nat (base.length s) < 2 ^ 64 ->
  length (append ok s w) <= size_limit (append ok s w) /\ size_limit (append ok s w) = size_limit w.
Proof.
  intros Hl Hs. unfold append. rewrite wrapU_small by (split; lia).
  destruct (Z.leb_spec (length w + Z.of_nat (base.length s)) (size_limit w)); [|destruct (Z.ltb_spec (length w) (size_limit w))];
    destruct ok; unfold length in *; simpl; rewrite ?length_app, ?length_take; lia.
Qed.

(** The assertion of [set_size_limit] looks at the old limit: a limit below the
    length passes it, after which the string stays longer than its limit, and a full
    string cannot be given a larger one. *)
Lemma set_size_limit_below_length :
  (exists w w', set_size_limit 1 w = Some w' /\ 1 < length w') /\
  (forall w n, length w = size_limit w -> set_size_limit n w = None).
Proof.
  split.
  - exists (append true [97; 98; 99] initial). eexists. split; reflexivity.
  - intros w n E. unfold set_size_limit. rewrite E. by rewrite Z.ltb_irrefl.
Qed.
End Limit.

(** ** Scoped objects and arrays *)

Module Scoped.

Definition FAKE_SELECT_LEX_ID : Z := 2 ^ 32 - 1.

(** The overloads of [Json_writer] that add a value, and the calls on it. *)
Inductive value :=
  | VBool (b : bool) | VLl (z : Z) | VUll (z : Z) | VDouble (bits : Z) | VStr (s : string)
  | VStrN (s : string) | VItem (a : nat) | VNull | VJoinTab (a : nat) | VTable (a : nat).
Inductive call :=
  | AddMember (name : string) | Value (v : value)
  | StartObject | EndObject | StartArray | EndArray.

(** [is_object] tells a [Json_writer_object] from a [Json_writer_array]; [my_writer]
    is whether the pointer is not null (the ignore mode). *)
Record Json_writer_struct := MkStruct { is_object : bool; my_writer : bool; closed : bool }.
Definition trace_started (j : Json_writer_struct) : bool := my_writer j.
Definition close (j : Json_writer_struct) : Json_writer_struct := MkStruct (is_object j) (my_writer j) true.

Definition member_of (str : option string) : list call :=
  match str with Some n => [AddMember n] | None => [] end.

(** Every method gives the calls it makes on the writer. *)
Definition new_object (writer : bool) (str : option string) : list call * Json_writer_struct :=
  (if writer then member_of str ++ [StartObject] else [], MkStruct true writer false).
Definition new_array (writer : bool) (str : option string) : list call * Json_writer_struct :=
  (if writer then member_of str ++ [StartArray] else [], MkStruct false writer false).
Definition delete_object (j : Json_writer_struct) : list call :=
  if my_writer j && negb (closed j) then [EndObject] else [].
Definition delete_array (j : Json_writer_struct) : list call :=
  if my_writer j && negb (closed j) then [EndArray] else [].
Definition end_object (j : Json_writer_struct) : option (list call * Json_writer_struct) :=
  if closed j then None else Some (if my_writer j then [EndObject] else [], close j).
Definition end_array (j : Json_writer_struct) : option (list call * Json_writer_struct) :=
  if closed j then None else Some (if my_writer j then [EndArray] else [], close j).

(** The overloads of [Json_writer_object::add]; [OInt] is the template for the other
    integer types, [OStrN] takes a length. *)
Inductive object_call :=
  | OBool (name : string) (b : bool) | OUll (name : string) (z : Z) | OInt (name : string) (z : Z)
  | ODouble (name : string) (bits : Z) | OStr (name s : string) | OStrN (name s : string)
  | OLex (name s : string) | OItem (name : string) (a : nat) | ONull (name : string)
  | OJoinTab (a : nat) | OTable (a : nat) | OSelectNumber (n : Z).

Definition object_member (o : object_call) : string :=
  match o with
  | OBool n _ | OUll n _ | OInt n _ | ODouble n _ | OStr n _ | OStrN n _ | OLex n _ | OItem n _ | ONull n => n
  | OJoinTab _ | OTable _ => "table"
  | OSelectNumber _ => "select_id"
  end.
Definition object_value (o : object_call) : value :=
  match o with
  | OBool _ b => VBool b
  | OUll _ z => VUll z
  | OInt _ z => VLl (s64 z)
  | ODouble _ d => VDouble d
  | OStr _ s => VStr s
  | OStrN _ s | OLex _ s => VStrN s
  | OItem _ a => VItem a
  | ONull _ => VNull
  | OJoinTab a => VJoinTab a
  | OTable a => VTable a
  | OSelectNumber n => if n =? FAKE_SELECT_LEX_ID then VStr "fake" else VLl (s64 n)
  end.

(** [None] is a failed assertion or a null pointer followed; the overload with a
    length tests neither. *)
Definition object_add (o : object_call) (j : Json_writer_struct) : option (list call) :=
  match o with
  | OStrN name s => if my_writer j then Some [AddMember name; Value (VStrN s)] else None
  | _ =>
      if closed j then None
      else Some (if my_writer j then [AddMember (object_member o); Value (object_value o)] else [])
  end.

(** The overloads of [Json_writer_array::add]. *)
Inductive array_call :=
  | ABool (b : bool) | AUll (z : Z) | ALl (z : Z) | ADouble (bits : Z) | ASize (z : Z) | AStr (s : string)
  | AStrN (s : string) | ALex (s : string) | AItem (a : nat) | ANull | AJoinTab (a : nat) | ATable (a : nat).
Definition array_value (o : array_call) : value :=
  match o with
  | ABool b => VBool b
  | AUll z | ASize z => VLl (s64 z)
  | ALl z => VLl z
  | ADouble d => VDouble d
  | AStr s => VStr s
  | AStrN s | ALex s => VStrN s
  | AItem a => VItem a
  | ANull => VNull
  | AJoinTab a => VJoinTab a
  | ATable a => VTable a
  end.
Definition array_add (o : array_call) (j : Json_writer_struct) : option (list call) :=
  if closed j then None else Some (if my_writer j then [Value (array_value o)] else []).

(** A function that uses the classes: the structures in scope, the innermost first,
    and the calls made so far. *)
Record state := MkState { scope : list Json_writer_struct; calls : list call }.
Definition initial : state := MkState [] [].

(** [i] counts the structures in scope from the innermost; [Leave] ends the innermost
    scope, whose destructor runs. *)
Inductive op :=
  | NewObject (writer : bool) (str : option string) | NewArray (writer : bool) (str : option string)
  | ObjectAdd (i : nat) (o : object_call) | ArrayAdd (i : nat) (o : array_call)
  | End (i : nat) | Leave.

Definition enter (r : list call * Json_writer_struct) (s : state) : state :=
  MkState (r.2 :: scope s) (calls s ++ r.1).
Definition destroy (j : Json_writer_struct) : list call :=
  if is_object j then delete_object j else delete_array j.
Definition finish (j : Json_writer_struct) : option (list call * Json_writer_struct) :=
  if is_object j then end_object j else end_array j.
Definition step (o : op) (s : state) : option state :=
  match o with
  | NewObject w str => Some (enter (new_object w str) s)
  | NewArray w str => Some (enter (new_array w str) s)
  | ObjectAdd i c =>
      j ← scope s !! i;
      if is_object j then cs ← object_add c j; Some (MkState (scope s) (calls s ++ cs)) else None
  | ArrayAdd i c =>
      j ← scope s !! i;
      if is_object j then None else cs ← array_add c j; Some (MkState (scope s) (calls s ++ cs))
  | End i =>
      j ← scope s !! i;
      r ← finish j;
      Some (MkState (<[i := r.2]> (scope s)) (calls s ++ r.1))
  | Leave =>
      match scope s with
      | [] => None
      | j :: rest => Some (MkState rest (calls s ++ destroy j))
      end
  end.
Fixpoint run (ops : list op) (s : state) : option state :=
  match ops with [] => Some s | o :: ops => s' ← step o s; run ops s' end.

(** *** Documents *)

Inductive json := JValue (v : value) | JObject (members : list (string * json)) | JArray (elements : list json).
Fixpoint render (j : json) : list call :=
  match j with
  | JValue v => [Value v]
  | JObject ms => StartObject :: flat_map (fun p => AddMember p.1 :: render p.2) ms ++ [EndObject]
  | JArray es => StartArray :: flat_map render es ++ [EndArray]
  end.

(** A document under construction: what is in the structures that are open, the
    innermost first; an object may have a name that waits for its value. *)
Inductive frame := FObject (members : list (string * json)) (pending : option string) | FArray (elements : list json).
Definition frame_object (f : frame) : bool := match f with FObject _ _ => true | FArray _ => false end.
Definition put (j : json) (f : frame) : option frame :=
  match f with
  | FObject ms (Some n) => Some (FObject (ms ++ [(n, j)]) None)
  | FObject _ None => None
  | FArray es => Some (FArray (es ++ [j]))
  end.
(** May a value come next, and is no value missing? *)
Definition waiting (f : frame) : bool := match f with FObject _ None => false | _ => true end.
Definition ready (f : frame) : bool := match f with FObject _ (Some _) => false | _ => true end.

(** The contract of [Json_writer]: the calls it accepts, and the document they write. *)
Definition build_call (c : call) (st : list frame) : option (list frame) :=
  match st with
  | [] => None
  | f :: st =>
      match c, f with
      | AddMember n, FObject ms None => Some (FObject ms (Some n) :: st)
      | AddMember _, _ => None
      | Value v, _ => f' ← put (JValue v) f; Some (f' :: st)
      | StartObject, _ => if waiting f then Some (FObject [] None :: f :: st) else None
      | StartArray, _ => if waiting f then Some (FArray [] :: f :: st) else None
      | EndObject, FObject ms None =>
          match st with g :: st => g' ← put (JObject ms) g; Some (g' :: st) | [] => None end
      | EndObject, _ => None
      | EndArray, FArray es =>
          match st with g :: st => g' ← put (JArray es) g; Some (g' :: st) | [] => None end
      | EndArray, _ => None
      end
  end.
Fixpoint build (cs : list call) (st : list frame) : option (list frame) :=
  match cs with [] => Some st | c :: cs => st' ← build_call c st; build cs st' end.

Definition render_frame (f : frame) : list call :=
  match f with
  | FObject ms p => flat_map (fun p => AddMember p.1 :: render p.2) ms ++ member_of p
  | FArray es => flat_map render es
  end.
Definition start_of (f : frame) : call := if frame_object f then StartObject else StartArray.
(** The calls that lead to a stack of frames, whose last one is the whole output. *)
Fixpoint render_stack (st : list frame) : list call :=
  match st with
  | [] => []
  | [f] => render_frame f
  | f :: st => render_stack st ++ start_of f :: render_frame f
  end.

(** *** Careful use *)

(** The structures that have something open in the document. *)
Definition live (j : Json_writer_struct) : bool := my_writer j && negb (closed j).
Definition nest (s : state) : list bool := map is_object (List.filter live (scope s)).
Definition in_object (s : state) : bool := match nest s with b :: _ => b | [] => false end.

(** The structure [i] may be used: it is not closed and nothing inside it is open. *)
Definition usable (i : nat) (s : state) : bool :=
  match scope s !! i with
  | Some j => negb (closed j) && (negb (my_writer j) || negb (existsb live (take i (scope s))))
  | None => false
  end.
Definition is_kind (b : bool) (i : nat) (s : state) : bool :=
  match scope s !! i with Some j => eqb (is_object j) b | None => false end.
Definition traced (i : nat) (s : state) : bool :=
  match scope s !! i with Some j => my_writer j | None => false end.
Definition named (str : option string) : bool := match str with Some _ => true | None => false end.

Definition careful (o : op) (s : state) : bool :=
  match o with
  | NewObject w str | NewArray w str => if w then eqb (named str) (in_object s) else true
  | ObjectAdd i (OStrN _ _) => is_kind true i s && usable i s && traced i s
  | ObjectAdd i _ => is_kind true i s && usable i s
  | ArrayAdd i _ => is_kind false i s && usable i s
  | End i => usable i s
  | Leave => match scope s with [] => false | _ => true end
  end.
Fixpoint careful_run (ops : list op) (s : state) : bool :=
  match ops with
  | [] => true
  | o :: ops => careful o s && match step o s with Some s' => careful_run ops s' | None => false end
  end.

(** *** What the accepted calls write *)

Lemma put_render j f f' :
  put j f = Some f' -> frame_object f' = frame_object f /\ render_frame f' = render_frame f ++ render j.
Proof.
  destruct f as [ms [n|]|es]; simpl; intros [= <-]; simpl; split; try done.
  - by rewrite flat_map_app, app_nil_r, <- app_assoc; simpl; rewrite app_nil_r.
  - rewrite flat_map_app. simpl. by rewrite app_nil_r.
Qed.

Lemma render_top f f' st cs :
  frame_object f' = frame_object f -> render_frame f' = render_frame f ++ cs ->
  render_stack (f' :: st) = render_stack (f :: st) ++ cs.
Proof.
  intros K E. destruct st as [|g st]; simpl; rewrite E; [done|].
  unfold start_of. rewrite K, <- app_assoc. done.
Qed.

Lemma build_call_render c st st' : build_call c st = Some st' -> render_stack st' = render_stack st ++ [c].
Proof.
  destruct st as [|f st]; [done|].
  destruct c; simpl.
  - destruct f as [ms [|]|]; try done. intros [= <-]. apply render_top; [done|]. simpl. by rewrite <- app_assoc.
  - destruct (put _ f) as [f'|] eqn:E; [|done]. intros [= <-]. by apply put_render in E as [? ?]; apply render_top.
  - destruct (waiting f); [|done]. by intros [= <-].
  - destruct f as [ms [|]|]; try done. destruct st as [|g st]; [done|].
    destruct (put _ g) as [g'|] eqn:E; [|done]. intros [= <-]. apply put_render in E as [? ?].
    rewrite (render_top g g' st _) by done. simpl. by rewrite app_nil_r, <- app_assoc.
  - destruct (waiting f); [|done]. by intros [= <-].
  - destruct f as [ms [|]|]; try done. destruct st as [|g st]; [done|].
    destruct (put _ g) as [g'|] eqn:E; [|done]. intros [= <-]. apply put_render in E as [? ?].
    rewrite (render_top g g' st _) by done. simpl. by rewrite <- app_assoc.
Qed.

Lemma build_render cs st st' : build cs st = Some st' -> render_stack st' = render_stack st ++ cs.
Proof.
  revert st. induction cs as [|c cs IH]; intros st; simpl; [intros [= <-]; by rewrite app_nil_r|].
  destruct (build_call c st) as [s1|] eqn:E; [|done]. simpl. intros H.
  rewrite (IH _ H), (build_call_render _ _ _ E), <- app_assoc. done.
Qed.

Lemma build_app cs1 cs2 st : build (cs1 ++ cs2) st = st' ← build cs1 st; build cs2 st'.
Proof.
  revert st. induction cs1 as [|c cs1 IH]; intros st; simpl; [done|].
  destruct (build_call c st); simpl; [apply IH|done].
Qed.

(** *** Careful use keeps the document well formed *)

(** The document is as far as the structures in scope say: the innermost open one
    takes the next member, each of the others waits for it. *)
Definition good (st : list frame) (ns : list bool) : Prop :=
  match st with
  | [] => False
  | f :: st => ready f = true /\ Forall (fun g => waiting g = true) st /\ map frame_object (f :: st) = ns ++ [false]
  end.

Definition in_sync (s : state) : Prop := exists st, build (calls s) [FArray []] = Some st /\ good st (nest s).

Lemma top_object st ns f : good (f :: st) ns -> frame_object f = match ns with b :: _ => b | [] => false end.
Proof. intros (_ & _ & E). destruct ns; simplify_eq/=; congruence. Qed.

Lemma member_ready f st n :
  ready f = true -> named n = frame_object f ->
  exists f', build (member_of n) (f :: st) = Some (f' :: st) /\ frame_object f' = frame_object f /\ waiting f' = true.
Proof. destruct f as [ms [|]|es], n; simpl; intros; try done; eauto. Qed.

Lemma waiting_put f j : waiting f = true -> exists f', put j f = Some f' /\ ready f' = true /\ frame_object f' = frame_object f.
Proof. destruct f as [ms [n|]|es]; simpl; intros; try done; eauto. Qed.

(** A value, with its name where one is due. *)
Lemma value_good f st ns n v :
  good (f :: st) ns -> named n = frame_object f ->
  exists f', build (member_of n ++ [Value v]) (f :: st) = Some (f' :: st) /\ good (f' :: st) ns.
Proof.
  intros (R & W & K) N. destruct (member_ready f st n R N) as (f1 & B & K1 & W1).
  destruct (waiting_put f1 (JValue v) W1) as (f2 & P & R2 & K2).
  exists f2. rewrite build_app, B. simpl. rewrite P. split; [done|].
  split; [done|]. split; [done|]. simpl in *. by rewrite K2, K1.
Qed.

Lemma start_good f st ns n b :
  good (f :: st) ns -> named n = frame_object f ->
  exists st', build (member_of n ++ [if b : bool then StartObject else StartArray]) (f :: st) = Some st' /\ good st' (b :: ns).
Proof.
  intros (R & W & K) N. destruct (member_ready f st n R N) as (f1 & B & K1 & W1).
  exists ((if b then FObject [] None else FArray []) :: f1 :: st).
  rewrite build_app, B. simpl. destruct b; simpl; rewrite W1; (split; [done|]);
    (split; [done|]); (split; [by constructor|]); simpl in *; by rewrite K1, K.
Qed.

Lemma end_good st ns b :
  good st (b :: ns) ->
  exists st', build [if b : bool then EndObject else EndArray] st = Some st' /\ good st' ns.
Proof.
  destruct st as [|f [|g st]]; simpl; [done|intros (_ & _ & E); destruct ns; done|].
  intros (R & W & E). inversion W as [|? ? Wg Wst]; subst. injection E as Eb E.
  destruct f as [ms [|]|es]; simpl in *; subst b; try done; simpl;
    (edestruct (waiting_put g) as (g' & P & Rg & Kg); [done|]); rewrite P;
    eexists; (split; [done|]); (split; [done|]); (split; [done|]); simpl; by rewrite Kg, E.
Qed.

Lemma filter_no_live l : existsb live l = false -> List.filter live l = [].
Proof. induction l as [|x l IH]; simpl; [done|]. intros [-> H]%orb_false_iff. by apply IH. Qed.

(** What is done to a structure that may be used is done to the innermost open one. *)
Lemma usable_inv i s :
  usable i s = true ->
  exists j, scope s !! i = Some j /\ closed j = false /\
    exists ns, nest s = (if my_writer j then is_object j :: ns else ns) /\
      map is_object (List.filter live (<[i := close j]> (scope s))) = ns.
Proof.
  unfold usable, nest. destruct (scope s !! i) as [j|] eqn:E; [|done].
  intros [C U]%andb_prop. apply negb_true_iff in C. exists j. split; [done|]. split; [done|].
  exists (map is_object (List.filter live (take i (scope s)) ++ List.filter live (drop (S i) (scope s)))).
  split.
  - rewrite <- (take_drop_middle (scope s) i j E) at 1. rewrite List.filter_app. simpl.
    unfold live at 2. rewrite C, andb_true_r. destruct (my_writer j); [|done].
    simpl in U. apply negb_true_iff, filter_no_live in U. by rewrite U.
  - rewrite insert_take_drop by (by eapply lookup_lt_Some).
    rewrite List.filter_app. simpl. unfold live at 2. simpl. by rewrite andb_false_r.
Qed.

Lemma sync_step s s' cs :
  in_sync s -> calls s' = calls s ++ cs ->
  (forall f st, good (f :: st) (nest s) -> exists st', build cs (f :: st) = Some st' /\ good st' (nest s')) ->
  in_sync s'.
Proof.
  intros (st & B & G) E H. destruct st as [|f st]; [done|]. destruct (H f st G) as (st' & B' & G').
  exists st'. split; [|done]. by rewrite E, build_app, B.
Qed.

(** A step that makes no calls and opens or closes nothing. *)
Lemma sync_silent s s' : in_sync s -> calls s' = calls s ++ [] -> nest s' = nest s -> in_sync s'.
Proof. intros H E N. apply (sync_step s s' []); [done..|]. intros f st G. exists (f :: st). by rewrite N. Qed.

Lemma enter_sync (b w : bool) str s s' :
  in_sync s -> (if w then eqb (named str) (in_object s) else true) = true ->
  scope s' = MkStruct b w false :: scope s ->
  calls s' = calls s ++ (if w then member_of str ++ [if b then StartObject else StartArray] else []) ->
  in_sync s'.
Proof.
  intros H C Es Ec. destruct w.
  - eapply sync_step; [done..|]. intros f st G. apply eqb_prop in C.
    unfold nest at 1. rewrite Es. simpl. apply start_good; [done|].
    rewrite C. symmetry. by apply (top_object st).
  - apply (sync_silent s); [done..|]. unfold nest. by rewrite Es.
Qed.

Lemma add_sync (b : bool) i s s' str v :
  in_sync s -> is_kind b i s = true -> usable i s = true -> named str = b -> scope s' = scope s ->
  calls s' = calls s ++ (if traced i s then member_of str ++ [Value v] else []) ->
  in_sync s'.
Proof.
  intros H K U N Es Ec. apply usable_inv in U as (j & E & C & ns & En & _).
  unfold is_kind, traced in *. rewrite E in *. apply eqb_prop in K.
  assert (nest s' = nest s) as Es' by (unfold nest; by rewrite Es).
  destruct (my_writer j); [|by apply (sync_silent s)].
  eapply sync_step; [done..|]. intros f st G. rewrite Es'.
  destruct (value_good f st (nest s) str v G) as (f' & B & G').
  - rewrite N, <- K. symmetry. pose proof (top_object _ _ _ G) as T. by rewrite En in T.
  - by exists (f' :: st).
Qed.

Lemma close_sync s s' (t b : bool) ns :
  in_sync s -> nest s = (if t then b :: ns else ns) -> nest s' = ns ->
  calls s' = calls s ++ (if t then [if b then EndObject else EndArray] else []) ->
  in_sync s'.
Proof.
  intros H E E' Ec. destruct t; [|by apply (sync_silent s); [..|congruence]].
  eapply sync_step; [done..|]. intros f st G. rewrite E'. apply end_good. by rewrite <- E.
Qed.

(** Careful use fails no assertion, follows no null pointer and keeps the document
    well formed. *)
Lemma step_sync o s : careful o s = true -> in_sync s -> exists s', step o s = Some s' /\ in_sync s'.
Proof.
  destruct o as [w str|w str|i c|i c|i|]; simpl; intros C H.
  - eexists. split; [done|]. by apply (enter_sync true w str s).
  - eexists. split; [done|]. by apply (enter_sync false w str s).
  - assert (is_kind true i s && usable i s = true) as [K U]%andb_prop
      by (destruct c; try done; by apply andb_prop in C as [? _]).
    pose proof K as K'. unfold is_kind in K'. destruct (scope s !! i) as [j|] eqn:E; [|done].
    apply eqb_prop in K'. simpl. rewrite K'.
    assert (object_add c j = Some (if traced i s then member_of (Some (object_member c)) ++ [Value (object_value c)] else [])) as ->.
    { pose proof (usable_inv i s U) as (j' & E' & Cl & _). simplify_eq. unfold traced. rewrite E.
      destruct c; simpl in *; rewrite ?Cl; try done. unfold traced in C. rewrite E in C.
      apply andb_prop in C as [_ ->]. done. }
    eexists. split; [done|]. by eapply (add_sync true i s _ (Some _)).
  - apply andb_prop in C as [K U]. pose proof K as K'. unfold is_kind in K'.
    destruct (scope s !! i) as [j|] eqn:E; [|done]. apply eqb_prop in K'. simpl. rewrite K'.
    pose proof (usable_inv i s U) as (j' & E' & Cl & _). simplify_eq.
    unfold array_add. rewrite Cl. eexists. split; [done|].
    eapply (add_sync false i s _ None (array_value c)); [done..|]. simpl. unfold traced. by rewrite E.
  - destruct (usable_inv i s C) as (j & E & Cl & ns & En & En'). rewrite E. simpl.
    exists (MkState (<[i := close j]> (scope s)) (calls s ++ (if my_writer j then [if is_object j then EndObject else EndArray] else []))).
    split; [unfold finish, end_object, end_array; rewrite Cl; by destruct (is_object j)|].
    by apply (close_sync s _ (my_writer j) (is_object j) ns).
  - destruct (scope s) as [|j rest] eqn:E; [done|].
    exists (MkState rest (calls s ++ destroy j)). split; [done|].
    apply (close_sync s _ (live j) (is_object j) (map is_object (List.filter live rest))); [done| |done|].
    + unfold nest. rewrite E. simpl. by destruct (live j).
    + unfold destroy, delete_object, delete_array, live. simpl. by destruct (is_object j), (my_writer j && negb (closed j)).
Qed.

Lemma run_sync ops s : careful_run ops s = true -> in_sync s -> exists s', run ops s = Some s' /\ in_sync s'.
Proof.
  revert s. induction ops as [|o ops IH]; intros s; simpl; [eauto|].
  intros [C R]%andb_prop H. destruct (step_sync o s C H) as (s1 & E & H1). rewrite E in *. simpl. by apply IH.
Qed.

Lemma leave_all s : in_sync s ->
  exists cs s', run (replicate (length (scope s)) Leave) s = Some s' /\ scope s' = [] /\ calls s' = calls s ++ cs /\ in_sync s'.
Proof.
  destruct s as [sc cs]. revert cs. induction sc as [|j sc IH]; intros cs H; simpl.
  - exists [], (MkState [] cs). by rewrite app_nil_r.
  - destruct (step_sync Leave (MkState (j :: sc) cs) eq_refl H) as (s1 & E & H1). simpl in E. injection E as <-.
    destruct (IH _ H1) as (cs' & s' & R & Sc & Ec & S'). exists (destroy j ++ cs'), s'. simpl in *.
    by rewrite Ec, app_assoc.
Qed.

(** With nothing in scope the calls are whole values. *)
Lemma sync_closed s : in_sync s -> scope s = [] -> exists js, calls s = flat_map render js.
Proof.
  intros (st & B & G) E. pose proof (build_render _ _ _ B) as R. simpl in R.
  unfold nest in G. rewrite E in G. destruct st as [|f st]; [done|]. destruct G as (_ & _ & M).
  destruct st; [|simpl in M; by destruct (map frame_object st)]. destruct f as [|js]; [done|]. by exists js.
Qed.

(** C6 : A function that uses the scoped classes with care (a name exactly inside an
    object, only the innermost open structure used, nothing used after [end], the
    overload with a length not in ignore mode) fails no assertion; the calls it
    makes are always the beginning of a well formed document whose open structures
    are the traced ones in scope that are not closed; and when the scopes are left,
    whether or not [end] was called, the destructors complete the document. *)
Theorem scoped_writer_well_formed ops :
  careful_run ops initial = true ->
  exists s st, run ops initial = Some s /\
    build (calls s) [FArray []] = Some st /\ calls s = render_stack st /\
    map frame_object st = nest s ++ [false] /\
    exists s' js, run (replicate (length (scope s)) Leave) s = Some s' /\ scope s' = [] /\
      calls s `prefix_of` calls s' /\ calls s' = flat_map render js.
Proof.
  intros C. destruct (run_sync ops initial C) as (s & R & H); [by exists [FArray []]|].
  pose proof H as (st & B & G). exists s, st. split; [done|]. split; [done|].
  split; [by rewrite (build_render _ _ _ B)|]. split; [by destruct st as [|f st]; [|apply G]|].
  destruct (leave_all s H) as (cs & s' & R' & Sc & Ec & H'). destruct (sync_closed s' H' Sc) as [js J].
  exists s', js. split; [done|]. split; [done|]. split; [rewrite Ec; by apply prefix_app_r|done].
Qed.

(** An object with a named array inside, one structure in ignore mode, an early
    [end], and scopes left. *)
Definition example_ops : list op :=
  [NewObject true None; ObjectAdd 0 (OSelectNumber FAKE_SELECT_LEX_ID); NewArray true (Some "rows");
   ArrayAdd 0 (ALl 7); NewObject false (Some "ignored"); ObjectAdd 0 (OBool "x" true); End 1; Leave; Leave;
   ObjectAdd 0 (OStrN "s" "v")]%string.

Lemma scoped_writer_well_formed_witness :
  careful_run example_ops initial = true /\
  exists s st, run example_ops initial = Some s /\
    build (calls s) [FArray []] = Some st /\ calls s = render_stack st /\
    map frame_object st = nest s ++ [false] /\
    exists s' js, run (replicate (length (scope s)) Leave) s = Some s' /\ scope s' = [] /\
      calls s `prefix_of` calls s' /\ calls s' = flat_map render js.
Proof. split; [reflexivity|apply (scoped_writer_well_formed example_ops); reflexivity]. Defined.

Lemma example_document :
  option_map calls (run (example_ops ++ [Leave]) initial) =
  Some (render (JObject [("select_id", JValue (VStr "fake")); ("rows", JArray [JValue (VLl 7)]); ("s", JValue (VStrN "v"))]%string)).
Proof. reflexivity. Qed.

(** *** Two overloads that differ from the others *)

(** The overload with a length follows the null pointer of the ignore mode, and
    writes into a closed object; every other one does nothing or asserts. *)
Lemma add_with_length_unchecked name s o j :
  (my_writer j = false -> object_add (OStrN name s) j = None) /\
  (my_writer j = true -> object_add (OStrN name s) j = Some [AddMember name; Value (VStrN s)]) /\
  (object_add o j = Some [] \/ my_writer j = true \/ closed j = true \/ exists n t, o = OStrN n t).
Proof.
  repeat split.
  - simpl. by intros ->.
  - simpl. by intros ->.
  - destruct (my_writer j) eqn:W; [auto|]. destruct (closed j) eqn:C; [auto|].
    destruct o; simpl; rewrite ?W, ?C; eauto 6.
Qed.

(** An unsigned value is written as such in an object, and as a negative number in an
    array when its top bit is set. *)
Lemma array_unsigned_negative name z :
  2 ^ 63 <= z < 2 ^ 64 -> object_value (OUll name z) = VUll z /\ array_value (AUll z) = VLl (z - 2 ^ 64).
Proof.
  intros H. split; [done|]. simpl. do 2 f_equal. unfold wrapS. 
  rewrite <- (Z_mod_plus_full _ (-1)). rewrite Z.mod_small; lia.
Qed.
End Scoped.
