(* ===== verification/AutoInc.v ===== *)
(** Auto-increment values and DDL options: [Discrete_interval],
    [Discrete_intervals_list] and [DDL_options_st] of
    [mariadb/include/mysql/server/private/structs.h], and the next value of a table
    handle in [handler.h].

    [Intervals] works on a store of interval objects, as the code links them; [None]
    is a null or dangling pointer followed. *)

From S2P Require Import Prelude.

(** ** Intervals *)

Module Interval.

Definition ULONGLONG_MAX : Z := 2 ^ 64 - 1.

Record Discrete_interval := MkInterval { interval_min : Z; interval_values : Z; interval_max : Z }.

Definition replace (start val incr : Z) : Discrete_interval :=
  MkInterval start val (if val =? ULONGLONG_MAX then val else u64 (start + val * incr)).
Definition empty_interval : Discrete_interval := replace 0 0 0.
Definition minimum (i : Discrete_interval) : Z := interval_min i.
Definition values (i : Discrete_interval) : Z := interval_values i.
Definition maximum (i : Discrete_interval) : Z := interval_max i.

(** The result [false] is 0: the interval was merged. *)
Definition merge_if_contiguous (start val incr : Z) (i : Discrete_interval) : bool * Discrete_interval :=
  if interval_max i =? start then
    (false, if val =? ULONGLONG_MAX then MkInterval (interval_min i) val val
            else MkInterval (interval_min i) (u64 (interval_values i + val)) (u64 (start + val * incr)))
  else (true, i).

(** The values of an interval, with the increment its user keeps. *)
Definition contains (incr : Z) (i : Discrete_interval) (v : Z) : Prop :=
  exists k, 0 <= k < interval_values i /\ v = interval_min i + k * incr.
(** A finite interval whose values, and the excluded bound, are 64-bit numbers. *)
Definition wf (incr : Z) (i : Discrete_interval) : Prop :=
  0 < incr /\ 0 <= interval_min i /\ 0 <= interval_values i < ULONGLONG_MAX /\
  interval_max i = interval_min i + interval_values i * incr /\ interval_max i < 2 ^ 64.

Lemma replace_wf start val incr :
  0 < incr -> 0 <= start -> 0 <= val < ULONGLONG_MAX -> start + val * incr < 2 ^ 64 -> wf incr (replace start val incr).
Proof.
  intros. unfold wf, replace. simpl. destruct (Z.eqb_spec val ULONGLONG_MAX); [lia|].
  rewrite wrapU_small by (split; nia). unfold ULONGLONG_MAX in *. lia.
Qed.

(** A contiguous interval is merged into one that has the values of both. *)
Lemma merge_contiguous start val incr i :
  wf incr i -> 0 <= val < ULONGLONG_MAX -> start + val * incr < 2 ^ 64 -> interval_values i + val < ULONGLONG_MAX ->
  start = interval_max i ->
  exists j, merge_if_contiguous start val incr i = (false, j) /\ wf incr j /\
    forall v, contains incr j v <-> contains incr i v \/ contains incr (replace start val incr) v.
Proof.
  intros (Hi & H0 & Hv & Hm & Hb) Hval Ho Hs ->. unfold merge_if_contiguous. rewrite Z.eqb_refl.
  destruct (Z.eqb_spec val ULONGLONG_MAX); [lia|].
  rewrite !wrapU_small by (unfold ULONGLONG_MAX in *; split; nia).
  eexists. split; [done|]. split; [unfold wf; simpl; repeat split; nia|].
  intros v. unfold contains, replace. simpl. split.
  - intros (k & Hk & ->). destruct (Z.lt_ge_cases k (interval_values i)); [left; exists k; split; [lia|done]|].
    right. exists (k - interval_values i). split; nia.
  - intros [(k & Hk & ->)|(k & Hk & ->)].
    + exists k. split; [lia|done].
    + exists (interval_values i + k). split; nia.
Qed.

Lemma merge_apart start val incr i :
  start <> interval_max i -> merge_if_contiguous start val incr i = (true, i).
Proof. intros H. unfold merge_if_contiguous. destruct (Z.eqb_spec (interval_max i) start); [congruence|done]. Qed.

(** The comment of the class: [3,5] is appended to [1,2]. *)
Lemma merge_comment : merge_if_contiguous 3 3 1 (replace 1 2 1) = (false, replace 1 5 1).
Proof. reflexivity. Qed.
End Interval.

(** ** Lists of intervals *)

Module Intervals.
Import Interval.

Record node := MkNode { contents : Discrete_interval; next : option positive }.
(** The constructor leaves [tail] unset: its value is then [None]. *)
Record Discrete_intervals_list := MkList {
  head : option positive;
  tail : option (option positive);
  current : option positive;
  elements : Z;
}.
Abbreviation store := (gmap positive node).

Definition new_list : Discrete_intervals_list := MkList None None None 0.
Definition set_members (h t c : option positive) (el : Z) : Discrete_intervals_list := MkList h (Some t) c el.
Definition empty_no_free (l : Discrete_intervals_list) : Discrete_intervals_list := set_members None None None 0.

(** The loop of [empty]. *)
Fixpoint free_from (fuel : nat) (i : option positive) (s : store) : option store :=
  match i with
  | None => Some s
  | Some p =>
      match fuel with
      | O => None
      | S fuel => n ← s !! p; free_from fuel (next n) (delete p s)
      end
  end.
Definition empty (fuel : nat) (l : Discrete_intervals_list) (s : store) : option (Discrete_intervals_list * store) :=
  s' ← free_from fuel (head l) s; Some (empty_no_free l, s').

Definition copy_shallow (dli : Discrete_intervals_list) : Discrete_intervals_list :=
  MkList (head dli) (tail dli) (current dli) (elements dli).
(** The two lists after [this->swap(dli)]. *)
Definition swap (this dli : Discrete_intervals_list) : Discrete_intervals_list * Discrete_intervals_list :=
  let '(h, t, c, el) := (head dli, tail dli, current dli, elements dli) in
  let dli' := copy_shallow this in
  (MkList h t c el, dli').

Definition get_next (l : Discrete_intervals_list) (s : store) : option (option positive * Discrete_intervals_list) :=
  let tmp := current l in
  match current l with
  | None => Some (tmp, l)
  | Some p => n ← s !! p; Some (tmp, MkList (head l) (tail l) (next n) (elements l))
  end.
Definition list_minimum (l : Discrete_intervals_list) (s : store) : option Z :=
  match head l with Some p => n ← s !! p; Some (minimum (contents n)) | None => Some 0 end.
Definition list_maximum (l : Discrete_intervals_list) (s : store) : option Z :=
  match head l with
  | Some _ => t ← tail l; p ← t; n ← s !! p; Some (maximum (contents n))
  | None => Some 0
  end.
Definition nb_elements (l : Discrete_intervals_list) : Z := elements l.

(** A caller that takes all intervals. *)
Fixpoint take_all (n : nat) (l : Discrete_intervals_list) (s : store) : option (list positive * Discrete_intervals_list) :=
  match n with
  | O => Some ([], l)
  | S n =>
      '(p, l') ← get_next l s;
      match p with
      | None => Some ([], l')
      | Some p => '(ps, l'') ← take_all n l' s; Some (p :: ps, l'')
      end
  end.

(** *** Properties *)

Fixpoint chain (s : store) (p : option positive) (ps : list positive) : Prop :=
  match ps with
  | [] => p = None
  | q :: ps => p = Some q /\ exists n, s !! q = Some n /\ chain s (next n) ps
  end.
Definition rep (s : store) (l : Discrete_intervals_list) (ps : list positive) : Prop :=
  chain s (head l) ps /\ NoDup ps /\ (ps = [] \/ tail l = Some (last ps)) /\ elements l = u32 (Z.of_nat (length ps)).

Lemma chain_delete s p ps q : q ∉ ps -> chain s p ps -> chain (delete q s) p ps.
Proof.
  revert p. induction ps as [|r ps IH]; intros p; simpl; [done|].
  intros [Hq Hn]%not_elem_of_cons (-> & n & E & C). split; [done|].
  exists n. rewrite lookup_delete_ne by done. auto.
Qed.

(** [empty] frees the intervals of the list and nothing else. *)
Lemma empty_frees s l ps fuel :
  rep s l ps -> (length ps <= fuel)%nat ->
  exists l' s', empty fuel l s = Some (l', s') /\ rep s' l' [] /\ current l' = None /\
    (forall p, s' !! p = if decide (p ∈ ps) then None else s !! p).
Proof.
  intros (C & N & _) Hf. unfold empty.
  assert (exists s', free_from fuel (head l) s = Some s' /\ forall p, s' !! p = if decide (p ∈ ps) then None else s !! p) as (s' & E & H).
  { revert s fuel C Hf. generalize (head l). induction ps as [|q ps IH]; intros p s fuel C Hf; simpl in C.
    - subst p. exists s. by destruct fuel.
    - destruct C as (-> & n & E & C). destruct fuel as [|fuel]; simpl in Hf; [lia|]. simpl. rewrite E. simpl.
      apply NoDup_cons in N as [Nq N]. destruct (IH N _ (delete q s) fuel (chain_delete _ _ _ _ Nq C) ltac:(lia)) as (s' & F & H).
      exists s'. split; [done|]. intros r. rewrite H. destruct (decide (r = q)) as [->|Hr].
      + rewrite (decide_False (P := q ∈ ps)), (decide_True (P := q ∈ q :: ps)) by set_solver. apply lookup_delete_eq.
      + rewrite lookup_delete_ne by done. repeat case_decide; set_solver. }
  rewrite E. simpl. eexists _, s'. split; [done|]. repeat split; try done; [constructor|by left].
Qed.

(** Intervals are taken in their order, and then no more. *)
Lemma take_all_order s l ps rest n :
  chain s (current l) ps -> (length ps < n)%nat -> rest = [] ->
  exists l', take_all n l s = Some (ps ++ rest, l') /\ current l' = None /\ head l' = head l /\ tail l' = tail l.
Proof.
  intros C Hn ->. rewrite app_nil_r. revert l ps C Hn. induction n as [|n IH]; intros l ps C Hn; [lia|].
  simpl. unfold get_next. destruct ps as [|p ps]; simpl in *.
  - rewrite C. simpl. eauto.
  - destruct C as (-> & m & E & C). rewrite E. simpl.
    edestruct (IH (MkList (head l) (tail l) (next m) (elements l)) ps C) as (l' & T & ?); [lia|].
    rewrite T. simpl. eauto.
Qed.

Lemma swap_exchanges a b : swap a b = (b, a).
Proof. by destruct a, b. Qed.

(** The bounds of a list are those of its first and last interval. *)
Lemma list_bounds s l ps p q i j :
  rep s l ps -> list.head ps = Some p -> last ps = Some q ->
  contents <$> s !! p = Some i -> contents <$> s !! q = Some j ->
  list_minimum l s = Some (minimum i) /\ list_maximum l s = Some (maximum j).
Proof.
  intros (C & _ & [->|T] & _) Hp Hq Hi Hj; [done|].
  destruct ps as [|r ps]; [done|]. simpl in Hp. injection Hp as ->. destruct C as (H & _).
  unfold list_minimum, list_maximum. rewrite H, T, Hq. simpl.
  destruct (s !! p) as [n|]; [|done]. destruct (s !! q) as [m|]; [|done]. simpl in *. by simplify_eq.
Qed.

(** [SET INSERT_ID]: [append] of an interval is defined outside the repository. *)
Class Append := append : Z -> Z -> Z -> Discrete_intervals_list -> store -> option (Discrete_intervals_list * store).
Definition force_one_auto_inc_interval `{Append} (fuel : nat) (next_id : Z) (l : Discrete_intervals_list) (s : store)
    : option (Discrete_intervals_list * store) :=
  '(l', s') ← empty fuel l s; append next_id ULONGLONG_MAX 0 l' s'.
End Intervals.

(** ** The next value of a table handle *)

Module NextId.

Record state := MkState { next_insert_id : Z; insert_id_for_cur_row : Z }.
Definition set_next_insert_id (id : Z) (h : state) : state := MkState id (insert_id_for_cur_row h).
Definition restore_auto_increment (prev_insert_id : Z) (h : state) : state :=
  MkState (if prev_insert_id >? 0 then prev_insert_id else insert_id_for_cur_row h) (insert_id_for_cur_row h).

(** After a failed row that generated the value [id], the next row uses [id] again,
    whether or not the row was the first of the statement. *)
Lemma restore_reuses prev id h :
  0 <= prev -> insert_id_for_cur_row h = id -> (prev > 0 -> prev = id) ->
  next_insert_id (restore_auto_increment prev h) = id.
Proof. intros H E P. simpl. rewrite Z.gtb_ltb. destruct (Z.ltb_spec 0 prev); [apply P; lia|done]. Qed.
End NextId.

(** ** Options of data definition statements *)

Module Ddl.

Definition OPT_NONE : Z := 0.
Definition OPT_IF_NOT_EXISTS : Z := 2.
Definition OPT_LIKE : Z := 4.
Definition OPT_OR_REPLACE : Z := 16.
Definition OPT_OR_REPLACE_SLAVE_GENERATED : Z := 32.
Definition OPT_IF_EXISTS : Z := 64.
Definition OPT_CREATE_SELECT : Z := 128.

(** The value of [m_options], an unsigned integer of 32 bits. *)
Definition create_like_options (m : Z) : Z := Z.land m (Z.lor OPT_IF_NOT_EXISTS OPT_OR_REPLACE).
Definition if_not_exists (m : Z) : bool := nz (Z.land m OPT_IF_NOT_EXISTS).
Definition or_replace (m : Z) : bool := nz (Z.land m OPT_OR_REPLACE).
Definition or_replace_slave_generated (m : Z) : bool := nz (Z.land m OPT_OR_REPLACE_SLAVE_GENERATED).
Definition like (m : Z) : bool := nz (Z.land m OPT_LIKE).
Definition if_exists (m : Z) : bool := nz (Z.land m OPT_IF_EXISTS).
Definition is_create_select (m : Z) : bool := nz (Z.land m OPT_CREATE_SELECT).
Definition add (other m : Z) : Z := Z.lor m other.
(** [a | b] and [a |= b] are the same code: the result, and what [a] is afterwards. *)
Definition bit_or (a b : Z) : Z * Z := let a' := add b a in (a', a').

Lemma nz_land_lor a b k : 0 <= k -> nz (Z.land (Z.lor a b) (2 ^ k)) = nz (Z.land a (2 ^ k)) || nz (Z.land b (2 ^ k)).
Proof. intros. rewrite !nz_land_pow2 by done. apply Z.lor_spec. Qed.

(** Adding options keeps each of the ones that were set and sets the added ones;
    [CREATE ... LIKE] takes over exactly two of them. *)
Lemma options_exact a b :
  (if_not_exists (add b a) = if_not_exists a || if_not_exists b) /\
  (or_replace (add b a) = or_replace a || or_replace b) /\
  (or_replace_slave_generated (add b a) = or_replace_slave_generated a || or_replace_slave_generated b) /\
  (like (add b a) = like a || like b) /\ (if_exists (add b a) = if_exists a || if_exists b) /\
  (is_create_select (add b a) = is_create_select a || is_create_select b) /\
  if_not_exists (create_like_options a) = if_not_exists a /\ or_replace (create_like_options a) = or_replace a /\
  like (create_like_options a) = false /\ if_exists (create_like_options a) = false /\
  is_create_select (create_like_options a) = false /\ or_replace_slave_generated (create_like_options a) = false.
Proof.
  unfold if_not_exists, or_replace, or_replace_slave_generated, like, if_exists, is_create_select, add, create_like_options,
    OPT_IF_NOT_EXISTS, OPT_OR_REPLACE, OPT_OR_REPLACE_SLAVE_GENERATED, OPT_LIKE, OPT_IF_EXISTS, OPT_CREATE_SELECT.
  change 128 with (2 ^ 7). change 64 with (2 ^ 6). change 32 with (2 ^ 5). change 16 with (2 ^ 4).
  change 4 with (2 ^ 2). change (Z.lor 2 (2 ^ 4)) with 18. change 2 with (2 ^ 1).
  repeat split; try (by apply nz_land_lor); rewrite !nz_land_pow2, Z.land_spec by done; simpl; by rewrite ?andb_true_r, ?andb_false_r.
Qed.

(** [a | b] changes [a]. *)
Lemma bit_or_changes_operand : (bit_or OPT_NONE OPT_LIKE).2 <> OPT_NONE.
Proof. done. Qed.
End Ddl.
