(* ===== verification/Diagnostics.v ===== *)
(** Conditions and the diagnostics area of a session,
    [mariadb/include/mysql/server/private/sql_error.h].

    [State] is SQLSTATE values and what identifies a condition; [Info] is a
    [Warning_info], the conditions of one area; [Area] is the [Diagnostics_area] with
    its stack of them, which is an [I_P_List] of [PList].  [None] is a failed assertion
    or a null pointer followed. *)

From S2P Require Import Prelude PList.

(** ** SQLSTATE values and conditions *)

Module State.

Definition SQLSTATE_LENGTH : nat := 5.
Definition char0 : Z := 48.
Definition char1 : Z := 49.
Definition char2 : Z := 50.

(** [m_sqlstate], six bytes of which the last is zero. *)
Definition no_state : list Z := replicate (S SQLSTATE_LENGTH) 0.
(** [memcpy] of five bytes from a string that has that many. *)
Definition set_sqlstate (sqlstate : list Z) : option (list Z) :=
  if (length sqlstate <? SQLSTATE_LENGTH)%nat then None else Some (take SQLSTATE_LENGTH sqlstate ++ [0]).
Fixpoint c_str (s : list Z) : list Z :=
  match s with [] => [] | b :: s => if b =? 0 then [] else b :: c_str s end.
(** [strcmp] gives zero. *)
Definition eq (a b : list Z) : bool := bool_decide (c_str a = c_str b).
Definition at_ (m : list Z) (i : nat) : Z := nth i m 0.
Definition has_sql_state (m : list Z) : bool := negb (at_ m 0 =? 0).
Definition is_warning (m : list Z) : bool := (at_ m 0 =? char0) && (at_ m 1 =? char1).
Definition is_not_found (m : list Z) : bool := (at_ m 0 =? char0) && (at_ m 1 =? char2).
Definition is_exception (m : list Z) : bool := negb (at_ m 0 =? char0) || (at_ m 1 >? char2).
Definition is_sqlstate_completion (s : list Z) : bool := (at_ s 0 =? char0) && (at_ s 1 =? char0).

Inductive enum_warning_level := WARN_LEVEL_NOTE | WARN_LEVEL_WARN | WARN_LEVEL_ERROR.
#[export] Instance enum_warning_level_eq_dec : EqDecision enum_warning_level.
Proof. solve_decision. Defined.

(** What identifies a condition; [user] is the condition value of a user defined one. *)
Record Sql_condition_identity := MkIdentity {
  m_sqlstate : list Z;
  m_sql_errno : Z;
  m_level : enum_warning_level;
  m_user_condition_value : option positive;
}.
Definition new_identity : Sql_condition_identity := MkIdentity no_state 0 WARN_LEVEL_ERROR None.
Definition identity (sqlerrno : Z) (sqlstate : list Z) (level : enum_warning_level) (ucid : option positive)
    : option Sql_condition_identity :=
  m ← set_sqlstate sqlstate; Some (MkIdentity m sqlerrno level ucid).
Definition set_errno (sql_errno : Z) (sqlstate : list Z) (c : Sql_condition_identity) : option Sql_condition_identity :=
  m ← set_sqlstate sqlstate; Some (MkIdentity m sql_errno (m_level c) (m_user_condition_value c)).
Definition clear_errno (c : Sql_condition_identity) : Sql_condition_identity :=
  MkIdentity (m_sqlstate c) 0 (m_level c) (m_user_condition_value c).
Definition clear_level (c : Sql_condition_identity) : Sql_condition_identity :=
  clear_errno (MkIdentity (m_sqlstate c) (m_sql_errno c) WARN_LEVEL_ERROR (m_user_condition_value c)).
Definition clear_user (c : Sql_condition_identity) : Sql_condition_identity :=
  MkIdentity (m_sqlstate c) (m_sql_errno c) (m_level c) None.
Definition clear (c : Sql_condition_identity) : Sql_condition_identity := clear_user (clear_level c).

(** *** Properties *)

(** The characters of a valid SQLSTATE: digits and capital letters. *)
Definition sqlstate_char (c : Z) : Prop := 48 <= c <= 57 \/ 65 <= c <= 90.
Definition valid_sqlstate (s : list Z) : Prop := length s = SQLSTATE_LENGTH /\ Forall sqlstate_char s.

Lemma c_str_valid s : Forall sqlstate_char s -> c_str (s ++ [0]) = s.
Proof.
  induction 1 as [|c s H _ IH]; [done|]. simpl. destruct (Z.eqb_spec c 0); [unfold sqlstate_char in H; lia|].
  by rewrite IH.
Qed.

(** A valid SQLSTATE is in exactly one of the four classes, and two of them are
    compared whole. *)
Lemma sqlstate_classes s t m n :
  valid_sqlstate s -> valid_sqlstate t -> set_sqlstate s = Some m -> set_sqlstate t = Some n ->
  has_sql_state m = true /\ (eq m n = true <-> s = t) /\
  match is_sqlstate_completion m, is_warning m, is_not_found m, is_exception m with
  | true, false, false, false | false, true, false, false | false, false, true, false | false, false, false, true => True
  | _, _, _, _ => False
  end.
Proof.
  intros [Ls Vs] [Lt Vt]. unfold set_sqlstate. rewrite Ls, Lt. simpl Nat.ltb. intros [= <-] [= <-].
  rewrite !take_ge by lia. split; [|split].
  - destruct Vs as [|c s H _]; [done|]. unfold has_sql_state, at_. simpl.
    destruct (Z.eqb_spec c 0); [unfold sqlstate_char in H; lia|done].
  - unfold eq. rewrite bool_decide_eq_true, !c_str_valid by done. done.
  - destruct Vs as [|c s H Vs]; [done|]. destruct Vs as [|d s H' Vs]; [done|].
    unfold is_sqlstate_completion, is_warning, is_not_found, is_exception, at_, sqlstate_char, char0, char1, char2 in *. simpl.
    rewrite Z.gtb_ltb. destruct (Z.eqb_spec c 48), (Z.eqb_spec d 48), (Z.eqb_spec d 49), (Z.eqb_spec d 50), (Z.ltb_spec 50 d);
      simpl; try done; lia.
Qed.

(** A cleared condition keeps its SQLSTATE: it is not what the constructor makes. *)
Lemma clear_keeps_sqlstate c :
  clear c = MkIdentity (m_sqlstate c) 0 WARN_LEVEL_ERROR None /\
  (clear c = new_identity <-> m_sqlstate c = no_state).
Proof.
  split; [done|]. change (clear c) with (MkIdentity (m_sqlstate c) 0 WARN_LEVEL_ERROR None). unfold new_identity.
  split; [by intros [=]|by intros ->].
Qed.
End State.

(** ** The conditions of one area *)

Module Info.
Import State.

(** [m_warn_list] is its elements; the counters are [uint]; [long_bits] is the width of
    [long], the type of the row counter. *)
Record Warning_info := MkInfo {
  m_warn_list : list positive;
  notes : Z;
  warnings : Z;
  errors : Z;
  m_current_statement_warn_count : Z;
  m_current_row_for_warning : Z;
  m_warn_id : Z;
  m_error_condition : option positive;
  m_read_only : bool;
}.

(** [Warning_info::clear], defined outside the repository. *)
Class Clear := clear_info : Z -> Warning_info -> Warning_info.
(** Its comment: all warnings and their numbers are cleared, the id is the new one. *)
Class ClearLaws `{Clear} := {
  clear_id : forall n w, m_warn_id (clear_info n w) = n;
  clear_counts : forall n w, m_warn_list (clear_info n w) = [] /\ notes (clear_info n w) = 0 /\
    warnings (clear_info n w) = 0 /\ errors (clear_info n w) = 0;
}.

Section info.
Context (long_bits : Z) `{Clear}.

Definition opt_clear (query_id : Z) (w : Warning_info) : Warning_info :=
  if query_id =? m_warn_id w then w else clear_info query_id w.
Definition reset_for_next_command (w : Warning_info) : Warning_info :=
  MkInfo (m_warn_list w) (notes w) (warnings w) (errors w) 0 (m_current_row_for_warning w) (m_warn_id w)
    (m_error_condition w) (m_read_only w).
(** The sum of three [uint] is one. *)
Definition warn_count (w : Warning_info) : Z := u32 (u32 (notes w + errors w) + warnings w).
Definition error_count (w : Warning_info) : Z := errors w.
Definition cond_count (w : Warning_info) : Z := u32 (Z.of_nat (length (m_warn_list w))).
Definition id (w : Warning_info) : Z := m_warn_id w.
Definition set_id (id_arg : Z) (w : Warning_info) : Warning_info :=
  MkInfo (m_warn_list w) (notes w) (warnings w) (errors w) (m_current_statement_warn_count w)
    (m_current_row_for_warning w) id_arg (m_error_condition w) (m_read_only w).
Definition is_empty (w : Warning_info) : bool := bool_decide (m_warn_list w = []).
Definition with_row (row : Z) (w : Warning_info) : Warning_info :=
  MkInfo (m_warn_list w) (notes w) (warnings w) (errors w) (m_current_statement_warn_count w)
    row (m_warn_id w) (m_error_condition w) (m_read_only w).
Definition inc_current_row_for_warning (w : Warning_info) : Warning_info :=
  with_row (wrapU long_bits (m_current_row_for_warning w + 1)) w.
Definition reset_current_row_for_warning (n : Z) (w : Warning_info) : Warning_info := with_row (wrapU long_bits n) w.
Definition set_current_row_for_warning (row : Z) (w : Warning_info) : Z * Warning_info :=
  (m_current_row_for_warning w, with_row (wrapU long_bits row) w).
Definition set_read_only (read_only_arg : bool) (w : Warning_info) : Warning_info :=
  MkInfo (m_warn_list w) (notes w) (warnings w) (errors w) (m_current_statement_warn_count w)
    (m_current_row_for_warning w) (m_warn_id w) (m_error_condition w) read_only_arg.
Definition set_error_condition (c : option positive) (w : Warning_info) : Warning_info :=
  MkInfo (m_warn_list w) (notes w) (warnings w) (errors w) (m_current_statement_warn_count w)
    (m_current_row_for_warning w) (m_warn_id w) c (m_read_only w).
Definition clear_error_condition (w : Warning_info) : Warning_info := set_error_condition None w.

(** Within one query the warnings are cleared once. *)
Lemma opt_clear_once `{!ClearLaws} q w : m_warn_id w <> q ->
  opt_clear q w = clear_info q w /\ opt_clear q (opt_clear q w) = clear_info q w /\ warn_count (opt_clear q w) = 0.
Proof.
  intros N. assert (opt_clear q w = clear_info q w) as -> by (unfold opt_clear; destruct (Z.eqb_spec q (m_warn_id w)); congruence).
  unfold opt_clear, warn_count. rewrite clear_id, Z.eqb_refl. destruct (clear_counts q w) as (_ & -> & -> & ->). done.
Qed.

(** The number of warnings is the sum of the three levels while that fits 32 bits. *)
Lemma warn_count_sum w :
  0 <= notes w -> 0 <= warnings w -> 0 <= errors w -> notes w + warnings w + errors w < 2 ^ 32 ->
  warn_count w = notes w + warnings w + errors w.
Proof.
  intros. unfold warn_count. rewrite (wrapU_small 32 (notes w + errors w)) by (split; lia).
  rewrite wrapU_small by (split; lia). lia.
Qed.
End info.
End Info.

(** ** The diagnostics area *)

Module Area.
Import State Info.

Inductive enum_diagnostics_status := DA_EMPTY | DA_OK | DA_EOF | DA_OK_BULK | DA_EOF_BULK | DA_ERROR | DA_DISABLED.
#[export] Instance enum_diagnostics_status_eq_dec : EqDecision enum_diagnostics_status.
Proof. solve_decision. Defined.

Record Diagnostics_area := MkArea {
  m_is_sent : bool;
  m_can_overwrite_status : bool;
  m_message : list Z;
  m_affected_rows : Z;
  m_last_insert_id : Z;
  m_statement_warn_count : Z;
  m_status : enum_diagnostics_status;
  is_bulk_execution : bool;
  da_sqlstate : list Z;
  da_sql_errno : Z;
  da_user : option positive;
}.

(** *** Status *)

Definition is_set (a : Diagnostics_area) : bool := negb (bool_decide (m_status a = DA_EMPTY)).
Definition is_error (a : Diagnostics_area) : bool := bool_decide (m_status a = DA_ERROR).
Definition is_eof (a : Diagnostics_area) : bool := bool_decide (m_status a = DA_EOF).
Definition is_ok (a : Diagnostics_area) : bool := bool_decide (m_status a = DA_OK).
Definition is_disabled (a : Diagnostics_area) : bool := bool_decide (m_status a = DA_DISABLED).
Definition status_in (l : list enum_diagnostics_status) (a : Diagnostics_area) : bool := existsb (fun s => bool_decide (m_status a = s)) l.
Definition guarded {A} (b : bool) (x : A) : option A := if b then Some x else None.
Definition message (a : Diagnostics_area) : option (list Z) :=
  guarded (status_in [DA_ERROR; DA_OK; DA_OK_BULK; DA_EOF_BULK] a) (m_message a).
Definition sql_errno (a : Diagnostics_area) : option Z := guarded (is_error a) (da_sql_errno a).
Definition get_sqlstate (a : Diagnostics_area) : option (list Z) := guarded (is_error a) (da_sqlstate a).
Definition affected_rows (a : Diagnostics_area) : option Z := guarded (status_in [DA_OK; DA_OK_BULK] a) (m_affected_rows a).
Definition last_insert_id (a : Diagnostics_area) : option Z := guarded (status_in [DA_OK; DA_OK_BULK] a) (m_last_insert_id a).
Definition statement_warn_count (a : Diagnostics_area) : option Z :=
  guarded (status_in [DA_OK; DA_OK_BULK; DA_EOF; DA_EOF_BULK] a) (m_statement_warn_count a).
Definition unsafe_statement_warn_count (a : Diagnostics_area) : Z := m_statement_warn_count a.
Definition get_error_condition_identity (a : Diagnostics_area) : option Sql_condition_identity :=
  guarded (is_error a) (MkIdentity (da_sqlstate a) (da_sql_errno a) WARN_LEVEL_ERROR (da_user a)).
Definition increment_warning (a : Diagnostics_area) : Diagnostics_area :=
  if is_set a then
    MkArea (m_is_sent a) (m_can_overwrite_status a) (m_message a) (m_affected_rows a) (m_last_insert_id a)
      (u32 (m_statement_warn_count a + 1)) (m_status a) (is_bulk_execution a) (da_sqlstate a) (da_sql_errno a) (da_user a)
  else a.

(** Every status has its accessors: those of an error are available exactly on an
    error, those of a result exactly on a result. *)
Lemma accessors_by_status a :
  (is_Some (sql_errno a) <-> m_status a = DA_ERROR) /\ (is_Some (get_sqlstate a) <-> m_status a = DA_ERROR) /\
  (is_Some (get_error_condition_identity a) <-> m_status a = DA_ERROR) /\
  (is_Some (affected_rows a) <-> m_status a = DA_OK \/ m_status a = DA_OK_BULK) /\
  (is_Some (affected_rows a) -> is_Some (message a) /\ is_Some (statement_warn_count a)) /\
  (is_Some (message a) <-> is_Some (sql_errno a) \/ is_Some (affected_rows a) \/ m_status a = DA_EOF_BULK) /\
  (is_Some (statement_warn_count (increment_warning a)) <-> is_Some (statement_warn_count a)).
Proof.
  unfold sql_errno, get_sqlstate, get_error_condition_identity, affected_rows, message, statement_warn_count, increment_warning,
    is_error, is_set, status_in, guarded.
  destruct (m_status a) eqn:E; simpl; rewrite ?E; simpl;
    repeat split; intros; try done; try (by destruct H); eauto 6; by destruct H as [[]|[[]|]].
Qed.

(** *** The stack of condition lists *)

(** The objects [Warning_info] by address, and the list [m_wi_stack] that links them
    through [m_next_in_da] and [m_prev_in_da]. *)
Record state := MkState { stack : PList.store; infos : gmap positive Warning_info }.
Definition wi_stack : nat := 0.

Definition on_stack {A} (m : ST PList.store A) : ST state A :=
  fun s => '(a, h) ← m (stack s); Some (a, MkState h (infos s)).

Definition push_warning_info (wi : positive) : ST state unit :=
  on_stack (PList.push_front PList.counter PList.fast_push_back wi_stack wi).
Definition pop_warning_info : ST state unit :=
  (let* n := on_stack (PList.elements wi_stack) in
   if negb (n >? 0) then st_fail else
   let* p := on_stack (PList.front wi_stack) in
   match p with
   | Some wi => on_stack (PList.remove PList.counter PList.fast_push_back wi_stack wi)
   | None => st_fail
   end)%st.
Definition get_warning_info : ST state (option positive) := on_stack (PList.front wi_stack).

(** A method of the area that calls a method of the condition list on top. *)
Definition on_top {A} (f : Warning_info -> A * Warning_info) : ST state A :=
  (let* p := get_warning_info in
   match p with
   | Some wi => fun s => w ← infos s !! wi; Some ((f w).1, MkState (stack s) (<[wi := (f w).2]> (infos s)))
   | None => st_fail
   end)%st.
Definition modify (f : Warning_info -> Warning_info) (w : Warning_info) : unit * Warning_info := (tt, f w).
Definition read {A} (f : Warning_info -> A) (w : Warning_info) : A * Warning_info := (f w, w).

Section delegated.
Context (long_bits : Z) `{Clear}.

Definition set_warning_info_id (n : Z) : ST state unit := on_top (modify (set_id n)).
Definition warning_info_id : ST state Z := on_top (read m_warn_id).
Definition warning_info_changed (wi : Warning_info) : ST state bool :=
  on_top (read (fun w => negb (m_warn_id w =? m_warn_id wi))).
Definition is_warning_info_empty : ST state bool := on_top (read Info.is_empty).
Definition current_statement_warn_count : ST state Z := on_top (read m_current_statement_warn_count).
Definition da_reset_for_next_command : ST state unit := on_top (modify reset_for_next_command).
Definition clear_warning_info (n : Z) : ST state unit := on_top (modify (clear_info n)).
Definition opt_clear_warning_info (query_id : Z) : ST state unit := on_top (modify (opt_clear query_id)).
(** The old row is returned as a [long]. *)
Definition da_set_current_row_for_warning (row : Z) : ST state Z :=
  on_top (fun w => let r := set_current_row_for_warning long_bits row w in (wrapS long_bits r.1, r.2)).
Definition current_row_for_warning : ST state Z := on_top (read m_current_row_for_warning).
Definition da_inc_current_row_for_warning : ST state unit := on_top (modify (inc_current_row_for_warning long_bits)).
Definition da_reset_current_row_for_warning (n : Z) : ST state unit := on_top (modify (reset_current_row_for_warning long_bits n)).
Definition is_warning_info_read_only : ST state bool := on_top (read m_read_only).
Definition set_warning_info_read_only (b : bool) : ST state unit := on_top (modify (set_read_only b)).
Definition da_error_count : ST state Z := on_top (read error_count).
Definition da_warn_count : ST state Z := on_top (read warn_count).
Definition da_cond_count : ST state Z := on_top (read cond_count).
Definition get_error_condition : ST state (option positive) := on_top (read m_error_condition).
End delegated.

(** *** Nested areas *)

(** What a caller does between [push_warning_info] and [pop_warning_info]: calls on the
    area, and further lists pushed and popped. *)
Inductive block := Do (f : Warning_info -> Warning_info) | Within (wi : positive) (body : list block).
Fixpoint run_block (b : block) : ST state unit :=
  (match b with
   | Do f => on_top (modify f)
   | Within wi body =>
       push_warning_info wi ;;;
       (fix run_all bs := match bs with [] => st_ret tt | b :: bs => run_block b ;;; run_all bs end) body ;;;
       pop_warning_info
   end)%st.
Fixpoint run_all (bs : list block) : ST state unit :=
  (match bs with [] => st_ret tt | b :: bs => run_block b ;;; run_all bs end)%st.

(** The calls of the outermost level, applied in their order. *)
Fixpoint direct (bs : list block) (w : Warning_info) : Warning_info :=
  match bs with
  | [] => w
  | Do f :: bs => direct bs (f w)
  | Within _ _ :: bs => direct bs w
  end.
(** The lists that are pushed, and that none is pushed while it is on the stack [ps]. *)
Fixpoint pushed (b : block) : list positive :=
  match b with Do _ => [] | Within wi body => wi :: flat_map pushed body end.
Fixpoint scoped (ps : list positive) (b : block) : Prop :=
  match b with
  | Do _ => True
  | Within wi body => wi ∉ ps /\
      (fix all bs := match bs with [] => True | b :: bs => scoped (wi :: ps) b /\ all bs end) body
  end.

(** *** Properties *)

(** The lists [ps] are on the stack, the last pushed first; [dom] are the objects that
    may be pushed, too few for the counter to wrap. *)
Definition holds (dom ps : list positive) (s : state) : Prop :=
  PList.rep PList.counter PList.fast_push_back (stack s) wi_stack ps /\ ps ⊆ dom /\
  (forall p, p ∈ dom -> is_Some (PList.links (stack s) !! p) /\ is_Some (infos s !! p)) /\
  Z.of_nat (length dom) < 2 ^ 32.

Lemma block_induction (P : block -> Prop) :
  (forall f, P (Do f)) -> (forall wi body, Forall P body -> P (Within wi body)) -> forall b, P b.
Proof.
  intros HD HW. fix IH 1. intros [f|wi body]; [apply HD|apply HW].
  induction body as [|b body IHb]; constructor; [apply IH|done].
Qed.

Lemma scoped_all ps wi body :
  scoped ps (Within wi body) <-> wi ∉ ps /\ Forall (scoped (wi :: ps)) body.
Proof.
  simpl. split; intros [H1 H2]; (split; [done|]).
  - induction body as [|b body IH]; constructor; [apply H2|apply IH, H2].
  - induction H2 as [|b body H _ IH]; [done|by split].
Qed.

Lemma run_within wi body s :
  run_block (Within wi body) s = (push_warning_info wi ;;; run_all body ;;; pop_warning_info)%st s.
Proof. reflexivity. Qed.

(** The objects linked by the list keep their link fields through an operation on it. *)
Lemma links_kept C I h h' l ps (dom : list positive) :
  PList.rep C I h' l ps -> PList.only l ps h h' ->
  (forall p, p ∈ dom -> is_Some (PList.links h !! p)) -> forall p, p ∈ dom -> is_Some (PList.links h' !! p).
Proof.
  intros (b & _ & S & _) [_ O] H p Hp. destruct (decide (p ∈ ps)); [by eapply PList.seg_lookup|].
  rewrite O by done. by apply H.
Qed.

Lemma on_stack_run {A} (m : ST PList.store A) a h s :
  m (stack s) = Some (a, h) -> on_stack m s = Some (a, MkState h (infos s)).
Proof. intros E. unfold on_stack. by rewrite E. Qed.

Lemma push_holds dom ps wi s :
  holds dom ps s -> wi ∈ dom -> wi ∉ ps ->
  exists s', push_warning_info wi s = Some (tt, s') /\ holds dom (wi :: ps) s' /\ infos s' = infos s.
Proof.
  intros (R & S & D & N) Hw Hn.
  destruct (PList.pl_push_front_rep _ _ _ _ _ wi R Hn (proj1 (D wi Hw))) as (h' & E & R' & O).
  exists (MkState h' (infos s)). split; [by apply on_stack_run|]. split; [|done].
  split; [done|]. split; [set_solver|]. split; [|done]. intros p Hp. split; [|by apply D].
  eapply links_kept; [done..| |done]. intros q Hq. by apply D.
Qed.

Lemma front_run dom wi ps s : holds dom (wi :: ps) s -> PList.front wi_stack (stack s) = Some (Some wi, stack s).
Proof.
  intros (R & _). destruct (PList.rep_first _ _ _ _ _ R) as (b & E & F).
  unfold PList.front. rewrite (st_bind_Some _ _ _ _ _ (PList.get_list_run _ _ _ E)). by rewrite F.
Qed.

Lemma elements_run dom wi ps s : holds dom (wi :: ps) s ->
  exists n, PList.elements wi_stack (stack s) = Some (n, stack s) /\ 0 < n.
Proof.
  intros (R & S & _ & N). destruct R as (b & E & _ & ND & _ & HC). specialize (HC eq_refl).
  exists (PList.m_counter b). split.
  - unfold PList.elements. by rewrite (st_bind_Some _ _ _ _ _ (PList.get_list_run _ _ _ E)).
  - pose proof (submseteq_length _ _ (NoDup_submseteq _ _ ND S)). simpl in *.
    rewrite HC, wrapU_small by (split; lia). lia.
Qed.

Lemma pop_holds dom wi ps s :
  holds dom (wi :: ps) s ->
  exists s', pop_warning_info s = Some (tt, s') /\ holds dom ps s' /\ infos s' = infos s.
Proof.
  intros H. pose proof (front_run _ _ _ _ H) as F. destruct (elements_run _ _ _ _ H) as (n & E & Hn).
  destruct H as (R & S & D & N). destruct (PList.pl_remove_rep _ _ _ _ [] wi ps R) as (h' & Er & R' & O & L).
  exists (MkState h' (infos s)). destruct s as [h i]. simpl in *. split.
  - unfold pop_warning_info. rewrite (st_bind_Some _ _ _ _ _ (on_stack_run _ _ _ (MkState h i) E)).
    rewrite Z.gtb_ltb. destruct (Z.ltb_spec 0 n); [|lia]. cbn [negb].
    rewrite (st_bind_Some _ _ _ _ _ (on_stack_run _ _ _ (MkState h i) F)). by apply on_stack_run.
  - split; [|done]. split; [done|]. split; [set_solver|]. split; [|done]. intros p Hp. split; [|by apply D].
    simpl. eapply links_kept; [done..| |done]. intros q Hq. by apply D.
Qed.

Lemma top_run {A} (f : Warning_info -> A * Warning_info) dom p ps s w :
  holds dom (p :: ps) s -> infos s !! p = Some w ->
  exists s', on_top f s = Some ((f w).1, s') /\ holds dom (p :: ps) s' /\ infos s' = <[p := (f w).2]> (infos s).
Proof.
  intros H E. pose proof (front_run _ _ _ _ H) as F. destruct s as [h i]. simpl in *.
  exists (MkState h (<[p := (f w).2]> i)). split; [|split; [|done]].
  - unfold on_top, get_warning_info. rewrite (st_bind_Some _ _ _ _ _ (on_stack_run _ _ _ (MkState h i) F)).
    simpl. by rewrite E.
  - destruct H as (R & S & D & N). split; [done|]. split; [done|]. split; [|done]. intros q Hq.
    split; [by apply D|]. simpl. destruct (decide (p = q)) as [->|]; [by rewrite lookup_insert_eq|].
    rewrite lookup_insert_ne by done. by apply D.
Qed.

Lemma scoped_pushed ps b p : scoped ps b -> p ∈ ps -> p ∉ pushed b.
Proof.
  revert ps. induction b as [f|wi body IH] using block_induction; intros ps Hs Hp; [apply not_elem_of_nil|].
  apply scoped_all in Hs as [Hw Hs]. simpl. apply not_elem_of_cons. split; [by intros ->|].
  rewrite list_elem_of_In, in_flat_map. intros (b & Hb & Hpb). apply list_elem_of_In in Hb, Hpb.
  rewrite Forall_forall in IH, Hs. apply (IH b Hb (wi :: ps)); [by apply Hs|set_solver|done].
Qed.

(** [run] works on the list [p] on top as [f] says, and besides only on those of [used]. *)
Definition works_on (dom used : list positive) (p : positive) (ps : list positive) (f : Warning_info -> Warning_info)
    (run : ST state unit) : Prop :=
  forall s w, holds dom (p :: ps) s -> infos s !! p = Some w ->
  exists s', run s = Some (tt, s') /\ holds dom (p :: ps) s' /\ infos s' !! p = Some (f w) /\
    forall q, q <> p -> q ∉ used -> infos s' !! q = infos s !! q.

Lemma works_seq dom u1 u2 p ps f1 f2 r1 r2 :
  works_on dom u1 p ps f1 r1 -> works_on dom u2 p ps f2 r2 ->
  works_on dom (u1 ++ u2) p ps (fun w => f2 (f1 w)) (r1 ;;; r2)%st.
Proof.
  intros H1 H2 s w Hs Hw. destruct (H1 s w Hs Hw) as (s1 & E1 & Hs1 & Hw1 & U1).
  destruct (H2 s1 _ Hs1 Hw1) as (s2 & E2 & Hs2 & Hw2 & U2). exists s2.
  rewrite (st_bind_Some _ _ _ _ _ E1). split; [done|]. split; [done|]. split; [done|].
  intros q Hq Hu. rewrite U2, U1; [done|done|set_solver|done|set_solver].
Qed.

Lemma run_all_works dom p ps body :
  Forall (fun b => works_on dom (pushed b) p ps (direct [b]) (run_block b)) body ->
  works_on dom (flat_map pushed body) p ps (direct body) (run_all body).
Proof.
  induction 1 as [|b body H _ IH].
  - intros s w Hs Hw. by exists s.
  - intros s w Hs Hw. destruct (works_seq _ _ _ _ _ _ _ _ _ H IH s w Hs Hw) as (s' & E & Hs' & Hw' & U).
    exists s'. split; [done|]. split; [done|]. split; [by destruct b|done].
Qed.

(** Lists pushed on top and popped leave everything below as it was. *)
Lemma within_works dom wi p ps body :
  wi ∈ dom -> wi ∉ p :: ps -> p ∉ flat_map pushed body ->
  works_on dom (flat_map pushed body) wi (p :: ps) (direct body) (run_all body) ->
  works_on dom (wi :: flat_map pushed body) p ps (fun w => w) (run_block (Within wi body)).
Proof.
  intros Hd Hn Hp H s w Hs Hw. destruct (push_holds _ _ wi s Hs Hd Hn) as (s1 & E1 & Hs1 & I1).
  destruct (proj2 (proj1 (proj2 (proj2 Hs1)) wi Hd)) as [w1 Hw1].
  destruct (H s1 w1 Hs1 Hw1) as (s2 & E2 & Hs2 & _ & U2). destruct (pop_holds _ _ _ _ Hs2) as (s3 & E3 & Hs3 & I3).
  exists s3. rewrite run_within, (st_bind_Some _ _ _ _ _ E1), (st_bind_Some _ _ _ _ _ E2).
  split; [done|]. split; [done|]. rewrite I3. split.
  - by rewrite U2, I1 by set_solver.
  - intros q Hq Hu. by rewrite U2, I1 by set_solver.
Qed.

Lemma block_works dom b : forall p ps,
  scoped (p :: ps) b -> pushed b ⊆ dom -> works_on dom (pushed b) p ps (direct [b]) (run_block b).
Proof.
  induction b as [f|wi body IH] using block_induction; intros p ps Hs Hd.
  - intros s w H Hw. destruct (top_run (modify f) dom p ps s w H Hw) as (s' & E & H' & I).
    exists s'. split; [done|]. split; [done|]. rewrite I. simpl. split; [by rewrite lookup_insert_eq|].
    intros q Hq _. by rewrite lookup_insert_ne.
  - pose proof (scoped_pushed _ _ p Hs ltac:(set_solver)) as Hp. simpl in Hp, Hd.
    apply scoped_all in Hs as [Hn Hs]. apply within_works; [set_solver|done|set_solver|].
    apply run_all_works. rewrite Forall_forall in *. intros b Hb. apply IH; [done|by apply Hs|].
    intros q Hq. apply Hd, list_elem_of_further, list_elem_of_In, in_flat_map. exists b. by rewrite <- !list_elem_of_In.
Qed.

(** C7 : Condition lists are nested: whatever is done between a push and the matching
    pop, further lists pushed and popped included, the calls on the area reach
    exactly the list on top; afterwards the stack and all lists below are as before,
    and the pushed list has the calls of its own level, in their order.  Without a
    list on the stack a pop fails its assertion and a call follows a null pointer. *)
Theorem nested_areas dom ps wi body s w :
  holds dom ps s -> wi ∈ dom -> wi ∉ ps -> infos s !! wi = Some w ->
  Forall (scoped (wi :: ps)) body -> flat_map pushed body ⊆ dom ->
  (exists s', run_block (Within wi body) s = Some (tt, s') /\ holds dom ps s' /\
    infos s' !! wi = Some (direct body w) /\
    forall q, q <> wi -> q ∉ flat_map pushed body -> infos s' !! q = infos s !! q) /\
  (forall q, q ∈ ps -> q <> wi /\ q ∉ flat_map pushed body) /\
  (ps = [] -> pop_warning_info s = None /\ forall f : Warning_info -> unit * Warning_info, on_top f s = None).
Proof.
  intros H Hd Hn Hw Hs Hp. split; [|split].
  - destruct (push_holds _ _ wi s H Hd Hn) as (s1 & E1 & H1 & I1). rewrite <- I1 in Hw.
    assert (works_on dom (flat_map pushed body) wi ps (direct body) (run_all body)) as W.
    { apply run_all_works. rewrite Forall_forall in *. intros b Hb. apply block_works; [by apply Hs|].
      intros q Hq. apply Hp, list_elem_of_In, in_flat_map. exists b. by rewrite <- !list_elem_of_In. }
    destruct (W s1 w H1 Hw) as (s2 & E2 & H2 & Hw2 & U2). destruct (pop_holds _ _ _ _ H2) as (s3 & E3 & H3 & I3).
    exists s3. rewrite run_within, (st_bind_Some _ _ _ _ _ E1), (st_bind_Some _ _ _ _ _ E2). rewrite I3, <- I1.
    split; [done|]. split; [done|]. split; [done|]. exact U2.
  - intros q Hq. split; [by intros ->|]. rewrite list_elem_of_In, in_flat_map. intros (b & Hb & Hqb).
    apply list_elem_of_In in Hb, Hqb. rewrite Forall_forall in Hs. apply (scoped_pushed _ _ q (Hs b Hb)); [set_solver|done].
  - intros ->. destruct H as (R & _). pose proof R as (b & E & _ & _ & _ & HC). specialize (HC eq_refl).
    destruct (PList.rep_first _ _ _ _ _ R) as (b' & E' & F). simplify_eq. split.
    + unfold pop_warning_info. erewrite st_bind_Some; [|apply on_stack_run; unfold PList.elements;
        rewrite (st_bind_Some _ _ _ _ _ (PList.get_list_run _ _ _ E)); reflexivity]. by rewrite HC.
    + intros f. unfold on_top, get_warning_info. erewrite st_bind_Some; [|apply on_stack_run; unfold PList.front;
        rewrite (st_bind_Some _ _ _ _ _ (PList.get_list_run _ _ _ E)); reflexivity]. by rewrite F.
Qed.

(** A list pushed by a stored procedure, and one inside it. *)
Definition ex_info : Warning_info := MkInfo [] 0 0 0 0 1 10 None false.
Definition ex_state : state :=
  MkState (PList.Store {[ 1%positive := PList.Link None (PList.First 0); 2%positive := PList.Link None (PList.First 7);
                          3%positive := PList.Link None (PList.First 7) ]}
                       {[ 0%nat := PList.PList (Some 1%positive) (PList.Next 1) 1 ]})
          {[ 1%positive := ex_info; 2%positive := ex_info; 3%positive := ex_info ]}.
Definition ex_body : list block :=
  [Do (set_id 7); Within 3 [Do (set_read_only true)]; Do (inc_current_row_for_warning 64)].

Lemma ex_holds : holds [1; 2; 3]%positive [1%positive] ex_state.
Proof.
  split.
  - exists (PList.PList (Some 1%positive) (PList.Next 1) 1). split; [reflexivity|]. split; [|split; [|done]].
    + split; [done|]. exists None. split; [reflexivity|done].
    + apply (bool_decide_unpack _). vm_compute. exact I.
  - split; [|split; [|done]].
    + intros p Hp. set_solver.
    + intros p Hp. repeat (apply elem_of_cons in Hp as [->|Hp]; [split; eexists; reflexivity|]). by apply not_elem_of_nil in Hp.
Qed.

Lemma nested_areas_witness :
  exists s', run_block (Within 2 ex_body) ex_state = Some (tt, s') /\ holds [1; 2; 3]%positive [1%positive] s' /\
    infos s' !! 2%positive = Some (MkInfo [] 0 0 0 0 2 7 None false).
Proof.
  destruct (nested_areas [1; 2; 3]%positive [1%positive] 2 ex_body ex_state ex_info ex_holds) as [(s' & E & H & I & _) _].
  - set_solver.
  - set_solver.
  - reflexivity.
  - repeat constructor; simpl; try done; set_solver.
  - simpl. set_solver.
  - exists s'. split; [exact E|]. split; [exact H|]. rewrite I. reflexivity.
Defined.
End Area.
