(* ===== verification/CommitOrder.v ===== *)
(** The order of commits: the inline part of [wait_for_commit] in
    [mariadb/include/mysql/server/private/sql_class.h].

    The objects live in a store; the ones that wait for a commit are linked from its
    [subsequent_commits_list]. The functions of the other file that the inline ones
    call are the class [Commits]; [None] is a dangling pointer followed. *)

From S2P Require Import Prelude.

Record wait_for_commit := MkWait {
  subsequent_commits_list : option positive;
  next_subsequent_commit : option positive;
  waitee : option positive;
  wakeup_error : Z;
}.
Abbreviation store := (gmap positive wait_for_commit).

Definition with_list (v : option positive) (c : wait_for_commit) : wait_for_commit :=
  MkWait v (next_subsequent_commit c) (waitee c) (wakeup_error c).
Definition with_next (v : option positive) (c : wait_for_commit) : wait_for_commit :=
  MkWait (subsequent_commits_list c) v (waitee c) (wakeup_error c).
Definition with_waitee (v : option positive) (c : wait_for_commit) : wait_for_commit :=
  MkWait (subsequent_commits_list c) (next_subsequent_commit c) v (wakeup_error c).
Definition with_error (v : Z) (c : wait_for_commit) : wait_for_commit :=
  MkWait (subsequent_commits_list c) (next_subsequent_commit c) (waitee c) v.

(** [wait_for_commit **]: the list field of an object or the link field of one. *)
Inductive slot := List (p : positive) | Next (p : positive).
Definition read (x : slot) (s : store) : option (option positive) :=
  match x with List p => c ← s !! p; Some (subsequent_commits_list c) | Next p => c ← s !! p; Some (next_subsequent_commit c) end.
Definition write (x : slot) (v : option positive) (s : store) : option store :=
  match x with
  | List p => c ← s !! p; Some (<[p := with_list v c]> s)
  | Next p => c ← s !! p; Some (<[p := with_next v c]> s)
  end.

(** The loop of [remove_from_list]. *)
Fixpoint unlink (fuel : nat) (this : positive) (next_ptr_ptr : slot) (s : store) : option store :=
  cur ← read next_ptr_ptr s;
  match cur with
  | None => Some s
  | Some cur =>
      if decide (cur = this) then c ← s !! this; write next_ptr_ptr (next_subsequent_commit c) s
      else match fuel with O => None | S fuel => unlink fuel this (Next cur) s end
  end.
Definition remove_from_list (fuel : nat) (this : positive) (next_ptr_ptr : slot) (s : store) : option store :=
  s' ← unlink fuel this next_ptr_ptr s;
  c ← s' !! this; Some (<[this := with_waitee None c]> s').

(** What is defined outside the repository; [wait2] gives the error code. *)
Class Commits := {
  wait_for_prior_commit2 : positive -> bool -> store -> option (Z * store);
  prior_commit_error : positive -> store -> option store;
  wakeup_subsequent_commits2 : positive -> Z -> store -> option store;
  unregister_wait_for_prior_commit2 : positive -> store -> option store;
}.

Section inline.
Context `{Commits}.

Definition wait_for_prior_commit (this : positive) (allow_kill : bool) (s : store) : option (Z * store) :=
  c ← s !! this;
  match waitee c with
  | Some _ => wait_for_prior_commit2 this allow_kill s
  | None =>
      if nz (wakeup_error c) then s' ← prior_commit_error this s; c' ← s' !! this; Some (wakeup_error c', s')
      else Some (wakeup_error c, s)
  end.
Definition wakeup_subsequent_commits (this : positive) (wakeup_error_arg : Z) (s : store) : option store :=
  c ← s !! this;
  match subsequent_commits_list c with
  | Some _ => wakeup_subsequent_commits2 this wakeup_error_arg s
  | None => Some s
  end.
Definition unregister_wait_for_prior_commit (this : positive) (s : store) : option store :=
  c ← s !! this;
  match waitee c with
  | Some _ => unregister_wait_for_prior_commit2 this s
  | None => Some (<[this := with_error 0 c]> s)
  end.

(** Without a registered wait the inline checks alone decide: no error is 0, and after
    an unregistration a wait succeeds at once. *)
Lemma unregistered_never_waits this s c allow_kill :
  s !! this = Some c -> waitee c = None ->
  (wakeup_error c = 0 -> wait_for_prior_commit this allow_kill s = Some (0, s)) /\
  exists s', unregister_wait_for_prior_commit this s = Some s' /\ wait_for_prior_commit this allow_kill s' = Some (0, s').
Proof.
  intros E W. unfold wait_for_prior_commit, unregister_wait_for_prior_commit. rewrite E. simpl. rewrite W. split.
  - by intros ->.
  - eexists. split; [done|]. rewrite lookup_insert_eq. simpl. by rewrite W.
Qed.
End inline.

(** *** Removal *)

(** [ps] are linked from the pointer [v]. *)
Fixpoint chain (s : store) (v : option positive) (ps : list positive) : Prop :=
  match ps with
  | [] => v = None
  | p :: ps => v = Some p /\ exists c, s !! p = Some c /\ chain s (next_subsequent_commit c) ps
  end.
Definition agree (s s' : store) (p : positive) : Prop := next_subsequent_commit <$> s !! p = next_subsequent_commit <$> s' !! p.

Lemma chain_agree s s' v ps : (forall p, p ∈ ps -> agree s s' p) -> chain s v ps -> chain s' v ps.
Proof.
  revert v. induction ps as [|p ps IH]; intros v A; simpl; [done|]. intros (-> & c & E & C).
  split; [done|]. pose proof (A p ltac:(set_solver)) as Ap. unfold agree in Ap. rewrite E in Ap. simpl in Ap.
  destruct (s' !! p) as [c'|] eqn:E'; [|done]. injection Ap as Ap. exists c'. split; [done|].
  rewrite <- Ap. apply IH; [set_solver|done].
Qed.

(** The waiter leaves the list of its waitee and no longer waits; the others stay
    registered in their order, and no other object changes but the one before it. *)
Lemma unlink_spec s this x v ps fuel :
  read x s = Some v -> chain s v ps -> NoDup ps -> (length ps <= fuel)%nat ->
  match x with List p => p ∉ ps | Next p => p ∉ ps end ->
  exists s' v', unlink fuel this x s = Some s' /\ read x s' = Some v' /\
    chain s' v' (List.filter (fun q => negb (bool_decide (q = this))) ps) /\
    waitee <$> s' !! this = waitee <$> s !! this /\ (forall p, is_Some (s !! p) -> is_Some (s' !! p)) /\
    forall p, p ∉ ps -> match x with List q | Next q => q <> p end -> s' !! p = s !! p.
Proof.
  revert x v fuel. induction ps as [|p ps IH]; intros x v fuel R C N F X; simpl in C.
  - subst v. exists s, None. destruct fuel; simpl; rewrite R; by repeat split.
  - destruct C as (-> & c & E & C). apply NoDup_cons in N as [Np N].
    destruct fuel as [|fuel]; simpl in F; [lia|]. simpl. rewrite R. simpl.
    destruct (decide (p = this)) as [->|D].
    + rewrite E. simpl. rewrite bool_decide_eq_true_2 by done. simpl.
      assert (List.filter (fun q => negb (bool_decide (q = this))) ps = ps) as ->.
      { clear -Np. induction ps as [|q ps IH]; [done|]. simpl. rewrite bool_decide_eq_false_2 by set_solver.
        simpl. f_equal. apply IH. set_solver. }
      assert (exists q d f, s !! q = Some d /\ write x (next_subsequent_commit c) s = Some (<[q := f d]> s) /\ q <> this /\
        q ∉ ps /\ read x (<[q := f d]> s) = Some (next_subsequent_commit c) /\ x = (match x with List _ => List q | Next _ => Next q end))
        as (q & d & f & Eq & W & Dq & Nq & Rq & Xq).
      { destruct x as [q|q]; simpl in R |- *; destruct (s !! q) as [d|] eqn:Eq; simplify_eq/=;
          (exists q, d); [exists (with_list (next_subsequent_commit c))|exists (with_next (next_subsequent_commit c))];
          rewrite lookup_insert_eq; repeat split; try done; set_solver. }
      rewrite W. eexists _, _. split; [done|]. split; [done|]. split; [|split; [|split]].
      * apply (chain_agree s); [|done]. intros r Hr. unfold agree. rewrite lookup_insert_ne; [done|]. by intros ->.
      * by rewrite lookup_insert_ne, E.
      * intros r Hr. destruct (decide (q = r)) as [->|]; [by rewrite lookup_insert_eq|by rewrite lookup_insert_ne].
      * intros r Hr Hx. rewrite lookup_insert_ne; [done|]. rewrite Xq in Hx. by destruct x.
    + destruct (IH (Next p) _ fuel ltac:(simpl; by rewrite E) C N ltac:(lia) Np) as (s' & v' & U & R' & C' & W & K & O).
      exists s', (Some p). split; [done|].
      assert (forall q, q ∉ p :: ps -> s' !! q = s !! q) as O' by (intros q Hq; apply O; set_solver).
      split; [destruct x; simpl in *; by rewrite O'|]. split; [|split; [done|split; [done|]]].
      * rewrite bool_decide_eq_false_2 by done. simpl. split; [done|]. simpl in R'.
        destruct (s' !! p) as [c'|] eqn:E'; [|done]. injection R' as <-. by exists c'.
      * intros q Hq _. by apply O'.
Qed.

(** A waiter that gives up leaves the list of its waitee and no longer waits; the
    others stay registered in their order, and no other object changes except the
    link of the one before it. *)
Lemma remove_from_list_spec s this w ps c d fuel :
  s !! w = Some d -> chain s (subsequent_commits_list d) ps -> NoDup ps -> w ∉ ps -> s !! this = Some c -> this <> w ->
  (length ps <= fuel)%nat ->
  exists s' d', remove_from_list fuel this (List w) s = Some s' /\ waitee <$> s' !! this = Some None /\
    s' !! w = Some d' /\ chain s' (subsequent_commits_list d') (List.filter (fun q => negb (bool_decide (q = this))) ps) /\
    forall p, p ∉ ps -> p <> w -> p <> this -> s' !! p = s !! p.
Proof.
  intros Ew C N Nw Et D F.
  destruct (unlink_spec s this (List w) _ ps fuel ltac:(simpl; by rewrite Ew) C N F Nw) as (s1 & v & U & R & C' & W & K & O).
  unfold remove_from_list. rewrite U. simpl. destruct (K this) as [c1 E1]; [by rewrite Et|]. rewrite E1. simpl.
  simpl in R. destruct (s1 !! w) as [d1|] eqn:Ed; [|done]. injection R as R.
  eexists _, d1. split; [done|]. split; [by rewrite lookup_insert_eq|]. split; [by rewrite lookup_insert_ne|]. split.
  - rewrite R. apply (chain_agree s1); [|done]. intros p Hp. unfold agree.
    destruct (decide (p = this)) as [->|]; [by rewrite lookup_insert_eq, E1|by rewrite lookup_insert_ne].
  - intros p Hp Hw Ht. rewrite lookup_insert_ne by done. by apply O.
Qed.
