(* ===== verification/FixedBin.v ===== *)
(** Types with a fixed binary form (INET6, UUID and the like):
    [mariadb/include/mysql/server/private/sql_type_fixedbin.h] and
    [sql_type_fixedbin_storage.h].

    A type is an instance of [FbtImpl], the class parameter of the templates; [Storage]
    is the default form that a type may override.  A value has an in-memory form and
    an in-record form, which records and keys hold.  An [item] is what an expression
    gives when it is evaluated.  Memory allocation succeeds in this model; [None] as
    the outer result is a failed assertion. *)

From S2P Require Import Prelude.

(** [memcmp] of the first [n] bytes. *)
Fixpoint memcmp (n : nat) (p q : list Z) : comparison :=
  match n, p, q with
  | S n, x :: p, y :: q => match x ?= y with Eq => memcmp n p q | c => c end
  | _, _, _ => Eq
  end.

Lemma memcmp_refl n p : memcmp n p p = Eq.
Proof. revert p. induction n as [|n IH]; intros [|x p]; simpl; try done. by rewrite Z.compare_refl. Qed.
Lemma memcmp_antisym n p q : memcmp n q p = CompOpp (memcmp n p q).
Proof.
  revert p q. induction n as [|n IH]; intros [|x p] [|y q]; simpl; try done.
  rewrite (Z.compare_antisym x y). destruct (x ?= y); simpl; [apply IH|done|done].
Qed.
Lemma memcmp_eq n p q : length p = n -> length q = n -> memcmp n p q = Eq -> p = q.
Proof.
  revert p q. induction n as [|n IH]; intros [|x p] [|y q] Hp Hq; simpl in *; try done.
  destruct (Z.compare_spec x y) as [->| |]; [|done|done]. intros E. f_equal. apply IH; [lia|lia|done].
Qed.
Lemma memcmp_longer n m p q : length p = n -> length q = n -> (n <= m)%nat -> memcmp m p q = memcmp n p q.
Proof.
  revert m p q. induction n as [|n IH]; intros m [|x p] [|y q] Hp Hq Hm; simpl in *; try done.
  - by destruct m.
  - destruct m as [|m]; [lia|]. simpl. destruct (x ?= y); [|done|done]. apply IH; lia.
Qed.

(** ** The default storage *)

Module Storage.

Section storage.
Context (NATIVE_LEN : nat).

Definition set_zero : list Z := replicate NATIVE_LEN 0.
(** The constructor from the in-memory form. *)
Definition storage (str : list Z) : list Z :=
  if negb (length str =? NATIVE_LEN)%nat then set_zero else take NATIVE_LEN str.
(** The assertions on both lengths, then [memcmp]. *)
Definition cmp (a b : list Z) : option comparison :=
  if (length a =? NATIVE_LEN)%nat && (length b =? NATIVE_LEN)%nat then Some (memcmp NATIVE_LEN a b) else None.
Definition memory_to_record (from : list Z) : list Z := take NATIVE_LEN from.
Definition record_to_memory (from : list Z) : list Z := take NATIVE_LEN from.
(** The loop over [length] bytes. *)
Fixpoint only_zero_bytes (ptr : list Z) (n : nat) : bool :=
  match n, ptr with
  | S n, b :: ptr => if negb (b =? 0) then false else only_zero_bytes ptr n
  | _, _ => true
  end.
Definition KEY_pack_flags (column_nr : Z) : Z := 0.

Lemma only_zero_bytes_spec ptr : only_zero_bytes ptr (length ptr) = true <-> ptr = replicate (length ptr) 0.
Proof.
  induction ptr as [|b ptr IH]; simpl; [done|]. destruct (Z.eqb_spec b 0) as [->|]; simpl.
  - rewrite IH. split; [intros E; by rewrite <- E|by intros [=]].
  - split; [done|]. intros [=]. congruence.
Qed.
End storage.
End Storage.

(** ** The template parameter *)

Inductive charset := Binary | Ascii | NonAscii.
#[export] Instance charset_eq_dec : EqDecision charset.
Proof. solve_decision. Defined.

(** [well_formed_copy] is the conversion to latin1 of a text whose character set is
    not a superset of ASCII. *)
Class FbtImpl := {
  binary_length : nat;
  max_char_length : nat;
  ascii_to_fbt : list Z -> option (list Z);
  to_text : list Z -> list Z;
  fbt_cmp : list Z -> list Z -> comparison;
  memory_to_record : list Z -> list Z;
  record_to_memory : list Z -> list Z;
  well_formed_copy : list Z -> list Z;
}.

(** The documented promises: the text form reads back, the forms convert into each
    other, and the in-record form is comparable by [memcmp]; zero is zero in both. *)
Class FbtLaws `{FbtImpl} : Prop := {
  ascii_length : forall s b, ascii_to_fbt s = Some b -> length b = binary_length;
  text_back : forall b, length b = binary_length -> ascii_to_fbt (to_text b) = Some b;
  record_length : forall b, length b = binary_length -> length (memory_to_record b) = binary_length;
  memory_length : forall b, length b = binary_length -> length (record_to_memory b) = binary_length;
  record_back : forall b, length b = binary_length -> record_to_memory (memory_to_record b) = b;
  memory_back : forall b, length b = binary_length -> memory_to_record (record_to_memory b) = b;
  record_order : forall a b, length a = binary_length -> length b = binary_length ->
    memcmp binary_length (memory_to_record a) (memory_to_record b) = fbt_cmp a b;
  zero_record : memory_to_record (replicate binary_length 0) = replicate binary_length 0;
}.

(** ** Values *)

(** What an expression gives: [is_fbt] is whether it has this type; [native] and [str]
    are the results of [val_native] and [val_str], with [None] for NULL. *)
Record item := MkItem {
  is_fbt : bool;
  native : option (list Z);
  str : option (charset * list Z);
  maybe_null : bool;
  const_item : bool;
  is_expensive : bool;
}.

Module Fbt.
Section fbt.
Context `{FbtImpl}.

Definition character_string_to_fbt (cs : charset) (s : list Z) : option (list Z) :=
  match cs with NonAscii => ascii_to_fbt (well_formed_copy s) | _ => ascii_to_fbt s end.
Definition binary_to_fbt (s : list Z) : option (list Z) :=
  if negb (length s =? binary_length)%nat then None else Some s.
(** With the result: whether a warning is pushed. *)
Definition make_from_character_or_binary_string (cs : charset) (s : list Z) (warn : bool) : option (list Z) * bool :=
  if negb (bool_decide (cs = Binary)) then
    match character_string_to_fbt cs s with
    | None => (None, warn)
    | Some b => (Some b, false)
    end
  else if negb (length s =? binary_length)%nat then (None, warn) else (Some s, false).
Definition make_from_item (i : item) (warn : bool) : option (option (list Z) * bool) :=
  if is_fbt i then
    match native i with
    | None => Some (None, false)
    | Some tmp => if (length tmp =? binary_length)%nat then Some (Some tmp, false) else None
    end
  else
    match str i with
    | Some (cs, s) => Some (make_from_character_or_binary_string cs s warn)
    | None => Some (None, false)
    end.

(** [Fbt_null]: a value, or null. *)
Definition fbt_null (i : item) : option (option (list Z)) := r ← make_from_item i false; Some r.1.
Definition fbt_null_text (cs : charset) (s : list Z) : option (list Z) := character_string_to_fbt cs s.
Definition fbt_null_binary (s : list Z) : option (list Z) := binary_to_fbt s.
Definition to_fbt (v : option (list Z)) : option (list Z) := v.

Definition zero : list Z := replicate binary_length 0.
Definition of_record (ptr : list Z) : list Z := record_to_memory ptr.
Definition to_record (str_size : nat) (b : list Z) : option (list Z) :=
  if (binary_length <=? str_size)%nat then Some (memory_to_record b) else None.
Definition to_binary (b : list Z) : list Z := b.
Definition to_native (b : list Z) : list Z := b.
Definition to_string (b : list Z) : charset * list Z := (Ascii, to_text b).
Definition to_bool (b : list Z) : bool := negb (Storage.only_zero_bytes b binary_length).
Definition cmp (a b : list Z) : comparison := fbt_cmp a b.

(** [fix_fields_maybe_null_on_conversion_to_fbt], of one item and of several. *)
Definition maybe_null_on_conversion (i : item) : option bool :=
  if maybe_null i then Some true
  else if is_fbt i then Some false
  else if negb (const_item i) || is_expensive i then Some true
  else v ← fbt_null i; Some (match v with None => true | Some _ => false end).
Fixpoint maybe_null_on_conversion_all (items : list item) : option bool :=
  match items with
  | [] => Some false
  | i :: items => n ← maybe_null_on_conversion i; if n : bool then Some true else maybe_null_on_conversion_all items
  end.
End fbt.
End Fbt.

(** ** Columns *)

Module Field.
(** The bytes at [ptr], the null bit, and whether there is one. *)
Record field := MkField { rec : list Z; null : bool; nullable : bool }.

Section field.
Context `{FbtImpl}.

Definition set_min_value : list Z := replicate binary_length 0.
Definition set_max_value : list Z := replicate binary_length 255.
(** The results are the return value, the field, and whether [store_warning] is called. *)
Definition set_null_with_warn (f : field) : Z * field * bool := (1, MkField (rec f) true (nullable f), true).
Definition set_min_value_with_warn (f : field) : Z * field * bool := (1, MkField set_min_value (null f) (nullable f), true).
Definition set_max_value_with_warn (f : field) : Z * field * bool := (1, MkField set_max_value (null f) (nullable f), true).
Definition store_fbt_null_with_warn (v : option (list Z)) (f : field) : option (Z * field * bool) :=
  match v with
  | None => Some (if nullable f then set_null_with_warn f else set_min_value_with_warn f)
  | Some b => r ← Fbt.to_record binary_length b; Some (0, MkField r (null f) (nullable f), false)
  end.
Definition store_text (cs : charset) (s : list Z) (f : field) := store_fbt_null_with_warn (Fbt.fbt_null_text cs s) f.
Definition store_binary (s : list Z) (f : field) := store_fbt_null_with_warn (Fbt.fbt_null_binary s) f.
Definition store (cs : charset) (s : list Z) (f : field) : option (Z * field * bool) :=
  if bool_decide (cs = Binary) then store_binary s f else store_text cs s f.
Definition store_hex_hybrid (s : list Z) (f : field) := store_binary s f.
Definition store_native (value : list Z) (f : field) : option (Z * field * bool) :=
  if (length value =? binary_length)%nat then Some (0, MkField (memory_to_record value) (null f) (nullable f), false) else None.
(** Numbers and times are not converted: [store] of an integer, of a double, of a
    decimal and of a time. *)
Definition store_other (f : field) : Z * field * bool := set_min_value_with_warn f.

Definition val_native (f : field) : list Z := record_to_memory (rec f).
Definition to_fbt (f : field) : list Z := Fbt.of_record (rec f).
Definition val_str (f : field) : charset * list Z := Fbt.to_string (to_fbt f).
Definition val_bool (f : field) : bool := negb (Storage.only_zero_bytes (rec f) binary_length).
Definition val_int (f : field) : Z := 0.
Definition pack_length : nat := binary_length.
Definition cmp (a b : list Z) : comparison := memcmp pack_length a b.
Definition sort_string (n : nat) (f : field) : option (list Z) := if (n =? pack_length)%nat then Some (take n (rec f)) else None.

(** The constant that may replace the column in a condition. *)
Definition get_equal_const_item (i : item) : option (option (list Z)) := Fbt.fbt_null i.

Inductive scalar_comparison_op := SCALAR_CMP_EQ | SCALAR_CMP_EQUAL | SCALAR_CMP_LT | SCALAR_CMP_LE | SCALAR_CMP_GE | SCALAR_CMP_GT.
(** The range for a comparison with a value: no range, the one of NULL, none that can
    match, or the one made of the value stored in the column. *)
Inductive leaf := NoLeaf | NullElement | Impossible | StoredLeaf.
Definition is_eq_op (op : scalar_comparison_op) : bool :=
  match op with SCALAR_CMP_EQ | SCALAR_CMP_EQUAL => true | _ => false end.
(** [save] is what [save_in_field_no_warnings] returns and leaves in the column. *)
Definition get_mm_leaf (can_optimize : bool) (op : scalar_comparison_op) (save : Z * field) : leaf :=
  if negb can_optimize then NoLeaf
  else if (negb (match op with SCALAR_CMP_EQUAL => true | _ => false end) && null save.2) || (save.1 <? 0) then NullElement
  else if save.1 >? 0 then if is_eq_op op then Impossible else NoLeaf
  else StoredLeaf.
End field.
End Field.

(** ** Comparisons, caches and keys *)

Module Type_handler.
Section handler.
Context `{FbtImpl}.

(** *** cmp_item_fbt *)

Record cmp_item := MkCmp { m_native : list Z; m_null_value : bool }.
Definition new_cmp_item : cmp_item := MkCmp Fbt.zero false.
(** The value of the item; on null [junk] is what the buffer holds. *)
Definition store_value (junk : list Z) (i : item) : option cmp_item :=
  r ← Fbt.make_from_item i true;
  Some (match r.1 with Some b => MkCmp b false | None => MkCmp junk true end).
Definition cmp_not_null (cs : charset) (s : list Z) (c : cmp_item) : option comparison :=
  b ← Fbt.fbt_null_text cs s; Some (Fbt.cmp (m_native c) b).
Definition UNKNOWN : Z := -1.
Definition cmp (i : item) (c : cmp_item) : option Z :=
  v ← Fbt.fbt_null i;
  Some (match v with
        | Some b => if m_null_value c then UNKNOWN else match Fbt.cmp (m_native c) b with Eq => 0 | _ => 1 end
        | None => UNKNOWN
        end).
Definition compare (c d : cmp_item) : option comparison :=
  if m_null_value c || m_null_value d then None else Some (Fbt.cmp (m_native c) (m_native d)).

(** *** in_fbt *)

Record in_fbt := MkIn { base : list (list Z); m_value : list Z }.
(** The result is whether the item was null; [None] also when [pos] is out of bounds. *)
Definition in_set (pos : nat) (i : item) (v : in_fbt) : option (bool * in_fbt) :=
  x ← Fbt.fbt_null i;
  if negb (pos <? length (base v))%nat then None else
  Some (match x with
        | None => (true, MkIn (<[pos := Fbt.zero]> (base v)) (m_value v))
        | Some b => (false, MkIn (<[pos := b]> (base v)) (m_value v))
        end).
Definition get_value (i : item) (v : in_fbt) : option (option (list Z) * in_fbt) :=
  x ← Fbt.fbt_null i;
  Some (match x with None => (None, v) | Some b => (Some b, MkIn (base v) b) end).
Definition value_to_item (pos : nat) (v : in_fbt) : option (list Z) := base v !! pos.

(** *** Item_cache_fbt *)

Record cache := MkCache { example : option item; c_value : list Z; value_cached : bool; null_value : bool }.
Definition character_or_binary_string_to_native (cs : charset) (s : list Z) : option (list Z) * bool :=
  if bool_decide (cs = Binary) then
    if negb (length s =? binary_length)%nat then (None, true) else (Some s, false)
  else match Fbt.fbt_null_text cs s with None => (None, true) | Some b => (Some (Fbt.to_native b), false) end.
Definition Item_val_native_with_conversion (i : item) : option (list Z) :=
  if is_fbt i then native i
  else match str i with Some (cs, s) => (character_or_binary_string_to_native cs s).1 | None => None end.
(** On null the old bytes stay. *)
Definition cache_value (c : cache) : bool * cache :=
  match example c with
  | None => (false, c)
  | Some i =>
      match Item_val_native_with_conversion i with
      | Some b => (true, MkCache (example c) b true false)
      | None => (true, MkCache (example c) (c_value c) true true)
      end
  end.
Definition has_value (c : cache) : bool * cache :=
  let r := if value_cached c then (true, c) else cache_value c in (r.1 && negb (null_value r.2), r.2).
Definition cache_val_native (c : cache) : option (list Z) * cache :=
  let r := has_value c in (if r.1 then Some (c_value r.2) else None, r.2).
Definition cache_val_str (c : cache) : option (charset * list Z) * cache :=
  let r := has_value c in
  (if r.1 then b ← Fbt.fbt_null_binary (c_value r.2); Some (Fbt.to_string b) else None, r.2).
Definition cache_clear (c : cache) : cache := MkCache (example c) (c_value c) false true.

(** *** Item_typecast_fbt *)

Definition typecast_val_str (arg : item) : option (option (charset * list Z)) :=
  v ← Fbt.fbt_null arg; Some (option_map Fbt.to_string v).
Definition typecast_val_native (arg : item) : option (option (list Z)) :=
  v ← Fbt.fbt_null arg; Some (option_map Fbt.to_native v).
(** The buffer, of which the first bytes are set, and the length that is returned. *)
Definition func_name_cstring (name : list Z) : list Z * Z :=
  let len := Z.of_nat (9 + length name + 1) in
  ([99; 97; 115; 116; 95; 97; 115; 95] ++ name ++ [0], len).

(** *** Type_handler_fbt *)

Definition cmp_native (a b : list Z) : comparison := fbt_cmp a b.
(** The column holds [rec f]; the result is the order of the column to the item. *)
Definition stored_field_cmp_to_item (f : Field.field) (i : item) : option comparison :=
  v ← Fbt.fbt_null i;
  Some (match v with None => Eq | Some ni => CompOpp (Fbt.cmp ni (Field.val_native f)) end).
Definition Item_eq_value (a b : item) : option bool :=
  na ← Fbt.fbt_null a; nb ← Fbt.fbt_null b;
  Some (match na, nb with Some x, Some y => match Fbt.cmp x y with Eq => true | _ => false end | _, _ => false end).
Definition Item_val_bool (i : item) : bool :=
  match native i with None => false | Some tmp => negb (Storage.only_zero_bytes tmp (length tmp)) end.
(** [sort_length] is the length of the key part; the bytes that are written. *)
Definition make_sort_key_part (sort_length : nat) (i : item) : option (list Z) :=
  match maybe_null i, native i with
  | true, None => Some (replicate (S binary_length) 0)
  | false, None => None
  | n, Some tmp =>
      if (length tmp =? binary_length)%nat && (sort_length =? binary_length)%nat
      then Some ((if n then [1] else []) ++ memory_to_record tmp) else None
  end.
(** With the bytes: the length that is returned, without the byte for NULL. *)
Definition make_packed_sort_key_part (sort_length : nat) (i : item) : option (list Z * nat) :=
  match maybe_null i, native i with
  | true, None => Some ([0], 0%nat)
  | false, None => None
  | n, Some tmp =>
      if (length tmp =? binary_length)%nat && (sort_length =? binary_length)%nat
      then Some ((if n then [1] else []) ++ memory_to_record tmp, length tmp) else None
  end.
Definition sort_length : nat := binary_length.
Definition make_const_item_for_comparison (src : item) : option (option (list Z)) := Fbt.fbt_null src.
Definition Item_decimal_precision : Z := (Z.of_nat binary_length * 8 + 7) / 10 * 3.
(** Of an item of this type into a column of this type: [None] inside is the call of
    [set_field_to_null_with_conversions]. *)
Definition Item_save_in_field (i : item) (f : Field.field) : option (option (Z * Field.field * bool)) :=
  match native i with
  | None => Some None
  | Some tmp => r ← Field.store_native tmp (Field.MkField (Field.rec f) false (Field.nullable f)); Some (Some r)
  end.
(** [other_buffer] is whether [val_str] gave another string than the buffer it got; the
    value that is saved, and whether a warning is pushed. The string is read as text
    whatever its character set. *)
Definition Item_save_in_value (other_buffer : bool) (i : item) : option (charset * list Z) * bool :=
  match str i with
  | None => (None, false)
  | Some (cs, s) =>
      if other_buffer then match Fbt.fbt_null_text cs s with None => (None, true) | Some _ => (Some (cs, s), false) end
      else (Some (cs, s), false)
  end.
Definition Item_param_val_native (i : item) : option (list Z) :=
  match str i with None => None | Some (cs, s) => option_map Fbt.to_native (Fbt.fbt_null_text cs s) end.
(** [partition_field_append_value]: the value in quotes, or an error. *)
Definition partition_field_append_value (i : item) : option (option (list Z)) :=
  v ← Fbt.fbt_null i; Some (option_map (fun b => [39] ++ to_text b ++ [39]) v).
End handler.

(** *** Which type two types have in common *)

Inductive type_handler := HFbt | HNull | HVarchar | HString | HTinyBlob | HBlob | HMediumBlob | HLongBlob | HHexHybrid | HOther (n : nat).
#[export] Instance type_handler_eq_dec : EqDecision type_handler.
Proof. solve_decision. Defined.

Definition pair_eq (p : type_handler * type_handler * type_handler) (h1 h2 : type_handler) : bool :=
  bool_decide (p.1.1 = h1) && bool_decide (p.1.2 = h2).
Fixpoint find_handler_in_array (pairs : list (type_handler * type_handler * type_handler)) (h1 h2 : type_handler)
    (commutative : bool) : option type_handler :=
  match pairs with
  | [] => None
  | p :: pairs =>
      if pair_eq p h1 h2 then Some p.2
      else if commutative && pair_eq p h2 h1 then Some p.2
      else find_handler_in_array pairs h1 h2 commutative
  end.
Definition aggregate_common (a b : type_handler) : option type_handler := if decide (a = b) then Some a else None.
Definition agg_string : list (type_handler * type_handler * type_handler) :=
  [(HFbt, HNull, HFbt); (HFbt, HVarchar, HFbt); (HFbt, HString, HFbt); (HFbt, HTinyBlob, HFbt); (HFbt, HBlob, HFbt);
   (HFbt, HMediumBlob, HFbt); (HFbt, HLongBlob, HFbt); (HFbt, HHexHybrid, HFbt)].
Definition aggregate_if_string (a b : type_handler) : option type_handler := find_handler_in_array agg_string a b true.
Definition aggregate_for_result (a b : type_handler) : option type_handler :=
  match aggregate_common a b with
  | Some h => Some h
  | None => match aggregate_if_string a b with Some h => Some h | None => None end
  end.
Definition aggregate_for_min_max (a b : type_handler) : option type_handler := aggregate_for_result a b.
Definition aggregate_for_comparison (a b : type_handler) : option type_handler :=
  match aggregate_common a b with
  | Some h => Some h
  | None => find_handler_in_array [(HFbt, HNull, HFbt); (HFbt, HLongBlob, HFbt)] a b true
  end.
Definition aggregate_for_num_op (a b : type_handler) : option type_handler := None.
End Type_handler.

(** ** Properties *)

Module Props.
Import Type_handler.

(** What the interface of items promises: a value of this type has its length, and an
    item that is not marked as nullable has a value. *)
Record item_ok `{FbtImpl} (i : item) : Prop := {
  native_length : forall b, is_fbt i = true -> native i = Some b -> length b = binary_length;
  not_null : maybe_null i = false -> if is_fbt i then native i <> None else str i <> None;
}.

Section props.
Context `{FbtLaws}.

Lemma fbt_cmp_antisym a b : length a = binary_length -> length b = binary_length -> fbt_cmp b a = CompOpp (fbt_cmp a b).
Proof. intros. rewrite <- !record_order by done. apply memcmp_antisym. Qed.

Lemma fbt_cmp_eq a b : length a = binary_length -> length b = binary_length -> fbt_cmp a b = Eq <-> a = b.
Proof.
  intros Ha Hb. rewrite <- record_order by done. split; [|intros ->; apply memcmp_refl].
  intros E. apply memcmp_eq in E; [|by apply record_length..].
  rewrite <- (record_back a), <- (record_back b) by done. by rewrite E.
Qed.

Lemma make_from_item_length i warn r b :
  item_ok i -> Fbt.make_from_item i warn = Some r -> r.1 = Some b -> length b = binary_length.
Proof.
  intros [Hn _] E. unfold Fbt.make_from_item in E. destruct (is_fbt i) eqn:F.
  - destruct (native i) as [t|] eqn:N; [|by simplify_eq]. destruct (Nat.eqb_spec (length t) binary_length); [|done].
    simplify_eq/=. by intros [= <-].
  - destruct (str i) as [[cs s]|]; [|by simplify_eq]. simplify_eq. unfold Fbt.make_from_character_or_binary_string.
    destruct (negb (bool_decide (cs = Binary))).
    + unfold Fbt.character_string_to_fbt. destruct (match cs with NonAscii => _ | _ => _ end) eqn:C; simpl; intros; simplify_eq.
      destruct cs; by eapply ascii_length.
    + destruct (Nat.eqb_spec (length s) binary_length); simpl; intros; by simplify_eq.
Qed.

Lemma fbt_null_length i b : item_ok i -> Fbt.fbt_null i = Some (Some b) -> length b = binary_length.
Proof.
  intros Hi E. unfold Fbt.fbt_null in E. destruct (Fbt.make_from_item i false) as [r|] eqn:M; [|done].
  simpl in E. injection E as E. by eapply make_from_item_length.
Qed.

(** Evaluating an item never fails an assertion. *)
Lemma make_from_item_total i warn : item_ok i -> exists r, Fbt.make_from_item i warn = Some r.
Proof.
  intros [Hn _]. unfold Fbt.make_from_item. destruct (is_fbt i) eqn:F; [|destruct (str i) as [[]|]; eauto].
  destruct (native i) as [b|] eqn:N; [|eauto]. rewrite (Hn b) by done. rewrite Nat.eqb_refl. eauto.
Qed.
Lemma fbt_null_total i : item_ok i -> exists v, Fbt.fbt_null i = Some v.
Proof. intros Hi. unfold Fbt.fbt_null. destruct (make_from_item_total i false Hi) as [r ->]. simpl. eauto. Qed.

(** *** Nullability *)

(** When an item is taken to be not null after conversion, its conversion gives a
    value. *)
Lemma maybe_null_sound i :
  item_ok i -> Fbt.maybe_null_on_conversion i = Some false -> exists b, Fbt.fbt_null i = Some (Some b).
Proof.
  intros Hi. unfold Fbt.maybe_null_on_conversion. destruct (maybe_null i) eqn:M; [done|].
  destruct (fbt_null_total i Hi) as [v E]. destruct (is_fbt i) eqn:F.
  - intros _. pose proof (not_null i Hi M) as N. rewrite F in N. rewrite E. unfold Fbt.fbt_null, Fbt.make_from_item in E.
    rewrite F in E. destruct (native i) as [b|]; [|done]. destruct (_ =? _)%nat; [|done]. simplify_eq/=. eauto.
  - destruct (negb (const_item i) || is_expensive i); [done|]. rewrite E. destruct v; simpl; [eauto|done].
Qed.

Lemma maybe_null_all_sound items :
  Forall item_ok items -> Fbt.maybe_null_on_conversion_all items = Some false ->
  Forall (fun i => exists b, Fbt.fbt_null i = Some (Some b)) items.
Proof.
  induction 1 as [|i items Hi _ IH]; simpl; [done|].
  destruct (Fbt.maybe_null_on_conversion i) as [[|]|] eqn:E; simpl; try done.
  intros. constructor; [by apply maybe_null_sound|by apply IH].
Qed.

(** *** Storing *)

(** What a string stands for. *)
Definition meaning (cs : charset) (s : list Z) : option (list Z) :=
  if bool_decide (cs = Binary) then Fbt.fbt_null_binary s else Fbt.fbt_null_text cs s.

Lemma meaning_length cs s b : meaning cs s = Some b -> length b = binary_length.
Proof.
  unfold meaning, Fbt.fbt_null_binary, Fbt.fbt_null_text, Fbt.binary_to_fbt, Fbt.character_string_to_fbt.
  destruct (bool_decide (cs = Binary)); [destruct (Nat.eqb_spec (length s) binary_length); simpl; intros; by simplify_eq|].
  destruct cs; apply ascii_length.
Qed.

Lemma store_meaning cs s f :
  Field.store cs s f = Field.store_fbt_null_with_warn (meaning cs s) f.
Proof. unfold Field.store, meaning. by destruct (bool_decide (cs = Binary)). Qed.

Lemma store_value_runs b f :
  Field.store_fbt_null_with_warn (Some b) f = Some (0, Field.MkField (memory_to_record b) (Field.null f) (Field.nullable f), false).
Proof. unfold Field.store_fbt_null_with_warn, Fbt.to_record. by rewrite Nat.leb_refl. Qed.

Lemma zero_length : length (replicate binary_length 0) = binary_length.
Proof. apply length_replicate. Qed.

Lemma zero_memory : record_to_memory (replicate binary_length 0) = replicate binary_length 0.
Proof. rewrite <- zero_record at 1. apply record_back, zero_length. Qed.

Lemma val_bool_zero f b :
  length b = binary_length -> Field.rec f = memory_to_record b -> Field.val_bool f = false <-> b = Fbt.zero.
Proof.
  intros Hb E. unfold Field.val_bool. rewrite negb_false_iff, E, <- (record_length b Hb), Storage.only_zero_bytes_spec, record_length by done.
  unfold Fbt.zero. split; [|intros ->; apply zero_record].
  intros Z. rewrite <- (record_back b), Z by done. apply zero_memory.
Qed.

(** C9 : A column gives back what was stored in it.  A text or binary string that stands
    for a value stores it: reading gives the value and its text, and storing either
    of these again changes nothing; the value is false exactly when it is zero.  A
    string that stands for none, and every number, stores NULL where that is
    possible and zero elsewhere, with the return value 1 and a warning. *)
Theorem fbt_store_roundtrip cs s f :
  match meaning cs s with
  | Some b =>
      exists f', Field.store cs s f = Some (0, f', false) /\ Field.null f' = Field.null f /\
        Field.val_native f' = b /\ Field.val_str f' = (Ascii, to_text b) /\
        Field.store Ascii (to_text b) f' = Some (0, f', false) /\ Field.store Binary b f' = Some (0, f', false) /\
        Field.store_native b f' = Some (0, f', false) /\ (Field.val_bool f' = false <-> b = Fbt.zero)
  | None =>
      exists f', Field.store cs s f = Some (1, f', true) /\
        (if Field.nullable f then Field.null f' = true /\ Field.rec f' = Field.rec f
         else Field.null f' = Field.null f /\ Field.val_native f' = Fbt.zero /\ Field.val_bool f' = false)
  end /\
  (exists f', Field.store_other f = (1, f', true) /\ Field.val_native f' = Fbt.zero).
Proof.
  split.
  - rewrite store_meaning. destruct (meaning cs s) as [b|] eqn:M.
    + pose proof (meaning_length _ _ _ M) as Hb. rewrite store_value_runs. eexists. split; [done|]. split; [done|].
      unfold Field.val_native, Field.val_str, Field.to_fbt, Fbt.of_record, Fbt.to_string. simpl. rewrite record_back by done.
      split; [done|]. split; [done|]. rewrite !store_meaning. unfold meaning at 1 2. simpl.
      unfold Fbt.fbt_null_text, Fbt.character_string_to_fbt, Fbt.fbt_null_binary, Fbt.binary_to_fbt, Field.store_native.
      rewrite text_back, Hb, Nat.eqb_refl by done. cbn [negb].
      split; [by rewrite store_value_runs|]. split; [by rewrite store_value_runs|]. split; [done|]. by apply val_bool_zero.
    + unfold Field.store_fbt_null_with_warn. destruct (Field.nullable f) eqn:N; (eexists; split; [reflexivity|]); [done|].
      unfold Field.set_min_value_with_warn, Field.val_native. simpl. split; [done|]. split; [apply zero_memory|].
      apply (val_bool_zero _ Fbt.zero); [apply zero_length|simpl; symmetry; apply zero_record|done].
  - eexists. split; [done|]. apply zero_memory.
Qed.

(** *** Comparing *)

(** The order of an [IN] list, of a sort, of an index and of a comparison: NULL first,
    then [fbt_cmp]. *)
Definition value_order (x y : option (list Z)) : comparison :=
  match x, y with
  | None, None => Eq
  | None, Some _ => Lt
  | Some _, None => Gt
  | Some a, Some b => fbt_cmp a b
  end.

Lemma sort_key_run i n :
  item_ok i -> is_fbt i = true -> n = sort_length ->
  make_sort_key_part n i =
    Some (match native i with
          | None => replicate (S binary_length) 0
          | Some b => (if maybe_null i then [1] else []) ++ memory_to_record b
          end).
Proof.
  intros [Hl Hn] F ->. unfold make_sort_key_part, sort_length. rewrite Nat.eqb_refl. destruct (native i) as [b|] eqn:N.
  - rewrite (Hl b) by done. rewrite Nat.eqb_refl. simpl. by destruct (maybe_null i).
  - destruct (maybe_null i) eqn:M; [done|]. specialize (Hn eq_refl). rewrite F in Hn. congruence.
Qed.

(** Sort keys of two items of one column order as their values do. *)
Lemma sort_keys_order i j n :
  item_ok i -> item_ok j -> is_fbt i = true -> is_fbt j = true -> maybe_null i = maybe_null j -> n = sort_length ->
  exists ki kj, make_sort_key_part n i = Some ki /\ make_sort_key_part n j = Some kj /\ length ki = length kj /\
    memcmp (length ki) ki kj = value_order (native i) (native j).
Proof.
  intros Hi Hj Fi Fj M Hn. rewrite !sort_key_run by done. eexists _, _. split; [done|]. split; [done|].
  assert (forall k b, item_ok k -> is_fbt k = true -> native k = Some b -> length b = binary_length) as L
    by (intros k b [] ? ?; eauto).
  rewrite M. destruct (native i) as [a|] eqn:Ni, (native j) as [b|] eqn:Nj;
    repeat match goal with E : native ?k = Some ?x |- _ => apply L in E; [|done..] end.
  - rewrite !length_app, !record_length by done. split; [done|]. destruct (maybe_null j); simpl; by rewrite record_order.
  - pose proof (not_null j Hj) as Nn. rewrite Fj in Nn. destruct (maybe_null j) eqn:Mj; [|by destruct (Nn eq_refl)].
    simpl. rewrite record_length, length_replicate by done. done.
  - pose proof (not_null i Hi) as Nn. rewrite Fi, M in Nn. destruct (maybe_null j) eqn:Mj; [|by destruct (Nn eq_refl)].
    simpl. rewrite record_length, length_replicate by done. done.
  - split; [done|]. apply memcmp_refl.
Qed.

(** C8 : All comparisons of one type are one order.  Records compared by [memcmp], values
    in memory, the comparator of [IN], sort keys (NULL first), and a stored column
    against an item give the same answer for the same values; equality in a
    condition is equality of the bytes, and NULL is equal to nothing. *)
Theorem fbt_orders_agree a b f i j n :
  length a = binary_length -> length b = binary_length -> Field.rec f = memory_to_record a ->
  item_ok i -> item_ok j -> Fbt.fbt_null i = Some (Some a) -> Fbt.fbt_null j = Some (Some b) -> n = sort_length ->
  Field.cmp (memory_to_record a) (memory_to_record b) = fbt_cmp a b /\ cmp_native a b = fbt_cmp a b /\
  compare (MkCmp a false) (MkCmp b false) = Some (fbt_cmp a b) /\
  stored_field_cmp_to_item f j = Some (fbt_cmp a b) /\
  (fbt_cmp a b = Eq <-> a = b) /\ fbt_cmp b a = CompOpp (fbt_cmp a b) /\
  (Item_eq_value i j = Some true <-> a = b) /\ (cmp j (MkCmp a false) = Some 0 <-> a = b) /\
  (forall k, item_ok k -> Fbt.fbt_null k = Some None ->
     Item_eq_value i k = Some false /\ cmp k (MkCmp a false) = Some UNKNOWN) /\
  (is_fbt i = true -> is_fbt j = true -> maybe_null i = maybe_null j ->
   exists ki kj, make_sort_key_part n i = Some ki /\ make_sort_key_part n j = Some kj /\
     memcmp (length ki) ki kj = fbt_cmp a b).
Proof.
  intros Ha Hb Hf Hi Hj Ei Ej Hn. pose proof (fbt_cmp_eq a b Ha Hb) as Q.
  split; [by apply record_order|]. split; [done|]. split; [done|].
  split; [unfold stored_field_cmp_to_item, Field.val_native, Fbt.cmp; rewrite Ej, Hf, record_back by done; simpl;
          by rewrite (fbt_cmp_antisym a b), CompOpp_involutive by done|].
  split; [done|]. split; [by apply fbt_cmp_antisym|].
  split; [unfold Item_eq_value, Fbt.cmp; rewrite Ei, Ej; simpl; rewrite <- Q; by destruct (fbt_cmp a b)|].
  split; [unfold cmp, Fbt.cmp; rewrite Ej; simpl; rewrite <- Q; by destruct (fbt_cmp a b)|].
  split; [intros k _ Ek; unfold Item_eq_value, cmp; by rewrite Ei, Ek|].
  intros Fi Fj M. destruct (sort_keys_order i j n Hi Hj Fi Fj M Hn) as (ki & kj & K1 & K2 & _ & K).
  exists ki, kj. split; [done|]. split; [done|]. rewrite K.
  assert (forall k x, is_fbt k = true -> Fbt.fbt_null k = Some (Some x) -> native k = Some x) as N.
  { intros k x Fk E. unfold Fbt.fbt_null, Fbt.make_from_item in E. rewrite Fk in E.
    destruct (native k); [|done]. destruct (_ =? _)%nat; [|done]. by simplify_eq/=. }
  by rewrite (N i a), (N j b).
Qed.

(** *** The cache of an item *)

(** A cache gives the converted value of its item, NULL when there is none, and the
    same at every later reading; the text is that of the value. *)
Lemma cache_reads i c :
  example c = Some i -> value_cached c = false ->
  let r := cache_val_native c in
  r.1 = Item_val_native_with_conversion i /\ cache_val_native r.2 = (r.1, r.2) /\
  (forall b, r.1 = Some b -> length b = binary_length -> (cache_val_str r.2).1 = Some (Fbt.to_string b)) /\
  (r.1 = None -> (cache_val_str r.2).1 = None).
Proof.
  intros E V. unfold cache_val_native, cache_val_str, has_value, cache_value. rewrite V, E. simpl.
  destruct (Item_val_native_with_conversion i) as [b|]; simpl; (split; [done|]); (split; [done|]); split; try done.
  - intros b' [= <-] L. unfold Fbt.fbt_null_binary, Fbt.binary_to_fbt. by rewrite L, Nat.eqb_refl.
Qed.

(** *** Strings read as text *)

(** A binary string of the right length is a value wherever items are converted, but
    [Item_save_in_value] and the value of a parameter read it as text. *)
Lemma binary_string_rejected i s :
  is_fbt i = false -> str i = Some (Binary, s) -> length s = binary_length -> ascii_to_fbt s = None ->
  Fbt.fbt_null i = Some (Some s) /\ Item_val_native_with_conversion i = Some s /\
  Item_save_in_value true i = (None, true) /\ Item_param_val_native i = None.
Proof.
  intros F S L A. unfold Fbt.fbt_null, Fbt.make_from_item, Item_val_native_with_conversion, Item_save_in_value,
    Item_param_val_native, Fbt.fbt_null_text, Fbt.character_string_to_fbt, character_or_binary_string_to_native,
    Fbt.make_from_character_or_binary_string.
  rewrite F, S. simpl. by rewrite L, Nat.eqb_refl, A.
Qed.
End props.

(** *** The common type of two types *)

(** The common type does not depend on the order, is this type or the only one there
    is, and what may be compared may also be combined. *)
Lemma aggregate_laws a b :
  aggregate_for_result a b = aggregate_for_result b a /\ aggregate_for_comparison a b = aggregate_for_comparison b a /\
  (forall h, aggregate_for_result a b = Some h -> a = b /\ h = a \/ (a = HFbt \/ b = HFbt) /\ h = HFbt) /\
  (forall h, aggregate_for_comparison a b = Some h -> aggregate_for_result a b = Some h).
Proof.
  unfold aggregate_for_result, aggregate_for_comparison, aggregate_common, aggregate_if_string.
  destruct (decide (a = b)) as [->|D].
  - rewrite decide_True by done. repeat split; intros; simplify_eq; auto.
  - rewrite (decide_False (P := b = a)) by congruence. destruct a, b; try (by destruct D); vm_compute; repeat split; intros; simplify_eq; auto.
Qed.

(** The name of a cast: its length counts the closing zero and one byte more, which
    is never set. *)
Lemma func_name_too_long name :
  let r := func_name_cstring name in
  Z.of_nat (length r.1) = Z.of_nat (length name) + 9 /\ r.2 = Z.of_nat (length r.1) + 1.
Proof. unfold func_name_cstring. simpl. rewrite length_app. simpl. lia. Qed.
End Props.

(** ** A type of two bytes, stored in the other order *)

Module Example.
Import Type_handler Props.

Definition swap_bytes (b : list Z) : list Z := match b with [x; y] => [y; x] | _ => b end.
(** The text is a hyphen and the two bytes. *)
Definition parse (s : list Z) : option (list Z) := match s with [c; x; y] => if c =? 45 then Some [x; y] else None | _ => None end.

#[export] Instance ex_impl : FbtImpl := {
  binary_length := 2;
  max_char_length := 3;
  ascii_to_fbt := parse;
  to_text b := 45 :: b;
  fbt_cmp a b := memcmp 2 (swap_bytes a) (swap_bytes b);
  memory_to_record := swap_bytes;
  record_to_memory := swap_bytes;
  well_formed_copy s := s;
}.

Lemma two_bytes (P : list Z -> Prop) : (forall x y, P [x; y]) -> forall b, length b = 2%nat -> P b.
Proof. intros H [|x [|y [|z b]]] L; simpl in L; try lia. apply H. Qed.

#[export] Instance ex_laws : FbtLaws.
Proof.
  constructor; simpl; try (refine (two_bytes _ _); reflexivity); try reflexivity.
  intros s b. destruct s as [|c [|x [|y [|z s]]]]; simpl; try done. destruct (c =? 45); [|done]. by intros [= <-].
Qed.

Definition ex_field : Field.field := Field.MkField [1; 2] false false.
Definition ex_item (b : option (list Z)) : item := MkItem true b None true false false.

Lemma ex_item_ok b : match b with Some x => length x = 2%nat | None => True end -> item_ok (ex_item b).
Proof. intros L. constructor; simpl; [intros x _ [= ->]; exact L|done]. Qed.

Lemma fbt_orders_agree_witness :
  Field.cmp [1; 2] [3; 1] = Lt /\ stored_field_cmp_to_item ex_field (ex_item (Some [1; 3])) = Some Lt /\
  exists ki kj, make_sort_key_part 2 (ex_item (Some [2; 1])) = Some ki /\ make_sort_key_part 2 (ex_item (Some [1; 3])) = Some kj /\
    memcmp (length ki) ki kj = Lt.
Proof.
  destruct (@fbt_orders_agree ex_impl ex_laws [2; 1] [1; 3] ex_field (ex_item (Some [2; 1])) (ex_item (Some [1; 3])) 2
    eq_refl eq_refl eq_refl (ex_item_ok (Some [2; 1]) eq_refl) (ex_item_ok (Some [1; 3]) eq_refl) eq_refl eq_refl eq_refl)
    as (H1 & _ & _ & H2 & _ & _ & _ & _ & _ & H3).
  split; [exact H1|]. split; [exact H2|]. exact (H3 eq_refl eq_refl eq_refl).
Defined.

Lemma fbt_store_roundtrip_witness :
  exists f, Field.store Ascii [45; 7; 8] ex_field = Some (0, f, false) /\ Field.val_native f = [7; 8] /\
    Field.store Ascii [45; 7; 8] f = Some (0, f, false).
Proof.
  destruct (proj1 (@fbt_store_roundtrip ex_impl ex_laws Ascii [45; 7; 8] ex_field)) as (f & H1 & _ & H2 & _ & H3 & _).
  exists f. split; [exact H1|]. split; [exact H2|exact H3].
Defined.

Lemma fbt_store_example :
  (exists f, Field.store Ascii [45; 7; 8] ex_field = Some (0, f, false) /\ Field.val_native f = [7; 8] /\ Field.rec f = [8; 7]) /\
  (exists f, Field.store Ascii [7; 8] ex_field = Some (1, f, true) /\ Field.rec f = [0; 0]) /\
  Item_save_in_value true (MkItem false None (Some (Binary, [7; 8])) false true false) = (None, true).
Proof. repeat split; eexists; repeat split. Qed.
End Example.
