(* ===== verification/Filesort.v ===== *)
(** Sorting of rows: the sort buffer of
    [mariadb/include/mysql/server/private/filesort_utils.h], and the merge chunks and
    the lengths of packed records of [sql_sort.h].

    Memory is a function from addresses to bytes; a pointer has eight bytes and 0 is
    the null pointer. [None] is a failed assertion. *)

From S2P Require Import Prelude ByteOrder.

(** ** Memory *)

Module Memory.

Definition write (m : mem) (a : Z) (bs : list Z) : mem :=
  fun x => if (a <=? x) && (x <? a + Z.of_nat (length bs)) then nth (Z.to_nat (x - a)) bs 0 else m x.
Definition read (m : mem) (a : Z) (n : nat) : list Z := map (fun k => m (a + Z.of_nat k)) (seq 0 n).
Definition put_ptr (m : mem) (a p : Z) : mem := write m a (to_digits 8 8 p).
Definition get_ptr (m : mem) (a : Z) : Z := from_digits 8 (read m a 8).

Lemma length_read m a n : length (read m a n) = n.
Proof. unfold read. by rewrite length_map, length_seq. Qed.

Lemma write_outside m a bs x : x < a \/ a + Z.of_nat (length bs) <= x -> write m a bs x = m x.
Proof. intros H. unfold write. destruct (Z.leb_spec a x), (Z.ltb_spec x (a + Z.of_nat (length bs))); simpl; try done; lia. Qed.

Lemma read_of_write m a bs : read (write m a bs) a (length bs) = bs.
Proof.
  apply (nth_ext _ _ 0 0); [apply length_read|]. intros k Hk. rewrite length_read in Hk. unfold read.
  rewrite (nth_indep _ 0 (write m a bs (a + Z.of_nat 0))) by (by rewrite length_map, length_seq).
  rewrite (map_nth (fun k => write m a bs (a + Z.of_nat k))), seq_nth by done. unfold write.
  destruct (Z.leb_spec a (a + Z.of_nat (0 + k))), (Z.ltb_spec (a + Z.of_nat (0 + k)) (a + Z.of_nat (length bs))); simpl; try lia.
  f_equal. lia.
Qed.

Lemma read_frame m a bs b n :
  a + Z.of_nat (length bs) <= b \/ b + Z.of_nat n <= a -> read (write m a bs) b n = read m b n.
Proof.
  intros H. unfold read. apply map_ext_in. intros k Hk. apply in_seq in Hk. apply write_outside. lia.
Qed.

Lemma get_put m a p : in_u 64 p -> get_ptr (put_ptr m a p) a = p.
Proof.
  intros Hp. unfold get_ptr, put_ptr. pose proof (read_of_write m a (to_digits 8 8 p)) as R.
  rewrite length_to_digits in R. rewrite R, from_to_digits by lia. by apply wrapU_small.
Qed.

Lemma get_put_frame m a p b : a + 8 <= b \/ b + 8 <= a -> get_ptr (put_ptr m a p) b = get_ptr m b.
Proof. intros H. unfold get_ptr, put_ptr. rewrite read_frame; [done|]. rewrite length_to_digits. lia. Qed.

Lemma get_write_frame m a bs b :
  a + Z.of_nat (length bs) <= b \/ b + 8 <= a -> get_ptr (write m a bs) b = get_ptr m b.
Proof. intros H. unfold get_ptr. by rewrite read_frame by lia. Qed.

Lemma read_put_frame m a p b n : a + 8 <= b \/ b + Z.of_nat n <= a -> read (put_ptr m a p) b n = read m b n.
Proof. intros H. unfold put_ptr. apply read_frame. rewrite length_to_digits. lia. Qed.
End Memory.

(** ** The sort buffer *)

Module Buffer.
Import Memory.

Definition ptr_size : Z := 8.

Record Filesort_buffer := MkBuffer {
  m_next_rec_ptr : Z;
  m_rawmem : Z;
  m_record_pointers : Z;
  m_sort_keys : Z;
  m_num_records : Z;
  m_record_length : Z;
  m_sort_length : Z;
  m_size_in_bytes : Z;
  m_idx : Z;
}.
Definition new_buffer : Filesort_buffer := MkBuffer 0 0 0 0 0 0 0 0 0.

Definition get_sort_keys (b : Filesort_buffer) : Z :=
  if m_idx b =? 0 then 0 else m_record_pointers b + ptr_size * (1 - m_idx b).
(** One turn of the loop that exchanges [keys[ix]] and [keys[count - ix]]. *)
Definition swap_keys (keys count : Z) (m : mem) (ix : Z) : mem :=
  let tmp := get_ptr m (keys + ptr_size * (count - ix)) in
  let m := put_ptr m (keys + ptr_size * (count - ix)) (get_ptr m (keys + ptr_size * ix)) in
  put_ptr m (keys + ptr_size * ix) tmp.
Definition reverse_record_pointers (b : Filesort_buffer) (m : mem) : mem :=
  if m_idx b <? 2 then m
  else
    let keys := get_sort_keys b in
    let count := m_idx b - 1 in
    fold_left (swap_keys keys count) (seqZ 0 (count / 2 + 1)) m.
Definition init_next_record_pointer (b : Filesort_buffer) : Filesort_buffer :=
  MkBuffer (m_rawmem b) (m_rawmem b) (m_record_pointers b) 0 (m_num_records b) (m_record_length b) (m_sort_length b)
    (m_size_in_bytes b) 0.
Definition space_used_for_data (b : Filesort_buffer) : Z :=
  if nz (m_next_rec_ptr b) then m_next_rec_ptr b - m_rawmem b else 0.
Definition spaceleft (b : Filesort_buffer) : option Z :=
  if m_next_rec_ptr b >=? m_rawmem b then
    let spaceused := u64 (m_next_rec_ptr b - m_rawmem b + u64 (u64 (m_idx b) * ptr_size)) in
    Some (u64 (m_size_in_bytes b - spaceused))
  else None.
Definition isfull (b : Filesort_buffer) : option bool :=
  if m_idx b <? m_num_records b then Some false
  else left ← spaceleft b; Some (left <? m_record_length b + ptr_size).
Definition get_next_record_pointer (b : Filesort_buffer) (m : mem) : Z * (Filesort_buffer * mem) :=
  let retval := m_next_rec_ptr b in
  (retval,
   (MkBuffer (m_next_rec_ptr b + m_record_length b) (m_rawmem b) (m_record_pointers b) (m_sort_keys b) (m_num_records b)
      (m_record_length b) (m_sort_length b) (m_size_in_bytes b) (m_idx b + 1),
    put_ptr m (m_record_pointers b + ptr_size * - m_idx b) (m_next_rec_ptr b))).
Definition adjust_next_record_pointer (val : Z) (b : Filesort_buffer) : Filesort_buffer :=
  MkBuffer (m_next_rec_ptr b - u32 (m_record_length b - val)) (m_rawmem b) (m_record_pointers b) (m_sort_keys b)
    (m_num_records b) (m_record_length b) (m_sort_length b) (m_size_in_bytes b) (m_idx b).
(** The loop of [init_record_pointers]. *)
Fixpoint next_pointers (fuel : nat) (b : Filesort_buffer) (m : mem) : option (Filesort_buffer * mem) :=
  if m_idx b <? m_num_records b then
    match fuel with O => None | S fuel => let r := (get_next_record_pointer b m).2 in next_pointers fuel r.1 r.2 end
  else Some (b, m).
Definition init_record_pointers (fuel : nat) (b : Filesort_buffer) (m : mem) : option (Filesort_buffer * mem) :=
  r ← next_pointers fuel (init_next_record_pointer b) m;
  Some (r.1, reverse_record_pointers r.1 r.2).
Definition sort_buffer_size (b : Filesort_buffer) : Z := m_size_in_bytes b.
Definition is_allocated (b : Filesort_buffer) : bool := nz (m_rawmem b).
Definition reset (b : Filesort_buffer) : Filesort_buffer :=
  MkBuffer (m_next_rec_ptr b) 0 (m_record_pointers b) (m_sort_keys b) (m_num_records b) (m_record_length b) (m_sort_length b)
    (m_size_in_bytes b) (m_idx b).
Definition get_sorted_record (ix : Z) (b : Filesort_buffer) (m : mem) : Z := get_ptr m (m_sort_keys b + ptr_size * ix).
Definition get_raw_buf (b : Filesort_buffer) : Z * Z := (m_rawmem b, m_size_in_bytes b).

(** *** A caller that fills the buffer *)

(** It writes a record, of at most [m_record_length] bytes, unless the buffer is full. *)
Definition add_record (bs : list Z) (s : Filesort_buffer * mem) : option (Filesort_buffer * mem) :=
  full ← isfull s.1;
  if full : bool then None else
  let r := get_next_record_pointer s.1 s.2 in
  Some (adjust_next_record_pointer (Z.of_nat (length bs)) r.2.1, write r.2.2 r.1 bs).
Fixpoint add_records (rs : list (list Z)) (s : Filesort_buffer * mem) : option (Filesort_buffer * mem) :=
  match rs with [] => Some s | bs :: rs => s' ← add_record bs s; add_records rs s' end.

(** *** The buffer holds its records *)

(** What [alloc_sort_buffer] leaves, as its comment and the picture of the class say:
    room for [num] records of the full length with their pointers, and the pointers
    growing down from the end. *)
Record allocated (b : Filesort_buffer) : Prop := {
  alloc_mem : 0 < m_rawmem b /\ m_rawmem b + m_size_in_bytes b < 2 ^ 64;
  alloc_pointers : m_record_pointers b = m_rawmem b + m_size_in_bytes b - ptr_size;
  alloc_room : m_num_records b * (m_record_length b + ptr_size) <= m_size_in_bytes b;
  alloc_widths : in_u 32 (m_num_records b) /\ in_u 32 (m_record_length b);
}.

(** The bytes of the records before the [k]-th one. *)
Definition offset (rs : list (list Z)) (k : nat) : Z := Z.of_nat (length (concat (take k rs))).
Definition total (rs : list (list Z)) : Z := Z.of_nat (length (concat rs)).
Definition slot (b : Filesort_buffer) (k : Z) : Z := m_record_pointers b - ptr_size * k.

Definition same_layout (b b' : Filesort_buffer) : Prop :=
  m_rawmem b' = m_rawmem b /\ m_record_pointers b' = m_record_pointers b /\ m_num_records b' = m_num_records b /\
  m_record_length b' = m_record_length b /\ m_size_in_bytes b' = m_size_in_bytes b.

Record holds (rs : list (list Z)) (b : Filesort_buffer) (m : mem) : Prop := {
  holds_alloc : allocated b;
  holds_idx : m_idx b = Z.of_nat (length rs);
  holds_next : m_next_rec_ptr b = m_rawmem b + total rs;
  holds_fit : Forall (fun r => Z.of_nat (length r) <= m_record_length b) rs;
  holds_room : total rs + ptr_size * Z.of_nat (length rs) <= m_size_in_bytes b;
  holds_pointer : forall k r, rs !! k = Some r -> get_ptr m (slot b (Z.of_nat k)) = m_rawmem b + offset rs k;
  holds_bytes : forall k r, rs !! k = Some r -> read m (m_rawmem b + offset rs k) (length r) = r;
}.

Lemma total_snoc rs r : total (rs ++ [r]) = total rs + Z.of_nat (length r).
Proof. unfold total. rewrite concat_app, length_app. simpl. rewrite app_nil_r. lia. Qed.

Lemma offset_app rs r k : (k <= length rs)%nat -> offset (rs ++ [r]) k = offset rs k.
Proof. intros Hk. unfold offset. by rewrite take_app_le. Qed.

Lemma offset_all rs : offset rs (length rs) = total rs.
Proof. unfold offset, total. by rewrite take_ge. Qed.

Lemma offset_end rs k r : rs !! k = Some r -> 0 <= offset rs k /\ offset rs k + Z.of_nat (length r) <= total rs.
Proof.
  intros E. unfold offset, total. split; [lia|].
  rewrite <- (take_drop_middle rs k r E) at 2. rewrite concat_app. simpl. rewrite !length_app. lia.
Qed.

Lemma total_bound rs n : Forall (fun r => Z.of_nat (length r) <= n) rs -> total rs <= Z.of_nat (length rs) * n.
Proof.
  unfold total. induction 1 as [|r rs Hr _ IH]; simpl; [done|]. rewrite length_app. lia.
Qed.

Lemma spaceleft_holds rs b m :
  holds rs b m -> spaceleft b = Some (m_size_in_bytes b - total rs - ptr_size * Z.of_nat (length rs)).
Proof.
  intros [[Hm Hp Hr _] Hi Hn Hf Hs _ _]. unfold spaceleft. rewrite Hi, Hn. assert (H0 : 0 <= total rs) by (unfold total; lia).
  replace (m_rawmem b + total rs >=? m_rawmem b) with true by (symmetry; lia). unfold ptr_size in *.
  rewrite (wrapU_small 64 (Z.of_nat (length rs))) by (unfold in_u; lia).
  rewrite (wrapU_small 64 (Z.of_nat (length rs) * 8)) by (unfold in_u; lia).
  rewrite (wrapU_small 64 (m_rawmem b + total rs - m_rawmem b + Z.of_nat (length rs) * 8)) by (unfold in_u; lia).
  rewrite wrapU_small by (unfold in_u; lia). f_equal. lia.
Qed.

Lemma room_for_next rs b m :
  holds rs b m -> isfull b = Some false ->
  total rs + m_record_length b + ptr_size * (Z.of_nat (length rs) + 1) <= m_size_in_bytes b.
Proof.
  intros H Hfull. pose proof (spaceleft_holds _ _ _ H) as HL. destruct H as [[Hm Hp Hr [Wn Wl]] Hi Hn Hf Hs _ _].
  unfold in_u in *. unfold ptr_size in *. pose proof (total_bound rs _ Hf) as HB. unfold isfull in Hfull. rewrite HL, Hi in Hfull.
  destruct (Z.ltb_spec (Z.of_nat (length rs)) (m_num_records b)); [nia|].
  simpl in Hfull. unfold ptr_size in Hfull. injection Hfull as Hfull. apply Z.ltb_ge in Hfull. lia.
Qed.

Lemma isfull_defined rs b m :
  holds rs b m -> exists f, isfull b = Some f /\
  (f = true -> m_num_records b <= Z.of_nat (length rs) /\
               m_size_in_bytes b < total rs + m_record_length b + ptr_size * (Z.of_nat (length rs) + 1)).
Proof.
  intros H. pose proof (spaceleft_holds _ _ _ H) as HL. destruct H as [_ Hi Hn _ _ _ _].
  unfold isfull. rewrite HL, Hi. unfold ptr_size in *.
  destruct (Z.ltb_spec (Z.of_nat (length rs)) (m_num_records b)); [by exists false|].
  simpl. eexists. split; [done|]. intros E. apply Z.ltb_lt in E. lia.
Qed.

(** Adding a record keeps the records already there. *)
Lemma add_record_holds rs r b m :
  holds rs b m -> Z.of_nat (length r) <= m_record_length b -> isfull b = Some false ->
  exists b' m', add_record r (b, m) = Some (b', m') /\ holds (rs ++ [r]) b' m' /\ same_layout b b' /\
  (forall x, x < m_rawmem b \/ m_rawmem b + m_size_in_bytes b <= x -> m' x = m x).
Proof.
  intros H Hr Hfull. pose proof (room_for_next rs b m H Hfull) as HR.
  destruct H as [[Hm Hp Hroom [Wn Wl]] Hi Hn Hf Hs HP HB]. unfold in_u in *.
  unfold add_record, adjust_next_record_pointer. cbn [fst snd mbind option_bind]. rewrite Hfull. simpl.
  rewrite (wrapU_small 32 (m_record_length b - Z.of_nat (length r))) by (unfold in_u; lia).
  assert (H0 : 0 <= total rs) by (unfold total; lia). unfold ptr_size in *. simpl. rewrite Hi, Hn.
  do 2 eexists. split; [done|]. split; [|split; [done|]].
  - constructor; simpl.
    + by constructor.
    + rewrite length_app. simpl. lia.
    + rewrite total_snoc. lia.
    + apply Forall_app. split; [done|]. by constructor.
    + rewrite total_snoc, length_app. simpl. unfold ptr_size. lia.
    + intros k q Hk. unfold slot, ptr_size. simpl. pose proof (lookup_lt_Some _ _ _ Hk) as Hl. rewrite length_app in Hl. simpl in Hl.
      rewrite offset_app by lia. rewrite get_write_frame by lia.
      destruct (decide (k = length rs)) as [->|Hne].
      * rewrite offset_all. replace (_ + 8 * - _) with (m_record_pointers b - 8 * Z.of_nat (length rs)) by lia.
        apply get_put. unfold in_u. lia.
      * rewrite get_put_frame by lia. rewrite lookup_app_l in Hk by lia. apply (HP k q Hk).
    + intros k q Hk. pose proof (lookup_lt_Some _ _ _ Hk) as Hl. rewrite length_app in Hl. simpl in Hl.
      rewrite offset_app by lia. destruct (decide (k = length rs)) as [->|Hne].
      * rewrite offset_all. rewrite lookup_app_r, Nat.sub_diag in Hk by lia. injection Hk as <-. apply read_of_write.
      * rewrite lookup_app_l in Hk by lia. pose proof (offset_end _ _ _ Hk) as [].
        rewrite read_frame by lia. rewrite read_put_frame by lia. by apply HB.
  - intros x Hx. rewrite write_outside by lia. unfold put_ptr. apply write_outside. rewrite length_to_digits. lia.
Qed.

Lemma init_holds b m : allocated b -> holds [] (init_next_record_pointer b) m.
Proof.
  intros [Hm Hp Hr [Wn Wl]]. unfold in_u in *. unfold ptr_size in *. assert (0 <= m_size_in_bytes b) by nia.
  constructor; simpl; try done; unfold total, ptr_size; simpl; lia.
Qed.

Lemma add_records_holds rs : forall pre b m,
  holds pre b m -> Forall (fun r => Z.of_nat (length r) <= m_record_length b) rs ->
  match add_records rs (b, m) with
  | Some (b', m') => holds (pre ++ rs) b' m' /\ same_layout b b' /\
      (forall x, x < m_rawmem b \/ m_rawmem b + m_size_in_bytes b <= x -> m' x = m x)
  | None => exists rs1 r rs2, pre ++ rs = rs1 ++ r :: rs2 /\ m_num_records b <= Z.of_nat (length rs1) /\
      m_size_in_bytes b < total rs1 + m_record_length b + ptr_size * (Z.of_nat (length rs1) + 1)
  end.
Proof.
  induction rs as [|r rs IH]; intros pre b m H HF; cbn [add_records].
  - rewrite app_nil_r. done.
  - inversion_clear HF as [|? ? Hr HF']. destruct (isfull_defined pre b m H) as (f & Ef & Hf).
    destruct f.
    + unfold add_record. simpl. rewrite Ef. simpl. exists pre, r, rs. split; [done|]. by apply Hf.
    + destruct (add_record_holds pre r b m H Hr Ef) as (b' & m' & E & H' & L & Fr). rewrite E. simpl.
      pose proof L as (L1 & L2 & L3 & L4 & L5). specialize (IH (pre ++ [r]) b' m' H').
      rewrite L1, L3, L4, L5, <- app_assoc in IH. specialize (IH HF').
      destruct (add_records rs (b', m')) as [[b2 m2]|]; [|done].
      destruct IH as (I1 & I2 & I3). unfold same_layout in *. split; [done|]. split; [intuition congruence|].
      intros x Hx. rewrite I3 by done. by apply Fr.
Qed.

(** *** The reversal of the pointers *)

Lemma swap_keys_frame keys count m ix x :
  0 <= ix <= count -> x < keys \/ keys + ptr_size * (count + 1) <= x -> swap_keys keys count m ix x = m x.
Proof.
  intros Hi Hx. unfold swap_keys, put_ptr, ptr_size in *. rewrite write_outside by (rewrite length_to_digits; lia).
  apply write_outside. rewrite length_to_digits. lia.
Qed.

Lemma swap_keys_get keys count m ix i :
  0 <= ix -> 2 * ix <= count -> 0 <= i <= count ->
  (forall j, 0 <= j <= count -> in_u 64 (get_ptr m (keys + ptr_size * j))) ->
  get_ptr (swap_keys keys count m ix) (keys + ptr_size * i) =
  get_ptr m (keys + ptr_size * (if (i =? ix) || (i =? count - ix) then count - i else i)).
Proof.
  intros H0 H2 Hi W. unfold swap_keys, ptr_size in *. destruct (Z.eqb_spec i ix) as [->|Hne]; simpl.
  - by rewrite get_put by (apply W; lia).
  - rewrite get_put_frame by lia. destruct (Z.eqb_spec i (count - ix)) as [->|Hne'].
    + rewrite get_put by (apply W; lia). do 2 f_equal. lia.
    + by rewrite get_put_frame by lia.
Qed.

Lemma swap_loop keys count m (n : nat) :
  (forall j, 0 <= j <= count -> in_u 64 (get_ptr m (keys + ptr_size * j))) ->
  Z.of_nat n <= count / 2 + 1 -> 0 <= count ->
  (forall i, 0 <= i <= count ->
     get_ptr (fold_left (swap_keys keys count) (seqZ 0 (Z.of_nat n)) m) (keys + ptr_size * i) =
     get_ptr m (keys + ptr_size * (if (i <? Z.of_nat n) || (count - i <? Z.of_nat n) then count - i else i))) /\
  (forall x, x < keys \/ keys + ptr_size * (count + 1) <= x -> fold_left (swap_keys keys count) (seqZ 0 (Z.of_nat n)) m x = m x).
Proof.
  intros W. induction n as [|n IH]; intros Hn Hc.
  - change (Z.of_nat 0) with 0. change (seqZ 0 0) with (@nil Z). cbn [fold_left]. split; [|done]. intros i Hi. destruct (Z.ltb_spec i 0), (Z.ltb_spec (count - i) 0); simpl; try lia; done.
  - destruct IH as [IH IF]; [lia..|]. rewrite Nat2Z.inj_succ, <- Z.add_1_r. rewrite seqZ_app by lia. rewrite fold_left_app.
    change (seqZ (0 + Z.of_nat n) 1) with [0 + Z.of_nat n]. cbn [fold_left]. rewrite Z.add_0_l.
    pose proof (Z.mul_div_le count 2 ltac:(lia)). set (m' := fold_left _ (seqZ 0 (Z.of_nat n)) m) in *. split.
    + intros i Hi. assert (W' : forall j, 0 <= j <= count -> in_u 64 (get_ptr m' (keys + ptr_size * j))).
      { intros j Hj. rewrite IH by done. apply W. destruct (_ || _); lia. }
      rewrite swap_keys_get by (done || lia). rewrite IH by (destruct (_ || _); lia). do 3 f_equal.
      destruct (Z.eqb_spec i (Z.of_nat n)), (Z.eqb_spec i (count - Z.of_nat n)), (Z.ltb_spec i (Z.of_nat n)), (Z.ltb_spec (count - i) (Z.of_nat n)),
        (Z.ltb_spec i (Z.of_nat n + 1)), (Z.ltb_spec (count - i) (Z.of_nat n + 1)); simpl; try lia;
      destruct (Z.ltb_spec (count - i) (Z.of_nat n)), (Z.ltb_spec (count - (count - i)) (Z.of_nat n)), (Z.ltb_spec i (Z.of_nat n)); simpl; lia.
    + intros x Hx. rewrite swap_keys_frame by lia. by apply IF.
Qed.

(** After the reversal the array of sort keys lists the pointers in the order they were handed out. *)
Lemma reversed_keys b m j :
  (forall k, 0 <= k < m_idx b -> in_u 64 (get_ptr m (slot b k))) -> 0 <= j < m_idx b ->
  get_ptr (reverse_record_pointers b m) (get_sort_keys b + ptr_size * j) = get_ptr m (slot b j).
Proof.
  intros W Hj. unfold reverse_record_pointers. assert (K : get_sort_keys b = m_record_pointers b + ptr_size * (1 - m_idx b)).
  { unfold get_sort_keys. destruct (Z.eqb_spec (m_idx b) 0); [lia|done]. }
  unfold slot, ptr_size in *. destruct (Z.ltb_spec (m_idx b) 2).
  - f_equal. lia.
  - assert (H0 : 0 <= (m_idx b - 1) / 2) by (apply Z.div_pos; lia).
    destruct (swap_loop (get_sort_keys b) (m_idx b - 1) m (Z.to_nat ((m_idx b - 1) / 2 + 1))) as [L _].
    + intros i Hi. unfold ptr_size. rewrite K. replace (_ + _) with (m_record_pointers b - 8 * (m_idx b - 1 - i)) by lia.
      apply W. lia.
    + lia.
    + lia.
    + rewrite Z2Nat.id in L by lia. unfold ptr_size in L. rewrite L by lia. rewrite K.
      assert (E : (if (j <? (m_idx b - 1) / 2 + 1) || (m_idx b - 1 - j <? (m_idx b - 1) / 2 + 1) then m_idx b - 1 - j else j)
                  = m_idx b - 1 - j).
      { pose proof (Z.div_mod (m_idx b - 1) 2 ltac:(lia)). pose proof (Z.mod_pos_bound (m_idx b - 1) 2 ltac:(lia)).
        destruct (Z.ltb_spec j ((m_idx b - 1) / 2 + 1)), (Z.ltb_spec (m_idx b - 1 - j) ((m_idx b - 1) / 2 + 1)); simpl; lia. }
      rewrite E. f_equal. lia.
Qed.

Lemma reverse_frame b m x :
  x < slot b (m_idx b - 1) \/ slot b 0 + ptr_size <= x ->
  (forall k, 0 <= k < m_idx b -> in_u 64 (get_ptr m (slot b k))) -> reverse_record_pointers b m x = m x.
Proof.
  intros Hx W. unfold reverse_record_pointers. destruct (Z.ltb_spec (m_idx b) 2); [done|].
  assert (K : get_sort_keys b = m_record_pointers b + ptr_size * (1 - m_idx b)).
  { unfold get_sort_keys. destruct (Z.eqb_spec (m_idx b) 0); [lia|done]. }
  assert (H0 : 0 <= (m_idx b - 1) / 2) by (apply Z.div_pos; lia).
  unfold slot, ptr_size in *.
  destruct (swap_loop (get_sort_keys b) (m_idx b - 1) m (Z.to_nat ((m_idx b - 1) / 2 + 1))) as [_ L]; [|lia..|].
  - intros i Hi. unfold ptr_size. rewrite K. replace (_ + _) with (m_record_pointers b - 8 * (m_idx b - 1 - i)) by lia.
    apply W. lia.
  - rewrite Z2Nat.id in L by lia. apply L. unfold ptr_size. rewrite K. lia.
Qed.

(** The pointer of a record held is the address the array of sort keys gives, and the record is there. *)
Lemma holds_pointers_fit rs b m : holds rs b m -> forall k, 0 <= k < m_idx b -> in_u 64 (get_ptr m (slot b k)).
Proof.
  intros [[Hm Hp Hroom [Wn Wl]] Hi Hn Hf Hs HP HB] k Hk. rewrite Hi in Hk. unfold ptr_size in *.
  destruct (lookup_lt_is_Some_2 rs (Z.to_nat k)) as [r E]; [lia|].
  pose proof (offset_end _ _ _ E). specialize (HP _ _ E). rewrite Z2Nat.id in HP by lia. rewrite HP. unfold in_u. lia.
Qed.

Lemma holds_sorted_record rs b m j r :
  holds rs b m -> rs !! j = Some r ->
  get_ptr (reverse_record_pointers b m) (get_sort_keys b + ptr_size * Z.of_nat j) = m_rawmem b + offset rs j /\
  read (reverse_record_pointers b m) (m_rawmem b + offset rs j) (length r) = r.
Proof.
  intros H E. pose proof (holds_pointers_fit _ _ _ H) as W. pose proof (lookup_lt_Some _ _ _ E) as Hl.
  destruct H as [[Hm Hp Hroom Wd] Hi Hn Hf Hs HP HB]. split.
  - rewrite reversed_keys by (done || lia). by apply (HP j r).
  - rewrite <- (HB _ _ E) at 2. unfold read. apply map_ext_in. intros k Hk. apply in_seq in Hk.
    pose proof (offset_end _ _ _ E). apply reverse_frame; [|done]. unfold slot, ptr_size in *. lia.
Qed.

(** The loop of [init_record_pointers] ends after [m_num_records] turns. *)
Lemma next_pointers_spaced n : forall b m,
  allocated b -> 0 <= m_idx b -> m_num_records b = m_idx b + Z.of_nat n ->
  m_next_rec_ptr b = m_rawmem b + m_idx b * m_record_length b ->
  (forall k, 0 <= k < m_idx b -> get_ptr m (slot b k) = m_rawmem b + k * m_record_length b) ->
  exists b' m', next_pointers n b m = Some (b', m') /\ same_layout b b' /\ m_idx b' = m_num_records b /\
  (forall k, 0 <= k < m_num_records b -> get_ptr m' (slot b k) = m_rawmem b + k * m_record_length b).
Proof.
  induction n as [|n IH]; intros b m HA H0 Hn Hp HP; simpl next_pointers.
  - destruct (Z.ltb_spec (m_idx b) (m_num_records b)); [lia|]. exists b, m. repeat split; [lia|].
    intros k Hk. apply HP. lia.
  - destruct (Z.ltb_spec (m_idx b) (m_num_records b)); [|lia].
    destruct HA as [Hm HR Hroom [Wn Wl]]. unfold in_u in *.
    set (b1 := (get_next_record_pointer b m).2.1). set (m1 := (get_next_record_pointer b m).2.2).
    destruct (IH b1 m1) as (b' & m' & E & L & Hi & HP'); unfold b1, m1; simpl; try lia.
    + by constructor.
    + intros k Hk. unfold slot, ptr_size in *. simpl.
      replace (m_record_pointers b + 8 * - m_idx b) with (m_record_pointers b - 8 * m_idx b) by lia.
      destruct (decide (k = m_idx b)) as [->|Hne].
      * rewrite get_put; [by rewrite Hp|]. unfold in_u. rewrite Hp. nia.
      * rewrite get_put_frame by lia. apply HP. lia.
    + exists b', m'. done.
Qed.

Lemma init_record_pointers_spaced b m :
  allocated b ->
  exists b' m', init_record_pointers (Z.to_nat (m_num_records b)) b m = Some (b', m') /\
  forall k, 0 <= k < m_num_records b ->
    get_ptr m' (get_sort_keys b' + ptr_size * k) = m_rawmem b + k * m_record_length b.
Proof.
  intros HA. destruct HA as [Hm HR Hroom [Wn Wl]] eqn:HAe. unfold in_u in *.
  destruct (next_pointers_spaced (Z.to_nat (m_num_records b)) (init_next_record_pointer b) m)
    as (b' & m' & E & (L1 & L2 & L3 & L4 & L5) & Hi & HP); simpl in *; try lia.
  { by constructor. }
  unfold init_record_pointers. rewrite E. do 2 eexists. split; [done|]. intros k Hk. simpl.
  assert (S : forall i, slot b' i = slot (init_next_record_pointer b) i) by (intros i; unfold slot; by rewrite L2).
  unfold ptr_size in *. rewrite reversed_keys.
  - by rewrite S, HP.
  - intros i Hk'. rewrite S, HP by lia. unfold in_u. nia.
  - lia.
Qed.

(** C11 : a sort buffer keeps the records put into it. From an allocated buffer that has
    been initialised, records of at most the allocated length are added until one is
    refused; a refusal only comes after [m_num_records] records and when the space left
    is too small for a record of full length and its pointer. Otherwise, after the
    reversal of the pointers, entry [j] of the array of sort keys points into the buffer
    at the bytes of the [j]-th record, unchanged, and no byte outside the buffer was
    written. *)
Theorem sort_buffer_keeps_records (rs : list (list Z)) (b : Filesort_buffer) (m : mem) :
  allocated b -> Forall (fun r => Z.of_nat (length r) <= m_record_length b) rs ->
  match add_records rs (init_next_record_pointer b, m) with
  | Some (b', m') =>
      let sorted := reverse_record_pointers b' m' in
      m_idx b' = Z.of_nat (length rs) /\ space_used_for_data b' = total rs /\
      (forall j r, rs !! j = Some r ->
         let p := get_ptr sorted (get_sort_keys b' + ptr_size * Z.of_nat j) in
         m_rawmem b <= p /\ p + Z.of_nat (length r) <= m_rawmem b + m_size_in_bytes b /\ read sorted p (length r) = r) /\
      (forall x, x < m_rawmem b \/ m_rawmem b + m_size_in_bytes b <= x -> sorted x = m x)
  | None => exists rs1 r rs2, rs = rs1 ++ r :: rs2 /\ m_num_records b <= Z.of_nat (length rs1) /\
      m_size_in_bytes b < total rs1 + m_record_length b + ptr_size * (Z.of_nat (length rs1) + 1)
  end.
Proof.
  intros HA HF. pose proof (add_records_holds rs [] (init_next_record_pointer b) m (init_holds b m HA) HF) as H.
  simpl in H. destruct (add_records rs _) as [[b' m']|]; [|done]. destruct H as (H & (L1 & L2 & L3 & L4 & L5) & Fr).
  simpl in *. pose proof (holds_pointers_fit _ _ _ H) as W. pose proof H as [HA' Hi Hn Hf Hs _ _]. destruct HA' as [Hm' Hp' _ _].
  assert (H0 : 0 <= total rs) by (unfold total; lia). split; [done|]. split.
  { unfold space_used_for_data. rewrite Hn. unfold nz. destruct (Z.eqb_spec (m_rawmem b' + total rs) 0); simpl; lia. }
  split.
  - intros j r E. destruct (holds_sorted_record _ _ _ _ _ H E) as [-> ->]. pose proof (offset_end _ _ _ E). unfold ptr_size in *.
    split; [lia|]. split; [lia|done].
  - intros x Hx. rewrite <- Fr by done. apply reverse_frame; [|done]. unfold slot, ptr_size in *. lia.
Qed.

(** Three records of different lengths in a buffer allocated for two of four bytes, which
    takes a third only because the first two are short. *)
Definition example_buffer : Filesort_buffer := MkBuffer 0 1000 1028 0 2 4 4 36 0.
Definition example_records : list (list Z) := [[7; 8]; [9]; [1; 2; 3]].

Lemma sort_buffer_keeps_records_witness :
  is_Some (add_records example_records (init_next_record_pointer example_buffer, fun _ => 0)) /\
  match add_records example_records (init_next_record_pointer example_buffer, fun _ => 0) with
  | Some (b', m') =>
      read (reverse_record_pointers b' m') (get_ptr (reverse_record_pointers b' m') (get_sort_keys b' + ptr_size * Z.of_nat 2)) 3
      = [1; 2; 3]
  | None => False
  end.
Proof.
  split; [by eexists; vm_compute|].
  assert (A : allocated example_buffer) by (constructor; unfold in_u, ptr_size; simpl; lia).
  assert (F : Forall (fun r => Z.of_nat (length r) <= m_record_length example_buffer) example_records)
    by (repeat constructor; simpl; lia).
  pose proof (sort_buffer_keeps_records example_records example_buffer (fun _ => 0) A F) as H.
  destruct (add_records example_records _) as [[b' m']|] eqn:E; [|vm_compute in E; discriminate E].
  exact (proj2 (proj2 (proj1 (proj2 (proj2 H)) 2%nat [1; 2; 3] eq_refl))).
Defined.
End Buffer.

(** ** Chunks that are merged *)

Module Chunk.

Record Merge_chunk := MkChunk {
  m_current_key : Z;
  m_file_position : Z;
  m_buffer_start : Z;
  m_buffer_end : Z;
  m_rowcount : Z;
  m_mem_count : Z;
  m_max_keys : Z;
}.
Definition new_chunk : Merge_chunk := MkChunk 0 0 0 0 0 0 0.

Definition set_file_position (val : Z) (c : Merge_chunk) : Merge_chunk :=
  MkChunk (m_current_key c) val (m_buffer_start c) (m_buffer_end c) (m_rowcount c) (m_mem_count c) (m_max_keys c).
Definition advance_file_position (val : Z) (c : Merge_chunk) : Merge_chunk :=
  set_file_position (u64 (m_file_position c + val)) c.
Definition set_buffer (start end_ : Z) (c : Merge_chunk) : Merge_chunk :=
  MkChunk (m_current_key c) (m_file_position c) start end_ (m_rowcount c) (m_mem_count c) (m_max_keys c).
Definition set_buffer_start (start : Z) (c : Merge_chunk) : Merge_chunk := set_buffer start (m_buffer_end c) c.
Definition set_buffer_end (end_ : Z) (c : Merge_chunk) : option Merge_chunk :=
  if (m_buffer_end c =? 0) || (end_ <=? m_buffer_end c) then Some (set_buffer (m_buffer_start c) end_ c) else None.
Definition set_current_key (val : Z) (c : Merge_chunk) : Merge_chunk :=
  MkChunk val (m_file_position c) (m_buffer_start c) (m_buffer_end c) (m_rowcount c) (m_mem_count c) (m_max_keys c).
Definition init_current_key (c : Merge_chunk) : Merge_chunk := set_current_key (m_buffer_start c) c.
Definition advance_current_key (val : Z) (c : Merge_chunk) : Merge_chunk := set_current_key (m_current_key c + val) c.
Definition set_rowcount (val : Z) (c : Merge_chunk) : Merge_chunk :=
  MkChunk (m_current_key c) (m_file_position c) (m_buffer_start c) (m_buffer_end c) val (m_mem_count c) (m_max_keys c).
Definition decrement_rowcount (val : Z) (c : Merge_chunk) : Merge_chunk := set_rowcount (u64 (m_rowcount c - val)) c.
Definition set_mem_count (val : Z) (c : Merge_chunk) : Merge_chunk :=
  MkChunk (m_current_key c) (m_file_position c) (m_buffer_start c) (m_buffer_end c) (m_rowcount c) val (m_max_keys c).
Definition decrement_mem_count (c : Merge_chunk) : Z * Merge_chunk :=
  let n := u64 (m_mem_count c - 1) in (n, set_mem_count n c).
Definition set_max_keys (val : Z) (c : Merge_chunk) : Merge_chunk :=
  MkChunk (m_current_key c) (m_file_position c) (m_buffer_start c) (m_buffer_end c) (m_rowcount c) (m_mem_count c) val.
Definition buffer_size (c : Merge_chunk) : Z := m_buffer_end c - m_buffer_start c.
(** The result, and [*mc]. *)
Definition merge_freed_buff (mc c : Merge_chunk) : bool * Merge_chunk :=
  if m_buffer_end mc =? m_buffer_start c then
    (true, set_max_keys (u64 (m_max_keys mc + m_max_keys c)) (set_buffer (m_buffer_start mc) (m_buffer_end c) mc))
  else if m_buffer_start mc =? m_buffer_end c then
    (true, set_max_keys (u64 (m_max_keys mc + m_max_keys c)) (set_buffer (m_buffer_start c) (m_buffer_end mc) mc))
  else (false, mc).

(** Space freed is handed over whole: the merged buffer covers exactly the bytes of both. *)
Lemma merge_freed_buff_space mc c mc' :
  m_buffer_start mc <= m_buffer_end mc -> m_buffer_start c <= m_buffer_end c ->
  merge_freed_buff mc c = (true, mc') ->
  buffer_size mc' = buffer_size mc + buffer_size c /\ m_max_keys mc' = u64 (m_max_keys mc + m_max_keys c) /\
  (forall x, m_buffer_start mc' <= x < m_buffer_end mc' <->
     m_buffer_start mc <= x < m_buffer_end mc \/ m_buffer_start c <= x < m_buffer_end c).
Proof.
  intros H1 H2 E. unfold merge_freed_buff in E. unfold buffer_size.
  destruct (Z.eqb_spec (m_buffer_end mc) (m_buffer_start c)) as [Ea|_].
  - injection E as <-. simpl. repeat split; intros; lia.
  - destruct (Z.eqb_spec (m_buffer_start mc) (m_buffer_end c)) as [Ea|_]; [|done].
    injection E as <-. simpl. repeat split; intros; lia.
Qed.
End Chunk.

(** ** Lengths of packed records *)

Module Lengths.
Import Memory.

(** [Addon_fields] and [Sort_keys]: the lengths stored in front of packed data. *)
Definition addon_length_field : Z := 2.
Definition sortkey_length_field : Z := 4.
Definition can_pack_addon_fields (record_length : Z) : bool := record_length <=? 65535.
Definition read_addon_length (m : mem) (p : Z) : Z := u32 (addon_length_field + X86_64.uint2korr m p).
Definition store_addon_length (m : mem) (p sz : Z) : mem := X86_64.int2store m p (u32 (sz - addon_length_field)).
Definition store_sortkey_length (m : mem) (p sz : Z) : mem := X86_64.int4store m p (u32 (sz - sortkey_length_field)).
Definition read_sortkey_length (m : mem) (p : Z) : Z := u32 (sortkey_length_field + X86_64.uint4korr m p).

(** [addon_fields] and [sort_keys] are absent, or there with their flag of packing. *)
Record Sort_param := MkParam {
  rec_length : Z;
  sort_length : Z;
  addon_length : Z;
  res_length : Z;
  addon_fields : option bool;
  sort_keys : option bool;
  m_using_packed_addons : bool;
  m_using_packed_sortkeys : bool;
  m_packed_format : bool;
}.

Definition assert_flag (cached : bool) (f : option bool) : option bool :=
  if Bool.eqb cached (default false f) then Some cached else None.
Definition using_packed_addons (sp : Sort_param) : option bool := assert_flag (m_using_packed_addons sp) (addon_fields sp).
Definition using_packed_sortkeys (sp : Sort_param) : option bool := assert_flag (m_using_packed_sortkeys sp) (sort_keys sp).
Definition using_addon_fields (sp : Sort_param) : bool := bool_decide (is_Some (addon_fields sp)).
Definition get_result_length (sp : Sort_param) (m : mem) (plen : Z) : Z :=
  if negb (m_using_packed_addons sp) then res_length sp else read_addon_length m plen.
Definition get_addon_length (sp : Sort_param) (m : mem) (plen : Z) : option Z :=
  packed ← using_packed_addons sp;
  Some (if packed : bool then read_addon_length m plen else addon_length sp).
Definition get_sort_length (sp : Sort_param) (m : mem) (plen : Z) : option Z :=
  packed ← using_packed_sortkeys sp;
  Some (if packed : bool then u32 (read_sortkey_length m plen + (if using_addon_fields sp then 0 else res_length sp))
        else sort_length sp).
Definition get_record_length (sp : Sort_param) (m : mem) (plen : Z) : option Z :=
  if m_packed_format sp then
    sort_len ← get_sort_length sp m plen;
    addon_len ← get_addon_length sp m (plen + sort_len);
    Some (u32 (sort_len + addon_len))
  else Some (rec_length sp).
Definition get_rec_and_res_len (sp : Sort_param) (m : mem) (record_start : Z) : option (Z * Z) :=
  if m_packed_format sp then
    sort_len ← get_sort_length sp m record_start;
    addon_len ← get_addon_length sp m (record_start + sort_len);
    Some (u32 (sort_len + addon_len), if using_addon_fields sp then addon_len else res_length sp)
  else Some (rec_length sp, res_length sp).
Definition is_packed_format (sp : Sort_param) : bool := m_packed_format sp.

(** *** A caller that writes records one after the other *)

(** A record is its sort key and what follows it: the rowid or the additional fields,
    with their null bits.  This is the layout the comment above the class draws. *)
Definition Rec : Type := list Z * list Z.
Definition pack_record (sp : Sort_param) (m : mem) (p : Z) (r : Rec) : mem * Z :=
  let klen := Z.of_nat (length r.1) in
  let rlen := Z.of_nat (length r.2) in
  let '(m, p) :=
    if m_using_packed_sortkeys sp
    then (store_sortkey_length m p (sortkey_length_field + klen), p + sortkey_length_field) else (m, p) in
  let '(m, p) := (write m p r.1, p + klen) in
  let '(m, p) :=
    if m_using_packed_addons sp
    then (store_addon_length m p (addon_length_field + rlen), p + addon_length_field) else (m, p) in
  (write m p r.2, p + rlen).
Fixpoint pack_records (sp : Sort_param) (m : mem) (p : Z) (rs : list Rec) : mem :=
  match rs with
  | [] => m
  | r :: rs => let s := pack_record sp m p r in pack_records sp s.1 s.2 rs
  end.
(** A caller that steps from record to record: the start, the length of the record and of the result. *)
Fixpoint step_records (sp : Sort_param) (m : mem) (p : Z) (n : nat) : option (list (Z * (Z * Z))) :=
  match n with
  | O => Some []
  | S n =>
      len ← get_record_length sp m p;
      lens ← get_rec_and_res_len sp m p;
      rest ← step_records sp m (p + len) n;
      Some ((p, lens) :: rest)
  end.

(** What [init_for_filesort] and the functions that try to pack leave. *)
Record consistent (sp : Sort_param) : Prop := {
  con_addons : m_using_packed_addons sp = default false (addon_fields sp);
  con_keys : m_using_packed_sortkeys sp = default false (sort_keys sp);
  con_format : m_packed_format sp = m_using_packed_addons sp || m_using_packed_sortkeys sp;
  con_none : addon_fields sp = None -> addon_length sp = 0;
}.

Definition key_bytes (sp : Sort_param) (r : Rec) : Z :=
  (if m_using_packed_sortkeys sp then sortkey_length_field else 0) + Z.of_nat (length r.1).
Definition rest_bytes (sp : Sort_param) (r : Rec) : Z :=
  (if m_using_packed_addons sp then addon_length_field else 0) + Z.of_nat (length r.2).

(** The record obeys the lengths that were declared, and its own lengths fit their fields. *)
Definition fits (sp : Sort_param) (r : Rec) : Prop :=
  key_bytes sp r + rest_bytes sp r < 2 ^ 32 /\
  (if m_packed_format sp
   then (m_using_packed_sortkeys sp = false -> Z.of_nat (length r.1) = sort_length sp)
   else rec_length sp = Z.of_nat (length r.1) + Z.of_nat (length r.2) /\ res_length sp = Z.of_nat (length r.2)) /\
  match addon_fields sp with
  | Some true => Z.of_nat (length r.2) < 2 ^ 16
  | Some false => Z.of_nat (length r.2) = addon_length sp
  | None => Z.of_nat (length r.2) = res_length sp
  end.

Definition encoded (sp : Sort_param) (r : Rec) : list Z :=
  (if m_using_packed_sortkeys sp then to_digits 8 4 (Z.of_nat (length r.1)) else []) ++ r.1 ++
  (if m_using_packed_addons sp then to_digits 8 2 (Z.of_nat (length r.2)) else []) ++ r.2.
Fixpoint expected (sp : Sort_param) (p : Z) (rs : list Rec) : list (Z * (Z * Z)) :=
  match rs with
  | [] => []
  | r :: rs => (p, (key_bytes sp r + rest_bytes sp r, rest_bytes sp r)) :: expected sp (p + (key_bytes sp r + rest_bytes sp r)) rs
  end.

Lemma length_encoded sp r : Z.of_nat (length (encoded sp r)) = key_bytes sp r + rest_bytes sp r.
Proof.
  unfold encoded, key_bytes, rest_bytes, sortkey_length_field, addon_length_field.
  destruct (m_using_packed_sortkeys sp), (m_using_packed_addons sp); rewrite ?length_app, ?length_to_digits; simpl;
    rewrite ?length_app, ?length_to_digits; lia.
Qed.

Lemma write_written m p bs : written m (write m p bs) p bs.
Proof.
  split; [|intros x Hx; by apply write_outside]. apply (nth_ext _ _ 0 0); [apply length_bytes_from|].
  intros k Hk. unfold bytes_at in *. rewrite length_bytes_from in Hk.
  assert (G : forall n m A i k, (k < n)%nat -> nth k (bytes_from n m A i) 0 = m (A + i + Z.of_nat k)).
  { clear. induction n as [|n IH]; intros m A i [|k] Hk; simpl; try lia; [unfold ix; f_equal; lia|].
    rewrite IH by lia. f_equal. lia. }
  rewrite G by done. unfold write.
  destruct (Z.leb_spec p (p + 0 + Z.of_nat k)), (Z.ltb_spec (p + 0 + Z.of_nat k) (p + Z.of_nat (length bs))); simpl; try lia.
  f_equal. lia.
Qed.

Lemma store_sortkey_written m p n :
  written m (store_sortkey_length m p (sortkey_length_field + n)) p (to_digits 8 4 n).
Proof.
  unfold store_sortkey_length, X86_64.int4store. rewrite <- (to_digits_wrapU 8 4 32 n) by lia.
  replace (sortkey_length_field + n - sortkey_length_field) with n by lia.
  rewrite (wrapU_small 32 (u32 n)) by (apply wrapU_range; lia). apply store_written.
Qed.

Lemma store_addon_written m p n :
  written m (store_addon_length m p (addon_length_field + n)) p (to_digits 8 2 n).
Proof.
  unfold store_addon_length, X86_64.int2store. replace (addon_length_field + n - addon_length_field) with n by lia.
  rewrite <- (to_digits_wrapU 8 2 32 n), <- (to_digits_wrapU 8 2 16 (u32 n)) by lia. apply store_written.
Qed.

Lemma written_then m m1 m2 T T2 ds1 ds2 :
  written m1 m2 T2 ds2 -> written m m1 T ds1 -> T2 = T + Z.of_nat (length ds1) -> written m m2 T (ds1 ++ ds2).
Proof. intros H2 H1 ->. by eapply written_app. Qed.

Ltac last_written := first [apply store_sortkey_written | apply store_addon_written | apply write_written].
Ltac all_written :=
  rewrite ?app_assoc;
  repeat first
    [last_written
    |eapply written_then; [last_written| |
       rewrite ?length_app, ?length_to_digits; unfold sortkey_length_field, addon_length_field; lia]].

Lemma pack_record_written sp m p r :
  written m (pack_record sp m p r).1 p (encoded sp r) /\ (pack_record sp m p r).2 = p + (key_bytes sp r + rest_bytes sp r).
Proof.
  unfold pack_record, encoded, key_bytes, rest_bytes.
  destruct (m_using_packed_sortkeys sp), (m_using_packed_addons sp); cbn [fst snd app]; (split; [all_written|lia]).
Qed.

Lemma pack_records_written sp rs : forall m p, written m (pack_records sp m p rs) p (concat (map (encoded sp) rs)).
Proof.
  induction rs as [|r rs IH]; intros m p; simpl; [by split|].
  destruct (pack_record_written sp m p r) as [W E].
  eapply written_then; [apply IH|exact W|]. by rewrite E, length_encoded.
Qed.

Lemma bytes_at_split m p a b :
  bytes_at (length (a ++ b)) m p = a ++ b ->
  bytes_at (length a) m p = a /\ bytes_at (length b) m (p + Z.of_nat (length a)) = b.
Proof.
  rewrite length_app, bytes_at_app. intros E. apply app_inj_1 in E; [done|]. unfold bytes_at. apply length_bytes_from.
Qed.

Lemma sortkey_length_read m p n :
  0 <= n -> n + sortkey_length_field < 2 ^ 32 -> bytes_at 4 m p = to_digits 8 4 n ->
  read_sortkey_length m p = sortkey_length_field + n.
Proof.
  intros H0 Hn B. unfold read_sortkey_length, X86_64.uint4korr, load, sortkey_length_field in *. rewrite B, from_to_digits by lia.
  rewrite !(wrapU_small _ n) by (unfold in_u; lia). apply wrapU_small. unfold in_u. lia.
Qed.

Lemma addon_length_read m p n :
  0 <= n < 2 ^ 16 -> bytes_at 2 m p = to_digits 8 2 n -> read_addon_length m p = addon_length_field + n.
Proof.
  intros H0 B. unfold read_addon_length, X86_64.uint2korr, load, addon_length_field in *. rewrite B, from_to_digits by lia.
  rewrite !(wrapU_small _ n) by (unfold in_u; lia). apply wrapU_small. unfold in_u. lia.
Qed.

(** The length before the rest of the record: the key, and the rowid when it has no additional fields. *)
Lemma sort_length_read sp r m p :
  consistent sp -> fits sp r -> m_packed_format sp = true -> bytes_at (length (encoded sp r)) m p = encoded sp r ->
  get_sort_length sp m p =
  Some (key_bytes sp r + (if m_using_packed_sortkeys sp && negb (using_addon_fields sp) then Z.of_nat (length r.2) else 0)).
Proof.
  intros [CA CK CF CN] (F1 & F2 & F3) HP B. unfold get_sort_length, using_packed_sortkeys, assert_flag.
  rewrite <- CK, Bool.eqb_reflx. simpl. unfold key_bytes, rest_bytes in *.
  destruct (m_using_packed_sortkeys sp) eqn:EK; simpl; [|rewrite HP in F2; rewrite F2 by done; f_equal; lia].
  unfold encoded in B. rewrite EK in B. apply bytes_at_split in B as [B _]. rewrite length_to_digits in B.
  assert (H4 : sortkey_length_field = 4) by done. assert (H2 : addon_length_field = 2) by done.
  assert (HR : 0 <= (if m_using_packed_addons sp then addon_length_field else 0)) by (destruct (m_using_packed_addons sp); lia).
  rewrite (sortkey_length_read m p (Z.of_nat (length r.1))) by (done || lia).
  unfold using_addon_fields. destruct (addon_fields sp) as [b|] eqn:EF; simpl.
  - rewrite wrapU_small by (unfold in_u; lia). done.
  - rewrite <- F3, wrapU_small by (unfold in_u; lia). done.
Qed.

(** The lengths are read from the bytes of the record alone. *)
Lemma record_lengths sp r m p :
  consistent sp -> fits sp r -> bytes_at (length (encoded sp r)) m p = encoded sp r ->
  get_record_length sp m p = Some (key_bytes sp r + rest_bytes sp r) /\
  get_rec_and_res_len sp m p = Some (key_bytes sp r + rest_bytes sp r, rest_bytes sp r).
Proof.
  intros C F B. pose proof (sort_length_read sp r m p C F) as HS. destruct C as [CA CK CF CN]. destruct F as (F1 & F2 & F3).
  unfold get_record_length, get_rec_and_res_len. destruct (m_packed_format sp) eqn:HP.
  - rewrite HS by done. clear HS. simpl. unfold get_addon_length, using_packed_addons, assert_flag.
    rewrite <- CA, Bool.eqb_reflx. simpl. unfold using_addon_fields. unfold key_bytes, rest_bytes, encoded in *.
    assert (H4 : sortkey_length_field = 4) by done. assert (H2 : addon_length_field = 2) by done.
    destruct (addon_fields sp) as [[|]|] eqn:EF; simpl in CA; rewrite CA in *; cbv iota in F1; simpl; rewrite ?andb_false_r, ?andb_true_r.
    + rewrite app_assoc in B. apply bytes_at_split in B as [_ B]. apply bytes_at_split in B as [B _].
      rewrite (addon_length_read _ _ (Z.of_nat (length r.2))); [|lia|].
      * rewrite wrapU_small by (unfold in_u; destruct (m_using_packed_sortkeys sp); lia). split; [f_equal; lia|]. do 2 f_equal; lia.
      * rewrite length_to_digits in B. rewrite <- B. f_equal. rewrite length_app.
        destruct (m_using_packed_sortkeys sp); rewrite ?length_to_digits; simpl; lia.
    + rewrite <- F3. rewrite wrapU_small by (unfold in_u; destruct (m_using_packed_sortkeys sp); lia). split; [f_equal; lia|]. do 2 f_equal; lia.
    + rewrite CN by done. destruct (m_using_packed_sortkeys sp); [|done]. simpl.
      rewrite wrapU_small by (unfold in_u; lia). rewrite <- F3. split; [f_equal; lia|]. do 2 f_equal; lia.
  - symmetry in CF. apply orb_false_elim in CF as [EA EK]. unfold key_bytes, rest_bytes. rewrite EA, EK.
    destruct F2 as [-> ->]. done.
Qed.

Lemma step_records_read sp rs : forall m p,
  consistent sp -> Forall (fits sp) rs ->
  bytes_at (length (concat (map (encoded sp) rs))) m p = concat (map (encoded sp) rs) ->
  step_records sp m p (length rs) = Some (expected sp p rs).
Proof.
  induction rs as [|r rs IH]; intros m p C HF B; [done|]. inversion_clear HF as [|? ? Fr HF'].
  cbn [map concat] in B. apply bytes_at_split in B as [B1 B2]. rewrite length_encoded in B2.
  cbn [length step_records expected]. destruct (record_lengths sp r m p C Fr B1) as [-> ->]. simpl.
  by rewrite (IH _ _ C HF' B2).
Qed.

(** C12 : stepping over packed records finds exactly the records written. In every one of
    the record formats (packed or fixed sort keys; packed, fixed or no additional
    fields), records written one after the other are found again by stepping with
    [get_record_length] from the start: each one at its place, with the lengths of the
    whole record and of its part after the key that [get_rec_and_res_len] gives, and the
    bytes there are the records; nothing else is written. *)
Theorem packed_records_found (sp : Sort_param) (rs : list Rec) (m : mem) (p : Z) :
  consistent sp -> Forall (fits sp) rs ->
  let m' := pack_records sp m p rs in
  step_records sp m' p (length rs) = Some (expected sp p rs) /\
  bytes_at (length (concat (map (encoded sp) rs))) m' p = concat (map (encoded sp) rs) /\
  (forall x, x < p \/ p + Z.of_nat (length (concat (map (encoded sp) rs))) <= x -> m' x = m x).
Proof.
  intros C F m'. destruct (pack_records_written sp rs m p) as [B Fr]. split; [|done].
  by apply step_records_read.
Qed.

(** Packed keys, no additional fields, rowids of two bytes. *)
Definition example_param : Sort_param := MkParam 0 0 0 2 None (Some true) false true true.
Lemma packed_records_found_witness :
  step_records example_param (pack_records example_param (fun _ => 0) 100 [([1; 2; 3], [8; 9]); ([], [6; 7])]) 100 2 =
    Some [(100, (9, 2)); (109, (6, 2))].
Proof.
  refine (proj1 (packed_records_found example_param [([1; 2; 3], [8; 9]); ([], [6; 7])] (fun _ => 0) 100 _ _)).
  - constructor; done.
  - repeat constructor; vm_compute; done.
Defined.
End Lengths.
