(* ===== verification/Statistics.v ===== *)
(** Engine independent statistics: [mariadb/include/mysql/server/private/sql_statistics.h].

    The height-balanced histograms with numeric fractions ([Histogram_binary]), the
    counters collected from the distinct values of a column, the characteristics of a
    column and of the prefixes of an index.  The fractions of a histogram are bytes;
    [None] is a failed assertion, an access outside the values or the conversion of a
    floating point number that the type of the result cannot hold. *)

From Stdlib Require Import SpecFloat.
From S2P Require Import Prelude Doubles.

(** The conversion of a [double] to an unsigned integer of [w] bits. *)
Definition to_unsigned (w : Z) (x : double) : option Z :=
  let n := match x with
           | S754_zero _ => Some 0
           | S754_finite s m e => let t := Z.shiftl (Zpos m) e in Some (if s then - t else t)
           | _ => None
           end in
  n ← n; if (0 <=? n) && (n <? 2 ^ w) then Some n else None.

(** ** The modes of use *)

Module Modes.

Inductive enum_use_stat_tables_mode :=
  NEVER | COMPLEMENTARY | PREFERABLY | COMPLEMENTARY_FOR_QUERIES | PREFERABLY_FOR_QUERIES.
#[export] Instance mode_eq : EqDecision enum_use_stat_tables_mode.
Proof. solve_decision. Defined.

Definition check_eits_collection_allowed (use_stat_tables : enum_use_stat_tables_mode) : bool :=
  bool_decide (use_stat_tables = COMPLEMENTARY) || bool_decide (use_stat_tables = PREFERABLY).
Definition check_eits_preferred (use_stat_tables : enum_use_stat_tables_mode) : bool :=
  bool_decide (use_stat_tables = PREFERABLY) || bool_decide (use_stat_tables = PREFERABLY_FOR_QUERIES).
End Modes.

(** ** Histograms *)

Module Histogram.

Inductive enum_histogram_type := SINGLE_PREC_HB | DOUBLE_PREC_HB | JSON_HB | INVALID_HISTOGRAM.

Record Histogram_binary := MkHistogram { type : enum_histogram_type; size : Z; values : list Z }.

Definition is_usable (optimizer_use_condition_selectivity : Z) : bool := 3 <? optimizer_use_condition_selectivity.
Definition prec_factor (h : Histogram_binary) : option Z :=
  match type h with
  | SINGLE_PREC_HB => Some (2 ^ 8 - 1)
  | DOUBLE_PREC_HB => Some (2 ^ 16 - 1)
  | _ => None
  end.
Definition get_width (h : Histogram_binary) : option Z :=
  match type h with
  | SINGLE_PREC_HB => Some (u32 (size h))
  | DOUBLE_PREC_HB => Some (u32 (size h / 2))
  | _ => None
  end.
Definition byte_at (h : Histogram_binary) (k : Z) : option Z := if k <? 0 then None else values h !! Z.to_nat k.
(** [uint2korr] and [int2store] on the values. *)
Definition word_at (h : Histogram_binary) (k : Z) : option Z :=
  b0 ← byte_at h k; b1 ← byte_at h (k + 1); Some (b0 + 256 * b1).
Definition set_byte (h : Histogram_binary) (k v : Z) : option Histogram_binary :=
  _ ← byte_at h k; Some (MkHistogram (type h) (size h) (<[Z.to_nat k := v]> (values h))).
Definition set_word (h : Histogram_binary) (k v : Z) : option Histogram_binary :=
  h ← set_byte h k (v mod 256); set_byte h (k + 1) (v / 256).

Definition get_value (h : Histogram_binary) (i : Z) : option Z :=
  w ← get_width h;
  if i <? w then
    match type h with
    | SINGLE_PREC_HB => byte_at h i
    | DOUBLE_PREC_HB => word_at h (i * 2)
    | _ => None
    end
  else None.
(** The double that the code multiplies, and its conversion to the stored width. *)
Definition set_value (h : Histogram_binary) (i : Z) (val : double) : option Histogram_binary :=
  p ← prec_factor h;
  match type h with
  | SINGLE_PREC_HB => v ← to_unsigned 8 (dmul val (of_Z p)); set_byte h i v
  | DOUBLE_PREC_HB => v ← to_unsigned 16 (dmul val (of_Z p)); set_word h (i * 2) v
  | _ => None
  end.
Definition set_prev_value (h : Histogram_binary) (i : Z) : option Histogram_binary :=
  match type h with
  | SINGLE_PREC_HB => v ← byte_at h (i - 1); set_byte h i v
  | DOUBLE_PREC_HB => v ← word_at h (i * 2 - 2); set_word h (i * 2) v
  | _ => None
  end.
Definition get_size (h : Histogram_binary) : Z := u32 (size h).
Definition get_type (h : Histogram_binary) : enum_histogram_type := type h.

(** *** The search of [find_bucket] *)

(** The loop [for ( ; d;  d= (rp - lp) / 2, i= lp + d)]; the result is [i]. *)
Fixpoint search (fuel : nat) (h : Histogram_binary) (val lp rp d i : Z) : option Z :=
  if d =? 0 then Some i
  else match fuel with
  | O => None
  | S fuel =>
      let again lp rp := let d := Z.quot (rp - lp) 2 in search fuel h val lp rp d (lp + d) in
      vi ← get_value h i;
      if val =? vi then Some i
      else if val <? vi then again lp i
      else
        vi1 ← get_value h (i + 1);
        if val >? vi1 then again (i + 1) rp else Some i
  end.
(** [while(i && val == get_value(i - 1)) i--;] *)
Fixpoint to_first (fuel : nat) (h : Histogram_binary) (val i : Z) : option Z :=
  if nz i then
    v ← get_value h (i - 1);
    if val =? v then match fuel with O => None | S fuel => to_first fuel h val (i - 1) end else Some i
  else Some i.
(** [while(i + 1 < get_width() && val == get_value(i + 1)) i++;] *)
Fixpoint to_last (fuel : nat) (h : Histogram_binary) (val i : Z) : option Z :=
  w ← get_width h;
  if i + 1 <? w then
    v ← get_value h (i + 1);
    if val =? v then match fuel with O => None | S fuel => to_last fuel h val (i + 1) end else Some i
  else Some i.
Definition find_bucket_of (fuel : nat) (h : Histogram_binary) (val : Z) (first : bool) : option Z :=
  w ← get_width h;
  let d := w / 2 in
  i ← search fuel h val 0 (wrapS 32 (u32 (w - 1))) d d;
  vi ← get_value h i;
  let i := if (val >? vi) && (i <? u32 (w - 1)) then i + 1 else i in
  vi ← get_value h i;
  if val =? vi then if first then to_first fuel h val i else to_last fuel h val i
  else Some i.
Definition find_bucket (fuel : nat) (h : Histogram_binary) (pos : double) (first : bool) : option Z :=
  p ← prec_factor h;
  val ← to_unsigned 64 (dmul pos (of_Z p));
  find_bucket_of fuel h val first.
End Histogram.

(** ** The counters *)

Module Collector.

Record Basic_stats_collector := MkCollector { count : Z; count_distinct : Z; count_distinct_single_occurence : Z }.
Definition new_collector : Basic_stats_collector := MkCollector 0 0 0.
Definition next (elem_cnt : Z) (c : Basic_stats_collector) : Basic_stats_collector :=
  MkCollector (u64 (count c + elem_cnt)) (u64 (count_distinct c + 1))
    (if elem_cnt =? 1 then u64 (count_distinct_single_occurence c + 1) else count_distinct_single_occurence c).
Definition get_count_distinct (c : Basic_stats_collector) : Z := count_distinct c.
Definition get_count_single_occurence (c : Basic_stats_collector) : Z := count_distinct_single_occurence c.
Definition get_count (c : Basic_stats_collector) : Z := count c.

(** The collector that saw each distinct value with its number of occurrences. *)
Definition collect (occurrences : list Z) : Basic_stats_collector :=
  fold_left (fun c n => next n c) occurrences new_collector.
End Collector.

(** ** Columns and index prefixes *)

Module Column.

Definition COLUMN_STAT_COLUMN_NAME : Z := 2.
Definition COLUMN_STAT_MIN_VALUE : Z := 3.
Definition COLUMN_STAT_MAX_VALUE : Z := 4.
Definition COLUMN_STAT_HISTOGRAM : Z := 10.
Definition Scale_factor : Z := 100000.

Record Column_statistics := MkColumn {
  column_stat_nulls : Z;
  nulls_ratio : Z;
  avg_length : Z;
  avg_frequency : Z;
}.
Definition with_nulls (b : Z) (c : Column_statistics) : Column_statistics :=
  MkColumn b (nulls_ratio c) (avg_length c) (avg_frequency c).

Definition no_values_provided_bitmap : Z :=
  Z.shiftl (Z.shiftl 1 (COLUMN_STAT_HISTOGRAM - COLUMN_STAT_COLUMN_NAME) - 1) (COLUMN_STAT_COLUMN_NAME + 1).
Definition set_all_nulls (c : Column_statistics) : Column_statistics := with_nulls no_values_provided_bitmap c.
(** [1 << stat_field_no] is a shift of an [int], its complement is taken in [int] too. *)
Definition set_not_null (stat_field_no : Z) (c : Column_statistics) : Column_statistics :=
  with_nulls (Z.land (column_stat_nulls c) (u32 (Z.lnot (Z.shiftl 1 stat_field_no)))) c.
Definition set_null (stat_field_no : Z) (c : Column_statistics) : Column_statistics :=
  with_nulls (Z.lor (column_stat_nulls c) (u32 (Z.shiftl 1 stat_field_no))) c.
Definition is_null (stat_field_no : Z) (c : Column_statistics) : bool :=
  nz (Z.land (column_stat_nulls c) (u32 (Z.shiftl 1 stat_field_no))).
Definition get_nulls_ratio (c : Column_statistics) : double := ddiv (of_Z (nulls_ratio c)) (of_Z Scale_factor).
Definition get_avg_length (c : Column_statistics) : double := ddiv (of_Z (avg_length c)) (of_Z Scale_factor).
Definition get_avg_frequency (c : Column_statistics) : double := ddiv (of_Z (avg_frequency c)) (of_Z Scale_factor).
(** [ulong] has the width of [long] on the platform. *)
Definition set_nulls_ratio (long_bits : Z) (val : double) (c : Column_statistics) : option Column_statistics :=
  n ← to_unsigned long_bits (dmul val (of_Z Scale_factor)); Some (MkColumn (column_stat_nulls c) n (avg_length c) (avg_frequency c)).
Definition set_avg_length (val : double) (c : Column_statistics) : option Column_statistics :=
  n ← to_unsigned 64 (dmul val (of_Z Scale_factor)); Some (MkColumn (column_stat_nulls c) (nulls_ratio c) n (avg_frequency c)).
Definition set_avg_frequency (val : double) (c : Column_statistics) : option Column_statistics :=
  n ← to_unsigned 64 (dmul val (of_Z Scale_factor)); Some (MkColumn (column_stat_nulls c) (nulls_ratio c) (avg_length c) n).
Definition min_max_values_are_provided (c : Column_statistics) : bool :=
  negb (is_null COLUMN_STAT_MIN_VALUE c) && negb (is_null COLUMN_STAT_MAX_VALUE c).
Definition no_stat_values_provided (c : Column_statistics) : bool := column_stat_nulls c =? no_values_provided_bitmap.

(** [Index_statistics]: the array may be absent. *)
Definition avg_frequency_is_inited (a : option (list Z)) : bool := bool_decide (is_Some a).
Definition init_avg_frequency (ptr : option (list Z)) (a : option (list Z)) : option (list Z) := ptr.
Definition index_get_avg_frequency (a : option (list Z)) (i : nat) : option double :=
  l ← a; n ← l !! i; Some (ddiv (of_Z n) (of_Z Scale_factor)).
Definition index_set_avg_frequency (a : option (list Z)) (i : nat) (val : double) : option (option (list Z)) :=
  l ← a; _ ← l !! i; n ← to_unsigned 64 (dmul val (of_Z Scale_factor)); Some (Some (<[i := n]> l)).
End Column.

(** ** What the histogram finds *)

Module HistogramProps.
Import Histogram.

(** A histogram as [init_for_collection] allocates it and the builder fills it: bytes in
    the number of its size, a type of numeric fractions, values in order. *)
Record allocated (h : Histogram_binary) : Prop := {
  al_type : type h = SINGLE_PREC_HB \/ type h = DOUBLE_PREC_HB;
  al_size : size h = Z.of_nat (length (values h));
  al_small : size h < 2 ^ 31;
  al_bytes : Forall (in_u 8) (values h);
}.
Definition width (h : Histogram_binary) : Z := default 0 (get_width h).
Definition value (h : Histogram_binary) (i : Z) : Z := default 0 (get_value h i).
Definition ordered (h : Histogram_binary) : Prop := forall i j, 0 <= i <= j -> j < width h -> value h i <= value h j.

(** The bucket of a value: the first one whose value is not below it, the last bucket
    when all are; for the last one of equal values, the last of them. *)
Definition is_bucket (h : Histogram_binary) (val : Z) (first : bool) (i : Z) : Prop :=
  0 <= i < width h /\
  if first then (forall j, 0 <= j < i -> value h j < val) /\ (i < width h - 1 -> val <= value h i)
  else (value h i = val /\ (forall j, i < j < width h -> val < value h j)) \/
       ((forall j, 0 <= j < width h -> value h j <> val) /\
        (forall j, 0 <= j < i -> value h j < val) /\ (i < width h - 1 -> val <= value h i)).

Lemma get_width_width h : allocated h -> get_width h = Some (width h) /\ 0 <= width h < 2 ^ 31.
Proof.
  intros [T S L _]. unfold width, get_width.
  assert (0 <= size h / 2 <= size h) by (split; [apply Z.div_pos; lia|apply Z.div_le_upper_bound; lia]).
  destruct T as [-> | ->]; simpl; (split; [done|]); rewrite wrapU_small; unfold in_u; lia.
Qed.

Lemma byte_at_in h k : allocated h -> 0 <= k < size h -> exists b, byte_at h k = Some b /\ in_u 8 b.
Proof.
  intros [T S L B] Hk. unfold byte_at. destruct (Z.ltb_spec k 0); [lia|].
  destruct (lookup_lt_is_Some_2 (values h) (Z.to_nat k)) as [b E]; [lia|]. exists b. split; [done|].
  by eapply Forall_lookup_1.
Qed.

Lemma get_value_value h i : allocated h -> 0 <= i < width h -> get_value h i = Some (value h i).
Proof.
  intros A Hi. unfold value. destruct (get_width_width h A) as [E W]. unfold get_value. rewrite E. simpl.
  destruct (Z.ltb_spec i (width h)); [|lia]. pose proof A as [T S L B]. unfold width, get_width in *.
  destruct T as [T | T]; rewrite T in *; simpl in *.
  - destruct (byte_at_in h i A) as (b & -> & _); [|done]. rewrite wrapU_small in Hi; unfold in_u; lia.
  - pose proof (Z.mul_div_le (size h) 2 ltac:(lia)). assert (0 <= size h / 2) by (apply Z.div_pos; lia).
    rewrite wrapU_small in Hi by (unfold in_u; lia).
    unfold word_at. destruct (byte_at_in h (i * 2) A) as (b & -> & _); [lia|].
    destruct (byte_at_in h (i * 2 + 1) A) as (b' & -> & _); [lia|]. done.
Qed.

(** *** Values are stored one by one *)

Lemma to_unsigned_range w x n : to_unsigned w x = Some n -> in_u w n.
Proof.
  unfold to_unsigned. destruct (match x with S754_zero _ => _ | _ => _ end) as [t|]; [|done]. simpl.
  destruct (Z.leb_spec 0 t), (Z.ltb_spec t (2 ^ w)); simpl; try done. intros [= <-]. by split.
Qed.

Lemma set_byte_spec h k v :
  allocated h -> 0 <= k < size h -> in_u 8 v ->
  exists h', set_byte h k v = Some h' /\ allocated h' /\ type h' = type h /\ size h' = size h /\
  forall j, byte_at h' j = if j =? k then Some v else byte_at h j.
Proof.
  intros A Hk Hv. unfold set_byte. destruct (byte_at_in h k A Hk) as (b & -> & _). simpl.
  destruct A as [T S L B]. eexists. split; [done|]. split; [|split; [done|split; [done|]]].
  - constructor; simpl; [done|by rewrite length_insert|done|by apply Forall_insert].
  - intros j. unfold byte_at. simpl. destruct (Z.ltb_spec j 0), (Z.eqb_spec j k); try lia; try done.
    + subst. apply list_lookup_insert_eq. lia.
    + apply list_lookup_insert_ne. lia.
Qed.

Lemma set_word_spec h k v :
  allocated h -> 0 <= k -> k + 1 < size h -> in_u 16 v ->
  exists h', set_word h k v = Some h' /\ allocated h' /\ type h' = type h /\ size h' = size h /\
  forall j, byte_at h' j = if j =? k + 1 then Some (v / 256) else if j =? k then Some (v mod 256) else byte_at h j.
Proof.
  intros A H0 H1 [Hv1 Hv2]. unfold set_word.
  destruct (set_byte_spec h k (v mod 256)) as (h1 & -> & A1 & T1 & S1 & B1); [done|lia|apply Z.mod_pos_bound; lia|]. simpl.
  destruct (set_byte_spec h1 (k + 1) (v / 256)) as (h2 & -> & A2 & T2 & S2 & B2); [done|lia| |].
  { split; [apply Z.div_pos; lia|apply Z.div_lt_upper_bound; lia]. }
  exists h2. split; [done|]. split; [done|]. split; [congruence|]. split; [congruence|]. intros j. by rewrite B2, B1.
Qed.

Definition stored_bits (h : Histogram_binary) : Z := match type h with SINGLE_PREC_HB => 8 | _ => 16 end.
Definition store (h : Histogram_binary) (i v : Z) : option Histogram_binary :=
  match type h with SINGLE_PREC_HB => set_byte h i v | _ => set_word h (i * 2) v end.

Lemma width_same h h' : type h' = type h -> size h' = size h -> width h' = width h.
Proof. intros T S. unfold width, get_width. by rewrite T, S. Qed.

Lemma value_single h i :
  allocated h -> type h = SINGLE_PREC_HB -> width h = size h /\ (i < width h -> value h i = default 0 (byte_at h i)).
Proof.
  intros A T. destruct (get_width_width h A) as [EW _]. assert (W : width h = size h).
  { destruct A as [_ S L _]. unfold width, get_width. rewrite T. apply wrapU_small. unfold in_u. lia. }
  split; [done|]. intros Hi. unfold value, get_value. rewrite EW. simpl. destruct (Z.ltb_spec i (width h)); [|lia]. by rewrite T.
Qed.

Lemma value_double h i :
  allocated h -> type h = DOUBLE_PREC_HB ->
  0 <= width h /\ 2 * width h <= size h /\ (i < width h -> value h i = default 0 (word_at h (i * 2))).
Proof.
  intros A T. destruct (get_width_width h A) as [EW HW]. assert (W : width h = size h / 2).
  { destruct A as [_ S L _]. unfold width, get_width. rewrite T. apply wrapU_small. pose proof (Z.mul_div_le (size h) 2 ltac:(lia)).
    assert (0 <= size h / 2) by (apply Z.div_pos; lia). unfold in_u. lia. }
  pose proof (Z.mul_div_le (size h) 2 ltac:(lia)). split; [lia|]. split; [lia|].
  intros Hi. unfold value, get_value. rewrite EW. simpl. destruct (Z.ltb_spec i (width h)); [|lia]. by rewrite T.
Qed.

Lemma store_spec h i v :
  allocated h -> 0 <= i < width h -> in_u (stored_bits h) v ->
  exists h', store h i v = Some h' /\ allocated h' /\ width h' = width h /\ value h' i = v /\
  forall j, 0 <= j < width h -> j <> i -> value h' j = value h j.
Proof.
  intros A Hi Hv. destruct (al_type h A) as [T | T]; unfold store, stored_bits in *; rewrite T in *.
  - destruct (value_single h i A T) as [W _].
    destruct (set_byte_spec h i v) as (h' & -> & A' & T' & S' & B'); [done|lia|done|]. exists h'. split; [done|]. split; [done|].
    pose proof (width_same h h' T' S') as W'. split; [done|]. rewrite T in T'. split.
    + destruct (value_single h' i A' T') as [_ ->]; [|lia]. by rewrite B', Z.eqb_refl.
    + intros j Hj Hne. destruct (value_single h' j A' T') as [_ ->]; [|lia]. destruct (value_single h j A T) as [_ ->]; [|lia].
      rewrite B'. by destruct (Z.eqb_spec j i).
  - destruct (value_double h i A T) as (W0 & W & _).
    destruct (set_word_spec h (i * 2) v) as (h' & -> & A' & T' & S' & B'); [done|lia|lia|done|]. exists h'. split; [done|]. split; [done|].
    pose proof (width_same h h' T' S') as W'. split; [done|]. rewrite T in T'. split.
    + destruct (value_double h' i A' T') as (_ & _ & ->); [|lia]. unfold word_at. rewrite !B', Z.eqb_refl.
      destruct (Z.eqb_spec (i * 2) (i * 2 + 1)); [lia|]. rewrite Z.eqb_refl. simpl. pose proof (Z.div_mod v 256 ltac:(lia)). lia.
    + intros j Hj Hne. destruct (value_double h' j A' T') as (_ & _ & ->); [|lia].
      destruct (value_double h j A T) as (_ & _ & ->); [|lia]. unfold word_at. rewrite !B'.
      destruct (Z.eqb_spec (j * 2) (i * 2 + 1)), (Z.eqb_spec (j * 2) (i * 2)), (Z.eqb_spec (j * 2 + 1) (i * 2 + 1)),
        (Z.eqb_spec (j * 2 + 1) (i * 2)); done || lia.
Qed.

(** A value set is the fraction times the factor, cut to an integer; the other values stay. *)
Lemma set_value_spec h i f v p :
  allocated h -> 0 <= i < width h -> prec_factor h = Some p -> to_unsigned (stored_bits h) (dmul f (of_Z p)) = Some v ->
  exists h', set_value h i f = Some h' /\ allocated h' /\ width h' = width h /\ value h' i = v /\
  forall j, 0 <= j < width h -> j <> i -> value h' j = value h j.
Proof.
  intros A Hi Hp Hv. destruct (store_spec h i v A Hi (to_unsigned_range _ _ _ Hv)) as (h' & E & H).
  exists h'. split; [|done]. unfold set_value, store, stored_bits in *. rewrite Hp. simpl. pose proof A as [T _ _ _].
  destruct T as [T | T]; rewrite T in *; by rewrite Hv.
Qed.

(** [set_prev_value] repeats the value before. *)
Lemma set_prev_value_spec h i :
  allocated h -> 0 < i < width h ->
  exists h', set_prev_value h i = Some h' /\ allocated h' /\ width h' = width h /\ value h' i = value h (i - 1) /\
  forall j, 0 <= j < width h -> j <> i -> value h' j = value h j.
Proof.
  intros A Hi. pose proof (get_value_value h (i - 1) A ltac:(lia)) as E. destruct (get_width_width h A) as [EW _].
  assert (in_u (stored_bits h) (value h (i - 1)) /\ set_prev_value h i = store h i (value h (i - 1))) as [R ->].
  { unfold get_value in E. rewrite EW in E. simpl in E. destruct (Z.ltb_spec (i - 1) (width h)); [|done].
    unfold set_prev_value, store, stored_bits. pose proof A as [T S L B].
    destruct T as [T | T]; rewrite T in *.
    - rewrite E. split; [|done]. unfold byte_at in E. destruct (i - 1 <? 0); [done|]. by eapply Forall_lookup_1.
    - replace (i * 2 - 2) with ((i - 1) * 2) by lia. rewrite E. split; [|done]. unfold word_at, byte_at in E.
      destruct ((i - 1) * 2 <? 0); [done|]. destruct (values h !! Z.to_nat ((i - 1) * 2)) as [b0|] eqn:E0; [|done].
      simpl in E. destruct ((i - 1) * 2 + 1 <? 0); [done|].
      destruct (values h !! Z.to_nat ((i - 1) * 2 + 1)) as [b1|] eqn:E1; [|done]. simpl in E. injection E as E.
      pose proof (Forall_lookup_1 _ _ _ _ B E0) as [? ?]. pose proof (Forall_lookup_1 _ _ _ _ B E1) as [? ?]. unfold in_u. lia. }
  apply store_spec; [done|lia|done].
Qed.

Section search.
Context (h : Histogram_binary) (A : allocated h) (O : ordered h) (val : Z).

(** What the loop leaves: an equal value, or the place where the value belongs, at most one bucket off. *)
Definition found (i : Z) : Prop :=
  0 <= i < width h /\
  (value h i = val \/
   ((forall j, 0 <= j < i -> value h j < val) /\ (i + 1 < width h - 1 -> val <= value h (i + 1)))).

Lemma search_stops lp rp :
  0 <= lp -> rp < width h -> lp <= rp -> rp - lp <= 1 ->
  (forall j, 0 <= j < lp -> value h j < val) -> (rp = width h - 1 \/ val < value h rp) -> found lp.
Proof using O.
  intros Hl Hr H1 H2 HL HR. split; [lia|]. right. split; [done|]. intros Hi.
  destruct HR as [HR|HR]; [lia|]. assert (value h rp <= value h (lp + 1)) by (apply O; lia). lia.
Qed.

Lemma search_found fuel : forall lp rp d,
  0 <= d -> d <= Z.of_nat fuel -> 0 <= lp -> rp < width h -> d <= rp - lp -> rp - lp <= 2 * d + 1 ->
  (d <> 0 -> lp + d + 1 < width h \/ val <= value h (lp + d)) ->
  (forall j, 0 <= j < lp -> value h j < val) -> (rp = width h - 1 \/ val < value h rp) ->
  exists i, search fuel h val lp rp d (lp + d) = Some i /\ found i.
Proof.
  induction fuel as [|fuel IH]; intros lp rp d Hd Hf Hl Hr H1 H2 Hin HL HR; cbn [search];
    destruct (Z.eqb_spec d 0) as [->|Hd0]; try lia.
  1, 2: exists (lp + 0); split; [done|]; rewrite Z.add_0_r; apply search_stops with rp; done || lia.
  rewrite (get_value_value h (lp + d)) by (done || lia). simpl. destruct (Z.eqb_spec val (value h (lp + d))) as [E|NE].
  { exists (lp + d). split; [done|]. split; [lia|]. by left. }
  assert (Q : forall a, 0 <= a -> Z.quot a 2 = a / 2 /\ 2 * (a / 2) <= a <= 2 * (a / 2) + 1).
  { intros a Ha. rewrite Z.quot_div_nonneg by lia. pose proof (Z.div_mod a 2 ltac:(lia)).
    pose proof (Z.mod_pos_bound a 2 ltac:(lia)). lia. }
  destruct (Z.ltb_spec val (value h (lp + d))) as [Hlt|Hge].
  - destruct (Q (lp + d - lp)) as [-> ?]; [lia|]. apply IH; done || lia.
  - destruct (Hin Hd0) as [Hin'|]; [|lia]. rewrite (get_value_value h (lp + d + 1)) by (done || lia). simpl.
    rewrite Z.gtb_ltb. destruct (Z.ltb_spec (value h (lp + d + 1)) val) as [Hgt|Hle].
    + destruct (decide (lp + d + 1 <= rp)) as [Hle|Hout].
      * destruct (Q (rp - (lp + d + 1))) as [-> ?]; [lia|]. apply IH; try (done || lia).
        intros j Hj. assert (value h j <= value h (lp + d + 1)) by (apply O; lia). lia.
      * exfalso. destruct HR as [->|HR]; [lia|]. replace rp with (lp + d) in HR by lia. lia.
    + exists (lp + d). split; [done|]. split; [lia|]. right. split; [|done].
      intros j Hj. assert (value h j <= value h (lp + d)) by (apply O; lia). lia.
Qed.

Lemma to_first_found fuel : forall i,
  0 <= i < width h -> i <= Z.of_nat fuel -> value h i = val ->
  exists r, to_first fuel h val i = Some r /\ 0 <= r <= i /\ value h r = val /\ (forall j, 0 <= j < r -> value h j < val).
Proof using A O.
  induction fuel as [|fuel IH]; intros i Hi Hf Hv; cbn [to_first]; unfold nz; destruct (Z.eqb_spec i 0) as [->|Hn];
    cbn [negb]; try lia; try (exists 0; split; [done|]; split; [lia|]; split; [done|]; lia).
  rewrite get_value_value by (done || lia). simpl. assert (Hle : value h (i - 1) <= value h i) by (apply O; lia).
  destruct (Z.eqb_spec val (value h (i - 1))) as [E|NE].
  - destruct (IH (i - 1)) as (r & Hr & H1 & H2); [lia|lia|done|]. exists r. split; [done|]. split; [lia|done].
  - exists i. split; [done|]. split; [lia|]. split; [done|]. intros j Hj.
    assert (value h j <= value h (i - 1)) by (apply O; lia). lia.
Qed.

Lemma to_last_found fuel : forall i,
  0 <= i < width h -> width h - 1 - i <= Z.of_nat fuel -> value h i = val ->
  exists r, to_last fuel h val i = Some r /\ i <= r < width h /\ value h r = val /\ (forall j, r < j < width h -> val < value h j).
Proof using A O.
  destruct (get_width_width h A) as [EW _].
  induction fuel as [|fuel IH]; intros i Hi Hf Hv; cbn [to_last]; rewrite EW; simpl; destruct (Z.ltb_spec (i + 1) (width h));
    try lia; try (exists i; split; [done|]; split; [lia|]; split; [done|]; lia).
  rewrite get_value_value by (done || lia). simpl. assert (Hle : value h i <= value h (i + 1)) by (apply O; lia).
  destruct (Z.eqb_spec val (value h (i + 1))) as [E|NE].
  - destruct (IH (i + 1)) as (r & Hr & H1 & H2); [lia|lia|done|]. exists r. split; [done|]. split; [lia|done].
  - exists i. split; [done|]. split; [lia|]. split; [done|]. intros j Hj.
    assert (value h (i + 1) <= value h j) by (apply O; lia). lia.
Qed.

(** After the step to the next bucket an equal value, or the first that is not below. *)
Lemma found_next i :
  found i -> let r := if (val >? value h i) && (i <? width h - 1) then i + 1 else i in
  0 <= r < width h /\ (value h r = val \/ (forall j, 0 <= j < r -> value h j < val) /\ (r < width h - 1 -> val <= value h r)).
Proof using O.
  intros [Hi HF]. rewrite Z.gtb_ltb. cbv zeta. destruct (Z.ltb_spec (value h i) val), (Z.ltb_spec i (width h - 1)); simpl.
  - split; [lia|]. right. destruct HF as [HF|[_ HF]]; [lia|]. split; [|lia].
    intros j Hj. assert (value h j <= value h i) by (apply O; lia). lia.
  - split; [lia|]. right. split; [|lia]. intros j Hj. assert (value h j <= value h i) by (apply O; lia). lia.
  - split; [lia|]. destruct HF as [HF|[HF _]]; [by left|right; split; [done|lia]].
  - split; [lia|]. destruct HF as [HF|[HF _]]; [by left|right; split; [done|lia]].
Qed.

Lemma bucket_of_place r first :
  0 <= r < width h -> value h r <> val -> (forall j, 0 <= j < r -> value h j < val) ->
  (r < width h - 1 -> val <= value h r) -> is_bucket h val first r.
Proof using O.
  intros Hr Hne HB HA. split; [done|]. destruct first; [done|]. right. split; [|done].
  intros j Hj. destruct (Z.lt_trichotomy j r) as [H|[->|H]]; [|done|].
  - specialize (HB j). lia.
  - assert (value h r <= value h j) by (apply O; lia). lia.
Qed.

Lemma find_bucket_of_found fuel first :
  width h < Z.of_nat fuel -> 0 < width h -> (width h = 2 -> val <= value h 1) ->
  exists i, find_bucket_of fuel h val first = Some i /\ is_bucket h val first i.
Proof using A O.
  intros Hf H0 H2. destruct (get_width_width h A) as [EW HW]. unfold find_bucket_of. rewrite EW. simpl.
  rewrite wrapU_small by (unfold in_u; lia). rewrite wrapS_small by (unfold in_s; lia).
  pose proof (Z.div_mod (width h) 2 ltac:(lia)). pose proof (Z.mod_pos_bound (width h) 2 ltac:(lia)).
  destruct (search_found fuel 0 (width h - 1) (width h / 2)) as (i & E & Hi); try lia.
  { rewrite Z.add_0_l. intros Hd. destruct (decide (width h = 2)) as [E2|]; [|left; lia].
    right. replace (width h / 2) with 1 by lia. by apply H2. }
  rewrite Z.add_0_l in E. rewrite E. simpl. pose proof Hi as [Hi0 _].
  rewrite (get_value_value h i) by done. simpl. pose proof (found_next i Hi) as HN. cbv zeta in HN.
  set (r := if _ && _ then i + 1 else i) in *. destruct HN as [Hr HN]. rewrite (get_value_value h r) by done. simpl.
  destruct (Z.eqb_spec val (value h r)) as [Ev|Nv].
  - destruct first.
    + destruct (to_first_found fuel r) as (q & -> & Hq & Hv & HB); [lia|lia|done|]. exists q. split; [done|].
      split; [lia|]. split; [done|lia].
    + destruct (to_last_found fuel r) as (q & -> & Hq & Hv & HB); [lia|lia|done|]. exists q. split; [done|].
      split; [lia|]. by left.
  - exists r. split; [done|]. destruct HN as [HN|[HB HA]]; [congruence|]. by apply bucket_of_place.
Qed.
End search.

(** Two buckets and a value above both: the loop reads a third value. *)
Lemma find_bucket_two h val fuel first :
  allocated h -> width h = 2 -> value h 1 < val -> (0 < fuel)%nat -> find_bucket_of fuel h val first = None.
Proof.
  intros A W2 Hv Hf. destruct (get_width_width h A) as [EW HW]. unfold find_bucket_of. rewrite EW, W2. simpl.
  destruct fuel as [|fuel]; [lia|]. change (2 / 2) with 1. cbn [search]. simpl (1 =? 0).
  rewrite (get_value_value h 1) by (done || lia). simpl. destruct (Z.eqb_spec val (value h 1)); [lia|].
  destruct (Z.ltb_spec val (value h 1)); [lia|].
  assert (E2 : get_value h (1 + 1) = None) by (unfold get_value; by rewrite EW, W2). by rewrite E2.
Qed.

(** C13 : [find_bucket] finds the bucket of every position. For a histogram with at least
    one bucket and its values in order, whose search always ends, the result is the first
    bucket whose value is not below the position (the last bucket when all are), and for
    a position that equals values of several buckets the first or the last of them, as
    asked. The one exception is a histogram of two buckets whose values are both below
    the position: the search then reads a third value, which does not exist. *)
Theorem find_bucket_correct (h : Histogram_binary) (pos : double) (first : bool) (fuel : nat) (p val : Z) :
  allocated h -> ordered h -> 0 < width h -> width h < Z.of_nat fuel ->
  prec_factor h = Some p -> to_unsigned 64 (dmul pos (of_Z p)) = Some val ->
  if bool_decide (width h = 2 /\ value h 1 < val) then find_bucket fuel h pos first = None
  else exists i, find_bucket fuel h pos first = Some i /\ is_bucket h val first i.
Proof.
  intros A O H0 Hf Hp Hv. unfold find_bucket. rewrite Hp. simpl. rewrite Hv. simpl. case_bool_decide as Hd.
  - apply find_bucket_two; (done || tauto || lia).
  - apply find_bucket_of_found; try done. intros W2. destruct (Z.le_gt_cases val (value h 1)); [done|].
    exfalso. apply Hd. lia.
Qed.

(** Five buckets, and the position 0.5 in them. *)
Definition example_histogram : Histogram_binary := MkHistogram SINGLE_PREC_HB 5 [10; 127; 127; 127; 200].
Lemma find_bucket_correct_witness :
  find_bucket 6 example_histogram (S754_finite false 1 (-1)) true = Some 1 /\
  exists i, find_bucket 6 example_histogram (S754_finite false 1 (-1)) false = Some i /\
            is_bucket example_histogram 127 false i.
Proof.
  split; [vm_compute; reflexivity|].
  refine (find_bucket_correct example_histogram (S754_finite false 1 (-1)) false 6 255 127 _ _ _ _ _ _).
  - constructor; [by left|reflexivity|reflexivity|]. repeat (constructor; [split; reflexivity || discriminate|]). constructor.
  - intros i j Hij Hj. change (width example_histogram) with 5 in Hj.
    assert (i = 0 \/ i = 1 \/ i = 2 \/ i = 3 \/ i = 4) as [->|[->|[->|[->| ->]]]] by lia;
      (assert (j = 0 \/ j = 1 \/ j = 2 \/ j = 3 \/ j = 4) as [->|[->|[->|[->| ->]]]] by lia); try lia; vm_compute; discriminate.
  - reflexivity.
  - reflexivity.
  - reflexivity.
  - vm_compute. reflexivity.
Defined.
End HistogramProps.

(** ** What the counters count *)

Module CollectorProps.
Import Collector.

Definition sum (l : list Z) : Z := fold_right Z.add 0 l.
Definition ones (l : list Z) : list Z := List.filter (Z.eqb 1) l.

Lemma sum_snoc l n : sum (l ++ [n]) = sum l + n.
Proof. induction l as [|x l IH]; simpl; [lia|]. unfold sum in *. simpl. lia. Qed.

Lemma ones_snoc l n : Z.of_nat (length (ones (l ++ [n]))) = Z.of_nat (length (ones l)) + (if n =? 1 then 1 else 0).
Proof.
  unfold ones. rewrite List.filter_app, length_app. cbn [List.filter]. rewrite (Z.eqb_sym 1 n). destruct (n =? 1); simpl; lia.
Qed.

Lemma wrapU_add_l w a b : wrapU w (wrapU w a + b) = wrapU w (a + b).
Proof. unfold wrapU. by rewrite Zplus_mod_idemp_l. Qed.

Lemma collect_counts l :
  collect l = MkCollector (u64 (sum l)) (u64 (Z.of_nat (length l))) (u64 (Z.of_nat (length (ones l)))).
Proof.
  unfold collect. induction l as [|n l IH] using rev_ind; [done|]. rewrite fold_left_app, IH. cbn [fold_left].
  unfold next. cbn [count count_distinct count_distinct_single_occurence].
  rewrite sum_snoc, ones_snoc, length_app, Nat2Z.inj_add, !wrapU_add_l. f_equal. by destruct (n =? 1); rewrite ?Z.add_0_r.
Qed.
End CollectorProps.

(** ** Which statistics a column has *)

Module ColumnProps.
Import Column.

Lemma is_null_testbit k c : 0 <= k < 32 -> is_null k c = Z.testbit (column_stat_nulls c) k.
Proof.
  intros Hk. unfold is_null. rewrite wrapU_small.
  - rewrite Z.shiftl_1_l. apply nz_land_pow2. lia.
  - rewrite Z.shiftl_1_l. split; [apply Z.pow_nonneg; lia|]. apply Z.pow_lt_mono_r; lia.
Qed.

Lemma is_null_set_not_null k j c : 0 <= k < 32 -> 0 <= j < 32 -> is_null j (set_not_null k c) = is_null j c && negb (j =? k).
Proof.
  intros Hk Hj. rewrite !is_null_testbit by done. simpl. rewrite Z.land_spec. f_equal.
  rewrite testbit_wrapU by lia. rewrite Z.lnot_spec by lia. rewrite Z.shiftl_1_l, Z.pow2_bits_eqb by lia.
  destruct (Z.ltb_spec j 32); [|lia]. rewrite Z.eqb_sym. by rewrite ?andb_true_l, ?andb_true_r.
Qed.

Lemma is_null_set_null k j c : 0 <= k < 32 -> 0 <= j < 32 -> is_null j (set_null k c) = is_null j c || (j =? k).
Proof.
  intros Hk Hj. rewrite !is_null_testbit by done. simpl. rewrite Z.lor_spec. f_equal.
  rewrite testbit_wrapU by lia. rewrite Z.shiftl_1_l, Z.pow2_bits_eqb by lia.
  destruct (Z.ltb_spec j 32); [|lia]. rewrite Z.eqb_sym. by rewrite ?andb_true_l, ?andb_true_r.
Qed.

Lemma is_null_set_all_nulls k c : 0 <= k < 32 -> is_null k (set_all_nulls c) = (3 <=? k) && (k <=? 10).
Proof.
  intros Hk. rewrite is_null_testbit by done. simpl.
  apply (all_below_spec 32 (fun k => Bool.eqb (Z.testbit no_values_provided_bitmap k) ((3 <=? k) && (k <=? 10)))) in Hk.
  - by apply Bool.eqb_prop in Hk.
  - vm_compute. reflexivity.
Qed.

(** A column has no statistics exactly when every characteristic from the minimum to the
    histogram is marked as missing and nothing else is. *)
Lemma no_stat_values_provided_exact c :
  in_u 32 (column_stat_nulls c) ->
  no_stat_values_provided c = true <-> (forall k, 0 <= k < 32 -> is_null k c = (3 <=? k) && (k <=? 10)).
Proof.
  intros HU. unfold no_stat_values_provided. rewrite Z.eqb_eq. split.
  - intros E k Hk. rewrite <- (is_null_set_all_nulls k c Hk), !is_null_testbit by done. simpl. by rewrite E.
  - intros H. apply Z.bits_inj'. intros k Hk. destruct (Z.lt_ge_cases k 32) as [Hlt|Hge].
    + rewrite <- is_null_testbit, H by lia. rewrite <- (is_null_set_all_nulls k c), is_null_testbit by lia. done.
    + rewrite (testbit_above 32) by (done || lia). symmetry. apply (testbit_above 32); [done| |lia]. split; [done|reflexivity].
Qed.

(** Setting a ratio that was read does not always give it back: the division rounds down
    in binary, and the conversion cuts. *)
Lemma nulls_ratio_read_back_lost :
  let c := MkColumn 0 7 0 0 in set_nulls_ratio 64 (get_nulls_ratio c) c = Some (MkColumn 0 6 0 0).
Proof. vm_compute. reflexivity. Qed.
End ColumnProps.
