(* ===== verification/Decimal.v ===== *)
(** Decimal numbers: the inline code of [mariadb/include/mysql/server/private/my_decimal.h],
    the macros of [decimal.h] it uses, and the pointers to decimals ([Dec_ptr],
    [Dec_ptr_and_buffer], [VDec2_lazy]) of [private/sql_type.h].

    A [my_decimal] holds its digits and a pointer to them.  Objects live in a store by
    address, and the pointer of an object is the address of the object whose digits it
    shows, so that an object that shows another one's digits can be told from a copy.
    The arithmetic is library code: the class [DecimalLib], whose functions give a result
    code and the value they generate, if any.  The library writes the destination while
    it reads its operands, so its functions are also told whether the destination is an
    operand, and nothing is assumed of what they compute then.  [DecimalLaws] is the
    convention of [decimal.h]: a code of at most 2 comes with a result, a greater one
    without.  [None] is a failed assertion or an access outside an object. *)

From S2P Require Import Prelude.

(** ** Precision and length *)

Definition DECIMAL_BUFF_LENGTH : Z := 9.
Definition DECIMAL_MAX_POSSIBLE_PRECISION : Z := DECIMAL_BUFF_LENGTH * 9.
Definition DECIMAL_MAX_PRECISION : Z := DECIMAL_MAX_POSSIBLE_PRECISION - 8 * 2.
Definition DECIMAL_MAX_SCALE : Z := 38.
Definition DECIMAL_NOT_SPECIFIED : Z := 39.
Definition E_DEC_OK : Z := 0.
Definition E_DEC_OVERFLOW : Z := 2.
Definition E_DEC_FATAL_ERROR : Z := 30.

Definition my_decimal_int_part (precision decimals : Z) : Z :=
  u16 (precision - (if decimals =? DECIMAL_NOT_SPECIFIED then 0 else decimals)).
Definition my_decimal_length_to_precision (length scale : Z) (unsigned_flag : bool) : option Z :=
  if nz length || (scale =? 0)
  then Some (u16 (length - (if scale >? 0 then 1 else 0) - (if unsigned_flag || (length =? 0) then 0 else 1)))
  else None.
Definition my_decimal_precision_to_length_no_truncation (precision scale : Z) (unsigned_flag : bool) : option Z :=
  if nz precision || (scale =? 0)
  then Some (u16 (precision + (if scale >? 0 then 1 else 0) + (if unsigned_flag || (precision =? 0) then 0 else 1)))
  else None.
Definition my_decimal_precision_to_length (precision scale : Z) (unsigned_flag : bool) : option Z :=
  if nz precision || (scale =? 0)
  then my_decimal_precision_to_length_no_truncation
         (if precision >? DECIMAL_MAX_PRECISION then DECIMAL_MAX_PRECISION else precision) scale unsigned_flag
  else None.

(** ** Objects *)

(** What the library reads and writes through a [decimal_t]. *)
Record decimal := Dec { d_intg : Z; d_frac : Z; d_sign : bool; d_digits : list Z }.
Record my_decimal := MkDecimal {
  intg : Z; frac : Z; len : Z; sgn : bool;
  buf : Z;
  buffer : list Z;
}.
(** The objects, and the results passed to [decimal_operation_results], the last one first. *)
Record store := MkStore { objs : gmap Z my_decimal; reported : list Z }.

Inductive decimal_round_mode := TRUNCATE | HALF_EVEN | HALF_UP | CEILING | FLOOR.

(** What a library function answers: its code and the value it generates. *)
Definition lres : Type := Z * option decimal.

(** The first argument of the arithmetic: whether the destination is the first, the
    second operand. *)
Class DecimalLib := {
  str : Type;
  dbl : Type;
  decimal_add : bool * bool -> decimal -> decimal -> lres;
  decimal_sub : bool * bool -> decimal -> decimal -> lres;
  decimal_mul : bool * bool -> decimal -> decimal -> lres;
  decimal_mod : bool * bool -> decimal -> decimal -> lres;
  decimal_div : bool * bool -> decimal -> decimal -> Z -> lres;
  decimal_cmp : decimal -> decimal -> Z;
  decimal_is_zero : decimal -> bool;
  decimal_intg : decimal -> Z;
  decimal_round : bool -> decimal -> Z -> decimal_round_mode -> lres;
  max_decimal : Z -> Z -> decimal;
  string2decimal : str -> lres;
  double2decimal : dbl -> lres;
  longlong2decimal : Z -> lres;
  ulonglong2decimal : Z -> lres;
  bin2decimal : list Z -> Z -> Z -> lres;
  (** what a destination shows after a call that generated no result *)
  no_result : Z -> decimal -> decimal;
  decimal2double : decimal -> dbl;
  double_zero : dbl;
  to_longlong : decimal -> bool -> Z;
  decimal_size : Z -> Z -> Z;
  decimal_bin_size : Z -> Z -> Z;
}.

Definition by_convention (r : lres) : Prop := 0 <= r.1 /\ (r.1 <= 2 <-> is_Some r.2).
Class DecimalLaws `{DecimalLib} := {
  decimal_add_law o x y : by_convention (decimal_add o x y);
  decimal_sub_law o x y : by_convention (decimal_sub o x y);
  decimal_mul_law o x y : by_convention (decimal_mul o x y);
  decimal_mod_law o x y : by_convention (decimal_mod o x y);
  decimal_div_law o x y inc : by_convention (decimal_div o x y inc);
  decimal_round_law o x scale mode : by_convention (decimal_round o x scale mode);
  string2decimal_law x : by_convention (string2decimal x);
  double2decimal_law x : by_convention (double2decimal x);
  longlong2decimal_law i : by_convention (longlong2decimal i);
  ulonglong2decimal_law i : by_convention (ulonglong2decimal i);
  bin2decimal_law bin prec scale : by_convention (bin2decimal bin prec scale);
}.

Section ops.
Context `{DecimalLib}.

Definition set_obj (p : Z) (o : my_decimal) (s : store) : store := MkStore (<[p := o]> (objs s)) (reported s).
Definition report (r : Z) (s : store) : store := MkStore (objs s) (r :: reported s).

(** The value at an address: its digits are those the pointer shows. *)
Definition view (s : store) (p : Z) : option decimal :=
  o ← objs s !! p; t ← objs s !! buf o; Some (Dec (intg o) (frac o) (sgn o) (buffer t)).
(** The library stores a value. *)
Definition put_value (p : Z) (d : decimal) (s : store) : option store :=
  o ← objs s !! p;
  let s := set_obj p (MkDecimal (d_intg d) (d_frac d) (len o) (d_sign d) (buf o) (buffer o)) s in
  t ← objs s !! buf o;
  Some (set_obj (buf o) (MkDecimal (intg t) (frac t) (len t) (sgn t) (buf t) (d_digits d)) s).
(** The destination after a call of the library. *)
Definition put_result (p : Z) (r : lres) (s : store) : option store :=
  match r.2 with
  | Some v => put_value p v s
  | None => old ← view s p; put_value p (no_result r.1 old) s
  end.

Definition init (p : Z) (s : store) : option store :=
  o ← objs s !! p;
  Some (set_obj p (MkDecimal (intg o) (frac o) DECIMAL_BUFF_LENGTH (sgn o) p (buffer o)) s).
Definition fix_buffer_pointer (p : Z) (s : store) : option store :=
  o ← objs s !! p; Some (set_obj p (MkDecimal (intg o) (frac o) (len o) (sgn o) p (buffer o)) s).
(** The copy constructor at the new address [p], and the assignment. *)
Definition copy (rhs p : Z) (s : store) : option store :=
  o ← objs s !! rhs; init p (set_obj p o s).
Definition assign (p rhs : Z) (s : store) : option store :=
  if p =? rhs then Some s
  else o ← objs s !! rhs; _ ← objs s !! p; fix_buffer_pointer p (set_obj p o s).
(** [swap_variables], with its variable [dummy] at the unused address [tmp]; [garbage] is what it holds. *)
Definition swap (p rhs tmp : Z) (garbage : my_decimal) (s : store) : option store :=
  s ← init tmp (set_obj tmp garbage s);
  s ← assign tmp p s; s ← assign p rhs s; s ← assign rhs tmp s;
  Some (MkStore (delete tmp (objs s)) (reported s)).
Definition sign (p : Z) (s : store) : option bool := sgn <$> objs s !! p.
Definition set_sign (p : Z) (b : bool) (s : store) : option store :=
  o ← objs s !! p; Some (set_obj p (MkDecimal (intg o) (frac o) (len o) b (buf o) (buffer o)) s).
Definition precision (p : Z) (s : store) : option Z := o ← objs s !! p; Some (u16 (intg o + frac o)).
(** [decimal_make_zero] writes the first digit only. *)
Definition set_zero (p : Z) (s : store) : option store :=
  d ← view s p; put_value p (Dec 1 0 false (<[0%nat := 0]> (d_digits d))) s.
Definition cmp (p other : Z) (s : store) : option Z := a ← view s p; b ← view s other; Some (decimal_cmp a b).
Definition to_bool (p : Z) (s : store) : option bool := d ← view s p; Some (negb (decimal_is_zero d)).
Definition to_double (p : Z) (s : store) : option dbl := d ← view s p; Some (decimal2double d).
Definition to_xlonglong (p : Z) (s : store) : option Z :=
  b ← sign p s; d ← view s p; Some (to_longlong d (negb b)).

Definition check_result (mask result : Z) (s : store) : Z * store :=
  (result, if nz (Z.land result mask) then report result s else s).
Definition max_my_decimal (to precision frac : Z) (s : store) : option store :=
  if (precision <=? DECIMAL_MAX_PRECISION) && (frac <=? DECIMAL_MAX_SCALE)
  then put_value to (max_decimal precision frac) s else None.
Definition max_internal_decimal (to : Z) (s : store) : option store := max_my_decimal to DECIMAL_MAX_PRECISION 0 s.
Definition check_result_and_overflow (mask result val : Z) (s : store) : option (Z * store) :=
  let '(r, s) := check_result mask result s in
  if nz (Z.land r E_DEC_OVERFLOW) then
    b ← sign val s;
    s ← fix_buffer_pointer val s;
    s ← max_internal_decimal val s;
    s ← set_sign val b s;
    Some (result, s)
  else Some (result, s).

Definition round_to (p to scale : Z) (mode : decimal_round_mode) (mask : Z) (s : store) : option (Z * store) :=
  d ← view s p; let r := decimal_round (p =? to) d scale mode in
  s ← put_result to r s; Some (check_result mask r.1 s).
(** A call of the library with the destination [res], its code checked for overflow too. *)
Definition stored_checked (mask res : Z) (r : lres) (s : store) : option (Z * store) :=
  s ← put_result res r s; check_result_and_overflow mask r.1 res s.
Definition stored (mask res : Z) (r : lres) (s : store) : option (Z * store) :=
  s ← put_result res r s; Some (check_result mask r.1 s).
Definition binary (f : bool * bool -> decimal -> decimal -> lres) (mask res a b : Z) (s : store) : option (Z * store) :=
  va ← view s a; vb ← view s b; stored_checked mask res (f (res =? a, res =? b) va vb) s.
Definition my_decimal_add := binary decimal_add.
Definition my_decimal_sub := binary decimal_sub.
Definition my_decimal_mul := binary decimal_mul.
Definition my_decimal_mod := binary decimal_mod.
Definition my_decimal_div (mask res a b div_scale_inc : Z) : store -> option (Z * store) :=
  binary (fun o x y => decimal_div o x y div_scale_inc) mask res a b.
Definition my_decimal_cmp (a b : Z) (s : store) : option Z := cmp a b s.
Definition my_decimal_intg (a : Z) (s : store) : option Z := d ← view s a; Some (decimal_intg d).
Definition str2my_decimal (mask : Z) (x : str) (d : Z) : store -> option (Z * store) := stored_checked mask d (string2decimal x).
Definition double2my_decimal (mask : Z) (x : dbl) (d : Z) : store -> option (Z * store) := stored_checked mask d (double2decimal x).
Definition int2my_decimal (mask i : Z) (unsigned_flag : bool) (d : Z) : store -> option (Z * store) :=
  stored mask d (if unsigned_flag then ulonglong2decimal (u64 i) else longlong2decimal i).
Definition binary2my_decimal (mask : Z) (bin : list Z) (d prec scale : Z) : store -> option (Z * store) :=
  stored mask d (bin2decimal bin prec scale).
Definition my_decimal2decimal (from to : Z) (s : store) : option store := assign to from s.
Definition my_decimal_set_zero (d : Z) (s : store) : option (Z * store) := s ← set_zero d s; Some (0, s).
Definition my_decimal_is_zero (d : Z) (s : store) : option bool := v ← view s d; Some (decimal_is_zero v).
Definition my_decimal_neg (arg : Z) (s : store) : option store :=
  v ← view s arg; if decimal_is_zero v then set_sign arg false s else set_sign arg (negb (d_sign v)) s.
Definition decimal_string_size (d : decimal) : Z :=
  (if nz (d_intg d) then d_intg d else 1) + d_frac d + (if d_frac d >? 0 then 1 else 0) + 2.
Definition my_decimal_string_length (d : Z) (s : store) : option Z := v ← view s d; Some (u32 (decimal_string_size v)).
Definition my_decimal_max_length (d : Z) (s : store) : option Z := v ← view s d; Some (u32 (decimal_string_size v - 1)).
Definition my_decimal_size (precision scale : Z) : Z := u32 (decimal_size precision scale + 1).
Definition my_decimal_get_binary_size (precision scale : Z) : Z := decimal_bin_size precision scale.

(** A [decimal_t] elsewhere, with [len] digits of its own: [memcpy] reads [to->len] of them. *)
Definition decimal2my_decimal (from : decimal) (from_len to : Z) (s : store) : option store :=
  o ← objs s !! to; d ← view s to;
  if len o >=? from_len then
    if len o <=? Z.of_nat (length (d_digits from)) then
      put_value to (Dec (d_intg from) (d_frac from) (d_sign from)
                      (take (Z.to_nat (len o)) (d_digits from) ++ drop (Z.to_nat (len o)) (d_digits d))) s
    else None
  else None.

(** *** [Dec_ptr]: a pointer that may be null, and a buffer of its own *)

Definition is_null (m : option Z) : bool := bool_decide (m = None).
Definition ptr_or (m : option Z) (def : Z) : Z := default def m.
Definition to_decimal (m : option Z) (to : Z) (s : store) : option (option Z * store) :=
  match m with None => Some (None, s) | Some p => s ← assign to p s; Some (Some to, s) end.
Definition ptr_to_double (m : option Z) (s : store) : option dbl :=
  match m with Some p => to_double p s | None => Some double_zero end.
Definition ptr_to_longlong (m : option Z) (unsigned_flag : bool) (s : store) : option Z :=
  match m with Some p => d ← view s p; Some (to_longlong d unsigned_flag) | None => Some 0 end.
Definition to_xlonglong_null (m : option Z) (s : store) : option (option Z) :=
  match m with Some p => v ← to_xlonglong p s; Some (Some v) | None => Some None end.
Definition ptr_to_bool (m : option Z) (s : store) : option bool :=
  match m with Some p => to_bool p s | None => Some false end.
Definition ptr_cmp (m other : option Z) (s : store) : option Z := a ← m; b ← other; cmp a b s.

Record Dec_ptr_and_buffer := MkPtr { m_ptr : option Z; m_buffer : Z }.
Definition ptr_round_to (m : Dec_ptr_and_buffer) (to scale : Z) (mode : decimal_round_mode) (s : store) : option (Z * store) :=
  p ← m_ptr m; round_to p to scale mode E_DEC_FATAL_ERROR s.
Definition round_self (m : Dec_ptr_and_buffer) (scale : Z) (mode : decimal_round_mode) (s : store) : option (Z * store) :=
  ptr_round_to m (m_buffer m) (u16 scale) mode s.
Definition round_self_if_needed (m : Dec_ptr_and_buffer) (scale : Z) (mode : decimal_round_mode) (s : store) :
    option (Z * (Dec_ptr_and_buffer * store)) :=
  p ← m_ptr m; o ← objs s !! p;
  if scale >=? frac o then Some (E_DEC_OK, (m, s))
  else
    r ← round_to p (m_buffer m) scale mode E_DEC_FATAL_ERROR s;
    Some (r.1, (MkPtr (Some (m_buffer m)) (m_buffer m), r.2)).

(** [VDec2_lazy]: the second item is evaluated, with its effects on the state, after a first that is not null. *)
Definition vdec2_lazy {A} (a b : A -> option Z * A) (w : A) : (option Z * option Z) * A :=
  let r := a w in
  if is_null r.1 then ((None, None), r.2) else let r' := b r.2 in ((r.1, r'.1), r'.2).
Definition has_null (v : option Z * option Z) : bool := is_null v.1 || is_null v.2.
End ops.

(** ** Precision and length are inverse *)

Module Precision.

Lemma length_of_precision p s u :
  0 < p < 2 ^ 16 - 2 ->
  exists n, my_decimal_precision_to_length_no_truncation p s u = Some n /\
            my_decimal_length_to_precision n s u = Some p.
Proof.
  intros Hp. unfold my_decimal_precision_to_length_no_truncation, my_decimal_length_to_precision, nz.
  destruct (Z.eqb_spec p 0); [lia|]. cbn [negb orb]. eexists. split; [done|]. rewrite orb_false_r.
  rewrite (wrapU_small 16) by (unfold in_u; destruct (s >? 0), u; lia).
  assert (E : (p + (if s >? 0 then 1 else 0) + (if u then 0 else 1) =? 0) = false) by (apply Z.eqb_neq; destruct (s >? 0), u; lia).
  rewrite E. cbn [negb orb]. rewrite orb_false_r. f_equal. rewrite wrapU_small; [lia|]. unfold in_u. lia.
Qed.
End Precision.

(** ** Values and their owners *)

Module Values.
Section values.
Context `{DecimalLib}.
Implicit Types (s : store) (p : Z).

(** Every object shows its own digits. *)
Definition owned s : Prop := forall p o, objs s !! p = Some o -> buf o = p.
Definition same_but (p : Z) s s' : Prop := forall q, q <> p -> view s' q = view s q.

Lemma view_owned s p o : owned s -> objs s !! p = Some o -> view s p = Some (Dec (intg o) (frac o) (sgn o) (buffer o)).
Proof. intros O E. unfold view. rewrite E. simpl. rewrite (O p o E), E. done. Qed.

Lemma view_Some s p d : owned s -> view s p = Some d ->
  exists o, objs s !! p = Some o /\ d = Dec (intg o) (frac o) (sgn o) (buffer o).
Proof.
  intros O E. unfold view in E. destruct (objs s !! p) as [o|] eqn:Eo; [|done]. exists o. split; [done|].
  simpl in E. rewrite (O p o Eo), Eo in E. simpl in E. by injection E as <-.
Qed.

Lemma owned_set p o s : owned s -> buf o = p -> owned (set_obj p o s).
Proof.
  intros O E q o'. simpl. destruct (decide (q = p)) as [->|Hne].
  - rewrite lookup_insert_eq. by intros [= <-].
  - rewrite lookup_insert_ne by done. apply O.
Qed.

Lemma view_set_other p o s q : owned s -> buf o = p -> q <> p -> view (set_obj p o s) q = view s q.
Proof.
  intros O E Hne. unfold view. simpl. rewrite lookup_insert_ne by done.
  destruct (objs s !! q) as [x|] eqn:Ex; [|done]. simpl. rewrite (O q x Ex). by rewrite lookup_insert_ne.
Qed.

Lemma view_set_same p o s : buf o = p -> view (set_obj p o s) p = Some (Dec (intg o) (frac o) (sgn o) (buffer o)).
Proof. intros E. unfold view. simpl. rewrite lookup_insert_eq. simpl. by rewrite E, lookup_insert_eq. Qed.

(** An operation that leaves [d] at [p] and everything else alone. *)
Definition leaves (p : Z) (d : decimal) s s' : Prop :=
  owned s' /\ view s' p = Some d /\ same_but p s s' /\ (forall q, is_Some (objs s !! q) -> is_Some (objs s' !! q)).

Lemma set_leaves p o s d :
  owned s -> buf o = p -> d = Dec (intg o) (frac o) (sgn o) (buffer o) -> leaves p d s (set_obj p o s).
Proof.
  intros O E ->. split; [by apply owned_set|]. split; [by apply view_set_same|]. split; [intros q Hq; by apply view_set_other|].
  intros q Hq. simpl. destruct (decide (q = p)) as [->|]; [rewrite lookup_insert_eq; by eexists|by rewrite lookup_insert_ne].
Qed.

Lemma put_value_leaves p d s :
  owned s -> is_Some (objs s !! p) ->
  exists s', put_value p d s = Some s' /\ reported s' = reported s /\ leaves p d s s'.
Proof.
  intros O [o Eo]. unfold put_value. rewrite Eo. simpl. rewrite (O p o Eo), lookup_insert_eq. simpl.
  eexists. split; [done|]. split; [done|]. unfold set_obj. simpl. rewrite insert_insert_eq.
  destruct d as [i f b ds]. apply (set_leaves p (MkDecimal i f (len o) b p ds) s); done.
Qed.

Lemma leaves_trans p d d' s s' s2 : leaves p d s s' -> leaves p d' s' s2 -> leaves p d' s s2.
Proof.
  intros (O1 & V1 & F1 & D1) (O2 & V2 & F2 & D2). split; [done|]. split; [done|]. split.
  - intros q Hq. by rewrite F2, F1.
  - intros q Hq. by apply D2, D1.
Qed.

Lemma leaves_report p d s s' r : leaves p d s s' -> leaves p d s (report r s').
Proof. done. Qed.

(** The greatest decimal of 65 digits with the sign [b]. *)
Definition greatest (b : bool) : decimal :=
  let m := max_decimal DECIMAL_MAX_PRECISION 0 in Dec (d_intg m) (d_frac m) b (d_digits m).

Lemma overflow_leaves mask r p d s s1 :
  leaves p d s s1 -> is_Some (objs s !! p) ->
  exists s2, check_result_and_overflow mask r p s1 = Some (r, s2) /\
  leaves p (if nz (Z.land r E_DEC_OVERFLOW) then greatest (d_sign d) else d) s s2 /\
  reported s2 = (if nz (Z.land r mask) then r :: reported s1 else reported s1).
Proof.
  intros L Hp. unfold check_result_and_overflow, check_result.
  set (s1' := if nz (Z.land r mask) then report r s1 else s1).
  assert (L' : leaves p d s s1') by (unfold s1'; destruct (nz (Z.land r mask)); [by apply leaves_report|done]).
  assert (R : reported s1' = if nz (Z.land r mask) then r :: reported s1 else reported s1) by (unfold s1'; by destruct (nz (Z.land r mask))).
  destruct (nz (Z.land r E_DEC_OVERFLOW)); [|by exists s1'].
  pose proof L' as (O & V & _ & D). destruct (D p Hp) as [o Eo]. destruct (view_Some _ _ _ O V) as (o' & Eo' & Ed).
  rewrite Eo in Eo'. injection Eo' as <-. unfold sign. rewrite Eo. simpl. unfold fix_buffer_pointer. rewrite Eo. simpl.
  set (s2 := set_obj p _ s1'). assert (L2 : leaves p d s s2).
  { eapply leaves_trans; [exact L'|]. by apply set_leaves. }
  unfold max_internal_decimal, max_my_decimal. replace ((_ <=? _) && _) with true by done.
  destruct (put_value_leaves p (max_decimal DECIMAL_MAX_PRECISION 0) s2) as (s3 & -> & R3 & L3); [apply L2|by apply L2|].
  simpl. unfold set_sign. pose proof L3 as (O3 & V3 & _ & _). destruct (view_Some _ _ _ O3 V3) as (o3 & E3 & Em).
  rewrite E3. simpl. eexists. split; [done|]. split.
  - eapply leaves_trans; [exact L2|]. eapply leaves_trans; [exact L3|]. apply set_leaves; [done|exact (O3 p o3 E3)|].
    unfold greatest. rewrite Em, Ed. done.
  - simpl. by rewrite R3.
Qed.

Lemma put_result_leaves p r s :
  owned s -> is_Some (objs s !! p) ->
  exists v s', put_result p r s = Some s' /\ reported s' = reported s /\ leaves p v s s' /\
  (forall w, r.2 = Some w -> v = w).
Proof.
  intros O Hp. unfold put_result. destruct r.2 as [v|].
  - destruct (put_value_leaves p v s O Hp) as (s' & E & R & L). exists v, s'. split; [done|].
    split; [done|]. split; [done|]. by intros w [= ->].
  - destruct Hp as [o Eo]. rewrite (view_owned s p o O Eo). simpl.
    destruct (put_value_leaves p (no_result r.1 (Dec (intg o) (frac o) (sgn o) (buffer o))) s O) as (s' & E & R & L);
      [by eexists|]. by do 2 eexists.
Qed.

(** A call that returned the code of the library: it reported the code exactly when it
    matches the mask and kept every other number; when the library generated a result,
    the destination shows it, or after a [checked] overflow the greatest number of its
    sign.  After a code above 2 nothing is said of the destination. *)
Definition completes (checked : bool) (mask res : Z) (r : lres) s (call : option (Z * store)) : Prop :=
  exists s', call = Some (r.1, s') /\ owned s' /\ same_but res s s' /\
    reported s' = (if nz (Z.land r.1 mask) then r.1 :: reported s else reported s) /\
    (r.1 <= 2 -> exists v, r.2 = Some v /\
       view s' res = Some (if checked && (r.1 =? E_DEC_OVERFLOW) then greatest (d_sign v) else v)).

Lemma land_overflow r : 0 <= r <= 2 -> nz (Z.land r E_DEC_OVERFLOW) = (r =? E_DEC_OVERFLOW).
Proof. intros Hr. assert (r = 0 \/ r = 1 \/ r = 2) as [->|[->| ->]] by lia; reflexivity. Qed.

Lemma stored_checked_completes mask p r s :
  owned s -> is_Some (objs s !! p) -> by_convention r -> completes true mask p r s (stored_checked mask p r s).
Proof.
  intros O Hp [H0 Hr]. unfold stored_checked. destruct (put_result_leaves p r s O Hp) as (v & s1 & -> & R & L & Hv). simpl.
  destruct (overflow_leaves mask r.1 p v s s1 L Hp) as (s2 & E & (O2 & V2 & F2 & _) & R2).
  exists s2. split; [done|]. split; [done|]. split; [done|]. split; [by rewrite R2, R|].
  intros H2. destruct (proj1 Hr H2) as [w Ew]. exists w. split; [done|].
  rewrite V2, land_overflow, (Hv w Ew) by lia. done.
Qed.

Lemma stored_completes mask p r s :
  owned s -> is_Some (objs s !! p) -> by_convention r -> completes false mask p r s (stored mask p r s).
Proof.
  intros O Hp [H0 Hr]. unfold stored, check_result. destruct (put_result_leaves p r s O Hp) as (v & s1 & -> & R & (O1 & V1 & F1 & _) & Hv).
  simpl. eexists. split; [done|]. split; [by destruct (nz _)|]. split; [by destruct (nz _)|].
  split; [destruct (nz (Z.land r.1 mask)); simpl; by rewrite R|].
  intros H2. destruct (proj1 Hr H2) as [w Ew]. exists w. split; [done|]. simpl.
  rewrite <- (Hv w Ew), <- V1. by destruct (nz _).
Qed.

(** *** Copies *)

Lemma fix_leaves p o s :
  owned s -> fix_buffer_pointer p (set_obj p o s) =
    Some (set_obj p (MkDecimal (intg o) (frac o) (len o) (sgn o) p (buffer o)) (set_obj p o s)).
Proof. intros O. unfold fix_buffer_pointer. simpl. by rewrite lookup_insert_eq. Qed.

Lemma assign_leaves p rhs d s :
  owned s -> is_Some (objs s !! p) -> view s rhs = Some d ->
  exists s', assign p rhs s = Some s' /\ leaves p d s s' /\ reported s' = reported s.
Proof.
  intros O Hp V. unfold assign. destruct (Z.eqb_spec p rhs) as [->|Hne]; [by exists s|].
  destruct (view_Some _ _ _ O V) as (o & Eo & ->). destruct Hp as [x Ex]. rewrite Eo, Ex. simpl.
  rewrite fix_leaves by done. eexists. split; [done|]. split; [|done].
  unfold set_obj. simpl. rewrite insert_insert_eq. by apply (set_leaves p (MkDecimal (intg o) (frac o) (len o) (sgn o) p (buffer o)) s).
Qed.

Lemma copy_leaves rhs p d s :
  owned s -> view s rhs = Some d -> exists s', copy rhs p s = Some s' /\ leaves p d s s' /\ reported s' = reported s.
Proof.
  intros O V. destruct (view_Some _ _ _ O V) as (o & Eo & ->). unfold copy. rewrite Eo. simpl. unfold init. simpl.
  rewrite lookup_insert_eq. simpl. eexists. split; [done|]. split; [|done].
  unfold set_obj. simpl. rewrite insert_insert_eq.
  by apply (set_leaves p (MkDecimal (intg o) (frac o) DECIMAL_BUFF_LENGTH (sgn o) p (buffer o)) s).
Qed.

(** [swap] exchanges the values and each object keeps its own digits. *)
Lemma owned_delete p s : owned s -> owned (MkStore (delete p (objs s)) (reported s)).
Proof.
  intros O q o. simpl. destruct (decide (q = p)) as [->|Hne]; [by rewrite lookup_delete_eq|].
  rewrite lookup_delete_ne by done. apply O.
Qed.

Lemma view_delete p s q : owned s -> q <> p -> view (MkStore (delete p (objs s)) (reported s)) q = view s q.
Proof.
  intros O Hne. unfold view. simpl. rewrite lookup_delete_ne by done. destruct (objs s !! q) as [x|] eqn:Ex; [|done].
  simpl. rewrite (O q x Ex). by rewrite lookup_delete_ne.
Qed.

Lemma swap_exchanges_values p rhs tmp garbage s d e :
  owned s -> objs s !! tmp = None -> view s p = Some d -> view s rhs = Some e -> p <> rhs ->
  exists s', swap p rhs tmp garbage s = Some s' /\ owned s' /\ view s' p = Some e /\ view s' rhs = Some d /\
  (forall q, q <> p -> q <> rhs -> q <> tmp -> view s' q = view s q).
Proof.
  intros O Ht Vp Vr Hne. destruct (view_Some _ _ _ O Vp) as (op & Ep & _). destruct (view_Some _ _ _ O Vr) as (or_ & Er & _).
  assert (p <> tmp /\ rhs <> tmp) as [Hpt Hrt] by (split; congruence).
  unfold swap, init. simpl. rewrite lookup_insert_eq. simpl.
  set (s0 := set_obj tmp _ (set_obj tmp garbage s)).
  assert (L0 : leaves tmp (Dec (intg garbage) (frac garbage) (sgn garbage) (buffer garbage)) s s0).
  { unfold s0, set_obj. simpl. rewrite insert_insert_eq.
    by apply (set_leaves tmp (MkDecimal (intg garbage) (frac garbage) DECIMAL_BUFF_LENGTH (sgn garbage) tmp (buffer garbage)) s). }
  destruct L0 as (O0 & V0 & F0 & D0).
  destruct (assign_leaves tmp p d s0) as (s1 & -> & (O1 & V1 & F1 & D1) & _); [done| |by rewrite F0|].
  { destruct (view_Some _ _ _ O0 V0) as (x & Ex & _). by exists x. }
  simpl. destruct (assign_leaves p rhs e s1) as (s2 & -> & (O2 & V2 & F2 & D2) & _); [done| |by rewrite F1, F0 by done|].
  { apply D1, D0. by exists op. }
  simpl. destruct (assign_leaves rhs tmp d s2) as (s3 & -> & (O3 & V3 & F3 & D3) & _); [done| |by rewrite F2 by done|].
  { apply D2, D1, D0. by exists or_. }
  simpl. eexists. split; [done|]. split; [by apply owned_delete|].
  rewrite !view_delete by done. split; [by rewrite F3|]. split; [done|].
  intros q H1 H2 H3. rewrite view_delete by done. by rewrite F3, F2, F1, F0.
Qed.

(** A decimal never becomes minus zero by negation. *)
Lemma neg_value s p v : owned s -> view s p = Some v ->
  exists s', my_decimal_neg p s = Some s' /\
  leaves p (Dec (d_intg v) (d_frac v) (negb (decimal_is_zero v) && negb (d_sign v)) (d_digits v)) s s'.
Proof.
  intros O V. unfold my_decimal_neg. rewrite V. simpl. destruct (view_Some _ _ _ O V) as (o & Eo & Ev).
  destruct (decimal_is_zero v); unfold set_sign; rewrite Eo; simpl; eexists; (split; [done|]);
    apply set_leaves; try done; try apply (O p o Eo); by rewrite Ev.
Qed.

(** *** Rounding through a pointer *)

Lemma round_to_leaves s p to scale mode mask d r v :
  owned s -> is_Some (objs s !! to) -> view s p = Some d -> decimal_round (p =? to) d scale mode = (r, Some v) ->
  exists s', round_to p to scale mode mask s = Some (r, s') /\ leaves to v s s'.
Proof.
  intros O Ht V E. unfold round_to. rewrite V. simpl. rewrite E. unfold put_result. simpl.
  destruct (put_value_leaves to v s O Ht) as (s' & -> & _ & L). simpl. unfold check_result.
  eexists. split; [done|]. by destruct (nz (Z.land r mask)).
Qed.

(** [round_self] stores the rounded value in the buffer, but the pointer stays: the value
    seen through it changes only when it already was the buffer. *)
Lemma round_self_keeps_pointer s p b scale mode d r v :
  owned s -> is_Some (objs s !! b) -> view s p = Some d ->
  decimal_round (p =? b) d (u16 scale) mode = (r, Some v) ->
  exists s', round_self (MkPtr (Some p) b) scale mode s = Some (r, s') /\
  view s' p = Some (if p =? b then v else d).
Proof.
  intros O Hb V E. unfold round_self, ptr_round_to. simpl.
  destruct (round_to_leaves s p b (u16 scale) mode E_DEC_FATAL_ERROR d r v O Hb V E) as (s' & -> & L).
  eexists. split; [done|]. destruct L as (_ & V' & F & _). destruct (Z.eqb_spec p b) as [->|Hne]; [done|]. by rewrite F.
Qed.

(** Rounding through [Dec_ptr_and_buffer] and copying keep values apart. In a store
    where every decimal shows its own digits, [round_self_if_needed] leaves the pointer
    alone when the value has no more decimals than asked for; otherwise, when the library
    generates a rounded value, that is stored in the helper's buffer and the pointer goes
    there; the value it pointed to and every other one stay (unless they are that
    buffer).  An assignment or a copy gives an object of the same value with digits of
    its own. *)
Lemma round_and_copy_keep_values (s : store) (m : Dec_ptr_and_buffer) (p scale : Z) (mode : decimal_round_mode) (d : decimal) :
  owned s -> m_ptr m = Some p -> view s p = Some d -> is_Some (objs s !! m_buffer m) ->
  (if scale >=? d_frac d then round_self_if_needed m scale mode s = Some (E_DEC_OK, (m, s))
   else forall r v, decimal_round (p =? m_buffer m) d scale mode = (r, Some v) ->
     exists m' s', round_self_if_needed m scale mode s = Some (r, (m', s')) /\ owned s' /\
       m_ptr m' = Some (m_buffer m) /\ view s' (m_buffer m) = Some v /\
       (forall q, q <> m_buffer m -> view s' q = view s q)) /\
  (forall q, is_Some (objs s !! q) -> exists s', assign q p s = Some s' /\ leaves q d s s') /\
  (forall q, objs s !! q = None -> exists s', copy p q s = Some s' /\ leaves q d s s').
Proof.
  intros O Hm V Hb. split; [|split].
  - unfold round_self_if_needed. rewrite Hm. simpl. destruct (view_Some _ _ _ O V) as (o & Eo & Ed). rewrite Eo. simpl.
    replace (frac o) with (d_frac d) by (by rewrite Ed). destruct (scale >=? d_frac d); [done|]. intros r v E.
    destruct (round_to_leaves s p (m_buffer m) scale mode E_DEC_FATAL_ERROR d r v O Hb V E) as (s' & -> & (O' & V' & F' & _)). simpl.
    do 2 eexists. split; [done|]. done.
  - intros q Hq. destruct (assign_leaves q p d s O Hq V) as (s' & E & L & _). by exists s'.
  - intros q _. destruct (copy_leaves p q d s O V) as (s' & E & L & _). by exists s'.
Qed.

(** A [decimal_t] with fewer digits than the object: the assertion holds and the copy
    reads beyond the digits of the source. *)
Lemma decimal2my_decimal_reads_beyond s to o from :
  owned s -> objs s !! to = Some o -> Z.of_nat (length (d_digits from)) < len o ->
  len o >=? Z.of_nat (length (d_digits from)) = true /\
  decimal2my_decimal from (Z.of_nat (length (d_digits from))) to s = None.
Proof.
  intros O Eo Hl. assert (E : len o >=? Z.of_nat (length (d_digits from)) = true) by lia. split; [done|].
  unfold decimal2my_decimal. rewrite Eo. simpl. rewrite (view_owned s to o O Eo). simpl. rewrite E.
  destruct (Z.leb_spec (len o) (Z.of_nat (length (d_digits from)))); [lia|done].
Qed.

(** *** Results of the library *)

Definition arithmetic (inc : Z) :
    list ((Z -> Z -> Z -> Z -> store -> option (Z * store)) * (bool * bool -> decimal -> decimal -> lres)) :=
  [(my_decimal_add, decimal_add); (my_decimal_sub, decimal_sub); (my_decimal_mul, decimal_mul); (my_decimal_mod, decimal_mod);
   (fun m r x y => my_decimal_div m r x y inc, fun o x y => decimal_div o x y inc)].

Lemma arithmetic_law `{!DecimalLaws} inc op lib o x y : In (op, lib) (arithmetic inc) -> by_convention (lib o x y).
Proof.
  cbn [In arithmetic]. intros [E|[E|[E|[E|[E|[]]]]]]; injection E as <- <-;
    [apply decimal_add_law|apply decimal_sub_law|apply decimal_mul_law|apply decimal_mod_law|apply decimal_div_law].
Qed.

Lemma binary_completes f mask res a b s va vb :
  owned s -> is_Some (objs s !! res) -> view s a = Some va -> view s b = Some vb -> res <> a -> res <> b ->
  by_convention (f (false, false) va vb) ->
  completes true mask res (f (false, false) va vb) s (binary f mask res a b s).
Proof.
  intros O Hr Ha Hb N1 N2 C. unfold binary. rewrite Ha, Hb. simpl.
  replace (res =? a) with false by (symmetry; by apply Z.eqb_neq).
  replace (res =? b) with false by (symmetry; by apply Z.eqb_neq). by apply stored_checked_completes.
Qed.

(** C14 : the decimal wrappers deliver what the library answered.  The library keeps
    its convention (a code of at most 2 comes with a result, a greater one without),
    every decimal shows its own digits and the destination is no operand.  Then
    addition, subtraction, multiplication, remainder, division, rounding and the
    conversions from text, floating point, integers and the binary form return the
    code of the library, report it exactly when it matches the mask, keep every other
    number and leave a store of the same kind.  When the code comes with a result the
    destination shows it; arithmetic and the conversions from text and floating point
    replace it, after the overflow code, by the greatest number of 65 digits with the
    sign of the result.  After a code above 2 nothing is said of the destination. *)
Theorem decimal_results `{!DecimalLaws} (mask res a b inc : Z) (s : store) (va vb : decimal) :
  owned s -> is_Some (objs s !! res) -> view s a = Some va -> view s b = Some vb -> res <> a -> res <> b ->
  (forall op lib, In (op, lib) (arithmetic inc) ->
     completes true mask res (lib (false, false) va vb) s (op mask res a b s)) /\
  (forall x, completes true mask res (string2decimal x) s (str2my_decimal mask x res s)) /\
  (forall x, completes true mask res (double2decimal x) s (double2my_decimal mask x res s)) /\
  (forall i, completes false mask res (longlong2decimal i) s (int2my_decimal mask i false res s) /\
             completes false mask res (ulonglong2decimal (u64 i)) s (int2my_decimal mask i true res s)) /\
  (forall bin prec scale, completes false mask res (bin2decimal bin prec scale) s (binary2my_decimal mask bin res prec scale s)) /\
  (forall scale mode, completes false mask res (decimal_round false va scale mode) s (round_to a res scale mode mask s)).
Proof.
  intros O Hr Ha Hb N1 N2. split; [|split; [|split; [|split; [|split]]]].
  - intros op lib Hin. pose proof (arithmetic_law inc op lib (false, false) va vb Hin) as C. cbn [In arithmetic] in Hin.
    destruct Hin as [E|[E|[E|[E|[E|[]]]]]]; injection E as <- <-; [by apply binary_completes..|].
    apply (binary_completes (fun o x y => decimal_div o x y inc)); done.
  - intros x. apply stored_checked_completes; [done..|apply string2decimal_law].
  - intros x. apply stored_checked_completes; [done..|apply double2decimal_law].
  - intros i. split; apply stored_completes; try done; [apply longlong2decimal_law|apply ulonglong2decimal_law].
  - intros bin prec scale. apply stored_completes; [done..|apply bin2decimal_law].
  - intros scale mode. unfold round_to. rewrite Ha. simpl.
    replace (a =? res) with false by (symmetry; apply Z.eqb_neq; congruence).
    apply stored_completes; [done..|apply decimal_round_law].
Qed.
End values.
End Values.

(** ** An example: a library of numbers of one digit group, which overflow at 100 *)

Module Example.
Import Values.

Definition num (d : decimal) : Z := (if d_sign d then -1 else 1) * hd 0 (d_digits d).
Definition E_DEC_DIV_ZERO : Z := 4.
Definition of_num (n : Z) : lres :=
  (if 100 <=? Z.abs n then E_DEC_OVERFLOW else E_DEC_OK, Some (Dec 2 0 (n <? 0) [Z.abs n mod 100])).
Definition of_quot (f : Z -> Z -> Z) (x y : decimal) : lres :=
  if num y =? 0 then (E_DEC_DIV_ZERO, None) else of_num (f (num x) (num y)).
#[export] Instance toy : DecimalLib := {
  str := Z; dbl := Z;
  decimal_add _ x y := of_num (num x + num y);
  decimal_sub _ x y := of_num (num x - num y);
  decimal_mul _ x y := of_num (num x * num y);
  decimal_mod _ x y := of_quot Z.rem x y;
  decimal_div _ x y _ := of_quot Z.quot x y;
  decimal_cmp x y := num x - num y;
  decimal_is_zero x := num x =? 0;
  decimal_intg _ := 2;
  decimal_round _ x scale _ := (E_DEC_OK, Some (Dec (d_intg x) scale (d_sign x) (d_digits x)));
  max_decimal _ _ := Dec 2 0 false [99];
  string2decimal := of_num; double2decimal := of_num; longlong2decimal := of_num; ulonglong2decimal := of_num;
  bin2decimal l _ _ := of_num (hd 0 l);
  no_result _ old := old;
  decimal2double := num; double_zero := 0; to_longlong x _ := num x;
  decimal_size _ _ := 1; decimal_bin_size _ _ := 1;
}.

Lemma of_num_law n : by_convention (of_num n).
Proof. unfold by_convention, of_num. cbn [fst snd]. destruct (100 <=? Z.abs n); (split; [done|]); by split; [eexists|]. Qed.
Lemma of_quot_law f x y : by_convention (of_quot f x y).
Proof. unfold of_quot. destruct (num y =? 0); [|apply of_num_law]. split; [done|]. simpl. unfold E_DEC_DIV_ZERO. split; [lia|by intros []]. Qed.
#[export] Instance toy_laws : DecimalLaws.
Proof.
  split; intros; try apply of_num_law; try apply of_quot_law.
  split; [done|]. by split; [eexists|].
Qed.

Definition ex_store : store :=
  MkStore (<[1 := MkDecimal 2 3 9 true 1 [60]]> (<[2 := MkDecimal 2 0 9 true 2 [50]]>
    (<[3 := MkDecimal 1 0 9 false 3 [0]]> ∅))) [].

Lemma ex_owned : owned ex_store.
Proof.
  intros p o. unfold ex_store. simpl. destruct (decide (p = 1)) as [->|H1]; [rewrite lookup_insert_eq; by intros [= <-]|].
  rewrite lookup_insert_ne by done. destruct (decide (p = 2)) as [->|H2]; [rewrite lookup_insert_eq; by intros [= <-]|].
  rewrite lookup_insert_ne by done. destruct (decide (p = 3)) as [->|H3]; [rewrite lookup_insert_eq; by intros [= <-]|].
  by rewrite lookup_insert_ne, lookup_empty by done.
Qed.

(** -60 + -50 overflows to -99. *)
Lemma decimal_results_witness :
  exists s', my_decimal_add E_DEC_FATAL_ERROR 3 1 2 ex_store = Some (E_DEC_OVERFLOW, s') /\
  view s' 3 = Some (Dec 2 0 true [99]) /\ reported s' = [E_DEC_OVERFLOW].
Proof.
  pose proof (decimal_results E_DEC_FATAL_ERROR 3 1 2 0 ex_store (Dec 2 3 true [60]) (Dec 2 0 true [50])
    ex_owned ltac:(by eexists) eq_refl eq_refl ltac:(done) ltac:(done)) as [H _].
  destruct (H my_decimal_add decimal_add (or_introl eq_refl)) as (s' & E & _ & _ & R & V).
  destruct (V ltac:(done)) as (v & Ev & V'). injection Ev as <-. exists s'. split; [exact E|]. split; [exact V'|exact R].
Defined.

End Example.
