(* ===== verification/LexTypes.v ===== *)
(** Types as the parser collects them: the character set and collation clauses of
    [mariadb/include/mysql/server/private/lex_charset.h] and the lengths, data types,
    block counters and loop bounds of [private/structs.h].

    A character set or collation is an address ([Z], where 0 is the null pointer).
    Looking up collations, merging clauses and raising errors is code outside the
    repository: the class [CharsetLib]. [None] is a failed assertion. *)

From S2P Require Import Prelude.

(** ** Clauses *)

Module Clause.

Definition MY_CS_PRIMARY : Z := 32.

(** [Lex_extended_collation_st::Type], and the type of the attributes of a column. *)
Inductive collation_type := TYPE_EXACT | TYPE_CONTEXTUALLY_TYPED.
Inductive attrs_type :=
  TYPE_EMPTY | TYPE_CHARACTER_SET | TYPE_COLLATE_EXACT | TYPE_CHARACTER_SET_COLLATE_EXACT | TYPE_COLLATE_CONTEXTUALLY_TYPED.
#[export] Instance attrs_type_eq : EqDecision attrs_type.
Proof. solve_decision. Defined.

Record Lex_extended_collation_st := MkCollation { cl_ci : Z; cl_type : collation_type }.
Record Lex_exact_charset_opt_extended_collate := MkOptCollate { oc_ci : Z; with_collate : bool }.
Record attrs := MkAttrs { m_ci : Z; m_type : attrs_type }.

(** A clause is merged into what is there: [None] stands for the result [true], an error. *)
Class CharsetLib := {
  state_of : Z -> Z;
  my_collation_contextually_typed_default : Z;
  my_collation_contextually_typed_binary : Z;
  my_charset_utf8mb3_bin : Z;
  my_charset_utf8mb3_general_ci : Z;
  find_default_collation : Lex_exact_charset_opt_extended_collate -> option Z;
  find_bin_collation : Lex_exact_charset_opt_extended_collate -> option Z;
  opt_merge_exact : Z -> Lex_exact_charset_opt_extended_collate -> option Lex_exact_charset_opt_extended_collate;
  opt_merge_context : Z -> Lex_exact_charset_opt_extended_collate -> option Lex_exact_charset_opt_extended_collate;
  opt_merge_exact_override : Z -> Lex_exact_charset_opt_extended_collate -> option Lex_exact_charset_opt_extended_collate;
  opt_merge_context_override : Z -> Lex_exact_charset_opt_extended_collate -> option Lex_exact_charset_opt_extended_collate;
  merge_exact_collation : Z -> attrs -> option attrs;
  merge_context_collation : Z -> attrs -> option attrs;
  resolved_to_character_set : attrs -> Z -> option Z;
}.

Section ops.
Context `{CharsetLib}.

Definition is_primary (ci : Z) : bool := nz (Z.land (state_of ci) MY_CS_PRIMARY).
(** The constructors with their assertions. *)
Definition Lex_exact_charset (ci : Z) : option Z := if nz ci && is_primary ci then Some ci else None.
Definition Lex_exact_collation (ci : Z) : option Z := if nz ci then Some ci else None.
Definition Lex_context_collation (ci : Z) : option Z := if nz ci then Some ci else None.
Definition is_contextually_typed_collate_default (ci : Z) : bool := ci =? my_collation_contextually_typed_default.
Definition is_contextually_typed_binary_style (ci : Z) : bool := ci =? my_collation_contextually_typed_binary.

(** [Lex_opt_context_charset_st]: whether CHARACTER SET DEFAULT was seen. *)
Definition context_init : bool := false.
Definition merge_charset_default (m_had_charset_default : bool) : bool := true.
Definition context_is_empty (m_had_charset_default : bool) : bool := negb m_had_charset_default.

Definition set_collate_default : Lex_extended_collation_st :=
  MkCollation my_collation_contextually_typed_default TYPE_CONTEXTUALLY_TYPED.

(** [Lex_exact_charset_opt_extended_collate]. *)
Definition opt_collate (ci : Z) (with_collate : bool) : option Lex_exact_charset_opt_extended_collate :=
  if nz ci && (is_primary ci || with_collate) then Some (MkOptCollate ci with_collate) else None.
Definition opt_of_charset (cs : Z) : option Lex_exact_charset_opt_extended_collate :=
  if nz cs && is_primary cs then Some (MkOptCollate cs false) else None.
Definition opt_of_collation (cl : Z) : option Lex_exact_charset_opt_extended_collate :=
  if nz cl then Some (MkOptCollate cl true) else None.
(** The outer [None] is a failed assertion, the inner one an error. *)
Definition merge_collation (cl : Lex_extended_collation_st) (c : Lex_exact_charset_opt_extended_collate) :
    option (option Lex_exact_charset_opt_extended_collate) :=
  match cl_type cl with
  | TYPE_EXACT => ci ← Lex_exact_collation (cl_ci cl); Some (opt_merge_exact ci c)
  | TYPE_CONTEXTUALLY_TYPED => ci ← Lex_context_collation (cl_ci cl); Some (opt_merge_context ci c)
  end.
Definition merge_collation_override (cl : Lex_extended_collation_st) (c : Lex_exact_charset_opt_extended_collate) :
    option (option Lex_exact_charset_opt_extended_collate) :=
  match cl_type cl with
  | TYPE_EXACT => ci ← Lex_exact_collation (cl_ci cl); Some (opt_merge_exact_override ci c)
  | TYPE_CONTEXTUALLY_TYPED => ci ← Lex_context_collation (cl_ci cl); Some (opt_merge_context_override ci c)
  end.
Definition collation (c : Lex_exact_charset_opt_extended_collate) : option Z := Lex_exact_collation (oc_ci c).
Definition charset (c : Lex_exact_charset_opt_extended_collate) : option Z :=
  if is_primary (oc_ci c) then Lex_exact_charset (oc_ci c)
  else ci ← find_default_collation c; Lex_exact_charset ci.

(** [Lex_exact_charset_extended_collation_attrs_st]. *)
Definition type_from_lex_collation_type (t : collation_type) : attrs_type :=
  match t with TYPE_EXACT => TYPE_COLLATE_EXACT | TYPE_CONTEXTUALLY_TYPED => TYPE_COLLATE_CONTEXTUALLY_TYPED end.
Definition init : attrs := MkAttrs 0 TYPE_EMPTY.
Definition init_type (cs : Z) (type : attrs_type) : option attrs :=
  if nz cs || bool_decide (type = TYPE_EMPTY) then Some (MkAttrs cs type) else None.
Definition init_charset (cs : Z) : attrs := MkAttrs cs TYPE_CHARACTER_SET.
Definition init_collation (cl : Z) : attrs := MkAttrs cl TYPE_COLLATE_EXACT.
Definition init_opt (cscl : Lex_exact_charset_opt_extended_collate) : option attrs :=
  if with_collate cscl then cl ← collation cscl; init_type cl TYPE_CHARACTER_SET_COLLATE_EXACT
  else cs ← charset cscl; Some (init_charset cs).
Definition is_empty (a : attrs) : bool := bool_decide (m_type a = TYPE_EMPTY).
Definition set_charset (cs : Z) (a : attrs) : attrs := init_charset cs.
Definition set_charset_collate (find : Lex_exact_charset_opt_extended_collate -> option Z) (cs : Z) (a : attrs) : option (bool * attrs) :=
  c ← opt_of_charset cs;
  Some (match find c with Some ci => (false, MkAttrs ci TYPE_CHARACTER_SET_COLLATE_EXACT) | None => (true, a) end).
Definition set_charset_collate_default := set_charset_collate find_default_collation.
Definition set_charset_collate_binary := set_charset_collate find_bin_collation.
Definition attrs_set_collate_default (a : attrs) : attrs :=
  MkAttrs my_collation_contextually_typed_default TYPE_COLLATE_CONTEXTUALLY_TYPED.
Definition set_contextually_typed_binary_style (a : attrs) : attrs :=
  MkAttrs my_collation_contextually_typed_binary TYPE_COLLATE_CONTEXTUALLY_TYPED.
Definition is_contextually_typed_collation (a : attrs) : bool := bool_decide (m_type a = TYPE_COLLATE_CONTEXTUALLY_TYPED).
(** The common part of the two functions that merge a COLLATE clause into a column. *)
Definition merge_clause (cl a : attrs) : option (bool * attrs) :=
  let result r := match r with Some a' => (false, a') | None => (true, a) end in
  match m_type cl with
  | TYPE_EMPTY => Some (false, a)
  | TYPE_COLLATE_EXACT => ci ← Lex_exact_collation (m_ci cl); Some (result (merge_exact_collation ci a))
  | TYPE_COLLATE_CONTEXTUALLY_TYPED => ci ← Lex_context_collation (m_ci cl); Some (result (merge_context_collation ci a))
  | TYPE_CHARACTER_SET | TYPE_CHARACTER_SET_COLLATE_EXACT => None
  end.
Definition merge_column_charset_clause_and_collate_clause (cl a : attrs) : option (bool * attrs) := merge_clause cl a.
Definition merge_column_collate_clause_and_collate_clause (cl a : attrs) : option (bool * attrs) :=
  if bool_decide (m_type a = TYPE_CHARACTER_SET) then None else merge_clause cl a.
Definition of_extended_collation (cl : Lex_extended_collation_st) : option attrs :=
  init_type (cl_ci cl) (type_from_lex_collation_type (cl_type cl)).
Definition national (bin_mod : bool) : option attrs :=
  if bin_mod then init_type my_charset_utf8mb3_bin TYPE_COLLATE_EXACT
  else init_type my_charset_utf8mb3_general_ci TYPE_CHARACTER_SET.

(** [Charset_collation_context]. *)
Definition charset_default (charset_default : Z) : option Lex_exact_charset_opt_extended_collate :=
  opt_collate charset_default (negb (is_primary charset_default)).

(** [Lex_extended_charset_extended_collation_attrs_st]: both parts, and which charset came first. *)
Inductive charset_type_t := CHARSET_TYPE_EMPTY | CHARSET_TYPE_CONTEXT | CHARSET_TYPE_EXACT.
Record extended_attrs := MkExtended { had_default : bool; part : attrs; m_charset_order : charset_type_t }.
Definition extended_init : extended_attrs := MkExtended context_init init CHARSET_TYPE_EMPTY.
Definition extended_init_opt (c : Lex_exact_charset_opt_extended_collate) : option extended_attrs :=
  a ← init_opt c; Some (MkExtended context_init a CHARSET_TYPE_EXACT).
Definition extended_is_empty (e : extended_attrs) : bool := context_is_empty (had_default e) && is_empty (part e).
End ops.
End Clause.

(** ** Lengths and types of fields *)

Module FieldType.
Import Clause.

Definition LEX_CHARSET_COLLATION_TYPE_BITS : Z := 3.
Definition LEX_CHARSET_COLLATION_TYPE_MASK : Z := Z.shiftl 1 LEX_CHARSET_COLLATION_TYPE_BITS - 1.
(** The values of the enumeration. *)
Definition type_value (t : attrs_type) : Z :=
  match t with
  | TYPE_EMPTY => 0 | TYPE_CHARACTER_SET => 1 | TYPE_COLLATE_EXACT => 2 | TYPE_CHARACTER_SET_COLLATE_EXACT => 3
  | TYPE_COLLATE_CONTEXTUALLY_TYPED => 4
  end.
Definition type_of_value (v : Z) : option attrs_type :=
  if v =? 0 then Some TYPE_EMPTY else if v =? 1 then Some TYPE_CHARACTER_SET else if v =? 2 then Some TYPE_COLLATE_EXACT
  else if v =? 3 then Some TYPE_CHARACTER_SET_COLLATE_EXACT else if v =? 4 then Some TYPE_COLLATE_CONTEXTUALLY_TYPED else None.

Record Lex_length_and_dec_st := MkLength {
  m_length : Z;
  m_dec : Z;
  m_collation_type : Z;
  m_has_explicit_length : bool;
  m_has_explicit_dec : bool;
  m_length_overflowed : bool;
  m_dec_overflowed : bool;
}.
Definition reset : Lex_length_and_dec_st := MkLength 0 0 0 false false false false.
Definition set_length_only (length : Z) : Lex_length_and_dec_st := MkLength (u32 length) 0 0 true false false false.
Definition set_dec_only (dec : Z) : Lex_length_and_dec_st := MkLength 0 (u8 dec) 0 false true false false.
Definition set_length_and_dec (length dec : Z) : Lex_length_and_dec_st := MkLength (u32 length) (u8 dec) 0 true true false false.

Record Lex_field_type_st := MkFieldType { lad : Lex_length_and_dec_st; m_handler : Z; field_ci : Z }.
Definition with_collation_type (t : attrs_type) (l : Lex_length_and_dec_st) : Lex_length_and_dec_st :=
  MkLength (m_length l) (m_dec l) (Z.land (u8 (type_value t)) LEX_CHARSET_COLLATION_TYPE_MASK)
    (m_has_explicit_length l) (m_has_explicit_dec l) (m_length_overflowed l) (m_dec_overflowed l).
Definition set_field (handler : Z) (l : Lex_length_and_dec_st) (cs : Z) : Lex_field_type_st := MkFieldType l handler cs.
Definition set_field_attrs (handler : Z) (l : Lex_length_and_dec_st) (coll : attrs) : Lex_field_type_st :=
  MkFieldType (with_collation_type (m_type coll) l) handler (m_ci coll).
Definition set_attrs (handler : Z) (coll : attrs) : Lex_field_type_st := set_field_attrs handler reset coll.
Definition set_type (handler cs : Z) : Lex_field_type_st := MkFieldType reset handler cs.
Definition set_handler_length (handler length : Z) : Lex_field_type_st := MkFieldType (set_length_only length) handler 0.
Definition set_handler (handler : Z) (f : Lex_field_type_st) : Lex_field_type_st := MkFieldType (lad f) handler (field_ci f).
Definition charset_collation_attrs (f : Lex_field_type_st) : option attrs :=
  t ← type_of_value (m_collation_type (lad f)); init_type (field_ci f) t.

Record Lex_dyncol_type_st := MkDyncol { dyn_lad : Lex_length_and_dec_st; dyncol_type : Z; dyn_ci : Z }.
Definition set_dyncol (type : Z) (l : Lex_length_and_dec_st) (cs : Z) : Lex_dyncol_type_st := MkDyncol l type cs.
Definition set_dyncol_type (type cs : Z) : Lex_dyncol_type_st := MkDyncol reset type cs.
Definition set_dyncol_attrs `{CharsetLib} (type : Z) (coll : attrs) (charset : Z) (d : Lex_dyncol_type_st) : bool * Lex_dyncol_type_st :=
  match resolved_to_character_set coll charset with None => (true, d) | Some tmp => (false, set_dyncol_type type tmp) end.

(** *** Blocks and loops of stored programs *)

Record Lex_spblock_st := MkBlock { vars : Z; conds : Z; hndlrs : Z; curs : Z }.
Definition block_init : Lex_spblock_st := MkBlock 0 0 0 0.
Definition init_using_vars (nvars : Z) : Lex_spblock_st := MkBlock nvars 0 0 0.
Definition init_handlers (count : Z) : Lex_spblock_st := MkBlock 0 0 count 0.
Definition join (b1 b2 : Lex_spblock_st) : Lex_spblock_st :=
  MkBlock (vars b1 + vars b2) (conds b1 + conds b2) (hndlrs b1 + hndlrs b2) (curs b1 + curs b2).

Record Lex_for_loop_bounds_st := MkBounds { m_index : Z; m_target_bound : Z; m_direction : Z; m_implicit_cursor : bool }.
Definition is_for_loop_cursor (b : Lex_for_loop_bounds_st) : bool := m_target_bound b =? 0.
Definition intrange (direction left_expr right_expr : Z) : Lex_for_loop_bounds_st :=
  MkBounds (if direction >? 0 then left_expr else right_expr) (if direction >? 0 then right_expr else left_expr) direction false.
Definition loop_init : Lex_for_loop_bounds_st * Z := (MkBounds 0 0 0 false, 0).
Definition is_for_loop_explicit_cursor (b : Lex_for_loop_bounds_st) : bool := is_for_loop_cursor b && negb (m_implicit_cursor b).
End FieldType.

(** ** What survives *)

Module Props.
Import Clause FieldType.
Section props.
Context `{CharsetLib}.

(** The null pointer means that nothing was specified. *)
Definition well_formed (a : attrs) : Prop := nz (m_ci a) = true \/ m_type a = TYPE_EMPTY.

Lemma init_type_some ci t : well_formed (MkAttrs ci t) -> init_type ci t = Some (MkAttrs ci t).
Proof.
  intros [W|W]; simpl in W; unfold init_type; [by rewrite W|]. subst. by rewrite bool_decide_true, orb_true_r.
Qed.

Lemma init_type_well_formed ci t a : init_type ci t = Some a -> well_formed a.
Proof.
  unfold init_type, well_formed. destruct (nz ci) eqn:E; simpl; [intros [= <-]; by left|].
  destruct (decide (t = TYPE_EMPTY)); [rewrite bool_decide_true by done; intros [= <-]; by right|by rewrite bool_decide_false].
Qed.

(** The three bits of a field type hold every kind of attributes: they are read back as
    they were set, with the length, the decimals and their flags. *)
Lemma field_type_roundtrip handler l a :
  well_formed a ->
  let f := set_field_attrs handler l a in
  charset_collation_attrs f = Some a /\ m_handler f = handler /\ m_length (lad f) = m_length l /\ m_dec (lad f) = m_dec l /\
  m_has_explicit_length (lad f) = m_has_explicit_length l /\ m_has_explicit_dec (lad f) = m_has_explicit_dec l /\
  charset_collation_attrs (set_attrs handler a) = Some a /\ charset_collation_attrs (set_handler 0 f) = Some a.
Proof.
  intros W f. destruct a as [ci t].
  assert (E : charset_collation_attrs f = Some (MkAttrs ci t)).
  { unfold charset_collation_attrs, f. simpl. destruct t; by rewrite <- (init_type_some _ _ W). }
  split_and!; first [exact E|reflexivity].
Qed.

(** Every way to build attributes gives well formed ones, and merging an empty clause
    changes nothing. *)
Lemma built_well_formed c cl b :
  (forall a, init_opt c = Some a -> well_formed a /\ is_empty a = false) /\
  (forall a, of_extended_collation cl = Some a -> well_formed a /\ is_empty a = false) /\
  (forall a, national b = Some a -> well_formed a /\ is_empty a = false) /\
  (forall a, merge_clause init a = Some (false, a)).
Proof.
  assert (D : forall ci t a, init_type ci t = Some a -> m_type a = t) by (unfold init_type; intros ci t a; case_match; [by intros [= <-]|done]).
  assert (B : forall ci t a, t <> TYPE_EMPTY -> init_type ci t = Some a -> well_formed a /\ is_empty a = false).
  { intros ci t a Hn E. split; [by eapply init_type_well_formed|]. unfold is_empty. rewrite (D _ _ _ E). by apply bool_decide_false. }
  split; [|split; [|split; [|done]]].
  - intros a. unfold init_opt. destruct (with_collate c).
    + unfold collation, Lex_exact_collation. destruct (nz (oc_ci c)); [|done]. simpl. by apply B.
    + destruct (charset c) as [cs|] eqn:E; [|done]. simpl. intros [= <-]. split; [left|done]. simpl. revert E.
      unfold charset, Lex_exact_charset. destruct (is_primary (oc_ci c)).
      * destruct (nz (oc_ci c)) eqn:En; simpl; [by intros [= <-]|done].
      * destruct (find_default_collation c) as [ci|]; [|done]. simpl. destruct (nz ci) eqn:En; simpl; [|done].
        destruct (is_primary ci); [by intros [= <-]|done].
  - intros a. unfold of_extended_collation. apply B. by destruct (cl_type cl).
  - intros a. unfold national. destruct b; by apply B.
Qed.

(** The character set of CHARACTER SET cs COLLATE cl is a primary collation. *)
Lemma charset_primary c cs : charset c = Some cs -> nz cs = true /\ is_primary cs = true.
Proof.
  unfold charset, Lex_exact_charset. destruct (is_primary (oc_ci c)) eqn:E.
  - destruct (nz (oc_ci c)) eqn:En; simpl; [by intros [= <-]|done].
  - destruct (find_default_collation c) as [ci|]; [|done]. simpl. destruct (nz ci) eqn:En; simpl; [|done].
    destruct (is_primary ci) eqn:Ep; [by intros [= <-]|done].
Qed.

(** The default character set of a context is accepted whether it is primary or not. *)
Lemma charset_default_accepted ci : nz ci = true -> charset_default ci = Some (MkOptCollate ci (negb (is_primary ci))).
Proof. intros E. unfold charset_default, opt_collate. rewrite E. by destruct (is_primary ci). Qed.
End props.

(** The bounds of a loop over integers are swapped for a loop that counts down; such a
    loop is a loop over a cursor only when its target is missing. *)
Lemma intrange_bounds direction l r :
  nz l = true -> nz r = true ->
  is_for_loop_cursor (intrange direction l r) = false /\
  (m_index (intrange direction l r), m_target_bound (intrange direction l r)) = (if direction >? 0 then (l, r) else (r, l)).
Proof.
  intros Hl Hr. unfold is_for_loop_cursor, intrange, nz in *. simpl. destruct (direction >? 0); simpl; (split; [|done]).
  - by destruct (r =? 0).
  - by destruct (l =? 0).
Qed.

Lemma join_block_laws a b c :
  join (join a b) c = join a (join b c) /\ join a b = join b a /\ join block_init a = a.
Proof. destruct a, b, c. unfold join. simpl. split; [|split]; f_equal; lia. Qed.
End Props.
