(* ===== verification/TypeAttrs.v ===== *)
(** Attributes of data types: collations with their derivation, lengths, decimals and
    signs of expressions, CAST lengths, hashing of NULLs and lists of type names, from
    [mariadb/include/mysql/server/private/sql_type.h].

    A character set is an address; what the code reads of it is the class [Charsets].
    The attributes of items and the aggregation of collations are code outside the
    repository: the class [Items].  [None] is a failed assertion or a division by zero. *)

From S2P Require Import Prelude LexTypes.

(** ** Collations *)

Module Collation.

Definition MY_CS_PUREASCII : Z := 4096.
Definition MY_REPERTOIRE_ASCII : Z := 1.
Definition MY_REPERTOIRE_UNICODE30 : Z := 3.
Definition MY_REPERTOIRE_NUMERIC : Z := MY_REPERTOIRE_ASCII.
Definition MY_COLL_ALLOW_SUPERSET_CONV : Z := 1.
Definition MY_COLL_ALLOW_COERCIBLE_CONV : Z := 2.
Definition MY_COLL_DISALLOW_NONE : Z := 4.
Definition MY_COLL_ALLOW_NUMERIC_CONV : Z := 8.
Definition MY_COLL_ALLOW_CONV : Z := Z.lor MY_COLL_ALLOW_SUPERSET_CONV MY_COLL_ALLOW_COERCIBLE_CONV.
Definition MY_COLL_CMP_CONV : Z := Z.lor MY_COLL_ALLOW_CONV MY_COLL_DISALLOW_NONE.
Definition repertoire_or (a b : Z) : Z := Z.lor a b.

Definition DERIVATION_IGNORABLE : Z := 6.
Definition DERIVATION_NUMERIC : Z := 5.
Definition DERIVATION_COERCIBLE : Z := 4.
Definition DERIVATION_SYSCONST : Z := 3.
Definition DERIVATION_IMPLICIT : Z := 2.
Definition DERIVATION_NONE : Z := 1.
Definition DERIVATION_EXPLICIT : Z := 0.

Class Charsets := {
  cs_state : Z -> Z;
  mbmaxlen : Z -> Z;
  my_charset_repertoire : Z -> Z;
  my_charset_bin : Z;
  my_charset_numeric : Z;
}.

Record DTCollation := MkDT { collation : Z; derivation : Z; repertoire : Z }.

Section ops.
Context `{Charsets}.

Definition repertoire_from_charset (cs : Z) : Z :=
  if nz (Z.land (cs_state cs) MY_CS_PUREASCII) then MY_REPERTOIRE_ASCII else MY_REPERTOIRE_UNICODE30.
Definition set_repertoire_from_charset (cs : Z) (d : DTCollation) : DTCollation :=
  MkDT (collation d) (derivation d) (repertoire_from_charset cs).
Definition new_dtcollation : DTCollation := MkDT my_charset_bin DERIVATION_NONE MY_REPERTOIRE_UNICODE30.
Definition of_field (cs : Z) : DTCollation := MkDT cs DERIVATION_IMPLICIT (my_charset_repertoire cs).
Definition of_derivation (cs der : Z) : DTCollation := set_repertoire_from_charset cs (MkDT cs der 0).
Definition set_collation_derivation (cs der : Z) (d : DTCollation) : DTCollation := set_repertoire_from_charset cs (MkDT cs der (repertoire d)).
Definition set_all (cs der rep : Z) (d : DTCollation) : DTCollation := MkDT cs der rep.
Definition set_collation (cs : Z) (d : DTCollation) : DTCollation :=
  set_repertoire_from_charset cs (MkDT cs (derivation d) (repertoire d)).
Definition set_derivation (der : Z) (d : DTCollation) : DTCollation := MkDT (collation d) der (repertoire d).
(** [aggregate] is code outside the repository. *)
Definition set_two (aggregate : DTCollation -> Z -> DTCollation -> bool * DTCollation) (dt1 dt2 : DTCollation) (flags : Z) : bool * DTCollation :=
  aggregate dt2 flags dt1.
Definition derivation_name (d : DTCollation) : string :=
  if derivation d =? DERIVATION_NUMERIC then "NUMERIC"
  else if derivation d =? DERIVATION_IGNORABLE then "IGNORABLE"
  else if derivation d =? DERIVATION_COERCIBLE then "COERCIBLE"
  else if derivation d =? DERIVATION_IMPLICIT then "IMPLICIT"
  else if derivation d =? DERIVATION_SYSCONST then "SYSCONST"
  else if derivation d =? DERIVATION_EXPLICIT then "EXPLICIT"
  else if derivation d =? DERIVATION_NONE then "NONE"
  else "UNKNOWN".
Definition DTCollation_numeric : DTCollation := MkDT my_charset_numeric DERIVATION_NUMERIC MY_REPERTOIRE_NUMERIC.
End ops.
End Collation.

(** ** Lengths and decimals *)

Module Attributes.
Import Collation.

Definition UINT_MAX32 : Z := 2 ^ 32 - 1.
Definition TIME_SECOND_PART_DIGITS : Z := 6.
Definition NOT_FIXED_DEC : Z := 39.
Definition MAX_DATE_WIDTH : Z := 10.
Definition MIN_TIME_WIDTH : Z := 10.
Definition MAX_DATETIME_WIDTH : Z := 19.

Definition char_to_byte_length_safe (char_length_arg mbmaxlen_arg : Z) : Z :=
  let tmp := u64 (char_length_arg * mbmaxlen_arg) in
  if tmp >? UINT_MAX32 then UINT_MAX32 else u32 tmp.

Record Type_numeric_attributes := MkNumeric { max_length : Z; decimals : Z; unsigned_flag : bool }.
Definition new_numeric : Type_numeric_attributes := MkNumeric 0 0 false.
Definition Type_temporal_attributes (int_part_length dec : Z) (unsigned_arg : bool) : Type_numeric_attributes :=
  let decimals := if dec <? TIME_SECOND_PART_DIGITS then dec else TIME_SECOND_PART_DIGITS in
  MkNumeric (u32 (u32 (int_part_length + (if nz dec then 1 else 0)) + decimals)) decimals unsigned_arg.
Definition Type_temporal_attributes_not_fixed_dec (int_part_length dec : Z) (unsigned_arg : bool) : Type_numeric_attributes :=
  if dec =? NOT_FIXED_DEC then MkNumeric (u32 (int_part_length + (TIME_SECOND_PART_DIGITS + 1))) dec unsigned_arg
  else if nz dec then
    let decimals := if dec >? TIME_SECOND_PART_DIGITS then TIME_SECOND_PART_DIGITS else dec in
    MkNumeric (u32 (int_part_length + (decimals + 1))) decimals unsigned_arg
  else MkNumeric int_part_length dec unsigned_arg.

Record Type_std_attributes := MkStd { numeric : Type_numeric_attributes; coll : DTCollation }.

(** What is read of items. *)
Class Items (item : Type) := {
  count_unsigned : list item -> Z;
  find_max_char_length : list item -> Z;
  find_max_decimals : list item -> Z;
  numeric_attributes_real : list item -> Type_numeric_attributes -> Type_numeric_attributes;
  numeric_attributes_decimal : list item -> bool -> Type_numeric_attributes -> Type_numeric_attributes;
  agg_item_collations : list item -> Z -> Z -> DTCollation -> bool * DTCollation;
  agg_item_set_converter : DTCollation -> list item -> Z -> Z -> bool;
}.

Section std.
Context `{Charsets}.

Definition new_std : Type_std_attributes := MkStd new_numeric (of_derivation my_charset_bin DERIVATION_COERCIBLE).
Definition set_std (nattr : Type_numeric_attributes) (dtc : DTCollation) : Type_std_attributes := MkStd nattr dtc.
Definition max_char_length (t : Type_std_attributes) : option Z :=
  let m := mbmaxlen (collation (coll t)) in if m =? 0 then None else Some (max_length (numeric t) / m).
Definition with_max_length (l : Z) (n : Type_numeric_attributes) : Type_numeric_attributes := MkNumeric l (decimals n) (unsigned_flag n).
Definition fix_length_and_charset (max_char_length_arg cs : Z) (t : Type_std_attributes) : Type_std_attributes :=
  MkStd (with_max_length (char_to_byte_length_safe max_char_length_arg (mbmaxlen cs)) (numeric t))
    (MkDT cs (derivation (coll t)) (repertoire (coll t))).
Definition fix_char_length (max_char_length_arg : Z) (t : Type_std_attributes) : Type_std_attributes :=
  MkStd (with_max_length (char_to_byte_length_safe max_char_length_arg (mbmaxlen (collation (coll t)))) (numeric t)) (coll t).
Definition fix_attributes_temporal (int_part_length dec : Z) : Type_std_attributes :=
  MkStd (Type_temporal_attributes int_part_length dec false) DTCollation_numeric.
Definition fix_attributes_date : Type_std_attributes := fix_attributes_temporal MAX_DATE_WIDTH 0.
Definition fix_attributes_time (dec : Z) : Type_std_attributes := fix_attributes_temporal MIN_TIME_WIDTH dec.
Definition fix_attributes_datetime (dec : Z) : Type_std_attributes := fix_attributes_temporal MAX_DATETIME_WIDTH dec.

Context {item : Type} `{Items item}.
Definition aggregate_attributes_int (items : list item) (t : Type_std_attributes) : Type_std_attributes :=
  let t := fix_char_length (find_max_char_length items) (MkStd (numeric t) DTCollation_numeric) in
  MkStd (MkNumeric (max_length (numeric t)) 0 (count_unsigned items >? 0)) (coll t).
Definition aggregate_attributes_real (items : list item) (t : Type_std_attributes) : Type_std_attributes :=
  MkStd (numeric_attributes_real items (numeric t)) DTCollation_numeric.
Definition aggregate_attributes_decimal (items : list item) (unsigned_arg : bool) (t : Type_std_attributes) : Type_std_attributes :=
  MkStd (numeric_attributes_decimal items unsigned_arg (MkNumeric (max_length (numeric t)) (decimals (numeric t)) unsigned_arg))
    DTCollation_numeric.
Definition aggregate_attributes_temporal (int_part_length : Z) (items : list item) : Type_std_attributes :=
  fix_attributes_temporal int_part_length (find_max_decimals items).
(** The result [true] is an error; then no converter is installed. *)
Definition agg_arg_charsets (c : DTCollation) (items : list item) (flags item_sep : Z) : bool * DTCollation :=
  let r := agg_item_collations items flags item_sep c in
  if r.1 then (true, r.2) else (agg_item_set_converter r.2 items flags item_sep, r.2).
Definition string_result_flags : Z :=
  Z.lor (Z.lor MY_COLL_ALLOW_SUPERSET_CONV MY_COLL_ALLOW_COERCIBLE_CONV) MY_COLL_ALLOW_NUMERIC_CONV.
Definition agg_arg_charsets_for_string_result (c : DTCollation) (items : list item) (item_sep : Z) :=
  agg_arg_charsets c items string_result_flags item_sep.
Definition agg_arg_charsets_for_string_result_with_comparison (c : DTCollation) (items : list item) (item_sep : Z) :=
  agg_arg_charsets c items (Z.lor string_result_flags MY_COLL_DISALLOW_NONE) item_sep.
Definition agg_arg_charsets_for_comparison (c : DTCollation) (items : list item) (item_sep : Z) :=
  agg_arg_charsets c items
    (Z.lor (Z.lor MY_COLL_ALLOW_SUPERSET_CONV MY_COLL_ALLOW_COERCIBLE_CONV) MY_COLL_DISALLOW_NONE) item_sep.
End std.

(** [Type_cast_attributes]. *)
Record Type_cast_attributes := MkCast {
  cast_charset : Z; cast_length : Z; cast_decimals : Z; length_specified : bool; decimals_specified : bool
}.
Definition cast_of_length (l : FieldType.Lex_length_and_dec_st) (cs : Z) : Type_cast_attributes :=
  MkCast cs (if FieldType.m_length_overflowed l then UINT_MAX32 + 1 else FieldType.m_length l) (FieldType.m_dec l)
    (FieldType.m_has_explicit_length l) (FieldType.m_has_explicit_dec l).
Definition cast_of_charset (cs : Z) : Type_cast_attributes := MkCast cs 0 0 false false.
End Attributes.

(** ** Hashes, statistics and names *)

Module Misc.

Inductive scalar_comparison_op := SCALAR_CMP_EQ | SCALAR_CMP_EQUAL | SCALAR_CMP_LT | SCALAR_CMP_LE | SCALAR_CMP_GE | SCALAR_CMP_GT.
Definition scalar_comparison_op_to_lex_cstring (op : scalar_comparison_op) : string :=
  match op with
  | SCALAR_CMP_EQ => "=" | SCALAR_CMP_EQUAL => "<=>" | SCALAR_CMP_LT => "<" | SCALAR_CMP_LE => "<="
  | SCALAR_CMP_GE => ">=" | SCALAR_CMP_GT => ">"
  end.

(** [Hasher]: two numbers of the width of [ulong]; the collation hashes strings. *)
Record Hasher := MkHasher { m_nr1 : Z; m_nr2 : Z }.
Definition new_hasher : Hasher := MkHasher 1 4.
Definition add_null (long_bits : Z) (h : Hasher) : Hasher :=
  MkHasher (Z.lxor (m_nr1 h) (Z.lor (wrapU long_bits (Z.shiftl (m_nr1 h) 1)) 1)) (m_nr2 h).
Definition add (hash_sort : list Z -> Z * Z -> Z * Z) (str : list Z) (h : Hasher) : Hasher :=
  let r := hash_sort str (m_nr1 h, m_nr2 h) in MkHasher r.1 r.2.
Definition finalize (h : Hasher) : Z := u32 (m_nr1 h).

(** [Send_field_extended_metadata]: one optional name per attribute. *)
Definition MARIADB_FIELD_ATTR_LAST : nat := 1.
Definition metadata_init : list (option string) := replicate (S MARIADB_FIELD_ATTR_LAST) None.
Definition set_data_type_name (str : string) (m : list (option string)) : bool * list (option string) := (false, <[0%nat := Some str]> m).
Definition set_format_name (str : string) (m : list (option string)) : bool * list (option string) := (false, <[1%nat := Some str]> m).
Definition has_extended_metadata (m : list (option string)) : bool := existsb (fun a => bool_decide (is_Some a)) m.
Definition attr (i : nat) (m : list (option string)) : option (option string) := m !! i.

Record Data_type_statistics := MkStatistics {
  m_uneven_bit_length : Z; m_fixed_string_total_length : Z; m_fixed_string_count : Z;
  m_variable_string_total_length : Z; m_variable_string_count : Z; m_blob_count : Z
}.
Definition new_statistics : Data_type_statistics := MkStatistics 0 0 0 0 0 0.
Definition string_count (s : Data_type_statistics) : Z := u32 (m_fixed_string_count s + m_variable_string_count s).
Definition string_total_length (s : Data_type_statistics) : Z :=
  u32 (m_fixed_string_total_length s + m_variable_string_total_length s).

(** [Typelib]: the names with their lengths, entries that nobody wrote are [None] outside,
    and a null name is [None] inside. *)
Record Typelib := MkTypelib { count : nat; type_names : list (option (option string)); type_lengths : list (option Z) }.
Fixpoint max_octet_length_from (ls : list (option Z)) (max_length : Z) : option Z :=
  match ls with
  | [] => Some max_length
  | l :: ls => length ← l; max_octet_length_from ls (if max_length <? length then length else max_length)
  end.
Definition max_octet_length (t : Typelib) : option Z :=
  if (count t <=? length (type_lengths t))%nat then max_octet_length_from (take (count t) (type_lengths t)) 0 else None.
(** One turn of the loop of the constructor. *)
Definition fill (values : list (option string)) (t : Typelib) (i : nat) : option Typelib :=
  v ← values !! i; v ← v;
  Some (MkTypelib (count t) (<[i := Some (Some v)]> (type_names t)) (<[i := Some (u32 (Z.of_nat (String.length v)))]> (type_lengths t))).
Definition TypelibBuffer (sz cnt : nat) (values : list (option string)) : option Typelib :=
  if (cnt <=? sz)%nat then
    t ← foldl (fun t i => t ← t; fill values t i) (Some (MkTypelib cnt (replicate (S sz) None) (replicate (S sz) None))) (seq 0 cnt);
    Some (MkTypelib (count t) (<[sz := Some None]> (type_names t)) (<[sz := Some 0]> (type_lengths t)))
  else None.
End Misc.

(** ** Properties *)

Module Props.
Import Collation Attributes Misc.

(** The byte length is the product, or the greatest length when that is more, for every
    length of 32 bits. *)
Lemma char_to_byte_length_min n m :
  in_u 32 n -> in_u 32 m -> char_to_byte_length_safe n m = Z.min (n * m) UINT_MAX32.
Proof.
  unfold in_u. intros Hn Hm. unfold char_to_byte_length_safe.
  assert (H0 : 0 <= n * m) by (apply Z.mul_nonneg_nonneg; lia).
  assert (H1 : n * m < 2 ^ 32 * 2 ^ 32) by (apply Z.mul_lt_mono_nonneg; lia).
  rewrite (wrapU_small 64) by (unfold in_u; lia). rewrite Z.gtb_ltb.
  unfold UINT_MAX32 in *. destruct (Z.ltb_spec (2 ^ 32 - 1) (n * m)); [lia|]. rewrite wrapU_small by (unfold in_u; lia). lia.
Qed.

(** The argument is a [size_t], and the product is taken in 64 bits: a length beyond 32
    bits can come out as 0. *)
Lemma char_to_byte_length_wraps : char_to_byte_length_safe (2 ^ 62) 4 = 0.
Proof. reflexivity. Qed.

(** The length in characters that was asked for comes back unless the bytes saturate. *)
Lemma fix_char_length_back `{Charsets} n t :
  in_u 32 n -> 0 < mbmaxlen (collation (coll t)) < 2 ^ 32 -> n * mbmaxlen (collation (coll t)) < 2 ^ 32 ->
  max_char_length (fix_char_length n t) = Some n /\ coll (fix_char_length n t) = coll t.
Proof.
  intros Hn Hm Hp. split; [|done]. unfold max_char_length. simpl. destruct (Z.eqb_spec (mbmaxlen (collation (coll t))) 0); [lia|].
  f_equal. unfold in_u in *. rewrite char_to_byte_length_min by (unfold in_u; lia). unfold UINT_MAX32. rewrite Z.min_l by lia.
  apply Z.div_mul. lia.
Qed.

(** A temporal value has room for its digits: no fraction, or a point and the digits kept. *)
Lemma temporal_length l dec u :
  in_u 31 l -> 0 <= dec < 2 ^ 16 ->
  let t := Type_temporal_attributes l dec u in
  decimals t = Z.min dec 6 /\ max_length t = l + (if dec =? 0 then 0 else decimals t + 1).
Proof.
  unfold in_u. intros Hl Hd. unfold Type_temporal_attributes, TIME_SECOND_PART_DIGITS, nz. simpl.
  destruct (Z.ltb_spec dec 6), (Z.eqb_spec dec 0); simpl; (split; [lia|]); rewrite !wrapU_small; unfold in_u; rewrite ?wrapU_small; unfold in_u; lia.
Qed.

(** With decimals that are not fixed there is room for all six digits. *)
Lemma temporal_not_fixed_length l dec u :
  in_u 31 l -> 0 <= dec < 2 ^ 16 ->
  let t := Type_temporal_attributes_not_fixed_dec l dec u in
  max_length t = l + (if dec =? NOT_FIXED_DEC then 7 else if dec =? 0 then 0 else Z.min dec 6 + 1) /\
  decimals t = (if dec =? NOT_FIXED_DEC then dec else Z.min dec 6).
Proof.
  unfold in_u. intros Hl Hd. unfold Type_temporal_attributes_not_fixed_dec, TIME_SECOND_PART_DIGITS, nz.
  destruct (Z.eqb_spec dec NOT_FIXED_DEC) as [->|Hn]; simpl.
  - rewrite wrapU_small by (unfold in_u; lia). done.
  - rewrite Z.gtb_ltb. destruct (Z.eqb_spec dec 0), (Z.ltb_spec 6 dec); simpl; rewrite ?wrapU_small by (unfold in_u; lia); lia.
Qed.

(** The flags of an aggregation: each function asks for what its comment says. *)
Lemma aggregation_flags :
  MY_COLL_CMP_CONV = Z.lor (Z.lor MY_COLL_ALLOW_SUPERSET_CONV MY_COLL_ALLOW_COERCIBLE_CONV) MY_COLL_DISALLOW_NONE /\
  Z.land string_result_flags MY_COLL_DISALLOW_NONE = 0 /\ Z.land MY_COLL_CMP_CONV MY_COLL_ALLOW_NUMERIC_CONV = 0.
Proof. done. Qed.

(** A NULL changes the hash, and a different hash stays different. *)
Lemma add_null_injective w h h' :
  0 < w -> in_u w (m_nr1 h) -> in_u w (m_nr1 h') -> m_nr1 (add_null w h) = m_nr1 (add_null w h') -> m_nr1 h = m_nr1 h'.
Proof.
  intros Hw H1 H2 E. simpl in E. apply Z.bits_inj'. intros k Hk.
  assert (forall n : nat, forall k, k = Z.of_nat n -> Z.testbit (m_nr1 h) k = Z.testbit (m_nr1 h') k) as HA; [|apply (HA (Z.to_nat k)); lia].
  clear k Hk. induction n as [|n IH]; intros k ->.
  - apply (f_equal (fun z => Z.testbit z 0)) in E. rewrite !Z.lxor_spec, !Z.lor_spec in E.
    change (Z.testbit 1 0) with true in E. rewrite !orb_true_r in E. change (Z.of_nat 0) with 0.
    destruct (Z.testbit (m_nr1 h) 0), (Z.testbit (m_nr1 h') 0); done.
  - destruct (Z.lt_ge_cases (Z.of_nat (S n)) w) as [Hlt|Hge]; [|rewrite !(testbit_above w) by (done || lia); done].
    apply (f_equal (fun z => Z.testbit z (Z.of_nat (S n)))) in E. rewrite !Z.lxor_spec, !Z.lor_spec in E.
    rewrite !testbit_wrapU in E by lia. destruct (Z.ltb_spec (Z.of_nat (S n)) w); [|lia].
    rewrite !Z.shiftl_spec in E by lia. replace (Z.of_nat (S n) - 1) with (Z.of_nat n) in E by lia.
    rewrite (IH (Z.of_nat n) eq_refl) in E. simpl andb in E.
    destruct (Z.testbit (m_nr1 h) (Z.of_nat (S n))), (Z.testbit (m_nr1 h') (Z.of_nat (S n))); try done;
      exfalso; revert E; destruct (Z.testbit (m_nr1 h') (Z.of_nat n) || _); done.
Qed.

(** With fewer names than the buffer has room for, the end marker is not behind the last
    name: what stands there was never written. *)
Lemma typelib_end_marker_misplaced :
  exists t, TypelibBuffer 3 1 [Some "a"%string] = Some t /\ count t = 1%nat /\
  type_names t !! 1%nat = Some None /\ type_names t !! 3%nat = Some (Some None).
Proof. eexists. split; [reflexivity|]. done. Qed.

(** A full buffer has its names, the longest length and the end marker. *)
Lemma typelib_full_example :
  exists t, TypelibBuffer 3 3 [Some "a"; Some "ccc"; Some "bb"]%string = Some t /\
  type_names t = [Some (Some "a"); Some (Some "ccc"); Some (Some "bb"); Some None]%string /\ max_octet_length t = Some 3.
Proof. eexists. split; [reflexivity|]. done. Qed.
End Props.
