(* ===== verification/JoinCache.v ===== *)
(** The join buffer: the inline code of [mariadb/include/mysql/server/private/sql_join_cache.h].

    Offsets of records, fields and keys take one, two or four bytes of the buffer, as
    many as its size needs; references to records are offsets from the start of the
    buffer and references between key entries are offsets back from the hash table.
    Filling and searching the buffer is code outside the repository. *)

From S2P Require Import Prelude ByteOrder.

(** ** Offsets *)

Definition offset_size (len : Z) : Z := if len <? 256 then 1 else if len <? 256 * 256 then 2 else 4.
Definition get_offset (ofs_sz : Z) (m : mem) (ptr : Z) : Z :=
  if ofs_sz =? 1 then m ptr
  else if ofs_sz =? 2 then X86_64.uint2korr m ptr
  else if ofs_sz =? 4 then X86_64.uint4korr m ptr
  else 0.
Definition store_offset (ofs_sz : Z) (m : mem) (ptr ofs : Z) : mem :=
  if ofs_sz =? 1 then put m ptr 0 ofs
  else if ofs_sz =? 2 then X86_64.int2store m ptr (u16 ofs)
  else if ofs_sz =? 4 then X86_64.int4store m ptr (u32 ofs)
  else m.

(** ** The cache *)

Inductive Join_algorithm := BNL_JOIN_ALG | BNLH_JOIN_ALG | BKA_JOIN_ALG | BKAH_JOIN_ALG.
Inductive Match_flag := MATCH_NOT_FOUND | MATCH_FOUND | MATCH_IMPOSSIBLE.

(** The members the inline code reads, those of the hashed caches included. *)
Record JOIN_CACHE := MkCache {
  size_of_rec_ofs : Z; size_of_rec_len : Z; size_of_fld_ofs : Z;
  base_prefix_length : Z;
  buff : Z; buff_size : Z; aux_buff_size : Z;
  records : Z;
  end_pos : Z;
  curr_rec_pos : Z; last_rec_pos : Z;
  last_rec_blob_data_is_in_rec_buff : bool;
  curr_rec_link : Z;
  min_buff_size : Z; max_buff_size : Z;
  size_of_key_ofs : Z; key_entry_length : Z;
  hash_table : Z; curr_key_entry : Z; last_key_entry : Z;
  data_fields_offset : Z; key_entries : Z;
}.

Definition get_rec_ref (c : JOIN_CACHE) (m : mem) (ptr : Z) : Z :=
  buff c + get_offset (size_of_rec_ofs c) m (ptr - size_of_rec_ofs c).
Definition get_rec_length (c : JOIN_CACHE) (m : mem) (ptr : Z) : Z := get_offset (size_of_rec_len c) m ptr.
Definition get_fld_offset (c : JOIN_CACHE) (m : mem) (ptr : Z) : Z := get_offset (size_of_fld_ofs c) m ptr.
Definition store_rec_ref (c : JOIN_CACHE) (m : mem) (ptr ref : Z) : mem :=
  store_offset (size_of_rec_ofs c) m (ptr - size_of_rec_ofs c) (ref - buff c).
Definition store_rec_length (c : JOIN_CACHE) (m : mem) (ptr len : Z) : mem := store_offset (size_of_rec_len c) m ptr len.
Definition store_fld_offset (c : JOIN_CACHE) (m : mem) (ptr ofs : Z) : mem := store_offset (size_of_fld_ofs c) m ptr ofs.
Definition get_prefix_length (c : JOIN_CACHE) : Z := base_prefix_length c.
(** [MY_MAX] of unsigned numbers. *)
Definition rem_space (c : JOIN_CACHE) : Z :=
  let left := u64 (u64 (buff_size c - (end_pos c - buff c)) - aux_buff_size c) in if left >? 0 then left else 0.
Definition blob_data_is_in_rec_buff (c : JOIN_CACHE) (rec_ptr : Z) : bool :=
  (rec_ptr =? last_rec_pos c) && last_rec_blob_data_is_in_rec_buff c.
Definition get_join_buffer_size (c : JOIN_CACHE) : Z := buff_size c.
Definition set_join_buffer_size (sz : Z) (c : JOIN_CACHE) : JOIN_CACHE :=
  MkCache (size_of_rec_ofs c) (size_of_rec_len c) (size_of_fld_ofs c) (base_prefix_length c) (buff c) sz (aux_buff_size c)
    (records c) (end_pos c) (curr_rec_pos c) (last_rec_pos c) (last_rec_blob_data_is_in_rec_buff c) (curr_rec_link c)
    (min_buff_size c) (max_buff_size c) (size_of_key_ofs c) (key_entry_length c) (hash_table c) (curr_key_entry c)
    (last_key_entry c) (data_fields_offset c) (key_entries c).
Definition get_curr_rec (c : JOIN_CACHE) : Z := curr_rec_pos c.
Definition set_curr_rec_link (link : Z) (c : JOIN_CACHE) : JOIN_CACHE :=
  MkCache (size_of_rec_ofs c) (size_of_rec_len c) (size_of_fld_ofs c) (base_prefix_length c) (buff c) (buff_size c) (aux_buff_size c)
    (records c) (end_pos c) (curr_rec_pos c) (last_rec_pos c) (last_rec_blob_data_is_in_rec_buff c) link
    (min_buff_size c) (max_buff_size c) (size_of_key_ofs c) (key_entry_length c) (hash_table c) (curr_key_entry c)
    (last_key_entry c) (data_fields_offset c) (key_entries c).
Definition get_curr_rec_link (c : JOIN_CACHE) : Z := if nz (curr_rec_link c) then curr_rec_link c else get_curr_rec c.

(** *** [JOIN_CACHE_HASHED] *)

Definition get_next_key_ref (c : JOIN_CACHE) (m : mem) (key_ref_ptr : Z) : Z :=
  hash_table c - get_offset (size_of_key_ofs c) m key_ref_ptr.
Definition store_next_key_ref (c : JOIN_CACHE) (m : mem) (key_ref_ptr ref : Z) : mem :=
  store_offset (size_of_key_ofs c) m key_ref_ptr (hash_table c - ref).
Definition is_null_key_ref (c : JOIN_CACHE) (m : mem) (key_ref_ptr : Z) : bool :=
  forallb (fun b => b =? 0) (bytes_at (Z.to_nat (size_of_key_ofs c)) m key_ref_ptr).
Definition store_null_key_ref (c : JOIN_CACHE) (m : mem) (key_ref_ptr : Z) : mem :=
  store_offset (size_of_key_ofs c) m key_ref_ptr 0.
Definition get_next_rec_ref (c : JOIN_CACHE) (m : mem) (ref_ptr : Z) : Z := buff c + get_offset (size_of_rec_ofs c) m ref_ptr.
Definition store_next_rec_ref (c : JOIN_CACHE) (m : mem) (ref_ptr ref : Z) : mem :=
  store_offset (size_of_rec_ofs c) m ref_ptr (ref - buff c).
Definition get_curr_emb_key (c : JOIN_CACHE) : Z := get_curr_rec c + data_fields_offset c.
Definition get_emb_key (c : JOIN_CACHE) (m : mem) (ref_ptr : Z) : Z := buff c + get_offset (size_of_rec_ofs c) m ref_ptr.
Definition store_emb_key_ref (c : JOIN_CACHE) (m : mem) (ref_ptr ref : Z) : mem :=
  store_offset (size_of_rec_ofs c) m ref_ptr (ref - buff c).
Definition hashed_prefix_length (c : JOIN_CACHE) : Z := u32 (base_prefix_length c + size_of_rec_ofs c).
Definition hashed_rem_space (c : JOIN_CACHE) : Z :=
  let left := u64 (u64 (last_key_entry c - end_pos c) - aux_buff_size c) in if left >? 0 then left else 0.
Definition extra_key_length (c : JOIN_CACHE) : Z := key_entry_length c.
Definition get_curr_key_chain (c : JOIN_CACHE) (m : mem) : Z :=
  get_next_rec_ref c m (curr_key_entry c + key_entry_length c - size_of_rec_ofs c).

(** *** [JOIN_CACHE_BKA] and [JOIN_CACHE_BKAH]: the ranges and the buffer of the multi-range read *)

Definition bka_number_of_ranges (c : JOIN_CACHE) : Z := u32 (records c).
Definition bka_setup_aux_buffer (c : JOIN_CACHE) : Z * Z := (end_pos c, buff c + buff_size c).
Definition bkah_number_of_ranges (c : JOIN_CACHE) : Z := key_entries c.
Definition bkah_setup_aux_buffer (c : JOIN_CACHE) : Z * Z := (end_pos c, last_key_entry c).

(** ** Linked caches *)

(** The caches by address with their neighbours; the constructor links a new one behind [prev]. *)
Record links := MkLinks { prev_cache : Z; next_cache : Z }.
Definition new_cache (this : Z) (st : gmap Z links) : gmap Z links := <[this := MkLinks 0 0]> st.
Definition new_linked_cache (this prev : Z) (st : gmap Z links) : option (gmap Z links) :=
  let st := <[this := MkLinks prev 0]> st in
  if nz prev then l ← st !! prev; Some (<[prev := MkLinks (prev_cache l) this]> st) else Some st.

(** ** What the references show *)

Module Props.

Lemma offset_size_fits len : 0 <= len -> len <= 2 ^ 32 ->
  (offset_size len = 1 /\ len < 2 ^ 8) \/ (offset_size len = 2 /\ len < 2 ^ 16) \/ (offset_size len = 4 /\ len <= 2 ^ 32).
Proof.
  intros H0 Hl. unfold offset_size. destruct (Z.ltb_spec len 256); [left; lia|]. destruct (Z.ltb_spec len (256 * 256)); [right; left; lia|].
  right. right. lia.
Qed.

Lemma store_offset_written len m ptr ofs :
  0 <= ofs < len -> len <= 2 ^ 32 ->
  written m (store_offset (offset_size len) m ptr ofs) ptr (to_digits 8 (Z.to_nat (offset_size len)) ofs).
Proof.
  intros Ho Hl. destruct (offset_size_fits len) as [[E L]|[[E L]|[E L]]]; [lia|done|..]; rewrite E; unfold store_offset; simpl Z.to_nat.
  - cbn [Z.eqb Pos.eqb]. cbn [to_digits]. apply written_put.
  - change (2 =? 1) with false. change (2 =? 2) with true. cbn iota. unfold X86_64.int2store.
    rewrite (wrapU_small 16 (u16 ofs)) by (apply wrapU_range; lia). rewrite (wrapU_small 16) by (unfold in_u; lia). apply store_written.
  - change (4 =? 1) with false. change (4 =? 2) with false. change (4 =? 4) with true. cbn iota. unfold X86_64.int4store.
    rewrite (wrapU_small 32 (u32 ofs)) by (apply wrapU_range; lia). rewrite (wrapU_small 32) by (unfold in_u; lia). apply store_written.
Qed.

(** An offset below the size it is stored for is read back, and no other byte changes. *)
Lemma offset_roundtrip len m ptr ofs :
  0 <= ofs < len -> len <= 2 ^ 32 ->
  let m' := store_offset (offset_size len) m ptr ofs in
  get_offset (offset_size len) m' ptr = ofs /\ (forall x, x < ptr \/ ptr + offset_size len <= x -> m' x = m x).
Proof.
  intros Ho Hl m'. pose proof (store_offset_written len m ptr ofs Ho Hl) as W. fold m' in W. split.
  - pose proof (written_get_le m m' ptr (Z.to_nat (offset_size len)) ofs W) as G. destruct W as [B _].
    destruct (offset_size_fits len) as [[E L]|[[E L]|[E L]]]; [lia|done|..]; rewrite E in *; unfold get_offset.
    + change (1 =? 1) with true. cbn iota. cbn in B. injection B as B. unfold ix in B. rewrite Z.add_0_r in B. rewrite B.
      apply wrapU_small. unfold in_u. lia.
    + change (2 =? 1) with false. change (2 =? 2) with true. cbn iota. unfold X86_64.uint2korr. change (Z.to_nat 2) with 2%nat in G. rewrite G.
      rewrite (wrapU_small _ ofs) by (unfold in_u; simpl; lia). apply wrapU_small. unfold in_u. lia.
    + change (4 =? 1) with false. change (4 =? 2) with false. change (4 =? 4) with true. cbn iota. unfold X86_64.uint4korr.
      change (Z.to_nat 4) with 4%nat in G. rewrite G. rewrite (wrapU_small _ ofs) by (unfold in_u; simpl; lia). apply wrapU_small. unfold in_u. lia.
  - destruct W as [_ F]. intros x Hx. apply F. rewrite length_to_digits. rewrite Z2Nat.id by (unfold offset_size; repeat case_match; lia). done.
Qed.

(** Beyond 4 GB the four bytes are not enough. *)
Lemma offset_truncated : offset_size (2 ^ 32 + 1) = 4 /\ get_offset 4 (store_offset 4 (fun _ => 0) 0 (2 ^ 32)) 0 = 0.
Proof. done. Qed.

(** References to records and embedded keys, and between key entries, are read back. *)
Lemma references_roundtrip c m ptr ref :
  size_of_rec_ofs c = offset_size (buff_size c) -> size_of_key_ofs c = offset_size (buff_size c) ->
  buff_size c <= 2 ^ 32 -> buff c <= ref < buff c + buff_size c ->
  get_rec_ref c (store_rec_ref c m ptr ref) ptr = ref /\
  get_next_rec_ref c (store_next_rec_ref c m ptr ref) ptr = ref /\
  get_emb_key c (store_emb_key_ref c m ptr ref) ptr = ref /\
  (hash_table c - buff_size c < ref <= hash_table c -> get_next_key_ref c (store_next_key_ref c m ptr ref) ptr = ref).
Proof.
  intros E1 E2 Hl Hr.
  assert (O : forall p o, 0 <= o < buff_size c -> get_offset (offset_size (buff_size c)) (store_offset (offset_size (buff_size c)) m p o) p = o)
    by (intros p o Ho; by apply offset_roundtrip).
  unfold get_rec_ref, store_rec_ref, get_next_rec_ref, store_next_rec_ref, get_emb_key, store_emb_key_ref, get_next_key_ref, store_next_key_ref.
  rewrite E1, E2. split_and!; intros; rewrite O by lia; lia.
Qed.

(** A reference to a key entry is null exactly when it points to the hash table itself. *)
Lemma null_key_ref c m ptr ref :
  size_of_key_ofs c = offset_size (buff_size c) -> buff_size c <= 2 ^ 32 -> hash_table c - buff_size c < ref <= hash_table c ->
  is_null_key_ref c (store_next_key_ref c m ptr ref) ptr = (ref =? hash_table c) /\
  is_null_key_ref c (store_null_key_ref c m ptr) ptr = true.
Proof.
  intros E Hl Hr.
  assert (N : forall o, 0 <= o < buff_size c -> is_null_key_ref c (store_offset (size_of_key_ofs c) m ptr o) ptr = (o =? 0)).
  { intros o Ho. unfold is_null_key_ref. rewrite E. pose proof (store_offset_written (buff_size c) m ptr o Ho Hl) as [B _].
    rewrite length_to_digits in B. rewrite B. pose proof (from_to_digits 8 (Z.to_nat (offset_size (buff_size c))) o ltac:(lia)) as D.
    rewrite wrapU_small in D.
    - destruct (Z.eqb_spec o 0) as [->|Hn].
      + destruct (offset_size_fits (buff_size c)) as [[-> _]|[[-> _]|[-> _]]]; try done; lia.
      + apply not_true_iff_false. intros A. apply Hn. rewrite <- D. clear D B Hn. induction (to_digits _ _ _) as [|d ds IH]; [done|].
        cbn [forallb] in A. apply andb_true_iff in A as [A1 A2]. apply Z.eqb_eq in A1 as ->. cbn [from_digits]. by rewrite IH.
    - unfold in_u. destruct (offset_size_fits (buff_size c)) as [[-> L]|[[-> L]|[-> L]]]; [lia|done|..];
        [change (8 * Z.of_nat (Z.to_nat 1)) with 8|change (8 * Z.of_nat (Z.to_nat 2)) with 16|change (8 * Z.of_nat (Z.to_nat 4)) with 32]; lia. }
  unfold store_next_key_ref, store_null_key_ref. split.
  - rewrite N by lia. destruct (Z.eqb_spec (hash_table c - ref) 0), (Z.eqb_spec ref (hash_table c)); done || lia.
  - rewrite N by lia. done.
Qed.

(** The remaining space is exact while the auxiliary buffer fits; when it does not, the
    difference wraps and the maximum with 0 does not help: the result is huge. *)
Lemma rem_space_exact c :
  let left := buff_size c - (end_pos c - buff c) in
  in_u 64 left -> in_u 64 (aux_buff_size c) ->
  rem_space c = if aux_buff_size c <=? left then left - aux_buff_size c else 2 ^ 64 + left - aux_buff_size c.
Proof.
  intros left Hl Ha. unfold rem_space. fold left. unfold in_u in *. rewrite (wrapU_small 64 left) by (unfold in_u; lia). rewrite Z.gtb_ltb.
  destruct (Z.leb_spec (aux_buff_size c) left).
  - rewrite wrapU_small by (unfold in_u; lia). destruct (Z.ltb_spec 0 (left - aux_buff_size c)); lia.
  - assert (E : u64 (left - aux_buff_size c) = 2 ^ 64 + left - aux_buff_size c).
    { unfold wrapU. symmetry. apply (Z.mod_unique_pos _ _ (-1)); lia. }
    rewrite E. destruct (Z.ltb_spec 0 (2 ^ 64 + left - aux_buff_size c)); lia.
Qed.

Lemma hashed_rem_space_wraps c :
  in_u 64 (last_key_entry c - end_pos c) -> in_u 64 (aux_buff_size c) -> last_key_entry c - end_pos c < aux_buff_size c ->
  hashed_rem_space c = 2 ^ 64 + (last_key_entry c - end_pos c) - aux_buff_size c.
Proof.
  intros Hl Ha Hlt. unfold hashed_rem_space. unfold in_u in *. rewrite (wrapU_small 64 (last_key_entry c - end_pos c)) by (unfold in_u; lia).
  rewrite Z.gtb_ltb. set (left := last_key_entry c - end_pos c) in *.
  assert (E : u64 (left - aux_buff_size c) = 2 ^ 64 + left - aux_buff_size c).
  { unfold wrapU. symmetry. apply (Z.mod_unique_pos _ _ (-1)); lia. }
  rewrite E. destruct (Z.ltb_spec 0 (2 ^ 64 + left - aux_buff_size c)); lia.
Qed.

(** A linked cache and the one before it point to each other. *)
Lemma linked_both_ways this prev st st' :
  nz prev = true -> this <> prev -> new_linked_cache this prev st = Some st' ->
  prev_cache <$> st' !! this = Some prev /\ next_cache <$> st' !! prev = Some this /\
  (forall q, q <> this -> q <> prev -> st' !! q = st !! q).
Proof.
  intros Hp Hne. unfold new_linked_cache. rewrite Hp, lookup_insert_ne by done. destruct (st !! prev) as [l|]; [|done].
  simpl. intros [= <-]. split; [by rewrite lookup_insert_ne, lookup_insert_eq by done|]. split; [by rewrite lookup_insert_eq|].
  intros q H1 H2. by rewrite !lookup_insert_ne by done.
Qed.
End Props.
